(* ===== verification/_CoqProject ===== *)
-Q . S2P
Prelude.v
Mem.v
CString.v
KState.v
Sched.v
Bio.v
Cache.v
Log.v
Spinlock.v
Kalloc.v
Ring.v
Pipe.v
Grep.v
Printf.v
Mp.v
Block.v
Inode.v
Bmap.v
Console.v
Fileio.v
Dir.v
Vm.v
File.v
Sysarg.v
Exec.v
Process.v
Sysfile.v
Trap.v
Paging.v
Addrspace.v
Image.v
Load.v
Lifecycle.v
Fork.v
Umalloc.v
Shell.v
ShellSpec.v
ShellRun.v
Discipline.v
ProdCons.v
ReadersWriters.v
Philosophers.v
Simulador.v
Gmsimples.v
Gm.v
Mmu.v
Mkfs.v
Ide.v
Boot.v
Devices.v
Asm.v
UserProgs.v
Strtok.v
