(* ===== verification/Prelude.v ===== *)
(** * Verification of the operating-systems course repository

    The repository holds the xv6 teaching kernel with its user programs
    (src/xv6) and the programs of an operating-systems course: memory
    managers, a scheduler simulator, synchronisation problems and examples
    of system calls.  This library models the kernel and the programs
    function by function and proves what makes them correct.

    ** The parts of the program and how they interact

    The kernel is a stack of layers.  bio.c caches disk blocks over a disk
    driver (memide.c or ide.c); log.c makes groups of block writes atomic
    over the cache; fs.c builds blocks, inodes, directories and paths over
    both; file.c, sysfile.c and exec.c turn them into system calls.
    kalloc.c hands out physical pages to vm.c, proc.c and pipe.c.  proc.c
    creates, schedules and ends the processes; every layer waits with its
    sleep and wakeup, and protects its data with the spin locks of
    spinlock.c.  trap.c and syscall.c enter the kernel.  mkfs.c makes, on
    the host, the disk image that the kernel reads.  bootmain.c loads the
    kernel, mp.c finds the processors, and picirq.c, ioapic.c, lapic.c,
    timer.c and uart.c drive the rest of the board.  The user programs
    (init.c, the shell sh.c, grep.c, the allocator umalloc.c, the small
    commands, the shell of the course) run over the system calls.  The
    other programs of the course are independent of the kernel.

    ** How the code is modelled

    - Integers are [Z]; the conversions and wrap-around of C are written
      out ([u8], [u16], [u32], [s16], [s32]).
    - Memory is a finite map of byte addresses ([Mem]); page contents, page
      tables, the free list of kalloc.c, the heap of umalloc.c and the
      strings of string.c live in it.
    - The kernel's global variables are the fields of one record, [kstate]
      ([KState]); each struct of the headers is a record, a pointer into a
      table is the index of the entry.
    - Kernel code runs in a monad ([prog]): a run returns or stops with a
      panic, a wild dereference ([Fault]), exhausted fuel, or a switch to
      the scheduler.  A function that sleeps stops with [Switch]; a
      separate definition models its loop, which is where a woken process
      resumes, so that interleavings of processes are sequences of runs.
    - Locks follow the contract of [KState.acquire] and [KState.release];
      [Spinlock] proves that spinlock.c, run by several processors,
      implements it, and [Discipline] that the kernel code keeps to it.
    - Devices are type classes: the accesses, what can be observed, and the
      laws that data sheets state; each has an instance.
    - The small user programs are interaction trees over the system calls,
      run against any kernel that answers them.
    - Programs with threads are step relations: a thread is a program
      counter, a statement is a step, a run is any interleaving.

    ** Files

    - [Prelude]: integers, the monad, loops, little-endian encoding, parts
      of byte lists, frame reasoning ([keeps]), tactics and hints.
    - [Mem], [CString]: byte memory; string.c and the string part of ulib.c.
    - [KState]: data structures, the lock contract, accessors.
    - [Sched]: the part of proc.c that sleeps, wakes, kills and schedules.
    - [Bio], [Cache]: bio.c and memide.c; the interface of the cache.
    - [Log]: log.c and readsb of fs.c.
    - [Spinlock]: spinlock.c on several processors, as a step relation.
    - [Kalloc]: kalloc.c.
    - [Ring], [Pipe]: ring buffers with wrapping counters; pipe.c.
    - [Grep], [Printf]: grep.c; printf.c, the printing part of console.c,
      atoi of ulib.c.
    - [Block], [Inode], [Bmap], [Fileio], [Dir]: fs.c, from the bitmap of
      free blocks over inodes and their blocks to directories and paths.
    - [Console]: console.c and kbd.c, kbd.h.
    - [Vm], [Paging], [Addrspace]: vm.c; what its functions do to page
      tables; whole address spaces.
    - [File], [Sysarg], [Exec], [Process], [Sysfile], [Trap]: file.c, the
      rest of pipe.c, syscall.c, exec.c, the rest of proc.c, sysfile.c,
      sysproc.c and trap.c; [Lifecycle] and [Fork] have the theorems on
      exit, wait and fork; [Image] and [Load] those on the stack and the
      segments of a program that exec starts.
    - [Discipline]: which locks every function of the kernel takes and
      gives back, up to [trap].
    - [Umalloc]: umalloc.c over the sbrk of the kernel.
    - [Shell], [ShellSpec], [ShellRun]: sh.c; the grammar its parser
      decides; what the programs it starts have open.
    - [Mkfs]: mkfs.c, and what the kernel finds on its image.
    - [ProdCons], [ReadersWriters], [Philosophers]: mysem.c with
      ProdutorConsumidor.c, LeitorRedator.c, Filosofos.c.
    - [Simulador]: the scheduler simulator of programas-exemplo.
    - [Gmsimples], [Gm], [Mmu]: the memory managers gmsimples.c, gm.c and
      MMU.c of gerencia-de-memoria, each with its main.
    - [Ide]: ide.c over a class of devices, with the laws that the driver
      relies on and a memory-backed instance.
    - [Boot]: bootmain.c over the same class.
    - [Mp]: mp.c and mp.h.
    - [Devices]: picirq.c, ioapic.c, lapic.c, timer.c and uart.c over one
      class for each chip, with a board that has all of them.
    - [UserProgs]: cat.c, echo.c, wc.c, ls.c, ln.c, mkdir.c, rm.c, kill.c,
      zombie.c, forktest.c and init.c.
    - [Strtok]: strtok.c and the shell of the course, shellcustom.c, which is
      shellsimples.c as compiled for xv6.
    - [Asm]: trapasm.S, the code of vectors.pl, usys.S, swtch.S and the
      start of initcode.S, on a machine with the instructions they use.

    ** What the theorems show

    - Strings: the effect of memmove, strncmp, strncpy and safestrcpy on
      memory, overlapping regions and unterminated fields included.
    - Scheduling: no wakeup is lost between testing a condition and
      sleeping; kill marks and wakes exactly its target.
    - Cache: the invariant of the LRU list and of the flags is established
      and kept; [bread] shows the current contents of a block; [bwrite] and
      [brelse] change exactly what they say.
    - Log: a crash after any disk write of a commit and a reboot leave all
      or none of the transaction; recovery can be repeated; the space
      accounting of [begin_op] and [log_write], and where it fails.
    - Spin locks: mutual exclusion with interrupts off; refinement of the
      contract; every trap leaves the locks as it found them, or gives up
      the processor with the one lock the scheduler expects.
    - Files: blocks are allocated and freed one by one and never twice;
      [readi] and [writei] read and write the bytes of the file and keep
      the invariants of files and bitmap; [dirlookup] and [dirlink] work on
      the list of entries; a path is its components.
    - Memory: the free list is exactly the pages freed and not allocated;
      mapping, growing, shrinking, copying and freeing address spaces, down
      to the words of the page tables; failures that lose pages.
    - Processes: exit and wait hand over the zombie, its memory and its
      children; the child of fork has a copy of the memory, the registers
      and the open files; exec loads the segments of the file and lays out
      the stack with the arguments.
    - Assembly: every trap is invisible to the code it interrupts; a stub of
      usys.S is a call of the function of its number; [swtch] returns to its
      caller when it is switched back to.
    - IDE: a request through the queue, the ports and the interrupt does
      what the memory disk does.
    - Boot: the loader puts every byte of the kernel where its headers say;
      the walk through the tables of the BIOS finds the processors, and
      spins on an entry it does not know.
    - Devices: the two 8259A and the I/O APIC let through exactly the lines
      that were enabled, with the vectors of traps.h; the local APIC is
      programmed and starts other processors at the right page; the time
      read from the clock is one it showed; characters are sent and
      received in order.
    - Pipes: first in, first out, for every interleaving.
    - Console: the ring buffer is a line editor; the cursor stays on the
      screen.
    - User programs: the matcher of grep decides the language of its
      expression; printf prints what atoi reads back; malloc and free keep
      the free list and never overlap blocks; the shell accepts exactly its
      grammar, and connects programs by pipes as the line says; wc counts
      what it reads however it is delivered; init keeps a shell running.
    - mkfs: the kernel finds on the image every file, by name, with its
      bytes, and a bitmap, a log and a superblock that fit.
    - Course programs: the producer and the consumer pass the items in
      order and never block each other for good; writers are alone;
      philosophers that eat own their spoons; the simulated scheduler is
      round robin.  The schedules that break the readers and writers and
      the access outside of the array of spoons are theorems too.  The
      memory managers take the first, the smallest or the largest block that
      fits, split it and join it with its neighbours when it is released;
      the cases in which they lose blocks, write over a header, follow a
      null pointer or make the list circular are stated as well.  The simple
      shell executes the words of a line, however the buffer looked before.

    ** Bounds and fuel

    The loops over the LRU list take fuel [S NBUF], the length of the list,
    and the loops over tables run as many steps as the table has entries.
    Loops over a range of addresses or bytes take the number of pages or
    bytes plus one or two.  The matcher of grep is structural on its input;
    the parser of the shell takes fuel of the length of the line, and a
    theorem shows it is enough.  Loops that divide (printint) run at most 32
    steps, one per bit.  Loops that poll a device take the bound that the
    class of the device gives for it.  [malloc] walks the free list with fuel that the
    theorems bound by the length of the list; those of the memory managers of
    the course take the number of headers that fit into the area.  [strtok]
    takes the length of the buffer of the shell.  A run that would exhaust its
    fuel stops with [NoFuel], which no theorem accepts as a result.

    ** Not modelled

    The assembly of the boot (bootasm.S, entry.S, entryother.S) and the
    sequence of calls in main.c, segment descriptors, the test suites
    usertests.c and stressfs.c, earlier versions of the memory managers and
    shells of the course (gmdebug.c, the shells for Linux), programs that do
    not compile (the sleeping barber, one copy of the simulator), and the
    examples that only call the host system. *)

From stdpp Require Import base list list_numbers numbers gmap strings.
From Stdlib Require Import ZArith Lia.

#[global] Open Scope Z_scope.

(** ** Machine integers

    A C [uint] is a [Z] in [0, 2^32); [u32] is the conversion the C
    compiler inserts.  An [int] is a [Z] in [-2^31, 2^31) and [s32] the
    two's-complement reading of a 32-bit pattern. *)

Definition u8 (x : Z) : Z := x mod 2 ^ 8.
Definition u16 (x : Z) : Z := x mod 2 ^ 16.
Definition u32 (x : Z) : Z := x mod 2 ^ 32.
Definition s32 (x : Z) : Z := (x + 2 ^ 31) mod 2 ^ 32 - 2 ^ 31.
Definition s16 (x : Z) : Z := (x + 2 ^ 15) mod 2 ^ 16 - 2 ^ 15.

(** ** Flag words: [f & m], [f |= m], [f &= ~m] *)

Definition flag (f m : Z) : bool := negb (Z.land f m =? 0).
Definition fset (f m : Z) : Z := Z.lor f m.
Definition fclr (f m : Z) : Z := Z.land f (Z.lnot m).

(** ** Computations with state

    [out] is the outcome of running a piece of C: it returns a value, or
    it stops (panic, sleep, invalid access, ...) with a reason. *)

Inductive out (E S A : Type) : Type :=
| Ret (a : A) (s : S)
| Stop (e : E) (s : S).
Arguments Ret {E S A} a s.
Arguments Stop {E S A} e s.

Definition prog (E S A : Type) : Type := S -> out E S A.

#[global] Instance prog_ret {E S} : MRet (prog E S) := fun A a s => Ret a s.
#[global] Instance prog_bind {E S} : MBind (prog E S) :=
  fun A B f m s =>
    match m s with
    | Ret a s' => f a s'
    | Stop e s' => Stop e s'
    end.

Definition stop {E S A} (e : E) : prog E S A := fun s => Stop e s.
Definition getst {E S} : prog E S S := fun s => Ret s s.
Definition gets {E S A} (f : S -> A) : prog E S A := fun s => Ret (f s) s.
Definition modify {E S} (f : S -> S) : prog E S unit := fun s => Ret tt (f s).

(** A loop [for (i = lo; ...; i++) body]: [n] iterations of the body. *)
Fixpoint for_loop {E S} (n : nat) (i : Z) (body : Z -> prog E S unit)
  : prog E S unit :=
  match n with
  | O => mret tt
  | Datatypes.S n' => body i ;; for_loop n' (i + 1) body
  end.

(** ** Little-endian encoding *)

Fixpoint le_enc (n : nat) (x : Z) : list Z :=
  match n with
  | O => []
  | S n' => x mod 256 :: le_enc n' (x / 256)
  end.

Fixpoint le_dec (l : list Z) : Z :=
  match l with
  | [] => 0
  | b :: l' => b + 256 * le_dec l'
  end.

Definition bytes (l : list Z) : Prop := Forall (fun b => 0 <= b < 256) l.

(** Overwriting the slice of [l] that starts at [i] with [v]. *)
Definition splice {A} (l : list A) (i : nat) (v : list A) : list A :=
  take i l ++ v ++ drop (i + length v) l.

Definition slice {A} (l : list A) (i n : nat) : list A := take n (drop i l).

(** ** Lemmas on programs *)

Section programs.
Context {E S : Type}.

Lemma bind_run {A B} (m : prog E S A) (f : A -> prog E S B) s :
  (m ≫= f) s = match m s with Ret a s' => f a s' | Stop e s' => Stop e s' end.
Proof. reflexivity. Qed.

Lemma bind_Ret {A B} (m : prog E S A) (f : A -> prog E S B) s a s' :
  m s = Ret a s' -> (m ≫= f) s = f a s'.
Proof. intros H. rewrite bind_run, H. reflexivity. Qed.

Lemma bind_Stop {A B} (m : prog E S A) (f : A -> prog E S B) s e s' :
  m s = Stop e s' -> (m ≫= f) s = Stop e s'.
Proof. intros H. rewrite bind_run, H. reflexivity. Qed.

Lemma bind_Ret_inv {A B} (m : prog E S A) (f : A -> prog E S B) s b s2 :
  (m ≫= f) s = Ret b s2 -> exists a s1, m s = Ret a s1 /\ f a s1 = Ret b s2.
Proof.
  rewrite bind_run. destruct (m s) as [a s1|e s1]; [eauto | discriminate].
Qed.

Lemma bind_assoc {A B C} (m : prog E S A) (f : A -> prog E S B)
    (g : B -> prog E S C) s :
  ((m ≫= f) ≫= g) s = (m ≫= fun a => f a ≫= g) s.
Proof. rewrite !bind_run. destruct (m s); reflexivity. Qed.

Lemma ret_bind {A B} (a : A) (f : A -> prog E S B) s :
  (mret a ≫= f) s = f a s.
Proof. reflexivity. Qed.

Lemma bind_ext {A B} (m : prog E S A) (f g : A -> prog E S B) s :
  (forall a s', f a s' = g a s') -> (m ≫= f) s = (m ≫= g) s.
Proof. intros H. rewrite !bind_run. destruct (m s); [apply H | reflexivity]. Qed.

Lemma for_loop_S n i (body : Z -> prog E S unit) s :
  for_loop (Datatypes.S n) i body s =
  match body i s with
  | Ret _ s' => for_loop n (i + 1) body s'
  | Stop e s' => Stop e s'
  end.
Proof. reflexivity. Qed.

(** Rule for counted loops: an invariant indexed by the counter. *)
Lemma for_loop_inv (I : Z -> S -> Prop) (body : Z -> prog E S unit) n :
  forall i s,
  I i s ->
  (forall j s, i <= j < i + Z.of_nat n -> I j s ->
     exists s', body j s = Ret tt s' /\ I (j + 1) s') ->
  exists s', for_loop n i body s = Ret tt s' /\ I (i + Z.of_nat n) s'.
Proof.
  induction n as [|n IH]; intros i s Hi Hb.
  - exists s. split; [reflexivity|]. rewrite Z.add_0_r. exact Hi.
  - destruct (Hb i s ltac:(lia) Hi) as (s1 & H1 & HI1).
    destruct (IH (i + 1) s1 HI1) as (s2 & H2 & HI2).
    { intros j s' Hj. apply Hb. lia. }
    exists s2. rewrite for_loop_S, H1. split; [exact H2|].
    replace (i + Z.of_nat (Datatypes.S n)) with (i + 1 + Z.of_nat n) by lia.
    exact HI2.
Qed.

(** [keeps f m]: when [m] returns, [f] of the state is what it was. *)
Definition keeps {A B} (f : S -> B) (m : prog E S A) : Prop :=
  forall s a s', m s = Ret a s' -> f s' = f s.

Lemma keeps_ret {A B} (f : S -> B) (a : A) : keeps f (mret a).
Proof. by intros s b s' [= _ <-]. Qed.

Lemma keeps_bind {A B C} (f : S -> C) (m : prog E S A) (k : A -> prog E S B) :
  keeps f m -> (forall a, keeps f (k a)) -> keeps f (m ≫= k).
Proof.
  intros Hm Hk s b s2 (a & s1 & H1 & H2)%bind_Ret_inv.
  rewrite (Hk _ _ _ _ H2). by apply (Hm _ _ _ H1).
Qed.

Lemma keeps_stop {A B} (f : S -> B) e : keeps f (stop e : prog E S A).
Proof. by intros s a s'. Qed.

Lemma keeps_gets {A B} (f : S -> B) (g : S -> A) : keeps f (gets g : prog E S A).
Proof. by intros s a s' [= _ <-]. Qed.

Lemma keeps_getst {B} (f : S -> B) : keeps f (getst : prog E S S).
Proof. by intros s a s' [= _ <-]. Qed.

Lemma keeps_modify {B} (f : S -> B) (g : S -> S) :
  (forall s, f (g s) = f s) -> keeps f (modify g : prog E S unit).
Proof. by intros H s a s' [= _ <-]. Qed.

Lemma keeps_for_loop {B} (f : S -> B) n (body : Z -> prog E S unit) : forall i,
  (forall j, keeps f (body j)) -> keeps f (for_loop n i body).
Proof. induction n as [|n IH]; intros i H; [apply keeps_ret|]. apply keeps_bind; auto. Qed.

End programs.

(** ** Lemmas on machine integers and flags *)

Lemma u32_range x : 0 <= u32 x < 2 ^ 32.
Proof. apply Z.mod_pos_bound. lia. Qed.

Lemma u32_small x : 0 <= x < 2 ^ 32 -> u32 x = x.
Proof. apply Z.mod_small. Qed.

Lemma u8_range x : 0 <= u8 x < 256.
Proof. apply Z.mod_pos_bound. lia. Qed.

Lemma u8_small x : 0 <= x < 256 -> u8 x = x.
Proof. apply Z.mod_small. Qed.

Lemma s32_small x : - 2 ^ 31 <= x < 2 ^ 31 -> s32 x = x.
Proof. intros. unfold s32. rewrite Z.mod_small; lia. Qed.

Lemma s32_range x : - 2 ^ 31 <= s32 x < 2 ^ 31.
Proof.
  unfold s32. pose proof (Z.mod_pos_bound (x + 2 ^ 31) (2 ^ 32) ltac:(lia)). lia.
Qed.

Lemma flag_bit k f : 0 <= k -> flag f (2 ^ k) = Z.testbit f k.
Proof.
  intros Hk. unfold flag. destruct (Z.testbit f k) eqn:Hb.
  - apply negb_true_iff, Z.eqb_neq. intros H0.
    assert (Z.testbit (Z.land f (2 ^ k)) k = false) as H1
      by (rewrite H0; apply Z.bits_0).
    rewrite Z.land_spec, Hb, Z.pow2_bits_true in H1 by lia. discriminate.
  - apply negb_false_iff, Z.eqb_eq. apply Z.bits_inj'. intros i Hi.
    rewrite Z.land_spec, Z.bits_0.
    destruct (Z.eq_dec i k) as [->|Hne]; [by rewrite Hb|].
    rewrite (Z.pow2_bits_false k i) by lia. apply andb_false_r.
Qed.

Lemma flag_fset_same k f : 0 <= k -> flag (fset f (2 ^ k)) (2 ^ k) = true.
Proof.
  intros. rewrite flag_bit by lia. unfold fset.
  rewrite Z.lor_spec, Z.pow2_bits_true by lia. apply orb_true_r.
Qed.

Lemma flag_fset_other k j f :
  0 <= k -> 0 <= j -> k <> j -> flag (fset f (2 ^ k)) (2 ^ j) = flag f (2 ^ j).
Proof.
  intros. rewrite !flag_bit by lia. unfold fset.
  rewrite Z.lor_spec, (Z.pow2_bits_false k j) by lia. apply orb_false_r.
Qed.

Lemma flag_fclr_same k f : 0 <= k -> flag (fclr f (2 ^ k)) (2 ^ k) = false.
Proof.
  intros. rewrite flag_bit by lia. unfold fclr.
  rewrite Z.land_spec, Z.lnot_spec, Z.pow2_bits_true by lia. apply andb_false_r.
Qed.

Lemma flag_fclr_other k j f :
  0 <= k -> 0 <= j -> k <> j -> flag (fclr f (2 ^ k)) (2 ^ j) = flag f (2 ^ j).
Proof.
  intros. rewrite !flag_bit by lia. unfold fclr.
  rewrite Z.land_spec, Z.lnot_spec, (Z.pow2_bits_false k j) by lia.
  apply andb_true_r.
Qed.

(** Or-ing a small value into a shifted one is an addition. *)
Lemma lor_add hi lo k :
  0 <= k -> 0 <= lo < 2 ^ k -> Z.lor (hi * 2 ^ k) lo = hi * 2 ^ k + lo.
Proof.
  intros Hk Hlo. pose proof (Z.add_lor_land (hi * 2 ^ k) lo) as H.
  assert (Z.land (hi * 2 ^ k) lo = 0) as H0; [|lia].
  apply Z.bits_inj'. intros i Hi. rewrite Z.land_spec, Z.bits_0.
  destruct (Z.lt_ge_cases i k).
  - rewrite Z.mul_pow2_bits_low by lia. done.
  - rewrite <- (Z.mod_small lo (2 ^ k)), Z.mod_pow2_bits_high by lia.
    apply andb_false_r.
Qed.

(** ** Lemmas on encodings *)

Lemma length_le_enc n x : length (le_enc n x) = n.
Proof. revert x. induction n; intros; cbn; [done | by rewrite IHn]. Qed.

Lemma le_enc_bytes n x : bytes (le_enc n x).
Proof.
  revert x. induction n; intros; cbn; constructor; [|apply IHn].
  apply Z.mod_pos_bound. lia.
Qed.

Lemma le_dec_enc n x : 0 <= x < 256 ^ Z.of_nat n -> le_dec (le_enc n x) = x.
Proof.
  revert x. induction n as [|n IH]; intros x Hx.
  - cbn in *. lia.
  - cbn [le_enc le_dec]. rewrite Nat2Z.inj_succ, Z.pow_succ_r in Hx by lia.
    rewrite IH; [|split; [apply Z.div_pos; lia | apply Z.div_lt_upper_bound; lia]].
    pose proof (Z.div_mod x 256). lia.
Qed.

Lemma le_enc_dec l : bytes l -> le_enc (length l) (le_dec l) = l.
Proof.
  induction 1 as [|b l Hb Hl IH]; [done|]. cbn [length le_enc le_dec].
  rewrite (Z.add_comm b), (Z.mul_comm 256), Z.add_mod, Z.mod_mul, Z.add_0_l by lia.
  rewrite Z.mod_mod, (Z.mod_small b) by lia.
  rewrite Z.div_add_l, (Z.div_small b), Z.add_0_r, IH by lia. done.
Qed.

Lemma le_dec_range l : bytes l -> 0 <= le_dec l < 256 ^ Z.of_nat (length l).
Proof.
  induction 1 as [|b l Hb Hl IH]; [cbn; lia|].
  cbn [length le_dec]. rewrite Nat2Z.inj_succ, Z.pow_succ_r by lia. lia.
Qed.

(** ** Lemmas on slices *)

Section slices.
Context {A : Type}.
Implicit Types (l v : list A) (x : A).

Lemma length_splice l i v :
  (i + length v <= length l)%nat -> length (splice l i v) = length l.
Proof.
  intros. unfold splice. rewrite !length_app, length_take, length_drop. lia.
Qed.

Lemma slice_splice l i v :
  (i + length v <= length l)%nat -> slice (splice l i v) i (length v) = v.
Proof.
  intros. unfold slice, splice.
  rewrite drop_app_le by (rewrite length_take; lia).
  rewrite (drop_ge (take i l)) by (rewrite length_take; lia).
  cbn. rewrite take_app_length. done.
Qed.

Lemma lookup_splice_ne l i v k :
  (i + length v <= length l)%nat -> (k < i \/ i + length v <= k)%nat ->
  splice l i v !! k = l !! k.
Proof.
  intros Hl Hk. unfold splice. destruct Hk.
  - rewrite lookup_app_l by (rewrite length_take; lia).
    rewrite lookup_take_lt by lia. done.
  - rewrite lookup_app_r by (rewrite length_take; lia).
    rewrite lookup_app_r by (rewrite length_take; lia).
    rewrite lookup_drop, length_take. f_equal. lia.
Qed.

Lemma lookup_splice_eq l i v k :
  (i + length v <= length l)%nat -> (i <= k < i + length v)%nat ->
  splice l i v !! k = v !! (k - i)%nat.
Proof.
  intros Hl Hk. unfold splice.
  rewrite lookup_app_r by (rewrite length_take; lia).
  rewrite length_take, Nat.min_l by lia. rewrite lookup_app_l by lia. done.
Qed.

Lemma slice_splice_ne l i v j n :
  (i + length v <= length l)%nat -> (j + n <= i \/ i + length v <= j)%nat ->
  slice (splice l i v) j n = slice l j n.
Proof.
  intros Hl Hd. apply list_eq. intros k. unfold slice. destruct (decide (k < n)%nat).
  - rewrite !lookup_take_lt, !lookup_drop by done. apply lookup_splice_ne; lia.
  - by rewrite !lookup_take_ge by lia.
Qed.

End slices.

(** ** Automation *)

Create HintDb so2017.
#[export] Hint Resolve u32_range u8_range le_enc_bytes : so2017.
Create Rewrite HintDb so2017.
#[export] Hint Rewrite @length_le_enc : so2017.

Create HintDb keeps.
#[export] Hint Resolve keeps_ret keeps_stop keeps_gets keeps_getst : keeps.

#[export] Hint Extern 1 (_ = _) => reflexivity : keeps.

(** [keep] proves that a program keeps a field, one command at a time. *)
Ltac keep :=
  repeat first
  [ match goal with |- forall _, _ => intro end
  | solve [auto 2 with keeps nocore]
  | apply keeps_bind
  | apply keeps_for_loop
  | apply keeps_modify; intros ?; solve [reflexivity|auto]
  | case_match ].

(** [run_step H] advances a monadic goal whose first command is known by [H]. *)
Ltac run_step H := rewrite (bind_Ret _ _ _ _ _ H); cbn beta.

(** [brefl] turns boolean comparisons of the code into propositions. *)
Ltac brefl :=
  repeat match goal with
  | H : (_ && _)%bool = true |- _ => apply andb_true_iff in H; destruct H
  | H : (_ || _)%bool = false |- _ => apply orb_false_iff in H; destruct H
  | H : negb _ = true |- _ => apply negb_true_iff in H
  | H : negb _ = false |- _ => apply negb_false_iff in H
  | H : (_ =? _) = true |- _ => apply Z.eqb_eq in H
  | H : (_ =? _) = false |- _ => apply Z.eqb_neq in H
  | H : (_ <? _) = true |- _ => apply Z.ltb_lt in H
  | H : (_ <? _) = false |- _ => apply Z.ltb_ge in H
  | H : (_ <=? _) = true |- _ => apply Z.leb_le in H
  | H : (_ <=? _) = false |- _ => apply Z.leb_gt in H
  end.

(** [zcases] splits on every comparison of integers in the goal. *)
Ltac zcases :=
  repeat (match goal with
  | |- context [?a <=? ?b] => destruct (Z.leb_spec a b)
  | |- context [?a <? ?b] => destruct (Z.ltb_spec a b)
  | |- context [?a =? ?b] => destruct (Z.eqb_spec a b)
  end; cbn [andb orb negb]).
