(* ===== verification/Mem.v ===== *)
(** * Byte-addressed memory

    The C code of the kernel and of the user library works on raw memory
    through pointers.  This file models memory as a finite map from
    addresses to bytes and proves how loads see stores: single bytes,
    little-endian 16/32-bit words and whole ranges.  A load of an address
    never written reads 0, as in zero-initialised static storage. *)

From stdpp Require Import base list list_numbers numbers gmap.
From Stdlib Require Import ZArith Lia.
From S2P Require Import Prelude.

Abbreviation mem := (gmap Z Z).

Definition ld8 (m : mem) (a : Z) : Z := default 0 (m !! a).
Definition st8 (m : mem) (a v : Z) : mem := <[a := u8 v]> m.

(** The [n] bytes that start at [a]. *)
Fixpoint ld (m : mem) (a : Z) (n : nat) : list Z :=
  match n with
  | O => []
  | S n' => ld8 m a :: ld m (a + 1) n'
  end.

Fixpoint st (m : mem) (a : Z) (l : list Z) : mem :=
  match l with
  | [] => m
  | b :: l' => st (st8 m a b) (a + 1) l'
  end.

Definition ld32 (m : mem) (a : Z) : Z := le_dec (ld m a 4).
Definition st32 (m : mem) (a v : Z) : mem := st m a (le_enc 4 (u32 v)).

(** Every byte in memory is a byte. *)
Definition mem_ok (m : mem) : Prop := forall a, 0 <= ld8 m a < 256.

(** Two memories agree on the addresses that satisfy [P]. *)
Definition agree (P : Z -> Prop) (m m' : mem) : Prop :=
  forall a, P a -> ld8 m a = ld8 m' a.

(** ** Bytes *)

Lemma ld8_st8_eq m a v : ld8 (st8 m a v) a = u8 v.
Proof. unfold ld8, st8. by rewrite lookup_insert_eq. Qed.

Lemma ld8_st8_ne m a b v : a <> b -> ld8 (st8 m a v) b = ld8 m b.
Proof. intros. unfold ld8, st8. by rewrite lookup_insert_ne. Qed.

Lemma mem_ok_st8 m a v : mem_ok m -> mem_ok (st8 m a v).
Proof.
  intros Hm b. destruct (Z.eq_dec a b) as [->|].
  - rewrite ld8_st8_eq. apply u8_range.
  - by rewrite ld8_st8_ne.
Qed.

Lemma mem_ok_empty : mem_ok ∅.
Proof. intros a. unfold ld8. rewrite lookup_empty. cbn. lia. Qed.

(** ** Ranges *)

Lemma length_ld m a n : length (ld m a n) = n.
Proof. revert a. induction n; intros; cbn; [done|by rewrite IHn]. Qed.

Lemma lookup_ld m a n i :
  (i < n)%nat -> ld m a n !! i = Some (ld8 m (a + Z.of_nat i)).
Proof.
  revert a i. induction n as [|n IH]; intros a [|i] Hi; try lia; cbn.
  - by rewrite Z.add_0_r.
  - rewrite IH by lia. do 2 f_equal. lia.
Qed.

Lemma ld_bytes m a n : mem_ok m -> bytes (ld m a n).
Proof.
  intros Hm. revert a.
  induction n as [|n IH]; intros; cbn; constructor; [apply Hm|apply IH].
Qed.

Lemma ld_app m a n1 n2 :
  ld m a (n1 + n2) = ld m a n1 ++ ld m (a + Z.of_nat n1) n2.
Proof.
  revert a. induction n1 as [|n1 IH]; intros a; cbn -[Z.of_nat].
  - by rewrite Z.add_0_r.
  - rewrite IH. do 3 f_equal. lia.
Qed.

Lemma ld_ext m m' a n :
  (forall i, a <= i < a + Z.of_nat n -> ld8 m i = ld8 m' i) ->
  ld m a n = ld m' a n.
Proof.
  revert a. induction n as [|n IH]; intros a H; cbn; [done|].
  rewrite H by lia. f_equal. apply IH. intros. apply H. lia.
Qed.

Lemma ld_shift m m' a b n :
  (forall i, 0 <= i < Z.of_nat n -> ld8 m (a + i) = ld8 m' (b + i)) ->
  ld m a n = ld m' b n.
Proof.
  revert a b. induction n as [|n IH]; intros a b H; cbn; [done|].
  pose proof (H 0 ltac:(lia)) as H0. rewrite !Z.add_0_r in H0. rewrite H0.
  f_equal. apply IH. intros i Hi.
  replace (a + 1 + i) with (a + (i + 1)) by lia.
  replace (b + 1 + i) with (b + (i + 1)) by lia. apply H. lia.
Qed.

Lemma ld8_st_ne m a l b :
  (b < a \/ a + Z.of_nat (length l) <= b) -> ld8 (st m a l) b = ld8 m b.
Proof.
  revert m a. induction l as [|x l IH]; intros m a H; cbn in *; [done|].
  rewrite IH by lia. apply ld8_st8_ne. lia.
Qed.

Lemma ld8_st_eq m a l i x :
  l !! i = Some x -> ld8 (st m a l) (a + Z.of_nat i) = u8 x.
Proof.
  revert m a i. induction l as [|y l IH]; intros m a [|i] H; cbn in H;
    simplify_eq; cbn [st].
  - rewrite Z.add_0_r, ld8_st_ne by lia. apply ld8_st8_eq.
  - replace (a + Z.of_nat (S i)) with (a + 1 + Z.of_nat i) by lia. eauto.
Qed.

Lemma mem_ok_st m a l : mem_ok m -> mem_ok (st m a l).
Proof.
  revert m a. induction l; intros; cbn; [done|].
  by apply IHl, mem_ok_st8.
Qed.

Lemma ld_st_eq m a l : bytes l -> ld (st m a l) a (length l) = l.
Proof.
  intros Hl. apply list_eq. intros i.
  destruct (decide (i < length l)%nat) as [Hi|Hi].
  - destruct (lookup_lt_is_Some_2 l i Hi) as [x Hx].
    rewrite lookup_ld by done. rewrite (ld8_st_eq _ _ _ _ _ Hx), Hx.
    f_equal. apply u8_small. eapply Forall_lookup_1 in Hl; eauto.
  - rewrite !lookup_ge_None_2; rewrite ?length_ld; auto with lia.
Qed.

Lemma ld_st_ne m a l b n :
  (b + Z.of_nat n <= a \/ a + Z.of_nat (length l) <= b) ->
  ld (st m a l) b n = ld m b n.
Proof. intros. apply ld_ext. intros. apply ld8_st_ne. lia. Qed.

(** ** 32-bit words *)

Lemma ld32_st32_eq m a v : ld32 (st32 m a v) a = u32 v.
Proof.
  unfold ld32, st32. pose proof (ld_st_eq m a (le_enc 4 (u32 v)) (le_enc_bytes _ _)) as H.
  rewrite length_le_enc in H. rewrite H. apply le_dec_enc.
  pose proof (u32_range v). cbn. lia.
Qed.

Lemma ld32_st32_ne m a b v : (b + 4 <= a \/ a + 4 <= b) -> ld32 (st32 m a v) b = ld32 m b.
Proof.
  intros. unfold ld32, st32. rewrite ld_st_ne; [done|]. rewrite length_le_enc. lia.
Qed.

Lemma ld32_st_ne m a l b :
  (b + 4 <= a \/ a + Z.of_nat (length l) <= b) -> ld32 (st m a l) b = ld32 m b.
Proof. intros. unfold ld32. rewrite ld_st_ne; [done|]. lia. Qed.

Lemma ld8_st32_ne m a v b : (b < a \/ a + 4 <= b) -> ld8 (st32 m a v) b = ld8 m b.
Proof. intros. unfold st32. apply ld8_st_ne. rewrite length_le_enc. lia. Qed.

Lemma ld32_range m a : mem_ok m -> 0 <= ld32 m a < 2 ^ 32.
Proof.
  intros Hm. unfold ld32. pose proof (le_dec_range (ld m a 4) (ld_bytes _ _ _ Hm)) as H.
  rewrite length_ld in H. exact H.
Qed.

Lemma mem_ok_st32 m a v : mem_ok m -> mem_ok (st32 m a v).
Proof. apply mem_ok_st. Qed.

Lemma ld32_ext m m' a :
  (forall i, a <= i < a + 4 -> ld8 m i = ld8 m' i) -> ld32 m a = ld32 m' a.
Proof. intros. unfold ld32. f_equal. by apply ld_ext. Qed.

#[export] Hint Resolve mem_ok_st8 mem_ok_st mem_ok_st32 mem_ok_empty ld_bytes : so2017.
