(* ===== verification/CString.v ===== *)
(** * Memory and string routines

    [Module Kernel] models src/xv6/string.c, the kernel's own C library,
    on the byte memory of [Mem].  [Module Ulib] models the string part of
    src/xv6/ulib.c, which user programs link.  A pointer is an address;
    loops that run until a NUL byte carry fuel and return [None] when it
    runs out, loops bounded by an argument recurse on it. *)

From stdpp Require Import base list list_numbers numbers gmap.
From Stdlib Require Import ZArith Lia.
From S2P Require Import Prelude Mem.

(** The string instructions of x86.h: [rep stosb] and [rep stosl]. *)
Fixpoint stosb (m : mem) (addr data : Z) (cnt : nat) : mem :=
  match cnt with
  | O => m
  | S cnt' => stosb (st8 m addr data) (addr + 1) data cnt'
  end.

Fixpoint stosl (m : mem) (addr data : Z) (cnt : nat) : mem :=
  match cnt with
  | O => m
  | S cnt' => stosl (st32 m addr data) (addr + 4) data cnt'
  end.

Module Kernel.

Definition memset (m : mem) (dst c n : Z) : mem :=
  if ((Z.rem (s32 dst) 4 =? 0) && (n mod 4 =? 0))%bool then
    let c := Z.land c 255 in
    stosl m dst
      (Z.lor (Z.lor (Z.lor (Z.shiftl c 24) (Z.shiftl c 16)) (Z.shiftl c 8)) c)
      (Z.to_nat (n / 4))
  else stosb m dst c (Z.to_nat n).

Fixpoint memcmp_loop (m : mem) (s1 s2 : Z) (n : nat) : Z :=
  match n with
  | O => 0
  | S n' =>
      if ld8 m s1 =? ld8 m s2 then memcmp_loop m (s1 + 1) (s2 + 1) n'
      else ld8 m s1 - ld8 m s2
  end.
Definition memcmp (m : mem) (v1 v2 n : Z) : Z := memcmp_loop m v1 v2 (Z.to_nat n).

(** [while(n-- > 0) *--d = *--s;] *)
Fixpoint copy_down (m : mem) (d s : Z) (n : nat) : mem :=
  match n with
  | O => m
  | S n' => copy_down (st8 m (d - 1) (ld8 m (s - 1))) (d - 1) (s - 1) n'
  end.

(** [while(n-- > 0) *d++ = *s++;] *)
Fixpoint copy_up (m : mem) (d s : Z) (n : nat) : mem :=
  match n with
  | O => m
  | S n' => copy_up (st8 m d (ld8 m s)) (d + 1) (s + 1) n'
  end.

Definition memmove (m : mem) (dst src n : Z) : mem :=
  if ((src <? dst) && (dst <? u32 (src + n)))%bool
  then copy_down m (dst + n) (src + n) (Z.to_nat n)
  else copy_up m dst src (Z.to_nat n).

Definition memcpy (m : mem) (dst src n : Z) : mem := memmove m dst src n.

Fixpoint strncmp (m : mem) (p q : Z) (n : nat) : Z :=
  match n with
  | O => 0
  | S n' =>
      if (negb (ld8 m p =? 0) && (ld8 m p =? ld8 m q))%bool
      then strncmp m (p + 1) (q + 1) n'
      else ld8 m p - ld8 m q
  end.

Fixpoint zero_fill (m : mem) (s : Z) (n : nat) : mem :=
  match n with
  | O => m
  | S n' => zero_fill (st8 m s 0) (s + 1) n'
  end.

Fixpoint strncpy (m : mem) (s t : Z) (n : nat) : mem :=
  match n with
  | O => m
  | S n' =>
      let c := ld8 m t in
      let m' := st8 m s c in
      if c =? 0 then zero_fill m' (s + 1) n'
      else strncpy m' (s + 1) (t + 1) n'
  end.

(** [n] is the C variable after the [--n] of the loop test. *)
Fixpoint safestrcpy_loop (m : mem) (s t : Z) (n : nat) : mem :=
  match n with
  | O => st8 m s 0
  | S n' =>
      let c := ld8 m t in
      let m' := st8 m s c in
      if c =? 0 then st8 m' (s + 1) 0
      else safestrcpy_loop m' (s + 1) (t + 1) n'
  end.
Definition safestrcpy (m : mem) (s t n : Z) : mem :=
  if n <=? 0 then m else safestrcpy_loop m s t (Z.to_nat (n - 1)).

Fixpoint strlen_loop (fuel : nat) (m : mem) (s n : Z) : option Z :=
  match fuel with
  | O => None
  | S fuel' =>
      if ld8 m (s + n) =? 0 then Some n else strlen_loop fuel' m s (n + 1)
  end.
Definition strlen (fuel : nat) (m : mem) (s : Z) : option Z :=
  strlen_loop fuel m s 0.

End Kernel.

Module Ulib.

Fixpoint strcpy (fuel : nat) (m : mem) (s t : Z) : option mem :=
  match fuel with
  | O => None
  | S fuel' =>
      let c := ld8 m t in
      let m' := st8 m s c in
      if c =? 0 then Some m' else strcpy fuel' m' (s + 1) (t + 1)
  end.

Fixpoint strcmp (fuel : nat) (m : mem) (p q : Z) : option Z :=
  match fuel with
  | O => None
  | S fuel' =>
      if (negb (ld8 m p =? 0) && (ld8 m p =? ld8 m q))%bool
      then strcmp fuel' m (p + 1) (q + 1)
      else Some (ld8 m p - ld8 m q)
  end.

Fixpoint strlen_loop (fuel : nat) (m : mem) (s n : Z) : option Z :=
  match fuel with
  | O => None
  | S fuel' =>
      if ld8 m (s + n) =? 0 then Some n else strlen_loop fuel' m s (n + 1)
  end.
Definition strlen (fuel : nat) (m : mem) (s : Z) : option Z :=
  strlen_loop fuel m s 0.

Definition memset (m : mem) (dst c n : Z) : mem := stosb m dst c (Z.to_nat n).

(** The address of the first [c] in the string, 0 when there is none. *)
Fixpoint strchr (fuel : nat) (m : mem) (s c : Z) : option Z :=
  match fuel with
  | O => None
  | S fuel' =>
      if ld8 m s =? 0 then Some 0
      else if ld8 m s =? c then Some s
      else strchr fuel' m (s + 1) c
  end.

Fixpoint copy_up (m : mem) (d s : Z) (n : nat) : mem :=
  match n with
  | O => m
  | S n' => copy_up (st8 m d (ld8 m s)) (d + 1) (s + 1) n'
  end.
Definition memmove (m : mem) (vdst vsrc n : Z) : mem :=
  copy_up m vdst vsrc (Z.to_nat n).

End Ulib.

(** ** Strings in memory *)

(** [l] is the NUL-terminated string at [p]. *)
Definition cstr (m : mem) (p : Z) (l : list Z) : Prop :=
  ld m p (length l) = l /\ Forall (fun b => b <> 0) l /\
  ld8 m (p + Z.of_nat (length l)) = 0.

(** The characters before the first NUL. *)
Fixpoint upto_nul (l : list Z) : list Z :=
  match l with
  | [] => []
  | b :: l' => if b =? 0 then [] else b :: upto_nul l'
  end.

(** The string in a fixed field of [n] bytes at [p], as in [struct dirent]. *)
Definition field (m : mem) (p : Z) (n : nat) : list Z := upto_nul (ld m p n).

(** ** memset *)

Lemma ld8_stosb m a d n b :
  ld8 (stosb m a d n) b =
  if ((a <=? b) && (b <? a + Z.of_nat n))%bool then u8 d else ld8 m b.
Proof.
  revert m a. induction n as [|n IH]; intros m a.
  - cbn [stosb]. zcases; try done; lia.
  - cbn [stosb]. rewrite IH. destruct (Z.eq_dec a b) as [->|Hne].
    + rewrite ld8_st8_eq. zcases; try done; lia.
    + rewrite ld8_st8_ne by done. zcases; try done; lia.
Qed.

(** A word made of four copies of a byte. *)
Lemma rep_word c : 0 <= c < 256 ->
  le_enc 4 (u32 (Z.lor (Z.lor (Z.lor (Z.shiftl c 24) (Z.shiftl c 16)) (Z.shiftl c 8)) c))
  = [c; c; c; c].
Proof.
  intros Hc.
  assert (Z.lor (Z.lor (Z.lor (Z.shiftl c 24) (Z.shiftl c 16)) (Z.shiftl c 8)) c
          = c * 16777216 + c * 65536 + c * 256 + c) as ->.
  { rewrite !Z.shiftl_mul_pow2 by lia.
    rewrite (lor_add c (c * 2 ^ 16) 24) by lia.
    replace (c * 2 ^ 24 + c * 2 ^ 16) with ((c * 256 + c) * 2 ^ 16) by lia.
    rewrite (lor_add _ (c * 2 ^ 8) 16) by lia.
    replace ((c * 256 + c) * 2 ^ 16 + c * 2 ^ 8)
      with ((c * 65536 + c * 256 + c) * 2 ^ 8) by lia.
    rewrite (lor_add _ c 8) by lia. lia. }
  rewrite u32_small by lia. cbn [le_enc].
  pose proof (Z.div_mod (c * 16777216 + c * 65536 + c * 256 + c) 256).
  set (x := c * 16777216 + c * 65536 + c * 256 + c) in *.
  assert (x mod 256 = c) as E1 by (subst x; symmetry; apply (Z.mod_unique_pos _ _ (c * 65536 + c * 256 + c)); lia).
  assert (x / 256 = c * 65536 + c * 256 + c) as E2 by (subst x; symmetry; apply (Z.div_unique_pos _ _ _ c); lia).
  assert ((c * 65536 + c * 256 + c) mod 256 = c) as E3 by (symmetry; apply (Z.mod_unique_pos _ _ (c * 256 + c)); lia).
  assert ((c * 65536 + c * 256 + c) / 256 = c * 256 + c) as E4 by (symmetry; apply (Z.div_unique_pos _ _ _ c); lia).
  assert ((c * 256 + c) mod 256 = c) as E5 by (symmetry; apply (Z.mod_unique_pos _ _ c); lia).
  assert ((c * 256 + c) / 256 = c) as E6 by (symmetry; apply (Z.div_unique_pos _ _ _ c); lia).
  rewrite E1, E2, E3, E4, E5, E6, Z.mod_small by lia. done.
Qed.

Lemma st_app m a l1 l2 : st m a (l1 ++ l2) = st (st m a l1) (a + Z.of_nat (length l1)) l2.
Proof.
  revert m a. induction l1 as [|x l1 IH]; intros m a; cbn -[Z.of_nat].
  - by rewrite Z.add_0_r.
  - rewrite IH. f_equal. lia.
Qed.

Lemma stosl_stosb m a c n : 0 <= c < 256 ->
  stosl m a (Z.lor (Z.lor (Z.lor (Z.shiftl c 24) (Z.shiftl c 16)) (Z.shiftl c 8)) c) n
  = stosb m a c (4 * n).
Proof.
  intros Hc. set (w := Z.lor _ c). revert m a.
  induction n as [|n IH]; intros m a; [done|].
  cbn [stosl]. rewrite IH. replace (4 * S n)%nat with (S (S (S (S (4 * n))))) by lia.
  cbn [stosb]. unfold st32, w. rewrite rep_word by done. cbn [st].
  replace (a + 1 + 1 + 1 + 1) with (a + 4) by lia. done.
Qed.

(** [memset] of the kernel, whether it takes the 32-bit [stosl] path or
    the byte path, fills exactly the [n] bytes at [dst] with the low byte of
    [c] and leaves every other byte alone. *)
Lemma ld8_memset m dst c n b :
  0 <= n ->
  ld8 (Kernel.memset m dst c n) b =
  if ((dst <=? b) && (b <? dst + n))%bool then u8 c else ld8 m b.
Proof.
  intros Hn. unfold Kernel.memset.
  destruct ((Z.rem (s32 dst) 4 =? 0) && (n mod 4 =? 0))%bool eqn:E.
  - brefl. change 255 with (Z.ones 8). rewrite Z.land_ones by lia.
    pose proof (Z.mod_pos_bound c (2 ^ 8) ltac:(lia)).
    rewrite stosl_stosb, ld8_stosb by done. pose proof (Z.div_mod n 4 ltac:(lia)).
    rewrite Nat2Z.inj_mul, Z2Nat.id by (apply Z.div_pos; lia).
    replace (Z.of_nat 4 * (n / 4)) with n by lia.
    rewrite (u8_small (c mod 2 ^ 8)) by done. done.
  - rewrite ld8_stosb, Z2Nat.id by lia. done.
Qed.

Lemma ld8_copy_up m d s n b :
  mem_ok m -> (d <= s \/ s + Z.of_nat n <= d) ->
  ld8 (Kernel.copy_up m d s n) b =
  if ((d <=? b) && (b <? d + Z.of_nat n))%bool then ld8 m (s + (b - d)) else ld8 m b.
Proof.
  revert m d s. induction n as [|n IH]; intros m d s Hm Hds.
  - cbn [Kernel.copy_up]. zcases; try done; lia.
  - cbn [Kernel.copy_up]. rewrite IH by (auto with so2017 || lia).
    destruct (Z.eq_dec b d) as [->|Hb].
    + rewrite ld8_st8_eq, u8_small by apply Hm.
      rewrite Z.sub_diag, Z.add_0_r. zcases; try done; lia.
    + rewrite (ld8_st8_ne _ d b) by done.
      zcases; try done; try lia. rewrite ld8_st8_ne by lia. f_equal. lia.
Qed.

Lemma ld8_copy_down m d s n b :
  mem_ok m -> s <= d ->
  ld8 (Kernel.copy_down m d s n) b =
  if ((d - Z.of_nat n <=? b) && (b <? d))%bool then ld8 m (s - (d - b)) else ld8 m b.
Proof.
  revert m d s. induction n as [|n IH]; intros m d s Hm Hds.
  - cbn [Kernel.copy_down]. zcases; try done; lia.
  - cbn [Kernel.copy_down]. rewrite IH by (auto with so2017 || lia).
    destruct (Z.eq_dec b (d - 1)) as [->|Hb].
    + rewrite ld8_st8_eq, u8_small by apply Hm.
      replace (s - (d - (d - 1))) with (s - 1) by lia. zcases; try done; lia.
    + rewrite (ld8_st8_ne _ (d - 1) b) by lia.
      zcases; try done; try lia. rewrite ld8_st8_ne by lia. f_equal. lia.
Qed.

Lemma ld8_memmove m dst src n b : mem_ok m -> 0 <= src -> 0 <= n -> src + n < 2 ^ 32 ->
  ld8 (Kernel.memmove m dst src n) b =
  if ((dst <=? b) && (b <? dst + n))%bool then ld8 m (src + (b - dst)) else ld8 m b.
Proof.
  intros Hm Hs Hn Hw. unfold Kernel.memmove. rewrite u32_small by lia.
  destruct ((src <? dst) && (dst <? src + n))%bool eqn:E.
  - brefl. rewrite ld8_copy_down, Z2Nat.id by (done || lia).
    replace (dst + n - n) with dst by lia.
    replace (src + n - (dst + n - b)) with (src + (b - dst)) by lia. done.
  - rewrite ld8_copy_up, !Z2Nat.id; [done|lia|done|].
    rewrite Z2Nat.id by lia. apply andb_false_iff in E.
    destruct E as [E|E]; apply Z.ltb_ge in E; lia.
Qed.

(** [memmove] of the kernel copies correctly even when the two regions
    overlap in either direction: afterwards the destination holds what the
    source held before the call, and nothing else has changed. *)
Theorem memmove_correct m dst src n :
  mem_ok m -> 0 <= src -> 0 <= n -> src + n < 2 ^ 32 ->
  ld (Kernel.memmove m dst src n) dst (Z.to_nat n) = ld m src (Z.to_nat n) /\
  forall b, (b < dst \/ dst + n <= b) -> ld8 (Kernel.memmove m dst src n) b = ld8 m b.
Proof.
  intros Hm Hs Hn Hw. pose proof (fun b => ld8_memmove m dst src n b Hm Hs Hn Hw) as Hspec.
  split.
  - apply ld_shift. intros i Hi. rewrite Hspec. rewrite Z2Nat.id in Hi by lia.
    replace (src + (dst + i - dst)) with (src + i) by lia. zcases; try done; lia.
  - intros b Hb. rewrite Hspec. zcases; try done; lia.
Qed.

Lemma memmove_correct_witness :
  let m := st ∅ 100 [1; 2; 3; 4; 5] in
  mem_ok m /\ ld (Kernel.memmove m 102 100 5) 102 5 = [1; 2; 3; 4; 5].
Proof.
  assert (mem_ok (st ∅ 100 [1; 2; 3; 4; 5])) as Hm by auto with so2017.
  split; [exact Hm|].
  pose proof (memmove_correct _ 102 100 5 Hm ltac:(lia) ltac:(lia) ltac:(lia)) as [H _].
  exact H.
Defined.

(** ** Strings *)

Lemma upto_nul_app l l' : Forall (fun b => b <> 0) l -> upto_nul (l ++ l') = l ++ upto_nul l'.
Proof.
  induction 1 as [|b l Hb Hl IH]; cbn; [done|].
  destruct (Z.eqb_spec b 0); [done|]. by rewrite IH.
Qed.

Lemma upto_nul_nonzero l : Forall (fun b => b <> 0) (upto_nul l).
Proof.
  induction l as [|b l IH]; cbn; [constructor|].
  destruct (Z.eqb_spec b 0); constructor; auto.
Qed.

Lemma length_upto_nul l : (length (upto_nul l) <= length l)%nat.
Proof. induction l as [|b l IH]; cbn; [lia|]. destruct (b =? 0); cbn; lia. Qed.

Lemma field_S m p n :
  field m p (S n) = if ld8 m p =? 0 then [] else ld8 m p :: field m (p + 1) n.
Proof. reflexivity. Qed.

(** [strncmp] returns 0 exactly when the two fixed-size fields hold the
    same string, which is what [namecmp] needs to compare directory names
    that may fill their field without a terminating NUL. *)
Theorem strncmp_eq_field m p q n :
  mem_ok m -> Kernel.strncmp m p q n = 0 <-> field m p n = field m q n.
Proof.
  intros Hm. revert p q. induction n as [|n IH]; intros p q; [done|].
  rewrite !field_S. cbn [Kernel.strncmp].
  destruct (Z.eqb_spec (ld8 m p) 0) as [Hp|Hp]; cbn [negb andb].
  - destruct (Z.eqb_spec (ld8 m q) 0); split; try done; lia.
  - destruct (Z.eqb_spec (ld8 m p) (ld8 m q)) as [E|E].
    + rewrite IH, <- E. destruct (Z.eqb_spec (ld8 m p) 0); [done|].
      split; [by intros -> | by injection 1].
    + destruct (Z.eqb_spec (ld8 m q) 0); split; try done; try lia.
      intros [=]; congruence.
Qed.

Lemma strncmp_eq_field_witness :
  let m := st (st ∅ 10 [97; 98; 0; 7]) 20 [97; 98; 0; 9] in
  mem_ok m /\ Kernel.strncmp m 10 20 4 = 0.
Proof.
  assert (mem_ok (st (st ∅ 10 [97; 98; 0; 7]) 20 [97; 98; 0; 9])) as Hm
    by auto with so2017.
  split; [exact Hm|]. apply (strncmp_eq_field _ 10 20 4 Hm). reflexivity.
Defined.

Lemma ld8_zero_fill m s n b :
  ld8 (Kernel.zero_fill m s n) b =
  if ((s <=? b) && (b <? s + Z.of_nat n))%bool then 0 else ld8 m b.
Proof.
  revert m s. induction n as [|n IH]; intros m s; cbn [Kernel.zero_fill].
  - zcases; try done; lia.
  - rewrite IH. destruct (Z.eq_dec s b) as [->|].
    + rewrite ld8_st8_eq. zcases; try done; lia.
    + rewrite ld8_st8_ne by done. zcases; try done; lia.
Qed.

Lemma strncpy_outside m s t n b :
  (b < s \/ s + Z.of_nat n <= b) -> ld8 (Kernel.strncpy m s t n) b = ld8 m b.
Proof.
  revert m s t. induction n as [|n IH]; intros m s t Hb; cbn [Kernel.strncpy]; [done|].
  destruct (ld8 m t =? 0).
  - rewrite ld8_zero_fill, ld8_st8_ne by lia. zcases; try done; lia.
  - rewrite IH, ld8_st8_ne by lia. done.
Qed.

Lemma field_ext m m' p n :
  (forall i, p <= i < p + Z.of_nat n -> ld8 m i = ld8 m' i) -> field m p n = field m' p n.
Proof. intros. unfold field. f_equal. by apply ld_ext. Qed.

(** [strncpy] stores in the destination field the same string the source
    field holds, zero-pads the rest, and writes nowhere else; with
    [strncmp_eq_field] this is why a name stored by [dirlink] is found again
    by [dirlookup]. *)
Theorem strncpy_field m s t n :
  mem_ok m -> (s + Z.of_nat n <= t \/ t + Z.of_nat n <= s) ->
  let m' := Kernel.strncpy m s t n in
  field m' s n = field m t n /\
  ld m' s n = field m t n ++ replicate (n - length (field m t n)) 0 /\
  (forall b, (b < s \/ s + Z.of_nat n <= b) -> ld8 m' b = ld8 m b).
Proof.
  intros Hm Hd m'.
  assert (ld m' s n = field m t n ++ replicate (n - length (field m t n)) 0) as Hld.
  { subst m'. revert m s t Hm Hd. induction n as [|n IH]; intros m s t Hm Hd; [done|].
    cbn [ld Kernel.strncpy]. rewrite field_S.
    destruct (Z.eqb_spec (ld8 m t) 0) as [E|E].
    - rewrite ld8_zero_fill, ld8_st8_eq, E. cbn [app length]. rewrite Nat.sub_0_r.
      cbn [replicate]. f_equal; [zcases; try done; lia|].
      apply list_eq. intros i. destruct (decide (i < n)%nat).
      + rewrite lookup_ld, lookup_replicate_2, ld8_zero_fill by done.
        zcases; try done; lia.
      + rewrite !lookup_ge_None_2; rewrite ?length_ld, ?length_replicate; auto with lia.
    - rewrite strncpy_outside, ld8_st8_eq, u8_small by (lia || apply Hm).
      cbn [app length Nat.sub]. f_equal.
      rewrite IH by (auto with so2017 || lia).
      rewrite (field_ext (st8 m s (ld8 m t)) m); [done|].
      intros i Hi. apply ld8_st8_ne. lia. }
  split; [|split; [exact Hld|intros; by apply strncpy_outside]].
  unfold field at 1. rewrite Hld, upto_nul_app by apply upto_nul_nonzero.
  destruct (n - length (field m t n))%nat; cbn; by rewrite app_nil_r.
Qed.

Lemma strncpy_field_witness :
  let m := st ∅ 20 [97; 98; 0; 9] in
  mem_ok m /\ ld (Kernel.strncpy m 10 20 4) 10 4 = [97; 98; 0; 0].
Proof.
  assert (mem_ok (st ∅ 20 [97; 98; 0; 9])) as Hm by auto with so2017.
  split; [exact Hm|].
  destruct (strncpy_field _ 10 20 4 Hm ltac:(lia)) as (_ & H & _). exact H.
Defined.

Lemma safestrcpy_loop_outside m s t n b :
  (b < s \/ s + Z.of_nat n < b) -> ld8 (Kernel.safestrcpy_loop m s t n) b = ld8 m b.
Proof.
  revert m s t. induction n as [|n IH]; intros m s t Hb; cbn [Kernel.safestrcpy_loop].
  - apply ld8_st8_ne. lia.
  - destruct (ld8 m t =? 0).
    + rewrite !ld8_st8_ne by lia. done.
    + rewrite IH, ld8_st8_ne by lia. done.
Qed.

(** [safestrcpy] always leaves a NUL-terminated string in the [n]-byte
    destination: the source string cut to [n-1] characters, and no byte
    outside the destination is touched. *)
Theorem safestrcpy_terminates_string m s t n :
  mem_ok m -> 0 < n -> (s + n <= t \/ t + n <= s) ->
  cstr (Kernel.safestrcpy m s t n) s (field m t (Z.to_nat (n - 1))) /\
  forall b, (b < s \/ s + n <= b) -> ld8 (Kernel.safestrcpy m s t n) b = ld8 m b.
Proof.
  intros Hm Hn Hd. unfold Kernel.safestrcpy.
  rewrite (proj2 (Z.leb_gt n 0)) by lia. split.
  - remember (Z.to_nat (n - 1)) as k eqn:Hk.
    assert (n = Z.of_nat k + 1) as -> by lia. clear Hk Hn.
    revert m s t Hm Hd. induction k as [|k IH]; intros m s t Hm Hd.
    + unfold cstr, field. cbn. rewrite Z.add_0_r, ld8_st8_eq. done.
    + cbn [Kernel.safestrcpy_loop]. rewrite field_S.
      destruct (Z.eqb_spec (ld8 m t) 0) as [E|E].
      * rewrite E. unfold cstr. cbn. rewrite Z.add_0_r, ld8_st8_ne, ld8_st8_eq by lia. done.
      * destruct (IH (st8 m s (ld8 m t)) (s + 1) (t + 1)) as (H1 & H2 & H3);
          [auto with so2017|lia|].
        rewrite (field_ext (st8 m s (ld8 m t)) m) in H1, H2, H3
          by (intros; apply ld8_st8_ne; lia).
        unfold cstr. cbn [length ld]. split; [|split].
        -- rewrite safestrcpy_loop_outside, ld8_st8_eq, u8_small by (lia || apply Hm).
           by rewrite H1.
        -- by constructor.
        -- rewrite <- H3. f_equal. lia.
  - intros b Hb. apply safestrcpy_loop_outside. lia.
Qed.

Lemma safestrcpy_terminates_string_witness :
  let m := st ∅ 20 [97; 98; 99; 100; 0] in
  mem_ok m /\ cstr (Kernel.safestrcpy m 10 20 3) 10 [97; 98].
Proof.
  assert (mem_ok (st ∅ 20 [97; 98; 99; 100; 0])) as Hm by auto with so2017.
  split; [exact Hm|].
  destruct (safestrcpy_terminates_string _ 10 20 3 Hm ltac:(lia) ltac:(lia)) as [H _].
  exact H.
Defined.

Lemma strlen_loop_cstr m l : forall p k,
  ld m (p + k) (length l) = l -> Forall (fun b => b <> 0) l ->
  ld8 m (p + k + Z.of_nat (length l)) = 0 ->
  Kernel.strlen_loop (S (length l)) m p k = Some (k + Z.of_nat (length l)).
Proof.
  induction l as [|x l IH]; intros p k H1 H2 H3.
  - cbn [length] in H3 |- *. rewrite Z.add_0_r in H3 |- *.
    cbn [Kernel.strlen_loop]. rewrite H3. done.
  - inversion H2; subst. cbn [length ld] in H1. injection H1 as Hx Hl.
    cbn [length]. change (Kernel.strlen_loop (S (S (length l))) m p k)
      with (if ld8 m (p + k) =? 0 then Some k
            else Kernel.strlen_loop (S (length l)) m p (k + 1)).
    rewrite Hx. destruct (Z.eqb_spec x 0); [done|]. rewrite IH; auto.
    + f_equal. lia.
    + by replace (p + (k + 1)) with (p + k + 1) by lia.
    + rewrite <- H3. cbn [length]. f_equal. lia.
Qed.

(** [strlen] of a NUL-terminated string, with one unit of fuel per byte. *)
Lemma strlen_cstr m p l :
  cstr m p l -> Kernel.strlen (S (length l)) m p = Some (Z.of_nat (length l)).
Proof.
  intros (H1 & H2 & H3). unfold Kernel.strlen.
  rewrite (strlen_loop_cstr m l p 0); rewrite ?Z.add_0_r; done.
Qed.
