(* ===== verification/KState.v ===== *)
(** * The kernel state and the kernel monad

    The data structures of the xv6 kernel (src/xv6/proc.h, buf.h, file.h,
    fs.h, pipe.c, log.c, console.c, memide.c, x86.h) as records, the one
    global state every kernel file works on, and the monad [K] in which
    kernel functions are written.

    A kernel function runs on one CPU.  It returns, or it stops: with a
    panic, by giving up the CPU in [sched] ([Switch]; the state says why the
    process is not running), by using an invalid pointer ([Fault]), or, for
    a model of an unbounded loop, for want of fuel.

    Spin locks appear here through their contract: [acquire] panics when
    this CPU already holds the lock, [release] when it does not, and the
    critical section in between runs without interference.  [Spinlock]
    models spinlock.c itself and proves that it honours this contract. *)

From stdpp Require Import base list list_numbers numbers gmap strings.
From Stdlib Require Import ZArith Lia.
From S2P Require Import Prelude Mem.

(** ** Constants of param.h, fs.h, buf.h, file.h, mmu.h *)

Definition NPROC : nat := 64.
Definition KSTACKSIZE : Z := 4096.
Definition NOFILE : nat := 16.
Definition NFILE : nat := 100.
Definition NINODE : nat := 50.
Definition NDEV : nat := 10.
Definition ROOTDEV : Z := 1.
Definition MAXOPBLOCKS : Z := 10.
Definition LOGSIZE : Z := MAXOPBLOCKS * 3.
Definition NBUF : nat := 30.
Definition FSSIZE : Z := 1000.
Definition BSIZE : nat := 512.
Definition PIPESIZE : Z := 512.
Definition INPUT_BUF : Z := 128.
Definition PGSIZE : Z := 4096.

Definition B_BUSY : Z := 0x1.
Definition B_VALID : Z := 0x2.
Definition B_DIRTY : Z := 0x4.
Definition I_BUSY : Z := 0x1.
Definition I_VALID : Z := 0x2.

(** ** Names of locks and sleep channels *)

Inductive lockid :=
| L_ptable | L_kmem | L_bcache | L_ide | L_log | L_icache | L_ftable
| L_pipe (p : Z) | L_cons | L_input | L_tick.

(** What a process can sleep on: the address of an object in the C code. *)
Inductive chan :=
| C_proc (i : nat) | C_buf (i : nat) | C_inode (i : nat) | C_log
| C_nread (p : Z) | C_nwrite (p : Z) | C_input | C_ticks.

#[global] Instance lockid_eq_dec : EqDecision lockid.
Proof. solve_decision. Defined.
#[global] Instance chan_eq_dec : EqDecision chan.
Proof. solve_decision. Defined.

Inductive procstate := UNUSED | EMBRYO | SLEEPING | RUNNABLE | RUNNING | ZOMBIE.
#[global] Instance procstate_eq_dec : EqDecision procstate.
Proof. solve_decision. Defined.

Inductive ftype := FD_NONE | FD_PIPE | FD_INODE.
#[global] Instance ftype_eq_dec : EqDecision ftype.
Proof. solve_decision. Defined.

(** ** Records *)

(** x86.h: the registers saved on a trap (the padding words are not kept). *)
Record trapframe := mkTf {
  tf_edi : Z;
  tf_esi : Z;
  tf_ebp : Z;
  tf_oesp : Z;
  tf_ebx : Z;
  tf_edx : Z;
  tf_ecx : Z;
  tf_eax : Z;
  tf_gs : Z;
  tf_fs : Z;
  tf_es : Z;
  tf_ds : Z;
  tf_trapno : Z;
  tf_err : Z;
  tf_eip : Z;
  tf_cs : Z;
  tf_eflags : Z;
  tf_esp : Z;
  tf_ss : Z
}.

Definition set_tf_eax (v : Z) (t : trapframe) : trapframe :=
  mkTf (tf_edi t) (tf_esi t) (tf_ebp t) (tf_oesp t) (tf_ebx t) (tf_edx t)
    (tf_ecx t) v (tf_gs t) (tf_fs t) (tf_es t) (tf_ds t) (tf_trapno t)
    (tf_err t) (tf_eip t) (tf_cs t) (tf_eflags t) (tf_esp t) (tf_ss t).
Definition set_tf_es (v : Z) (t : trapframe) : trapframe :=
  mkTf (tf_edi t) (tf_esi t) (tf_ebp t) (tf_oesp t) (tf_ebx t) (tf_edx t)
    (tf_ecx t) (tf_eax t) (tf_gs t) (tf_fs t) v (tf_ds t) (tf_trapno t)
    (tf_err t) (tf_eip t) (tf_cs t) (tf_eflags t) (tf_esp t) (tf_ss t).
Definition set_tf_ds (v : Z) (t : trapframe) : trapframe :=
  mkTf (tf_edi t) (tf_esi t) (tf_ebp t) (tf_oesp t) (tf_ebx t) (tf_edx t)
    (tf_ecx t) (tf_eax t) (tf_gs t) (tf_fs t) (tf_es t) v (tf_trapno t)
    (tf_err t) (tf_eip t) (tf_cs t) (tf_eflags t) (tf_esp t) (tf_ss t).
Definition set_tf_eip (v : Z) (t : trapframe) : trapframe :=
  mkTf (tf_edi t) (tf_esi t) (tf_ebp t) (tf_oesp t) (tf_ebx t) (tf_edx t)
    (tf_ecx t) (tf_eax t) (tf_gs t) (tf_fs t) (tf_es t) (tf_ds t) (tf_trapno
    t) (tf_err t) v (tf_cs t) (tf_eflags t) (tf_esp t) (tf_ss t).
Definition set_tf_cs (v : Z) (t : trapframe) : trapframe :=
  mkTf (tf_edi t) (tf_esi t) (tf_ebp t) (tf_oesp t) (tf_ebx t) (tf_edx t)
    (tf_ecx t) (tf_eax t) (tf_gs t) (tf_fs t) (tf_es t) (tf_ds t) (tf_trapno
    t) (tf_err t) (tf_eip t) v (tf_eflags t) (tf_esp t) (tf_ss t).
Definition set_tf_eflags (v : Z) (t : trapframe) : trapframe :=
  mkTf (tf_edi t) (tf_esi t) (tf_ebp t) (tf_oesp t) (tf_ebx t) (tf_edx t)
    (tf_ecx t) (tf_eax t) (tf_gs t) (tf_fs t) (tf_es t) (tf_ds t) (tf_trapno
    t) (tf_err t) (tf_eip t) (tf_cs t) v (tf_esp t) (tf_ss t).
Definition set_tf_esp (v : Z) (t : trapframe) : trapframe :=
  mkTf (tf_edi t) (tf_esi t) (tf_ebp t) (tf_oesp t) (tf_ebx t) (tf_edx t)
    (tf_ecx t) (tf_eax t) (tf_gs t) (tf_fs t) (tf_es t) (tf_ds t) (tf_trapno
    t) (tf_err t) (tf_eip t) (tf_cs t) (tf_eflags t) v (tf_ss t).
Definition set_tf_ss (v : Z) (t : trapframe) : trapframe :=
  mkTf (tf_edi t) (tf_esi t) (tf_ebp t) (tf_oesp t) (tf_ebx t) (tf_edx t)
    (tf_ecx t) (tf_eax t) (tf_gs t) (tf_fs t) (tf_es t) (tf_ds t) (tf_trapno
    t) (tf_err t) (tf_eip t) (tf_cs t) (tf_eflags t) (tf_esp t) v.

(** proc.h: the registers saved by swtch. *)
Record context := mkCtx {
  cx_edi : Z;
  cx_esi : Z;
  cx_ebx : Z;
  cx_ebp : Z;
  cx_eip : Z
}.

Definition set_cx_eip (v : Z) (c : context) : context :=
  mkCtx (cx_edi c) (cx_esi c) (cx_ebx c) (cx_ebp c) v.

(** proc.h: pointers to other processes, files and inodes are their indices in
    ptable, ftable and icache; the trap frame and the context, which live in
    the kernel stack page, are kept by value. *)
Record proc := mkProc {
  p_sz : Z;
  p_pgdir : Z;
  p_kstack : Z;
  p_state : procstate;
  p_pid : Z;
  p_parent : option nat;
  p_tf : trapframe;
  p_context : context;
  p_chan : option chan;
  p_killed : Z;
  p_ofile : list (option nat);
  p_cwd : option nat;
  p_name : list Z
}.

Definition set_p_sz (v : Z) (p : proc) : proc :=
  mkProc v (p_pgdir p) (p_kstack p) (p_state p) (p_pid p) (p_parent p) (p_tf
    p) (p_context p) (p_chan p) (p_killed p) (p_ofile p) (p_cwd p) (p_name
    p).
Definition set_p_pgdir (v : Z) (p : proc) : proc :=
  mkProc (p_sz p) v (p_kstack p) (p_state p) (p_pid p) (p_parent p) (p_tf p)
    (p_context p) (p_chan p) (p_killed p) (p_ofile p) (p_cwd p) (p_name p).
Definition set_p_kstack (v : Z) (p : proc) : proc :=
  mkProc (p_sz p) (p_pgdir p) v (p_state p) (p_pid p) (p_parent p) (p_tf p)
    (p_context p) (p_chan p) (p_killed p) (p_ofile p) (p_cwd p) (p_name p).
Definition set_p_state (v : procstate) (p : proc) : proc :=
  mkProc (p_sz p) (p_pgdir p) (p_kstack p) v (p_pid p) (p_parent p) (p_tf p)
    (p_context p) (p_chan p) (p_killed p) (p_ofile p) (p_cwd p) (p_name p).
Definition set_p_pid (v : Z) (p : proc) : proc :=
  mkProc (p_sz p) (p_pgdir p) (p_kstack p) (p_state p) v (p_parent p) (p_tf
    p) (p_context p) (p_chan p) (p_killed p) (p_ofile p) (p_cwd p) (p_name
    p).
Definition set_p_parent (v : option nat) (p : proc) : proc :=
  mkProc (p_sz p) (p_pgdir p) (p_kstack p) (p_state p) (p_pid p) v (p_tf p)
    (p_context p) (p_chan p) (p_killed p) (p_ofile p) (p_cwd p) (p_name p).
Definition set_p_tf (v : trapframe) (p : proc) : proc :=
  mkProc (p_sz p) (p_pgdir p) (p_kstack p) (p_state p) (p_pid p) (p_parent
    p) v (p_context p) (p_chan p) (p_killed p) (p_ofile p) (p_cwd p) (p_name
    p).
Definition set_p_context (v : context) (p : proc) : proc :=
  mkProc (p_sz p) (p_pgdir p) (p_kstack p) (p_state p) (p_pid p) (p_parent
    p) (p_tf p) v (p_chan p) (p_killed p) (p_ofile p) (p_cwd p) (p_name p).
Definition set_p_chan (v : option chan) (p : proc) : proc :=
  mkProc (p_sz p) (p_pgdir p) (p_kstack p) (p_state p) (p_pid p) (p_parent
    p) (p_tf p) (p_context p) v (p_killed p) (p_ofile p) (p_cwd p) (p_name
    p).
Definition set_p_killed (v : Z) (p : proc) : proc :=
  mkProc (p_sz p) (p_pgdir p) (p_kstack p) (p_state p) (p_pid p) (p_parent
    p) (p_tf p) (p_context p) (p_chan p) v (p_ofile p) (p_cwd p) (p_name p).
Definition set_p_ofile (v : list (option nat)) (p : proc) : proc :=
  mkProc (p_sz p) (p_pgdir p) (p_kstack p) (p_state p) (p_pid p) (p_parent
    p) (p_tf p) (p_context p) (p_chan p) (p_killed p) v (p_cwd p) (p_name
    p).
Definition set_p_cwd (v : option nat) (p : proc) : proc :=
  mkProc (p_sz p) (p_pgdir p) (p_kstack p) (p_state p) (p_pid p) (p_parent
    p) (p_tf p) (p_context p) (p_chan p) (p_killed p) (p_ofile p) v (p_name
    p).
Definition set_p_name (v : list Z) (p : proc) : proc :=
  mkProc (p_sz p) (p_pgdir p) (p_kstack p) (p_state p) (p_pid p) (p_parent
    p) (p_tf p) (p_context p) (p_chan p) (p_killed p) (p_ofile p) (p_cwd p)
    v.

(** buf.h: [b_prev] and [b_next] are the links of the LRU list, [b_qnext] the
    link of the disk queue; a pointer is an index in [k_bcache]. *)
Record buf := mkBuf {
  b_flags : Z;
  b_dev : Z;
  b_blockno : Z;
  b_prev : nat;
  b_next : nat;
  b_qnext : option nat;
  b_data : list Z
}.

Definition set_b_flags (v : Z) (b : buf) : buf :=
  mkBuf v (b_dev b) (b_blockno b) (b_prev b) (b_next b) (b_qnext b) (b_data
    b).
Definition set_b_dev (v : Z) (b : buf) : buf :=
  mkBuf (b_flags b) v (b_blockno b) (b_prev b) (b_next b) (b_qnext b)
    (b_data b).
Definition set_b_blockno (v : Z) (b : buf) : buf :=
  mkBuf (b_flags b) (b_dev b) v (b_prev b) (b_next b) (b_qnext b) (b_data
    b).
Definition set_b_prev (v : nat) (b : buf) : buf :=
  mkBuf (b_flags b) (b_dev b) (b_blockno b) v (b_next b) (b_qnext b) (b_data
    b).
Definition set_b_next (v : nat) (b : buf) : buf :=
  mkBuf (b_flags b) (b_dev b) (b_blockno b) (b_prev b) v (b_qnext b) (b_data
    b).
Definition set_b_qnext (v : option nat) (b : buf) : buf :=
  mkBuf (b_flags b) (b_dev b) (b_blockno b) (b_prev b) (b_next b) v (b_data
    b).
Definition set_b_data (v : list Z) (b : buf) : buf :=
  mkBuf (b_flags b) (b_dev b) (b_blockno b) (b_prev b) (b_next b) (b_qnext
    b) v.

(** file.h: the in-memory inode. *)
Record inode := mkInode {
  i_dev : Z;
  i_inum : Z;
  i_ref : Z;
  i_flags : Z;
  i_type : Z;
  i_major : Z;
  i_minor : Z;
  i_nlink : Z;
  i_size : Z;
  i_addrs : list Z
}.

Definition set_i_dev (v : Z) (i : inode) : inode :=
  mkInode v (i_inum i) (i_ref i) (i_flags i) (i_type i) (i_major i) (i_minor
    i) (i_nlink i) (i_size i) (i_addrs i).
Definition set_i_inum (v : Z) (i : inode) : inode :=
  mkInode (i_dev i) v (i_ref i) (i_flags i) (i_type i) (i_major i) (i_minor
    i) (i_nlink i) (i_size i) (i_addrs i).
Definition set_i_ref (v : Z) (i : inode) : inode :=
  mkInode (i_dev i) (i_inum i) v (i_flags i) (i_type i) (i_major i) (i_minor
    i) (i_nlink i) (i_size i) (i_addrs i).
Definition set_i_flags (v : Z) (i : inode) : inode :=
  mkInode (i_dev i) (i_inum i) (i_ref i) v (i_type i) (i_major i) (i_minor
    i) (i_nlink i) (i_size i) (i_addrs i).
Definition set_i_type (v : Z) (i : inode) : inode :=
  mkInode (i_dev i) (i_inum i) (i_ref i) (i_flags i) v (i_major i) (i_minor
    i) (i_nlink i) (i_size i) (i_addrs i).
Definition set_i_major (v : Z) (i : inode) : inode :=
  mkInode (i_dev i) (i_inum i) (i_ref i) (i_flags i) (i_type i) v (i_minor
    i) (i_nlink i) (i_size i) (i_addrs i).
Definition set_i_minor (v : Z) (i : inode) : inode :=
  mkInode (i_dev i) (i_inum i) (i_ref i) (i_flags i) (i_type i) (i_major i)
    v (i_nlink i) (i_size i) (i_addrs i).
Definition set_i_nlink (v : Z) (i : inode) : inode :=
  mkInode (i_dev i) (i_inum i) (i_ref i) (i_flags i) (i_type i) (i_major i)
    (i_minor i) v (i_size i) (i_addrs i).
Definition set_i_size (v : Z) (i : inode) : inode :=
  mkInode (i_dev i) (i_inum i) (i_ref i) (i_flags i) (i_type i) (i_major i)
    (i_minor i) (i_nlink i) v (i_addrs i).
Definition set_i_addrs (v : list Z) (i : inode) : inode :=
  mkInode (i_dev i) (i_inum i) (i_ref i) (i_flags i) (i_type i) (i_major i)
    (i_minor i) (i_nlink i) (i_size i) v.

(** fs.h: the super block. *)
Record superblock := mkSb {
  sb_size : Z;
  sb_nblocks : Z;
  sb_ninodes : Z;
  sb_nlog : Z;
  sb_logstart : Z;
  sb_inodestart : Z;
  sb_bmapstart : Z
}.


(** file.h: an open file; [f_pipe] is the address of the pipe's page. *)
Record file := mkFile {
  f_type : ftype;
  f_ref : Z;
  f_readable : Z;
  f_writable : Z;
  f_pipe : Z;
  f_ip : option nat;
  f_off : Z
}.

Definition set_f_type (v : ftype) (f : file) : file :=
  mkFile v (f_ref f) (f_readable f) (f_writable f) (f_pipe f) (f_ip f)
    (f_off f).
Definition set_f_ref (v : Z) (f : file) : file :=
  mkFile (f_type f) v (f_readable f) (f_writable f) (f_pipe f) (f_ip f)
    (f_off f).
Definition set_f_readable (v : Z) (f : file) : file :=
  mkFile (f_type f) (f_ref f) v (f_writable f) (f_pipe f) (f_ip f) (f_off
    f).
Definition set_f_writable (v : Z) (f : file) : file :=
  mkFile (f_type f) (f_ref f) (f_readable f) v (f_pipe f) (f_ip f) (f_off
    f).
Definition set_f_pipe (v : Z) (f : file) : file :=
  mkFile (f_type f) (f_ref f) (f_readable f) (f_writable f) v (f_ip f)
    (f_off f).
Definition set_f_ip (v : option nat) (f : file) : file :=
  mkFile (f_type f) (f_ref f) (f_readable f) (f_writable f) (f_pipe f) v
    (f_off f).
Definition set_f_off (v : Z) (f : file) : file :=
  mkFile (f_type f) (f_ref f) (f_readable f) (f_writable f) (f_pipe f) (f_ip
    f) v.

(** pipe.c: the ring buffer; its lock is [L_pipe] of its address. *)
Record pipe := mkPipe {
  pi_data : list Z;
  pi_nread : Z;
  pi_nwrite : Z;
  pi_readopen : Z;
  pi_writeopen : Z
}.

Definition set_pi_data (v : list Z) (p : pipe) : pipe :=
  mkPipe v (pi_nread p) (pi_nwrite p) (pi_readopen p) (pi_writeopen p).
Definition set_pi_nread (v : Z) (p : pipe) : pipe :=
  mkPipe (pi_data p) v (pi_nwrite p) (pi_readopen p) (pi_writeopen p).
Definition set_pi_nwrite (v : Z) (p : pipe) : pipe :=
  mkPipe (pi_data p) (pi_nread p) v (pi_readopen p) (pi_writeopen p).
Definition set_pi_readopen (v : Z) (p : pipe) : pipe :=
  mkPipe (pi_data p) (pi_nread p) (pi_nwrite p) v (pi_writeopen p).
Definition set_pi_writeopen (v : Z) (p : pipe) : pipe :=
  mkPipe (pi_data p) (pi_nread p) (pi_nwrite p) (pi_readopen p) v.

(** log.c: [struct log], with the in-memory [struct logheader] as its last two
    fields. *)
Record log := mkLog {
  lg_start : Z;
  lg_size : Z;
  lg_outstanding : Z;
  lg_committing : Z;
  lg_dev : Z;
  lg_n : Z;
  lg_block : list Z
}.

Definition set_lg_start (v : Z) (l : log) : log :=
  mkLog v (lg_size l) (lg_outstanding l) (lg_committing l) (lg_dev l) (lg_n
    l) (lg_block l).
Definition set_lg_size (v : Z) (l : log) : log :=
  mkLog (lg_start l) v (lg_outstanding l) (lg_committing l) (lg_dev l) (lg_n
    l) (lg_block l).
Definition set_lg_outstanding (v : Z) (l : log) : log :=
  mkLog (lg_start l) (lg_size l) v (lg_committing l) (lg_dev l) (lg_n l)
    (lg_block l).
Definition set_lg_committing (v : Z) (l : log) : log :=
  mkLog (lg_start l) (lg_size l) (lg_outstanding l) v (lg_dev l) (lg_n l)
    (lg_block l).
Definition set_lg_dev (v : Z) (l : log) : log :=
  mkLog (lg_start l) (lg_size l) (lg_outstanding l) (lg_committing l) v
    (lg_n l) (lg_block l).
Definition set_lg_n (v : Z) (l : log) : log :=
  mkLog (lg_start l) (lg_size l) (lg_outstanding l) (lg_committing l)
    (lg_dev l) v (lg_block l).
Definition set_lg_block (v : list Z) (l : log) : log :=
  mkLog (lg_start l) (lg_size l) (lg_outstanding l) (lg_committing l)
    (lg_dev l) (lg_n l) v.

(** console.c: the line-editing buffer. *)
Record input := mkInput {
  in_buf : list Z;
  in_r : Z;
  in_w : Z;
  in_e : Z
}.

Definition set_in_buf (v : list Z) (i : input) : input :=
  mkInput v (in_r i) (in_w i) (in_e i).
Definition set_in_r (v : Z) (i : input) : input :=
  mkInput (in_buf i) v (in_w i) (in_e i).
Definition set_in_w (v : Z) (i : input) : input :=
  mkInput (in_buf i) (in_r i) v (in_e i).
Definition set_in_e (v : Z) (i : input) : input :=
  mkInput (in_buf i) (in_r i) (in_w i) v.

(** memide.c: the disk image, by blocks, and the writes made to it, oldest
    first. *)
Record disk := mkDisk {
  dk_size : Z;
  dk_blocks : gmap Z (list Z);
  dk_writes : list (Z * list Z)
}.


(** The state of the kernel, as one CPU sees it: the spin locks this CPU holds
    and its current process, then the globals of proc.c ([ptable], [nextpid],
    [initproc]), kalloc.c (memory, [kmem]), bio.c, memide.c, log.c, fs.c
    ([sb], [icache]), file.c ([ftable], [devsw]: whether the major number has
    a driver), pipe.c, trap.c ([ticks]) and console.c, and last [kpgdir] of
    vm.c with the hardware registers it drives (the page-table base %cr3 and
    the kernel stack pointer of the task segment). *)
Record kstate := mkK {
  k_held : list lockid;
  k_proc : option nat;
  k_ptable : list proc;
  k_nextpid : Z;
  k_initproc : option nat;
  k_mem : mem;
  k_freelist : Z;
  k_uselock : Z;
  k_bcache : list buf;
  k_disk : disk;
  k_log : log;
  k_sb : superblock;
  k_icache : list inode;
  k_ftable : list file;
  k_pipes : gmap Z pipe;
  k_ticks : Z;
  k_input : input;
  k_out : list Z;
  k_devsw : list bool;
  k_kpgdir : Z;
  k_cr3 : Z;
  k_esp0 : Z
}.

Definition set_k_held (v : list lockid) (s : kstate) : kstate :=
  mkK v (k_proc s) (k_ptable s) (k_nextpid s) (k_initproc s) (k_mem s)
    (k_freelist s) (k_uselock s) (k_bcache s) (k_disk s) (k_log s) (k_sb s)
    (k_icache s) (k_ftable s) (k_pipes s) (k_ticks s) (k_input s) (k_out s)
    (k_devsw s) (k_kpgdir s) (k_cr3 s) (k_esp0 s).
Definition set_k_proc (v : option nat) (s : kstate) : kstate :=
  mkK (k_held s) v (k_ptable s) (k_nextpid s) (k_initproc s) (k_mem s)
    (k_freelist s) (k_uselock s) (k_bcache s) (k_disk s) (k_log s) (k_sb s)
    (k_icache s) (k_ftable s) (k_pipes s) (k_ticks s) (k_input s) (k_out s)
    (k_devsw s) (k_kpgdir s) (k_cr3 s) (k_esp0 s).
Definition set_k_ptable (v : list proc) (s : kstate) : kstate :=
  mkK (k_held s) (k_proc s) v (k_nextpid s) (k_initproc s) (k_mem s)
    (k_freelist s) (k_uselock s) (k_bcache s) (k_disk s) (k_log s) (k_sb s)
    (k_icache s) (k_ftable s) (k_pipes s) (k_ticks s) (k_input s) (k_out s)
    (k_devsw s) (k_kpgdir s) (k_cr3 s) (k_esp0 s).
Definition set_k_nextpid (v : Z) (s : kstate) : kstate :=
  mkK (k_held s) (k_proc s) (k_ptable s) v (k_initproc s) (k_mem s)
    (k_freelist s) (k_uselock s) (k_bcache s) (k_disk s) (k_log s) (k_sb s)
    (k_icache s) (k_ftable s) (k_pipes s) (k_ticks s) (k_input s) (k_out s)
    (k_devsw s) (k_kpgdir s) (k_cr3 s) (k_esp0 s).
Definition set_k_initproc (v : option nat) (s : kstate) : kstate :=
  mkK (k_held s) (k_proc s) (k_ptable s) (k_nextpid s) v (k_mem s)
    (k_freelist s) (k_uselock s) (k_bcache s) (k_disk s) (k_log s) (k_sb s)
    (k_icache s) (k_ftable s) (k_pipes s) (k_ticks s) (k_input s) (k_out s)
    (k_devsw s) (k_kpgdir s) (k_cr3 s) (k_esp0 s).
Definition set_k_mem (v : mem) (s : kstate) : kstate :=
  mkK (k_held s) (k_proc s) (k_ptable s) (k_nextpid s) (k_initproc s) v
    (k_freelist s) (k_uselock s) (k_bcache s) (k_disk s) (k_log s) (k_sb s)
    (k_icache s) (k_ftable s) (k_pipes s) (k_ticks s) (k_input s) (k_out s)
    (k_devsw s) (k_kpgdir s) (k_cr3 s) (k_esp0 s).
Definition set_k_freelist (v : Z) (s : kstate) : kstate :=
  mkK (k_held s) (k_proc s) (k_ptable s) (k_nextpid s) (k_initproc s) (k_mem
    s) v (k_uselock s) (k_bcache s) (k_disk s) (k_log s) (k_sb s) (k_icache
    s) (k_ftable s) (k_pipes s) (k_ticks s) (k_input s) (k_out s) (k_devsw
    s) (k_kpgdir s) (k_cr3 s) (k_esp0 s).
Definition set_k_uselock (v : Z) (s : kstate) : kstate :=
  mkK (k_held s) (k_proc s) (k_ptable s) (k_nextpid s) (k_initproc s) (k_mem
    s) (k_freelist s) v (k_bcache s) (k_disk s) (k_log s) (k_sb s) (k_icache
    s) (k_ftable s) (k_pipes s) (k_ticks s) (k_input s) (k_out s) (k_devsw
    s) (k_kpgdir s) (k_cr3 s) (k_esp0 s).
Definition set_k_bcache (v : list buf) (s : kstate) : kstate :=
  mkK (k_held s) (k_proc s) (k_ptable s) (k_nextpid s) (k_initproc s) (k_mem
    s) (k_freelist s) (k_uselock s) v (k_disk s) (k_log s) (k_sb s)
    (k_icache s) (k_ftable s) (k_pipes s) (k_ticks s) (k_input s) (k_out s)
    (k_devsw s) (k_kpgdir s) (k_cr3 s) (k_esp0 s).
Definition set_k_disk (v : disk) (s : kstate) : kstate :=
  mkK (k_held s) (k_proc s) (k_ptable s) (k_nextpid s) (k_initproc s) (k_mem
    s) (k_freelist s) (k_uselock s) (k_bcache s) v (k_log s) (k_sb s)
    (k_icache s) (k_ftable s) (k_pipes s) (k_ticks s) (k_input s) (k_out s)
    (k_devsw s) (k_kpgdir s) (k_cr3 s) (k_esp0 s).
Definition set_k_log (v : log) (s : kstate) : kstate :=
  mkK (k_held s) (k_proc s) (k_ptable s) (k_nextpid s) (k_initproc s) (k_mem
    s) (k_freelist s) (k_uselock s) (k_bcache s) (k_disk s) v (k_sb s)
    (k_icache s) (k_ftable s) (k_pipes s) (k_ticks s) (k_input s) (k_out s)
    (k_devsw s) (k_kpgdir s) (k_cr3 s) (k_esp0 s).
Definition set_k_sb (v : superblock) (s : kstate) : kstate :=
  mkK (k_held s) (k_proc s) (k_ptable s) (k_nextpid s) (k_initproc s) (k_mem
    s) (k_freelist s) (k_uselock s) (k_bcache s) (k_disk s) (k_log s) v
    (k_icache s) (k_ftable s) (k_pipes s) (k_ticks s) (k_input s) (k_out s)
    (k_devsw s) (k_kpgdir s) (k_cr3 s) (k_esp0 s).
Definition set_k_icache (v : list inode) (s : kstate) : kstate :=
  mkK (k_held s) (k_proc s) (k_ptable s) (k_nextpid s) (k_initproc s) (k_mem
    s) (k_freelist s) (k_uselock s) (k_bcache s) (k_disk s) (k_log s) (k_sb
    s) v (k_ftable s) (k_pipes s) (k_ticks s) (k_input s) (k_out s) (k_devsw
    s) (k_kpgdir s) (k_cr3 s) (k_esp0 s).
Definition set_k_ftable (v : list file) (s : kstate) : kstate :=
  mkK (k_held s) (k_proc s) (k_ptable s) (k_nextpid s) (k_initproc s) (k_mem
    s) (k_freelist s) (k_uselock s) (k_bcache s) (k_disk s) (k_log s) (k_sb
    s) (k_icache s) v (k_pipes s) (k_ticks s) (k_input s) (k_out s) (k_devsw
    s) (k_kpgdir s) (k_cr3 s) (k_esp0 s).
Definition set_k_pipes (v : gmap Z pipe) (s : kstate) : kstate :=
  mkK (k_held s) (k_proc s) (k_ptable s) (k_nextpid s) (k_initproc s) (k_mem
    s) (k_freelist s) (k_uselock s) (k_bcache s) (k_disk s) (k_log s) (k_sb
    s) (k_icache s) (k_ftable s) v (k_ticks s) (k_input s) (k_out s)
    (k_devsw s) (k_kpgdir s) (k_cr3 s) (k_esp0 s).
Definition set_k_ticks (v : Z) (s : kstate) : kstate :=
  mkK (k_held s) (k_proc s) (k_ptable s) (k_nextpid s) (k_initproc s) (k_mem
    s) (k_freelist s) (k_uselock s) (k_bcache s) (k_disk s) (k_log s) (k_sb
    s) (k_icache s) (k_ftable s) (k_pipes s) v (k_input s) (k_out s)
    (k_devsw s) (k_kpgdir s) (k_cr3 s) (k_esp0 s).
Definition set_k_input (v : input) (s : kstate) : kstate :=
  mkK (k_held s) (k_proc s) (k_ptable s) (k_nextpid s) (k_initproc s) (k_mem
    s) (k_freelist s) (k_uselock s) (k_bcache s) (k_disk s) (k_log s) (k_sb
    s) (k_icache s) (k_ftable s) (k_pipes s) (k_ticks s) v (k_out s)
    (k_devsw s) (k_kpgdir s) (k_cr3 s) (k_esp0 s).
Definition set_k_out (v : list Z) (s : kstate) : kstate :=
  mkK (k_held s) (k_proc s) (k_ptable s) (k_nextpid s) (k_initproc s) (k_mem
    s) (k_freelist s) (k_uselock s) (k_bcache s) (k_disk s) (k_log s) (k_sb
    s) (k_icache s) (k_ftable s) (k_pipes s) (k_ticks s) (k_input s) v
    (k_devsw s) (k_kpgdir s) (k_cr3 s) (k_esp0 s).
Definition set_k_devsw (v : list bool) (s : kstate) : kstate :=
  mkK (k_held s) (k_proc s) (k_ptable s) (k_nextpid s) (k_initproc s) (k_mem
    s) (k_freelist s) (k_uselock s) (k_bcache s) (k_disk s) (k_log s) (k_sb
    s) (k_icache s) (k_ftable s) (k_pipes s) (k_ticks s) (k_input s) (k_out
    s) v (k_kpgdir s) (k_cr3 s) (k_esp0 s).
Definition set_k_kpgdir (v : Z) (s : kstate) : kstate :=
  mkK (k_held s) (k_proc s) (k_ptable s) (k_nextpid s) (k_initproc s) (k_mem
    s) (k_freelist s) (k_uselock s) (k_bcache s) (k_disk s) (k_log s) (k_sb
    s) (k_icache s) (k_ftable s) (k_pipes s) (k_ticks s) (k_input s) (k_out
    s) (k_devsw s) v (k_cr3 s) (k_esp0 s).
Definition set_k_cr3 (v : Z) (s : kstate) : kstate :=
  mkK (k_held s) (k_proc s) (k_ptable s) (k_nextpid s) (k_initproc s) (k_mem
    s) (k_freelist s) (k_uselock s) (k_bcache s) (k_disk s) (k_log s) (k_sb
    s) (k_icache s) (k_ftable s) (k_pipes s) (k_ticks s) (k_input s) (k_out
    s) (k_devsw s) (k_kpgdir s) v (k_esp0 s).
Definition set_k_esp0 (v : Z) (s : kstate) : kstate :=
  mkK (k_held s) (k_proc s) (k_ptable s) (k_nextpid s) (k_initproc s) (k_mem
    s) (k_freelist s) (k_uselock s) (k_bcache s) (k_disk s) (k_log s) (k_sb
    s) (k_icache s) (k_ftable s) (k_pipes s) (k_ticks s) (k_input s) (k_out
    s) (k_devsw s) (k_kpgdir s) (k_cr3 s) v.

(** ** The kernel monad *)

Inductive kstop :=
| Panic (msg : string)
| Switch
| Fault
| NoFuel.

Abbreviation K := (prog kstop kstate).

Definition panic {A} (msg : string) : K A := stop (Panic msg).

(** Dereferencing a pointer into a table; a dangling index is a fault. *)
Definition deref {A} (o : option A) : K A :=
  match o with Some a => mret a | None => stop Fault end.

Definition get_buf (i : nat) : K buf := b ← gets k_bcache; deref (b !! i).
Definition put_buf (i : nat) (b : buf) : K unit :=
  modify (fun s => set_k_bcache (<[i := b]> (k_bcache s)) s).
Definition upd_buf (i : nat) (f : buf -> buf) : K unit :=
  b ← get_buf i; put_buf i (f b).

Definition get_inode (i : nat) : K inode := l ← gets k_icache; deref (l !! i).
Definition put_inode (i : nat) (v : inode) : K unit :=
  modify (fun s => set_k_icache (<[i := v]> (k_icache s)) s).
Definition upd_inode (i : nat) (f : inode -> inode) : K unit :=
  v ← get_inode i; put_inode i (f v).

Definition get_file (i : nat) : K file := l ← gets k_ftable; deref (l !! i).
Definition put_file (i : nat) (v : file) : K unit :=
  modify (fun s => set_k_ftable (<[i := v]> (k_ftable s)) s).
Definition upd_file (i : nat) (f : file -> file) : K unit :=
  v ← get_file i; put_file i (f v).

Definition get_proc (i : nat) : K proc := l ← gets k_ptable; deref (l !! i).
Definition put_proc (i : nat) (v : proc) : K unit :=
  modify (fun s => set_k_ptable (<[i := v]> (k_ptable s)) s).
Definition upd_proc (i : nat) (f : proc -> proc) : K unit :=
  v ← get_proc i; put_proc i (f v).

Definition get_pipe (p : Z) : K pipe := l ← gets k_pipes; deref (l !! p).
Definition put_pipe (p : Z) (v : pipe) : K unit :=
  modify (fun s => set_k_pipes (<[p := v]> (k_pipes s)) s).
Definition upd_pipe (p : Z) (f : pipe -> pipe) : K unit :=
  v ← get_pipe p; put_pipe p (f v).

Definition upd_log (f : log -> log) : K unit :=
  modify (fun s => set_k_log (f (k_log s)) s).

(** The current process ([proc] in the C code). *)
Definition myproc : K nat := o ← gets k_proc; deref o.

(** ** The zero-initialised kernel

    Static storage starts out all zero; [kzero] is that state over a given
    memory and disk, before any initialisation function has run. *)

Definition tf0 : trapframe := mkTf 0 0 0 0 0 0 0 0 0 0 0 0 0 0 0 0 0 0 0.
Definition ctx0 : context := mkCtx 0 0 0 0 0.
Definition proc0 : proc :=
  mkProc 0 0 0 UNUSED 0 None tf0 ctx0 None 0 (replicate NOFILE None) None
    (replicate 16 0).
Definition buf0 : buf := mkBuf 0 0 0 0 0 None (replicate BSIZE 0).
Definition inode0 : inode := mkInode 0 0 0 0 0 0 0 0 0 (replicate 13 0).
Definition file0 : file := mkFile FD_NONE 0 0 0 0 None 0.
Definition log0 : log := mkLog 0 0 0 0 0 0 (replicate (Z.to_nat LOGSIZE) 0).
Definition input0 : input := mkInput (replicate (Z.to_nat INPUT_BUF) 0) 0 0 0.

Definition kzero (m : mem) (d : disk) : kstate :=
  mkK [] None (replicate NPROC proc0) 1 None m 0 0
    (replicate (S NBUF) buf0) d log0 (mkSb 0 0 0 0 0 0 0)
    (replicate NINODE inode0) (replicate NFILE file0) ∅ 0 input0 []
    (replicate NDEV false) 0 0 0.

(** ** The contract of spin locks *)

Definition drop_lock (l : lockid) (h : list lockid) : list lockid :=
  filter (fun x => x <> l) h.

Definition holding (l : lockid) (s : kstate) : bool := bool_decide (l ∈ k_held s).

Definition acquire (l : lockid) : K unit := fun s =>
  if holding l s then Stop (Panic "acquire") s
  else Ret tt (set_k_held (l :: k_held s) s).

Definition release (l : lockid) : K unit := fun s =>
  if holding l s then Ret tt (set_k_held (drop_lock l (k_held s)) s)
  else Stop (Panic "release") s.

(** ** Lemmas *)

Lemma drop_lock_cons l h : l ∉ h -> drop_lock l (l :: h) = h.
Proof.
  intros Hl. unfold drop_lock. rewrite filter_cons_False by tauto.
  induction h as [|x h IH]; [done|].
  rewrite filter_cons_True by set_solver. f_equal. apply IH. set_solver.
Qed.

Lemma acquire_free l s :
  l ∉ k_held s -> acquire l s = Ret tt (set_k_held (l :: k_held s) s).
Proof. intros. unfold acquire, holding. by rewrite bool_decide_false. Qed.

Lemma release_held l s h :
  k_held s = l :: h -> l ∉ h -> release l s = Ret tt (set_k_held h s).
Proof.
  intros Hh Hl. unfold release, holding. rewrite Hh.
  rewrite bool_decide_true by set_solver. by rewrite drop_lock_cons.
Qed.

Lemma get_buf_Ret i s b : k_bcache s !! i = Some b -> get_buf i s = Ret b s.
Proof. intros H. unfold get_buf. rewrite bind_run. cbn. by rewrite H. Qed.

Lemma upd_buf_Ret i f s b :
  k_bcache s !! i = Some b ->
  upd_buf i f s = Ret tt (set_k_bcache (<[i := f b]> (k_bcache s)) s).
Proof. intros H. unfold upd_buf. by rewrite bind_run, (get_buf_Ret _ _ _ H). Qed.

Lemma get_inode_Ret i s b : k_icache s !! i = Some b -> get_inode i s = Ret b s.
Proof. intros H. unfold get_inode. rewrite bind_run. cbn. by rewrite H. Qed.

Lemma upd_inode_Ret i f s b :
  k_icache s !! i = Some b ->
  upd_inode i f s = Ret tt (set_k_icache (<[i := f b]> (k_icache s)) s).
Proof. intros H. unfold upd_inode. by rewrite bind_run, (get_inode_Ret _ _ _ H). Qed.

Lemma get_file_Ret i s b : k_ftable s !! i = Some b -> get_file i s = Ret b s.
Proof. intros H. unfold get_file. rewrite bind_run. cbn. by rewrite H. Qed.

Lemma upd_file_Ret i f s b :
  k_ftable s !! i = Some b ->
  upd_file i f s = Ret tt (set_k_ftable (<[i := f b]> (k_ftable s)) s).
Proof. intros H. unfold upd_file. by rewrite bind_run, (get_file_Ret _ _ _ H). Qed.

Lemma get_proc_Ret i s b : k_ptable s !! i = Some b -> get_proc i s = Ret b s.
Proof. intros H. unfold get_proc. rewrite bind_run. cbn. by rewrite H. Qed.

Lemma upd_proc_Ret i f s b :
  k_ptable s !! i = Some b ->
  upd_proc i f s = Ret tt (set_k_ptable (<[i := f b]> (k_ptable s)) s).
Proof. intros H. unfold upd_proc. by rewrite bind_run, (get_proc_Ret _ _ _ H). Qed.

Lemma get_pipe_Ret i s b : k_pipes s !! i = Some b -> get_pipe i s = Ret b s.
Proof. intros H. unfold get_pipe. rewrite bind_run. cbn. by rewrite H. Qed.

Lemma upd_pipe_Ret i f s b :
  k_pipes s !! i = Some b ->
  upd_pipe i f s = Ret tt (set_k_pipes (<[i := f b]> (k_pipes s)) s).
Proof. intros H. unfold upd_pipe. by rewrite bind_run, (get_pipe_Ret _ _ _ H). Qed.

Lemma myproc_Ret s i : k_proc s = Some i -> myproc s = Ret i s.
Proof. intros H. unfold myproc. rewrite bind_run. cbn. by rewrite H. Qed.

(** Flags of buffers ([I_BUSY] and [I_VALID] are the same bits). *)

Ltac flag_solve :=
  intros; change B_BUSY with (2 ^ 0); change B_VALID with (2 ^ 1);
  change B_DIRTY with (2 ^ 2);
  (apply flag_fset_same || apply flag_fset_other || apply flag_fclr_same ||
   apply flag_fclr_other); lia.

Lemma fset_busy_busy f : flag (fset f B_BUSY) B_BUSY = true.
Proof. flag_solve. Qed.
Lemma fset_busy_valid f : flag (fset f B_BUSY) B_VALID = flag f B_VALID.
Proof. flag_solve. Qed.
Lemma fset_busy_dirty f : flag (fset f B_BUSY) B_DIRTY = flag f B_DIRTY.
Proof. flag_solve. Qed.
Lemma fset_valid_busy f : flag (fset f B_VALID) B_BUSY = flag f B_BUSY.
Proof. flag_solve. Qed.
Lemma fset_valid_valid f : flag (fset f B_VALID) B_VALID = true.
Proof. flag_solve. Qed.
Lemma fset_valid_dirty f : flag (fset f B_VALID) B_DIRTY = flag f B_DIRTY.
Proof. flag_solve. Qed.
Lemma fset_dirty_busy f : flag (fset f B_DIRTY) B_BUSY = flag f B_BUSY.
Proof. flag_solve. Qed.
Lemma fset_dirty_valid f : flag (fset f B_DIRTY) B_VALID = flag f B_VALID.
Proof. flag_solve. Qed.
Lemma fset_dirty_dirty f : flag (fset f B_DIRTY) B_DIRTY = true.
Proof. flag_solve. Qed.
Lemma fclr_busy_busy f : flag (fclr f B_BUSY) B_BUSY = false.
Proof. flag_solve. Qed.
Lemma fclr_busy_valid f : flag (fclr f B_BUSY) B_VALID = flag f B_VALID.
Proof. flag_solve. Qed.
Lemma fclr_busy_dirty f : flag (fclr f B_BUSY) B_DIRTY = flag f B_DIRTY.
Proof. flag_solve. Qed.
Lemma fclr_valid_busy f : flag (fclr f B_VALID) B_BUSY = flag f B_BUSY.
Proof. flag_solve. Qed.
Lemma fclr_valid_valid f : flag (fclr f B_VALID) B_VALID = false.
Proof. flag_solve. Qed.
Lemma fclr_valid_dirty f : flag (fclr f B_VALID) B_DIRTY = flag f B_DIRTY.
Proof. flag_solve. Qed.
Lemma fclr_dirty_busy f : flag (fclr f B_DIRTY) B_BUSY = flag f B_BUSY.
Proof. flag_solve. Qed.
Lemma fclr_dirty_valid f : flag (fclr f B_DIRTY) B_VALID = flag f B_VALID.
Proof. flag_solve. Qed.
Lemma fclr_dirty_dirty f : flag (fclr f B_DIRTY) B_DIRTY = false.
Proof. flag_solve. Qed.
Lemma busy_only : flag B_BUSY B_BUSY = true /\ flag B_BUSY B_VALID = false /\
  flag B_BUSY B_DIRTY = false.
Proof. done. Qed.

Create Rewrite HintDb flags.
#[export] Hint Rewrite fset_busy_busy fset_busy_valid fset_busy_dirty
  fset_valid_busy fset_valid_valid fset_valid_dirty fset_dirty_busy
  fset_dirty_valid fset_dirty_dirty fclr_busy_busy fclr_busy_valid
  fclr_busy_dirty fclr_valid_busy fclr_valid_valid fclr_valid_dirty
  fclr_dirty_busy fclr_dirty_valid fclr_dirty_dirty : flags.
#[export] Hint Rewrite (proj1 busy_only) (proj1 (proj2 busy_only))
  (proj2 (proj2 busy_only)) : flags.

(** [ksimp] evaluates projections of updated states and trivial programs. *)
Ltac ksimp :=
  cbn [
    tf_edi tf_esi tf_ebp tf_oesp tf_ebx tf_edx tf_ecx tf_eax tf_gs tf_fs
    tf_es tf_ds tf_trapno tf_err tf_eip tf_cs tf_eflags tf_esp tf_ss
    set_tf_eax set_tf_es set_tf_ds set_tf_eip set_tf_cs set_tf_eflags
    set_tf_esp set_tf_ss cx_edi cx_esi cx_ebx cx_ebp cx_eip set_cx_eip
    p_sz p_pgdir p_kstack p_state p_pid p_parent p_tf p_context p_chan
    p_killed p_ofile p_cwd p_name set_p_sz set_p_pgdir set_p_kstack
    set_p_state set_p_pid set_p_parent set_p_tf set_p_context set_p_chan
    set_p_killed set_p_ofile set_p_cwd set_p_name b_flags b_dev b_blockno
    b_prev b_next b_qnext b_data set_b_flags set_b_dev set_b_blockno
    set_b_prev set_b_next set_b_qnext set_b_data i_dev i_inum i_ref
    i_flags i_type i_major i_minor i_nlink i_size i_addrs set_i_dev
    set_i_inum set_i_ref set_i_flags set_i_type set_i_major set_i_minor
    set_i_nlink set_i_size set_i_addrs sb_size sb_nblocks sb_ninodes
    sb_nlog sb_logstart sb_inodestart sb_bmapstart f_type f_ref f_readable
    f_writable f_pipe f_ip f_off set_f_type set_f_ref set_f_readable
    set_f_writable set_f_pipe set_f_ip set_f_off pi_data pi_nread
    pi_nwrite pi_readopen pi_writeopen set_pi_data set_pi_nread
    set_pi_nwrite set_pi_readopen set_pi_writeopen lg_start lg_size
    lg_outstanding lg_committing lg_dev lg_n lg_block set_lg_start
    set_lg_size set_lg_outstanding set_lg_committing set_lg_dev set_lg_n
    set_lg_block in_buf in_r in_w in_e set_in_buf set_in_r set_in_w
    set_in_e dk_size dk_blocks dk_writes k_held k_proc k_ptable k_nextpid
    k_initproc k_mem k_freelist k_uselock k_bcache k_disk k_log k_sb
    k_icache k_ftable k_pipes k_ticks k_input k_out k_devsw k_kpgdir k_cr3
    k_esp0 set_k_held set_k_proc set_k_ptable set_k_nextpid set_k_initproc
    set_k_mem set_k_freelist set_k_uselock set_k_bcache set_k_disk
    set_k_log set_k_sb set_k_icache set_k_ftable set_k_pipes set_k_ticks
    set_k_input set_k_out set_k_devsw set_k_kpgdir set_k_cr3 set_k_esp0
    gets getst modify stop mret prog_ret deref negb andb orb
  ].
Tactic Notation "ksimp" "in" hyp(H) :=
  cbn [
    tf_edi tf_esi tf_ebp tf_oesp tf_ebx tf_edx tf_ecx tf_eax tf_gs tf_fs
    tf_es tf_ds tf_trapno tf_err tf_eip tf_cs tf_eflags tf_esp tf_ss
    set_tf_eax set_tf_es set_tf_ds set_tf_eip set_tf_cs set_tf_eflags
    set_tf_esp set_tf_ss cx_edi cx_esi cx_ebx cx_ebp cx_eip set_cx_eip
    p_sz p_pgdir p_kstack p_state p_pid p_parent p_tf p_context p_chan
    p_killed p_ofile p_cwd p_name set_p_sz set_p_pgdir set_p_kstack
    set_p_state set_p_pid set_p_parent set_p_tf set_p_context set_p_chan
    set_p_killed set_p_ofile set_p_cwd set_p_name b_flags b_dev b_blockno
    b_prev b_next b_qnext b_data set_b_flags set_b_dev set_b_blockno
    set_b_prev set_b_next set_b_qnext set_b_data i_dev i_inum i_ref
    i_flags i_type i_major i_minor i_nlink i_size i_addrs set_i_dev
    set_i_inum set_i_ref set_i_flags set_i_type set_i_major set_i_minor
    set_i_nlink set_i_size set_i_addrs sb_size sb_nblocks sb_ninodes
    sb_nlog sb_logstart sb_inodestart sb_bmapstart f_type f_ref f_readable
    f_writable f_pipe f_ip f_off set_f_type set_f_ref set_f_readable
    set_f_writable set_f_pipe set_f_ip set_f_off pi_data pi_nread
    pi_nwrite pi_readopen pi_writeopen set_pi_data set_pi_nread
    set_pi_nwrite set_pi_readopen set_pi_writeopen lg_start lg_size
    lg_outstanding lg_committing lg_dev lg_n lg_block set_lg_start
    set_lg_size set_lg_outstanding set_lg_committing set_lg_dev set_lg_n
    set_lg_block in_buf in_r in_w in_e set_in_buf set_in_r set_in_w
    set_in_e dk_size dk_blocks dk_writes k_held k_proc k_ptable k_nextpid
    k_initproc k_mem k_freelist k_uselock k_bcache k_disk k_log k_sb
    k_icache k_ftable k_pipes k_ticks k_input k_out k_devsw k_kpgdir k_cr3
    k_esp0 set_k_held set_k_proc set_k_ptable set_k_nextpid set_k_initproc
    set_k_mem set_k_freelist set_k_uselock set_k_bcache set_k_disk
    set_k_log set_k_sb set_k_icache set_k_ftable set_k_pipes set_k_ticks
    set_k_input set_k_out set_k_devsw set_k_kpgdir set_k_cr3 set_k_esp0
    gets getst modify stop mret prog_ret deref negb andb orb
  ] in H.

(** [krun] runs the next command of a monadic goal when it is trivial. *)
Ltac krun := repeat (rewrite bind_run; ksimp); unfold gets, getst, modify, stop; ksimp.

(** [notheld] proves that a lock is not held, from an equation on [k_held]. *)
Ltac notheld :=
  ksimp; repeat match goal with H : k_held _ = _ |- _ => rewrite H end;
  rewrite ?not_elem_of_cons; repeat split; try apply not_elem_of_nil; congruence.

(** ** What the table accessors and the locks keep *)

Lemma keeps_deref {A B} (f : kstate -> B) (o : option A) : keeps f (deref o).
Proof. destruct o; [apply keeps_ret|apply keeps_stop]. Qed.

Lemma keeps_panic {A B} (f : kstate -> B) msg : keeps f (panic msg : K A).
Proof. apply keeps_stop. Qed.

Lemma keeps_upd_buf {B} (f : kstate -> B) i g :
  (forall s v, f (set_k_bcache v s) = f s) -> keeps f (upd_buf i g).
Proof.
  intros H. unfold upd_buf, get_buf, put_buf.
  repeat (apply keeps_bind; [|intros ?]); auto using keeps_gets, keeps_deref, keeps_modify.
Qed.

Lemma keeps_get_buf {B} (f : kstate -> B) i : keeps f (get_buf i).
Proof. unfold get_buf. apply keeps_bind; [apply keeps_gets|intros; apply keeps_deref]. Qed.

Lemma keeps_upd_proc {B} (f : kstate -> B) i g :
  (forall s v, f (set_k_ptable v s) = f s) -> keeps f (upd_proc i g).
Proof.
  intros H. unfold upd_proc, get_proc, put_proc.
  repeat (apply keeps_bind; [|intros ?]); auto using keeps_gets, keeps_deref, keeps_modify.
Qed.

Lemma keeps_get_proc {B} (f : kstate -> B) i : keeps f (get_proc i).
Proof. unfold get_proc. apply keeps_bind; [apply keeps_gets|intros; apply keeps_deref]. Qed.

Lemma keeps_acquire {B} (f : kstate -> B) l : (forall s v, f (set_k_held v s) = f s) -> keeps f (acquire l).
Proof. intros H s a s'. unfold acquire. case_match; [done|]. by intros [= _ <-]. Qed.

Lemma keeps_release {B} (f : kstate -> B) l : (forall s v, f (set_k_held v s) = f s) -> keeps f (release l).
Proof. intros H s a s'. unfold release. case_match; [|done]. by intros [= _ <-]. Qed.

Lemma keeps_myproc {B} (f : kstate -> B) : keeps f myproc.
Proof. unfold myproc. apply keeps_bind; [apply keeps_gets|intros; apply keeps_deref]. Qed.

#[export] Hint Resolve keeps_panic keeps_deref keeps_upd_buf keeps_get_buf keeps_upd_proc keeps_get_proc
  keeps_acquire keeps_release keeps_myproc : keeps.

(** ** Symbolic execution *)

Lemma gets_run {A} (f : kstate -> A) s : (gets f : K A) s = Ret (f s) s.
Proof. done. Qed.

(** Advance over a command specified by an existential lemma. *)
Ltac kstep H := rewrite (bind_Ret _ _ _ _ _ H).
Ltac kgets := rewrite (bind_Ret _ _ _ _ _ (gets_run _ _)).

Lemma modify_run (f : kstate -> kstate) s : (modify f : K unit) s = Ret tt (f s).
Proof. done. Qed.
Ltac kmod := rewrite (bind_Ret _ _ _ _ _ (modify_run _ _)).
