(* ===== verification/Sched.v ===== *)
(** * Scheduling: the part of src/xv6/proc.c that moves processes between states

    [sched], [sleep], [wakeup], [yield], [kill] and the loop of [scheduler].
    [sched] ends a run of a kernel function with the outcome [Switch]; what
    a function does when the process is scheduled again is a definition of
    its own ([sleep_return] for [sleep]). *)

From stdpp Require Import base list list_numbers numbers gmap strings.
From Stdlib Require Import ZArith Lia.
From S2P Require Import Prelude Mem KState.

(** [switchkvm] and [switchuvm] of vm.c: load the page-table base register,
    and for a process also the kernel stack of the task segment (of the
    current process, [proc], as the code has it). *)
Definition switchkvm : K unit :=
  modify (fun s => set_k_cr3 (u32 (k_kpgdir s - 0x80000000)) s).

Definition switchuvm (i : nat) : K unit :=
  me ← myproc;
  cur ← get_proc me;
  modify (set_k_esp0 (u32 (p_kstack cur + KSTACKSIZE))) ;;
  p ← get_proc i;
  if p_pgdir p =? 0 then panic "switchuvm: no pgdir"
  else modify (set_k_cr3 (u32 (p_pgdir p - 0x80000000))).

(** [sched]: the checks, then the switch to the scheduler.  The check of
    [FL_IF] is implied by holding a lock (see [Spinlock]). *)
Definition sched : K unit :=
  s ← getst;
  if negb (holding L_ptable s) then panic "sched ptable.lock"
  else if negb (bool_decide (length (k_held s) = 1%nat)) then panic "sched locks"
  else
    me ← myproc;
    p ← get_proc me;
    if bool_decide (p_state p = RUNNING) then panic "sched running"
    else stop Switch.

Definition yield : K unit :=
  acquire L_ptable ;;
  me ← myproc;
  upd_proc me (set_p_state RUNNABLE) ;;
  sched ;;
  release L_ptable.

Definition sleep (c : chan) (lk : option lockid) : K unit :=
  o ← gets k_proc;
  match o, lk with
  | None, _ => panic "sleep"
  | _, None => panic "sleep without lk"
  | Some me, Some lk =>
      (if decide (lk = L_ptable) then mret tt
       else acquire L_ptable ;; release lk) ;;
      upd_proc me (set_p_chan (Some c)) ;;
      upd_proc me (set_p_state SLEEPING) ;;
      sched
  end.

(** What [sleep] does after [sched] returns. *)
Definition sleep_return (lk : lockid) : K unit :=
  me ← myproc;
  upd_proc me (set_p_chan None) ;;
  if decide (lk = L_ptable) then mret tt
  else release L_ptable ;; acquire lk.

(** [while(cond) sleep(c, lk);] when the condition holds: the run ends in the
    scheduler, and after [sleep_return lk] the caller resumes at the head of
    its loop, which is the definition that calls [block]. *)
Definition block {A} (c : chan) (lk : lockid) : K A := sleep c (Some lk) ;; stop Switch.

Definition wake_one (c : option chan) (p : proc) : proc :=
  if (bool_decide (p_state p = SLEEPING) && bool_decide (p_chan p = c))%bool
  then set_p_state RUNNABLE p else p.

Definition wakeup1 (c : option chan) : K unit :=
  modify (fun s => set_k_ptable (map (wake_one c) (k_ptable s)) s).

Definition wakeup (c : chan) : K unit :=
  acquire L_ptable ;; wakeup1 (Some c) ;; release L_ptable.

(** The loop of [kill] from slot [i]. *)
Fixpoint kill_loop (pid : Z) (i n : nat) : K Z :=
  match n with
  | O => release L_ptable ;; mret (-1)
  | S n' =>
      p ← get_proc i;
      if p_pid p =? pid then
        upd_proc i (set_p_killed 1) ;;
        (if bool_decide (p_state p = SLEEPING)
         then upd_proc i (set_p_state RUNNABLE) else mret tt) ;;
        release L_ptable ;;
        mret 0
      else kill_loop pid (S i) n'
  end.
Definition kill (pid : Z) : K Z := acquire L_ptable ;; kill_loop pid 0 NPROC.

(** One scan of the process table by [scheduler].  [swtch i] is the context
    switch into process [i], up to its return to the scheduler. *)
Fixpoint scheduler_scan (swtch : nat -> K unit) (i n : nat) : K unit :=
  match n with
  | O => mret tt
  | S n' =>
      p ← get_proc i;
      (if bool_decide (p_state p = RUNNABLE) then
         modify (set_k_proc (Some i)) ;;
         switchuvm i ;;
         upd_proc i (set_p_state RUNNING) ;;
         swtch i ;;
         switchkvm ;;
         modify (set_k_proc None)
       else mret tt) ;;
      scheduler_scan swtch (S i) n'
  end.
Definition scheduler (swtch : nat -> K unit) : K unit :=
  acquire L_ptable ;; scheduler_scan swtch 0 NPROC ;; release L_ptable.

(** ** wakeup *)

Lemma wakeup_Ret c s :
  L_ptable ∉ k_held s ->
  wakeup c s = Ret tt (set_k_ptable (map (wake_one (Some c)) (k_ptable s)) s).
Proof.
  intros Hh. unfold wakeup. rewrite bind_run, acquire_free by done.
  rewrite bind_run. cbn [wakeup1 modify]. unfold modify.
  rewrite (release_held _ _ (k_held s)) by done. destruct s; reflexivity.
Qed.

Lemma wake_one_idem c p : wake_one c (wake_one c p) = wake_one c p.
Proof.
  unfold wake_one at 2 3. destruct (_ && _)%bool eqn:E; [|by unfold wake_one; rewrite E].
  unfold wake_one. cbn. done.
Qed.

Lemma sleep_run c lk i p s :
  k_proc s = Some i -> k_ptable s !! i = Some p -> k_held s = [lk] -> lk <> L_ptable ->
  sleep c (Some lk) s = Stop Switch (set_k_held [L_ptable]
    (set_k_ptable (<[i := set_p_state SLEEPING (set_p_chan (Some c) p)]> (k_ptable s)) s)).
Proof.
  intros Hme Hp Hh Hlk. pose proof (lookup_lt_Some _ _ _ Hp) as Hlt.
  unfold sleep. rewrite bind_run. unfold gets. rewrite Hme.
  rewrite bind_run. rewrite decide_False by done.
  rewrite bind_run, acquire_free by notheld.
  unfold release, holding. cbn [k_held set_k_held]. rewrite Hh.
  rewrite bool_decide_true by (right; left).
  assert (drop_lock lk [L_ptable; lk] = [L_ptable]) as ->.
  { unfold drop_lock. rewrite filter_cons_True by congruence.
    rewrite filter_cons_False by tauto. done. }
  rewrite bind_run, (upd_proc_Ret _ _ _ p) by done.
  rewrite bind_run, (upd_proc_Ret _ _ _ (set_p_chan (Some c) p)).
  2: { cbn. by rewrite list_lookup_insert_eq. }
  unfold sched. krun. unfold holding. ksimp. rewrite !bool_decide_true by (done || left).
  ksimp. rewrite bind_run, (myproc_Ret _ i) by done.
  rewrite bind_run, (get_proc_Ret _ _ (set_p_state SLEEPING (set_p_chan (Some c) p))).
  2: { ksimp. rewrite list_lookup_insert_eq; [done|]. by rewrite length_insert. }
  ksimp. rewrite list_insert_insert_eq. by destruct s.
Qed.

Lemma block_run {A} c lk i p s :
  k_proc s = Some i -> k_ptable s !! i = Some p -> k_held s = [lk] -> lk <> L_ptable ->
  (block c lk : K A) s = Stop Switch (set_k_held [L_ptable]
    (set_k_ptable (<[i := set_p_state SLEEPING (set_p_chan (Some c) p)]> (k_ptable s)) s)).
Proof. intros. unfold block. by rewrite (bind_Stop _ _ _ _ _ (sleep_run c lk i p s ltac:(done) ltac:(done) ltac:(done) ltac:(done))). Qed.

(** [sleep] called by a running process that holds exactly the lock it
    passes ends in the scheduler with the process SLEEPING on the channel,
    the caller's lock released and only [ptable.lock] held; so a waker, which
    needs [ptable.lock], cannot run between the release and the switch, and
    the next [wakeup] on that channel makes the process RUNNABLE again. *)
Theorem sleep_no_lost_wakeup c lk i p s :
  k_proc s = Some i -> k_ptable s !! i = Some p -> k_held s = [lk] -> lk <> L_ptable ->
  exists s1, sleep c (Some lk) s = Stop Switch s1 /\
    k_held s1 = [L_ptable] /\
    k_ptable s1 = <[i := set_p_state SLEEPING (set_p_chan (Some c) p)]> (k_ptable s) /\
    forall s2, k_ptable s2 = k_ptable s1 -> L_ptable ∉ k_held s2 ->
      exists s3, wakeup c s2 = Ret tt s3 /\ k_held s3 = k_held s2 /\
        exists p3, k_ptable s3 !! i = Some p3 /\ p_state p3 = RUNNABLE.
Proof.
  intros Hme Hp Hh Hlk. pose proof (lookup_lt_Some _ _ _ Hp) as Hlt.
  eexists. split; [by apply (sleep_run c lk i p)|]. cbn. repeat split; [].
  intros s2 Hs2 Hns. rewrite wakeup_Ret by done. eexists. split; [reflexivity|].
  split; [done|]. exists (set_p_state RUNNABLE (set_p_state SLEEPING (set_p_chan (Some c) p))).
  cbn. rewrite Hs2, list_lookup_fmap, list_lookup_insert_eq by done. cbn.
  unfold wake_one. ksimp. by rewrite !bool_decide_true.
Qed.

(** A kernel state with one running process in slot 0. *)
Definition one_proc : kstate :=
  set_k_proc (Some 0%nat)
    (set_k_ptable (<[0%nat := set_p_state RUNNING (set_p_pid 7 (set_p_pgdir 4096 proc0))]>
       (replicate NPROC proc0)) (kzero ∅ (mkDisk 0 ∅ []))).

Lemma sleep_no_lost_wakeup_witness : exists s1,
  sleep C_log (Some L_log) (set_k_held [L_log] one_proc) = Stop Switch s1 /\
  k_held s1 = [L_ptable].
Proof.
  destruct (sleep_no_lost_wakeup C_log L_log 0
    (set_p_state RUNNING (set_p_pid 7 (set_p_pgdir 4096 proc0))) (set_k_held [L_log] one_proc)
    eq_refl eq_refl eq_refl ltac:(done)) as (s1 & H1 & H2 & _).
  exists s1. split; [exact H1|exact H2].
Defined.

(** Sleeping while holding a second lock is caught by [sched]. *)
Lemma sleep_two_locks c lk lk2 i p s :
  k_proc s = Some i -> k_ptable s !! i = Some p -> k_held s = [lk; lk2] ->
  lk <> L_ptable -> lk2 <> L_ptable -> lk <> lk2 ->
  exists s1, sleep c (Some lk) s = Stop (Panic "sched locks") s1.
Proof.
  intros Hme Hp Hh Hlk Hlk2 Hne. pose proof (lookup_lt_Some _ _ _ Hp) as Hlt.
  unfold sleep. krun. rewrite Hme. krun. rewrite decide_False by done.
  rewrite bind_run, acquire_free by notheld.
  unfold release, holding. ksimp. rewrite Hh.
  rewrite bool_decide_true by (right; left).
  assert (drop_lock lk [L_ptable; lk; lk2] = [L_ptable; lk2]) as ->.
  { unfold drop_lock. rewrite filter_cons_True by congruence.
    rewrite filter_cons_False by tauto. rewrite filter_cons_True by congruence. done. }
  krun. rewrite (upd_proc_Ret _ _ _ p) by done. krun.
  rewrite (upd_proc_Ret _ _ _ (set_p_chan (Some c) p)).
  2: { ksimp. by rewrite list_lookup_insert_eq. }
  unfold sched. krun. unfold holding. ksimp. rewrite bool_decide_true by left.
  ksimp. eexists. reflexivity.
Qed.

(** ** What waking and blocking keep *)

Lemma keeps_wakeup {B} (f : kstate -> B) c :
  (forall s v, f (set_k_held v s) = f s) -> (forall s v, f (set_k_ptable v s) = f s) ->
  keeps f (wakeup c).
Proof.
  intros H1 H2. unfold wakeup, wakeup1.
  apply keeps_bind; [by apply keeps_acquire|intros _]. apply keeps_bind; [|intros _; by apply keeps_release].
  apply keeps_modify. intros s. apply H2.
Qed.

Lemma keeps_block {A B} (f : kstate -> B) c lk : keeps f (block c lk : K A).
Proof. intros s a s' (? & ? & _ & H)%bind_Ret_inv. discriminate. Qed.

#[export] Hint Resolve keeps_wakeup keeps_block : keeps.

(** ** kill *)

Lemma kill_loop_spec pid n : forall i s,
  (i + n = length (k_ptable s))%nat ->
  k_held s = [L_ptable] ->
  (forall j p, (j < i)%nat -> k_ptable s !! j = Some p -> p_pid p <> pid) ->
  exists r s', kill_loop pid i n s = Ret r s' /\ k_held s' = [] /\
  ((r = -1 /\ k_ptable s' = k_ptable s /\
    forall p, p ∈ k_ptable s -> p_pid p <> pid) \/
   (r = 0 /\ exists j p, k_ptable s !! j = Some p /\ p_pid p = pid /\
      k_ptable s' = <[j := set_p_killed 1
         (if bool_decide (p_state p = SLEEPING) then set_p_state RUNNABLE p else p)]>
         (k_ptable s))).
Proof.
  induction n as [|n IH]; intros i s Hn Hh Hbefore; cbn [kill_loop].
  - krun. rewrite (release_held L_ptable s []) by (done || notheld).
    do 2 eexists. split; [reflexivity|]. split; [done|]. left. repeat split.
    intros p [j Hj]%list_elem_of_lookup. eapply Hbefore; [|done].
    apply lookup_lt_Some in Hj. lia.
  - destruct (lookup_lt_is_Some_2 (k_ptable s) i ltac:(lia)) as [p Hp].
    rewrite bind_run, (get_proc_Ret _ _ _ Hp).
    destruct (Z.eqb_spec (p_pid p) pid) as [Heq|Hne].
    + rewrite bind_run, (upd_proc_Ret _ _ _ _ Hp), bind_run.
      assert (i < length (k_ptable s))%nat by lia.
      case_bool_decide as Hsl.
      * rewrite (upd_proc_Ret _ _ _ (set_p_killed 1 p)).
        2: { ksimp. by rewrite list_lookup_insert_eq. }
        rewrite bind_run, (release_held L_ptable _ []) by (done || notheld).
        do 2 eexists. split; [reflexivity|]. split; [done|]. right. split; [done|].
        exists i, p. rewrite bool_decide_true by done. repeat split; [done..|].
        ksimp. rewrite list_insert_insert_eq. done.
      * ksimp. krun. rewrite (release_held L_ptable _ []) by (done || notheld).
        do 2 eexists. split; [reflexivity|]. split; [done|]. right. split; [done|].
        exists i, p. rewrite bool_decide_false by done. done.
    + apply IH; [lia|done|]. intros j q Hj Hq.
      destruct (decide (j = i)) as [->|]; [congruence|]. eapply Hbefore; [|done]. lia.
Qed.

(** [kill pid] returns -1 and changes nothing when no slot of the process
    table has that pid; otherwise it returns 0, marks one process with that
    pid as killed, makes it RUNNABLE if it was SLEEPING, and touches no other
    slot; either way [ptable.lock] is free again on return. *)
Theorem kill_spec pid s :
  length (k_ptable s) = NPROC -> k_held s = [] ->
  exists r s', kill pid s = Ret r s' /\ k_held s' = [] /\
  ((r = -1 /\ k_ptable s' = k_ptable s /\ forall p, p ∈ k_ptable s -> p_pid p <> pid) \/
   (r = 0 /\ exists j p, k_ptable s !! j = Some p /\ p_pid p = pid /\
      k_ptable s' = <[j := set_p_killed 1
         (if bool_decide (p_state p = SLEEPING) then set_p_state RUNNABLE p else p)]>
         (k_ptable s))).
Proof.
  intros Hl Hh. unfold kill. rewrite bind_run, acquire_free by notheld.
  rewrite Hh. apply (kill_loop_spec pid NPROC 0 (set_k_held [L_ptable] s)).
  - done.
  - done.
  - intros j p Hj. lia.
Qed.

Lemma kill_spec_witness : length (k_ptable one_proc) = NPROC /\
  exists r s', kill 7 one_proc = Ret r s' /\ k_held s' = [].
Proof.
  assert (length (k_ptable one_proc) = NPROC) as Hl by reflexivity.
  split; [exact Hl|].
  destruct (kill_spec 7 one_proc Hl eq_refl) as (r & s' & H1 & H2 & _).
  exists r, s'. split; [exact H1|exact H2].
Defined.
