(* ===== verification/Bio.v ===== *)
(** * The buffer cache: src/xv6/bio.c over the disk of src/xv6/memide.c

    [k_bcache] holds the [NBUF] buffers and, at index [NBUF], the list head
    [bcache.head] (which is also where the C struct puts it).  The LRU list
    is kept, as in the code, in the [prev]/[next] fields, and the operations
    are the code's pointer assignments; [lru] relates them to a list.

    The invariant [cache_ok] says that the list is well formed, that no disk
    block is cached twice and that an idle clean buffer agrees with the
    disk.  [cview s n] is what a reader must see in block [n]: the cached
    copy if there is one, else the disk.  The theorems say that [bread]
    returns a buffer holding [cview], that recycling never loses a view, and
    that every operation preserves the invariant. *)

From stdpp Require Import base list list_numbers numbers gmap strings.
From Stdlib Require Import ZArith Lia.
From S2P Require Import Prelude Mem KState Sched.

Definition HEAD : nat := NBUF.

(** ** memide.c *)

Definition zblock : list Z := replicate BSIZE 0.
Definition dread (d : disk) (n : Z) : list Z := default zblock (dk_blocks d !! n).
Definition dwrite (d : disk) (n : Z) (v : list Z) : disk :=
  mkDisk (dk_size d) (<[n := v]> (dk_blocks d)) (dk_writes d ++ [(n, v)]).

(** [_binary_fs_img_start] and [_binary_fs_img_size] are linked in. *)
Definition ideinit (img : gmap Z (list Z)) (img_size : Z) : K unit :=
  modify (set_k_disk (mkDisk (img_size / Z.of_nat BSIZE) img [])).

Definition iderw (i : nat) : K unit :=
  b ← get_buf i;
  if negb (flag (b_flags b) B_BUSY) then panic "iderw: buf not busy"
  else if Z.land (b_flags b) (Z.lor B_VALID B_DIRTY) =? B_VALID
  then panic "iderw: nothing to do"
  else if negb (b_dev b =? 1) then panic "iderw: request not for disk 1"
  else
    d ← gets k_disk;
    if dk_size d <=? b_blockno b then panic "iderw: block out of range"
    else
      (if flag (b_flags b) B_DIRTY then
         upd_buf i (set_b_flags (fclr (b_flags b) B_DIRTY)) ;;
         modify (set_k_disk (dwrite d (b_blockno b) (b_data b)))
       else upd_buf i (set_b_data (dread d (b_blockno b)))) ;;
      upd_buf i (fun b => set_b_flags (fset (b_flags b) B_VALID) b).

(** ** bio.c *)

(** The body of the loop of [binit] for buffer [b]. *)
Definition binit_one (b : nat) : K unit :=
  h ← get_buf HEAD;
  upd_buf b (set_b_next (b_next h)) ;;
  upd_buf b (set_b_prev HEAD) ;;
  upd_buf b (set_b_dev (u32 (-1))) ;;
  h ← get_buf HEAD;
  upd_buf (b_next h) (set_b_prev b) ;;
  upd_buf HEAD (set_b_next b).

Fixpoint binit_loop (b n : nat) : K unit :=
  match n with
  | O => mret tt
  | S n' => binit_one b ;; binit_loop (S b) n'
  end.

Definition binit : K unit :=
  upd_buf HEAD (set_b_prev HEAD) ;;
  upd_buf HEAD (set_b_next HEAD) ;;
  binit_loop 0 NBUF.

(** [for(b = bcache.head.next; b != &bcache.head; b = b->next)] *)
Fixpoint bget_scan (fuel : nat) (b : nat) (dev blockno : Z) : K (option nat) :=
  match fuel with
  | O => stop NoFuel
  | S fuel' =>
      if decide (b = HEAD) then mret None
      else
        v ← get_buf b;
        if ((b_dev v =? dev) && (b_blockno v =? blockno))%bool then mret (Some b)
        else bget_scan fuel' (b_next v) dev blockno
  end.

(** [for(b = bcache.head.prev; b != &bcache.head; b = b->prev)] *)
Fixpoint bget_recycle (fuel : nat) (b : nat) : K (option nat) :=
  match fuel with
  | O => stop NoFuel
  | S fuel' =>
      if decide (b = HEAD) then mret None
      else
        v ← get_buf b;
        if (negb (flag (b_flags v) B_BUSY) && negb (flag (b_flags v) B_DIRTY))%bool
        then mret (Some b)
        else bget_recycle fuel' (b_prev v)
  end.

(** [bget] from the label [loop]. *)
Definition bget_loop (dev blockno : Z) : K nat :=
  h ← get_buf HEAD;
  found ← bget_scan (S NBUF) (b_next h) dev blockno;
  match found with
  | Some b =>
      v ← get_buf b;
      if flag (b_flags v) B_BUSY then block (C_buf b) L_bcache
      else
        upd_buf b (set_b_flags (fset (b_flags v) B_BUSY)) ;;
        release L_bcache ;;
        mret b
  | None =>
      free ← bget_recycle (S NBUF) (b_prev h);
      match free with
      | Some b =>
          upd_buf b (set_b_dev dev) ;;
          upd_buf b (set_b_blockno blockno) ;;
          upd_buf b (set_b_flags B_BUSY) ;;
          release L_bcache ;;
          mret b
      | None => panic "bget: no buffers"
      end
  end.

Definition bget (dev blockno : Z) : K nat := acquire L_bcache ;; bget_loop dev blockno.

Definition bread (dev blockno : Z) : K nat :=
  b ← bget dev blockno;
  v ← get_buf b;
  (if negb (flag (b_flags v) B_VALID) then iderw b else mret tt) ;;
  mret b.

Definition bwrite (b : nat) : K unit :=
  v ← get_buf b;
  if negb (flag (b_flags v) B_BUSY) then panic "bwrite"
  else upd_buf b (set_b_flags (fset (b_flags v) B_DIRTY)) ;; iderw b.

Definition brelse (b : nat) : K unit :=
  v ← get_buf b;
  if negb (flag (b_flags v) B_BUSY) then panic "brelse"
  else
    acquire L_bcache ;;
    upd_buf (b_next v) (set_b_prev (b_prev v)) ;;
    v ← get_buf b;
    upd_buf (b_prev v) (set_b_next (b_next v)) ;;
    h ← get_buf HEAD;
    upd_buf b (set_b_next (b_next h)) ;;
    upd_buf b (set_b_prev HEAD) ;;
    h ← get_buf HEAD;
    upd_buf (b_next h) (set_b_prev b) ;;
    upd_buf HEAD (set_b_next b) ;;
    upd_buf b (fun v => set_b_flags (fclr (b_flags v) B_BUSY) v) ;;
    wakeup (C_buf b) ;;
    release L_bcache.

(** ** The LRU list *)

Definition nxt (bc : list buf) (i : nat) : nat := from_option b_next 0%nat (bc !! i).
Definition prv (bc : list buf) (i : nat) : nat := from_option b_prev 0%nat (bc !! i).

(** Consecutive elements of [p] are linked in both directions. *)
Fixpoint linked (bc : list buf) (p : list nat) : Prop :=
  match p with
  | x :: (y :: _) as p' => nxt bc x = y /\ prv bc y = x /\ linked bc p'
  | _ => True
  end.

(** The list hanging off [bcache.head], most recently used first. *)
Definition lru (bc : list buf) (l : list nat) : Prop :=
  length bc = S NBUF /\ l ≡ₚ seq 0 NBUF /\ linked bc (HEAD :: l ++ [HEAD]).

(** ** The invariant and the view *)

Definition busy (b : buf) : bool := flag (b_flags b) B_BUSY.
Definition valid (b : buf) : bool := flag (b_flags b) B_VALID.
Definition dirty (b : buf) : bool := flag (b_flags b) B_DIRTY.

(** Buffer [b] holds block [n] of the file-system disk. *)
Definition holds (n : Z) (b : buf) : Prop := b_dev b = 1 /\ b_blockno b = n.
#[global] Instance holds_dec n b : Decision (holds n b).
Proof. unfold holds. apply _. Defined.

Definition bufs (bc : list buf) : list buf := take NBUF bc.
#[global] Arguments bufs : simpl never.

Definition cview (bc : list buf) (d : disk) (n : Z) : list Z :=
  match list_find (holds n) (bufs bc) with
  | Some (_, b) => b_data b
  | None => dread d n
  end.

Record cache_ok (bc : list buf) (d : disk) : Prop := {
  co_lru : exists l, lru bc l;
  co_uniq : forall i j bi bj, bufs bc !! i = Some bi -> bufs bc !! j = Some bj ->
    b_dev bi = 1 -> b_dev bj = 1 -> b_blockno bi = b_blockno bj -> i = j;
  co_kind : forall i b, bufs bc !! i = Some b ->
    (b_dev b = 1 /\ valid b = true /\ length (b_data b) = BSIZE) \/
    (b_dev b = u32 (-1) /\ busy b = false /\ dirty b = false);
  co_data : forall i b, bufs bc !! i = Some b -> b_dev b = 1 -> busy b = false ->
    dirty b = false -> b_data b = dread d (b_blockno b);
  co_disk : forall n, length (dread d n) = BSIZE
}.

(** ** Lemmas on the links *)

Lemma linked_ext bc bc' p :
  (forall x, x ∈ removelast p -> nxt bc x = nxt bc' x) ->
  (forall x, x ∈ tail p -> prv bc x = prv bc' x) ->
  linked bc p -> linked bc' p.
Proof.
  induction p as [|x [|y p] IH]; [done..|]. intros Hn Hp (H1 & H2 & H3).
  split; [|split].
  - rewrite <- H1. symmetry. apply Hn. cbn. left.
  - rewrite <- H2. symmetry. apply Hp. cbn. left.
  - apply IH; [| |done]; intros z Hz.
    + apply Hn. cbn in *. by right.
    + apply Hp. cbn in *. by right.
Qed.

Lemma linked_app bc p1 x y p2 :
  linked bc (p1 ++ x :: y :: p2) <->
  linked bc (p1 ++ [x]) /\ (nxt bc x = y /\ prv bc y = x) /\ linked bc (y :: p2).
Proof.
  induction p1 as [|z [|w p1] IH]; cbn [app linked] in *; tauto.
Qed.

Lemma nxt_alter f bc i j :
  (i < length bc)%nat ->
  nxt (alter f i bc) j = if decide (i = j) then from_option (b_next ∘ f) 0%nat (bc !! i) else nxt bc j.
Proof.
  intros Hi. unfold nxt. case_decide as E; subst.
  - rewrite list_lookup_alter_eq. by destruct (bc !! j).
  - by rewrite list_lookup_alter_ne.
Qed.

Lemma prv_alter f bc i j :
  (i < length bc)%nat ->
  prv (alter f i bc) j = if decide (i = j) then from_option (b_prev ∘ f) 0%nat (bc !! i) else prv bc j.
Proof.
  intros Hi. unfold prv. case_decide as E; subst.
  - rewrite list_lookup_alter_eq. by destruct (bc !! j).
  - by rewrite list_lookup_alter_ne.
Qed.

Lemma nxt_set_prev v bc i j : nxt (alter (set_b_prev v) i bc) j = nxt bc j.
Proof.
  unfold nxt. destruct (decide (i = j)) as [->|].
  - rewrite list_lookup_alter_eq. by destruct (bc !! j).
  - by rewrite list_lookup_alter_ne.
Qed.

Lemma prv_set_next v bc i j : prv (alter (set_b_next v) i bc) j = prv bc j.
Proof.
  unfold prv. destruct (decide (i = j)) as [->|].
  - rewrite list_lookup_alter_eq. by destruct (bc !! j).
  - by rewrite list_lookup_alter_ne.
Qed.

Lemma nxt_set_next v bc i j :
  (i < length bc)%nat -> nxt (alter (set_b_next v) i bc) j = if decide (i = j) then v else nxt bc j.
Proof.
  intros Hi. rewrite nxt_alter by done. case_decide; [|done].
  destruct (lookup_lt_is_Some_2 _ _ Hi) as [b ->]. done.
Qed.

Lemma prv_set_prev v bc i j :
  (i < length bc)%nat -> prv (alter (set_b_prev v) i bc) j = if decide (i = j) then v else prv bc j.
Proof.
  intros Hi. rewrite prv_alter by done. case_decide; [|done].
  destruct (lookup_lt_is_Some_2 _ _ Hi) as [b ->]. done.
Qed.

(** What [b->next->prev = b->prev; b->prev->next = b->next] does. *)
Definition unlink (bc : list buf) (b : nat) : list buf :=
  let bc1 := alter (set_b_prev (prv bc b)) (nxt bc b) bc in
  alter (set_b_next (nxt bc1 b)) (prv bc1 b) bc1.

(** What the four assignments that insert [b] after [bcache.head] do. *)
Definition push (bc : list buf) (b : nat) : list buf :=
  let bc1 := alter (set_b_next (nxt bc HEAD)) b bc in
  let bc2 := alter (set_b_prev HEAD) b bc1 in
  let bc3 := alter (set_b_prev b) (nxt bc2 HEAD) bc2 in
  alter (set_b_next b) HEAD bc3.

Lemma unlink_nxt bc b q r x :
  nxt bc b = r -> prv bc b = q -> r <> b -> (q < length bc)%nat -> (r < length bc)%nat ->
  nxt (unlink bc b) x = if decide (q = x) then r else nxt bc x.
Proof.
  intros Hr Hq Hrb Hql Hrl. unfold unlink. rewrite Hq, Hr, nxt_set_prev, Hr.
  rewrite !prv_set_prev by done. rewrite decide_False by done. rewrite Hq.
  rewrite nxt_set_next by (by rewrite length_alter). by rewrite nxt_set_prev.
Qed.

Lemma unlink_prv bc b q r x :
  nxt bc b = r -> prv bc b = q -> (r < length bc)%nat ->
  prv (unlink bc b) x = if decide (r = x) then q else prv bc x.
Proof. intros Hr Hq Hrl. unfold unlink. by rewrite prv_set_next, Hr, Hq, prv_set_prev. Qed.

(** The separation facts of a duplicate-free list around [b]. *)
Lemma NoDup_around h l1 (b : nat) l2 :
  NoDup (h :: l1 ++ b :: l2) ->
  NoDup (h :: l1) /\ NoDup (l2 ++ [h]) /\ (b ∉ l2 ++ [h]) /\
  (forall x, x ∈ h :: l1 -> x ∉ l2) /\ (forall x, x ∈ (l2 ++ [h]) -> x ∉ l1).
Proof.
  intros Hnd. apply NoDup_cons in Hnd as [Hh Hnd].
  apply NoDup_app in Hnd as (H1 & Hsep & H2). apply NoDup_cons in H2 as [Hb H2].
  rewrite elem_of_app, elem_of_cons in Hh.
  split; [apply NoDup_cons; tauto|].
  split; [apply NoDup_app; split; [done|]; split; [|apply NoDup_singleton]; intros x Hx Hx'|].
  { apply list_elem_of_singleton in Hx' as ->. tauto. }
  split; [rewrite elem_of_app, list_elem_of_singleton; intros [?| ->]; tauto|].
  split; intros x.
  - rewrite elem_of_cons. intros [-> |Hx] Hx2; [tauto|]. apply (Hsep x Hx). by right.
  - rewrite elem_of_app, list_elem_of_singleton. intros [Hx| ->] Hx1; [|tauto].
    apply (Hsep x Hx1). by right.
Qed.

Lemma unlink_linked bc l1 b l2 :
  NoDup (HEAD :: l1 ++ b :: l2) -> (forall x, x ∈ HEAD :: l1 ++ b :: l2 -> (x < length bc)%nat) ->
  linked bc (HEAD :: l1 ++ b :: l2 ++ [HEAD]) ->
  linked (unlink bc b) (HEAD :: l1 ++ l2 ++ [HEAD]).
Proof.
  intros Hnd Hlt Hl. apply NoDup_around in Hnd as (Hnd1 & Hnd2 & Hb & Hsep1 & Hsep2).
  destruct (exists_last (l := HEAD :: l1) ltac:(done)) as (p1 & q & Eq).
  assert (exists r p2, l2 ++ [HEAD] = r :: p2) as (r & p2 & Er) by (destruct l2; cbn; eauto).
  assert (Hqin : q ∈ HEAD :: l1) by (rewrite Eq; apply elem_of_app; right; left).
  assert (Hrin : r ∈ l2 ++ [HEAD]) by (rewrite Er; left).
  rewrite app_comm_cons, Er, Eq, <- app_assoc in Hl. cbn [app] in Hl.
  rewrite app_comm_cons, Er, Eq, <- app_assoc. cbn [app].
  apply linked_app in Hl as (Hl1 & (Hq1 & Hq2) & Hr1 & Hr2 & Hl2).
  assert (Hrl : (r < length bc)%nat).
  { apply Hlt. rewrite elem_of_cons, elem_of_app, elem_of_cons.
    apply elem_of_app in Hrin as [?|?%list_elem_of_singleton]; tauto. }
  assert (Hql : (q < length bc)%nat).
  { apply Hlt. rewrite elem_of_cons, elem_of_app. apply elem_of_cons in Hqin. tauto. }
  assert (Hn : forall x, nxt (unlink bc b) x = if decide (q = x) then r else nxt bc x)
    by (intros x; apply unlink_nxt; [done..| |done|done]; intros ->; done).
  assert (Hp : forall x, prv (unlink bc b) x = if decide (r = x) then q else prv bc x)
    by (intros x; by apply unlink_prv).
  apply linked_app. rewrite Hn, Hp, !decide_True by done. split; [|split; [done|]].
  - revert Hl1. apply linked_ext; intros x Hx.
    + rewrite removelast_last in Hx. rewrite Hn, decide_False; [done|]. intros ->.
      rewrite Eq in Hnd1. apply NoDup_app in Hnd1 as (_ & H & _). apply (H x Hx). left.
    + rewrite <- Eq in Hx. cbn in Hx. rewrite Hp, decide_False; [done|]. intros ->.
      by apply (Hsep2 x).
  - revert Hl2. apply linked_ext; intros x Hx.
    + rewrite <- Er, removelast_last in Hx. rewrite Hn, decide_False; [done|]. intros ->.
      by apply (Hsep1 x).
    + cbn in Hx. rewrite Hp, decide_False; [done|]. intros ->. rewrite Er in Hnd2.
      apply NoDup_cons in Hnd2 as [? _]. done.
Qed.

Lemma push_linked bc b l :
  b ∉ HEAD :: l -> NoDup (HEAD :: l) -> (forall x, x ∈ b :: HEAD :: l -> (x < length bc)%nat) ->
  linked bc (HEAD :: l ++ [HEAD]) -> linked (push bc b) (HEAD :: b :: l ++ [HEAD]).
Proof.
  intros Hb Hnd Hlt Hl.
  assert (exists r p2, l ++ [HEAD] = r :: p2) as (r & p2 & Er) by (destruct l; cbn; eauto).
  rewrite Er in Hl |- *. destruct Hl as (H1 & H2 & H3).
  assert (Hbl : (b < length bc)%nat) by (apply Hlt; left).
  assert (Hrin : r ∈ l ++ [HEAD]) by (rewrite Er; left).
  rewrite elem_of_cons in Hb. apply NoDup_cons in Hnd as [Hh Hnd].
  assert (Hrl : (r < length bc)%nat).
  { apply Hlt. rewrite !elem_of_cons. apply elem_of_app in Hrin as [?|?%list_elem_of_singleton]; tauto. }
  assert (Hrb : r <> b).
  { intros ->. apply elem_of_app in Hrin as [?|?%list_elem_of_singleton]; tauto. }
  assert (HHl : (HEAD < length bc)%nat) by (apply Hlt; right; left).
  assert (Hn : forall x, nxt (push bc b) x =
                if decide (HEAD = x) then b else if decide (b = x) then r else nxt bc x).
  { intros x. unfold push. rewrite nxt_set_next by (rewrite !length_alter; lia).
    rewrite !nxt_set_prev, !nxt_set_next, H1 by done. done. }
  assert (Hp : forall x, prv (push bc b) x =
                if decide (r = x) then b else if decide (b = x) then HEAD else prv bc x).
  { intros x. unfold push. rewrite nxt_set_prev, nxt_set_next, decide_False, H1 by (done || tauto).
    rewrite prv_set_next, !prv_set_prev, prv_set_next by (rewrite ?length_alter; done). done. }
  assert (HEAD <> b) by (intros E; symmetry in E; tauto).
  split; [rewrite Hn; by case_decide|]. split; [rewrite Hp; by repeat case_decide|].
  split; [rewrite Hn; by repeat case_decide|]. split; [rewrite Hp; by case_decide|].
  revert H3. apply linked_ext; intros x Hx.
  - rewrite <- Er, removelast_last in Hx. rewrite Hn, !decide_False; [done|intros E; subst x; tauto..].
  - cbn in Hx. rewrite Hp, !decide_False; [done|intros ->..].
    + assert (x ∈ r :: p2) as Hx' by (by right). rewrite <- Er in Hx'.
      apply elem_of_app in Hx' as [?|?%list_elem_of_singleton]; tauto.
    + assert (Hnd2 : NoDup (l ++ [HEAD])).
      { apply NoDup_app. split; [done|]. split; [|apply NoDup_singleton].
        intros y Hy ->%list_elem_of_singleton. done. }
      rewrite Er in Hnd2. apply NoDup_cons in Hnd2 as [? _]. done.
Qed.

(** ** Buffers up to their links *)

Definition core (b : buf) : buf := set_b_prev 0%nat (set_b_next 0%nat b).

Lemma core_eq b b' : core b = core b' ->
  b_flags b = b_flags b' /\ b_dev b = b_dev b' /\ b_blockno b = b_blockno b' /\ b_data b = b_data b'.
Proof. destruct b, b'. by intros [= -> -> -> -> ->]. Qed.

Lemma core_alter f (bc : list buf) (i : nat) :
  (forall b, core (f b) = core b) -> core <$> alter f i bc = core <$> bc.
Proof.
  intros Hf. apply list_eq. intros j. rewrite !list_lookup_fmap.
  destruct (decide (i = j)) as [->|]; [rewrite list_lookup_alter_eq|by rewrite list_lookup_alter_ne].
  destruct (bc !! j); cbn; [by rewrite Hf|done].
Qed.

Lemma core_unlink bc b : core <$> unlink bc b = core <$> bc.
Proof. unfold unlink. by rewrite !core_alter. Qed.

Lemma core_push bc b : core <$> push bc b = core <$> bc.
Proof. unfold push. by rewrite !core_alter. Qed.

Lemma core_lookup (bc bc' : list buf) (i : nat) b : core <$> bc = core <$> bc' -> bc !! i = Some b ->
  exists b', bc' !! i = Some b' /\ core b = core b'.
Proof.
  intros He Hb. assert (H : (core <$> bc') !! i = Some (core b))
    by (rewrite <- He, list_lookup_fmap, Hb; done).
  rewrite list_lookup_fmap in H. destruct (bc' !! i) as [b'|]; [|done].
  exists b'. split; [done|]. cbn [fmap option_fmap option_map] in H. congruence.
Qed.

Lemma bufs_core (bc bc' : list buf) : core <$> bc = core <$> bc' -> core <$> bufs bc = core <$> bufs bc'.
Proof. intros H. unfold bufs. by rewrite !fmap_take, H. Qed.

Lemma cview_cores (bc bc' : list buf) d n : core <$> bc = core <$> bc' -> cview bc d n = cview bc' d n.
Proof.
  intros He. assert (H : forall bc, cview bc d n =
      match list_find (holds n) (core <$> bufs bc) with Some (_, b) => b_data b | None => dread d n end).
  { intros c. unfold cview. rewrite list_find_fmap.
    change (holds n ∘ core) with (holds n). by destruct (list_find _ (bufs c)) as [[? ?]|]. }
  by rewrite !H, (bufs_core _ _ He).
Qed.

Lemma cache_ok_cores (bc bc' : list buf) d l :
  core <$> bc = core <$> bc' -> lru bc' l -> cache_ok bc d -> cache_ok bc' d.
Proof.
  intros He Hl Hok. symmetry in He. apply bufs_core in He.
  split; [eauto| | |intros i b Hi|apply (co_disk _ _ Hok)].
  - intros i j bi bj Hi Hj.
    destruct (core_lookup _ _ _ _ He Hi) as (bi' & Hi' & (_ & E1 & E2 & _)%core_eq).
    destruct (core_lookup _ _ _ _ He Hj) as (bj' & Hj' & (_ & E3 & E4 & _)%core_eq).
    rewrite E1, E2, E3, E4. by apply (co_uniq _ _ Hok).
  - intros i b Hi. destruct (core_lookup _ _ _ _ He Hi) as (b' & Hi' & (E0 & E1 & _ & E3)%core_eq).
    unfold valid, busy, dirty. rewrite E0, E1, E3. by apply (co_kind _ _ Hok i).
  - destruct (core_lookup _ _ _ _ He Hi) as (b' & Hi' & (E0 & E1 & E2 & E3)%core_eq).
    unfold busy, dirty. rewrite E0, E1, E2, E3. by apply (co_data _ _ Hok i).
Qed.

(** ** Replacing one buffer *)

Lemma bufs_lookup bc i b : bufs bc !! i = Some b <-> bc !! i = Some b /\ (i < NBUF)%nat.
Proof. apply lookup_take_Some. Qed.

Lemma bufs_insert bc i b' : (i < NBUF)%nat -> bufs (<[i := b']> bc) = <[i := b']> (bufs bc).
Proof. intros. unfold bufs. by rewrite take_insert_lt. Qed.

Lemma lru_insert bc i b b' l :
  bc !! i = Some b -> b_next b' = b_next b -> b_prev b' = b_prev b ->
  lru bc l -> lru (<[i := b']> bc) l.
Proof.
  intros Hb Hn Hp (Hlen & Hperm & Hch).
  split; [by rewrite length_insert|]. split; [done|].
  revert Hch. apply linked_ext; intros j _; unfold nxt, prv;
    (destruct (decide (i = j)) as [->|];
      [rewrite list_lookup_insert_eq, Hb by (by eapply lookup_lt_Some); cbn; congruence
      |by rewrite list_lookup_insert_ne]).
Qed.

Lemma cview_hit bc d i b n :
  cache_ok bc d -> bufs bc !! i = Some b -> holds n b -> cview bc d n = b_data b.
Proof.
  intros Hok Hi Hh. unfold cview. destruct (list_find _ _) as [[j b']|] eqn:E.
  - apply list_find_Some in E as (Hj & Hh' & _). destruct Hh as [D1 N1], Hh' as [D2 N2].
    assert (i = j) as <- by (apply (co_uniq _ _ Hok i j b b'); congruence). congruence.
  - apply list_find_None in E. rewrite Forall_lookup in E. by destruct (E i b).
Qed.

Lemma cview_miss bc d n :
  (forall i b, bufs bc !! i = Some b -> ~ holds n b) -> cview bc d n = dread d n.
Proof.
  intros H. unfold cview. destruct (list_find _ _) as [[j b']|] eqn:E; [|done].
  apply list_find_Some in E as (Hj & Hh' & _). by destruct (H j b').
Qed.

(** Some buffer holds block [n], or none does. *)
Lemma holds_cases bc n :
  (exists i b, bufs bc !! i = Some b /\ holds n b) \/
  (forall i b, bufs bc !! i = Some b -> ~ holds n b).
Proof.
  destruct (list_find (holds n) (bufs bc)) as [[j b']|] eqn:E.
  - left. apply list_find_Some in E as (Hj & Hh' & _). eauto.
  - right. apply list_find_None in E. rewrite Forall_lookup in E. eauto.
Qed.

(** The new contents [b'] of buffer [i] and the new disk [d'] fit together. *)
Record fits (bc : list buf) (d : disk) (i : nat) (b b' : buf) (d' : disk) : Prop := {
  ft_i : bufs bc !! i = Some b;
  ft_next : b_next b' = b_next b;
  ft_prev : b_prev b' = b_prev b;
  ft_dev : b_dev b' = 1;
  ft_valid : valid b' = true;
  ft_len : length (b_data b') = BSIZE;
  ft_only : forall j bj, j <> i -> bufs bc !! j = Some bj -> ~ holds (b_blockno b') bj;
  ft_data : busy b' = false -> dirty b' = false -> b_data b' = dread d' (b_blockno b');
  ft_disk : forall n, n <> b_blockno b' -> dread d' n = dread d n;
  ft_dlen : forall n, length (dread d' n) = BSIZE
}.

Lemma fits_cache_ok bc d i b b' d' :
  cache_ok bc d -> fits bc d i b b' d' -> cache_ok (<[i := b']> bc) d'.
Proof.
  intros Hok Hf. pose proof (ft_i _ _ _ _ _ _ Hf) as [Hi Hlt]%bufs_lookup.
  assert (Hil : (i < length (bufs bc))%nat) by (eapply lookup_lt_Some, bufs_lookup; eauto).
  assert (Hcase : forall j bj, bufs (<[i := b']> bc) !! j = Some bj ->
            (j = i /\ bj = b') \/ (j <> i /\ bufs bc !! j = Some bj)).
  { intros j bj. rewrite bufs_insert by done. rewrite list_lookup_insert_Some. naive_solver. }
  pose proof (ft_dev _ _ _ _ _ _ Hf) as Hd. pose proof (ft_only _ _ _ _ _ _ Hf) as Ho.
  split.
  - destruct (co_lru _ _ Hok) as [l Hl]. exists l. eapply lru_insert; eauto using ft_next, ft_prev.
  - intros j k bj bk Hj Hk Dj Dk E.
    destruct (Hcase _ _ Hj) as [[-> ->]|[Nj Hj']], (Hcase _ _ Hk) as [[-> ->]|[Nk Hk']]; [done| | |].
    + destruct (Ho _ _ Nk Hk'). by split.
    + destruct (Ho _ _ Nj Hj'). by split.
    + by apply (co_uniq _ _ Hok j k bj bk).
  - intros j bj Hj. destruct (Hcase _ _ Hj) as [[-> ->]|[Nj Hj']].
    + left. eauto using ft_valid, ft_len.
    + by apply (co_kind _ _ Hok j).
  - intros j bj Hj Dj Bj Tj. destruct (Hcase _ _ Hj) as [[-> ->]|[Nj Hj']].
    + by apply (ft_data _ _ _ _ _ _ Hf).
    + rewrite (ft_disk _ _ _ _ _ _ Hf); [by apply (co_data _ _ Hok j)|].
      intros E. destruct (Ho _ _ Nj Hj'). by split.
  - apply (ft_dlen _ _ _ _ _ _ Hf).
Qed.

(** The view changes at most in the block of the new buffer, provided the
    old contents, if of another block, were clean. *)
Lemma fits_cview bc d i b b' d' n :
  cache_ok bc d -> fits bc d i b b' d' ->
  (b_blockno b = b_blockno b' \/ (busy b = false /\ dirty b = false)) ->
  cview (<[i := b']> bc) d' n = if decide (n = b_blockno b') then b_data b' else cview bc d n.
Proof.
  intros Hok Hf Hold. pose proof (fits_cache_ok _ _ _ _ _ _ Hok Hf) as Hok'.
  pose proof (ft_i _ _ _ _ _ _ Hf) as Hib. pose proof Hib as [Hi Hlt]%bufs_lookup.
  assert (Hil : (i < length (bufs bc))%nat) by (eapply lookup_lt_Some; eauto).
  assert (Hlk : forall j, bufs (<[i := b']> bc) !! j = if decide (i = j) then Some b' else bufs bc !! j).
  { intros j. rewrite bufs_insert by done. case_decide; subst.
    - by rewrite list_lookup_insert_eq. - by rewrite list_lookup_insert_ne. }
  case_decide as En.
  { apply (cview_hit _ _ i); [done|by rewrite Hlk, decide_True|]. split; [by eapply ft_dev|done]. }
  destruct (holds_cases bc n) as [(j & bj & Hj & Hh)|Hno].
  - rewrite (cview_hit bc d j bj) by done. destruct (decide (i = j)) as [<-|Nj].
    + assert (bj = b) as -> by congruence. destruct Hh as [Dh Nh].
      destruct Hold as [?|[Hb Hd]]; [congruence|].
      rewrite (co_data _ _ Hok i b), Nh by done. rewrite cview_miss; [by eapply ft_disk|].
      intros k bk. rewrite Hlk. case_decide; [intros [= <-] [_ ?]; congruence|].
      intros Hk [Dk Nk]. assert (i = k) by (apply (co_uniq _ _ Hok i k b bk); congruence). done.
    + apply (cview_hit _ _ j); [done| |done]. by rewrite Hlk, decide_False.
  - rewrite !cview_miss; [by eapply ft_disk|done|].
    intros k bk. rewrite Hlk. case_decide; [intros [= <-] [_ ?]; congruence|]. eauto.
Qed.

(** One step of a program that reads or writes a table entry: the entry is
    known, or was written just before. *)
Ltac look :=
  ksimp; first [eassumption
               |apply list_lookup_insert_eq; rewrite ?length_insert; eassumption
               |rewrite list_lookup_insert_ne by congruence; eassumption].
Ltac kbuf :=
  erewrite bind_Ret; [|first [apply get_buf_Ret|apply upd_buf_Ret]; look];
  ksimp; rewrite ?list_insert_insert_eq.

(** ** The scans of bget *)

Definition matches (bc : list buf) (dev n : Z) (i : nat) : bool :=
  match bc !! i with
  | Some v => (b_dev v =? dev) && (b_blockno v =? n)
  | None => false
  end.

Definition reusable (bc : list buf) (i : nat) : bool :=
  match bc !! i with
  | Some v => negb (busy v) && negb (dirty v)
  | None => false
  end.

Lemma bget_scan_run s dev n l : forall fuel a,
  linked (k_bcache s) (a :: l ++ [HEAD]) ->
  (forall i, i ∈ l -> (i < NBUF)%nat) -> length (k_bcache s) = S NBUF -> (length l < fuel)%nat ->
  bget_scan fuel (nxt (k_bcache s) a) dev n s = Ret (find (matches (k_bcache s) dev n) l) s.
Proof.
  induction l as [|i l IH]; intros fuel a Hl Hlt Hlen Hf;
    (destruct fuel as [|fuel]; [cbn in Hf; lia|]); cbn [app] in Hl; destruct Hl as (-> & _ & Hl);
    cbn [bget_scan find].
  - rewrite decide_True by done. done.
  - assert (Hi : (i < NBUF)%nat) by (apply Hlt; left).
    rewrite decide_False by (unfold HEAD; lia).
    destruct (lookup_lt_is_Some_2 (k_bcache s) i) as [v Hv]; [lia|].
    rewrite (bind_Ret _ _ _ _ _ (get_buf_Ret _ _ _ Hv)). unfold matches. rewrite Hv.
    destruct (_ && _)%bool; [done|]. replace (b_next v) with (nxt (k_bcache s) i) by (unfold nxt; by rewrite Hv).
    apply IH; [done| |done|cbn in Hf; lia]. intros j Hj. apply Hlt. by right.
Qed.

Lemma bget_recycle_run s l : forall fuel z,
  linked (k_bcache s) (HEAD :: l ++ [z]) ->
  (forall i, i ∈ l -> (i < NBUF)%nat) -> length (k_bcache s) = S NBUF -> (length l < fuel)%nat ->
  bget_recycle fuel (prv (k_bcache s) z) s = Ret (find (reusable (k_bcache s)) (rev l)) s.
Proof.
  induction l as [|i l IH] using rev_ind; intros fuel z Hl Hlt Hlen Hf;
    (destruct fuel as [|fuel]; [lia|]).
  - destruct Hl as (_ & -> & _). cbn [bget_recycle]. by rewrite decide_True.
  - rewrite <- app_assoc, app_comm_cons in Hl. cbn [app] in Hl.
    apply (linked_app _ (HEAD :: l) i z []) in Hl as (Hl & (_ & ->) & _).
    rewrite rev_app_distr, length_app in *. cbn [rev app find bget_recycle length] in *.
    assert (Hi : (i < NBUF)%nat) by (apply Hlt, elem_of_app; right; left).
    rewrite decide_False by (unfold HEAD; lia).
    destruct (lookup_lt_is_Some_2 (k_bcache s) i) as [v Hv]; [lia|].
    rewrite (bind_Ret _ _ _ _ _ (get_buf_Ret _ _ _ Hv)). unfold reusable, busy, dirty. rewrite Hv.
    destruct (_ && _)%bool; [done|]. replace (b_prev v) with (prv (k_bcache s) i) by (unfold prv; by rewrite Hv).
    apply IH; [done| |done|lia]. intros j Hj. apply Hlt, elem_of_app. by left.
Qed.

Lemma lru_lt bc l : lru bc l -> forall i, i ∈ l <-> (i < NBUF)%nat.
Proof. intros (_ & Hp & _) i. rewrite Hp, elem_of_seq. lia. Qed.

Lemma lru_length bc l : lru bc l -> length l = NBUF.
Proof. intros (_ & Hp & _). by rewrite Hp, length_seq. Qed.

Lemma lru_ends bc l h : lru bc l -> bc !! HEAD = Some h -> b_next h = nxt bc HEAD /\ b_prev h = prv bc HEAD.
Proof. intros _ Hh. unfold nxt, prv. by rewrite Hh. Qed.

(** Both scans of [bget], on a well-formed list. *)
Lemma bget_scans s dev n l h :
  lru (k_bcache s) l -> k_bcache s !! HEAD = Some h ->
  bget_scan (S NBUF) (b_next h) dev n s = Ret (find (matches (k_bcache s) dev n) l) s /\
  bget_recycle (S NBUF) (b_prev h) s = Ret (find (reusable (k_bcache s)) (rev l)) s.
Proof.
  intros Hl Hh. destruct (lru_ends _ _ _ Hl Hh) as [-> ->].
  pose proof (lru_lt _ _ Hl) as Hlt. pose proof (lru_length _ _ Hl). destruct Hl as (Hlen & Hp & Hl).
  split; [apply bget_scan_run|apply bget_recycle_run]; try done; try lia; intros i; apply Hlt.
Qed.

Lemma head_buf bc l : lru bc l -> exists h, bc !! HEAD = Some h.
Proof. intros (Hlen & _). apply lookup_lt_is_Some_2. unfold HEAD. lia. Qed.

(** [bget] on a cached, idle block. *)
Lemma bget_hit s dev n l i b :
  lru (k_bcache s) l -> L_bcache ∉ k_held s ->
  find (matches (k_bcache s) dev n) l = Some i -> k_bcache s !! i = Some b -> busy b = false ->
  bget dev n s = Ret i (set_k_bcache (<[i := set_b_flags (fset (b_flags b) B_BUSY) b]> (k_bcache s)) s).
Proof.
  intros Hl Hh Hf Hi Hb. unfold bget. rewrite (bind_Ret _ _ _ _ _ (acquire_free _ _ Hh)).
  destruct (head_buf _ _ Hl) as [h Hhd]. set (s1 := set_k_held _ s).
  destruct (bget_scans s1 dev n l h Hl Hhd) as [Hs _].
  unfold bget_loop. rewrite (bind_Ret _ _ _ h s1) by (by apply get_buf_Ret).
  rewrite (bind_Ret _ _ _ _ _ Hs). subst s1. ksimp. rewrite Hf.
  kbuf. unfold busy in Hb. rewrite Hb. kbuf. rewrite bind_run.
  rewrite (release_held _ _ (k_held s)) by done. by destruct s.
Qed.

(** [bget] on a block that is not cached. *)
Lemma bget_miss s dev n l i b :
  lru (k_bcache s) l -> L_bcache ∉ k_held s ->
  find (matches (k_bcache s) dev n) l = None ->
  find (reusable (k_bcache s)) (rev l) = Some i -> k_bcache s !! i = Some b ->
  bget dev n s = Ret i (set_k_bcache
    (<[i := set_b_flags B_BUSY (set_b_blockno n (set_b_dev dev b))]> (k_bcache s)) s).
Proof.
  intros Hl Hh Hf Hr Hi. unfold bget. rewrite (bind_Ret _ _ _ _ _ (acquire_free _ _ Hh)).
  destruct (head_buf _ _ Hl) as [h Hhd]. set (s1 := set_k_held _ s).
  destruct (bget_scans s1 dev n l h Hl Hhd) as [Hs Hs'].
  unfold bget_loop. rewrite (bind_Ret _ _ _ h s1) by (by apply get_buf_Ret).
  rewrite (bind_Ret _ _ _ _ _ Hs). subst s1. ksimp. ksimp in Hs'. rewrite Hf.
  rewrite (bind_Ret _ _ _ _ _ Hs'), Hr.
  assert (Hil : (i < length (k_bcache s))%nat) by (by eapply lookup_lt_Some).
  do 3 kbuf. rewrite bind_run. rewrite (release_held _ _ (k_held s)) by done. by destruct s.
Qed.

(** ** iderw *)

(** The test for "nothing to do" fails on an invalid or dirty buffer. *)
Lemma something_to_do f :
  flag f B_VALID = false \/ flag f B_DIRTY = true ->
  (Z.land f (Z.lor B_VALID B_DIRTY) =? B_VALID) = false.
Proof.
  change B_VALID with (2 ^ 1). change B_DIRTY with (2 ^ 2). rewrite !flag_bit by lia.
  intros H. apply Z.eqb_neq. intros E.
  assert (H1 : Z.testbit (Z.land f (Z.lor (2 ^ 1) (2 ^ 2))) 1 = true) by (by rewrite E).
  assert (H2 : Z.testbit (Z.land f (Z.lor (2 ^ 1) (2 ^ 2))) 2 = false) by (by rewrite E).
  rewrite Z.land_spec in H1, H2. change (Z.testbit (Z.lor _ _) _) with true in H1, H2.
  rewrite andb_true_r in H1, H2.
  destruct H as [H|H]; congruence.
Qed.

Lemma iderw_read s i b :
  k_bcache s !! i = Some b -> b_flags b = B_BUSY -> b_dev b = 1 ->
  b_blockno b < dk_size (k_disk s) ->
  iderw i s = Ret tt (set_k_bcache (<[i := set_b_flags (fset B_BUSY B_VALID)
    (set_b_data (dread (k_disk s) (b_blockno b)) b)]> (k_bcache s)) s).
Proof.
  intros Hi Hf Hd Hn. assert (Hil : (i < length (k_bcache s))%nat) by (by eapply lookup_lt_Some).
  unfold iderw. kbuf. rewrite Hf, Hd, something_to_do by auto.
  autorewrite with flags. cbn [negb Z.eqb Pos.eqb]. rewrite bind_run. unfold gets at 1. ksimp.
  rewrite (proj2 (Z.leb_gt _ _)) by lia. kbuf.
  erewrite upd_buf_Ret by look. ksimp. rewrite list_insert_insert_eq.
  destruct s, b; cbn in *. by subst.
Qed.

Lemma iderw_write s i b :
  k_bcache s !! i = Some b -> busy b = true -> dirty b = true -> b_dev b = 1 ->
  b_blockno b < dk_size (k_disk s) ->
  iderw i s = Ret tt (set_k_disk (dwrite (k_disk s) (b_blockno b) (b_data b))
    (set_k_bcache (<[i := set_b_flags (fset (fclr (b_flags b) B_DIRTY) B_VALID) b]> (k_bcache s)) s)).
Proof.
  intros Hi Hb Hy Hd Hn. assert (Hil : (i < length (k_bcache s))%nat) by (by eapply lookup_lt_Some).
  unfold busy, dirty in *. unfold iderw. kbuf. rewrite Hb, Hd, Hy, something_to_do by auto. cbn [negb Z.eqb Pos.eqb].
  rewrite bind_run. unfold gets at 1. ksimp. rewrite (proj2 (Z.leb_gt _ _)) by lia.
  rewrite bind_assoc. kbuf. rewrite bind_run. unfold modify at 1. ksimp.
  erewrite upd_buf_Ret by look. ksimp. rewrite list_insert_insert_eq. by destruct s, b.
Qed.

(** ** bread, bwrite, brelse *)

Lemma find_matches bc l n i :
  lru bc l -> find (matches bc 1 n) l = Some i -> exists b, bufs bc !! i = Some b /\ holds n b.
Proof.
  intros Hl [Hin Hm]%find_some. apply list_elem_of_In in Hin. apply (lru_lt _ _ Hl) in Hin.
  unfold matches in Hm. destruct (bc !! i) as [b|] eqn:Hb; [|done]. exists b.
  split; [by apply bufs_lookup|]. apply andb_true_iff in Hm as [?%Z.eqb_eq ?%Z.eqb_eq]. by split.
Qed.

Lemma find_matches_None bc l n :
  lru bc l -> find (matches bc 1 n) l = None -> forall i b, bufs bc !! i = Some b -> ~ holds n b.
Proof.
  intros Hl Hf i b [Hi Hlt]%bufs_lookup [Hd Hn]. apply (lru_lt _ _ Hl), list_elem_of_In in Hlt.
  pose proof (find_none _ _ Hf _ Hlt) as Hm. unfold matches in Hm. rewrite Hi, Hd, Hn, Z.eqb_refl in Hm.
  by rewrite Z.eqb_refl in Hm.
Qed.

Lemma find_reusable bc l i :
  lru bc l -> find (reusable bc) (rev l) = Some i ->
  exists b, bufs bc !! i = Some b /\ busy b = false /\ dirty b = false.
Proof.
  intros Hl [Hin Hm]%find_some. apply in_rev, list_elem_of_In, (lru_lt _ _ Hl) in Hin.
  unfold reusable in Hm. destruct (bc !! i) as [b|] eqn:Hb; [|done]. exists b.
  split; [by apply bufs_lookup|]. by apply andb_true_iff in Hm as [?%negb_true_iff ?%negb_true_iff].
Qed.

Lemma find_reusable_None bc l :
  lru bc l -> find (reusable bc) (rev l) = None ->
  forall i b, bufs bc !! i = Some b -> busy b = true \/ dirty b = true.
Proof.
  intros Hl Hf i b [Hi Hlt]%bufs_lookup. apply (lru_lt _ _ Hl), list_elem_of_In, in_rev in Hlt.
  pose proof (find_none _ _ Hf _ Hlt) as Hm. unfold reusable in Hm. rewrite Hi in Hm.
  destruct (busy b), (dirty b); auto.
Qed.

(** Block [n] is not in use and is cached, or there is a buffer to recycle. *)
Definition available (bc : list buf) (n : Z) : Prop :=
  (forall i b, bufs bc !! i = Some b -> holds n b -> busy b = false) /\
  ((exists i b, bufs bc !! i = Some b /\ holds n b) \/
   (exists i b, bufs bc !! i = Some b /\ busy b = false /\ dirty b = false)).

(** What [bread] does to the one buffer [i] it returns. *)
Record taken (bc : list buf) (d : disk) (n : Z) (i : nat) (b b' : buf) : Prop := {
  tk_fits : fits bc d i b b' d;
  tk_holds : holds n b';
  tk_idle : busy b = false;
  tk_busy : busy b' = true;
  tk_data : b_data b' = cview bc d n;
  tk_old : (holds n b /\ dirty b' = dirty b) \/
           ((forall j bj, bufs bc !! j = Some bj -> ~ holds n bj) /\ dirty b = false /\ dirty b' = false)
}.

Lemma taken_hit bc d n i b :
  cache_ok bc d -> bufs bc !! i = Some b -> holds n b -> busy b = false ->
  taken bc d n i b (set_b_flags (fset (b_flags b) B_BUSY) b).
Proof.
  intros Hok Hi [Hd Hn] Hb. destruct (co_kind _ _ Hok _ _ Hi) as [(_ & Hv & Hlen)|(E & _)];
    [|rewrite Hd in E; discriminate].
  split; unfold holds, valid, busy, dirty in *; cbn; autorewrite with flags; auto.
  - split; cbn; unfold valid, busy, dirty; cbn; autorewrite with flags; auto; try done.
    + rewrite Hn. intros j bj Hj Hbj [Dj Nj]. apply Hj.
      apply (co_uniq _ _ Hok j i bj b); congruence.
    + apply (co_disk _ _ Hok).
  - symmetry. by apply (cview_hit _ _ i).
Qed.

Lemma taken_miss bc d n i b :
  cache_ok bc d -> bufs bc !! i = Some b -> busy b = false -> dirty b = false ->
  (forall j bj, bufs bc !! j = Some bj -> ~ holds n bj) ->
  taken bc d n i b (set_b_flags (fset B_BUSY B_VALID)
    (set_b_data (dread d n) (set_b_flags B_BUSY (set_b_blockno n (set_b_dev 1 b))))).
Proof.
  intros Hok Hi Hb Hy Hno.
  split; unfold holds, valid, busy, dirty in *; cbn; autorewrite with flags; auto.
  - split; cbn; unfold valid, busy, dirty; cbn; autorewrite with flags; auto; try done.
    + apply (co_disk _ _ Hok).
    + intros j bj _. apply Hno.
    + apply (co_disk _ _ Hok).
  - symmetry. by apply cview_miss.
Qed.

Lemma bread_spec s n :
  cache_ok (k_bcache s) (k_disk s) -> L_bcache ∉ k_held s -> n < dk_size (k_disk s) ->
  available (k_bcache s) n ->
  exists i b b', taken (k_bcache s) (k_disk s) n i b b' /\
    bread 1 n s = Ret i (set_k_bcache (<[i := b']> (k_bcache s)) s).
Proof.
  intros Hok Hh Hn [Hidle Hav]. destruct (co_lru _ _ Hok) as [l Hl]. unfold bread.
  destruct (find (matches (k_bcache s) 1 n) l) as [i|] eqn:Hf.
  - destruct (find_matches _ _ _ _ Hl Hf) as (b & Hi & Hhold). pose proof (Hidle _ _ Hi Hhold) as Hb.
    exists i, b, (set_b_flags (fset (b_flags b) B_BUSY) b). pose proof Hi as [Hi' _]%bufs_lookup.
    assert (Hil : (i < length (k_bcache s))%nat) by (by eapply lookup_lt_Some).
    split; [by apply taken_hit|]. erewrite bind_Ret by (by eapply bget_hit). kbuf.
    autorewrite with flags.
    destruct (co_kind _ _ Hok _ _ Hi) as [(_ & Hv & _)|(E & _)];
      [|destruct Hhold as [Hd _]; rewrite Hd in E; discriminate].
    unfold valid in Hv. rewrite Hv. done.
  - pose proof (find_matches_None _ _ _ Hl Hf) as Hno.
    destruct (find (reusable (k_bcache s)) (rev l)) as [i|] eqn:Hr.
    2:{ exfalso. destruct Hav as [(i & b & Hi & Hx)|(i & b & Hi & Hb & Hy)]; [by eapply Hno|].
        destruct (find_reusable_None _ _ Hl Hr _ _ Hi); congruence. }
    destruct (find_reusable _ _ _ Hl Hr) as (b & Hi & Hb & Hy). pose proof Hi as [Hi' _]%bufs_lookup.
    assert (Hil : (i < length (k_bcache s))%nat) by (by eapply lookup_lt_Some).
    eexists i, b, _. split; [by apply taken_miss|].
    erewrite bind_Ret by (by eapply bget_miss). kbuf. autorewrite with flags. cbn [negb].
    erewrite bind_Ret; [|eapply iderw_read; [look|done..]]. ksimp. rewrite list_insert_insert_eq.
    by destruct s.
Qed.

(** A buffer in the hands of the caller: busy, of disk block [n]. *)
Definition owned (s : kstate) (i : nat) (b : buf) (n : Z) : Prop :=
  bufs (k_bcache s) !! i = Some b /\ busy b = true /\ holds n b.

Lemma bwrite_spec s i b n :
  cache_ok (k_bcache s) (k_disk s) -> owned s i b n -> n < dk_size (k_disk s) ->
  exists b', bwrite i s = Ret tt (set_k_disk (dwrite (k_disk s) n (b_data b))
                            (set_k_bcache (<[i := b']> (k_bcache s)) s)) /\
    fits (k_bcache s) (k_disk s) i b b' (dwrite (k_disk s) n (b_data b)) /\
    holds n b' /\ busy b' = true /\ dirty b' = false /\ b_data b' = b_data b.
Proof.
  intros Hok (Hi & Hb & Hd & Hn) Hlt. pose proof Hi as [Hi' _]%bufs_lookup.
  assert (Hil : (i < length (k_bcache s))%nat) by (by eapply lookup_lt_Some).
  destruct (co_kind _ _ Hok _ _ Hi) as [(_ & Hv & Hlen)|(E & _)]; [|rewrite Hd in E; discriminate].
  eexists. split; [|split].
  - unfold bwrite. kbuf. unfold busy in Hb. rewrite Hb. cbn [negb]. kbuf.
    erewrite iderw_write; [ksimp; rewrite list_insert_insert_eq|look|..];
      unfold busy, dirty; ksimp; autorewrite with flags; rewrite ?Hn; auto.
  - split; unfold valid, busy, dirty in *; cbn; autorewrite with flags; auto; try done.
    + intros j bj Hj Hbj [Dj Nj]. apply Hj. apply (co_uniq _ _ Hok j i bj b); congruence.
    + congruence.
    + intros m Hm. unfold dread, dwrite. cbn. rewrite Hn in Hm. by rewrite lookup_insert_ne.
    + intros m. unfold dread, dwrite. cbn. destruct (decide (m = n)) as [->|].
      * by rewrite lookup_insert_eq.
      * rewrite lookup_insert_ne by done. apply (co_disk _ _ Hok).
  - unfold holds, busy, dirty in *; cbn; autorewrite with flags. auto.
Qed.

Lemma alter_insert_at f (bc : list buf) i b : bc !! i = Some b -> alter f i bc = <[i := f b]> bc.
Proof.
  intros Hb. apply list_eq. intros j. destruct (decide (i = j)) as [->|].
  - by rewrite list_lookup_insert_eq, list_lookup_alter_eq, Hb by (by eapply lookup_lt_Some).
  - by rewrite list_lookup_insert_ne, list_lookup_alter_ne.
Qed.

Lemma upd_buf_alter i f s :
  (i < length (k_bcache s))%nat ->
  upd_buf i f s = Ret tt (set_k_bcache (alter f i (k_bcache s)) s).
Proof.
  intros Hi. destruct (lookup_lt_is_Some_2 _ _ Hi) as [b Hb]. rewrite (upd_buf_Ret _ _ _ _ Hb).
  by rewrite (alter_insert_at _ _ _ _ Hb).
Qed.

Lemma get_buf_links i s :
  (i < length (k_bcache s))%nat ->
  exists v, get_buf i s = Ret v s /\ b_next v = nxt (k_bcache s) i /\ b_prev v = prv (k_bcache s) i.
Proof.
  intros Hi. destruct (lookup_lt_is_Some_2 _ _ Hi) as [b Hb]. exists b.
  unfold nxt, prv. rewrite Hb. auto using get_buf_Ret.
Qed.

(** Assignments to fields of buffers, where the pointers are in range. *)
Ltac kalter :=
  erewrite bind_Ret; [|apply upd_buf_alter; ksimp; rewrite ?length_alter; eauto; lia]; ksimp.
Ltac klinks :=
  match goal with
  | |- context [(get_buf ?i ≫= _) ?s] =>
      let v := fresh "v" in let Hv := fresh in let Hnx := fresh in let Hpv := fresh in
      destruct (get_buf_links i s) as (v & Hv & Hnx & Hpv);
      [ksimp; rewrite ?length_alter; eauto; lia|];
      rewrite (bind_Ret _ _ _ _ _ Hv); ksimp in Hnx; ksimp in Hpv; ksimp; clear Hv;
      rewrite ?Hnx, ?Hpv; clear Hnx Hpv
  end.

Definition unbusy (b : buf) : buf := set_b_flags (fclr (b_flags b) B_BUSY) b.

Lemma linked_nxt bc p x : linked bc p -> x ∈ removelast p -> nxt bc x ∈ tail p.
Proof.
  induction p as [|y [|z p] IH]; [intros _ H; by apply elem_of_nil in H..|].
  intros (H1 & H2 & H3). change (removelast (y :: z :: p)) with (y :: removelast (z :: p)).
  intros [->|Hx]%elem_of_cons; [rewrite H1; left|]. right. by apply IH.
Qed.

Lemma linked_prv bc p x : linked bc p -> x ∈ tail p -> prv bc x ∈ p.
Proof.
  induction p as [|y [|z p] IH]; [intros _ H; by apply elem_of_nil in H..|].
  intros (H1 & H2 & H3). intros [->|Hx]%elem_of_cons; [rewrite H2; left|]. right. by apply IH.
Qed.

(** The links of a well-formed list stay in the table. *)
Lemma linked_range bc l i :
  linked bc (HEAD :: l ++ [HEAD]) -> (forall x, x ∈ l -> (x < NBUF)%nat) -> i ∈ HEAD :: l ->
  (nxt bc i < S NBUF)%nat /\ (prv bc i < S NBUF)%nat.
Proof.
  intros Hl Hlt Hi.
  assert (Hin : forall x, x ∈ HEAD :: l ++ [HEAD] -> (x < S NBUF)%nat).
  { intros x [->|[Hx%Hlt|Hx%list_elem_of_singleton]%elem_of_app]%elem_of_cons; unfold HEAD in *; lia. }
  split; apply Hin.
  - right. apply (linked_nxt _ _ _ Hl). rewrite app_comm_cons, removelast_last. done.
  - apply (linked_prv _ _ _ Hl). cbn. apply elem_of_app.
    apply elem_of_cons in Hi as [->|?]; [right; left|by left].
Qed.

(** The assignments of [brelse], when its pointers are in range. *)
Lemma brelse_steps s i b :
  k_bcache s !! i = Some b -> busy b = true -> L_bcache ∉ k_held s -> L_ptable ∉ k_held s ->
  length (k_bcache s) = S NBUF -> (nxt (k_bcache s) i < S NBUF)%nat ->
  (prv (alter (set_b_prev (prv (k_bcache s) i)) (nxt (k_bcache s) i) (k_bcache s)) i < S NBUF)%nat ->
  (nxt (alter (set_b_next (nxt (unlink (k_bcache s) i) HEAD)) i (unlink (k_bcache s) i)) HEAD < S NBUF)%nat ->
  brelse i s = Ret tt (set_k_ptable (map (wake_one (Some (C_buf i))) (k_ptable s))
    (set_k_bcache (alter unbusy i (push (unlink (k_bcache s) i) i)) s)).
Proof.
  intros Hi Hb Hh1 Hh2 Hlen Hnx Hpv Hnx2.
  assert (Hil : (i < S NBUF)%nat) by (rewrite <- Hlen; by eapply lookup_lt_Some).
  assert (HH : (HEAD < S NBUF)%nat) by (unfold HEAD; lia).
  assert (En : b_next b = nxt (k_bcache s) i) by (unfold nxt; by rewrite Hi).
  assert (Ep : b_prev b = prv (k_bcache s) i) by (unfold prv; by rewrite Hi).
  unfold brelse. kbuf. unfold busy in Hb. rewrite Hb. cbn [negb].
  rewrite (bind_Ret _ _ _ _ _ (acquire_free _ _ Hh1)), En, Ep.
  kalter. klinks. kalter. fold (unlink (k_bcache s) i).
  assert (Hlu : length (unlink (k_bcache s) i) = S NBUF) by (unfold unlink; by rewrite !length_alter).
  klinks. kalter. kalter. klinks. rewrite nxt_set_prev. kalter. kalter. kalter.
  erewrite bind_Ret; [|apply wakeup_Ret; ksimp; notheld]. ksimp.
  rewrite (release_held _ _ (k_held s)) by done.
  unfold push. rewrite nxt_set_prev. by destruct s.
Qed.

Lemma brelse_run s i b l1 l2 :
  lru (k_bcache s) (l1 ++ i :: l2) -> k_bcache s !! i = Some b -> busy b = true ->
  L_bcache ∉ k_held s -> L_ptable ∉ k_held s ->
  brelse i s = Ret tt (set_k_ptable (map (wake_one (Some (C_buf i))) (k_ptable s))
    (set_k_bcache (alter unbusy i (push (unlink (k_bcache s) i) i)) s)) /\
  lru (push (unlink (k_bcache s) i) i) (i :: l1 ++ l2).
Proof.
  intros Hl Hi Hb Hh1 Hh2. pose proof (lru_lt _ _ Hl) as Hin. destruct Hl as (Hlen & Hp & Hl).
  assert (Hnd : NoDup (HEAD :: l1 ++ i :: l2)).
  { apply NoDup_cons. split; [rewrite Hin; unfold HEAD; lia|]. rewrite Hp. apply NoDup_seq. }
  assert (Hlt : forall x, x ∈ HEAD :: l1 ++ i :: l2 -> (x < length (k_bcache s))%nat).
  { intros x [->|Hx%Hin]%elem_of_cons; unfold HEAD; lia. }
  pose proof (linked_range _ _ i Hl (fun x => proj1 (Hin x)) ltac:(right; apply elem_of_app; right; left)) as [Hr1 Hr2].
  rewrite <- app_assoc in Hl. cbn [app] in Hl.
  pose proof (unlink_linked _ _ _ _ Hnd Hlt Hl) as Hu. rewrite app_assoc in Hu.
  assert (Hin' : forall x, x ∈ l1 ++ l2 -> x ∈ l1 ++ i :: l2)
    by (intros x; rewrite !elem_of_app, elem_of_cons; tauto).
  pose proof (linked_range _ _ HEAD Hu (fun x H => proj1 (Hin x) (Hin' x H)) ltac:(left)) as [Hr3 _].
  destruct (NoDup_around _ _ _ _ Hnd) as (Hnd1 & _ & Hi2 & _).
  assert (Hlu : length (unlink (k_bcache s) i) = S NBUF) by (unfold unlink; by rewrite !length_alter).
  assert (Hil : (i < NBUF)%nat) by (apply Hin, elem_of_app; right; left).
  split.
  - apply (brelse_steps _ _ b); try done.
    + rewrite prv_set_prev by lia. by case_decide.
    + rewrite nxt_set_next by lia. rewrite decide_False by (unfold HEAD; lia). done.
  - split; [by rewrite <- Hlu; unfold push; rewrite !length_alter|].
    split; [rewrite <- Hp; by rewrite Permutation_middle|]. cbn [app].
    apply push_linked; [| | |done].
    + intros [E|Hx]%elem_of_cons; [unfold HEAD in E; lia|]. apply NoDup_cons in Hnd as [_ Hnd].
      rewrite <- Permutation_middle in Hnd. by apply NoDup_cons in Hnd as [? _].
    + rewrite <- Permutation_middle in Hnd.
      apply NoDup_cons in Hnd as [Hx Hnd]. apply NoDup_cons in Hnd as [_ Hnd]. apply NoDup_cons.
      split; [|done]. contradict Hx. by right.
    + intros x [->|[->|Hx]%elem_of_cons]%elem_of_cons; rewrite Hlu; [lia|unfold HEAD; lia|].
      specialize (proj1 (Hin x) (Hin' x Hx)). lia.
Qed.

Lemma core_alter_insert f (bc bc' : list buf) i b :
  bc !! i = Some b -> core <$> bc' = core <$> bc -> (forall b, core (f b) = core (f (core b))) ->
  core <$> alter f i bc' = core <$> <[i := f b]> bc.
Proof.
  intros Hi He Hf. apply list_eq. intros j. rewrite !list_lookup_fmap.
  pose proof (f_equal (.!! j) He) as Hj. rewrite !list_lookup_fmap in Hj.
  destruct (decide (i = j)) as [->|].
  - rewrite list_lookup_alter_eq, list_lookup_insert_eq by (by eapply lookup_lt_Some).
    rewrite Hi in Hj. destruct (bc' !! j) as [v|]; [|done]. cbn [fmap option_fmap option_map] in Hj |- *.
    assert (Hc : core v = core b) by congruence. by rewrite (Hf v), (Hf b), Hc.
  - by rewrite list_lookup_alter_ne, list_lookup_insert_ne.
Qed.

Lemma brelse_spec s i b n :
  cache_ok (k_bcache s) (k_disk s) -> owned s i b n -> L_bcache ∉ k_held s -> L_ptable ∉ k_held s ->
  (dirty b = false -> b_data b = dread (k_disk s) n) ->
  exists bc', brelse i s = Ret tt (set_k_ptable (map (wake_one (Some (C_buf i))) (k_ptable s))
                                     (set_k_bcache bc' s)) /\
    core <$> bc' = core <$> <[i := unbusy b]> (k_bcache s) /\
    cache_ok bc' (k_disk s) /\
    (forall m, cview bc' (k_disk s) m = cview (k_bcache s) (k_disk s) m) /\
    (forall l1 l2, lru (k_bcache s) (l1 ++ i :: l2) -> lru bc' (i :: l1 ++ l2)).
Proof.
  intros Hok (Hi & Hb & Hd & Hn) Hh1 Hh2 Hclean. pose proof Hi as [Hi' Hlt]%bufs_lookup.
  eexists. destruct (co_lru _ _ Hok) as [l Hl].
  assert (Hin : i ∈ l) by (by apply (lru_lt _ _ Hl)).
  apply list_elem_of_split in Hin as (l1 & l2 & ->).
  destruct (brelse_run s i b l1 l2 Hl Hi' Hb Hh1 Hh2) as [Hrun Hl'].
  set (bc' := alter unbusy i (push (unlink (k_bcache s) i) i)) in *.
  assert (Hlru : forall k1 k2, lru (k_bcache s) (k1 ++ i :: k2) -> lru bc' (i :: k1 ++ k2)).
  { intros k1 k2 Hk. destruct (brelse_run s i b k1 k2 Hk Hi' Hb Hh1 Hh2) as [_ Hl2].
    destruct (lookup_lt_is_Some_2 (push (unlink (k_bcache s) i) i) i) as [v Hv];
      [destruct Hl2 as (-> & _); lia|].
    subst bc'. rewrite (alter_insert_at _ _ _ _ Hv). by eapply lru_insert. }
  assert (Hcore : core <$> bc' = core <$> <[i := unbusy b]> (k_bcache s)).
  { apply core_alter_insert; [done|by rewrite core_push, core_unlink|done]. }
  destruct (co_kind _ _ Hok _ _ Hi) as [(_ & Hv & Hlen)|(E & _)]; [|rewrite Hd in E; discriminate].
  assert (Hfit : fits (k_bcache s) (k_disk s) i b (unbusy b) (k_disk s)).
  { split; unfold unbusy, valid, busy, dirty in *; cbn; autorewrite with flags; auto; try done.
    - intros j bj Hj Hbj [Dj Nj]. apply Hj. apply (co_uniq _ _ Hok j i bj b); congruence.
    - rewrite Hn. auto.
    - apply (co_disk _ _ Hok). }
  split; [exact Hrun|]. split; [done|]. split; [|split; [|done]].
  - eapply cache_ok_cores; [by symmetry| |by eapply fits_cache_ok]. by apply Hlru.
  - intros m. rewrite (cview_cores _ _ _ m Hcore).
    rewrite (fits_cview _ _ _ b _ (k_disk s)) by first [done|by left]. case_decide as E; [|done].
    symmetry. by apply (cview_hit _ _ i b).
Qed.

(** ** binit *)

(** The first [k] buffers are linked, last one first, and marked unused. *)
Definition binit_inv (k : nat) (bc : list buf) : Prop :=
  length bc = S NBUF /\ linked bc (HEAD :: rev (seq 0 k) ++ [HEAD]) /\
  (forall i b, bc !! i = Some b -> b_flags b = 0 /\ ((i < k)%nat -> b_dev b = u32 (-1))).

Lemma nxt_set_dev v bc i j : nxt (alter (set_b_dev v) i bc) j = nxt bc j.
Proof.
  unfold nxt. destruct (decide (i = j)) as [->|].
  - rewrite list_lookup_alter_eq. by destruct (bc !! j).
  - by rewrite list_lookup_alter_ne.
Qed.

Lemma prv_set_dev v bc i j : prv (alter (set_b_dev v) i bc) j = prv bc j.
Proof.
  unfold prv. destruct (decide (i = j)) as [->|].
  - rewrite list_lookup_alter_eq. by destruct (bc !! j).
  - by rewrite list_lookup_alter_ne.
Qed.

Lemma elem_rev_seq k x : x ∈ rev (seq 0 k) <-> (x < k)%nat.
Proof. rewrite list_elem_of_In, <- in_rev, <- list_elem_of_In, elem_of_seq. lia. Qed.

Lemma binit_one_run s k :
  binit_inv k (k_bcache s) -> (k < NBUF)%nat ->
  binit_one k s = Ret tt (set_k_bcache (push (alter (set_b_dev (u32 (-1))) k (k_bcache s)) k) s).
Proof.
  intros (Hlen & Hl & _) Hk.
  pose proof (linked_range _ _ HEAD Hl) as Hr.
  destruct Hr as [Hr _]; [intros x; rewrite elem_rev_seq; lia|left|].
  assert (HH : (HEAD < S NBUF)%nat) by (unfold HEAD; lia). assert (Hkl : (k < S NBUF)%nat) by lia.
  assert (HkH : k <> HEAD) by (unfold HEAD; lia).
  unfold binit_one. klinks. kalter. kalter. kalter. klinks.
  rewrite nxt_set_dev, nxt_set_prev, nxt_set_next, decide_False by (done || lia).
  kalter. erewrite upd_buf_alter by (ksimp; rewrite ?length_alter; lia). ksimp.
  unfold push. rewrite nxt_set_prev, nxt_set_next, nxt_set_dev, decide_False
    by (done || rewrite length_alter; lia).
  assert (E : alter (set_b_dev (u32 (-1))) k (alter (set_b_prev HEAD) k
              (alter (set_b_next (nxt (k_bcache s) HEAD)) k (k_bcache s))) =
              alter (set_b_prev HEAD) k (alter (set_b_next (nxt (k_bcache s) HEAD)) k
              (alter (set_b_dev (u32 (-1))) k (k_bcache s))))
    by (apply list_eq; intros j; destruct (decide (k = j)) as [->|];
        [rewrite !list_lookup_alter_eq; by destruct (k_bcache s !! j)|by rewrite !list_lookup_alter_ne]).
  rewrite E. by destruct s.
Qed.

Lemma binit_inv_step k bc :
  binit_inv k bc -> (k < NBUF)%nat ->
  binit_inv (S k) (push (alter (set_b_dev (u32 (-1))) k bc) k).
Proof.
  intros (Hlen & Hl & Hb) Hk. set (bc1 := alter (set_b_dev (u32 (-1))) k bc).
  pose proof (elem_rev_seq k) as Hin.
  assert (Hl1 : length bc1 = S NBUF) by (by subst bc1; rewrite length_alter).
  split; [unfold push; by rewrite !length_alter|]. split.
  - rewrite seq_S, rev_app_distr. cbn [rev app Nat.add]. apply push_linked.
    + intros [E|Hx%Hin]%elem_of_cons; [unfold HEAD in E|]; lia.
    + apply NoDup_cons. split; [rewrite Hin; unfold HEAD; lia|].
      rewrite <- Permutation_rev. apply NoDup_seq.
    + intros x [->|[->|Hx%Hin]%elem_of_cons]%elem_of_cons; rewrite Hl1; unfold HEAD; lia.
    + revert Hl. apply linked_ext; intros x _; subst bc1; [by rewrite nxt_set_dev|by rewrite prv_set_dev].
  - intros i b Hi. destruct (core_lookup _ bc1 _ _ (core_push bc1 k) Hi) as (b1 & Hb1 & (E0 & E1 & _)%core_eq).
    rewrite E0, E1. subst bc1. destruct (decide (k = i)) as [->|Hne].
    + rewrite list_lookup_alter_eq in Hb1. destruct (bc !! i) as [b0|] eqn:E; [|done].
      cbn in Hb1. injection Hb1 as <-. cbn. split; [by apply (Hb i)|done].
    + rewrite list_lookup_alter_ne in Hb1 by done. destruct (Hb _ _ Hb1) as [? Hd].
      split; [done|]. intros ?. apply Hd. lia.
Qed.

Lemma binit_loop_run n : forall k s,
  binit_inv k (k_bcache s) -> (k + n = NBUF)%nat ->
  exists bc, binit_loop k n s = Ret tt (set_k_bcache bc s) /\ binit_inv NBUF bc.
Proof.
  induction n as [|n IH]; intros k s Hinv Hk; cbn [binit_loop].
  - exists (k_bcache s). assert (k = NBUF) as -> by lia. split; [by destruct s|done].
  - rewrite (bind_Ret _ _ _ _ _ (binit_one_run _ _ Hinv ltac:(lia))).
    destruct (IH (S k) (set_k_bcache (push (alter (set_b_dev (u32 (-1))) k (k_bcache s)) k) s))
      as (bc & Hrun & Hbc); [by apply binit_inv_step; [|lia]|lia|].
    exists bc. rewrite Hrun. split; [by destruct s|done].
Qed.

Lemma binit_inv_ok bc d :
  binit_inv NBUF bc -> (forall n, length (dread d n) = BSIZE) ->
  cache_ok bc d /\ lru bc (rev (seq 0 NBUF)) /\ (forall n, cview bc d n = dread d n).
Proof.
  intros (Hlen & Hl & Hb) Hd.
  assert (Hlru : lru bc (rev (seq 0 NBUF)))
    by (split; [done|]; split; [by rewrite <- Permutation_rev|done]).
  assert (Hdev : forall i b, bufs bc !! i = Some b -> b_flags b = 0 /\ b_dev b = u32 (-1)).
  { intros i b [Hi Hlt]%bufs_lookup. destruct (Hb _ _ Hi). auto. }
  split; [|split; [done|]].
  - split; [by eexists| | | |done].
    + intros i j bi bj Hi _ E. destruct (Hdev _ _ Hi) as [_ E']. rewrite E' in E. discriminate.
    + intros i b Hi. destruct (Hdev _ _ Hi) as [E0 E']. right. unfold busy, dirty. by rewrite E0.
    + intros i b Hi E. destruct (Hdev _ _ Hi) as [_ E']. rewrite E' in E. discriminate.
  - intros n. apply cview_miss. intros i b Hi [E _]. destruct (Hdev _ _ Hi) as [_ E'].
    rewrite E' in E. discriminate.
Qed.

Lemma binit_run s :
  length (k_bcache s) = S NBUF -> (forall i b, k_bcache s !! i = Some b -> b_flags b = 0) ->
  exists bc, binit s = Ret tt (set_k_bcache bc s) /\ binit_inv NBUF bc.
Proof.
  intros Hlen Hf. unfold binit. assert (HH : (HEAD < S NBUF)%nat) by (unfold HEAD; lia).
  kalter. kalter.
  match goal with |- context [binit_loop 0 NBUF ?s1] =>
    destruct (binit_loop_run NBUF 0 s1) as (bc & -> & Hinv); [|reflexivity|] end.
  - ksimp. split; [by rewrite !length_alter|]. split.
    + cbn [seq rev app linked]. rewrite nxt_set_next, decide_True by (rewrite ?length_alter; lia || done).
      rewrite prv_set_next, prv_set_prev, decide_True by (lia || done). done.
    + intros i b Hi. split; [|lia].
      apply (core_lookup _ (k_bcache s)) in Hi as (b' & Hb' & (-> & _)%core_eq);
        [eauto|by rewrite !core_alter].
  - exists bc. by destruct s.
Qed.

(** ** The theorems *)

(** [binit] on the zeroed [bcache] links all [NBUF] buffers into the LRU
    list, and the empty cache it leaves satisfies the cache invariant and
    shows every block as it is on disk. *)
Theorem binit_establishes s :
  length (k_bcache s) = S NBUF -> (forall i b, k_bcache s !! i = Some b -> b_flags b = 0) ->
  (forall n, length (dread (k_disk s) n) = BSIZE) ->
  exists bc, binit s = Ret tt (set_k_bcache bc s) /\ cache_ok bc (k_disk s) /\
    lru bc (rev (seq 0 NBUF)) /\ (forall n, cview bc (k_disk s) n = dread (k_disk s) n).
Proof.
  intros Hlen Hf Hd. destruct (binit_run s Hlen Hf) as (bc & Hrun & Hinv).
  exists bc. split; [done|]. by apply binit_inv_ok.
Qed.

(** The states of the witnesses: a kernel on disk [d], before and after
    [binit]; an empty disk. *)
Definition powered_on (d : disk) : kstate := kzero ∅ d.
Definition zdisk : disk := mkDisk 1000 ∅ [].

Lemma zdisk_len n : length (dread zdisk n) = BSIZE.
Proof. unfold dread, zdisk. cbn [dk_blocks]. by rewrite lookup_empty. Qed.

Lemma powered_on_flags d i b : k_bcache (powered_on d) !! i = Some b -> b_flags b = 0.
Proof. intros [-> _]%lookup_replicate. done. Qed.

Lemma binit_idle bc i b :
  binit_inv NBUF bc -> bufs bc !! i = Some b -> busy b = false /\ dirty b = false.
Proof.
  intros (_ & _ & Hf) [Hi _]%bufs_lookup. destruct (Hf _ _ Hi) as [E _].
  unfold busy, dirty. rewrite E. by split.
Qed.

Lemma binit_available bc n : binit_inv NBUF bc -> available bc n.
Proof.
  intros Hinv. split; [intros i b Hi _; by eapply binit_idle|]. right.
  destruct (lookup_lt_is_Some_2 bc 0) as [b Hb]; [destruct Hinv as (-> & _); lia|].
  assert (Hi : bufs bc !! 0%nat = Some b) by (apply bufs_lookup; split; [done|unfold NBUF; lia]).
  exists 0%nat, b. split; [done|]. by eapply binit_idle.
Qed.

(** [s] is the state of a kernel that has just run [binit] on disk [d]. *)
Record booted (s : kstate) (d : disk) : Prop := {
  bo_run : binit (powered_on d) = Ret tt s;
  bo_ok : cache_ok (k_bcache s) (k_disk s);
  bo_inv : binit_inv NBUF (k_bcache s);
  bo_disk : k_disk s = d;
  bo_held : k_held s = [];
  bo_log : k_log s = log0;
  bo_view : forall n, cview (k_bcache s) (k_disk s) n = dread d n
}.

Lemma boots_up d : (forall n, length (dread d n) = BSIZE) -> exists s, booted s d.
Proof.
  intros Hd. destruct (binit_run (powered_on d) eq_refl (powered_on_flags d)) as (bc & Hrun & Hinv).
  exists (set_k_bcache bc (powered_on d)). destruct (binit_inv_ok bc d Hinv Hd) as (Hok & _ & Hv).
  by split.
Qed.

Lemma binit_establishes_witness : let s := powered_on zdisk in
  exists bc, binit s = Ret tt (set_k_bcache bc s) /\ cache_ok bc (k_disk s) /\
    lru bc (rev (seq 0 NBUF)) /\ (forall n, cview bc (k_disk s) n = dread (k_disk s) n).
Proof. apply (binit_establishes (powered_on zdisk)); [reflexivity|apply powered_on_flags|exact zdisk_len]. Defined.

(** [bread] of a block that no one else is using returns a busy buffer
    for that block whose contents are the view of the block - the cached
    copy if there is one, however dirty, and the disk contents otherwise.
    It writes nothing to disk, changes no other buffer, and leaves the view
    of every block and the cache invariant as they were. *)
Theorem bread_returns_view s n :
  cache_ok (k_bcache s) (k_disk s) -> L_bcache ∉ k_held s -> n < dk_size (k_disk s) ->
  available (k_bcache s) n ->
  exists i b', let bc' := <[i := b']> (k_bcache s) in
    bread 1 n s = Ret i (set_k_bcache bc' s) /\
    owned (set_k_bcache bc' s) i b' n /\
    b_data b' = cview (k_bcache s) (k_disk s) n /\
    cache_ok bc' (k_disk s) /\
    (forall m, cview bc' (k_disk s) m = cview (k_bcache s) (k_disk s) m).
Proof.
  intros Hok Hh Hn Hav. destruct (bread_spec s n Hok Hh Hn Hav) as (i & b & b' & Ht & Hrun).
  exists i, b'. cbn zeta. destruct Ht as [Hfit Hhold Hidle Hbusy Hdata Hold]. split; [done|].
  pose proof (fits_cache_ok _ _ _ _ _ _ Hok Hfit) as Hok'.
  pose proof (ft_i _ _ _ _ _ _ Hfit) as Hi. pose proof Hi as [Hi' Hlt]%bufs_lookup.
  split; [|split; [done|split; [done|]]].
  - split; [|done]. ksimp. rewrite bufs_insert by done. apply list_lookup_insert_eq.
    by eapply lookup_lt_Some.
  - intros m. rewrite (fits_cview _ (k_disk s) _ b _ (k_disk s)); [|done..|].
    + case_decide as E; [|done]. destruct Hhold as [_ E']. rewrite Hdata. congruence.
    + destruct Hhold as [_ E']. destruct Hold as [[[_ E] _]|(_ & Hy & _)]; [left; congruence|by right].
Qed.

Lemma bread_returns_view_witness : exists s, binit (powered_on zdisk) = Ret tt s /\
  exists i b', let bc' := <[i := b']> (k_bcache s) in
    bread 1 7 s = Ret i (set_k_bcache bc' s) /\
    owned (set_k_bcache bc' s) i b' 7 /\
    b_data b' = cview (k_bcache s) (k_disk s) 7 /\
    cache_ok bc' (k_disk s) /\
    (forall m, cview bc' (k_disk s) m = cview (k_bcache s) (k_disk s) m).
Proof.
  destruct (boots_up zdisk zdisk_len) as [s [Hrun Hok Hinv Hd Hh _ _]]. exists s. split; [done|].
  apply (bread_returns_view s 7); [done|rewrite Hh; apply not_elem_of_nil|by rewrite Hd|by apply binit_available].
Defined.
