(* ===== verification/Cache.v ===== *)
(** * What the buffer cache promises its clients

    [Bio] says what each operation of bio.c does to the buffers.  Here the
    same operations are specified as log.c and fs.c see them: a cache is a
    view of the disk ([view]), the set of blocks that are dirty and the set
    of blocks that are in use; a client holds buffers ([owns]).  Each
    operation has one lemma, and the lemmas compose. *)

From stdpp Require Import base list list_numbers numbers gmap strings fin_sets.
From Stdlib Require Import ZArith Lia.
From S2P Require Import Prelude Mem KState Sched Bio.

Definition view (s : kstate) (n : Z) : list Z := cview (k_bcache s) (k_disk s) n.

(** Buffer [i] is in use by the caller, for block [n], with contents [v];
    [dt] says whether it is dirty. *)
Definition owns (s : kstate) (i : nat) (n : Z) (v : list Z) (dt : bool) : Prop :=
  exists b, bufs (k_bcache s) !! i = Some b /\ busy b = true /\ holds n b /\
            b_data b = v /\ dirty b = dt.

(** [X] is the set of the cached blocks whose buffer satisfies [P]. *)
Definition marks (P : buf -> bool) (bc : list buf) (X : gset Z) : Prop :=
  forall n, n ∈ X <-> exists i b, bufs bc !! i = Some b /\ holds n b /\ P b = true.

Record cabs (s : kstate) (D U : gset Z) : Prop := {
  ca_ok : cache_ok (k_bcache s) (k_disk s);
  ca_dirty : marks dirty (k_bcache s) D;
  ca_busy : marks busy (k_bcache s) U;
  ca_lock : L_bcache ∉ k_held s;
  ca_plock : L_ptable ∉ k_held s
}.

(** The cache operations change the buffers, the disk and, by waking
    sleepers, the process table; nothing else. *)
Definition cframe (s s' : kstate) : Prop :=
  s' = set_k_bcache (k_bcache s') (set_k_disk (k_disk s') (set_k_ptable (k_ptable s') s)) /\
  dk_size (k_disk s') = dk_size (k_disk s) /\ length (k_ptable s') = length (k_ptable s).

#[global] Instance cframe_refl : Reflexive cframe.
Proof. intros []. done. Qed.

#[global] Instance cframe_trans : Transitive cframe.
Proof.
  intros s1 s2 s3 (E1 & D1 & P1) (E2 & D2 & P2). split; [|split; congruence].
  rewrite E2, E1. by destruct s3.
Qed.

Lemma cframe_log s s' : cframe s s' -> k_log s' = k_log s.
Proof. intros (E & _). by rewrite E. Qed.
Lemma cframe_held s s' : cframe s s' -> k_held s' = k_held s.
Proof. intros (E & _). by rewrite E. Qed.
Lemma cframe_size s s' : cframe s s' -> dk_size (k_disk s') = dk_size (k_disk s).
Proof. by intros (_ & E & _). Qed.

(** ** Sets of blocks under an update *)

Lemma marks_fits P bc d i b b' d' X :
  fits bc d i b b' d' -> marks P bc X ->
  (b_blockno b = b_blockno b' \/ P b = false) ->
  marks P (<[i := b']> bc)
    (if P b' then {[b_blockno b']} ∪ X else X ∖ {[b_blockno b']}).
Proof.
  intros Hf HX Hold m. pose proof (ft_i _ _ _ _ _ _ Hf) as Hi. pose proof Hi as [_ Hlt]%bufs_lookup.
  assert (Hil : (i < length (bufs bc))%nat) by (by eapply lookup_lt_Some).
  assert (Hin : m ∈ (if P b' then {[b_blockno b']} ∪ X else X ∖ {[b_blockno b']}) <->
                if decide (m = b_blockno b') then P b' = true else m ∈ X)
    by (case_decide; destruct (P b'); set_solver).
  rewrite Hin. clear Hin. setoid_rewrite bufs_insert; [|done]. case_decide as E.
  - split.
    + intros HP. exists i, b'. rewrite list_lookup_insert_eq by done.
      split; [done|]. split; [split; [by eapply ft_dev|done]|done].
    + intros (j & bj & Hj & Hh & HP). destruct (decide (j = i)) as [->|Hne].
      * rewrite list_lookup_insert_eq in Hj by done. congruence.
      * rewrite list_lookup_insert_ne in Hj by done.
        destruct (ft_only _ _ _ _ _ _ Hf _ _ Hne Hj). by rewrite <- E.
  - rewrite (HX m). split; intros (j & bj & Hj & Hh & HP).
    + destruct (decide (j = i)) as [->|Hne].
      * exfalso. assert (bj = b) as -> by congruence. destruct Hh as [_ Hn].
        destruct Hold as [E'|E']; congruence.
      * exists j, bj. by rewrite list_lookup_insert_ne.
    + destruct (decide (j = i)) as [->|Hne].
      * exfalso. rewrite list_lookup_insert_eq in Hj by done. destruct Hh as [_ Hn]. congruence.
      * rewrite list_lookup_insert_ne in Hj by done. eauto.
Qed.

Lemma marks_cores P (bc bc' : list buf) X :
  (forall b b', core b = core b' -> P b = P b') -> core <$> bc' = core <$> bc ->
  marks P bc X -> marks P bc' X.
Proof.
  intros HP He HX n. rewrite (HX n). apply bufs_core in He.
  split; intros (i & b & Hi & [Hd Hn] & Hb).
  - destruct (core_lookup _ _ _ _ (eq_sym He) Hi) as (b' & Hi' & Ec). exists i, b'.
    rewrite <- (HP _ _ Ec). apply core_eq in Ec as (_ & E1 & E2 & _). unfold holds. by rewrite <- E1, <- E2.
  - destruct (core_lookup _ _ _ _ He Hi) as (b' & Hi' & Ec). exists i, b'.
    rewrite <- (HP _ _ Ec). apply core_eq in Ec as (_ & E1 & E2 & _). unfold holds. by rewrite <- E1, <- E2.
Qed.

Lemma marks_eq P bc X Y : marks P bc X -> X = Y -> marks P bc Y.
Proof. by intros ? <-. Qed.

Lemma dirty_core b b' : core b = core b' -> dirty b = dirty b'.
Proof. intros (E & _)%core_eq. unfold dirty. by rewrite E. Qed.
Lemma busy_core b b' : core b = core b' -> busy b = busy b'.
Proof. intros (E & _)%core_eq. unfold busy. by rewrite E. Qed.

(** If fewer than [NBUF] blocks are dirty or in use, a buffer is free. *)
Lemma cabs_reusable s D U :
  cabs s D U -> (size (D ∪ U) < NBUF)%nat ->
  exists i b, bufs (k_bcache s) !! i = Some b /\ busy b = false /\ dirty b = false.
Proof.
  intros [Hok HD HU _ _] Hsz.
  destruct (decide (Exists (fun b => busy b = false /\ dirty b = false) (bufs (k_bcache s)))) as [He|Hn].
  { apply Exists_exists in He as (b & Hin & Hb). apply list_elem_of_lookup in Hin as [i Hi]. eauto. }
  exfalso. rewrite <- Forall_Exists_neg in Hn. rewrite Forall_lookup in Hn.
  assert (Hdev : forall i b, bufs (k_bcache s) !! i = Some b -> b_dev b = 1).
  { intros i b Hi. destruct (co_kind _ _ Hok _ _ Hi) as [(? & _)|(_ & Hb)]; [done|].
    by destruct (Hn _ _ Hi). }
  assert (Hnd : NoDup (b_blockno <$> bufs (k_bcache s))).
  { apply NoDup_alt. intros i j n Hi Hj. rewrite list_lookup_fmap in Hi, Hj.
    destruct (bufs _ !! i) as [bi|] eqn:Ei, (bufs _ !! j) as [bj|] eqn:Ej; try done.
    apply (co_uniq _ _ Hok i j bi bj Ei Ej (Hdev _ _ Ei) (Hdev _ _ Ej)).
    cbn in *. congruence. }
  assert (Hsub : list_to_set (b_blockno <$> bufs (k_bcache s)) ⊆ D ∪ U).
  { intros n Hin. apply elem_of_list_to_set, list_elem_of_fmap in Hin as (b & -> & Hin).
    apply list_elem_of_lookup in Hin as [i Hi]. specialize (Hn _ _ Hi). cbn in Hn.
    apply elem_of_union. rewrite (HD _), (HU _). specialize (Hdev _ _ Hi). unfold holds.
    destruct (dirty b) eqn:Ed; [left; eauto 10|]. destruct (busy b) eqn:Eb; [right; eauto 10|].
    by destruct Hn. }
  apply subseteq_size in Hsub. rewrite size_list_to_set in Hsub by done.
  rewrite length_fmap in Hsub. destruct (co_lru _ _ Hok) as [l (Hlen & _)].
  unfold bufs in Hsub. rewrite length_take, Hlen in Hsub. lia.
Qed.

(** ** What any run of the cache keeps *)

Section keeps.
Context {B : Type} (f : kstate -> B).
Context (Hbc : forall s v, f (set_k_bcache v s) = f s) (Hd : forall s v, f (set_k_disk v s) = f s).
Context (Hh : forall s v, f (set_k_held v s) = f s) (Hp : forall s v, f (set_k_ptable v s) = f s).

Lemma keeps_iderw i : keeps f (iderw i).
Proof using Hbc Hd. unfold iderw. keep. Qed.

Lemma keeps_bget_scan fuel : forall b dev n, keeps f (bget_scan fuel b dev n).
Proof using. induction fuel as [|fuel IH]; intros b dev n; cbn [bget_scan]; keep; auto. Qed.

Lemma keeps_bget_recycle fuel : forall b, keeps f (bget_recycle fuel b).
Proof using. induction fuel as [|fuel IH]; intros b; cbn [bget_recycle]; keep; auto. Qed.

Lemma keeps_bread dev n : keeps f (bread dev n).
Proof using Hbc Hd Hh.
  unfold bread, bget, bget_loop. pose proof keeps_iderw.
  keep; auto using keeps_bget_scan, keeps_bget_recycle.
Qed.

Lemma keeps_bwrite i : keeps f (bwrite i).
Proof using Hbc Hd. unfold bwrite. pose proof keeps_iderw. keep. Qed.

Lemma keeps_brelse i : keeps f (brelse i).
Proof using Hbc Hh Hp. unfold brelse. keep. Qed.

End keeps.

#[export] Hint Resolve keeps_bread keeps_bwrite keeps_brelse : keeps.

(** ** Owned buffers *)

Lemma owns_other s i n v dt bc' i' b' d' :
  owns s i n v dt -> i <> i' -> (i' < NBUF)%nat -> bc' = <[i' := b']> (k_bcache s) ->
  owns (set_k_bcache bc' (set_k_disk d' s)) i n v dt.
Proof.
  intros (b & Hi & Hrest) Hne Hlt ->. exists b. split; [|done]. ksimp.
  by rewrite bufs_insert, list_lookup_insert_ne.
Qed.

Lemma owns_busy s D U i n v dt : cabs s D U -> owns s i n v dt -> n ∈ U.
Proof. intros Hc (b & Hi & Hb & Hh & _). apply (ca_busy _ _ _ Hc). eauto. Qed.

Lemma owns_dirty s D U i n v dt : cabs s D U -> owns s i n v dt -> dt = bool_decide (n ∈ D).
Proof.
  intros Hc (b & Hi & Hb & [Hd Hn] & _ & <-). apply eq_true_iff_eq. rewrite bool_decide_eq_true.
  rewrite (ca_dirty _ _ _ Hc n). split.
  - intros Hy. exists i, b. done.
  - intros (j & bj & Hj & [Hdj Hnj] & Hy).
    assert (i = j) as -> by (apply (co_uniq _ _ (ca_ok _ _ _ Hc) i j b bj); congruence). congruence.
Qed.

Lemma owns_view s D U i n v dt : cabs s D U -> owns s i n v dt -> view s n = v.
Proof. intros Hc (b & Hi & Hb & Hh & <- & _). eapply cview_hit; eauto using ca_ok. Qed.

Lemma owns_lt s i n v dt : owns s i n v dt -> (i < NBUF)%nat.
Proof. by intros (b & [_ ?]%bufs_lookup & _). Qed.

Lemma owns_inj s D U i j n v w dt dt' :
  cabs s D U -> owns s i n v dt -> owns s j n w dt' -> i = j.
Proof.
  intros Hc (b & Hi & _ & [] & _) (b' & Hj & _ & [] & _).
  apply (co_uniq _ _ (ca_ok _ _ _ Hc) i j b b'); congruence.
Qed.

Lemma owns_len s D U i n v dt : cabs s D U -> owns s i n v dt -> length v = BSIZE.
Proof.
  intros Hc (b & Hi & Hb & [Hd Hn] & <- & _).
  destruct (co_kind _ _ (ca_ok _ _ _ Hc) _ _ Hi) as [(_ & _ & ?)|(E & _)]; [done|].
  rewrite Hd in E. discriminate.
Qed.

(** ** One lemma per operation *)

Lemma view_fits s i b b' d' m :
  cache_ok (k_bcache s) (k_disk s) -> fits (k_bcache s) (k_disk s) i b b' d' ->
  (b_blockno b = b_blockno b' \/ (busy b = false /\ dirty b = false)) ->
  view (set_k_bcache (<[i := b']> (k_bcache s)) (set_k_disk d' s)) m =
  if decide (m = b_blockno b') then b_data b' else view s m.
Proof. intros. unfold view. ksimp. by apply (fits_cview _ (k_disk s) _ b). Qed.

(** Installing a fitting buffer [b'] at [i]. *)
Lemma cabs_fits s D U i b b' d' :
  cabs s D U -> fits (k_bcache s) (k_disk s) i b b' d' ->
  (b_blockno b = b_blockno b' \/ (busy b = false /\ dirty b = false)) ->
  cabs (set_k_bcache (<[i := b']> (k_bcache s)) (set_k_disk d' s))
    (if dirty b' then {[b_blockno b']} ∪ D else D ∖ {[b_blockno b']})
    (if busy b' then {[b_blockno b']} ∪ U else U ∖ {[b_blockno b']}).
Proof.
  intros [Hok HD HU Hl1 Hl2] Hf Hold. split; ksimp; [by eapply fits_cache_ok| | |done|done].
  - eapply marks_fits; [done..|]. destruct Hold as [?|[_ ?]]; auto.
  - eapply marks_fits; [done..|]. destruct Hold as [?|[? _]]; auto.
Qed.

Lemma cabs_sets s D U D' U' : cabs s D U -> D = D' -> U = U' -> cabs s D' U'.
Proof. by intros ? <- <-. Qed.

Lemma bread_cabs s D U n :
  cabs s D U -> n ∉ U -> n < dk_size (k_disk s) -> n ∈ D \/ (size (D ∪ U) < NBUF)%nat ->
  exists i s', bread 1 n s = Ret i s' /\ cframe s s' /\ k_disk s' = k_disk s /\
    cabs s' D ({[n]} ∪ U) /\ owns s' i n (view s n) (bool_decide (n ∈ D)) /\
    (forall m, view s' m = view s m) /\
    (forall j m v dt, owns s j m v dt -> owns s' j m v dt).
Proof.
  intros Hc HnU Hn Hroom. pose proof Hc as [Hok HD HU Hl1 Hl2].
  assert (Hav : available (k_bcache s) n).
  { split.
    - intros i b Hi Hh. destruct (busy b) eqn:Eb; [|done]. exfalso. apply HnU, HU. eauto.
    - destruct Hroom as [HnD|Hsz]; [left|right; by eapply cabs_reusable].
      apply HD in HnD as (i & b & Hi & Hh & _). eauto. }
  destruct (bread_spec s n Hok Hl1 Hn Hav) as (i & b & b' & [Hfit [Hd' Hn'] Hidle Hbusy Hdata Hold] & Hrun).
  pose proof (ft_i _ _ _ _ _ _ Hfit) as Hi. pose proof Hi as [Hi' Hlt]%bufs_lookup.
  assert (Hold' : b_blockno b = b_blockno b' \/ (busy b = false /\ dirty b = false)).
  { destruct Hold as [[[_ E] _]|(_ & ? & _)]; [left; congruence|by right]. }
  assert (Es : set_k_bcache (<[i := b']> (k_bcache s)) s =
               set_k_bcache (<[i := b']> (k_bcache s)) (set_k_disk (k_disk s) s)) by (by destruct s).
  exists i, (set_k_bcache (<[i := b']> (k_bcache s)) (set_k_disk (k_disk s) s)).
  pose proof (cabs_fits s D U i b b' (k_disk s) Hc Hfit Hold') as Hc'. rewrite Hn', Hbusy in Hc'.
  assert (HnD : (if dirty b' then {[n]} ∪ D else D ∖ {[n]}) = D).
  { destruct Hold as [[Hh ->]|(Hno & _ & ->)].
    - destruct (dirty b) eqn:Ey; apply set_eq; intros m.
      + assert (n ∈ D) by (apply HD; eauto). set_solver.
      + assert (n ∉ D); [|set_solver]. intros (j & bj & Hj & [Dj Nj] & Hy)%HD. destruct Hh as [Dh Nh].
        assert (i = j) as -> by (apply (co_uniq _ _ Hok i j b bj); congruence). congruence.
    - assert (n ∉ D); [|set_solver]. intros (j & bj & Hj & Hh & _)%HD. by destruct (Hno j bj). }
  rewrite HnD in Hc'.
  assert (Hown : owns (set_k_bcache (<[i := b']> (k_bcache s)) (set_k_disk (k_disk s) s)) i n (view s n) (dirty b')).
  { exists b'. ksimp. rewrite bufs_insert, list_lookup_insert_eq by (done || by eapply lookup_lt_Some). done. }
  split; [by rewrite Hrun, Es|]. split; [by destruct s|]. split; [done|]. split; [done|].
  split; [by rewrite <- (owns_dirty _ _ _ _ _ _ _ Hc' Hown)|]. split.
  - intros m. rewrite (view_fits s i b b' (k_disk s)) by done. case_decide as E; [|done].
    subst m. by rewrite Hdata, Hn'.
  - intros j m v dt Ho. eapply owns_other; [done| |done|done]. intros ->.
    destruct Ho as (b2 & Hi2 & Hb2 & _). congruence.
Qed.

(** The caller changes the contents of a buffer it holds. *)
Lemma setdata_cabs s D U i n v v' dt :
  cabs s D U -> owns s i n v dt -> length v' = BSIZE ->
  exists s', upd_buf i (set_b_data v') s = Ret tt s' /\ cframe s s' /\ k_disk s' = k_disk s /\
    cabs s' D U /\ owns s' i n v' dt /\
    (forall m, view s' m = if decide (m = n) then v' else view s m) /\
    (forall j m w dt', j <> i -> owns s j m w dt' -> owns s' j m w dt').
Proof.
  intros Hc Ho Hlen. pose proof Ho as (b & Hi & Hb & [Hd Hn] & Hv & Hy). pose proof Hc as [Hok HD HU _ _].
  pose proof Hi as [Hi' Hlt]%bufs_lookup. set (b' := set_b_data v' b).
  destruct (co_kind _ _ Hok _ _ Hi) as [(_ & Hva & _)|(E & _)]; [|rewrite Hd in E; discriminate].
  assert (Hfit : fits (k_bcache s) (k_disk s) i b b' (k_disk s)).
  { split; try done; [|unfold busy in *; cbn; congruence|apply (co_disk _ _ Hok)].
    intros j bj Hj Hbj [Dj Nj]. apply Hj. change (b_blockno b') with (b_blockno b) in Nj.
    apply (co_uniq _ _ Hok j i bj b); congruence. }
  exists (set_k_bcache (<[i := b']> (k_bcache s)) (set_k_disk (k_disk s) s)).
  pose proof (cabs_fits s D U i b b' (k_disk s) Hc Hfit ltac:(by left)) as Hc'.
  change (busy b') with (busy b) in Hc'. change (dirty b') with (dirty b) in Hc'.
  change (b_blockno b') with (b_blockno b) in Hc'. rewrite Hn, Hb, Hy in Hc'.
  pose proof (owns_busy _ _ _ _ _ _ _ Hc Ho). pose proof (owns_dirty _ _ _ _ _ _ _ Hc Ho) as Edt.
  split; [rewrite (upd_buf_Ret _ _ _ _ Hi'); by destruct s|]. split; [by destruct s|]. split; [done|].
  split; [|split; [|split]].
  - eapply cabs_sets; [done| |set_solver]. rewrite Edt. case_bool_decide; set_solver.
  - exists b'. ksimp. rewrite bufs_insert, list_lookup_insert_eq by (done || by eapply lookup_lt_Some). done.
  - intros m. rewrite (view_fits s i b b' (k_disk s)) by (done || by left). cbn. by rewrite Hn.
  - intros j m w dt' Hne Hj. by eapply owns_other.
Qed.

Lemma bwrite_cabs s D U i n v dt :
  cabs s D U -> owns s i n v dt -> n < dk_size (k_disk s) ->
  exists s', bwrite i s = Ret tt s' /\ cframe s s' /\ k_disk s' = dwrite (k_disk s) n v /\
    cabs s' (D ∖ {[n]}) U /\ owns s' i n v false /\
    (forall m, view s' m = view s m) /\
    (forall j m w dt', j <> i -> owns s j m w dt' -> owns s' j m w dt').
Proof.
  intros Hc Ho Hn. pose proof Ho as (b & Hi & Hb & Hh & Hv & Hy). pose proof Hi as [Hi' Hlt]%bufs_lookup.
  destruct (bwrite_spec s i b n (ca_ok _ _ _ Hc) (conj Hi (conj Hb Hh)) Hn)
    as (b' & Hrun & Hfit & [Hd' Hn'] & Hb' & Hy' & Hv').
  rewrite Hv in Hrun, Hfit, Hv'. assert (Hold : b_blockno b = b_blockno b') by (destruct Hh; congruence).
  exists (set_k_bcache (<[i := b']> (k_bcache s)) (set_k_disk (dwrite (k_disk s) n v) s)).
  pose proof (cabs_fits s D U i b b' _ Hc Hfit (or_introl Hold)) as Hc'. rewrite Hn', Hb', Hy' in Hc'.
  pose proof (owns_busy _ _ _ _ _ _ _ Hc Ho).
  split; [rewrite Hrun; by destruct s|]. split; [by destruct s|]. split; [done|].
  split; [|split; [|split]].
  - eapply cabs_sets; [done..|set_solver].
  - exists b'. ksimp. rewrite bufs_insert, list_lookup_insert_eq by (done || by eapply lookup_lt_Some). done.
  - intros m. rewrite (view_fits s i b b' _ m (ca_ok _ _ _ Hc) Hfit (or_introl Hold)).
    case_decide as E; [|done]. subst m. rewrite Hv', Hn'. symmetry. by eapply owns_view.
  - intros j m w dt' Hne Hj. by eapply owns_other.
Qed.

Lemma owns_cores s s' i n v dt :
  core <$> k_bcache s' = core <$> k_bcache s -> owns s i n v dt -> owns s' i n v dt.
Proof.
  intros He (b & Hi & Hb & [Hd Hn] & Hv & Hy). apply bufs_core in He.
  destruct (core_lookup _ _ _ _ (eq_sym He) Hi) as (b' & Hi' & Ec). exists b'.
  rewrite <- (busy_core _ _ Ec), <- (dirty_core _ _ Ec).
  apply core_eq in Ec as (_ & E1 & E2 & E3). unfold holds. by rewrite <- E1, <- E2, <- E3.
Qed.

Lemma brelse_cabs s D U i n v dt :
  cabs s D U -> owns s i n v dt -> (dt = false -> v = dread (k_disk s) n) ->
  exists s', brelse i s = Ret tt s' /\ cframe s s' /\ k_disk s' = k_disk s /\
    cabs s' D (U ∖ {[n]}) /\
    (forall m, view s' m = view s m) /\
    (forall j m w dt', j <> i -> owns s j m w dt' -> owns s' j m w dt').
Proof.
  intros Hc Ho Hclean. pose proof Ho as (b & Hi & Hb & Hh & Hv & Hy). pose proof Hi as [Hi' Hlt]%bufs_lookup.
  pose proof Hc as [Hok HD HU Hl1 Hl2].
  destruct (brelse_spec s i b n Hok (conj Hi (conj Hb Hh)) Hl1 Hl2) as (bc' & Hrun & Hcore & Hok' & Hview & _).
  { rewrite Hv, Hy. done. }
  destruct (co_kind _ _ Hok _ _ Hi) as [(_ & Hva & Hlen)|(E & _)];
    [|destruct Hh as [Hd _]; rewrite Hd in E; discriminate].
  assert (Hfit : fits (k_bcache s) (k_disk s) i b (unbusy b) (k_disk s)).
  { destruct Hh as [Hd Hn].
    split; unfold unbusy, valid, busy, dirty in *; cbn; autorewrite with flags; auto; try done.
    - intros j bj Hj Hbj [Dj Nj]. apply Hj. apply (co_uniq _ _ Hok j i bj b); congruence.
    - rewrite Hn, Hv, Hy. auto.
    - apply (co_disk _ _ Hok). }
  pose proof (cabs_fits s D U i b (unbusy b) (k_disk s) Hc Hfit ltac:(by left)) as [_ HD' HU' _ _].
  ksimp in HD'. ksimp in HU'.
  assert (Eb : busy (unbusy b) = false) by (unfold busy, unbusy; cbn; by autorewrite with flags).
  assert (Ed : dirty (unbusy b) = dirty b) by (unfold dirty, unbusy; cbn; by autorewrite with flags).
  assert (En : b_blockno (unbusy b) = n) by (by destruct Hh). rewrite Eb, Ed, En, ?Hy in *.
  eexists. split; [exact Hrun|]. split; [destruct s; split; [done|split; [done|by cbn; rewrite length_map]]|].
  split; [done|]. split; [|split; [done|]].
  - split; ksimp; [done| |by eapply marks_cores; eauto using busy_core|done|done].
    eapply marks_cores; [apply dirty_core|exact Hcore|]. eapply (marks_eq dirty); [exact HD'|].
    rewrite (owns_dirty _ _ _ _ _ _ _ Hc Ho). case_bool_decide; set_solver.
  - intros j m w dt' Hne Hj. 
    apply (owns_cores (set_k_bcache (<[i := unbusy b]> (k_bcache s)) (set_k_disk (k_disk s) s)));
      [exact Hcore|]. by eapply owns_other.
Qed.

(** Reading and updating a buffer the caller holds. *)
Lemma owns_get s i n v dt :
  owns s i n v dt -> exists b, get_buf i s = Ret b s /\ b_data b = v /\ b_blockno b = n /\ b_dev b = 1.
Proof.
  intros (b & [Hi _]%bufs_lookup & _ & [Hd Hn] & Hv & _). exists b. by rewrite (get_buf_Ret _ _ _ Hi).
Qed.

Lemma owns_upd_data s i n v dt f :
  owns s i n v dt ->
  upd_buf i (fun b => set_b_data (f (b_data b)) b) s = upd_buf i (set_b_data (f v)) s.
Proof.
  intros (b & [Hi _]%bufs_lookup & _ & _ & Hv & _). by rewrite !(upd_buf_Ret _ _ _ _ Hi), Hv.
Qed.

(** A block that is neither dirty nor in use is seen as it is on disk. *)
Lemma cabs_clean s D U n : cabs s D U -> n ∉ D -> n ∉ U -> view s n = dread (k_disk s) n.
Proof.
  intros [Hok HD HU _ _] HnD HnU. unfold view.
  destruct (holds_cases (k_bcache s) n) as [(i & b & Hi & Hh)|Hno]; [|by apply cview_miss].
  rewrite (cview_hit _ _ i b) by done. destruct Hh as [Hd Hn]. rewrite <- Hn.
  apply (co_data _ _ Hok i); [done|done|destruct (busy b) eqn:E|destruct (dirty b) eqn:E]; try done;
    exfalso; [apply HnU, HU|apply HnD, HD]; exists i, b; done.
Qed.

Lemma view_len s D U n : cabs s D U -> length (view s n) = BSIZE.
Proof.
  intros [Hok HD HU _ _]. unfold view.
  destruct (holds_cases (k_bcache s) n) as [(i & b & Hi & Hh)|Hno].
  - rewrite (cview_hit _ _ i b) by done. destruct Hh as [Hd _].
    destruct (co_kind _ _ Hok _ _ Hi) as [(_ & _ & ?)|(E & _)]; [done|]. rewrite Hd in E. discriminate.
  - rewrite cview_miss by done. apply (co_disk _ _ Hok).
Qed.

(** ** The theorems *)

(** [bwrite] of a buffer the caller holds puts exactly its contents on
    disk, in its block and nowhere else, as one more write; afterwards the
    block is clean, still held, and every block looks as it did. *)
Theorem bwrite_write_through s D U i n v dt :
  cabs s D U -> owns s i n v dt -> n < dk_size (k_disk s) ->
  exists s', bwrite i s = Ret tt s' /\
    dk_writes (k_disk s') = dk_writes (k_disk s) ++ [(n, v)] /\
    (forall m, dread (k_disk s') m = if decide (m = n) then v else dread (k_disk s) m) /\
    cabs s' (D ∖ {[n]}) U /\ owns s' i n v false /\ (forall m, view s' m = view s m).
Proof.
  intros Hc Ho Hn. destruct (bwrite_cabs s D U i n v dt Hc Ho Hn) as (s' & Hrun & _ & Hd & Hc' & Ho' & Hv & _).
  exists s'. rewrite Hd. split; [done|]. split; [done|]. split; [|done].
  intros m. unfold dread, dwrite. cbn. case_decide; subst.
  - by rewrite lookup_insert_eq.
  - by rewrite lookup_insert_ne.
Qed.

(** [brelse] of a buffer that is dirty or agrees with the disk makes the
    block free for others, moves its buffer to the front of the LRU list,
    wakes the processes waiting for it, writes nothing and changes no view. *)
Theorem brelse_releases s D U i n v dt :
  cabs s D U -> owns s i n v dt -> (dt = false -> v = dread (k_disk s) n) ->
  exists s', brelse i s = Ret tt s' /\ cabs s' D (U ∖ {[n]}) /\ k_disk s' = k_disk s /\
    (exists l, lru (k_bcache s') (i :: l)) /\
    k_ptable s' = map (wake_one (Some (C_buf i))) (k_ptable s) /\
    (forall m, view s' m = view s m).
Proof.
  intros Hc Ho Hcl. destruct (brelse_cabs s D U i n v dt Hc Ho Hcl) as (s' & Hrun & _ & Hd & Hc' & Hv & _).
  exists s'. split; [done|]. split; [done|]. split; [done|].
  destruct Ho as (b & Hi & Hb & Hh & Hbv & Hy). pose proof Hi as [_ Hlt]%bufs_lookup. destruct Hc as [Hok HD HU Hl1 Hl2].
  destruct (brelse_spec s i b n Hok (conj Hi (conj Hb Hh)) Hl1 Hl2) as (bc' & Hrun' & _ & _ & _ & Hlru).
  { rewrite Hbv, Hy. done. }
  rewrite Hrun' in Hrun. injection Hrun as <-. split; [|done]. ksimp.
  destruct (co_lru _ _ Hok) as [l Hl]. pose proof (proj2 (lru_lt _ _ Hl i) Hlt) as Hin.
  apply list_elem_of_split in Hin as (l1 & l2 & ->). eauto.
Qed.

(** The booted cache as its clients see it: nothing dirty, nothing in use. *)
Lemma booted_cabs s d : booted s d -> cabs s ∅ ∅.
Proof.
  intros [_ Hok Hinv Hd Hh _ _]. split; [done| | |rewrite Hh; apply not_elem_of_nil..];
    intros n; (split; [intros H; by apply not_elem_of_empty in H|]); intros (i & b & Hi & _ & Hb);
    destruct (binit_idle _ i b Hinv Hi); congruence.
Qed.

(** A buffer in use, for the witnesses. *)
Lemma booted_owns : exists i s', cabs s' ∅ {[7]} /\
  owns s' i 7 zblock false /\ dk_size (k_disk s') = 1000 /\ dread (k_disk s') 7 = zblock.
Proof.
  destruct (boots_up zdisk zdisk_len) as [s Hb].
  destruct (bread_cabs s ∅ ∅ 7 (booted_cabs s _ Hb)) as (i & s' & Hrun & Hfr & Hd & Hc & Ho & _);
    [apply not_elem_of_empty|rewrite (bo_disk _ _ Hb); reflexivity|right; vm_compute; lia|].
  exists i, s'. split; [by rewrite union_empty_r_L in Hc|].
  split; [unfold view in Ho; by rewrite (bo_view _ _ Hb) in Ho|].
  rewrite Hd, (bo_disk _ _ Hb). split; reflexivity.
Qed.

Lemma bwrite_write_through_witness : exists i s s', owns s i 7 zblock false /\ bwrite i s = Ret tt s' /\
  dk_writes (k_disk s') = dk_writes (k_disk s) ++ [(7, zblock)].
Proof.
  destruct booted_owns as (i & s & Hc & Ho & Hsz & _). exists i, s.
  destruct (bwrite_write_through s ∅ {[7]} i 7 zblock false Hc Ho) as (s' & H1 & H2 & _);
    [rewrite Hsz; lia|]. exists s'. auto.
Defined.

Lemma brelse_releases_witness : exists i s s', owns s i 7 zblock false /\ brelse i s = Ret tt s' /\
  exists l, lru (k_bcache s') (i :: l).
Proof.
  destruct booted_owns as (i & s & Hc & Ho & _ & Hd). exists i, s.
  destruct (brelse_releases s ∅ {[7]} i 7 zblock false Hc Ho) as (s' & H1 & _ & _ & H2 & _);
    [intros _; by rewrite Hd|]. exists s'. auto.
Defined.
