(* ===== verification/Log.v ===== *)
(** * The write-ahead log: src/xv6/log.c

    [begin_op]/[end_op] bracket file-system operations; [log_write] records
    a modified buffer; [commit] writes the modified blocks to the log, then
    the header, installs the blocks at home and erases the header;
    [recover_from_log] redoes a committed transaction at boot.

    The theorems give the exact sequence of disk writes of a commit, and
    say that a crash after any of these writes, followed by recovery, leaves
    either all or none of the transaction on disk; that recovery may itself
    be interrupted and repeated; that [begin_op] and [log_write] keep the log
    within bounds; and that with the log size mkfs.c chooses there is a
    run, admitted by [begin_op], that ends in a panic. *)

From stdpp Require Import base list list_numbers numbers gmap strings fin_sets.
From Stdlib Require Import ZArith Lia.
From S2P Require Import Prelude Mem KState Sched Bio Cache.

(** ** The on-disk header: [struct logheader] in a block *)

Definition lh_n (data : list Z) : Z := s32 (le_dec (slice data 0 4)).
Definition lh_block (data : list Z) (i : nat) : Z := s32 (le_dec (slice data (4 + 4 * i) 4)).
Definition set_lh_n (v : Z) (data : list Z) : list Z := splice data 0 (le_enc 4 (u32 v)).
Definition set_lh_block (i : nat) (v : Z) (data : list Z) : list Z :=
  splice data (4 + 4 * i) (le_enc 4 (u32 v)).

(** ** fs.c: readsb *)

Definition sb_field (data : list Z) (i : nat) : Z := le_dec (slice data (4 * i) 4).
Definition sb_of (data : list Z) : superblock :=
  mkSb (sb_field data 0) (sb_field data 1) (sb_field data 2) (sb_field data 3)
       (sb_field data 4) (sb_field data 5) (sb_field data 6).

Definition readsb (dev : Z) : K superblock :=
  bp ← bread (u32 dev) 1;
  b ← get_buf bp;
  let sb := sb_of (b_data b) in
  brelse bp ;;
  mret sb.

(** ** log.c *)

Definition sizeof_logheader : Z := 4 + 4 * LOGSIZE.

(** The body of the loop of [install_trans]. *)
Definition install_one (tail : Z) : K unit :=
  lg ← gets k_log;
  lbuf ← bread (u32 (lg_dev lg)) (u32 (lg_start lg + tail + 1));
  lg ← gets k_log;
  home ← deref (lg_block lg !! Z.to_nat tail);
  dbuf ← bread (u32 (lg_dev lg)) (u32 home);
  lb ← get_buf lbuf;
  upd_buf dbuf (set_b_data (b_data lb)) ;;
  bwrite dbuf ;;
  brelse lbuf ;;
  brelse dbuf.

Definition install_trans : K unit :=
  lg ← gets k_log;
  for_loop (Z.to_nat (lg_n lg)) 0 install_one.

(** The body of the loop of [read_head]; [lh] is the block read. *)
Definition read_head_one (lh : list Z) (i : Z) : K unit :=
  lg ← gets k_log;
  if i <? LOGSIZE
  then upd_log (set_lg_block (<[Z.to_nat i := lh_block lh (Z.to_nat i)]> (lg_block lg)))
  else stop Fault.

Definition read_head : K unit :=
  lg ← gets k_log;
  buf ← bread (u32 (lg_dev lg)) (u32 (lg_start lg));
  b ← get_buf buf;
  let lh := b_data b in
  upd_log (set_lg_n (lh_n lh)) ;;
  for_loop (Z.to_nat (lh_n lh)) 0 (read_head_one lh) ;;
  brelse buf.

Definition write_head : K unit :=
  lg ← gets k_log;
  buf ← bread (u32 (lg_dev lg)) (u32 (lg_start lg));
  upd_buf buf (fun hb => set_b_data (set_lh_n (lg_n lg) (b_data hb)) hb) ;;
  for_loop (Z.to_nat (lg_n lg)) 0 (fun i =>
    blk ← deref (lg_block lg !! Z.to_nat i);
    upd_buf buf (fun hb => set_b_data (set_lh_block (Z.to_nat i) blk (b_data hb)) hb)) ;;
  bwrite buf ;;
  brelse buf.

Definition recover_from_log : K unit :=
  read_head ;;
  install_trans ;;
  upd_log (set_lg_n 0) ;;
  write_head.

Definition initlog (dev : Z) : K unit :=
  if Z.of_nat BSIZE <=? sizeof_logheader then panic "initlog: too big logheader"
  else
    sb ← readsb dev;
    upd_log (set_lg_start (s32 (sb_logstart sb))) ;;
    upd_log (set_lg_size (s32 (sb_nlog sb))) ;;
    upd_log (set_lg_dev dev) ;;
    recover_from_log.

(** The loop of [begin_op], entered with the lock held. *)
Definition begin_op_loop : K unit :=
  lg ← gets k_log;
  if negb (lg_committing lg =? 0) then block C_log L_log
  else if LOGSIZE <? lg_n lg + (lg_outstanding lg + 1) * MAXOPBLOCKS then block C_log L_log
  else
    upd_log (fun lg => set_lg_outstanding (lg_outstanding lg + 1) lg) ;;
    release L_log.

Definition begin_op : K unit := acquire L_log ;; begin_op_loop.

(** The body of the loop of [write_log]. *)
Definition write_log_one (tail : Z) : K unit :=
  lg ← gets k_log;
  to ← bread (u32 (lg_dev lg)) (u32 (lg_start lg + tail + 1));
  lg ← gets k_log;
  home ← deref (lg_block lg !! Z.to_nat tail);
  from ← bread (u32 (lg_dev lg)) (u32 home);
  fb ← get_buf from;
  upd_buf to (set_b_data (b_data fb)) ;;
  bwrite to ;;
  brelse from ;;
  brelse to.

Definition write_log : K unit :=
  lg ← gets k_log;
  for_loop (Z.to_nat (lg_n lg)) 0 write_log_one.

Definition commit : K unit :=
  lg ← gets k_log;
  if 0 <? lg_n lg then
    write_log ;;
    write_head ;;
    install_trans ;;
    upd_log (set_lg_n 0) ;;
    write_head
  else mret tt.

Definition end_op : K unit :=
  acquire L_log ;;
  upd_log (fun lg => set_lg_outstanding (lg_outstanding lg - 1) lg) ;;
  lg ← gets k_log;
  if negb (lg_committing lg =? 0) then panic "log.committing"
  else
    do_commit ←
      (if lg_outstanding lg =? 0 then upd_log (set_lg_committing 1) ;; mret true
       else wakeup C_log ;; mret false);
    release L_log ;;
    if (do_commit : bool) then
      commit ;;
      acquire L_log ;;
      upd_log (set_lg_committing 0) ;;
      wakeup C_log ;;
      release L_log
    else mret tt.

(** The loop of [log_write]: the first slot that holds the block, or [n]. *)
Fixpoint absorb_loop (blocks : list Z) (blockno : Z) (i n : nat) : nat :=
  match n with
  | O => i
  | S n' =>
      if u32 (nth i blocks 0) =? blockno then i
      else absorb_loop blocks blockno (S i) n'
  end.

Definition log_write (b : nat) : K unit :=
  lg ← gets k_log;
  if ((LOGSIZE <=? lg_n lg) || (lg_size lg - 1 <=? lg_n lg))%bool
  then panic "too big a transaction"
  else if lg_outstanding lg <? 1 then panic "log_write outside of trans"
  else
    acquire L_log ;;
    lg ← gets k_log;
    v ← get_buf b;
    let i := absorb_loop (lg_block lg) (b_blockno v) 0 (Z.to_nat (lg_n lg)) in
    upd_log (set_lg_block (<[i := s32 (b_blockno v)]> (lg_block lg))) ;;
    (if Z.of_nat i =? lg_n lg then upd_log (set_lg_n (lg_n lg + 1)) else mret tt) ;;
    upd_buf b (fun v => set_b_flags (fset (b_flags v) B_DIRTY) v) ;;
    release L_log.

(** ** Sequences of disk writes *)

Definition apply_writes (d : disk) (ws : list (Z * list Z)) : disk :=
  foldl (fun d w => dwrite d w.1 w.2) d ws.

Lemma dread_dwrite d n v m :
  dread (dwrite d n v) m = if decide (m = n) then v else dread d m.
Proof.
  unfold dread, dwrite. cbn. case_decide; subst.
  - by rewrite lookup_insert_eq.
  - by rewrite lookup_insert_ne.
Qed.

Lemma apply_writes_app d ws ws' : apply_writes d (ws ++ ws') = apply_writes (apply_writes d ws) ws'.
Proof. apply foldl_app. Qed.

Lemma dk_size_apply ws : forall d, dk_size (apply_writes d ws) = dk_size d.
Proof. induction ws as [|w ws IH]; intros d; [done|]. cbn. by rewrite IH. Qed.

Lemma dread_apply_notin ws : forall d m, m ∉ ws.*1 -> dread (apply_writes d ws) m = dread d m.
Proof.
  induction ws as [|[n v] ws IH]; intros d m Hm; [done|]. cbn in *.
  apply not_elem_of_cons in Hm as [H1 H2]. rewrite IH, dread_dwrite, decide_False by done. done.
Qed.

Lemma dread_apply_in ws : forall d m v,
  NoDup ws.*1 -> (m, v) ∈ ws -> dread (apply_writes d ws) m = v.
Proof.
  induction ws as [|[n w] ws IH]; intros d m v Hnd Hin; [by apply elem_of_nil in Hin|].
  cbn in *. apply NoDup_cons in Hnd as [Hn Hnd]. apply elem_of_cons in Hin as [[= -> ->]|Hin].
  - rewrite dread_apply_notin, dread_dwrite, decide_True by done. done.
  - by apply IH.
Qed.

(** Writing blocks does not depend on the disk except through its contents. *)
Lemma dread_apply_ext ws d d' m :
  dread d m = dread d' m -> dread (apply_writes d ws) m = dread (apply_writes d' ws) m.
Proof.
  revert d d'. induction ws as [|[n w] ws IH]; intros d d' E; [done|]. cbn. apply IH.
  rewrite !dread_dwrite. by case_decide.
Qed.

(** ** The header block *)

(** [hdr] is a header block that lists the blocks [bl]. *)
Definition head_is (hdr : list Z) (bl : list Z) : Prop :=
  length hdr = BSIZE /\ lh_n hdr = Z.of_nat (length bl) /\
  (forall i b, bl !! i = Some b -> lh_block hdr i = b).

Lemma s32_le4 x : - 2 ^ 31 <= x < 2 ^ 31 -> s32 (le_dec (le_enc 4 (u32 x))) = x.
Proof.
  intros Hx. pose proof (u32_range x). rewrite le_dec_enc by (cbn; lia).
  unfold s32, u32. rewrite Z.add_mod_idemp_l by lia.
  rewrite Z.mod_small by lia. lia.
Qed.

Lemma slice_enc4 data i v :
  (i + 4 <= length data)%nat -> slice (splice data i (le_enc 4 v)) i 4 = le_enc 4 v.
Proof. intros H. apply (slice_splice data i (le_enc 4 v)). by rewrite length_le_enc. Qed.

Lemma lh_n_set data v :
  length data = BSIZE -> - 2 ^ 31 <= v < 2 ^ 31 -> lh_n (set_lh_n v data) = v.
Proof.
  intros Hl Hv. unfold lh_n, set_lh_n.
  rewrite slice_enc4 by (rewrite Hl; unfold BSIZE; lia).
  by apply s32_le4.
Qed.

Lemma length_set_lh_block data i v :
  length data = BSIZE -> (i < 30)%nat -> length (set_lh_block i v data) = BSIZE.
Proof.
  intros Hl Hi. unfold set_lh_block. rewrite length_splice; [done|].
  rewrite length_le_enc, Hl. unfold BSIZE. lia.
Qed.

Lemma lh_n_set_block data i v :
  length data = BSIZE -> (i < 30)%nat -> lh_n (set_lh_block i v data) = lh_n data.
Proof.
  intros Hl Hi. unfold lh_n, set_lh_block. f_equal. f_equal.
  apply slice_splice_ne; rewrite length_le_enc, ?Hl; unfold BSIZE; lia.
Qed.

Lemma lh_block_set data i j v :
  length data = BSIZE -> (i < 30)%nat -> - 2 ^ 31 <= v < 2 ^ 31 ->
  lh_block (set_lh_block i v data) j = if decide (i = j) then v else lh_block data j.
Proof.
  intros Hl Hi Hv. unfold lh_block, set_lh_block. case_decide; subst.
  - rewrite slice_enc4 by (rewrite Hl; unfold BSIZE; lia).
    by apply s32_le4.
  - f_equal. f_equal. apply slice_splice_ne; rewrite length_le_enc, ?Hl; unfold BSIZE; lia.
Qed.

(** ** The geometry of the log and the in-memory header *)

(** The log occupies blocks [st .. st+sz-1] of a disk of [dsz] blocks; [bl]
    are distinct blocks outside it, few enough to be logged. *)
Record geom (st sz dsz : Z) (bl : list Z) : Prop := {
  ge_start : 0 <= st;
  ge_end : st + sz <= dsz;
  ge_dsz : dsz < 2 ^ 31;
  ge_nodup : NoDup bl;
  ge_home : forall b, b ∈ bl -> 0 <= b < dsz /\ (b < st \/ st + sz <= b);
  ge_room : Z.of_nat (length bl) < sz;
  ge_max : (length bl <= 30)%nat
}.

Record lg_ok (l : log) (st sz : Z) (bl : list Z) : Prop := {
  lo_dev : lg_dev l = 1;
  lo_start : lg_start l = st;
  lo_size : lg_size l = sz;
  lo_n : lg_n l = Z.of_nat (length bl);
  lo_block : forall i b, bl !! i = Some b -> lg_block l !! i = Some b;
  lo_len : length (lg_block l) = 30%nat
}.

Lemma u32_block x n : 0 <= x < n -> n < 2 ^ 31 -> u32 x = x.
Proof. intros. apply u32_small. lia. Qed.

(** ** write_log *)

Lemma write_log_one_cabs s D st sz bl t b :
  geom st sz (dk_size (k_disk s)) bl -> lg_ok (k_log s) st sz bl ->
  cabs s D ∅ -> (forall x, x ∈ D -> x ∈ bl) -> (size D < NBUF)%nat -> bl !! t = Some b -> b ∈ D ->
  exists s', write_log_one (Z.of_nat t) s = Ret tt s' /\ cframe s s' /\
    k_disk s' = dwrite (k_disk s) (st + 1 + Z.of_nat t) (view s b) /\ cabs s' D ∅ /\
    (forall m, m <> st + 1 + Z.of_nat t -> view s' m = view s m).
Proof.
  intros Hg Hlo Hc HD Hsz Ht HbD. pose proof (lookup_lt_Some _ _ _ Ht) as Htl.
  pose proof (ge_start _ _ _ _ Hg). pose proof (ge_end _ _ _ _ Hg). pose proof (ge_dsz _ _ _ _ Hg).
  pose proof (ge_room _ _ _ _ Hg).
  destruct (ge_home _ _ _ _ Hg b (list_elem_of_lookup_2 _ _ _ Ht)) as [Hb Hout].
  set (L := st + 1 + Z.of_nat t).
  assert (HLD : L ∉ D) by (intros (_ & Hx)%HD%(ge_home _ _ _ _ Hg); lia).
  unfold write_log_one. kgets. rewrite (lo_dev _ _ _ _ Hlo), (lo_start _ _ _ _ Hlo).
  replace (st + Z.of_nat t + 1) with L by lia.
  rewrite (u32_block L (dk_size (k_disk s))) by lia. change (u32 1) with 1.
  destruct (bread_cabs s D ∅ L Hc) as (to & s1 & R1 & F1 & D1 & C1 & O1 & V1 & _);
    [set_solver|lia|right; by rewrite union_empty_r_L|].
  kstep R1. kgets. rewrite (cframe_log _ _ F1), (lo_dev _ _ _ _ Hlo), Nat2Z.id.
  rewrite (lo_block _ _ _ _ Hlo _ _ Ht). cbn [deref]. rewrite ret_bind.
  rewrite (u32_block b (dk_size (k_disk s))) by lia. change (u32 1) with 1.
  destruct (bread_cabs s1 D _ b C1) as (fr & s2 & R2 & F2 & D2 & C2 & O2 & V2 & K2);
    [set_solver|rewrite D1; lia|by left|].
  kstep R2. pose proof (K2 _ _ _ _ O1) as O1'.
  destruct (owns_get _ _ _ _ _ O2) as (fb & G2 & Ev & _). kstep G2. rewrite Ev, (V1 b).
  assert (Hne : fr <> to).
  { intros ->. destruct O1' as (x & Hx & _ & [_ N1] & _), O2 as (y & Hy & _ & [_ N2] & _). assert (x = y) by congruence. subst. lia. }
  destruct (setdata_cabs s2 D _ to L _ (view s b) _ C2 O1' (view_len _ _ _ _ Hc)) as (s3 & R3 & F3 & D3 & C3 & O3 & V3 & K3).
  kstep R3. pose proof (K3 _ _ _ _ Hne O2) as O2'.
  destruct (bwrite_cabs s3 D _ to L _ _ C3 O3) as (s4 & R4 & F4 & D4 & C4 & O4 & V4 & K4);
    [rewrite D3, D2, D1; lia|].
  kstep R4. pose proof (K4 _ _ _ _ Hne O2') as O2''.
  destruct (brelse_cabs s4 _ _ fr b _ _ C4 O2'') as (s5 & R5 & F5 & D5 & C5 & V5 & K5).
  { intros E. apply bool_decide_eq_false in E. done. }
  kstep R5. pose proof (K5 _ _ _ _ (not_eq_sym Hne) O4) as O4'.
  destruct (brelse_cabs s5 _ _ to L _ _ C5 O4') as (s6 & R6 & F6 & D6 & C6 & V6 & K6).
  { intros _. by rewrite D5, D4, dread_dwrite, decide_True. }
  exists s6. split; [done|]. split; [by do 5 (etrans; [eassumption|])|].
  split; [by rewrite D6, D5, D4, D3, D2, D1|]. split.
  - eapply cabs_sets; [done|set_solver..].
  - intros m Hm. by rewrite V6, V5, V4, V3, decide_False, V2, V1.
Qed.

(** The writes of [write_log] and of [install_trans]. *)
Definition log_writes (st : Z) (V : Z -> list Z) (bl : list Z) : list (Z * list Z) :=
  imap (fun t b => (st + 1 + Z.of_nat t, V b)) bl.
Definition home_writes (X : nat -> list Z) (bl : list Z) : list (Z * list Z) :=
  imap (fun t b => (b, X t)) bl.

Lemma take_S_imap {A B} (f : nat -> A -> B) l t x :
  l !! t = Some x -> take (S t) (imap f l) = take t (imap f l) ++ [f t x].
Proof. intros H. apply take_S_r. by rewrite list_lookup_imap, H. Qed.

Lemma write_log_cabs s D st sz bl :
  geom st sz (dk_size (k_disk s)) bl -> lg_ok (k_log s) st sz bl ->
  cabs s D ∅ -> (forall x, x ∈ D <-> x ∈ bl) -> (size D < NBUF)%nat ->
  exists s', write_log s = Ret tt s' /\ cframe s s' /\
    k_disk s' = apply_writes (k_disk s) (log_writes st (view s) bl) /\ cabs s' D ∅ /\
    (forall m, ~ (st < m < st + sz) -> view s' m = view s m).
Proof.
  intros Hg Hlo Hc HD Hsz. unfold write_log. kgets. rewrite (lo_n _ _ _ _ Hlo), Nat2Z.id.
  pose proof (ge_room _ _ _ _ Hg).
  edestruct (for_loop_inv (fun i s' => cframe s s' /\
      k_disk s' = apply_writes (k_disk s) (take (Z.to_nat i) (log_writes st (view s) bl)) /\
      cabs s' D ∅ /\ (forall m, ~ (st < m < st + sz) -> view s' m = view s m)) write_log_one (length bl) 0 s)
    as (s' & Hrun & Hfr & Hd & Hc' & Hv).
  - split; [done|]. done.
  - intros j s1 Hj (F1 & D1 & C1 & V1).
    assert (Hjl : (Z.to_nat j < length bl)%nat) by lia.
    destruct (lookup_lt_is_Some_2 _ _ Hjl) as [b Hb]. pose proof (list_elem_of_lookup_2 _ _ _ Hb) as Hin.
    destruct (write_log_one_cabs s1 D st sz bl (Z.to_nat j) b) as (s2 & R2 & F2 & D2 & C2 & V2);
      rewrite ?(cframe_size _ _ F1), ?(cframe_log _ _ F1); try done; [apply HD|by apply HD|].
    rewrite Z2Nat.id in R2, D2, V2 by lia. exists s2. split; [done|]. split; [by etrans|].
    assert (Eb : view s1 b = view s b) by (apply V1; destruct (ge_home _ _ _ _ Hg b Hin); lia).
    split; [|split; [done|]].
    + rewrite D2, D1, Eb. replace (Z.to_nat (j + 1)) with (S (Z.to_nat j)) by lia.
      unfold log_writes. rewrite (take_S_imap _ _ _ _ Hb), apply_writes_app. rewrite Z2Nat.id by lia. done.
    + intros m Hm. rewrite V2 by lia. by apply V1.
  - exists s'. split; [done|]. split; [done|]. split; [|done]. rewrite Hd.
    rewrite take_ge; [done|]. unfold log_writes. rewrite length_imap. lia.
Qed.

(** ** install_trans *)

Lemma install_one_cabs s D st sz bl t b :
  geom st sz (dk_size (k_disk s)) bl -> lg_ok (k_log s) st sz bl ->
  cabs s D ∅ -> (forall x, x ∈ D -> x ∈ bl) -> (size D < NBUF)%nat -> bl !! t = Some b ->
  b ∈ D \/ (size D < pred NBUF)%nat ->
  exists s', install_one (Z.of_nat t) s = Ret tt s' /\ cframe s s' /\
    k_disk s' = dwrite (k_disk s) b (view s (st + 1 + Z.of_nat t)) /\ cabs s' (D ∖ {[b]}) ∅ /\
    (forall m, m <> b -> view s' m = view s m).
Proof.
  intros Hg Hlo Hc HD Hsz Ht HbD. pose proof (lookup_lt_Some _ _ _ Ht) as Htl.
  pose proof (ge_start _ _ _ _ Hg). pose proof (ge_end _ _ _ _ Hg). pose proof (ge_dsz _ _ _ _ Hg).
  pose proof (ge_room _ _ _ _ Hg).
  destruct (ge_home _ _ _ _ Hg b (list_elem_of_lookup_2 _ _ _ Ht)) as [Hb Hout].
  set (L := st + 1 + Z.of_nat t).
  assert (HLD : L ∉ D) by (intros (_ & Hx)%HD%(ge_home _ _ _ _ Hg); lia).
  unfold install_one. kgets. rewrite (lo_dev _ _ _ _ Hlo), (lo_start _ _ _ _ Hlo).
  replace (st + Z.of_nat t + 1) with L by lia.
  rewrite (u32_block L (dk_size (k_disk s))) by lia. change (u32 1) with 1.
  destruct (bread_cabs s D ∅ L Hc) as (lb & s1 & R1 & F1 & D1 & C1 & O1 & V1 & _);
    [set_solver|lia|right; by rewrite union_empty_r_L|].
  kstep R1. kgets. rewrite (cframe_log _ _ F1), (lo_dev _ _ _ _ Hlo), Nat2Z.id.
  rewrite (lo_block _ _ _ _ Hlo _ _ Ht). cbn [deref]. rewrite ret_bind.
  rewrite (u32_block b (dk_size (k_disk s))) by lia. change (u32 1) with 1.
  destruct (bread_cabs s1 D _ b C1) as (db & s2 & R2 & F2 & D2 & C2 & O2 & V2 & K2).
  { rewrite union_empty_r_L, elem_of_singleton. lia. } { rewrite D1; lia. }
  { destruct HbD as [?|Hsz2]; [by left|right].
    rewrite union_empty_r_L, size_union, size_singleton by set_solver. unfold NBUF in *. lia. }
  kstep R2. pose proof (K2 _ _ _ _ O1) as O1'.
  destruct (owns_get _ _ _ _ _ O1') as (fb & G2 & Ev & _). kstep G2. rewrite Ev.
  assert (Hne : lb <> db).
  { intros ->. destruct O1' as (x & Hx & _ & [_ N1] & _), O2 as (y & Hy & _ & [_ N2] & _).
    assert (x = y) by congruence. subst. lia. }
  destruct (setdata_cabs s2 D _ db b _ (view s L) _ C2 O2 (view_len _ _ _ _ Hc)) as (s3 & R3 & F3 & D3 & C3 & O3 & V3 & K3).
  kstep R3. pose proof (K3 _ _ _ _ Hne O1') as O1''.
  destruct (bwrite_cabs s3 D _ db b _ _ C3 O3) as (s4 & R4 & F4 & D4 & C4 & O4 & V4 & K4);
    [rewrite D3, D2, D1; lia|].
  kstep R4. pose proof (K4 _ _ _ _ Hne O1'') as O1'''.
  destruct (brelse_cabs s4 _ _ lb L _ _ C4 O1''') as (s5 & R5 & F5 & D5 & C5 & V5 & K5).
  { intros _. rewrite D4, dread_dwrite, decide_False by lia. rewrite D3, D2, D1.
    apply (cabs_clean s D ∅); [done|done|set_solver]. }
  kstep R5. pose proof (K5 _ _ _ _ (not_eq_sym Hne) O4) as O4'.
  destruct (brelse_cabs s5 _ _ db b _ _ C5 O4') as (s6 & R6 & F6 & D6 & C6 & V6 & K6).
  { intros _. by rewrite D5, D4, dread_dwrite, decide_True. }
  exists s6. split; [done|]. split; [by do 5 (etrans; [eassumption|])|].
  split; [by rewrite D6, D5, D4, D3, D2, D1|]. split.
  - eapply cabs_sets; [done|set_solver..].
  - intros m Hm. by rewrite V6, V5, V4, V3, decide_False, V2, V1.
Qed.

(** Either every logged block is still dirty in the cache (commit), or the
    cache is clean (recovery). *)
Definition pinned_or_clean (D : gset Z) (bl : list Z) : Prop :=
  (D = list_to_set bl /\ (length bl < NBUF)%nat) \/ D = ∅.

Lemma pinned_sizes D bl t b :
  pinned_or_clean D bl -> NoDup bl -> bl !! t = Some b ->
  let D' := D ∖ list_to_set (take t bl) in
  (forall x, x ∈ D' -> x ∈ bl) /\ (size D' < NBUF)%nat /\ (b ∈ D' \/ (size D' < pred NBUF)%nat).
Proof.
  intros [[-> Hlt]| ->] Hnd Ht; cbn zeta.
  - assert (Hs : (size (list_to_set bl ∖ list_to_set (take t bl) : gset Z) <= length bl)%nat).
    { etrans; [apply subseteq_size, subseteq_difference_l; reflexivity|]. by rewrite size_list_to_set. }
    split; [intros x; rewrite elem_of_difference, !elem_of_list_to_set; tauto|]. split; [lia|]. left.
    rewrite elem_of_difference, !elem_of_list_to_set. split; [by eapply list_elem_of_lookup_2|].
    intros (u & Hu)%list_elem_of_lookup. apply lookup_take_Some in Hu as [Hu Hlt2].
    assert (t = u) by (by eapply NoDup_lookup). lia.
  - assert (∅ ∖ list_to_set (take t bl) = (∅ : gset Z)) as -> by set_solver. rewrite size_empty. unfold NBUF. split; [set_solver|]. split; [lia|]. right. cbn. lia.
Qed.

Lemma install_trans_cabs s D st sz bl :
  geom st sz (dk_size (k_disk s)) bl -> lg_ok (k_log s) st sz bl ->
  cabs s D ∅ -> pinned_or_clean D bl ->
  exists s', install_trans s = Ret tt s' /\ cframe s s' /\
    k_disk s' = apply_writes (k_disk s) (home_writes (fun t => view s (st + 1 + Z.of_nat t)) bl) /\
    cabs s' ∅ ∅ /\ (forall m, m ∉ bl -> view s' m = view s m).
Proof.
  intros Hg Hlo Hc HD. unfold install_trans. kgets. rewrite (lo_n _ _ _ _ Hlo), Nat2Z.id.
  pose proof (ge_room _ _ _ _ Hg). set (X := fun t => view s (st + 1 + Z.of_nat t)).
  edestruct (for_loop_inv (fun i s' => cframe s s' /\
      k_disk s' = apply_writes (k_disk s) (take (Z.to_nat i) (home_writes X bl)) /\
      cabs s' (D ∖ list_to_set (take (Z.to_nat i) bl)) ∅ /\ (forall m, m ∉ bl -> view s' m = view s m))
    install_one (length bl) 0 s) as (s' & Hrun & Hfr & Hd & Hc' & Hv).
  - split; [done|]. split; [done|]. split; [|done]. eapply cabs_sets; [done| |done]. set_solver.
  - intros j s1 Hj (F1 & D1 & C1 & V1).
    assert (Hjl : (Z.to_nat j < length bl)%nat) by lia.
    destruct (lookup_lt_is_Some_2 _ _ Hjl) as [b Hb]. pose proof (list_elem_of_lookup_2 _ _ _ Hb) as Hin.
    destruct (pinned_sizes D bl _ b HD (ge_nodup _ _ _ _ Hg) Hb) as (P1 & P2 & P3).
    edestruct (install_one_cabs s1 (D ∖ list_to_set (take (Z.to_nat j) bl)) st sz bl (Z.to_nat j) b)
      as (s2 & R2 & F2 & D2 & C2 & V2);
      rewrite ?(cframe_size _ _ F1), ?(cframe_log _ _ F1); try done.
    rewrite Z2Nat.id in R2, D2 by lia. exists s2. split; [done|]. split; [by etrans|].
    assert (Eb : view s1 (st + 1 + j) = X (Z.to_nat j)).
    { unfold X. rewrite Z2Nat.id by lia. apply V1. intros [_ Hx]%(ge_home _ _ _ _ Hg). lia. }
    replace (Z.to_nat (j + 1)) with (S (Z.to_nat j)) by lia. split; [|split].
    + rewrite D2, D1, Eb. unfold home_writes. by rewrite (take_S_imap _ _ _ _ Hb), apply_writes_app.
    + eapply cabs_sets; [done| |done]. rewrite (take_S_r _ _ _ Hb), list_to_set_app_L. set_solver.
    + intros m Hm. rewrite V2; [by apply V1|]. by intros ->.
  - exists s'. split; [done|]. split; [done|]. rewrite Hd. replace (0 + _) with (Z.of_nat (length bl)) in * by lia.
    rewrite Nat2Z.id in *. unfold home_writes at 1. rewrite take_ge by (by rewrite length_imap).
    split; [done|]. split; [|done]. eapply cabs_sets; [done| |done]. rewrite take_ge by lia.
    destruct HD as [[-> _]| ->]; set_solver.
Qed.

(** ** write_head and read_head *)

(** The first [k] entries of [bl] are in the header [hdr]. *)
Definition head_upto (k : nat) (hdr bl : list Z) : Prop :=
  length hdr = BSIZE /\ lh_n hdr = Z.of_nat (length bl) /\
  (forall i b, (i < k)%nat -> bl !! i = Some b -> lh_block hdr i = b).

Lemma head_upto_set k hdr bl b :
  head_upto k hdr bl -> bl !! k = Some b -> (length bl <= 30)%nat -> - 2 ^ 31 <= b < 2 ^ 31 ->
  head_upto (S k) (set_lh_block k b hdr) bl.
Proof.
  intros (Hl & Hn & Hb) Hk Hmax Hr. pose proof (lookup_lt_Some _ _ _ Hk). split; [|split].
  - apply length_set_lh_block; [done|lia].
  - by rewrite lh_n_set_block by (done || lia).
  - intros i c Hi Hc. rewrite lh_block_set by (done || lia). case_decide; [congruence|].
    apply Hb; [lia|done].
Qed.

Lemma write_head_cabs s D st sz bl :
  geom st sz (dk_size (k_disk s)) bl -> lg_ok (k_log s) st sz bl ->
  cabs s D ∅ -> (forall x, x ∈ D -> x ∈ bl) -> (size D < NBUF)%nat ->
  exists s' hdr, write_head s = Ret tt s' /\ cframe s s' /\ head_is hdr bl /\
    k_disk s' = dwrite (k_disk s) st hdr /\ cabs s' D ∅ /\
    (forall m, m <> st -> view s' m = view s m).
Proof.
  intros Hg Hlo Hc HD Hsz.
  pose proof (ge_start _ _ _ _ Hg). pose proof (ge_end _ _ _ _ Hg). pose proof (ge_dsz _ _ _ _ Hg).
  pose proof (ge_room _ _ _ _ Hg). pose proof (ge_max _ _ _ _ Hg) as Hmax.
  assert (HstD : st ∉ D) by (intros (_ & Hx)%HD%(ge_home _ _ _ _ Hg); lia).
  unfold write_head. kgets. rewrite (lo_dev _ _ _ _ Hlo), (lo_start _ _ _ _ Hlo), (lo_n _ _ _ _ Hlo).
  rewrite (u32_block st (dk_size (k_disk s))) by lia. change (u32 1) with 1.
  destruct (bread_cabs s D ∅ st Hc) as (hb & s1 & R1 & F1 & D1 & C1 & O1 & V1 & _);
    [set_solver|lia|right; by rewrite union_empty_r_L|].
  kstep R1. rewrite (bool_decide_eq_false_2 _ HstD) in O1.
  assert (Hl0 : length (set_lh_n (Z.of_nat (length bl)) (view s st)) = BSIZE).
  { unfold set_lh_n. rewrite length_splice; rewrite (view_len _ _ _ _ Hc); [done|].
    rewrite length_le_enc. unfold BSIZE. lia. }
  destruct (setdata_cabs s1 D _ hb st _ _ _ C1 O1 Hl0) as (s2 & R2 & F2 & D2 & C2 & O2 & V2 & K2).
  rewrite (bind_Ret _ _ _ tt s2) by (by rewrite (owns_upd_data _ _ _ _ _ _ O1)).
  rewrite Nat2Z.id.
  edestruct (for_loop_inv (fun i s' => exists v, cframe s s' /\ k_disk s' = k_disk s /\
      cabs s' D ({[st]} ∪ ∅) /\ owns s' hb st v false /\ head_upto (Z.to_nat i) v bl /\
      (forall m, m <> st -> view s' m = view s m))
    (fun i => blk ← deref (lg_block (k_log s) !! Z.to_nat i);
       upd_buf hb (fun b => set_b_data (set_lh_block (Z.to_nat i) blk (b_data b)) b)) (length bl) 0 s2)
    as (s3 & R3 & v & F3 & D3 & C3 & O3 & H3 & V3).
  - eexists. split; [by etrans|]. split; [congruence|]. split; [done|]. split; [done|]. split.
    + split; [done|]. split; [|cbn; lia]. apply lh_n_set; [apply (view_len _ _ _ _ Hc)|lia].
    + intros m Hm. by rewrite V2, decide_False, V1.
  - intros j s3 Hj (v & F3 & D3 & C3 & O3 & H3 & V3).
    destruct (lookup_lt_is_Some_2 bl (Z.to_nat j)) as [b Hb]; [lia|].
    pose proof (ge_home _ _ _ _ Hg b (list_elem_of_lookup_2 _ _ _ Hb)) as [Hbr _].
    rewrite (lo_block _ _ _ _ Hlo _ _ Hb). cbn [deref]. rewrite ret_bind.
    rewrite (owns_upd_data _ _ _ _ _ (set_lh_block (Z.to_nat j) b) O3).
    pose proof (head_upto_set _ _ _ b H3 Hb Hmax ltac:(lia)) as H4.
    destruct (setdata_cabs s3 D _ hb st _ _ _ C3 O3 (proj1 H4)) as (s4 & R4 & F4 & D4 & C4 & O4 & V4 & K4).
    exists s4. split; [done|]. exists (set_lh_block (Z.to_nat j) b v). split; [by etrans|].
    split; [congruence|]. split; [done|]. split; [done|].
    replace (Z.to_nat (j + 1)) with (S (Z.to_nat j)) by lia. split; [done|].
    intros m Hm. by rewrite V4, decide_False, V3.
  - kstep R3. replace (Z.to_nat _) with (length bl) in H3 by lia.
    destruct (bwrite_cabs s3 D _ hb st _ _ C3 O3) as (s4 & R4 & F4 & D4 & C4 & O4 & V4 & K4); [rewrite D3; lia|].
    kstep R4.
    destruct (brelse_cabs s4 _ _ hb st _ _ C4 O4) as (s5 & R5 & F5 & D5 & C5 & V5 & K5).
    { intros _. by rewrite D4, dread_dwrite, decide_True. }
    exists s5, v. split; [done|]. split; [by do 2 (etrans; [eassumption|])|]. split.
    { destruct H3 as (? & ? & Hb3). split; [done|]. split; [done|]. intros i b Hi. apply Hb3; [|done].
      by eapply lookup_lt_Some. }
    split; [by rewrite D5, D4, D3|]. split; [eapply cabs_sets; [done|set_solver..]|].
    intros m Hm. by rewrite V5, V4, V3.
Qed.

(** The in-memory header after reading [k] entries. *)
Definition lg_upto (l : log) (st sz : Z) (bl : list Z) (k : nat) : Prop :=
  lg_dev l = 1 /\ lg_start l = st /\ lg_size l = sz /\ lg_n l = Z.of_nat (length bl) /\
  length (lg_block l) = 30%nat /\ (forall i b, (i < k)%nat -> bl !! i = Some b -> lg_block l !! i = Some b).

Lemma cframe_set_log s s' l : cframe s s' -> cframe (set_k_log l s) (set_k_log l s').
Proof. intros (E & H). split; [|done]. rewrite E. by destruct s'. Qed.

Lemma cabs_set_log s D U l : cabs s D U -> cabs (set_k_log l s) D U.
Proof. by intros []. Qed.

Lemma owns_set_log s l i n v dt : owns s i n v dt -> owns (set_k_log l s) i n v dt.
Proof. done. Qed.

Lemma read_head_loop hdr bl st sz : forall s,
  head_is hdr bl -> (length bl <= 30)%nat -> lg_upto (k_log s) st sz bl 0 ->
  exists l, for_loop (length bl) 0 (read_head_one hdr) s = Ret tt (set_k_log l s) /\ lg_ok l st sz bl.
Proof.
  intros s Hh Hmax H0.
  edestruct (for_loop_inv (fun i s' => s' = set_k_log (k_log s') s /\
     lg_upto (k_log s') st sz bl (Z.to_nat i)) (read_head_one hdr) (length bl) 0 s) as (s' & Hrun & Es & Hl).
  - split; [by destruct s|exact H0].
  - intros j s1 Hj (E1 & Hd & Hst & Hsz & Hn & Hlen & Hbl).
    unfold read_head_one. kgets.
    unfold LOGSIZE, MAXOPBLOCKS. rewrite (proj2 (Z.ltb_lt _ _)) by lia.
    eexists. split; [reflexivity|]. unfold lg_upto. ksimp. split; [rewrite E1; by destruct s1|].
    destruct (lookup_lt_is_Some_2 bl (Z.to_nat j)) as [b Hb]; [lia|].
    split; [done|]. split; [done|]. split; [done|]. split; [done|].
    split; [by rewrite length_insert|]. intros i c Hi Hc.
    destruct (decide (i = Z.to_nat j)) as [->|Hne].
    + rewrite list_lookup_insert_eq by lia. destruct Hh as (_ & _ & Hh). by rewrite (Hh _ _ Hc).
    + rewrite list_lookup_insert_ne by done. apply Hbl; [lia|done].
  - exists (k_log s'). rewrite <- Es. split; [exact Hrun|].
    destruct Hl as (Hd & Hst & Hsz & Hn & Hlen & Hbl). split; try done.
    intros i b Hi. apply Hbl; [|done]. apply lookup_lt_Some in Hi. lia.
Qed.

Lemma read_head_cabs s st sz bl :
  geom st sz (dk_size (k_disk s)) bl -> cabs s ∅ ∅ -> head_is (dread (k_disk s) st) bl ->
  lg_dev (k_log s) = 1 -> lg_start (k_log s) = st -> lg_size (k_log s) = sz ->
  length (lg_block (k_log s)) = 30%nat ->
  exists l s1, read_head s = Ret tt (set_k_log l s1) /\ cframe s s1 /\ k_disk s1 = k_disk s /\
    cabs s1 ∅ ∅ /\ lg_ok l st sz bl.
Proof.
  intros Hg Hc Hh Hd Hst Hsz Hlen.
  pose proof (ge_start _ _ _ _ Hg). pose proof (ge_end _ _ _ _ Hg). pose proof (ge_dsz _ _ _ _ Hg).
  pose proof (ge_room _ _ _ _ Hg).
  unfold read_head. kgets. rewrite Hd, Hst, (u32_block st (dk_size (k_disk s))) by lia. change (u32 1) with 1.
  destruct (bread_cabs s ∅ ∅ st Hc) as (hb & s1 & R1 & F1 & D1 & C1 & O1 & V1 & _);
    [set_solver|lia|right; vm_compute; lia|].
  kstep R1. destruct (owns_get _ _ _ _ _ O1) as (b & G1 & Ev & _). kstep G1.
  rewrite (cabs_clean s ∅ ∅ st Hc) in O1, Ev by set_solver. rewrite Ev.
  rewrite bind_run. unfold upd_log at 1. ksimp. rewrite (proj1 (proj2 Hh)), Nat2Z.id.
  set (l1 := set_lg_n _ (k_log s1)).
  destruct (read_head_loop (dread (k_disk s) st) bl st sz (set_k_log l1 s1) Hh (ge_max _ _ _ _ Hg))
    as (l & Hrun & Hlo).
  { subst l1. ksimp. rewrite (cframe_log _ _ F1). split; [done|]. split; [done|]. split; [done|].
    split; [done|]. split; [done|]. lia. }
  subst l1. rewrite (bind_Ret _ _ _ _ _ Hrun).
  set (s2 := set_k_log l _). assert (E2 : s2 = set_k_log l s1) by (by destruct s1).
  rewrite E2.
  destruct (brelse_cabs (set_k_log l s1) _ _ hb st _ _ (cabs_set_log _ _ _ l C1) (owns_set_log _ l _ _ _ _ O1))
    as (s3 & R3 & F3 & D3 & C3 & V3 & K3).
  { intros _. ksimp. by rewrite D1. }
  exists l, (set_k_log (k_log s) s3). pose proof (cframe_log _ _ F3) as E3. ksimp in E3.
  assert (Es3 : set_k_log l (set_k_log (k_log s) s3) = s3) by (rewrite <- E3; by destruct s3).
  rewrite Es3. split; [done|]. split.
  { etrans; [exact F1|]. apply (cframe_set_log _ _ (k_log s)) in F3.
    replace (set_k_log (k_log s) (set_k_log l s1)) with s1 in F3; [done|].
    rewrite <- (cframe_log _ _ F1). by destruct s1. }
  split; [ksimp; rewrite D3; ksimp; done|]. split; [|done]. apply cabs_set_log.
  eapply cabs_sets; [done|set_solver..].
Qed.

(** ** commit *)

Definition commit_writes (st : Z) (V : Z -> list Z) (bl hdr hdr0 : list Z) : list (Z * list Z) :=
  log_writes st V bl ++ [(st, hdr)] ++ ((fun b => (b, V b)) <$> bl) ++ [(st, hdr0)].

(** The state in which [end_op] calls [commit]: the blocks of the in-memory
    header are exactly the dirty ones, nothing is in use. *)
Record commit_ready (s : kstate) (st sz : Z) (bl : list Z) : Prop := {
  cr_geom : geom st sz (dk_size (k_disk s)) bl;
  cr_log : lg_ok (k_log s) st sz bl;
  cr_cache : cabs s (list_to_set bl) ∅;
  cr_nbuf : (length bl < NBUF)%nat
}.

Lemma dk_writes_apply ws : forall d, dk_writes (apply_writes d ws) = dk_writes d ++ ws.
Proof.
  induction ws as [|[n v] ws IH]; intros d; cbn; [by rewrite app_nil_r|].
  rewrite IH. cbn. by rewrite <- app_assoc.
Qed.

Lemma log_writes_keys st V bl m : m ∈ (log_writes st V bl).*1 -> st < m <= st + Z.of_nat (length bl).
Proof.
  unfold log_writes. intros (t & Ht)%list_elem_of_lookup. rewrite list_lookup_fmap, list_lookup_imap in Ht.
  destruct (bl !! t) eqn:E; [|done]. cbn in Ht. injection Ht as <-. apply lookup_lt_Some in E. lia.
Qed.

Lemma log_writes_nodup st V bl : NoDup (log_writes st V bl).*1.
Proof.
  apply NoDup_alt. intros i j m Hi Hj. unfold log_writes in *.
  rewrite list_lookup_fmap, list_lookup_imap in Hi, Hj.
  destruct (bl !! i), (bl !! j); try done. cbn in *. injection Hi. injection Hj. lia.
Qed.

Lemma dread_log_writes d st V bl t b :
  bl !! t = Some b -> dread (apply_writes d (log_writes st V bl)) (st + 1 + Z.of_nat t) = V b.
Proof.
  intros Ht. apply dread_apply_in; [apply log_writes_nodup|].
  apply (list_elem_of_lookup_2 _ t). unfold log_writes. by rewrite list_lookup_imap, Ht.
Qed.

Lemma home_writes_eq X V bl :
  (forall t b, bl !! t = Some b -> X t = V b) -> home_writes X bl = (fun b => (b, V b)) <$> bl.
Proof.
  intros H. apply list_eq. intros t. unfold home_writes. rewrite list_lookup_imap, list_lookup_fmap.
  destruct (bl !! t) eqn:E; [|done]. cbn. by rewrite (H _ _ E).
Qed.

Lemma home_keys (V : Z -> list Z) bl : ((fun b => (b, V b)) <$> bl).*1 = bl.
Proof. rewrite <- list_fmap_compose. apply list_fmap_id. Qed.

Lemma dread_home_in d V bl m :
  NoDup bl -> m ∈ bl -> dread (apply_writes d ((fun b => (b, V b)) <$> bl)) m = V m.
Proof.
  intros Hnd Hm. apply dread_apply_in; [by rewrite home_keys|].
  apply list_elem_of_fmap. eauto.
Qed.

Lemma list_to_set_size bl : NoDup bl -> size (list_to_set bl : gset Z) = length bl.
Proof. apply size_list_to_set. Qed.

Lemma geom_nil st sz dsz bl : geom st sz dsz bl -> geom st sz dsz [].
Proof.
  intros []. split; try done; [constructor|intros b H; by apply elem_of_nil in H|cbn; lia|cbn; lia].
Qed.

(** [log.lh.n = 0; write_head()] *)
Lemma clear_head_cabs s st sz bl :
  geom st sz (dk_size (k_disk s)) bl -> lg_ok (k_log s) st sz bl -> cabs s ∅ ∅ ->
  exists s' hdr0, (upd_log (set_lg_n 0) ;; write_head) s = Ret tt s' /\
    cframe (set_k_log (set_lg_n 0 (k_log s)) s) s' /\ head_is hdr0 [] /\
    k_disk s' = dwrite (k_disk s) st hdr0 /\ cabs s' ∅ ∅ /\ lg_ok (k_log s') st sz [] /\
    (forall m, m <> st -> view s' m = view s m).
Proof.
  intros Hg Hlo Hc. rewrite bind_run. unfold upd_log, modify.
  assert (Hlo0 : lg_ok (set_lg_n 0 (k_log s)) st sz []).
  { destruct Hlo. split; try done. }
  destruct (write_head_cabs (set_k_log (set_lg_n 0 (k_log s)) s) ∅ st sz [])
    as (s' & hdr & R & F & H & D & C & V); [by eapply geom_nil|done|by apply cabs_set_log|set_solver|vm_compute; lia|].
  exists s', hdr. split; [done|]. split; [done|]. split; [done|]. split; [done|]. split; [done|].
  split; [by rewrite (cframe_log _ _ F)|done].
Qed.

Lemma commit_cabs s st sz bl :
  commit_ready s st sz bl -> bl <> [] ->
  exists s' hdr hdr0, commit s = Ret tt s' /\ head_is hdr bl /\ head_is hdr0 [] /\
    cframe (set_k_log (set_lg_n 0 (k_log s)) s) s' /\
    k_disk s' = apply_writes (k_disk s) (commit_writes st (view s) bl hdr hdr0) /\
    cabs s' ∅ ∅ /\ lg_ok (k_log s') st sz [] /\
    (forall m, ~ (st <= m < st + sz) -> view s' m = view s m).
Proof.
  intros [Hg Hlo Hc Hnb] Hne. pose proof (ge_nodup _ _ _ _ Hg) as Hnd. pose proof (ge_room _ _ _ _ Hg) as Hroom.
  unfold commit. kgets. rewrite (lo_n _ _ _ _ Hlo).
  rewrite (proj2 (Z.ltb_lt _ _)) by (destruct bl; [done|cbn; lia]).
  destruct (write_log_cabs s (list_to_set bl) st sz bl) as (s1 & R1 & F1 & D1 & C1 & V1); try done;
    [intros x; apply elem_of_list_to_set|by rewrite list_to_set_size|].
  kstep R1.
  destruct (write_head_cabs s1 (list_to_set bl) st sz bl) as (s2 & hdr & R2 & F2 & H2 & D2 & C2 & V2);
    rewrite ?(cframe_size _ _ F1), ?(cframe_log _ _ F1); try done;
    [intros x; by rewrite elem_of_list_to_set|by rewrite list_to_set_size|].
  kstep R2.
  destruct (install_trans_cabs s2 (list_to_set bl) st sz bl) as (s3 & R3 & F3 & D3 & C3 & V3);
    rewrite ?(cframe_size _ _ F2), ?(cframe_log _ _ F2), ?(cframe_size _ _ F1), ?(cframe_log _ _ F1); try done;
    [by left|].
  kstep R3. assert (F13 : cframe s s3) by (by do 2 (etrans; [eassumption|])).
  destruct (clear_head_cabs s3 st sz bl) as (s4 & hdr0 & R4 & F4 & H4 & D4 & C4 & L4 & V4);
    rewrite ?(cframe_size _ _ F13), ?(cframe_log _ _ F13); try done.
  rewrite (home_writes_eq _ (view s)) in D3.
  2:{ intros t b Ht. pose proof (lookup_lt_Some _ _ _ Ht).
      rewrite (cabs_clean s2 _ _ _ C2);
        [|rewrite elem_of_list_to_set; intros [_ Hx]%(ge_home _ _ _ _ Hg); lia|apply not_elem_of_empty].
      rewrite D2, dread_dwrite, decide_False, D1 by lia. by apply dread_log_writes. }
  exists s4, hdr, hdr0. split; [done|]. split; [done|]. split; [done|].
  split; [etrans; [|exact F4]; rewrite (cframe_log _ _ F13); by apply cframe_set_log|].
  split; [unfold commit_writes; rewrite !apply_writes_app; by rewrite D4, D3, D2, D1|].
  split; [done|]. split; [done|]. intros m Hm. rewrite V4 by (intros ->; lia).
  destruct (decide (m ∈ bl)) as [Hin|Hout].
  - rewrite (cabs_clean s3 ∅ ∅ m C3), D3 by apply not_elem_of_empty. by apply dread_home_in.
  - rewrite V3, V2, V1; [done| |intros ->|done]; lia.
Qed.

(** ** Recovery *)

Definition recover_writes (st : Z) (d : disk) (bl hdr0 : list Z) : list (Z * list Z) :=
  home_writes (fun t => dread d (st + 1 + Z.of_nat t)) bl ++ [(st, hdr0)].

Lemma recover_cabs s st sz bl :
  geom st sz (dk_size (k_disk s)) bl -> cabs s ∅ ∅ -> head_is (dread (k_disk s) st) bl ->
  lg_dev (k_log s) = 1 -> lg_start (k_log s) = st -> lg_size (k_log s) = sz ->
  length (lg_block (k_log s)) = 30%nat ->
  exists s' hdr0, recover_from_log s = Ret tt s' /\ head_is hdr0 [] /\
    k_disk s' = apply_writes (k_disk s) (recover_writes st (k_disk s) bl hdr0) /\
    cabs s' ∅ ∅ /\ lg_ok (k_log s') st sz [].
Proof.
  intros Hg Hc Hh Hd Hst Hsz Hlen. unfold recover_from_log.
  destruct (read_head_cabs s st sz bl Hg Hc Hh Hd Hst Hsz Hlen) as (l & s1 & R1 & F1 & D1 & C1 & L1).
  kstep R1. apply (cabs_set_log _ _ _ l) in C1.
  destruct (install_trans_cabs (set_k_log l s1) ∅ st sz bl) as (s2 & R2 & F2 & D2 & C2 & V2);
    [ksimp; by rewrite D1|done|done|by right|].
  kstep R2.
  destruct (clear_head_cabs s2 st sz bl) as (s3 & hdr0 & R3 & F3 & H3 & D3 & C3 & L3 & V3);
    [rewrite (cframe_size _ _ F2); ksimp; by rewrite D1|by rewrite (cframe_log _ _ F2)|done|].
  exists s3, hdr0. split; [done|]. split; [done|]. split; [|done].
  unfold recover_writes. rewrite apply_writes_app, D3, D2. ksimp. rewrite D1.
  cbn [apply_writes foldl fst snd]. f_equal. f_equal. unfold home_writes.
  apply imap_ext. intros t b Ht. f_equal.
  rewrite (cabs_clean (set_k_log l s1) ∅ ∅) by (done || apply not_elem_of_empty). ksimp. by rewrite D1.
Qed.

(** A kernel that has just booted on disk [d]: clean caches, a super block
    that places the log. *)
Record boots (r : kstate) (d : disk) : Prop := {
  bt_disk : k_disk r = d;
  bt_cache : cabs r ∅ ∅;
  bt_log : length (lg_block (k_log r)) = 30%nat
}.

Definition sb_places (d : disk) (st sz : Z) : Prop :=
  sb_logstart (sb_of (dread d 1)) = st /\ sb_nlog (sb_of (dread d 1)) = sz /\ 1 < st.

Lemma readsb_cabs s :
  cabs s ∅ ∅ -> 1 < dk_size (k_disk s) ->
  exists s', readsb 1 s = Ret (sb_of (dread (k_disk s) 1)) s' /\ cframe s s' /\
    k_disk s' = k_disk s /\ cabs s' ∅ ∅.
Proof.
  intros Hc Hsz. unfold readsb. change (u32 1) with 1.
  destruct (bread_cabs s ∅ ∅ 1 Hc) as (bp & s1 & R1 & F1 & D1 & C1 & O1 & V1 & _);
    [apply not_elem_of_empty|done|right; vm_compute; lia|].
  kstep R1. destruct (owns_get _ _ _ _ _ O1) as (b & G1 & Ev & _). kstep G1.
  rewrite (cabs_clean s ∅ ∅ 1 Hc) in O1, Ev by apply not_elem_of_empty. rewrite Ev. cbn zeta.
  destruct (brelse_cabs s1 _ _ bp 1 _ _ C1 O1) as (s2 & R2 & F2 & D2 & C2 & V2 & K2).
  { intros _. by rewrite D1. }
  kstep R2. exists s2. split; [done|]. split; [by etrans|]. split; [congruence|].
  eapply cabs_sets; [done|done|set_solver].
Qed.

Lemma initlog_cabs r d st sz bl :
  boots r d -> sb_places d st sz -> geom st sz (dk_size d) bl -> head_is (dread d st) bl ->
  exists r' hdr0, initlog 1 r = Ret tt r' /\ head_is hdr0 [] /\
    k_disk r' = apply_writes d (recover_writes st d bl hdr0) /\
    cabs r' ∅ ∅ /\ lg_ok (k_log r') st sz [].
Proof.
  intros [<- Hc Hlen] (Est & Esz & Hst1) Hg Hh.
  pose proof (ge_start _ _ _ _ Hg). pose proof (ge_end _ _ _ _ Hg). pose proof (ge_dsz _ _ _ _ Hg).
  pose proof (ge_room _ _ _ _ Hg).
  unfold initlog. destruct (Z.of_nat BSIZE <=? sizeof_logheader) eqn:E; [done|clear E].
  destruct (readsb_cabs r Hc ltac:(lia)) as (r1 & R1 & F1 & D1 & C1). kstep R1.
  rewrite Est, Esz, !s32_small by lia.
  do 3 (rewrite bind_run; unfold upd_log at 1, modify; ksimp).
  set (r2 := set_k_log _ _).
  assert (E2 : r2 = set_k_log (mkLog st sz (lg_outstanding (k_log r1)) (lg_committing (k_log r1)) 1
                      (lg_n (k_log r1)) (lg_block (k_log r1))) r1) by (by subst r2; destruct r1).
  destruct (recover_cabs r2 st sz bl) as (r3 & hdr0 & R3 & H3 & D3 & C3 & L3); rewrite ?E2; ksimp;
    rewrite ?D1; try done; [by apply cabs_set_log|by rewrite (cframe_log _ _ F1)|].
  exists r3, hdr0. rewrite E2 in D3. ksimp in D3. rewrite D1 in D3. rewrite <- E2. done.
Qed.

(** ** The disk after recovery *)

Lemma head_is_nil data : length data = BSIZE -> lh_n data = 0 -> head_is data [].
Proof. intros. split; [done|]. split; [done|]. intros i b Hi. by rewrite lookup_nil in Hi. Qed.

Lemma home_writes_keys X bl : (home_writes X bl).*1 = bl.
Proof.
  apply list_eq. intros t. unfold home_writes. rewrite list_lookup_fmap, list_lookup_imap.
  by destruct (bl !! t).
Qed.

(** What recovery leaves in a block outside the log. *)
Lemma recovered_home st sz d bl hdr0 m :
  geom st sz (dk_size d) bl -> ~ (st <= m < st + sz) ->
  dread (apply_writes d (recover_writes st d bl hdr0)) m =
  match list_find (eq m) bl with
  | Some (t, _) => dread d (st + 1 + Z.of_nat t)
  | None => dread d m
  end.
Proof.
  intros Hg Hm. pose proof (ge_nodup _ _ _ _ Hg) as Hnd. pose proof (ge_room _ _ _ _ Hg).
  unfold recover_writes. rewrite apply_writes_app. cbn [apply_writes foldl fst snd].
  rewrite dread_dwrite, decide_False by lia.
  destruct (list_find (eq m) bl) as [[t b]|] eqn:E.
  - apply list_find_Some in E as (Ht & <- & _). apply dread_apply_in.
    + by rewrite home_writes_keys.
    + apply (list_elem_of_lookup_2 _ t). unfold home_writes. by rewrite list_lookup_imap, Ht.
  - apply dread_apply_notin. rewrite home_writes_keys. intros Hin.
    apply list_find_None in E. rewrite Forall_forall in E. by apply (E m Hin).
Qed.

(** The header and the log blocks are untouched by writes to home blocks. *)
Lemma dread_take_home d X bl k m :
  m ∉ bl -> dread (apply_writes d (take k (home_writes X bl))) m = dread d m.
Proof.
  intros Hm. apply dread_apply_notin. rewrite fmap_take, home_writes_keys.
  intros Hin. apply Hm. apply elem_of_take in Hin as (i & Hi & _).
  by eapply list_elem_of_lookup_2.
Qed.

(** Recovery after [k] of the writes of a commit. *)
Definition crash_disk (d : disk) (ws : list (Z * list Z)) (k : nat) : disk :=
  apply_writes d (take k ws).

Section crash.
Context (d : disk) (V : Z -> list Z) (st sz : Z) (bl hdr hdr0 : list Z).
Context (Hg : geom st sz (dk_size d) bl) (Hhd : head_is hdr bl) (Hhd0 : head_is hdr0 []).
Context (Hold : head_is (dread d st) []) (HV : forall m, m ∉ bl -> ~ (st <= m < st + sz) -> V m = dread d m).

Let ws := commit_writes st V bl hdr hdr0.
Let n := length bl.

Lemma st_not_home : st ∉ bl.
Proof. intros [_ Hx]%(ge_home _ _ _ _ Hg). pose proof (ge_room _ _ _ _ Hg). lia. Qed.

Lemma log_not_home t : (t < n)%nat -> st + 1 + Z.of_nat t ∉ bl.
Proof. subst n. intros Ht [_ Hx]%(ge_home _ _ _ _ Hg). pose proof (ge_room _ _ _ _ Hg). lia. Qed.

Lemma take_commit_log k : (k <= n)%nat -> take k ws = take k (log_writes st V bl).
Proof.
  intros Hk. subst ws n. unfold commit_writes. rewrite take_app_le; [done|].
  unfold log_writes. by rewrite length_imap.
Qed.

Lemma take_commit_home k :
  (n < k)%nat -> take k ws = log_writes st V bl ++ [(st, hdr)] ++
    take (k - n - 1) (((fun b => (b, V b)) <$> bl) ++ [(st, hdr0)]).
Proof.
  intros Hk. subst ws n. unfold commit_writes. rewrite take_app_ge by (unfold log_writes; rewrite length_imap; lia).
  unfold log_writes at 2. rewrite length_imap. f_equal. cbn [app].
  replace (k - length bl)%nat with (S (k - length bl - 1)) at 1 by lia. done.
Qed.

(** Before the header is written, recovery finds the old header. *)
Lemma crash_before k m :
  (k <= n)%nat -> ~ (st < m < st + sz) -> dread (crash_disk d ws k) m = dread d m.
Proof.
  intros Hk Hm. unfold crash_disk. rewrite take_commit_log by done. apply dread_apply_notin.
  rewrite fmap_take. intros (i & Hi & _)%elem_of_take. apply list_elem_of_lookup_2, log_writes_keys in Hi.
  pose proof (ge_room _ _ _ _ Hg). lia.
Qed.

(** After it, the log holds the transaction. *)
Lemma crash_logged k t b :
  (n < k)%nat -> bl !! t = Some b -> dread (crash_disk d ws k) (st + 1 + Z.of_nat t) = V b.
Proof.
  intros Hk Ht. pose proof (lookup_lt_Some _ _ _ Ht). unfold crash_disk.
  rewrite take_commit_home, !apply_writes_app by done. cbn [apply_writes foldl fst snd].
  rewrite dread_apply_notin.
  - rewrite dread_dwrite, decide_False by lia. by apply dread_log_writes.
  - rewrite fmap_take, fmap_app, home_keys. intros (i & Hi & _)%elem_of_take.
    apply list_elem_of_lookup_2, elem_of_app in Hi as [Hi|Hi%list_elem_of_singleton]; [|cbn in Hi; lia].
    by apply (log_not_home t).
Qed.

Lemma crash_other k m :
  (n < k)%nat -> m ∉ bl -> ~ (st <= m < st + sz) -> dread (crash_disk d ws k) m = dread d m.
Proof.
  intros Hk Hout Hm. unfold crash_disk. rewrite take_commit_home, !apply_writes_app by done.
  cbn [apply_writes foldl fst snd]. pose proof (ge_room _ _ _ _ Hg). rewrite dread_apply_notin.
  - rewrite dread_dwrite, decide_False by lia. apply dread_apply_notin. intros Hin%log_writes_keys. lia.
  - rewrite fmap_take, fmap_app, home_keys. intros (i & Hi & _)%elem_of_take.
    apply list_elem_of_lookup_2, elem_of_app in Hi as [Hi|Hi%list_elem_of_singleton]; [done|cbn in Hi; lia].
Qed.

Lemma crash_head_on k : (n < k <= 2 * n + 1)%nat -> dread (crash_disk d ws k) st = hdr.
Proof.
  intros Hk. unfold crash_disk. rewrite take_commit_home, !apply_writes_app by lia.
  cbn [apply_writes foldl fst snd]. rewrite take_app_le by (rewrite length_fmap; subst n; lia).
  rewrite dread_apply_notin; [by rewrite dread_dwrite, decide_True|].
  rewrite fmap_take, home_keys. intros (i & Hi & _)%elem_of_take. apply list_elem_of_lookup_2 in Hi.
  by apply st_not_home.
Qed.

Lemma crash_done k m :
  (2 * n + 1 < k)%nat -> ~ (st <= m < st + sz) ->
  dread (crash_disk d ws k) st = hdr0 /\ dread (crash_disk d ws k) m = V m.
Proof.
  intros Hk Hm. pose proof (ge_room _ _ _ _ Hg). split.
  - unfold crash_disk. rewrite take_commit_home, !apply_writes_app by lia.
    rewrite take_ge by (rewrite length_app, length_fmap; cbn; subst n; lia).
    rewrite apply_writes_app. cbn [apply_writes foldl fst snd]. by rewrite dread_dwrite, decide_True.
  - destruct (decide (m ∈ bl)) as [Hin|Hout]; [|rewrite crash_other by (done || lia); by rewrite HV].
    unfold crash_disk. rewrite take_commit_home, !apply_writes_app by lia.
    rewrite take_ge by (rewrite length_app, length_fmap; cbn; subst n; lia).
    rewrite apply_writes_app. cbn [apply_writes foldl fst snd]. rewrite dread_dwrite, decide_False by lia.
    apply dread_home_in; [apply (ge_nodup _ _ _ _ Hg)|done].
Qed.

(** Recovery after any number of the writes. *)
Lemma crash_recovers k :
  exists bl', head_is (dread (crash_disk d ws k) st) bl' /\ geom st sz (dk_size (crash_disk d ws k)) bl' /\
  forall h m, ~ (st <= m < st + sz) ->
    dread (apply_writes (crash_disk d ws k) (recover_writes st (crash_disk d ws k) bl' h)) m =
    if decide (k <= n)%nat then dread d m else V m.
Proof.
  assert (Hsz : dk_size (crash_disk d ws k) = dk_size d) by apply dk_size_apply.
  destruct (decide (k <= n)%nat) as [Hk|Hk]; [exists []|destruct (decide (k <= 2 * n + 1)%nat) as [Hk2|Hk2];
    [exists bl|exists []]]; rewrite Hsz.
  - rewrite crash_before by (done || lia). split; [done|]. split; [by eapply geom_nil|].
    intros h m Hm. rewrite (recovered_home st sz) by (rewrite ?Hsz; done || by eapply geom_nil). cbn.
    apply crash_before; [done|lia].
  - rewrite crash_head_on by lia. split; [done|]. split; [done|].
    intros h m Hm. rewrite (recovered_home st sz) by (by rewrite ?Hsz).
    destruct (list_find (eq m) bl) as [[t b]|] eqn:E.
    + apply list_find_Some in E as (Ht & <- & _). apply crash_logged; [lia|done].
    + assert (m ∉ bl) by (intros Hin; apply list_find_None in E; rewrite Forall_forall in E; by apply (E m Hin)).
      rewrite crash_other by (done || lia). by rewrite HV.
  - split; [|split; [by eapply geom_nil|]].
    + rewrite (proj1 (crash_done k (st - 1) ltac:(lia) ltac:(lia))). done.
    + intros h m Hm. rewrite (recovered_home st sz) by (rewrite ?Hsz; done || by eapply geom_nil). cbn.
      apply crash_done; [lia|done].
Qed.

End crash.

(** Recovery is redone from the start when it is interrupted. *)
Lemma recovery_again st sz d bl hdr0 k :
  geom st sz (dk_size d) bl -> head_is (dread d st) bl -> head_is hdr0 [] ->
  let dk := crash_disk d (recover_writes st d bl hdr0) k in
  exists bl', head_is (dread dk st) bl' /\ geom st sz (dk_size dk) bl' /\
  forall h m, ~ (st <= m < st + sz) ->
    dread (apply_writes dk (recover_writes st dk bl' h)) m =
    dread (apply_writes d (recover_writes st d bl hdr0)) m.
Proof.
  intros Hg Hh Hh0 dk. assert (Hsz : dk_size dk = dk_size d) by apply dk_size_apply.
  set (HW := home_writes (fun t => dread d (st + 1 + Z.of_nat t)) bl).
  assert (Hlen : length HW = length bl) by apply length_imap.
  destruct (decide (k <= length bl)%nat) as [Hk|Hk].
  - assert (Edk : dk = apply_writes d (take k HW)).
    { subst dk. unfold crash_disk, recover_writes. by rewrite take_app_le by (fold HW; lia). }
    pose proof (ge_room _ _ _ _ Hg).
    assert (Hlog : forall m, st <= m < st + sz -> dread dk m = dread d m).
    { intros m Hm. rewrite Edk. apply dread_take_home. intros [_ Hx]%(ge_home _ _ _ _ Hg). lia. }
    exists bl. rewrite Hlog by lia. split; [done|]. rewrite Hsz. split; [done|].
    intros h m Hm. rewrite !(recovered_home st sz) by (by rewrite ?Hsz).
    destruct (list_find (eq m) bl) as [[t b]|] eqn:E.
    + apply list_find_Some in E as (Ht & _). apply lookup_lt_Some in Ht. apply Hlog. lia.
    + rewrite Edk. apply dread_take_home. intros Hin. apply list_find_None in E.
      rewrite Forall_forall in E. by apply (E m Hin).
  - assert (Edk : dk = apply_writes d (recover_writes st d bl hdr0)).
    { subst dk. unfold crash_disk. rewrite take_ge; [done|]. unfold recover_writes. fold HW.
      rewrite length_app. cbn. lia. }
    exists []. rewrite Hsz. assert (Hst : dread dk st = hdr0).
    { rewrite Edk. unfold recover_writes. rewrite apply_writes_app. cbn. by rewrite dread_dwrite, decide_True. }
    rewrite Hst. split; [done|]. split; [by eapply geom_nil|]. intros h m Hm.
    rewrite (recovered_home st sz dk []) by (rewrite ?Hsz; done || by eapply geom_nil). cbn. by rewrite Edk.
Qed.

(** ** begin_op, log_write, end_op *)

Lemma set_dirty_cabs s D U i n v dt :
  cabs s D U -> owns s i n v dt ->
  exists bc', upd_buf i (fun b => set_b_flags (fset (b_flags b) B_DIRTY) b) s = Ret tt (set_k_bcache bc' s) /\
    cabs (set_k_bcache bc' s) ({[n]} ∪ D) U /\ owns (set_k_bcache bc' s) i n v true /\
    (forall m, view (set_k_bcache bc' s) m = view s m) /\
    (forall j m w dt', j <> i -> owns s j m w dt' -> owns (set_k_bcache bc' s) j m w dt').
Proof.
  intros Hc Ho. pose proof Ho as (b & Hi & Hb & [Hd Hn] & Hv & Hy). pose proof Hc as [Hok HD HU _ _].
  pose proof Hi as [Hi' Hlt]%bufs_lookup. set (b' := set_b_flags (fset (b_flags b) B_DIRTY) b).
  destruct (co_kind _ _ Hok _ _ Hi) as [(_ & Hva & Hlen)|(E & _)]; [|rewrite Hd in E; discriminate].
  assert (Eb : busy b' = true) by (unfold busy, b' in *; cbn; by autorewrite with flags).
  assert (Ed : dirty b' = true) by (unfold dirty, b'; cbn; by autorewrite with flags).
  assert (Hfit : fits (k_bcache s) (k_disk s) i b b' (k_disk s)).
  { split; try done; [unfold valid, b' in *; cbn; by autorewrite with flags| |congruence|apply (co_disk _ _ Hok)].
    intros j bj Hj Hbj [Dj Nj]. apply Hj. change (b_blockno b') with (b_blockno b) in Nj.
    apply (co_uniq _ _ Hok j i bj b); congruence. }
  exists (<[i := b']> (k_bcache s)).
  assert (Es : set_k_bcache (<[i := b']> (k_bcache s)) s =
               set_k_bcache (<[i := b']> (k_bcache s)) (set_k_disk (k_disk s) s)) by (by destruct s).
  split; [by rewrite (upd_buf_Ret _ _ _ _ Hi')|]. rewrite Es.
  pose proof (cabs_fits s D U i b b' (k_disk s) Hc Hfit ltac:(by left)) as Hc'.
  rewrite Eb, Ed in Hc'. change (b_blockno b') with (b_blockno b) in Hc'. rewrite Hn in Hc'.
  pose proof (owns_busy _ _ _ _ _ _ _ Hc Ho). split; [|split; [|split]].
  - eapply cabs_sets; [done|done|set_solver].
  - exists b'. ksimp. rewrite bufs_insert, list_lookup_insert_eq by (done || by eapply lookup_lt_Some). done.
  - intros m. rewrite (view_fits s i b b' (k_disk s)) by (done || by left). case_decide as E; [|done].
    subst m. cbn. rewrite Hv. change (b_blockno b') with (b_blockno b). rewrite Hn. symmetry. by eapply owns_view.
  - intros j m w dt' Hne Hj. by eapply owns_other.
Qed.

(** The index [log_write] finds. *)
Lemma absorb_spec blocks blockno k : forall i,
  let r := absorb_loop blocks blockno i k in
  (i <= r <= i + k)%nat /\ (forall j, (i <= j < r)%nat -> u32 (nth j blocks 0) <> blockno) /\
  ((r < i + k)%nat -> u32 (nth r blocks 0) = blockno).
Proof.
  induction k as [|k IH]; intros i; cbn [absorb_loop].
  - split; [lia|]. split; intros; lia.
  - destruct (u32 (nth i blocks 0) =? blockno) eqn:E.
    + apply Z.eqb_eq in E. split; [lia|]. split; [intros; lia|]. done.
    + apply Z.eqb_neq in E. destruct (IH (S i)) as (H1 & H2 & H3). split; [lia|]. split.
      * intros j Hj. destruct (decide (j = i)) as [->|]; [done|]. apply H2. lia.
      * intros H. apply H3. lia.
Qed.

(** [log_write] adds a block to the list, unless it is there (absorption). *)
Definition log_add (n : Z) (bl : list Z) : list Z := if decide (n ∈ bl) then bl else bl ++ [n].

Lemma absorb_in l st sz bl n :
  lg_ok l st sz bl -> (forall b, b ∈ bl -> 0 <= b < 2 ^ 31) ->
  let i := absorb_loop (lg_block l) n 0 (length bl) in
  if decide (n ∈ bl) then bl !! i = Some n else i = length bl.
Proof.
  intros Hlo Hr i. destruct (absorb_spec (lg_block l) n (length bl) 0) as (H1 & H2 & H3). fold i in H1, H2, H3.
  assert (Hnth : forall j b, bl !! j = Some b -> u32 (nth j (lg_block l) 0) = b).
  { intros j b Hj. rewrite nth_lookup, (lo_block _ _ _ _ Hlo _ _ Hj). cbn. apply u32_small.
    specialize (Hr b (list_elem_of_lookup_2 _ _ _ Hj)). lia. }
  case_decide as Hin.
  - destruct (decide (i < length bl)%nat) as [Hlt|Hge].
    + destruct (lookup_lt_is_Some_2 bl i Hlt) as [b Hb]. rewrite Hb. rewrite <- (Hnth _ _ Hb). f_equal. apply H3. lia.
    + apply list_elem_of_lookup in Hin as [j Hj]. pose proof (lookup_lt_Some _ _ _ Hj).
      exfalso. apply (H2 j); [lia|]. by apply Hnth.
  - destruct (decide (i < length bl)%nat) as [Hlt|]; [|lia].
    destruct (lookup_lt_is_Some_2 bl i Hlt) as [b Hb]. exfalso. apply Hin.
    rewrite <- (H3 ltac:(lia)), (Hnth _ _ Hb). by eapply list_elem_of_lookup_2.
Qed.

Lemma lg_add_ok l st sz bl n :
  lg_ok l st sz bl -> (forall b, b ∈ bl -> 0 <= b < 2 ^ 31) -> 0 <= n < 2 ^ 31 -> (length bl < 30)%nat ->
  let i := absorb_loop (lg_block l) n 0 (length bl) in
  let l1 := set_lg_block (<[i := s32 n]> (lg_block l)) l in
  lg_ok (if Z.of_nat i =? lg_n l then set_lg_n (lg_n l + 1) l1 else l1) st sz (log_add n bl).
Proof.
  intros Hlo Hr Hn Hlt i l1. pose proof (absorb_in l st sz bl n Hlo Hr) as Hi. fold i in Hi.
  rewrite (lo_n _ _ _ _ Hlo). subst l1. rewrite s32_small by lia. unfold log_add. destruct Hlo.
  case_decide as Hin.
  - pose proof (lookup_lt_Some _ _ _ Hi). rewrite (proj2 (Z.eqb_neq _ _)) by lia. split; cbn; try done.
    + intros j b Hj. destruct (decide (i = j)) as [<-|]; [rewrite list_lookup_insert_eq by lia; congruence|].
      rewrite list_lookup_insert_ne by done. auto.
    + by rewrite length_insert.
  - rewrite Hi, Z.eqb_refl. split; cbn; try done.
    + rewrite length_app. cbn. lia.
    + intros j b Hj. destruct (decide (length bl = j)) as [<-|].
      * rewrite list_lookup_insert_eq by lia. rewrite lookup_app_r, Nat.sub_diag in Hj by lia. done.
      * rewrite list_lookup_insert_ne by done. apply lo_block0. rewrite lookup_app_l in Hj; [done|].
        pose proof (lookup_lt_Some _ _ _ Hj) as Hl. rewrite length_app in Hl. cbn in Hl. lia.
    + by rewrite length_insert.
Qed.

Lemma log_write_cabs s D U i n v dt st sz bl :
  cabs s D U -> owns s i n v dt -> lg_ok (k_log s) st sz bl -> L_log ∉ k_held s ->
  (forall b, b ∈ bl -> 0 <= b < 2 ^ 31) -> 0 <= n < 2 ^ 31 ->
  Z.of_nat (length bl) < LOGSIZE -> Z.of_nat (length bl) < sz - 1 -> 1 <= lg_outstanding (k_log s) ->
  exists s' bc' l', log_write i s = Ret tt s' /\ s' = set_k_bcache bc' (set_k_log l' s) /\
    lg_ok l' st sz (log_add n bl) /\ lg_outstanding l' = lg_outstanding (k_log s) /\
    lg_committing l' = lg_committing (k_log s) /\
    cabs s' ({[n]} ∪ D) U /\ owns s' i n v true /\ (forall m, view s' m = view s m) /\
    (forall j m w dt', j <> i -> owns s j m w dt' -> owns s' j m w dt').
Proof.
  intros Hc Ho Hlo Hh Hr Hn Hmax Hsz Hout. unfold log_write. kgets. rewrite (lo_n _ _ _ _ Hlo), (lo_size _ _ _ _ Hlo).
  rewrite (proj2 (Z.leb_gt _ _)), (proj2 (Z.leb_gt _ _)), (proj2 (Z.ltb_ge _ _)) by lia. cbn [orb].
  kstep (acquire_free L_log s Hh). kgets. ksimp. set (s0 := set_k_held (L_log :: k_held s) s).
  pose proof Ho as (b & [Hi _]%bufs_lookup & _ & [_ En] & _).
  assert (G0 : get_buf i s0 = Ret b s0) by (by apply get_buf_Ret).
  kstep G0. rewrite En, (lo_n _ _ _ _ Hlo), Nat2Z.id. cbn zeta.
  pose proof (lg_add_ok (k_log s) st sz bl n Hlo Hr Hn ltac:(unfold LOGSIZE, MAXOPBLOCKS in *; lia)) as Hlo'.
  cbn zeta in Hlo'. rewrite (lo_n _ _ _ _ Hlo) in Hlo'.
  set (ix := absorb_loop (lg_block (k_log s)) n 0 (length bl)) in *.
  set (l1 := set_lg_block (<[ix := s32 n]> (lg_block (k_log s))) (k_log s)) in *.
  set (l' := if Z.of_nat ix =? Z.of_nat (length bl) then set_lg_n (Z.of_nat (length bl) + 1) l1 else l1) in *.
  rewrite bind_run. unfold upd_log at 1, modify. cbn [k_log s0 set_k_held].
  assert (Hstep : (if Z.of_nat ix =? Z.of_nat (length bl) then upd_log (set_lg_n (Z.of_nat (length bl) + 1))
             else mret tt) (set_k_log l1 s0) = Ret tt (set_k_log l' s0)).
  { subst l'. by destruct (_ =? _). }
  change (set_lg_block (<[ix:=s32 n]> (lg_block (k_log s))) (k_log s)) with l1. kstep Hstep.
  assert (Hc0 : cabs (set_k_log l' s0) D U).
  { destruct Hc. split; try done; subst s0; ksimp; rewrite not_elem_of_cons; done. }
  destruct (set_dirty_cabs (set_k_log l' s0) D U i n v dt Hc0 Ho) as (bc' & R & C & O & V & OO).
  kstep R. rewrite (release_held _ _ (k_held s)) by done.
  eexists _, bc', l'. split; [reflexivity|]. split; [by destruct s|]. split; [done|].
  split; [subst l'; by destruct (_ =? _)|]. split; [subst l'; by destruct (_ =? _)|].
  split; [destruct C, Hc; split; done|]. split; [exact O|]. split; [exact V|exact OO].
Qed.

Lemma end_op_last_run s st sz bl :
  commit_ready s st sz bl -> bl <> [] -> lg_outstanding (k_log s) = 1 -> lg_committing (k_log s) = 0 ->
  L_log ∉ k_held s ->
  exists s' hdr hdr0, end_op s = Ret tt s' /\ head_is hdr bl /\ head_is hdr0 [] /\
    k_disk s' = apply_writes (k_disk s) (commit_writes st (view s) bl hdr hdr0) /\
    cabs s' ∅ ∅ /\ lg_ok (k_log s') st sz [] /\
    lg_outstanding (k_log s') = 0 /\ lg_committing (k_log s') = 0 /\
    (forall m, ~ (st <= m < st + sz) -> view s' m = view s m).
Proof.
  intros [Hg Hlo Hc Hnb] Hne Hout Hcom Hh. unfold end_op. kstep (acquire_free L_log s Hh).
  rewrite bind_run. unfold upd_log at 1, modify. kgets. ksimp. rewrite Hcom. cbn [Z.eqb negb].
  rewrite Hout. change (1 - 1 =? 0) with true. cbv iota.
  rewrite bind_assoc, bind_run. unfold upd_log at 1, modify. rewrite ret_bind. ksimp.
  erewrite bind_Ret by (by apply (release_held _ _ (k_held s))). ksimp.
  set (l0 := set_lg_committing 1 (set_lg_outstanding (1 - 1) (k_log s))). set (s0 := set_k_held _ (set_k_log l0 _)).
  assert (Es0 : s0 = set_k_log l0 s) by (by destruct s).
  assert (Hready : commit_ready (set_k_log l0 s) st sz bl).
  { split; [done| |by apply cabs_set_log|done]. destruct Hlo. by split. }
  rewrite Es0. destruct (commit_cabs _ _ _ _ Hready Hne) as (s1 & hdr & hdr0 & R & H1 & H2 & F & D & C & L & V).
  kstep R.
  assert (Hh1 : k_held s1 = k_held s) by (by rewrite (cframe_held _ _ F)).
  assert (Hl1 : k_log s1 = set_lg_n 0 l0) by (by rewrite (cframe_log _ _ F)).
  erewrite bind_Ret by (apply acquire_free; by rewrite Hh1). rewrite bind_run. unfold upd_log at 1, modify.
  erewrite bind_Ret by (apply wakeup_Ret; ksimp; rewrite Hh1, not_elem_of_cons; split; [done|apply (ca_plock _ _ _ Hc)]).
  rewrite (release_held _ _ (k_held s)) by (ksimp; by rewrite ?Hh1).
  eexists _, hdr, hdr0. split; [reflexivity|]. ksimp. split; [done|]. split; [done|]. split; [done|].
  split; [|split; [|split; [|split; [done|done]]]].
  - destruct C. split; try done; ksimp; by rewrite <- Hh1.
  - rewrite Hl1. destruct L as [? ? ? ? _ ?]. rewrite Hl1 in *. split; try done.
  - by rewrite Hl1.
Qed.

(** ** The theorems *)

(** C1: crash safety.  Let a transaction with modified blocks [bl] be ready
    to commit (the on-disk header being empty) and let [ws] be the disk
    writes of [commit].  If the machine stops after the first [k] of them,
    for any [k], a kernel that boots on that disk and runs [initlog] (which
    finds the log through the super block) succeeds, leaves an empty log, and
    every block outside the log has its contents from before the
    transaction if the header had not been written ([k <= length bl]), and
    its contents from after it otherwise: all of it or nothing.  (A block
    is one disk sector, so one write is atomic.) *)
Theorem commit_crash_safe s st sz bl :
  commit_ready s st sz bl -> bl <> [] -> sb_places (k_disk s) st sz -> 1 ∉ bl ->
  lh_n (dread (k_disk s) st) = 0 ->
  exists s' ws, commit s = Ret tt s' /\ dk_writes (k_disk s') = dk_writes (k_disk s) ++ ws /\
    length ws = (2 * length bl + 2)%nat /\
    forall k r, boots r (crash_disk (k_disk s) ws k) ->
      exists r', initlog 1 r = Ret tt r' /\ lh_n (dread (k_disk r') st) = 0 /\
        forall m, ~ (st <= m < st + sz) ->
          dread (k_disk r') m = if decide (k <= length bl)%nat then dread (k_disk s) m else view s m.
Proof.
  intros Hr Hne Hsb H1 H0. destruct (commit_cabs s st sz bl Hr Hne) as (s' & hdr & hdr0 & R & Hh & Hh0 & _ & D & _).
  destruct Hr as [Hg Hlo Hc Hnb].
  exists s', (commit_writes st (view s) bl hdr hdr0). split; [done|].
  split; [by rewrite D, dk_writes_apply|]. split.
  { unfold commit_writes, log_writes. rewrite !length_app, length_imap, length_fmap. cbn. lia. }
  intros k r Hb. pose proof (ca_ok _ _ _ Hc) as Hok.
  assert (HV : forall m, m ∉ bl -> ~ (st <= m < st + sz) -> view s m = dread (k_disk s) m).
  { intros m Hm _. eapply cabs_clean; [done|by rewrite elem_of_list_to_set|apply not_elem_of_empty]. }
  destruct (crash_recovers (k_disk s) (view s) st sz bl hdr hdr0 Hg Hh Hh0
    (head_is_nil _ (co_disk _ _ Hok st) H0) HV k) as (bl' & Hhd & Hg' & Hrec).
  set (dk := crash_disk _ _ k) in *.
  assert (Hsb' : sb_places dk st sz).
  { destruct Hsb as (E1 & E2 & E3). unfold sb_places.
    assert (E : dread dk 1 = dread (k_disk s) 1); [|by rewrite E].
    destruct (decide (k <= length bl)%nat).
    - subst dk. eapply crash_before; eauto; lia.
    - subst dk. eapply crash_other; eauto; lia. }
  destruct (initlog_cabs r dk st sz bl' Hb Hsb' Hg' Hhd) as (r' & h0 & Rr & Hh0' & Dr & _).
  exists r'. split; [done|]. rewrite Dr. split; [|intros m Hm; by apply Hrec].
  unfold recover_writes. rewrite apply_writes_app. cbn [apply_writes foldl fst snd].
  rewrite dread_dwrite, decide_True by done. apply Hh0'.
Qed.

(** A disk with a super block, and a kernel on it in which one operation
    has filled block 100. *)
Definition sbdata : list Z :=
  mjoin (le_enc 4 <$> [1000; 941; 200; 30; 2; 32; 58]) ++ replicate (BSIZE - 28) 0.
Definition fsdisk : disk := mkDisk 1000 {[1 := sbdata]} [].
Definition fslog : log := mkLog 2 30 1 0 1 0 (replicate 30 0).
Definition nines : list Z := replicate BSIZE 9.

Lemma fsdisk_len n : length (dread fsdisk n) = BSIZE.
Proof.
  unfold dread, fsdisk. cbn [dk_blocks]. destruct (decide (n = 1)) as [->|].
  - by rewrite lookup_singleton_eq.
  - by rewrite lookup_singleton_ne.
Qed.

Lemma fsdisk_other n : n <> 1 -> dread fsdisk n = zblock.
Proof. intros. unfold dread, fsdisk. cbn [dk_blocks]. by rewrite lookup_singleton_ne. Qed.

Lemma fsdisk_sb : sb_places fsdisk 2 30.
Proof. by vm_compute. Qed.

Lemma fsgeom bl : (forall b, b ∈ bl -> 32 <= b < 1000) -> NoDup bl -> (length bl <= 29)%nat -> geom 2 30 1000 bl.
Proof. intros Hb Hnd Hl. split; try done; try lia. intros b Hin. specialize (Hb b Hin). lia. Qed.

Lemma fslog_ok : lg_ok fslog 2 30 [].
Proof. by split. Qed.

Lemma ready_state : exists s, commit_ready s 2 30 [100] /\ k_disk s = fsdisk /\
  lg_outstanding (k_log s) = 1 /\ lg_committing (k_log s) = 0 /\ (L_log ∉ k_held s) /\ view s 100 = nines.
Proof.
  destruct (boots_up fsdisk fsdisk_len) as [s Hb]. set (s0 := set_k_log fslog s).
  assert (C0 : cabs s0 ∅ ∅) by (by eapply cabs_set_log, booted_cabs).
  assert (D0 : k_disk s0 = fsdisk) by apply (bo_disk _ _ Hb).
  assert (H0 : L_log ∉ k_held s0) by (subst s0; ksimp; rewrite (bo_held _ _ Hb); apply not_elem_of_nil).
  assert (L0 : k_log s0 = fslog) by reflexivity. clearbody s0. clear s Hb.
  destruct (bread_cabs s0 ∅ ∅ 100 C0) as (i & s1 & _ & F1 & D1 & C1 & O1 & _);
    [apply not_elem_of_empty|by rewrite D0|right; vm_compute; lia|].
  destruct (setdata_cabs s1 _ _ _ _ _ nines _ C1 O1 eq_refl) as (s2 & _ & F2 & D2 & C2 & O2 & V2 & _).
  assert (F12 : cframe s0 s2) by (by etrans).
  destruct (log_write_cabs s2 _ _ i 100 nines _ 2 30 [] C2 O2) as (s3 & bc & l & _ & E3 & L3 & Ho & Hcm & C3 & O3 & V3 & _);
    rewrite ?(cframe_log _ _ F12), ?(cframe_held _ _ F12), ?L0;
    [apply fslog_ok|done|intros b H; by apply elem_of_nil in H|lia|done|done|done|].
  destruct (brelse_cabs s3 _ _ i 100 _ _ C3 O3) as (s4 & _ & F4 & D4 & C4 & V4 & _); [discriminate|].
  assert (E : k_disk s4 = fsdisk) by (rewrite D4, E3; ksimp; congruence).
  exists s4. split; [|split; [done|]].
  - split; rewrite ?E, ?(cframe_log _ _ F4), ?E3; [|done| |unfold NBUF; cbn; lia].
    + apply fsgeom; [intros b ->%list_elem_of_singleton; lia|apply NoDup_singleton|cbn; lia].
    + eapply cabs_sets; [done|set_solver..].
  - rewrite (cframe_log _ _ F4), (cframe_held _ _ F4), E3. ksimp. rewrite Ho, Hcm, (cframe_log _ _ F12), L0.
    split; [done|]. split; [done|]. split; [by rewrite (cframe_held _ _ F12)|].
    rewrite V4, V3, V2. by rewrite decide_True.
Qed.

Lemma commit_crash_safe_witness : exists s, view s 100 = nines /\
  exists s' ws, commit s = Ret tt s' /\ dk_writes (k_disk s') = dk_writes (k_disk s) ++ ws /\
    length ws = 4%nat /\
    forall k r, boots r (crash_disk (k_disk s) ws k) ->
      exists r', initlog 1 r = Ret tt r' /\ lh_n (dread (k_disk r') 2) = 0 /\
        forall m, ~ (2 <= m < 2 + 30) ->
          dread (k_disk r') m = if decide (k <= 1)%nat then dread (k_disk s) m else view s m.
Proof.
  destruct ready_state as (s & Hr & Hd & _ & _ & _ & Hv). exists s. split; [done|].
  apply (commit_crash_safe s 2 30 [100] Hr); [done|rewrite Hd; apply fsdisk_sb| |].
  - intros H%list_elem_of_singleton. lia.
  - rewrite Hd, fsdisk_other by lia. reflexivity.
Defined.

(** C2: recovery can be interrupted.  On a disk whose header lists the
    blocks [bl], [initlog] copies the logged contents home and empties the
    log; if it is stopped after any number of its own writes and the
    kernel boots again, the second [initlog] gives every block outside the
    log the same contents. *)
Theorem recovery_restartable r d st sz bl :
  boots r d -> sb_places d st sz -> geom st sz (dk_size d) bl -> 1 ∉ bl -> head_is (dread d st) bl ->
  exists r' ws, initlog 1 r = Ret tt r' /\ dk_writes (k_disk r') = dk_writes d ++ ws /\
    (forall t b, bl !! t = Some b -> dread (k_disk r') b = dread d (st + 1 + Z.of_nat t)) /\
    forall k r1, boots r1 (crash_disk d ws k) ->
      exists r2, initlog 1 r1 = Ret tt r2 /\
        forall m, ~ (st <= m < st + sz) -> dread (k_disk r2) m = dread (k_disk r') m.
Proof.
  intros Hb Hsb Hg H1 Hh. destruct (initlog_cabs r d st sz bl Hb Hsb Hg Hh) as (r' & h0 & R & Hh0 & D & _).
  exists r', (recover_writes st d bl h0). split; [done|]. split; [by rewrite D, dk_writes_apply|]. split.
  { intros t b Ht. destruct (ge_home _ _ _ _ Hg b (list_elem_of_lookup_2 _ _ _ Ht)) as [_ Hx].
    rewrite D, (recovered_home st sz) by (done || lia).
    destruct (list_find (eq b) bl) as [[u c]|] eqn:E.
    - apply list_find_Some in E as (Hu & <- & _).
      assert (t = u) as <- by (eapply NoDup_lookup; eauto using ge_nodup). done.
    - apply list_find_None in E. rewrite Forall_forall in E.
      by destruct (E b (list_elem_of_lookup_2 _ _ _ Ht)). }
  intros k r1 Hb1. destruct (recovery_again st sz d bl h0 k Hg Hh Hh0) as (bl' & Hh' & Hg' & Hrec).
  assert (Hsb' : sb_places (crash_disk d (recover_writes st d bl h0) k) st sz).
  { destruct Hsb as (E1 & E2 & E3). unfold sb_places, crash_disk.
    rewrite dread_apply_notin; [done|]. unfold recover_writes. rewrite fmap_take, fmap_app, home_writes_keys.
    intros (i & Hi & _)%elem_of_take. apply list_elem_of_lookup_2, elem_of_app in Hi as [Hi|Hi%list_elem_of_singleton];
      [done|cbn in Hi; lia]. }
  destruct (initlog_cabs r1 _ st sz bl' Hb1 Hsb' Hg' Hh') as (r2 & h2 & R2 & _ & D2 & _).
  exists r2. split; [done|]. intros m Hm. rewrite D2, D. by apply Hrec.
Qed.

(** A disk with a committed transaction in the log: block 100. *)
Definition hdr100 : list Z := set_lh_block 0 100 (set_lh_n 1 zblock).
Definition hdisk : disk := mkDisk 1000 (<[1 := sbdata]> (<[2 := hdr100]> {[3 := nines]})) [].

Lemma hdisk_len n : length (dread hdisk n) = BSIZE.
Proof.
  unfold dread, hdisk. cbn [dk_blocks].
  destruct (decide (n = 1)) as [->|]; [by rewrite lookup_insert_eq|rewrite lookup_insert_ne by done].
  destruct (decide (n = 2)) as [->|]; [by rewrite lookup_insert_eq|rewrite lookup_insert_ne by done].
  destruct (decide (n = 3)) as [->|]; [by rewrite lookup_singleton_eq|by rewrite lookup_singleton_ne].
Qed.

Lemma hdr100_is : head_is hdr100 [100].
Proof. split; [done|]. split; [done|]. intros i b [-> <-]%list_lookup_singleton_Some. reflexivity. Qed.

Lemma recovery_restartable_witness : exists r r' ws, boots r hdisk /\
  initlog 1 r = Ret tt r' /\ dread (k_disk r') 100 = nines /\
  forall k r1, boots r1 (crash_disk hdisk ws k) ->
    exists r2, initlog 1 r1 = Ret tt r2 /\ dread (k_disk r2) 100 = nines.
Proof.
  destruct (boots_up hdisk hdisk_len) as [r Hb].
  assert (Hr : boots r hdisk).
  { split; [apply (bo_disk _ _ Hb)|by eapply booted_cabs|rewrite (bo_log _ _ Hb); reflexivity]. }
  destruct (recovery_restartable r hdisk 2 30 [100] Hr) as (r' & ws & R & _ & E & K).
  - vm_compute. done.
  - apply fsgeom; [intros b ->%list_elem_of_singleton; lia|apply NoDup_singleton|cbn; lia].
  - intros H%list_elem_of_singleton. lia.
  - change (dread hdisk 2) with hdr100. apply hdr100_is.
  - exists r, r', ws. assert (E100 : dread (k_disk r') 100 = nines) by (by rewrite (E 0%nat 100 eq_refl)).
    split; [done|]. split; [done|]. split; [done|]. intros k r1 H1.
    destruct (K k r1 H1) as (r2 & R2 & E2). exists r2. split; [done|]. by rewrite E2 by lia.
Defined.

(** The [end_op] of the last outstanding operation commits: it returns
    with every block outside the log on disk as the operations left it in
    the cache, the on-disk and the in-memory header empty, no buffer dirty
    and the log open for new operations; it made two writes per block and
    two of the header, in the order log, header, home, header. *)
Theorem end_op_commits s st sz bl :
  commit_ready s st sz bl -> bl <> [] -> lg_outstanding (k_log s) = 1 -> lg_committing (k_log s) = 0 ->
  L_log ∉ k_held s ->
  exists s' hdr hdr0, end_op s = Ret tt s' /\
    dk_writes (k_disk s') = dk_writes (k_disk s) ++ commit_writes st (view s) bl hdr hdr0 /\
    lh_n hdr = Z.of_nat (length bl) /\ lh_n (dread (k_disk s') st) = 0 /\
    (forall m, ~ (st <= m < st + sz) -> dread (k_disk s') m = view s m) /\
    cabs s' ∅ ∅ /\ lg_ok (k_log s') st sz [] /\
    lg_outstanding (k_log s') = 0 /\ lg_committing (k_log s') = 0.
Proof.
  intros Hr Hne Hout Hcom Hh.
  destruct (end_op_last_run s st sz bl Hr Hne Hout Hcom Hh) as (s' & hdr & hdr0 & R & H1 & H2 & D & C & L & O & Cm & V).
  exists s', hdr, hdr0. split; [done|]. split; [by rewrite D, dk_writes_apply|]. split; [apply H1|].
  split; [|split; [|done]].
  - rewrite D. unfold commit_writes. rewrite !apply_writes_app. cbn [apply_writes foldl fst snd].
    rewrite dread_dwrite, decide_True by done. apply H2.
  - intros m Hm. rewrite <- (V m Hm). symmetry. eapply cabs_clean; [exact C|apply not_elem_of_empty..].
Qed.

Lemma end_op_commits_witness : exists s s', view s 100 = nines /\ end_op s = Ret tt s' /\
  dread (k_disk s') 100 = nines.
Proof.
  destruct ready_state as (s & Hr & Hd & Ho & Hc & Hh & Hv).
  destruct (end_op_commits s 2 30 [100] Hr ltac:(discriminate) Ho Hc Hh) as (s' & _ & _ & R & _ & _ & _ & E & _).
  exists s, s'. split; [done|]. split; [done|]. rewrite E by lia. done.
Defined.

(** [log_write] inside a transaction with room in the log records the
    block in the in-memory header exactly once (a block already there is
    absorbed), pins its buffer as dirty so that it is not recycled before the
    commit, and writes nothing to disk. *)
Theorem log_write_records s D U i n v dt st sz bl :
  cabs s D U -> owns s i n v dt -> lg_ok (k_log s) st sz bl -> L_log ∉ k_held s -> NoDup bl ->
  (forall b, b ∈ bl -> 0 <= b < 2 ^ 31) -> 0 <= n < 2 ^ 31 ->
  Z.of_nat (length bl) < LOGSIZE -> Z.of_nat (length bl) < sz - 1 -> 1 <= lg_outstanding (k_log s) ->
  exists s', log_write i s = Ret tt s' /\ k_disk s' = k_disk s /\
    lg_ok (k_log s') st sz (log_add n bl) /\ NoDup (log_add n bl) /\ n ∈ log_add n bl /\
    cabs s' ({[n]} ∪ D) U /\ owns s' i n v true /\ (forall m, view s' m = view s m).
Proof.
  intros Hc Ho Hlo Hh Hnd Hr Hn Hmax Hsz Hout.
  destruct (log_write_cabs s D U i n v dt st sz bl Hc Ho Hlo Hh Hr Hn Hmax Hsz Hout)
    as (s' & bc & l & R & E & L & _ & _ & C & O & V).
  exists s'. split; [done|]. split; [by rewrite E|]. split; [by rewrite E|].
  assert (Hadd : NoDup (log_add n bl) /\ n ∈ log_add n bl); [|tauto].
  unfold log_add. case_decide; [done|]. split; [|apply elem_of_app; right; left].
  apply NoDup_app. split; [done|]. split; [|apply NoDup_singleton]. by intros x Hx ->%list_elem_of_singleton.
Qed.

Lemma log_write_records_witness : exists i s s', log_write i s = Ret tt s' /\
  lg_ok (k_log s') 2 30 [7] /\ owns s' i 7 zblock true.
Proof.
  destruct booted_owns as (i & s & Hc & Ho & _). exists i, (set_k_held [] (set_k_log fslog s)).
  destruct (log_write_records (set_k_held [] (set_k_log fslog s)) ∅ {[7]} i 7 zblock false 2 30 [])
    as (s' & R & _ & L & _ & _ & _ & O & _).
  - destruct Hc. split; try done; apply not_elem_of_nil.
  - exact Ho.
  - exact fslog_ok.
  - apply not_elem_of_nil.
  - apply NoDup_nil_2.
  - intros b H. by apply elem_of_nil in H.
  - lia.
  - reflexivity.
  - reflexivity.
  - reflexivity.
  - exists s'. auto.
Defined.

(** ** The room in the log

    A ledger counts, for each outstanding operation, the blocks it has
    logged; an operation may log [MAXOPBLOCKS]. *)

Inductive ledger_step : kstate * list Z -> kstate * list Z -> Prop :=
| ls_begin s s' q : begin_op s = Ret tt s' -> ledger_step (s, q) (s', 0 :: q)
| ls_write s s' q k u b :
    q !! k = Some u -> u < MAXOPBLOCKS -> log_write b s = Ret tt s' ->
    ledger_step (s, q) (s', <[k := u + 1]> q)
| ls_end s s' q k u : q !! k = Some u -> end_op s = Ret tt s' -> ledger_step (s, q) (s', delete k q)
| ls_other s s' q : k_log s' = k_log s -> ledger_step (s, q) (s', q).

Definition quota_left (q : list Z) : Z := foldr (fun u r => MAXOPBLOCKS - u + r) 0 q.

Definition ledger_inv (x : kstate * list Z) : Prop :=
  let '(s, q) := x in
  0 <= lg_n (k_log s) /\ lg_outstanding (k_log s) = Z.of_nat (length q) /\
  Forall (fun u => 0 <= u <= MAXOPBLOCKS) q /\ lg_n (k_log s) + quota_left q <= LOGSIZE.

Lemma keeps_log_write_log : keeps k_log write_log.
Proof. unfold write_log, write_log_one. keep. Qed.
Lemma keeps_log_install : keeps k_log install_trans.
Proof. unfold install_trans, install_one. keep. Qed.
Lemma keeps_log_write_head : keeps k_log write_head.
Proof. unfold write_head. keep. Qed.

Lemma commit_log s s' :
  commit s = Ret tt s' -> 0 <= lg_n (k_log s) -> k_log s' = set_lg_n 0 (k_log s).
Proof.
  unfold commit. rewrite bind_run. unfold gets. destruct (0 <? lg_n (k_log s)) eqn:E.
  - intros (? & s1 & H1 & H)%bind_Ret_inv. apply bind_Ret_inv in H as (? & s2 & H2 & H).
    apply bind_Ret_inv in H as (? & s3 & H3 & H). apply bind_Ret_inv in H as (? & s4 & [= _ <-] & H). intros _.
    rewrite (keeps_log_write_head _ _ _ H). ksimp.
    by rewrite (keeps_log_install _ _ _ H3), (keeps_log_write_head _ _ _ H2), (keeps_log_write_log _ _ _ H1).
  - brefl. intros [= <-] Hn. destruct (k_log s) as [a1 a2 a3 a4 a5 n a6]. cbn in *.
    assert (n = 0) as -> by lia. done.
Qed.

Lemma begin_op_Ret s s' :
  begin_op s = Ret tt s' ->
  k_log s' = set_lg_outstanding (lg_outstanding (k_log s) + 1) (k_log s) /\
  lg_committing (k_log s) = 0 /\
  lg_n (k_log s) + (lg_outstanding (k_log s) + 1) * MAXOPBLOCKS <= LOGSIZE.
Proof.
  intros (? & s1 & H1 & H)%bind_Ret_inv.
  assert (E1 : k_log s1 = k_log s) by (by apply (keeps_acquire k_log L_log (fun _ _ => eq_refl) _ _ _ H1)).
  unfold begin_op_loop in H. rewrite bind_run in H. unfold gets in H. rewrite E1 in H.
  destruct (negb _) eqn:Ec; [by apply bind_Ret_inv in H as (? & ? & _ & ?)|].
  destruct (_ <? _) eqn:En; [by apply bind_Ret_inv in H as (? & ? & _ & ?)|]. brefl.
  apply bind_Ret_inv in H as (? & s2 & [= _ <-] & H).
  rewrite (keeps_release k_log L_log (fun _ _ => eq_refl) _ _ _ H). ksimp. by rewrite E1.
Qed.

Lemma log_write_Ret b s s' :
  log_write b s = Ret tt s' ->
  lg_outstanding (k_log s') = lg_outstanding (k_log s) /\
  (lg_n (k_log s') = lg_n (k_log s) \/ lg_n (k_log s') = lg_n (k_log s) + 1).
Proof.
  unfold log_write. rewrite bind_run. unfold gets at 1. destruct (_ || _)%bool; [done|].
  destruct (_ <? 1); [done|]. intros (? & s1 & H1 & H)%bind_Ret_inv.
  assert (E1 : k_log s1 = k_log s) by (by apply (keeps_acquire k_log L_log (fun _ _ => eq_refl) _ _ _ H1)).
  rewrite bind_run in H. unfold gets in H. rewrite E1 in H. apply bind_Ret_inv in H as (v & s2 & H2 & H).
  apply (keeps_get_buf k_log) in H2. apply bind_Ret_inv in H as (? & s3 & [= _ <-] & H).
  apply bind_Ret_inv in H as (? & s4 & H4 & H).
  assert (K : k_log s' = k_log s4).
  { revert H. apply keeps_bind; [by apply keeps_upd_buf|intros; by apply keeps_release]. }
  rewrite K. destruct (_ =? lg_n _); injection H4 as _ <-; ksimp; rewrite H2, E1; auto.
Qed.

Lemma end_op_Ret s s' :
  end_op s = Ret tt s' -> 0 <= lg_n (k_log s) ->
  lg_outstanding (k_log s') = lg_outstanding (k_log s) - 1 /\ 0 <= lg_n (k_log s') <= lg_n (k_log s).
Proof.
  unfold end_op. intros (? & s1 & H1 & H)%bind_Ret_inv Hn.
  assert (E1 : k_log s1 = k_log s) by (by apply (keeps_acquire k_log L_log (fun _ _ => eq_refl) _ _ _ H1)).
  apply bind_Ret_inv in H as (? & s2 & [= _ <-] & H). rewrite bind_run in H. unfold gets in H. ksimp in H.
  rewrite E1 in H. destruct (negb _); [done|].
  apply bind_Ret_inv in H as (dc & s3 & H3 & H). apply bind_Ret_inv in H as (? & s4 & H4 & H).
  apply (keeps_release k_log L_log (fun _ _ => eq_refl)) in H4.
  set (l1 := set_lg_outstanding (lg_outstanding (k_log s) - 1) (k_log s)) in *.
  destruct (lg_outstanding (k_log s) - 1 =? 0).
  - injection H3 as <- <-. apply bind_Ret_inv in H as ([] & s5 & H5 & H).
    apply commit_log in H5; [|by rewrite H4]. apply bind_Ret_inv in H as (? & s6 & H6 & H).
    apply (keeps_acquire k_log L_log (fun _ _ => eq_refl)) in H6.
    apply bind_Ret_inv in H as (? & s7 & [= _ <-] & H).
    apply (keeps_bind k_log) in H; [|by apply keeps_wakeup|intros; by apply keeps_release].
    rewrite H. ksimp. rewrite H6, H5, H4. cbn. lia.
  - apply bind_Ret_inv in H3 as (? & s3' & H3' & [= <- <-]). injection H as <-.
    apply (keeps_wakeup k_log) in H3'; [|done..]. rewrite H4, H3'. cbn. lia.
Qed.

Lemma quota_cons u q : quota_left (u :: q) = MAXOPBLOCKS - u + quota_left q.
Proof. done. Qed.

Lemma quota_insert q k u : q !! k = Some u -> quota_left (<[k := u + 1]> q) = quota_left q - 1.
Proof.
  revert k. induction q as [|a q IH]; intros [|k] Hk; try done.
  - injection Hk as ->. change (<[0%nat := u + 1]> (u :: q)) with (u + 1 :: q). rewrite !quota_cons. lia.
  - change (<[S k := u + 1]> (a :: q)) with (a :: <[k := u + 1]> q). rewrite !quota_cons, (IH k Hk). lia.
Qed.

Lemma quota_delete q k u :
  q !! k = Some u -> u <= MAXOPBLOCKS -> quota_left (delete k q) <= quota_left q.
Proof.
  revert k. induction q as [|a q IH]; intros [|k] Hk Hu; try done.
  - injection Hk as ->. change (delete 0%nat (u :: q)) with q. rewrite quota_cons. lia.
  - change (delete (S k) (a :: q)) with (a :: delete k q). rewrite !quota_cons.
    specialize (IH k Hk Hu). lia.
Qed.

Lemma quota_bounds q : Forall (fun u => 0 <= u <= MAXOPBLOCKS) q ->
  0 <= quota_left q <= Z.of_nat (length q) * MAXOPBLOCKS.
Proof.
  induction 1 as [|u q Hu Hq IH]; cbn [quota_left foldr length]; [lia|]. fold (quota_left q).
  unfold MAXOPBLOCKS in *. lia.
Qed.

Lemma quota_some q k u : Forall (fun u => 0 <= u <= MAXOPBLOCKS) q ->
  q !! k = Some u -> MAXOPBLOCKS - u <= quota_left q.
Proof.
  intros Hq. revert k. induction Hq as [|a q Ha Hq IH]; intros [|k] Hk; try done; rewrite quota_cons;
    pose proof (quota_bounds _ Hq); cbn in Ha.
  - injection Hk as ->. lia.
  - specialize (IH k Hk). lia.
Qed.

Lemma ledger_inv_step x y : ledger_step x y -> ledger_inv x -> ledger_inv y.
Proof.
  intros [s s' q Hr|s s' q k u b Hk Hu Hr|s s' q k u Hk Hr|s s' q E] (Hn & Ho & Hq & Hl);
    unfold ledger_inv.
  - apply begin_op_Ret in Hr as (-> & _ & Hadm). cbn [lg_n lg_outstanding set_lg_outstanding].
    pose proof (quota_bounds _ Hq). split; [done|]. split; [cbn; lia|].
    split; [constructor; [unfold MAXOPBLOCKS; lia|done]|]. cbn [quota_left foldr]. fold (quota_left q).
    rewrite Ho in Hadm. unfold MAXOPBLOCKS in *. lia.
  - apply log_write_Ret in Hr as (E1 & E2). pose proof (lookup_lt_Some _ _ _ Hk).
    pose proof (proj1 (Forall_lookup _ _) Hq _ _ Hk) as Hu'. cbn in Hu'.
    split; [lia|]. split; [rewrite E1, length_insert; lia|].
    split; [apply Forall_insert; [done|lia]|]. rewrite (quota_insert _ _ _ Hk). lia.
  - apply end_op_Ret in Hr as (E1 & E2); [|done]. pose proof (lookup_lt_Some _ _ _ Hk).
    pose proof (proj1 (Forall_lookup _ _) Hq _ _ Hk) as Hu'. cbn in Hu'.
    split; [lia|]. split; [rewrite E1, length_delete by (by eexists); lia|].
    split; [by apply Forall_delete|]. pose proof (quota_delete _ _ _ Hk ltac:(lia)). lia.
  - by rewrite E.
Qed.

(** However [begin_op], [log_write] and [end_op] of concurrent operations
    interleave, as long as no operation logs more than [MAXOPBLOCKS] blocks
    the log never has to take more than [LOGSIZE]: an operation with quota
    left finds [log.lh.n < LOGSIZE], so that [log_write] can only panic with
    "too big a transaction" if the log area itself is smaller than that. *)
Theorem log_space_suffices s0 s q k u b :
  lg_n (k_log s0) = 0 -> lg_outstanding (k_log s0) = 0 ->
  rtc ledger_step (s0, []) (s, q) -> q !! k = Some u -> u < MAXOPBLOCKS ->
  lg_n (k_log s) < LOGSIZE /\
  (LOGSIZE < lg_size (k_log s) -> forall s', log_write b s <> Stop (Panic "too big a transaction") s').
Proof.
  intros Hn Ho Hr Hk Hu.
  assert (Hinv : ledger_inv (s, q)).
  { refine (rtc_ind_r (fun y => ledger_inv y) (s0, []) _ _ (s, q) Hr).
    - cbn. rewrite Hn, Ho. unfold LOGSIZE, MAXOPBLOCKS. split; [lia|]. split; [done|]. split; [done|lia].
    - intros y z _ Hst. by apply ledger_inv_step. }
  destruct Hinv as (H1 & H2 & H3 & H4). pose proof (quota_some _ _ _ H3 Hk).
  split; [lia|]. intros Hsz s' E. unfold log_write in E. rewrite bind_run in E. unfold gets at 1 in E.
  rewrite (proj2 (Z.leb_gt _ _)), (proj2 (Z.leb_gt _ _)) in E by lia. cbn [orb] in E.
  destruct (_ <? 1); [done|]. revert E. clear. rewrite bind_run. unfold acquire. destruct (holding L_log s); [discriminate|].
  rewrite bind_run. unfold gets. rewrite bind_run. unfold get_buf. rewrite bind_run. unfold gets.
  destruct (_ !! b) as [v|] eqn:Ev; [|done]. cbn [deref mret prog_ret]. rewrite bind_run. unfold upd_log at 1, modify.
  rewrite bind_run. destruct (_ =? lg_n _); unfold upd_log, modify; cbn [mret prog_ret];
    rewrite bind_run; (erewrite upd_buf_Ret by exact Ev); unfold release; by case_match.
Qed.

Lemma log_space_suffices_witness : exists s q, rtc ledger_step (one_proc, []) (s, q) /\
  q !! 0%nat = Some 0 /\ lg_n (k_log s) < LOGSIZE.
Proof.
  assert (Hst : exists s, ledger_step (one_proc, []) (s, [0])).
  { eexists. apply ls_begin. vm_compute. reflexivity. }
  destruct Hst as [s Hst]. exists s, [0]. assert (Hr : rtc ledger_step (one_proc, []) (s, [0])) by (by apply rtc_once).
  split; [done|]. split; [done|].
  apply (log_space_suffices one_proc s [0] 0 0 0); [reflexivity|reflexivity|exact Hr|reflexivity|reflexivity].
Defined.

(** A process for which [begin_op] has no room, or that finds a commit
    in progress, sleeps on the log with the log unchanged and only
    [ptable.lock] held; otherwise it is counted and has [MAXOPBLOCKS] slots
    reserved for it. *)
Theorem begin_op_admission s i p :
  k_proc s = Some i -> k_ptable s !! i = Some p -> k_held s = [] ->
  let l := k_log s in
  if bool_decide (lg_committing l = 0 /\ lg_n l + (lg_outstanding l + 1) * MAXOPBLOCKS <= LOGSIZE)
  then begin_op s = Ret tt (set_k_log (set_lg_outstanding (lg_outstanding l + 1) l) s)
  else exists s', begin_op s = Stop Switch s' /\ k_log s' = l /\ k_held s' = [L_ptable] /\
         k_ptable s' = <[i := set_p_state SLEEPING (set_p_chan (Some C_log) p)]> (k_ptable s).
Proof.
  intros Hme Hp Hh l. unfold begin_op.
  rewrite (bind_Ret _ _ _ _ _ (acquire_free L_log s ltac:(rewrite Hh; apply not_elem_of_nil))), Hh.
  unfold begin_op_loop. kgets. ksimp. fold l.
  pose proof (block_run (A := unit) C_log L_log i p (set_k_held [L_log] s) Hme Hp eq_refl ltac:(done)) as Hb.
  case_bool_decide as Hd.
  - destruct Hd as [Hc Hn]. rewrite Hc. cbn [Z.eqb negb]. rewrite (proj2 (Z.ltb_ge _ _)) by lia.
    rewrite bind_run. unfold upd_log, modify. rewrite (release_held _ _ []) by (done || apply not_elem_of_nil).
    rewrite <- Hh. by destruct s.
  - destruct (Z.eqb_spec (lg_committing l) 0); cbn [negb].
    + rewrite (proj2 (Z.ltb_lt _ _)) by lia. rewrite Hb. by eexists.
    + rewrite Hb. by eexists.
Qed.

Lemma begin_op_admission_witness :
  begin_op one_proc = Ret tt (set_k_log (set_lg_outstanding 1 log0) one_proc) /\
  exists s', begin_op (set_k_log (set_lg_outstanding 3 log0) one_proc) = Stop Switch s' /\
    k_held s' = [L_ptable].
Proof.
  split.
  - exact (begin_op_admission one_proc 0 _ eq_refl eq_refl eq_refl).
  - destruct (begin_op_admission (set_k_log (set_lg_outstanding 3 log0) one_proc) 0 _ eq_refl eq_refl eq_refl)
      as (s' & H1 & _ & H2 & _). exists s'. split; [exact H1|exact H2].
Defined.

(** Three operations that log ten different blocks each. *)
Definition three_ops : K unit :=
  begin_op ;; begin_op ;; begin_op ;;
  for_loop 30 100 (fun n => b ← bread 1 n; log_write b ;; brelse b).

