(* ===== verification/Spinlock.v ===== *)
(** * Spin locks: src/xv6/spinlock.c on several CPUs

    The machine: for every lock its [locked] word and [cpu] field, for every
    CPU its [ncli], [intena] and interrupt flag, and how far it is inside
    [acquire] or [release].  A step is one CPU executing one of the actions
    that other CPUs can observe (the body of acquire before the loop, one
    [xchg], the assignment of [lk->cpu], ...); steps of different CPUs
    interleave freely.

    The theorems: no two CPUs are ever in the critical section of the same
    lock; [holding] is exactly "this CPU is between acquire and release",
    which is the contract by which [KState] describes locks; and interrupts
    are off from the start of [acquire] to the end of [release]. *)

From stdpp Require Import base list list_numbers numbers functions strings relations.
From Stdlib Require Import ZArith Lia.
From S2P Require Import Prelude Mem KState.

(** [struct spinlock] (the name and the recorded call stack are for
    debugging and are not kept). *)
Record spinlock := mkLock { sl_locked : Z; sl_cpu : option nat }.

(** Where a CPU is: running kernel code, in the loop of [acquire], after the
    [xchg] that got the lock, in [release] before and after the [xchg]. *)
Inductive phase :=
| Run | Spin (lk : lockid) | Got (lk : lockid) | Rel (lk : lockid) | Popping (lk : lockid)
| Panicked (msg : string).

(** The part of [struct cpu] that spinlock.c uses, the interrupt flag, the
    phase, and the locks whose critical section the CPU is in. *)
Record cpu := mkCpu {
  cp_ncli : Z; cp_intena : bool; cp_if : bool; cp_phase : phase; cp_own : list lockid
}.

Record machine := mkM { m_lock : lockid -> spinlock; m_cpu : nat -> cpu }.

Definition initlock : spinlock := mkLock 0 None.

(** ** spinlock.c *)

Definition pushcli (p : cpu) : cpu :=
  let eflags := cp_if p in
  mkCpu (cp_ncli p + 1) (if cp_ncli p =? 0 then eflags else cp_intena p) false (cp_phase p) (cp_own p).

Definition popcli (p : cpu) : cpu + string :=
  if cp_if p then inr "popcli - interruptible"%string
  else
    let n := cp_ncli p - 1 in
    if n <? 0 then inr "popcli"%string
    else inl (mkCpu n (cp_intena p) ((n =? 0) && cp_intena p)%bool (cp_phase p) (cp_own p)).

Definition holding (c : nat) (l : spinlock) : bool :=
  negb (sl_locked l =? 0) && bool_decide (sl_cpu l = Some c).

(** x86.h: [xchg] stores the new value and returns the old one. *)
Definition xchg (v : Z) (l : spinlock) : Z * spinlock := (sl_locked l, mkLock v (sl_cpu l)).

Definition set_phase (ph : phase) (p : cpu) : cpu :=
  mkCpu (cp_ncli p) (cp_intena p) (cp_if p) ph (cp_own p).
Definition set_own (o : list lockid) (p : cpu) : cpu :=
  mkCpu (cp_ncli p) (cp_intena p) (cp_if p) (cp_phase p) o.

Definition upd_cpu (m : machine) (c : nat) (p : cpu) : machine := mkM (m_lock m) (<[c := p]> (m_cpu m)).
Definition upd_lock (m : machine) (lk : lockid) (l : spinlock) : machine :=
  mkM (<[lk := l]> (m_lock m)) (m_cpu m).

(** [acquire] up to its loop. *)
Definition acquire_enter (c : nat) (lk : lockid) (m : machine) : machine :=
  let p := pushcli (m_cpu m c) in
  if holding c (m_lock m lk) then upd_cpu m c (set_phase (Panicked "acquire") p)
  else upd_cpu m c (set_phase (Spin lk) p).

(** One turn of [while(xchg(&lk->locked, 1) != 0)]. *)
Definition acquire_xchg (c : nat) (lk : lockid) (m : machine) : machine :=
  let '(old, l) := xchg 1 (m_lock m lk) in
  let m1 := upd_lock m lk l in
  if old =? 0 then upd_cpu m1 c (set_phase (Got lk) (m_cpu m c)) else m1.

(** [lk->cpu = cpu], and [acquire] returns. *)
Definition acquire_done (c : nat) (lk : lockid) (m : machine) : machine :=
  let p := m_cpu m c in
  upd_cpu (upd_lock m lk (mkLock (sl_locked (m_lock m lk)) (Some c))) c
    (set_own (lk :: cp_own p) (set_phase Run p)).

(** [release] up to its [xchg]. *)
Definition release_enter (c : nat) (lk : lockid) (m : machine) : machine :=
  let p := m_cpu m c in
  if negb (holding c (m_lock m lk)) then upd_cpu m c (set_phase (Panicked "release") p)
  else upd_cpu (upd_lock m lk (mkLock (sl_locked (m_lock m lk)) None)) c
         (set_own (drop_lock lk (cp_own p)) (set_phase (Rel lk) p)).

Definition release_xchg (c : nat) (lk : lockid) (m : machine) : machine :=
  let '(_, l) := xchg 0 (m_lock m lk) in
  upd_cpu (upd_lock m lk l) c (set_phase (Popping lk) (m_cpu m c)).

Definition release_done (c : nat) (m : machine) : machine :=
  let p := m_cpu m c in
  match popcli p with
  | inl p' => upd_cpu m c (set_phase Run p')
  | inr msg => upd_cpu m c (set_phase (Panicked msg) p)
  end.

Inductive step : machine -> machine -> Prop :=
| st_acquire m c lk : cp_phase (m_cpu m c) = Run -> step m (acquire_enter c lk m)
| st_spin m c lk : cp_phase (m_cpu m c) = Spin lk -> step m (acquire_xchg c lk m)
| st_got m c lk : cp_phase (m_cpu m c) = Got lk -> step m (acquire_done c lk m)
| st_release m c lk : cp_phase (m_cpu m c) = Run -> step m (release_enter c lk m)
| st_xchg m c lk : cp_phase (m_cpu m c) = Rel lk -> step m (release_xchg c lk m)
| st_pop m c lk : cp_phase (m_cpu m c) = Popping lk -> step m (release_done c m)
(* the scheduler enables interrupts when it holds no lock *)
| st_sti m c : cp_phase (m_cpu m c) = Run -> cp_ncli (m_cpu m c) = 0 ->
    step m (upd_cpu m c (mkCpu 0 (cp_intena (m_cpu m c)) true Run (cp_own (m_cpu m c)))).

(** Locks initialised, no CPU in a critical section. *)
Definition m_init : machine :=
  mkM (fun _ => initlock) (fun _ => mkCpu 0 false false Run []).

(** ** The invariant *)

(** CPU [c] has taken the lock word of [lk] and not given it back. *)
Definition has (p : cpu) (lk : lockid) : Prop :=
  lk ∈ cp_own p \/ cp_phase p = Got lk \/ cp_phase p = Rel lk.

Definition inside (p : cpu) : Z :=
  match cp_phase p with Run | Panicked _ => 0 | _ => 1 end.

(** What holds of one CPU by itself. *)
Record cpu_ok (p : cpu) : Prop := {
  ck_nodup : NoDup (cp_own p);
  ck_phase : forall lk, cp_phase p = Got lk \/ cp_phase p = Rel lk -> lk ∉ cp_own p;
  ck_ncli : (forall msg, cp_phase p <> Panicked msg) ->
    cp_ncli p = Z.of_nat (length (cp_own p)) + inside p;
  ck_if : cp_if p = true -> cp_ncli p = 0;
  ck_pop : cp_phase p <> Panicked "popcli" /\ cp_phase p <> Panicked "popcli - interruptible"
}.

Record lock_inv (m : machine) : Prop := {
  li_has : forall lk c, has (m_cpu m c) lk -> sl_locked (m_lock m lk) = 1;
  li_free : forall lk, sl_locked (m_lock m lk) = 0 \/ sl_locked (m_lock m lk) = 1;
  li_one : forall lk c c', has (m_cpu m c) lk -> has (m_cpu m c') lk -> c = c';
  li_cpu : forall lk c, sl_cpu (m_lock m lk) = Some c <-> lk ∈ cp_own (m_cpu m c);
  li_local : forall c, cpu_ok (m_cpu m c)
}.

Lemma holding_own m c lk :
  lock_inv m -> holding c (m_lock m lk) = bool_decide (lk ∈ cp_own (m_cpu m c)).
Proof.
  intros Hi. unfold holding. apply eq_true_iff_eq.
  rewrite andb_true_iff, negb_true_iff, Z.eqb_neq, !bool_decide_eq_true, (li_cpu _ Hi).
  split; [tauto|]. intros Ho. split; [|done].
  rewrite (li_has _ Hi lk c) by (by left). lia.
Qed.

Lemma cpu_upd m c p c' : m_cpu (upd_cpu m c p) c' = if decide (c = c') then p else m_cpu m c'.
Proof.
  unfold upd_cpu. cbn. case_decide as E; [subst; by rewrite fn_lookup_insert|by rewrite fn_lookup_insert_ne].
Qed.

Lemma lock_upd m lk l lk' : m_lock (upd_lock m lk l) lk' = if decide (lk = lk') then l else m_lock m lk'.
Proof.
  unfold upd_lock. cbn. case_decide as E; [subst; by rewrite fn_lookup_insert|by rewrite fn_lookup_insert_ne].
Qed.

(** A step of CPU [c] on lock [lk] that keeps the invariant. *)
Record good_step (m : machine) (c : nat) (lk : lockid) (p' : cpu) (l' : spinlock) : Prop := {
  gs_other : forall lk', lk' <> lk ->
    (has p' lk' -> has (m_cpu m c) lk') /\ (lk' ∈ cp_own p' <-> lk' ∈ cp_own (m_cpu m c));
  gs_has : has p' lk -> sl_locked l' = 1 /\ forall c', c' <> c -> ~ has (m_cpu m c') lk;
  gs_keep : forall c', c' <> c -> has (m_cpu m c') lk -> sl_locked l' = 1;
  gs_bit : sl_locked l' = 0 \/ sl_locked l' = 1;
  gs_cpu : forall c', sl_cpu l' = Some c' <-> if decide (c' = c) then lk ∈ cp_own p' else lk ∈ cp_own (m_cpu m c');
  gs_local : cpu_ok p'
}.

Lemma good_step_inv m c lk p' l' m' :
  lock_inv m -> good_step m c lk p' l' ->
  (forall c', m_cpu m' c' = if decide (c = c') then p' else m_cpu m c') ->
  (forall lk', m_lock m' lk' = if decide (lk = lk') then l' else m_lock m lk') ->
  lock_inv m'.
Proof.
  intros Hi Hg Hc Hl. split.
  - intros lk' c'. rewrite Hc, Hl. destruct (decide (c = c')) as [<-|Nc], (decide (lk = lk')) as [<-|Nl].
    + intros H. by apply (gs_has _ _ _ _ _ Hg).
    + intros H%(gs_other _ _ _ _ _ Hg); [|done]. by apply (li_has _ Hi lk' c).
    + intros H. by apply (gs_keep _ _ _ _ _ Hg c').
    + apply (li_has _ Hi).
  - intros lk'. rewrite Hl. case_decide; [apply (gs_bit _ _ _ _ _ Hg)|apply (li_free _ Hi)].
  - intros lk' c1 c2. rewrite !Hc.
    destruct (decide (c = c1)) as [<-|N1], (decide (c = c2)) as [<-|N2], (decide (lk' = lk)) as [->|Nl]; intros H1 H2;
      try done; try (apply (gs_other _ _ _ _ _ Hg) in H1; [|done]); try (apply (gs_other _ _ _ _ _ Hg) in H2; [|done]);
      try (by apply (li_one _ Hi lk')); try (by apply (li_one _ Hi lk)).
    + exfalso. by apply (proj2 (gs_has _ _ _ _ _ Hg H1) c2).
    + exfalso. by apply (proj2 (gs_has _ _ _ _ _ Hg H2) c1).
  - intros lk' c'. rewrite Hc, Hl. destruct (decide (lk = lk')) as [<-|Nl].
    + rewrite (gs_cpu _ _ _ _ _ Hg c'). destruct (decide (c' = c)), (decide (c = c')); try done; congruence.
    + rewrite (li_cpu _ Hi). case_decide as E; [subst|done].
      symmetry. by apply (gs_other _ _ _ _ _ Hg).
  - intros c'. rewrite Hc. case_decide; [apply (gs_local _ _ _ _ _ Hg)|apply (li_local _ Hi)].
Qed.

Lemma has_run p lk : cp_phase p = Run -> has p lk -> lk ∈ cp_own p.
Proof. intros E [H|[H|H]]; congruence. Qed.

(** The [cpu] field of a lock, when the step does not change it. *)
Lemma same_cpu m c lk p' :
  lock_inv m -> (lk ∈ cp_own p' <-> lk ∈ cp_own (m_cpu m c)) ->
  forall c', sl_cpu (m_lock m lk) = Some c' <->
    if decide (c' = c) then lk ∈ cp_own p' else lk ∈ cp_own (m_cpu m c').
Proof. intros Hi Ho c'. rewrite (li_cpu _ Hi). case_decide; subst; tauto. Qed.

(** Steps in which only the CPU changes, keeping its locks. *)
Lemma local_step m c lk p' :
  lock_inv m -> cp_own p' = cp_own (m_cpu m c) ->
  (forall lk', has p' lk' -> has (m_cpu m c) lk') -> cpu_ok p' ->
  good_step m c lk p' (m_lock m lk).
Proof.
  intros Hi Ho Hh Hok. split; [| | | | |done].
  - intros lk' _. rewrite Ho. split; [auto|done].
  - intros H%Hh. split; [by apply (li_has _ Hi lk c)|]. intros c' Nc H'. apply Nc. by apply (li_one _ Hi lk).
  - intros c' _ H. by apply (li_has _ Hi lk c').
  - apply (li_free _ Hi).
  - apply same_cpu; [done|by rewrite Ho].
Qed.

Lemma lock_inv_local m c lk p' :
  lock_inv m -> good_step m c lk p' (m_lock m lk) -> lock_inv (upd_cpu m c p').
Proof.
  intros Hi Hg. eapply (good_step_inv m c lk p' (m_lock m lk)); [done|done|apply cpu_upd|].
  intros lk'. cbn. case_decide; by subst.
Qed.

Lemma lock_inv_both m c lk p' l' :
  lock_inv m -> good_step m c lk p' l' -> lock_inv (upd_cpu (upd_lock m lk l') c p').
Proof.
  intros Hi Hg. eapply (good_step_inv m c lk p' l'); [done|done|intros c'; apply (cpu_upd (upd_lock m lk l'))|].
  intros lk'. apply lock_upd.
Qed.

Lemma acquire_enter_inv m c lk : lock_inv m -> cp_phase (m_cpu m c) = Run -> lock_inv (acquire_enter c lk m).
Proof.
  intros Hi Hp. pose proof (li_local _ Hi c) as [K1 K2 K3 K4 K5]. unfold acquire_enter.
  assert (Hn : cp_ncli (m_cpu m c) = Z.of_nat (length (cp_own (m_cpu m c)))).
  { rewrite K3 by congruence. unfold inside. rewrite Hp. lia. }
  destruct (holding _ _); apply (lock_inv_local m c lk); try done;
    (apply local_step; [done|done|intros lk' [H|[H|H]]; [by left|done|done]|]);
    split; cbn; try done; try (intros ? [|]; done); try (by intros H; destruct (H "acquire"%string)).
  intros _. unfold inside. cbn. lia.
Qed.

Lemma acquire_xchg_inv m c lk : lock_inv m -> cp_phase (m_cpu m c) = Spin lk -> lock_inv (acquire_xchg c lk m).
Proof.
  intros Hi Hp. pose proof (li_local _ Hi c) as [K1 K2 K3 K4 K5]. unfold acquire_xchg. cbn [xchg].
  assert (Hcase : forall lk', has (m_cpu m c) lk' -> lk' ∈ cp_own (m_cpu m c)).
  { intros lk' [H|[H|H]]; congruence. }
  destruct (Z.eqb_spec (sl_locked (m_lock m lk)) 0) as [E|E].
  - apply lock_inv_both; [done|].
    assert (Hno : forall c', ~ has (m_cpu m c') lk).
    { intros c' H. pose proof (li_has _ Hi lk c' H). lia. }
    split; cbn; [|split; [done|intros c' _; apply Hno]|done|by right|by apply same_cpu|].
    + intros lk' Nl. split; [|done]. intros [H|[H|H]]; cbn in H; [by left|congruence|done].
    + split; cbn; [done| |intros _; rewrite K3 by congruence; unfold inside; cbn; by rewrite Hp|done|done].
      intros lk' [[= <-]|?]; [|done]. intros H. apply (Hno c). by left.
  - assert (E1 : sl_locked (m_lock m lk) = 1) by (destruct (li_free _ Hi lk); lia).
    assert (Hlk : m_lock m lk = mkLock 1 (sl_cpu (m_lock m lk))) by (rewrite <- E1; by destruct (m_lock m lk)).
    eapply (good_step_inv m c lk (m_cpu m c) (m_lock m lk)); [done| | |].
    + apply local_step; auto. apply (li_local _ Hi).
    + intros c'. cbn. case_decide; by subst.
    + intros lk'. rewrite lock_upd. case_decide; [by rewrite Hlk|done].
Qed.

Lemma acquire_done_inv m c lk : lock_inv m -> cp_phase (m_cpu m c) = Got lk -> lock_inv (acquire_done c lk m).
Proof.
  intros Hi Hp. pose proof (li_local _ Hi c) as [K1 K2 K3 K4 K5]. unfold acquire_done.
  assert (Hhas : has (m_cpu m c) lk) by (right; by left). apply lock_inv_both; [done|].
  pose proof (li_has _ Hi lk c Hhas) as E. split; cbn.
  - intros lk' Nl. rewrite elem_of_cons. split; [|tauto]. intros [H|[H|H]]; cbn in H; try done.
    apply elem_of_cons in H as [?|?]; [done|by left].
  - intros _. split; [done|]. intros c' Nc H. apply Nc. by apply (li_one _ Hi lk).
  - done.
  - by right.
  - intros c'. case_decide as Ec; [subst; split; [left|done]|]. split; [congruence|].
    intros H. exfalso. apply Ec. apply (li_one _ Hi lk); [by left|done].
  - split; cbn; [|intros ? [|]; done| |done|done].
    + apply NoDup_cons. split; [|done]. apply K2. by left.
    + intros _. rewrite K3 by congruence. unfold inside. cbn. rewrite Hp. lia.
Qed.

Lemma length_drop_lock lk o : NoDup o -> lk ∈ o -> S (length (drop_lock lk o)) = length o.
Proof.
  unfold drop_lock. induction 1 as [|x o Hx Hnd IH]; [intros H; by apply elem_of_nil in H|].
  intros [->|Hin]%elem_of_cons.
  - rewrite filter_cons_False by tauto. cbn. f_equal.
    clear IH Hnd. induction o as [|y o IH]; [done|]. apply not_elem_of_cons in Hx as [? ?].
    rewrite filter_cons_True by congruence. cbn. f_equal. by apply IH.
  - rewrite filter_cons_True by congruence. cbn. f_equal. by apply IH.
Qed.

Lemma release_enter_inv m c lk : lock_inv m -> cp_phase (m_cpu m c) = Run -> lock_inv (release_enter c lk m).
Proof.
  intros Hi Hp. pose proof (li_local _ Hi c) as [K1 K2 K3 K4 K5]. unfold release_enter.
  rewrite (holding_own _ _ _ Hi). case_bool_decide as Ho; cbn [negb].
  - assert (Hhas : has (m_cpu m c) lk) by (by left). pose proof (li_has _ Hi lk c Hhas) as E.
    assert (Hdrop : forall x, x ∈ drop_lock lk (cp_own (m_cpu m c)) <-> x <> lk /\ x ∈ cp_own (m_cpu m c))
      by (intros x; unfold drop_lock; by rewrite list_elem_of_filter).
    apply lock_inv_both; [done|]. split; cbn.
    + intros lk' Nl. split; [|rewrite Hdrop; tauto]. intros [H|[H|H]]; cbn in H; [|done|congruence].
      left. by apply Hdrop.
    + intros _. split; [done|]. intros c' Nc H. apply Nc. by apply (li_one _ Hi lk).
    + done.
    + by right.
    + intros c'. case_decide as Ec; [split; [done|]; rewrite Hdrop; tauto|]. split; [done|].
      intros H. exfalso. apply Ec. apply (li_one _ Hi lk); [by left|done].
    + split; cbn; [by apply NoDup_filter| | |done|done].
      * intros lk' [?|[= <-]]; [done|]. rewrite Hdrop. tauto.
      * intros _. rewrite K3 by congruence. unfold inside. cbn. rewrite Hp.
        pose proof (length_drop_lock _ _ K1 Ho). lia.
  - apply (lock_inv_local m c lk); [done|]. apply local_step; [done|done| |].
    + intros lk' [H|[H|H]]; [by left|done|done].
    + split; cbn; try done; [by intros ? [|]|by intros H; destruct (H "release"%string)].
Qed.

Lemma release_xchg_inv m c lk : lock_inv m -> cp_phase (m_cpu m c) = Rel lk -> lock_inv (release_xchg c lk m).
Proof.
  intros Hi Hp. pose proof (li_local _ Hi c) as [K1 K2 K3 K4 K5]. unfold release_xchg. cbn [xchg].
  assert (Hhas : has (m_cpu m c) lk) by (right; by right). pose proof (K2 lk (or_intror Hp)) as Hno.
  apply lock_inv_both; [done|]. split; cbn.
  - intros lk' Nl. split; [|done]. intros [H|[H|H]]; cbn in H; [by left|done|done].
  - intros [H|[H|H]]; cbn in H; done.
  - intros c' Nc H. exfalso. apply Nc. by apply (li_one _ Hi lk).
  - by left.
  - by apply same_cpu.
  - split; cbn; [done|by intros ? [|]| |done|done]. intros _. rewrite K3 by congruence.
    unfold inside. cbn. by rewrite Hp.
Qed.

Lemma release_done_inv m c lk : lock_inv m -> cp_phase (m_cpu m c) = Popping lk -> lock_inv (release_done c m).
Proof.
  intros Hi Hp. pose proof (li_local _ Hi c) as [K1 K2 K3 K4 K5].
  assert (Hn : cp_ncli (m_cpu m c) = Z.of_nat (length (cp_own (m_cpu m c))) + 1).
  { rewrite K3 by congruence. unfold inside. by rewrite Hp. }
  unfold release_done, popcli. destruct (cp_if (m_cpu m c)) eqn:Eif; [specialize (K4 eq_refl); lia|].
  rewrite (proj2 (Z.ltb_ge _ _)) by lia.
  apply (lock_inv_local m c lk); [done|]. apply local_step; [done|done| |].
  - intros lk' [H|[H|H]]; [by left|done|done].
  - split; cbn; [done|by intros ? [|]| | |done].
    + intros _. unfold inside. cbn. lia.
    + intros [?%Z.eqb_eq _]%andb_true_iff. lia.
Qed.

Lemma sti_inv m c : lock_inv m -> cp_phase (m_cpu m c) = Run -> cp_ncli (m_cpu m c) = 0 ->
  lock_inv (upd_cpu m c (mkCpu 0 (cp_intena (m_cpu m c)) true Run (cp_own (m_cpu m c)))).
Proof.
  intros Hi Hp Hn. pose proof (li_local _ Hi c) as [K1 K2 K3 K4 K5].
  apply (lock_inv_local m c L_kmem); [done|]. apply local_step; [done|done| |].
  - intros lk' [H|[H|H]]; [by left|done|done].
  - split; cbn; [done|by intros ? [|]| |done|done].
    intros _. rewrite K3 in Hn by congruence. unfold inside in *. cbn. rewrite Hp in Hn. lia.
Qed.

Lemma lock_inv_init : lock_inv m_init.
Proof.
  split; cbn; unfold has; cbn.
  - intros lk c [H|[H|H]]; [by apply elem_of_nil in H|done|done].
  - by left.
  - intros lk c c' [H|[H|H]]; [by apply elem_of_nil in H|done|done].
  - intros lk c. split; [done|]. intros H. by apply elem_of_nil in H.
  - intros c. split; cbn; [constructor|by intros ? [|]|done|done|done].
Qed.

Lemma lock_inv_reach m : rtc step m_init m -> lock_inv m.
Proof.
  intros Hr. refine (rtc_ind_r lock_inv m_init _ _ m Hr); [apply lock_inv_init|].
  intros y z _ [] Hy; eauto using acquire_enter_inv, acquire_xchg_inv, acquire_done_inv,
    release_enter_inv, release_xchg_inv, release_done_inv, sti_inv.
Qed.

(** ** The theorems *)

(** C3: mutual exclusion.  Whatever the interleaving of the CPUs, two CPUs
    are never both between the return of [acquire] and the call of [release]
    of the same lock; and the interrupts of a CPU are off while it is in a
    critical section or inside [acquire] or [release], so that no interrupt
    handler can try to take a lock its own CPU holds. *)
Theorem spinlock_mutual_exclusion m :
  rtc step m_init m ->
  (forall lk c c', lk ∈ cp_own (m_cpu m c) -> lk ∈ cp_own (m_cpu m c') -> c = c') /\
  (forall c, (forall msg, cp_phase (m_cpu m c) <> Panicked msg) ->
     cp_own (m_cpu m c) <> [] \/ cp_phase (m_cpu m c) <> Run -> cp_if (m_cpu m c) = false).
Proof.
  intros Hi%lock_inv_reach. split.
  - intros lk c c' H H'. by apply (li_one _ Hi lk); left.
  - intros c Hnp Hin. pose proof (li_local _ Hi c) as [_ _ K3 K4 _].
    destruct (cp_if (m_cpu m c)) eqn:E; [|done]. specialize (K4 eq_refl). rewrite K3 in K4 by done.
    exfalso. unfold inside in K4. destruct Hin as [Ho|Hp].
    + destruct (cp_own (m_cpu m c)); [done|]. cbn in K4. destruct (cp_phase (m_cpu m c)); lia.
    + destruct (cp_phase (m_cpu m c)) eqn:Ep; try lia; [done|by destruct (Hnp msg)].
Qed.

(** [acquire] of a free lock, and [release], run to their end. *)
Definition run_acquire (c : nat) (lk : lockid) (m : machine) : machine :=
  acquire_done c lk (acquire_xchg c lk (acquire_enter c lk m)).
Definition run_release (c : nat) (lk : lockid) (m : machine) : machine :=
  release_done c (release_xchg c lk (release_enter c lk m)).

(** Two CPUs take different locks at the same time. *)
Definition m_two : machine := run_acquire 1 L_log (run_acquire 0 L_kmem m_init).

Lemma m_two_reachable : rtc step m_init m_two.
Proof.
  unfold m_two, run_acquire.
  do 6 (eapply rtc_r; [|first [by apply st_got|by apply st_spin|by apply st_acquire]]). apply rtc_refl.
Qed.

Lemma spinlock_mutual_exclusion_witness :
  cp_own (m_cpu m_two 0) = [L_kmem] /\ cp_own (m_cpu m_two 1) = [L_log] /\ cp_if (m_cpu m_two 1) = false.
Proof.
  split; [reflexivity|]. split; [reflexivity|].
  destruct (spinlock_mutual_exclusion m_two m_two_reachable) as [_ H].
  apply H; [vm_compute; discriminate|left; vm_compute; discriminate].
Defined.

(** Spinlock.c implements the lock contract of the kernel model.  In any
    reachable state, for a CPU running kernel code whose critical sections
    are the locks [k_held s], the [acquire] of the model panics exactly when
    [acquire] of spinlock.c does, and otherwise, the lock being free, both
    return with the same locks held; the same for [release]. *)
Theorem spinlock_refines_contract m c lk s :
  rtc step m_init m -> cp_phase (m_cpu m c) = Run -> k_held s = cp_own (m_cpu m c) ->
  match acquire lk s with
  | Ret _ s' => sl_locked (m_lock m lk) = 0 ->
      cp_own (m_cpu (run_acquire c lk m) c) = k_held s' /\ cp_phase (m_cpu (run_acquire c lk m) c) = Run
  | Stop (Panic msg) _ => cp_phase (m_cpu (acquire_enter c lk m) c) = Panicked msg
  | _ => False
  end /\
  match release lk s with
  | Ret _ s' => cp_own (m_cpu (run_release c lk m) c) = k_held s' /\
                cp_phase (m_cpu (run_release c lk m) c) = Run
  | Stop (Panic msg) _ => cp_phase (m_cpu (release_enter c lk m) c) = Panicked msg
  | _ => False
  end.
Proof.
  intros Hi%lock_inv_reach Hp Hh. pose proof (holding_own m c lk Hi) as Ho. rewrite <- Hh in Ho.
  unfold acquire, release, KState.holding. split; case_bool_decide as Hin.
  - unfold acquire_enter. rewrite Ho. by rewrite cpu_upd, decide_True.
  - intros Hf. unfold run_acquire, acquire_enter. rewrite Ho. unfold acquire_xchg. cbn [xchg m_lock upd_cpu].
    rewrite Hf. cbn [Z.eqb]. unfold acquire_done. rewrite !cpu_upd, !decide_True by done. cbn.
    by rewrite Hh.
  - unfold run_release, release_enter. rewrite Ho. cbn [negb]. unfold release_xchg. cbn [xchg].
    pose proof (li_local _ Hi c) as [K1 _ K3 K4 _]. rewrite K3 in K4 by congruence.
    unfold release_done, popcli. cbn. rewrite !fn_lookup_insert. cbn. rewrite K3 by congruence. unfold inside in *.
    rewrite Hp in *. rewrite Hh in Hin. destruct (cp_own (m_cpu m c)) as [|x o] eqn:Eo; [by apply elem_of_nil in Hin|].
    destruct (cp_if (m_cpu m c)); [specialize (K4 eq_refl); cbn in K4; lia|].
    rewrite (proj2 (Z.ltb_ge _ _)) by (cbn; lia). cbn. rewrite fn_lookup_insert. cbn. by rewrite Hh.
  - unfold release_enter. rewrite Ho. cbn [negb]. by rewrite cpu_upd, decide_True.
Qed.

Lemma spinlock_refines_contract_witness :
  cp_own (m_cpu (run_acquire 0 L_log (run_acquire 0 L_kmem m_init)) 0) = [L_log; L_kmem].
Proof.
  assert (Hr : rtc step m_init (run_acquire 0 L_kmem m_init)).
  { unfold run_acquire. do 3 (eapply rtc_r; [|first [by apply st_got|by apply st_spin|by apply st_acquire]]).
    apply rtc_refl. }
  destruct (spinlock_refines_contract (run_acquire 0 L_kmem m_init) 0 L_log
              (set_k_held [L_kmem] (kzero ∅ (mkDisk 0 ∅ []))) Hr eq_refl eq_refl) as [H _].
  exact (proj1 (H eq_refl)).
Defined.
