(* ===== verification/Kalloc.v ===== *)
(** * The physical page allocator: src/xv6/kalloc.c

    The free list is kept, as in the code, in the free pages themselves: the
    first word of a free page ([struct run]) points to the next one and
    [k_freelist] to the first.  [free_list m p l] says that the pages [l] are
    so chained from [p].  The theorems say that [kalloc] and [kfree] are pop
    and push on that list, that a page is never handed out twice, and that
    the owner of a page can use it without disturbing the list. *)

From stdpp Require Import base list list_numbers numbers gmap strings.
From Stdlib Require Import ZArith Lia.
From S2P Require Import Prelude Mem CString KState.

Definition KERNBASE : Z := 0x80000000.
Definition PHYSTOP : Z := 0xE000000.
Definition PGROUNDUP (sz : Z) : Z := Z.land (sz + PGSIZE - 1) (Z.lnot (PGSIZE - 1)).
Definition PGROUNDDOWN (a : Z) : Z := Z.land a (Z.lnot (PGSIZE - 1)).
Definition v2p (a : Z) : Z := u32 (a - KERNBASE).
Definition p2v (a : Z) : Z := u32 (a + KERNBASE).

(** Arithmetic on pages. *)
Ltac pglia := unfold PGSIZE, KERNBASE, PHYSTOP in *; lia.

(** [end], the first address after the kernel, comes from the linker. *)
Section kalloc.
Context (end_ : Z).

Definition with_kmem_lock (m : K unit) : K unit :=
  u ← gets k_uselock; if u =? 0 then mret tt else m.

Definition kfree (v : Z) : K unit :=
  if (negb (v mod PGSIZE =? 0) || (v <? end_) || (PHYSTOP <=? v2p v))%bool
  then panic "kfree"
  else
    modify (fun s => set_k_mem (Kernel.memset (k_mem s) v 1 PGSIZE) s) ;;
    with_kmem_lock (acquire L_kmem) ;;
    modify (fun s => set_k_mem (st32 (k_mem s) v (k_freelist s)) s) ;;
    modify (set_k_freelist v) ;;
    with_kmem_lock (release L_kmem).

Definition kalloc : K Z :=
  with_kmem_lock (acquire L_kmem) ;;
  r ← gets k_freelist;
  (if negb (r =? 0) then modify (fun s => set_k_freelist (ld32 (k_mem s) r) s) else mret tt) ;;
  with_kmem_lock (release L_kmem) ;;
  mret r.

(** The loop of [freerange]. *)
Fixpoint freerange_loop (fuel : nat) (p vend : Z) : K unit :=
  match fuel with
  | O => stop NoFuel
  | S fuel' =>
      if u32 (p + PGSIZE) <=? vend then kfree p ;; freerange_loop fuel' (u32 (p + PGSIZE)) vend
      else mret tt
  end.
Definition freerange (vstart vend : Z) : K unit :=
  freerange_loop (S (Z.to_nat (vend / PGSIZE))) (u32 (PGROUNDUP vstart)) vend.

Definition kinit1 (vstart vend : Z) : K unit :=
  modify (set_k_uselock 0) ;; freerange vstart vend.
Definition kinit2 (vstart vend : Z) : K unit :=
  freerange vstart vend ;; modify (set_k_uselock 1).

(** ** The free list *)

Definition page_ok (v : Z) : Prop :=
  v mod PGSIZE = 0 /\ end_ <= v /\ KERNBASE <= v < KERNBASE + PHYSTOP.

Fixpoint free_list (m : mem) (p : Z) (l : list Z) : Prop :=
  match l with
  | [] => p = 0
  | v :: l' => p = v /\ page_ok v /\ free_list m (ld32 m v) l'
  end.

Record kmem_ok (s : kstate) (l : list Z) : Prop := {
  ko_list : free_list (k_mem s) (k_freelist s) l;
  ko_nodup : NoDup l;
  ko_lock : L_kmem ∉ k_held s
}.

Lemma page_ok_nz v : page_ok v -> v <> 0.
Proof. unfold page_ok, KERNBASE. lia. Qed.

Lemma page_guard v : page_ok v ->
  (negb (v mod PGSIZE =? 0) || (v <? end_) || (PHYSTOP <=? v2p v))%bool = false.
Proof.
  intros (H1 & H2 & H3). unfold v2p. rewrite u32_small by (unfold KERNBASE, PHYSTOP in *; lia).
  rewrite H1. apply orb_false_iff. split; [apply orb_false_iff; split; [done|apply Z.ltb_ge; lia]|].
  apply Z.leb_gt. lia.
Qed.

(** Two different pages do not overlap. *)
Lemma pages_apart v w : page_ok v -> page_ok w -> v <> w -> v + PGSIZE <= w \/ w + PGSIZE <= v.
Proof.
  intros (H1 & _) (H2 & _) Hne. unfold PGSIZE in *.
  pose proof (Z.div_mod v 4096 ltac:(lia)). pose proof (Z.div_mod w 4096 ltac:(lia)). lia.
Qed.

(** The list only depends on the free pages. *)
Lemma free_list_ext m m' l : forall p,
  (forall v a, v ∈ l -> v <= a < v + PGSIZE -> ld8 m a = ld8 m' a) ->
  free_list m p l -> free_list m' p l.
Proof.
  induction l as [|v l IH]; intros p Hm; [done|]. intros (-> & Hok & Hl).
  split; [done|]. split; [done|].
  assert (E : ld32 m v = ld32 m' v).
  { apply ld32_ext. intros a Ha. apply (Hm v); [left|unfold PGSIZE; lia]. }
  rewrite <- E. apply IH; [|done]. intros w a Hw. apply Hm. by right.
Qed.

Lemma free_list_ok m l : forall p, free_list m p l -> forall v, v ∈ l -> page_ok v.
Proof.
  induction l as [|w l IH]; intros p Hl v Hv; [by apply elem_of_nil in Hv|].
  destruct Hl as (_ & Hok & Hl). apply elem_of_cons in Hv as [->|Hv]; [done|]. by eapply IH.
Qed.

(** ** kfree and kalloc *)

Lemma with_lock_acquire s : L_kmem ∉ k_held s ->
  with_kmem_lock (acquire L_kmem) s =
  Ret tt (if k_uselock s =? 0 then s else set_k_held (L_kmem :: k_held s) s).
Proof.
  intros Hh. unfold with_kmem_lock. rewrite bind_run. unfold gets.
  destruct (k_uselock s =? 0); [done|]. by apply acquire_free.
Qed.

Lemma with_lock_release s h : L_kmem ∉ h ->
  k_held s = (if k_uselock s =? 0 then h else L_kmem :: h) ->
  with_kmem_lock (release L_kmem) s = Ret tt (set_k_held h s).
Proof.
  intros Hh E. unfold with_kmem_lock. rewrite bind_run. unfold gets.
  destruct (k_uselock s =? 0).
  - rewrite <- E. by destruct s.
  - by rewrite (release_held _ _ h).
Qed.

Lemma kfree_run s v : page_ok v -> L_kmem ∉ k_held s ->
  kfree v s = Ret tt (set_k_freelist v
    (set_k_mem (st32 (Kernel.memset (k_mem s) v 1 PGSIZE) v (k_freelist s)) s)).
Proof.
  intros Hv Hh. unfold kfree. rewrite page_guard by done. rewrite bind_run. unfold modify at 1.
  rewrite (bind_Ret _ _ _ _ _ (with_lock_acquire (set_k_mem (Kernel.memset (k_mem s) v 1 PGSIZE) s) Hh)). ksimp.
  destruct (k_uselock s =? 0) eqn:Eu; rewrite bind_run; unfold modify at 1; rewrite bind_run; unfold modify at 1;
    (rewrite (with_lock_release _ (k_held s)); [by destruct s|done|ksimp; by rewrite Eu]).
Qed.

Lemma kalloc_run s : L_kmem ∉ k_held s ->
  kalloc s = Ret (k_freelist s)
    (if k_freelist s =? 0 then s else set_k_freelist (ld32 (k_mem s) (k_freelist s)) s).
Proof.
  intros Hh. unfold kalloc. rewrite (bind_Ret _ _ _ _ _ (with_lock_acquire s Hh)).
  destruct (k_uselock s =? 0) eqn:Eu; rewrite bind_run; unfold gets; ksimp;
    destruct (k_freelist s =? 0) eqn:Ef; cbn [negb]; rewrite bind_run; unfold modify; ksimp;
    (erewrite bind_Ret; [|apply (with_lock_release _ (k_held s)); [done|ksimp; by rewrite Eu]]); by destruct s.
Qed.

Lemma kfree_list s v l :
  kmem_ok s l -> page_ok v -> v ∉ l ->
  free_list (st32 (Kernel.memset (k_mem s) v 1 PGSIZE) v (k_freelist s)) v (v :: l).
Proof.
  intros [Hl Hnd _] Hv Hnin. split; [done|]. split; [done|].
  assert (Hfl : 0 <= k_freelist s < 2 ^ 32).
  { destruct l; [cbn in Hl; lia|]. destruct Hl as (-> & (_ & _ & H) & _). unfold KERNBASE, PHYSTOP in *. lia. }
  rewrite ld32_st32_eq, u32_small by done. apply (free_list_ext (k_mem s)); [|done]. intros w a Hw Ha.
  assert (Hap : v + PGSIZE <= w \/ w + PGSIZE <= v).
  { apply pages_apart; [done| |by intros ->]. by eapply free_list_ok. }
  rewrite ld8_st32_ne by (unfold PGSIZE in *; lia). rewrite ld8_memset by (unfold PGSIZE; lia).
  destruct (v <=? a) eqn:E1, (a <? v + PGSIZE) eqn:E2; try done. brefl. lia.
Qed.

Lemma kfree_ok s v l :
  kmem_ok s l -> page_ok v -> v ∉ l ->
  kmem_ok (set_k_freelist v
    (set_k_mem (st32 (Kernel.memset (k_mem s) v 1 PGSIZE) v (k_freelist s)) s)) (v :: l).
Proof.
  intros Hok Hv Hnin. split; ksimp; [by apply kfree_list| |by eapply ko_lock].
  apply NoDup_cons. split; [done|by eapply ko_nodup].
Qed.

(** [n] pages from [p], last one first: the list a loop of [kfree] builds. *)
Fixpoint page_run (p : Z) (n : nat) (l : list Z) : list Z :=
  match n with
  | O => l
  | S n' => page_run (p + PGSIZE) n' (p :: l)
  end.

Lemma elem_page_run n : forall p l v,
  v ∈ page_run p n l <-> v ∈ l \/ exists i, (i < n)%nat /\ v = p + PGSIZE * Z.of_nat i.
Proof.
  induction n as [|n IH]; intros p l v; cbn [page_run].
  - split; [by left|]. intros [?|(i & Hi & _)]; [done|lia].
  - rewrite IH, elem_of_cons. split.
    + intros [[->|?]|(i & Hi & ->)]; [right; exists O; lia|by left|right; exists (S i); lia].
    + intros [?|(i & Hi & ->)]; [by left; right|]. destruct i as [|i]; [left; left; lia|].
      right. exists i. lia.
Qed.

Lemma freerange_loop_run n : forall fuel p vend s l,
  kmem_ok s l -> (n < fuel)%nat -> 0 <= p -> p mod PGSIZE = 0 -> end_ <= p -> KERNBASE <= p ->
  vend <= KERNBASE + PHYSTOP ->
  p + PGSIZE * Z.of_nat n <= vend < p + PGSIZE * Z.of_nat n + PGSIZE \/ (n = O /\ vend < p + PGSIZE) ->
  p < KERNBASE + PHYSTOP + PGSIZE ->
  (forall v, v ∈ l -> v + PGSIZE <= p \/ vend <= v) ->
  exists s', freerange_loop fuel p vend s = Ret tt s' /\ kmem_ok s' (page_run p n l) /\ k_held s' = k_held s.
Proof.
  induction n as [|n IH]; intros fuel p vend s l Hok Hf Hp Hal Hend Hkb Hve Hn Hpb Hl;
    (destruct fuel as [|fuel]; [lia|]); cbn [freerange_loop page_run];
    rewrite u32_small by pglia.
  - rewrite (proj2 (Z.leb_gt _ _)) by pglia. by exists s.
  - rewrite (proj2 (Z.leb_le _ _)) by pglia.
    assert (Hv : page_ok p) by (unfold page_ok in *; pglia).
    assert (Hnin : p ∉ l) by (intros H%Hl; pglia).
    rewrite (bind_Ret _ _ _ _ _ (kfree_run s p Hv ltac:(by eapply ko_lock))).
    edestruct (IH fuel (p + PGSIZE) vend _ _ (kfree_ok s p l Hok Hv Hnin)) as (s' & Hrun & Hok' & Hh').
    + lia.
    + pglia.
    + rewrite Z.add_mod, Hal by pglia. done.
    + pglia.
    + pglia.
    + done.
    + left. pglia.
    + pglia.
    + intros v [->|Hv']%elem_of_cons; [pglia|]. destruct (Hl v Hv'); pglia.
    + exists s'. done.
Qed.

Lemma PGROUNDUP_spec a : 0 <= a ->
  PGROUNDUP a mod PGSIZE = 0 /\ a <= PGROUNDUP a < a + PGSIZE.
Proof.
  intros Ha. unfold PGROUNDUP, PGSIZE. change (Z.lnot (4096 - 1)) with (Z.lnot (Z.ones 12)).
  rewrite <- Z.ldiff_land, Z.ldiff_ones_r, Z.shiftl_mul_pow2, Z.shiftr_div_pow2 by lia.
  change (2 ^ 12) with 4096. rewrite Z.mod_mul by lia.
  pose proof (Z.div_mod (a + 4096 - 1) 4096 ltac:(lia)).
  pose proof (Z.mod_pos_bound (a + 4096 - 1) 4096 ltac:(lia)). lia.
Qed.

Lemma freerange_run s l vstart vend :
  kmem_ok s l -> end_ <= vstart -> KERNBASE <= vstart <= vend -> vend <= KERNBASE + PHYSTOP ->
  (forall v, v ∈ l -> v + PGSIZE <= vstart \/ vend <= v) ->
  let p := PGROUNDUP vstart in
  exists s', freerange vstart vend s = Ret tt s' /\
    kmem_ok s' (page_run p (Z.to_nat ((vend - p) / PGSIZE)) l) /\ k_held s' = k_held s.
Proof.
  intros Hok Hend Hkb Hve Hl p. destruct (PGROUNDUP_spec vstart ltac:(pglia)) as [Hal Hp].
  fold p in Hal, Hp. unfold freerange. fold p. rewrite (u32_small p) by pglia.
  assert (Hdiv : vend / PGSIZE = (vend - p) / PGSIZE + p / PGSIZE).
  { rewrite <- Z.div_add by pglia. f_equal. pose proof (Z.div_mod p PGSIZE ltac:(pglia)). lia. }
  pose proof (Z.div_pos p PGSIZE ltac:(pglia) ltac:(pglia)).
  pose proof (Z.div_mod (vend - p) PGSIZE ltac:(pglia)).
  pose proof (Z.mod_pos_bound (vend - p) PGSIZE ltac:(pglia)).
  apply freerange_loop_run; try done; try pglia.
  intros v Hv. destruct (Hl v Hv); pglia.
Qed.

End kalloc.

(** ** The theorems *)

(** [kfree] of a page that is not free (aligned, above the kernel, below
    [PHYSTOP]) puts it in front of the free list, fills the rest of it
    with the junk byte 1 and touches no byte outside it; any other argument
    panics. *)
Theorem kfree_pushes end_ s v l :
  kmem_ok end_ s l -> v ∉ l -> 0 <= v < 2 ^ 32 ->
  if bool_decide (v mod PGSIZE = 0 /\ end_ <= v /\ KERNBASE <= v < KERNBASE + PHYSTOP) then
    exists s', kfree end_ v s = Ret tt s' /\ kmem_ok end_ s' (v :: l) /\
      (forall a, v + 4 <= a < v + PGSIZE -> ld8 (k_mem s') a = 1) /\
      (forall a, a < v \/ v + PGSIZE <= a -> ld8 (k_mem s') a = ld8 (k_mem s) a)
  else kfree end_ v s = Stop (Panic "kfree") s.
Proof.
  intros Hok Hnin Hr. case_bool_decide as Hv.
  - eexists. split; [apply kfree_run; [done|by eapply ko_lock]|]. split; [|split].
    + by apply kfree_ok.
    + intros a Ha. ksimp. rewrite ld8_st32_ne, ld8_memset by (unfold PGSIZE in *; lia).
      by rewrite (proj2 (Z.leb_le _ _)), (proj2 (Z.ltb_lt _ _)) by lia.
    + intros a Ha. ksimp. rewrite ld8_st32_ne, ld8_memset by (unfold PGSIZE in *; lia).
      destruct (v <=? a) eqn:E1, (a <? v + PGSIZE) eqn:E2; try done. brefl. lia.
  - unfold kfree. destruct (_ || _)%bool eqn:E; [done|]. exfalso. apply Hv. brefl.
    unfold v2p in *. destruct (decide (KERNBASE <= v)).
    + rewrite u32_small in * by (unfold KERNBASE in *; lia). lia.
    + replace (u32 (v - KERNBASE)) with (v + 2 ^ 31) in *; [unfold PHYSTOP in *; lia|].
      unfold u32, KERNBASE in *. apply Z.mod_unique with (-1); lia.
Qed.

(** [kalloc] returns 0 exactly when there is no free page; otherwise it
    returns a page of the list, which is then no longer free, writes no
    memory, and the rest of the list stays; so whatever its owner writes
    into the page, later calls see an intact list without that page. *)
Theorem kalloc_pops end_ s l :
  kmem_ok end_ s l ->
  match l with
  | [] => kalloc s = Ret 0 s
  | v :: l' => exists s', kalloc s = Ret v s' /\ k_mem s' = k_mem s /\ kmem_ok end_ s' l' /\
      (v ∉ l') /\ page_ok end_ v /\
      forall m', (forall a, a < v \/ v + PGSIZE <= a -> ld8 m' a = ld8 (k_mem s') a) ->
        kmem_ok end_ (set_k_mem m' s') l'
  end.
Proof.
  intros [Hl Hnd Hh]. rewrite kalloc_run by done. destruct l as [|v l'].
  - cbn in Hl. by rewrite Hl.
  - destruct Hl as (-> & Hv & Hl). apply NoDup_cons in Hnd as [Hnin Hnd].
    rewrite (proj2 (Z.eqb_neq _ _)) by (by eapply page_ok_nz). eexists. split; [reflexivity|].
    split; [done|]. split; [by split|]. split; [done|]. split; [done|]. intros m' Hm'. split; ksimp; try done.
    apply (free_list_ext end_ (k_mem s)); [|done]. intros w a Hw Ha. symmetry. apply Hm'.
    pose proof (pages_apart end_ v w Hv ltac:(by eapply free_list_ok) ltac:(by intros ->)). lia.
Qed.

Lemma elem_range_pages a b l v : KERNBASE <= a ->
  v ∈ page_run (PGROUNDUP a) (Z.to_nat ((b - PGROUNDUP a) / PGSIZE)) l <->
  v ∈ l \/ (v mod PGSIZE = 0 /\ a <= v /\ v + PGSIZE <= b).
Proof.
  intros Ha. destruct (PGROUNDUP_spec a ltac:(pglia)) as [Hal Hp].
  rewrite elem_page_run. set (p := PGROUNDUP a) in *.
  pose proof (Z.div_mod (b - p) PGSIZE ltac:(pglia)). pose proof (Z.mod_pos_bound (b - p) PGSIZE ltac:(pglia)).
  split; (intros [?|H1]; [by left|right]).
  - destruct H1 as (i & Hi & ->). split; [|pglia]. rewrite Z.add_mod, Hal by pglia.
    by rewrite Z.mul_comm, Z.mod_mul by pglia.
  - destruct H1 as (Hm & H1 & H2). exists (Z.to_nat ((v - p) / PGSIZE)).
    pose proof (Z.div_mod v PGSIZE ltac:(pglia)). pose proof (Z.div_mod p PGSIZE ltac:(pglia)).
    assert (E : v - p = (v / PGSIZE - p / PGSIZE) * PGSIZE) by lia.
    rewrite E, Z.div_mul by pglia. split; [apply Z2Nat.inj_lt|]; pglia.
Qed.

Lemma kmem_ok_uselock end_ s l u : kmem_ok end_ s l -> kmem_ok end_ (set_k_uselock u s) l.
Proof. by intros []. Qed.

(** [kinit1] on an empty list makes exactly the whole pages between
    [vstart] and [vend] free, and [kinit2] adds those of its range to the
    list and turns locking on. *)
Theorem kinit_frees_ranges end_ s a b c :
  k_freelist s = 0 -> L_kmem ∉ k_held s -> end_ <= a -> KERNBASE <= a -> a <= b -> b <= c ->
  c <= KERNBASE + PHYSTOP ->
  exists s1 s2 l1 l2, kinit1 end_ a b s = Ret tt s1 /\ kmem_ok end_ s1 l1 /\
    (forall v, v ∈ l1 <-> v mod PGSIZE = 0 /\ a <= v /\ v + PGSIZE <= b) /\
    kinit2 end_ b c s1 = Ret tt s2 /\ kmem_ok end_ s2 l2 /\ k_uselock s2 = 1 /\
    (forall v, v ∈ l2 <-> v ∈ l1 \/ (v mod PGSIZE = 0 /\ b <= v /\ v + PGSIZE <= c)).
Proof.
  intros Hf Hh Ha Hk Hab Hbc Hc.
  assert (Hok0 : kmem_ok end_ (set_k_uselock 0 s) []) by (split; [done|constructor|done]).
  destruct (freerange_run end_ (set_k_uselock 0 s) [] a b Hok0) as (s1 & R1 & Hok1 & Hh1); try lia.
  { intros v H. by apply elem_of_nil in H. }
  assert (H1 : forall v, v ∈ page_run (PGROUNDUP a) (Z.to_nat ((b - PGROUNDUP a) / PGSIZE)) [] <->
                 v mod PGSIZE = 0 /\ a <= v /\ v + PGSIZE <= b).
  { intros v. rewrite elem_range_pages by done. split; [|by right]. intros [H|H]; [by apply elem_of_nil in H|done]. }
  destruct (freerange_run end_ s1 _ b c Hok1) as (s2 & R2 & Hok2 & Hh2); try lia.
  { intros v (_ & _ & H)%H1. by left. }
  eexists s1, _, _, _. split; [unfold kinit1; by rewrite bind_run|]. split; [exact Hok1|]. split; [exact H1|].
  split; [unfold kinit2; rewrite bind_run, R2; reflexivity|].
  split; [exact (kmem_ok_uselock _ _ _ _ Hok2)|]. split; [done|].
  intros v. apply elem_range_pages. lia.
Qed.

(** The witnesses: a kernel that ends at 0x80104000, given six pages. *)
Definition kend : Z := 0x80104000.
Definition km0 : kstate := kzero ∅ (mkDisk 0 ∅ []).

Lemma kinit_frees_ranges_witness : exists s1 s2 l1 l2,
  kinit1 kend 0x80104a00 0x80108000 km0 = Ret tt s1 /\ kmem_ok kend s1 l1 /\ 0x80105000 ∈ l1 /\
  kinit2 kend 0x80108000 0x8010b000 s1 = Ret tt s2 /\ kmem_ok kend s2 l2 /\ 0x80108000 ∈ l2.
Proof.
  destruct (kinit_frees_ranges kend km0 0x80104a00 0x80108000 0x8010b000) as (s1 & s2 & l1 & l2 & R1 & K1 & E1 & R2 & K2 & _ & E2);
    [reflexivity|apply not_elem_of_nil|unfold kend; lia|unfold KERNBASE; lia|lia|lia|unfold KERNBASE, PHYSTOP; lia|].
  exists s1, s2, l1, l2. rewrite E1, E2. split; [done|]. split; [done|]. split; [by vm_compute|].
  split; [done|]. split; [done|]. right. by vm_compute.
Defined.

Lemma km0_ok : kmem_ok kend km0 [].
Proof. split; [reflexivity|constructor|apply not_elem_of_nil]. Qed.

Lemma kfree_pushes_witness : exists s', kfree kend 0x80105000 km0 = Ret tt s' /\ kmem_ok kend s' [0x80105000].
Proof.
  pose proof (kfree_pushes kend km0 0x80105000 [] km0_ok ltac:(apply not_elem_of_nil) ltac:(lia)) as H.
  rewrite bool_decide_eq_true_2 in H by (unfold kend, KERNBASE, PHYSTOP, PGSIZE; split; [reflexivity|lia]).
  destruct H as (s' & R & K & _). exists s'. auto.
Defined.

Lemma kalloc_pops_witness : exists s s', kmem_ok kend s [0x80105000] /\ kalloc s = Ret 0x80105000 s' /\ kmem_ok kend s' [].
Proof.
  assert (Hp : page_ok kend 0x80105000) by (unfold page_ok, kend, KERNBASE, PHYSTOP, PGSIZE; split; [reflexivity|lia]).
  pose proof (kfree_ok kend km0 0x80105000 [] km0_ok Hp ltac:(apply not_elem_of_nil)) as Hk.
  destruct (kalloc_pops kend _ _ Hk) as (s' & R & _ & K & _). eexists _, s'. split; [exact Hk|]. auto.
Defined.
