(* ===== verification/Ring.v ===== *)
(** * Ring buffers indexed by free-running 32-bit counters

    Both pipe.c and console.c keep a queue in an array of [N] bytes, with
    counters that are only ever incremented and reduced modulo [N] when the
    array is indexed.  This works across the wrap-around of the counters
    because [N] divides 2^32. *)

From stdpp Require Import base list list_numbers numbers.
From Stdlib Require Import ZArith Lia.
From S2P Require Import Prelude.

Lemma u32_sub_add r k : 0 <= k < 2 ^ 32 -> u32 (u32 (r + k) - r) = k.
Proof.
  intros Hk. unfold u32. rewrite Zminus_mod_idemp_l. replace (r + k - r) with k by lia.
  apply Z.mod_small. lia.
Qed.

Lemma u32_add_sub r w : 0 <= w < 2 ^ 32 -> u32 (r + u32 (w - r)) = w.
Proof.
  intros Hw. unfold u32. rewrite Zplus_mod_idemp_r. replace (r + (w - r)) with w by lia.
  apply Z.mod_small. lia.
Qed.

Lemma u32_u32_add a b : u32 (u32 a + b) = u32 (a + b).
Proof. unfold u32. by rewrite Zplus_mod_idemp_l. Qed.

Lemma u32_add_u32 a b : u32 (a + u32 b) = u32 (a + b).
Proof. unfold u32. by rewrite Zplus_mod_idemp_r. Qed.

Section ring.
Context (N : Z) (HN : 0 < N) (Hdiv : (N | 2 ^ 32)).

Definition rindex (r : Z) : nat := Z.to_nat (u32 r mod N).

(** The [n] bytes from counter value [r] on. *)
Definition rcont (data : list Z) (r : Z) (n : nat) : list Z :=
  (fun k => data !!! rindex (r + Z.of_nat k)) <$> seq 0 n.

Lemma rindex_mod r : rindex r = Z.to_nat (r mod N).
Proof using Hdiv. unfold rindex, u32. by rewrite Z.mod_mod_divide. Qed.

Lemma rindex_u32 r k : rindex (u32 r + k) = rindex (r + k).
Proof using. unfold rindex. by rewrite u32_u32_add. Qed.

Lemma rindex_lt r : (rindex r < Z.to_nat N)%nat.
Proof using HN. unfold rindex. pose proof (Z.mod_pos_bound (u32 r) N HN). lia. Qed.

Lemma length_rcont data r n : length (rcont data r n) = n.
Proof using. unfold rcont. by rewrite length_fmap, length_seq. Qed.

(** Different positions within one turn of the ring are different bytes. *)
Lemma rindex_ne r j k : (j < k)%nat -> Z.of_nat k < Z.of_nat j + N -> rindex (r + Z.of_nat j) <> rindex (r + Z.of_nat k).
Proof using HN Hdiv.
  intros Hjk Hk E. rewrite !rindex_mod in E.
  apply Z2Nat.inj in E; try (apply Z.mod_pos_bound; lia).
  pose proof (Z.div_mod (r + Z.of_nat j) N ltac:(lia)). pose proof (Z.div_mod (r + Z.of_nat k) N ltac:(lia)).
  assert (E1 : Z.of_nat k - Z.of_nat j = N * ((r + Z.of_nat k) / N - (r + Z.of_nat j) / N)) by lia.
  generalize dependent ((r + Z.of_nat k) / N - (r + Z.of_nat j) / N). intros d E1.
  destruct (decide (d <= 0)); [nia|]. assert (1 <= d) by lia. nia.
Qed.

Lemma rcont_push data r n b :
  length data = Z.to_nat N -> Z.of_nat n < N ->
  rcont (<[rindex (r + Z.of_nat n) := b]> data) r (S n) = rcont data r n ++ [b].
Proof using HN Hdiv.
  intros Hl Hn. unfold rcont. rewrite seq_S, fmap_app. f_equal.
  - apply list_fmap_ext. intros i k Hk. apply lookup_seq in Hk as [-> Hi]. cbn.
    rewrite list_lookup_total_insert_ne; [done|]. apply not_eq_sym, rindex_ne; lia.
  - cbn. rewrite list_lookup_total_insert_eq; [done|]. rewrite Hl. apply rindex_lt.
Qed.

Lemma rcont_app data r n m : rcont data r (n + m) = rcont data r n ++ rcont data (u32 (r + Z.of_nat n)) m.
Proof using.
  unfold rcont. rewrite seq_app, fmap_app. f_equal.
  rewrite Nat.add_comm, <- (fmap_add_seq n 0 m), <- list_fmap_compose. apply list_fmap_ext. intros i k _. cbn.
  rewrite rindex_u32. do 2 f_equal. lia.
Qed.

Lemma rcont_pop data r n : rcont data r (S n) = data !!! rindex r :: rcont data (u32 (r + 1)) n.
Proof using.
  change (S n) with (1 + n)%nat. rewrite rcont_app. cbn. by rewrite Z.add_0_r.
Qed.

Lemma rcont_S_last data r n : rcont data r (S n) = rcont data r n ++ [data !!! rindex (r + Z.of_nat n)].
Proof using. unfold rcont. by rewrite seq_S, fmap_app. Qed.

Lemma rindex_lookup (data : list Z) r : length data = Z.to_nat N -> data !! rindex r = Some (data !!! rindex r).
Proof using HN. intros Hl. apply list_lookup_lookup_total_lt. rewrite Hl. apply rindex_lt. Qed.

End ring.
