(* ===== verification/Pipe.v ===== *)
(** * Pipes: src/xv6/pipe.c

    A pipe is a ring of [PIPESIZE] bytes with two 32-bit counters that are
    never reset.  [contents] is the sequence of bytes between them.  The
    bytes a user passes to [pipewrite], and those [piperead] stores in the
    user's buffer, are lists; a writer that has to wait ends its run in
    [sleep] and later resumes [pipewrite_loop] with the bytes it has not
    written yet.

    The theorems give the exact effect of one run of a writer and of a
    reader, also when the counters wrap around, and conclude that whatever
    the interleaving of the two the bytes read are, in order, the bytes
    written. *)

From stdpp Require Import base list list_numbers numbers gmap strings relations.
From Stdlib Require Import ZArith Lia.
From S2P Require Import Prelude Mem KState Sched Kalloc Ring.

(** ** The code *)

Section pipe.
Context (end_ : Z).

Definition pipeclose (p : Z) (writable : Z) : K unit :=
  acquire (L_pipe p) ;;
  (if negb (writable =? 0) then
     upd_pipe p (set_pi_writeopen 0) ;;
     wakeup (C_nread p)
   else
     upd_pipe p (set_pi_readopen 0) ;;
     wakeup (C_nwrite p)) ;;
  v ← get_pipe p;
  if ((pi_readopen v =? 0) && (pi_writeopen v =? 0))%bool then
    release (L_pipe p) ;;
    kfree end_ p ;;
    modify (fun s => set_k_pipes (delete p (k_pipes s)) s)
  else release (L_pipe p).

(** [proc->killed] *)
Definition killed : K Z := me ← myproc; q ← get_proc me; mret (p_killed q).

(** The loop of [pipewrite] from the first byte of [rest]. *)
Fixpoint pipewrite_loop (p n : Z) (rest : list Z) : K Z :=
  match rest with
  | [] =>
      wakeup (C_nread p) ;;
      release (L_pipe p) ;;
      mret n
  | b :: rest' =>
      v ← get_pipe p;
      if pi_nwrite v =? u32 (pi_nread v + PIPESIZE) then
        k ← killed;
        if ((pi_readopen v =? 0) || negb (k =? 0))%bool then
          release (L_pipe p) ;; mret (-1)
        else
          wakeup (C_nread p) ;;
          block (C_nwrite p) (L_pipe p)
      else
        upd_pipe p (set_pi_data (<[Z.to_nat (pi_nwrite v mod PIPESIZE) := b]> (pi_data v))) ;;
        upd_pipe p (set_pi_nwrite (u32 (pi_nwrite v + 1))) ;;
        pipewrite_loop p n rest'
  end.

(** [addr] is the [n] bytes of the user's buffer, none when [n] is negative. *)
Definition pipewrite (p : Z) (addr : list Z) (n : Z) : K Z :=
  acquire (L_pipe p) ;;
  pipewrite_loop p n addr.

(** The copying loop of [piperead]: the bytes stored, in order. *)
Fixpoint piperead_copy (p : Z) (n : nat) : K (list Z) :=
  match n with
  | O => mret []
  | S n' =>
      v ← get_pipe p;
      if pi_nread v =? pi_nwrite v then mret []
      else
        b ← deref (pi_data v !! Z.to_nat (pi_nread v mod PIPESIZE));
        upd_pipe p (set_pi_nread (u32 (pi_nread v + 1))) ;;
        l ← piperead_copy p n';
        mret (b :: l)
  end.

(** [piperead] with the lock held: it returns the count and the bytes. *)
Definition piperead_loop (p n : Z) : K (Z * list Z) :=
  v ← get_pipe p;
  if ((pi_nread v =? pi_nwrite v) && negb (pi_writeopen v =? 0))%bool then
    k ← killed;
    if negb (k =? 0) then release (L_pipe p) ;; mret (-1, [])
    else block (C_nread p) (L_pipe p)
  else
    l ← piperead_copy p (Z.to_nat n);
    wakeup (C_nwrite p) ;;
    release (L_pipe p) ;;
    mret (Z.of_nat (length l), l).

Definition piperead (p n : Z) : K (Z * list Z) := acquire (L_pipe p) ;; piperead_loop p n.

End pipe.

(** ** The contents of a pipe *)

Definition pcount (v : pipe) : Z := u32 (pi_nwrite v - pi_nread v).
Definition contents (v : pipe) : list Z := rcont PIPESIZE (pi_data v) (pi_nread v) (Z.to_nat (pcount v)).

Record pipe_ok (v : pipe) : Prop := {
  po_len : length (pi_data v) = Z.to_nat PIPESIZE;
  po_r : 0 <= pi_nread v < 2 ^ 32;
  po_w : 0 <= pi_nwrite v < 2 ^ 32;
  po_count : pcount v <= PIPESIZE
}.

Lemma pipesize_pos : 0 < PIPESIZE.
Proof. unfold PIPESIZE. lia. Qed.
Lemma pipesize_div : (PIPESIZE | 2 ^ 32).
Proof. by exists (2 ^ 23). Qed.

Lemma length_contents v : Z.of_nat (length (contents v)) = pcount v.
Proof.
  unfold contents. rewrite length_rcont, Z2Nat.id; [done|]. apply u32_range.
Qed.

(** Both tests of the code, in terms of the number of bytes in the pipe. *)
Lemma pipe_full v : pipe_ok v ->
  (pi_nwrite v =? u32 (pi_nread v + PIPESIZE)) = (pcount v =? PIPESIZE).
Proof.
  intros [_ Hr Hw Hc]. unfold pcount in *. apply eq_true_iff_eq. rewrite !Z.eqb_eq. split.
  - intros ->. apply u32_sub_add. unfold PIPESIZE. lia.
  - intros E. rewrite <- (u32_add_sub (pi_nread v) (pi_nwrite v)) by done. by rewrite E.
Qed.

Lemma pipe_empty v : pipe_ok v -> (pi_nread v =? pi_nwrite v) = (pcount v =? 0).
Proof.
  intros [_ Hr Hw Hc]. unfold pcount in *. apply eq_true_iff_eq. rewrite !Z.eqb_eq. split.
  - intros ->. by rewrite Z.sub_diag.
  - intros E. rewrite <- (u32_add_sub (pi_nread v) (pi_nwrite v)) by done. rewrite E, Z.add_0_r. by rewrite u32_small.
Qed.

(** [p->data[p->nwrite++ % PIPESIZE] = b] *)
Definition put_byte (b : Z) (v : pipe) : pipe :=
  set_pi_nwrite (u32 (pi_nwrite v + 1))
    (set_pi_data (<[Z.to_nat (pi_nwrite v mod PIPESIZE) := b]> (pi_data v)) v).

Lemma put_byte_count v b : pipe_ok v -> pcount v < PIPESIZE -> pcount (put_byte b v) = pcount v + 1.
Proof.
  intros [_ Hr Hw _] Hc. unfold pcount in *. cbn. pose proof (u32_range (pi_nwrite v - pi_nread v)).
  unfold u32 in *. rewrite Zminus_mod_idemp_l.
  replace (pi_nwrite v + 1 - pi_nread v) with (pi_nwrite v - pi_nread v + 1) by lia.
  rewrite <- Zplus_mod_idemp_l. rewrite Z.mod_small; [done|]. unfold PIPESIZE in *. lia.
Qed.

Lemma put_byte_ok v b : pipe_ok v -> pcount v < PIPESIZE -> pipe_ok (put_byte b v).
Proof.
  intros Hok Hc. pose proof (put_byte_count v b Hok Hc). destruct Hok. split; [|done| |lia].
  - cbn. by rewrite length_insert.
  - cbn. apply u32_range.
Qed.

(** The index of the code for the next byte to write. *)
Lemma nwrite_index v : pipe_ok v ->
  Z.to_nat (pi_nwrite v mod PIPESIZE) = rindex PIPESIZE (pi_nread v + Z.of_nat (Z.to_nat (pcount v))).
Proof.
  intros [_ _ Hw _]. unfold rindex. pose proof (u32_range (pi_nwrite v - pi_nread v)) as Hp. fold (pcount v) in Hp.
  rewrite Z2Nat.id by lia. unfold pcount. by rewrite u32_add_sub.
Qed.

Lemma put_byte_contents v b : pipe_ok v -> pcount v < PIPESIZE -> contents (put_byte b v) = contents v ++ [b].
Proof.
  intros Hok Hc. unfold contents at 1. rewrite put_byte_count by done.
  pose proof (u32_range (pi_nwrite v - pi_nread v)) as Hp. fold (pcount v) in Hp.
  replace (Z.to_nat (pcount v + 1)) with (S (Z.to_nat (pcount v))) by lia.
  cbn [put_byte pi_data pi_nread set_pi_nwrite set_pi_data]. rewrite nwrite_index by done.
  apply rcont_push; [apply pipesize_pos|apply pipesize_div|apply Hok|lia].
Qed.

(** [p->nread++], and the byte it passes. *)
Definition take_byte (v : pipe) : pipe := set_pi_nread (u32 (pi_nread v + 1)) v.

Lemma take_byte_count v : pipe_ok v -> 0 < pcount v -> pcount (take_byte v) = pcount v - 1.
Proof.
  intros [_ Hr Hw Hc] Hp. unfold pcount in *. cbn. pose proof (u32_range (pi_nwrite v - pi_nread v)).
  unfold u32 in *. rewrite Zminus_mod_idemp_r.
  replace (pi_nwrite v - (pi_nread v + 1)) with (pi_nwrite v - pi_nread v - 1) by lia.
  rewrite <- Zminus_mod_idemp_l. rewrite Z.mod_small; lia.
Qed.

Lemma take_byte_ok v : pipe_ok v -> 0 < pcount v -> pipe_ok (take_byte v).
Proof.
  intros Hok Hp. pose proof (take_byte_count v Hok Hp). destruct Hok. split; [done| |done|lia].
  cbn. apply u32_range.
Qed.

Lemma take_byte_contents v : pipe_ok v -> 0 < pcount v ->
  contents v = pi_data v !!! rindex PIPESIZE (pi_nread v) :: contents (take_byte v).
Proof.
  intros Hok Hp. unfold contents. rewrite take_byte_count by done.
  replace (Z.to_nat (pcount v)) with (S (Z.to_nat (pcount v - 1))) by lia. apply rcont_pop.
Qed.

Lemma nread_lookup v : pipe_ok v ->
  pi_data v !! Z.to_nat (pi_nread v mod PIPESIZE) = Some (pi_data v !!! rindex PIPESIZE (pi_nread v)).
Proof.
  intros [Hl Hr _ _]. rewrite <- (rindex_lookup _ pipesize_pos) by done. f_equal.
  unfold rindex. by rewrite u32_small.
Qed.

(** ** One run of a writer *)

Definition with_pipe (p : Z) (v : pipe) (s : kstate) : kstate := set_k_pipes (<[p := v]> (k_pipes s)) s.

(** How many of the [rest] bytes fit. *)
Definition fits_in (v : pipe) (rest : list Z) : nat :=
  Nat.min (length rest) (Z.to_nat (PIPESIZE - pcount v)).

(** Only the contents and the write counter change. *)
Definition same_ends (v v' : pipe) : Prop :=
  pi_nread v' = pi_nread v /\ pi_readopen v' = pi_readopen v /\ pi_writeopen v' = pi_writeopen v.

Lemma pipewrite_fill p n rest : forall s v,
  k_pipes s !! p = Some v -> pipe_ok v ->
  exists v', pipe_ok v' /\ same_ends v v' /\ contents v' = contents v ++ take (fits_in v rest) rest /\
    pi_nwrite v' = u32 (pi_nwrite v + Z.of_nat (fits_in v rest)) /\
    pipewrite_loop p n rest s = pipewrite_loop p n (drop (fits_in v rest) rest) (with_pipe p v' s).
Proof.
  induction rest as [|b rest IH]; intros s v Hv Hok.
  - exists v. unfold fits_in. cbn [length Nat.min take drop]. rewrite app_nil_r, Z.add_0_r, u32_small by apply Hok.
    split; [done|]. split; [done|]. split; [done|]. split; [done|]. f_equal. unfold with_pipe.
    rewrite insert_id by done. by destruct s.
  - destruct (decide (pcount v < PIPESIZE)) as [Hlt|Hge].
    + pose proof (put_byte_count v b Hok Hlt) as Hc. pose proof (put_byte_ok v b Hok Hlt) as Hok1.
      assert (Hf : fits_in v (b :: rest) = S (fits_in (put_byte b v) rest)).
      { unfold fits_in. rewrite Hc. cbn [length]. lia. }
      destruct (IH (with_pipe p (put_byte b v) s) (put_byte b v)) as (v' & Hok' & Hs & Hcont & Hw & Hrun);
        [apply lookup_insert_eq|done|].
      exists v'. split; [done|]. split; [done|]. rewrite Hf. cbn [take drop].
      split; [rewrite Hcont, put_byte_contents by done; by rewrite <- app_assoc|]. split.
      { rewrite Hw. cbn. unfold u32. rewrite Zplus_mod_idemp_l. f_equal. lia. }
      cbn [pipewrite_loop]. rewrite (bind_Ret _ _ _ _ _ (get_pipe_Ret _ _ _ Hv)).
      rewrite pipe_full by done. rewrite (proj2 (Z.eqb_neq _ _)) by lia.
      rewrite (bind_Ret _ _ _ _ _ (upd_pipe_Ret _ _ _ _ Hv)).
      erewrite bind_Ret; [|apply upd_pipe_Ret; ksimp; apply lookup_insert_eq]. ksimp. rewrite insert_insert_eq.
      transitivity (pipewrite_loop p n rest (with_pipe p (put_byte b v) s)); [by destruct s|].
      rewrite Hrun. unfold with_pipe. ksimp. rewrite insert_insert_eq. by destruct s.
    + assert (Hf : fits_in v (b :: rest) = 0%nat) by (unfold fits_in; lia).
      exists v. rewrite Hf. cbn [take drop]. rewrite app_nil_r, Z.add_0_r, u32_small by apply Hok.
      split; [done|]. split; [done|]. split; [done|]. split; [done|]. f_equal. unfold with_pipe.
      rewrite insert_id by done. by destruct s.
Qed.

Lemma killed_Ret s i q : k_proc s = Some i -> k_ptable s !! i = Some q -> killed s = Ret (p_killed q) s.
Proof.
  intros Hi Hq. unfold killed. rewrite (bind_Ret _ _ _ _ _ (myproc_Ret _ _ Hi)).
  by rewrite (bind_Ret _ _ _ _ _ (get_proc_Ret _ _ _ Hq)).
Qed.

Lemma wake_one_killed c q : p_killed (wake_one c q) = p_killed q.
Proof. unfold wake_one. by case_match. Qed.

(** The state after waking the sleepers on [c]. *)
Definition woken (c : chan) (s : kstate) : kstate :=
  set_k_ptable (map (wake_one (Some c)) (k_ptable s)) s.

(** What a writer with [rest] bytes to go does until it returns or sleeps. *)
Lemma pipewrite_run p n rest s v i q :
  k_pipes s !! p = Some v -> pipe_ok v -> k_held s = [L_pipe p] ->
  k_proc s = Some i -> k_ptable s !! i = Some q ->
  exists v', pipe_ok v' /\ same_ends v v' /\ contents v' = contents v ++ take (fits_in v rest) rest /\
    pi_nwrite v' = u32 (pi_nwrite v + Z.of_nat (fits_in v rest)) /\
    let s1 := with_pipe p v' s in
    pipewrite_loop p n rest s =
    if decide (fits_in v rest = length rest) then Ret n (set_k_held [] (woken (C_nread p) s1))
    else if ((pi_readopen v =? 0) || negb (p_killed q =? 0))%bool then Ret (-1) (set_k_held [] s1)
    else Stop Switch (set_k_held [L_ptable] (set_k_ptable
           (<[i := set_p_state SLEEPING (set_p_chan (Some (C_nwrite p)) (wake_one (Some (C_nread p)) q))]>
              (k_ptable (woken (C_nread p) s1))) s1)).
Proof.
  intros Hv Hok Hh Hi Hq. destruct (pipewrite_fill p n rest s v Hv Hok) as (v' & Hok' & Hs & Hcont & Hw & ->).
  exists v'. split; [done|]. split; [done|]. split; [done|]. split; [done|]. cbn zeta.
  assert (Hnp : L_ptable ∉ k_held s) by notheld.
  case_decide as Hall.
  - rewrite drop_ge by lia. cbn [pipewrite_loop].
    rewrite (bind_Ret _ _ _ _ _ (wakeup_Ret (C_nread p) (with_pipe p v' s) Hnp)).
    erewrite bind_Ret; [done|]. rewrite (release_held _ _ []); [done|done|apply not_elem_of_nil].
  - destruct (drop (fits_in v rest) rest) as [|b rest'] eqn:Ed.
    { exfalso. apply (f_equal length) in Ed. rewrite length_drop in Ed. unfold fits_in in *. cbn in Ed. lia. }
    cbn [pipewrite_loop].
    erewrite bind_Ret; [|apply get_pipe_Ret; apply lookup_insert_eq].
    rewrite pipe_full by done. destruct Hs as (Er & Eo & Ew).
    assert (Hc : pcount v' = PIPESIZE).
    { rewrite <- (length_contents v'), Hcont, length_app, Nat2Z.inj_add, length_contents, length_take.
      pose proof (u32_range (pi_nwrite v - pi_nread v)) as Hr. fold (pcount v) in Hr.
      pose proof (po_count _ Hok). unfold fits_in in *. lia. }
    rewrite Hc, Z.eqb_refl. rewrite (bind_Ret _ _ _ _ _ (killed_Ret (with_pipe p v' s) i q Hi Hq)). rewrite Eo.
    destruct (_ || _)%bool.
    + erewrite bind_Ret; [done|]. rewrite (release_held _ _ []); [done|done|apply not_elem_of_nil].
    + rewrite (bind_Ret _ _ _ _ _ (wakeup_Ret (C_nread p) (with_pipe p v' s) Hnp)).
      rewrite (block_run _ _ i (wake_one (Some (C_nread p)) q)); [by destruct s|done| |done|done].
      unfold with_pipe. ksimp. by rewrite list_lookup_fmap, Hq.
Qed.

(** ** One run of a reader *)

Lemma piperead_copy_run p n : forall s v,
  k_pipes s !! p = Some v -> pipe_ok v ->
  exists v', pipe_ok v' /\ contents v' = drop n (contents v) /\ pi_nwrite v' = pi_nwrite v /\
    piperead_copy p n s = Ret (take n (contents v)) (with_pipe p v' s).
Proof.
  induction n as [|n IH]; intros s v Hv Hok; cbn [piperead_copy take].
  - exists v. split; [done|]. split; [by rewrite drop_0|]. split; [done|]. rewrite take_0. unfold with_pipe.
    rewrite insert_id by done. by destruct s.
  - rewrite (bind_Ret _ _ _ _ _ (get_pipe_Ret _ _ _ Hv)). rewrite pipe_empty by done.
    pose proof (length_contents v) as Hl. destruct (Z.eqb_spec (pcount v) 0) as [E|E].
    + assert (Hn : contents v = []) by (destruct (contents v); [done|cbn in Hl; lia]).
      exists v. rewrite Hn. split; [done|]. split; [by rewrite drop_nil|]. split; [done|]. unfold with_pipe.
      rewrite insert_id by done. by destruct s.
    + assert (Hp : 0 < pcount v) by lia. rewrite (nread_lookup v Hok). cbn [deref]. rewrite ret_bind.
      rewrite (bind_Ret _ _ _ _ _ (upd_pipe_Ret _ _ _ _ Hv)). fold (take_byte v).
      destruct (IH (with_pipe p (take_byte v) s) (take_byte v)) as (v' & Hok' & Hc' & Hw' & Hrun);
        [apply lookup_insert_eq|by apply take_byte_ok|].
      exists v'. rewrite (take_byte_contents v Hok Hp). cbn [take drop]. split; [done|]. split; [done|]. split; [done|].
      change (set_k_pipes (<[p:=take_byte v]> (k_pipes s)) s) with (with_pipe p (take_byte v) s).
      rewrite (bind_Ret _ _ _ _ _ Hrun). unfold with_pipe. ksimp. rewrite insert_insert_eq. by destruct s.
Qed.

Lemma piperead_run p n s v i q :
  k_pipes s !! p = Some v -> pipe_ok v -> k_held s = [L_pipe p] ->
  k_proc s = Some i -> k_ptable s !! i = Some q ->
  if bool_decide (contents v = [] /\ pi_writeopen v <> 0) then
    piperead_loop p n s =
    if negb (p_killed q =? 0) then Ret (-1, []) (set_k_held [] s)
    else Stop Switch (set_k_held [L_ptable] (set_k_ptable
           (<[i := set_p_state SLEEPING (set_p_chan (Some (C_nread p)) q)]> (k_ptable s)) s))
  else exists v', pipe_ok v' /\ contents v' = drop (Z.to_nat n) (contents v) /\ pi_nwrite v' = pi_nwrite v /\
    let l := take (Z.to_nat n) (contents v) in
    piperead_loop p n s =
    Ret (Z.of_nat (length l), l) (set_k_held [] (woken (C_nwrite p) (with_pipe p v' s))).
Proof.
  intros Hv Hok Hh Hi Hq. assert (Hnp : L_ptable ∉ k_held s) by notheld. unfold piperead_loop.
  rewrite (bind_Ret _ _ _ _ _ (get_pipe_Ret _ _ _ Hv)). rewrite pipe_empty by done.
  pose proof (length_contents v) as Hl. case_bool_decide as Hd.
  - destruct Hd as [Hc Hw]. rewrite Hc in Hl. rewrite <- Hl.
    change (Z.of_nat (length (@nil Z)) =? 0) with true.
    rewrite (proj2 (Z.eqb_neq _ _) Hw). cbn [negb andb].
    rewrite (bind_Ret _ _ _ _ _ (killed_Ret _ _ _ Hi Hq)). destruct (negb _).
    + erewrite bind_Ret; [done|]. rewrite (release_held _ _ []); [done|done|apply not_elem_of_nil].
    + by apply block_run.
  - destruct (piperead_copy_run p (Z.to_nat n) s v Hv Hok) as (v' & Hok' & Hc' & Hw' & Hrun).
    exists v'. split; [done|]. split; [done|]. split; [done|]. cbn zeta.
    assert (Hb : ((pcount v =? 0) && negb (pi_writeopen v =? 0))%bool = false).
    { apply andb_false_iff. destruct (Z.eqb_spec (pcount v) 0); [right|by left].
      apply negb_false_iff, Z.eqb_eq. destruct (decide (pi_writeopen v = 0)); [done|]. exfalso. apply Hd.
      split; [|done]. destruct (contents v); [done|cbn in Hl; lia]. }
    rewrite Hb, (bind_Ret _ _ _ _ _ Hrun).
    rewrite (bind_Ret _ _ _ _ _ (wakeup_Ret (C_nwrite p) (with_pipe p v' s) Hnp)).
    erewrite bind_Ret; [done|]. rewrite (release_held _ _ []); [done|done|apply not_elem_of_nil].
Qed.

(** ** The theorems *)

(** A writer that holds the pipe's lock appends as many of its bytes as
    fit, in order, also across the wrap-around of the counters; if all
    fit it wakes the readers and returns; if not, and no reader is left or
    it was killed, it returns -1; otherwise it wakes the readers and goes
    to sleep until there is room.  The lock is free in every case. *)
Theorem pipewrite_effect p n rest s v i q :
  k_pipes s !! p = Some v -> pipe_ok v -> k_held s = [L_pipe p] ->
  k_proc s = Some i -> k_ptable s !! i = Some q ->
  let k := Nat.min (length rest) (Z.to_nat (PIPESIZE - pcount v)) in
  exists v' o s', pipe_ok v' /\ contents v' = contents v ++ take k rest /\
    pipewrite_loop p n rest s = o /\ k_pipes s' !! p = Some v' /\ (L_pipe p ∉ k_held s') /\
    if decide (k = length rest) then o = Ret n s' /\ k_ptable s' = map (wake_one (Some (C_nread p))) (k_ptable s)
    else if ((pi_readopen v =? 0) || negb (p_killed q =? 0))%bool then o = Ret (-1) s' /\ k_ptable s' = k_ptable s
    else o = Stop Switch s' /\
         (exists q', k_ptable s' !! i = Some q' /\ p_state q' = SLEEPING /\ p_chan q' = Some (C_nwrite p)) /\
         forall j, j <> i -> k_ptable s' !! j = wake_one (Some (C_nread p)) <$> k_ptable s !! j.
Proof.
  intros Hv Hok Hh Hi Hq k. pose proof (lookup_lt_Some _ _ _ Hq) as Hlt.
  destruct (pipewrite_run p n rest s v i q Hv Hok Hh Hi Hq) as (v' & Hok' & _ & Hcont & _ & Hrun).
  cbn zeta in Hrun. change (fits_in v rest) with k in *. exists v'.
  destruct (decide (k = length rest)); [|destruct (_ || _)%bool]; match type of Hrun with
    | _ = Ret ?r ?s' => exists (Ret r s'), s' | _ = Stop ?e ?s' => exists (Stop e s'), s' end;
    (split; [done|]); (split; [done|]); (split; [exact Hrun|]).
  - split; [|split; [apply not_elem_of_nil|split; [reflexivity|done]]]. apply lookup_insert_eq.
  - split; [|split; [apply not_elem_of_nil|split; [reflexivity|done]]]. apply lookup_insert_eq.
  - split; [|split; [|split; [reflexivity|split]]].
    + apply lookup_insert_eq.
    + ksimp. intros H%list_elem_of_singleton. done.
    + eexists. ksimp. rewrite list_lookup_insert_eq; [done|]. unfold woken, with_pipe. ksimp. by rewrite length_map.
    + intros j Hj. ksimp. rewrite list_lookup_insert_ne by done. unfold woken, with_pipe. ksimp.
      by rewrite list_lookup_fmap.
Qed.

(** A pipe whose counters are about to wrap around, with 510 bytes in it. *)
Definition wpipe : pipe := mkPipe (replicate 512 65) (2 ^ 32 - 511) (2 ^ 32 - 1) 1 1.
Definition wstate : kstate := set_k_held [L_pipe 7] (set_k_pipes {[7 := wpipe]} one_proc).

Lemma wpipe_ok : pipe_ok wpipe.
Proof. split; [reflexivity|split; [by vm_compute|reflexivity]..|by vm_compute]. Qed.

Lemma pipewrite_effect_witness : exists v' s',
  pipewrite_loop 7 3 [1; 2; 3] wstate = Stop Switch s' /\ k_pipes s' !! 7 = Some v' /\
  contents v' = contents wpipe ++ [1; 2].
Proof.
  destruct (pipewrite_effect 7 3 [1; 2; 3] wstate wpipe 0 _ (lookup_singleton_eq _ _) wpipe_ok eq_refl eq_refl eq_refl)
    as (v' & o & s' & _ & Hc & Hr & Hp & _ & Hs).
  exists v', s'. destruct Hs as (-> & _). split; [exact Hr|]. split; [exact Hp|]. exact Hc.
Defined.

(** A run of a pipe: a writer with a stream of bytes to write, and readers.
    The state has the bytes the writer has not written yet and those read.
    A step is a run of one process until it returns or sleeps, or of other
    code. *)
Definition running (s : kstate) : Prop :=
  k_held s = [] /\ exists i q, k_proc s = Some i /\ k_ptable s !! i = Some q.

Inductive pipe_step (p : Z) : kstate * list Z * list Z -> kstate * list Z * list Z -> Prop :=
| ps_write s s' n rest got v v' :
    running s ->
    (exists r, (acquire (L_pipe p) ;; pipewrite_loop p n rest) s = Ret r s') \/
    (acquire (L_pipe p) ;; pipewrite_loop p n rest) s = Stop Switch s' ->
    k_pipes s !! p = Some v -> k_pipes s' !! p = Some v' ->
    (* the loop counter of pipewrite advances with nwrite *)
    pipe_step p (s, rest, got) (s', drop (Z.to_nat (u32 (pi_nwrite v' - pi_nwrite v))) rest, got)
| ps_read s s' n r l rest got :
    running s -> piperead p n s = Ret (r, l) s' -> pipe_step p (s, rest, got) (s', rest, got ++ l)
| ps_read_wait s s' n rest got :
    running s -> piperead p n s = Stop Switch s' -> pipe_step p (s, rest, got) (s', rest, got)
(* other code runs: the scheduler, other processes *)
| ps_other s s' rest got :
    k_pipes s' !! p = k_pipes s !! p -> pipe_step p (s, rest, got) (s', rest, got).

Definition pipe_inv (p : Z) (stream : list Z) (x : kstate * list Z * list Z) : Prop :=
  let '(s, rest, got) := x in
  exists v, k_pipes s !! p = Some v /\ pipe_ok v /\ stream = got ++ contents v ++ rest.

Lemma acquire_pipe p s : k_held s = [] -> acquire (L_pipe p) s = Ret tt (set_k_held [L_pipe p] s).
Proof. intros Hh. rewrite acquire_free by (rewrite Hh; apply not_elem_of_nil). by rewrite Hh. Qed.

Lemma pipe_inv_step p stream x y : pipe_step p x y -> pipe_inv p stream x -> pipe_inv p stream y.
Proof.
  intros [s s' n rest got v v' (Hh & i & q & Hi & Hq) Hrun Hv Hv'|s s' n r l rest got (Hh & i & q & Hi & Hq) Hrun
         |s s' n rest got (Hh & i & q & Hi & Hq) Hrun|s s' rest got E] (v0 & Hv0 & Hok & Hst);
    unfold pipe_inv; [| | |by exists v0; rewrite E].
  - assert (v0 = v) as -> by congruence.
    rewrite (bind_Ret _ _ _ _ _ (acquire_pipe p s Hh)) in Hrun.
    destruct (pipewrite_run p n rest (set_k_held [L_pipe p] s) v i q Hv Hok eq_refl Hi Hq)
      as (v1 & Hok1 & _ & Hc1 & Hw1 & Hr1). cbn zeta in Hr1. rewrite Hr1 in Hrun.
    assert (E1 : k_pipes s' !! p = Some v1).
    { destruct (decide _); [|destruct (_ || _)%bool]; destruct Hrun as [[r Hrun]|Hrun]; try discriminate Hrun;
        injection Hrun; intros; subst s'; apply lookup_insert_eq. }
    assert (v1 = v') as -> by congruence. exists v'. split; [done|]. split; [done|].
    assert (Hk : Z.to_nat (u32 (pi_nwrite v' - pi_nwrite v)) = fits_in v rest).
    { rewrite Hw1, u32_sub_add; [by rewrite Nat2Z.id|]. unfold fits_in, PIPESIZE.
      pose proof (u32_range (pi_nwrite v - pi_nread v)) as Hr. fold (pcount v) in Hr. lia. }
    rewrite Hk, Hc1, Hst, <- app_assoc. by rewrite take_drop.
  - unfold piperead in Hrun. rewrite (bind_Ret _ _ _ _ _ (acquire_pipe p s Hh)) in Hrun.
    pose proof (piperead_run p n (set_k_held [L_pipe p] s) v0 i q Hv0 Hok eq_refl Hi Hq) as Hr. case_bool_decide as Hd.
    + rewrite Hr in Hrun. destruct (negb _); [|done]. injection Hrun as <- <- <-. exists v0. by rewrite app_nil_r.
    + destruct Hr as (v1 & Hok1 & Hc1 & _ & Hr). cbn zeta in Hr. rewrite Hr in Hrun. injection Hrun as <- <- <-.
      exists v1. split; [apply lookup_insert_eq|]. split; [done|]. rewrite Hc1, Hst, <- app_assoc. f_equal.
      by rewrite app_assoc, take_drop.
  - unfold piperead in Hrun. rewrite (bind_Ret _ _ _ _ _ (acquire_pipe p s Hh)) in Hrun.
    pose proof (piperead_run p n (set_k_held [L_pipe p] s) v0 i q Hv0 Hok eq_refl Hi Hq) as Hr. case_bool_decide as Hd.
    + rewrite Hr in Hrun. destruct (negb _); [done|]. injection Hrun as <-. by exists v0.
    + destruct Hr as (v1 & Hok1 & Hc1 & _ & Hr). cbn zeta in Hr. rewrite Hr in Hrun. discriminate Hrun.
Qed.

(** C5: a pipe is a reliable FIFO.  Start with an empty pipe and a writer
    that writes a stream of bytes; let runs of [pipewrite] (resumed with
    the bytes it had left), of [piperead] calls of any size and of other
    code interleave in any way.  Then at any time the bytes read so far,
    followed by those in the pipe, are exactly the bytes written so far: no
    byte is lost, duplicated or reordered, and never more than [PIPESIZE]
    are in the pipe. *)
Theorem pipe_is_fifo p stream s0 v0 s rest got :
  k_pipes s0 !! p = Some v0 -> pipe_ok v0 -> contents v0 = [] ->
  rtc (pipe_step p) (s0, stream, []) (s, rest, got) ->
  exists v, k_pipes s !! p = Some v /\ (length (contents v) <= 512)%nat /\
    stream = got ++ contents v ++ rest.
Proof.
  intros Hv0 Hok0 Hc0 Hr.
  assert (Hinv : pipe_inv p stream (s, rest, got)).
  { refine (rtc_ind_r (fun y => pipe_inv p stream y) _ _ _ _ Hr); [|intros y z _; apply pipe_inv_step].
    exists v0. rewrite Hc0. by split. }
  destruct Hinv as (v & Hv & Hok & Hst). exists v. split; [done|]. split; [|done].
  pose proof (length_contents v). pose proof (po_count _ Hok). unfold PIPESIZE in *. lia.
Qed.

Definition epipe : pipe := mkPipe (replicate 512 0) (2 ^ 32 - 1) (2 ^ 32 - 1) 1 1.
Definition estate : kstate := set_k_pipes {[7 := epipe]} one_proc.

Lemma pipe_is_fifo_witness : exists s rest got v, rtc (pipe_step 7) (estate, [10; 20; 30], []) (s, rest, got) /\
  got = [10; 20] /\ k_pipes s !! 7 = Some v /\ [10; 20; 30] = got ++ contents v ++ rest.
Proof.
  assert (Hst : exists s, rtc (pipe_step 7) (estate, [10; 20; 30], []) (s, [], [10; 20])).
  { eexists. eapply rtc_l.
    - eapply (ps_write 7 _ _ 3); [|left; eexists; vm_compute; reflexivity|vm_compute; reflexivity|vm_compute; reflexivity].
      split; [reflexivity|]. eexists 0%nat, _. split; reflexivity.
    - eapply rtc_l; [|apply rtc_refl]. eapply (ps_read 7 _ _ 2 _ [10; 20] _ []).
      + split; [reflexivity|]. eexists 0%nat, _. split; reflexivity.
      + vm_compute. reflexivity. }
  destruct Hst as [s Hst]. exists s, [], [10; 20].
  assert (He : pipe_ok epipe) by (split; [reflexivity|split; [by vm_compute|reflexivity]..|by vm_compute]).
  destruct (pipe_is_fifo 7 [10; 20; 30] estate epipe s [] [10; 20] (lookup_singleton_eq _ _) He eq_refl Hst)
    as (v & Hv & _ & Hs).
  exists v. split; [exact Hst|]. split; [reflexivity|]. split; [exact Hv|exact Hs].
Defined.
