(* ===== verification/Grep.v ===== *)
(** * grep: src/xv6/grep.c

    The matcher of Kernighan and Pike ([match], [matchhere], [matchstar]) and
    the loop that reads a file in pieces and writes the matching lines.
    Strings are lists of characters without the terminating NUL.

    The matcher is proved equivalent to the regular language of the
    pattern; the loop is proved to write the matching lines when every
    read ends a line, and to lose text otherwise. *)

From stdpp Require Import base list list_numbers numbers.
From Stdlib Require Import ZArith Lia.
From S2P Require Import Prelude.

Definition c_star : Z := 42.
Definition c_dot : Z := 46.
Definition c_caret : Z := 94.
Definition c_dollar : Z := 36.
Definition c_nl : Z := 10.

(** ** The matcher *)

(** [matchstar(c, re, text)], [here] being [matchhere(re, -)]. *)
Fixpoint matchstar (here : list Z -> bool) (c : Z) (text : list Z) : bool :=
  here text ||
  match text with
  | [] => false
  | t :: text' => ((t =? c) || (c =? c_dot)) && matchstar here c text'
  end.

Fixpoint matchhere (re text : list Z) : bool :=
  match re with
  | [] => true
  | c :: re1 =>
      let one :=
        if ((c =? c_dollar) && bool_decide (re1 = []))%bool then bool_decide (text = [])
        else match text with
             | [] => false
             | t :: text' => ((c =? c_dot) || (c =? t)) && matchhere re1 text'
             end in
      match re1 with
      | s :: re2 => if s =? c_star then matchstar (matchhere re2) c text else one
      | [] => one
      end
  end.

(** The [do ... while] of [match]. *)
Fixpoint match_anywhere (re text : list Z) : bool :=
  matchhere re text ||
  match text with
  | [] => false
  | _ :: text' => match_anywhere re text'
  end.

Definition match_ (re text : list Z) : bool :=
  match re with
  | c :: re1 => if c =? c_caret then matchhere re1 text else match_anywhere re text
  | [] => match_anywhere re text
  end.

(** ** The loop of [grep]

    [chunks] are the results of the successive calls of [read], which
    returns at most the [cap] bytes that [buf] has room for; the part of
    [buf] in use is [held].  The result is what is written. *)

Definition cap : Z := 1024.

(** The lines of [l] that a newline ends, and what follows the last one. *)
Fixpoint split_lines (cur l : list Z) : list (list Z) * list Z :=
  match l with
  | [] => ([], cur)
  | c :: l' =>
      if c =? c_nl then let '(ls, r) := split_lines [] l' in (cur :: ls, r)
      else split_lines (cur ++ [c]) l'
  end.

Definition emit (pattern : list Z) (lines : list (list Z)) : list Z :=
  mjoin ((fun p => if match_ pattern p then p ++ [c_nl] else []) <$> lines).

Fixpoint grep_loop (pattern held : list Z) (chunks : list (list Z)) : list Z :=
  match chunks with
  | [] => []
  | [] :: _ => []                      (* read returned 0 *)
  | chunk :: chunks' =>
      let b := held ++ chunk in
      let '(lines, rest) := split_lines [] b in
      emit pattern lines ++
      (* p == buf: no newline was found *)
      grep_loop pattern (if bool_decide (lines = []) then [] else rest) chunks'
  end.
Definition grep (pattern : list Z) (chunks : list (list Z)) : list Z := grep_loop pattern [] chunks.

(** ** The language of a pattern *)

(** A pattern is a sequence of characters, starred or not, and possibly a
    final dollar. *)
Inductive item := One (c : Z) | Many (c : Z).

Fixpoint parse (re : list Z) : list item * bool :=
  match re with
  | [] => ([], false)
  | c :: re1 =>
      match re1 with
      | [] => if c =? c_dollar then ([], true) else ([One c], false)
      | s :: re2 =>
          if s =? c_star then let '(its, e) := parse re2 in (Many c :: its, e)
          else let '(its, e) := parse re1 in (One c :: its, e)
      end
  end.

Definition accepts (c x : Z) : Prop := c = c_dot \/ c = x.

Inductive lang : list item -> list Z -> Prop :=
| lang_nil : lang [] []
| lang_one c x its w : accepts c x -> lang its w -> lang (One c :: its) (x :: w)
| lang_many c w1 w2 its : Forall (accepts c) w1 -> lang its w2 -> lang (Many c :: its) (w1 ++ w2).

(** [re] matches a prefix of [text] (all of it, if [re] ends in a dollar). *)
Definition prefix_match (re text : list Z) : Prop :=
  exists w post, text = w ++ post /\ lang (parse re).1 w /\ ((parse re).2 = true -> post = []).

(** ** Lemmas on the matcher *)

Lemma matchstar_spec here c text :
  matchstar here c text = true <->
  exists w post, text = w ++ post /\ Forall (accepts c) w /\ here post = true.
Proof.
  induction text as [|t text IH]; cbn [matchstar].
  - rewrite orb_false_r. split.
    + intros H. by exists [], [].
    + intros (w & post & E & _ & H). symmetry in E. apply app_eq_nil in E as [-> ->]. done.
  - rewrite orb_true_iff, andb_true_iff, IH. split.
    + intros [H|[Hc (w & post & -> & Hw & H)]]; [by exists [], (t :: text)|].
      exists (t :: w), post. split; [done|]. split; [|done]. constructor; [|done].
      unfold accepts. apply orb_true_iff in Hc as [?%Z.eqb_eq|?%Z.eqb_eq]; auto.
    + intros (w & post & E & Hw & H). destruct w as [|x w]; [left; cbn in E; by subst post|].
      injection E as <- ->. inversion Hw as [|? ? Hx Hw' ]; subst. right. split; [|by exists w, post].
      apply orb_true_iff. destruct Hx as [->| ->]; [right|left]; apply Z.eqb_refl.
Qed.

Lemma lang_cons_one c its w : lang (One c :: its) w <-> exists x w', w = x :: w' /\ accepts c x /\ lang its w'.
Proof.
  split; [intros H; inversion H; subst; eauto|]. intros (x & w' & -> & ? & ?). by constructor.
Qed.

Lemma lang_cons_many c its w :
  lang (Many c :: its) w <-> exists w1 w2, w = w1 ++ w2 /\ Forall (accepts c) w1 /\ lang its w2.
Proof.
  split; [intros H; inversion H; subst; eauto|]. intros (w1 & w2 & -> & ? & ?). by constructor.
Qed.

(** The step of an ordinary character. *)
Lemma one_step c its e (here : list Z -> bool) text :
  (forall t, here t = true <-> exists w post, t = w ++ post /\ lang its w /\ (e = true -> post = [])) ->
  match text with [] => false | t :: text' => ((c =? c_dot) || (c =? t)) && here text' end = true <->
  exists w post, text = w ++ post /\ lang (One c :: its) w /\ (e = true -> post = []).
Proof.
  intros IH. destruct text as [|t text].
  - split; [done|]. intros (w & post & E & Hl & _). apply lang_cons_one in Hl as (x & w' & -> & _). done.
  - rewrite andb_true_iff, IH, orb_true_iff, !Z.eqb_eq. split.
    + intros [Hc (w & post & -> & Hl & He)]. exists (t :: w), post. split; [done|]. split; [|done].
      by constructor.
    + intros (w & post & E & Hl & He). apply lang_cons_one in Hl as (x & w' & -> & Hx & Hl).
      injection E as <- ->. split; [done|]. by exists w', post.
Qed.

Lemma matchhere_spec n : forall re text, (length re <= n)%nat ->
  matchhere re text = true <-> prefix_match re text.
Proof.
  unfold prefix_match. induction n as [|n IH]; intros re text Hn.
  { destruct re; [|cbn in Hn; lia]. cbn. split; [|done]. intros _. exists [], text. by repeat constructor. }
  destruct re as [|c re1].
  { cbn. split; [|done]. intros _. exists [], text. by repeat constructor. }
  destruct re1 as [|s re2].
  - cbn [matchhere parse]. rewrite bool_decide_eq_true_2, andb_true_r by done.
    destruct (c =? c_dollar).
    + rewrite bool_decide_eq_true. cbn. split.
      * intros ->. exists [], []. by repeat constructor.
      * intros (w & post & -> & Hl & ->); [|done]. inversion Hl. done.
    + apply (one_step c [] false (fun _ => true)). intros t. split; [|done].
      intros _. exists [], t. by repeat constructor.
  - change (parse (c :: s :: re2)) with
      (if s =? c_star then let '(its, e) := parse re2 in (Many c :: its, e)
       else let '(its, e) := parse (s :: re2) in (One c :: its, e)).
    destruct (Z.eqb_spec s c_star) as [->|Hs].
    + cbn [matchhere]. rewrite Z.eqb_refl, matchstar_spec. destruct (parse re2) as [its e] eqn:Ep. cbn [fst snd].
      split.
      * intros (w & post & -> & Hw & H). apply IH in H as (w2 & post2 & -> & Hl & He); [|cbn in Hn; lia].
        rewrite Ep in Hl, He. exists (w ++ w2), post2. rewrite app_assoc. split; [done|]. split; [|done].
        by constructor.
      * intros (w & post & -> & Hl & He). apply lang_cons_many in Hl as (w1 & w2 & -> & Hw & Hl).
        exists w1, (w2 ++ post). rewrite app_assoc. split; [done|]. split; [done|].
        apply IH; [cbn in Hn; lia|]. rewrite Ep. by exists w2, post.
    + change (matchhere (c :: s :: re2) text) with
        (if s =? c_star then matchstar (matchhere re2) c text
         else if ((c =? c_dollar) && bool_decide (s :: re2 = []))%bool then bool_decide (text = [])
         else match text with
              | [] => false
              | t :: text' => ((c =? c_dot) || (c =? t)) && matchhere (s :: re2) text' end).
      rewrite (proj2 (Z.eqb_neq _ _) Hs), bool_decide_eq_false_2, andb_false_r by done.
      destruct (parse (s :: re2)) as [its e] eqn:Ep. cbn [fst snd].
      apply one_step. intros t. rewrite IH by (cbn in *; lia). by rewrite Ep.
Qed.

Lemma match_anywhere_spec re text :
  match_anywhere re text = true <-> exists pre post, text = pre ++ post /\ prefix_match re post.
Proof.
  induction text as [|t text IH]; cbn [match_anywhere].
  - rewrite orb_false_r, (matchhere_spec (length re)) by done. split.
    + intros H. by exists [], [].
    + intros (pre & post & E & H). symmetry in E. by apply app_eq_nil in E as [-> ->].
  - rewrite orb_true_iff, (matchhere_spec (length re)), IH by done. split.
    + intros [H|(pre & post & -> & H)]; [by exists [], (t :: text)|by exists (t :: pre), post].
    + intros (pre & post & E & H). destruct pre as [|x pre]; [left; cbn in E; by subst post|].
      injection E as <- ->. right. eauto.
Qed.

(** C38: [match] decides the language of the pattern: it returns true exactly
    when some substring of the text (a prefix if the pattern starts with a
    caret, a suffix if it ends in a dollar) is in the concatenation of the
    languages of the pattern's characters and starred characters, a dot
    standing for any character. *)
Theorem match_decides_language re text :
  match_ re text = true <->
  let anchored := bool_decide (head re = Some c_caret) in
  let body := if anchored then tail re else re in
  exists pre w post, text = pre ++ w ++ post /\ lang (parse body).1 w /\
    (anchored = true -> pre = []) /\ ((parse body).2 = true -> post = []).
Proof.
  cbn zeta.
  assert (Hbody : forall body anch (P : Prop),
    (P <-> exists pre t, text = pre ++ t /\ prefix_match body t /\ (anch = true -> pre = [])) ->
    P <-> exists pre w post, text = pre ++ w ++ post /\ lang (parse body).1 w /\
          (anch = true -> pre = []) /\ ((parse body).2 = true -> post = [])).
  { intros body anch P ->. split.
    - intros (pre & t & -> & (w & post & -> & Hl & He) & Hp). by exists pre, w, post.
    - intros (pre & w & post & -> & Hl & Hp & He). exists pre, (w ++ post). split; [done|]. split; [|done].
      by exists w, post. }
  apply Hbody. clear Hbody. destruct re as [|c re1]; cbn [match_ head].
  - rewrite bool_decide_eq_false_2, match_anywhere_spec by done. naive_solver.
  - destruct (Z.eqb_spec c c_caret) as [->|Hc].
    + rewrite bool_decide_eq_true_2, (matchhere_spec (length re1)) by done. cbn [tail]. split.
      * intros H. by exists [], text.
      * intros (pre & t & -> & H & Hp). by rewrite Hp.
    + rewrite bool_decide_eq_false_2, match_anywhere_spec by congruence. naive_solver.
Qed.

(** ** The loop *)

Lemma split_lines_app l1 : forall cur l2,
  split_lines cur (l1 ++ l2) =
  let '(ls1, r1) := split_lines cur l1 in
  let '(ls2, r2) := split_lines r1 l2 in (ls1 ++ ls2, r2).
Proof.
  induction l1 as [|c l1 IH]; intros cur l2; cbn [app split_lines].
  - by destruct (split_lines cur l2).
  - destruct (c =? c_nl); [|by rewrite IH].
    rewrite IH. destruct (split_lines [] l1) as [ls1 r1]. by destruct (split_lines r1 l2).
Qed.

Lemma split_lines_rest l : forall cur, c_nl ∉ cur -> split_lines [] ((split_lines cur l).2) = ([], (split_lines cur l).2).
Proof.
  assert (Hnone : forall l cur, c_nl ∉ l -> split_lines cur l = ([], cur ++ l)).
  { clear. induction l as [|c l IH]; intros cur H; cbn; [by rewrite app_nil_r|].
    apply not_elem_of_cons in H as [Hc H]. rewrite (proj2 (Z.eqb_neq _ _)) by congruence.
    rewrite IH by done. by rewrite <- app_assoc. }
  induction l as [|c l IH]; intros cur Hcur; cbn [split_lines].
  - cbn. by rewrite Hnone.
  - destruct (Z.eqb_spec c c_nl) as [->|Hc].
    + specialize (IH [] ltac:(apply not_elem_of_nil)). by destruct (split_lines [] l).
    + apply IH. rewrite elem_of_app, list_elem_of_singleton. naive_solver.
Qed.

(** Every call of [read] returned something that ends at least one line. *)
Definition chunk_ok (chunk : list Z) : Prop := c_nl ∈ chunk.

Lemma emit_app p l1 l2 : emit p (l1 ++ l2) = emit p l1 ++ emit p l2.
Proof. unfold emit. by rewrite fmap_app, join_app. Qed.

Lemma split_lines_nonempty l : forall cur, c_nl ∈ l -> (split_lines cur l).1 <> [].
Proof.
  induction l as [|c l IH]; intros cur Hin; [by apply elem_of_nil in Hin|]. cbn.
  destruct (Z.eqb_spec c c_nl) as [->|Hc]; [by destruct (split_lines [] l)|].
  apply elem_of_cons in Hin as [?|Hin]; [congruence|]. by apply IH.
Qed.

Lemma split_lines_held held chunk : split_lines [] held = ([], held) ->
  split_lines [] (held ++ chunk) = split_lines held chunk.
Proof. intros E. rewrite split_lines_app, E. by destruct (split_lines held chunk). Qed.

Lemma grep_loop_spec pattern chunks : forall held,
  split_lines [] held = ([], held) -> c_nl ∉ held -> Forall chunk_ok chunks ->
  grep_loop pattern held chunks = emit pattern (split_lines held (mjoin chunks)).1.
Proof.
  induction chunks as [|chunk chunks IH]; intros held E Hh Hok; [done|].
  inversion Hok as [|? ? Hc Hok' ]; subst. clear Hok. rename Hok' into Hok. destruct chunk as [|x chunk]; [by apply elem_of_nil in Hc|].
  cbn [grep_loop]. rewrite split_lines_held by done.
  pose proof (split_lines_nonempty _ held Hc) as Hne. pose proof (split_lines_rest (x :: chunk) held Hh) as Hr.
  change (mjoin ((x :: chunk) :: chunks)) with ((x :: chunk) ++ mjoin chunks). rewrite split_lines_app.
  destruct (split_lines held (x :: chunk)) as [lines rest]. cbn [fst snd] in *.
  rewrite bool_decide_eq_false_2 by done. rewrite IH; [|done| |done].
  - destruct (split_lines rest (mjoin chunks)) as [ls2 r2]. cbn [fst]. by rewrite emit_app.
  - intros Hin. apply (split_lines_nonempty rest []) in Hin. by rewrite Hr in Hin.
Qed.

(** When every [read] returns a piece with at least one newline in it,
    [grep] writes exactly the lines of the file that match, in order,
    however the file is cut into pieces (an unterminated last line is not
    looked at). *)
Theorem grep_prints_matching_lines pattern chunks :
  Forall chunk_ok chunks ->
  grep pattern chunks = emit pattern (split_lines [] (mjoin chunks)).1.
Proof. intros H. apply grep_loop_spec; [done|apply not_elem_of_nil|done]. Qed.

(** "ab" newline "cab" newline "d" newline, in two pieces. *)
Lemma grep_prints_matching_lines_witness :
  grep [97; 98] [[97; 98; 10; 99]; [97; 98; 10; 100; 10]] = [97; 98; 10; 99; 97; 98; 10].
Proof.
  rewrite (grep_prints_matching_lines [97; 98] [[97; 98; 10; 99]; [97; 98; 10; 100; 10]]); [reflexivity|].
  repeat constructor; vm_compute; repeat (first [left; reflexivity|right]).
Defined.

(** Text read in a piece without a newline is forgotten ([if(p == buf)
    m = 0]): the line "ab" is found when it arrives in one piece and missed
    when a [read] returns only its first character, as happens when grep
    reads from a pipe or from the console. *)
Theorem grep_loses_partial_lines :
  grep [97; 98] [[97; 98; 10]] = [97; 98; 10] /\ grep [97; 98] [[97]; [98; 10]] = [].
Proof. split; reflexivity. Qed.
