(* ===== verification/Printf.v ===== *)
(** * Formatted output and numbers: src/xv6/printf.c, the printing half of
    src/xv6/console.c, and [atoi] of src/xv6/ulib.c

    Output is the list of characters written.  The variable arguments are a
    list; a "%s" argument is the string it points to, or the null pointer.

    The theorems: [printint] never fills its 16-byte buffer and what it
    prints for a decimal number is read back by [atoi]; a format prints
    literally but for its conversions, each of which consumes one
    argument. *)

From stdpp Require Import base list list_numbers numbers strings.
From Stdlib Require Import ZArith Lia.
From S2P Require Import Prelude.

Definition c_0 : Z := 48.
Definition c_minus : Z := 45.
Definition c_pct : Z := 37.

(** An argument word: a number, a pointer to a string, the null pointer. *)
Inductive arg := AInt (x : Z) | AStr (s : list Z) | ANull.

Definition word_of (a : arg) : Z := match a with AInt x => x | _ => 0 end.
(** [s = (char-pointer) argument; if(s == 0) s = "(null)"] *)
Definition str_of (a : arg) : list Z :=
  match a with AStr s => s | _ => [40; 110; 117; 108; 108; 41] end.

(** [digits[d]] with upper-case (printf.c) or lower-case (console.c) letters. *)
Definition digit (alpha d : Z) : Z := if d <? 10 then c_0 + d else alpha + (d - 10).
Definition upper_a : Z := 65.
Definition lower_a : Z := 97.

(** [do{ buf[i++] = digits[x % base]; }while((x /= base) != 0);]
    A 32-bit number has at most 32 digits in any base. *)
Fixpoint digits_loop (fuel : nat) (alpha x base : Z) : list Z :=
  match fuel with
  | O => []
  | S fuel' =>
      digit alpha (x mod base) ::
      if x / base =? 0 then [] else digits_loop fuel' alpha (x / base) base
  end.

(** The buffer before it is printed from its end. *)
Definition printint_buf (alpha xx base sgn : Z) : list Z :=
  let neg := (negb (sgn =? 0) && (xx <? 0))%bool in
  let x := if neg then u32 (- xx) else u32 xx in
  digits_loop 32 alpha x base ++ (if neg then [c_minus] else []).

(** printf.c *)
Definition printint (xx base sgn : Z) : list Z := rev (printint_buf upper_a xx base sgn).
(** console.c *)
Definition cons_printint (xx base sign : Z) : list Z := rev (printint_buf lower_a xx base sign).

(** [printf]: [state] says whether the last character was a percent sign. *)
Fixpoint printf_loop (fmt : list Z) (pct : bool) (ap : list arg) : list Z :=
  match fmt with
  | [] => []
  | c :: fmt' =>
      if negb pct then
        if c =? c_pct then printf_loop fmt' true ap else c :: printf_loop fmt' false ap
      else
        let a := hd ANull ap in
        if c =? 100 then printint (word_of a) 10 1 ++ printf_loop fmt' false (tail ap)
        else if ((c =? 120) || (c =? 112))%bool then printint (word_of a) 16 0 ++ printf_loop fmt' false (tail ap)
        else if c =? 115 then str_of a ++ printf_loop fmt' false (tail ap)
        else if c =? 99 then u8 (word_of a) :: printf_loop fmt' false (tail ap)
        else if c =? c_pct then c :: printf_loop fmt' false ap
        else c_pct :: c :: printf_loop fmt' false ap
  end.
Definition printf (fmt : list Z) (ap : list arg) : list Z := printf_loop fmt false ap.

(** [cprintf] *)
Fixpoint cprintf (fmt : list Z) (argp : list arg) : list Z :=
  match fmt with
  | [] => []
  | c :: fmt' =>
      if negb (c =? c_pct) then c :: cprintf fmt' argp
      else
        match fmt' with
        | [] => []
        | c :: fmt'' =>
            let a := hd ANull argp in
            if c =? 100 then cons_printint (word_of a) 10 1 ++ cprintf fmt'' (tail argp)
            else if ((c =? 120) || (c =? 112))%bool
            then cons_printint (word_of a) 16 0 ++ cprintf fmt'' (tail argp)
            else if c =? 115 then str_of a ++ cprintf fmt'' (tail argp)
            else if c =? c_pct then c_pct :: cprintf fmt'' argp
            else c_pct :: c :: cprintf fmt'' argp
        end
  end.

(** The characters of a string literal. *)
Definition chars (s : string) : list Z := map (fun c => Z.of_N (Ascii.N_of_ascii c)) (String.list_ascii_of_string s).

(** [atoi], on the characters of the string; the [int] wraps. *)
Fixpoint atoi_loop (n : Z) (s : list Z) : Z :=
  match s with
  | [] => n
  | c :: s' => if ((48 <=? c) && (c <=? 57))%bool then atoi_loop (s32 (n * 10 + c - 48)) s' else n
  end.
Definition atoi (s : list Z) : Z := atoi_loop 0 s.

(** ** Digits *)

Definition value (l : list Z) : Z := foldr (fun c v => (c - c_0) + 10 * v) 0 l.

Lemma digits_value alpha fuel : forall x, 0 <= x < 10 ^ Z.of_nat fuel ->
  value (digits_loop fuel alpha x 10) = x /\
  Forall (fun c => 48 <= c <= 57) (digits_loop fuel alpha x 10) /\ (fuel <> O -> digits_loop fuel alpha x 10 <> []).
Proof.
  induction fuel as [|fuel IH]; intros x Hx; cbn [digits_loop].
  { cbn in *. split; [lia|]. split; [constructor|done]. }
  pose proof (Z.mod_pos_bound x 10 ltac:(lia)). pose proof (Z.div_mod x 10 ltac:(lia)).
  assert (Hd : digit alpha (x mod 10) = 48 + x mod 10).
  { unfold digit. rewrite (proj2 (Z.ltb_lt _ _)) by lia. done. }
  rewrite Hd. split; [|split; [|done]]; destruct (Z.eqb_spec (x / 10) 0) as [E|E].
  - cbn. unfold c_0. lia.
  - cbn [value foldr]. fold (value (digits_loop fuel alpha (x / 10) 10)).
    rewrite (proj1 (IH (x / 10) ltac:(rewrite Nat2Z.inj_succ, Z.pow_succ_r in Hx by lia; lia))). unfold c_0. lia.
  - constructor; [lia|constructor].
  - constructor; [lia|]. apply IH. rewrite Nat2Z.inj_succ, Z.pow_succ_r in Hx by lia. lia.
Qed.

(** [atoi] of a sequence of digits, most significant first. *)
Lemma atoi_digits l : forall n s, Forall (fun c => 48 <= c <= 57) l ->
  0 <= n -> n * 10 ^ Z.of_nat (length l) + value l < 2 ^ 31 -> 
  match s with [] => True | c :: _ => ~ (48 <= c <= 57) end ->
  atoi_loop n (rev l ++ s) = n * 10 ^ Z.of_nat (length l) + value l.
Proof.
  induction l as [|c l IH] using rev_ind; intros n s Hl Hn Hb Hs.
  - cbn in *. destruct s as [|c s]; cbn; [lia|].
    destruct (48 <=? c) eqn:E1, (c <=? 57) eqn:E2; cbn; try lia.
  - assert (Hval : forall l c, value (l ++ [c]) = value l + (c - 48) * 10 ^ Z.of_nat (length l)).
    { clear. intros l c. induction l as [|d l IH]; cbn [app value foldr length]; [unfold c_0; cbn; lia|].
      fold (value (l ++ [c])) (value l). rewrite IH, Nat2Z.inj_succ, Z.pow_succ_r by lia. lia. }
    assert (Hv : Forall (fun c => 48 <= c <= 57) l -> 0 <= value l).
    { clear. induction 1 as [|d l Hd Hl IH]; cbn [value foldr]; [lia|]. fold (value l). unfold c_0. cbn in Hd. lia. }
    apply Forall_app in Hl as [Hl Hc]. apply Forall_inv in Hc. cbn beta in Hc.
    rewrite rev_app_distr, length_app, Nat2Z.inj_add, Z.pow_add_r, Hval in * by lia. cbn [rev app atoi_loop length].
    specialize (Hv Hl). clear Hval.
    assert (Hp : 1 <= 10 ^ Z.of_nat (length l)) by (pose proof (Z.pow_pos_nonneg 10 (Z.of_nat (length l)) ltac:(lia) ltac:(lia)); lia).
    change (10 ^ Z.of_nat 1) with 10 in *.
    rewrite (proj2 (Z.leb_le 48 c)), (proj2 (Z.leb_le c 57)) by lia. cbn [andb].
    change (10 ^ Z.of_nat (length [c])) with 10 in Hb. generalize dependent (10 ^ Z.of_nat (length l)).
    intros P IH Hb Hp. set (X := n * 10 + c - 48). assert (HX : X * P + value l < 2 ^ 31) by (subst X; lia).
    assert (Hnc : 0 <= X) by (subst X; lia). assert (X <= X * P) by nia.
    rewrite s32_small by lia. rewrite IH; [subst X; lia|done|lia|done|done].
Qed.

Lemma length_digits alpha base fuel : 2 <= base -> forall x k,
  0 <= x < base ^ Z.of_nat k -> (1 <= k)%nat -> (length (digits_loop fuel alpha x base) <= k)%nat.
Proof.
  intros Hb. induction fuel as [|fuel IH]; intros x k Hx Hk; cbn [digits_loop length]; [lia|].
  destruct (Z.eqb_spec (x / base) 0) as [E|E]; [cbn; lia|].
  destruct k as [|k]; [lia|]. rewrite Nat2Z.inj_succ, Z.pow_succ_r in Hx by lia.
  assert (Hq : 0 <= x / base < base ^ Z.of_nat k).
  { split; [apply Z.div_pos; lia|apply Z.div_lt_upper_bound; lia]. }
  destruct k as [|k]; [cbn in Hq; lia|]. pose proof (IH (x / base) (S k) Hq ltac:(lia)). lia.
Qed.

(** The text [printint] produces for a decimal [int] is read back by
    [atoi] (after the sign), whatever non-digit follows it, and for any
    [int] in base 10 or 16 the text fits in the 16-byte buffer of the code:
    at most ten digits and a sign. *)
Theorem printint_atoi_roundtrip xx s :
  - 2 ^ 31 <= xx < 2 ^ 31 -> match s with [] => True | c :: _ => ~ (48 <= c <= 57) end ->
  (0 <= xx -> atoi (printint xx 10 1 ++ s) = xx) /\
  (- 2 ^ 31 < xx < 0 -> exists d, printint xx 10 1 = c_minus :: d /\ atoi (d ++ s) = - xx) /\
  (forall base sgn, base = 10 \/ base = 16 -> (length (printint_buf upper_a xx base sgn) <= 11)%nat).
Proof.
  intros Hx Hs. unfold atoi, printint, printint_buf. change (negb (1 =? 0)) with true. cbn [andb]. split; [|split].
  - intros Hp. rewrite (proj2 (Z.ltb_ge xx 0)), app_nil_r, u32_small by lia.
    destruct (digits_value upper_a 32 xx) as (Hv & Hd & _); [lia|].
    rewrite atoi_digits; [by rewrite Hv|done|lia| |done]. rewrite Hv. lia.
  - intros Hp. rewrite (proj2 (Z.ltb_lt xx 0)), u32_small by lia. rewrite rev_app_distr. cbn [rev app].
    destruct (digits_value upper_a 32 (- xx)) as (Hv & Hd & _); [lia|].
    eexists. split; [reflexivity|]. rewrite atoi_digits; [by rewrite Hv|done|lia| |done]. rewrite Hv. lia.
  - intros base sgn Hb. rewrite length_app.
    assert (Hl : forall x, 0 <= x < 2 ^ 32 -> (length (digits_loop 32 upper_a x base) <= 10)%nat).
    { intros x Hx'. apply length_digits; [lia| |lia]. destruct Hb as [-> | ->].
      - change (10 ^ Z.of_nat 10) with 10000000000. lia.
      - change (16 ^ Z.of_nat 10) with 1099511627776. lia. }
    pose proof (Hl (u32 (- xx)) (u32_range _)). pose proof (Hl (u32 xx) (u32_range _)).
    destruct (negb (sgn =? 0) && (xx <? 0))%bool; cbn [length]; lia.
Qed.

Lemma printint_atoi_roundtrip_witness : atoi (printint 2017 10 1 ++ [10]) = 2017 /\ printint (-5) 10 1 = [45; 53].
Proof.
  split; [|reflexivity].
  apply (printint_atoi_roundtrip 2017 [10]); [lia|cbn; lia|lia].
Defined.

(** ** Formats *)

(** [printf] prints text without percent signs as it is, and what
    follows a text is printed after it; each conversion prints its argument
    and consumes exactly one. *)
Theorem printf_conversions txt fmt ap a :
  c_pct ∉ txt ->
  printf (txt ++ fmt) ap = txt ++ printf fmt ap /\
  printf (c_pct :: 100 :: fmt) (a :: ap) = printint (word_of a) 10 1 ++ printf fmt ap /\
  printf (c_pct :: 120 :: fmt) (a :: ap) = printint (word_of a) 16 0 ++ printf fmt ap /\
  printf (c_pct :: 115 :: fmt) (a :: ap) = str_of a ++ printf fmt ap /\
  printf (c_pct :: 99 :: fmt) (a :: ap) = u8 (word_of a) :: printf fmt ap /\
  printf (c_pct :: c_pct :: fmt) ap = c_pct :: printf fmt ap.
Proof.
  intros Ht. split; [|by repeat split]. unfold printf. induction txt as [|c txt IH]; [done|].
  apply not_elem_of_cons in Ht as [Hc Ht]. cbn. rewrite (proj2 (Z.eqb_neq _ _)) by congruence.
  by rewrite IH.
Qed.

Lemma printf_conversions_witness : printf ([112; 58] ++ [37; 100]) [AInt 7] = [112; 58; 55].
Proof.
  rewrite (proj1 (printf_conversions [112; 58] [37; 100] [AInt 7] ANull ltac:(by vm_compute; intros H; repeat (apply elem_of_cons in H as [?|H]; [discriminate|]); apply elem_of_nil in H))).
  reflexivity.
Defined.
