(* ===== verification/Mp.v ===== *)
(** * Multiprocessor configuration: src/xv6/mp.c, mp.h

    [mpinit] looks in the memory of the BIOS for a floating pointer structure,
    checks the configuration table it points to, and records the processors and
    the I/O APIC that the table lists.  Memory is read at kernel addresses; the
    one device access, to the IMCR, is recorded with the value read there as a
    parameter.  The table is walked with fuel for one step per byte. *)

From stdpp Require Import base list list_numbers numbers gmap strings.
From Stdlib Require Import ZArith Lia.
From S2P Require Import Prelude Mem KState Kalloc Printf.

Definition NCPU : nat := 8.
Definition sizeof_mp : Z := 16.
Definition sizeof_mpconf : Z := 44.
Definition sizeof_mpproc : Z := 20.
Definition sizeof_mpioapic : Z := 8.
Definition MPBOOT : Z := 0x02.
Definition MPPROC : Z := 0x00.
Definition MPBUS : Z := 0x01.
Definition MPIOAPIC : Z := 0x02.
Definition MPIOINTR : Z := 0x03.
Definition MPLINTR : Z := 0x04.

(** The variables of mp.c, the pointer [lapic] of lapic.c, what was printed and
    what was written to ports; of [cpus] the field [id]. *)
Record mpstate := mkMp {
  m_mem : mem;
  m_cpus : list Z;
  m_bcpu : nat;
  m_ismp : bool;
  m_ncpu : nat;
  m_ioapicid : Z;
  m_lapic : Z;
  m_out : list Z;
  m_ports : list (Z * Z)
}.
Definition set_m_mem v s := mkMp v (m_cpus s) (m_bcpu s) (m_ismp s) (m_ncpu s) (m_ioapicid s) (m_lapic s) (m_out s) (m_ports s).
Definition set_m_cpus v s := mkMp (m_mem s) v (m_bcpu s) (m_ismp s) (m_ncpu s) (m_ioapicid s) (m_lapic s) (m_out s) (m_ports s).
Definition set_m_bcpu v s := mkMp (m_mem s) (m_cpus s) v (m_ismp s) (m_ncpu s) (m_ioapicid s) (m_lapic s) (m_out s) (m_ports s).
Definition set_m_ismp v s := mkMp (m_mem s) (m_cpus s) (m_bcpu s) v (m_ncpu s) (m_ioapicid s) (m_lapic s) (m_out s) (m_ports s).
Definition set_m_ncpu v s := mkMp (m_mem s) (m_cpus s) (m_bcpu s) (m_ismp s) v (m_ioapicid s) (m_lapic s) (m_out s) (m_ports s).
Definition set_m_ioapicid v s := mkMp (m_mem s) (m_cpus s) (m_bcpu s) (m_ismp s) (m_ncpu s) v (m_lapic s) (m_out s) (m_ports s).
Definition set_m_lapic v s := mkMp (m_mem s) (m_cpus s) (m_bcpu s) (m_ismp s) (m_ncpu s) (m_ioapicid s) v (m_out s) (m_ports s).
Definition add_m_out v s := mkMp (m_mem s) (m_cpus s) (m_bcpu s) (m_ismp s) (m_ncpu s) (m_ioapicid s) (m_lapic s) (m_out s ++ v) (m_ports s).
Definition add_m_port p v s := mkMp (m_mem s) (m_cpus s) (m_bcpu s) (m_ismp s) (m_ncpu s) (m_ioapicid s) (m_lapic s) (m_out s) (m_ports s ++ [(p, v)]).
Abbreviation M := (prog kstop mpstate).

(** ** Searching *)

(** [sum]: the low byte of the sum of [len] bytes. *)
Fixpoint sum_loop (m : mem) (addr : Z) (len : nat) (acc : Z) : Z :=
  match len with O => acc | S len' => sum_loop m (addr + 1) len' (s32 (acc + ld8 m addr)) end.
Definition sum (m : mem) (addr len : Z) : Z := u8 (sum_loop m addr (Z.to_nat len) 0).

(** [memcmp] with the characters of a literal, compared with 0. *)
Definition has_sig (m : mem) (p : Z) (sig : list Z) : bool := bool_decide (ld m p (length sig) = sig).

(** The loop of [mpsearch1] at [p], with [n] structures to go. *)
Fixpoint mpsearch1_loop (m : mem) (n : nat) (p : Z) : option Z :=
  match n with
  | O => None
  | S n' => if (has_sig m p (chars "_MP_") && (sum m p sizeof_mp =? 0))%bool then Some p else mpsearch1_loop m n' (p + sizeof_mp)
  end.
Definition mpsearch1 (m : mem) (a len : Z) : option Z := mpsearch1_loop m (Z.to_nat (len / sizeof_mp)) (p2v a).

Definition mpsearch (m : mem) : option Z :=
  let bda := p2v 0x400 in
  let p := Z.shiftl (Z.lor (Z.shiftl (ld8 m (bda + 0x0F)) 8) (ld8 m (bda + 0x0E))) 4 in
  match (if negb (p =? 0) then mpsearch1 m p 1024
         else mpsearch1 m (u32 (Z.lor (Z.shiftl (ld8 m (bda + 0x14)) 8) (ld8 m (bda + 0x13)) * 1024 - 1024)) 1024) with
  | Some mp => Some mp
  | None => mpsearch1 m 0xF0000 0x10000
  end.

(** The fields that are read. *)
Definition mp_physaddr (m : mem) (p : Z) : Z := ld32 m (p + 4).
Definition mp_imcrp (m : mem) (p : Z) : Z := ld8 m (p + 12).
Definition conf_length (m : mem) (c : Z) : Z := le_dec (ld m (c + 4) 2).
Definition conf_version (m : mem) (c : Z) : Z := ld8 m (c + 6).
Definition conf_lapicaddr (m : mem) (c : Z) : Z := ld32 m (c + 36).

(** The table, and the structure that points to it. *)
Definition mpconfig (m : mem) : option (Z * Z) :=
  match mpsearch m with
  | None => None
  | Some mp =>
      if mp_physaddr m mp =? 0 then None
      else
        let conf := p2v (mp_physaddr m mp) in
        if negb (has_sig m conf (chars "PCMP")) then None
        else if (negb (conf_version m conf =? 1) && negb (conf_version m conf =? 4))%bool then None
        else if negb (sum m conf (conf_length m conf) =? 0) then None
        else Some (mp, conf)
  end.

(** ** mpinit *)

Section mpinit.
(** What [inb(0x23)] returns. *)
Context (imcr : Z).

(** The entry of a processor at [p]; [cpus[ncpu]] is written without a check. *)
Definition mp_proc (p : Z) : M unit :=
  s ← gets (fun s => s);
  let apicid := ld8 (m_mem s) (p + 1) in
  let flags := ld8 (m_mem s) (p + 3) in
  (if negb (Z.of_nat (m_ncpu s) =? apicid) then
     modify (add_m_out (cprintf (chars "mpinit: ncpu=%d apicid=%d" ++ [10]) [AInt (Z.of_nat (m_ncpu s)); AInt apicid])) ;;
     modify (set_m_ismp false)
   else mret tt) ;;
  (if flag flags MPBOOT then modify (set_m_bcpu (m_ncpu s)) else mret tt) ;;
  (if (m_ncpu s <? NCPU)%nat then modify (set_m_cpus (<[m_ncpu s := u8 (Z.of_nat (m_ncpu s))]> (m_cpus s))) else stop Fault) ;;
  modify (set_m_ncpu (S (m_ncpu s))).

(** The loop over the entries from [p] up to [e]. *)
Fixpoint mpinit_loop (fuel : nat) (p e : Z) : M unit :=
  if negb (p <? e) then mret tt
  else
    match fuel with
    | O => stop NoFuel
    | S fuel' =>
        ty ← gets (fun s => ld8 (m_mem s) p);
        if ty =? MPPROC then mp_proc p ;; mpinit_loop fuel' (p + sizeof_mpproc) e
        else if ty =? MPIOAPIC then
          apicno ← gets (fun s => ld8 (m_mem s) (p + 1));
          modify (set_m_ioapicid apicno) ;;
          mpinit_loop fuel' (p + sizeof_mpioapic) e
        else if ((ty =? MPBUS) || (ty =? MPIOINTR) || (ty =? MPLINTR))%bool then mpinit_loop fuel' (p + 8) e
        else
          modify (add_m_out (cprintf (chars "mpinit: unknown config type %x" ++ [10]) [AInt ty])) ;;
          modify (set_m_ismp false) ;;
          mpinit_loop fuel' p e
    end.

Definition mpinit : M unit :=
  modify (set_m_bcpu 0%nat) ;;
  m ← gets m_mem;
  match mpconfig m with
  | None => mret tt
  | Some (mp, conf) =>
      modify (set_m_ismp true) ;;
      modify (set_m_lapic (conf_lapicaddr m conf)) ;;
      mpinit_loop (Z.to_nat (conf_length m conf)) (conf + sizeof_mpconf) (conf + conf_length m conf) ;;
      ismp ← gets m_ismp;
      if negb ismp then
        modify (set_m_ncpu 1%nat) ;;
        modify (set_m_lapic 0) ;;
        modify (set_m_ioapicid 0)
      else if negb (mp_imcrp m mp =? 0) then
        modify (add_m_port 0x22 0x70) ;;
        modify (add_m_port 0x23 (Z.lor imcr 1))
      else mret tt
  end.
End mpinit.

Definition mpbcpu : M Z := gets (fun s => Z.of_nat (m_bcpu s)).

(** ** The table *)

(** An entry of the table: a processor with its APIC id and whether it is the
    one that boots, an I/O APIC with its id, or one of the others. *)
Inductive mpentry := EProc (apicid : Z) (boot : bool) | EIoapic (apicno : Z) | EOther (ty : Z).
Definition entry_size (en : mpentry) : Z := match en with EProc _ _ => 20 | _ => 8 end.
Definition entry_at (m : mem) (p : Z) (en : mpentry) : Prop :=
  match en with
  | EProc a b => ld8 m p = MPPROC /\ ld8 m (p + 1) = a /\ flag (ld8 m (p + 3)) MPBOOT = b
  | EIoapic a => ld8 m p = MPIOAPIC /\ ld8 m (p + 1) = a
  | EOther ty => ld8 m p = ty /\ ty ∈ [MPBUS; MPIOINTR; MPLINTR]
  end.
Fixpoint entries_at (m : mem) (p : Z) (es : list mpentry) (e : Z) : Prop :=
  match es with
  | [] => p = e
  | en :: es' => entry_at m p en /\ entries_at m (p + entry_size en) es' e
  end.

(** What the table says: the number of processors, whether their ids count up
    from [k], the one that boots, the I/O APIC. *)
Fixpoint nprocs (es : list mpentry) : nat :=
  match es with [] => 0 | EProc _ _ :: es' => S (nprocs es') | _ :: es' => nprocs es' end.
Fixpoint in_order (es : list mpentry) (k : nat) : bool :=
  match es with [] => true | EProc a _ :: es' => (a =? Z.of_nat k) && in_order es' (S k) | _ :: es' => in_order es' k end.
Fixpoint boot_cpu (es : list mpentry) (k b : nat) : nat :=
  match es with [] => b | EProc _ boot :: es' => boot_cpu es' (S k) (if boot then k else b) | _ :: es' => boot_cpu es' k b end.
Fixpoint io_apic (es : list mpentry) (a : Z) : Z :=
  match es with [] => a | EIoapic a' :: es' => io_apic es' a' | _ :: es' => io_apic es' a end.

Lemma entries_le m es : forall p e, entries_at m p es e -> p + 8 * Z.of_nat (length es) <= e.
Proof. induction es as [|en es IH]; intros p e; cbn [entries_at length]; [lia|]. intros [_ H%IH]. destruct en; cbn [entry_size] in H; lia. Qed.

(** The state after the loop has seen the entries [es]. *)
Record walked (es : list mpentry) (s s' : mpstate) : Prop := {
  wk_mem : m_mem s' = m_mem s;
  wk_ncpu : m_ncpu s' = (m_ncpu s + nprocs es)%nat;
  wk_ismp : m_ismp s' = (m_ismp s && in_order es (m_ncpu s))%bool;
  wk_bcpu : m_bcpu s' = boot_cpu es (m_ncpu s) (m_bcpu s);
  wk_ioapic : m_ioapicid s' = io_apic es (m_ioapicid s);
  wk_cpus : length (m_cpus s') = NCPU /\ forall i, m_cpus s' !! i = if decide (m_ncpu s <= i < m_ncpu s + nprocs es)%nat then Some (Z.of_nat i) else m_cpus s !! i;
  wk_rest : m_lapic s' = m_lapic s /\ m_ports s' = m_ports s
}.

(** One processor. *)
Lemma mp_proc_run p a b s : entry_at (m_mem s) p (EProc a b) -> (m_ncpu s < NCPU)%nat -> length (m_cpus s) = NCPU ->
  exists s', mp_proc p s = Ret tt s' /\ walked [EProc a b] s s'.
Proof.
  intros (_ & Ea & Eb) Hn Hl. unfold mp_proc. rewrite bind_run. unfold gets at 1. cbn beta iota. rewrite Ea, Eb. rewrite (proj2 (Nat.ltb_lt _ _)) by done.
  assert (Hc : forall i, <[m_ncpu s := u8 (Z.of_nat (m_ncpu s))]> (m_cpus s) !! i = if decide (m_ncpu s <= i < m_ncpu s + 1)%nat then Some (Z.of_nat i) else m_cpus s !! i).
  { intros i. destruct (decide (i = m_ncpu s)) as [->|Hne].
    - rewrite list_lookup_insert_eq by lia. rewrite decide_True by lia. f_equal. apply u8_small. unfold NCPU in Hn. lia.
    - rewrite list_lookup_insert_ne by done. by rewrite decide_False by lia. }
  destruct (Z.eqb_spec (Z.of_nat (m_ncpu s)) a) as [<-|Hne]; cbn [negb]; destruct b; (eexists; split; [reflexivity|]); split; cbn;
    rewrite ?andb_true_r, ?Z.eqb_refl, ?andb_true_r, ?length_insert; try done; try lia; try (by split).
  all: rewrite (proj2 (Z.eqb_neq _ _)) by congruence; by rewrite andb_false_r.
Qed.

Lemma walked_cons en es s s1 s' : walked [en] s s1 -> walked es s1 s' -> walked (en :: es) s s'.
Proof.
  intros [A1 A2 A3 A4 A5 [A6 A7] [A8 A9]] [B1 B2 B3 B4 B5 [B6 B7] [B8 B9]].
  split; [congruence|..|rewrite B8, B9; done]; rewrite ?B2, ?B3, ?B4, ?B5, ?A2, ?A3, ?A4, ?A5; destruct en; cbn [nprocs in_order boot_cpu io_apic] in *; rewrite ?Nat.add_0_r, ?Nat.add_1_r, ?andb_true_r in *; try done; try lia.
  all: try (by rewrite andb_assoc).
  all: split; [done|]; intros i; rewrite B7, A7, A2; repeat case_decide; try done; lia.
Qed.

Lemma mpinit_loop_run es : forall fuel p e s, entries_at (m_mem s) p es e -> (length es <= fuel)%nat -> (m_ncpu s + nprocs es <= NCPU)%nat -> length (m_cpus s) = NCPU ->
  exists s', mpinit_loop fuel p e s = Ret tt s' /\ walked es s s'.
Proof.
  induction es as [|en es IH]; intros fuel p e s He Hf Hn Hl.
  { cbn in He. subst e. exists s. split; [destruct fuel; cbn [mpinit_loop]; by rewrite (proj2 (Z.ltb_ge _ _)) by lia|].
    split; cbn [nprocs in_order boot_cpu io_apic]; [done|lia|by rewrite andb_true_r|done|done| |done]. split; [done|]. intros i. by rewrite decide_False by lia. }
  pose proof (entries_le _ _ _ _ He) as Hle. cbn [length] in Hle, Hf. destruct He as [Hen Hes]. destruct fuel as [|fuel]; [lia|].
  assert (Hstep : exists s1, mpinit_loop (S fuel) p e s = mpinit_loop fuel (p + entry_size en) e s1 /\ walked [en] s s1).
  { cbn [mpinit_loop]. rewrite (proj2 (Z.ltb_lt _ _)) by lia. cbn [negb]. rewrite bind_run. unfold gets at 1. destruct en as [a b|a|ty].
    - cbn [nprocs] in Hn. destruct (mp_proc_run p a b s Hen) as (s1 & R & W); [lia|done|]. rewrite (proj1 Hen). change (MPPROC =? MPPROC) with true. cbv iota.
      rewrite (bind_Ret _ _ _ _ _ R). by exists s1.
    - destruct Hen as [-> E2]. change (MPIOAPIC =? MPPROC) with false. change (MPIOAPIC =? MPIOAPIC) with true. cbv iota. rewrite bind_run. unfold gets at 1. rewrite E2.
      rewrite bind_run. eexists. split; [reflexivity|]. split; cbn; rewrite ?andb_true_r; try done; try lia. split; [done|]. intros i. by rewrite decide_False by lia.
    - destruct Hen as [-> Hty]. exists s. split.
      + rewrite !elem_of_cons in Hty. destruct Hty as [->|[->|[->|Hn0]]]; [done|done|done|by apply elem_of_nil in Hn0].
      + split; cbn; rewrite ?andb_true_r; try done; try lia. split; [done|]. intros i. by rewrite decide_False by lia. }
  destruct Hstep as (s1 & R1 & W1). pose proof W1 as [A1 A2 _ _ _ [A6 _] _].
  destruct (IH fuel (p + entry_size en) e s1) as (s' & R' & W'); [by rewrite A1|lia| |done|].
  { rewrite A2. destruct en; cbn [nprocs] in *; lia. }
  exists s'. split; [by rewrite R1|]. by eapply walked_cons.
Qed.

(** ** The theorems *)

(** A floating pointer structure: the signature, and bytes that add up to 0. *)
Definition mp_valid (m : mem) (p : Z) : bool := has_sig m p (chars "_MP_") && (foldr Z.add 0 (ld m p 16) mod 256 =? 0).

Lemma sum_loop_bytes m len : forall addr acc, mem_ok m -> 0 <= acc -> acc + 256 * Z.of_nat len < 2 ^ 31 -> sum_loop m addr len acc = acc + foldr Z.add 0 (ld m addr len).
Proof.
  induction len as [|len IH]; intros addr acc Hm Ha Hb; cbn [sum_loop ld foldr]; [lia|]. pose proof (Hm addr). rewrite s32_small by lia. rewrite IH by (done || lia). lia.
Qed.
Lemma sum_bytes m addr len : mem_ok m -> 0 <= len < 2 ^ 20 -> sum m addr len = foldr Z.add 0 (ld m addr (Z.to_nat len)) mod 256.
Proof. intros Hm Hl. unfold sum. rewrite sum_loop_bytes by (done || lia). done. Qed.

(** [mpsearch1] finds the first structure of the region. *)
Lemma mpsearch1_first m a len q : mem_ok m -> mpsearch1 m a len = Some q <->
  exists i : nat, Z.of_nat i < len / 16 /\ q = p2v a + 16 * Z.of_nat i /\ mp_valid m q = true /\ forall j : nat, (j < i)%nat -> mp_valid m (p2v a + 16 * Z.of_nat j) = false.
Proof.
  intros Hm. unfold mpsearch1, sizeof_mp. assert (Hv : forall p, (has_sig m p (chars "_MP_") && (sum m p 16 =? 0))%bool = mp_valid m p).
  { intros p. unfold mp_valid. rewrite sum_bytes by (done || lia). done. }
  enough (H : forall n p, mpsearch1_loop m n p = Some q <-> exists i : nat, (i < n)%nat /\ q = p + 16 * Z.of_nat i /\ mp_valid m q = true /\ forall j : nat, (j < i)%nat -> mp_valid m (p + 16 * Z.of_nat j) = false).
  { rewrite H. split; intros (i & Hi & Hr); exists i; (split; [lia|done]). }
  induction n as [|n IH]; intros p; cbn [mpsearch1_loop]; [split; [done|intros (i & ? & _); lia]|]. unfold sizeof_mp. rewrite Hv. destruct (mp_valid m p) eqn:E.
  - split.
    + intros [= <-]. exists 0%nat. split; [lia|]. split; [lia|]. split; [done|]. intros j Hj. lia.
    + intros (i & _ & -> & _ & Hmin). destruct i as [|i]; [f_equal; lia|]. specialize (Hmin 0%nat ltac:(lia)). by rewrite Z.mul_0_r, Z.add_0_r, E in Hmin.
  - rewrite IH. split.
    + intros (i & Hi & -> & Hq & Hmin). exists (S i). split; [lia|]. split; [lia|]. split; [done|]. intros [|j] Hj; [by rewrite Z.mul_0_r, Z.add_0_r|].
      rewrite <- (Hmin j) by lia. f_equal. lia.
    + intros (i & Hi & -> & Hq & Hmin). destruct i as [|i]; [by rewrite Z.mul_0_r, Z.add_0_r, E in Hq|]. exists i. split; [lia|]. split; [lia|]. split; [done|].
      intros j Hj. rewrite <- (Hmin (S j)) by lia. f_equal. lia.
Qed.


(** At an entry of a type that it does not know, the loop of [mpinit] does not
    go on to the next entry: it comes to no end, whatever the number of steps. *)
Theorem mpinit_unknown_spins fuel p e s :
  p < e -> ld8 (m_mem s) p ∉ [MPPROC; MPBUS; MPIOAPIC; MPIOINTR; MPLINTR] -> exists s', mpinit_loop fuel p e s = Stop NoFuel s' /\ m_ncpu s' = m_ncpu s.
Proof.
  intros Hp. revert s. induction fuel as [|fuel IH]; intros s Ht; cbn [mpinit_loop]; rewrite (proj2 (Z.ltb_lt _ _)) by done; cbn [negb]; [by exists s|].
  rewrite bind_run. unfold gets at 1. rewrite !not_elem_of_cons in Ht. destruct Ht as (T0 & T1 & T2 & T3 & T4 & _).
  rewrite !(proj2 (Z.eqb_neq _ _)) by done. cbn [orb]. do 2 (rewrite bind_run; unfold modify at 1). set (s1 := set_m_ismp _ _).
  destruct (IH s1) as (s' & R & E); [cbn [s1 m_mem set_m_ismp add_m_out]; set_solver|]. exists s'. split; [exact R|exact E].
Qed.

(** A ninth processor is written behind the end of [cpus]. *)
Lemma mpinit_too_many p a b s : entry_at (m_mem s) p (EProc a b) -> m_ncpu s = NCPU -> exists s', mp_proc p s = Stop Fault s'.
Proof.
  intros (_ & Ea & Eb) Hn. unfold mp_proc. rewrite bind_run. unfold gets at 1. rewrite Ea, Eb, Hn. change (NCPU <? NCPU)%nat with false.
  destruct (negb (Z.of_nat NCPU =? a)), b; eexists; reflexivity.
Qed.

(** A machine with two processors and an I/O APIC. *)
Definition a_conf : list Z :=
  let t := chars "PCMP" ++ le_enc 2 92 ++ [4; 0] ++ replicate 20 32 ++ le_enc 4 0 ++ le_enc 2 0 ++ le_enc 2 3 ++ le_enc 4 0xFEE00000 ++ replicate 4 0 ++
    [0; 0; 17; 3] ++ replicate 16 0 ++ [0; 1; 17; 1] ++ replicate 16 0 ++ [2; 2; 17; 1] ++ le_enc 4 0xFEC00000 in
  <[7%nat := (- foldr Z.add 0 t) mod 256]> t.
Definition a_pointer : list Z :=
  let t := chars "_MP_" ++ le_enc 4 0x9FD00 ++ [1; 4; 0; 0; 128; 0; 0; 0] in <[10%nat := (- foldr Z.add 0 t) mod 256]> t.
Definition mp_machine : mpstate :=
  mkMp (st (st (st ∅ (p2v 0x40E) [0xC0; 0x9F]) (p2v 0x9FC00) a_pointer) (p2v 0x9FD00) a_conf) (replicate NCPU 0) 0 false 0 0 0 [] [].


Definition bad_table : mpstate := mkMp (st8 ∅ 0x1000 5) [] 0 true 0 0 0 [] [].
Lemma mpinit_unknown_spins_witness : exists s', mpinit_loop 1000 0x1000 0x1008 bad_table = Stop NoFuel s' /\ m_ncpu s' = 0%nat.
Proof.
  assert (Ht : ld8 (m_mem bad_table) 0x1000 ∉ [MPPROC; MPBUS; MPIOAPIC; MPIOINTR; MPLINTR]) by (by vm_compute; set_solver).
  exact (mpinit_unknown_spins 1000 0x1000 0x1008 bad_table ltac:(lia) Ht).
Defined.
