(* ===== verification/Block.v ===== *)
(** * Disk blocks inside a transaction: bzero, balloc and bfree of src/xv6/fs.c

    The first part is the interface on which the file system is verified:
    [txn] describes the state between [begin_op] and [end_op], with the
    blocks logged so far and the buffers in use, and there is one lemma for
    each of [bread], changing and logging a buffer, and [brelse].

    The second part is the allocator of disk blocks.  The theorems say which
    block [balloc] finds and what it and [bfree] change. *)

From stdpp Require Import base list list_numbers numbers gmap strings fin_sets.
From Stdlib Require Import ZArith Lia.
From S2P Require Import Prelude Mem KState Sched Bio Cache Log.

(** ** fs.h *)

Definition BPB : Z := 8 * Z.of_nat BSIZE.
Definition BBLOCK (b : Z) (sb : superblock) : Z := u32 (b / BPB + sb_bmapstart sb).

(** ** fs.c *)

Definition bzero (dev bno : Z) : K unit :=
  bp ← bread (u32 dev) (u32 bno);
  upd_buf bp (set_b_data (replicate BSIZE 0)) ;;
  log_write bp ;;
  brelse bp.

(** [bp->data[bi/8] & m], with [m = 1 << (bi % 8)]. *)
Definition bit_mask (bi : Z) : Z := Z.shiftl 1 (bi mod 8).
Definition bit_used (data : list Z) (bi : Z) : bool :=
  flag (nth (Z.to_nat (bi / 8)) data 0) (bit_mask bi).
(** [bp->data[bi/8] |= m] and [bp->data[bi/8] &= ~m] *)
Definition set_bit (data : list Z) (bi : Z) : list Z :=
  alter (fun x => u8 (fset x (bit_mask bi))) (Z.to_nat (bi / 8)) data.
Definition clear_bit (data : list Z) (bi : Z) : list Z :=
  alter (fun x => u8 (fclr x (bit_mask bi))) (Z.to_nat (bi / 8)) data.

(** The inner loop of [balloc], with [fuel] bits left in the block. *)
Fixpoint balloc_scan (data : list Z) (b size : Z) (fuel : nat) (bi : Z) : option Z :=
  match fuel with
  | O => None
  | S fuel' =>
      if u32 (b + bi) <? size then
        if negb (bit_used data bi) then Some bi
        else balloc_scan data b size fuel' (bi + 1)
      else None
  end.

(** The outer loop of [balloc]. *)
Fixpoint balloc_loop (dev : Z) (fuel : nat) (b : Z) : K Z :=
  match fuel with
  | O => stop NoFuel
  | S fuel' =>
      sb ← gets k_sb;
      if u32 b <? sb_size sb then
        bp ← bread dev (BBLOCK b sb);
        v ← get_buf bp;
        match balloc_scan (b_data v) b (sb_size sb) (Z.to_nat BPB) 0 with
        | Some bi =>
            upd_buf bp (fun v => set_b_data (set_bit (b_data v) bi) v) ;;
            log_write bp ;;
            brelse bp ;;
            bzero dev (b + bi) ;;
            mret (b + bi)
        | None => brelse bp ;; balloc_loop dev fuel' (b + BPB)
        end
      else panic "balloc: out of blocks"
  end.

Definition balloc (dev : Z) : K Z :=
  sb ← gets k_sb;
  balloc_loop dev (Z.to_nat (sb_size sb / BPB + 2)) 0.

Definition bfree (dev b : Z) : K unit :=
  sb ← readsb dev;
  modify (set_k_sb sb) ;;
  bp ← bread (u32 dev) (BBLOCK b sb);
  v ← get_buf bp;
  let bi := b mod BPB in
  if negb (bit_used (b_data v) bi) then panic "freeing free block"
  else
    upd_buf bp (fun v => set_b_data (clear_bit (b_data v) bi) v) ;;
    log_write bp ;;
    brelse bp.

(** ** Transactions *)

(** Between [begin_op] and [end_op]: [bl] are the blocks in the log, which
    are the dirty ones, and [U] the blocks whose buffers are in use. *)
Record txn (s : kstate) (U : gset Z) (bl : list Z) : Prop := {
  tx_cabs : cabs s (list_to_set bl) U;
  tx_log : lg_ok (k_log s) (lg_start (k_log s)) (lg_size (k_log s)) bl;
  tx_held : L_log ∉ k_held s;
  tx_range : forall b, b ∈ bl -> 0 <= b < 2 ^ 31;
  tx_open : 1 <= lg_outstanding (k_log s);
  tx_disk : dk_size (k_disk s) < 2 ^ 31
}.

(** The blocks the log has space for. *)
Definition log_room (s : kstate) : Z := Z.min LOGSIZE (lg_size (k_log s) - 1).

(** What a step of a transaction leaves alone. *)
Definition tframe (s s' : kstate) : Prop :=
  s' = set_k_bcache (k_bcache s') (set_k_log (k_log s') (set_k_ptable (k_ptable s') s)) /\
  lg_start (k_log s') = lg_start (k_log s) /\ lg_size (k_log s') = lg_size (k_log s) /\
  lg_outstanding (k_log s') = lg_outstanding (k_log s) /\
  lg_committing (k_log s') = lg_committing (k_log s) /\
  length (k_ptable s') = length (k_ptable s).

#[global] Instance tframe_refl : Reflexive tframe.
Proof. intros []. by repeat split. Qed.

#[global] Instance tframe_trans : Transitive tframe.
Proof.
  intros s1 s2 s3 (E1 & A1 & A2 & A3 & A4 & A5) (E2 & B1 & B2 & B3 & B4 & B5).
  split; [|repeat split; congruence]. rewrite E2, E1. by destruct s3.
Qed.

(** The fields a transaction keeps. *)
Lemma tframe_keeps {A} (f : kstate -> A) s s' :
  (forall s v, f (set_k_bcache v s) = f s) -> (forall s v, f (set_k_log v s) = f s) ->
  (forall s v, f (set_k_ptable v s) = f s) -> tframe s s' -> f s' = f s.
Proof. intros H1 H2 H3 (E & _). by rewrite E, H1, H2, H3. Qed.

Lemma tframe_room s s' : tframe s s' -> log_room s' = log_room s.
Proof. intros (_ & _ & E & _). unfold log_room. by rewrite E. Qed.

Lemma tframe_cframe s s' : cframe s s' -> k_disk s' = k_disk s -> tframe s s'.
Proof.
  intros (E & _ & Hp) Hd. assert (Hl : k_log s' = k_log s) by (by rewrite E).
  split; [|rewrite Hl; repeat split; congruence].
  rewrite E at 1. rewrite Hd, Hl. by destruct s.
Qed.

(** The caller holds buffer [i], for block [n] with contents [v], in a state
    in which it may be released. *)
Definition held (s : kstate) (i : nat) (n : Z) (v : list Z) : Prop :=
  exists dt, owns s i n v dt /\ (dt = false -> v = dread (k_disk s) n).

Lemma held_get s i n v : held s i n v -> exists b, get_buf i s = Ret b s /\ b_data b = v.
Proof. intros (dt & Ho & _). destruct (owns_get _ _ _ _ _ Ho) as (b & ? & ? & _). eauto. Qed.

Lemma txn_held_eq s U bl i n v : txn s U bl -> held s i n v -> view s n = v /\ n ∈ U /\ length v = BSIZE.
Proof.
  intros Ht (dt & Ho & _). pose proof (tx_cabs _ _ _ Ht).
  split; [by eapply owns_view|]. split; [by eapply owns_busy|by eapply owns_len].
Qed.

Lemma txn_cframe s s' U U' bl :
  txn s U bl -> tframe s s' -> k_log s' = k_log s -> cabs s' (list_to_set bl) U' -> txn s' U' bl.
Proof.
  intros [] HF Hl Hc. split; [done|by rewrite Hl| |done|by rewrite Hl|].
  - by rewrite (tframe_keeps k_held s s').
  - by rewrite (tframe_keeps k_disk s s').
Qed.

Lemma size_list_union (bl : list Z) (U : gset Z) :
  (size (list_to_set bl ∪ U : gset Z) <= length bl + size U)%nat.
Proof.
  rewrite size_union_alt. assert (size (list_to_set bl : gset Z) <= length bl)%nat.
  { induction bl as [|b bl IH]; [done|]. cbn. rewrite size_union_alt, size_singleton.
    pose proof (subseteq_size (list_to_set bl ∖ {[b]} : gset Z) (list_to_set bl) ltac:(set_solver)). lia. }
  pose proof (subseteq_size (U ∖ list_to_set bl) U ltac:(set_solver)). lia.
Qed.

(** [bread] in a transaction. *)
Lemma txn_bread s U bl n :
  txn s U bl -> n ∉ U -> n < dk_size (k_disk s) -> (length bl + size U < NBUF)%nat ->
  exists i s', bread 1 n s = Ret i s' /\ tframe s s' /\ txn s' ({[n]} ∪ U) bl /\ held s' i n (view s n) /\
    (forall m, view s' m = view s m) /\ (forall j m w, held s j m w -> j <> i /\ held s' j m w).
Proof.
  intros Ht HnU Hn Hroom. pose proof (tx_cabs _ _ _ Ht) as Hc. pose proof (size_list_union bl U) as Hsz.
  destruct (bread_cabs s _ U n Hc HnU Hn) as (i & s' & R & F & Hd & C & O & V & OO); [right; lia|].
  assert (HF : tframe s s') by (by apply tframe_cframe). exists i, s'. split; [done|]. split; [done|].
  split; [eapply txn_cframe; eauto using cframe_log|]. split.
  - exists (bool_decide (n ∈ (list_to_set bl : gset Z))). split; [done|]. intros E.
    apply bool_decide_eq_false in E. rewrite Hd. by eapply cabs_clean.
  - split; [done|]. intros j m w (dt & Ho & Hcl). split; [|exists dt; rewrite Hd; split; [by apply OO|done]].
    intros ->. apply HnU. pose proof (OO _ _ _ _ Ho) as Ho'. assert (m = n) as <-; [|by eapply owns_busy].
    destruct Ho' as (b1 & E1 & _ & [_ M1] & _), O as (b2 & E2 & _ & [_ M2] & _). congruence.
Qed.

Lemma txn_brelse s U bl i n v :
  txn s U bl -> held s i n v ->
  exists s', brelse i s = Ret tt s' /\ tframe s s' /\ txn s' (U ∖ {[n]}) bl /\
    (forall m, view s' m = view s m) /\ (forall j m w, j <> i -> held s j m w -> held s' j m w).
Proof.
  intros Ht (dt & Ho & Hcl). pose proof (tx_cabs _ _ _ Ht) as Hc.
  destruct (brelse_cabs s _ U i n v dt Hc Ho Hcl) as (s' & R & F & Hd & C & V & OO).
  assert (HF : tframe s s') by (by apply tframe_cframe). exists s'. split; [done|]. split; [done|].
  split; [eapply txn_cframe; eauto using cframe_log|]. split; [done|].
  intros j m w Hne (dt' & Ho' & Hcl'). exists dt'. rewrite Hd. split; [by apply OO|done].
Qed.

(** Changing and logging a buffer. *)
Lemma txn_put s U bl i n v v' f :
  txn s U bl -> held s i n v -> v' = f v -> length v' = BSIZE -> 0 <= n < 2 ^ 31 ->
  Z.of_nat (length bl) < log_room s ->
  exists s1 s', upd_buf i (fun b => set_b_data (f (b_data b)) b) s = Ret tt s1 /\
    log_write i s1 = Ret tt s' /\ tframe s s' /\ txn s' U (log_add n bl) /\ held s' i n v' /\
    (forall m, view s' m = if decide (m = n) then v' else view s m) /\
    (forall j m w, j <> i -> held s j m w -> held s' j m w).
Proof.
  intros Ht (dt & Ho & _) -> Hlen Hn Hroom. pose proof (tx_cabs _ _ _ Ht) as Hc. unfold log_room in Hroom.
  rewrite (owns_upd_data _ _ _ _ _ f Ho).
  destruct (setdata_cabs s _ U i n v (f v) dt Hc Ho Hlen) as (s1 & R1 & F1 & D1 & C1 & O1 & V1 & OO1).
  pose proof (tframe_cframe _ _ F1 D1) as T1. pose proof (cframe_log _ _ F1) as L1.
  destruct (log_write_cabs s1 _ U i n (f v) dt (lg_start (k_log s)) (lg_size (k_log s)) bl C1 O1)
    as (s2 & bc & l & R2 & E2 & L2 & Ho2 & Hc2 & C2 & O2 & V2 & OO2);
    rewrite ?L1, ?(cframe_held _ _ F1); try (by destruct Ht); try lia.
  assert (Hl2 : k_log s2 = l) by (by rewrite E2).
  assert (T2 : tframe s1 s2).
  { split; [rewrite E2; by destruct s1|]. rewrite Hl2, L1, (lo_start _ _ _ _ L2), (lo_size _ _ _ _ L2), Ho2, Hc2, L1.
    by rewrite E2. }
  assert (Hd2 : k_disk s2 = k_disk s) by (rewrite E2; exact D1).
  exists s1, s2. split; [done|]. split; [done|]. split; [by etrans|]. split.
  { split; rewrite ?Hl2, ?Hd2; try (by destruct Ht).
    - eapply cabs_sets; [exact C2| |done]. unfold log_add. case_decide; set_solver.
    - by rewrite (lo_start _ _ _ _ L2), (lo_size _ _ _ _ L2).
    - rewrite E2. ksimp. rewrite (cframe_held _ _ F1). by destruct Ht.
    - intros b. unfold log_add. case_decide; [apply (tx_range _ _ _ Ht)|].
      intros [Hb| ->%list_elem_of_singleton]%elem_of_app; [by apply (tx_range _ _ _ Ht)|done].
    - rewrite Ho2, L1. by destruct Ht. }
  split; [by exists true|]. split; [intros m; by rewrite V2, V1|].
  intros j m w Hne (dt' & Ho' & Hcl'). exists dt'. rewrite Hd2. split; [auto|done].
Qed.

Lemma txn_set s U U' bl : txn s U bl -> U = U' -> txn s U' bl.
Proof. by intros ? <-. Qed.

Lemma log_add_len n bl : (length bl <= length (log_add n bl) <= length bl + 1)%nat.
Proof. unfold log_add. case_decide; [lia|]. rewrite length_app. cbn. lia. Qed.

Lemma sub_add_singleton (n : Z) (U : gset Z) : n ∉ U -> ({[n]} ∪ U) ∖ {[n]} = U.
Proof. set_solver. Qed.

(** Reading a block and releasing it. *)
Lemma txn_bread_brelse {A} s U bl n (f : list Z -> K A) :
  txn s U bl -> n ∉ U -> n < dk_size (k_disk s) -> (length bl + size U < NBUF)%nat ->
  exists s', tframe s s' /\ txn s' U bl /\ (forall m, view s' m = view s m) /\
    (forall j m w, held s j m w -> held s' j m w) /\
    (i ← bread 1 n; b ← get_buf i; brelse i ;; f (b_data b)) s = f (view s n) s'.
Proof.
  intros Ht HnU Hn Hroom.
  destruct (txn_bread s U bl n Ht HnU Hn Hroom) as (i & s1 & R1 & F1 & T1 & H1 & V1 & O1).
  destruct (held_get _ _ _ _ H1) as (b & G1 & Hb).
  destruct (txn_brelse s1 _ bl i n _ T1 H1) as (s2 & R2 & F2 & T2 & V2 & O2).
  exists s2. split; [by etrans|]. split; [by eapply txn_set; [done|apply sub_add_singleton]|].
  split; [intros m; by rewrite V2, V1|]. split.
  - intros j m w [Hne Hj]%O1. auto.
  - kstep R1. kstep G1. kstep R2. by rewrite Hb.
Qed.

(** ** The bitmap *)

Definition used (s : kstate) (n : Z) : bool :=
  bit_used (view s (BBLOCK n (k_sb s))) (n mod BPB).

(** The bitmap covers the disk, no buffer of it is in use, and every block
    of it, and every block in use, is marked. *)
Record bitmap_ok (s : kstate) (U : gset Z) : Prop := {
  bm_start : 0 <= sb_bmapstart (k_sb s);
  bm_size : 0 <= sb_size (k_sb s) <= dk_size (k_disk s);
  bm_end : sb_bmapstart (k_sb s) + sb_size (k_sb s) / BPB < dk_size (k_disk s);
  bm_zero : used s 0 = true;
  bm_idle : forall n, 0 <= n < sb_size (k_sb s) -> BBLOCK n (k_sb s) ∉ U;
  bm_meta : forall n k, 0 <= n < sb_size (k_sb s) -> 0 <= k < sb_size (k_sb s) ->
    used s n = false -> (n ∉ U) /\ n <> BBLOCK k (k_sb s)
}.

(** Every block is marked. *)
Definition disk_full (s : kstate) : Prop := forall n, 0 <= n < sb_size (k_sb s) -> used s n = true.

Lemma bblock_eq s U n : dk_size (k_disk s) < 2 ^ 31 -> bitmap_ok s U -> 0 <= n < sb_size (k_sb s) ->
  BBLOCK n (k_sb s) = n / BPB + sb_bmapstart (k_sb s) /\ 0 <= BBLOCK n (k_sb s) < dk_size (k_disk s).
Proof.
  intros Hd [H1 H2 H3 _ _ _] Hn.
  assert (0 <= n / BPB <= sb_size (k_sb s) / BPB).
  { split; [apply Z.div_pos; unfold BPB, BSIZE; lia|]. apply Z.div_le_mono; unfold BPB, BSIZE; lia. }
  unfold BBLOCK. rewrite u32_small by lia. lia.
Qed.

Lemma bit_mask_pow bi : bit_mask bi = 2 ^ (bi mod 8).
Proof. unfold bit_mask. rewrite Z.shiftl_mul_pow2, Z.mul_1_l; [done|]. apply Z.mod_pos_bound. lia. Qed.

(** The bits of the byte that [set_bit] and [clear_bit] write. *)
Lemma bit_used_alter data bi bj g (b : bool) :
  0 <= bi < 8 * Z.of_nat (length data) -> 0 <= bj ->
  (forall x k, 0 <= k < 8 -> flag (u8 (g x)) (2 ^ k) = if decide (k = bi mod 8) then b else flag x (2 ^ k)) ->
  bit_used (alter (fun x => u8 (g x)) (Z.to_nat (bi / 8)) data) bj =
  if decide (bj = bi) then b else bit_used data bj.
Proof.
  intros Hi Hj Hg. unfold bit_used. rewrite bit_mask_pow, !nth_lookup.
  pose proof (Z.mod_pos_bound bj 8). pose proof (Z.div_mod bj 8). pose proof (Z.div_mod bi 8).
  pose proof (Z.mod_pos_bound bi 8). assert (0 <= bi / 8) by (apply Z.div_pos; lia). assert (0 <= bj / 8) by (apply Z.div_pos; lia).
  destruct (decide (Z.to_nat (bi / 8) = Z.to_nat (bj / 8))) as [E|E].
  - assert (Hq : bi / 8 = bj / 8) by lia. rewrite E, list_lookup_alter.
    destruct (lookup_lt_is_Some_2 data (Z.to_nat (bj / 8))) as [x Hx]; [lia|]. rewrite Hx. cbn. rewrite decide_True by done. cbn.
    rewrite Hg by lia. destruct (decide (bj = bi)) as [->|]; [by rewrite decide_True|].
    rewrite decide_False; [done|lia].
  - rewrite list_lookup_alter_ne by done. rewrite decide_False; [done|]. intros ->. done.
Qed.

Lemma bit_used_set data bi bj :
  0 <= bi < 8 * Z.of_nat (length data) -> 0 <= bj ->
  bit_used (set_bit data bi) bj = if decide (bj = bi) then true else bit_used data bj.
Proof.
  intros Hi Hj. apply bit_used_alter; [done..|]. intros x k Hk. pose proof (Z.mod_pos_bound bi 8).
  rewrite bit_mask_pow, !flag_bit by lia. unfold u8, fset. rewrite Z.mod_pow2_bits_low by lia.
  rewrite Z.lor_spec. case_decide as E; [subst k; rewrite Z.pow2_bits_true by lia; apply orb_true_r|].
  rewrite Z.pow2_bits_false by lia. apply orb_false_r.
Qed.

Lemma bit_used_clear data bi bj :
  0 <= bi < 8 * Z.of_nat (length data) -> 0 <= bj ->
  bit_used (clear_bit data bi) bj = if decide (bj = bi) then false else bit_used data bj.
Proof.
  intros Hi Hj. apply bit_used_alter; [done..|]. intros x k Hk. pose proof (Z.mod_pos_bound bi 8).
  rewrite bit_mask_pow, !flag_bit by lia. unfold u8, fclr. rewrite Z.mod_pow2_bits_low by lia.
  rewrite Z.land_spec, Z.lnot_spec by lia.
  case_decide as E; [subst k; rewrite Z.pow2_bits_true by lia; apply andb_false_r|].
  rewrite Z.pow2_bits_false by lia. apply andb_true_r.
Qed.

(** What the inner loop finds. *)
Lemma balloc_scan_spec data b size fuel : forall bi, 0 <= b + bi -> b + bi + Z.of_nat fuel < 2 ^ 32 ->
  match balloc_scan data b size fuel bi with
  | Some r => bi <= r < bi + Z.of_nat fuel /\ b + r < size /\ bit_used data r = false /\
              forall j, bi <= j < r -> bit_used data j = true
  | None => forall j, bi <= j < bi + Z.of_nat fuel -> b + j < size -> bit_used data j = true
  end.
Proof.
  induction fuel as [|fuel IH]; intros bi H0 Hb; cbn [balloc_scan]; [intros; lia|].
  rewrite u32_small by lia. destruct (Z.ltb_spec (b + bi) size); [|intros; lia].
  destruct (bit_used data bi) eqn:E; cbn [negb].
  - specialize (IH (bi + 1) ltac:(lia) ltac:(lia)). destruct (balloc_scan _ _ _ _ _) as [r|].
    + destruct IH as (? & ? & ? & IH). repeat split; [lia..|done|].
      intros j Hj. destruct (decide (j = bi)) as [->|]; [done|]. apply IH. lia.
    + intros j Hj Hs. destruct (decide (j = bi)) as [->|]; [done|]. apply IH; lia.
  - repeat split; [lia..|done|]. intros; lia.
Qed.

Lemma length_set_bit data bi : length (set_bit data bi) = length data.
Proof. apply length_alter. Qed.
Lemma length_clear_bit data bi : length (clear_bit data bi) = length data.
Proof. apply length_alter. Qed.

(** [bread], changing, logging and [brelse] in one step. *)
Lemma txn_modify {A} s U bl n f (k : K A) :
  txn s U bl -> n ∉ U -> 0 <= n < dk_size (k_disk s) -> length (f (view s n)) = BSIZE ->
  (length bl + size U < NBUF)%nat -> Z.of_nat (length bl) < log_room s ->
  exists s', tframe s s' /\ txn s' U (log_add n bl) /\
    (forall m, view s' m = if decide (m = n) then f (view s n) else view s m) /\
    (forall j m w, held s j m w -> held s' j m w) /\
    (i ← bread 1 n; upd_buf i (fun b => set_b_data (f (b_data b)) b) ;; log_write i ;; brelse i ;; k) s = k s'.
Proof.
  intros Ht HnU Hn Hf Hroom Hlog. pose proof (tx_disk _ _ _ Ht) as Hdk.
  destruct (txn_bread s U bl n Ht HnU ltac:(lia) Hroom) as (i & s1 & R1 & F1 & T1 & H1 & V1 & O1).
  destruct (txn_put s1 _ bl i n _ _ f T1 H1 eq_refl Hf ltac:(lia)) as (s2 & s3 & R2 & R3 & F3 & T3 & H3 & V3 & O3);
    [by rewrite (tframe_room _ _ F1)|].
  destruct (txn_brelse s3 _ _ i n _ T3 H3) as (s4 & R4 & F4 & T4 & V4 & O4).
  exists s4. split; [by do 2 (etrans; [done|])|]. split; [by eapply txn_set; [done|apply sub_add_singleton]|].
  split; [intros m; by rewrite V4, V3, V1|]. split.
  - intros j m w [Hne Hj]%O1. auto.
  - kstep R1. kstep R2. kstep R3. by kstep R4.
Qed.

Lemma bzero_txn {A} s U bl n (k : K A) :
  txn s U bl -> n ∉ U -> 0 <= n < dk_size (k_disk s) ->
  (length bl + size U < NBUF)%nat -> Z.of_nat (length bl) < log_room s ->
  exists s', tframe s s' /\ txn s' U (log_add n bl) /\
    (forall m, view s' m = if decide (m = n) then replicate BSIZE 0 else view s m) /\
    (forall j m w, held s j m w -> held s' j m w) /\
    (bzero 1 n ;; k) s = k s'.
Proof.
  intros Ht HnU Hn Hroom Hlog. pose proof (tx_disk _ _ _ Ht).
  destruct (txn_modify s U bl n (fun _ => replicate BSIZE 0) k Ht HnU Hn) as (s' & F & T & V & O & R);
    [apply length_replicate|done|done|].
  exists s'. split; [done|]. split; [done|]. split; [done|]. split; [done|].
  rewrite <- R. unfold bzero. change (u32 1) with 1. rewrite u32_small by lia.
  rewrite bind_assoc, !(bind_run (bread 1 n)). destruct (bread 1 n s) as [i s1|]; [|done]. cbv beta.
  rewrite bind_assoc, !(bind_run (upd_buf _ _)). destruct (upd_buf i _ s1) as [u s2|]; [|done]. cbv beta.
  by rewrite bind_assoc.
Qed.

Lemma tframe_sb s s' : tframe s s' -> k_sb s' = k_sb s.
Proof. by apply tframe_keeps. Qed.
Lemma tframe_disk s s' : tframe s s' -> k_disk s' = k_disk s.
Proof. by apply tframe_keeps. Qed.

Lemma used_view s s' n : k_sb s' = k_sb s -> (forall m, view s' m = view s m) -> used s' n = used s n.
Proof. intros E V. unfold used. by rewrite E, V. Qed.

Lemma bitmap_ok_view s s' U : bitmap_ok s U -> tframe s s' -> (forall m, view s' m = view s m) -> bitmap_ok s' U.
Proof.
  intros [] F V. pose proof (tframe_sb _ _ F) as E. pose proof (tframe_disk _ _ F) as Ed.
  split; rewrite ?E, ?Ed; try done; [by rewrite (used_view s s')|].
  intros n k Hn Hk. rewrite (used_view s s') by done. auto.
Qed.

(** Block [n] has been marked and filled with zeros. *)
Definition allocated (s s' : kstate) (U : gset Z) (bl : list Z) (n : Z) : Prop :=
  tframe s s' /\ txn s' U (log_add n (log_add (BBLOCK n (k_sb s)) bl)) /\
  (forall m, view s' m = if decide (m = n) then replicate BSIZE 0
                         else if decide (m = BBLOCK n (k_sb s)) then set_bit (view s m) (n mod BPB)
                         else view s m) /\
  (forall j m w, held s j m w -> held s' j m w).

Lemma allocated_view s0 s s' U bl n :
  tframe s0 s -> (forall m, view s m = view s0 m) -> (forall j m w, held s0 j m w -> held s j m w) ->
  allocated s s' U bl n -> allocated s0 s' U bl n.
Proof.
  intros F V O (F' & T & V' & O'). rewrite (tframe_sb _ _ F) in *. split; [by etrans|]. split; [done|].
  split; [intros m; by rewrite V', V|auto].
Qed.

(** One block of the bitmap, read into buffer [bp], has the free bit [bi]. *)
Lemma balloc_take s U bl b bi :
  txn s U bl -> bitmap_ok s U -> 0 <= b -> b mod BPB = 0 -> 0 <= bi < BPB -> b + bi < sb_size (k_sb s) ->
  used s (b + bi) = false -> (length bl + size U + 1 < NBUF)%nat -> Z.of_nat (length bl) + 1 < log_room s ->
  forall bp s1, bread 1 (BBLOCK b (k_sb s)) s = Ret bp s1 -> tframe s s1 ->
  txn s1 ({[BBLOCK b (k_sb s)]} ∪ U) bl -> held s1 bp (BBLOCK b (k_sb s)) (view s (BBLOCK b (k_sb s))) ->
  (forall m, view s1 m = view s m) -> (forall j m w, held s j m w -> j <> bp /\ held s1 j m w) ->
  exists s', allocated s s' U bl (b + bi) /\
    (upd_buf bp (fun v => set_b_data (set_bit (b_data v) bi) v) ;; log_write bp ;; brelse bp ;;
     bzero 1 (b + bi) ;; mret (b + bi)) s1 = Ret (b + bi) s'.
Proof.
  intros Ht Hbm Hb0 Hb Hbi Hlt Hfree Hroom Hlog bp s1 R1 F1 T1 H1 V1 O1.
  pose proof (tx_disk _ _ _ Ht) as Hdk. pose proof (bm_size _ _ Hbm).
  assert (Hmod : (b + bi) mod BPB = bi).
  { rewrite Z.add_mod, Hb, Z.add_0_l, Z.mod_mod, Z.mod_small by (unfold BPB, BSIZE in *; lia). done. }
  assert (EB : BBLOCK (b + bi) (k_sb s) = BBLOCK b (k_sb s)).
  { unfold BBLOCK. do 2 f_equal. apply Z.div_exact in Hb; [|unfold BPB, BSIZE; lia].
    symmetry. apply (Z.div_unique _ _ _ bi); unfold BPB, BSIZE in *; lia. }
  destruct (bblock_eq s U b Hdk Hbm ltac:(lia)) as [_ HB].
  destruct (bm_meta _ _ Hbm (b + bi) b ltac:(lia) ltac:(lia) Hfree) as [HnU HnB].
  pose proof (bm_idle _ _ Hbm b ltac:(lia)) as HBU. set (B := BBLOCK b (k_sb s)) in *.
  destruct (txn_put s1 _ bl bp B _ _ (fun d => set_bit d bi) T1 H1 eq_refl) as (s2 & s3 & R2 & R3 & F3 & T3 & H3 & V3 & O3);
    [rewrite length_set_bit; by eapply view_len, tx_cabs|lia|rewrite (tframe_room _ _ F1); lia|].
  destruct (txn_brelse s3 _ _ bp B _ T3 H3) as (s4 & R4 & F4 & T4 & V4 & O4).
  rewrite sub_add_singleton in T4 by done.
  assert (F14 : tframe s s4) by (do 2 (etrans; [done|]); done).
  pose proof (log_add_len B bl).
  destruct (bzero_txn s4 U _ (b + bi) (mret (b + bi)) T4 HnU) as (s5 & F5 & T5 & V5 & O5 & R5);
    [rewrite (tframe_disk _ _ F14); lia|lia|rewrite (tframe_room _ _ F14); lia|].
  exists s5. split.
  - unfold allocated. rewrite EB, Hmod. split; [by etrans|]. split; [done|]. split.
    + intros m. rewrite V5, V4, V3, V1. repeat case_decide; try done. by subst.
    + intros j m w [Hne Hj]%O1. auto.
  - kstep R2. kstep R3. kstep R4. exact R5.
Qed.

Lemma used_block s b j : 0 <= b -> b mod BPB = 0 -> 0 <= j < BPB ->
  used s (b + j) = bit_used (view s (BBLOCK b (k_sb s))) j.
Proof.
  intros Hb0 Hb Hj. unfold used, BBLOCK. apply Z.div_exact in Hb; [|unfold BPB, BSIZE; lia].
  rewrite <- (Z.mod_unique_pos (b + j) BPB (b / BPB) j), <- (Z.div_unique_pos (b + j) BPB (b / BPB) j) by lia. done.
Qed.

Lemma balloc_loop_spec U bl fuel : forall s b,
  txn s U bl -> bitmap_ok s U -> 0 <= b -> b mod BPB = 0 -> b < sb_size (k_sb s) + BPB ->
  sb_size (k_sb s) <= b + (Z.of_nat fuel - 1) * BPB ->
  (forall n, 0 <= n < b -> n < sb_size (k_sb s) -> used s n = true) ->
  (length bl + size U + 1 < NBUF)%nat -> Z.of_nat (length bl) + 1 < log_room s ->
  (exists n s', balloc_loop 1 fuel b s = Ret n s' /\ 0 <= n < sb_size (k_sb s) /\ used s n = false /\
     (forall m, 0 <= m < n -> used s m = true) /\ allocated s s' U bl n) \/
  (disk_full s /\ exists s', balloc_loop 1 fuel b s = Stop (Panic "balloc: out of blocks") s' /\ disk_full s').
Proof.
  induction fuel as [|fuel IH]; intros s b Ht Hbm Hb0 Hb Hbd Hfuel Hfull Hroom Hlog; pose proof (tx_disk _ _ _ Ht) as Hdk;
    cbn [balloc_loop]; [lia|]. pose proof (bm_size _ _ Hbm).
  kgets. rewrite u32_small by (unfold BPB, BSIZE in *; lia). destruct (Z.ltb_spec b (sb_size (k_sb s))) as [Hlt|Hge].
  2:{ right. assert (disk_full s) by (intros n Hn; apply Hfull; lia). eauto. }
  destruct (bblock_eq s U b Hdk Hbm ltac:(lia)) as [_ HB].
  destruct (txn_bread s U bl (BBLOCK b (k_sb s)) Ht) as (bp & s1 & R1 & F1 & T1 & H1 & V1 & O1);
    [by apply (bm_idle _ _ Hbm)|lia|lia|].
  destruct (held_get _ _ _ _ H1) as (v & G1 & Hv). kstep R1. kstep G1. rewrite Hv.
  pose proof (balloc_scan_spec (view s (BBLOCK b (k_sb s))) b (sb_size (k_sb s)) (Z.to_nat BPB) 0) as Hs.
  rewrite Z2Nat.id, Z.add_0_r in Hs by (unfold BPB, BSIZE; lia). specialize (Hs Hb0 ltac:(unfold BPB, BSIZE; lia)).
  destruct (balloc_scan _ _ _ _ _) as [bi|].
  - left. destruct Hs as (Hbi & Hbs & Hfree & Hbefore). rewrite <- used_block in Hfree by (done || lia).
    destruct (balloc_take s U bl b bi Ht Hbm Hb0 Hb ltac:(lia) Hbs Hfree Hroom Hlog bp s1 R1 F1 T1 H1 V1 O1) as (s' & HA & R).
    exists (b + bi), s'. split; [done|]. split; [lia|]. split; [done|]. split; [|done].
    intros m Hm. destruct (decide (m < b)); [apply Hfull; lia|]. replace m with (b + (m - b)) by lia.
    rewrite used_block by (done || lia). apply Hbefore. lia.
  - destruct (txn_brelse s1 _ bl bp _ _ T1 H1) as (s2 & R2 & F2 & T2 & V2 & O2). kstep R2.
    rewrite sub_add_singleton in T2 by (by apply (bm_idle _ _ Hbm)).
    assert (F12 : tframe s s2) by (by etrans). assert (V12 : forall m, view s2 m = view s m) by (intros; by rewrite V2, V1).
    pose proof (tframe_sb _ _ F12) as Esb. pose proof (tframe_disk _ _ F12) as Edk. pose proof (tframe_room _ _ F12) as Erm.
    destruct (IH s2 (b + BPB) T2) as [(n & s' & R & Hn & Hu & Hall & HA)|(Hall & s' & R & Hf)];
      rewrite ?Esb, ?Edk, ?Erm; try done; try lia.
    + by eapply bitmap_ok_view.
    + unfold BPB, BSIZE; lia.
    + rewrite Z.add_mod, Hb, Z.mod_same by (unfold BPB, BSIZE; lia). done.
    + intros n Hn Hns. rewrite (used_view s s2) by done. destruct (decide (n < b)); [apply Hfull; lia|].
      replace n with (b + (n - b)) by lia. rewrite used_block by (done || lia). apply Hs; lia.
    + left. exists n, s'. rewrite Esb in Hn. rewrite (used_view s s2) in Hu by done. split; [done|]. split; [done|].
      split; [done|]. split; [intros m Hm; rewrite <- (used_view s s2) by done; auto|].
      eapply allocated_view; [exact F12|exact V12| |done]. intros j m w [Hne Hj]%O1. auto.
    + right. split; [|eauto]. intros n Hn. rewrite <- (used_view s s2) by done. apply Hall. by rewrite Esb.
Qed.

(** Marks of other blocks survive a change of one bit. *)
Lemma used_change s s' U n d (f : list Z -> list Z) :
  bitmap_ok s U -> dk_size (k_disk s) < 2 ^ 31 -> 0 <= n < sb_size (k_sb s) -> k_sb s' = k_sb s ->
  (forall k, 0 <= k < sb_size (k_sb s) -> view s' (BBLOCK k (k_sb s)) =
     if decide (BBLOCK k (k_sb s) = BBLOCK n (k_sb s)) then f (view s (BBLOCK n (k_sb s))) else view s (BBLOCK k (k_sb s))) ->
  (forall bj, 0 <= bj -> bit_used (f (view s (BBLOCK n (k_sb s)))) bj =
     if decide (bj = n mod BPB) then d else bit_used (view s (BBLOCK n (k_sb s))) bj) ->
  forall m, 0 <= m < sb_size (k_sb s) -> used s' m = if decide (m = n) then d else used s m.
Proof.
  intros Hbm Hdk Hn Esb HV Hbit m Hm. unfold used. rewrite Esb, HV by done.
  destruct (bblock_eq s U n Hdk Hbm Hn) as [En _]. destruct (bblock_eq s U m Hdk Hbm Hm) as [Em _].
  pose proof (Z.mod_pos_bound m BPB ltac:(unfold BPB, BSIZE; lia)).
  pose proof (Z.div_mod m BPB ltac:(unfold BPB, BSIZE; lia)). pose proof (Z.div_mod n BPB ltac:(unfold BPB, BSIZE; lia)).
  destruct (decide (BBLOCK m (k_sb s) = BBLOCK n (k_sb s))) as [E|E].
  - rewrite Hbit by lia. rewrite E. destruct (decide (m mod BPB = n mod BPB)) as [E'|E'].
    + rewrite decide_True; [done|]. rewrite Em, En in E. assert (m / BPB = n / BPB) by lia. congruence.
    + rewrite decide_False; [done|]. by intros ->.
  - rewrite decide_False; [done|]. by intros ->.
Qed.

Lemma bit_index_ok s U bl n : txn s U bl ->
  0 <= n mod BPB < 8 * Z.of_nat (length (view s (BBLOCK n (k_sb s)))).
Proof.
  intros Ht. rewrite (view_len _ _ _ _ (tx_cabs _ _ _ Ht)). apply Z.mod_pos_bound. unfold BPB, BSIZE. lia.
Qed.

Lemma used_allocated s s' U bl n :
  txn s U bl -> bitmap_ok s U -> 0 <= n < sb_size (k_sb s) -> used s n = false -> allocated s s' U bl n ->
  forall m, 0 <= m < sb_size (k_sb s) -> used s' m = if decide (m = n) then true else used s m.
Proof.
  intros Ht Hbm Hn Hu (F & T & V & _). pose proof (bit_index_ok s U bl n Ht).
  apply (used_change s s' U n true (fun d => set_bit d (n mod BPB))); try done; [by destruct Ht|by apply tframe_sb| |].
  - intros k Hk. rewrite V, decide_False; [case_decide as E; [by rewrite E|done]|].
    destruct (bm_meta _ _ Hbm n k Hn Hk Hu). congruence.
  - intros bj Hj. by rewrite bit_used_set.
Qed.

Lemma allocated_bitmap_ok s s' U bl n :
  txn s U bl -> bitmap_ok s U -> 0 <= n < sb_size (k_sb s) -> used s n = false -> allocated s s' U bl n ->
  bitmap_ok s' U.
Proof.
  intros Ht Hbm Hn Hu HA. pose proof (used_allocated s s' U bl n Ht Hbm Hn Hu HA) as HU.
  destruct HA as (F & _). destruct Hbm. pose proof (tframe_sb _ _ F) as E. pose proof (tframe_disk _ _ F) as Ed.
  split; rewrite ?E, ?Ed; try done; [rewrite HU by lia; by case_decide|].
  intros m k Hm Hk. rewrite HU by done. case_decide; [done|]. auto.
Qed.

Lemma balloc_txn s U bl :
  txn s U bl -> bitmap_ok s U -> (length bl + size U + 1 < NBUF)%nat -> Z.of_nat (length bl) + 1 < log_room s ->
  (exists n s', balloc 1 s = Ret n s' /\ 0 <= n < sb_size (k_sb s) /\ used s n = false /\
     (forall m, 0 <= m < n -> used s m = true) /\ allocated s s' U bl n) \/
  (disk_full s /\ exists s', balloc 1 s = Stop (Panic "balloc: out of blocks") s' /\ disk_full s').
Proof.
  intros Ht Hbm Hroom Hlog. unfold balloc. kgets. pose proof (bm_size _ _ Hbm).
  assert (0 <= sb_size (k_sb s) / BPB) by (apply Z.div_pos; unfold BPB, BSIZE; lia).
  pose proof (Z.div_mod (sb_size (k_sb s)) BPB ltac:(unfold BPB, BSIZE; lia)).
  pose proof (Z.mod_pos_bound (sb_size (k_sb s)) BPB ltac:(unfold BPB, BSIZE; lia)).
  apply balloc_loop_spec; try done; [unfold BPB, BSIZE; lia| |intros; lia]. rewrite Z2Nat.id by lia. lia.
Qed.

(** ** The theorems *)

(** [balloc] in a transaction with space for two more blocks returns the
    lowest block that is not marked, marks it, fills it with zeros and changes
    no other block; it panics exactly when every block is marked. *)
Theorem balloc_allocates s U bl :
  txn s U bl -> bitmap_ok s U -> (length bl + size U + 1 < NBUF)%nat -> Z.of_nat (length bl) + 1 < log_room s ->
  (exists n s', balloc 1 s = Ret n s' /\ 0 <= n < sb_size (k_sb s) /\
     used s n = false /\ (forall m, 0 <= m < n -> used s m = true) /\
     view s' n = replicate BSIZE 0 /\
     (forall m, 0 <= m < sb_size (k_sb s) -> used s' m = if decide (m = n) then true else used s m) /\
     (forall m, m <> n -> m <> BBLOCK n (k_sb s) -> view s' m = view s m) /\
     txn s' U (log_add n (log_add (BBLOCK n (k_sb s)) bl)) /\ bitmap_ok s' U) \/
  (disk_full s /\ exists s', balloc 1 s = Stop (Panic "balloc: out of blocks") s' /\ disk_full s').
Proof.
  intros Ht Hbm Hroom Hlog. destruct (balloc_txn s U bl Ht Hbm Hroom Hlog) as [(n & s' & R & Hn & Hu & Hlow & HA)|?];
    [left|by right].
  exists n, s'. split; [done|]. split; [done|]. split; [done|]. split; [done|].
  split; [destruct HA as (_ & _ & V & _); by rewrite V, decide_True|].
  split; [by eapply used_allocated|]. split; [|split; [apply HA|by eapply allocated_bitmap_ok]].
  intros m H1 H2. destruct HA as (_ & _ & V & _). by rewrite V, !decide_False.
Qed.

(** [readsb] in a transaction. *)
Lemma readsb_txn {A} s U bl (k : superblock -> K A) :
  txn s U bl -> 1 ∉ U -> 1 < dk_size (k_disk s) -> (length bl + size U < NBUF)%nat ->
  exists s', tframe s s' /\ txn s' U bl /\ (forall m, view s' m = view s m) /\
    (forall j m w, held s j m w -> held s' j m w) /\ (readsb 1 ≫= k) s = k (sb_of (view s 1)) s'.
Proof.
  intros Ht HU Hd Hroom.
  destruct (txn_bread_brelse s U bl 1 (fun d => k (sb_of d)) Ht HU Hd Hroom) as (s' & F & T & V & O & R).
  exists s'. split; [done|]. split; [done|]. split; [done|]. split; [done|]. rewrite <- R. unfold readsb.
  change (u32 1) with 1. rewrite bind_assoc, !(bind_run (bread 1 1)). destruct (bread 1 1 s) as [i s1|]; [|done]. cbv beta.
  rewrite bind_assoc, !(bind_run (get_buf i)). destruct (get_buf i s1) as [b s2|]; [|done]. cbv beta zeta.
  by rewrite bind_assoc.
Qed.

(** Block [n] has been unmarked. *)
Definition freed (s s' : kstate) (U : gset Z) (bl : list Z) (n : Z) : Prop :=
  tframe s s' /\ txn s' U (log_add (BBLOCK n (k_sb s)) bl) /\
  (forall m, view s' m = if decide (m = BBLOCK n (k_sb s)) then clear_bit (view s m) (n mod BPB) else view s m) /\
  (forall j m w, held s j m w -> held s' j m w).

Lemma bfree_txn s U bl n :
  txn s U bl -> bitmap_ok s U -> sb_of (view s 1) = k_sb s -> (1 ∉ U) -> 1 < dk_size (k_disk s) ->
  0 <= n < sb_size (k_sb s) -> (length bl + size U < NBUF)%nat -> Z.of_nat (length bl) < log_room s ->
  if used s n then exists s', bfree 1 n s = Ret tt s' /\ freed s s' U bl n
  else exists s', bfree 1 n s = Stop (Panic "freeing free block") s'.
Proof.
  intros Ht Hbm Hsb H1U H1 Hn Hroom Hlog. unfold bfree.
  match goal with |- context [readsb 1 ≫= ?k] =>
    destruct (readsb_txn s U bl k Ht H1U H1 Hroom) as (s0 & F0 & T0 & V0 & O0 & R0) end.
  rewrite R0, Hsb. clear R0. pose proof (tframe_sb _ _ F0) as E0. pose proof (tframe_disk _ _ F0) as D0.
  rewrite bind_run. change (modify (set_k_sb (k_sb s)) s0) with (Ret tt (set_k_sb (k_sb s) s0) : out kstop kstate unit).
  cbv iota beta. replace (set_k_sb (k_sb s) s0) with s0 by (rewrite <- E0; by destruct s0).
  destruct (bblock_eq s U n ltac:(by destruct Ht) Hbm Hn) as [_ HB]. pose proof (bm_idle _ _ Hbm n Hn) as HBU.
  change (u32 1) with 1. set (B := BBLOCK n (k_sb s)) in *. pose proof (tx_disk _ _ _ Ht).
  destruct (txn_bread s0 U bl B T0 HBU) as (bp & s1 & R1 & F1 & T1 & H1' & V1 & O1); [rewrite D0; lia|done|].
  destruct (held_get _ _ _ _ H1') as (v & G1 & Hv). kstep R1. kstep G1. rewrite Hv, V0. cbn zeta.
  change (bit_used (view s B) (n mod BPB)) with (used s n). destruct (used s n); cbn [negb]; [|by eexists].
  assert (F01 : tframe s s1) by (by etrans).
  destruct (txn_put s1 _ bl bp B _ _ (fun d => clear_bit d (n mod BPB)) T1 H1' eq_refl)
    as (s2 & s3 & R2 & R3 & F3 & T3 & H3 & V3 & O3);
    [rewrite length_clear_bit; by eapply view_len, tx_cabs|lia|by rewrite (tframe_room _ _ F01)|].
  destruct (txn_brelse s3 _ _ bp B _ T3 H3) as (s4 & R4 & F4 & T4 & V4 & O4).
  rewrite sub_add_singleton in T4 by done. exists s4. split; [kstep R2; kstep R3; exact R4|].
  split; [transitivity s1; [done|]; by transitivity s3|]. split; [done|]. split.
  - intros m. fold B. rewrite V4, V3, !V1, !V0. case_decide as E; [by rewrite E|done].
  - intros j m w [Hne Hj]%O0%O1. auto.
Qed.

Lemma used_freed s s' U bl n :
  txn s U bl -> bitmap_ok s U -> 0 <= n < sb_size (k_sb s) -> freed s s' U bl n ->
  forall m, 0 <= m < sb_size (k_sb s) -> used s' m = if decide (m = n) then false else used s m.
Proof.
  intros Ht Hbm Hn (F & T & V & _). pose proof (bit_index_ok s U bl n Ht).
  apply (used_change s s' U n false (fun d => clear_bit d (n mod BPB))); try done; [by destruct Ht|by apply tframe_sb| |].
  - intros k Hk. rewrite V. case_decide as E; [by rewrite E|done].
  - intros bj Hj. by rewrite bit_used_clear.
Qed.

(** [bfree] of a marked block clears its mark and changes no other mark
    and no block outside the bitmap; of a block that is not marked it panics. *)
Theorem bfree_frees s U bl n :
  txn s U bl -> bitmap_ok s U -> sb_of (view s 1) = k_sb s -> (1 ∉ U) -> 1 < dk_size (k_disk s) ->
  0 <= n < sb_size (k_sb s) -> (length bl + size U < NBUF)%nat -> Z.of_nat (length bl) < log_room s ->
  if used s n then
    exists s', bfree 1 n s = Ret tt s' /\
      (forall m, 0 <= m < sb_size (k_sb s) -> used s' m = if decide (m = n) then false else used s m) /\
      (forall m, m <> BBLOCK n (k_sb s) -> view s' m = view s m) /\
      txn s' U (log_add (BBLOCK n (k_sb s)) bl)
  else exists s', bfree 1 n s = Stop (Panic "freeing free block") s'.
Proof.
  intros Ht Hbm Hsb H1U H1 Hn Hroom Hlog. pose proof (bfree_txn s U bl n Ht Hbm Hsb H1U H1 Hn Hroom Hlog) as Hx.
  destruct (used s n); [|done]. destruct Hx as (s' & R & HF). exists s'. split; [done|].
  split; [by eapply used_freed|]. destruct HF as (_ & T & V & _). split; [|done].
  intros m Hm. by rewrite V, decide_False.
Qed.

(** ** A small file system, for the witnesses

    1000 blocks, of which the first 59 hold the boot block, the super block,
    the log, the inodes and the bitmap and are marked. *)

Definition bitmap59 : list Z := replicate 7 255 ++ [7] ++ replicate (BSIZE - 8) 0.
Definition bdisk : disk := mkDisk 1000 (<[1 := sbdata]> {[58 := bitmap59]}) [].
Definition bsb : superblock := mkSb 1000 941 200 30 2 32 58.

Lemma bdisk_read n :
  dread bdisk n = if decide (n = 1) then sbdata else if decide (n = 58) then bitmap59 else zblock.
Proof.
  unfold dread, bdisk. cbn [dk_blocks]. case_decide as E; [subst; by rewrite lookup_insert_eq|].
  rewrite lookup_insert_ne by done. case_decide as E'; [subst; by rewrite lookup_singleton_eq|].
  by rewrite lookup_singleton_ne.
Qed.

Lemma bdisk_len n : length (dread bdisk n) = BSIZE.
Proof. rewrite bdisk_read. by repeat case_decide. Qed.

Lemma fs_state : exists s, txn s ∅ [] /\ k_sb s = bsb /\ k_disk s = bdisk /\ k_log s = fslog /\
  (forall n, view s n = dread bdisk n) /\ k_icache s = replicate NINODE inode0 /\ k_held s = [].
Proof.
  destruct (boots_up bdisk bdisk_len) as [s Hb].
  pose proof (booted_cabs _ _ Hb) as Hc. pose proof (bo_disk _ _ Hb) as Hd. pose proof (bo_held _ _ Hb) as Hh.
  pose proof (bo_view _ _ Hb) as Hv.
  exists (set_k_icache (replicate NINODE inode0) (set_k_sb bsb (set_k_log fslog s))). clear Hb.
  split; [|split; [done|]; split; [done|]; split; [done|]; split; [exact Hv|]; split; done]. split; ksimp; rewrite ?Hd, ?Hh; try done.
  - by destruct Hc.
  - apply not_elem_of_nil.
  - intros b Hb%elem_of_nil. done.
Qed.

Lemma bitmap_state s : (forall n, view s n = dread bdisk n) -> k_sb s = bsb -> k_disk s = bdisk ->
  bitmap_ok s ∅.
Proof.
  intros V Esb Ed. assert (EB : forall n, 0 <= n < 1000 -> BBLOCK n (k_sb s) = 58).
  { intros n Hn. rewrite Esb. unfold BBLOCK. rewrite Z.div_small by (unfold BPB, BSIZE; lia). done. }
  split; [rewrite Esb|rewrite Esb, Ed|rewrite Esb, Ed|unfold used; rewrite EB, V, bdisk_read by lia| |];
    [by vm_compute..|intros; apply not_elem_of_empty|].
  intros n k Hn Hk Hu. rewrite Esb in Hn, Hk. cbn [sb_size bsb] in Hn, Hk. rewrite EB by done. split; [apply not_elem_of_empty|].
  intros ->. unfold used in Hu. rewrite EB, V, bdisk_read in Hu by lia. by vm_compute in Hu.
Qed.

Lemma balloc_allocates_witness : exists s n s', balloc 1 s = Ret n s' /\ n = 59 /\ view s' 59 = replicate BSIZE 0.
Proof.
  destruct fs_state as (s & Ht & Esb & Ed & El & V & _ & _). exists s.
  assert (EU : forall n, 0 <= n < 1000 -> used s n = bit_used bitmap59 n).
  { intros n Hn. unfold used, BBLOCK. rewrite Esb, V, bdisk_read, Z.mod_small, Z.div_small by (unfold BPB, BSIZE; lia). done. }
  destruct (balloc_allocates s ∅ [] Ht (bitmap_state s V Esb Ed)) as [(n & s' & R & Hn & Hu & Hlow & Hz & _)|(Hall & _)].
  - vm_compute. lia.
  - unfold log_room. rewrite El. by vm_compute.
  - assert (n = 59) as ->; [|by eauto]. rewrite Esb in Hn. cbn in Hn. destruct (Z.lt_trichotomy n 59) as [Hlt|[->|Hgt]]; [|done|].
    + exfalso. rewrite EU in Hu by lia.
      assert (Hx : forallb (fun k => bit_used bitmap59 (Z.of_nat k)) (seq 0 59) = true) by (by vm_compute).
      rewrite forallb_forall in Hx. specialize (Hx (Z.to_nat n)). rewrite Z2Nat.id in Hx by lia.
      rewrite Hx in Hu; [done|]. apply in_seq. lia.
    + specialize (Hlow 59 ltac:(lia)). rewrite EU in Hlow by lia. by vm_compute in Hlow.
  - specialize (Hall 59). rewrite EU, Esb in Hall by lia. specialize (Hall ltac:(done)). by vm_compute in Hall.
Defined.

Lemma bfree_frees_witness : exists s s', used s 58 = true /\ bfree 1 58 s = Ret tt s' /\ used s' 58 = false.
Proof.
  destruct fs_state as (s & Ht & Esb & Ed & El & V & _ & _). exists s.
  assert (Hu : used s 58 = true) by (unfold used; rewrite Esb, V, bdisk_read; by vm_compute).
  pose proof (bfree_frees s ∅ [] 58 Ht (bitmap_state s V Esb Ed)) as Hf. rewrite Hu in Hf.
  destruct Hf as (s' & R & HU & _); rewrite ?Esb, ?Ed; try done.
  - rewrite V, bdisk_read. by vm_compute.
  - vm_compute. lia.
  - unfold log_room. rewrite El. by vm_compute.
  - exists s'. split; [done|]. split; [done|]. rewrite HU by (rewrite Esb; done). done.
Defined.
