(* ===== verification/Inode.v ===== *)
(** * Inodes: src/xv6/fs.c from iinit to itrunc

    The in-memory inodes are the table [k_icache]; a pointer to one is its
    index.  An inode on disk is 64 bytes of a block, decoded by
    [load_dinode] and encoded by [store_dinode].  [ilock_loop] is the part of
    [ilock] a process waiting for a busy inode resumes.

    The theorems say that encoding and decoding are inverse, that [iget]
    keeps one entry per inode and counts its references, that [ilock] loads
    the inode on disk, and what [iupdate] and [bmap] change. *)

From stdpp Require Import base list list_numbers numbers gmap strings fin_sets.
From Stdlib Require Import ZArith Lia.
From S2P Require Import Prelude Mem KState Sched Bio Cache Log Printf Block.

(** ** fs.h *)

Definition NDIRECT : nat := 12.
Definition NINDIRECT : nat := BSIZE / 4.
Definition MAXFILE : nat := NDIRECT + NINDIRECT.
Definition sizeof_dinode : nat := 64.
Definition IPB : Z := Z.of_nat (BSIZE / sizeof_dinode).
Definition IBLOCK (i : Z) (sb : superblock) : Z := u32 (i / IPB + sb_inodestart sb).
Definition T_DIR : Z := 1.
Definition T_FILE : Z := 2.
Definition T_DEV : Z := 3.

(** The bytes of inode [inum] in its block: [bp->data + inum%IPB]. *)
Definition di_off (inum : Z) : nat := sizeof_dinode * Z.to_nat (inum mod IPB).

(** Element [i] of the array of [uint]s in a block. *)
Definition get_uint (data : list Z) (i : nat) : Z := le_dec (slice data (4 * i) 4).
Definition set_uint (data : list Z) (i : nat) (x : Z) : list Z := splice data (4 * i) (le_enc 4 x).

(** [struct dinode]: reading all its fields into an in-memory inode, and back. *)
Definition load_dinode (dip : list Z) (ip : inode) : inode :=
  mkInode (i_dev ip) (i_inum ip) (i_ref ip) (i_flags ip)
    (s16 (le_dec (slice dip 0 2))) (s16 (le_dec (slice dip 2 2)))
    (s16 (le_dec (slice dip 4 2))) (s16 (le_dec (slice dip 6 2)))
    (le_dec (slice dip 8 4))
    (map (fun i => get_uint (drop 12 dip) i) (seq 0 (NDIRECT + 1))).
Definition store_dinode (ip : inode) : list Z :=
  le_enc 2 (u16 (i_type ip)) ++ le_enc 2 (u16 (i_major ip)) ++ le_enc 2 (u16 (i_minor ip)) ++
  le_enc 2 (u16 (i_nlink ip)) ++ le_enc 4 (u32 (i_size ip)) ++ mjoin (map (le_enc 4) (i_addrs ip)).

(** ** fs.c *)

(** console.c: cprintf, with cons.locking set. *)
Definition cprintf_ (fmt : list Z) (argp : list arg) : K unit :=
  acquire L_cons ;;
  modify (fun s => set_k_out (k_out s ++ cprintf fmt argp) s) ;;
  release L_cons.

Definition iinit (dev : Z) : K unit :=
  sb ← readsb dev;
  modify (set_k_sb sb) ;;
  cprintf_ (chars "sb: size %d nblocks %d ninodes %d nlog %d logstart %d inodestart %d bmap start %d" ++ [10])
    (map AInt [sb_size sb; sb_nblocks sb; sb_ninodes sb; sb_nlog sb; sb_logstart sb; sb_inodestart sb;
               sb_bmapstart sb]).

(** The loop of [iget]: the entry of the inode, or the first empty entry. *)
Fixpoint iget_scan (l : list inode) (i : nat) (dev inum : Z) (empty : option nat) : option nat * option nat :=
  match l with
  | [] => (None, empty)
  | ip :: l' =>
      if ((0 <? i_ref ip) && (i_dev ip =? dev) && (i_inum ip =? inum))%bool then (Some i, empty)
      else
        let empty' := match empty with
                      | None => if i_ref ip =? 0 then Some i else None
                      | Some _ => empty
                      end in
        iget_scan l' (S i) dev inum empty'
  end.

Definition iget (dev inum : Z) : K nat :=
  acquire L_icache ;;
  tbl ← gets k_icache;
  match iget_scan tbl 0 dev inum None with
  | (Some ip, _) =>
      upd_inode ip (fun v => set_i_ref (s32 (i_ref v + 1)) v) ;;
      release L_icache ;;
      mret ip
  | (None, None) => panic "iget: no inodes"
  | (None, Some ip) =>
      upd_inode ip (fun v => set_i_flags 0 (set_i_ref 1 (set_i_inum inum (set_i_dev dev v)))) ;;
      release L_icache ;;
      mret ip
  end.

(** The loop of [ialloc]. *)
Fixpoint ialloc_loop (dev type : Z) (fuel : nat) (inum : Z) : K nat :=
  match fuel with
  | O => stop NoFuel
  | S fuel' =>
      sb ← gets k_sb;
      if u32 inum <? sb_ninodes sb then
        bp ← bread dev (IBLOCK inum sb);
        v ← get_buf bp;
        let dip := slice (b_data v) (di_off inum) sizeof_dinode in
        if s16 (le_dec (slice dip 0 2)) =? 0 then
          upd_buf bp (fun v => set_b_data (splice (b_data v) (di_off inum)
            (le_enc 2 (u16 type) ++ replicate (sizeof_dinode - 2) 0)) v) ;;
          log_write bp ;;
          brelse bp ;;
          iget dev inum
        else
          brelse bp ;;
          ialloc_loop dev type fuel' (inum + 1)
      else panic "ialloc: no inodes"
  end.

Definition ialloc (dev type : Z) : K nat :=
  sb ← gets k_sb;
  ialloc_loop dev type (S (Z.to_nat (sb_ninodes sb))) 1.

Definition iupdate (ip : nat) : K unit :=
  v ← get_inode ip;
  sb ← gets k_sb;
  bp ← bread (i_dev v) (IBLOCK (i_inum v) sb);
  upd_buf bp (fun b => set_b_data (splice (b_data b) (di_off (i_inum v)) (store_dinode v)) b) ;;
  log_write bp ;;
  brelse bp.

Definition idup (ip : nat) : K nat :=
  acquire L_icache ;;
  upd_inode ip (fun v => set_i_ref (s32 (i_ref v + 1)) v) ;;
  release L_icache ;;
  mret ip.

(** [ilock] from its loop, with the lock of the table held. *)
Definition ilock_loop (ip : nat) : K unit :=
  v ← get_inode ip;
  if flag (i_flags v) I_BUSY then block (C_inode ip) L_icache
  else
    upd_inode ip (fun v => set_i_flags (fset (i_flags v) I_BUSY) v) ;;
    release L_icache ;;
    v ← get_inode ip;
    if negb (flag (i_flags v) I_VALID) then
      sb ← gets k_sb;
      bp ← bread (i_dev v) (IBLOCK (i_inum v) sb);
      b ← get_buf bp;
      upd_inode ip (load_dinode (slice (b_data b) (di_off (i_inum v)) sizeof_dinode)) ;;
      brelse bp ;;
      upd_inode ip (fun v => set_i_flags (fset (i_flags v) I_VALID) v) ;;
      v ← get_inode ip;
      if i_type v =? 0 then panic "ilock: no type" else mret tt
    else mret tt.

Definition ilock (ip : nat) : K unit :=
  v ← get_inode ip;
  if i_ref v <? 1 then panic "ilock"
  else acquire L_icache ;; ilock_loop ip.

Definition iunlock (ip : nat) : K unit :=
  v ← get_inode ip;
  if (negb (flag (i_flags v) I_BUSY) || (i_ref v <? 1))%bool then panic "iunlock"
  else
    acquire L_icache ;;
    upd_inode ip (fun v => set_i_flags (fclr (i_flags v) I_BUSY) v) ;;
    wakeup (C_inode ip) ;;
    release L_icache.

Definition bmap (ip : nat) (bn : Z) : K Z :=
  v ← get_inode ip;
  if bn <? Z.of_nat NDIRECT then
    addr ← deref (i_addrs v !! Z.to_nat bn);
    if addr =? 0 then
      addr ← balloc (i_dev v);
      upd_inode ip (fun v => set_i_addrs (<[Z.to_nat bn := addr]> (i_addrs v)) v) ;;
      mret addr
    else mret addr
  else
    let bn := bn - Z.of_nat NDIRECT in
    if bn <? Z.of_nat NINDIRECT then
      addr ← deref (i_addrs v !! NDIRECT);
      addr ← (if addr =? 0 then
                addr ← balloc (i_dev v);
                upd_inode ip (fun v => set_i_addrs (<[NDIRECT := addr]> (i_addrs v)) v) ;;
                mret addr
              else mret addr);
      bp ← bread (i_dev v) addr;
      b ← get_buf bp;
      addr ← (if get_uint (b_data b) (Z.to_nat bn) =? 0 then
                addr ← balloc (i_dev v);
                upd_buf bp (fun b => set_b_data (set_uint (b_data b) (Z.to_nat bn) addr) b) ;;
                log_write bp ;;
                mret addr
              else mret (get_uint (b_data b) (Z.to_nat bn)));
      brelse bp ;;
      mret addr
    else panic "bmap: out of range".

(** The bodies of the two loops of [itrunc]. *)
Definition itrunc_direct (ip : nat) (i : Z) : K unit :=
  v ← get_inode ip;
  a ← deref (i_addrs v !! Z.to_nat i);
  if negb (a =? 0) then
    bfree (i_dev v) a ;;
    upd_inode ip (fun v => set_i_addrs (<[Z.to_nat i := 0]> (i_addrs v)) v)
  else mret tt.
Definition itrunc_indirect (ip bp : nat) (j : Z) : K unit :=
  v ← get_inode ip;
  b ← get_buf bp;
  let a := get_uint (b_data b) (Z.to_nat j) in
  if negb (a =? 0) then bfree (i_dev v) a else mret tt.

Definition itrunc (ip : nat) : K unit :=
  for_loop NDIRECT 0 (itrunc_direct ip) ;;
  v ← get_inode ip;
  a ← deref (i_addrs v !! NDIRECT);
  (if negb (a =? 0) then
     bp ← bread (i_dev v) a;
     for_loop NINDIRECT 0 (itrunc_indirect ip bp) ;;
     brelse bp ;;
     bfree (i_dev v) a ;;
     upd_inode ip (fun v => set_i_addrs (<[NDIRECT := 0]> (i_addrs v)) v)
   else mret tt) ;;
  upd_inode ip (set_i_size 0) ;;
  iupdate ip.

Definition iput (ip : nat) : K unit :=
  acquire L_icache ;;
  v ← get_inode ip;
  (if ((i_ref v =? 1) && flag (i_flags v) I_VALID && (i_nlink v =? 0))%bool then
     if flag (i_flags v) I_BUSY then panic "iput busy"
     else
       upd_inode ip (fun v => set_i_flags (fset (i_flags v) I_BUSY) v) ;;
       release L_icache ;;
       itrunc ip ;;
       upd_inode ip (set_i_type 0) ;;
       iupdate ip ;;
       acquire L_icache ;;
       upd_inode ip (set_i_flags 0) ;;
       wakeup (C_inode ip)
   else mret tt) ;;
  upd_inode ip (fun v => set_i_ref (s32 (i_ref v - 1)) v) ;;
  release L_icache.

Definition iunlockput (ip : nat) : K unit := iunlock ip ;; iput ip.

(** stat.h and [stati] *)
Record stat := mkStat { st_type : Z; st_dev : Z; st_ino : Z; st_nlink : Z; st_size : Z }.
Definition stati (ip : nat) : K stat :=
  v ← get_inode ip;
  mret (mkStat (i_type v) (s32 (i_dev v)) (i_inum v) (i_nlink v) (i_size v)).

(** ** Inodes on disk *)

Record inode_ok (v : inode) : Prop := {
  io_type : - 2 ^ 15 <= i_type v < 2 ^ 15;
  io_major : - 2 ^ 15 <= i_major v < 2 ^ 15;
  io_minor : - 2 ^ 15 <= i_minor v < 2 ^ 15;
  io_nlink : - 2 ^ 15 <= i_nlink v < 2 ^ 15;
  io_size : 0 <= i_size v < 2 ^ 32;
  io_len : length (i_addrs v) = (NDIRECT + 1)%nat;
  io_addrs : Forall (fun a => 0 <= a < 2 ^ 32) (i_addrs v)
}.

Lemma s16_u16 x : - 2 ^ 15 <= x < 2 ^ 15 -> s16 (u16 x) = x.
Proof.
  intros. unfold s16, u16. rewrite Z.add_mod_idemp_l by lia. rewrite Z.mod_small; lia.
Qed.

Lemma u16_range x : 0 <= u16 x < 2 ^ 16.
Proof. apply Z.mod_pos_bound. lia. Qed.

Lemma slice_app_skip {A} (l1 l2 : list A) i n : i = length l1 -> slice (l1 ++ l2) i n = slice l2 0 n.
Proof. intros ->. unfold slice. by rewrite drop_app_length. Qed.

Lemma slice_app_here {A} (l1 l2 : list A) n : n = length l1 -> slice (l1 ++ l2) 0 n = l1.
Proof. intros ->. unfold slice. rewrite drop_0. apply take_app_length. Qed.

Lemma length_join_enc l : length (mjoin (map (le_enc 4) l)) = (4 * length l)%nat.
Proof. 
  induction l as [|a l IH]; [done|].
  change (mjoin (map (le_enc 4) (a :: l))) with (le_enc 4 a ++ mjoin (map (le_enc 4) l)).
  rewrite length_app, length_le_enc, IH. cbn [length]. lia.
Qed.

Lemma get_uint_join l i a : l !! i = Some a -> 0 <= a < 2 ^ 32 -> get_uint (mjoin (map (le_enc 4) l)) i = a.
Proof.
  revert i. induction l as [|b l IH]; intros i Hi Ha; [done|].
  change (mjoin (map (le_enc 4) (b :: l))) with (le_enc 4 b ++ mjoin (map (le_enc 4) l)). unfold get_uint in *.
  destruct i as [|i].
  - injection Hi as ->. change (4 * 0)%nat with 0%nat. rewrite slice_app_here by (by rewrite length_le_enc).
    apply le_dec_enc. lia.
  - replace (4 * S i)%nat with (4 + 4 * i)%nat by lia. unfold slice in *. rewrite <- drop_drop.
    rewrite (drop_app_length' (le_enc 4 b)) by (by rewrite length_le_enc). by apply IH.
Qed.

Lemma length_store v : inode_ok v -> length (store_dinode v) = sizeof_dinode.
Proof.
  intros Hv. unfold store_dinode. rewrite !length_app, !length_le_enc, length_join_enc, (io_len _ Hv). done.
Qed.

(** What [ilock] would read of an inode that [iupdate] wrote. *)
Lemma load_store v w : inode_ok v ->
  load_dinode (store_dinode v) w =
  mkInode (i_dev w) (i_inum w) (i_ref w) (i_flags w) (i_type v) (i_major v) (i_minor v) (i_nlink v)
    (i_size v) (i_addrs v).
Proof.
  intros [Ht Hj Hm Hl Hs Hlen Ha]. unfold load_dinode, store_dinode.
  assert (D2 : forall x, le_dec (le_enc 2 (u16 x)) = u16 x) by (intros; apply le_dec_enc, u16_range).
  set (A := mjoin _). set (X := le_enc 2 (u16 (i_type v)) ++ _).
  assert (E0 : slice X 0 2 = le_enc 2 (u16 (i_type v))) by reflexivity.
  assert (E2 : slice X 2 2 = le_enc 2 (u16 (i_major v))) by reflexivity.
  assert (E4 : slice X 4 2 = le_enc 2 (u16 (i_minor v))) by reflexivity.
  assert (E6 : slice X 6 2 = le_enc 2 (u16 (i_nlink v))) by reflexivity.
  assert (E8 : slice X 8 4 = le_enc 4 (u32 (i_size v))) by reflexivity.
  assert (ED : drop 12 X = A) by reflexivity.
  rewrite E0, E2, E4, E6, E8, !D2, !s16_u16, le_dec_enc by (done || apply u32_range).
  rewrite u32_small by done. f_equal.
  rewrite ED. apply list_eq. intros i. rewrite list_lookup_fmap.
  destruct (decide (i < NDIRECT + 1)%nat) as [Hi|Hi].
  - rewrite lookup_seq_lt by done. cbn. destruct (lookup_lt_is_Some_2 (i_addrs v) i) as [a Hai]; [by rewrite Hlen|].
    rewrite Hai. f_equal. apply get_uint_join; [done|]. rewrite Forall_lookup in Ha. by apply (Ha i).
  - rewrite lookup_seq_ge by lia. cbn. symmetry. apply lookup_ge_None_2. lia.
Qed.

(** ** Reference counts *)

Definition same_inode (dev inum : Z) (v : inode) : Prop := 0 < i_ref v /\ i_dev v = dev /\ i_inum v = inum.
#[global] Instance same_inode_dec dev inum v : Decision (same_inode dev inum v).
Proof. unfold same_inode. apply _. Defined.

(** The references to an inode, over the whole table. *)
Definition contrib (dev inum : Z) (v : inode) : Z := if decide (same_inode dev inum v) then i_ref v else 0.
Definition refs (tbl : list inode) (dev inum : Z) : Z := foldr (fun v n => contrib dev inum v + n) 0 tbl.

Record icache_ok (tbl : list inode) : Prop := {
  ic_ref : forall i v, tbl !! i = Some v -> 0 <= i_ref v < 2 ^ 31;
  ic_uniq : forall i j v w dev inum, tbl !! i = Some v -> tbl !! j = Some w ->
    same_inode dev inum v -> same_inode dev inum w -> i = j
}.

Lemma refs_cons v tbl dev inum : refs (v :: tbl) dev inum = contrib dev inum v + refs tbl dev inum.
Proof. done. Qed.

Lemma refs_insert tbl i v v' dev inum :
  tbl !! i = Some v -> refs (<[i := v']> tbl) dev inum = refs tbl dev inum - contrib dev inum v + contrib dev inum v'.
Proof.
  revert i. induction tbl as [|w tbl IH]; intros [|i] Hi; try done.
  - injection Hi as ->. change (<[0%nat := v']> (v :: tbl)) with (v' :: tbl). rewrite !refs_cons. lia.
  - change (<[S i := v']> (w :: tbl)) with (w :: <[i := v']> tbl). rewrite !refs_cons, (IH i Hi). lia.
Qed.

Lemma refs_none tbl dev inum : (forall i v, tbl !! i = Some v -> ~ same_inode dev inum v) -> refs tbl dev inum = 0.
Proof.
  induction tbl as [|w tbl IH]; intros H; [done|]. rewrite refs_cons. unfold contrib.
  rewrite decide_False by (by apply (H 0%nat)). rewrite IH; [done|]. intros i. apply (H (S i)).
Qed.

Lemma refs_nonneg tbl dev inum : 0 <= refs tbl dev inum.
Proof.
  induction tbl as [|w tbl IH]; [done|]. rewrite refs_cons. unfold contrib. case_decide as E; [destruct E|]; lia.
Qed.

Lemma refs_one tbl i v dev inum : icache_ok tbl -> tbl !! i = Some v -> same_inode dev inum v ->
  refs tbl dev inum = i_ref v.
Proof.
  intros [_ Hu] Hi Hs. revert i Hi Hu. induction tbl as [|w tbl IH]; intros [|i] Hi Hu; try done.
  - injection Hi as ->. rewrite refs_cons. unfold contrib. rewrite decide_True, refs_none; [lia| |done].
    intros j u Hj Hju. specialize (Hu 0%nat (S j) v u dev inum eq_refl Hj Hs Hju). done.
  - cbn in Hi. rewrite refs_cons, (IH i Hi).
    + unfold contrib. rewrite decide_False; [done|]. intros Hw.
      specialize (Hu 0%nat (S i) w v dev inum eq_refl Hi Hw Hs). done.
    + intros a b x y d n Ha Hb Hx Hy. specialize (Hu (S a) (S b) x y d n Ha Hb Hx Hy). lia.
Qed.

(** What the loop of [iget] finds. *)
Lemma iget_scan_spec l dev inum : forall i e,
  match iget_scan l i dev inum e with
  | (Some k, _) => (i <= k)%nat /\ exists v, l !! (k - i)%nat = Some v /\ same_inode dev inum v
  | (None, None) => e = None /\ forall j v, l !! j = Some v -> ~ same_inode dev inum v /\ i_ref v <> 0
  | (None, Some k) => (forall j v, l !! j = Some v -> ~ same_inode dev inum v) /\
      (e = Some k \/ (e = None /\ (i <= k)%nat /\ exists v, l !! (k - i)%nat = Some v /\ i_ref v = 0))
  end.
Proof.
  induction l as [|w l IH]; intros i e; cbn [iget_scan].
  { destruct e; [|done]. split; [done|by left]. }
  destruct ((0 <? i_ref w) && (i_dev w =? dev) && (i_inum w =? inum)) eqn:E.
  - rewrite !andb_true_iff, Z.ltb_lt, !Z.eqb_eq in E. split; [lia|]. exists w.
    rewrite Nat.sub_diag. split; [done|]. unfold same_inode. tauto.
  - assert (Hw : ~ same_inode dev inum w).
    { intros (H1 & H2 & H3). rewrite (proj2 (Z.ltb_lt _ _)), (proj2 (Z.eqb_eq _ _)), (proj2 (Z.eqb_eq _ _)) in E by done. done. }
    set (e' := match e with None => _ | Some _ => e end). specialize (IH (S i) e').
    destruct (iget_scan l (S i) dev inum e') as [[k|] [k'|]].
    1,2: destruct IH as (Hk & v & Hv & Hs); split; [lia|]; exists v; replace (k - i)%nat with (S (k - S i)) by lia; done.
    + destruct IH as (Hno & IH). split; [intros [|j] v Hj; [by injection Hj as <-|by apply (Hno j)]|].
      subst e'. destruct e as [x|]; [left; by destruct IH as [|[? _]]|].
      right. split; [done|]. destruct (Z.eqb_spec (i_ref w) 0) as [E0|E0].
      * destruct IH as [[= <-]|[? _]]; [|done]. split; [lia|]. exists w. by rewrite Nat.sub_diag.
      * destruct IH as [?|(_ & Hk & v & Hv & Hr)]; [done|]. split; [lia|]. exists v.
        by replace (k' - i)%nat with (S (k' - S i)) by lia.
    + destruct IH as (He & IH). subst e'. destruct e; [done|]. split; [done|].
      destruct (Z.eqb_spec (i_ref w) 0) as [|E0]; [done|]. intros [|j] v Hj; [by injection Hj as <-|by apply (IH j)].
Qed.

Lemma icache_ok_insert tbl i v v' :
  icache_ok tbl -> tbl !! i = Some v -> 0 <= i_ref v' < 2 ^ 31 ->
  (forall dev inum j w, same_inode dev inum v' -> j <> i -> tbl !! j = Some w -> ~ same_inode dev inum w) ->
  icache_ok (<[i := v']> tbl).
Proof.
  intros [Hr Hu] Hi Hv' Hno. pose proof (lookup_lt_Some _ _ _ Hi) as Hlt. split.
  - intros j w. rewrite list_lookup_insert. case_decide as E; [intros [= <-]; done|apply Hr].
  - intros j k w w' dev inum Hj Hk Hw Hw'. destruct (decide (j = i)) as [->|Hji], (decide (k = i)) as [->|Hki]; [done| | |].
    + rewrite list_lookup_insert_eq in Hj by done. rewrite list_lookup_insert_ne in Hk by done. simplify_eq.
      by destruct (Hno dev inum k w' Hw Hki Hk).
    + rewrite list_lookup_insert_eq in Hk by done. rewrite list_lookup_insert_ne in Hj by done. simplify_eq.
      by destruct (Hno dev inum j w Hw' Hji Hj).
    + rewrite list_lookup_insert_ne in Hj, Hk by done. by eapply Hu.
Qed.

(** Changing an entry and releasing the lock of the table. *)
Lemma icache_update {A} s ip v f (a : A) :
  k_icache s !! ip = Some v -> L_icache ∉ k_held s ->
  (upd_inode ip f ;; release L_icache ;; mret a) (set_k_held (L_icache :: k_held s) s) =
  Ret a (set_k_icache (<[ip := f v]> (k_icache s)) s).
Proof.
  intros Hi Hl. set (s0 := set_k_held _ s).
  kstep (upd_inode_Ret ip f s0 v Hi). rewrite bind_run, (release_held _ _ (k_held s)) by done. by destruct s.
Qed.

(** [iget] in detail: which entry it returns and what is in it. *)
Lemma iget_run s dev inum :
  icache_ok (k_icache s) -> L_icache ∉ k_held s -> refs (k_icache s) dev inum < 2 ^ 31 - 1 ->
  (exists ip v v', k_icache s !! ip = Some v /\ iget dev inum s = Ret ip (set_k_icache (<[ip := v']> (k_icache s)) s) /\
     icache_ok (<[ip := v']> (k_icache s)) /\ same_inode dev inum v' /\
     (if decide (same_inode dev inum v) then v' = set_i_ref (i_ref v + 1) v
      else refs (k_icache s) dev inum = 0 /\ i_ref v = 0 /\ i_ref v' = 1 /\ i_flags v' = 0)) \/
  (refs (k_icache s) dev inum = 0 /\ (forall i v, k_icache s !! i = Some v -> i_ref v <> 0) /\
   exists s', iget dev inum s = Stop (Panic "iget: no inodes") s').
Proof.
  intros Hok Hl Hmax. unfold iget. kstep (acquire_free L_icache s Hl). kgets. ksimp.
  pose proof (iget_scan_spec (k_icache s) dev inum 0 None) as Hs.
  destruct (iget_scan (k_icache s) 0 dev inum None) as [[ip|] [k|]].
  1,2: left; destruct Hs as (_ & v & Hi & Hv); rewrite Nat.sub_0_r in Hi; pose proof (refs_one _ _ _ _ _ Hok Hi Hv) as Er;
    pose proof Hv as (Hp & Hd & Hn); exists ip, v, (set_i_ref (i_ref v + 1) v); split; [done|];
    rewrite (icache_update _ _ v) by done; rewrite s32_small by lia; split; [done|]; split; [|split; [split; cbn; [lia|done]|by rewrite decide_True]];
    apply (icache_ok_insert _ _ v); try done; [cbn; lia|]; intros d n j w (_ & <- & <-) Hne Hj Hw; apply Hne;
    by eapply (ic_uniq _ Hok j ip w v).
  - left. destruct Hs as (Hno & [?|(_ & _ & v & Hi & Hr)]); [done|]. rewrite Nat.sub_0_r in Hi.
    exists k, v, (set_i_flags 0 (set_i_ref 1 (set_i_inum inum (set_i_dev dev v)))). split; [done|]. split.
    { by rewrite (icache_update _ _ v). }
    split; [|split; [done|]].
    + apply (icache_ok_insert _ _ v); try done. intros d n j w (_ & <- & <-) _ Hj. by eapply Hno.
    + rewrite decide_False by (by eapply Hno). split; [by apply refs_none|done].
  - right. destruct Hs as (_ & Hno). split; [apply refs_none; intros i v Hi; by apply (Hno i)|].
    split; [intros i v Hi; by apply (Hno i)|]. by eexists.
Qed.

(** [iget] of an inode returns the one entry of the table that stands for
    it; the references to that inode grow by one and those to every other
    inode stay; the table keeps one entry per inode; an inode that was already
    referenced keeps its loaded contents, a new one starts invalid; and [iget]
    panics exactly when the inode is not in the table and no entry is free. *)
Theorem iget_counts_references s dev inum :
  icache_ok (k_icache s) -> L_icache ∉ k_held s -> refs (k_icache s) dev inum < 2 ^ 31 - 1 ->
  (exists ip s' v', iget dev inum s = Ret ip s' /\ k_icache s' !! ip = Some v' /\ same_inode dev inum v' /\
     icache_ok (k_icache s') /\
     (forall d n, refs (k_icache s') d n = refs (k_icache s) d n + (if decide (d = dev /\ n = inum) then 1 else 0)) /\
     (forall j, j <> ip -> k_icache s' !! j = k_icache s !! j) /\
     (if decide (refs (k_icache s) dev inum = 0) then i_flags v' = 0
      else exists v, k_icache s !! ip = Some v /\ v' = set_i_ref (i_ref v + 1) v)) \/
  (refs (k_icache s) dev inum = 0 /\ (forall i v, k_icache s !! i = Some v -> i_ref v <> 0) /\
   exists s', iget dev inum s = Stop (Panic "iget: no inodes") s').
Proof.
  intros Hok Hl Hmax. destruct (iget_run s dev inum Hok Hl Hmax) as [(ip & v & v' & Hi & R & Hok' & Hs & Hv)|?]; [left|by right].
  exists ip, (set_k_icache (<[ip := v']> (k_icache s)) s), v'. pose proof (lookup_lt_Some _ _ _ Hi). ksimp.
  split; [done|]. split; [by rewrite list_lookup_insert_eq|]. split; [done|]. split; [done|]. split; [|split].
  - intros d n. rewrite (refs_insert _ _ v) by done. unfold contrib. pose proof Hs as (Hp & Hd & Hn).
    destruct (decide (d = dev /\ n = inum)) as [[-> ->]|Hne].
    + rewrite (decide_True (P := same_inode dev inum v')) by done. destruct (decide (same_inode dev inum v)).
      * rewrite Hv. cbn. lia.
      * destruct Hv as (_ & _ & -> & _). lia.
    + rewrite (decide_False (P := same_inode d n v')) by (intros (_ & ? & ?); apply Hne; split; congruence).
      destruct (decide (same_inode d n v)) as [Hx|Hx]; [|lia]. exfalso. apply Hne. destruct (decide (same_inode dev inum v)) as [Hy|].
      * destruct Hx as (_ & <- & <-), Hy as (_ & <- & <-). done.
      * destruct Hv as (_ & E & _), Hx as (? & _). lia.
  - intros j Hj. by rewrite list_lookup_insert_ne.
  - destruct (decide (same_inode dev inum v)) as [Hy|Hy].
    + rewrite (refs_one _ _ _ _ _ Hok Hi Hy). destruct Hy as (? & _). rewrite decide_False by lia. eauto.
    + destruct Hv as (E & _ & _ & Hf). by rewrite decide_True.
Qed.

(** ** ilock and iupdate *)

(** The cache does not look at the table of inodes. *)
Lemma cabs_icache s D U t : cabs s D U <-> cabs (set_k_icache t s) D U.
Proof. split; intros []; by split. Qed.

Lemma cframe_icache s s' : cframe s s' -> k_icache s' = k_icache s.
Proof. intros (E & _). by rewrite E. Qed.
Lemma cframe_sb s s' : cframe s s' -> k_sb s' = k_sb s.
Proof. intros (E & _). by rewrite E. Qed.

(** Reading a block whose buffer is released after [f] ran on the contents,
    where [f] changes one inode. *)
Lemma cabs_read_inode s D U n ip v (g : list Z -> inode -> inode) :
  cabs s D U -> n ∉ U -> n < dk_size (k_disk s) -> n ∈ D \/ (size (D ∪ U) < NBUF)%nat -> k_icache s !! ip = Some v ->
  exists s', cframe (set_k_icache (<[ip := g (view s n) v]> (k_icache s)) s) s' /\ k_disk s' = k_disk s /\
    cabs s' D U /\ (forall m, view s' m = view s m) /\
    forall A (k : K A), (i ← bread 1 n; b ← get_buf i; upd_inode ip (g (b_data b)) ;; brelse i ;; k) s = k s'.
Proof.
  intros Hc HnU Hn Hroom Hi.
  destruct (bread_cabs s D U n Hc HnU Hn Hroom) as (i & s1 & R1 & F1 & D1 & C1 & O1 & V1 & _).
  destruct (owns_get _ _ _ _ _ O1) as (b & G & Hb & _).
  assert (Hi1 : k_icache s1 !! ip = Some v) by (by rewrite (cframe_icache _ _ F1)).
  set (s2 := set_k_icache (<[ip := g (view s n) v]> (k_icache s1)) s1).
  assert (C2 : cabs s2 D ({[n]} ∪ U)) by (by apply cabs_icache).
  destruct (brelse_cabs s2 D _ i n (view s n) (bool_decide (n ∈ D)) C2 O1) as (s3 & R3 & F3 & D3 & C3 & V3 & _).
  { intros E%bool_decide_eq_false. change (k_disk s2) with (k_disk s1). rewrite D1. by eapply cabs_clean. }
  exists s3. split; [|split; [by rewrite D3|split; [|split]]].
  - etrans; [|exact F3]. subst s2. rewrite (cframe_icache _ _ F1). destruct F1 as (E & Hs & Hp).
    split; [|done]. rewrite E at 1. by destruct s.
  - eapply cabs_sets; [done|done|set_solver].
  - intros m. rewrite V3. apply V1.
  - intros A k. kstep R1. kstep G. rewrite Hb. kstep (upd_inode_Ret ip (g (view s n)) s1 v Hi1). by kstep R3.
Qed.

(** The inode in memory after [ilock]. *)
Definition locked (v : inode) (data : list Z) : inode :=
  if flag (i_flags v) I_VALID then set_i_flags (fset (i_flags v) I_BUSY) v
  else set_i_flags (fset (fset (i_flags v) I_BUSY) I_VALID)
         (load_dinode (slice data (di_off (i_inum v)) sizeof_dinode) v).

Lemma ilock_run s D U ip v :
  cabs s D U -> L_icache ∉ k_held s -> k_icache s !! ip = Some v -> 1 <= i_ref v -> i_dev v = 1 ->
  flag (i_flags v) I_BUSY = false ->
  let B := IBLOCK (i_inum v) (k_sb s) in
  B ∉ U -> B < dk_size (k_disk s) -> B ∈ D \/ (size (D ∪ U) < NBUF)%nat ->
  let v' := locked v (view s B) in
  exists s', cframe (set_k_icache (<[ip := v']> (k_icache s)) s) s' /\ k_disk s' = k_disk s /\ cabs s' D U /\
    (forall m, view s' m = view s m) /\
    ilock ip s = if (negb (flag (i_flags v) I_VALID) && (i_type v' =? 0))%bool then Stop (Panic "ilock: no type") s' else Ret tt s'.
Proof.
  intros Hc Hl Hi Href Hdev Hbusy B HBU HB Hroom v'. unfold ilock. kstep (get_inode_Ret ip s v Hi).
  rewrite (proj2 (Z.ltb_ge _ _)) by lia. kstep (acquire_free L_icache s Hl). unfold ilock_loop.
  set (s0 := set_k_held (L_icache :: k_held s) s). kstep (get_inode_Ret ip s0 v Hi). rewrite Hbusy.
  set (v1 := set_i_flags (fset (i_flags v) I_BUSY) v).
  set (s1 := set_k_icache (<[ip := v1]> (k_icache s)) s). pose proof (lookup_lt_Some _ _ _ Hi) as Hlt.
  assert (Hi1 : k_icache s1 !! ip = Some v1) by (subst s1; ksimp; by rewrite list_lookup_insert_eq).
  kstep (upd_inode_Ret ip (fun v => set_i_flags (fset (i_flags v) I_BUSY) v) s0 v Hi).
  rewrite bind_run, (release_held _ _ (k_held s)) by done.
  replace (set_k_held (k_held s) _) with s1 by (by destruct s). kstep (get_inode_Ret ip s1 v1 Hi1).
  assert (Ev : flag (i_flags v1) I_VALID = flag (i_flags v) I_VALID) by (subst v1; ksimp; by autorewrite with flags).
  rewrite Ev. assert (C1 : cabs s1 D U) by (by apply cabs_icache). subst v'. unfold locked.
  destruct (flag (i_flags v) I_VALID) eqn:Eval; cbn [negb andb].
  { exists s1. split; [reflexivity|]. done. }
  kgets. change (k_sb s1) with (k_sb s). change (i_inum v1) with (i_inum v). change (i_dev v1) with (i_dev v). rewrite Hdev.
  fold B. set (off := di_off (i_inum v)).
  destruct (cabs_read_inode s1 D U B ip v1 (fun d => load_dinode (slice d off sizeof_dinode)) C1 HBU HB Hroom Hi1)
    as (s2 & F2 & D2 & C2 & V2 & R2).
  rewrite R2. clear R2. change (view s1 B) with (view s B) in *. set (v2 := load_dinode _ v1) in F2.
  assert (Hi2 : k_icache s2 !! ip = Some v2).
  { rewrite (cframe_icache _ _ F2). ksimp. rewrite list_lookup_insert_eq; [done|]. by eapply lookup_lt_Some. }
  set (v3 := set_i_flags (fset (i_flags v2) I_VALID) v2). set (s3 := set_k_icache (<[ip := v3]> (k_icache s2)) s2).
  kstep (upd_inode_Ret ip (fun v => set_i_flags (fset (i_flags v) I_VALID) v) s2 v2 Hi2).
  assert (Hi3 : k_icache s3 !! ip = Some v3).
  { subst s3. ksimp. rewrite list_lookup_insert_eq; [done|]. by eapply lookup_lt_Some. }
  kstep (get_inode_Ret ip s3 v3 Hi3). exists s3. split; [|split; [done|split; [by apply cabs_icache|split; [exact V2|]]]].
  - assert (EI : <[ip := v3]> (k_icache s2) = <[ip := v3]> (k_icache s)).
    { rewrite (cframe_icache _ _ F2). unfold s1. ksimp. by rewrite !list_insert_insert_eq. }
    subst s3. rewrite EI.
    change (set_i_flags _ (load_dinode _ v)) with v3. destruct F2 as (E & Hs & Hp). split; [|done].
    rewrite E at 1. by destruct s.
  - change (i_type (set_i_flags _ (load_dinode _ v))) with (i_type v3). by destruct (_ =? 0).
Qed.

Lemma di_off_fits inum : (di_off inum + sizeof_dinode <= BSIZE)%nat.
Proof.
  unfold di_off. pose proof (Z.mod_pos_bound inum IPB ltac:(done)).
  change IPB with 8 in *. change BSIZE with 512%nat. change sizeof_dinode with 64%nat. lia.
Qed.

Lemma iupdate_txn s U bl ip v :
  txn s U bl -> k_icache s !! ip = Some v -> i_dev v = 1 -> inode_ok v ->
  let B := IBLOCK (i_inum v) (k_sb s) in
  B ∉ U -> B < dk_size (k_disk s) -> (length bl + size U < NBUF)%nat -> Z.of_nat (length bl) < log_room s ->
  exists s', iupdate ip s = Ret tt s' /\ tframe s s' /\ txn s' U (log_add B bl) /\
    (forall m, view s' m = if decide (m = B) then splice (view s B) (di_off (i_inum v)) (store_dinode v) else view s m) /\
    (forall j m w, held s j m w -> held s' j m w).
Proof.
  intros Ht Hi Hdev Hok B HBU HB Hroom Hlog.
  assert (Hlen : length (splice (view s B) (di_off (i_inum v)) (store_dinode v)) = BSIZE).
  { rewrite length_splice; [by eapply view_len, tx_cabs|].
    rewrite (length_store v Hok), (view_len _ _ _ _ (tx_cabs _ _ _ Ht)).
    apply di_off_fits. }
  assert (HB0 : 0 <= B) by apply u32_range.
  destruct (txn_modify s U bl B (fun d => splice d (di_off (i_inum v)) (store_dinode v)) (mret tt) Ht HBU ltac:(lia) Hlen Hroom Hlog)
    as (s' & F & T & V & O & R).
  exists s'. split; [|done]. trans ((mret tt : K unit) s'); [|done]. rewrite <- R. unfold iupdate. kstep (get_inode_Ret ip s v Hi). kgets. rewrite Hdev. fold B.
  rewrite !(bind_run (bread 1 B)). destruct (bread 1 B s) as [i s1|]; [|done]. cbv beta.
  rewrite !(bind_run (upd_buf _ _)). destruct (upd_buf i _ s1) as [u s2|]; [|done]. cbv beta.
  rewrite !(bind_run (log_write _)). destruct (log_write i s2) as [u' s3|]; [|done]. cbv beta.
  rewrite (bind_run (brelse i)). by destruct (brelse i s3) as [[] ?|].
Qed.

(** What [iupdate] writes, [ilock] reads: after [iupdate] of an inode,
    locking any entry of the table that stands for the same inode and is not
    loaded yet gives the type, device numbers, link count, size and block
    addresses that were written, with the inode busy and valid. *)
Theorem iupdate_ilock_roundtrip s bl ip v jp w :
  txn s ∅ bl -> k_icache s !! ip = Some v -> i_dev v = 1 -> inode_ok v -> i_type v <> 0 ->
  IBLOCK (i_inum v) (k_sb s) < dk_size (k_disk s) -> (length bl + 1 < NBUF)%nat -> Z.of_nat (length bl) < log_room s ->
  L_icache ∉ k_held s -> k_icache s !! jp = Some w -> same_inode (i_dev v) (i_inum v) w -> i_flags w = 0 ->
  exists s1 s2, iupdate ip s = Ret tt s1 /\ ilock jp s1 = Ret tt s2 /\
    k_icache s2 !! jp = Some (mkInode (i_dev w) (i_inum w) (i_ref w) (Z.lor I_BUSY I_VALID) (i_type v) (i_major v)
      (i_minor v) (i_nlink v) (i_size v) (i_addrs v)).
Proof.
  intros Ht Hi Hdev Hok Hty HB Hroom Hlog Hl Hj (Hr & Hd & Hn) Hf.
  assert (HE : size (∅ : gset Z) = 0%nat) by apply size_empty.
  destruct (iupdate_txn s ∅ bl ip v Ht Hi Hdev Hok) as (s1 & R1 & F1 & T1 & V1 & _);
    [apply not_elem_of_empty|done|lia|done|].
  set (B := IBLOCK (i_inum v) (k_sb s)) in *. pose proof (tframe_sb _ _ F1) as Esb. pose proof (tframe_disk _ _ F1) as Ed.
  assert (Hj1 : k_icache s1 !! jp = Some w) by (by rewrite (tframe_keeps k_icache s s1)).
  assert (Hl1 : L_icache ∉ k_held s1) by (by rewrite (tframe_keeps k_held s s1)).
  pose proof (log_add_len B bl).
  destruct (ilock_run s1 (list_to_set (log_add B bl)) ∅ jp w (tx_cabs _ _ _ T1) Hl1 Hj1) as (s2 & F2 & _ & _ & _ & R2);
    rewrite ?Hf, ?Hn, ?Esb, ?Ed; try done; [lia|congruence| |].
  { right. rewrite union_empty_r_L. pose proof (size_list_union (log_add B bl) ∅) as Hs. rewrite union_empty_r_L in Hs. lia. }
  rewrite Hn, Esb in R2, F2. fold B in R2, F2.
  assert (Hload : locked w (view s1 B) = mkInode (i_dev w) (i_inum w) (i_ref w) (Z.lor I_BUSY I_VALID) (i_type v) (i_major v)
      (i_minor v) (i_nlink v) (i_size v) (i_addrs v)).
  { unfold locked. rewrite Hf, V1, decide_True, Hn by done. change (flag 0 I_VALID) with false. cbv iota.
    rewrite <- (length_store v Hok), slice_splice, load_store; [by rewrite <- Hn|done|].
    rewrite (length_store v Hok), (view_len _ _ _ _ (tx_cabs _ _ _ Ht)). apply di_off_fits. }
  rewrite Hload in R2, F2. exists s1, s2. split; [done|]. split; [|].
  - rewrite R2, Hf. cbn [i_type]. rewrite (proj2 (Z.eqb_neq _ _) Hty). by rewrite andb_false_r.
  - rewrite (cframe_icache _ _ F2). ksimp. rewrite <- Hn. apply list_lookup_insert_eq. by eapply lookup_lt_Some.
Qed.

(** ** The theorems on the table of the small file system *)

Lemma icache0_ok : icache_ok (replicate NINODE inode0).
Proof.
  split.
  - intros i v [-> _]%lookup_replicate. by vm_compute.
  - intros i j v w dev inum [-> _]%lookup_replicate _ (H & _). by vm_compute in H.
Qed.

Lemma iget_counts_references_witness : exists s ip s' v', iget 1 3 s = Ret ip s' /\ k_icache s' !! ip = Some v' /\
  same_inode 1 3 v' /\ refs (k_icache s') 1 3 = 1.
Proof.
  destruct fs_state as (s & _ & _ & _ & _ & _ & Ei & Eh).
  destruct (iget_counts_references s 1 3) as [(ip & s' & v' & R & Hv & Hs & _ & Hr & _)|(_ & H & _)].
  - rewrite Ei. apply icache0_ok.
  - rewrite Eh. apply not_elem_of_nil.
  - rewrite Ei. by vm_compute.
  - exists s, ip, s', v'. split; [done|]. split; [done|]. split; [done|]. rewrite Hr, Ei. by vm_compute.
  - exfalso. rewrite Ei in H. by apply (H 0%nat inode0).
Defined.

Lemma iupdate_ilock_roundtrip_witness : exists s s1 s2 v, iupdate 0 s = Ret tt s1 /\ ilock 1 s1 = Ret tt s2 /\
  k_icache s2 !! 1%nat = Some v /\ i_size v = 600 /\ i_nlink v = 1 /\ i_ref v = 1.
Proof.
  destruct fs_state as (s & Ht & Esb & Ed & El & _ & _ & Eh).
  set (v := mkInode 1 3 0 0 T_FILE 0 0 1 600 (50 :: 51 :: replicate 11 0)). set (w := mkInode 1 3 1 0 0 0 0 0 0 []).
  destruct (iupdate_ilock_roundtrip (set_k_icache [v; w] s) [] 0 v 1 w) as (s1 & s2 & R1 & R2 & Hv); try done.
  - destruct Ht. split; try done. by apply cabs_icache.
  - split; try done. repeat constructor; done.
  - change (k_sb (set_k_icache [v; w] s)) with (k_sb s). change (k_disk (set_k_icache [v; w] s)) with (k_disk s). rewrite Esb, Ed. by vm_compute.
  - unfold NBUF. cbn. lia.
  - unfold log_room. ksimp. rewrite El. by vm_compute.
  - ksimp. rewrite Eh. apply not_elem_of_nil.
  - by eexists _, s1, s2, _.
Defined.
