(* ===== verification/Bmap.v ===== *)
(** * The blocks of a file: bmap of src/xv6/fs.c

    An inode maps the blocks of its file to disk blocks, twelve directly and
    the rest through an indirect block.  [blk_of] is the mapping, [file_ok]
    says that the blocks of the file are marked, distinct and apart from the
    bitmap.  The theorem about [bmap] says that it finds or allocates one
    block, and that the contents of the file, read through the mapping with
    zeros where no block is mapped, do not change. *)

From stdpp Require Import base list list_numbers numbers gmap strings fin_sets.
From Stdlib Require Import ZArith Lia.
From S2P Require Import Prelude Mem KState Sched Bio Cache Log Block Inode.

(** ** The mapping *)

Definition ind_of (v : inode) : Z := nth NDIRECT (i_addrs v) 0.

Definition blk_of (s : kstate) (v : inode) (bn : nat) : Z :=
  if decide (bn < NDIRECT)%nat then nth bn (i_addrs v) 0
  else if ind_of v =? 0 then 0
  else get_uint (view s (ind_of v)) (bn - NDIRECT).

(** Byte [o] of the file. *)
Definition fdata (s : kstate) (v : inode) (o : nat) : Z :=
  let b := blk_of s v (o / BSIZE) in
  if b =? 0 then 0 else nth (o mod BSIZE) (view s b) 0.

(** A marked block that is not part of the bitmap. *)
Record data_block (s : kstate) (b : Z) : Prop := {
  db_range : 0 <= b < sb_size (k_sb s);
  db_used : used s b = true;
  db_meta : forall k, 0 <= k < sb_size (k_sb s) -> b <> BBLOCK k (k_sb s)
}.

Record file_ok (s : kstate) (v : inode) : Prop := {
  fo_len : length (i_addrs v) = (NDIRECT + 1)%nat;
  fo_ind : ind_of v <> 0 -> data_block s (ind_of v);
  fo_blk : forall bn, (bn < MAXFILE)%nat -> blk_of s v bn <> 0 -> data_block s (blk_of s v bn);
  fo_sep : forall bn, (bn < MAXFILE)%nat -> blk_of s v bn <> 0 -> blk_of s v bn <> ind_of v;
  fo_inj : forall bn bn', (bn < MAXFILE)%nat -> (bn' < MAXFILE)%nat ->
    blk_of s v bn = blk_of s v bn' -> blk_of s v bn <> 0 -> bn = bn'
}.

Lemma blk_of_direct s v bn : (bn < NDIRECT)%nat -> blk_of s v bn = nth bn (i_addrs v) 0.
Proof. intros. unfold blk_of. by rewrite decide_True. Qed.

Lemma blk_of_indirect s v k : ind_of v <> 0 -> blk_of s v (NDIRECT + k) = get_uint (view s (ind_of v)) k.
Proof.
  intros H. unfold blk_of. rewrite decide_False by lia. rewrite (proj2 (Z.eqb_neq _ _)) by done. f_equal. lia.
Qed.

Lemma blk_of_none s v bn : ind_of v = 0 -> (NDIRECT <= bn)%nat -> blk_of s v bn = 0.
Proof. intros H Hb. unfold blk_of. rewrite decide_False by lia. by rewrite H. Qed.

(** The mapping only looks at the indirect block. *)
Lemma blk_of_view s s' v bn :
  (ind_of v <> 0 -> view s' (ind_of v) = view s (ind_of v)) -> blk_of s' v bn = blk_of s v bn.
Proof.
  intros H. unfold blk_of. case_decide; [done|]. destruct (Z.eqb_spec (ind_of v) 0); [done|]. by rewrite H.
Qed.

Lemma data_block_mono s s' b :
  data_block s b -> k_sb s' = k_sb s -> (used s b = true -> used s' b = true) -> data_block s' b.
Proof. intros [] E H. split; rewrite ?E; auto. Qed.

Lemma get_uint_zeros k : get_uint (replicate BSIZE 0) k = 0.
Proof.
  unfold get_uint, slice. rewrite drop_replicate, take_replicate.
  generalize (4 `min` (BSIZE - 4 * k))%nat. intros n. induction n as [|n IH]; [done|]. cbn [replicate le_dec]. lia.
Qed.

Lemma get_set_uint data k j x :
  (4 * k + 4 <= length data)%nat -> 0 <= x < 2 ^ 32 ->
  get_uint (set_uint data k x) j = if decide (j = k) then x else get_uint data j.
Proof.
  intros Hk Hx. unfold get_uint, set_uint. case_decide as E.
  - subst j. pose proof (slice_splice data (4 * k) (le_enc 4 x)) as Hs. rewrite length_le_enc in Hs.
    rewrite Hs by lia. by apply le_dec_enc.
  - by rewrite slice_splice_ne by (rewrite length_le_enc; lia).
Qed.

Lemma length_set_uint data k x : (4 * k + 4 <= length data)%nat -> length (set_uint data k x) = length data.
Proof. intros. unfold set_uint. apply length_splice. by rewrite length_le_enc. Qed.

(** The bitmap with the indirect block in use. *)
Lemma bitmap_ok_use s b : bitmap_ok s ∅ -> data_block s b -> bitmap_ok s {[b]}.
Proof.
  intros [H1 H2 H3 H0 H4 H5] [_ Hu Hm]. split; try done.
  - intros n Hn Hin%elem_of_singleton. by apply (Hm n).
  - intros n k Hn Hk Hf. split; [|by apply H5]. intros ->%elem_of_singleton. congruence.
Qed.

Lemma bitmap_ok_unuse s U : bitmap_ok s U -> bitmap_ok s ∅.
Proof.
  intros [H1 H2 H3 H0 H4 H5]. split; try done.
  intros n k Hn Hk Hf. split; [apply not_elem_of_empty|]. by apply (H5 n k).
Qed.

(** ** Allocating a block leaves files alone *)

Lemma alloc_view s s' U bl n b :
  allocated s s' U bl n -> used s n = false -> 0 <= n < sb_size (k_sb s) -> data_block s b -> view s' b = view s b.
Proof.
  intros (_ & _ & V & _) Hn Hr [_ Hu Hm]. rewrite V, decide_False by congruence.
  rewrite decide_False; [done|]. by apply Hm.
Qed.

Section alloc.
Context (s s' : kstate) (U : gset Z) (bl : list Z) (n : Z).
Context (Ht : txn s U bl) (Hbm : bitmap_ok s U) (Hn : 0 <= n < sb_size (k_sb s)) (Hfree : used s n = false).
Context (HA : allocated s s' U bl n).

Lemma alloc_sb : k_sb s' = k_sb s.
Proof using HA. apply tframe_sb, HA. Qed.

Lemma alloc_used b : 0 <= b < sb_size (k_sb s) -> used s b = true -> used s' b = true.
Proof using All. intros Hb Hu. rewrite (used_allocated s s' U bl n) by done. by case_decide. Qed.

Lemma alloc_data b : data_block s b -> data_block s' b.
Proof using All.
  intros Hb. eapply data_block_mono; [done|apply alloc_sb|]. apply alloc_used. by destruct Hb.
Qed.

Lemma alloc_blk v bn : file_ok s v -> blk_of s' v bn = blk_of s v bn.
Proof using All. intros Hf. apply blk_of_view. intros Hi. eapply alloc_view; eauto using fo_ind. Qed.

Lemma alloc_file v : file_ok s v -> file_ok s' v.
Proof using All.
  intros Hf. pose proof (fun bn => alloc_blk v bn Hf) as E. destruct Hf. split; [done| | | |].
  - eauto using alloc_data.
  - intros bn. rewrite E. eauto using alloc_data.
  - intros bn. rewrite E. eauto.
  - intros bn bn'. rewrite !E. eauto.
Qed.

(** The new block is fit for use and not yet part of any file. *)
Lemma alloc_fresh : data_block s' n.
Proof using All.
  split; [by rewrite alloc_sb| |].
  - rewrite (used_allocated s s' U bl n) by done. by rewrite decide_True.
  - rewrite alloc_sb. intros k Hk. by apply (bm_meta _ _ Hbm n k).
Qed.

Lemma alloc_apart v : file_ok s v -> n <> 0 ->
  n <> ind_of v /\ forall bn, (bn < MAXFILE)%nat -> blk_of s' v bn <> n.
Proof using All.
  intros Hf Hn0. split.
  - intros ->. destruct (fo_ind _ _ Hf) as [_ Hu _]; [done|congruence].
  - intros bn Hb. rewrite alloc_blk by done. intros <-. destruct (fo_blk _ _ Hf bn Hb) as [_ Hu _]; [done|congruence].
Qed.

Lemma alloc_zero : view s' n = replicate BSIZE 0.
Proof using HA. destruct HA as (_ & _ & V & _). by rewrite V, decide_True. Qed.

End alloc.

(** Mapping one more block [n]. *)
Lemma file_ok_update s s' v v' bn n :
  file_ok s v -> length (i_addrs v') = (NDIRECT + 1)%nat -> ind_of v' = ind_of v ->
  (forall b, data_block s b -> data_block s' b) -> data_block s' n -> n <> ind_of v ->
  (forall bn', (bn' < MAXFILE)%nat -> blk_of s v bn' <> n) ->
  (forall bn', (bn' < MAXFILE)%nat -> blk_of s' v' bn' = if decide (bn' = bn) then n else blk_of s v bn') ->
  file_ok s' v'.
Proof.
  intros [] Hlen Ei Hd Hn Hni Hfresh Hb. split; [done|rewrite Ei; auto| | |].
  - intros bn' Hl. rewrite Hb by done. case_decide; auto.
  - intros bn' Hl. rewrite Hb, Ei by done. case_decide; auto.
  - intros a b Ha Hb'. rewrite !Hb by done. repeat case_decide; subst; try done.
    + intros E. by destruct (Hfresh b Hb').
    + intros E. by destruct (Hfresh a Ha).
    + auto.
Qed.

Lemma file_ok_set_direct s v bn n :
  file_ok s v -> (bn < NDIRECT)%nat -> data_block s n -> n <> ind_of v ->
  (forall bn', (bn' < MAXFILE)%nat -> blk_of s v bn' <> n) ->
  let v' := set_i_addrs (<[bn := n]> (i_addrs v)) v in
  file_ok s v' /\ forall bn', blk_of s v' bn' = if decide (bn' = bn) then n else blk_of s v bn'.
Proof.
  intros Hf Hbn Hn Hni Hfresh v'. pose proof (fo_len _ _ Hf) as Hlen.
  assert (Ei : ind_of v' = ind_of v).
  { unfold ind_of, v'. ksimp. rewrite !nth_lookup, list_lookup_insert_ne by (unfold NDIRECT in *; lia). done. }
  assert (Hb : forall bn', blk_of s v' bn' = if decide (bn' = bn) then n else blk_of s v bn').
  { intros bn'. unfold blk_of. rewrite Ei. unfold v'. ksimp. case_decide as E.
    - rewrite !nth_lookup. case_decide as E'; [subst; rewrite list_lookup_insert_eq by (rewrite Hlen; lia); done|].
      by rewrite list_lookup_insert_ne.
    - rewrite (decide_False (P := bn' = bn)) by (intros ->; done). done. }
  split; [|done]. eapply (file_ok_update s s v v' bn n); try done.
  unfold v'. ksimp. by rewrite length_insert.
Qed.

Lemma file_ok_set_ind s v n :
  file_ok s v -> ind_of v = 0 -> n <> 0 -> data_block s n -> view s n = replicate BSIZE 0 ->
  (forall bn', (bn' < MAXFILE)%nat -> blk_of s v bn' <> n) ->
  let v' := set_i_addrs (<[NDIRECT := n]> (i_addrs v)) v in
  file_ok s v' /\ ind_of v' = n /\ forall bn', blk_of s v' bn' = blk_of s v bn'.
Proof.
  intros Hf Hi0 Hn0 Hn Hz Hfresh v'. pose proof (fo_len _ _ Hf) as Hlen.
  assert (Ei : ind_of v' = n).
  { unfold ind_of, v'. ksimp. rewrite nth_lookup, list_lookup_insert_eq by (rewrite Hlen; lia). done. }
  assert (Hb : forall bn', blk_of s v' bn' = blk_of s v bn').
  { intros bn'. unfold blk_of. rewrite Ei, Hi0, Hz, get_uint_zeros. rewrite (proj2 (Z.eqb_neq _ _)) by done.
    case_decide as E; [|done]. unfold v'. ksimp. rewrite !nth_lookup, list_lookup_insert_ne by lia. done. }
  split; [|done]. destruct Hf. split.
  - unfold v'. ksimp. by rewrite length_insert.
  - by rewrite Ei.
  - intros bn. rewrite Hb. auto.
  - intros bn Hl. rewrite Hb, Ei. auto.
  - intros a b. rewrite !Hb. auto.
Qed.

(** A change of a block outside the bitmap keeps the marks. *)
Lemma used_outside s s' b :
  k_sb s' = k_sb s -> data_block s b -> (forall m, m <> b -> view s' m = view s m) ->
  forall n, 0 <= n < sb_size (k_sb s) -> used s' n = used s n.
Proof.
  intros E [_ _ Hm] V n Hn. unfold used. rewrite E, V; [done|]. intros Eb. by apply (Hm n).
Qed.

Lemma data_block_outside s s' b a :
  k_sb s' = k_sb s -> data_block s b -> (forall m, m <> b -> view s' m = view s m) ->
  data_block s a -> data_block s' a.
Proof.
  intros E Hb V Ha. eapply data_block_mono; [done..|]. rewrite (used_outside s s' b) by (done || by destruct Ha). done.
Qed.

Lemma bitmap_ok_outside s s' U b :
  k_sb s' = k_sb s -> k_disk s' = k_disk s -> data_block s b -> (forall m, m <> b -> view s' m = view s m) ->
  bitmap_ok s U -> bitmap_ok s' U.
Proof.
  intros E Ed Hb V [H1 H2 H3 H0 H4 H5]. pose proof (used_outside s s' b E Hb V) as HU.
  split; rewrite ?E, ?Ed; try done.
  - destruct Hb as [Hr _ _]. rewrite HU; [done|lia].
  - intros n k Hn Hk. rewrite HU by done. auto.
Qed.

Lemma file_ok_set_slot s s' v k n :
  file_ok s v -> ind_of v <> 0 -> (k < NINDIRECT)%nat -> k_sb s' = k_sb s -> length (view s (ind_of v)) = BSIZE ->
  0 <= n < 2 ^ 32 -> data_block s n -> n <> ind_of v ->
  (forall m, view s' m = if decide (m = ind_of v) then set_uint (view s (ind_of v)) k n else view s m) ->
  (forall bn', (bn' < MAXFILE)%nat -> blk_of s v bn' <> n) ->
  file_ok s' v /\ forall bn', blk_of s' v bn' = if decide (bn' = (NDIRECT + k)%nat) then n else blk_of s v bn'.
Proof.
  intros Hf Hi Hk Esb Hlen Hn32 Hn Hni V Hfresh.
  assert (Hx : (4 * k + 4 <= length (view s (ind_of v)))%nat).
  { rewrite Hlen. unfold NINDIRECT in Hk. change (BSIZE / 4)%nat with 128%nat in Hk. change BSIZE with 512%nat. lia. }
  assert (Hb : forall bn', blk_of s' v bn' = if decide (bn' = (NDIRECT + k)%nat) then n else blk_of s v bn').
  { intros bn'. unfold blk_of. case_decide as E.
    - rewrite decide_False by lia. done.
    - rewrite (proj2 (Z.eqb_neq _ _)) by done. rewrite V, decide_True, get_set_uint by done.
      destruct (decide (bn' - NDIRECT = k)%nat) as [E'|E'].
      + rewrite decide_True by lia. done.
      + rewrite decide_False by lia. done. }
  split; [|done]. eapply (file_ok_update s s' v v (NDIRECT + k) n); try done; [by destruct Hf| |].
  - intros b Hd. apply (data_block_outside s s' (ind_of v)); try done; [by apply (fo_ind _ _ Hf)|].
    intros m Hm. by rewrite V, decide_False.
  - apply (data_block_outside s s' (ind_of v)); try done; [by apply (fo_ind _ _ Hf)|].
    intros m Hm. by rewrite V, decide_False.
Qed.

(** ** bmap *)

Definition iset (ip : nat) (v : inode) (s : kstate) : kstate := set_k_icache (<[ip := v]> (k_icache s)) s.

Lemma iset_same s ip v : k_icache s !! ip = Some v -> iset ip v s = s.
Proof. intros H. unfold iset. rewrite list_insert_id by done. by destruct s. Qed.

Lemma txn_iset s U bl ip v : txn s U bl -> txn (iset ip v s) U bl.
Proof. intros []. split; try done. by apply cabs_icache. Qed.
Lemma data_block_iset s b ip v : data_block s b -> data_block (iset ip v s) b.
Proof. intros []. by split. Qed.
Lemma bitmap_ok_iset s U ip v : bitmap_ok s U -> bitmap_ok (iset ip v s) U.
Proof. intros []. by split. Qed.
Lemma file_ok_iset s w ip v : file_ok s w -> file_ok (iset ip v s) w.
Proof.
  intros [H1 H2 H3 H4 H5]. split; [done| | |exact H4|exact H5].
  - intros H. by apply data_block_iset, H2.
  - intros bn Hb H. by apply data_block_iset, H3.
Qed.

Lemma tframe_iset s s1 ip v : tframe s s1 -> tframe (iset ip v s) (iset ip v s1).
Proof.
  intros F. unfold iset. rewrite (tframe_keeps k_icache s s1) by done. destruct F as (E & H). split; [|done].
  rewrite E at 1. by destruct s.
Qed.

(** At most one block is not marked. *)
Definition nearly_full (s : kstate) : Prop := forall a b, 0 <= a < sb_size (k_sb s) -> 0 <= b < sb_size (k_sb s) ->
  used s a = false -> used s b = false -> a = b.
Lemma full_nearly s : disk_full s -> nearly_full s.
Proof. intros H a b Ha Hb. by rewrite H. Qed.

(** File block [bn] of inode [ip] has been mapped, if it was not. *)
Record mapped (s : kstate) (ip : nat) (v : inode) (bl : list Z) (bn : nat)
    (s' : kstate) (v' : inode) (bl' : list Z) : Prop := {
  mp_frame : tframe (iset ip v' s) s';
  mp_inode : v' = set_i_addrs (i_addrs v') v;
  mp_txn : txn s' ∅ bl';
  mp_len : (length bl <= length bl' <= length bl + 5)%nat;
  mp_bitmap : bitmap_ok s' ∅;
  mp_file : file_ok s' v';
  mp_found : blk_of s' v' bn <> 0;
  mp_blk : forall bn', (bn' < MAXFILE)%nat -> bn' <> bn -> blk_of s' v' bn' = blk_of s v bn';
  mp_old : blk_of s v bn <> 0 -> blk_of s' v' bn = blk_of s v bn;
  mp_new : blk_of s v bn = 0 -> view s' (blk_of s' v' bn) = replicate BSIZE 0;
  mp_view : forall b, data_block s b -> b <> ind_of v -> view s' b = view s b;
  mp_used : forall b, data_block s b -> data_block s' b;
  mp_apart : forall b, data_block s b -> b <> ind_of v -> blk_of s v bn <> b -> b <> ind_of v' /\ blk_of s' v' bn <> b
}.

Lemma balloc_range s n U : bitmap_ok s U -> txn s U [] \/ dk_size (k_disk s) < 2 ^ 31 -> 0 <= n < sb_size (k_sb s) ->
  used s n = false -> n <> 0 /\ 0 <= n < 2 ^ 32 /\ n < dk_size (k_disk s).
Proof.
  intros [H1 H2 H3 H0 H4 H5] Hd Hn Hu. assert (dk_size (k_disk s) < 2 ^ 31) by (destruct Hd as [[]|]; done).
  split; [intros ->; congruence|]. lia.
Qed.

Lemma deref_Some {A} (a : A) s : deref (Some a) s = Ret a s.
Proof. done. Qed.

Lemma data_block_view s s' b : data_block s b -> tframe s s' -> (forall m, view s' m = view s m) -> data_block s' b.
Proof.
  intros H F V. pose proof (tframe_sb _ _ F). eapply data_block_mono; [done..|]. by rewrite (used_view s s').
Qed.

Lemma file_ok_view s s' v : file_ok s v -> tframe s s' -> (forall m, view s' m = view s m) -> file_ok s' v.
Proof.
  intros [H1 H2 H3 H4 H5] F V. assert (E : forall bn, blk_of s' v bn = blk_of s v bn) by (intros; by apply blk_of_view).
  split; [done|eauto using data_block_view| | |].
  - intros bn' Hl. rewrite E. eauto using data_block_view.
  - intros bn' Hl. rewrite E. auto.
  - intros a b. rewrite !E. auto.
Qed.

Section bmap.
Context (s : kstate) (ip : nat) (v : inode) (bl : list Z).
Context (Ht : txn s ∅ bl) (Hbm : bitmap_ok s ∅) (Hip : k_icache s !! ip = Some v) (Hdev : i_dev v = 1) (Hf : file_ok s v).

Lemma mapped_already s' bn :
  tframe s s' -> (forall m, view s' m = view s m) -> txn s' ∅ bl -> blk_of s v bn <> 0 -> mapped s ip v bl bn s' v bl.
Proof using All.
  intros F V T Hb. assert (E : forall bn, blk_of s' v bn = blk_of s v bn) by (intros; by apply blk_of_view).
  split; try done; [by rewrite iset_same|by destruct v|lia|by eapply bitmap_ok_view|by eapply file_ok_view|by rewrite E| |].
  - eauto using data_block_view.
  - intros b Hd Hne Hb'. by rewrite E.
Qed.

Lemma bmap_direct bn : (bn < NDIRECT)%nat -> (length bl + 1 < NBUF)%nat -> Z.of_nat (length bl) + 1 < log_room s ->
  (exists s' v' bl', bmap ip (Z.of_nat bn) s = Ret (blk_of s' v' bn) s' /\ mapped s ip v bl bn s' v' bl') \/
  (disk_full s /\ exists s', bmap ip (Z.of_nat bn) s = Stop (Panic "balloc: out of blocks") s' /\ disk_full s').
Proof using All.
  intros Hbn Hroom Hlog. unfold bmap. kstep (get_inode_Ret ip s v Hip). rewrite (proj2 (Z.ltb_lt _ _)) by lia.
  rewrite Nat2Z.id. destruct (lookup_lt_is_Some_2 (i_addrs v) bn) as [a Ha]; [rewrite (fo_len _ _ Hf); unfold NDIRECT in *; lia|].
  assert (Eb : blk_of s v bn = a) by (rewrite blk_of_direct, nth_lookup, Ha; done).
  rewrite Ha, (bind_Ret _ _ _ _ _ (deref_Some a s)). destruct (Z.eqb_spec a 0) as [E0|E0].
  2:{ left. exists s, v, bl. split; [by rewrite Eb|]. apply mapped_already; try done. by rewrite Eb. }
  rewrite Hdev. destruct (balloc_txn s ∅ bl Ht Hbm) as [(n & s1 & R & Hn & Hu & _ & HA)|(Hfl & s1 & R & Hfull)];
    [rewrite size_empty; lia|done| |right; split; [done|]; exists s1; by rewrite (bind_Stop _ _ _ _ _ R)].
  destruct (balloc_range s n ∅ Hbm ltac:(right; by destruct Ht) Hn Hu) as (Hn0 & Hn32 & _).
  pose proof (alloc_file s s1 ∅ bl n Ht Hbm Hn Hu HA v Hf) as Hf1.
  destruct (alloc_apart s s1 ∅ bl n Ht Hbm Hn Hu HA v Hf Hn0) as [Hni Hfresh].
  pose proof (alloc_fresh s s1 ∅ bl n Ht Hbm Hn Hu HA) as Hd. pose proof (fun b => alloc_blk s s1 ∅ bl n Ht Hbm Hn Hu HA v b Hf) as Eblk.
  destruct (file_ok_set_direct s1 v bn n Hf1 Hbn Hd Hni Hfresh) as [Hf2 Eb2].
  set (v' := set_i_addrs (<[bn := n]> (i_addrs v)) v) in *.
  assert (F : tframe s s1) by apply HA.
  assert (Hi1 : k_icache s1 !! ip = Some v) by (by rewrite (tframe_keeps k_icache s s1)).
  kstep R. kstep (upd_inode_Ret ip (fun v => set_i_addrs (<[bn := n]> (i_addrs v)) v) s1 v Hi1).
  change (set_k_icache _ s1) with (iset ip v' s1).
  assert (Ebn : blk_of (iset ip v' s1) v' bn = n) by (change (blk_of s1 v' bn = n); by rewrite Eb2, decide_True).
  left. exists (iset ip v' s1), v', (log_add n (log_add (BBLOCK n (k_sb s)) bl)). split; [by rewrite Ebn|].
  pose proof (log_add_len n (log_add (BBLOCK n (k_sb s)) bl)). pose proof (log_add_len (BBLOCK n (k_sb s)) bl).
  split; try done.
  - by apply tframe_iset.
  - apply txn_iset, HA.
  - lia.
  - apply bitmap_ok_iset. by eapply allocated_bitmap_ok.
  - by apply file_ok_iset.
  - by rewrite Ebn.
  - intros bn' Hb' Hne. change (blk_of s1 v' bn' = blk_of s v bn'). rewrite Eb2, decide_False, Eblk; done.
  - congruence.
  - intros _. rewrite Ebn. apply (alloc_zero s s1 ∅ bl n HA).
  - intros b Hb _. apply (alloc_view s s1 ∅ bl n b); done.
  - intros b Hb. apply data_block_iset. by eapply alloc_data.
  - intros b Hb Hne _. rewrite Ebn. destruct Hb as [_ Hub _]. split; [|congruence].
    replace (ind_of v') with (ind_of v); [done|]. unfold ind_of, v'. ksimp.
    rewrite !nth_lookup, list_lookup_insert_ne by (unfold NDIRECT in *; lia). done.
Qed.

(** [bmap] from reading the indirect block. *)
Definition bmap_slot (ind : Z) (k : nat) : K Z :=
  bp ← bread 1 ind;
  b ← get_buf bp;
  addr ← (if get_uint (b_data b) k =? 0 then
            addr ← balloc 1;
            upd_buf bp (fun b => set_b_data (set_uint (b_data b) k addr) b) ;;
            log_write bp ;;
            mret addr
          else mret (get_uint (b_data b) k));
  brelse bp ;;
  mret addr.

Lemma bmap_slot_spec k : ind_of v <> 0 -> (k < NINDIRECT)%nat ->
  (length bl + 2 < NBUF)%nat -> Z.of_nat (length bl) + 2 < log_room s ->
  (exists s' bl', bmap_slot (ind_of v) k s = Ret (blk_of s' v (NDIRECT + k)) s' /\ mapped s ip v bl (NDIRECT + k) s' v bl' /\
     (length bl' <= length bl + 3)%nat) \/
  (disk_full s /\ exists s', bmap_slot (ind_of v) k s = Stop (Panic "balloc: out of blocks") s' /\ disk_full s').
Proof using All.
  intros Hi Hk Hroom Hlog. set (ind := ind_of v) in *. pose proof (fo_ind _ _ Hf Hi) as Hdi. fold ind in Hdi.
  pose proof (bm_size _ _ Hbm) as Hbs. destruct (db_range _ _ Hdi) as [Hi0 Hisz]. pose proof (tx_disk _ _ _ Ht) as Hdk.
  destruct (txn_bread s ∅ bl ind Ht) as (bp & s1 & R1 & F1 & T1 & H1 & V1 & O1);
    [apply not_elem_of_empty|lia|rewrite size_empty; lia|]. rewrite union_empty_r_L in T1.
  destruct (held_get _ _ _ _ H1) as (b & G1 & Hb). unfold bmap_slot. kstep R1. kstep G1. rewrite Hb.
  assert (Eb : get_uint (view s ind) k = blk_of s v (NDIRECT + k)) by (by rewrite blk_of_indirect).
  assert (Hmaxb : (NDIRECT + k < MAXFILE)%nat) by (unfold MAXFILE; lia).
  rewrite Eb. destruct (Z.eqb_spec (blk_of s v (NDIRECT + k)) 0) as [E0|E0].
  2:{ destruct (txn_brelse s1 _ bl bp ind _ T1 H1) as (s2 & R2 & F2 & T2 & V2 & _). rewrite difference_diag_L in T2.
      assert (F : tframe s s2) by (by etrans). assert (V : forall m, view s2 m = view s m) by (intros; by rewrite V2, V1).
      left. exists s2, bl. pose proof (mapped_already s2 (NDIRECT + k) F V T2 E0) as HM. split; [|split; [done|lia]].
      rewrite bind_run. cbn [mret prog_ret]. kstep R2. by rewrite (mp_old _ _ _ _ _ _ _ _ HM). }
  rewrite bind_assoc.
  pose proof (file_ok_view s s1 v Hf F1 V1) as Hf1. pose proof (data_block_view s s1 ind Hdi F1 V1) as Hdi1.
  assert (Hbm1 : bitmap_ok s1 {[ind]}) by (apply bitmap_ok_use; [by eapply bitmap_ok_view|done]).
  destruct (balloc_txn s1 {[ind]} bl T1 Hbm1) as [(n & s2 & R2 & Hn & Hu & _ & HA)|(Hfl & s2 & R2 & Hfull)];
    [rewrite size_singleton; lia|rewrite (tframe_room _ _ F1); lia| |
     right; split; [|exists s2; by rewrite (bind_Stop _ _ _ _ _ R2)]].
  2:{ pose proof (tframe_sb _ _ F1) as E1. intros m Hm. rewrite <- (used_view s s1) by done. apply Hfl. by rewrite E1. }
  destruct (balloc_range s1 n _ Hbm1 ltac:(right; by destruct T1) Hn Hu) as (Hn0 & Hn32 & _).
  pose proof (alloc_file s1 s2 _ bl n T1 Hbm1 Hn Hu HA v Hf1) as Hf2.
  destruct (alloc_apart s1 s2 _ bl n T1 Hbm1 Hn Hu HA v Hf1 Hn0) as [Hni Hfresh].
  pose proof (alloc_fresh s1 s2 _ bl n T1 Hbm1 Hn Hu HA) as Hd.
  pose proof (allocated_bitmap_ok s1 s2 _ bl n T1 Hbm1 Hn Hu HA) as Hbm2.
  pose proof (alloc_zero s1 s2 _ bl n HA) as Hz.
  pose proof (alloc_view s1 s2 _ bl n ind HA Hu Hn Hdi1) as Vi. rewrite V1 in Vi.
  pose proof HA as (F2 & T2 & _ & O2). set (bl2 := log_add n _) in *.
  assert (Hbl2 : (length bl <= length bl2 <= length bl + 2)%nat).
  { unfold bl2. pose proof (log_add_len n (log_add (BBLOCK n (k_sb s1)) bl)). pose proof (log_add_len (BBLOCK n (k_sb s1)) bl). lia. }
  assert (Hvl : length (view s ind) = BSIZE) by (by eapply view_len, tx_cabs).
  assert (Hx : (4 * k + 4 <= length (view s ind))%nat).
  { rewrite Hvl. change NINDIRECT with 128%nat in Hk. change BSIZE with 512%nat. lia. }
  destruct (txn_put s2 _ bl2 bp ind (view s ind) _ (fun d => set_uint d k n) T2 (O2 _ _ _ H1) eq_refl)
    as (s3 & s4 & R3 & R4 & F4 & T4 & H4 & V4 & _);
    [by rewrite length_set_uint|lia|rewrite (tframe_room _ _ F2), (tframe_room _ _ F1); lia|].
  destruct (txn_brelse s4 _ _ bp ind _ T4 H4) as (s5 & R5 & F5 & T5 & V5 & _). rewrite difference_diag_L in T5.
  assert (F25 : tframe s2 s5) by (by etrans).
  assert (V25 : forall m, view s5 m = if decide (m = ind_of v) then set_uint (view s2 (ind_of v)) k n else view s2 m).
  { intros m. rewrite V5, V4. fold ind. by rewrite Vi. }
  assert (Hdi2 : data_block s2 ind) by (by apply (alloc_data s1 s2 {[ind]} bl n)).
  destruct (file_ok_set_slot s2 s5 v k n Hf2 Hi Hk (tframe_sb _ _ F25)) as [Hf5 Eb5]; try done; [by fold ind; rewrite Vi|].
  assert (V25' : forall m, m <> ind -> view s5 m = view s2 m) by (intros; by rewrite V25, decide_False).
  left. exists s5, (log_add ind bl2). pose proof (log_add_len ind bl2).
  assert (Ebk : blk_of s5 v (NDIRECT + k) = n) by (by rewrite Eb5, decide_True).
  assert (Hmono : forall b, data_block s b -> data_block s5 b).
  { intros a Ha. eapply data_block_outside; [by apply tframe_sb|exact Hdi2|done|]. apply (alloc_data s1 s2 {[ind]} bl n); eauto using data_block_view. }
  split; [kstep R2; rewrite bind_assoc; kstep R3; rewrite bind_assoc; kstep R4; rewrite ret_bind; kstep R5; by rewrite Ebk|].
  split; [|lia]. split; try done.
  - rewrite iset_same by done. transitivity s1; [done|]. by transitivity s2.
  - by destruct v.
  - lia.
  - eapply bitmap_ok_outside; [by apply tframe_sb|by apply tframe_disk|exact Hdi2|done|]. by eapply bitmap_ok_unuse.
  - by rewrite Ebk.
  - intros bn' Hb' Hne. rewrite Eb5, decide_False by done. rewrite (alloc_blk s1 s2 _ bl n) by done. by apply blk_of_view.
  - intros _. rewrite Ebk, V25'; [done|]. done.
  - intros a Ha Hne. rewrite V25' by done. rewrite (alloc_view s1 s2 _ bl n a) by (done || by eapply data_block_view). done.
  - intros a Ha Hne _. rewrite Ebk. split; [done|]. intros <-. destruct (data_block_view s s1 n Ha F1 V1). congruence.
Qed.

End bmap.

Section bmap_all.
Context (s : kstate) (ip : nat) (v : inode) (bl : list Z).
Context (Ht : txn s ∅ bl) (Hbm : bitmap_ok s ∅) (Hip : k_icache s !! ip = Some v) (Hdev : i_dev v = 1) (Hf : file_ok s v).

(** [bmap] of an indirect block, when there is no indirect block yet. *)
Lemma bmap_new_ind k : ind_of v = 0 -> (k < NINDIRECT)%nat ->
  (length bl + 4 < NBUF)%nat -> Z.of_nat (length bl) + 4 < log_room s ->
  (exists s' v' bl', (addr ← (addr ← balloc 1;
      upd_inode ip (fun v => set_i_addrs (<[NDIRECT := addr]> (i_addrs v)) v) ;; mret addr); bmap_slot addr k) s =
     Ret (blk_of s' v' (NDIRECT + k)) s' /\ mapped s ip v bl (NDIRECT + k) s' v' bl') \/
  (nearly_full s /\ exists s', (addr ← (addr ← balloc 1;
      upd_inode ip (fun v => set_i_addrs (<[NDIRECT := addr]> (i_addrs v)) v) ;; mret addr); bmap_slot addr k) s =
     Stop (Panic "balloc: out of blocks") s' /\ disk_full s').
Proof using All.
  intros Hi Hk Hroom Hlog. rewrite bind_assoc.
  destruct (balloc_txn s ∅ bl Ht Hbm) as [(n & s1 & R & Hn & Hu & _ & HA)|(Hfl & s1 & R & Hfull)];
    [rewrite size_empty; lia|lia| |
     right; split; [intros a b Ha Hb; by rewrite Hfl|]; exists s1; by rewrite (bind_Stop _ _ _ _ _ R)].
  destruct (balloc_range s n ∅ Hbm ltac:(right; by destruct Ht) Hn Hu) as (Hn0 & Hn32 & _).
  pose proof (alloc_file s s1 ∅ bl n Ht Hbm Hn Hu HA v Hf) as Hf1.
  destruct (alloc_apart s s1 ∅ bl n Ht Hbm Hn Hu HA v Hf Hn0) as [_ Hfresh].
  pose proof (alloc_fresh s s1 ∅ bl n Ht Hbm Hn Hu HA) as Hd. pose proof (alloc_zero s s1 ∅ bl n HA) as Hz.
  destruct (file_ok_set_ind s1 v n Hf1 Hi Hn0 Hd Hz Hfresh) as (Hf2 & Ei & Eb2).
  set (v1 := set_i_addrs (<[NDIRECT := n]> (i_addrs v)) v) in *.
  assert (F : tframe s s1) by apply HA. assert (T1 : txn s1 ∅ _) by apply HA. set (bl1 := log_add n _) in T1.
  assert (Hbl1 : (length bl <= length bl1 <= length bl + 2)%nat).
  { unfold bl1. pose proof (log_add_len n (log_add (BBLOCK n (k_sb s)) bl)). pose proof (log_add_len (BBLOCK n (k_sb s)) bl). lia. }
  assert (Hi1 : k_icache s1 !! ip = Some v) by (by rewrite (tframe_keeps k_icache s s1)).
  kstep R. rewrite bind_assoc. kstep (upd_inode_Ret ip (fun v => set_i_addrs (<[NDIRECT := n]> (i_addrs v)) v) s1 v Hi1).
  rewrite ret_bind. change (set_k_icache _ s1) with (iset ip v1 s1). set (s2 := iset ip v1 s1).
  assert (Eb : forall bn, blk_of s2 v1 bn = blk_of s v bn).
  { intros bn. change (blk_of s1 v1 bn = blk_of s v bn). rewrite Eb2. by apply (alloc_blk s s1 ∅ bl n). }
  destruct (bmap_slot_spec s2 ip v1 bl1) with (k := k) as [(s' & bl' & R' & HM & Hbl')|(Hfl & s' & R' & Hfull)];
    [by apply txn_iset|apply bitmap_ok_iset; by apply (allocated_bitmap_ok s s1 ∅ bl n)| |done|by apply file_ok_iset|by rewrite Ei|done|lia| | |].
  { unfold s2, iset. ksimp. apply list_lookup_insert_eq. by eapply lookup_lt_Some. }
  { change (log_room s2) with (log_room s1). rewrite (tframe_room _ _ F). lia. }
  2:{ rewrite Ei in R'. right. split; [|eauto]. assert (H1 : forall m, 0 <= m < sb_size (k_sb s) -> used s m = false -> m = n).
      { intros m Hm Hum. specialize (Hfl m ltac:(unfold s2, iset; ksimp; by rewrite (tframe_sb _ _ F))).
        change (used s1 m = true) in Hfl. rewrite (used_allocated s s1 ∅ bl n) in Hfl by done. case_decide; congruence. }
      intros a b Ha Hb Hua Hub. by rewrite (H1 a), (H1 b). }
  rewrite Ei in R'. left. exists s', v1, bl'. split; [done|].
  assert (Hdb : forall b, data_block s b -> data_block s2 b).
  { intros b Hb. apply data_block_iset. by apply (alloc_data s s1 ∅ bl n). }
  destruct HM as [M1 M2 M3 M4 M5 M6 M7 M8 M9 M10 M11 M12 M13]. split; try done.
  - rewrite iset_same in M1; [|unfold s2, iset; ksimp; apply list_lookup_insert_eq; by eapply lookup_lt_Some].
    etrans; [by apply tframe_iset|exact M1].
  - lia.
  - intros bn' Hb' Hne. rewrite M8 by done. apply Eb.
  - intros H. rewrite M9; rewrite Eb; done.
  - intros H. apply M10. by rewrite Eb.
  - intros b Hb _. rewrite M11; [|by apply Hdb|].
    + change (view s1 b = view s b). by apply (alloc_view s s1 ∅ bl n).
    + rewrite Ei. intros ->. destruct Hb. congruence.
  - auto.
  - intros b Hb _ Hne. apply M13; [by apply Hdb| |by rewrite Eb]. rewrite Ei. intros ->. destruct Hb. congruence.
Qed.

Lemma bmap_spec bn : (bn < MAXFILE)%nat -> (length bl + 4 < NBUF)%nat -> Z.of_nat (length bl) + 4 < log_room s ->
  (exists s' v' bl', bmap ip (Z.of_nat bn) s = Ret (blk_of s' v' bn) s' /\ mapped s ip v bl bn s' v' bl') \/
  (nearly_full s /\ exists s', bmap ip (Z.of_nat bn) s = Stop (Panic "balloc: out of blocks") s' /\ disk_full s').
Proof using All.
  intros Hbn Hroom Hlog. destruct (decide (bn < NDIRECT)%nat) as [Hlt|Hge].
  { destruct (bmap_direct s ip v bl Ht Hbm Hip Hdev Hf bn) as [?|[? ?]]; [done|lia|lia|by left|right].
    split; [by apply full_nearly|done]. }
  set (k := (bn - NDIRECT)%nat). assert (Ebn : bn = (NDIRECT + k)%nat) by lia.
  assert (Hk : (k < NINDIRECT)%nat) by (unfold MAXFILE in Hbn; lia).
  unfold bmap. kstep (get_inode_Ret ip s v Hip). rewrite (proj2 (Z.ltb_ge _ _)) by lia.
  replace (Z.of_nat bn - Z.of_nat NDIRECT) with (Z.of_nat k) by lia. cbn zeta.
  rewrite (proj2 (Z.ltb_lt _ _)), Nat2Z.id, Hdev, Ebn by lia.
  destruct (lookup_lt_is_Some_2 (i_addrs v) NDIRECT) as [a Ha]; [rewrite (fo_len _ _ Hf); lia|].
  assert (Ea : ind_of v = a) by (unfold ind_of; by rewrite nth_lookup, Ha).
  rewrite Ha, (bind_Ret _ _ _ _ _ (deref_Some a s)). destruct (Z.eqb_spec a 0) as [E0|E0].
  - apply bmap_new_ind; [congruence|done|lia|lia].
  - rewrite ret_bind. change ((bread 1 a ≫= _) s) with (bmap_slot a k s). rewrite <- Ea.
    destruct (bmap_slot_spec s ip v bl Ht Hbm Hip Hdev Hf k) as [(s' & bl' & R' & HM & _)|[? ?]]; [congruence|done|lia|lia|left; eauto|right].
    split; [by apply full_nearly|done].
Qed.

End bmap_all.

Lemma block_lt o : (o < MAXFILE * BSIZE)%nat -> (o / BSIZE < MAXFILE)%nat.
Proof. intros. apply Nat.Div0.div_lt_upper_bound. lia. Qed.

Lemma mapped_fdata s ip v bl bn s' v' bl' o :
  file_ok s v -> mapped s ip v bl bn s' v' bl' -> (o < MAXFILE * BSIZE)%nat -> fdata s' v' o = fdata s v o.
Proof.
  intros Hf HM Ho. pose proof (block_lt o Ho) as Hb. unfold fdata.
  destruct (decide (o / BSIZE = bn)%nat) as [E|E].
  - rewrite E. rewrite (proj2 (Z.eqb_neq _ _)) by apply HM.
    destruct (Z.eqb_spec (blk_of s v bn) 0) as [E0|E0].
    + rewrite (mp_new _ _ _ _ _ _ _ _ HM E0). rewrite nth_lookup, lookup_replicate_2; [done|].
      apply Nat.mod_upper_bound. done.
    + rewrite (mp_old _ _ _ _ _ _ _ _ HM E0), (mp_view _ _ _ _ _ _ _ _ HM); [done|apply Hf; congruence|].
      apply Hf; congruence.
  - rewrite (mp_blk _ _ _ _ _ _ _ _ HM) by done. destruct (Z.eqb_spec (blk_of s v (o / BSIZE)) 0) as [E0|E0]; [done|].
    rewrite (mp_view _ _ _ _ _ _ _ _ HM); [done|apply Hf; done|]. by apply Hf.
Qed.

(** ** The theorem *)

(** [bmap] of any block a file can have returns the disk block the inode
    maps it to, allocating that block (and the indirect block) if there is
    none; the returned block is marked and not part of the bitmap, the blocks
    of the file stay distinct, and every byte of the file, zeros in holes
    included, is what it was.  It panics only when at most one disk block is not
    marked, as every one is when it does. *)
Theorem bmap_keeps_contents s ip v bl bn :
  txn s ∅ bl -> bitmap_ok s ∅ -> k_icache s !! ip = Some v -> i_dev v = 1 -> file_ok s v ->
  (bn < MAXFILE)%nat -> (length bl + 4 < NBUF)%nat -> Z.of_nat (length bl) + 4 < log_room s ->
  (exists b s' v' bl', bmap ip (Z.of_nat bn) s = Ret b s' /\ k_icache s' !! ip = Some v' /\
     b <> 0 /\ b = blk_of s' v' bn /\ data_block s' b /\
     (forall o, (o < MAXFILE * BSIZE)%nat -> fdata s' v' o = fdata s v o) /\
     file_ok s' v' /\ bitmap_ok s' ∅ /\ txn s' ∅ bl' /\ (length bl' <= length bl + 5)%nat) \/
  (nearly_full s /\ exists s', bmap ip (Z.of_nat bn) s = Stop (Panic "balloc: out of blocks") s' /\ disk_full s').
Proof.
  intros Ht Hbm Hip Hdev Hf Hbn Hroom Hlog.
  destruct (bmap_spec s ip v bl Ht Hbm Hip Hdev Hf bn Hbn Hroom Hlog) as [(s' & v' & bl' & R & HM)|?]; [left|by right].
  exists (blk_of s' v' bn), s', v', bl'. split; [done|].
  split; [|split; [apply HM|split; [done|split; [apply HM; [done|apply HM]|split; [|split; [apply HM|split; [apply HM|split; [apply HM|apply HM]]]]]]]].
  - rewrite (tframe_keeps k_icache _ _ (fun _ _ => eq_refl) (fun _ _ => eq_refl) (fun _ _ => eq_refl) (mp_frame _ _ _ _ _ _ _ _ HM)).
    unfold iset. ksimp. apply list_lookup_insert_eq. by eapply lookup_lt_Some.
  - intros o Ho. by eapply mapped_fdata.
Qed.

(** An inode of the small file system that maps its first two blocks. *)
Definition finode : inode := mkInode 1 2 1 3 T_FILE 0 0 1 600 ([50; 51] ++ replicate 11 0).

Lemma blk_of_finode s bn : blk_of s finode bn = nth bn [50; 51] 0.
Proof.
  unfold blk_of. case_decide as E; [|rewrite nth_overflow by (unfold NDIRECT in *; cbn; lia); done].
  do 12 (destruct bn as [|bn]; [done|]). unfold NDIRECT in E. lia.
Qed.

Lemma file_state s : (forall n, view s n = dread bdisk n) -> k_sb s = bsb -> file_ok s finode.
Proof.
  intros V Esb. assert (Hd : forall b, b = 50 \/ b = 51 -> data_block s b).
  { intros b Hb. assert (0 <= b < 1000) by lia. split; rewrite ?Esb; [done| |].
    - unfold used, BBLOCK. rewrite Esb, V, bdisk_read. destruct Hb as [-> | ->]; by vm_compute.
    - intros k Hk. cbn [sb_size bsb] in Hk. unfold BBLOCK. rewrite Z.div_small by (unfold BPB, BSIZE; lia).
      change (u32 (0 + sb_bmapstart bsb)) with 58. lia. }
  assert (Hb : forall bn, blk_of s finode bn <> 0 -> (blk_of s finode bn = 50 /\ bn = 0%nat) \/ (blk_of s finode bn = 51 /\ bn = 1%nat)).
  { intros [|[|bn]]; rewrite blk_of_finode; [by left|by right|]. rewrite nth_overflow by (cbn; lia). done. }
  split; [done|done| | |].
  - intros bn _ [[-> _]|[-> _]]%Hb; auto.
  - intros bn _ [[-> _]|[-> _]]%Hb; done.
  - intros a b _ _ E Ha. pose proof Ha as Hb'. rewrite E in Hb'. destruct (Hb a Ha) as [[? ->]|[? ->]], (Hb b Hb') as [[? ->]|[? ->]]; congruence.
Qed.

Lemma bmap_keeps_contents_witness : exists s s' b, bmap 0 2 s = Ret b s' /\ b <> 0.
Proof.
  destruct fs_state as (s & Ht & Esb & Ed & El & V & Ei & _).
  pose proof (bitmap_state s V Esb Ed) as Hbm. pose proof (file_state s V Esb) as Hf.
  set (s1 := iset 0 finode s).
  destruct (bmap_keeps_contents s1 0 finode [] 2 (txn_iset _ _ _ _ _ Ht) (bitmap_ok_iset _ _ _ _ Hbm)) as
    [(b & s' & v' & bl' & R & _ & Hb & _)|(Hn & _)]; [|done|by apply file_ok_iset| | | |by exists s1, s', b|].
  - unfold s1, iset. ksimp. by rewrite Ei.
  - vm_compute. lia.
  - vm_compute. lia.
  - unfold s1, iset, log_room. ksimp. rewrite El. by vm_compute.
  - specialize (Hn 59 60). change (used s1) with (used s) in Hn. change (k_sb s1) with (k_sb s) in Hn.
    assert (Hu : forall n, 0 <= n < 1000 -> used s n = bit_used bitmap59 n).
    { intros n Hr. unfold used, BBLOCK. rewrite Esb, V, bdisk_read, Z.mod_small, Z.div_small by (unfold BPB, BSIZE; lia). done. }
    rewrite !Hu, Esb in Hn by lia. discriminate (Hn ltac:(done) ltac:(done) ltac:(by vm_compute) ltac:(by vm_compute)).
Defined.
