(* ===== verification/Console.v ===== *)
(** * The console and the keyboard: src/xv6/console.c, kbd.c, kbd.h, uart.c

    [k_input] is the input buffer, a ring with three counters: [in_r] <=
    [in_w] <= [in_e]; the characters between [in_r] and [in_w] are ready to be
    read, those between [in_w] and [in_e] are the line being edited.
    [k_out] collects the characters given to [consputc].  [consoleread_loop]
    is the loop of [consoleread], which a reader that waited resumes.

    The theorems say that the interrupt handler implements a line discipline
    on two lists of characters, for counters that wrap around; that a reader
    gets the ready characters up to the end of a line; that the screen is
    never written outside its 25 lines; and that the keyboard tables are never
    indexed out of range. *)

From stdpp Require Import base list list_numbers numbers gmap strings.
From Stdlib Require Import ZArith Lia.
From S2P Require Import Prelude Mem KState Sched Printf Ring Kalloc Pipe Inode.

(** ** console.c: the screen *)

Definition BACKSPACE : Z := 256.
(** [C(x)] *)
Definition C_ (x : Z) : Z := x - 64.
Definition C_D : Z := 4.
Definition c_nl : Z := 10.
Definition c_cr : Z := 13.

(** The memory of the CGA screen, 80 by 25 cells, and the cursor register. *)
Record screen := mkScreen { sc_crt : list Z; sc_pos : Z }.

(** A write outside the screen has no result. *)
Definition crt_set (crt : list Z) (pos v : Z) : option (list Z) :=
  if ((0 <=? pos) && (pos <? Z.of_nat (length crt)))%bool then Some (<[Z.to_nat pos := v]> crt) else None.

Definition cgaputc (c : Z) (sc : screen) : option screen :=
  let pos := sc_pos sc in
  r ← (if c =? c_nl then Some (sc_crt sc, pos + (80 - pos mod 80))
       else if c =? BACKSPACE then Some (sc_crt sc, if 0 <? pos then pos - 1 else pos)
       else crt ← crt_set (sc_crt sc) pos (Z.lor (Z.land c 255) 1792); Some (crt, pos + 1));
  let '(crt, pos) := r in
  r ← (if 24 <=? pos / 80 then
         let pos := pos - 80 in
         if 24 * 80 <? pos then None
         else Some (take (Z.to_nat 1840) (drop 80 crt) ++ drop (Z.to_nat 1840) crt, pos,
                    Some (Z.to_nat pos, Z.to_nat (24 * 80 - pos)))
       else Some (crt, pos, None));
  let '(crt, pos, clear) := r in
  let crt := match clear with
             | Some (i, n) => splice crt i (replicate n 0)
             | None => crt
             end in
  crt ← crt_set crt pos (Z.lor 32 1792);
  Some (mkScreen crt (u16 pos)).

(** uart.c: the bytes [consputc] sends to the serial port. *)
Definition uart_bytes (c : Z) : list Z := if c =? BACKSPACE then [8; 32; 8] else [u8 c].

Definition consputc (c : Z) : K unit := modify (fun s => set_k_out (k_out s ++ [c]) s).

(** ** spinlock.c: getcallerpcs, and proc.c: procdump *)

(** [pcs] holds at most ten return addresses; the rest of the array is 0. *)
Fixpoint getcallerpcs_loop (m : mem) (n : nat) (ebp : Z) : list Z :=
  match n with
  | O => []
  | S n' =>
      if ((ebp =? 0) || (ebp <? KERNBASE) || (ebp =? 4294967295))%bool then replicate n 0
      else ld32 m (u32 (ebp + 4)) :: getcallerpcs_loop m n' (ld32 m ebp)
  end.
Definition getcallerpcs (m : mem) (v : Z) : list Z := getcallerpcs_loop m 10 (u32 (v - 8)).

Definition state_name (st : procstate) : list Z :=
  chars (match st with
         | UNUSED => "unused" | EMBRYO => "embryo" | SLEEPING => "sleep "
         | RUNNABLE => "runble" | RUNNING => "run   " | ZOMBIE => "zombie"
         end).

(** The bytes of a C string before its NUL. *)
Fixpoint cstring (l : list Z) : list Z :=
  match l with
  | [] => []
  | c :: l' => if c =? 0 then [] else c :: cstring l'
  end.

(** The addresses printed: up to the first zero. *)
Fixpoint dump_pcs (pcs : list Z) : K unit :=
  match pcs with
  | [] => mret tt
  | pc :: pcs' =>
      if pc =? 0 then mret tt else cprintf_ (chars " %p") [AInt pc] ;; dump_pcs pcs'
  end.

Definition procdump_one (p : proc) : K unit :=
  if decide (p_state p = UNUSED) then mret tt
  else
    cprintf_ (chars "%d %s %s") [AInt (p_pid p); AStr (state_name (p_state p)); AStr (cstring (p_name p))] ;;
    (if decide (p_state p = SLEEPING) then
       m ← gets k_mem;
       dump_pcs (getcallerpcs m (u32 (cx_ebp (p_context p) + 8)))
     else mret tt) ;;
    cprintf_ [c_nl] [].

Fixpoint procdump_loop (ps : list proc) : K unit :=
  match ps with
  | [] => mret tt
  | p :: ps' => procdump_one p ;; procdump_loop ps'
  end.
Definition procdump : K unit := ps ← gets k_ptable; procdump_loop ps.

(** ** console.c: input *)

Definition upd_input (f : input -> input) : K unit := modify (fun s => set_k_input (f (k_input s)) s).

Definition ibuf (i : input) (k : Z) : Z := nth (Z.to_nat (u32 k mod INPUT_BUF)) (in_buf i) 0.

(** The loop of ^U. *)
Fixpoint kill_line (fuel : nat) : K unit :=
  match fuel with
  | O => stop NoFuel
  | S fuel' =>
      i ← gets k_input;
      if (negb (in_e i =? in_w i) && negb (ibuf i (in_e i - 1) =? c_nl))%bool then
        upd_input (fun i => set_in_e (u32 (in_e i - 1)) i) ;;
        consputc BACKSPACE ;;
        kill_line fuel'
      else mret tt
  end.

(** The body of the loop of [consoleintr], for one character. *)
Definition consoleintr_char (c : Z) : K unit :=
  if c =? C_ 80 then procdump
  else if c =? C_ 85 then kill_line (S (Z.to_nat INPUT_BUF))
  else if ((c =? C_ 72) || (c =? 127))%bool then
    i ← gets k_input;
    if negb (in_e i =? in_w i) then
      upd_input (fun i => set_in_e (u32 (in_e i - 1)) i) ;;
      consputc BACKSPACE
    else mret tt
  else
    i ← gets k_input;
    if (negb (c =? 0) && (u32 (in_e i - in_r i) <? INPUT_BUF))%bool then
      let c := if c =? c_cr then c_nl else c in
      upd_input (fun i => set_in_e (u32 (in_e i + 1))
        (set_in_buf (<[Z.to_nat (in_e i mod INPUT_BUF) := u8 c]> (in_buf i)) i)) ;;
      consputc c ;;
      i ← gets k_input;
      if ((c =? c_nl) || (c =? C_D) || (in_e i =? u32 (in_r i + INPUT_BUF)))%bool then
        upd_input (fun i => set_in_w (in_e i) i) ;;
        wakeup C_input
      else mret tt
    else mret tt.

(** [consoleintr]; [cs] are the characters [getc] delivers before it returns
    a negative number. *)
Fixpoint consoleintr_loop (cs : list Z) : K unit :=
  match cs with
  | [] => mret tt
  | c :: cs' => consoleintr_char c ;; consoleintr_loop cs'
  end.
Definition consoleintr (cs : list Z) : K unit :=
  acquire L_input ;;
  consoleintr_loop cs ;;
  release L_input.

(** The loop of [consoleread], with [n] bytes still wanted of [target] and
    [dst] stored so far: the value to be returned and the bytes stored. *)
Fixpoint consoleread_loop (n : nat) (target : Z) (dst : list Z) : K (Z * list Z) :=
  match n with
  | O => mret (target, dst)
  | S n' =>
      i ← gets k_input;
      if in_r i =? in_w i then
        k ← killed;
        if negb (k =? 0) then mret (-1, dst) else block C_input L_input
      else
        let c := ibuf i (in_r i) in
        upd_input (fun i => set_in_r (u32 (in_r i + 1)) i) ;;
        if c =? C_D then
          (if Z.of_nat n <? target
           then upd_input (fun i => set_in_r (u32 (in_r i - 1)) i)
           else mret tt) ;;
          mret (target - Z.of_nat n, dst)
        else if c =? c_nl then mret (target - Z.of_nat n', dst ++ [c])
        else consoleread_loop n' target (dst ++ [c])
  end.

Definition consoleread (ip : nat) (n : Z) : K (Z * list Z) :=
  iunlock ip ;;
  acquire L_input ;;
  r ← (if 0 <? n then consoleread_loop (Z.to_nat n) n [] else mret (0, []));
  release L_input ;;
  ilock ip ;;
  mret r.

Fixpoint consolewrite_loop (buf : list Z) : K unit :=
  match buf with
  | [] => mret tt
  | b :: buf' => consputc (u8 b) ;; consolewrite_loop buf'
  end.
Definition consolewrite (ip : nat) (buf : list Z) : K Z :=
  iunlock ip ;;
  acquire L_cons ;;
  consolewrite_loop buf ;;
  release L_cons ;;
  ilock ip ;;
  mret (Z.of_nat (length buf)).

Definition CONSOLE : nat := 1.
Definition consoleinit : K unit := modify (fun s => set_k_devsw (<[CONSOLE := true]> (k_devsw s)) s).

(** ** kbd.h: the key tables *)

Definition SHIFT : Z := 1.
Definition CTL : Z := 2.
Definition ALT : Z := 4.
Definition CAPSLOCK : Z := 8.
Definition NUMLOCK : Z := 16.
Definition SCROLLLOCK : Z := 32.
Definition E0ESC : Z := 64.

(** An array of 256 [uchar] with its first elements, the elements given by
    index, and zeros elsewhere. *)
Definition table (first : list Z) (at_ : list (nat * Z)) : list Z :=
  foldr (fun '(i, x) t => <[i := x]> t) (first ++ replicate (256 - length first) 0) at_.

Definition shiftcode : list Z :=
  Eval vm_compute in table [] [(0x1D%nat, CTL); (0x2A%nat, SHIFT); (0x36%nat, SHIFT); (0x38%nat, ALT); (0x9D%nat, CTL); (0xB8%nat, ALT)].
Definition togglecode : list Z :=
  Eval vm_compute in table [] [(0x3A%nat, CAPSLOCK); (0x45%nat, NUMLOCK); (0x46%nat, SCROLLLOCK)].

(** The arrow and page keys, which all three maps share. *)
Definition keypad : list (nat * Z) :=
  [(0xC8%nat, 0xE2); (0xD0%nat, 0xE3); (0xC9%nat, 0xE6); (0xD1%nat, 0xE7); (0xCB%nat, 0xE4);
   (0xCD%nat, 0xE5); (0x97%nat, 0xE0); (0xCF%nat, 0xE1); (0xD2%nat, 0xE8); (0xD3%nat, 0xE9)].

Definition normalmap : list Z := Eval vm_compute in table
  [0; 27; 49; 50; 51; 52; 53; 54; 55; 56; 57; 48; 45; 61; 8; 9;
   113; 119; 101; 114; 116; 121; 117; 105; 111; 112; 91; 93; 10; 0; 97; 115;
   100; 102; 103; 104; 106; 107; 108; 59; 39; 96; 0; 92; 122; 120; 99; 118;
   98; 110; 109; 44; 46; 47; 0; 42; 0; 32; 0; 0; 0; 0; 0; 0;
   0; 0; 0; 0; 0; 0; 0; 55; 56; 57; 45; 52; 53; 54; 43; 49;
   50; 51; 48; 46; 0; 0; 0; 0]
  ([(0x9C%nat, 10); (0xB5%nat, 47)] ++ keypad).
Definition shiftmap : list Z := Eval vm_compute in table
  [0; 27; 33; 64; 35; 36; 37; 94; 38; 42; 40; 41; 95; 43; 8; 9;
   81; 87; 69; 82; 84; 89; 85; 73; 79; 80; 123; 125; 10; 0; 65; 83;
   68; 70; 71; 72; 74; 75; 76; 58; 34; 126; 0; 124; 90; 88; 67; 86;
   66; 78; 77; 60; 62; 63; 0; 42; 0; 32; 0; 0; 0; 0; 0; 0;
   0; 0; 0; 0; 0; 0; 0; 55; 56; 57; 45; 52; 53; 54; 43; 49;
   50; 51; 48; 46; 0; 0; 0; 0]
  ([(0x9C%nat, 10); (0xB5%nat, 47)] ++ keypad).
Definition ctlmap : list Z := Eval vm_compute in table
  [0; 0; 0; 0; 0; 0; 0; 0; 0; 0; 0; 0; 0; 0; 0; 0;
   C_ 81; C_ 87; C_ 69; C_ 82; C_ 84; C_ 89; C_ 85; C_ 73; C_ 79; C_ 80; 0; 0; 13; 0; C_ 65; C_ 83;
   C_ 68; C_ 70; C_ 71; C_ 72; C_ 74; C_ 75; C_ 76; 0; 0; 0; 0; C_ 92; C_ 90; C_ 88; C_ 67; C_ 86;
   C_ 66; C_ 78; C_ 77; 0; 0; u8 (C_ 47); 0; 0]
  ([(0x9C%nat, 13); (0xB5%nat, u8 (C_ 47))] ++ keypad).
Definition charcode : list (list Z) := [normalmap; shiftmap; ctlmap; ctlmap].

(** ** kbd.c *)

(** A read outside one of the tables has no result. *)
Definition kbdgetc (st data shift : Z) : option (Z * Z) :=
  if Z.land st 1 =? 0 then Some (-1, shift)
  else if data =? 0xE0 then Some (0, Z.lor shift E0ESC)
  else if flag data 0x80 then
    let data := if flag shift E0ESC then data else Z.land data 0x7F in
    sc ← shiftcode !! Z.to_nat data;
    Some (0, fclr shift (Z.lor sc E0ESC))
  else
    let '(data, shift) :=
      if flag shift E0ESC then (Z.lor data 0x80, fclr shift E0ESC) else (data, shift) in
    sc ← shiftcode !! Z.to_nat data;
    tc ← togglecode !! Z.to_nat data;
    let shift := Z.lxor (Z.lor shift sc) tc in
    map ← charcode !! Z.to_nat (Z.land shift (Z.lor CTL SHIFT));
    c ← map !! Z.to_nat data;
    let c := if flag shift CAPSLOCK then
               if ((97 <=? c) && (c <=? 122))%bool then c + (65 - 97)
               else if ((65 <=? c) && (c <=? 90))%bool then c + (97 - 65)
               else c
             else c in
    Some (c, shift).

(** [kbdintr]: [consoleintr(kbdgetc)], for the bytes the controller holds; the
    characters delivered and the state of the modifier keys afterwards. *)
Fixpoint kbd_chars (datas : list Z) (shift : Z) : option (list Z * Z) :=
  match datas with
  | [] => Some ([], shift)
  | d :: datas' =>
      '(c, shift) ← kbdgetc 1 d shift;
      '(cs, shift) ← kbd_chars datas' shift;
      Some (c :: cs, shift)
  end.
Definition kbdintr (datas : list Z) (shift : Z) : K Z :=
  r ← deref (kbd_chars datas shift);
  consoleintr r.1 ;;
  mret r.2.

(** ** The screen and the keyboard *)

Definition blank : Z := 1824.
Record screen_ok (sc : screen) : Prop := {
  so_len : length (sc_crt sc) = Z.to_nat 2000;
  so_pos : 0 <= sc_pos sc < 24 * 80
}.

Lemma crt_set_Some crt pos v : 0 <= pos < Z.of_nat (length crt) -> crt_set crt pos v = Some (<[Z.to_nat pos := v]> crt).
Proof. intros H. unfold crt_set. rewrite (proj2 (Z.leb_le _ _)), (proj2 (Z.ltb_lt _ _)) by lia. done. Qed.

(** From writing the character on: scrolling and the cursor. *)
Lemma cga_finish crt pos : length crt = Z.to_nat 2000 -> 0 <= pos <= 24 * 80 ->
  (r ← (if 24 <=? pos / 80 then
         let pos := pos - 80 in
         if 24 * 80 <? pos then None
         else Some (take (Z.to_nat 1840) (drop 80 crt) ++ drop (Z.to_nat 1840) crt, pos, Some (Z.to_nat pos, Z.to_nat (24 * 80 - pos)))
       else Some (crt, pos, None));
   let '(crt, pos, clear) := r in
   let crt := match clear with Some (i, n) => splice crt i (replicate n 0) | None => crt end in
   crt ← crt_set crt pos (Z.lor 32 1792); Some (mkScreen crt (u16 pos))) =
  Some (if 24 * 80 <=? pos
        then mkScreen (<[Z.to_nat 1840 := blank]> (splice (take (Z.to_nat 1840) (drop 80 crt) ++ drop (Z.to_nat 1840) crt) (Z.to_nat 1840) (replicate 80 0))) 1840
        else mkScreen (<[Z.to_nat pos := blank]> crt) pos).
Proof.
  intros Hlen Hpos. destruct (Z.leb_spec (24 * 80) pos) as [Hs|Hs].
  - assert (pos = 1920) as -> by lia. change (24 <=? 1920 / 80) with true. cbv iota zeta beta.
    change (24 * 80 <? 1920 - 80) with false. cbv iota. cbn [mbind option_bind].
    change (1920 - 80) with 1840. change (Z.to_nat (24 * 80 - 1840)) with 80%nat.
    rewrite crt_set_Some; [done|]. rewrite length_splice; rewrite ?length_app, ?length_take, ?length_drop, ?length_replicate, Hlen; lia.
  - assert (pos / 80 < 24) by (apply Z.div_lt_upper_bound; lia). rewrite (proj2 (Z.leb_gt _ _)) by lia. cbn [mbind option_bind].
    rewrite crt_set_Some by lia. cbn [mbind option_bind]. unfold u16. rewrite Z.mod_small by lia. done.
Qed.

(** C40: whatever character is printed, [cgaputc] writes only inside the
    screen's 25 lines and leaves the cursor on the first 24; a printable
    character goes to the cursor position, and a new line on the last line
    moves every line up by one. *)
Theorem cgaputc_in_bounds c sc :
  screen_ok sc -> exists sc', cgaputc c sc = Some sc' /\ screen_ok sc' /\
    (c <> c_nl -> c <> BACKSPACE -> sc_pos sc + 1 < 24 * 80 ->
       sc_crt sc' = <[Z.to_nat (sc_pos sc + 1) := blank]> (<[Z.to_nat (sc_pos sc) := Z.lor (Z.land c 255) 1792]> (sc_crt sc)) /\
       sc_pos sc' = sc_pos sc + 1) /\
    (c = c_nl -> 23 * 80 <= sc_pos sc ->
       sc_pos sc' = 23 * 80 /\ forall i, (i < Z.to_nat 1840)%nat -> sc_crt sc' !! i = sc_crt sc !! (80 + i)%nat).
Proof.
  intros [Hlen Hpos]. unfold cgaputc. pose proof (Z.mod_pos_bound (sc_pos sc) 80 ltac:(lia)).
  pose proof (Z.div_mod (sc_pos sc) 80 ltac:(lia)).
  assert (Hd : sc_pos sc / 80 < 24) by (apply Z.div_lt_upper_bound; lia).
  assert (Hok : forall crt pos, length crt = Z.to_nat 2000 -> 0 <= pos <= 1920 -> screen_ok (if 24 * 80 <=? pos
        then mkScreen (<[Z.to_nat 1840 := blank]> (splice (take (Z.to_nat 1840) (drop 80 crt) ++ drop (Z.to_nat 1840) crt) (Z.to_nat 1840) (replicate 80 0))) 1840
        else mkScreen (<[Z.to_nat pos := blank]> crt) pos)).
  { intros crt pos Hl Hp. destruct (Z.leb_spec (24 * 80) pos); split; cbn [sc_crt sc_pos]; try lia; rewrite length_insert; [|done].
    rewrite length_splice; rewrite ?length_app, ?length_take, ?length_drop, ?length_replicate, Hl; lia. }
  destruct (Z.eqb_spec c c_nl) as [->|Hnl]; [|destruct (Z.eqb_spec c BACKSPACE) as [->|Hbs]].
  - cbn [mbind option_bind]. rewrite cga_finish by (done || lia). eexists. split; [reflexivity|]. split; [apply Hok; [done|lia]|].
    split; [done|]. intros _ Hlast. assert (sc_pos sc / 80 = 23) by (assert (23 <= sc_pos sc / 80) by (apply Z.div_le_lower_bound; lia); lia).
    rewrite (proj2 (Z.leb_le _ _)) by lia. cbn [sc_crt sc_pos]. split; [done|]. intros i Hi.
    rewrite list_lookup_insert_ne, lookup_splice_ne by (rewrite ?length_app, ?length_take, ?length_drop, ?length_replicate, ?Hlen; lia).
    rewrite lookup_app_l by (rewrite length_take, length_drop, Hlen; lia). rewrite lookup_take_lt, lookup_drop by done. done.
  - cbn [mbind option_bind]. rewrite cga_finish by (done || destruct (0 <? sc_pos sc) eqn:E; lia).
    eexists. split; [reflexivity|]. split; [apply Hok; [done|]; destruct (Z.ltb_spec 0 (sc_pos sc)); lia|]. done.
  - rewrite crt_set_Some by (rewrite Hlen; lia). cbn [mbind option_bind].
    rewrite cga_finish by (rewrite ?length_insert; done || lia). eexists. split; [reflexivity|].
    split; [apply Hok; [by rewrite length_insert|lia]|]. split; [|done]. intros _ _ Hp.
    rewrite (proj2 (Z.leb_gt _ _)) by lia. done.
Qed.

Lemma cgaputc_in_bounds_witness : exists sc', cgaputc 65 (mkScreen (replicate (Z.to_nat 2000) 0) 1919) = Some sc' /\ screen_ok sc'.
Proof.
  destruct (cgaputc_in_bounds 65 (mkScreen (replicate (Z.to_nat 2000) 0) 1919)) as (sc' & H1 & H2 & _); [split; [apply length_replicate|done]|].
  by exists sc'.
Defined.

(** Every case of the keyboard handler, one by one. *)
Definition kbd_case (d sh : Z) : bool :=
  match kbdgetc 1 d sh with
  | Some (c, sh') => (0 <=? c) && (c <? 256) && (0 <=? sh') && (sh' <? 128)
  | None => false
  end.
Definition kbd_release_case (d sh : Z) : bool :=
  match kbdgetc 1 d sh with
  | Some (_, sh1) =>
      match kbdgetc 1 (d + 128) sh1 with
      | Some (c, sh2) => (c =? 0) && (sh2 =? fclr (Z.lxor sh (nth (Z.to_nat d) togglecode 0)) (nth (Z.to_nat d) shiftcode 0))
      | None => false
      end
  | None => false
  end.

Lemma forall_range (P : Z -> bool) n x : forallb (fun k => P (Z.of_nat k)) (seq 0 n) = true -> 0 <= x < Z.of_nat n -> P x = true.
Proof.
  intros H Hx. rewrite forallb_forall in H. specialize (H (Z.to_nat x)). rewrite Z2Nat.id in H by lia. apply H, in_seq. lia.
Qed.

Lemma kbd_cases d sh : 0 <= d < 256 -> 0 <= sh < 128 -> kbd_case d sh = true.
Proof.
  intros Hd Hs. revert sh Hs. apply (forall_range (fun d => forallb (fun k => kbd_case d (Z.of_nat k)) (seq 0 128)) 256 d) in Hd;
    [|by vm_compute]. intros sh. by apply (forall_range (kbd_case d) 128).
Qed.

Lemma kbd_release_cases d sh : 0 <= d < 96 -> 0 <= sh < 64 -> kbd_release_case d sh = true.
Proof.
  intros Hd Hs. revert sh Hs. apply (forall_range (fun d => forallb (fun k => kbd_release_case d (Z.of_nat k)) (seq 0 64)) 96 d) in Hd;
    [|by vm_compute]. intros sh. by apply (forall_range (kbd_release_case d) 64).
Qed.

(** For every byte of the keyboard controller and every state of the
    modifier keys, [kbdgetc] reads inside its tables, delivers a byte and keeps
    the modifier state a 7-bit set; and pressing and releasing a key clears the
    modifier it stands for, flips the lock it stands for and changes no other. *)
Theorem kbdgetc_total d sh :
  0 <= d < 256 -> 0 <= sh < 128 ->
  (exists c sh', kbdgetc 1 d sh = Some (c, sh') /\ 0 <= c < 256 /\ 0 <= sh' < 128) /\
  (d < 96 -> sh < 64 -> exists c sh1, kbdgetc 1 d sh = Some (c, sh1) /\
     kbdgetc 1 (d + 128) sh1 =
       Some (0, fclr (Z.lxor sh (nth (Z.to_nat d) togglecode 0)) (nth (Z.to_nat d) shiftcode 0))).
Proof.
  intros Hd Hs. split.
  - pose proof (kbd_cases d sh Hd Hs) as H. unfold kbd_case in H. destruct (kbdgetc 1 d sh) as [[c sh']|]; [|done].
    rewrite !andb_true_iff, !Z.leb_le, !Z.ltb_lt in H. exists c, sh'. split; [done|lia].
  - intros Hd' Hs'. pose proof (kbd_release_cases d sh ltac:(lia) ltac:(lia)) as H. unfold kbd_release_case in H.
    destruct (kbdgetc 1 d sh) as [[c sh1]|]; [|done]. exists c, sh1. split; [done|].
    destruct (kbdgetc 1 (d + 128) sh1) as [[c' sh2]|]; [|done].
    rewrite andb_true_iff, !Z.eqb_eq in H. destruct H as [-> ->]. done.
Qed.

Lemma kbdgetc_total_witness : exists c sh', kbdgetc 1 0x2A 0 = Some (c, sh') /\ 0 <= c < 256.
Proof. destruct (kbdgetc_total 0x2A 0 ltac:(done) ltac:(done)) as ((c & sh & H1 & H2 & _) & _). by exists c, sh. Defined.

(** ** The line discipline *)

(** The characters ready to be read and those of the line being edited. *)
Definition ready (i : input) : list Z := rcont INPUT_BUF (in_buf i) (in_r i) (Z.to_nat (u32 (in_w i - in_r i))).
Definition editing (i : input) : list Z := rcont INPUT_BUF (in_buf i) (in_w i) (Z.to_nat (u32 (in_e i - in_w i))).

Record input_ok (i : input) : Prop := {
  ip_len : length (in_buf i) = Z.to_nat INPUT_BUF;
  ip_r : 0 <= in_r i < 2 ^ 32;
  ip_w : 0 <= in_w i < 2 ^ 32;
  ip_e : 0 <= in_e i < 2 ^ 32;
  ip_room : u32 (in_w i - in_r i) + u32 (in_e i - in_w i) <= INPUT_BUF;
  ip_edit : Forall (fun c => c <> c_nl) (editing i)
}.

(** What typing a character does to the two lists. *)
Definition line_step (l : list Z * list Z) (c : Z) : list Z * list Z :=
  let '(done, edit) := l in
  if c =? C_ 85 then (done, [])
  else if ((c =? C_ 72) || (c =? 127))%bool then (done, removelast edit)
  else if (negb (c =? 0) && (Z.of_nat (length done + length edit) <? INPUT_BUF))%bool then
    let c := if c =? c_cr then c_nl else c in
    if ((c =? c_nl) || (c =? C_D) || (Z.of_nat (length done + length edit) + 1 =? INPUT_BUF))%bool
    then (done ++ edit ++ [c], [])
    else (done, edit ++ [c])
  else (done, edit).

Lemma inbuf_pos : 0 < INPUT_BUF.
Proof. done. Qed.
Lemma inbuf_div : (INPUT_BUF | 2 ^ 32).
Proof. by exists (2 ^ 25). Qed.

Lemma length_ready i : Z.of_nat (length (ready i)) = u32 (in_w i - in_r i).
Proof. unfold ready. rewrite length_rcont, Z2Nat.id; [done|]. apply u32_range. Qed.
Lemma length_editing i : Z.of_nat (length (editing i)) = u32 (in_e i - in_w i).
Proof. unfold editing. rewrite length_rcont, Z2Nat.id; [done|]. apply u32_range. Qed.

Lemma u32_sub_sum r w e : u32 (w - r) + u32 (e - w) < 2 ^ 32 -> u32 (e - r) = u32 (w - r) + u32 (e - w).
Proof.
  intros H. pose proof (u32_range (w - r)). pose proof (u32_range (e - w)).
  rewrite <- (u32_small (u32 (w - r) + u32 (e - w))) by lia. rewrite u32_u32_add, u32_add_u32. f_equal. lia.
Qed.

Lemma input_total i : input_ok i -> u32 (in_e i - in_r i) = Z.of_nat (length (ready i) + length (editing i)).
Proof.
  intros [_ _ _ _ H _]. rewrite Nat2Z.inj_add, length_ready, length_editing. apply u32_sub_sum. unfold INPUT_BUF in H. lia.
Qed.

(** The last character of the line being edited. *)
Lemma editing_last i : input_ok i -> in_e i <> in_w i ->
  editing i = editing (set_in_e (u32 (in_e i - 1)) i) ++ [ibuf i (in_e i - 1)] /\
  u32 (u32 (in_e i - 1) - in_w i) = u32 (in_e i - in_w i) - 1.
Proof.
  intros [Hl Hr Hw He Hroom _] Hne. pose proof (u32_range (in_e i - in_w i)) as Hx.
  assert (Hn0 : u32 (in_e i - in_w i) <> 0).
  { intros E. apply Hne. rewrite <- (u32_add_sub (in_w i) (in_e i)), E, Z.add_0_r by done. by rewrite u32_small. }
  assert (En : u32 (u32 (in_e i - 1) - in_w i) = u32 (in_e i - in_w i) - 1).
  { rewrite <- (u32_small (u32 (in_e i - in_w i) - 1)) by lia.
    replace (u32 (in_e i - 1) - in_w i) with (u32 (in_e i - 1) + (- in_w i)) by lia. rewrite u32_u32_add.
    replace (u32 (in_e i - in_w i) - 1) with (u32 (in_e i - in_w i) + (-1)) by lia. rewrite u32_u32_add. f_equal. lia. }
  split; [|done]. unfold editing. cbn [in_buf in_w in_e set_in_e]. rewrite En.
  replace (Z.to_nat (u32 (in_e i - in_w i))) with (S (Z.to_nat (u32 (in_e i - in_w i) - 1))) by lia.
  rewrite rcont_S_last. do 2 f_equal. unfold ibuf. rewrite Z2Nat.id by lia.
  assert (Ei : rindex INPUT_BUF (in_w i + (u32 (in_e i - in_w i) - 1)) = Z.to_nat (u32 (in_e i - 1) mod INPUT_BUF)).
  { unfold rindex. do 2 f_equal. replace (in_w i + (u32 (in_e i - in_w i) - 1)) with (in_w i - 1 + u32 (in_e i - in_w i)) by lia.
    rewrite u32_add_u32. f_equal. lia. }
  rewrite Ei, nth_lookup. pose proof (rindex_lookup INPUT_BUF inbuf_pos (in_buf i) (in_e i - 1) Hl) as HL.
  unfold rindex in HL. by rewrite HL.
Qed.

(** Taking back a character. *)
Lemma unedit_ok i : input_ok i -> in_e i <> in_w i ->
  let i' := set_in_e (u32 (in_e i - 1)) i in
  input_ok i' /\ ready i' = ready i /\ editing i' = removelast (editing i).
Proof.
  intros Hok Hne i'. destruct (editing_last i Hok Hne) as [E En]. fold i' in E. destruct Hok as [Hl Hr Hw He Hroom Hed].
  split; [|split; [done|by rewrite E, removelast_last]]. split; try done.
  - apply u32_range.
  - cbn [in_w in_e in_r i' set_in_e]. rewrite En. lia.
  - rewrite E in Hed. by apply Forall_app in Hed as [? _].
Qed.

(** Adding a character. *)
Definition typed (c : Z) (i : input) : input :=
  set_in_e (u32 (in_e i + 1)) (set_in_buf (<[Z.to_nat (in_e i mod INPUT_BUF) := u8 c]> (in_buf i)) i).

Lemma typed_ok i c : input_ok i -> Z.of_nat (length (ready i) + length (editing i)) < INPUT_BUF ->
  let i' := typed c i in
  ready i' = ready i /\ editing i' = editing i ++ [u8 c] /\ length (in_buf i') = Z.to_nat INPUT_BUF /\
  0 <= in_e i' < 2 ^ 32 /\ u32 (in_e i' - in_w i') = u32 (in_e i - in_w i) + 1 /\
  (in_e i' =? u32 (in_r i' + INPUT_BUF)) = (Z.of_nat (length (ready i) + length (editing i)) + 1 =? INPUT_BUF).
Proof.
  intros Hok Hlt i'. pose proof (input_total i Hok) as Htot. pose proof Hok as [Hl Hr Hw He Hroom _].
  pose proof (u32_range (in_e i - in_w i)) as Hx2. pose proof (u32_range (in_w i - in_r i)) as Hx1.
  pose proof (length_ready i) as L1. pose proof (length_editing i) as L2.
  assert (En : u32 (in_e i' - in_w i') = u32 (in_e i - in_w i) + 1).
  { cbn [in_e in_w i' typed set_in_e set_in_buf]. rewrite <- (u32_small (u32 (in_e i - in_w i) + 1)) by (unfold INPUT_BUF in *; lia).
    replace (u32 (in_e i + 1) - in_w i) with (u32 (in_e i + 1) + - in_w i) by lia. rewrite !u32_u32_add. f_equal. lia. }
  assert (Hidx : Z.to_nat (in_e i mod INPUT_BUF) = rindex INPUT_BUF (in_r i + Z.of_nat (length (ready i) + length (editing i)))).
  { rewrite <- Htot. unfold rindex. do 2 f_equal. rewrite u32_add_u32, <- (u32_small (in_e i)) at 1 by done. f_equal. lia. }
  assert (Hall : rcont INPUT_BUF (in_buf i') (in_r i) (length (ready i) + S (length (editing i))) =
                 ready i ++ editing i ++ [u8 c]).
  { cbn [in_buf i' typed set_in_e set_in_buf]. rewrite Hidx. rewrite Nat.add_succ_r.
    rewrite rcont_push by (done || apply inbuf_div). rewrite rcont_app, <- app_assoc. f_equal.
    - unfold ready at 2. f_equal. lia.
    - f_equal. unfold editing at 2. f_equal; [|lia]. rewrite L1. by apply u32_add_sub. }
  rewrite rcont_app in Hall. apply app_inj_1 in Hall as [H1 H2]; [|by rewrite length_rcont].
  split; [|split; [|split; [|split; [|split; [done|]]]]].
  - rewrite <- H1. unfold ready at 1. f_equal. cbn [in_w in_r i' typed set_in_e set_in_buf]. lia.
  - rewrite <- H2. unfold editing at 1. rewrite En. f_equal; [|lia]. rewrite L1. symmetry. by apply u32_add_sub.
  - cbn [in_buf i' typed set_in_e set_in_buf]. by rewrite length_insert.
  - apply u32_range.
  - apply eq_true_iff_eq. rewrite !Z.eqb_eq. cbn [in_e in_r i' typed set_in_e set_in_buf]. rewrite <- Htot. split.
    + intros E. rewrite <- (u32_sub_add (in_r i) INPUT_BUF) by done. rewrite <- E.
      replace (u32 (in_e i + 1) - in_r i) with (u32 (in_e i + 1) + - in_r i) by lia. rewrite u32_u32_add.
      rewrite <- (u32_small (u32 (in_e i - in_r i) + 1)) by (unfold INPUT_BUF in *; lia). rewrite u32_u32_add. f_equal. lia.
    + intros E. rewrite <- E. replace (in_r i + (u32 (in_e i - in_r i) + 1)) with (in_r i + 1 + u32 (in_e i - in_r i)) by lia.
      rewrite u32_add_u32. f_equal. lia.
Qed.

(** Ending the line. *)
Lemma commit_ok i : length (in_buf i) = Z.to_nat INPUT_BUF -> 0 <= in_r i < 2 ^ 32 -> 0 <= in_w i < 2 ^ 32 -> 0 <= in_e i < 2 ^ 32 ->
  u32 (in_w i - in_r i) + u32 (in_e i - in_w i) <= INPUT_BUF ->
  let i' := set_in_w (in_e i) i in
  input_ok i' /\ ready i' = ready i ++ editing i /\ editing i' = [].
Proof.
  intros Hl Hr Hw He Hroom i'. pose proof (u32_range (in_e i - in_w i)). pose proof (u32_range (in_w i - in_r i)).
  assert (Et : u32 (in_e i - in_r i) = u32 (in_w i - in_r i) + u32 (in_e i - in_w i)).
  { apply u32_sub_sum. unfold INPUT_BUF in *. lia. }
  assert (E0 : u32 (in_e i - in_e i) = 0) by (by rewrite Z.sub_diag).
  assert (Ee : editing i' = []) by (unfold editing; cbn [in_e in_w i' set_in_w]; by rewrite E0).
  split; [|split; [|done]].
  - split; try done; [cbn [in_r in_w in_e i' set_in_w]; lia|by rewrite Ee].
  - unfold ready, editing. cbn [in_r in_w in_e in_buf i' set_in_w]. rewrite Et, Z2Nat.inj_add, rcont_app by lia.
    f_equal. f_equal. rewrite Z2Nat.id by lia. by apply u32_add_sub.
Qed.

(** No process sleeps waiting for input. *)
Definition no_reader_asleep (s : kstate) : Prop :=
  Forall (fun p => ~ (p_state p = SLEEPING /\ p_chan p = Some C_input)) (k_ptable s).

(** What the handler changes. *)
Definition intr_frame (s s' : kstate) : Prop :=
  s' = set_k_input (k_input s') (set_k_out (k_out s') (set_k_ptable (k_ptable s') s)).

#[global] Instance intr_frame_refl : Reflexive intr_frame.
Proof. by intros []. Qed.
#[global] Instance intr_frame_trans : Transitive intr_frame.
Proof. intros s1 s2 s3 E1 E2. unfold intr_frame in *. rewrite E2, E1. by destruct s3. Qed.

Lemma intr_frame_held s s' : intr_frame s s' -> k_held s' = k_held s.
Proof. intros ->. done. Qed.

(** The result of handling characters [cs]. *)
Record handled (s s' : kstate) (cs : list Z) : Prop := {
  hd_frame : intr_frame s s';
  hd_ok : input_ok (k_input s');
  hd_lines : (ready (k_input s'), editing (k_input s')) = foldl line_step (ready (k_input s), editing (k_input s)) cs;
  hd_wake : (ready (k_input s') = ready (k_input s) /\ k_ptable s' = k_ptable s) \/ no_reader_asleep s'
}.

Lemma wake_all c s : no_reader_asleep (set_k_ptable (map (wake_one (Some C_input)) (k_ptable s)) c).
Proof.
  unfold no_reader_asleep. ksimp. rewrite Forall_map. apply Forall_forall. intros p _ [H1 H2].
  unfold wake_one in H1, H2. destruct (bool_decide (p_state p = SLEEPING)) eqn:E1, (bool_decide (p_chan p = Some C_input)) eqn:E2;
    cbn in H1, H2; try discriminate H1; apply bool_decide_eq_false in E1 || apply bool_decide_eq_false in E2; done.
Qed.

Lemma kill_line_run fuel : forall s, input_ok (k_input s) -> u32 (in_e (k_input s) - in_w (k_input s)) < Z.of_nat fuel ->
  exists s', kill_line fuel s = Ret tt s' /\ intr_frame s s' /\ input_ok (k_input s') /\
    ready (k_input s') = ready (k_input s) /\ editing (k_input s') = [] /\ k_ptable s' = k_ptable s.
Proof.
  induction fuel as [|fuel IH]; intros s Hok Hf; [pose proof (u32_range (in_e (k_input s) - in_w (k_input s))); lia|].
  cbn [kill_line]. rewrite (bind_Ret _ _ _ _ _ (eq_refl : gets k_input s = Ret (k_input s) s)).
  destruct (Z.eqb_spec (in_e (k_input s)) (in_w (k_input s))) as [E|E]; cbn [negb andb].
  - exists s. split; [done|]. split; [done|]. split; [done|]. split; [done|]. split; [|done].
    unfold editing. rewrite E, Z.sub_diag. done.
  - destruct (editing_last _ Hok E) as [El En]. destruct (unedit_ok _ Hok E) as (Hok' & Hr & He).
    assert (Hc : (ibuf (k_input s) (in_e (k_input s) - 1) =? c_nl) = false).
    { apply Z.eqb_neq. destruct Hok as [_ _ _ _ _ Hed]. rewrite El in Hed. apply Forall_app in Hed as [_ Hed]. by apply Forall_inv in Hed. }
    rewrite Hc. cbn [negb]. set (i' := set_in_e _ _) in *.
    set (s1 := set_k_out (k_out s ++ [BACKSPACE]) (set_k_input i' s)).
    destruct (IH s1) as (s' & R & F & O & Q & Q2 & P); [done|unfold s1; ksimp; unfold i'; ksimp; rewrite En; lia|].
    exists s'. split; [exact R|]. split; [etrans; [|exact F]; by destruct s|]. split; [done|]. split; [by rewrite Q|]. done.
Qed.

Lemma consoleintr_char_run s c : input_ok (k_input s) -> L_ptable ∉ k_held s -> 0 <= c < 256 -> c <> C_ 80 ->
  exists s', consoleintr_char c s = Ret tt s' /\ handled s s' [c].
Proof.
  intros Hok Hl Hc Hp. unfold consoleintr_char. rewrite (proj2 (Z.eqb_neq _ _)) by done.
  set (i := k_input s) in *. destruct (Z.eqb_spec c (C_ 85)) as [->|HU].
  { destruct (kill_line_run (S (Z.to_nat INPUT_BUF)) s Hok) as (s' & R & F & O & Q & Q2 & P).
    { pose proof (u32_range (in_w i - in_r i)). fold i. destruct Hok. unfold INPUT_BUF in *. lia. }
    exists s'. split; [done|]. split; [done|done| |by left]. cbn. by rewrite Q, Q2. }
  destruct ((c =? C_ 72) || (c =? 127)) eqn:EB.
  { rewrite (bind_Ret _ _ _ _ _ (eq_refl : gets k_input s = Ret i s)).
    destruct (Z.eqb_spec (in_e i) (in_w i)) as [E|E]; cbn [negb].
    - exists s. split; [done|]. split; [done|done| |by left]. cbn [foldl line_step]. rewrite (proj2 (Z.eqb_neq _ _) HU), EB.
      unfold editing. fold i. rewrite E, Z.sub_diag. done.
    - destruct (unedit_ok _ Hok E) as (Hok' & Hr & He). eexists. split; [reflexivity|].
      split; [by destruct s|exact Hok'| |left; done]. set (i' := set_in_e _ i) in *.
      change ((ready i', editing i') = line_step (ready i, editing i) c). unfold line_step.
      rewrite (proj2 (Z.eqb_neq _ _) HU), EB. by rewrite He, Hr. }
  rewrite (bind_Ret _ _ _ _ _ (eq_refl : gets k_input s = Ret i s)). rewrite (input_total i Hok).
  destruct (negb (c =? 0) && (Z.of_nat (length (ready i) + length (editing i)) <? INPUT_BUF)) eqn:ED.
  2:{ exists s. split; [done|]. split; [done|done| |by left]. cbn [foldl line_step]. fold i. rewrite (proj2 (Z.eqb_neq _ _) HU), EB, ED. done. }
  apply andb_true_iff in ED as ED'. destruct ED' as [_ Hlt%Z.ltb_lt]. set (c' := if c =? c_cr then c_nl else c).
  assert (Hc' : u8 c' = c') by (apply u8_small; subst c'; unfold c_nl; destruct (c =? c_cr); lia).
  destruct (typed_ok i c' Hok Hlt) as (T1 & T2 & T3 & T4 & T5 & T6). set (i1 := typed c' i) in *. rewrite Hc' in T2.
  set (s1 := set_k_out (k_out s ++ [c']) (set_k_input i1 s)).
  assert (Hroom1 : u32 (in_w i1 - in_r i1) + u32 (in_e i1 - in_w i1) <= INPUT_BUF).
  { rewrite T5. pose proof (length_ready i) as L1. pose proof (length_editing i) as L2.
    change (in_w i1) with (in_w i). change (in_r i1) with (in_r i). lia. }
  change (exists s', (i2 ← gets k_input; if ((c' =? c_nl) || (c' =? C_D) || (in_e i2 =? u32 (in_r i2 + INPUT_BUF)))%bool
    then upd_input (fun i => set_in_w (in_e i) i) ;; wakeup C_input else mret tt) s1 = Ret tt s' /\ handled s s' [c]).
  rewrite (bind_Ret _ _ _ _ _ (eq_refl : gets k_input s1 = Ret i1 s1)). rewrite T6.
  destruct ((c' =? c_nl) || (c' =? C_D) || (Z.of_nat (length (ready i) + length (editing i)) + 1 =? INPUT_BUF)) eqn:EC.
  - destruct (commit_ok i1) as (C1 & C2 & C3); try done; [by destruct Hok..|]. set (i2 := set_in_w (in_e i1) i1) in *.
    set (s2 := set_k_input i2 s1). eexists. split.
    + rewrite (bind_Ret _ _ _ _ _ (eq_refl : upd_input (fun i => set_in_w (in_e i) i) s1 = Ret tt s2)).
      by apply wakeup_Ret.
    + split; [by destruct s|exact C1| |right; apply wake_all].
      change ((ready i2, editing i2) = line_step (ready i, editing i) c). unfold line_step. rewrite (proj2 (Z.eqb_neq _ _) HU), EB, ED. fold c'. rewrite EC, C2, C3, T1, T2. by rewrite app_assoc.
  - exists s1. split; [done|]. split; [by destruct s| | |left; done].
    + destruct Hok. change (input_ok i1). split; try done. rewrite T2. apply Forall_app. split; [done|]. constructor; [|done].
      rewrite !orb_false_iff, !Z.eqb_neq in EC. tauto.
    + change ((ready i1, editing i1) = line_step (ready i, editing i) c). unfold line_step.
      rewrite (proj2 (Z.eqb_neq _ _) HU), EB, ED. fold c'. by rewrite EC, T1, T2.
Qed.

Lemma consoleintr_loop_run cs : forall s, input_ok (k_input s) -> L_ptable ∉ k_held s ->
  Forall (fun c => 0 <= c < 256 /\ c <> C_ 80) cs ->
  exists s', consoleintr_loop cs s = Ret tt s' /\ handled s s' cs.
Proof.
  induction cs as [|c cs IH]; intros s Hok Hl Hcs; [by exists s; split; [|split; [| | |left]]|].
  apply Forall_cons in Hcs as [[Hc Hp] Hcs]. destruct (consoleintr_char_run s c Hok Hl Hc Hp) as (s1 & R1 & [F1 O1 L1 W1]).
  destruct (IH s1 O1) as (s2 & R2 & [F2 O2 L2 W2]); [by rewrite (intr_frame_held _ _ F1)|done|].
  exists s2. split; [cbn [consoleintr_loop]; by rewrite (bind_Ret _ _ _ _ _ R1)|].
  split; [by etrans|done|rewrite L2; cbn [foldl] in *; by rewrite L1|].
  destruct W2 as [[E1 E2]|W2]; [|by right]. destruct W1 as [[E3 E4]|W1]; [left; split; congruence|right].
  unfold no_reader_asleep in *. by rewrite E2.
Qed.

(** The console interrupt handler implements a line discipline: for any
    sequence of characters other than the process-listing key, the characters
    ready for readers and the line being edited become what [line_step] says,
    character by character (^U drops the line, backspace its last character,
    a new line, ^D or a full buffer ends it), also when the counters wrap; and
    when characters became ready no process is left sleeping for input. *)
Theorem consoleintr_line_discipline s cs :
  input_ok (k_input s) -> L_ptable ∉ k_held s -> L_input ∉ k_held s ->
  Forall (fun c => 0 <= c < 256 /\ c <> C_ 80) cs ->
  exists s', consoleintr cs s = Ret tt s' /\ input_ok (k_input s') /\ k_held s' = k_held s /\
    (ready (k_input s'), editing (k_input s')) =
      foldl line_step (ready (k_input s), editing (k_input s)) cs /\
    (ready (k_input s') <> ready (k_input s) -> no_reader_asleep s').
Proof.
  intros Hok Hl Hi Hcs. unfold consoleintr. rewrite (bind_Ret _ _ _ _ _ (acquire_free L_input s Hi)).
  set (s0 := set_k_held (L_input :: k_held s) s).
  destruct (consoleintr_loop_run cs s0 Hok) as (s1 & R1 & [F1 O1 L1 W1]); [|done|].
  { unfold s0. ksimp. rewrite not_elem_of_cons. done. }
  rewrite (bind_Ret _ _ _ _ _ R1), (release_held _ _ (k_held s)) by (done || by rewrite (intr_frame_held _ _ F1)).
  eexists. split; [reflexivity|]. split; [done|]. split; [done|]. split; [done|].
  intros Hne. destruct W1 as [[E _]|W]; [by destruct Hne|done].
Qed.

Lemma consoleintr_line_discipline_witness : exists s', consoleintr [104; 105; 8; 13] (kzero ∅ (mkDisk 0 ∅ [])) = Ret tt s' /\
  ready (k_input s') = [104; 10].
Proof.
  destruct (consoleintr_line_discipline (kzero ∅ (mkDisk 0 ∅ [])) [104; 105; 8; 13]) as (s' & R & _ & _ & L & _).
  - split; try done.
  - apply not_elem_of_nil.
  - apply not_elem_of_nil.
  - repeat constructor; done.
  - exists s'. split; [done|]. by injection L as -> _.
Defined.

(** ** Reading lines *)

(** What a reader that wants [n] bytes takes from the ready characters, when
    [some] says whether it already has bytes: the bytes, what stays, and
    whether the read is complete (otherwise it waits). *)
Fixpoint read_line (n : nat) (some : bool) (l : list Z) : list Z * list Z * bool :=
  match n with
  | O => ([], l, true)
  | S n' =>
      match l with
      | [] => ([], [], false)
      | c :: l' =>
          if c =? C_D then ([], if some then l else l', true)
          else if c =? c_nl then ([c], l', true)
          else let '(o, r, b) := read_line n' true l' in (c :: o, r, b)
      end
  end.

Lemma ready_empty i : input_ok i -> (in_r i =? in_w i) = bool_decide (ready i = []).
Proof.
  intros [_ Hr Hw _ _ _]. apply eq_true_iff_eq. rewrite Z.eqb_eq, bool_decide_eq_true. split.
  - intros E. unfold ready. rewrite E, Z.sub_diag. done.
  - intros E. pose proof (length_ready i) as L. rewrite E in L. cbn in L.
    rewrite <- (u32_add_sub (in_r i) (in_w i)) by done. rewrite <- L, Z.add_0_r. by rewrite u32_small.
Qed.

(** Taking the first ready character. *)
Lemma take_ok i c l : input_ok i -> ready i = c :: l ->
  let i' := set_in_r (u32 (in_r i + 1)) i in
  ibuf i (in_r i) = c /\ input_ok i' /\ ready i' = l /\ editing i' = editing i /\
  set_in_r (u32 (in_r i' - 1)) i' = i.
Proof.
  intros [Hl Hr Hw He Hroom Hed] E i'. pose proof (length_ready i) as L. rewrite E in L. cbn [length] in L.
  pose proof (u32_range (in_e i - in_w i)). pose proof (u32_range (in_w i - in_r i)).
  assert (En : u32 (in_w i - u32 (in_r i + 1)) = u32 (in_w i - in_r i) - 1).
  { rewrite <- (u32_small (u32 (in_w i - in_r i) - 1)) by lia. unfold u32. rewrite Zminus_mod_idemp_r, Zminus_mod_idemp_l. f_equal. lia. }
  unfold ready in E. rewrite <- L in E. replace (Z.to_nat (Z.of_nat (S (length l)))) with (S (length l)) in E by lia.
  rewrite rcont_pop in E. injection E as E1 E2. split.
  - rewrite <- E1. unfold ibuf. rewrite nth_lookup. pose proof (rindex_lookup INPUT_BUF inbuf_pos (in_buf i) (in_r i) Hl) as HL.
    unfold rindex in *. by rewrite HL.
  - assert (Er : ready i' = l).
    { rewrite <- E2. unfold ready. cbn [in_w in_r in_buf i' set_in_r]. rewrite En. f_equal. lia. }
    split; [|split; [done|split; [done|]]].
    + split; try done; [apply u32_range|]. cbn [in_w in_r in_e i' set_in_r]. rewrite En. lia.
    + unfold i'. ksimp. replace (u32 (u32 (in_r i + 1) - 1)) with (in_r i); [by destruct i|].
      replace (u32 (in_r i + 1) - 1) with (u32 (in_r i + 1) + -1) by lia. rewrite u32_u32_add, <- (u32_small (in_r i)) at 1 by done. f_equal. lia.
Qed.

(** One run of the loop of [consoleread] by a process that is not killed
    takes from the ready characters exactly what [read_line] says: up to a new
    line or the count, an end-of-file mark only when it comes first; it then
    returns the number of bytes, or, when the characters run out, sleeps on
    the input with the lock released. *)
Theorem consoleread_takes_line n target dst s me p :
  input_ok (k_input s) -> k_held s = [L_input] -> k_proc s = Some me -> k_ptable s !! me = Some p -> p_killed p = 0 ->
  Z.of_nat (length dst) + Z.of_nat n = target ->
  let '(o, rest, complete) := read_line n (negb (bool_decide (dst = []))) (ready (k_input s)) in
  exists s', ready (k_input s') = rest /\ editing (k_input s') = editing (k_input s) /\ input_ok (k_input s') /\
    if complete
    then consoleread_loop n target dst s = Ret (Z.of_nat (length (dst ++ o)), dst ++ o) s' /\ k_held s' = [L_input]
    else consoleread_loop n target dst s = Stop Switch s' /\
         k_ptable s' !! me = Some (set_p_state SLEEPING (set_p_chan (Some C_input) p)) /\ L_input ∉ k_held s'.
Proof.
  revert dst s. induction n as [|n IH]; intros dst s Hok Hh Hme Hp Hk Ht; cbn [read_line consoleread_loop].
  { exists s. split; [done|]. split; [done|]. split; [done|]. rewrite app_nil_r. split; [|done]. by replace target with (Z.of_nat (length dst)) by lia. }
  set (i := k_input s) in *. rewrite (bind_Ret _ _ _ _ _ (eq_refl : gets k_input s = Ret i s)), (ready_empty i Hok).
  destruct (ready i) as [|c l] eqn:El.
  { rewrite bool_decide_eq_true_2 by done. unfold killed. rewrite bind_assoc, (bind_Ret _ _ _ _ _ (myproc_Ret s me Hme)), bind_assoc.
    rewrite (bind_Ret _ _ _ _ _ (get_proc_Ret me s p Hp)), ret_bind, Hk. change (negb (0 =? 0)) with false. cbv iota.
    rewrite (block_run C_input L_input me p s) by done.
    match goal with |- context [Stop Switch ?x] => exists x end. split; [exact El|]. split; [done|]. split; [done|].
    split; [reflexivity|]. ksimp. split; [|apply not_elem_of_cons; split; [done|apply not_elem_of_nil]].
    apply list_lookup_insert_eq. by eapply lookup_lt_Some. }
  rewrite (bool_decide_eq_false_2 (c :: l = [])) by done. destruct (take_ok i c l Hok El) as (Ec & Hok' & Er & Ee & Eback). rewrite Ec.
  set (i' := set_in_r (u32 (in_r i + 1)) i) in *. set (s1 := set_k_input i' s).
  cbv zeta. rewrite (bind_Ret _ _ _ _ _ (eq_refl : upd_input (fun i => set_in_r (u32 (in_r i + 1)) i) s = Ret tt s1)).
  destruct (c =? C_D) eqn:ED; [|destruct (c =? c_nl) eqn:EN].
  - assert (Eret : target - Z.of_nat (S n) = Z.of_nat (length (dst ++ []))) by (rewrite app_nil_r; lia).
    rewrite Eret, app_nil_r. destruct (decide (dst = [])) as [->|Hd].
    + rewrite (proj2 (Z.ltb_ge _ _)) by (cbn in Ht; lia). rewrite bool_decide_eq_true_2 by done. cbn [negb]. by exists s1.
    + rewrite (proj2 (Z.ltb_lt _ _)) by (destruct dst; cbn [length] in Ht; [done|lia]). rewrite bool_decide_eq_false_2 by done.
      cbn [negb]. assert (Es : set_k_input (set_in_r (u32 (in_r i' - 1)) i') s1 = s) by (rewrite Eback; by destruct s).
      exists s. split; [exact El|]. split; [done|]. split; [done|]. split; [|done].
      rewrite (bind_Ret _ _ _ _ _ (eq_refl : upd_input (fun i => set_in_r (u32 (in_r i - 1)) i) s1 = Ret tt (set_k_input _ s1))).
      change (k_input s1) with i'. by rewrite Es.
  - exists s1. split; [done|]. split; [done|]. split; [done|]. split; [|done]. rewrite length_app. cbn [length].
    do 2 f_equal. lia.
  - specialize (IH (dst ++ [c]) s1 Hok' Hh Hme Hp Hk). rewrite bool_decide_eq_false_2 in IH by (by destruct dst). cbn [negb] in IH.
    change (k_input s1) with i' in IH. rewrite Er, Ee in IH. specialize (IH ltac:(rewrite length_app; cbn [length]; lia)).
    destruct (read_line n true l) as [[o rest] b]. destruct IH as (s' & H1 & H2 & H3 & H4). exists s'.
    split; [done|]. split; [done|]. split; [done|]. by rewrite <- app_assoc in H4.
Qed.

Lemma consoleread_takes_line_witness :
  exists s s', ready (k_input s) = [104; 105; 10] /\ consoleread_loop 2 2 [] s = Ret (2, [104; 105]) s' /\ ready (k_input s') = [10].
Proof.
  set (s := set_k_held [L_input] (set_k_proc (Some 0%nat)
    (set_k_input (mkInput ([104; 105; 10] ++ replicate 125 0) 0 3 3) (kzero ∅ (mkDisk 0 ∅ []))))).
  assert (E : ready (k_input s) = [104; 105; 10]) by done.
  pose proof (consoleread_takes_line 2 2 [] s 0 proc0) as H. rewrite E in H.
  destruct H as (s' & H1 & _ & _ & H2 & _); try done.
  by exists s, s'.
Defined.
