(* ===== verification/Fileio.v ===== *)
(** * Reading and writing files, directories and paths: src/xv6/fs.c from readi on

    Bytes read are returned as a list, bytes to be written are passed as one;
    a C string is the list of its characters before the NUL.  The loops take
    as fuel the number of blocks, of directory entries or of path characters,
    plus what the final test needs.

    The theorems say that [readi] returns the bytes of the file ([fdata])
    and that [writei] changes exactly the bytes written and the size; Dir.v has
    the theorems on directories and paths. *)

From stdpp Require Import base list list_numbers numbers gmap strings fin_sets.
From Stdlib Require Import ZArith Lia.
From S2P Require Import Prelude Mem KState Sched Bio Cache Log Block Inode Bmap Console.

(** ** Inode content *)

Definition min_ (a b : Z) : Z := if a <? b then a else b.

(** The call through devsw[major]; console.c installs the only functions. *)
Definition dev_ready (v : inode) (devsw : list bool) : bool :=
  negb ((i_major v <? 0) || (Z.of_nat NDEV <=? i_major v) || negb (nth (Z.to_nat (i_major v)) devsw false)).

(** The loop of [readi]. *)
Fixpoint readi_loop (ip : nat) (fuel : nat) (tot off n : Z) : K (list Z) :=
  match fuel with
  | O => stop NoFuel
  | S fuel' =>
      if tot <? n then
        v ← get_inode ip;
        addr ← bmap ip (off / Z.of_nat BSIZE);
        bp ← bread (i_dev v) addr;
        b ← get_buf bp;
        let m := min_ (n - tot) (Z.of_nat BSIZE - off mod Z.of_nat BSIZE) in
        let d := slice (b_data b) (Z.to_nat (off mod Z.of_nat BSIZE)) (Z.to_nat m) in
        brelse bp ;;
        l ← readi_loop ip fuel' (tot + m) (off + m) n;
        mret (d ++ l)
      else mret []
  end.

Definition readi (ip : nat) (off n : Z) : K (Z * list Z) :=
  v ← get_inode ip;
  devsw ← gets k_devsw;
  if i_type v =? T_DEV then
    if dev_ready v devsw then consoleread ip (s32 n) else mret (-1, [])
  else if ((i_size v <? off) || (u32 (off + n) <? off))%bool then mret (-1, [])
  else
    let n := if i_size v <? u32 (off + n) then u32 (i_size v - off) else n in
    l ← readi_loop ip (Z.to_nat (n / Z.of_nat BSIZE + 3)) 0 off n;
    mret (s32 n, l).

(** The loop of [writei]; [src] are the bytes not yet written. *)
Fixpoint writei_loop (ip : nat) (fuel : nat) (off : Z) (src : list Z) : K Z :=
  match fuel with
  | O => stop NoFuel
  | S fuel' =>
      if 0 <? Z.of_nat (length src) then
        v ← get_inode ip;
        addr ← bmap ip (off / Z.of_nat BSIZE);
        bp ← bread (i_dev v) addr;
        let m := min_ (Z.of_nat (length src)) (Z.of_nat BSIZE - off mod Z.of_nat BSIZE) in
        upd_buf bp (fun b => set_b_data
          (splice (b_data b) (Z.to_nat (off mod Z.of_nat BSIZE)) (take (Z.to_nat m) src)) b) ;;
        log_write bp ;;
        brelse bp ;;
        writei_loop ip fuel' (off + m) (drop (Z.to_nat m) src)
      else mret off
  end.

Definition writei (ip : nat) (src : list Z) (off : Z) : K Z :=
  let n := Z.of_nat (length src) in
  v ← get_inode ip;
  devsw ← gets k_devsw;
  if i_type v =? T_DEV then
    if dev_ready v devsw then consolewrite ip src else mret (-1)
  else if ((i_size v <? off) || (u32 (off + n) <? off))%bool then mret (-1)
  else if Z.of_nat (MAXFILE * BSIZE) <? u32 (off + n) then mret (-1)
  else
    off ← writei_loop ip (Z.to_nat (n / Z.of_nat BSIZE + 3)) off src;
    v ← get_inode ip;
    (if ((0 <? n) && (i_size v <? off))%bool then
       upd_inode ip (set_i_size off) ;;
       iupdate ip
     else mret tt) ;;
    mret (s32 n).

(** ** Directories *)

Definition DIRSIZ : nat := 14.
Definition sizeof_dirent : nat := 16.
Definition de_inum (de : list Z) : Z := le_dec (slice de 0 2).
Definition de_name (de : list Z) : list Z := slice de 2 DIRSIZ.

(** string.c: strncmp and strncpy, on strings whose end is a NUL. *)
Fixpoint strncmp_ (n : nat) (p q : list Z) : Z :=
  match n with
  | O => 0
  | S n' =>
      let a := hd 0 p in
      let b := hd 0 q in
      if (negb (a =? 0) && (a =? b))%bool then strncmp_ n' (tail p) (tail q) else u8 a - u8 b
  end.
Fixpoint strncpy_ (n : nat) (t : list Z) : list Z :=
  match n with
  | O => []
  | S n' =>
      match t with
      | [] => replicate n 0
      | c :: t' => if c =? 0 then replicate n 0 else c :: strncpy_ n' t'
      end
  end.

Definition namecmp (s t : list Z) : Z := strncmp_ DIRSIZ s t.

Fixpoint dirlookup_loop (dp : nat) (name : list Z) (fuel : nat) (off : Z) : K (option (nat * Z)) :=
  match fuel with
  | O => stop NoFuel
  | S fuel' =>
      v ← get_inode dp;
      if off <? i_size v then
        r ← readi dp off (Z.of_nat sizeof_dirent);
        let de := r.2 in
        if negb (r.1 =? Z.of_nat sizeof_dirent) then panic "dirlink read"
        else if de_inum de =? 0 then dirlookup_loop dp name fuel' (u32 (off + Z.of_nat sizeof_dirent))
        else if namecmp name (de_name de) =? 0 then
          ip ← iget (i_dev v) (de_inum de);
          mret (Some (ip, off))
        else dirlookup_loop dp name fuel' (u32 (off + Z.of_nat sizeof_dirent))
      else mret None
  end.

(** The inode found, with the offset of its entry. *)
Definition dirlookup (dp : nat) (name : list Z) : K (option (nat * Z)) :=
  v ← get_inode dp;
  if negb (i_type v =? T_DIR) then panic "dirlookup not DIR"
  else dirlookup_loop dp name (Z.to_nat (i_size v / Z.of_nat sizeof_dirent + 2)) 0.

(** The loop of [dirlink] that looks for an empty entry: its offset. *)
Fixpoint dirlink_loop (dp : nat) (fuel : nat) (off : Z) : K Z :=
  match fuel with
  | O => stop NoFuel
  | S fuel' =>
      v ← get_inode dp;
      if u32 off <? i_size v then
        r ← readi dp (u32 off) (Z.of_nat sizeof_dirent);
        if negb (r.1 =? Z.of_nat sizeof_dirent) then panic "dirlink read"
        else if de_inum r.2 =? 0 then mret off
        else dirlink_loop dp fuel' (off + Z.of_nat sizeof_dirent)
      else mret off
  end.

Definition dirlink (dp : nat) (name : list Z) (inum : Z) : K Z :=
  found ← dirlookup dp name;
  match found with
  | Some (ip, _) => iput ip ;; mret (-1)
  | None =>
      v ← get_inode dp;
      off ← dirlink_loop dp (Z.to_nat (i_size v / Z.of_nat sizeof_dirent + 2)) 0;
      r ← writei dp (le_enc 2 (u16 inum) ++ strncpy_ DIRSIZ name) (u32 off);
      if negb (r =? Z.of_nat sizeof_dirent) then panic "dirlink" else mret 0
  end.

(** ** Paths *)

Definition c_slash : Z := 47.
Fixpoint skip_slashes (path : list Z) : list Z :=
  match path with
  | [] => []
  | c :: path' => if c =? c_slash then skip_slashes path' else path
  end.
(** The characters up to the next slash, and the rest. *)
Fixpoint cut_elem (path : list Z) : list Z * list Z :=
  match path with
  | [] => ([], [])
  | c :: path' => if c =? c_slash then ([], path) else let '(e, r) := cut_elem path' in (c :: e, r)
  end.

(** The element, cut to [DIRSIZ] characters, and the path after it. *)
Definition skipelem (path : list Z) : option (list Z * list Z) :=
  match skip_slashes path with
  | [] => None
  | path => let '(e, r) := cut_elem path in Some (take DIRSIZ e, skip_slashes r)
  end.

Definition ROOTINO : Z := 1.

Fixpoint namex_loop (nameiparent : bool) (fuel : nat) (ip : nat) (path name : list Z) : K (option (nat * list Z)) :=
  match fuel with
  | O => stop NoFuel
  | S fuel' =>
      match skipelem path with
      | None => if nameiparent then iput ip ;; mret None else mret (Some (ip, name))
      | Some (name, path) =>
          ilock ip ;;
          v ← get_inode ip;
          if negb (i_type v =? T_DIR) then iunlockput ip ;; mret None
          else if (nameiparent && bool_decide (path = []))%bool then
            iunlock ip ;; mret (Some (ip, name))
          else
            next ← dirlookup ip name;
            match next with
            | None => iunlockput ip ;; mret None
            | Some (next, _) => iunlockput ip ;; namex_loop nameiparent fuel' next path name
            end
      end
  end.

Definition namex (path : list Z) (nameiparent : bool) : K (option (nat * list Z)) :=
  ip ← (if hd 0 path =? c_slash then iget ROOTDEV ROOTINO
        else me ← myproc; q ← get_proc me; cwd ← deref (p_cwd q); idup cwd);
  namex_loop nameiparent (S (length path)) ip path [].

Definition namei (path : list Z) : K (option nat) :=
  r ← namex path false; mret (fst <$> r).
Definition nameiparent (path : list Z) : K (option (nat * list Z)) := namex path true.

(** ** Reading *)

(** A range of the file. *)
Definition fbytes (s : kstate) (v : inode) (off n : nat) : list Z := map (fdata s v) (seq off n).

Lemma fbytes_app s v off n m : fbytes s v off (n + m) = fbytes s v off n ++ fbytes s v (off + n) m.
Proof. unfold fbytes. by rewrite seq_app, map_app. Qed.

Lemma length_fbytes s v off n : length (fbytes s v off n) = n.
Proof. unfold fbytes. by rewrite length_map, length_seq. Qed.

Lemma fdata_ext s s' v o : (forall m, view s' m = view s m) -> fdata s' v o = fdata s v o.
Proof. intros V. unfold fdata. rewrite (blk_of_view s s') by auto. by rewrite V. Qed.

Lemma fbytes_ext s s' v off n : (forall m, view s' m = view s m) -> fbytes s' v off n = fbytes s v off n.
Proof. intros V. apply map_ext. intros o. by apply fdata_ext. Qed.

Lemma same_block off i : (off mod BSIZE + i < BSIZE)%nat ->
  ((off + i) / BSIZE = off / BSIZE)%nat /\ ((off + i) mod BSIZE = off mod BSIZE + i)%nat.
Proof.
  intros H. pose proof (Nat.div_mod_eq off BSIZE) as E. split.
  - symmetry. apply (Nat.div_unique _ _ _ (off mod BSIZE + i)); lia.
  - symmetry. apply (Nat.mod_unique _ _ (off / BSIZE)); lia.
Qed.

(** A part of one block. *)
Lemma slice_fdata s v off m :
  (off mod BSIZE + m <= BSIZE)%nat -> blk_of s v (off / BSIZE) <> 0 -> length (view s (blk_of s v (off / BSIZE))) = BSIZE ->
  slice (view s (blk_of s v (off / BSIZE))) (off mod BSIZE) m = fbytes s v off m.
Proof.
  intros Hm Hb Hl. apply list_eq. intros i. unfold slice, fbytes. destruct (decide (i < m)%nat) as [Hi|Hi].
  - rewrite lookup_take_lt, lookup_drop, list_lookup_fmap, lookup_seq_lt by done. cbn.
    destruct (same_block off i ltac:(lia)) as [E1 E2]. unfold fdata. rewrite E1, E2.
    rewrite (proj2 (Z.eqb_neq _ _)) by done. rewrite nth_lookup.
    destruct (lookup_lt_is_Some_2 (view s (blk_of s v (off / BSIZE))) (off mod BSIZE + i)) as [x Hx]; [lia|]. by rewrite Hx.
  - rewrite lookup_take_ge by lia. rewrite list_lookup_fmap, lookup_seq_ge by lia. done.
Qed.

(** Every block of the file below its size is mapped, to a block of the disk. *)
Record readable (s : kstate) (v : inode) : Prop := {
  rd_dev : i_dev v = 1;
  rd_len : length (i_addrs v) = (NDIRECT + 1)%nat;
  rd_size : 0 <= i_size v <= Z.of_nat (MAXFILE * BSIZE);
  rd_ind : ind_of v <> 0 -> ind_of v < dk_size (k_disk s);
  rd_blk : forall bn, Z.of_nat (bn * BSIZE) < i_size v -> blk_of s v bn <> 0 /\ blk_of s v bn < dk_size (k_disk s)
}.

(** Between two blocks, nobody changes the cache: the states a reader passes. *)
Record reading (s s' : kstate) (D : gset Z) : Prop := {
  rg_frame : cframe s s';
  rg_disk : k_disk s' = k_disk s;
  rg_cabs : cabs s' D ∅;
  rg_view : forall m, view s' m = view s m
}.

Lemma reading_trans s1 s2 s3 D : reading s1 s2 D -> reading s2 s3 D -> reading s1 s3 D.
Proof. intros [] []. split; [by etrans|congruence|done|congruence]. Qed.

Lemma reading_readable s s' D v : reading s s' D -> readable s v -> readable s' v.
Proof.
  intros [F Ed C V] []. split; try done; rewrite ?Ed; [done|]. intros bn Hb.
  rewrite (blk_of_view s s') by auto. auto.
Qed.

(** Reading one block. *)
Lemma cabs_read {A} s D n (f : list Z -> K A) :
  cabs s D ∅ -> (size D < NBUF)%nat -> n < dk_size (k_disk s) ->
  exists s', reading s s' D /\ (i ← bread 1 n; b ← get_buf i; brelse i ;; f (b_data b)) s = f (view s n) s'.
Proof.
  intros Hc Hsz Hn.
  destruct (bread_cabs s D ∅ n Hc) as (i & s1 & R1 & F1 & D1 & C1 & O1 & V1 & _);
    [apply not_elem_of_empty|done|right; by rewrite union_empty_r_L|]. rewrite union_empty_r_L in C1.
  destruct (owns_get _ _ _ _ _ O1) as (b & G & Hb & _).
  destruct (brelse_cabs s1 D _ i n (view s n) _ C1 O1) as (s2 & R2 & F2 & D2 & C2 & V2 & _).
  { intros E%bool_decide_eq_false. rewrite D1. eapply cabs_clean; [done|done|apply not_elem_of_empty]. }
  exists s2. rewrite difference_diag_L in C2. split.
  - split; [by etrans|by rewrite D2|done|]. intros m. by rewrite V2, V1.
  - kstep R1. kstep G. kstep R2. by rewrite Hb.
Qed.

Lemma bmap_lookup s D ip v bn :
  cabs s D ∅ -> (size D < NBUF)%nat -> k_icache s !! ip = Some v -> i_dev v = 1 -> length (i_addrs v) = (NDIRECT + 1)%nat ->
  (ind_of v <> 0 -> ind_of v < dk_size (k_disk s)) -> (bn < MAXFILE)%nat -> blk_of s v bn <> 0 ->
  exists s', reading s s' D /\ bmap ip (Z.of_nat bn) s = Ret (blk_of s v bn) s'.
Proof.
  intros Hc Hsz Hip Hdev Hlen Hind Hbn Hb. unfold bmap. kstep (get_inode_Ret ip s v Hip).
  destruct (Z.ltb_spec (Z.of_nat bn) (Z.of_nat NDIRECT)) as [Hlt|Hge].
  - rewrite Nat2Z.id. destruct (lookup_lt_is_Some_2 (i_addrs v) bn) as [a Ha]; [rewrite Hlen; lia|].
    assert (Eb : blk_of s v bn = a) by (rewrite blk_of_direct by lia; by rewrite nth_lookup, Ha).
    rewrite Ha. kstep (deref_Some a s). rewrite (proj2 (Z.eqb_neq _ _)) by congruence. rewrite Eb.
    exists s. split; [by split|done].
  - set (k := (bn - NDIRECT)%nat). assert (Ebn : bn = (NDIRECT + k)%nat) by lia.
    assert (Hk : (k < NINDIRECT)%nat) by (unfold MAXFILE in Hbn; lia).
    replace (Z.of_nat bn - Z.of_nat NDIRECT) with (Z.of_nat k) by lia. cbn zeta.
    rewrite (proj2 (Z.ltb_lt _ _)), Nat2Z.id, Hdev by lia.
    destruct (lookup_lt_is_Some_2 (i_addrs v) NDIRECT) as [a Ha]; [rewrite Hlen; lia|].
    assert (Ea : ind_of v = a) by (unfold ind_of; by rewrite nth_lookup, Ha).
    assert (Ha0 : a <> 0) by (intros ->; apply Hb; apply blk_of_none; [done|lia]).
    rewrite Ha. kstep (deref_Some a s). rewrite (proj2 (Z.eqb_neq _ _) Ha0), ret_bind.
    assert (Eb : get_uint (view s a) k = blk_of s v bn) by (rewrite Ebn, blk_of_indirect; congruence).
    destruct (cabs_read s D a (fun d => mret (get_uint d k)) Hc Hsz) as (s' & HR & R); [rewrite <- Ea in *; auto|].
    exists s'. split; [done|]. rewrite <- Eb. trans ((mret (get_uint (view s a) k) : K Z) s'); [|done]. rewrite <- R.
    rewrite !(bind_run (bread 1 a)). destruct (bread 1 a s) as [bp s1|] eqn:ER; [|done].
    rewrite !(bind_run (get_buf bp)). destruct (get_buf bp s1) as [b s2|] eqn:EG; [|done].
    destruct (bread_cabs s D ∅ a Hc) as (i2 & s1' & R1 & _ & _ & C1 & O1 & _ & _);
      [apply not_elem_of_empty|rewrite <- Ea in *; auto|right; by rewrite union_empty_r_L|].
    rewrite ER in R1. injection R1 as <- <-. destruct (owns_get _ _ _ _ _ O1) as (b' & G & Hbd & _).
    rewrite EG in G. injection G as <- <-. rewrite Hbd, Eb, (proj2 (Z.eqb_neq _ _) Hb), ret_bind. done.
Qed.

Lemma min_min a b : min_ a b = Z.min a b.
Proof. unfold min_. destruct (Z.ltb_spec a b); lia. Qed.

Lemma div_BSIZE o : Z.of_nat o / Z.of_nat BSIZE = Z.of_nat (o / BSIZE).
Proof. by rewrite Nat2Z.inj_div. Qed.
Lemma mod_BSIZE o : Z.of_nat o mod Z.of_nat BSIZE = Z.of_nat (o mod BSIZE).
Proof. by rewrite Nat2Z.inj_mod. Qed.

Lemma readi_loop_run D ip v fuel : forall s (tot off k : nat) (n : Z),
  cabs s D ∅ -> (size D < NBUF)%nat -> k_icache s !! ip = Some v -> readable s v ->
  n = Z.of_nat (tot + k) -> Z.of_nat (off + k) <= i_size v ->
  (1 <= fuel)%nat -> ((0 < k)%nat -> (off mod BSIZE + k <= BSIZE * (fuel - 1))%nat) ->
  exists s', reading s s' D /\ readi_loop ip fuel (Z.of_nat tot) (Z.of_nat off) n s = Ret (fbytes s v off k) s'.
Proof.
  induction fuel as [|fuel IH]; intros s tot off k n Hc Hsz Hip Hr Hn Hoff Hf Hfk; [lia|]. cbn [readi_loop].
  destruct (decide (k = 0)%nat) as [->|Hk].
  { rewrite (proj2 (Z.ltb_ge _ _)) by lia. exists s. split; [by split|done]. }
  rewrite (proj2 (Z.ltb_lt _ _)) by lia. kstep (get_inode_Ret ip s v Hip). rewrite div_BSIZE, mod_BSIZE, min_min, (rd_dev _ _ Hr).
  specialize (Hfk ltac:(lia)). pose proof (Nat.mod_upper_bound off BSIZE ltac:(done)) as Hm.
  assert (Hf1 : (1 <= fuel)%nat) by (destruct fuel; [rewrite Nat.sub_diag, Nat.mul_0_r in Hfk; lia|lia]).
  replace (S fuel - 1)%nat with (S (fuel - 1)) in Hfk by lia. rewrite Nat.mul_succ_r in Hfk.
  pose proof (Nat.div_mod_eq off BSIZE) as Ed. pose proof (rd_size _ _ Hr) as Hs.
  destruct (rd_blk _ _ Hr (off / BSIZE)) as [Hb Hbd]; [lia|].
  assert (Hmax : (off / BSIZE < MAXFILE)%nat) by (apply Nat.Div0.div_lt_upper_bound; lia).
  destruct (bmap_lookup s D ip v (off / BSIZE) Hc Hsz Hip (rd_dev _ _ Hr) (rd_len _ _ Hr) (rd_ind _ _ Hr) Hmax Hb) as (s1 & HR1 & R1).
  kstep R1. set (m := Nat.min k (BSIZE - off mod BSIZE)). pose proof HR1 as [F1 D1 C1 V1].
  assert (Em : Z.min (n - Z.of_nat tot) (Z.of_nat BSIZE - Z.of_nat (off mod BSIZE)) = Z.of_nat m) by lia. rewrite Em, !Nat2Z.id.
  destruct (cabs_read s1 D (blk_of s v (off / BSIZE)) (fun d =>
    l ← readi_loop ip fuel (Z.of_nat tot + Z.of_nat m) (Z.of_nat off + Z.of_nat m) n;
    mret (slice d (off mod BSIZE) m ++ l)) C1 Hsz ltac:(by rewrite D1)) as (s2 & HR2 & R2).
  cbn zeta. rewrite R2. clear R2. rewrite V1, slice_fdata by (done || lia || by eapply view_len).
  pose proof (reading_trans _ _ _ _ HR1 HR2) as HR. pose proof HR as [F D2 C V].
  destruct (IH s2 (tot + m)%nat (off + m)%nat (k - m)%nat n C Hsz) as (s3 & HR3 & R3); try lia.
  - by rewrite (cframe_icache _ _ F).
  - by eapply reading_readable.
  - intros Hk'. assert (Em' : m = (BSIZE - off mod BSIZE)%nat) by lia.
    assert ((off + m) mod BSIZE = 0)%nat as ->; [|lia].
    replace (off + m)%nat with ((off / BSIZE + 1) * BSIZE)%nat by lia. apply Nat.Div0.mod_mul.
  - exists s3. split; [by eapply reading_trans|]. rewrite <- !Nat2Z.inj_add. kstep R3.
    rewrite (fbytes_ext s s2) by done. rewrite <- fbytes_app. by replace (m + (k - m))%nat with k by lia.
Qed.

Lemma maxfile_bytes : Z.of_nat (MAXFILE * BSIZE) = 71680.
Proof. by vm_compute. Qed.

(** The number of bytes [readi] delivers. *)
Definition clip (size off n : Z) : Z := if size <? off + n then size - off else n.

Lemma readi_run s D ip v (off n : nat) :
  cabs s D ∅ -> (size D < NBUF)%nat -> k_icache s !! ip = Some v -> readable s v -> i_type v <> T_DEV ->
  Z.of_nat off <= i_size v -> Z.of_nat (off + n) < 2 ^ 32 ->
  let k := clip (i_size v) (Z.of_nat off) (Z.of_nat n) in
  exists s', reading s s' D /\ readi ip (Z.of_nat off) (Z.of_nat n) s = Ret (k, fbytes s v off (Z.to_nat k)) s'.
Proof.
  intros Hc Hsz Hip Hr Hty Hoff Hn k. unfold readi. kstep (get_inode_Ret ip s v Hip). kgets.
  pose proof (rd_size _ _ Hr) as Hs. rewrite maxfile_bytes in Hs. rewrite (proj2 (Z.eqb_neq _ _)) by done.
  rewrite u32_small by lia. rewrite (proj2 (Z.ltb_ge _ _)), (proj2 (Z.ltb_ge _ _)) by lia. cbn [orb].
  assert (Ek : (if i_size v <? Z.of_nat off + Z.of_nat n then u32 (i_size v - Z.of_nat off) else Z.of_nat n) = k).
  { unfold k, clip. destruct (Z.ltb_spec (i_size v) (Z.of_nat off + Z.of_nat n)); [|done].
    apply u32_small. lia. }
  rewrite Ek. assert (Hk : 0 <= k <= Z.of_nat n /\ Z.of_nat off + k <= i_size v).
  { unfold k, clip. destruct (Z.ltb_spec (i_size v) (Z.of_nat off + Z.of_nat n)); lia. }
  set (K := Z.to_nat k). assert (EK : k = Z.of_nat K) by lia.
  destruct (readi_loop_run D ip v (Z.to_nat (k / Z.of_nat BSIZE + 3)) s 0 off K k Hc Hsz Hip Hr) as (s' & HR & R); try lia.
  - assert (0 <= k / Z.of_nat BSIZE) by (apply Z.div_pos; [lia|done]). lia.
  - intros _. rewrite EK, div_BSIZE. pose proof (Nat.div_mod_eq K BSIZE). pose proof (Nat.mod_upper_bound K BSIZE ltac:(done)).
    pose proof (Nat.mod_upper_bound off BSIZE ltac:(done)).
    replace (Z.to_nat (Z.of_nat (K / BSIZE) + 3) - 1)%nat with (K / BSIZE + 2)%nat by lia.
    rewrite Nat.mul_add_distr_l. lia.
  - exists s'. split; [done|]. cbn zeta. change 0 with (Z.of_nat 0). kstep R. rewrite s32_small by lia. done.
Qed.

(** [readi] of a file whose blocks below its size are mapped returns the
    bytes of the file from the offset on, as many as asked for or as the file
    has, and changes no block, inode or mark; an offset beyond the end, or a
    range that wraps around, returns -1. *)
Theorem readi_reads_file s D ip v (off n : nat) :
  cabs s D ∅ -> (size D < NBUF)%nat -> k_icache s !! ip = Some v -> readable s v -> i_type v <> T_DEV ->
  Z.of_nat off < 2 ^ 32 -> Z.of_nat n < 2 ^ 31 ->
  if decide (Z.of_nat off <= i_size v) then
    let k := clip (i_size v) (Z.of_nat off) (Z.of_nat n) in
    exists s', readi ip (Z.of_nat off) (Z.of_nat n) s = Ret (k, fbytes s v off (Z.to_nat k)) s' /\
      k_icache s' = k_icache s /\ k_disk s' = k_disk s /\ cabs s' D ∅ /\ (forall m, view s' m = view s m)
  else readi ip (Z.of_nat off) (Z.of_nat n) s = Ret (-1, []) s.
Proof.
  intros Hc Hsz Hip Hr Hty Hoff Hn. pose proof (rd_size _ _ Hr) as Hs. case_decide as Hle.
  - destruct (readi_run s D ip v off n Hc Hsz Hip Hr Hty Hle) as (s' & [F Ed C V] & R); [rewrite maxfile_bytes in Hs; lia|].
    exists s'. split; [done|]. split; [by apply cframe_icache|]. done.
  - unfold readi. kstep (get_inode_Ret ip s v Hip). kgets. rewrite (proj2 (Z.eqb_neq _ _)) by done.
    rewrite (proj2 (Z.ltb_lt _ _)) by lia. done.
Qed.

(** The file [finode] of the small file system is 600 bytes long. *)
Lemma finode_readable s : k_disk s = bdisk -> readable s finode.
Proof.
  intros Ed. split; [done|done|by rewrite maxfile_bytes|done|]. rewrite Ed.
  intros bn Hb. rewrite blk_of_finode. destruct bn as [|[|bn]]; [done|done|]. cbn [i_size finode] in Hb. unfold BSIZE in Hb. lia.
Qed.

Lemma readi_reads_file_witness : exists s s' l, readi 0 (Z.of_nat 500) (Z.of_nat 200) s = Ret (100, l) s' /\ length l = 100%nat.
Proof.
  destruct fs_state as (s & Ht & Esb & Ed & El & V & Ei & _). set (s1 := iset 0 finode s).
  pose proof (readi_reads_file s1 ∅ 0 finode 500 200) as H. rewrite decide_True in H by (cbn; lia).
  destruct H as (s' & R & _).
  - apply (tx_cabs s1 ∅ [] (txn_iset _ _ _ _ _ Ht)).
  - rewrite size_empty. unfold NBUF. cbn. lia.
  - unfold s1, iset. ksimp. by rewrite Ei.
  - by apply finode_readable.
  - done.
  - lia.
  - lia.
  - exists s1, s', (fbytes s1 finode 500 100). split; [exact R|apply length_fbytes].
Defined.

(** ** Writing *)

(** Overwriting part of one block of the file. *)
Lemma write_block s s' v off d :
  file_ok s v -> (off / BSIZE < MAXFILE)%nat -> k_sb s' = k_sb s -> (off mod BSIZE + length d <= BSIZE)%nat ->
  let b := blk_of s v (off / BSIZE) in
  b <> 0 -> length (view s b) = BSIZE ->
  (forall m, view s' m = if decide (m = b) then splice (view s b) (off mod BSIZE) d else view s m) ->
  file_ok s' v /\ (forall bn, blk_of s' v bn = blk_of s v bn) /\ (forall a, data_block s a -> data_block s' a) /\
  forall o, (o < MAXFILE * BSIZE)%nat ->
    fdata s' v o = if decide (off <= o < off + length d)%nat then nth (o - off) d 0 else fdata s v o.
Proof.
  intros Hf Hbn Esb Hd b Hb Hlen V.
  pose proof (fo_blk _ _ Hf _ Hbn Hb) as Hdb. pose proof (fo_sep _ _ Hf _ Hbn Hb) as Hsep. fold b in Hdb, Hsep.
  assert (V' : forall m, m <> b -> view s' m = view s m) by (intros; by rewrite V, decide_False).
  assert (Eb : forall bn, blk_of s' v bn = blk_of s v bn) by (intros; apply blk_of_view; intros; apply V'; congruence).
  assert (Hmono : forall a, data_block s a -> data_block s' a) by (intros a Ha; by apply (data_block_outside s s' b)).
  split; [|split; [done|split; [done|]]].
  - destruct Hf as [H1 H2 H3 H4 H5]. split; [done|auto| | |].
    + intros bn Hl. rewrite Eb. auto.
    + intros bn Hl. rewrite Eb. auto.
    + intros x y. rewrite !Eb. auto.
  - intros o Ho. pose proof (block_lt o Ho) as Hob. unfold fdata. rewrite Eb.
    pose proof (Nat.div_mod_eq off BSIZE). pose proof (Nat.div_mod_eq o BSIZE).
    pose proof (Nat.mod_upper_bound off BSIZE ltac:(done)). pose proof (Nat.mod_upper_bound o BSIZE ltac:(done)).
    destruct (decide (off <= o < off + length d)%nat) as [Hin|Hout].
    + destruct (same_block off (o - off) ltac:(lia)) as [E1 E2]. replace (off + (o - off))%nat with o in E1, E2 by lia.
      rewrite E1, E2. fold b. rewrite (proj2 (Z.eqb_neq _ _) Hb), V, decide_True, !nth_lookup by done.
      rewrite lookup_splice_eq by lia. f_equal. f_equal. lia.
    + destruct (Z.eqb_spec (blk_of s v (o / BSIZE)) 0) as [E0|E0]; [done|].
      destruct (decide (o / BSIZE = off / BSIZE)%nat) as [E|E].
      * rewrite E. fold b. rewrite V, decide_True, !nth_lookup by done. rewrite lookup_splice_ne; [done|lia|].
        rewrite E in H0. lia.
      * rewrite V'; [done|]. intros Ex. apply E. by eapply (fo_inj _ _ Hf).
Qed.

Record wrote (ip : nat) (s : kstate) (v : inode) (bl : list Z) (off : nat) (src : list Z) (k : nat)
    (s' : kstate) (v' : inode) (bl' : list Z) : Prop := {
  wr_frame : tframe (iset ip v' s) s';
  wr_inode : v' = set_i_addrs (i_addrs v') v;
  wr_txn : txn s' ∅ bl';
  wr_len : (length bl <= length bl' <= length bl + k)%nat;
  wr_bitmap : bitmap_ok s' ∅;
  wr_file : file_ok s' v';
  wr_data : forall o, (o < MAXFILE * BSIZE)%nat ->
    fdata s' v' o = if decide (off <= o < off + length src)%nat then nth (o - off) src 0 else fdata s v o;
  wr_used : forall b, data_block s b -> data_block s' b;
  wr_apart : forall b, data_block s b -> b <> ind_of v -> (forall bn, (bn < MAXFILE)%nat -> blk_of s v bn <> b) ->
    b <> ind_of v' /\ forall bn, (bn < MAXFILE)%nat -> blk_of s' v' bn <> b;
  wr_keep : forall bn, (bn < MAXFILE)%nat -> blk_of s v bn <> 0 -> blk_of s' v' bn <> 0;
  wr_map : forall o, (off <= o < off + length src)%nat -> blk_of s' v' (o / BSIZE) <> 0
}.

(** [bmap], where it is known when it can fail. *)
Lemma bmap_step s ip v bl bn :
  txn s ∅ bl -> bitmap_ok s ∅ -> k_icache s !! ip = Some v -> i_dev v = 1 -> file_ok s v ->
  (bn < MAXFILE)%nat -> (length bl + 4 < NBUF)%nat -> Z.of_nat (length bl) + 4 < log_room s ->
  (exists s' v' bl', bmap ip (Z.of_nat bn) s = Ret (blk_of s' v' bn) s' /\ mapped s ip v bl bn s' v' bl') \/
  (blk_of s v bn = 0 /\ exists s', bmap ip (Z.of_nat bn) s = Stop (Panic "balloc: out of blocks") s' /\ disk_full s').
Proof.
  intros Ht Hbm Hip Hdev Hf Hbn Hroom Hlog. destruct (decide (blk_of s v bn = 0)) as [E0|E0].
  - destruct (bmap_spec s ip v bl Ht Hbm Hip Hdev Hf bn Hbn Hroom Hlog) as [?|[_ ?]]; [by left|by right].
  - left. pose proof (size_list_union bl ∅) as Hs. rewrite size_empty, union_empty_r_L in Hs.
    destruct (bmap_lookup s (list_to_set bl) ip v bn (tx_cabs _ _ _ Ht)) as (s' & [F Ed C V] & R);
      [lia|done|done|by destruct Hf| |done|done|].
    { intros Hi. destruct (db_range _ _ (fo_ind _ _ Hf Hi)). pose proof (bm_size _ _ Hbm). lia. }
    assert (F' : tframe s s') by (by apply tframe_cframe).
    assert (T' : txn s' ∅ bl) by (eapply txn_cframe; eauto using cframe_log).
    pose proof (mapped_already s ip v bl Ht Hbm Hip Hdev Hf s' bn F' V T' E0) as HM.
    exists s', v, bl. split; [|done]. by rewrite (mp_old _ _ _ _ _ _ _ _ HM).
Qed.

Lemma iset_iset ip v w s : iset ip v (iset ip w s) = iset ip v s.
Proof. unfold iset. ksimp. rewrite list_insert_insert_eq. by destruct s. Qed.

Lemma wrote_nothing ip s v bl off : txn s ∅ bl -> bitmap_ok s ∅ -> k_icache s !! ip = Some v -> file_ok s v ->
  wrote ip s v bl off [] 0 s v bl.
Proof.
  intros. split; try done; [by rewrite iset_same|by destruct v|lia| |cbn; intros; lia].
  intros o Ho. rewrite decide_False by (cbn; lia). done.
Qed.

(** One block, then the rest. *)
Lemma wrote_step ip s v bl off d s1 v1 bl1 s2 rest k s' v' bl' :
  file_ok s v -> (off / BSIZE < MAXFILE)%nat -> (off mod BSIZE + length d <= BSIZE)%nat ->
  mapped s ip v bl (off / BSIZE) s1 v1 bl1 -> length (view s1 (blk_of s1 v1 (off / BSIZE))) = BSIZE ->
  tframe s1 s2 ->
  (forall m, view s2 m = if decide (m = blk_of s1 v1 (off / BSIZE))
     then splice (view s1 (blk_of s1 v1 (off / BSIZE))) (off mod BSIZE) d else view s1 m) ->
  wrote ip s2 v1 (log_add (blk_of s1 v1 (off / BSIZE)) bl1) (off + length d) rest k s' v' bl' ->
  wrote ip s v bl off (d ++ rest) (6 + k) s' v' bl'.
Proof.
  intros Hf Hbn Hd HM Hlen F12 V2 HW. set (bn := (off / BSIZE)%nat) in *. set (b := blk_of s1 v1 bn) in *.
  destruct (write_block s1 s2 v1 off d (mp_file _ _ _ _ _ _ _ _ HM) Hbn (tframe_sb _ _ F12) Hd) as (Hf2 & Eb2 & Hm2 & Hdata);
    [apply HM|done|done|].
  pose proof (log_add_len b bl1). pose proof (mp_len _ _ _ _ _ _ _ _ HM).
  destruct HW as [W1 W2 W3 W4 W5 W6 W7 W8 W9 W10 W11].
  assert (Hk : forall bn', (bn' < MAXFILE)%nat -> blk_of s1 v1 bn' <> 0 -> blk_of s' v' bn' <> 0).
  { intros bn' Hl Hne. apply W10; [done|by rewrite Eb2]. }
  split; try done.
  - etrans; [|exact W1]. rewrite <- (iset_iset ip v' v1 s). apply tframe_iset. etrans; [apply HM|done].
  - rewrite W2 at 1. rewrite (mp_inode _ _ _ _ _ _ _ _ HM). done.
  - lia.
  - intros o Ho. rewrite W7, Hdata, (mapped_fdata s ip v bl bn s1 v1 bl1) by done. rewrite length_app.
    destruct (decide (off + length d <= o < off + length d + length rest)%nat) as [H1|H1].
    + rewrite decide_True by lia. rewrite app_nth2 by lia. f_equal. lia.
    + destruct (decide (off <= o < off + length d)%nat) as [H2|H2].
      * rewrite decide_True by lia. by rewrite app_nth1 by lia.
      * by rewrite decide_False by lia.
  - intros a Ha. apply W8, Hm2. by apply HM.
  - intros a Ha Hi Hbk. destruct (mp_apart _ _ _ _ _ _ _ _ HM a Ha Hi (Hbk _ Hbn)) as [Hi1 Hb1].
    apply W9; [by apply Hm2, HM|done|]. intros bn' Hl. rewrite Eb2. destruct (decide (bn' = bn)) as [->|Hne]; [done|].
    rewrite (mp_blk _ _ _ _ _ _ _ _ HM) by done. auto.
  - intros bn' Hl Hne. apply Hk; [done|]. destruct (decide (bn' = bn)) as [->|Hn]; [apply HM|].
    by rewrite (mp_blk _ _ _ _ _ _ _ _ HM).
  - intros o Ho. rewrite length_app in Ho. destruct (decide (o < off + length d)%nat) as [Hlt|Hge]; [|apply W11; lia].
    destruct (same_block off (o - off) ltac:(lia)) as [E1 _]. replace (off + (o - off))%nat with o in E1 by lia.
    rewrite E1. apply Hk; [done|apply HM].
Qed.

Lemma writei_loop_run ip nb : forall fuel s v bl off src,
  txn s ∅ bl -> bitmap_ok s ∅ -> k_icache s !! ip = Some v -> i_dev v = 1 -> file_ok s v ->
  (off + length src <= MAXFILE * BSIZE)%nat -> (nb < fuel)%nat ->
  (src <> [] -> (off mod BSIZE + length src <= BSIZE * nb)%nat) ->
  (length bl + 6 * nb <= NBUF)%nat -> Z.of_nat (length bl + 6 * nb) <= log_room s ->
  (exists s' v' bl', writei_loop ip fuel (Z.of_nat off) src s = Ret (Z.of_nat (off + length src)) s' /\
     wrote ip s v bl off src (6 * nb) s' v' bl') \/
  ((exists o, (off <= o < off + length src)%nat /\ blk_of s v (o / BSIZE) = 0) /\
   exists s', writei_loop ip fuel (Z.of_nat off) src s = Stop (Panic "balloc: out of blocks") s' /\ disk_full s').
Proof.
  induction nb as [|nb IH]; intros [|fuel] s v bl off src Ht Hbm Hip Hdev Hf Hmax Hfuel Hnb Hroom Hlog; [lia| |lia|].
  { destruct src as [|c src]; [|specialize (Hnb ltac:(done)); cbn [length] in Hnb; lia].
    left. exists s, v, bl. split; [cbn; by rewrite Nat.add_0_r|by apply wrote_nothing]. }
  destruct (decide (src = [])) as [->|Hsrc].
  { left. exists s, v, bl. split; [cbn; by rewrite Nat.add_0_r|]. destruct (wrote_nothing ip s v bl off Ht Hbm Hip Hf).
    split; try done. lia. }
  specialize (Hnb Hsrc). assert (Hl : (0 < length src)%nat) by (destruct src; [done|cbn; lia]).
  cbn [writei_loop]. rewrite (proj2 (Z.ltb_lt _ _)) by lia. kstep (get_inode_Ret ip s v Hip).
  rewrite div_BSIZE, mod_BSIZE, min_min, Hdev. pose proof (Nat.mod_upper_bound off BSIZE ltac:(done)) as Hm.
  pose proof (Nat.div_mod_eq off BSIZE) as Ed.
  assert (Hbn : (off / BSIZE < MAXFILE)%nat) by (apply block_lt; lia). set (bn := (off / BSIZE)%nat) in *.
  destruct (bmap_step s ip v bl bn Ht Hbm Hip Hdev Hf Hbn ltac:(lia) ltac:(lia)) as [(s1 & v1 & bl1 & R1 & HM)|(E0 & s1 & R1 & Hfull)].
  2:{ right. split; [exists off; split; [lia|done]|]. exists s1. by rewrite (bind_Stop _ _ _ _ _ R1). }
  kstep R1. set (m := Nat.min (length src) (BSIZE - off mod BSIZE)).
  assert (Em : Z.min (Z.of_nat (length src)) (Z.of_nat BSIZE - Z.of_nat (off mod BSIZE)) = Z.of_nat m) by lia. rewrite Em, !Nat2Z.id.
  pose proof (mp_len _ _ _ _ _ _ _ _ HM) as Hl1. pose proof (mp_txn _ _ _ _ _ _ _ _ HM) as T1.
  pose proof (mp_bitmap _ _ _ _ _ _ _ _ HM) as Hbm1. pose proof (mp_found _ _ _ _ _ _ _ _ HM) as Hb0.
  pose proof (fo_blk _ _ (mp_file _ _ _ _ _ _ _ _ HM) bn Hbn Hb0) as Hdb. set (b := blk_of s1 v1 bn) in *.
  assert (Er : log_room s1 = log_room s) by (rewrite (tframe_room _ _ (mp_frame _ _ _ _ _ _ _ _ HM)); done).
  assert (Hvl : length (view s1 b) = BSIZE) by (by eapply view_len, tx_cabs).
  assert (Hd : length (take m src) = m) by (rewrite length_take; lia).
  destruct (txn_modify s1 ∅ bl1 b (fun d => splice d (off mod BSIZE) (take m src))
    (writei_loop ip fuel (Z.of_nat off + Z.of_nat m) (drop m src)) T1) as (s2 & F2 & T2 & V2 & _ & R2);
    [apply not_elem_of_empty|destruct Hdb, Hbm1; lia|rewrite length_splice; lia|rewrite size_empty; lia|lia|].
  cbn zeta. rewrite R2, <- Nat2Z.inj_add. clear R2. pose proof (log_add_len b bl1).
  assert (Hip2 : k_icache s2 !! ip = Some v1).
  { rewrite (tframe_keeps k_icache s1 s2) by done. rewrite (tframe_keeps k_icache _ _ (fun _ _ => eq_refl) (fun _ _ => eq_refl)
      (fun _ _ => eq_refl) (mp_frame _ _ _ _ _ _ _ _ HM)). unfold iset. ksimp. apply list_lookup_insert_eq. by eapply lookup_lt_Some. }
  destruct (write_block s1 s2 v1 off (take m src) (mp_file _ _ _ _ _ _ _ _ HM) Hbn (tframe_sb _ _ F2) ltac:(lia) Hb0 Hvl V2)
    as (Hf2 & Eb2 & _).
  assert (Hbm2 : bitmap_ok s2 ∅).
  { eapply (bitmap_ok_outside s1 s2 ∅ b); [by apply tframe_sb|by apply tframe_disk|done| |done]. intros x Hx. by rewrite V2, decide_False. }
  rewrite Nat.mul_succ_r in Hnb.
  destruct (IH fuel s2 v1 (log_add b bl1) (off + m)%nat (drop m src) T2 Hbm2 Hip2) as [(s' & v' & bl' & R & HW)|(Hex & s' & R & Hfull)];
    rewrite ?length_drop; try lia.
  - rewrite (mp_inode _ _ _ _ _ _ _ _ HM). done.
  - done.
  - intros Hne. assert (m <> length src) by (intros E; apply Hne; rewrite E; apply drop_all).
    assert (Em' : m = (BSIZE - off mod BSIZE)%nat) by lia. assert ((off + m) mod BSIZE = 0)%nat as ->; [|lia].
    replace (off + m)%nat with ((bn + 1) * BSIZE)%nat by lia. apply Nat.Div0.mod_mul.
  - rewrite (tframe_room _ _ F2), Er. lia.
  - left. exists s', v', bl'. rewrite length_drop in R. split; [rewrite R; f_equal; lia|].
    rewrite <- (take_drop m src). replace (6 * S nb)%nat with (6 + 6 * nb)%nat by lia.
    eapply wrote_step; try done; [lia|]. by rewrite Hd.
  - right. split; [|eauto]. destruct Hex as (o & Ho & E). rewrite length_drop in Ho. exists o. split; [lia|].
    rewrite Eb2 in E. destruct (decide (o / BSIZE = bn)%nat) as [Eo|Eo]; [by rewrite Eo in E|].
    rewrite <- E. symmetry. apply (mp_blk _ _ _ _ _ _ _ _ HM); [apply block_lt; lia|done].
Qed.

Lemma file_ok_addrs s v : file_ok s v -> sb_size (k_sb s) < 2 ^ 32 -> Forall (fun a => 0 <= a < 2 ^ 32) (i_addrs v).
Proof.
  intros Hf Hsz. apply Forall_lookup. intros i a Hi. destruct (decide (a = 0)) as [->|Ha]; [lia|].
  assert (Hd : data_block s a); [|destruct Hd; lia].
  pose proof (lookup_lt_Some _ _ _ Hi) as Hlt. rewrite (fo_len _ _ Hf) in Hlt.
  destruct (decide (i < NDIRECT)%nat) as [Hl|Hl].
  - assert (Eb : blk_of s v i = a) by (rewrite blk_of_direct by done; by rewrite nth_lookup, Hi).
    rewrite <- Eb. apply (fo_blk _ _ Hf); [unfold MAXFILE; lia|congruence].
  - assert (i = NDIRECT) as -> by lia. assert (Ei : ind_of v = a) by (unfold ind_of; by rewrite nth_lookup, Hi).
    rewrite <- Ei. apply (fo_ind _ _ Hf). congruence.
Qed.

(** The block of the inode is marked and apart from the blocks of the file. *)
Record inode_apart (s : kstate) (v : inode) : Prop := {
  ia_data : data_block s (IBLOCK (i_inum v) (k_sb s));
  ia_ind : IBLOCK (i_inum v) (k_sb s) <> ind_of v;
  ia_blk : forall bn, (bn < MAXFILE)%nat -> blk_of s v bn <> IBLOCK (i_inum v) (k_sb s)
}.

(** The contents of a file do not depend on the inode's other fields, nor on
    blocks the inode does not map. *)
Lemma file_ok_apart s s' v v' b :
  file_ok s v -> i_addrs v' = i_addrs v -> k_sb s' = k_sb s -> data_block s b -> b <> ind_of v ->
  (forall bn, (bn < MAXFILE)%nat -> blk_of s v bn <> b) -> (forall m, m <> b -> view s' m = view s m) ->
  file_ok s' v' /\ (forall bn, blk_of s' v' bn = blk_of s v bn) /\
  forall o, (o < MAXFILE * BSIZE)%nat -> fdata s' v' o = fdata s v o.
Proof.
  intros Hf Ea Esb Hdb Hi Hbk V.
  assert (Ei : ind_of v' = ind_of v) by (unfold ind_of; by rewrite Ea).
  assert (Eb : forall bn, blk_of s' v' bn = blk_of s v bn).
  { intros bn. unfold blk_of. rewrite Ea, Ei. case_decide; [done|]. destruct (ind_of v =? 0); [done|]. by rewrite V. }
  assert (Hmono : forall a, data_block s a -> data_block s' a) by (intros a Ha; by apply (data_block_outside s s' b)).
  split; [|split; [done|]].
  - destruct Hf as [H1 H2 H3 H4 H5]. split; [by rewrite Ea|rewrite Ei; auto| | |].
    + intros bn Hl. rewrite Eb. auto.
    + intros bn Hl. rewrite Eb, Ei. auto.
    + intros x y. rewrite !Eb. auto.
  - intros o Ho. unfold fdata. rewrite Eb, V; [done|]. apply Hbk. by apply block_lt.
Qed.

(** The end of [writei]: the new size, in memory and on disk. *)
Lemma writei_grow s bl ip v sz :
  let B := IBLOCK (i_inum v) (k_sb s) in let v2 := set_i_size sz v in
  txn s ∅ bl -> bitmap_ok s ∅ -> k_icache s !! ip = Some v -> i_dev v = 1 -> file_ok s v -> inode_ok v2 -> inode_apart s v ->
  (length bl < NBUF)%nat -> Z.of_nat (length bl) < log_room s ->
  exists s2, (upd_inode ip (set_i_size sz) ;; iupdate ip) s = Ret tt s2 /\ tframe (iset ip v2 s) s2 /\
    (forall bn, blk_of s2 v2 bn = blk_of s v bn) /\
    (forall o, (o < MAXFILE * BSIZE)%nat -> fdata s2 v2 o = fdata s v o) /\
    file_ok s2 v2 /\ bitmap_ok s2 ∅ /\ txn s2 ∅ (log_add B bl).
Proof.
  intros B v2 Ht Hbm Hip Hdev Hf Hok [Ad Ai Ab] Hroom Hlog. kstep (upd_inode_Ret ip (set_i_size sz) s v Hip).
  change (set_k_icache _ s) with (iset ip v2 s). fold B in Ad, Ai, Ab.
  pose proof (bm_size _ _ Hbm). pose proof (db_range _ _ Ad).
  destruct (iupdate_txn (iset ip v2 s) ∅ bl ip v2) as (s2 & R2 & F2 & T2 & V2 & _); try done.
  - by apply txn_iset.
  - unfold iset. ksimp. apply list_lookup_insert_eq. by eapply lookup_lt_Some.
  - change (B < dk_size (k_disk s)). lia.
  - rewrite size_empty. lia.
  - change (IBLOCK (i_inum v2) (k_sb (iset ip v2 s))) with B in T2, V2.
    assert (V2' : forall m, m <> B -> view s2 m = view s m) by (intros m Hm; rewrite V2, decide_False by done; done).
    destruct (file_ok_apart s s2 v v2 B Hf eq_refl) as (Hf2 & Eb2 & Hd2); [by rewrite (tframe_sb _ _ F2)|done|done|done|done|].
    exists s2. split; [done|]. split; [done|]. split; [done|]. split; [done|]. split; [done|]. split; [|done].
    apply (bitmap_ok_outside s s2 ∅ B); try done; [by rewrite (tframe_sb _ _ F2)|by rewrite (tframe_disk _ _ F2)].
Qed.

(** The number of blocks a range of the file touches. *)
Definition touched (off n : nat) : nat := (off mod BSIZE + n + (BSIZE - 1)) / BSIZE.

Lemma touched_enough off n : (off mod BSIZE + n <= BSIZE * touched off n)%nat /\ (touched off n <= n / BSIZE + 2)%nat.
Proof.
  unfold touched. pose proof (Nat.div_mod_eq (off mod BSIZE + n + (BSIZE - 1)) BSIZE).
  pose proof (Nat.mod_upper_bound (off mod BSIZE + n + (BSIZE - 1)) BSIZE ltac:(done)).
  pose proof (Nat.mod_upper_bound off BSIZE ltac:(done)). pose proof (Nat.div_mod_eq n BSIZE).
  pose proof (Nat.mod_upper_bound n BSIZE ltac:(done)). split; [lia|].
  apply Nat.lt_succ_r, Nat.Div0.div_lt_upper_bound. rewrite <- Nat.add_succ_r, Nat.mul_add_distr_l. lia.
Qed.

(** The state after [writei]. *)
Record written (ip : nat) (s : kstate) (v : inode) (off : nat) (src : list Z) (s' : kstate) (v' : inode) (bl' : list Z) : Prop := {
  wn_frame : tframe (iset ip v' s) s';
  wn_inode : v' = set_i_size (Z.max (i_size v) (Z.of_nat (off + length src))) (set_i_addrs (i_addrs v') v);
  wn_data : forall o, (o < MAXFILE * BSIZE)%nat ->
    fdata s' v' o = if decide (off <= o < off + length src)%nat then nth (o - off) src 0 else fdata s v o;
  wn_file : file_ok s' v';
  wn_bitmap : bitmap_ok s' ∅;
  wn_txn : txn s' ∅ bl';
  wn_keep : forall bn, (bn < MAXFILE)%nat -> blk_of s v bn <> 0 -> blk_of s' v' bn <> 0;
  wn_map : forall o, (off <= o < off + length src)%nat -> blk_of s' v' (o / BSIZE) <> 0
}.

Lemma tframe_inode ip v s s' : (ip < length (k_icache s))%nat -> tframe (iset ip v s) s' -> k_icache s' !! ip = Some v.
Proof.
  intros Hl F. rewrite (tframe_keeps k_icache _ _ (fun _ _ => eq_refl) (fun _ _ => eq_refl) (fun _ _ => eq_refl) F).
  unfold iset. ksimp. by apply list_lookup_insert_eq.
Qed.

(** A file all of whose blocks below its size are mapped stays one. *)
Lemma written_readable ip s v off src s' v' bl' :
  readable s v -> bitmap_ok s ∅ -> written ip s v off src s' v' bl' -> (off + length src <= MAXFILE * BSIZE)%nat ->
  Z.of_nat off <= i_size v -> readable s' v'.
Proof.
  intros [R1 R2 R3 R4 R5] Hbm [W1 W2 W3 W4 W5 W6 W7 W8] Hmax Hoff.
  assert (Hdb : forall b, data_block s' b -> b < dk_size (k_disk s')) by (intros b [Hr _ _]; destruct W5; lia).
  split; [rewrite W2; done|by destruct W4|rewrite W2; ksimp; lia|intros H; by apply Hdb, (fo_ind _ _ W4)|].
  intros bn Hb. rewrite W2 in Hb. ksimp in Hb.
  assert (Hbn : (bn < MAXFILE)%nat) by (apply (Nat.mul_lt_mono_pos_r BSIZE); [unfold BSIZE; lia|lia]).
  assert (Hne : blk_of s' v' bn <> 0); [|split; [done|by apply Hdb, (fo_blk _ _ W4)]].
  destruct (decide (Z.of_nat (bn * BSIZE) < i_size v)) as [Hlt|Hge]; [apply W7; [done|by apply R5]|].
  rewrite <- (Nat.div_mul bn BSIZE) by done. apply W8. lia.
Qed.

Section writei.
Context (s : kstate) (bl : list Z) (ip : nat) (v : inode) (off : nat) (src : list Z).
Let nb := touched off (length src).
Context (Ht : txn s ∅ bl) (Hbm : bitmap_ok s ∅) (Hip : k_icache s !! ip = Some v) (Hdev : i_dev v = 1).
Context (Hf : file_ok s v) (Hok : inode_ok v) (Hap : inode_apart s v) (Hty : i_type v <> T_DEV).
Context (Hn31 : Z.of_nat (off + length src) < 2 ^ 31).
Context (Hroom : (length bl + 6 * nb < NBUF)%nat) (Hlog : Z.of_nat (length bl + 6 * nb) < log_room s).

Lemma writei_run : Z.of_nat off <= i_size v -> (off + length src <= MAXFILE * BSIZE)%nat ->
  (exists s' v' bl', writei ip src (Z.of_nat off) s = Ret (Z.of_nat (length src)) s' /\ written ip s v off src s' v' bl') \/
  ((exists o, (off <= o < off + length src)%nat /\ blk_of s v (o / BSIZE) = 0) /\
   exists s', writei ip src (Z.of_nat off) s = Stop (Panic "balloc: out of blocks") s' /\ disk_full s').
Proof using All.
  intros Hoff Hmax. unfold writei. kstep (get_inode_Ret ip s v Hip). kgets.
  rewrite (proj2 (Z.eqb_neq _ _)) by done. rewrite u32_small by lia.
  rewrite (proj2 (Z.ltb_ge (i_size v) _)), (proj2 (Z.ltb_ge _ (Z.of_nat off))), (proj2 (Z.ltb_ge _ _)) by lia.
  cbn [orb]. rewrite div_BSIZE. destruct (touched_enough off (length src)) as [Hnb Hfuel]. fold nb in Hnb, Hfuel.
  destruct (writei_loop_run ip nb (Z.to_nat (Z.of_nat (length src / BSIZE) + 3)) s v bl off src Ht Hbm Hip Hdev Hf Hmax)
    as [(s1 & v1 & bl1 & R1 & HW)|(Hex & s1 & R1 & Hfull)]; [lia|done|lia|lia| |].
  2:{ right. split; [done|]. exists s1. by rewrite (bind_Stop _ _ _ _ _ R1). }
  left. kstep R1. destruct HW as [W1 W2 W3 W4 W5 W6 W7 W8 W9 W10 W11].
  assert (Hip1 : k_icache s1 !! ip = Some v1) by (eapply tframe_inode; [by eapply lookup_lt_Some|done]).
  kstep (get_inode_Ret ip s1 v1 Hip1). assert (Esz : i_size v1 = i_size v) by (rewrite W2; done). rewrite Esz.
  assert (Hn : s32 (Z.of_nat (length src)) = Z.of_nat (length src)) by (apply s32_small; lia). rewrite Hn.
  destruct (Z.ltb_spec (i_size v) (Z.of_nat (off + length src))) as [Hg|Hg].
  2:{ rewrite andb_false_r, ret_bind. exists s1, v1, bl1. split; [done|]. split; try done.
      rewrite Z.max_l by done. rewrite W2 at 1. by destruct v. }
  rewrite (proj2 (Z.ltb_lt _ _)) by lia. cbn [andb]. set (sz := Z.of_nat (off + length src)) in *.
  assert (Esb1 : k_sb s1 = k_sb s) by (rewrite (tframe_sb _ _ W1); done). assert (Ein : i_inum v1 = i_inum v) by (rewrite W2; done).
  assert (Hap1 : inode_apart s1 v1).
  { destruct (W9 _ (ia_data _ _ Hap) (ia_ind _ _ Hap) (ia_blk _ _ Hap)). split; rewrite Ein, Esb1; [by apply W8, Hap|done|done]. }
  assert (Hok2 : inode_ok (set_i_size sz v1)).
  { pose proof (file_ok_addrs _ _ W6) as Ha. destruct Hok. split; ksimp; try (rewrite W2; done); [unfold sz; lia|by destruct W6|].
    apply Ha. pose proof (bm_size _ _ W5). pose proof (tx_disk _ _ _ W3). lia. }
  assert (Er : log_room s1 = log_room s) by (rewrite (tframe_room _ _ W1); done).
  destruct (writei_grow s1 bl1 ip v1 sz W3 W5 Hip1) as (s2 & R2 & F2 & Eb2 & Hd2 & Hf2 & Hbm2 & T2); try done; [by rewrite W2|lia|lia|].
  kstep R2. eexists s2, _, _. split; [done|]. split; [| | |exact Hf2|exact Hbm2|exact T2| |].
  - etrans; [|exact F2]. rewrite <- (iset_iset ip _ v1 s). by apply tframe_iset.
  - rewrite Z.max_r by lia. rewrite W2 at 1. done.
  - intros o Ho. rewrite Hd2 by done. by apply W7.
  - intros bn. rewrite Eb2. auto.
  - intros o. rewrite Eb2. auto.
Qed.

Lemma writei_refused : ~ (Z.of_nat off <= i_size v /\ (off + length src <= MAXFILE * BSIZE)%nat) ->
  writei ip src (Z.of_nat off) s = Ret (-1) s.
Proof using All.
  intros Hd. unfold writei. kstep (get_inode_Ret ip s v Hip). kgets. rewrite (proj2 (Z.eqb_neq _ _)) by done. rewrite u32_small by lia.
  destruct (Z.ltb_spec (i_size v) (Z.of_nat off)) as [H|H]; [done|]. rewrite (proj2 (Z.ltb_ge _ (Z.of_nat off))) by lia. cbn [orb].
  rewrite (proj2 (Z.ltb_lt _ _)); [done|]. destruct (decide (off + length src <= MAXFILE * BSIZE)%nat); [|lia]. destruct Hd. lia.
Qed.

End writei.


Lemma finode_inode_ok : inode_ok finode.
Proof. split; try done. repeat constructor; done. Qed.

Lemma finode_apart s : (forall n, view s n = dread bdisk n) -> k_sb s = bsb -> inode_apart s finode.
Proof.
  intros V Esb. assert (EB : IBLOCK (i_inum finode) (k_sb s) = 32) by (by rewrite Esb).
  split; rewrite EB; [|done|].
  - split; rewrite ?Esb; [done| |].
    + unfold used, BBLOCK. rewrite Esb, V, bdisk_read. by vm_compute.
    + intros k Hk. cbn [sb_size bsb] in Hk. unfold BBLOCK. rewrite Z.div_small by (unfold BPB, BSIZE; lia). done.
  - intros bn _. rewrite blk_of_finode. destruct bn as [|[|bn]]; [done|done|]. rewrite nth_overflow by (cbn; lia). done.
Qed.

