(* ===== verification/Dir.v ===== *)
(** Directories and paths: what the functions of fs.c (Fileio.v) that keep a
    directory as a file of 16-byte entries compute, on the list of the
    directory's entries, and what [namex] computes on the list of a path's
    components. *)

From stdpp Require Import base list gmap strings.
From Stdlib Require Import ZArith Lia.
From S2P Require Import Prelude Mem KState Sched Bio Cache Log Block Inode Bmap Console Fileio.

Local Open Scope Z_scope.

(** ** Names *)

(** The name in a field of [n] bytes: what comes before the first NUL. *)
Fixpoint upto (n : nat) (p : list Z) : list Z :=
  match n with
  | O => []
  | S n' => if hd 0 p =? 0 then [] else hd 0 p :: upto n' (tail p)
  end.

Lemma bytes_hd l : bytes l -> 0 <= hd 0 l < 256 /\ bytes (tail l).
Proof. intros [|b l' Hb Hl]; cbn; [split; [lia|constructor]|done]. Qed.

Lemma strncmp_eq n p q : bytes p -> bytes q -> strncmp_ n p q = 0 <-> upto n p = upto n q.
Proof.
  revert p q. induction n as [|n IH]; intros p q Hp Hq; [done|]. cbn.
  destruct (bytes_hd p Hp) as [Hp1 Hp2], (bytes_hd q Hq) as [Hq1 Hq2].
  destruct (Z.eqb_spec (hd 0 p) 0) as [E|E]; cbn.
  - rewrite E. unfold u8. rewrite !Z.mod_small by lia. destruct (Z.eqb_spec (hd 0 q) 0); split; intros; try done; lia.
  - destruct (Z.eqb_spec (hd 0 p) (hd 0 q)) as [E'|E'].
    + rewrite IH by done. rewrite <- E'. rewrite (proj2 (Z.eqb_neq _ _)) by done. split; [by intros ->|by intros [=]].
    + unfold u8. rewrite !Z.mod_small by lia. destruct (Z.eqb_spec (hd 0 q) 0); split; try done; try lia. by intros [=].
Qed.

(** [strncpy] fills the field so that it holds the name. *)
Lemma strncpy_upto n t : upto n (strncpy_ n t) = upto n t /\ length (strncpy_ n t) = n.
Proof.
  revert t. induction n as [|n IH]; intros t; [done|]. destruct t as [|c t]; cbn; [by rewrite length_replicate|].
  destruct (Z.eqb_spec c 0) as [->|Hc]; cbn; [by rewrite length_replicate|].
  rewrite (proj2 (Z.eqb_neq _ _)) by done. destruct (IH t) as [-> ->]. done.
Qed.

(** ** Directories as lists of entries *)

Definition entry (s : kstate) (v : inode) (i : nat) : list Z := fbytes s v (sizeof_dirent * i) sizeof_dirent.
Definition entries (s : kstate) (v : inode) (n : nat) : list (list Z) := map (entry s v) (seq 0 n).

(** An entry in use that carries the name. *)
Definition is_entry (name de : list Z) : bool :=
  negb (de_inum de =? 0) && bool_decide (upto DIRSIZ name = upto DIRSIZ (de_name de)).

(** The first entry with the property, counted from [i]. *)
Fixpoint find_entry (p : list Z -> bool) (i : nat) (es : list (list Z)) : option (nat * list Z) :=
  match es with
  | [] => None
  | de :: es' => if p de then Some (i, de) else find_entry p (S i) es'
  end.

(** The first free entry, or the end of the directory. *)
Definition free_slot (es : list (list Z)) : nat :=
  match find_entry (fun de => de_inum de =? 0) 0 es with Some (i, _) => i | None => length es end.

(** A directory of [n] entries that can be read. *)
Record dir_ok (s : kstate) (v : inode) (n : nat) : Prop := {
  dr_read : readable s v;
  dr_type : i_type v = T_DIR;
  dr_size : i_size v = Z.of_nat (sizeof_dirent * n);
  dr_byte : forall o, (o < MAXFILE * BSIZE)%nat -> 0 <= fdata s v o < 256
}.

Lemma dir_ok_small s v n : dir_ok s v n -> Z.of_nat (sizeof_dirent * n) <= 71680.
Proof. intros []. destruct dr_read0. rewrite maxfile_bytes in *. lia. Qed.

Lemma dir_ok_reading s s' D v n : reading s s' D -> dir_ok s v n -> dir_ok s' v n.
Proof.
  intros HR [H1 H2 H3 H4]. split; [by eapply reading_readable|done|done|]. intros o Ho. rewrite (fdata_ext s s'); [auto|apply HR].
Qed.

Lemma entry_reading s s' D v i : reading s s' D -> entry s' v i = entry s v i.
Proof. intros HR. apply fbytes_ext. apply HR. Qed.

(** Reading the entry at one index. *)
Lemma read_entry s D dp v n i :
  cabs s D ∅ -> (size D < NBUF)%nat -> k_icache s !! dp = Some v -> dir_ok s v n -> (i < n)%nat ->
  exists s', reading s s' D /\ readi dp (Z.of_nat (sizeof_dirent * i)) (Z.of_nat sizeof_dirent) s =
    Ret (Z.of_nat sizeof_dirent, entry s v i) s'.
Proof.
  intros Hc Hsz Hip Hd Hi. pose proof (dir_ok_small _ _ _ Hd) as Hs. destruct Hd as [H1 H2 H3 H4]. unfold sizeof_dirent in *.
  destruct (readi_run s D dp v (16 * i) 16 Hc Hsz Hip H1) as (s' & HR & R); [by rewrite H2|lia|lia|].
  exists s'. split; [done|]. rewrite R. unfold clip. rewrite (proj2 (Z.ltb_ge _ _)) by lia. done.
Qed.

Lemma entry_matches s v n name i : dir_ok s v n -> bytes name -> (i < n)%nat ->
  (de_inum (entry s v i) =? 0) = false -> is_entry name (entry s v i) = (namecmp name (de_name (entry s v i)) =? 0).
Proof.
  intros Hd Hn Hi E. unfold is_entry. rewrite E. cbn [negb andb].
  assert (Hb : bytes (de_name (entry s v i))).
  { apply Forall_take, Forall_drop. apply Forall_map, Forall_forall. intros o Ho%elem_of_seq.
    apply (dr_byte _ _ _ Hd). pose proof (dir_ok_small _ _ _ Hd). apply Nat2Z.inj_lt. rewrite maxfile_bytes. unfold sizeof_dirent in *. lia. }
  pose proof (strncmp_eq DIRSIZ name _ Hn Hb) as Hiff. unfold namecmp.
  case_bool_decide as H; symmetry; [by apply Z.eqb_eq, Hiff|apply Z.eqb_neq; by rewrite Hiff].
Qed.

Lemma entry_off i : u32 (Z.of_nat (sizeof_dirent * i) + Z.of_nat sizeof_dirent) = u32 (Z.of_nat (sizeof_dirent * S i)).
Proof. f_equal. lia. Qed.

Lemma dir_fuel s v n : dir_ok s v n -> (n < Z.to_nat (i_size v / Z.of_nat sizeof_dirent + 2))%nat.
Proof.
  intros Hd. rewrite (dr_size _ _ _ Hd). rewrite Nat2Z.inj_mul, Z.mul_comm, Z.div_mul by done. lia.
Qed.

Section scan.
Context (D : gset Z) (dp : nat) (v : inode) (n : nat) (name : list Z).
Context (Hsz : (size D < NBUF)%nat) (Hname : bytes name).

(** What a scan of the directory knows of the state. *)
Definition scanning (s : kstate) : Prop := cabs s D ∅ /\ k_icache s !! dp = Some v /\ dir_ok s v n.

Lemma scanning_reading s s' : scanning s -> reading s s' D -> scanning s'.
Proof using.
  intros (Hc & Hip & Hd) HR. split; [apply HR|]. split; [by rewrite (cframe_icache s s' (rg_frame _ _ _ HR))|].
  by eapply dir_ok_reading.
Qed.

Lemma scan_at s i k : scanning s -> (i + S k = n)%nat ->
  exists s', reading s s' D /\ scanning s' /\ (Z.of_nat (sizeof_dirent * i) <? i_size v) = true /\
    (forall j, u32 (Z.of_nat (sizeof_dirent * (i + j))) = Z.of_nat (sizeof_dirent * (i + j)) \/ (S k < j)%nat) /\
    readi dp (Z.of_nat (sizeof_dirent * i)) (Z.of_nat sizeof_dirent) s = Ret (Z.of_nat sizeof_dirent, entry s v i) s'.
Proof using Hsz.
  intros Hs Hi. pose proof Hs as (Hc & Hip & Hd). pose proof (dir_ok_small _ _ _ Hd).
  destruct (read_entry s D dp v n i Hc Hsz Hip Hd) as (s' & HR & R); [lia|]. exists s'. split; [done|].
  split; [by eapply scanning_reading|]. rewrite (dr_size _ _ _ Hd). unfold sizeof_dirent in *. split; [apply Z.ltb_lt; lia|].
  split; [|done]. intros j. destruct (decide (S k < j)%nat); [by right|left]. apply u32_small. lia.
Qed.

Lemma entries_cons s i k : map (entry s v) (seq i (S k)) = entry s v i :: map (entry s v) (seq (S i) k).
Proof using. done. Qed.

Lemma entries_reading s s' i k : reading s s' D -> map (entry s' v) (seq i k) = map (entry s v) (seq i k).
Proof using. intros HR. apply map_ext. intros j. by eapply entry_reading. Qed.

Lemma dirlookup_loop_run k : forall i fuel s, scanning s -> (i + k = n)%nat -> (k < fuel)%nat ->
  exists s', reading s s' D /\
    dirlookup_loop dp name fuel (Z.of_nat (sizeof_dirent * i)) s =
    match find_entry (is_entry name) i (map (entry s v) (seq i k)) with
    | None => Ret None s'
    | Some (j, de) => (ip ← iget (i_dev v) (de_inum de); mret (Some (ip, Z.of_nat (sizeof_dirent * j)))) s'
    end.
Proof using Hsz Hname.
  induction k as [|k IH]; intros i fuel s Hs Hi Hf; (destruct fuel as [|fuel]; [lia|]); cbn [dirlookup_loop];
    pose proof Hs as (Hc & Hip & Hd); kstep (get_inode_Ret dp s v Hip).
  { exists s. split; [by split|]. cbn [seq map find_entry]. rewrite (dr_size _ _ _ Hd), (proj2 (Z.ltb_ge _ _)) by lia. done. }
  destruct (scan_at s i k Hs Hi) as (s1 & HR & Hs1 & -> & Hu & R). kstep R. cbn [fst snd]. rewrite Z.eqb_refl. cbn [negb].
  rewrite entries_cons. cbn [find_entry]. rewrite entry_off. destruct (Hu 1%nat) as [Eu|]; [|lia].
  replace (i + 1)%nat with (S i) in Eu by lia. rewrite Eu.
  destruct (IH (S i) fuel s1 Hs1 ltac:(lia) ltac:(lia)) as (s2 & HR2 & R2). rewrite (entries_reading s s1) in R2 by done.
  assert (HR' : reading s s2 D) by (by eapply reading_trans).
  destruct (de_inum (entry s v i) =? 0) eqn:E0.
  { unfold is_entry at 1. rewrite E0. cbn [negb andb]. eauto. }
  rewrite (entry_matches s v n) by (done || lia). destruct (namecmp _ _ =? 0); [|eauto]. eauto.
Qed.

Lemma dirlink_loop_run k : forall i fuel s, scanning s -> (i + k = n)%nat -> (k < fuel)%nat ->
  exists s', reading s s' D /\
    dirlink_loop dp fuel (Z.of_nat (sizeof_dirent * i)) s =
    Ret (Z.of_nat (sizeof_dirent * match find_entry (fun de => de_inum de =? 0) i (map (entry s v) (seq i k)) with
                                   | Some (j, _) => j | None => n end)) s'.
Proof using Hsz.
  induction k as [|k IH]; intros i fuel s Hs Hi Hf; (destruct fuel as [|fuel]; [lia|]); cbn [dirlink_loop];
    pose proof Hs as (Hc & Hip & Hd); kstep (get_inode_Ret dp s v Hip).
  { exists s. split; [by split|]. pose proof (dir_ok_small _ _ _ Hd). rewrite u32_small by (unfold sizeof_dirent in *; lia).
    cbn [seq map find_entry]. rewrite (dr_size _ _ _ Hd), (proj2 (Z.ltb_ge _ _)) by lia. by replace i with n by lia. }
  destruct (scan_at s i k Hs Hi) as (s1 & HR & Hs1 & Hlt & Hu & R). destruct (Hu 0%nat) as [Eu|]; [|lia].
  rewrite Nat.add_0_r in Eu. rewrite Eu, Hlt. kstep R. cbn [fst snd]. rewrite Z.eqb_refl. cbn [negb].
  rewrite entries_cons. cbn [find_entry]. destruct (de_inum (entry s v i) =? 0); [by exists s1|].
  replace (Z.of_nat (sizeof_dirent * i) + Z.of_nat sizeof_dirent) with (Z.of_nat (sizeof_dirent * S i)) by lia.
  destruct (IH (S i) fuel s1 Hs1 ltac:(lia) ltac:(lia)) as (s2 & HR2 & R2). rewrite (entries_reading s s1) in R2 by done.
  exists s2. split; [by eapply reading_trans|done].
Qed.

Lemma dirlookup_run s : scanning s -> exists s', reading s s' D /\
    dirlookup dp name s =
    match find_entry (is_entry name) 0 (entries s v n) with
    | None => Ret None s'
    | Some (j, de) => (ip ← iget (i_dev v) (de_inum de); mret (Some (ip, Z.of_nat (sizeof_dirent * j)))) s'
    end.
Proof using Hsz Hname.
  intros Hs. pose proof Hs as (Hc & Hip & Hd). unfold dirlookup. kstep (get_inode_Ret dp s v Hip).
  rewrite (dr_type _ _ _ Hd), Z.eqb_refl. cbn [negb].
  apply (dirlookup_loop_run n 0 _ s Hs); [lia|by eapply dir_fuel].
Qed.

End scan.

(** [dirlookup] of a name in a readable directory finds the first entry in
    use whose name is the same up to [DIRSIZ] characters, and returns the inode
    [iget] gives for its number with the offset of the entry; it returns none
    when no entry carries the name, and it changes neither the directory nor
    any other block. *)
Theorem dirlookup_finds_first s D dp v n name :
  cabs s D ∅ -> (size D < NBUF)%nat -> k_icache s !! dp = Some v -> dir_ok s v n -> bytes name ->
  exists s', (k_icache s' = k_icache s /\ k_disk s' = k_disk s /\ cabs s' D ∅ /\ forall m, view s' m = view s m) /\
    dirlookup dp name s =
    match find_entry (is_entry name) 0 (entries s v n) with
    | None => Ret None s'
    | Some (j, de) => (ip ← iget (i_dev v) (de_inum de); mret (Some (ip, Z.of_nat (sizeof_dirent * j)))) s'
    end.
Proof.
  intros Hc Hsz Hip Hd Hn. destruct (dirlookup_run D dp v n name Hsz Hn s) as (s' & [F Ed C V] & R); [done|].
  exists s'. split; [|done]. split; [by apply cframe_icache|done].
Qed.

(** ** dirlink *)

Lemma find_entry_app p i a b : find_entry p i (a ++ b) =
  match find_entry p i a with Some r => Some r | None => find_entry p (i + length a) b end.
Proof.
  revert i. induction a as [|d a IH]; intros i; cbn; [by rewrite Nat.add_0_r|]. rewrite IH. destruct (p d); [done|].
  by replace (S i + length a)%nat with (i + S (length a))%nat by lia.
Qed.

Lemma find_entry_spec p i es : match find_entry p i es with
  | Some (j, d) => exists k, j = (i + k)%nat /\ es !! k = Some d /\ p d = true
  | None => forall k d, es !! k = Some d -> p d = false
  end.
Proof.
  revert i. induction es as [|d es IH]; intros i; cbn; [done|]. destruct (p d) eqn:E; [exists 0%nat; by rewrite Nat.add_0_r|].
  specialize (IH (S i)). destruct (find_entry p (S i) es) as [[j e]|].
  - destruct IH as (k & -> & Hk & Hp). exists (S k). split; [lia|done].
  - intros [|k] e He; [by injection He as <-|by eapply IH].
Qed.

Lemma find_entry_none p i es : (forall k d, es !! k = Some d -> p d = false) -> find_entry p i es = None.
Proof.
  revert i. induction es as [|d es IH]; intros i H; cbn; [done|]. rewrite (H 0%nat d) by done. apply IH. intros k. apply (H (S k)).
Qed.

(** The list with the element at [j], or a new last one, replaced. *)
Definition put_entry (j : nat) (de : list Z) (es : list (list Z)) : list (list Z) := take j es ++ de :: drop (S j) es.

(** Replacing an entry that [p] does not accept by another such keeps what is found. *)
Lemma find_put_other p j de es : (forall d, es !! j = Some d -> p d = false) -> p de = false ->
  find_entry p 0 (put_entry j de es) = find_entry p 0 es.
Proof.
  intros Hj Hde. unfold put_entry. destruct (es !! j) as [d|] eqn:E.
  - rewrite <- (take_drop_middle es j d E) at 3. rewrite !find_entry_app. cbn. by rewrite Hde, Hj.
  - apply lookup_ge_None in E. rewrite take_ge, drop_ge by lia. rewrite find_entry_app. cbn. rewrite Hde. by destruct (find_entry p 0 es) as [[]|].
Qed.

Lemma find_put_new p j de es : (j <= length es)%nat -> find_entry p 0 es = None -> p de = true ->
  find_entry p 0 (put_entry j de es) = Some (j, de).
Proof.
  intros Hj Hn Hde. pose proof (find_entry_spec p 0 es) as Hs. rewrite Hn in Hs. unfold put_entry. rewrite find_entry_app.
  rewrite find_entry_none.
  - cbn. rewrite Hde, length_take. by replace (j `min` length es)%nat with j by lia.
  - intros k d Hk. apply (Hs k). destruct (decide (k < j)%nat); [by rewrite lookup_take_lt in Hk|by rewrite lookup_take_ge in Hk by lia].
Qed.

Lemma free_slot_spec es : (free_slot es <= length es)%nat /\ forall d, es !! free_slot es = Some d -> de_inum d = 0.
Proof.
  unfold free_slot. pose proof (find_entry_spec (fun de => de_inum de =? 0) 0 es) as H.
  destruct (find_entry _ 0 es) as [[j d]|]; [|split; [lia|]; intros d Hd; apply lookup_lt_Some in Hd; lia].
  destruct H as (k & -> & Hk & Hd%Z.eqb_eq). split; [apply lookup_lt_Some in Hk; cbn; lia|]. cbn. intros e He. congruence.
Qed.

(** The entry [dirlink] writes. *)
Definition new_entry (name : list Z) (inum : Z) : list Z := le_enc 2 (u16 inum) ++ strncpy_ DIRSIZ name.

Lemma new_entry_spec name inum : 0 < inum < 2 ^ 16 -> bytes name ->
  length (new_entry name inum) = sizeof_dirent /\ de_inum (new_entry name inum) = inum /\
  upto DIRSIZ (de_name (new_entry name inum)) = upto DIRSIZ name.
Proof.
  intros Hi Hn. destruct (strncpy_upto DIRSIZ name) as [Eu El]. unfold new_entry.
  assert (L2 : length (le_enc 2 (u16 inum)) = 2%nat) by apply length_le_enc. split; [rewrite length_app, L2, El; done|].
  unfold de_inum, de_name, slice. split.
  - rewrite drop_0, take_app_le, take_ge by lia. rewrite le_dec_enc by apply u16_range. unfold u16. apply Z.mod_small. lia.
  - rewrite drop_app_le, drop_ge by lia. rewrite app_nil_l, take_ge by lia. done.
Qed.

Lemma reading_tframe s s' D : reading s s' D -> tframe s s'.
Proof. intros [F Ed _ _]. by apply tframe_cframe. Qed.

Lemma reading_txn s s' bl : txn s ∅ bl -> reading s s' (list_to_set bl) -> txn s' ∅ bl.
Proof.
  intros [H1 H2 H3 H4 H5 H6] [F Ed C V]. split; rewrite ?(cframe_log _ _ F), ?(cframe_held _ _ F), ?Ed; done.
Qed.

Lemma touched_entry j : touched (sizeof_dirent * j) sizeof_dirent = 1%nat.
Proof.
  unfold touched. symmetry. assert (E : ((sizeof_dirent * j) mod BSIZE = 16 * (j mod 32))%nat).
  { change BSIZE with (sizeof_dirent * 32)%nat. by rewrite Nat.Div0.mul_mod_distr_l. }
  rewrite E. pose proof (Nat.mod_upper_bound j 32 ltac:(lia)). unfold sizeof_dirent, BSIZE.
  apply (Nat.div_unique _ _ _ (16 * (j mod 32) + 15)); lia.
Qed.

(** The entries of the directory after [writei] of one of them. *)
Lemma written_entry dp s v n j de s' v' bl' i :
  length de = sizeof_dirent -> (sizeof_dirent * S n <= MAXFILE * BSIZE)%nat ->
  written dp s v (sizeof_dirent * j) de s' v' bl' -> (i <= n)%nat ->
  entry s' v' i = if decide (i = j) then de else entry s v i.
Proof.
  intros Hl Hmax HW Hi. unfold entry, fbytes.
  assert (Ed : map (fun o => nth (o - sizeof_dirent * j) de 0) (seq (sizeof_dirent * j) sizeof_dirent) = de).
  { rewrite <- Hl at 2. generalize (sizeof_dirent * j)%nat as o. clear. induction de as [|d de IH]; intros o; [done|].
    cbn [length seq map]. rewrite Nat.sub_diag. f_equal. rewrite <- (IH (S o)) at 2. apply map_ext_in. intros k Hk%in_seq.
    by replace (k - o)%nat with (S (k - S o)) by lia. }
  case_decide as Hij; [rewrite <- Ed; subst i|]; apply map_ext_in; intros o Ho%in_seq;
    rewrite (wn_data _ _ _ _ _ _ _ _ HW), Hl by (unfold sizeof_dirent in *; lia); [by rewrite decide_True|].
  by rewrite decide_False by (unfold sizeof_dirent in *; lia).
Qed.

Lemma written_entries dp s v n j de s' v' bl' :
  length de = sizeof_dirent -> (sizeof_dirent * S n <= MAXFILE * BSIZE)%nat ->
  written dp s v (sizeof_dirent * j) de s' v' bl' -> (j <= n)%nat ->
  entries s' v' (n `max` S j) = put_entry j de (entries s v n).
Proof.
  intros Hl Hmax HW Hj. pose proof (fun i => written_entry dp s v n j de s' v' bl' i Hl Hmax HW) as He.
  unfold entries, put_entry. rewrite firstn_map, skipn_map, take_seq, drop_seq.
  replace (n `max` S j)%nat with (j `min` n + S (n - S j))%nat by lia. rewrite seq_app, map_app. f_equal.
  - apply map_ext_in. intros i Hi%in_seq. rewrite He by lia. by rewrite decide_False by lia.
  - replace (0 + j `min` n)%nat with j by lia. cbn [seq map]. rewrite He, decide_True by lia. f_equal. rewrite Nat.add_0_l.
    apply map_ext_in. intros i Hi%in_seq. rewrite He by lia. by rewrite decide_False by lia.
Qed.

(** The two scans of [dirlink], and the write that follows. *)
Lemma dirlink_scan s D dp v n name inum :
  (size D < NBUF)%nat -> bytes name -> scanning D dp v n s -> find_entry (is_entry name) 0 (entries s v n) = None ->
  exists s', reading s s' D /\ dirlink dp name inum s =
    (r ← writei dp (new_entry name inum) (Z.of_nat (sizeof_dirent * free_slot (entries s v n)));
     if negb (r =? Z.of_nat sizeof_dirent) then panic "dirlink" else mret 0) s'.
Proof.
  intros Hsz Hn Hs Hnone. destruct (dirlookup_run D dp v n name Hsz Hn s Hs) as (s1 & HR1 & R1). rewrite Hnone in R1.
  pose proof (scanning_reading D dp v n s s1 Hs HR1) as Hs1. pose proof Hs1 as (_ & Hip1 & Hd1).
  destruct (dirlink_loop_run D dp v n Hsz n 0 (Z.to_nat (i_size v / Z.of_nat sizeof_dirent + 2)) s1 Hs1) as (s2 & HR2 & R2);
    [lia|by eapply dir_fuel|]. exists s2. split; [by eapply reading_trans|].
  unfold dirlink. kstep R1. kstep (get_inode_Ret dp s1 v Hip1). rewrite Nat.mul_0_r in R2. kstep R2.
  rewrite (entries_reading D v s s1) by done. fold (entries s v n).
  assert (Ef : match find_entry (fun de => de_inum de =? 0) 0 (entries s v n) with Some (j, _) => j | None => n end =
    free_slot (entries s v n)).
  { unfold free_slot. destruct (find_entry _ _ _) as [[]|]; [done|]. unfold entries. by rewrite length_map, length_seq. }
  rewrite Ef. rewrite u32_small; [done|]. pose proof (dir_ok_small _ _ _ Hd1). destruct (free_slot_spec (entries s v n)) as [Hj _].
  unfold entries in Hj at 2. rewrite length_map, length_seq in Hj. unfold sizeof_dirent in *. lia.
Qed.

Lemma inode_apart_view s s' v : inode_apart s v -> tframe s s' -> (forall m, view s' m = view s m) -> inode_apart s' v.
Proof.
  intros [H1 H2 H3] F V. pose proof (tframe_sb _ _ F) as Esb. split; rewrite ?Esb; [by eapply data_block_view|done|].
  intros bn Hb. rewrite (blk_of_view s s') by auto. by apply H3.
Qed.

Lemma size_list_to_set_le (bl : list Z) : (size (list_to_set bl : gset Z) <= length bl)%nat.
Proof.
  pose proof (size_list_union bl ∅) as H. rewrite union_empty_r_L, size_empty in H. lia.
Qed.

(** Writing one entry. *)
Lemma write_entry s bl dp v n j de :
  txn s ∅ bl -> bitmap_ok s ∅ -> k_icache s !! dp = Some v -> file_ok s v -> inode_ok v -> inode_apart s v ->
  dir_ok s v n -> (sizeof_dirent * S n <= MAXFILE * BSIZE)%nat -> (j <= n)%nat -> length de = sizeof_dirent ->
  (length bl + 6 < NBUF)%nat -> Z.of_nat (length bl + 6) < log_room s ->
  (exists s' v' bl', writei dp de (Z.of_nat (sizeof_dirent * j)) s = Ret (Z.of_nat sizeof_dirent) s' /\
     written dp s v (sizeof_dirent * j) de s' v' bl' /\ readable s' v') \/
  (blk_of s v (sizeof_dirent * j / BSIZE) = 0 /\
   exists s', writei dp de (Z.of_nat (sizeof_dirent * j)) s = Stop (Panic "balloc: out of blocks") s' /\ disk_full s').
Proof.
  intros Ht Hbm Hip Hf Hok Hap Hd Hmax Hj Hl Hroom Hlog. pose proof (dir_ok_small _ _ _ Hd) as Hs.
  destruct Hd as [H1 H2 H3 _]. assert (Et : touched (sizeof_dirent * j) (length de) = 1%nat) by (rewrite Hl; apply touched_entry).
  assert (Hle : (sizeof_dirent * j + length de <= MAXFILE * BSIZE)%nat) by (unfold sizeof_dirent in *; lia).
  assert (Hoff : Z.of_nat (sizeof_dirent * j) <= i_size v) by (unfold sizeof_dirent in *; lia).
  destruct (writei_run s bl dp v (sizeof_dirent * j) de Ht Hbm Hip (rd_dev _ _ H1) Hf Hok Hap) as [(s' & v' & bl' & R & HW)|((o & Ho & E) & HP)];
    rewrite ?Et, ?Hl in *; try done; try (unfold sizeof_dirent in *; lia); [by rewrite H2| |].
  - left. exists s', v', bl'. split; [done|]. split; [done|]. eapply written_readable; try done. by rewrite Hl.
  - right. split; [|done]. rewrite <- E. f_equal.
    assert (Em : ((sizeof_dirent * j) mod BSIZE = sizeof_dirent * (j mod 32))%nat).
    { change BSIZE with (sizeof_dirent * 32)%nat. by rewrite Nat.Div0.mul_mod_distr_l. }
    pose proof (Nat.mod_upper_bound j 32 ltac:(lia)). rewrite <- (proj1 (same_block (sizeof_dirent * j) (o - sizeof_dirent * j) ltac:(unfold sizeof_dirent, BSIZE in *; lia))).
    f_equal. lia.
Qed.

(** What is found after a name that was not there has been added. *)
Lemma find_after_put name inum es : bytes name -> 0 < inum < 2 ^ 16 -> find_entry (is_entry name) 0 es = None ->
  let j := free_slot es in let de := new_entry name inum in
  find_entry (is_entry name) 0 (put_entry j de es) = Some (j, de) /\
  forall other, upto DIRSIZ other <> upto DIRSIZ name ->
    find_entry (is_entry other) 0 (put_entry j de es) = find_entry (is_entry other) 0 es.
Proof.
  intros Hn Hi Hnone j de. destruct (new_entry_spec name inum Hi Hn) as (_ & Hin & Hnm). destruct (free_slot_spec es) as [Hj Hfree].
  split; [apply find_put_new; [done|done|]|intros other Ho; apply find_put_other].
  - unfold is_entry, de. rewrite Hin, Hnm. rewrite (proj2 (Z.eqb_neq _ _)) by lia. by rewrite bool_decide_true.
  - intros d Hd. unfold is_entry. by rewrite (Hfree d Hd).
  - unfold is_entry, de. rewrite Hnm, bool_decide_false by done. apply andb_false_r.
Qed.

(** C18: [dirlink] of a name that no entry carries writes one entry, into the
    first free slot or at the end: afterwards the directory is the old list of
    entries with that one replaced (or one more), the new name is found there
    with its inode number, and every other name is found where it was.  It
    panics only if the directory needed a block and the disk has none. *)
Theorem dirlink_adds_entry s bl dp v n name inum :
  let es := entries s v n in let j := free_slot es in let de := new_entry name inum in
  txn s ∅ bl -> bitmap_ok s ∅ -> k_icache s !! dp = Some v -> file_ok s v -> inode_ok v -> inode_apart s v ->
  dir_ok s v n -> (sizeof_dirent * S n <= MAXFILE * BSIZE)%nat -> bytes name -> 0 < inum < 2 ^ 16 ->
  (length bl + 6 < NBUF)%nat -> Z.of_nat (length bl + 6) < log_room s ->
  find_entry (is_entry name) 0 es = None ->
  (exists s' v' bl', dirlink dp name inum s = Ret 0 s' /\ k_icache s' !! dp = Some v' /\ txn s' ∅ bl' /\ readable s' v' /\
     i_size v' = Z.of_nat (sizeof_dirent * (n `max` S j)) /\
     entries s' v' (n `max` S j) = put_entry j de es /\
     find_entry (is_entry name) 0 (put_entry j de es) = Some (j, de) /\ de_inum de = inum /\
     forall other, upto DIRSIZ other <> upto DIRSIZ name ->
       find_entry (is_entry other) 0 (put_entry j de es) = find_entry (is_entry other) 0 es) \/
  (blk_of s v (sizeof_dirent * j / BSIZE) = 0 /\
   exists s', dirlink dp name inum s = Stop (Panic "balloc: out of blocks") s' /\ disk_full s').
Proof.
  intros es j de Ht Hbm Hip Hf Hok Hap Hd Hmax Hn Hi Hroom Hlog Hnone.
  destruct (dirlink_scan s (list_to_set bl) dp v n name inum) as (s1 & HR & ->); try done.
  { pose proof (size_list_to_set_le bl). lia. } { split; [by destruct Ht|done]. }
  pose proof (reading_tframe _ _ _ HR) as F1. pose proof (rg_view _ _ _ HR) as V1.
  destruct (new_entry_spec name inum Hi Hn) as (Hl & Hin & _). destruct (free_slot_spec es) as [Hj _].
  destruct (find_after_put name inum es Hn Hi Hnone) as [Hfn Hfo].
  assert (El : length es = n) by (unfold es, entries; by rewrite length_map, length_seq). rewrite El in Hj.
  fold es j de in Hl, Hin, Hj |- *. assert (Hip1 : k_icache s1 !! dp = Some v) by (by rewrite (cframe_icache s s1 (rg_frame _ _ _ HR))).
  destruct (write_entry s1 bl dp v n j de) as [(s' & v' & bl' & R & HW & Hrd)|(E & s' & R & Hfull)]; try done.
  - by eapply reading_txn.
  - by eapply bitmap_ok_view.
  - by eapply file_ok_view.
  - by eapply inode_apart_view.
  - by eapply dir_ok_reading.
  - by rewrite (tframe_room _ _ F1).
  - left. exists s', v', bl'. kstep R. rewrite Z.eqb_refl. split; [done|].
    split; [eapply tframe_inode; [by eapply lookup_lt_Some|by apply HW]|]. split; [by apply HW|]. split; [done|].
    split; [|split; [|done]].
    + rewrite (wn_inode _ _ _ _ _ _ _ _ HW). ksimp. rewrite (dr_size _ _ _ Hd), Hl. unfold sizeof_dirent. lia.
    + rewrite (written_entries dp s1 v n j de s' v' bl') by done. unfold es, entries. by rewrite (entries_reading (list_to_set bl) v s s1).
  - right. split; [by rewrite <- (blk_of_view s s1) by auto|]. exists s'. by rewrite (bind_Stop _ _ _ _ _ R).
Qed.

(** A directory of the small file system with two free entries. *)
Definition fdir : inode := set_i_size 32 (set_i_type T_DIR finode).

Lemma fdir_zero s o : (forall n, view s n = dread bdisk n) -> fdata s fdir o = 0.
Proof.
  intros V. unfold fdata. change (blk_of s fdir) with (blk_of s finode). rewrite blk_of_finode, V, bdisk_read.
  destruct (o / BSIZE)%nat as [|[|[|]]]; cbn [nth]; [..|done|done]; rewrite (proj2 (Z.eqb_neq _ _)) by done;
    rewrite !decide_False by done; unfold zblock; rewrite nth_lookup;
    destruct (replicate _ _ !! _) eqn:E; try done; by apply lookup_replicate in E as [-> _].
Qed.

Lemma fdir_entries s : (forall n, view s n = dread bdisk n) -> entries s fdir 2 = replicate 2 (replicate 16 0).
Proof.
  intros V. unfold entries, entry, fbytes. cbn [seq map replicate]. unfold sizeof_dirent. cbn [Nat.mul Nat.add seq map].
  by rewrite !(fdir_zero s) by done.
Qed.

Lemma fdir_ok s : (forall n, view s n = dread bdisk n) -> k_disk s = bdisk -> dir_ok s fdir 2.
Proof.
  intros V Ed. split; [|done|done|intros o _; rewrite fdir_zero by done; lia].
  destruct (finode_readable s Ed) as [H1 H2 H3 H4 H5]. split; [exact H1|exact H2|by rewrite maxfile_bytes|exact H4|].
  intros bn Hb. apply (H5 bn). change (i_size finode) with 600. change (i_size fdir) with 32 in Hb. lia.
Qed.

Lemma dirlookup_finds_first_witness : exists s s', dirlookup 0 [97] s = Ret None s'.
Proof.
  destruct fs_state as (s & Ht & Esb & Ed & El & V & Ei & _). set (s1 := iset 0 fdir s).
  destruct (dirlookup_finds_first s1 ∅ 0 fdir 2 [97]) as (s' & _ & R).
  - apply (tx_cabs s1 ∅ [] (txn_iset _ _ _ _ _ Ht)).
  - rewrite size_empty. unfold NBUF. cbn. lia.
  - unfold s1, iset. ksimp. by rewrite Ei.
  - by apply fdir_ok.
  - repeat constructor; lia.
  - exists s1, s'. rewrite R, fdir_entries by done. done.
Defined.

Lemma dirlink_adds_entry_witness : exists s s' v', dirlink 0 [97] 7 s = Ret 0 s' /\ k_icache s' !! 0%nat = Some v' /\
  entries s' v' 2 = [[7; 0; 97] ++ replicate 13 0; replicate 16 0].
Proof.
  destruct fs_state as (s & Ht & Esb & Ed & El & V & Ei & _). set (s1 := iset 0 fdir s).
  pose proof (fdir_entries s1 V) as Ee.
  destruct (dirlink_adds_entry s1 [] 0 fdir 2 [97] 7) as [(s' & v' & bl' & R & Hv & _ & _ & _ & E & _)|(E & _)].
  - by apply txn_iset.
  - apply bitmap_ok_iset. by apply bitmap_state.
  - unfold s1, iset. ksimp. by rewrite Ei.
  - destruct (file_state s1 V Esb). by split.
  - destruct finode_inode_ok. by split.
  - destruct (finode_apart s1 V Esb). by split.
  - by apply fdir_ok.
  - apply Nat2Z.inj_le. rewrite maxfile_bytes. cbn. lia.
  - repeat constructor; lia.
  - lia.
  - unfold NBUF. cbn. lia.
  - unfold s1, iset, log_room. ksimp. rewrite El. by vm_compute.
  - by rewrite Ee.
  - exists s1, s', v'. split; [done|]. split; [done|]. rewrite Ee in E. exact E.
  - exfalso. rewrite Ee in E. change (blk_of s1 fdir) with (blk_of s1 finode) in E. rewrite blk_of_finode in E. done.
Defined.

(** ** Paths as lists of components *)

(** The fields of a path between slashes, the empty ones included. *)
Fixpoint split_slash (path : list Z) : list (list Z) :=
  match path with
  | [] => [[]]
  | c :: path' =>
      if c =? c_slash then [] :: split_slash path'
      else match split_slash path' with
           | [] => [[c]]
           | e :: es => (c :: e) :: es
           end
  end.

(** The names a path goes through. *)
Definition components (path : list Z) : list (list Z) :=
  map (take DIRSIZ) (filter (fun e => e <> []) (split_slash path)).

(** The walk of [namex] from [ip] along a list of names. *)
Fixpoint walk (nameiparent : bool) (ip : nat) (names : list (list Z)) (last : list Z) : K (option (nat * list Z)) :=
  match names with
  | [] => if nameiparent then iput ip ;; mret None else mret (Some (ip, last))
  | name :: rest =>
      ilock ip ;;
      v ← get_inode ip;
      if negb (i_type v =? T_DIR) then iunlockput ip ;; mret None
      else if (nameiparent && bool_decide (rest = []))%bool then iunlock ip ;; mret (Some (ip, name))
      else
        next ← dirlookup ip name;
        match next with
        | None => iunlockput ip ;; mret None
        | Some (next, _) => iunlockput ip ;; walk nameiparent next rest name
        end
  end.

Lemma components_skip path : components (skip_slashes path) = components path.
Proof.
  induction path as [|c path IH]; [done|]. cbn [skip_slashes]. destruct (Z.eqb_spec c c_slash) as [->|]; [|done].
  rewrite IH. unfold components. cbn [split_slash]. rewrite Z.eqb_refl. by rewrite filter_cons_False by naive_solver.
Qed.

Lemma skip_slashes_hd path c p : skip_slashes path = c :: p -> c <> c_slash.
Proof. induction path as [|d path IH]; cbn; [done|]. destruct (Z.eqb_spec d c_slash); [apply IH|]. by intros [= <- _]. Qed.

Lemma skip_slashes_length path : (length (skip_slashes path) <= length path)%nat.
Proof. induction path; cbn; [lia|]. case_match; cbn; lia. Qed.

Lemma cut_elem_split path e r : cut_elem path = (e, r) ->
  split_slash path = e :: match r with [] => [] | _ :: r' => split_slash r' end /\ (length e + length r = length path)%nat.
Proof.
  revert e r. induction path as [|c path IH]; intros e r; cbn; [by intros [= <- <-]|].
  destruct (Z.eqb_spec c c_slash) as [->|Hc]; [by intros [= <- <-]|].
  destruct (cut_elem path) as [e' r']. intros [= <- <-]. destruct (IH _ _ eq_refl) as [-> <-]. done.
Qed.

Lemma cut_elem_rest path e c r : cut_elem path = (e, c :: r) -> c = c_slash.
Proof.
  revert e. induction path as [|d path IH]; intros e; cbn; [done|]. destruct (Z.eqb_spec d c_slash) as [->|Hd]; [by intros [= _ <- _]|].
  destruct (cut_elem path) as [e' r']. intros [= <- ->]. by eapply IH.
Qed.

(** A path without leading slashes has a component unless it is empty. *)
Lemma components_empty path : components path = [] <-> skip_slashes path = [].
Proof.
  rewrite <- components_skip. split; [|by intros ->]. destruct (skip_slashes path) as [|c p] eqn:E; [done|].
  pose proof (skip_slashes_hd _ _ _ E) as Hc. unfold components. cbn [split_slash]. rewrite (proj2 (Z.eqb_neq _ _)) by done.
  destruct (split_slash p); rewrite filter_cons_True by done; done.
Qed.

Lemma skipelem_None path : skipelem path = None -> components path = [].
Proof.
  intros H. apply components_empty. unfold skipelem in H. destruct (skip_slashes path); [done|]. by case_match.
Qed.

Lemma skipelem_Some path name r : skipelem path = Some (name, r) ->
  components path = name :: components r /\ (length r < length path)%nat /\ skip_slashes r = r.
Proof.
  unfold skipelem. pose proof (components_skip path) as Ec. pose proof (skip_slashes_length path) as Hl.
  destruct (skip_slashes path) as [|c p] eqn:E; [done|]. pose proof (skip_slashes_hd _ _ _ E) as Hc.
  destruct (cut_elem (c :: p)) as [e t] eqn:Ect. intros [= <- <-]. pose proof (cut_elem_split _ _ _ Ect) as [Es El].
  pose proof (skip_slashes_length t). assert (e <> []) as He.
  { intros ->. cbn in Ect. rewrite (proj2 (Z.eqb_neq _ _)) in Ect by done. by destruct (cut_elem p). }
  assert (length e <> 0%nat) by (by destruct e). split; [|split; [lia|]].
  - rewrite <- Ec, components_skip. unfold components. rewrite Es, filter_cons_True by done. cbn. f_equal.
    destruct t as [|d t]; [done|]. rewrite (cut_elem_rest _ _ _ _ Ect). change (skip_slashes (c_slash :: t)) with (skip_slashes t).
    apply (f_equal (map (take DIRSIZ)) (eq_refl (filter (fun e => e <> []) (split_slash t)))).
  - clear. induction t as [|d t IH]; [done|]. cbn. destruct (Z.eqb_spec d c_slash) as [|Hd]; [done|]. cbn.
    by rewrite (proj2 (Z.eqb_neq _ _)).
Qed.

Lemma namex_loop_walk np fuel ip path name s : (length path < fuel)%nat ->
  namex_loop np fuel ip path name s = walk np ip (components path) name s.
Proof.
  revert ip path name s. induction fuel as [|fuel IH]; intros ip path name s Hl; [lia|]. cbn [namex_loop].
  destruct (skipelem path) as [[e r]|] eqn:E; [|by rewrite (skipelem_None _ E)].
  destruct (skipelem_Some _ _ _ E) as (-> & Hlt & Hr). cbn [walk].
  apply bind_ext. intros _ s1. apply bind_ext. intros v s2. destruct (negb _); [done|].
  rewrite (bool_decide_ext (components r = []) (r = [])) by (rewrite components_empty, Hr; done).
  destruct (np && _)%bool; [done|]. apply bind_ext. intros [[next o]|] s3; [|done].
  apply bind_ext. intros _ s4. apply IH. lia.
Qed.

(** [namex] always terminates, and does what a walk along the non-empty
    components of the path (cut to [DIRSIZ] characters) does: repeated, leading
    and trailing slashes do not matter, and with [nameiparent] the walk stops
    before the last component. *)
Theorem namex_walks_components path np s :
  namex path np s =
  (ip ← (if hd 0 path =? c_slash then iget ROOTDEV ROOTINO
         else me ← myproc; q ← get_proc me; cwd ← deref (p_cwd q); idup cwd);
   walk np ip (components path) []) s.
Proof. unfold namex. apply bind_ext. intros ip s1. apply namex_loop_walk. lia. Qed.
