(* ===== verification/Vm.v ===== *)
(** * Virtual memory: src/xv6/vm.c

    A page directory is a page of the kernel's memory ([k_mem]) with 1024
    32-bit entries, each of which may point to a page table, a page with 1024
    entries of its own; an entry carries the physical address of a page and
    its flags.  The functions below read and write those words as the code
    does.  The kernel sees physical memory at [KERNBASE], so [p2v] turns the
    address in an entry into the one the kernel uses.

    A null result of [kalloc] that the code uses without a test ([inituvm],
    [uva2ka]) is the outcome [Fault].  The fuel of a loop over an address range
    is the number of its pages. *)

From stdpp Require Import base list list_numbers numbers gmap strings.
From Stdlib Require Import ZArith Lia.
From S2P Require Import Prelude Mem CString KState Sched Kalloc Printf Block Inode Console Fileio.

(** ** mmu.h and memlayout.h *)

Definition EXTMEM : Z := 0x100000.
Definition DEVSPACE : Z := 0xFE000000.
Definition KERNLINK : Z := KERNBASE + EXTMEM.
Definition NPDENTRIES : Z := 1024.
Definition NPTENTRIES : Z := 1024.
Definition PTE_P : Z := 0x001.
Definition PTE_W : Z := 0x002.
Definition PTE_U : Z := 0x004.
Definition PTE_ADDR (pte : Z) : Z := Z.land pte (Z.lnot 0xFFF).
Definition PTE_FLAGS (pte : Z) : Z := Z.land pte 0xFFF.
Definition PDX (va : Z) : Z := Z.land (Z.shiftr va 22) 0x3FF.
Definition PTX (va : Z) : Z := Z.land (Z.shiftr va 12) 0x3FF.

Definition rd32 (a : Z) : K Z := gets (fun s => ld32 (k_mem s) a).
Definition wr32 (a v : Z) : K unit := modify (fun s => set_k_mem (st32 (k_mem s) a v) s).
Definition memset_ (a v n : Z) : K unit := modify (fun s => set_k_mem (Kernel.memset (k_mem s) a v n) s).
Definition memmove_ (dst src n : Z) : K unit := modify (fun s => set_k_mem (Kernel.memmove (k_mem s) dst src n) s).
(** memmove of bytes the model has as a list. *)
Definition copy_bytes (a : Z) (l : list Z) : K unit := modify (fun s => set_k_mem (st (k_mem s) a l) s).

(** ** Page tables *)

(** The address of the entry for [va], or 0. *)
Definition walkpgdir (pgdir va : Z) (alloc : bool) : K Z :=
  let pde := u32 (pgdir + 4 * PDX va) in
  d ← rd32 pde;
  if flag d PTE_P then mret (u32 (p2v (PTE_ADDR d) + 4 * PTX va))
  else if negb alloc then mret 0
  else
    pgtab ← kalloc;
    if pgtab =? 0 then mret 0
    else
      memset_ pgtab 0 PGSIZE ;;
      wr32 pde (Z.lor (Z.lor (Z.lor (v2p pgtab) PTE_P) PTE_W) PTE_U) ;;
      mret (u32 (pgtab + 4 * PTX va)).

Fixpoint mappages_loop (pgdir perm last : Z) (fuel : nat) (a pa : Z) : K Z :=
  match fuel with
  | O => stop NoFuel
  | S fuel' =>
      pte ← walkpgdir pgdir a true;
      if pte =? 0 then mret (-1)
      else
        e ← rd32 pte;
        if flag e PTE_P then panic "remap"
        else
          wr32 pte (Z.lor (Z.lor pa perm) PTE_P) ;;
          if a =? last then mret 0
          else mappages_loop pgdir perm last fuel' (u32 (a + PGSIZE)) (u32 (pa + PGSIZE))
  end.

Definition mappages (pgdir va size pa perm : Z) : K Z :=
  let a := u32 (PGROUNDDOWN va) in
  let last := u32 (PGROUNDDOWN (u32 (va + size - 1))) in
  mappages_loop pgdir perm last (S (Z.to_nat (u32 (last - a) / PGSIZE))) a pa.

Section vm.
(** [end] and [data] are addresses the linker chooses. *)
Context (end_ data_ : Z).

(** virt, phys_start, phys_end, perm *)
Definition kmap : list (Z * Z * Z * Z) :=
  [ (KERNBASE, 0, EXTMEM, PTE_W);
    (KERNLINK, v2p KERNLINK, v2p data_, 0);
    (data_, v2p data_, PHYSTOP, PTE_W);
    (DEVSPACE, DEVSPACE, 0, PTE_W) ].

Fixpoint setupkvm_loop (pgdir : Z) (km : list (Z * Z * Z * Z)) : K Z :=
  match km with
  | [] => mret pgdir
  | (virt, phys_start, phys_end, perm) :: km' =>
      r ← mappages pgdir virt (u32 (phys_end - phys_start)) phys_start perm;
      if r <? 0 then mret 0 else setupkvm_loop pgdir km'
  end.

Definition setupkvm : K Z :=
  pgdir ← kalloc;
  if pgdir =? 0 then mret 0
  else
    memset_ pgdir 0 PGSIZE ;;
    if DEVSPACE <? p2v PHYSTOP then panic "PHYSTOP too high"
    else setupkvm_loop pgdir kmap.

Definition kvmalloc : K unit :=
  pgdir ← setupkvm;
  modify (set_k_kpgdir pgdir) ;;
  switchkvm.

Definition inituvm (pgdir : Z) (init : list Z) : K unit :=
  if PGSIZE <=? Z.of_nat (length init) then panic "inituvm: more than a page"
  else
    mem ← kalloc;
    if mem =? 0 then stop Fault
    else
      memset_ mem 0 PGSIZE ;;
      mappages pgdir 0 PGSIZE (v2p mem) (Z.lor PTE_W PTE_U) ;;
      copy_bytes mem init.

Fixpoint loaduvm_loop (pgdir addr : Z) (ip : nat) (offset sz : Z) (fuel : nat) (i : Z) : K Z :=
  match fuel with
  | O => stop NoFuel
  | S fuel' =>
      if i <? sz then
        pte ← walkpgdir pgdir (u32 (addr + i)) false;
        if pte =? 0 then panic "loaduvm: address should exist"
        else
          e ← rd32 pte;
          let pa := PTE_ADDR e in
          let n := if u32 (sz - i) <? PGSIZE then u32 (sz - i) else PGSIZE in
          r ← readi ip (u32 (offset + i)) n;
          copy_bytes (p2v pa) r.2 ;;
          if negb (r.1 =? n) then mret (-1)
          else loaduvm_loop pgdir addr ip offset sz fuel' (u32 (i + PGSIZE))
      else mret 0
  end.

Definition loaduvm (pgdir addr : Z) (ip : nat) (offset sz : Z) : K Z :=
  if negb (addr mod PGSIZE =? 0) then panic "loaduvm: addr must be page aligned"
  else loaduvm_loop pgdir addr ip offset sz (Z.to_nat (sz / PGSIZE + 2)) 0.

Fixpoint deallocuvm_loop (pgdir oldsz : Z) (fuel : nat) (a : Z) : K unit :=
  match fuel with
  | O => stop NoFuel
  | S fuel' =>
      if a <? oldsz then
        pte ← walkpgdir pgdir a false;
        if pte =? 0 then deallocuvm_loop pgdir oldsz fuel' (u32 (u32 (a + (NPTENTRIES - 1) * PGSIZE) + PGSIZE))
        else
          e ← rd32 pte;
          (if flag e PTE_P then
             let pa := PTE_ADDR e in
             if pa =? 0 then panic "kfree"
             else kfree end_ (p2v pa) ;; wr32 pte 0
           else mret tt) ;;
          deallocuvm_loop pgdir oldsz fuel' (u32 (a + PGSIZE))
      else mret tt
  end.

Definition deallocuvm (pgdir oldsz newsz : Z) : K Z :=
  if oldsz <=? newsz then mret oldsz
  else
    deallocuvm_loop pgdir oldsz (Z.to_nat (oldsz / PGSIZE + 2)) (u32 (PGROUNDUP newsz)) ;;
    mret newsz.

Fixpoint allocuvm_loop (pgdir oldsz newsz : Z) (fuel : nat) (a : Z) : K Z :=
  match fuel with
  | O => stop NoFuel
  | S fuel' =>
      if a <? newsz then
        mem ← kalloc;
        if mem =? 0 then
          cprintf_ (chars "allocuvm out of memory" ++ [10]) [] ;;
          deallocuvm pgdir newsz oldsz ;;
          mret 0
        else
          memset_ mem 0 PGSIZE ;;
          mappages pgdir a PGSIZE (v2p mem) (Z.lor PTE_W PTE_U) ;;
          allocuvm_loop pgdir oldsz newsz fuel' (u32 (a + PGSIZE))
      else mret newsz
  end.

Definition allocuvm (pgdir oldsz newsz : Z) : K Z :=
  if KERNBASE <=? newsz then mret 0
  else if newsz <? oldsz then mret oldsz
  else allocuvm_loop pgdir oldsz newsz (Z.to_nat (newsz / PGSIZE + 2)) (u32 (PGROUNDUP oldsz)).

Definition freevm_one (pgdir i : Z) : K unit :=
  d ← rd32 (u32 (pgdir + 4 * i));
  if flag d PTE_P then kfree end_ (p2v (PTE_ADDR d)) else mret tt.

Definition freevm (pgdir : Z) : K unit :=
  if pgdir =? 0 then panic "freevm: no pgdir"
  else
    deallocuvm pgdir KERNBASE 0 ;;
    for_loop (Z.to_nat NPDENTRIES) 0 (freevm_one pgdir) ;;
    kfree end_ pgdir.

Definition clearpteu (pgdir uva : Z) : K unit :=
  pte ← walkpgdir pgdir uva false;
  if pte =? 0 then panic "clearpteu"
  else e ← rd32 pte; wr32 pte (Z.land e (Z.lnot PTE_U)).

(** The loop of [copyuvm]: true when every page was copied. *)
Fixpoint copyuvm_loop (d pgdir sz : Z) (fuel : nat) (i : Z) : K bool :=
  match fuel with
  | O => stop NoFuel
  | S fuel' =>
      if i <? sz then
        pte ← walkpgdir pgdir i false;
        if pte =? 0 then panic "copyuvm: pte should exist"
        else
          e ← rd32 pte;
          if negb (flag e PTE_P) then panic "copyuvm: page not present"
          else
            let pa := PTE_ADDR e in
            let flags := PTE_FLAGS e in
            mem ← kalloc;
            if mem =? 0 then mret false
            else
              memmove_ mem (p2v pa) PGSIZE ;;
              r ← mappages d i PGSIZE (v2p mem) flags;
              if r <? 0 then mret false
              else copyuvm_loop d pgdir sz fuel' (u32 (i + PGSIZE))
      else mret true
  end.

Definition copyuvm (pgdir sz : Z) : K Z :=
  d ← setupkvm;
  if d =? 0 then mret 0
  else
    ok ← copyuvm_loop d pgdir sz (Z.to_nat (sz / PGSIZE + 2)) 0;
    if (ok : bool) then mret d else freevm d ;; mret 0.

End vm.

Definition uva2ka (pgdir uva : Z) : K Z :=
  pte ← walkpgdir pgdir uva false;
  if pte =? 0 then stop Fault
  else
    e ← rd32 pte;
    if negb (flag e PTE_P) then mret 0
    else if negb (flag e PTE_U) then mret 0
    else mret (p2v (PTE_ADDR e)).

Fixpoint copyout_loop (pgdir : Z) (fuel : nat) (va : Z) (buf : list Z) : K Z :=
  match fuel with
  | O => stop NoFuel
  | S fuel' =>
      let len := Z.of_nat (length buf) in
      if 0 <? len then
        let va0 := u32 (PGROUNDDOWN va) in
        pa0 ← uva2ka pgdir va0;
        if pa0 =? 0 then mret (-1)
        else
          let n := PGSIZE - (va - va0) in
          let n := if len <? n then len else n in
          copy_bytes (u32 (pa0 + (va - va0))) (take (Z.to_nat n) buf) ;;
          copyout_loop pgdir fuel' (u32 (va0 + PGSIZE)) (drop (Z.to_nat n) buf)
      else mret 0
  end.

(** The bytes at [p] are passed as a list. *)
Definition copyout (pgdir va : Z) (p : list Z) : K Z :=
  copyout_loop pgdir (Z.to_nat (Z.of_nat (length p) / PGSIZE + 3)) va p.
