(* ===== verification/File.v ===== *)
(** * Open files: src/xv6/file.c, and pipealloc of pipe.c

    The table of open files with their reference counts.  A file is its index
    in [k_ftable]; the bytes of a read are returned and those of a write passed
    as lists.  [filewrite] cuts a long write into operations of the log, so its
    loop takes the number of such operations as fuel.  [fileinit] only names
    the lock. *)

From stdpp Require Import base list list_numbers numbers gmap strings.
From Stdlib Require Import ZArith Lia.
From S2P Require Import Prelude Mem KState Sched Kalloc Bio Cache Log Pipe Block Inode Bmap Console Fileio.

Fixpoint filealloc_loop (i n : nat) : K (option nat) :=
  match n with
  | O => release L_ftable ;; mret None
  | S n' =>
      f ← get_file i;
      if f_ref f =? 0 then
        upd_file i (set_f_ref 1) ;;
        release L_ftable ;;
        mret (Some i)
      else filealloc_loop (S i) n'
  end.
Definition filealloc : K (option nat) := acquire L_ftable ;; filealloc_loop 0 NFILE.

Definition filedup (i : nat) : K nat :=
  acquire L_ftable ;;
  f ← get_file i;
  if f_ref f <? 1 then panic "filedup"
  else
    upd_file i (set_f_ref (s32 (f_ref f + 1))) ;;
    release L_ftable ;;
    mret i.

Section file.
(** [end], as in Kalloc.v. *)
Context (end_ : Z).

Definition fileclose (i : nat) : K unit :=
  acquire L_ftable ;;
  f ← get_file i;
  if f_ref f <? 1 then panic "fileclose"
  else
    upd_file i (set_f_ref (f_ref f - 1)) ;;
    if 0 <? f_ref f - 1 then release L_ftable
    else
      ff ← get_file i;
      upd_file i (set_f_ref 0) ;;
      upd_file i (set_f_type FD_NONE) ;;
      release L_ftable ;;
      match f_type ff with
      | FD_PIPE => pipeclose end_ (f_pipe ff) (f_writable ff)
      | FD_INODE =>
          begin_op ;;
          ip ← deref (f_ip ff);
          iput ip ;;
          end_op
      | FD_NONE => mret tt
      end.

Definition filestat (i : nat) : K (Z * option stat) :=
  f ← get_file i;
  if bool_decide (f_type f = FD_INODE) then
    ip ← deref (f_ip f);
    ilock ip ;;
    st ← stati ip;
    iunlock ip ;;
    mret (0, Some st)
  else mret (-1, None).

Definition fileread (i : nat) (n : Z) : K (Z * list Z) :=
  f ← get_file i;
  if f_readable f =? 0 then mret (-1, [])
  else
    match f_type f with
    | FD_PIPE => piperead (f_pipe f) n
    | FD_INODE =>
        ip ← deref (f_ip f);
        ilock ip ;;
        r ← readi ip (f_off f) (u32 n);
        (if 0 <? r.1 then upd_file i (set_f_off (u32 (f_off f + r.1))) else mret tt) ;;
        iunlock ip ;;
        mret r
    | FD_NONE => panic "fileread"
    end.

Definition filewrite_max : Z := ((LOGSIZE - 1 - 1 - 2) / 2) * 512.

(** The loop of [filewrite]: the value of [i] after it. *)
Fixpoint filewrite_loop (f : nat) (addr : list Z) (n : Z) (fuel : nat) (i : Z) : K Z :=
  match fuel with
  | O => stop NoFuel
  | S fuel' =>
      if i <? n then
        let n1 := if filewrite_max <? n - i then filewrite_max else n - i in
        begin_op ;;
        v ← get_file f;
        ip ← deref (f_ip v);
        ilock ip ;;
        r ← writei ip (slice addr (Z.to_nat i) (Z.to_nat n1)) (f_off v);
        (if 0 <? r then upd_file f (set_f_off (u32 (f_off v + r))) else mret tt) ;;
        iunlock ip ;;
        end_op ;;
        if r <? 0 then mret i
        else if negb (r =? n1) then panic "short filewrite"
        else filewrite_loop f addr n fuel' (i + r)
      else mret i
  end.

Definition filewrite (i : nat) (addr : list Z) (n : Z) : K Z :=
  f ← get_file i;
  if f_writable f =? 0 then mret (-1)
  else
    match f_type f with
    | FD_PIPE => pipewrite (f_pipe f) addr n
    | FD_INODE =>
        r ← filewrite_loop i addr n (Z.to_nat (n / filewrite_max + 2)) 0;
        mret (if r =? n then n else -1)
    | FD_NONE => panic "filewrite"
    end.

(** The fields [pipealloc] fills in; the other bytes of the page are what
    they were, and the ring starts out empty. *)
Definition new_pipe (m : mem) (p : Z) : pipe :=
  mkPipe (ld m (p + 52) (Z.to_nat PIPESIZE)) 0 0 1 1.

Definition pipealloc : K (option (nat * nat)) :=
  f0 ← filealloc;
  f1 ← (match f0 with None => mret None | Some _ => filealloc end);
  match f0, f1 with
  | Some a, Some b =>
      p ← kalloc;
      if p =? 0 then
        fileclose a ;; fileclose b ;; mret None
      else
        modify (fun s => set_k_pipes (<[p := new_pipe (k_mem s) p]> (k_pipes s)) s) ;;
        upd_file a (set_f_type FD_PIPE) ;;
        upd_file a (set_f_readable 1) ;;
        upd_file a (set_f_writable 0) ;;
        upd_file a (set_f_pipe p) ;;
        upd_file b (set_f_type FD_PIPE) ;;
        upd_file b (set_f_readable 0) ;;
        upd_file b (set_f_writable 1) ;;
        upd_file b (set_f_pipe p) ;;
        mret (Some (a, b))
  | Some a, None => fileclose a ;; mret None
  | None, _ => mret None
  end.

End file.
