(* ===== verification/Sysarg.v ===== *)
(** * System call arguments: the fetch and arg functions of src/xv6/syscall.c

    The kernel reads the memory of the current process through the page table
    loaded in %cr3.  [uaddr] is the translation the processor makes: a missing
    page is the outcome [Fault].  Where the C code keeps a pointer to a string
    of the process, the model keeps its characters; as the comment in the code
    says, they cannot change before the kernel uses them. *)

From stdpp Require Import base list list_numbers numbers gmap strings.
From Stdlib Require Import ZArith Lia.
From S2P Require Import Prelude Mem KState Sched Kalloc Vm.

(** ** The memory of the process *)

(** The address at which the kernel finds the byte that the process has at [va]. *)
Definition uaddr (va : Z) : K Z :=
  cr3 ← gets k_cr3;
  d ← rd32 (u32 (p2v cr3 + 4 * PDX va));
  if negb (flag d PTE_P) then stop Fault
  else
    e ← rd32 (u32 (p2v (PTE_ADDR d) + 4 * PTX va));
    if negb (flag e PTE_P) then stop Fault
    else mret (u32 (p2v (PTE_ADDR e) + va mod PGSIZE)).

Definition uld8 (va : Z) : K Z := a ← uaddr va; gets (fun s => ld8 (k_mem s) a).
Definition ust8 (va b : Z) : K unit := a ← uaddr va; modify (fun s => set_k_mem (st8 (k_mem s) a b) s).

Fixpoint uld (va : Z) (n : nat) : K (list Z) :=
  match n with
  | O => mret []
  | S n' => b ← uld8 va; l ← uld (u32 (va + 1)) n'; mret (b :: l)
  end.
Fixpoint ust (va : Z) (l : list Z) : K unit :=
  match l with
  | [] => mret tt
  | b :: l' => ust8 va b ;; ust (u32 (va + 1)) l'
  end.

Definition cur : K proc := me ← myproc; get_proc me.

(** ** Arguments *)

(** None is the result -1. *)
Definition fetchint (addr : Z) : K (option Z) :=
  p ← cur;
  if ((p_sz p <=? addr) || (p_sz p <? u32 (addr + 4)))%bool then mret None
  else l ← uld addr 4; mret (Some (s32 (le_dec l))).

(** The loop of [fetchstr] from [s] on: the characters before the NUL. *)
Fixpoint fetchstr_loop (fuel : nat) (s ep : Z) : K (option (list Z)) :=
  match fuel with
  | O => stop NoFuel
  | S fuel' =>
      if s <? ep then
        c ← uld8 s;
        if c =? 0 then mret (Some [])
        else
          r ← fetchstr_loop fuel' (s + 1) ep;
          mret (cons c <$> r)
      else mret None
  end.
Definition fetchstr (addr : Z) : K (option (list Z)) :=
  p ← cur;
  if p_sz p <=? addr then mret None
  else fetchstr_loop (S (Z.to_nat (p_sz p - addr))) addr (p_sz p).

Definition argint (n : Z) : K (option Z) :=
  p ← cur; fetchint (u32 (tf_esp (p_tf p) + 4 + 4 * n)).

(** The pointer, when the block of [size] bytes is within the process. *)
Definition argptr (n size : Z) : K (option Z) :=
  i ← argint n;
  match i with
  | None => mret None
  | Some i =>
      p ← cur;
      if ((p_sz p <=? u32 i) || (p_sz p <? u32 (u32 i + size)))%bool then mret None
      else mret (Some (u32 i))
  end.

Definition argstr (n : Z) : K (option (list Z)) :=
  addr ← argint n;
  match addr with
  | None => mret None
  | Some addr => fetchstr (u32 addr)
  end.
