(* ===== verification/Exec.v ===== *)
(** * Loading a program: src/xv6/exec.c

    [exec] is cut at its two phases: [exec_image] checks the ELF header and
    loads the segments while the inode is locked, [exec_stack] builds the
    stack of the new image.  Each returns none where the code jumps to
    [bad].  The headers are local variables of the C function: their bytes
    before [readi] fills them ([stk]) are arbitrary, and they matter because
    the code compares the result of [readi] with an unsigned size. *)

From stdpp Require Import base list list_numbers numbers gmap strings.
From Stdlib Require Import ZArith Lia.
From S2P Require Import Prelude Mem KState Sched Kalloc Log Block Inode Console Fileio Vm Sysarg.

(** ** elf.h *)

Definition ELF_MAGIC : Z := 0x464C457F.
Definition ELF_PROG_LOAD : Z := 1.
Definition sizeof_elfhdr : Z := 52.
Definition elf_magic (e : list Z) : Z := le_dec (slice e 0 4).
Definition elf_entry (e : list Z) : Z := le_dec (slice e 24 4).
Definition elf_phoff (e : list Z) : Z := le_dec (slice e 28 4).
Definition elf_phnum (e : list Z) : Z := le_dec (slice e 44 2).
Definition sizeof_proghdr : Z := 32.
Definition ph_type (h : list Z) : Z := le_dec (slice h 0 4).
Definition ph_off (h : list Z) : Z := le_dec (slice h 4 4).
Definition ph_vaddr (h : list Z) : Z := le_dec (slice h 8 4).
Definition ph_filesz (h : list Z) : Z := le_dec (slice h 16 4).
Definition ph_memsz (h : list Z) : Z := le_dec (slice h 20 4).
Definition MAXARG : nat := 32.

(** ** safestrcpy on a field *)

(** string.c: [safestrcpy] into the bytes [dst], with [n] the value of the
    counter after its first decrement. *)
Fixpoint safestrcpy_copy (n : nat) (dst t : list Z) : list Z :=
  match n with
  | O => 0 :: tail dst
  | S n' => if hd 0 t =? 0 then 0 :: 0 :: drop 2 dst else hd 0 t :: safestrcpy_copy n' (tail dst) (tail t)
  end.
Definition safestrcpy_ (n : nat) (dst t : list Z) : list Z :=
  match n with O => dst | S n' => safestrcpy_copy n' dst t end.

Section exec.
Context (end_ data_ : Z) (stk : list Z).

(** The loop over the program headers: the size of the image. *)
Fixpoint exec_load (ip : nat) (pgdir : Z) (n : nat) (off sz : Z) : K (option Z) :=
  match n with
  | O => mret (Some sz)
  | S n' =>
      r ← readi ip (u32 off) sizeof_proghdr;
      let ph := r.2 in
      if negb (r.1 =? sizeof_proghdr) then mret None
      else if negb (ph_type ph =? ELF_PROG_LOAD) then exec_load ip pgdir n' (s32 (off + sizeof_proghdr)) sz
      else if ph_memsz ph <? ph_filesz ph then mret None
      else
        sz ← allocuvm end_ pgdir sz (u32 (ph_vaddr ph + ph_memsz ph));
        if sz =? 0 then mret None
        else
          r ← loaduvm pgdir (ph_vaddr ph) ip (ph_off ph) (ph_filesz ph);
          if r <? 0 then mret None
          else exec_load ip pgdir n' (s32 (off + sizeof_proghdr)) sz
  end.

(** The page directory (0 when there is none yet), and the image's size and
    entry point. *)
Definition exec_image (ip : nat) : K (Z * option (Z * Z)) :=
  r ← readi ip 0 sizeof_elfhdr;
  let elf := r.2 ++ drop (length r.2) stk in
  if u32 r.1 <? sizeof_elfhdr then mret (0, None)
  else if negb (elf_magic elf =? ELF_MAGIC) then mret (0, None)
  else
    pgdir ← setupkvm data_;
    if pgdir =? 0 then mret (0, None)
    else
      sz ← exec_load ip pgdir (Z.to_nat (elf_phnum elf)) (s32 (elf_phoff elf)) 0;
      mret (pgdir, (fun sz => (sz, elf_entry elf)) <$> sz).

(** Pushing the argument strings: the stack pointer and the pointers to the
    strings. *)
Fixpoint exec_args (pgdir : Z) (argv : list (list Z)) (argc : nat) (sp : Z) : K (option (Z * list Z)) :=
  match argv with
  | [] => mret (Some (sp, []))
  | arg :: argv' =>
      if (MAXARG <=? argc)%nat then mret None
      else
        let sp := Z.land (u32 (sp - (Z.of_nat (length arg) + 1))) (Z.lnot 3) in
        r ← copyout pgdir sp (arg ++ [0]);
        if r <? 0 then mret None
        else
          rest ← exec_args pgdir argv' (S argc) sp;
          mret ((fun r => (r.1, sp :: r.2)) <$> rest)
  end.

(** The stack of the new image: its size and the stack pointer. *)
Definition exec_stack (pgdir sz : Z) (argv : list (list Z)) : K (option (Z * Z)) :=
  let sz := u32 (PGROUNDUP sz) in
  sz ← allocuvm end_ pgdir sz (u32 (sz + 2 * PGSIZE));
  if sz =? 0 then mret None
  else
    clearpteu pgdir (u32 (sz - 2 * PGSIZE)) ;;
    r ← exec_args pgdir argv 0 sz;
    match r with
    | None => mret None
    | Some (sp, ptrs) =>
        let argc := Z.of_nat (length ptrs) in
        let ustack := [0xffffffff; argc; u32 (sp - (argc + 1) * 4)] ++ ptrs ++ [0] in
        let sp := u32 (sp - (3 + argc + 1) * 4) in
        r ← copyout pgdir sp (concat (map (le_enc 4) ustack));
        if r <? 0 then mret None else mret (Some (sz, sp))
    end.

(** The part of the path after its last slash. *)
Fixpoint path_last (last s : list Z) : list Z :=
  match s with
  | [] => last
  | c :: s' => path_last (if c =? c_slash then s' else last) s'
  end.

Definition exec (path : list Z) (argv : list (list Z)) : K Z :=
  begin_op ;;
  o ← namei path;
  match o with
  | None => end_op ;; mret (-1)
  | Some ip =>
      ilock ip ;;
      r ← exec_image ip;
      match r with
      | (pgdir, None) =>
          (if pgdir =? 0 then mret tt else freevm end_ pgdir) ;;
          iunlockput ip ;;
          end_op ;;
          mret (-1)
      | (pgdir, Some (sz, entry)) =>
          iunlockput ip ;;
          end_op ;;
          r ← exec_stack pgdir sz argv;
          match r with
          | None => freevm end_ pgdir ;; mret (-1)
          | Some (sz, sp) =>
              me ← myproc;
              p ← get_proc me;
              upd_proc me (set_p_name (safestrcpy_ 16 (p_name p) (path_last path path))) ;;
              upd_proc me (set_p_pgdir pgdir) ;;
              upd_proc me (set_p_sz sz) ;;
              upd_proc me (fun p => set_p_tf (set_tf_esp sp (set_tf_eip entry (p_tf p))) p) ;;
              switchuvm me ;;
              freevm end_ (p_pgdir p) ;;
              mret 0
          end
      end
  end.

End exec.
