(* ===== verification/Process.v ===== *)
(** * Processes: the rest of src/xv6/proc.c

    Creating, growing, ending and waiting for processes.  [exit] does not
    return: its run ends in the scheduler.  A parent without a zombie child
    sleeps in [wait], and resumes at [wait_loop].  The trap frame and the
    context of a process are kept by value in its table entry (see KState.v);
    what [allocproc] puts on the new kernel stack besides them, the return
    address of [forkret], is written to memory.  [pinit] only names the
    lock. *)

From stdpp Require Import base list list_numbers numbers gmap strings.
From Stdlib Require Import ZArith Lia.
From S2P Require Import Prelude Mem KState Sched Kalloc Log Printf Block Inode Console Fileio Vm File Sysarg Exec.

Definition SEG_UCODE : Z := 4.
Definition SEG_UDATA : Z := 5.
Definition DPL_USER : Z := 3.
Definition FL_IF : Z := 0x200.
Definition sizeof_trapframe : Z := 76.

Section process.
(** Addresses the linker chooses, and the bytes of initcode.S. *)
Context (end_ data_ forkret_ trapret_ : Z) (initcode : list Z).

Fixpoint allocproc_loop (i n : nat) : K (option nat) :=
  match n with
  | O => mret None
  | S n' => p ← get_proc i; if bool_decide (p_state p = UNUSED) then mret (Some i) else allocproc_loop (S i) n'
  end.

Definition allocproc : K (option nat) :=
  acquire L_ptable ;;
  o ← allocproc_loop 0 NPROC;
  match o with
  | None => release L_ptable ;; mret None
  | Some i =>
      upd_proc i (set_p_state EMBRYO) ;;
      pid ← gets k_nextpid;
      upd_proc i (set_p_pid pid) ;;
      modify (set_k_nextpid (s32 (pid + 1))) ;;
      release L_ptable ;;
      kstack ← kalloc;
      upd_proc i (set_p_kstack kstack) ;;
      if kstack =? 0 then upd_proc i (set_p_state UNUSED) ;; mret None
      else
        let sp := u32 (kstack + KSTACKSIZE - sizeof_trapframe) in
        wr32 (u32 (sp - 4)) trapret_ ;;
        upd_proc i (set_p_context (set_cx_eip forkret_ ctx0)) ;;
        mret (Some i)
  end.

Definition userinit : K unit :=
  o ← allocproc;
  modify (set_k_initproc o) ;;
  i ← deref o;
  pgdir ← setupkvm data_;
  upd_proc i (set_p_pgdir pgdir) ;;
  if pgdir =? 0 then panic "userinit: out of memory?"
  else
    inituvm pgdir initcode ;;
    upd_proc i (set_p_sz PGSIZE) ;;
    let ds := Z.lor (Z.shiftl SEG_UDATA 3) DPL_USER in
    upd_proc i (set_p_tf
      (set_tf_eip 0 (set_tf_esp PGSIZE (set_tf_eflags FL_IF (set_tf_ss ds (set_tf_es ds (set_tf_ds ds
        (set_tf_cs (Z.lor (Z.shiftl SEG_UCODE 3) DPL_USER) tf0)))))))) ;;
    upd_proc i (fun p => set_p_name (safestrcpy_ 16 (p_name p) (chars "initcode")) p) ;;
    cwd ← namei (chars "/");
    upd_proc i (set_p_cwd cwd) ;;
    upd_proc i (set_p_state RUNNABLE).

Definition growproc (n : Z) : K Z :=
  me ← myproc;
  p ← get_proc me;
  let sz := p_sz p in
  r ← (if 0 <? n then
         sz ← allocuvm end_ (p_pgdir p) sz (u32 (sz + n)); mret (if sz =? 0 then None else Some sz)
       else if n <? 0 then
         sz ← deallocuvm end_ (p_pgdir p) sz (u32 (sz + n)); mret (if sz =? 0 then None else Some sz)
       else mret (Some sz));
  match r with
  | None => mret (-1)
  | Some sz =>
      upd_proc me (set_p_sz sz) ;;
      switchuvm me ;;
      mret 0
  end.

(** The loop of [fork] over the parent's descriptors, from [fd] on. *)
Fixpoint fork_files (np : nat) (fd : nat) (ofile : list (option nat)) : K unit :=
  match ofile with
  | [] => mret tt
  | o :: ofile' =>
      (match o with
       | None => mret tt
       | Some f =>
           f ← filedup f;
           upd_proc np (fun p => set_p_ofile (<[fd := Some f]> (p_ofile p)) p)
       end) ;;
      fork_files np (S fd) ofile'
  end.

Definition fork : K Z :=
  o ← allocproc;
  match o with
  | None => mret (-1)
  | Some np =>
      me ← myproc;
      p ← get_proc me;
      pgdir ← copyuvm end_ data_ (p_pgdir p) (p_sz p);
      upd_proc np (set_p_pgdir pgdir) ;;
      if pgdir =? 0 then
        q ← get_proc np;
        kfree end_ (p_kstack q) ;;
        upd_proc np (set_p_kstack 0) ;;
        upd_proc np (set_p_state UNUSED) ;;
        mret (-1)
      else
        upd_proc np (set_p_sz (p_sz p)) ;;
        upd_proc np (set_p_parent (Some me)) ;;
        upd_proc np (set_p_tf (set_tf_eax 0 (p_tf p))) ;;
        fork_files np 0 (p_ofile p) ;;
        cwd ← deref (p_cwd p);
        cwd ← idup cwd;
        upd_proc np (set_p_cwd (Some cwd)) ;;
        upd_proc np (fun q => set_p_name (safestrcpy_ 16 (p_name q) (p_name p)) q) ;;
        q ← get_proc np;
        acquire L_ptable ;;
        upd_proc np (set_p_state RUNNABLE) ;;
        release L_ptable ;;
        mret (p_pid q)
  end.

Fixpoint exit_files (me fd n : nat) : K unit :=
  match n with
  | O => mret tt
  | S n' =>
      p ← get_proc me;
      o ← deref (p_ofile p !! fd);
      (match o with
       | None => mret tt
       | Some f =>
           fileclose end_ f ;;
           upd_proc me (fun p => set_p_ofile (<[fd := None]> (p_ofile p)) p)
       end) ;;
      exit_files me (S fd) n'
  end.

(** Passing the children of [me] to init. *)
Fixpoint exit_children (me : nat) (i n : nat) : K unit :=
  match n with
  | O => mret tt
  | S n' =>
      p ← get_proc i;
      init ← gets k_initproc;
      (if bool_decide (p_parent p = Some me) then
         upd_proc i (set_p_parent init) ;;
         if bool_decide (p_state p = ZOMBIE) then wakeup1 (C_proc <$> init) else mret tt
       else mret tt) ;;
      exit_children me (S i) n'
  end.

(** [exit] once the files are closed and the directory is released. *)
Definition exit_finish (me : nat) : K unit :=
  acquire L_ptable ;;
  p ← get_proc me;
  wakeup1 (C_proc <$> p_parent p) ;;
  exit_children me 0 NPROC ;;
  upd_proc me (set_p_state ZOMBIE) ;;
  sched ;;
  panic "zombie exit".

Definition exit : K unit :=
  me ← myproc;
  init ← gets k_initproc;
  if bool_decide (Some me = init) then panic "init exiting"
  else
    exit_files me 0 NOFILE ;;
    begin_op ;;
    p ← get_proc me;
    cwd ← deref (p_cwd p);
    iput cwd ;;
    end_op ;;
    upd_proc me (set_p_cwd None) ;;
    exit_finish me.

(** One scan of the table by [wait]: the pid of a zombie child that was freed,
    or whether there is a child. *)
Fixpoint wait_scan (me : nat) (i n : nat) (havekids : bool) : K (Z + bool) :=
  match n with
  | O => mret (inr havekids)
  | S n' =>
      p ← get_proc i;
      if negb (bool_decide (p_parent p = Some me)) then wait_scan me (S i) n' havekids
      else if bool_decide (p_state p = ZOMBIE) then
        kfree end_ (p_kstack p) ;;
        upd_proc i (set_p_kstack 0) ;;
        freevm end_ (p_pgdir p) ;;
        upd_proc i (set_p_state UNUSED) ;;
        upd_proc i (set_p_pid 0) ;;
        upd_proc i (set_p_parent None) ;;
        upd_proc i (fun p => set_p_name (<[0%nat := 0]> (p_name p)) p) ;;
        upd_proc i (set_p_killed 0) ;;
        release L_ptable ;;
        mret (inl (p_pid p))
      else wait_scan me (S i) n' true
  end.

Definition wait_loop : K Z :=
  me ← myproc;
  r ← wait_scan me 0 NPROC false;
  match r with
  | inl pid => mret pid
  | inr havekids =>
      p ← get_proc me;
      if (negb havekids || negb (p_killed p =? 0))%bool then release L_ptable ;; mret (-1)
      else block (C_proc me) L_ptable
  end.
Definition wait : K Z := acquire L_ptable ;; wait_loop.

(** [first] is the static variable of the C function; its new value is returned. *)
Definition forkret (first : bool) : K bool :=
  release L_ptable ;;
  (if first then iinit ROOTDEV ;; initlog ROOTDEV else mret tt) ;;
  mret false.

End process.
