(* ===== verification/Sysfile.v ===== *)
(** * System calls on files: src/xv6/sysfile.c

    Each call fetches its arguments from the stack of the process, checks
    them, and works on files and inodes.  The result is the value the process
    finds in %eax. *)

From stdpp Require Import base list list_numbers numbers gmap strings.
From Stdlib Require Import ZArith Lia.
From S2P Require Import Prelude Mem KState Sched Kalloc Log Printf Block Inode Console Fileio Vm File Sysarg Exec.

(** fcntl.h *)
Definition O_RDONLY : Z := 0x000.
Definition O_WRONLY : Z := 0x001.
Definition O_RDWR : Z := 0x002.
Definition O_CREATE : Z := 0x200.

(** The descriptor and the file. *)
Definition argfd (n : Z) : K (option (Z * nat)) :=
  fd ← argint n;
  match fd with
  | None => mret None
  | Some fd =>
      if ((fd <? 0) || (Z.of_nat NOFILE <=? fd))%bool then mret None
      else
        p ← cur;
        o ← deref (p_ofile p !! Z.to_nat fd);
        mret (pair fd <$> o)
  end.

Fixpoint fdalloc_loop (me : nat) (f : nat) (fd n : nat) : K (option nat) :=
  match n with
  | O => mret None
  | S n' =>
      p ← get_proc me;
      o ← deref (p_ofile p !! fd);
      match o with
      | None => upd_proc me (fun p => set_p_ofile (<[fd := Some f]> (p_ofile p)) p) ;; mret (Some fd)
      | Some _ => fdalloc_loop me f (S fd) n'
      end
  end.
Definition fdalloc (f : nat) : K (option nat) := me ← myproc; fdalloc_loop me f 0 NOFILE.

Definition sys_dup : K Z :=
  a ← argfd 0;
  match a with
  | None => mret (-1)
  | Some (_, f) =>
      fd ← fdalloc f;
      match fd with
      | None => mret (-1)
      | Some fd => filedup f ;; mret (Z.of_nat fd)
      end
  end.

(** The common arguments of read and write: the file, the buffer and its length. *)
Definition rw_args : K (option (nat * Z * Z)) :=
  a ← argfd 0;
  match a with
  | None => mret None
  | Some (_, f) =>
      n ← argint 2;
      match n with
      | None => mret None
      | Some n =>
          p ← argptr 1 n;
          mret ((fun p => (f, p, n)) <$> p)
      end
  end.

Definition sys_read : K Z :=
  a ← rw_args;
  match a with
  | None => mret (-1)
  | Some (f, p, n) =>
      r ← fileread f n;
      ust p r.2 ;;
      mret r.1
  end.

Definition sys_write : K Z :=
  a ← rw_args;
  match a with
  | None => mret (-1)
  | Some (f, p, n) =>
      l ← uld p (Z.to_nat n);
      filewrite f l n
  end.

Section sysfile.
(** As in Kalloc.v, Vm.v and Exec.v. *)
Context (end_ data_ : Z) (stk : list Z).

Definition sys_close : K Z :=
  a ← argfd 0;
  match a with
  | None => mret (-1)
  | Some (fd, f) =>
      me ← myproc;
      upd_proc me (fun p => set_p_ofile (<[Z.to_nat fd := None]> (p_ofile p)) p) ;;
      fileclose end_ f ;;
      mret 0
  end.

(** [struct stat] in memory: type, dev, ino, nlink, size. *)
Definition sizeof_stat : Z := 20.
Definition stat_bytes (old : list Z) (st : stat) : list Z :=
  le_enc 2 (u16 (st_type st)) ++ slice old 2 2 ++ le_enc 4 (u32 (st_dev st)) ++ le_enc 4 (st_ino st) ++
  le_enc 2 (u16 (st_nlink st)) ++ slice old 14 2 ++ le_enc 4 (st_size st).

Definition sys_fstat : K Z :=
  a ← argfd 0;
  match a with
  | None => mret (-1)
  | Some (_, f) =>
      p ← argptr 1 sizeof_stat;
      match p with
      | None => mret (-1)
      | Some p =>
          r ← filestat f;
          (match r.2 with
           | None => mret tt
           | Some st => old ← uld p (Z.to_nat sizeof_stat); ust p (stat_bytes old st)
           end) ;;
          mret r.1
      end
  end.

(** The end of [sys_link] when the new entry cannot be made. *)
Definition link_bad (ip : nat) : K Z :=
  ilock ip ;;
  upd_inode ip (fun v => set_i_nlink (s16 (i_nlink v - 1)) v) ;;
  iupdate ip ;;
  iunlockput ip ;;
  end_op ;;
  mret (-1).

Definition sys_link : K Z :=
  old ← argstr 0;
  new ← (match old with None => mret None | Some _ => argstr 1 end);
  match old, new with
  | Some old, Some new =>
      begin_op ;;
      o ← namei old;
      match o with
      | None => end_op ;; mret (-1)
      | Some ip =>
          ilock ip ;;
          v ← get_inode ip;
          if i_type v =? T_DIR then iunlockput ip ;; end_op ;; mret (-1)
          else
            upd_inode ip (fun v => set_i_nlink (s16 (i_nlink v + 1)) v) ;;
            iupdate ip ;;
            iunlock ip ;;
            o ← nameiparent new;
            match o with
            | None => link_bad ip
            | Some (dp, name) =>
                ilock dp ;;
                d ← get_inode dp;
                v ← get_inode ip;
                r ← (if negb (i_dev d =? i_dev v) then mret (-1) else dirlink dp name (i_inum v));
                if r <? 0 then iunlockput dp ;; link_bad ip
                else
                  iunlockput dp ;;
                  iput ip ;;
                  end_op ;;
                  mret 0
            end
      end
  | _, _ => mret (-1)
  end.

Fixpoint isdirempty_loop (dp : nat) (fuel : nat) (off : Z) : K bool :=
  match fuel with
  | O => stop NoFuel
  | S fuel' =>
      v ← get_inode dp;
      if u32 off <? i_size v then
        r ← readi dp (u32 off) (Z.of_nat sizeof_dirent);
        if negb (r.1 =? Z.of_nat sizeof_dirent) then panic "isdirempty: readi"
        else if negb (de_inum r.2 =? 0) then mret false
        else isdirempty_loop dp fuel' (off + Z.of_nat sizeof_dirent)
      else mret true
  end.
Definition isdirempty (dp : nat) : K bool :=
  v ← get_inode dp;
  isdirempty_loop dp (Z.to_nat (i_size v / Z.of_nat sizeof_dirent + 2)) (2 * Z.of_nat sizeof_dirent).

Definition unlink_bad (dp : nat) : K Z := iunlockput dp ;; end_op ;; mret (-1).

Definition sys_unlink : K Z :=
  a ← argstr 0;
  match a with
  | None => mret (-1)
  | Some path =>
      begin_op ;;
      o ← nameiparent path;
      match o with
      | None => end_op ;; mret (-1)
      | Some (dp, name) =>
          ilock dp ;;
          if ((namecmp name (chars ".") =? 0) || (namecmp name (chars "..") =? 0))%bool then unlink_bad dp
          else
            o ← dirlookup dp name;
            match o with
            | None => unlink_bad dp
            | Some (ip, off) =>
                ilock ip ;;
                v ← get_inode ip;
                if i_nlink v <? 1 then panic "unlink: nlink < 1"
                else
                  keep_ ← (if i_type v =? T_DIR then e ← isdirempty ip; mret (negb e) else mret false);
                  if (keep_ : bool) then iunlockput ip ;; unlink_bad dp
                  else
                    r ← writei dp (replicate sizeof_dirent 0) off;
                    if negb (r =? Z.of_nat sizeof_dirent) then panic "unlink: writei"
                    else
                      (if i_type v =? T_DIR then
                         upd_inode dp (fun v => set_i_nlink (s16 (i_nlink v - 1)) v) ;;
                         iupdate dp
                       else mret tt) ;;
                      iunlockput dp ;;
                      upd_inode ip (fun v => set_i_nlink (s16 (i_nlink v - 1)) v) ;;
                      iupdate ip ;;
                      iunlockput ip ;;
                      end_op ;;
                      mret 0
            end
      end
  end.

(** The new inode, locked. *)
Definition create (path : list Z) (type major minor : Z) : K (option nat) :=
  o ← nameiparent path;
  match o with
  | None => mret None
  | Some (dp, name) =>
      ilock dp ;;
      o ← dirlookup dp name;
      match o with
      | Some (ip, _) =>
          iunlockput dp ;;
          ilock ip ;;
          v ← get_inode ip;
          if ((type =? T_FILE) && (i_type v =? T_FILE))%bool then mret (Some ip)
          else iunlockput ip ;; mret None
      | None =>
          d ← get_inode dp;
          ip ← ialloc (i_dev d) type;
          ilock ip ;;
          upd_inode ip (set_i_major major) ;;
          upd_inode ip (set_i_minor minor) ;;
          upd_inode ip (set_i_nlink 1) ;;
          iupdate ip ;;
          v ← get_inode ip;
          (if type =? T_DIR then
             upd_inode dp (fun v => set_i_nlink (s16 (i_nlink v + 1)) v) ;;
             iupdate dp ;;
             r ← dirlink ip (chars ".") (i_inum v);
             if r <? 0 then panic "create dots"
             else
               r ← dirlink ip (chars "..") (i_inum d);
               if r <? 0 then panic "create dots" else mret tt
           else mret tt) ;;
          r ← dirlink dp name (i_inum v);
          if r <? 0 then panic "create: dirlink"
          else iunlockput dp ;; mret (Some ip)
      end
  end.

(** The inode of [sys_open], locked, or none after [end_op]. *)
Definition open_inode (path : list Z) (omode : Z) : K (option nat) :=
  if flag omode O_CREATE then
    o ← create path T_FILE 0 0;
    match o with
    | None => end_op ;; mret None
    | Some ip => mret (Some ip)
    end
  else
    o ← namei path;
    match o with
    | None => end_op ;; mret None
    | Some ip =>
        ilock ip ;;
        v ← get_inode ip;
        if ((i_type v =? T_DIR) && negb (omode =? O_RDONLY))%bool then iunlockput ip ;; end_op ;; mret None
        else mret (Some ip)
    end.

Definition sys_open : K Z :=
  path ← argstr 0;
  omode ← (match path with None => mret None | Some _ => argint 1 end);
  match path, omode with
  | Some path, Some omode =>
      begin_op ;;
      o ← open_inode path omode;
      match o with
      | None => mret (-1)
      | Some ip =>
          f ← filealloc;
          fd ← (match f with None => mret None | Some f => fdalloc f end);
          match f, fd with
          | Some f, Some fd =>
              iunlock ip ;;
              end_op ;;
              upd_file f (set_f_type FD_INODE) ;;
              upd_file f (set_f_ip (Some ip)) ;;
              upd_file f (set_f_off 0) ;;
              upd_file f (set_f_readable (if flag omode O_WRONLY then 0 else 1)) ;;
              upd_file f (set_f_writable (if (flag omode O_WRONLY || flag omode O_RDWR)%bool then 1 else 0)) ;;
              mret (Z.of_nat fd)
          | _, _ =>
              (match f with None => mret tt | Some f => fileclose end_ f end) ;;
              iunlockput ip ;;
              end_op ;;
              mret (-1)
          end
      end
  | _, _ => mret (-1)
  end.

(** The end of mkdir and mknod. *)
Definition close_created (o : option nat) : K Z :=
  match o with
  | None => end_op ;; mret (-1)
  | Some ip => iunlockput ip ;; end_op ;; mret 0
  end.

Definition sys_mkdir : K Z :=
  begin_op ;;
  path ← argstr 0;
  o ← (match path with None => mret None | Some path => create path T_DIR 0 0 end);
  close_created o.

Definition sys_mknod : K Z :=
  begin_op ;;
  path ← argstr 0;
  major ← (match path with None => mret None | Some _ => argint 1 end);
  minor ← (match major with None => mret None | Some _ => argint 2 end);
  o ← (match path, major, minor with
       | Some path, Some major, Some minor => create path T_DEV (s16 major) (s16 minor)
       | _, _, _ => mret None
       end);
  close_created o.

Definition sys_chdir : K Z :=
  begin_op ;;
  path ← argstr 0;
  o ← (match path with None => mret None | Some path => namei path end);
  match o with
  | None => end_op ;; mret (-1)
  | Some ip =>
      ilock ip ;;
      v ← get_inode ip;
      if negb (i_type v =? T_DIR) then iunlockput ip ;; end_op ;; mret (-1)
      else
        iunlock ip ;;
        me ← myproc;
        p ← get_proc me;
        cwd ← deref (p_cwd p);
        iput cwd ;;
        end_op ;;
        upd_proc me (set_p_cwd (Some ip)) ;;
        mret 0
  end.

(** The loop of [sys_exec] over the pointers at [uargv], from the [i]-th on. *)
Fixpoint exec_argv (uargv : Z) (i : Z) (n : nat) : K (option (list (list Z))) :=
  match n with
  | O => mret None
  | S n' =>
      uarg ← fetchint (u32 (uargv + 4 * i));
      match uarg with
      | None => mret None
      | Some uarg =>
          if uarg =? 0 then mret (Some [])
          else
            arg ← fetchstr (u32 uarg);
            match arg with
            | None => mret None
            | Some arg => rest ← exec_argv uargv (i + 1) n'; mret (cons arg <$> rest)
            end
      end
  end.

Definition sys_exec : K Z :=
  path ← argstr 0;
  uargv ← (match path with None => mret None | Some _ => argint 1 end);
  match path, uargv with
  | Some path, Some uargv =>
      argv ← exec_argv (u32 uargv) 0 MAXARG;
      match argv with
      | None => mret (-1)
      | Some argv => exec end_ data_ stk path argv
      end
  | _, _ => mret (-1)
  end.

Definition sys_pipe : K Z :=
  a ← argptr 0 8;
  match a with
  | None => mret (-1)
  | Some fd =>
      o ← pipealloc end_;
      match o with
      | None => mret (-1)
      | Some (rf, wf) =>
          fd0 ← fdalloc rf;
          fd1 ← (match fd0 with None => mret None | Some _ => fdalloc wf end);
          match fd0, fd1 with
          | Some fd0, Some fd1 =>
              ust fd (le_enc 4 (Z.of_nat fd0)) ;;
              ust (u32 (fd + 4)) (le_enc 4 (Z.of_nat fd1)) ;;
              mret 0
          | _, _ =>
              me ← myproc;
              (match fd0 with
               | None => mret tt
               | Some fd0 => upd_proc me (fun p => set_p_ofile (<[fd0 := None]> (p_ofile p)) p)
               end) ;;
              fileclose end_ rf ;;
              fileclose end_ wf ;;
              mret (-1)
          end
      end
  end.

End sysfile.
