(* ===== verification/Trap.v ===== *)
(** * Traps and system calls: src/xv6/trap.c, sysproc.c and the dispatch of syscall.c

    [trap] is entered with the frame the hardware and trapasm.S built.  What
    the devices deliver with an interrupt is an argument: the scan codes of
    the keyboard, the bytes of the serial port, the number of the processor
    and the faulting address in %cr2.  The acknowledgement [lapiceoi] only
    touches the interrupt controller. *)

From stdpp Require Import base list list_numbers numbers gmap strings.
From Stdlib Require Import ZArith Lia.
From S2P Require Import Prelude Mem KState Sched Kalloc Log Printf Block Inode Console Fileio Vm File Sysarg Exec Process Sysfile.

(** ** The gates *)

(** mmu.h *)
Record gatedesc := mkGate {
  g_off_15_0 : Z; g_cs : Z; g_args : Z; g_rsv1 : Z; g_type : Z; g_s : Z; g_dpl : Z; g_p : Z; g_off_31_16 : Z
}.
Definition STS_IG32 : Z := 0xE.
Definition STS_TG32 : Z := 0xF.
Definition SETGATE (istrap : bool) (sel off d : Z) : gatedesc :=
  mkGate (Z.land off 0xffff) sel 0 0 (if istrap then STS_TG32 else STS_IG32) 0 d 1 (Z.shiftr off 16).

Definition SEG_KCODE : Z := 1.
Definition T_SYSCALL : Z := 64.
Definition T_IRQ0 : Z := 32.
Definition IRQ_TIMER : Z := 0.
Definition IRQ_KBD : Z := 1.
Definition IRQ_COM1 : Z := 4.
Definition IRQ_IDE : Z := 14.
Definition IRQ_SPURIOUS : Z := 31.

Definition tvinit (vectors : Z -> Z) : list gatedesc :=
  <[Z.to_nat T_SYSCALL := SETGATE true (Z.shiftl SEG_KCODE 3) (vectors T_SYSCALL) DPL_USER]>
    (map (fun i => SETGATE false (Z.shiftl SEG_KCODE 3) (vectors (Z.of_nat i)) 0) (seq 0 256)).

(** ** sysproc.c *)

Section trap.
(** As in Process.v and Exec.v. *)
Context (end_ data_ forkret_ trapret_ : Z) (stk : list Z).

Definition sys_fork : K Z := fork end_ data_ forkret_ trapret_.
Definition sys_exit : K Z := exit end_ ;; mret 0.
Definition sys_wait : K Z := wait end_.

Definition sys_kill : K Z :=
  pid ← argint 0;
  match pid with None => mret (-1) | Some pid => kill pid end.

Definition sys_getpid : K Z := p ← cur; mret (p_pid p).

Definition sys_sbrk : K Z :=
  n ← argint 0;
  match n with
  | None => mret (-1)
  | Some n =>
      p ← cur;
      r ← growproc end_ n;
      mret (if r <? 0 then -1 else s32 (p_sz p))
  end.

(** The loop of [sys_sleep]. *)
Definition sys_sleep_loop (ticks0 n : Z) : K Z :=
  ticks ← gets k_ticks;
  if u32 (ticks - ticks0) <? u32 n then
    p ← cur;
    if negb (p_killed p =? 0) then release L_tick ;; mret (-1)
    else block C_ticks L_tick
  else release L_tick ;; mret 0.
Definition sys_sleep : K Z :=
  n ← argint 0;
  match n with
  | None => mret (-1)
  | Some n =>
      acquire L_tick ;;
      ticks0 ← gets k_ticks;
      sys_sleep_loop ticks0 n
  end.

Definition sys_uptime : K Z :=
  acquire L_tick ;;
  xticks ← gets k_ticks;
  release L_tick ;;
  mret (s32 xticks).

(** ** The dispatch *)

(** The table, by the numbers of syscall.h. *)
Definition syscalls (num : Z) : option (K Z) :=
  match num with
  | 1 => Some sys_fork
  | 2 => Some sys_exit
  | 3 => Some sys_wait
  | 4 => Some (sys_pipe end_)
  | 5 => Some sys_read
  | 6 => Some sys_kill
  | 7 => Some (sys_exec end_ data_ stk)
  | 8 => Some sys_fstat
  | 9 => Some sys_chdir
  | 10 => Some sys_dup
  | 11 => Some sys_getpid
  | 12 => Some sys_sbrk
  | 13 => Some sys_sleep
  | 14 => Some sys_uptime
  | 15 => Some (sys_open end_)
  | 16 => Some sys_write
  | 17 => Some sys_mknod
  | 18 => Some sys_unlink
  | 19 => Some sys_link
  | 20 => Some sys_mkdir
  | 21 => Some (sys_close end_)
  | _ => None
  end.

Definition set_eax (me : nat) (v : Z) : K unit :=
  upd_proc me (fun p => set_p_tf (set_tf_eax v (p_tf p)) p).

Definition syscall : K unit :=
  me ← myproc;
  p ← get_proc me;
  let num := s32 (tf_eax (p_tf p)) in
  match syscalls num with
  | Some f => r ← f; set_eax me (u32 r)
  | None =>
      cprintf_ (chars "%d %s: unknown sys call %d" ++ [10])
        [AInt (p_pid p); AStr (cstring (p_name p)); AInt num] ;;
      set_eax me (u32 (-1))
  end.

(** ** trap *)

(** What comes with the interrupt: the processor's number, %cr2, the data of
    the keyboard with the state of its modifier keys, and the serial bytes. *)
Record devices := mkDev { d_cpu : Z; d_cr2 : Z; d_kbd : list Z; d_shift : Z; d_uart : list Z }.

(** The current process is killed and the trap came from user space. *)
Definition exit_if_killed (tf : trapframe) : K unit :=
  o ← gets k_proc;
  match o with
  | None => mret tt
  | Some me =>
      p ← get_proc me;
      if (negb (p_killed p =? 0) && (Z.land (tf_cs tf) 3 =? DPL_USER))%bool then exit end_ else mret tt
  end.

Definition trap_kernel (dev : devices) (tf : trapframe) : K unit :=
  cprintf_ (chars "unexpected trap %d from cpu %d eip %x (cr2=0x%x)" ++ [10])
    [AInt (tf_trapno tf); AInt (d_cpu dev); AInt (tf_eip tf); AInt (d_cr2 dev)] ;;
  panic "trap".

Definition trap_unexpected (dev : devices) (tf : trapframe) : K unit :=
  o ← gets k_proc;
  match o with
  | None => trap_kernel dev tf
  | Some me =>
      if Z.land (tf_cs tf) 3 =? 0 then trap_kernel dev tf
      else
        p ← get_proc me;
        cprintf_ (chars "pid %d %s: trap %d err %d on cpu %d eip 0x%x addr 0x%x--kill proc" ++ [10])
          [AInt (p_pid p); AStr (cstring (p_name p)); AInt (tf_trapno tf); AInt (tf_err tf); AInt (d_cpu dev);
           AInt (tf_eip tf); AInt (d_cr2 dev)] ;;
        upd_proc me (set_p_killed 1)
  end.

(** The switch over the trap numbers; the state of the modifier keys after it. *)
Definition trap_dispatch (dev : devices) (tf : trapframe) : K Z :=
  let n := tf_trapno tf in
  if n =? T_IRQ0 + IRQ_TIMER then
    (if d_cpu dev =? 0 then
       acquire L_tick ;;
       modify (fun s => set_k_ticks (u32 (k_ticks s + 1)) s) ;;
       wakeup C_ticks ;;
       release L_tick
     else mret tt) ;;
    mret (d_shift dev)
  else if n =? T_IRQ0 + IRQ_IDE then mret (d_shift dev)
  else if n =? T_IRQ0 + IRQ_IDE + 1 then mret (d_shift dev)
  else if n =? T_IRQ0 + IRQ_KBD then kbdintr (d_kbd dev) (d_shift dev)
  else if n =? T_IRQ0 + IRQ_COM1 then consoleintr (d_uart dev) ;; mret (d_shift dev)
  else if ((n =? T_IRQ0 + 7) || (n =? T_IRQ0 + IRQ_SPURIOUS))%bool then
    cprintf_ (chars "cpu%d: spurious interrupt at %x:%x" ++ [10]) [AInt (d_cpu dev); AInt (tf_cs tf); AInt (tf_eip tf)] ;;
    mret (d_shift dev)
  else trap_unexpected dev tf ;; mret (d_shift dev).

(** From [yield] on. *)
Definition trap_yield (tf : trapframe) : K unit :=
  o ← gets k_proc;
  match o with
  | None => mret tt
  | Some me =>
      p ← get_proc me;
      if (bool_decide (p_state p = RUNNING) && (tf_trapno tf =? T_IRQ0 + IRQ_TIMER))%bool then yield else mret tt
  end.

Definition trap (dev : devices) (tf : trapframe) : K Z :=
  if tf_trapno tf =? T_SYSCALL then
    me ← myproc;
    p ← get_proc me;
    (if negb (p_killed p =? 0) then exit end_ else mret tt) ;;
    upd_proc me (set_p_tf tf) ;;
    syscall ;;
    p ← get_proc me;
    (if negb (p_killed p =? 0) then exit end_ else mret tt) ;;
    mret (d_shift dev)
  else
    shift ← trap_dispatch dev tf;
    exit_if_killed tf ;;
    trap_yield tf ;;
    exit_if_killed tf ;;
    mret shift.

End trap.
