(* ===== verification/Paging.v ===== *)
(** * What the page tables mean: the theorems on src/xv6/vm.c

    [mapping m pgdir va] is the entry the processor finds for an address: the
    directory entry and then the table entry must be present.  [space] says
    that a page directory and its tables are pages of their own, apart from
    each other and from the free list.  The operations of Vm.v are then
    described by what they do to [mapping], to the free list and to the
    contents of the pages. *)

From stdpp Require Import base list list_numbers numbers gmap strings.
From Stdlib Require Import ZArith Lia.
From S2P Require Import Prelude Mem CString KState Sched Kalloc Vm.

(** ** Addresses and entries *)

Definition mapping (m : mem) (pgdir va : Z) : option Z :=
  let d := ld32 m (pgdir + 4 * PDX va) in
  if flag d PTE_P then
    let e := ld32 m (p2v (PTE_ADDR d) + 4 * PTX va) in
    if flag e PTE_P then Some e else None
  else None.

Lemma PDX_div va : PDX va = (va / 2 ^ 22) mod 1024.
Proof. unfold PDX. change 0x3FF with (Z.ones 10). by rewrite Z.land_ones, Z.shiftr_div_pow2 by lia. Qed.
Lemma PTX_div va : PTX va = (va / 4096) mod 1024.
Proof. unfold PTX. change 0x3FF with (Z.ones 10). by rewrite Z.land_ones, Z.shiftr_div_pow2 by lia. Qed.

Lemma PDX_range va : 0 <= PDX va < 1024.
Proof. rewrite PDX_div. apply Z.mod_pos_bound. lia. Qed.
Lemma PTX_range va : 0 <= PTX va < 1024.
Proof. rewrite PTX_div. apply Z.mod_pos_bound. lia. Qed.

(** The two indices identify the page. *)
Lemma page_indices va va' : 0 <= va < 2 ^ 32 -> 0 <= va' < 2 ^ 32 ->
  (PDX va = PDX va' /\ PTX va = PTX va') <-> va / 4096 = va' / 4096.
Proof.
  intros H H'. rewrite !PDX_div, !PTX_div. change (2 ^ 22) with (4096 * 1024). rewrite <- !Z.div_div by lia.
  assert (0 <= va / 4096 / 1024 < 1024 /\ 0 <= va' / 4096 / 1024 < 1024) as [? ?].
  { split; split; try (apply Z.div_pos; [apply Z.div_pos; lia|lia]);
      (apply Z.div_lt_upper_bound; [lia|]; apply Z.div_lt_upper_bound; lia). }
  rewrite !(Z.mod_small (_ / 1024)) by lia. split; [|by intros ->]. intros [E1 E2].
  rewrite (Z.div_mod (va / 4096) 1024), (Z.div_mod (va' / 4096) 1024) by lia. by rewrite E1, E2.
Qed.

Lemma PTE_ADDR_spec e : PTE_ADDR e = e / 4096 * 4096.
Proof.
  unfold PTE_ADDR. change (Z.lnot 0xFFF) with (Z.lnot (Z.ones 12)).
  rewrite <- Z.ldiff_land, Z.ldiff_ones_r, Z.shiftl_mul_pow2, Z.shiftr_div_pow2 by lia. done.
Qed.

(** The entry for a page with some flags. *)
Definition mkpte (pa perm : Z) : Z := Z.lor (Z.lor pa perm) PTE_P.

Lemma mkpte_spec pa perm : pa mod 4096 = 0 -> 0 <= perm < 4096 ->
  PTE_ADDR (mkpte pa perm) = pa /\ flag (mkpte pa perm) PTE_P = true /\
  PTE_FLAGS (mkpte pa perm) = Z.lor perm PTE_P /\ (0 <= pa < 2 ^ 32 -> 0 <= mkpte pa perm < 2 ^ 32).
Proof.
  intros Ha Hp. unfold mkpte. rewrite <- Z.lor_assoc.
  assert (Hl : 0 <= Z.lor perm PTE_P < 4096).
  { split; [apply Z.lor_nonneg; unfold PTE_P; lia|]. change 4096 with (2 ^ 12).
    destruct (Z.eq_dec (Z.lor perm PTE_P) 0) as [->|]; [lia|]. apply Z.log2_lt_pow2; [pose proof (proj2 (Z.lor_nonneg perm PTE_P) ltac:(unfold PTE_P; lia)); lia|].
    rewrite Z.log2_lor by (unfold PTE_P; lia). apply Z.max_lub_lt; [|done].
    destruct (Z.eq_dec perm 0) as [->|]; [done|apply Z.log2_lt_pow2; lia]. }
  assert (E : pa = pa / 4096 * 4096) by (pose proof (Z.div_mod pa 4096 ltac:(lia)); lia).
  assert (El : Z.lor pa (Z.lor perm PTE_P) = pa / 4096 * 4096 + Z.lor perm PTE_P).
  { rewrite E at 1. by apply (lor_add _ _ 12). }
  split; [|split; [|split]].
  - rewrite El, PTE_ADDR_spec, Z.div_add_l, (Z.div_small (Z.lor _ _)) by lia. lia.
  - rewrite Z.lor_assoc. change PTE_P with (2 ^ 0). apply (flag_fset_same 0). lia.
  - rewrite El. unfold PTE_FLAGS. change 0xFFF with (Z.ones 12). rewrite Z.land_ones by lia. change (2 ^ 12) with 4096.
    rewrite Z.add_comm, Z_mod_plus_full. by apply Z.mod_small.
  - intros Hr. rewrite El. pose proof (Z.div_mod pa 4096 ltac:(lia)). lia.
Qed.

(** ** Page directories and their tables *)

(** The functions change memory and the free list only. *)
Definition vframe (s s' : kstate) : Prop := s' = set_k_mem (k_mem s') (set_k_freelist (k_freelist s') s).

#[global] Instance vframe_refl : Reflexive vframe.
Proof. intros []. done. Qed.
#[global] Instance vframe_trans : Transitive vframe.
Proof. intros s1 s2 s3 E1 E2. unfold vframe in *. rewrite E2, E1. by destruct s3. Qed.

Lemma vframe_held s s' : vframe s s' -> k_held s' = k_held s.
Proof. intros E. by rewrite E. Qed.

Section paging.
Context (end_ : Z).

(** [tabs] gives the tables the directory points to, by index. *)
Record space (s : kstate) (l : list Z) (pgdir : Z) (tabs : gmap Z Z) : Prop := {
  sp_kmem : kmem_ok end_ s l;
  sp_mem : mem_ok (k_mem s);
  sp_dir : page_ok end_ pgdir;
  sp_free : forall v, v ∈ l -> v <> pgdir /\ forall i, tabs !! i <> Some v;
  sp_tab : forall i t, tabs !! i = Some t -> 0 <= i < 1024 /\ page_ok end_ t /\ t <> pgdir /\ forall j, tabs !! j = Some t -> j = i;
  sp_pde : forall i, 0 <= i < 1024 ->
    match tabs !! i with
    | Some t => flag (ld32 (k_mem s) (pgdir + 4 * i)) PTE_P = true /\ p2v (PTE_ADDR (ld32 (k_mem s) (pgdir + 4 * i))) = t
    | None => flag (ld32 (k_mem s) (pgdir + 4 * i)) PTE_P = false
    end
}.

Lemma page_fits v i : page_ok end_ v -> 0 <= i < 1024 -> u32 (v + 4 * i) = v + 4 * i.
Proof. intros (_ & _ & H) Hi. apply u32_small. pglia. Qed.

Lemma p2v_v2p v : page_ok end_ v -> p2v (v2p v) = v /\ v2p v mod 4096 = 0 /\ 0 <= v2p v < 2 ^ 32.
Proof.
  intros (H1 & _ & H). unfold p2v, v2p. rewrite (u32_small (v - KERNBASE)) by pglia.
  rewrite u32_small by pglia. split; [lia|]. split; [|pglia].
  unfold KERNBASE, PGSIZE in *. rewrite Zminus_mod, H1. done.
Qed.

Lemma mapping_space s l pgdir tabs va : space s l pgdir tabs ->
  mapping (k_mem s) pgdir va =
  match tabs !! PDX va with
  | Some t => let e := ld32 (k_mem s) (t + 4 * PTX va) in if flag e PTE_P then Some e else None
  | None => None
  end.
Proof.
  intros Hs. pose proof (sp_pde _ _ _ _ Hs (PDX va) (PDX_range va)) as H. unfold mapping.
  destruct (tabs !! PDX va) as [t|]; [destruct H as [-> ->]|rewrite H]; done.
Qed.

(** Two words of aligned pages are the same or do not overlap. *)
Lemma words_apart v w i j : page_ok end_ v -> page_ok end_ w -> 0 <= i < 1024 -> 0 <= j < 1024 -> (v, i) <> (w, j) ->
  v + 4 * i + 4 <= w + 4 * j \/ w + 4 * j + 4 <= v + 4 * i.
Proof.
  intros Hv Hw Hi Hj Hne. destruct (decide (v = w)) as [->|Hvw]; [assert (i <> j) by congruence; lia|].
  destruct (pages_apart end_ v w Hv Hw Hvw); pglia.
Qed.

(** Memory may only change in the directory, in its tables and in pages that
    were free; the pages used come off the front of the free list. *)
Record grown (pgdir : Z) (s : kstate) (l : list Z) (tabs : gmap Z Z) (s' : kstate) (l' : list Z) (tabs' : gmap Z Z) : Prop := {
  gr_frame : vframe s s';
  gr_list : exists used, l = used ++ l';
  gr_tabs : tabs ⊆ tabs';
  gr_new : forall i t, tabs' !! i = Some t -> tabs !! i = Some t \/ t ∈ l;
  gr_page : forall v a, page_ok end_ v -> v <> pgdir -> (forall i, tabs !! i <> Some v) -> v ∉ l ->
    v <= a < v + PGSIZE -> ld8 (k_mem s') a = ld8 (k_mem s) a
}.

Lemma grown_refl pgdir s l tabs : grown pgdir s l tabs s l tabs.
Proof. split; [done|by exists []|done|by left|done]. Qed.

Lemma grown_trans pgdir s1 l1 t1 s2 l2 t2 s3 l3 t3 :
  grown pgdir s1 l1 t1 s2 l2 t2 -> grown pgdir s2 l2 t2 s3 l3 t3 -> grown pgdir s1 l1 t1 s3 l3 t3.
Proof.
  intros [A1 [u A2] A3 A4 A5] [B1 [u' B2] B3 B4 B5]. split; [by etrans| |by etrans| |].
  - exists (u ++ u'). by rewrite A2, B2, app_assoc.
  - intros i t [H|H]%B4; [by apply A4|right]. rewrite A2. apply elem_of_app. by right.
  - intros v a Hv Hd Ht Hl Ha. rewrite (B5 v a); [by apply (A5 v a)|done|done| | |done].
    + intros i [H|H]%A4; [by apply (Ht i)|done].
    + intros H. apply Hl. rewrite A2. apply elem_of_app. by right.
Qed.

(** ** walkpgdir *)

Lemma kmem_ok_mem s l m : kmem_ok end_ s l ->
  (forall v a, v ∈ l -> v <= a < v + PGSIZE -> ld8 (k_mem s) a = ld8 m a) -> kmem_ok end_ (set_k_mem m s) l.
Proof. intros [H1 H2 H3] Hm. split; [|done|done]. by apply (free_list_ext end_ (k_mem s)). Qed.

Lemma walk_present s l pgdir tabs va al t : space s l pgdir tabs -> tabs !! PDX va = Some t ->
  walkpgdir pgdir va al s = Ret (t + 4 * PTX va) s.
Proof.
  intros Hs Ht. pose proof (PDX_range va) as Hd. pose proof (sp_pde _ _ _ _ Hs _ Hd) as Hp. rewrite Ht in Hp. destruct Hp as [Hf Ha].
  unfold walkpgdir, rd32. rewrite page_fits by (done || apply Hs). kgets. rewrite Hf, Ha.
  rewrite page_fits; [done|by destruct (sp_tab _ _ _ _ Hs _ _ Ht) as (_ & ? & _)|apply PTX_range].
Qed.

Lemma walk_absent s l pgdir tabs va : space s l pgdir tabs -> tabs !! PDX va = None ->
  walkpgdir pgdir va false s = Ret 0 s.
Proof.
  intros Hs Ht. pose proof (PDX_range va) as Hd. pose proof (sp_pde _ _ _ _ Hs _ Hd) as Hp. rewrite Ht in Hp.
  unfold walkpgdir, rd32. rewrite page_fits by (done || apply Hs). kgets. by rewrite Hp.
Qed.

Lemma mem_ok_page m p c : mem_ok m -> mem_ok (Kernel.memset m p c PGSIZE).
Proof using. intros Hm b. rewrite ld8_memset by pglia. by case_match; [apply u8_range|]. Qed.

(** The state after a table [p] has been taken off the free list. *)
Definition new_table (pgdir va p : Z) (s : kstate) : kstate :=
  set_k_mem (st32 (Kernel.memset (k_mem s) p 0 PGSIZE) (pgdir + 4 * PDX va) (mkpte (v2p p) 6))
    (set_k_freelist (ld32 (k_mem s) p) s).

Lemma walk_new s p l pgdir tabs va : space s (p :: l) pgdir tabs -> tabs !! PDX va = None ->
  walkpgdir pgdir va true s = Ret (p + 4 * PTX va) (new_table pgdir va p s).
Proof.
  intros Hs Ht. pose proof (PDX_range va) as Hd. pose proof (sp_pde _ _ _ _ Hs _ Hd) as Hp. rewrite Ht in Hp.
  pose proof (sp_kmem _ _ _ _ Hs) as [(Efl & Hpok & _) _ Hlk].
  unfold walkpgdir, rd32. rewrite page_fits by (done || apply Hs). kgets. rewrite Hp. cbn [negb].
  kstep (kalloc_run s Hlk). pose proof (page_ok_nz end_ p Hpok). rewrite Efl, (proj2 (Z.eqb_neq _ _)) by done.
  unfold memset_, wr32. rewrite !bind_run. unfold modify. rewrite bind_run. unfold modify. ksimp.
  rewrite page_fits by (done || apply PTX_range). unfold new_table, mkpte. by rewrite <- !Z.lor_assoc.
Qed.

Lemma walk_out s pgdir tabs va : space s [] pgdir tabs -> tabs !! PDX va = None -> walkpgdir pgdir va true s = Ret 0 s.
Proof.
  intros Hs Ht. pose proof (PDX_range va) as Hd. pose proof (sp_pde _ _ _ _ Hs _ Hd) as Hp. rewrite Ht in Hp.
  pose proof (sp_kmem _ _ _ _ Hs) as [Efl _ Hlk]. cbn in Efl.
  unfold walkpgdir, rd32. rewrite page_fits by (done || apply Hs). kgets. rewrite Hp. cbn [negb].
  kstep (kalloc_run s Hlk). by rewrite Efl.
Qed.

(** ** A new table *)

Lemma ld32_zero m a : (forall i, a <= i < a + 4 -> ld8 m i = 0) -> ld32 m a = 0.
Proof using. intros H. unfold ld32. cbn [ld]. rewrite !H by lia. done. Qed.

Section new_table.
Context (s : kstate) (p : Z) (l : list Z) (pgdir : Z) (tabs : gmap Z Z) (va : Z).
Context (Hs : space s (p :: l) pgdir tabs) (Ht : tabs !! PDX va = None).
Let m := k_mem s.
Let m' := k_mem (new_table pgdir va p s).

Lemma nt_page : page_ok end_ p /\ p <> pgdir /\ (forall i, tabs !! i <> Some p) /\ p ∉ l.
Proof using Hs.
  destruct Hs as [[(_ & Hp & _) Hnd _] _ _ Hf _ _]. destruct (Hf p ltac:(left)). apply NoDup_cons in Hnd as [? _]. done.
Qed.

Lemma nt_other v a : page_ok end_ v -> v <> p -> v <> pgdir -> v <= a < v + PGSIZE -> ld8 m' a = ld8 m a.
Proof using Hs.
  intros Hv Hne Hnd Ha. destruct nt_page as (Hp & _). pose proof (PDX_range va).
  destruct (pages_apart end_ v p Hv Hp Hne), (pages_apart end_ v pgdir Hv (sp_dir _ _ _ _ Hs) Hnd);
    unfold m', new_table; ksimp; rewrite ld8_st32_ne by pglia; rewrite ld8_memset by pglia;
    (destruct (p <=? a) eqn:E1, (a <? p + PGSIZE) eqn:E2; try done; brefl; pglia).
Qed.

Lemma nt_pde i : 0 <= i < 1024 ->
  ld32 m' (pgdir + 4 * i) = if decide (i = PDX va) then mkpte (v2p p) 6 else ld32 m (pgdir + 4 * i).
Proof using Hs.
  intros Hi. destruct nt_page as (Hp & Hne & _). pose proof (PDX_range va). pose proof (sp_dir _ _ _ _ Hs) as Hd.
  unfold m', new_table. ksimp. case_decide as E; [subst i; rewrite ld32_st32_eq|rewrite ld32_st32_ne by lia].
  - destruct (p2v_v2p p Hp) as (_ & Ha & Hr). apply u32_small. by apply mkpte_spec.
  - apply ld32_ext. intros a Ha. rewrite ld8_memset by pglia. destruct (pages_apart end_ pgdir p Hd Hp (not_eq_sym Hne));
      (destruct (p <=? a) eqn:E1, (a <? p + PGSIZE) eqn:E2; try done; brefl; pglia).
Qed.

Lemma nt_zero i : 0 <= i < 1024 -> ld32 m' (p + 4 * i) = 0.
Proof using Hs.
  intros Hi. destruct nt_page as (Hp & Hne & _). pose proof (PDX_range va). pose proof (sp_dir _ _ _ _ Hs) as Hd.
  apply ld32_zero. intros a Ha. unfold m', new_table. ksimp.
  destruct (pages_apart end_ pgdir p Hd Hp (not_eq_sym Hne)); rewrite ld8_st32_ne by pglia; rewrite ld8_memset by pglia;
    (destruct (p <=? a) eqn:E1, (a <? p + PGSIZE) eqn:E2; try done; brefl; pglia).
Qed.

Lemma nt_kmem : kmem_ok end_ (new_table pgdir va p s) l.
Proof using Hs.
  destruct nt_page as (Hp & _ & _ & Hnin). destruct Hs as [[(E & _ & Hl) Hnd Hlk] _ Hd Hf _ _].
  apply NoDup_cons in Hnd as [_ Hnd]. split; [|done|done]. apply (free_list_ext end_ m); [|done].
  intros v a Hv Ha. symmetry. apply (nt_other v a); [by eapply free_list_ok| |by apply Hf; right|done]. by intros ->.
Qed.

Lemma nt_space : space (new_table pgdir va p s) l pgdir (<[PDX va := p]> tabs).
Proof using Hs Ht.
  destruct nt_page as (Hp & Hne & Hnt & Hnin). pose proof Hs as [_ Hm Hd Hf Htb Hpd]. split; [apply nt_kmem| |done| | |].
  - unfold new_table. ksimp. by apply mem_ok_st32, mem_ok_page.
  - intros v Hv. destruct (Hf v ltac:(by right)) as [Hv1 Hv2]. split; [done|]. intros i. destruct (decide (i = PDX va)) as [->|].
    + rewrite lookup_insert_eq. intros [= ->]. done.
    + by rewrite lookup_insert_ne.
  - intros i t. pose proof (PDX_range va). destruct (decide (i = PDX va)) as [->|Hi].
    + rewrite lookup_insert_eq. intros [= <-]. do 3 (split; [done|]). intros j. destruct (decide (j = PDX va)); [done|].
      rewrite lookup_insert_ne by done. by intros ?%Hnt.
    + rewrite lookup_insert_ne by done. intros Hti. destruct (Htb i t Hti) as (? & ? & ? & Hu). do 3 (split; [done|]).
      intros j. destruct (decide (j = PDX va)) as [->|]; [rewrite lookup_insert_eq; intros [= ->]; by apply Hnt in Hti|].
      rewrite lookup_insert_ne by done. apply Hu.
  - intros i Hi. fold m'. rewrite (nt_pde i Hi). destruct (p2v_v2p p Hp) as (E & Ha & _). destruct (mkpte_spec (v2p p) 6 Ha) as (E1 & E2 & _); [lia|].
    destruct (decide (i = PDX va)) as [->|Hne']; [by rewrite lookup_insert_eq, E1|]. rewrite lookup_insert_ne by done. by apply Hpd.
Qed.

Lemma nt_grown : grown pgdir s (p :: l) tabs (new_table pgdir va p s) l (<[PDX va := p]> tabs).
Proof using Hs Ht.
  destruct nt_page as (Hp & Hne & Hnt & Hnin). split; [by destruct s|by exists [p]|by apply insert_subseteq| |].
  - intros i t. destruct (decide (i = PDX va)) as [->|]; [rewrite lookup_insert_eq; intros [= <-]; right; left|].
    rewrite lookup_insert_ne by done. by left.
  - intros v a Hv Hd _ Hl Ha. apply (nt_other v a); try done. intros ->. apply Hl. left.
Qed.

Lemma nt_mapping va' : mapping m' pgdir va' = mapping m pgdir va'.
Proof using Hs Ht.
  unfold m', m. rewrite (mapping_space _ _ _ _ va' nt_space), (mapping_space _ _ _ _ va' Hs). fold m m'. pose proof (PTX_range va').
  destruct (decide (PDX va' = PDX va)) as [->|Hne]; [rewrite lookup_insert_eq, Ht|rewrite lookup_insert_ne by done].
  - cbn zeta. by rewrite nt_zero.
  - destruct (tabs !! PDX va') as [t|] eqn:E; [|done]. destruct (sp_tab _ _ _ _ Hs _ _ E) as (_ & Hto & Hnd & _).
    assert (Ee : ld32 m' (t + 4 * PTX va') = ld32 m (t + 4 * PTX va')); [|by rewrite Ee].
    apply ld32_ext. intros a Ha. apply (nt_other t); [done| |done|pglia]. destruct nt_page as (_ & _ & Hnt & _). intros ->. by apply Hnt in E.
Qed.

End new_table.

Lemma walk_create s l pgdir tabs va : space s l pgdir tabs ->
  (tabs !! PDX va = None /\ l = [] /\ walkpgdir pgdir va true s = Ret 0 s) \/
  exists s1 l1 tabs1 t, walkpgdir pgdir va true s = Ret (t + 4 * PTX va) s1 /\ tabs1 !! PDX va = Some t /\
    space s1 l1 pgdir tabs1 /\ grown pgdir s l tabs s1 l1 tabs1 /\ (length l <= S (length l1))%nat /\ (size tabs1 + length l1 = size tabs + length l)%nat /\
    (forall va', mapping (k_mem s1) pgdir va' = mapping (k_mem s) pgdir va') /\ forall i t, tabs1 !! i = Some t -> tabs !! i = Some t \/ i = PDX va.
Proof.
  intros Hs. destruct (tabs !! PDX va) as [t|] eqn:E.
  - right. exists s, l, tabs, t. split; [by apply (walk_present s l pgdir tabs)|]. do 2 (split; [done|]). split; [apply grown_refl|split; [lia|split; [lia|split; [done|by left]]]].
  - destruct l as [|p l]; [left; split; [done|]; split; [done|]; by eapply walk_out|right].
    exists (new_table pgdir va p s), l, (<[PDX va := p]> tabs), p. split; [by eapply walk_new|].
    split; [apply lookup_insert_eq|]. split; [by apply nt_space|]. split; [by apply nt_grown|split; [done|split; [|split; [by eapply nt_mapping|]]]].
    { rewrite map_size_insert_None by done. cbn [length]. lia. }
    intros i t. destruct (decide (i = PDX va)); [by right|]. rewrite lookup_insert_ne by done. by left.
Qed.

(** ** Storing an entry *)

Section set_pte.
Context (s : kstate) (l : list Z) (pgdir : Z) (tabs : gmap Z Z) (va t e : Z).
Context (Hs : space s l pgdir tabs) (Ht : tabs !! PDX va = Some t).
Let s' := set_k_mem (st32 (k_mem s) (t + 4 * PTX va) e) s.

Lemma se_page v a : page_ok end_ v -> v <> t -> v <= a < v + PGSIZE -> ld8 (k_mem s') a = ld8 (k_mem s) a.
Proof using Hs Ht.
  intros Hv Hne Ha. destruct (sp_tab _ _ _ _ Hs _ _ Ht) as (_ & Hto & _). pose proof (PTX_range va).
  unfold s'. ksimp. apply ld8_st32_ne. destruct (pages_apart end_ v t Hv Hto Hne); pglia.
Qed.

Lemma se_space : space s' l pgdir tabs.
Proof using Hs Ht.
  destruct (sp_tab _ _ _ _ Hs _ _ Ht) as (_ & Hto & Hnd & _). pose proof Hs as [Hk Hm Hd Hf Htb Hpd].
  split; [| |done|done|done|].
  - apply kmem_ok_mem; [done|]. intros v a Hv Ha. symmetry. apply (se_page v); [by eapply free_list_ok; [apply Hk|]| |done].
    intros ->. by apply (Hf t Hv) in Ht.
  - by apply mem_ok_st32.
  - intros i Hi. assert (E : ld32 (k_mem s') (pgdir + 4 * i) = ld32 (k_mem s) (pgdir + 4 * i)); [|rewrite E; by apply Hpd].
    apply ld32_ext. intros a Ha. apply (se_page pgdir); [done|done|pglia].
Qed.

Lemma se_mapping va' : 0 <= va < 2 ^ 32 -> 0 <= va' < 2 ^ 32 -> 0 <= e < 2 ^ 32 ->
  mapping (k_mem s') pgdir va' =
  if decide (va' / 4096 = va / 4096) then (if flag e PTE_P then Some e else None) else mapping (k_mem s) pgdir va'.
Proof using Hs Ht.
  intros H H' He. rewrite (mapping_space _ _ _ _ va' se_space), (mapping_space _ _ _ _ va' Hs).
  pose proof (page_indices va' va H' H) as Hpi. pose proof (PTX_range va). pose proof (PTX_range va').
  destruct (sp_tab _ _ _ _ Hs _ _ Ht) as (_ & Hto & _). case_decide as Hd.
  - apply Hpi in Hd as [-> ->]. rewrite Ht. cbn zeta. unfold s'. ksimp. by rewrite ld32_st32_eq, u32_small.
  - destruct (tabs !! PDX va') as [t'|] eqn:E; [|done]. destruct (sp_tab _ _ _ _ Hs _ _ E) as (_ & Hto' & _).
    unfold s'. ksimp. rewrite ld32_st32_ne; [done|].
    apply words_apart; try done. intros [= -> E2]. apply Hd, Hpi. split; [|done].
    by apply (sp_tab _ _ _ _ Hs _ _ Ht).
Qed.

Lemma se_grown : grown pgdir s l tabs s' l tabs.
Proof using Hs Ht.
  split; [unfold s'; by destruct s|by exists []|done|by left|]. intros v a Hv Hd Hnt _ Ha. apply (se_page v); [done| |done].
  intros ->. by apply Hnt in Ht.
Qed.

End set_pte.

(** ** mappages *)

(** The entry of the page of [va'] when [a] is mapped to [pa]. *)
Definition entry_at (a pa perm va' : Z) : Z := mkpte (pa + (va' / 4096 * 4096 - a)) perm.

Definition in_pages (a : Z) (n : nat) (va' : Z) : Prop := a <= va' < a + 4096 * Z.of_nat n.
#[local] Instance in_pages_dec a n va' : Decision (in_pages a n va') := decide (a <= va' < a + 4096 * Z.of_nat n).

Lemma page_of a va' : a mod 4096 = 0 -> va' / 4096 = a / 4096 <-> a <= va' < a + 4096.
Proof using.
  intros Ha. pose proof (Z.div_mod a 4096 ltac:(lia)). split.
  - intros E. pose proof (Z.div_mod va' 4096 ltac:(lia)). pose proof (Z.mod_pos_bound va' 4096 ltac:(lia)). lia.
  - intros H'. symmetry. apply (Z.div_unique_pos va' 4096 (a / 4096) (va' - a)); lia.
Qed.

(** What [mappages] leaves when it succeeds, and when memory runs out. *)
Record mapped_pages (pgdir a pa perm : Z) (n : nat) s l tabs s' l' tabs' : Prop := {
  mg_space : space s' l' pgdir tabs';
  mg_grown : grown pgdir s l tabs s' l' tabs';
  mg_map : forall va', 0 <= va' < 2 ^ 32 -> mapping (k_mem s') pgdir va' =
    if decide (in_pages a n va') then Some (entry_at a pa perm va') else mapping (k_mem s) pgdir va';
  mg_count : (size tabs' + length l' = size tabs + length l)%nat;
  mg_dom : forall i t, tabs' !! i = Some t -> tabs !! i = Some t \/ exists va', in_pages a n va' /\ PDX va' = i
}.
Record partly_mapped (pgdir a pa perm : Z) (n : nat) s l tabs s' tabs' : Prop := {
  pg_space : space s' [] pgdir tabs';
  pg_grown : grown pgdir s l tabs s' [] tabs';
  pg_map : forall va', 0 <= va' < 2 ^ 32 -> mapping (k_mem s') pgdir va' = mapping (k_mem s) pgdir va' \/
    (in_pages a n va' /\ mapping (k_mem s') pgdir va' = Some (entry_at a pa perm va'));
  pg_count : (size tabs' = size tabs + length l)%nat;
  pg_dom : forall i t, tabs' !! i = Some t -> tabs !! i = Some t \/ exists va', in_pages a n va' /\ PDX va' = i
}.

(** One round of the loop. *)
Lemma map_page s l pgdir tabs a pa perm : space s l pgdir tabs -> 0 <= a < 2 ^ 32 -> a mod 4096 = 0 ->
  0 <= pa < 2 ^ 32 -> pa mod 4096 = 0 -> 0 <= perm < 4096 -> mapping (k_mem s) pgdir a = None ->
  (l = [] /\ walkpgdir pgdir a true s = Ret 0 s) \/
  exists pte s1 s' l' tabs', walkpgdir pgdir a true s = Ret pte s1 /\ pte <> 0 /\ flag (ld32 (k_mem s1) pte) PTE_P = false /\
    s' = set_k_mem (st32 (k_mem s1) pte (mkpte pa perm)) s1 /\ mapped_pages pgdir a pa perm 1 s l tabs s' l' tabs' /\ (length l <= S (length l'))%nat.
Proof.
  intros Hs Ha Ham Hpa Hpm Hpe Hm. destruct (mkpte_spec pa perm Hpm Hpe) as (_ & Hfl & _ & Hr).
  destruct (walk_create s l pgdir tabs a Hs) as [(_ & -> & R)|(s1 & l1 & tabs1 & t & R & Ht & Hs1 & Hg & Hlen & Hcnt & Hmap & Hdom)]; [by left|right].
  set (s' := set_k_mem (st32 (k_mem s1) (t + 4 * PTX a) (mkpte pa perm)) s1).
  exists (t + 4 * PTX a), s1, s', l1, tabs1. split; [done|].
  destruct (sp_tab _ _ _ _ Hs1 _ _ Ht) as (_ & Hto & _). pose proof (page_ok_nz end_ t Hto). pose proof (PTX_range a).
  split; [destruct Hto as (_ & _ & ?); pglia|]. split.
  - rewrite <- Hmap, (mapping_space _ _ _ _ a Hs1), Ht in Hm. cbn zeta in Hm. by destruct (flag _ _).
  - split; [done|]. split; [|done]. split; [by apply se_space|by eapply grown_trans; [|apply se_grown]| |done|].
    2:{ intros i ti [?| ->]%Hdom; [by left|right]. exists a. split; [unfold in_pages; lia|done]. }
    intros va' Hva. unfold s'. rewrite (se_mapping s1 l1 pgdir tabs1 a t (mkpte pa perm) Hs1 Ht va' Ha Hva (Hr Hpa)).
    rewrite Hfl, Hmap. pose proof (page_of a va' Ham) as Hp. destruct (decide (va' / 4096 = a / 4096)) as [E|E].
    + rewrite decide_True by (unfold in_pages; apply Hp in E; lia). unfold entry_at. rewrite E.
      pose proof (Z.div_mod a 4096 ltac:(lia)). by replace (pa + (a / 4096 * 4096 - a)) with pa by lia.
    + by rewrite decide_False by (unfold in_pages; intros ?; apply E, Hp; lia).
Qed.

Lemma in_pages_S a n va' : in_pages a (S n) va' <-> in_pages a 1 va' \/ in_pages (a + 4096) n va'.
Proof using. unfold in_pages. lia. Qed.

Lemma entry_at_next a pa perm va' : entry_at (a + 4096) (pa + 4096) perm va' = entry_at a pa perm va'.
Proof using. unfold entry_at. f_equal. lia. Qed.

Lemma mapped_pages_S pgdir a pa perm n s l tabs s1 l1 tabs1 s' l' tabs' :
  mapped_pages pgdir a pa perm 1 s l tabs s1 l1 tabs1 ->
  mapped_pages pgdir (a + 4096) (pa + 4096) perm n s1 l1 tabs1 s' l' tabs' ->
  mapped_pages pgdir a pa perm (S n) s l tabs s' l' tabs'.
Proof.
  intros [A1 A2 A3 A4 A5] [B1 B2 B3 B4 B5]. split; [done|by eapply grown_trans| |lia|].
  2:{ intros i t [[?|(va' & ? & ?)]%A5|(va' & ? & ?)]%B5; [by left|right; exists va'; rewrite in_pages_S; auto..]. }
  intros va' Hv. rewrite (B3 va' Hv), (A3 va' Hv), entry_at_next.
  pose proof (in_pages_S a n va'). repeat case_decide; try done; naive_solver.
Qed.

Lemma mapped_partly pgdir a pa perm n s l tabs s1 l1 tabs1 s' tabs' :
  mapped_pages pgdir a pa perm 1 s l tabs s1 l1 tabs1 ->
  partly_mapped pgdir (a + 4096) (pa + 4096) perm n s1 l1 tabs1 s' tabs' ->
  partly_mapped pgdir a pa perm (S n) s l tabs s' tabs'.
Proof.
  intros [A1 A2 A3 A4 A5] [B1 B2 B3 B4 B5]. split; [done|by eapply grown_trans| |lia|].
  2:{ intros i t [[?|(va' & ? & ?)]%A5|(va' & ? & ?)]%B5; [by left|right; exists va'; rewrite in_pages_S; auto..]. }
  intros va' Hv. pose proof (in_pages_S a n va') as Hi.
  destruct (B3 va' Hv) as [E|[H E]]; [|right; rewrite entry_at_next in E; naive_solver].
  rewrite E, (A3 va' Hv). case_decide; [right|by left]. naive_solver.
Qed.

(** A page that is already mapped. *)
Lemma walk_mapped s l pgdir tabs a e : space s l pgdir tabs -> mapping (k_mem s) pgdir a = Some e ->
  exists pte, (forall al, walkpgdir pgdir a al s = Ret pte s) /\ pte <> 0 /\ ld32 (k_mem s) pte = e /\ flag e PTE_P = true /\
    exists t, tabs !! PDX a = Some t /\ pte = t + 4 * PTX a.
Proof.
  intros Hs Hm. rewrite (mapping_space _ _ _ _ a Hs) in Hm. destruct (tabs !! PDX a) as [t|] eqn:Et; [|done]. cbn zeta in Hm.
  destruct (sp_tab _ _ _ _ Hs _ _ Et) as (_ & Hto & _). pose proof (PTX_range a). pose proof (page_ok_nz end_ t Hto).
  exists (t + 4 * PTX a). split; [intros al; by eapply walk_present|]. split; [destruct Hto as (_ & _ & ?); pglia|].
  destruct (flag _ _) eqn:E; [|done]. injection Hm as <-. eauto.
Qed.

Definition unmapped (pgdir a : Z) (n : nat) (s : kstate) : Prop :=
  forall va', in_pages a n va' -> mapping (k_mem s) pgdir va' = None.

Lemma unmapped_S pgdir a pa perm n s l tabs s1 l1 tabs1 :
  mapped_pages pgdir a pa perm 1 s l tabs s1 l1 tabs1 -> 0 <= a -> a mod 4096 = 0 -> a + 4096 * Z.of_nat (S n) <= 2 ^ 32 ->
  mapping (k_mem s) pgdir a = None -> unmapped pgdir (a + 4096) n s1 -> unmapped pgdir a (S n) s.
Proof.
  intros [_ _ HM _ _] Ha Ham Hal Hm Hu va' Hv. destruct (decide (va' / 4096 = a / 4096)) as [E|E].
  - rewrite <- Hm. unfold mapping, PDX, PTX. unfold in_pages in Hv.
    destruct (proj2 (page_indices va' a ltac:(lia) ltac:(lia)) E) as [E1 E2]. unfold PDX, PTX in E1, E2. by rewrite E1, E2.
  - pose proof (page_of a va' Ham) as Hp. unfold in_pages in *. assert (Hv' : in_pages (a + 4096) n va') by (unfold in_pages; lia).
    rewrite <- (Hu va' Hv'), HM by lia. by rewrite decide_False by (unfold in_pages; lia).
Qed.

Lemma mappages_loop_run pgdir perm n : forall s l tabs a pa fuel,
  space s l pgdir tabs -> 0 <= perm < 4096 -> 0 <= a -> a mod 4096 = 0 -> a + 4096 * Z.of_nat (S n) <= 2 ^ 32 ->
  0 <= pa -> pa mod 4096 = 0 -> pa + 4096 * Z.of_nat (S n) <= 2 ^ 32 -> (n < fuel)%nat ->
  let run := mappages_loop pgdir perm (a + 4096 * Z.of_nat n) fuel a pa s in
  (unmapped pgdir a (S n) s /\ exists s' l' tabs', run = Ret 0 s' /\ mapped_pages pgdir a pa perm (S n) s l tabs s' l' tabs') \/
  (exists s' tabs', run = Ret (-1) s' /\ partly_mapped pgdir a pa perm (S n) s l tabs s' tabs') \/
  (~ unmapped pgdir a (S n) s /\ exists s', run = Stop (Panic "remap") s').
Proof.
  induction n as [|n IH]; intros s l tabs a pa fuel Hs Hpe Ha Ham Hal Hp Hpm Hpl Hf; (destruct fuel as [|fuel]; [lia|]);
    cbn [mappages_loop]; cbn zeta;
    (destruct (mapping (k_mem s) pgdir a) as [e|] eqn:Em;
     [right; right; split; [intros H; rewrite (H a) in Em by (unfold in_pages; lia); done|];
      destruct (walk_mapped s l pgdir tabs a e Hs Em) as (pte & R & Hne & He & Hfl & _); exists s; kstep (R true);
      rewrite (proj2 (Z.eqb_neq _ _)) by done; unfold rd32; kgets; by rewrite He, Hfl|]);
    destruct (map_page s l pgdir tabs a pa perm Hs ltac:(lia) Ham ltac:(lia) Hpm Hpe Em)
      as [[-> R]|(pte & s1 & s2 & l2 & tabs2 & R & Hne & Hfl & E2 & HM & Hlen)]; kstep R.
  1, 3: right; left; exists s, tabs; split; [done|]; split; [done|apply grown_refl|by left|cbn; lia|by left].
  all: rewrite (proj2 (Z.eqb_neq _ _)) by done; unfold rd32; kgets; rewrite Hfl; unfold wr32; kmod; fold (mkpte pa perm); rewrite <- E2.
  - left. split; [apply (unmapped_S pgdir a pa perm 0 s l tabs s2 l2 tabs2 HM); try done; intros va'; unfold in_pages; lia|].
    exists s2, l2, tabs2. rewrite Z.mul_0_r, Z.add_0_r, Z.eqb_refl. done.
  - rewrite (proj2 (Z.eqb_neq a _)) by lia. rewrite !(u32_small (_ + PGSIZE)) by pglia.
    replace (a + 4096 * Z.of_nat (S n)) with (a + PGSIZE + 4096 * Z.of_nat n) by pglia.
    destruct (IH s2 l2 tabs2 (a + PGSIZE) (pa + PGSIZE) fuel) as [(Hu & s' & l' & tabs' & R' & HM')|[(s' & tabs' & R' & HM')|(Hu & s' & R')]];
      [by apply HM|done|pglia|by rewrite Z.add_mod, Ham|pglia|pglia|by rewrite Z.add_mod, Hpm|pglia|lia| | |].
    + left. split; [by eapply unmapped_S|]. exists s', l', tabs'. split; [done|]. by eapply mapped_pages_S.
    + right; left. exists s', tabs'. split; [done|]. by eapply mapped_partly.
    + right; right. split; [|by exists s']. intros H. apply Hu. intros va' Hv.
      pose proof (proj2 (in_pages_S a (S n) va') (or_intror Hv)) as Hv2. unfold in_pages, PGSIZE in Hv, Hv2.
      rewrite (mg_map _ _ _ _ _ _ _ _ _ _ _ HM va') by lia. rewrite decide_False by (unfold in_pages; lia). apply H. unfold in_pages. lia.
Qed.

Lemma PGROUNDDOWN_spec a : PGROUNDDOWN a = a / 4096 * 4096.
Proof using. exact (PTE_ADDR_spec a). Qed.

Lemma mappages_run s l pgdir tabs va size pa perm :
  let a := va / 4096 * 4096 in let n := Z.to_nat ((va + size - 1) / 4096 - va / 4096) in
  space s l pgdir tabs -> 0 <= va -> 0 < size -> va + size <= 2 ^ 32 ->
  0 <= pa -> pa mod 4096 = 0 -> pa + 4096 * Z.of_nat (S n) <= 2 ^ 32 -> 0 <= perm < 4096 ->
  let run := mappages pgdir va size pa perm s in
  (unmapped pgdir a (S n) s /\ exists s' l' tabs', run = Ret 0 s' /\ mapped_pages pgdir a pa perm (S n) s l tabs s' l' tabs') \/
  (exists s' tabs', run = Ret (-1) s' /\ partly_mapped pgdir a pa perm (S n) s l tabs s' tabs') \/
  (~ unmapped pgdir a (S n) s /\ exists s', run = Stop (Panic "remap") s').
Proof.
  intros a n Hs Hva Hsz Hend Hpa Hpm Hpl Hpe run. unfold run, mappages. rewrite (u32_small (va + size - 1)) by lia.
  rewrite !PGROUNDDOWN_spec. fold a. pose proof (Z.div_le_mono va (va + size - 1) 4096 ltac:(lia) ltac:(lia)).
  pose proof (Z.div_mod (va + size - 1) 4096 ltac:(lia)). pose proof (Z.mod_pos_bound (va + size - 1) 4096 ltac:(lia)).
  pose proof (Z.div_mod va 4096 ltac:(lia)). pose proof (Z.mod_pos_bound va 4096 ltac:(lia)). pose proof (Z.div_pos va 4096 Hva ltac:(lia)).
  rewrite (u32_small a), (u32_small (_ * 4096)) by lia.
  replace ((va + size - 1) / 4096 * 4096) with (a + 4096 * Z.of_nat n) by lia.
  rewrite u32_small by lia. replace ((a + 4096 * Z.of_nat n - a) / PGSIZE) with (Z.of_nat n).
  2:{ replace (a + 4096 * Z.of_nat n - a) with (Z.of_nat n * 4096) by lia. unfold PGSIZE. by rewrite Z.div_mul. }
  rewrite Nat2Z.id. apply mappages_loop_run; try done; [lia|unfold a; apply Z.mod_mul; lia| |lia].
  assert (Hm : ((va + size - 1) / 4096 * 4096) <= 2 ^ 32 - 4096); [|lia].
  assert ((va + size - 1) / 4096 <= 2 ^ 20 - 1); [|lia]. apply Z.lt_le_pred. apply Z.div_lt_upper_bound; lia.
Qed.

Lemma map_one s l pgdir tabs a pa perm : space s l pgdir tabs -> 0 <= a -> a mod 4096 = 0 -> a + 4096 <= 2 ^ 32 ->
  0 <= pa -> pa mod 4096 = 0 -> pa + 4096 <= 2 ^ 32 -> 0 <= perm < 4096 -> mapping (k_mem s) pgdir a = None ->
  (exists s' l' tabs', mappages pgdir a PGSIZE pa perm s = Ret 0 s' /\ mapped_pages pgdir a pa perm 1 s l tabs s' l' tabs' /\
     (length l <= S (length l'))%nat) \/
  (l = [] /\ mappages pgdir a PGSIZE pa perm s = Ret (-1) s).
Proof.
  intros Hs Ha Ham Hal Hpa Hpm Hpl Hpe Em. unfold mappages. rewrite (u32_small (a + PGSIZE - 1)) by pglia.
  rewrite !PGROUNDDOWN_spec. pose proof (Z.div_mod a 4096 ltac:(lia)). replace (a / 4096 * 4096) with a by lia.
  replace ((a + PGSIZE - 1) / 4096 * 4096) with a.
  2:{ unfold PGSIZE. replace (a + 4096 - 1) with (a / 4096 * 4096 + 4095) by lia. rewrite Z.div_add_l by lia. change (4095 / 4096) with 0. lia. }
  rewrite u32_small, Z.sub_diag by lia. cbn [mappages_loop]. change (S (Z.to_nat (u32 0 / PGSIZE))) with 1%nat. cbn [mappages_loop].
  destruct (map_page s l pgdir tabs a pa perm Hs ltac:(lia) Ham ltac:(lia) Hpm Hpe Em)
    as [[-> R]|(pte & s1 & s2 & l2 & tabs2 & R & Hne & Hfl & E2 & HM & Hlen)]; kstep R; [by right|left].
  rewrite (proj2 (Z.eqb_neq _ _)) by done. unfold rd32. kgets. rewrite Hfl. unfold wr32. kmod. fold (mkpte pa perm). rewrite <- E2.
  rewrite Z.eqb_refl. by exists s2, l2, tabs2.
Qed.

(** ** Changes outside the tables *)

(** The tables only depend on the directory, the tables and the free list. *)
Lemma space_ext s s' l l' pgdir tabs :
  space s l pgdir tabs -> kmem_ok end_ s' l' -> mem_ok (k_mem s') ->
  (forall v, v ∈ l' -> v ∈ l \/ (v <> pgdir /\ forall i, tabs !! i <> Some v)) ->
  (forall a, pgdir <= a < pgdir + PGSIZE -> ld8 (k_mem s') a = ld8 (k_mem s) a) ->
  space s' l' pgdir tabs.
Proof.
  intros [Hk Hm Hd Hf Ht Hp] Hk' Hm' Hl Hpd. split; [done|done|done| |done|].
  - intros v [Hv|Hv]%Hl; [by apply Hf|done].
  - intros i Hi. rewrite (ld32_ext (k_mem s') (k_mem s)); [by apply Hp|]. intros a Ha. apply Hpd. pglia.
Qed.

Lemma mapping_ext s s' l l' pgdir tabs va : space s l pgdir tabs -> space s' l' pgdir tabs ->
  (forall i t a, tabs !! i = Some t -> t <= a < t + PGSIZE -> ld8 (k_mem s') a = ld8 (k_mem s) a) ->
  mapping (k_mem s') pgdir va = mapping (k_mem s) pgdir va.
Proof.
  intros Hs Hs' Hm. rewrite (mapping_space _ _ _ _ va Hs), (mapping_space _ _ _ _ va Hs').
  destruct (tabs !! PDX va) as [t|] eqn:E; [|done]. cbn zeta. pose proof (PTX_range va).
  rewrite (ld32_ext (k_mem s') (k_mem s)); [done|]. intros a Ha. apply (Hm _ t a E). pglia.
Qed.

(** The contents of page [v] may change. *)
Definition page_only (v : Z) (s s' : kstate) : Prop :=
  vframe s s' /\ mem_ok (k_mem s') /\ forall a, (a < v \/ v + PGSIZE <= a) -> ld8 (k_mem s') a = ld8 (k_mem s) a.

Lemma page_only_keeps v w s s' a : page_ok end_ v -> page_ok end_ w -> v <> w -> page_only v s s' -> w <= a < w + PGSIZE ->
  ld8 (k_mem s') a = ld8 (k_mem s) a.
Proof.
  intros Hv Hw Hne (_ & _ & H) Ha. apply H. destruct (pages_apart end_ v w Hv Hw Hne); lia.
Qed.

Lemma page_only_space v s s' l l' pgdir tabs :
  space s l pgdir tabs -> page_only v s s' -> page_ok end_ v -> v <> pgdir -> (forall i, tabs !! i <> Some v) ->
  kmem_ok end_ s' l' -> (forall w, w ∈ l' -> w ∈ l \/ w = v) ->
  space s' l' pgdir tabs /\ forall va, mapping (k_mem s') pgdir va = mapping (k_mem s) pgdir va.
Proof.
  intros Hs Ho Hv Hnd Hnt Hk Hl. assert (Hs' : space s' l' pgdir tabs).
  { apply (space_ext s s' l l'); [done|done|by destruct Ho as (_ & ? & _)|intros w [?| ->]%Hl; auto|].
    intros a Ha. by apply (page_only_keeps v pgdir); [|apply Hs| | |]. }
  split; [done|]. intros va. apply (mapping_ext s s' l l' pgdir tabs); [done|done|]. intros i t a Ht Ha.
  apply (page_only_keeps v t); [done|by apply (sp_tab _ _ _ _ Hs i t Ht)| |done|done]. intros ->. by apply Hnt in Ht.
Qed.

Lemma kfree_page s l v : kmem_ok end_ s l -> mem_ok (k_mem s) -> page_ok end_ v -> v ∉ l ->
  exists s', kfree end_ v s = Ret tt s' /\ kmem_ok end_ s' (v :: l) /\ page_only v s s'.
Proof.
  intros Hk Hm Hv Hl. eexists. split; [apply kfree_run; [done|by eapply ko_lock]|]. split; [by apply kfree_ok|].
  split; [by destruct s|]. ksimp. split; [by apply mem_ok_st32, mem_ok_page|]. intros a Ha.
  rewrite ld8_st32_ne by pglia. rewrite ld8_memset by pglia. destruct (v <=? a) eqn:E1, (a <? v + PGSIZE) eqn:E2; try done; brefl; lia.
Qed.

(** A page comes off the free list and is zeroed. *)
Lemma kalloc_page s p l : kmem_ok end_ s (p :: l) -> mem_ok (k_mem s) ->
  let s1 := set_k_freelist (ld32 (k_mem s) p) s in
  kalloc s = Ret p s1 /\ p <> 0 /\ page_ok end_ p /\ (p ∉ l) /\ kmem_ok end_ s1 l.
Proof.
  intros [(E & Hp & Hl) Hnd Hlk] Hm s1. pose proof (page_ok_nz end_ p Hp). rewrite (kalloc_run s Hlk), E.
  rewrite (proj2 (Z.eqb_neq _ _)) by done. apply NoDup_cons in Hnd as [? ?]. do 4 (split; [done|]). by split.
Qed.

Lemma kalloc_none s : kmem_ok end_ s [] -> kalloc s = Ret 0 s.
Proof. intros [E _ Hlk]. cbn in E. by rewrite (kalloc_run s Hlk), E. Qed.

(** ** Address spaces *)

(** The kernel's address of the page an entry points to. *)
Definition frame (e : Z) : Z := p2v (PTE_ADDR e).

(** The byte the process has at [va]. *)
Definition ubyte (m : mem) (pgdir va : Z) : option Z :=
  match mapping m pgdir va with Some e => Some (ld8 m (frame e + va mod 4096)) | None => None end.

(** A page that is none of the free ones and none of the tables. *)
Definition own_page (l : list Z) (pgdir : Z) (tabs : gmap Z Z) (v : Z) : Prop :=
  page_ok end_ v /\ (v ∉ l) /\ v <> pgdir /\ forall i, tabs !! i <> Some v.

(** A page directory whose user part maps pages of its own, each once. *)
Record aspace (s : kstate) (l : list Z) (pgdir : Z) (tabs : gmap Z Z) : Prop := {
  as_space : space s l pgdir tabs;
  as_own : forall va e, 0 <= va < KERNBASE -> mapping (k_mem s) pgdir va = Some e -> own_page l pgdir tabs (frame e);
  as_inj : forall va va' e e', 0 <= va < KERNBASE -> 0 <= va' < KERNBASE ->
    mapping (k_mem s) pgdir va = Some e -> mapping (k_mem s) pgdir va' = Some e' -> frame e = frame e' -> va / 4096 = va' / 4096
}.

Lemma own_page_grown pgdir s l tabs s' l' tabs' v : grown pgdir s l tabs s' l' tabs' ->
  own_page l pgdir tabs v -> own_page l' pgdir tabs' v.
Proof.
  intros [_ [u E] _ Hn _] (H1 & H2 & H3 & H4). split; [done|]. split; [intros H; apply H2; rewrite E; apply elem_of_app; by right|].
  split; [done|]. intros i [H|H]%Hn; [by apply (H4 i)|done].
Qed.

Lemma own_page_same pgdir s l tabs s' l' tabs' v a : grown pgdir s l tabs s' l' tabs' ->
  own_page l pgdir tabs v -> v <= a < v + PGSIZE -> ld8 (k_mem s') a = ld8 (k_mem s) a.
Proof. intros HG (H1 & H2 & H3 & H4) Ha. by apply (gr_page _ _ _ _ _ _ _ HG v a). Qed.

Lemma page_offset va : 0 <= va mod 4096 < PGSIZE.
Proof using. unfold PGSIZE. apply Z.mod_pos_bound. lia. Qed.

(** The bytes of a process change only with its mappings. *)
Lemma ubyte_grown s l pgdir tabs s' l' tabs' va :
  aspace s l pgdir tabs -> grown pgdir s l tabs s' l' tabs' -> 0 <= va < KERNBASE ->
  mapping (k_mem s') pgdir va = mapping (k_mem s) pgdir va -> ubyte (k_mem s') pgdir va = ubyte (k_mem s) pgdir va.
Proof.
  intros Ha HG Hva E. unfold ubyte. rewrite E. destruct (mapping (k_mem s) pgdir va) as [e|] eqn:Em; [|done]. f_equal.
  pose proof (page_offset va). apply (own_page_same pgdir s l tabs s' l' tabs' (frame e)); [done|by apply (as_own _ _ _ _ Ha va)|lia].
Qed.

Lemma frame_mkpte p perm : page_ok end_ p -> 0 <= perm < 4096 -> frame (mkpte (v2p p) perm) = p.
Proof. intros Hp Hpe. destruct (p2v_v2p p Hp) as (E & Ha & _). unfold frame. by rewrite (proj1 (mkpte_spec (v2p p) perm Ha Hpe)). Qed.

(** Mapping a page of the process's own. *)
Lemma aspace_map s l pgdir tabs a p perm s' l' tabs' :
  aspace s l pgdir tabs -> own_page l pgdir tabs p -> 0 <= perm < 4096 -> 0 <= a < KERNBASE -> a mod 4096 = 0 ->
  (forall va e, 0 <= va < KERNBASE -> mapping (k_mem s) pgdir va = Some e -> frame e <> p) ->
  mapped_pages pgdir a (v2p p) perm 1 s l tabs s' l' tabs' ->
  aspace s' l' pgdir tabs' /\ forall va, 0 <= va < 2 ^ 32 -> mapping (k_mem s') pgdir va =
    if decide (va / 4096 = a / 4096) then Some (mkpte (v2p p) perm) else mapping (k_mem s) pgdir va.
Proof.
  intros [Hs Ho Hi] Hp Hpe Ha Ham Hfresh [HS HG HM]. pose proof (frame_mkpte p perm (proj1 Hp) Hpe) as Ef.
  assert (HM' : forall va, 0 <= va < 2 ^ 32 -> mapping (k_mem s') pgdir va =
    if decide (va / 4096 = a / 4096) then Some (mkpte (v2p p) perm) else mapping (k_mem s) pgdir va).
  { intros va Hva. rewrite (HM va Hva). pose proof (page_of a va Ham) as Hpo. destruct (decide (va / 4096 = a / 4096)) as [E|E].
    - rewrite decide_True by (unfold in_pages; apply Hpo in E; lia). unfold entry_at. rewrite E.
      pose proof (Z.div_mod a 4096 ltac:(lia)). do 2 f_equal. lia.
    - by rewrite decide_False by (unfold in_pages; intros ?; apply E, Hpo; lia). }
  split; [|done]. split; [done| |].
  - intros va e Hva. rewrite HM' by pglia. case_decide; [|intros E; by eapply own_page_grown, Ho].
    intros [= <-]. rewrite Ef. by eapply own_page_grown.
  - intros va va' e e' Hva Hva'. rewrite !HM' by pglia. repeat case_decide; intros E E' Hfe; simplify_eq; try congruence.
    + exfalso. rewrite Ef in Hfe. by apply (Hfresh va' e').
    + exfalso. rewrite Ef in Hfe. by apply (Hfresh va e).
    + by apply (Hi va va' e e').
Qed.

(** Taking a page off the free list and filling it. *)
Lemma take_page s p l pgdir tabs s2 :
  aspace s (p :: l) pgdir tabs -> page_only p s s2 -> k_freelist s2 = ld32 (k_mem s) p ->
  aspace s2 l pgdir tabs /\ own_page l pgdir tabs p /\ grown pgdir s (p :: l) tabs s2 l tabs /\
  (forall va, mapping (k_mem s2) pgdir va = mapping (k_mem s) pgdir va) /\
  forall va e, 0 <= va < KERNBASE -> mapping (k_mem s2) pgdir va = Some e -> frame e <> p.
Proof.
  intros [Hs Ho Hi] Hpo Efl. pose proof Hs as [[(E & Hp & Hl) Hnd Hlk] Hm _ Hf _ _]. apply NoDup_cons in Hnd as [Hnin Hnd].
  destruct (Hf p ltac:(left)) as [Hpd Hpt]. assert (Hk : kmem_ok end_ s2 l).
  { split; [|done|by rewrite (vframe_held s s2 (proj1 Hpo))]. rewrite Efl. apply (free_list_ext end_ (k_mem s)); [|done].
    intros v a Hv Ha. symmetry. apply (page_only_keeps p v); try done; [by eapply free_list_ok|by intros ->]. }
  destruct (page_only_space p s s2 (p :: l) l pgdir tabs Hs Hpo Hp Hpd Hpt Hk) as [Hs2 Hmap]; [by left; right|].
  assert (Hown : forall v, own_page (p :: l) pgdir tabs v -> own_page l pgdir tabs v).
  { intros v (Hv1 & Hv & Hv2). split; [done|]. split; [|done]. intros H. apply Hv. by right. }
  split; [split; [done| |]|split; [|split; [|split; [done|]]]].
  - intros va e Hva. rewrite Hmap. intros H. eapply Hown, Ho; done.
  - intros va va' e e' Hva Hva'. rewrite !Hmap. by apply Hi.
  - done.
  - split; [by apply Hpo|by exists [p]|done|by left|]. intros v a Hv _ _ Hvl Ha. apply (page_only_keeps p v); try done.
    intros ->. apply Hvl. left.
  - intros va e Hva. rewrite Hmap. intros H Efe. destruct (Ho va e Hva H) as (_ & Hx & _). apply Hx. rewrite Efe. left.
Qed.

Lemma zero_page_only s p : mem_ok (k_mem s) ->
  page_only p s (set_k_mem (Kernel.memset (k_mem s) p 0 PGSIZE) (set_k_freelist (ld32 (k_mem s) p) s)) /\
  forall a, p <= a < p + PGSIZE -> ld8 (Kernel.memset (k_mem s) p 0 PGSIZE) a = 0.
Proof using.
  intros Hm. split; [split; [by destruct s|]; ksimp; split; [by apply mem_ok_page|]|]; intros a Ha; rewrite ld8_memset by pglia;
    (destruct (p <=? a) eqn:E1, (a <? p + PGSIZE) eqn:E2; try done; brefl; lia).
Qed.

(** The user part between [a] and the next [n] pages is new and zero, the rest
    is as it was. *)
Record user_grown (pgdir a : Z) (n : nat) s l tabs s' l' tabs' : Prop := {
  ug_space : aspace s' l' pgdir tabs';
  ug_grown : grown pgdir s l tabs s' l' tabs';
  ug_new : forall va, in_pages a n va -> ubyte (k_mem s') pgdir va = Some 0 /\
    exists e, mapping (k_mem s') pgdir va = Some e /\ PTE_FLAGS e = 7 /\ frame e ∈ l;
  ug_old : forall va, 0 <= va < 2 ^ 32 -> ~ in_pages a n va -> mapping (k_mem s') pgdir va = mapping (k_mem s) pgdir va
}.

Lemma user_grown_0 pgdir a s l tabs : aspace s l pgdir tabs -> user_grown pgdir a 0 s l tabs s l tabs.
Proof. intros Ha. split; [done|apply grown_refl| |done]. intros va. unfold in_pages. lia. Qed.

Lemma user_grown_S pgdir a n s l tabs s1 l1 tabs1 s' l' tabs' :
  0 <= a -> a + 4096 * Z.of_nat (S n) <= KERNBASE ->
  user_grown pgdir a 1 s l tabs s1 l1 tabs1 -> user_grown pgdir (a + 4096) n s1 l1 tabs1 s' l' tabs' ->
  user_grown pgdir a (S n) s l tabs s' l' tabs'.
Proof.
  intros Ha Hn [A1 A2 A3 A4] [B1 B2 B3 B4]. split; [done|by eapply grown_trans| |].
  - intros va [Hv|Hv]%in_pages_S.
    + assert (Hr : 0 <= va < KERNBASE) by (unfold in_pages in Hv; lia). destruct (A3 va Hv) as (E1 & e & E2 & ?).
      assert (Em : mapping (k_mem s') pgdir va = mapping (k_mem s1) pgdir va) by (apply B4; unfold in_pages in *; pglia).
      rewrite (ubyte_grown s1 l1 pgdir tabs1 s' l' tabs') by done. rewrite Em. eauto.
    + destruct (B3 va Hv) as (E1 & e & E2 & E3 & E4). split; [done|]. exists e. do 2 (split; [done|]).
      destruct (gr_list _ _ _ _ _ _ _ A2) as [u ->]. apply elem_of_app. by right.
  - intros va Hva Hv. pose proof (in_pages_S a n va). rewrite B4, A4 by tauto. done.
Qed.

(** ** allocuvm *)

Lemma alloc_one s p l pgdir tabs a :
  aspace s (p :: l) pgdir tabs -> 0 <= a -> a mod 4096 = 0 -> a + 4096 <= KERNBASE -> mapping (k_mem s) pgdir a = None -> l <> [] ->
  exists s1 s2 s' l' tabs', kalloc s = Ret p s1 /\ p <> 0 /\ memset_ p 0 PGSIZE s1 = Ret tt s2 /\
    mappages pgdir a PGSIZE (v2p p) (Z.lor PTE_W PTE_U) s2 = Ret 0 s' /\
    user_grown pgdir a 1 s (p :: l) tabs s' l' tabs' /\ (length l <= S (length l'))%nat.
Proof.
  intros Ha H0 Ham Hk Hm Hl. pose proof (as_space _ _ _ _ Ha) as Hs. pose proof (sp_mem _ _ _ _ Hs) as Hmem.
  destruct (kalloc_page s p l (sp_kmem _ _ _ _ Hs) Hmem) as (R1 & Hnz & Hp & _ & _).
  set (s1 := set_k_freelist (ld32 (k_mem s) p) s) in *. set (s2 := set_k_mem (Kernel.memset (k_mem s) p 0 PGSIZE) s1).
  destruct (zero_page_only s p Hmem) as [Hpo Hz].
  destruct (take_page s p l pgdir tabs s2 Ha Hpo eq_refl) as (Ha2 & Hown & HG & Hmap & Hfresh).
  destruct (p2v_v2p p Hp) as (_ & Hpm & Hpr). assert (Hpe : v2p p + 4096 <= 2 ^ 32).
  { unfold v2p. destruct Hp as (_ & _ & ?). rewrite u32_small by pglia. pglia. }
  destruct (map_one s2 l pgdir tabs a (v2p p) 6 (as_space _ _ _ _ Ha2)) as [(s' & l' & tabs' & R' & HM & Hlen)|[-> _]];
    rewrite ?Hmap; try done; try lia; [pglia|].
  destruct (aspace_map s2 l pgdir tabs a p 6 s' l' tabs' Ha2 Hown) as [Ha' HM']; try done; try lia.
  exists s1, s2, s', l', tabs'. do 4 (split; [done|]). split; [|done].
  split; [done|by eapply grown_trans; [|apply HM]| |].
  - intros va Hv. pose proof (page_of a va Ham) as Hpo'. assert (E : mapping (k_mem s') pgdir va = Some (mkpte (v2p p) 6)).
    { rewrite HM' by (unfold in_pages in Hv; pglia). rewrite decide_True; [done|]. apply Hpo'. unfold in_pages in Hv. lia. }
    rewrite E. unfold ubyte. rewrite E, frame_mkpte by (done || lia). pose proof (page_offset va). split.
    + rewrite (own_page_same pgdir s2 l tabs s' l' tabs' p); [by rewrite Hz by lia|by apply HM|done|lia].
    + exists (mkpte (v2p p) 6). split; [done|]. destruct (mkpte_spec (v2p p) 6 Hpm ltac:(lia)) as (_ & _ & -> & _).
      split; [done|]. rewrite frame_mkpte by (done || lia). left.
  - intros va Hva Hv. pose proof (page_of a va Ham) as Hpo'. rewrite HM' by done. rewrite decide_False; [apply Hmap|].
    intros E%Hpo'. apply Hv. unfold in_pages. lia.
Qed.

Lemma allocuvm_loop_run pgdir oldsz newsz n : forall s l tabs a fuel,
  aspace s l pgdir tabs -> 0 <= a -> a mod 4096 = 0 -> a + 4096 * Z.of_nat n <= KERNBASE ->
  newsz <= a + 4096 * Z.of_nat n -> (n <> 0%nat -> a + 4096 * (Z.of_nat n - 1) < newsz) ->
  unmapped pgdir a n s -> (2 * n <= length l)%nat -> (n < fuel)%nat ->
  exists s' l' tabs', allocuvm_loop end_ pgdir oldsz newsz fuel a s = Ret newsz s' /\
    user_grown pgdir a n s l tabs s' l' tabs' /\ (length l <= length l' + 2 * n)%nat.
Proof.
  induction n as [|n IH]; intros s l tabs a fuel Ha H0 Ham Hk Hend Hlast Hu Hlen Hf; (destruct fuel as [|fuel]; [lia|]); cbn [allocuvm_loop].
  { exists s, l, tabs. rewrite (proj2 (Z.ltb_ge _ _)) by lia. split; [done|]. split; [by apply user_grown_0|lia]. }
  rewrite (proj2 (Z.ltb_lt _ _)) by lia. destruct l as [|p [|q l]]; [cbn in Hlen; lia..|].
  destruct (alloc_one s p (q :: l) pgdir tabs a Ha H0 Ham) as (s1 & s2 & s3 & l3 & tabs3 & R1 & Hnz & R2 & R3 & HG & Hl3); [lia|apply Hu; unfold in_pages; lia|done|].
  kstep R1. rewrite (proj2 (Z.eqb_neq _ _)) by done. kstep R2. kstep R3. rewrite u32_small by pglia. change PGSIZE with 4096.
  destruct (IH s3 l3 tabs3 (a + 4096) fuel (ug_space _ _ _ _ _ _ _ _ _ HG)) as (s' & l' & tabs' & R & HG' & Hl'); try lia;
    [by rewrite Z.add_mod, Ham| |cbn [length] in *; lia|].
  - intros va Hv. pose proof (proj2 (in_pages_S a n va) (or_intror Hv)) as Hv2.
    rewrite (ug_old _ _ _ _ _ _ _ _ _ HG) by (unfold in_pages in *; pglia). by apply Hu.
  - exists s', l', tabs'. split; [done|]. split; [|cbn [length] in *; lia]. by apply (user_grown_S pgdir a n s (p :: q :: l) tabs s3 l3 tabs3).
Qed.

(** The number of pages from [PGROUNDUP oldsz] to [newsz]. *)
Definition pages_between (oldsz newsz : Z) : nat := Z.to_nat ((newsz + 4095) / 4096 - (oldsz + 4095) / 4096).

Lemma PGROUNDUP_div sz : PGROUNDUP sz = (sz + 4095) / 4096 * 4096.
Proof using. unfold PGROUNDUP, PGSIZE. replace (sz + 4096 - 1) with (sz + 4095) by lia. exact (PTE_ADDR_spec (sz + 4095)). Qed.

Lemma allocuvm_run s l pgdir tabs oldsz newsz :
  let a := (oldsz + 4095) / 4096 * 4096 in let n := pages_between oldsz newsz in
  aspace s l pgdir tabs -> 0 <= oldsz <= newsz -> newsz < KERNBASE -> unmapped pgdir a n s -> (2 * n <= length l)%nat ->
  exists s' l' tabs', allocuvm end_ pgdir oldsz newsz s = Ret newsz s' /\ user_grown pgdir a n s l tabs s' l' tabs' /\
    (length l <= length l' + 2 * n)%nat.
Proof.
  intros a n Ha Ho Hk Hu Hl. unfold allocuvm. rewrite (proj2 (Z.leb_gt _ _)), (proj2 (Z.ltb_ge _ _)) by lia.
  rewrite PGROUNDUP_div. fold a. pose proof (Z.div_le_mono (oldsz + 4095) (newsz + 4095) 4096 ltac:(lia) ltac:(lia)) as Hle.
  pose proof (Z.div_mod (newsz + 4095) 4096 ltac:(lia)). pose proof (Z.mod_pos_bound (newsz + 4095) 4096 ltac:(lia)).
  pose proof (Z.div_mod (oldsz + 4095) 4096 ltac:(lia)). pose proof (Z.mod_pos_bound (oldsz + 4095) 4096 ltac:(lia)).
  assert (E : a + 4096 * Z.of_nat n = (newsz + 4095) / 4096 * 4096) by (unfold a, n, pages_between; lia).
  assert (Hb : (newsz + 4095) / 4096 * 4096 <= KERNBASE).
  { assert ((newsz + 4095) / 4096 < 524289); [|pglia]. apply Z.div_lt_upper_bound; pglia. }
  pose proof (Z.div_pos (oldsz + 4095) 4096 ltac:(lia) ltac:(lia)).
  rewrite u32_small by pglia. apply allocuvm_loop_run; try done; try lia.
  - unfold a. apply Z.mod_mul. lia.
  - pose proof (Z.div_mod newsz PGSIZE ltac:(pglia)). pose proof (Z.mod_pos_bound newsz PGSIZE ltac:(pglia)).
    pose proof (Z.div_pos newsz PGSIZE ltac:(lia) ltac:(pglia)). unfold PGSIZE in *. lia.
Qed.

(** ** deallocuvm *)

(** The kernel is loaded above [KERNBASE]. *)
Context (Hend : KERNBASE < end_).

(** The user pages in [a, b) are gone, and their frames are free. *)
Record user_shrunk (pgdir : Z) (tabs : gmap Z Z) (a b : Z) (s : kstate) (l : list Z) (s' : kstate) (l' : list Z) : Prop := {
  us_space : aspace s' l' pgdir tabs;
  us_frame : vframe s s';
  us_map : forall va, 0 <= va < 2 ^ 32 -> mapping (k_mem s') pgdir va =
    if decide (a <= va < b) then None else mapping (k_mem s) pgdir va;
  us_free : forall v, v ∈ l' <-> v ∈ l \/ exists va e, a <= va < b /\ mapping (k_mem s) pgdir va = Some e /\ frame e = v;
  us_page : forall v x, page_ok end_ v -> v <> pgdir -> (forall i, tabs !! i <> Some v) -> v ∉ l' -> v <= x < v + PGSIZE ->
    ld8 (k_mem s') x = ld8 (k_mem s) x
}.

Lemma user_shrunk_empty pgdir tabs a b s l : aspace s l pgdir tabs ->
  (forall va, a <= va < b -> mapping (k_mem s) pgdir va = None) -> user_shrunk pgdir tabs a b s l s l.
Proof.
  intros Ha Hm. split; [done|done| | |done].
  - intros va Hva. case_decide; [by apply Hm|done].
  - intros v. split; [by left|]. intros [?|(va & e & Hva & E & _)]; [done|]. by rewrite Hm in E.
Qed.

Lemma user_shrunk_trans pgdir tabs a b c s1 l1 s2 l2 s3 l3 : 0 <= a <= b -> b <= c <= KERNBASE ->
  user_shrunk pgdir tabs a b s1 l1 s2 l2 -> user_shrunk pgdir tabs b c s2 l2 s3 l3 -> user_shrunk pgdir tabs a c s1 l1 s3 l3.
Proof.
  intros Hab Hbc [A1 A2 A3 A4 A5] [B1 B2 B3 B4 B5]. split; [done|by etrans| | |].
  - intros va Hva. rewrite B3, A3 by done. repeat case_decide; try done; lia.
  - intros v. rewrite B4, A4. split.
    + intros [[?|(va & e & ? & ?)]|(va & e & Hva & E & ?)]; [by left|right; exists va, e; split; [lia|done]|right; exists va, e].
      rewrite A3, decide_False in E by pglia. split; [lia|done].
    + intros [?|(va & e & Hva & E & Ef)]; [by left; left|]. destruct (decide (va < b)); [left; right; exists va, e; split; [lia|done]|right].
      exists va, e. rewrite A3, decide_False by pglia. split; [lia|done].
  - intros v x Hv Hd Ht Hl Hx. rewrite (B5 v x) by done. apply (A5 v x); try done. intros H. apply Hl, B4. by left.
Qed.

(** Freeing the page at [a]. *)
Lemma unmap_one s l pgdir tabs a e : aspace s l pgdir tabs -> 0 <= a < KERNBASE -> a mod 4096 = 0 -> mapping (k_mem s) pgdir a = Some e ->
  exists pte s1, walkpgdir pgdir a false s = Ret pte s /\ pte <> 0 /\ ld32 (k_mem s) pte = e /\ flag e PTE_P = true /\
    PTE_ADDR e <> 0 /\ kfree end_ (p2v (PTE_ADDR e)) s = Ret tt s1 /\
    user_shrunk pgdir tabs a (a + 4096) s l (set_k_mem (st32 (k_mem s1) pte 0) s1) (frame e :: l).
Proof.
  intros [Hs Ho Hi] Ha Ham Em. destruct (walk_mapped s l pgdir tabs a e Hs Em) as (pte & R & Hne & He & Hfl & t & Ht & Ep).
  destruct (Ho a e Ha Em) as (Hf & Hfl' & Hfd & Hft).
  destruct (kfree_page s l (frame e) (sp_kmem _ _ _ _ Hs) (sp_mem _ _ _ _ Hs) Hf Hfl') as (s1 & R1 & Hk1 & Hpo).
  destruct (page_only_space (frame e) s s1 l (frame e :: l) pgdir tabs Hs Hpo Hf Hfd Hft Hk1) as [Hs1 Hm1].
  { intros w [->|?]%elem_of_cons; [by right|by left]. }
  exists pte, s1. split; [by apply R|]. do 3 (split; [done|]). split.
  { intros E. destruct Hf as (_ & Hge & _). unfold frame, p2v in Hge. rewrite E, u32_small in Hge by pglia. lia. }
  split; [done|]. subst pte. set (s2 := set_k_mem _ s1).
  assert (Hm2 : forall va, 0 <= va < 2 ^ 32 -> mapping (k_mem s2) pgdir va =
    if decide (a <= va < a + 4096) then None else mapping (k_mem s) pgdir va).
  { intros va Hva. unfold s2. rewrite (se_mapping s1 (frame e :: l) pgdir tabs a t 0 Hs1 Ht) by pglia.
    rewrite Hm1. pose proof (page_of a va Ham). repeat case_decide; try done; tauto. }
  assert (Hp2 : forall v x, page_ok end_ v -> v <> frame e -> v <> t -> v <= x < v + PGSIZE -> ld8 (k_mem s2) x = ld8 (k_mem s) x).
  { intros v x Hv Hvf Hvt Hx. unfold s2. rewrite (se_page s1 (frame e :: l) pgdir tabs a t 0 Hs1 Ht v x) by done.
    by apply (page_only_keeps (frame e) v). }
  split; [split; [by apply se_space| |]|destruct Hpo as [Hv _]; unfold s2; unfold vframe in *; rewrite Hv; by destruct s|done| |].
  - intros va e' Hva. rewrite Hm2 by pglia. case_decide as Hd; [done|]. intros E. destruct (Ho va e' Hva E) as (? & ? & ? & ?).
    split; [done|]. split; [|done]. intros [Ef|?]%elem_of_cons; [|done]. apply Hd. apply (page_of a va Ham). by apply (Hi va a e' e).
  - intros va va' e1 e2 Hva Hva'. rewrite !Hm2 by pglia. repeat case_decide; try done. by apply Hi.
  - intros v. rewrite elem_of_cons. split.
    + intros [->|?]; [right; exists a, e; split; [lia|done]|by left].
    + intros [?|(va & e' & Hva & E & Ef)]; [by right|left]. rewrite <- Ef. f_equal.
      assert (mapping (k_mem s) pgdir va = mapping (k_mem s) pgdir a) as E'; [|congruence]. unfold mapping.
      destruct (proj2 (page_indices va a ltac:(pglia) ltac:(pglia))) as [-> ->]; [|done]. by apply page_of.
  - intros v x Hv Hd Hnt Hl Hx. apply (Hp2 v x); try done; [intros ->; apply Hl; left|intros ->; by apply Hnt in Ht].
Qed.

(** Where a table is missing, the loop skips to the end of its 4 megabytes: it
    must meet the gap at its start. *)
Definition start_ok (tabs : gmap Z Z) (a : Z) : Prop := tabs !! PDX a = None -> a mod 2 ^ 22 = 0.

Lemma PDX_same a va : a mod 2 ^ 22 = 0 -> a <= va < a + 2 ^ 22 -> PDX va = PDX a.
Proof using.
  intros Ha Hva. rewrite !PDX_div. f_equal. pose proof (Z.div_mod a (2 ^ 22) ltac:(lia)). symmetry. apply (Z.div_unique_pos va (2 ^ 22) _ (va - a)); lia.
Qed.
Lemma start_ok_next tabs a t : a mod 4096 = 0 -> tabs !! PDX a = Some t -> start_ok tabs (a + 4096).
Proof using.
  intros Ham Ht Hn. destruct (decide (PDX (a + 4096) = PDX a)) as [E|E]; [congruence|].
  pose proof (Z.div_mod a (2 ^ 22) ltac:(lia)). pose proof (Z.mod_pos_bound a (2 ^ 22) ltac:(lia)).
  destruct (decide (a mod 2 ^ 22 + 4096 < 2 ^ 22)) as [Hlt|Hge].
  - contradict E. rewrite !PDX_div. f_equal. symmetry. apply (Z.div_unique_pos (a + 4096) (2 ^ 22) _ (a mod 2 ^ 22 + 4096)); lia.
  - assert (H4 : (a mod 2 ^ 22) mod 4096 = 0) by (change (2 ^ 22) with (4096 * 1024); by rewrite Z.rem_mul_r, Ham, Z.add_0_l, Z.mul_comm, Z.mod_mul by lia).
    pose proof (Z.div_mod (a mod 2 ^ 22) 4096 ltac:(lia)). replace (a + 4096) with ((a / 2 ^ 22 + 1) * 2 ^ 22) by lia. apply Z.mod_mul. lia.
Qed.

Lemma unmapped_absent s l pgdir tabs a b : space s l pgdir tabs ->
  (forall va, a <= va < b -> tabs !! PDX va = None) -> forall va, a <= va < b -> mapping (k_mem s) pgdir va = None.
Proof. intros Hs Ht va Hva. rewrite (mapping_space _ _ _ _ va Hs). by rewrite Ht. Qed.

Lemma deallocuvm_loop_run pgdir tabs oldsz n : forall s l a fuel,
  aspace s l pgdir tabs -> 0 <= a -> a mod 4096 = 0 -> oldsz <= a + 4096 * Z.of_nat n <= KERNBASE ->
  (n <> 0%nat -> a + 4096 * (Z.of_nat n - 1) < oldsz) -> start_ok tabs a -> (n < fuel)%nat ->
  exists s' l', deallocuvm_loop end_ pgdir oldsz fuel a s = Ret tt s' /\ user_shrunk pgdir tabs a (a + 4096 * Z.of_nat n) s l s' l'.
Proof.
  induction n as [n IH0] using lt_wf_ind. intros s l a fuel Ha H0 Ham Hend' Hlast Htf Hf; (destruct fuel as [|fuel]; [lia|]).
  destruct n as [|n].
  { exists s, l. cbn [deallocuvm_loop]. rewrite (proj2 (Z.ltb_ge _ _)) by lia. split; [done|]. apply user_shrunk_empty; [done|lia]. }
  pose proof (as_space _ _ _ _ Ha) as Hs. assert (Hlt : a < oldsz) by lia.
  destruct (tabs !! PDX a) as [t|] eqn:Et.
  2:{ specialize (Htf Et). assert (Hn : forall va, a <= va < a + 2 ^ 22 -> tabs !! PDX va = None) by (intros va Hva; by rewrite (PDX_same a va Htf Hva)).
      assert (Hk : a + 2 ^ 22 <= KERNBASE) by (pose proof (Z.div_mod a (2 ^ 22) ltac:(lia)); unfold KERNBASE in *; lia).
      cbn [deallocuvm_loop]. rewrite (proj2 (Z.ltb_lt _ _)) by done. kstep (walk_absent s l pgdir tabs a Hs Et). rewrite Z.eqb_refl.
      rewrite (u32_small (a + _)) by (unfold NPTENTRIES; pglia). rewrite u32_small by (unfold NPTENTRIES; pglia).
      replace (a + (NPTENTRIES - 1) * PGSIZE + PGSIZE) with (a + 2 ^ 22) by (unfold NPTENTRIES; pglia).
      destruct (decide (n < 1024)%nat) as [Hs'|Hb].
      - exists s, l. destruct fuel as [|fuel]; [lia|]. cbn [deallocuvm_loop]. rewrite (proj2 (Z.ltb_ge _ _)) by lia. split; [done|].
        apply user_shrunk_empty; [done|]. intros va Hva. apply (unmapped_absent s l pgdir tabs a (a + 2 ^ 22)); [done|done|lia].
      - destruct (IH0 (S n - 1024)%nat ltac:(lia) s l (a + 2 ^ 22) fuel Ha) as (s' & l' & R & H2); try lia.
        { change (2 ^ 22) with (1024 * 4096). by rewrite Z.mod_add by lia. }
        { intros _. by rewrite Zplus_mod, Htf. }
        exists s', l'. split; [done|]. replace (a + 4096 * Z.of_nat (S n)) with (a + 2 ^ 22 + 4096 * Z.of_nat (S n - 1024)) by lia.
        apply (user_shrunk_trans pgdir tabs a (a + 2 ^ 22) _ s l s l); [lia|lia| |done]. apply user_shrunk_empty; [done|].
        by apply (unmapped_absent s l pgdir tabs a (a + 2 ^ 22)). }
  pose proof (IH0 n ltac:(lia)) as IH.
  cbn [deallocuvm_loop]. rewrite (proj2 (Z.ltb_lt _ _)) by done.
  assert (Hrec : forall s1 l1, user_shrunk pgdir tabs a (a + 4096) s l s1 l1 ->
    exists s' l', deallocuvm_loop end_ pgdir oldsz fuel (u32 (a + PGSIZE)) s1 = Ret tt s' /\
      user_shrunk pgdir tabs a (a + 4096 * Z.of_nat (S n)) s l s' l').
  { intros s1 l1 H1. rewrite u32_small by pglia. change PGSIZE with 4096.
    destruct (IH s1 l1 (a + 4096) fuel (us_space _ _ _ _ _ _ _ _ H1)) as (s' & l' & R & H2); try lia; [by rewrite Z.add_mod, Ham| |].
    - by apply (start_ok_next tabs a t).
    - exists s', l'. split; [done|]. replace (a + 4096 * Z.of_nat (S n)) with (a + 4096 + 4096 * Z.of_nat n) by lia.
      apply (user_shrunk_trans pgdir tabs a (a + 4096) _ s l s1 l1); (done || lia). }
  destruct (mapping (k_mem s) pgdir a) as [e|] eqn:Em.
  - destruct (unmap_one s l pgdir tabs a e Ha ltac:(pglia) Ham Em) as (pte & s1 & R & Hne & He & Hfl & Hnz & R1 & H1).
    kstep R. rewrite (proj2 (Z.eqb_neq pte 0)) by done. unfold rd32. kgets. rewrite He, Hfl, (proj2 (Z.eqb_neq _ _)) by done.
    unfold wr32. rewrite bind_assoc. kstep R1. kmod. by apply (Hrec _ (frame e :: l)).
  - pose proof (walk_present s l pgdir tabs a false t Hs Et) as R. kstep R.
    destruct (sp_tab _ _ _ _ Hs _ _ Et) as (_ & Hto & _). pose proof (PTX_range a). pose proof (page_ok_nz end_ t Hto).
    rewrite (proj2 (Z.eqb_neq _ _)) by (destruct Hto as (_ & _ & ?); pglia). unfold rd32. kgets.
    pose proof Em as Em'. rewrite (mapping_space _ _ _ _ a Hs), Et in Em. cbn zeta in Em. destruct (flag _ _); [done|]. rewrite ret_bind.
    apply (Hrec s l). apply user_shrunk_empty; [done|]. intros va Hva. rewrite <- Em'. unfold mapping.
    by destruct (proj2 (page_indices va a ltac:(pglia) ltac:(pglia))) as [-> ->]; [apply page_of|].
Qed.

Lemma deallocuvm_run s l pgdir tabs oldsz newsz :
  let a := (newsz + 4095) / 4096 * 4096 in let b := (oldsz + 4095) / 4096 * 4096 in
  aspace s l pgdir tabs -> 0 <= newsz < oldsz -> oldsz <= KERNBASE -> start_ok tabs a ->
  exists s' l', deallocuvm end_ pgdir oldsz newsz s = Ret newsz s' /\ user_shrunk pgdir tabs a b s l s' l'.
Proof.
  intros a b Ha Ho Hk Htf. unfold deallocuvm. rewrite (proj2 (Z.leb_gt _ _)) by lia. rewrite PGROUNDUP_div. fold a.
  pose proof (Z.div_le_mono (newsz + 4095) (oldsz + 4095) 4096 ltac:(lia) ltac:(lia)) as Hle.
  pose proof (Z.div_mod (newsz + 4095) 4096 ltac:(lia)). pose proof (Z.mod_pos_bound (newsz + 4095) 4096 ltac:(lia)).
  pose proof (Z.div_mod (oldsz + 4095) 4096 ltac:(lia)). pose proof (Z.mod_pos_bound (oldsz + 4095) 4096 ltac:(lia)).
  set (n := Z.to_nat ((oldsz + 4095) / 4096 - (newsz + 4095) / 4096)).
  assert (E : a + 4096 * Z.of_nat n = b) by (unfold a, b, n; lia).
  assert (Hb : b <= KERNBASE).
  { assert ((oldsz + 4095) / 4096 < 524289); [|unfold b; pglia]. apply Z.div_lt_upper_bound; pglia. }
  pose proof (Z.div_pos (newsz + 4095) 4096 ltac:(lia) ltac:(lia)). rewrite (u32_small a) by pglia.
  destruct (deallocuvm_loop_run pgdir tabs oldsz n s l a (Z.to_nat (oldsz / PGSIZE + 2)) Ha) as (s' & l' & R & HS); rewrite ?E; try done; try lia.
  - unfold a. apply Z.mod_mul. lia.
  - pose proof (Z.div_mod oldsz PGSIZE ltac:(pglia)). pose proof (Z.mod_pos_bound oldsz PGSIZE ltac:(pglia)).
    pose proof (Z.div_pos oldsz PGSIZE ltac:(lia) ltac:(pglia)). unfold PGSIZE in *. lia.
  - exists s', l'. kstep R. by rewrite E in HS.
Qed.

(** ** freevm *)

(** The directory while its tables are being freed, from entry [i] on. *)
Record freeing (s : kstate) (l : list Z) (pgdir : Z) (tabs : gmap Z Z) (i : Z) : Prop := {
  fv_kmem : kmem_ok end_ s l;
  fv_mem : mem_ok (k_mem s);
  fv_dir : page_ok end_ pgdir /\ pgdir ∉ l;
  fv_tab : forall j t, tabs !! j = Some t -> 0 <= j < 1024 /\ page_ok end_ t /\ t <> pgdir /\ (i <= j -> t ∉ l) /\ forall k, tabs !! k = Some t -> k = j;
  fv_pde : forall j, 0 <= j < 1024 ->
    match tabs !! j with
    | Some t => flag (ld32 (k_mem s) (pgdir + 4 * j)) PTE_P = true /\ p2v (PTE_ADDR (ld32 (k_mem s) (pgdir + 4 * j))) = t
    | None => flag (ld32 (k_mem s) (pgdir + 4 * j)) PTE_P = false
    end
}.

Lemma freeing_step s l pgdir tabs i : freeing s l pgdir tabs i -> 0 <= i < 1024 ->
  exists s' l', freevm_one end_ pgdir i s = Ret tt s' /\ freeing s' l' pgdir tabs (i + 1) /\ vframe s s' /\
    (forall v, v ∈ l' <-> v ∈ l \/ tabs !! i = Some v) /\
    forall v x, page_ok end_ v -> v ∉ l' -> v <= x < v + PGSIZE -> ld8 (k_mem s') x = ld8 (k_mem s) x.
Proof.
  intros [H1 H2 [H3 H3'] H4 H5] Hi. unfold freevm_one, rd32. rewrite page_fits by done. kgets. pose proof (H5 i Hi) as Hp.
  destruct (tabs !! i) as [t|] eqn:Et.
  - destruct Hp as [-> ->]. destruct (H4 i t Et) as (_ & Ht & Htd & Htl & Hu).
    destruct (kfree_page s l t H1 H2 Ht (Htl ltac:(lia))) as (s' & R & Hk & Hpo). exists s', (t :: l). split; [done|]. split; [|split; [|split]].
    + split; [done|by apply Hpo| | |].
      * split; [done|]. intros [->|?]%elem_of_cons; done.
      * intros j t' Hj. destruct (H4 j t' Hj) as (? & ? & ? & Hl' & ?). do 3 (split; [done|]). split; [|done].
        intros Hij [->|?]%elem_of_cons; [|by apply Hl'; [lia|]]. assert (j = i) by (by apply Hu). lia.
      * intros j Hj. rewrite (ld32_ext (k_mem s') (k_mem s)); [by apply H5|]. intros x Hx.
        apply (page_only_keeps t pgdir); try done. pglia.
    + by apply Hpo.
    + intros v. rewrite elem_of_cons. split; [intros [->|?]; auto|intros [?|[= ->]]; auto].
    + intros v x Hv Hl' Hx. apply (page_only_keeps t v); try done. intros ->. apply Hl'. left.
  - rewrite Hp. exists s, l. split; [done|]. split; [|split; [done|split; [|done]]].
    + split; try done. intros j t Hj. destruct (H4 j t Hj) as (? & ? & ? & Hl' & ?). do 3 (split; [done|]). split; [|done]. intros. apply Hl'. lia.
    + intros v. split; [by left|intros [?|?]; done].
Qed.

Lemma freevm_tables pgdir tabs n : forall i s l, freeing s l pgdir tabs i -> 0 <= i -> i + Z.of_nat n = 1024 ->
  exists s' l', for_loop n i (freevm_one end_ pgdir) s = Ret tt s' /\ freeing s' l' pgdir tabs 1024 /\ vframe s s' /\
    (forall v, v ∈ l' <-> v ∈ l \/ exists j, i <= j /\ tabs !! j = Some v) /\
    forall v x, page_ok end_ v -> v ∉ l' -> v <= x < v + PGSIZE -> ld8 (k_mem s') x = ld8 (k_mem s) x.
Proof.
  induction n as [|n IH]; intros i s l Hf Hi Hn; cbn [for_loop].
  { exists s, l. replace i with 1024 in * by lia. split; [done|]. split; [done|]. split; [done|]. split; [|done].
    intros v. split; [by left|]. intros [?|(j & Hj & E)]; [done|]. apply (fv_tab _ _ _ _ _ Hf) in E. lia. }
  destruct (freeing_step s l pgdir tabs i Hf) as (s1 & l1 & R1 & Hf1 & F1 & L1 & P1); [lia|]. kstep R1.
  destruct (IH (i + 1) s1 l1 Hf1) as (s' & l' & R & Hf' & F' & L' & P'); [lia|lia|]. exists s', l'.
  split; [done|]. split; [done|]. split; [by etrans|]. split.
  - intros v. rewrite L', L1. split.
    + intros [[?|?]|(j & ? & ?)]; [by left|right; exists i; split; [lia|done]|right; exists j; split; [lia|done]].
    + intros [?|(j & Hj & E)]; [by left; left|]. destruct (decide (j = i)) as [->|]; [by left; right|right]. exists j. split; [lia|done].
  - intros v x Hv Hl Hx. rewrite (P' v x) by done. apply (P1 v x); [done| |done]. intros H. apply Hl, L'. by left.
Qed.

Lemma freevm_run s l pgdir tabs : aspace s l pgdir tabs ->
  exists s' l', freevm end_ pgdir s = Ret tt s' /\ kmem_ok end_ s' l' /\ mem_ok (k_mem s') /\ vframe s s' /\
    (forall v, v ∈ l' <-> v ∈ l \/ v = pgdir \/ (exists i, tabs !! i = Some v) \/
       exists va e, 0 <= va < KERNBASE /\ mapping (k_mem s) pgdir va = Some e /\ frame e = v) /\
    forall v x, page_ok end_ v -> v ∉ l' -> v <= x < v + PGSIZE -> ld8 (k_mem s') x = ld8 (k_mem s) x.
Proof.
  intros Ha. pose proof (sp_dir _ _ _ _ (as_space _ _ _ _ Ha)) as Hd. unfold freevm.
  rewrite (proj2 (Z.eqb_neq _ _)) by (by eapply page_ok_nz).
  destruct (deallocuvm_run s l pgdir tabs KERNBASE 0 Ha) as (s1 & l1 & R1 & [A1 A2 A3 A4 A5]); [done|lia|done|]. kstep R1.
  change ((0 + 4095) / 4096 * 4096) with 0 in *. change ((KERNBASE + 4095) / 4096 * 4096) with KERNBASE in *.
  pose proof (as_space _ _ _ _ A1) as [S1 S2 S3 S4 S5 S6].
  assert (Hf : freeing s1 l1 pgdir tabs 0).
  { split; [done|done|split; [done|]| |done]; [intros H; by destruct (S4 pgdir H)|]. intros j t Hj. destruct (S5 j t Hj) as (? & ? & ? & ?).
    do 3 (split; [done|]). split; [|done]. intros _ Hx. by apply (S4 t Hx) in Hj. }
  destruct (freevm_tables pgdir tabs (Z.to_nat NPDENTRIES) 0 s1 l1 Hf) as (s2 & l2 & R2 & [B1 B2 [B3 B3'] B4 B5] & F2 & L2 & P2); [done|done|].
  kstep R2. destruct (kfree_page s2 l2 pgdir B1 B2 B3 B3') as (s' & R & Hk & Hpo). exists s', (pgdir :: l2).
  split; [done|]. split; [done|]. split; [by apply Hpo|]. split; [etrans; [done|]; etrans; [done|]; apply Hpo|]. split.
  - intros v. rewrite elem_of_cons, L2, A4. split.
    + intros [->|[[?|?]|(j & _ & ?)]]; [by right; left|by left|by right; right; right|right; right; left; by exists j].
    + intros [?|[->|[(j & E)|?]]]; [by right; left; left|by left|right; right; exists j|by right; left; right].
      split; [by apply (S5 j v)|done].
  - intros v x Hv Hl Hx. assert (Hl2 : v ∉ l2) by (intros H; apply Hl; by right).
    rewrite (page_only_keeps pgdir v s2 s'); [|done|done|intros ->; apply Hl; left|done|done]. rewrite (P2 v x) by done.
    assert (Hl1 : v ∉ l1) by (intros H; apply Hl2, L2; by left).
    apply (A5 v x); [done|intros ->; apply Hl; left| |done|done]. intros i E. apply Hl2, L2. right. exists i. split; [by apply (S5 i v)|done].
Qed.

Lemma aspace_empty s l d td : space s l d td -> (forall va, 0 <= va < KERNBASE -> mapping (k_mem s) d va = None) -> aspace s l d td.
Proof. intros Hs H. split; [done| |]; intros va ? **; by rewrite H in *. Qed.

End paging.

(** ** A small machine: a page directory and two free pages *)

Definition vdir : Z := 0x80110000.
Definition vpages : list Z := [0x80106000; 0x80105000].

Lemma kend_page n : 0 <= n < 0x100 -> page_ok kend (0x80105000 + 4096 * n).
Proof. intros Hn. split; [|unfold kend, KERNBASE, PHYSTOP; lia]. rewrite Z.mul_comm. unfold PGSIZE. by rewrite Z.mod_add. Qed.

Lemma vm_state : exists s, aspace kend s vpages vdir ∅ /\ forall va, mapping (k_mem s) vdir va = None.
Proof.
  assert (Hz : forall a, ld32 (k_mem km0) a = 0) by (intros a; apply ld32_zero; intros i _; unfold ld8; cbn [km0 kzero k_mem]; by rewrite lookup_empty).
  assert (S0 : space kend km0 [] vdir ∅).
  { split; [apply km0_ok|apply mem_ok_empty|apply (kend_page 11); lia| |done|]; [intros v H; by apply elem_of_nil in H|].
    intros i Hi. rewrite lookup_empty, Hz. done. }
  assert (M0 : forall va, mapping (k_mem km0) vdir va = None) by (intros va; unfold mapping; by rewrite Hz).
  pose proof (kend_page 0 ltac:(lia)) as P1. pose proof (kend_page 1 ltac:(lia)) as P2.
  destruct (kfree_page kend km0 [] 0x80105000 km0_ok mem_ok_empty P1) as (s1 & _ & K1 & O1); [apply not_elem_of_nil|].
  destruct (page_only_space kend _ km0 s1 [] _ vdir ∅ S0 O1 P1 ltac:(done) ltac:(done) K1) as [S1 M1]; [intros w [->|?]%elem_of_cons; auto|].
  destruct (kfree_page kend s1 _ 0x80106000 K1 (proj1 (proj2 O1)) P2) as (s2 & _ & K2 & O2); [intros [?|H]%elem_of_cons; [done|by apply elem_of_nil in H]|].
  destruct (page_only_space kend _ s1 s2 _ _ vdir ∅ S1 O2 P2 ltac:(done) ltac:(done) K2) as [S2 M2]; [intros w [->|?]%elem_of_cons; auto|].
  exists s2. assert (M : forall va, mapping (k_mem s2) vdir va = None) by (intros va; by rewrite M2, M1).
  split; [|done]. by apply (aspace_empty kend).
Qed.

(** [mappages] of a range maps exactly its pages, in order, to consecutive
    physical pages with the given permissions, and leaves the translation of
    every other address and the contents of every page outside the tables
    alone; it panics exactly when it meets a page that is mapped already, and
    returns -1 when no page is left for a table, with some pages of the range
    mapped. *)
Theorem mappages_maps end_ s l pgdir tabs va size pa perm :
  let a := va / 4096 * 4096 in let n := S (Z.to_nat ((va + size - 1) / 4096 - va / 4096)) in
  space end_ s l pgdir tabs -> 0 <= va -> 0 < size -> va + size <= 2 ^ 32 ->
  0 <= pa -> pa mod 4096 = 0 -> pa + 4096 * Z.of_nat n <= 2 ^ 32 -> 0 <= perm < 4096 ->
  let run := mappages pgdir va size pa perm s in
  (unmapped pgdir a n s /\ exists s' l' tabs', run = Ret 0 s' /\ mapped_pages end_ pgdir a pa perm n s l tabs s' l' tabs') \/
  (exists s' tabs', run = Ret (-1) s' /\ partly_mapped end_ pgdir a pa perm n s l tabs s' tabs') \/
  (~ unmapped pgdir a n s /\ exists s', run = Stop (Panic "remap") s').
Proof. intros a n. apply mappages_run. Qed.

(** With enough free pages, [allocuvm] gives the process every page between
    the old and the new size: each is a page taken from the free list, mapped
    writable for the user, and reads as zeros; all other addresses keep their
    translation and contents, and the invariant of address spaces is kept. *)
Theorem allocuvm_grows end_ s l pgdir tabs oldsz newsz :
  let a := PGROUNDUP oldsz in let n := pages_between oldsz newsz in
  aspace end_ s l pgdir tabs -> 0 <= oldsz <= newsz -> newsz < KERNBASE -> unmapped pgdir a n s -> (2 * n <= length l)%nat ->
  exists s' l' tabs', allocuvm end_ pgdir oldsz newsz s = Ret newsz s' /\ aspace end_ s' l' pgdir tabs' /\
    (forall va, oldsz <= va < newsz -> PGROUNDUP oldsz <= va -> ubyte (k_mem s') pgdir va = Some 0 /\
       exists e, mapping (k_mem s') pgdir va = Some e /\ PTE_FLAGS e = Z.lor (Z.lor PTE_W PTE_U) PTE_P /\ frame e ∈ l) /\
    (forall va, 0 <= va < KERNBASE -> ~ in_pages a n va -> ubyte (k_mem s') pgdir va = ubyte (k_mem s) pgdir va) /\
    (forall va, KERNBASE <= va < 2 ^ 32 -> mapping (k_mem s') pgdir va = mapping (k_mem s) pgdir va).
Proof.
  intros a n Ha Ho Hk Hu Hl. unfold a in *. rewrite PGROUNDUP_div in *.
  destruct (allocuvm_run end_ s l pgdir tabs oldsz newsz Ha Ho Hk Hu Hl) as (s' & l' & tabs' & R & [G1 G2 G3 G4] & _).
  pose proof (Z.div_le_mono (oldsz + 4095) (newsz + 4095) 4096 ltac:(lia) ltac:(lia)) as Hle.
  pose proof (Z.div_mod (newsz + 4095) 4096 ltac:(lia)). pose proof (Z.mod_pos_bound (newsz + 4095) 4096 ltac:(lia)).
  pose proof (Z.div_mod (oldsz + 4095) 4096 ltac:(lia)). pose proof (Z.mod_pos_bound (oldsz + 4095) 4096 ltac:(lia)).
  assert (E : (oldsz + 4095) / 4096 * 4096 + 4096 * Z.of_nat n = (newsz + 4095) / 4096 * 4096) by (unfold n, pages_between; lia).
  exists s', l', tabs'. split; [done|]. split; [done|]. split; [|split].
  - intros va Hva Hv. apply G3. unfold in_pages. fold n. lia.
  - intros va Hva Hv. apply (ubyte_grown end_ s l pgdir tabs s' l' tabs'); try done. apply G4; [pglia|done].
  - intros va Hva. apply G4; [pglia|]. unfold in_pages. fold n.
    assert ((newsz + 4095) / 4096 < 524289); [|pglia]. apply Z.div_lt_upper_bound; pglia.
Qed.

(** C23: [freevm] gives back everything: afterwards the free list has, besides
    what it had, exactly the page directory, its tables and the pages the user
    part mapped, each once, and no other page has changed. *)
Theorem freevm_frees_all end_ s l pgdir tabs :
  KERNBASE < end_ -> aspace end_ s l pgdir tabs ->
  exists s' l', freevm end_ pgdir s = Ret tt s' /\ kmem_ok end_ s' l' /\
    (forall v, v ∈ l' <-> v ∈ l \/ v = pgdir \/ (exists i, tabs !! i = Some v) \/
       exists va e, 0 <= va < KERNBASE /\ mapping (k_mem s) pgdir va = Some e /\ frame e = v) /\
    forall v x, page_ok end_ v -> v ∉ l' -> v <= x < v + PGSIZE -> ld8 (k_mem s') x = ld8 (k_mem s) x.
Proof.
  intros He Ha. destruct (freevm_run end_ He s l pgdir tabs Ha) as (s' & l' & R & Hk & _ & _ & Hl & Hp). by exists s', l'.
Qed.

Lemma mappages_maps_witness : exists s s' r, unmapped vdir 0x1000 2 s /\ mappages vdir 0x1000 0x2000 0x105000 PTE_U s = Ret r s' /\
  (r = 0 -> mapping (k_mem s') vdir 0x2000 = Some (mkpte 0x106000 PTE_U)).
Proof.
  destruct vm_state as (s & [Hs _ _] & Hm). assert (Hu : unmapped vdir 0x1000 2 s) by (intros va _; apply Hm).
  destruct (mappages_maps kend s vpages vdir ∅ 0x1000 0x2000 0x105000 PTE_U Hs) as [(_ & s' & l' & tabs' & R & [_ _ M])|[(s' & t' & R & _)|(H & _)]];
    [lia|lia|lia|lia|done|vm_compute; done|unfold PTE_U; lia|..].
  - exists s, s', 0. split; [done|]. split; [done|]. intros _. rewrite M by lia. rewrite decide_True by (unfold in_pages; vm_compute; done). reflexivity.
  - by exists s, s', (-1).
  - exfalso. by apply H.
Defined.

Lemma allocuvm_grows_witness : exists s s', allocuvm kend vdir 0 4096 s = Ret 4096 s' /\ ubyte (k_mem s') vdir 17 = Some 0.
Proof.
  destruct vm_state as (s & Ha & Hm).
  destruct (allocuvm_grows kend s vpages vdir ∅ 0 4096 Ha) as (s' & l' & tabs' & R & _ & Hn & _); [lia|unfold KERNBASE; lia|intros va _; apply Hm|vm_compute; lia|].
  exists s, s'. split; [done|]. apply Hn; [lia|]. rewrite PGROUNDUP_div. change ((0 + 4095) / 4096 * 4096) with 0. lia.
Defined.

Lemma freevm_frees_all_witness : exists s s' l', freevm kend vdir s = Ret tt s' /\ kmem_ok kend s' l' /\ vdir ∈ l'.
Proof.
  destruct vm_state as (s & Ha & Hm).
  destruct (freevm_frees_all kend s vpages vdir ∅ ltac:(done) Ha) as (s' & l' & R & Hk & Hl & _).
  exists s, s', l'. split; [done|]. split; [done|]. apply Hl. right. by left.
Defined.


