(* ===== verification/Addrspace.v ===== *)
(** * New address spaces: the theorems on setupkvm and copyuvm of src/xv6/vm.c

    Two address spaces share one free list.  What one of them does to its own
    tables and to free pages leaves the other alone ([aspace_other]); with it,
    [copyuvm] is shown to give the child the bytes of the parent in pages of
    its own. *)

From stdpp Require Import base list list_numbers numbers gmap strings.
From Stdlib Require Import ZArith Lia.
From S2P Require Import Prelude Mem CString KState Sched Kalloc Vm Paging.

Section addrspace.
Context (end_ data_ : Z).

(** The pages of an address space. *)
Definition part_of (s : kstate) (pgdir : Z) (tabs : gmap Z Z) (v : Z) : Prop :=
  v = pgdir \/ (exists i, tabs !! i = Some v) \/
  exists va e, 0 <= va < KERNBASE /\ mapping (k_mem s) pgdir va = Some e /\ frame e = v.

Lemma part_of_page s l pgdir tabs v : aspace end_ s l pgdir tabs -> part_of s pgdir tabs v -> page_ok end_ v /\ v ∉ l.
Proof.
  intros [Hs Ho _] [->|[(i & Hi)|(va & e & Hva & E & <-)]].
  - split; [apply Hs|]. intros H. by destruct (sp_free _ _ _ _ _ Hs pgdir H).
  - split; [by apply (sp_tab _ _ _ _ _ Hs i v)|]. intros H. destruct (sp_free _ _ _ _ _ Hs v H) as [_ H']. by apply (H' i).
  - destruct (Ho va e Hva E) as (? & ? & _). done.
Qed.

(** The same bytes in all the pages of the address space. *)
Lemma aspace_ext s l pgdir tabs s' l' :
  aspace end_ s l pgdir tabs -> kmem_ok end_ s' l' -> mem_ok (k_mem s') -> (forall v, v ∈ l' -> v ∈ l \/ ~ part_of s pgdir tabs v) ->
  (forall v x, part_of s pgdir tabs v -> v <= x < v + PGSIZE -> ld8 (k_mem s') x = ld8 (k_mem s) x) ->
  aspace end_ s' l' pgdir tabs /\ (forall va, mapping (k_mem s') pgdir va = mapping (k_mem s) pgdir va) /\
  forall va, 0 <= va < KERNBASE -> ubyte (k_mem s') pgdir va = ubyte (k_mem s) pgdir va.
Proof.
  intros Ha Hk Hm Hl Hp. pose proof Ha as [Hs Ho Hi].
  assert (Hs' : space end_ s' l' pgdir tabs).
  { apply (space_ext end_ s s' l l'); [done|done|done| |].
    { intros v [?|Hn]%Hl; [by left|right]. split; [intros ->; apply Hn; by left|]. intros i Hv. apply Hn. right; left. by exists i. }
    intros x Hx. apply (Hp pgdir); [by left|done]. }
  assert (Em : forall va, mapping (k_mem s') pgdir va = mapping (k_mem s) pgdir va).
  { intros va. apply (mapping_ext end_ s s' l l' pgdir tabs); [done|done|]. intros i t x Ht Hx. apply (Hp t); [right; left; by exists i|done]. }
  split; [split; [done| |]|split; [done|]].
  - intros va e Hva. rewrite Em. intros E. destruct (Ho va e Hva E) as (? & Hnl & ?). split; [done|]. split; [|done]. intros [?|Hn]%Hl; [done|]. apply Hn. right; right. by exists va, e.
  - intros va va' e e' Hva Hva'. rewrite !Em. by apply Hi.
  - intros va Hva. unfold ubyte. rewrite Em. destruct (mapping (k_mem s) pgdir va) as [e|] eqn:E; [|done]. f_equal.
    pose proof (page_offset va). apply (Hp (frame e)); [right; right; eauto|lia].
Qed.

Lemma aspace_eq s s' l d td : k_mem s' = k_mem s -> k_freelist s' = k_freelist s -> k_held s' = k_held s -> aspace end_ s l d td -> aspace end_ s' l d td.
Proof.
  intros Em Ef Eh Ha. destruct (as_space _ _ _ _ _ Ha) as [[K1 K2 K3] Hm _ _ _ _].
  apply (aspace_ext s l d td s' l Ha); [split; [by rewrite Em, Ef|done|by rewrite Eh]|by rewrite Em|auto|by rewrite Em].
Qed.

(** What one address space does leaves another one alone. *)
Lemma aspace_other s l pgdir tabs d td s' l' td' :
  aspace end_ s l pgdir tabs -> grown end_ d s l td s' l' td' -> kmem_ok end_ s' l' -> mem_ok (k_mem s') ->
  (forall v, part_of s pgdir tabs v -> v <> d /\ forall i, td !! i <> Some v) ->
  aspace end_ s' l' pgdir tabs /\ (forall va, mapping (k_mem s') pgdir va = mapping (k_mem s) pgdir va) /\
  forall va, 0 <= va < KERNBASE -> ubyte (k_mem s') pgdir va = ubyte (k_mem s) pgdir va.
Proof.
  intros Ha HG Hk Hm Hd. apply (aspace_ext s l); try done.
  - intros v Hv. left. destruct (gr_list _ _ _ _ _ _ _ _ HG) as [u ->]. apply elem_of_app. by right.
  - intros v x Hv Hx. destruct (part_of_page s l pgdir tabs v Ha Hv). destruct (Hd v Hv).
    by apply (gr_page _ _ _ _ _ _ _ _ HG v x).
Qed.

(** ** setupkvm *)

(** The entries of a directory for the rows of [kmap]. *)
Definition kernel_pde (i : Z) : Prop := 512 <= i < 568 \/ 1016 <= i < 1024.

(** A directory made from free pages; everything else is as it was. *)
Record fresh_dir (s : kstate) (l : list Z) (d : Z) (s' : kstate) (l' : list Z) (td : gmap Z Z) : Prop := {
  fd_space : aspace end_ s' l' d td;
  fd_frame : vframe s s';
  fd_list : exists u, l = u ++ l';
  fd_in : d ∈ l /\ forall i t, td !! i = Some t -> t ∈ l;
  fd_user : forall va, 0 <= va < KERNBASE -> mapping (k_mem s') d va = None;
  fd_page : forall v x, page_ok end_ v -> v ∉ l -> v <= x < v + PGSIZE -> ld8 (k_mem s') x = ld8 (k_mem s) x;
  fd_count : (length l = S (size td + length l'))%nat;
  fd_dom : forall i t, td !! i = Some t -> kernel_pde i
}.

(** A directory has at most 1024 tables. *)
Lemma size_tabs s l d td : space end_ s l d td -> (size td <= 1024)%nat.
Proof.
  intros Hs. rewrite <- (size_dom (D := gset Z)). trans (size (list_to_set (seqZ 0 1024) : gset Z)).
  - apply subseteq_size. intros i [t Hi]%elem_of_dom. apply elem_of_list_to_set, elem_of_seqZ. destruct (sp_tab _ _ _ _ _ Hs i t Hi). lia.
  - rewrite size_list_to_set by apply NoDup_seqZ. rewrite length_seqZ. lia.
Qed.

(** One for the kernel has at most 64. *)
Lemma size_kernel_tabs (td : gmap Z Z) : (forall i t, td !! i = Some t -> kernel_pde i) -> (size td <= 64)%nat.
Proof.
  intros Hd. rewrite <- (size_dom (D := gset Z)). trans (size (list_to_set (seqZ 512 56 ++ seqZ 1016 8) : gset Z)).
  - apply subseteq_size. intros i [t Hi]%elem_of_dom. apply elem_of_list_to_set, elem_of_app. rewrite !elem_of_seqZ. apply Hd in Hi. unfold kernel_pde in Hi. lia.
  - rewrite size_list_to_set; [rewrite length_app, !length_seqZ; lia|]. apply NoDup_app. split; [apply NoDup_seqZ|]. split; [|apply NoDup_seqZ].
    intros i Hi Hj. rewrite elem_of_seqZ in Hi, Hj. lia.
Qed.

(** The free pages are used up; no other page has changed. *)
Record lost (s : kstate) (l : list Z) (s' : kstate) : Prop := {
  lo_kmem : kmem_ok end_ s' [];
  lo_mem : mem_ok (k_mem s');
  lo_frame : vframe s s';
  lo_page : forall v x, page_ok end_ v -> v ∉ l -> v <= x < v + PGSIZE -> ld8 (k_mem s') x = ld8 (k_mem s) x;
  lo_few : (length l <= 65)%nat
}.

Lemma fresh_dir_page s l d s1 l1 t1 s2 l2 t2 v x : fresh_dir s l d s1 l1 t1 -> grown end_ d s1 l1 t1 s2 l2 t2 ->
  page_ok end_ v -> v ∉ l -> v <= x < v + PGSIZE -> ld8 (k_mem s2) x = ld8 (k_mem s) x.
Proof.
  intros [A1 A2 [u A3] [A4 A4'] A5 A6 A7 A8] [B1 [u' B2] B3 B4 B5] Hv Hl Hx. rewrite (B5 v x); [by apply (A6 v x)|done| | | |done].
  - intros ->. done.
  - intros i H. by apply Hl, (A4' i).
  - intros H. apply Hl. rewrite A3. apply elem_of_app. by right.
Qed.
Lemma fresh_dir_grown s l d s1 l1 t1 s2 l2 t2 : fresh_dir s l d s1 l1 t1 -> grown end_ d s1 l1 t1 s2 l2 t2 -> space end_ s2 l2 d t2 ->
  (forall va, 0 <= va < KERNBASE -> mapping (k_mem s2) d va = None) -> (size t2 + length l2 = size t1 + length l1)%nat ->
  (forall i t, t2 !! i = Some t -> kernel_pde i) -> fresh_dir s l d s2 l2 t2.
Proof.
  intros HF HG Hs Hn Hc Hk. pose proof HF as [A1 A2 [u A3] [A4 A4'] A5 A6 A7 A8]. pose proof HG as [B1 [u' B2] B3 B4 B5].
  split; [by apply (aspace_empty end_)|by etrans| | |done| |lia|done].
  - exists (u ++ u'). by rewrite A3, B2, app_assoc.
  - split; [done|]. intros i t [H|H]%B4; [by eapply A4'|]. rewrite A3. apply elem_of_app. by right.
  - intros v x. by apply (fresh_dir_page s l d s1 l1 t1 s2 l2 t2).
Qed.

Lemma new_dir s p l : kmem_ok end_ s (p :: l) -> mem_ok (k_mem s) ->
  exists s1 s2, kalloc s = Ret p s1 /\ p <> 0 /\ memset_ p 0 PGSIZE s1 = Ret tt s2 /\ fresh_dir s (p :: l) p s2 l ∅ /\
    forall va, mapping (k_mem s2) p va = None.
Proof.
  intros Hk Hm. destruct (kalloc_page end_ s p l Hk Hm) as (R & Hnz & Hp & Hnin & Hk1).
  destruct (zero_page_only s p Hm) as [Hpo Hz]. set (s2 := set_k_mem _ _) in Hpo. exists (set_k_freelist (ld32 (k_mem s) p) s), s2.
  assert (Hpde : forall i, 0 <= i < 1024 -> ld32 (k_mem s2) (p + 4 * i) = 0) by (intros i Hi; apply ld32_zero; intros x Hx; apply Hz; pglia).
  assert (Hmap : forall va, mapping (k_mem s2) p va = None) by (intros va; unfold mapping; rewrite Hpde by apply PDX_range; done).
  assert (Hk2 : kmem_ok end_ s2 l).
  { apply kmem_ok_mem; [done|]. intros v x Hv Hx. symmetry. apply (page_only_keeps end_ p v s s2); try done; [|by intros ->].
    by eapply free_list_ok; [apply Hk1|]. }
  do 3 (split; [done|]). split; [|done]. split; [|by apply Hpo|by exists [p]|split; [left|done]|done| |by rewrite map_size_empty|done].
  - apply (aspace_empty end_); [|done]. split; [done|by apply Hpo|done| |done|].
    + intros v Hv. split; [by intros ->|done].
    + intros i Hi. rewrite lookup_empty. by rewrite Hpde.
  - intros v x Hv Hl Hx. apply (page_only_keeps end_ p v); try done. intros ->. apply Hl. left.
Qed.

(** One row of [kmap]. *)
Lemma kmap_row s l d s1 l1 t1 hi virt size pa perm :
  fresh_dir s l d s1 l1 t1 -> (forall va, hi <= va < 2 ^ 32 -> mapping (k_mem s1) d va = None) ->
  KERNBASE <= virt -> hi <= virt -> virt mod 4096 = 0 -> 0 < size -> size mod 4096 = 0 -> virt + size <= 2 ^ 32 ->
  0 <= pa -> pa mod 4096 = 0 -> pa + size <= 2 ^ 32 -> 0 <= perm < 4096 -> virt + size <= KERNBASE + PHYSTOP \/ DEVSPACE <= virt ->
  (exists s2 l2 t2, mappages d virt size pa perm s1 = Ret 0 s2 /\ fresh_dir s l d s2 l2 t2 /\
     forall va, virt + size <= va < 2 ^ 32 -> mapping (k_mem s2) d va = None) \/
  (exists s2, mappages d virt size pa perm s1 = Ret (-1) s2 /\ lost s l s2).
Proof.
  intros HF Hhi Hv1 Hv2 Hvm Hs0 Hsm Hend Hpa Hpm Hpe Hpr Hrow.
  assert (E : S (Z.to_nat ((virt + size - 1) / 4096 - virt / 4096)) = Z.to_nat (size / 4096) /\ virt / 4096 * 4096 = virt).
  { pose proof (Z.div_mod virt 4096 ltac:(lia)). pose proof (Z.div_mod size 4096 ltac:(lia)). split; [|lia].
    replace ((virt + size - 1) / 4096) with (virt / 4096 + size / 4096 - 1); [|apply (Z.div_unique_pos _ _ _ 4095); lia]. lia. }
  destruct E as [En Ea]. assert (En' : 4096 * Z.of_nat (Z.to_nat (size / 4096)) = size).
  { pose proof (Z.div_mod size 4096 ltac:(lia)). pose proof (Z.div_pos size 4096 ltac:(lia) ltac:(lia)). lia. }
  assert (Hk : forall va, virt <= va < virt + size -> kernel_pde (PDX va)).
  { intros va Hva. rewrite PDX_div by lia. unfold kernel_pde. unfold KERNBASE, PHYSTOP, DEVSPACE in *. Z.to_euclidean_division_equations; lia. }
  pose proof (mappages_run end_ s1 l1 d t1 virt size pa perm (as_space _ _ _ _ _ (fd_space _ _ _ _ _ _ HF))) as H.
  cbn zeta in H. rewrite En, Ea in H.
  destruct H as [(_ & s2 & l2 & t2 & R & [M1 M2 M3 M4 M5])|[(s2 & t2 & R & [M1 M2 M3 M4 M5])|(Hu & _)]]; try (unfold KERNBASE in *; lia).
  - left. exists s2, l2, t2. split; [done|]. split.
    + apply (fresh_dir_grown s l d s1 l1 t1); try done. intros va Hva. rewrite M3 by pglia. rewrite decide_False by (unfold in_pages; lia).
      by apply (fd_user _ _ _ _ _ _ HF).
      intros i t [?|(va & Hva & <-)]%M5; [by eapply (fd_dom _ _ _ _ _ _ HF)|]. apply Hk. unfold in_pages in Hva. lia.
    + intros va Hva. rewrite M3 by pglia. rewrite decide_False by (unfold in_pages; lia). apply Hhi. lia.
  - right. exists s2. split; [done|]. split; [by destruct M1|by destruct M1|etrans; [by apply HF|by apply M2]| |].
    + intros v x. by apply (fresh_dir_page s l d s1 l1 t1 s2 [] t2).
    + pose proof (fd_count _ _ _ _ _ _ HF). pose proof (size_kernel_tabs t2) as Hz. enough (forall i t, t2 !! i = Some t -> kernel_pde i) by (specialize (Hz ltac:(done)); lia).
      intros i t [?|(va & Hva & <-)]%M5; [by eapply (fd_dom _ _ _ _ _ _ HF)|]. apply Hk. unfold in_pages in Hva. lia.
  - exfalso. apply Hu. intros va Hva. unfold in_pages in Hva. rewrite En' in Hva. apply Hhi. lia.
Qed.

(** [data] is page-aligned, after the text and below the end of memory. *)
Definition data_ok : Prop := KERNLINK < data_ < KERNBASE + PHYSTOP /\ data_ mod 4096 = 0.

Lemma setupkvm_run s l : data_ok -> kmem_ok end_ s l -> mem_ok (k_mem s) ->
  (exists d s' l' td, setupkvm data_ s = Ret d s' /\ d <> 0 /\ fresh_dir s l d s' l' td) \/
  (exists s', setupkvm data_ s = Ret 0 s' /\ lost s l s').
Proof.
  intros [Hd Hdm] Hk Hm. unfold setupkvm. destruct l as [|p l].
  { right. exists s. kstep (kalloc_none end_ s Hk). split; [done|]. split; try done. cbn. lia. }
  destruct (new_dir s p l Hk Hm) as (s1 & s2 & R1 & Hnz & R2 & HF & Hn). kstep R1. rewrite (proj2 (Z.eqb_neq _ _)) by done. kstep R2.
  change (DEVSPACE <? p2v PHYSTOP) with false. cbv iota. unfold kmap.
  assert (Hv : v2p data_ = data_ - KERNBASE) by (unfold v2p, KERNLINK, EXTMEM in *; apply u32_small; pglia).
  assert (Hvm : v2p data_ mod 4096 = 0) by (rewrite Hv; unfold KERNBASE; rewrite Zminus_mod, Hdm; done).
  change (v2p KERNLINK) with EXTMEM. unfold KERNLINK, EXTMEM in *.
  cbn [setupkvm_loop].
  change (u32 (0x100000 - 0)) with 0x100000. change (u32 (0 - DEVSPACE)) with 0x2000000.
  destruct (kmap_row s (p :: l) p s2 l ∅ 0 KERNBASE 0x100000 0 PTE_W HF) as [(s3 & l3 & t3 & R3 & HF3 & Hn3)|(s3 & R3 & ?)];
    try (unfold PTE_W; pglia); try done; [|right; exists s3; by kstep R3].
  kstep R3. change (0 <? 0) with false. cbv iota.
  destruct (kmap_row s (p :: l) p s3 l3 t3 (KERNBASE + 0x100000) (KERNBASE + 0x100000) (u32 (v2p data_ - 0x100000)) 0x100000 0 HF3)
    as [(s4 & l4 & t4 & R4 & HF4 & Hn4)|(s4 & R4 & ?)];
    rewrite ?u32_small by (rewrite Hv; pglia); try (rewrite Hv; pglia); try done; try lia.
  { rewrite Zminus_mod, Hvm. done. }
  2:{ right. exists s4. rewrite u32_small in R4 by (rewrite Hv; pglia). by kstep R4. }
  rewrite u32_small in R4, Hn4 by (rewrite Hv; pglia). kstep R4. change (0 <? 0) with false. cbv iota.
  destruct (kmap_row s (p :: l) p s4 l4 t4 data_ data_ (u32 (PHYSTOP - v2p data_)) (v2p data_) PTE_W HF4)
    as [(s5 & l5 & t5 & R5 & HF5 & Hn5)|(s5 & R5 & ?)];
    rewrite ?u32_small by (rewrite Hv; pglia); try (rewrite Hv; pglia); try done; try lia.
  { intros va Hva. apply Hn4. rewrite Hv. pglia. }
  { rewrite Zminus_mod, Hvm. done. }
  2:{ right. exists s5. rewrite u32_small in R5 by (rewrite Hv; pglia). by kstep R5. }
  rewrite u32_small in R5, Hn5 by (rewrite Hv; pglia). kstep R5. change (0 <? 0) with false. cbv iota.
  destruct (kmap_row s (p :: l) p s5 l5 t5 (KERNBASE + PHYSTOP) DEVSPACE 0x2000000 DEVSPACE PTE_W HF5)
    as [(s6 & l6 & t6 & R6 & HF6 & Hn6)|(s6 & R6 & ?)]; try (unfold PTE_W, DEVSPACE; pglia); try done; [| |right; exists s6; by kstep R6].
  { intros va Hva. apply Hn5. rewrite Hv. lia. }
  left. exists p, s6, l6, t6. kstep R6. done.
Qed.

(** ** copyuvm *)

Lemma copy_page_only s p src : mem_ok (k_mem s) -> page_ok end_ p -> page_ok end_ src ->
  let m' := Kernel.memmove (k_mem s) p src PGSIZE in
  page_only p s (set_k_mem m' (set_k_freelist (ld32 (k_mem s) p) s)) /\
  forall o, 0 <= o < PGSIZE -> ld8 m' (p + o) = ld8 (k_mem s) (src + o).
Proof.
  intros Hm (_ & _ & Hp) (_ & _ & Hs) m'.
  assert (E : forall b, ld8 m' b = if ((p <=? b) && (b <? p + PGSIZE))%bool then ld8 (k_mem s) (src + (b - p)) else ld8 (k_mem s) b).
  { intros b. apply ld8_memmove; [done|pglia..]. }
  split; [split; [by destruct s|]; ksimp; split|].
  - intros b. rewrite E. by case_match.
  - intros b Hb. rewrite E. destruct (p <=? b) eqn:E1, (b <? p + PGSIZE) eqn:E2; try done; brefl; lia.
  - intros o Ho. rewrite E. rewrite (proj2 (Z.leb_le _ _)), (proj2 (Z.ltb_lt _ _)) by lia. cbn. f_equal. lia.
Qed.

(** The loop of [copyuvm] after the pages below [i]: [s0] and [l0] are the
    state and the free list at the start. *)
Record copying (s0 : kstate) (l0 : list Z) (pgdir : Z) (tabs : gmap Z Z) (d i : Z) (s : kstate) (l : list Z) (td : gmap Z Z) : Prop := {
  ci_parent : aspace end_ s l pgdir tabs;
  ci_same : forall va, mapping (k_mem s) pgdir va = mapping (k_mem s0) pgdir va;
  ci_bytes : forall va, 0 <= va < KERNBASE -> ubyte (k_mem s) pgdir va = ubyte (k_mem s0) pgdir va;
  ci_child : aspace end_ s l d td;
  ci_in : forall v, part_of s d td v -> v ∈ l0;
  ci_list : exists u, l0 = u ++ l;
  ci_frame : vframe s0 s;
  ci_copied : forall va, 0 <= va < i -> ubyte (k_mem s) d va = ubyte (k_mem s0) pgdir va /\
    exists e e', mapping (k_mem s0) pgdir va = Some e /\ mapping (k_mem s) d va = Some e' /\ PTE_FLAGS e' = PTE_FLAGS e;
  ci_rest : forall va, i <= va < KERNBASE -> mapping (k_mem s) d va = None;
  ci_page : forall v x, page_ok end_ v -> v ∉ l0 -> v <= x < v + PGSIZE -> ld8 (k_mem s) x = ld8 (k_mem s0) x
}.

(** The parent has none of the child's pages. *)
Lemma parts_apart s0 l0 pgdir tabs d i s l td v : aspace end_ s0 l0 pgdir tabs -> copying s0 l0 pgdir tabs d i s l td ->
  part_of s pgdir tabs v -> page_ok end_ v /\ (v ∉ l0) /\ v <> d /\ forall i, td !! i <> Some v.
Proof.
  intros Ha HC Hv. assert (Hv0 : part_of s0 pgdir tabs v).
  { destruct Hv as [?|[?|(va & e & Hva & E & ?)]]; [by left|by right; left|right; right]. exists va, e. by rewrite <- (ci_same _ _ _ _ _ _ _ _ _ HC). }
  destruct (part_of_page s0 l0 pgdir tabs v Ha Hv0) as [Hp Hn]. do 2 (split; [done|]). split.
  - intros ->. apply Hn, (ci_in _ _ _ _ _ _ _ _ _ HC). by left.
  - intros j E. apply Hn, (ci_in _ _ _ _ _ _ _ _ _ HC). right; left. by exists j.
Qed.

Lemma copying_start s0 l0 pgdir tabs d s l td : aspace end_ s0 l0 pgdir tabs -> fresh_dir s0 l0 d s l td ->
  copying s0 l0 pgdir tabs d 0 s l td.
Proof.
  intros Ha [F1 F2 [u F3] [F4 F4'] F5 F6 F7]. pose proof (as_space _ _ _ _ _ F1) as Hs.
  destruct (aspace_ext s0 l0 pgdir tabs s l Ha) as (A1 & A2 & A3); [apply Hs|apply Hs| | |].
  { intros v Hv. left. rewrite F3. apply elem_of_app. by right. }
  { intros v x Hv Hx. destruct (part_of_page s0 l0 pgdir tabs v Ha Hv). by apply (F6 v x). }
  split; try done; [|by exists u|lia]. intros v [->|[(i & E)|(va & e & Hva & E & _)]]; [done|by eapply F4'|]. by rewrite F5 in E.
Qed.

Lemma flags_present e : flag e PTE_P = true -> Z.lor (PTE_FLAGS e) PTE_P = PTE_FLAGS e.
Proof using.
  change PTE_P with (2 ^ 0). rewrite flag_bit by lia. intros Hb. apply Z.bits_inj'. intros k Hk. rewrite Z.lor_spec.
  destruct (decide (k = 0)) as [->|]; [|rewrite Z.pow2_bits_false by lia; apply orb_false_r].
  unfold PTE_FLAGS. rewrite Z.land_spec, Hb. done.
Qed.

(** A page is taken for the child and filled. *)
Lemma copying_take s0 l0 pgdir tabs d i s p l td s2 :
  aspace end_ s0 l0 pgdir tabs -> copying s0 l0 pgdir tabs d i s (p :: l) td -> i <= KERNBASE -> page_only p s s2 -> k_freelist s2 = ld32 (k_mem s) p ->
  copying s0 l0 pgdir tabs d i s2 l td /\ own_page end_ l d td p /\ p ∈ l0 /\
  forall va e, 0 <= va < KERNBASE -> mapping (k_mem s2) d va = Some e -> frame e <> p.
Proof.
  intros Ha0 HC Hik Hpo Efl. pose proof HC as [C1 C2 C3 C4 C5 [u C6] C7 C8 C9 C10].
  destruct (take_page end_ s p l d td s2 C4 Hpo Efl) as (D1 & Hown & HG & Dmap & Hfresh).
  assert (Hpl : p ∈ l0) by (rewrite C6; apply elem_of_app; right; left).
  pose proof (as_space _ _ _ _ _ D1) as Hs2.
  destruct (aspace_ext s (p :: l) pgdir tabs s2 l C1) as (P1 & P2 & P3); [apply Hs2|apply Hs2|by left; right| |].
  { intros v x Hv Hx. destruct (parts_apart s0 l0 pgdir tabs d i s (p :: l) td v Ha0 HC Hv) as (Hpv & Hnv & _).
    apply (page_only_keeps end_ p v); [by apply Hown|done|by intros ->|done|done]. }
  split; [|done]. split; [done|by intros va; rewrite P2| | | | | | | |].
  - intros va Hva. by rewrite P3, C3.
  - done.
  - intros v [?|[?|(va & e & Hva & E & ?)]]; apply C5; [by left|by right; left|right; right]. exists va, e. by rewrite <- Dmap.
  - exists (u ++ [p]). by rewrite C6, <- app_assoc.
  - etrans; [done|]. apply Hpo.
  - intros va Hva. rewrite Dmap. rewrite (ubyte_grown end_ s (p :: l) d td s2 l td); [by apply C8|done|done|lia|done].
  - intros va Hva. rewrite Dmap. by apply C9.
  - intros v x Hv Hl Hx. rewrite (page_only_keeps end_ p v s s2); [by apply (C10 v x)|apply Hown|done|by intros ->|done|done].
Qed.

(** The page is mapped for the child. *)
Lemma copying_map s0 l0 pgdir tabs d i s p l td e s' l' td' :
  aspace end_ s0 l0 pgdir tabs -> copying s0 l0 pgdir tabs d i s l td -> 0 <= i -> i mod 4096 = 0 -> i + 4096 <= KERNBASE ->
  mapping (k_mem s0) pgdir i = Some e -> own_page end_ l d td p -> p ∈ l0 ->
  (forall va e, 0 <= va < KERNBASE -> mapping (k_mem s) d va = Some e -> frame e <> p) ->
  (forall o, 0 <= o < PGSIZE -> ld8 (k_mem s) (p + o) = ld8 (k_mem s) (frame e + o)) ->
  mapped_pages end_ d i (v2p p) (PTE_FLAGS e) 1 s l td s' l' td' -> copying s0 l0 pgdir tabs d (i + 4096) s' l' td'.
Proof.
  intros Ha0 HC H0 Him Hk Em0 Hown Hpl Hfresh Hcp HM. pose proof HC as [C1 C2 C3 C4 C5 [u C6] C7 C8 C9 C10].
  assert (Hfl : 0 <= PTE_FLAGS e < 4096).
  { unfold PTE_FLAGS. change 0xFFF with (Z.ones 12). rewrite Z.land_ones by lia. apply Z.mod_pos_bound. done. }
  destruct (aspace_map end_ s l d td i p (PTE_FLAGS e) s' l' td' C4 Hown Hfl ltac:(lia) Him Hfresh HM) as [D1 Dmap].
  pose proof (mg_grown _ _ _ _ _ _ _ _ _ _ _ _ HM) as HG. pose proof (as_space _ _ _ _ _ D1) as Hs'.
  destruct (aspace_other s l pgdir tabs d td s' l' td' C1 HG) as (P1 & P2 & P3); [apply Hs'|apply Hs'| |].
  { intros v Hv. by destruct (parts_apart s0 l0 pgdir tabs d i s l td v Ha0 HC Hv) as (_ & _ & ?). }
  destruct (gr_list _ _ _ _ _ _ _ _ HG) as [u' El]. split; [done|by intros va; rewrite P2| |done| | | | | |].
  - intros va Hva. by rewrite P3, C3.
  - intros v [->|[(j & E)|(va & e' & Hva & E & <-)]]; [apply C5; by left| |].
    + destruct (gr_new _ _ _ _ _ _ _ _ HG j v E) as [?|?]; [apply C5; right; left; by exists j|]. rewrite C6. apply elem_of_app. by right.
    + rewrite Dmap in E by pglia. case_decide; [injection E as <-; by rewrite (frame_mkpte end_) by (done || apply Hown)|].
      apply C5. right; right. by exists va, e'.
  - exists (u ++ u'). by rewrite C6, El, app_assoc.
  - etrans; [done|]. apply HG.
  - intros va Hva. pose proof (page_of i va Him) as Hpo. destruct (decide (va / 4096 = i / 4096)) as [Ei|Ei].
    + assert (Em : mapping (k_mem s') d va = Some (mkpte (v2p p) (PTE_FLAGS e))) by (rewrite Dmap by pglia; by rewrite decide_True).
      assert (E0 : mapping (k_mem s0) pgdir va = Some e).
      { rewrite <- Em0. unfold mapping. by destruct (proj2 (page_indices va i ltac:(pglia) ltac:(pglia)) Ei) as [-> ->]. }
      rewrite Em, E0. destruct (p2v_v2p end_ p (proj1 Hown)) as (_ & Hpm & _). destruct (mkpte_spec (v2p p) (PTE_FLAGS e) Hpm Hfl) as (_ & _ & Ef & _).
      pose proof (page_offset va). split.
      * rewrite <- C3 by pglia. unfold ubyte. rewrite Em, C2, E0. f_equal. rewrite (frame_mkpte end_) by (done || apply Hown).
        rewrite <- Hcp by done. apply (own_page_same end_ d s l td s' l' td' p); [done|done|lia].
      * exists e, (mkpte (v2p p) (PTE_FLAGS e)). do 2 (split; [done|]). rewrite Ef.
        assert (HP : flag e PTE_P = true) by (unfold mapping in E0; repeat (case_match; try done); congruence).
        by apply flags_present.
    + assert (Hlt : va < i) by lia. assert (Em : mapping (k_mem s') d va = mapping (k_mem s) d va) by (rewrite Dmap by pglia; by rewrite decide_False).
      rewrite Em, (ubyte_grown end_ s l d td s' l' td' va C4 HG) by (done || lia). apply C8. lia.
  - intros va Hva. pose proof (page_of i va Him). rewrite Dmap, decide_False by (pglia || lia). apply C9. lia.
  - intros v x Hv Hl Hx. rewrite (gr_page _ _ _ _ _ _ _ _ HG v x); [by apply (C10 v x)|done| | | |done].
    + intros ->. apply Hl, C5. by left.
    + intros j E. apply Hl, C5. right; left. by exists j.
    + intros H. apply Hl. rewrite C6. apply elem_of_app. by right.
Qed.

Lemma copyuvm_loop_run s0 l0 pgdir tabs d sz n : forall s l td i fuel,
  aspace end_ s0 l0 pgdir tabs -> copying s0 l0 pgdir tabs d i s l td -> 0 <= i -> i mod 4096 = 0 ->
  Z.of_nat (length l0) = 1 + Z.of_nat (size td + length l) + i / 4096 ->
  sz <= i + 4096 * Z.of_nat n <= KERNBASE -> (n <> 0%nat -> i + 4096 * (Z.of_nat n - 1) < sz) ->
  (forall va, i <= va < i + 4096 * Z.of_nat n -> mapping (k_mem s0) pgdir va <> None) -> (n < fuel)%nat ->
  (exists s' l' td', copyuvm_loop d pgdir sz fuel i s = Ret true s' /\ copying s0 l0 pgdir tabs d (i + 4096 * Z.of_nat n) s' l' td') \/
  (exists s' td' i', copyuvm_loop d pgdir sz fuel i s = Ret false s' /\ copying s0 l0 pgdir tabs d i' s' [] td' /\
     Z.of_nat (length l0) <= 1025 + i / 4096 + Z.of_nat n).
Proof.
  induction n as [|n IH]; intros s l td i fuel Ha0 HC H0 Him Hcnt Hend Hlast Hmap Hf; (destruct fuel as [|fuel]; [lia|]); cbn [copyuvm_loop].
  { left. exists s, l, td. rewrite (proj2 (Z.ltb_ge _ _)) by lia. split; [done|]. by rewrite Z.mul_0_r, Z.add_0_r. }
  rewrite (proj2 (Z.ltb_lt _ _)) by lia. destruct (mapping (k_mem s0) pgdir i) as [e|] eqn:Em0; [|exfalso; apply (Hmap i); [lia|done]].
  pose proof HC as [C1 C2 C3 C4 C5 C6 C7 C8 C9 C10]. pose proof (as_space _ _ _ _ _ C1) as HsP. pose proof Em0 as Em. rewrite <- C2 in Em.
  destruct (walk_mapped end_ s l pgdir tabs i e HsP Em) as (pte & Rw & Hne & He & Hfl & _). kstep (Rw false).
  rewrite (proj2 (Z.eqb_neq _ _)) by done. unfold rd32. kgets. rewrite He, Hfl. cbn [negb].
  pose proof (as_space _ _ _ _ _ C4) as HsC. pose proof (sp_mem _ _ _ _ _ HsC) as Hmem. destruct l as [|p l].
  { right. exists s, td, i. kstep (kalloc_none end_ s (sp_kmem _ _ _ _ _ HsC)). split; [done|]. split; [done|]. pose proof (size_tabs _ _ _ _ HsC). cbn [length] in Hcnt. lia. }
  destruct (kalloc_page end_ s p l (sp_kmem _ _ _ _ _ HsC) Hmem) as (R1 & Hnz & Hp & Hnin & _). kstep R1.
  rewrite (proj2 (Z.eqb_neq _ _)) by done. destruct (as_own _ _ _ _ _ C1 i e ltac:(lia) Em) as (Hfe & Hfe' & _).
  destruct (copy_page_only s p (frame e) Hmem Hp Hfe) as [Hpo Hcp]. unfold memmove_. kmod. fold (frame e). ksimp.
  set (s2 := set_k_mem (Kernel.memmove (k_mem s) p (frame e) PGSIZE) _) in *.
  destruct (copying_take s0 l0 pgdir tabs d i s p l td s2 Ha0 HC ltac:(lia) Hpo eq_refl) as (HC2 & Hown & Hpl & Hfresh).
  destruct (p2v_v2p end_ p Hp) as (_ & Hpm & Hpr). assert (Hpe : v2p p + 4096 <= 2 ^ 32).
  { unfold v2p. destruct Hp as (_ & _ & ?). rewrite u32_small by pglia. pglia. }
  assert (Hfg : 0 <= PTE_FLAGS e < 4096) by (unfold PTE_FLAGS; change 0xFFF with (Z.ones 12); rewrite Z.land_ones by lia; by apply Z.mod_pos_bound).
  destruct (map_one end_ s2 l d td i (v2p p) (PTE_FLAGS e) (as_space _ _ _ _ _ (ci_child _ _ _ _ _ _ _ _ _ HC2)) H0 Him ltac:(pglia)
    ltac:(lia) Hpm Hpe Hfg (ci_rest _ _ _ _ _ _ _ _ _ HC2 i ltac:(lia))) as [(s' & l' & td' & R & HM & _)|[-> R]]; kstep R.
  2:{ right. exists s2, td, i. split; [done|]. split; [done|]. pose proof (size_tabs _ _ _ _ HsC). cbn [length] in Hcnt. lia. }
  change (0 <? 0) with false. cbv iota. rewrite u32_small by pglia. change PGSIZE with 4096.
  assert (HC' : copying s0 l0 pgdir tabs d (i + 4096) s' l' td').
  { apply (copying_map s0 l0 pgdir tabs d i s2 p l td e); try done; [lia|]. intros o Ho. unfold s2 at 1. ksimp. rewrite Hcp by done.
    symmetry. apply (page_only_keeps end_ p (frame e) s s2); try done; [intros E; apply Hfe'; rewrite E; left|lia]. }
  assert (Hi1 : (i + 4096) / 4096 = i / 4096 + 1) by (replace (i + 4096) with (i + 1 * 4096) by lia; apply Z.div_add; lia).
  pose proof (mg_count _ _ _ _ _ _ _ _ _ _ _ _ HM) as Hc2. cbn [length] in Hcnt.
  destruct (IH s' l' td' (i + 4096) fuel Ha0 HC') as [(s3 & l3 & t3 & R3 & HC3)|(s3 & t3 & i3 & R3 & HC3 & Hc3)]; try lia;
    [by rewrite Z.add_mod, Him| | |right; exists s3, t3, i3; split; [done|]; split; [done|lia]].
  - intros va Hva. apply Hmap. lia.
  - left. exists s3, l3, t3. split; [done|]. by replace (i + 4096 * Z.of_nat (S n)) with (i + 4096 + 4096 * Z.of_nat n) by lia.
Qed.

(** [copyuvm] has failed: the parent and all pages that were not free are as
    they were. *)
Record not_copied (s : kstate) (l : list Z) (pgdir : Z) (tabs : gmap Z Z) (s' : kstate) (l' : list Z) : Prop := {
  nc_parent : aspace end_ s' l' pgdir tabs;
  nc_same : forall va, mapping (k_mem s') pgdir va = mapping (k_mem s) pgdir va;
  nc_bytes : forall va, 0 <= va < KERNBASE -> ubyte (k_mem s') pgdir va = ubyte (k_mem s) pgdir va;
  nc_list : forall v, v ∈ l' -> v ∈ l;
  nc_frame : vframe s s';
  nc_page : forall v x, page_ok end_ v -> v ∉ l -> v <= x < v + PGSIZE -> ld8 (k_mem s') x = ld8 (k_mem s) x
}.
Lemma not_copied_page s l pgdir tabs s' l' : aspace end_ s l pgdir tabs -> kmem_ok end_ s' l' -> mem_ok (k_mem s') -> vframe s s' -> (forall v, v ∈ l' -> v ∈ l) ->
  (forall v x, page_ok end_ v -> v ∉ l -> v <= x < v + PGSIZE -> ld8 (k_mem s') x = ld8 (k_mem s) x) -> not_copied s l pgdir tabs s' l'.
Proof.
  intros Ha Hk Hm Hf Hl Hp. destruct (aspace_ext s l pgdir tabs s' l' Ha Hk Hm) as (A1 & A2 & A3); [auto| |by split].
  intros v x Hv Hx. destruct (part_of_page s l pgdir tabs v Ha Hv). by apply (Hp v x).
Qed.
Lemma not_copied_lost s l pgdir tabs s' : aspace end_ s l pgdir tabs -> lost s l s' -> not_copied s l pgdir tabs s' [].
Proof. intros Ha [L1 L2 L3 L4]. apply not_copied_page; try done. by intros v ?%elem_of_nil. Qed.

(** The kernel is loaded above [KERNBASE]. *)
Context (Hend : KERNBASE < end_).
Lemma not_copied_freed s l pgdir tabs d i s1 td : aspace end_ s l pgdir tabs -> copying s l pgdir tabs d i s1 [] td ->
  exists s' l', freevm end_ d s1 = Ret tt s' /\ not_copied s l pgdir tabs s' l'.
Proof.
  intros Ha HC. pose proof HC as [C1 C2 C3 C4 C5 C6 C7 C8 C9 C10].
  destruct (freevm_run end_ Hend s1 [] d td C4) as (s' & l' & R & Hk & Hm & Hf & Hl & Hp). exists s', l'. split; [done|].
  assert (Hin : forall v, v ∈ l' -> v ∈ l) by (intros v [?%elem_of_nil|Hv]%Hl; [done|by apply C5]).
  apply not_copied_page; try done; [by etrans|]. intros v x Hv Hnl Hx. rewrite (Hp v x); [by apply (C10 v x)|done| |done]. intros H. by apply Hnl, Hin.
Qed.

Lemma copyuvm_run s l pgdir tabs sz :
  let top := (sz + 4095) / 4096 * 4096 in
  data_ok -> aspace end_ s l pgdir tabs -> 0 <= sz <= KERNBASE -> (forall va, 0 <= va < sz -> mapping (k_mem s) pgdir va <> None) ->
  (exists d s' l' td, copyuvm end_ data_ pgdir sz s = Ret d s' /\ d <> 0 /\ copying s l pgdir tabs d top s' l' td) \/
  (exists s' l', copyuvm end_ data_ pgdir sz s = Ret 0 s' /\ not_copied s l pgdir tabs s' l' /\ Z.of_nat (length l) <= 1025 + (sz + 4095) / 4096).
Proof.
  intros top Hdata Ha Hsz Hmap. unfold copyuvm. pose proof (as_space _ _ _ _ _ Ha) as Hs.
  destruct (setupkvm_run s l Hdata (sp_kmem _ _ _ _ _ Hs) (sp_mem _ _ _ _ _ Hs)) as [(d & s1 & l1 & td & R & Hnz & HF)|(s1 & R & HL)]; kstep R.
  2:{ right. exists s1, []. split; [done|]. split; [by apply not_copied_lost|]. pose proof (lo_few _ _ _ HL). pose proof (Z.div_pos (sz + 4095) 4096 ltac:(lia) ltac:(lia)). lia. }
  rewrite (proj2 (Z.eqb_neq _ _)) by done.
  pose proof (Z.div_mod (sz + 4095) 4096 ltac:(lia)). pose proof (Z.mod_pos_bound (sz + 4095) 4096 ltac:(lia)).
  pose proof (Z.div_pos (sz + 4095) 4096 ltac:(lia) ltac:(lia)).
  assert (Hb : top <= KERNBASE).
  { assert ((sz + 4095) / 4096 < 524289); [|unfold top; pglia]. apply Z.div_lt_upper_bound; pglia. }
  set (n := Z.to_nat ((sz + 4095) / 4096)). assert (En : 0 + 4096 * Z.of_nat n = top) by (unfold n, top; lia).
  destruct (copyuvm_loop_run s l pgdir tabs d sz n s1 l1 td 0 (Z.to_nat (sz / PGSIZE + 2)) Ha (copying_start _ _ _ _ _ _ _ _ Ha HF))
    as [(s' & l' & td' & R' & HC)|(s' & td' & i' & R' & HC & Hc)]; rewrite ?En in *; try done; try lia.
  - rewrite (fd_count _ _ _ _ _ _ HF). change (0 / 4096) with 0. lia.
  - intros va Hva. destruct (Z.lt_ge_cases va sz); [by apply Hmap; lia|].
    assert (Hl : 0 <= top - 4096 < sz) by lia. specialize (Hmap (top - 4096) ltac:(lia)).
    assert (E : mapping (k_mem s) pgdir va = mapping (k_mem s) pgdir (top - 4096)); [|by rewrite E]. unfold mapping.
    destruct (proj2 (page_indices va (top - 4096) ltac:(pglia) ltac:(pglia))) as [-> ->]; [|done]. apply page_of; [|lia].
    unfold top. rewrite Zminus_mod, Z.mod_mul by lia. done.
  - pose proof (Z.div_mod sz PGSIZE ltac:(pglia)). pose proof (Z.mod_pos_bound sz PGSIZE ltac:(pglia)).
    pose proof (Z.div_pos sz PGSIZE ltac:(lia) ltac:(pglia)). unfold PGSIZE in *. lia.
  - left. exists d, s', l', td'. kstep R'. done.
  - right. kstep R'. destruct (not_copied_freed s l pgdir tabs d i' s' td' Ha HC) as (s2 & l2 & R2 & H2). exists s2, l2. kstep R2. split; [done|]. split; [done|].
    change (0 / 4096) with 0 in Hc. unfold n in Hc. lia.
Qed.

End addrspace.

(** C24: [copyuvm] gives the child a copy of the parent's memory: every address
    below the (rounded) size reads the same byte with the same permissions,
    nothing else is mapped for the user, the parent's own memory is unchanged,
    and the two address spaces have no page in common, so neither can see what
    the other writes.  It returns 0 only when there are fewer than 1026 free pages
    besides those for the copy, and then the parent's memory and every page that
    was not free are as they were. *)
Theorem copyuvm_copies end_ data_ s l pgdir tabs sz :
  let top := PGROUNDUP sz in
  KERNBASE < end_ -> data_ok data_ -> aspace end_ s l pgdir tabs -> 0 <= sz <= KERNBASE -> (forall va, 0 <= va < sz -> mapping (k_mem s) pgdir va <> None) ->
  (exists d s' l' td, copyuvm end_ data_ pgdir sz s = Ret d s' /\ d <> 0 /\
     aspace end_ s' l' d td /\ aspace end_ s' l' pgdir tabs /\
     (forall va, 0 <= va < top -> ubyte (k_mem s') d va = ubyte (k_mem s) pgdir va /\
        exists e e', mapping (k_mem s) pgdir va = Some e /\ mapping (k_mem s') d va = Some e' /\ PTE_FLAGS e' = PTE_FLAGS e) /\
     (forall va, top <= va < KERNBASE -> mapping (k_mem s') d va = None) /\
     (forall va, 0 <= va < KERNBASE -> ubyte (k_mem s') pgdir va = ubyte (k_mem s) pgdir va) /\
     (forall v, part_of s' d td v -> ~ part_of s' pgdir tabs v)) \/
  (exists s' l', copyuvm end_ data_ pgdir sz s = Ret 0 s' /\ not_copied end_ s l pgdir tabs s' l' /\ Z.of_nat (length l) <= 1025 + (sz + 4095) / 4096).
Proof.
  intros top He Hdata Ha Hsz Hmap. unfold top. rewrite PGROUNDUP_div.
  destruct (copyuvm_run end_ data_ He s l pgdir tabs sz Hdata Ha Hsz Hmap) as [(d & s' & l' & td & R & Hnz & HC)|?]; [left|by right].
  exists d, s', l', td. pose proof HC as [C1 C2 C3 C4 C5 C6 C7 C8 C9 C10]. do 7 (split; [done|]).
  intros v Hv Hv'. destruct (parts_apart end_ s l pgdir tabs d _ s' l' td v Ha HC Hv') as (_ & Hn & _). by apply Hn, C5.
Qed.

(** A machine with [n] free pages. *)
Lemma vm_pages n : (n <= 2000)%nat -> exists s l, aspace kend s l vdir ∅ /\ (forall va, mapping (k_mem s) vdir va = None) /\ length l = n /\
  forall v, v ∈ l -> 0x80200000 <= v < 0x80200000 + 4096 * Z.of_nat n.
Proof.
  induction n as [|n IH]; intros Hn.
  - assert (Hz : forall a, ld32 (k_mem km0) a = 0) by (intros a; apply ld32_zero; intros i _; unfold ld8; cbn [km0 kzero k_mem]; by rewrite lookup_empty).
    exists km0, []. assert (M : forall va, mapping (k_mem km0) vdir va = None) by (intros va; unfold mapping; by rewrite Hz).
    split; [|split; [done|split; [done|intros v H; by apply elem_of_nil in H]]]. apply aspace_empty; [|done].
    split; [apply km0_ok|apply mem_ok_empty|apply (kend_page 11); lia| |done|]; [intros v H; by apply elem_of_nil in H|]. intros i Hi. rewrite lookup_empty, Hz. done.
  - destruct IH as (s & l & Ha & M & Hl & Hin); [lia|]. pose proof (as_space _ _ _ _ _ Ha) as Hs. set (v := 0x80200000 + Z.of_nat n * 4096).
    assert (Hv : page_ok kend v). { unfold v. split; [by unfold PGSIZE; rewrite Z.mod_add|]. unfold kend, KERNBASE, PHYSTOP. lia. }
    destruct (kfree_page kend s l v (sp_kmem _ _ _ _ _ Hs) (sp_mem _ _ _ _ _ Hs) Hv) as (s' & _ & K & O); [intros H%Hin; unfold v in H; lia|].
    destruct (page_only_space kend v s s' l (v :: l) vdir ∅ Hs O Hv) as [S' M'];
      [unfold v, vdir; lia|intros i; by rewrite lookup_empty|done|intros w [->|?]%elem_of_cons; auto|].
    exists s', (v :: l). assert (M2 : forall va, mapping (k_mem s') vdir va = None) by (intros va; by rewrite M').
    split; [by apply aspace_empty|]. split; [done|]. split; [cbn; by rewrite Hl|]. intros w [->|Hw%Hin]%elem_of_cons; [unfold v|]; lia.
Qed.

(** The small machine of Paging.v with one page of user memory. *)
Lemma copyuvm_copies_witness : exists s r, copyuvm kend 0x80103000 vdir 4096 s = r /\ ubyte (k_mem s) vdir 17 = Some 0 /\
  match r with
  | Ret d s' => d <> 0 -> ubyte (k_mem s') d 17 = Some 0
  | Stop _ _ => False
  end.
Proof.
  destruct vm_state as (s0 & Ha0 & Hm). assert (Hp : pages_between 0 4096 = 1%nat) by reflexivity.
  destruct (allocuvm_run kend s0 vpages vdir ∅ 0 4096 Ha0) as (s & l & tabs & _ & [Ha _ Hn _] & _);
    [lia|unfold KERNBASE; lia|intros va _; apply Hm|rewrite Hp; vm_compute; lia|].
  change ((0 + 4095) / 4096 * 4096) with 0 in Hn. rewrite Hp in Hn. unfold in_pages in Hn.
  destruct (copyuvm_copies kend 0x80103000 s l vdir tabs 4096) as [(d & s' & l' & td & R & Hd & _ & _ & Hc & _)|(s1 & l1 & R & _)].
  - done.
  - split; [unfold KERNLINK, EXTMEM, KERNBASE, PHYSTOP; lia|done].
  - done.
  - unfold KERNBASE. lia.
  - intros va Hva. destruct (Hn va ltac:(lia)) as (_ & e & -> & _). done.
  - exists s, (Ret d s'). split; [done|]. split; [apply Hn; lia|]. intros _. rewrite (proj1 (Hc 17 ltac:(rewrite PGROUNDUP_div; change ((4096 + 4095) / 4096 * 4096) with 4096; lia))).
    apply Hn. lia.
  - exists s, (Ret 0 s1). split; [done|]. split; [apply Hn; lia|]. intros H. done.
Defined.
