(* ===== verification/Image.v ===== *)
(** * Program images: what exec builds (src/xv6/exec.c, copyout and clearpteu of vm.c)

    [copyout] writes bytes of a process through its page table; [exec_stack]
    uses it to lay out the arguments of [main].  The theorems give the bytes
    that the new program finds at the user addresses. *)

From stdpp Require Import base list list_numbers numbers gmap strings.
From Stdlib Require Import ZArith Lia.
From S2P Require Import Prelude Mem CString KState Sched Kalloc Printf Fileio Vm Exec Paging Addrspace.

Section image.
Context (end_ : Z).

(** ** Writing user memory *)

(** The bytes [bs] are stored from the user address [va] on; nothing else in
    memory has changed. *)
Record written (l : list Z) (pgdir : Z) (tabs : gmap Z Z) (s : kstate) (va : Z) (bs : list Z) (s' : kstate) : Prop := {
  wr_frame : s' = set_k_mem (k_mem s') s;
  wr_space : aspace end_ s' l pgdir tabs;
  wr_map : forall va', mapping (k_mem s') pgdir va' = mapping (k_mem s) pgdir va';
  wr_in : forall i b, bs !! i = Some b -> ubyte (k_mem s') pgdir (va + Z.of_nat i) = Some b;
  wr_out : forall va', 0 <= va' < KERNBASE -> (va' < va \/ va + Z.of_nat (length bs) <= va') -> ubyte (k_mem s') pgdir va' = ubyte (k_mem s) pgdir va';
  wr_page : forall v x, page_ok end_ v -> (forall va' e, 0 <= va' < KERNBASE -> mapping (k_mem s) pgdir va' = Some e -> frame e <> v) ->
    v <= x < v + PGSIZE -> ld8 (k_mem s') x = ld8 (k_mem s) x
}.

(** Every address of the range is mapped and open to the user. *)
Definition user_range (m : mem) (pgdir va n : Z) : Prop :=
  0 <= va /\ va + n <= KERNBASE /\ forall va', va <= va' < va + n -> exists e, mapping m pgdir va' = Some e /\ flag e PTE_U = true.

Lemma written_nil l pgdir tabs s va : aspace end_ s l pgdir tabs -> written l pgdir tabs s va [] s.
Proof. intros Ha. split; [by destruct s|done|done|done|done|done]. Qed.

Lemma written_app l pgdir tabs s va bs1 bs2 s1 s2 : 0 <= va -> va + Z.of_nat (length bs1) + Z.of_nat (length bs2) <= KERNBASE ->
  written l pgdir tabs s va bs1 s1 -> written l pgdir tabs s1 (va + Z.of_nat (length bs1)) bs2 s2 -> written l pgdir tabs s va (bs1 ++ bs2) s2.
Proof.
  intros Hva Hk [A1 A2 A3 A4 A5 A6] [B1 B2 B3 B4 B5 B6]. split; [rewrite B1 at 1; by rewrite A1 at 1|done|intros va'; by rewrite B3| | |].
  - intros i b Hi. apply lookup_app_Some in Hi as [Hi|[Hl Hi]].
    + pose proof (lookup_lt_Some _ _ _ Hi). rewrite B5 by lia. by apply A4.
    + rewrite <- (B4 _ _ Hi). f_equal. lia.
  - intros va' Hv Ho. rewrite length_app in Ho. rewrite B5, A5 by lia. done.
  - intros v x Hv Hn Hx. rewrite (B6 v x), (A6 v x); try done. intros va' e. rewrite A3. apply Hn.
Qed.

Lemma same_page va va' : va <= va' -> va mod 4096 + (va' - va) < 4096 -> va' / 4096 = va / 4096 /\ va' mod 4096 = va mod 4096 + (va' - va).
Proof. intros. Z.to_euclidean_division_equations. lia. Qed.

(** Within one page. *)
Lemma write_page l pgdir tabs s va e bs : aspace end_ s l pgdir tabs -> 0 <= va < KERNBASE -> mapping (k_mem s) pgdir va = Some e -> bytes bs ->
  va mod 4096 + Z.of_nat (length bs) <= 4096 ->
  written l pgdir tabs s va bs (set_k_mem (st (k_mem s) (frame e + va mod 4096) bs) s).
Proof.
  intros Ha Hva E Hb Hl. pose proof Ha as [Hs Ho Hi]. destruct (Ho va e Hva E) as (Hp & Hnl & Hnd & Hnt). set (s' := set_k_mem _ s).
  pose proof (page_offset va) as Hoff. assert (Hout : forall x, x < frame e \/ frame e + PGSIZE <= x -> ld8 (k_mem s') x = ld8 (k_mem s) x).
  { intros x Hx. unfold s'. ksimp. apply ld8_st_ne. pglia. }
  assert (Hpo : page_only (frame e) s s') by (split; [by destruct s|]; split; [apply mem_ok_st, Hs|done]).
  assert (Hk : kmem_ok end_ s' l).
  { apply kmem_ok_mem; [apply Hs|]. intros v a Hv Hx. symmetry. apply (page_only_keeps end_ (frame e) v s s'); [done| |by intros <-|done|done].
    by eapply free_list_ok; [apply Hs|]. }
  destruct (page_only_space end_ (frame e) s s' l l pgdir tabs Hs Hpo Hp Hnd Hnt Hk) as [Hs' Em]; [auto|].
  assert (Hpg : forall va', va <= va' < va + Z.of_nat (length bs) -> mapping (k_mem s) pgdir va' = Some e /\ va' mod 4096 = va mod 4096 + (va' - va)).
  { intros va' Hv. destruct (same_page va va') as [Hd Hm]; [lia|lia|].
    split; [|done]. rewrite <- E. unfold mapping. assert (PDX va' = PDX va /\ PTX va' = PTX va) as [-> ->]; [|done].
    apply (page_indices va' va); [| |done]; unfold KERNBASE in *; Z.to_euclidean_division_equations; lia. }
  split; [done|split; [done| |]|done| | |].
  - intros va' e'. rewrite Em. apply Ho.
  - intros va' va'' e' e''. rewrite !Em. apply Hi.
  - intros i b Hib. pose proof (lookup_lt_Some _ _ _ Hib). destruct (Hpg (va + Z.of_nat i)) as [E' Hm']; [lia|]. unfold ubyte. rewrite Em, E', Hm'. f_equal.
    replace (frame e + _) with (frame e + va mod 4096 + Z.of_nat i) by lia. unfold s'. ksimp. erewrite ld8_st_eq by done. apply u8_small.
    unfold bytes in Hb. rewrite Forall_lookup in Hb. by apply (Hb i).
  - intros va' Hv' Hout'. unfold ubyte. rewrite Em. destruct (mapping (k_mem s) pgdir va') as [e'|] eqn:E'; [|done]. f_equal.
    pose proof (page_offset va'). destruct (decide (frame e' = frame e)) as [Ef|Hne].
    + pose proof (Hi va' va e' e Hv' Hva E' E Ef) as Hd. unfold s'. ksimp. rewrite Ef. apply ld8_st_ne.
      pose proof (Z.div_mod va 4096 ltac:(lia)). pose proof (Z.div_mod va' 4096 ltac:(lia)). lia.
    + apply (page_only_keeps end_ (frame e) (frame e') s s'); [done|by apply (Ho va')|congruence|done|lia].
  - intros v x Hv Hn Hx. apply (page_only_keeps end_ (frame e) v s s'); try done. by apply (Hn va e).
Qed.

Lemma uva2ka_run l pgdir tabs s va e : aspace end_ s l pgdir tabs -> mapping (k_mem s) pgdir va = Some e -> flag e PTE_U = true ->
  uva2ka pgdir va s = Ret (frame e) s.
Proof.
  intros Ha E Hu. destruct (walk_mapped end_ s l pgdir tabs va e (as_space _ _ _ _ _ Ha) E) as (pte & W & Hnz & Hld & Hp & _).
  unfold uva2ka. kstep (W false). rewrite (proj2 (Z.eqb_neq _ _)) by done. unfold rd32. kgets. rewrite Hld, Hp, Hu. done.
Qed.

Lemma mapping_page m pgdir va va' : 0 <= va < 2 ^ 32 -> 0 <= va' < 2 ^ 32 -> va / 4096 = va' / 4096 -> mapping m pgdir va = mapping m pgdir va'.
Proof. intros H H' Hd. unfold mapping. apply (page_indices va va') in Hd as [-> ->]; done. Qed.

Lemma copyout_loop_run l pgdir tabs fuel : forall s va bs, aspace end_ s l pgdir tabs -> user_range (k_mem s) pgdir va (Z.of_nat (length bs)) -> bytes bs ->
  (va mod 4096 + Z.of_nat (length bs) + 4095) / 4096 < Z.of_nat fuel ->
  exists s', copyout_loop pgdir fuel va bs s = Ret 0 s' /\ written l pgdir tabs s va bs s'.
Proof.
  induction fuel as [|fuel IH]; intros s va bs Ha (Hva & Hk & Hr) Hb Hf; pose proof (page_offset va) as Hoff.
  { pose proof (Z.div_pos (va mod 4096 + Z.of_nat (length bs) + 4095) 4096). lia. }
  cbn [copyout_loop]. destruct (Z.ltb_spec 0 (Z.of_nat (length bs))) as [Hpos|Hz].
  2:{ destruct bs; [|cbn in Hz; lia]. exists s. split; [done|by apply written_nil]. }
  set (len := Z.of_nat (length bs)) in *. rewrite PGROUNDDOWN_spec. pose proof (Z.div_mod va 4096 ltac:(lia)) as Hdm.
  rewrite (u32_small (va / 4096 * 4096)) by pglia. destruct (Hr va) as (e & E & Hu); [lia|].
  assert (E0 : mapping (k_mem s) pgdir (va / 4096 * 4096) = Some e).
  { rewrite <- E. apply mapping_page; [pglia|pglia|]. by rewrite Z.div_mul. }
  kstep (uva2ka_run l pgdir tabs s _ e Ha E0 Hu). destruct (as_own _ _ _ _ _ Ha va e ltac:(lia) E) as (Hp & _).
  rewrite (proj2 (Z.eqb_neq _ _)) by (by eapply page_ok_nz). replace (va - va / 4096 * 4096) with (va mod 4096) by lia.
  set (n := if len <? PGSIZE - va mod 4096 then len else PGSIZE - va mod 4096).
  assert (Hn : 0 < n <= len /\ va mod 4096 + n <= 4096 /\ (n = len \/ n = 4096 - va mod 4096)) by (unfold n; destruct (Z.ltb_spec len (PGSIZE - va mod 4096)); pglia).
  clearbody n. destruct Hn as (Hn1 & Hn2 & Hn3). rewrite (u32_small (frame e + _)) by (destruct Hp as (_ & _ & Hp); pglia).
  set (b1 := take (Z.to_nat n) bs). set (b2 := drop (Z.to_nat n) bs). assert (Hl1 : length b1 = Z.to_nat n) by (unfold b1; rewrite length_take; lia).
  assert (Hl2 : Z.of_nat (length b2) = len - n) by (unfold b2; rewrite length_drop; lia).
  assert (Hb12 : bytes b1 /\ bytes b2) by (split; [by apply Forall_take|by apply Forall_drop]). destruct Hb12 as [Hb1 Hb2].
  pose proof (write_page l pgdir tabs s va e b1 Ha ltac:(lia) E Hb1 ltac:(lia)) as W1. unfold copy_bytes. kmod. set (s1 := set_k_mem _ s) in *.
  rewrite u32_small by pglia.
  destruct (decide (n = len)) as [->|Hne].
  - assert (b2 = []) as -> by (destruct b2; [done|cbn in Hl2; lia]). exists s1. replace bs with b1 by (unfold b1; rewrite take_ge by lia; done).
    split; [|done]. destruct fuel; [|done]. assert (1 <= (va mod 4096 + len + 4095) / 4096) by (apply Z.div_le_lower_bound; lia). lia.
  - assert (En : n = 4096 - va mod 4096) by lia. replace (va / 4096 * 4096 + PGSIZE) with (va + n) by pglia.
    destruct (IH s1 (va + n) b2) as (s' & R & W2); [apply W1| |done| |].
    + rewrite Hl2. split; [lia|]. split; [lia|]. intros va' Hv'. rewrite (wr_map _ _ _ _ _ _ _ W1). apply Hr. lia.
    + rewrite Hl2. assert ((va + n) mod 4096 = 0) as -> by (rewrite En; replace (va + (4096 - va mod 4096)) with ((va / 4096 + 1) * 4096) by lia; apply Z.mod_mul; lia).
      replace (0 + (len - n) + 4095) with (va mod 4096 + len + 4095 + (-1) * 4096) by lia. rewrite Z.div_add by lia. lia.
    + exists s'. split; [exact R|]. rewrite <- (take_drop (Z.to_nat n) bs). fold b1 b2.
      apply (written_app l pgdir tabs s va b1 b2 s1 s'); [lia|lia|done|]. by replace (va + Z.of_nat (length b1)) with (va + n) by lia.
Qed.

Lemma copyout_run l pgdir tabs s va bs : aspace end_ s l pgdir tabs -> user_range (k_mem s) pgdir va (Z.of_nat (length bs)) -> bytes bs ->
  exists s', copyout pgdir va bs s = Ret 0 s' /\ written l pgdir tabs s va bs s'.
Proof.
  intros Ha Hr Hb. apply copyout_loop_run; [done|done|done|]. pose proof (page_offset va). rewrite Z2Nat.id by (unfold PGSIZE; apply Z.add_nonneg_nonneg; [apply Z.div_pos|]; lia).
  apply Z.div_lt_upper_bound; [lia|]. unfold PGSIZE. pose proof (Z.div_mod (Z.of_nat (length bs)) 4096 ltac:(lia)). pose proof (Z.mod_pos_bound (Z.of_nat (length bs)) 4096 ltac:(lia)).
  pglia.
Qed.

(** Only the user addresses from [lo] up to [hi] may have changed. *)
Record touched (l : list Z) (pgdir : Z) (tabs : gmap Z Z) (lo hi : Z) (s s' : kstate) : Prop := {
  to_frame : s' = set_k_mem (k_mem s') s;
  to_space : aspace end_ s' l pgdir tabs;
  to_map : forall va, mapping (k_mem s') pgdir va = mapping (k_mem s) pgdir va;
  to_out : forall va, 0 <= va < KERNBASE -> (va < lo \/ hi <= va) -> ubyte (k_mem s') pgdir va = ubyte (k_mem s) pgdir va;
  to_page : forall v x, page_ok end_ v -> (forall va e, 0 <= va < KERNBASE -> mapping (k_mem s) pgdir va = Some e -> frame e <> v) ->
    v <= x < v + PGSIZE -> ld8 (k_mem s') x = ld8 (k_mem s) x
}.
Lemma touched_refl l pgdir tabs lo hi s : aspace end_ s l pgdir tabs -> touched l pgdir tabs lo hi s s.
Proof. intros Ha. split; [by destruct s|done..]. Qed.
Lemma written_touched l pgdir tabs s va bs s' lo hi : written l pgdir tabs s va bs s' -> lo <= va -> va + Z.of_nat (length bs) <= hi -> touched l pgdir tabs lo hi s s'.
Proof. intros [W1 W2 W3 W4 W5 W6] Hlo Hhi. split; [done|done|done| |done]. intros va' Hv Ho. apply W5; [done|lia]. Qed.
Lemma touched_trans l pgdir tabs lo mid hi s1 s2 s3 : lo <= mid <= hi -> touched l pgdir tabs mid hi s1 s2 -> touched l pgdir tabs lo mid s2 s3 -> touched l pgdir tabs lo hi s1 s3.
Proof.
  intros Hm [A1 A2 A3 A4 A5] [B1 B2 B3 B4 B5]. split; [rewrite B1 at 1; by rewrite A1 at 1|done|intros va; by rewrite B3| |].
  - intros va Hva Ho. rewrite B4, A4 by lia. done.
  - intros v x Hv Hn Hx. rewrite (B5 v x), (A5 v x); try done. intros va e. rewrite A3. apply Hn.
Qed.

(** ** The arguments *)

(** The process has the bytes [bs] at [va]. *)
Definition ubytes (m : mem) (pgdir va : Z) (bs : list Z) : Prop := forall i b, bs !! i = Some b -> ubyte m pgdir (va + Z.of_nat i) = Some b.

Lemma ubytes_touched l pgdir tabs lo hi s s' va bs : touched l pgdir tabs lo hi s s' -> 0 <= va -> va + Z.of_nat (length bs) <= KERNBASE ->
  (hi <= va \/ va + Z.of_nat (length bs) <= lo) -> ubytes (k_mem s) pgdir va bs -> ubytes (k_mem s') pgdir va bs.
Proof.
  intros HT H0 Hk Ho Hu i b Hi. pose proof (lookup_lt_Some _ _ _ Hi). rewrite (to_out _ _ _ _ _ _ _ HT) by lia. by apply Hu.
Qed.

(** The address of an argument pushed below [sp], and of the last of several. *)
Definition arg_at (sp : Z) (arg : list Z) : Z := (sp - (Z.of_nat (length arg) + 1)) / 4 * 4.
Definition pushed (sp : Z) (argv : list (list Z)) : Z := foldl arg_at sp argv.

Lemma land_align a : Z.land a (Z.lnot 3) = a / 4 * 4.
Proof.
  apply Z.bits_inj'. intros n Hn. rewrite Z.land_spec, Z.lnot_spec by lia. change 3 with (Z.ones 2). change 4 with (2 ^ 2).
  rewrite <- Z.shiftl_mul_pow2, <- Z.shiftr_div_pow2 by lia. destruct (Z.ltb_spec n 2).
  - rewrite Z.shiftl_spec_low, Z.ones_spec_low by lia. by rewrite andb_false_r.
  - rewrite Z.shiftl_spec, Z.shiftr_spec, Z.ones_spec_high by lia. rewrite andb_true_r. f_equal. lia.
Qed.

Lemma arg_at_spec sp arg : sp mod 4 = 0 -> arg_at sp arg mod 4 = 0 /\ arg_at sp arg + Z.of_nat (length arg) + 1 <= sp /\ arg_at sp arg < sp.
Proof. intros Hm. unfold arg_at. split; [apply Z.mod_mul; lia|]. pose proof (Z.div_mod (sp - (Z.of_nat (length arg) + 1)) 4 ltac:(lia)). pose proof (Z.mod_pos_bound (sp - (Z.of_nat (length arg) + 1)) 4 ltac:(lia)). lia. Qed.
Lemma pushed_le argv : forall sp, sp mod 4 = 0 -> pushed sp argv mod 4 = 0 /\ pushed sp argv <= sp.
Proof.
  induction argv as [|a argv IH]; intros sp Hm; [cbn; lia|]. cbn. destruct (arg_at_spec sp a Hm) as (H1 & H2 & H3). destruct (IH _ H1). unfold pushed in *. lia.
Qed.

Lemma exec_args_run l pgdir tabs lo argv : forall argc s sp, aspace end_ s l pgdir tabs -> 0 <= lo -> sp < KERNBASE -> sp mod 4 = 0 ->
  user_range (k_mem s) pgdir lo (sp - lo) -> (argc + length argv <= MAXARG)%nat -> Forall bytes argv -> lo <= pushed sp argv ->
  exists s' ptrs, exec_args pgdir argv argc sp s = Ret (Some (pushed sp argv, ptrs)) s' /\ touched l pgdir tabs (pushed sp argv) sp s s' /\
    Forall2 (fun p a => ubytes (k_mem s') pgdir p (a ++ [0]) /\ pushed sp argv <= p /\ p + Z.of_nat (length a) + 1 <= sp) ptrs argv.
Proof.
  induction argv as [|a argv IH]; intros argc s sp Ha Hlo Hk Hm Hr Hc Hb Hp; cbn [exec_args].
  { exists s, []. split; [done|]. split; [by apply touched_refl|constructor]. }
  cbn [length] in Hc. rewrite (proj2 (Nat.leb_gt _ _)) by lia. apply Forall_cons in Hb as [Hba Hb]. change (pushed sp (a :: argv)) with (pushed (arg_at sp a) argv) in *.
  destruct (arg_at_spec sp a Hm) as (Hm' & Hle & Hlt). destruct (pushed_le argv _ Hm') as [_ Hpl].
  rewrite land_align, u32_small by (unfold KERNBASE in *; lia). fold (arg_at sp a). set (sp' := arg_at sp a) in *.
  destruct (copyout_run l pgdir tabs s sp' (a ++ [0]) Ha) as (s1 & R1 & W).
  { destruct Hr as (_ & _ & Hr). rewrite length_app. cbn [length]. split; [lia|]. split; [lia|]. intros va Hva. apply Hr. lia. }
  { apply Forall_app. split; [done|]. repeat constructor; lia. }
  kstep R1. cbn [Z.ltb Z.compare]. assert (T1 : touched l pgdir tabs sp' sp s s1) by (apply (written_touched _ _ _ _ _ _ _ _ _ W); [lia|rewrite length_app; cbn [length]; lia]).
  destruct (IH (S argc) s1 sp') as (s' & ptrs & R & T & HF); [apply T1|done|lia|done| |lia|done|lia|].
  { destruct Hr as (H1 & H2 & H3). split; [done|]. split; [lia|]. intros va Hva. rewrite (to_map _ _ _ _ _ _ _ T1). apply H3. lia. }
  exists s', (sp' :: ptrs). kstep R. split; [done|]. split; [apply (touched_trans l pgdir tabs _ sp' sp s s1 s'); [lia|done|done]|]. constructor.
  - split; [|lia]. apply (ubytes_touched l pgdir tabs (pushed sp' argv) sp' s1 s'); [done|lia|rewrite length_app; cbn [length]; lia|lia|]. exact (wr_in _ _ _ _ _ _ _ W).
  - eapply Forall2_impl; [exact HF|]. intros p b (H1 & H2 & H3). split; [done|lia].
Qed.

(** ** The guard page *)

Definition no_user (e : Z) : Z := Z.land e (Z.lnot PTE_U).
Lemma no_user_spec e : 0 <= e < 2 ^ 32 -> flag (no_user e) PTE_P = flag e PTE_P /\ flag (no_user e) PTE_U = false /\ frame (no_user e) = frame e /\ 0 <= no_user e < 2 ^ 32.
Proof.
  intros He. assert (Hr : no_user e = no_user e mod 2 ^ 32).
  { rewrite <- Z.land_ones by lia. unfold no_user. rewrite <- Z.land_assoc, (Z.land_comm (Z.lnot PTE_U)), Z.land_assoc, Z.land_ones, Z.mod_small by lia. done. }
  unfold flag, frame, PTE_ADDR. split; [|split; [|split]].
  - unfold no_user. by rewrite <- Z.land_assoc.
  - unfold no_user. rewrite <- Z.land_assoc. change (Z.land (Z.lnot PTE_U) PTE_U) with 0. by rewrite Z.land_0_r.
  - unfold no_user. by rewrite <- Z.land_assoc.
  - rewrite Hr. apply Z.mod_pos_bound. lia.
Qed.

(** [clearpteu] closes one page to the user; the kernel still has its bytes. *)
Lemma clearpteu_run l pgdir tabs s va e : aspace end_ s l pgdir tabs -> 0 <= va < KERNBASE -> mapping (k_mem s) pgdir va = Some e ->
  exists s', clearpteu pgdir va s = Ret tt s' /\ aspace end_ s' l pgdir tabs /\ grown end_ pgdir s l tabs s' l tabs /\
    (forall va', 0 <= va' < 2 ^ 32 -> mapping (k_mem s') pgdir va' = if decide (va' / 4096 = va / 4096) then Some (no_user e) else mapping (k_mem s) pgdir va') /\
    forall va', 0 <= va' < KERNBASE -> ubyte (k_mem s') pgdir va' = ubyte (k_mem s) pgdir va'.
Proof.
  intros Ha Hva E. pose proof Ha as [Hs Ho Hi]. destruct (walk_mapped end_ s l pgdir tabs va e Hs E) as (pte & W & Hnz & Hld & Hp & t & Ht & ->).
  pose proof (ld32_range (k_mem s) (t + 4 * PTX va) (sp_mem _ _ _ _ _ Hs)) as Hr. rewrite Hld in Hr. destruct (no_user_spec e Hr) as (N1 & N2 & N3 & N4).
  unfold clearpteu. kstep (W false). rewrite (proj2 (Z.eqb_neq _ _)) by done. unfold rd32. kgets. rewrite Hld. fold (no_user e). unfold wr32.
  set (s' := set_k_mem (st32 (k_mem s) (t + 4 * PTX va) (no_user e)) s). exists s'. split; [done|].
  pose proof (se_space end_ s l pgdir tabs va t (no_user e) Hs Ht) as Hs'. pose proof (se_grown end_ s l pgdir tabs va t (no_user e) Hs Ht) as HG.
  assert (Em : forall va', 0 <= va' < 2 ^ 32 -> mapping (k_mem s') pgdir va' = if decide (va' / 4096 = va / 4096) then Some (no_user e) else mapping (k_mem s) pgdir va').
  { intros va' Hv'. unfold s'. rewrite (se_mapping end_ s l pgdir tabs va t (no_user e) Hs Ht va') by (done || pglia). by rewrite N1, Hp. }
  assert (Ef : forall va', 0 <= va' < KERNBASE -> frame <$> mapping (k_mem s') pgdir va' = frame <$> mapping (k_mem s) pgdir va').
  { intros va' Hv'. rewrite Em by pglia. case_decide as Hd; [|done]. rewrite (mapping_page _ _ va' va), E by (done || pglia). cbn. by rewrite N3. }
  assert (Hmap : forall va' e', 0 <= va' < KERNBASE -> mapping (k_mem s') pgdir va' = Some e' -> exists e0, mapping (k_mem s) pgdir va' = Some e0 /\ frame e0 = frame e').
  { intros va' e' Hv' E'. pose proof (Ef va' Hv') as F. rewrite E' in F. destruct (mapping (k_mem s) pgdir va') as [e0|]; [|done]. injection F as F. by exists e0. }
  split; [split; [done| |]|split; [done|split; [done|]]].
  - intros va' e' Hv' E'. destruct (Hmap va' e' Hv' E') as (e0 & E0 & <-). by apply (Ho va').
  - intros va' va'' e' e'' Hv' Hv'' E' E'' F. destruct (Hmap va' e' Hv' E') as (e0 & E0 & F0). destruct (Hmap va'' e'' Hv'' E'') as (e1 & E1 & F1).
    apply (Hi va' va'' e0 e1); try done. congruence.
  - intros va' Hv'. unfold ubyte. pose proof (Ef va' Hv') as F. destruct (mapping (k_mem s') pgdir va') as [e'|] eqn:E', (mapping (k_mem s) pgdir va') as [e0|] eqn:E0; try done.
    injection F as F. f_equal. rewrite F. destruct (Ho va' e0 Hv' E0) as (P1 & P2 & P3 & P4). pose proof (page_offset va').
    apply (gr_page _ _ _ _ _ _ _ _ HG (frame e0)); try done. lia.
Qed.

(** ** The stack of a new program *)

Lemma ubytes_app m pgdir va a b : ubytes m pgdir va (a ++ b) -> ubytes m pgdir va a /\ ubytes m pgdir (va + Z.of_nat (length a)) b.
Proof.
  intros H. split; intros i x Hi.
  - apply H. by apply lookup_app_l_Some.
  - rewrite <- Z.add_assoc, <- Nat2Z.inj_add. apply H. rewrite lookup_app_r by lia. by replace (length a + i - length a)%nat with i by lia.
Qed.
Lemma ubytes_words m pgdir ws : forall va k w, ubytes m pgdir va (concat (map (le_enc 4) ws)) -> ws !! k = Some w -> ubytes m pgdir (va + 4 * Z.of_nat k) (le_enc 4 w).
Proof.
  induction ws as [|w0 ws IH]; intros va k w H Hk; [done|]. cbn [map concat] in H. apply ubytes_app in H as [H1 H2]. rewrite length_le_enc in H2.
  destruct k as [|k]; [injection Hk as ->; by replace (va + _) with va by lia|]. replace (va + 4 * Z.of_nat (S k)) with (va + Z.of_nat 4 + 4 * Z.of_nat k) by lia. by apply IH.
Qed.
Lemma bytes_words ws : bytes (concat (map (le_enc 4) ws)).
Proof. induction ws as [|w ws IH]; [constructor|]. cbn [map concat]. apply Forall_app. split; [apply le_enc_bytes|done]. Qed.
Lemma length_words ws : Z.of_nat (length (concat (map (le_enc 4) ws))) = 4 * Z.of_nat (length ws).
Proof. induction ws as [|w ws IH]; [done|]. cbn [map concat length]. rewrite length_app, length_le_enc. lia. Qed.

(** What [main] finds: a return address, [argc], [argv], and behind [argv] the
    addresses of the NUL-terminated strings and a null; the page below the stack
    is closed to the user. *)
Record program_stack (m : mem) (pgdir sz sp : Z) (argv : list (list Z)) : Prop := {
  ps_guard : forall va, sz - 8192 <= va < sz - 4096 -> exists e, mapping m pgdir va = Some e /\ flag e PTE_U = false;
  ps_room : sz - 4096 <= sp < sz /\ forall va, sz - 4096 <= va < sz -> exists e, mapping m pgdir va = Some e /\ flag e PTE_U = true;
  ps_ret : ubytes m pgdir sp (le_enc 4 0xffffffff);
  ps_argc : ubytes m pgdir (sp + 4) (le_enc 4 (Z.of_nat (length argv)));
  ps_argv : ubytes m pgdir (sp + 8) (le_enc 4 (sp + 12));
  ps_arg : forall i a, argv !! i = Some a -> exists p, ubytes m pgdir (sp + 12 + 4 * Z.of_nat i) (le_enc 4 p) /\ ubytes m pgdir p (a ++ [0]) /\
    sp + 16 + 4 * Z.of_nat (length argv) <= p /\ p + Z.of_nat (length a) + 1 <= sz;
  ps_null : ubytes m pgdir (sp + 12 + 4 * Z.of_nat (length argv)) (le_enc 4 0)
}.

(** The words that [exec] pushes last. *)
Definition ustack (sp : Z) (ptrs : list Z) : list Z :=
  [0xffffffff; Z.of_nat (length ptrs); u32 (sp - (Z.of_nat (length ptrs) + 1) * 4)] ++ ptrs ++ [0].

Lemma program_stack_intro l pgdir tabs s1 s2 sz sp0 sp argv ptrs : aspace end_ s1 l pgdir tabs ->
  let n := Z.of_nat (length argv) in sp = sp0 - (4 + n) * 4 -> sp0 <= sz -> sz < KERNBASE -> sz - 4096 <= sp -> 4096 <= sz ->
  (forall va, sz - 8192 <= va < sz - 4096 -> exists e, mapping (k_mem s1) pgdir va = Some e /\ flag e PTE_U = false) ->
  (forall va, sz - 4096 <= va < sz -> exists e, mapping (k_mem s1) pgdir va = Some e /\ flag e PTE_U = true) ->
  Forall2 (fun p a => ubytes (k_mem s1) pgdir p (a ++ [0]) /\ sp0 <= p /\ p + Z.of_nat (length a) + 1 <= sz) ptrs argv ->
  written l pgdir tabs s1 sp (concat (map (le_enc 4) (ustack sp0 ptrs))) s2 -> program_stack (k_mem s2) pgdir sz sp argv.
Proof.
  intros Ha n Esp Hsp0 Hsz Hlo H4 Hg Hr HF W. pose proof (Forall2_length _ _ _ HF) as Hlen. assert (Hw := wr_in _ _ _ _ _ _ _ W). fold (ubytes (k_mem s2) pgdir sp (concat (map (le_enc 4) (ustack sp0 ptrs)))) in Hw.
  pose proof (fun k w => ubytes_words _ _ _ _ k w Hw) as HW. assert (Hn : Z.of_nat (length ptrs) = n) by (unfold n; lia).
  assert (T : touched l pgdir tabs sp sp0 s1 s2).
  { apply (written_touched _ _ _ _ _ _ _ _ _ W); [lia|]. rewrite length_words. unfold ustack. rewrite !length_app. cbn [length]. lia. }
  split.
  - intros va Hva. rewrite (to_map _ _ _ _ _ _ _ T). by apply Hg.
  - split; [lia|]. intros va Hva. rewrite (to_map _ _ _ _ _ _ _ T). by apply Hr.
  - replace sp with (sp + 4 * Z.of_nat 0) by lia. by apply HW.
  - replace (sp + 4) with (sp + 4 * Z.of_nat 1) by lia. apply HW. unfold ustack. cbn. by rewrite Hlen.
  - replace (sp + 8) with (sp + 4 * Z.of_nat 2) by lia. apply HW. unfold ustack. cbn. rewrite Hn. f_equal. rewrite u32_small by pglia. lia.
  - intros i a Hi. destruct (Forall2_lookup_r _ _ _ _ _ HF Hi) as (p & Hp & U & H1 & H2). exists p. split; [|split; [|fold n; lia]].
    + replace (sp + 12 + _) with (sp + 4 * Z.of_nat (3 + i)) by lia. apply HW. unfold ustack. rewrite lookup_app_r by (cbn; lia).
      replace (3 + i - _)%nat with i by (cbn; lia). by apply lookup_app_l_Some.
    + apply (ubytes_touched l pgdir tabs sp sp0 s1 s2); [done|lia|rewrite length_app; cbn [length]; lia|lia|done].
  - replace (sp + 12 + _) with (sp + 4 * Z.of_nat (3 + length ptrs)) by lia. apply HW. unfold ustack. rewrite lookup_app_r by (cbn; lia).
    replace (3 + length ptrs - _)%nat with (length ptrs) by (cbn; lia). rewrite lookup_app_r by lia. by rewrite Nat.sub_diag.
Qed.

(** The memory of the process with its stack: the image below is as it was, and
    so is every page that is neither free nor its own. *)
Record stacked_image (s : kstate) (l : list Z) (pgdir : Z) (tabs : gmap Z Z) (top sp : Z) (argv : list (list Z)) (s' : kstate) (l' : list Z) (tabs' : gmap Z Z) : Prop := {
  sk_frame : vframe s s';
  sk_space : aspace end_ s' l' pgdir tabs';
  sk_list : exists used, l = used ++ l';
  sk_stack : program_stack (k_mem s') pgdir (top + 8192) sp argv;
  sk_image : forall va, 0 <= va < top -> ubyte (k_mem s') pgdir va = ubyte (k_mem s) pgdir va /\ mapping (k_mem s') pgdir va = mapping (k_mem s) pgdir va;
  sk_above : forall va, top + 8192 <= va < KERNBASE -> mapping (k_mem s') pgdir va = mapping (k_mem s) pgdir va;
  sk_page : forall v x, page_ok end_ v -> (v ∉ l) -> ~ part_of s pgdir tabs v -> v <= x < v + PGSIZE -> ld8 (k_mem s') x = ld8 (k_mem s) x
}.

Lemma flags_user e : PTE_FLAGS e = 7 -> flag e PTE_U = true.
Proof. intros H. unfold flag. change PTE_U with (Z.land 0xFFF PTE_U) at 1. rewrite Z.land_assoc. unfold PTE_FLAGS in H. by rewrite H. Qed.

(** The two pages above the image: the guard page and the stack. *)
Record stack_pages (s : kstate) (l : list Z) (pgdir : Z) (tabs : gmap Z Z) (top : Z) (s' : kstate) (l' : list Z) (tabs' : gmap Z Z) : Prop := {
  sg_space : aspace end_ s' l' pgdir tabs';
  sg_grown : grown end_ pgdir s l tabs s' l' tabs';
  sg_guard : forall va, top <= va < top + 4096 -> exists e, mapping (k_mem s') pgdir va = Some e /\ flag e PTE_U = false /\ frame e ∈ l;
  sg_stack : forall va, top + 4096 <= va < top + 8192 -> exists e, mapping (k_mem s') pgdir va = Some e /\ flag e PTE_U = true /\ frame e ∈ l;
  sg_old : forall va, 0 <= va < 2 ^ 32 -> (va < top \/ top + 8192 <= va) -> mapping (k_mem s') pgdir va = mapping (k_mem s) pgdir va;
  sg_bytes : forall va, 0 <= va < KERNBASE -> (va < top \/ top + 8192 <= va) -> ubyte (k_mem s') pgdir va = ubyte (k_mem s) pgdir va
}.

Lemma stack_pages_run s l pgdir tabs top : aspace end_ s l pgdir tabs -> 0 <= top -> top mod 4096 = 0 -> top + 8192 < KERNBASE -> unmapped pgdir top 2 s -> (4 <= length l)%nat ->
  exists s1 s2 l' tabs', allocuvm end_ pgdir top (top + 8192) s = Ret (top + 8192) s1 /\ clearpteu pgdir top s1 = Ret tt s2 /\ stack_pages s l pgdir tabs top s2 l' tabs'.
Proof.
  intros Ha Htop Hmod Hk Hu Hl. pose proof (Z.div_mod top 4096 ltac:(lia)) as Hdm.
  assert (Hr : (top + 4095) / 4096 * 4096 = top) by (Z.to_euclidean_division_equations; lia).
  assert (Hn : pages_between top (top + 8192) = 2%nat) by (unfold pages_between; Z.to_euclidean_division_equations; lia).
  destruct (allocuvm_run end_ s l pgdir tabs top (top + 8192) Ha) as (s1 & l1 & tabs1 & R1 & [A1 A2 A3 A4] & _); rewrite ?Hr, ?Hn; [lia|lia|done|lia|]. rewrite Hr, Hn in A3, A4.
  assert (Hnew : forall va, top <= va < top + 8192 -> exists e, mapping (k_mem s1) pgdir va = Some e /\ PTE_FLAGS e = 7 /\ frame e ∈ l) by (intros va Hva; apply A3; unfold in_pages; lia).
  assert (Hold : forall va, 0 <= va < 2 ^ 32 -> (va < top \/ top + 8192 <= va) -> mapping (k_mem s1) pgdir va = mapping (k_mem s) pgdir va) by (intros va Hva Ho; apply A4; unfold in_pages; lia).
  destruct (Hnew top ltac:(lia)) as (eg & Eg & _ & Fg). destruct (clearpteu_run l1 pgdir tabs1 s1 top eg A1 ltac:(pglia) Eg) as (s2 & R2 & B1 & B2 & B3 & B4).
  assert (Hrest : forall va, 0 <= va < 2 ^ 32 -> (va < top \/ top + 4096 <= va) -> mapping (k_mem s2) pgdir va = mapping (k_mem s1) pgdir va) by (intros va Hva Ho; rewrite B3 by done; rewrite decide_False; [done|Z.to_euclidean_division_equations; lia]).
  exists s1, s2, l1, tabs1. split; [done|]. split; [done|]. split; [done|by eapply grown_trans| | | |].
  - intros va Hva. exists (no_user eg). rewrite B3 by pglia. rewrite decide_True by (Z.to_euclidean_division_equations; lia).
    destruct (walk_mapped end_ s1 l1 pgdir tabs1 top eg (as_space _ _ _ _ _ A1) Eg) as (pte & _ & _ & Hld & _).
    destruct (no_user_spec eg) as (_ & N2 & N3 & _); [rewrite <- Hld; apply ld32_range, A1|]. rewrite N3. done.
  - intros va Hva. rewrite Hrest by pglia. destruct (Hnew va ltac:(lia)) as (e & E & F & I). exists e. split; [done|]. split; [by apply flags_user|done].
  - intros va Hva Ho. rewrite Hrest by lia. by apply Hold.
  - intros va Hva Ho. rewrite B4 by done. apply (ubyte_grown end_ s l pgdir tabs s1 l1 tabs1); try done. by apply Hold; [pglia|].
Qed.

Lemma stacked_intro s l pgdir tabs top sp argv s2 l2 tabs2 s' : 0 <= top -> top + 8192 < KERNBASE -> stack_pages s l pgdir tabs top s2 l2 tabs2 ->
  touched l2 pgdir tabs2 (top + 4096) (top + 8192) s2 s' -> program_stack (k_mem s') pgdir (top + 8192) sp argv -> stacked_image s l pgdir tabs top sp argv s' l2 tabs2.
Proof.
  intros H0 Hk [G1 G2 G3 G4 G5 G6] T HP. pose proof T as [T1 T2 T3 T4 T5]. split.
  - destruct G2 as [F2 _ _ _ _]. rewrite T1 at 1. rewrite F2 at 1. by destruct s'.
  - done.
  - apply G2.
  - done.
  - intros va Hva. rewrite T3, T4, G5, G6 by (lia || pglia). done.
  - intros va Hva. rewrite T3, G5 by pglia. done.
  - intros v x Hv Hl Hp Hx. rewrite (T5 v x Hv); [|intros va e Hva E <-|done].
    + apply (gr_page _ _ _ _ _ _ _ _ G2 v x); [done| | |done|done]; [intros ->; apply Hp; by left|]. intros i Hi. apply Hp. right; left. by exists i.
    + destruct (decide (va < top \/ top + 8192 <= va)) as [Ho|Hi]; [apply Hp; right; right; exists va, e; rewrite <- G5 by pglia; done|].
      destruct (decide (va < top + 4096)) as [?|?]; [destruct (G3 va) as (e' & E' & _ & I)|destruct (G4 va) as (e' & E' & _ & I)]; try lia; rewrite E' in E; injection E as ->; by apply Hl.
Qed.

Lemma exec_stack_run s l pgdir tabs sz argv :
  let top := PGROUNDUP sz in let sp := pushed (top + 8192) argv - (4 + Z.of_nat (length argv)) * 4 in
  aspace end_ s l pgdir tabs -> 0 <= sz -> top + 8192 < KERNBASE -> unmapped pgdir top 2 s -> (4 <= length l)%nat ->
  (length argv <= MAXARG)%nat -> Forall bytes argv -> top + 4096 <= sp ->
  exists s' l' tabs', exec_stack end_ pgdir sz argv s = Ret (Some (top + 8192, sp)) s' /\ stacked_image s l pgdir tabs top sp argv s' l' tabs'.
Proof.
  intros top sp Ha Hsz Hk Hu Hl Hc Hb Hfit. assert (Htop : top mod 4096 = 0 /\ 0 <= top) by (unfold top; rewrite PGROUNDUP_div; split; [apply Z.mod_mul; lia|apply Z.mul_nonneg_nonneg; [apply Z.div_pos|]; lia]).
  destruct Htop as [Hmod Htop]. unfold exec_stack. cbn zeta. fold top. rewrite (u32_small top) by pglia. change (2 * PGSIZE) with 8192. rewrite (u32_small (top + 8192)) by pglia.
  destruct (stack_pages_run s l pgdir tabs top Ha Htop Hmod Hk Hu Hl) as (s1 & s2 & l2 & tabs2 & R1 & R2 & G). pose proof G as [G1 G2 G3 G4 G5 G6].
  kstep R1. rewrite (proj2 (Z.eqb_neq _ _)) by lia. replace (top + 8192 - 8192) with top by lia. rewrite (u32_small top) by pglia. kstep R2.
  assert (Hm4 : (top + 8192) mod 4 = 0) by (Z.to_euclidean_division_equations; lia). destruct (pushed_le argv _ Hm4) as [_ Hpl].
  assert (Hrange : user_range (k_mem s2) pgdir (top + 4096) 4096).
  { split; [lia|]. split; [lia|]. intros va Hva. destruct (G4 va ltac:(lia)) as (e & E & F & _). by exists e. }
  destruct (exec_args_run l2 pgdir tabs2 (top + 4096) argv 0 s2 (top + 8192) G1) as (s3 & ptrs & R3 & T3 & HF); [lia|lia|done|by replace (top + 8192 - (top + 4096)) with 4096 by lia|done|done|lia|].
  kstep R3. pose proof (Forall2_length _ _ _ HF) as Hlen. rewrite Hlen. fold (ustack (pushed (top + 8192) argv) ptrs).
  assert (Esp : u32 (pushed (top + 8192) argv - (3 + Z.of_nat (length argv) + 1) * 4) = sp) by (rewrite u32_small by (unfold sp in *; pglia); unfold sp; lia). 
  rewrite <- Hlen in Esp |- *. fold (ustack (pushed (top + 8192) argv) ptrs). rewrite Esp.
  destruct (copyout_run l2 pgdir tabs2 s3 sp (concat (map (le_enc 4) (ustack (pushed (top + 8192) argv) ptrs))) (to_space _ _ _ _ _ _ _ T3)) as (s4 & R4 & W4); [|apply bytes_words|].
  { rewrite length_words. unfold ustack. rewrite !length_app. cbn [length]. destruct Hrange as (_ & _ & Hr). split; [lia|]. split; [unfold sp; lia|].
    intros va Hva. rewrite (to_map _ _ _ _ _ _ _ T3). apply Hr. unfold sp in *. lia. }
  kstep R4. cbn [Z.ltb Z.compare]. exists s4, l2, tabs2. split; [done|].
  assert (T4 : touched l2 pgdir tabs2 (top + 4096) (top + 8192) s2 s4).
  { apply (touched_trans l2 pgdir tabs2 (top + 4096) (pushed (top + 8192) argv) (top + 8192) s2 s3 s4); [unfold sp in *; lia|done|].
    apply (written_touched _ _ _ _ _ _ _ _ _ W4); [lia|]. rewrite length_words. unfold ustack. rewrite !length_app. cbn [length]. unfold sp. lia. }
  apply (stacked_intro s l pgdir tabs top sp argv s2 l2 tabs2 s4); [done|done|done|done|].
  apply (program_stack_intro l2 pgdir tabs2 s3 s4 (top + 8192) (pushed (top + 8192) argv) sp argv ptrs (to_space _ _ _ _ _ _ _ T3)); [unfold sp; lia|lia|done|lia|lia| | |done|done].
  - intros va Hva. rewrite (to_map _ _ _ _ _ _ _ T3). destruct (G3 va ltac:(lia)) as (e & E & F & _). by exists e.
  - intros va Hva. rewrite (to_map _ _ _ _ _ _ _ T3). destruct (G4 va ltac:(lia)) as (e & E & F & _). by exists e.
Qed.
End image.

(** C27: [exec_stack] adds a stack above an image, for at most 32 arguments that
    fit in a page: [main] finds [argc] and [argv] where the C calling convention
    puts them, each argument as a NUL-terminated string, and the page below the
    stack is out of reach for the user; the image and all other memory in use
    are unchanged. *)
Theorem exec_stack_layout end_ s l pgdir tabs sz argv :
  let top := PGROUNDUP sz in let sp := pushed (top + 8192) argv - (4 + Z.of_nat (length argv)) * 4 in
  aspace end_ s l pgdir tabs -> 0 <= sz -> top + 8192 < KERNBASE -> unmapped pgdir top 2 s -> (4 <= length l)%nat ->
  (length argv <= MAXARG)%nat -> Forall bytes argv -> top + 4096 <= sp ->
  exists s' l' tabs', exec_stack end_ pgdir sz argv s = Ret (Some (top + 8192, sp)) s' /\ stacked_image end_ s l pgdir tabs top sp argv s' l' tabs'.
Proof. apply exec_stack_run. Qed.

(** [echo hi], on the machine of Addrspace.v with eight free pages. *)
Lemma exec_stack_layout_witness : exists s s' sp, exec_stack kend vdir 0 [chars "echo"; chars "hi"] s = Ret (Some (8192, sp)) s' /\
  ubytes (k_mem s') vdir (sp + 4) [2; 0; 0; 0] /\ exists p, ubytes (k_mem s') vdir (sp + 16) (le_enc 4 p) /\ ubytes (k_mem s') vdir p [104; 105; 0].
Proof.
  destruct (vm_pages 8) as (s & l & Ha & Hm & Hl & _); [lia|]. 
  destruct (exec_stack_layout kend s l vdir ∅ 0 [chars "echo"; chars "hi"]) as (s' & l' & tabs' & R & [_ _ _ [_ _ _ P4 _ P6 _] _ _ _]).
  - done.
  - lia.
  - vm_compute. done.
  - intros va _. apply Hm.
  - rewrite Hl. lia.
  - cbn. unfold MAXARG. lia.
  - repeat constructor; vm_compute; done.
  - vm_compute. done.
  - exists s, s'. eexists. split; [exact R|]. split; [exact P4|]. destruct (P6 1%nat (chars "hi") eq_refl) as (p & U1 & U2 & _). exists p. split; [exact U1|exact U2].
Defined.
