(* ===== verification/Load.v ===== *)
(** * Loading a program: the segments (exec.c, loaduvm of vm.c)

    [exec_image] reads an ELF file into a fresh address space.  The theorem gives
    the image: the bytes of the segments at their addresses, zero elsewhere, up
    to the size that [exec] records. *)

From stdpp Require Import base list list_numbers numbers gmap strings.
From Stdlib Require Import ZArith Lia.
From S2P Require Import Prelude Mem CString KState Sched Bio Cache Kalloc Block Inode Bmap Fileio Vm Exec Paging Addrspace Image.

Section load.
Context (end_ : Z).
(** The file: the inode [v] in entry [ip] of the cache, with the bytes [fc]. *)
Context (D : gset Z) (ip : nat) (v : inode) (fc : nat -> Z).
Context (HD : (size D < NBUF)%nat) (Hty : i_type v <> T_DEV) (Hfc : forall o, 0 <= fc o < 256).

Definition fpart (off n : nat) : list Z := map fc (seq off n).

(** The file is in the file system. *)
Record has_file (s : kstate) : Prop := {
  hf_cabs : cabs s D ∅;
  hf_ip : k_icache s !! ip = Some v;
  hf_read : readable s v;
  hf_data : forall o, fdata s v o = fc o
}.

Lemma has_file_mem s s' : vframe s s' -> has_file s -> has_file s'.
Proof. intros E [[C1 C2 C3 C4 C5] H2 [R1 R2 R3 R4 R5] H4]. unfold vframe in E. rewrite E. split; [by split|done|by split|done]. Qed.

Lemma has_file_read s s' : reading s s' D -> has_file s -> has_file s'.
Proof.
  intros [F Ed C V] [C0 H2 [R1 R2 R3 R4 R5] H4].
  assert (Eb : forall bn, blk_of s' v bn = blk_of s v bn) by (intros bn; unfold blk_of; by rewrite V).
  split; [done|by rewrite (cframe_icache _ _ F)|split; try done; [by rewrite Ed|]|].
  - intros bn Hb. rewrite Eb, Ed. by apply R5.
  - intros o. rewrite <- H4. unfold fdata. by rewrite Eb, V.
Qed.

Lemma readi_file s (off n : nat) : has_file s -> Z.of_nat (off + n) <= i_size v ->
  exists s', readi ip (Z.of_nat off) (Z.of_nat n) s = Ret (Z.of_nat n, fpart off n) s' /\ reading s s' D.
Proof.
  intros [H1 H2 H3 H4] Hn. pose proof (rd_size _ _ H3) as Hs. rewrite maxfile_bytes in Hs.
  destruct (readi_run s D ip v off n H1 HD H2 H3 Hty) as (s' & HR & R); [lia|lia|]. exists s'. split; [|done]. rewrite R.
  assert (Hc : clip (i_size v) (Z.of_nat off) (Z.of_nat n) = Z.of_nat n) by (unfold clip; rewrite (proj2 (Z.ltb_ge _ _)) by lia; done).
  rewrite Hc, Nat2Z.id. do 2 f_equal. unfold fbytes, fpart. apply map_ext. exact H4.
Qed.

(** ** The image under construction *)

Section building.
Context (s0 : kstate) (l0 : list Z) (pgdir : Z).

(** The user memory up to [sz] holds [img]; all its pages come from the free
    pages [l0] of the state [s0], and no other page has changed since. *)
Record loading (img : Z -> Z) (sz : Z) (s : kstate) (l : list Z) (tabs : gmap Z Z) : Prop := {
  im_file : has_file s;
  im_space : aspace end_ s l pgdir tabs;
  im_sz : 0 <= sz < KERNBASE;
  im_in : forall va, 0 <= va < PGROUNDUP sz -> ubyte (k_mem s) pgdir va = Some (img va) /\
    exists e, mapping (k_mem s) pgdir va = Some e /\ PTE_FLAGS e = 7 /\ frame e ∈ l0;
  im_out : forall va, PGROUNDUP sz <= va < KERNBASE -> mapping (k_mem s) pgdir va = None;
  im_zero : forall va, sz <= va -> img va = 0;
  im_list : forall w, w ∈ l -> w ∈ l0;
  im_dir : pgdir ∈ l0 /\ forall i t, tabs !! i = Some t -> t ∈ l0;
  im_page : forall w x, page_ok end_ w -> (w ∉ l0) -> w <= x < w + PGSIZE -> ld8 (k_mem s) x = ld8 (k_mem s0) x
}.

Lemma cframe_mem s s' : cframe s s' -> k_mem s' = k_mem s /\ k_freelist s' = k_freelist s /\ k_held s' = k_held s.
Proof. intros [E _]. rewrite E. done. Qed.

Lemma loading_read img sz s l tabs s' : loading img sz s l tabs -> reading s s' D -> loading img sz s' l tabs.
Proof.
  intros [L1 L2 L3 L4 L5 L6 L7 L8 L9] HR. destruct (cframe_mem s s' (rg_frame _ _ _ HR)) as (Em & Ef & Eh).
  split; rewrite ?Em; try done; [by eapply has_file_read|by apply (aspace_eq end_ s s')].
Qed.

Lemma pages_top sz new : 0 <= sz <= new -> new < KERNBASE ->
  (sz + 4095) / 4096 * 4096 + 4096 * Z.of_nat (pages_between sz new) = (new + 4095) / 4096 * 4096 /\ (new + 4095) / 4096 * 4096 <= KERNBASE /\
  0 <= (sz + 4095) / 4096 * 4096 /\ sz <= (sz + 4095) / 4096 * 4096.
Proof. intros H1 H2. unfold pages_between, KERNBASE in *. Z.to_euclidean_division_equations. lia. Qed.

(** [allocuvm] adds zeroed pages. *)
Lemma loading_alloc img sz s l tabs new : loading img sz s l tabs -> sz <= new < KERNBASE -> (2 * pages_between sz new <= length l)%nat ->
  exists s' l' tabs', allocuvm end_ pgdir sz new s = Ret new s' /\ loading img new s' l' tabs' /\ (length l <= length l' + 2 * pages_between sz new)%nat.
Proof.
  intros [L1 L2 L3 L4 L5 L6 L7 L8 L9] Hn Hl. destruct (pages_top sz new) as (T1 & T2 & T3 & T4); [lia|lia|].
  destruct (allocuvm_run end_ s l pgdir tabs sz new L2) as (s' & l' & tabs' & R & [U1 U2 U3 U4] & Hc); [lia|lia| |done|].
  { intros va Hva. apply L5. rewrite PGROUNDUP_div. unfold in_pages in Hva. lia. }
  exists s', l', tabs'. split; [done|]. split; [|done]. rewrite PGROUNDUP_div in L4, L5. unfold in_pages in U3, U4. rewrite T1 in U3, U4. pose proof U2 as [G1 [u G2] G3 G4 G5].
  split; rewrite ?PGROUNDUP_div; [by eapply has_file_mem|done|lia| | | | |split; [apply L8|]|].
  - intros va Hva. destruct (decide ((sz + 4095) / 4096 * 4096 <= va)) as [Hge|Hlt].
    + destruct (U3 va ltac:(lia)) as (-> & e & E & F & I). rewrite L6 by lia. split; [done|]. exists e. split; [done|]. split; [done|by apply L7].
    + assert (Em : mapping (k_mem s') pgdir va = mapping (k_mem s) pgdir va) by (apply U4; pglia).
      rewrite (ubyte_grown end_ s l pgdir tabs s' l' tabs' va L2 U2) by (done || lia). rewrite Em. apply L4. lia.
  - intros va Hva. rewrite U4 by pglia. apply L5. pose proof (Zle_0_nat (pages_between sz new)). lia.
  - intros va Hva. apply L6. lia.
  - intros w Hw. apply L7. rewrite G2. apply elem_of_app. by right.
  - intros i t [Ht|Ht]%G4; [by eapply L8|by apply L7].
  - intros w x Hw Hwl Hx. rewrite (G5 w x); [by apply (L9 w)|done| | |by intros Hwi; apply Hwl, L7|done].
    + intros ->. apply Hwl, L8.
    + intros i Hi. by eapply Hwl, L8.
Qed.

(** ** loaduvm *)

(** The image after [n] bytes of the file, from [off] on, are stored at [a]. *)
Definition put (img : Z -> Z) (a : Z) (off n : nat) (va : Z) : Z :=
  if decide (a <= va < a + Z.of_nat n) then fc (off + Z.to_nat (va - a)) else img va.

Lemma put_app img a off n m va : put (put img a off n) (a + Z.of_nat n) (off + n) m va = put img a off (n + m) va.
Proof. unfold put. repeat case_decide; try lia; try done; f_equal; lia. Qed.

Lemma fpart_bytes off n : bytes (fpart off n).
Proof. apply Forall_map, Forall_forall. intros o _. apply Hfc. Qed.
Lemma fpart_lookup off n i : (i < n)%nat -> fpart off n !! i = Some (fc (off + i)).
Proof. intros Hi. unfold fpart. rewrite list_lookup_fmap, lookup_seq_lt by done. done. Qed.

(** One page, or the part of a page, of the segment. *)
Lemma loading_write img sz s l tabs a off n : loading img sz s l tabs -> 0 <= a -> a mod 4096 = 0 -> (n <= 4096)%nat -> a + Z.of_nat n <= sz -> (0 < n)%nat ->
  exists e, mapping (k_mem s) pgdir a = Some e /\ loading (put img a off n) sz (set_k_mem (st (k_mem s) (frame e) (fpart off n)) s) l tabs.
Proof.
  intros [L1 L2 L3 L4 L5 L6 L7 L8 L9] Ha Hm Hn Hsz Hpos. destruct (pages_top sz sz) as (_ & T2 & _ & T4); [lia|lia|]. rewrite PGROUNDUP_div in L4, L5.
  destruct (L4 a ltac:(lia)) as (_ & e & E & F & I). exists e. split; [done|].
  assert (Hlen : length (fpart off n) = n) by (unfold fpart; by rewrite length_map, length_seq).
  pose proof (write_page end_ l pgdir tabs s a e (fpart off n) L2 ltac:(lia) E (fpart_bytes off n) ltac:(lia)) as W.
  rewrite Hm, Z.add_0_r in W. set (s' := set_k_mem _ s) in *. destruct W as [W1 W2 W3 W4 W5 W6]. rewrite Hlen in W5.
  split; rewrite ?PGROUNDUP_div; [apply (has_file_mem s); [by destruct s|done]|done|done| | | |done|done|].
  - intros va Hva. rewrite W3. destruct (L4 va Hva) as (Eu & He). split; [|done]. unfold put. case_decide as Hd; [|rewrite W5 by lia; done].
    replace va with (a + Z.of_nat (Z.to_nat (va - a))) at 1 by lia. apply W4. apply fpart_lookup. lia.
  - intros va Hva. rewrite W3. by apply L5.
  - intros va Hva. unfold put. rewrite decide_False by lia. by apply L6.
  - intros w x Hw Hwl Hx. rewrite (W6 w x Hw); [by apply (L9 w)| |done]. intros va e' Hva E' <-. apply Hwl.
    destruct (decide (va < (sz + 4095) / 4096 * 4096)) as [Hlt|Hge]; [|rewrite L5 in E' by lia; done].
    destruct (L4 va ltac:(lia)) as (_ & e'' & E'' & _ & I''). rewrite E' in E''. by injection E'' as ->.
Qed.

Lemma loading_ext img img' sz s l tabs : (forall va, img' va = img va) -> loading img sz s l tabs -> loading img' sz s l tabs.
Proof. intros H [L1 L2 L3 L4 L5 L6 L7 L8 L9]. split; try done; intros va Hva; rewrite H; [by apply L4|by apply L6]. Qed.

Lemma loaduvm_loop_run sz l tabs a off fz fuel : forall (i : nat) s img, loading img sz s l tabs -> 0 <= a -> a mod 4096 = 0 -> Z.of_nat i mod 4096 = 0 ->
  a + Z.of_nat fz <= sz -> Z.of_nat (off + fz) <= i_size v -> (fz <= i + 4096 * fuel)%nat ->
  exists s', loaduvm_loop pgdir a ip (Z.of_nat off) (Z.of_nat fz) (S fuel) (Z.of_nat i) s = Ret 0 s' /\
    loading (put img (a + Z.of_nat i) (off + i) (fz - i)) sz s' l tabs.
Proof.
  induction fuel as [|fuel IH]; intros i s img HL Ha Hm Him Hsz Hoff Hf; cbn [loaduvm_loop]; destruct (Z.ltb_spec (Z.of_nat i) (Z.of_nat fz)) as [Hlt|Hge]; try lia.
  1,3: exists s; split; [done|]; apply (loading_ext img); [|done]; intros va; unfold put; rewrite decide_False by lia; done.
  pose proof (rd_size _ _ (hf_read _ (im_file _ _ _ _ _ HL))) as Hs. rewrite maxfile_bytes in Hs. pose proof (im_sz _ _ _ _ _ HL) as Hk.
  set (n := Nat.min (fz - i) 4096). assert (Hn : (0 < n <= 4096)%nat /\ (n <= fz - i)%nat) by (unfold n; lia).
  rewrite (u32_small (a + Z.of_nat i)), (u32_small (Z.of_nat fz - Z.of_nat i)), (u32_small (Z.of_nat off + Z.of_nat i)) by pglia.
  assert (Hami : (a + Z.of_nat i) mod 4096 = 0) by (Z.to_euclidean_division_equations; lia).
  destruct (loading_write img sz s l tabs (a + Z.of_nat i) (off + i) n HL) as (e & E & _); [lia|done|lia|lia|lia|].
  destruct (walk_mapped end_ s l pgdir tabs _ e (as_space _ _ _ _ _ (im_space _ _ _ _ _ HL)) E) as (pte & W & Hnz & Hld & Hp & _).
  kstep (W false). rewrite (proj2 (Z.eqb_neq _ _)) by done. unfold rd32. kgets. rewrite Hld.
  replace (if Z.of_nat fz - Z.of_nat i <? PGSIZE then Z.of_nat fz - Z.of_nat i else PGSIZE) with (Z.of_nat n) by (unfold n, PGSIZE; destruct (Z.ltb_spec (Z.of_nat fz - Z.of_nat i) 4096); lia).
  replace (Z.of_nat off + Z.of_nat i) with (Z.of_nat (off + i)) by lia.
  destruct (readi_file s (off + i) n (im_file _ _ _ _ _ HL)) as (s1 & R1 & HR); [lia|]. kstep R1. cbn [fst snd].
  pose proof (loading_read _ _ _ _ _ s1 HL HR) as HL1. destruct (loading_write img sz s1 l tabs (a + Z.of_nat i) (off + i) n HL1) as (e1 & E1 & HL2); [lia|done|lia|lia|lia|].
  assert (e1 = e) as ->. { rewrite (proj1 (cframe_mem _ _ (rg_frame _ _ _ HR))), E in E1. by injection E1 as ->. }
  unfold copy_bytes. kmod. fold (frame e). set (s2 := set_k_mem _ s1) in *. rewrite Z.eqb_refl. cbn [negb].
  rewrite u32_small by (unfold PGSIZE; lia). replace (Z.of_nat i + PGSIZE) with (Z.of_nat (i + 4096)) by (unfold PGSIZE; lia).
  destruct (IH (i + 4096)%nat s2 (put img (a + Z.of_nat i) (off + i) n) HL2) as (s' & R' & HL'); [done|done|Z.to_euclidean_division_equations; lia|done|done|lia|].
  exists s'. split; [exact R'|]. eapply loading_ext; [|exact HL']. intros va. symmetry.
  destruct (decide (fz - i <= 4096)%nat) as [Hle|Hgt].
  - replace (fz - i)%nat with n by (unfold n; lia). replace (fz - (i + 4096))%nat with 0%nat by lia. unfold put at 1. by rewrite decide_False by lia.
  - replace (a + Z.of_nat (i + 4096)) with (a + Z.of_nat i + Z.of_nat n) by (unfold n; lia). replace (off + (i + 4096))%nat with (off + i + n)%nat by (unfold n; lia).
    rewrite put_app. by replace (n + (fz - (i + 4096)))%nat with (fz - i)%nat by (unfold n; lia).
Qed.

Lemma loaduvm_run img sz s l tabs a off fz : loading img sz s l tabs -> 0 <= a -> a mod 4096 = 0 -> a + Z.of_nat fz <= sz -> Z.of_nat (off + fz) <= i_size v ->
  exists s', loaduvm pgdir a ip (Z.of_nat off) (Z.of_nat fz) s = Ret 0 s' /\ loading (put img a off fz) sz s' l tabs.
Proof.
  intros HL Ha Hm Hsz Hoff. unfold loaduvm. change PGSIZE with 4096. rewrite Hm. cbn [Z.eqb negb].
  replace (Z.to_nat (Z.of_nat fz / 4096 + 2)) with (S (Z.to_nat (Z.of_nat fz / 4096 + 1))) by (Z.to_euclidean_division_equations; lia).
  destruct (loaduvm_loop_run sz l tabs a off fz (Z.to_nat (Z.of_nat fz / 4096 + 1)) 0 s img HL) as (s' & R & HL'); [done|done|done|done|done|Z.to_euclidean_division_equations; lia|].
  exists s'. split; [exact R|]. by rewrite Z.add_0_r, Nat.add_0_r, Nat.sub_0_r in HL'.
Qed.

(** ** The program headers *)

(** The header at [off], and what [exec] makes of [n] headers from there on: the
    size of the image, its bytes, and the conditions under which it is loaded. *)
Definition hdr (off : nat) : list Z := fpart off 32.
Definition is_load (h : list Z) : bool := ph_type h =? ELF_PROG_LOAD.
Definition ph_end (h : list Z) : Z := ph_vaddr h + ph_memsz h.

Fixpoint image_sz (n off : nat) (sz : Z) : Z :=
  match n with
  | O => sz
  | S n' => image_sz n' (off + 32) (if is_load (hdr off) then ph_end (hdr off) else sz)
  end.
Fixpoint image_of (n off : nat) (img : Z -> Z) : Z -> Z :=
  match n with
  | O => img
  | S n' =>
      let h := hdr off in
      image_of n' (off + 32) (if is_load h then put img (ph_vaddr h) (Z.to_nat (ph_off h)) (Z.to_nat (ph_filesz h)) else img)
  end.
Record segment_ok (h : list Z) (sz : Z) : Prop := {
  so_filesz : ph_filesz h <= ph_memsz h;
  so_align : ph_vaddr h mod 4096 = 0;
  so_grows : sz <= ph_end h < KERNBASE;
  so_some : 0 < ph_end h;
  so_file : ph_off h + ph_filesz h <= i_size v
}.
Fixpoint headers_ok (n off : nat) (sz : Z) : Prop :=
  match n with
  | O => True
  | S n' => Z.of_nat (off + 32) <= i_size v /\
      if is_load (hdr off) then segment_ok (hdr off) sz /\ headers_ok n' (off + 32) (ph_end (hdr off)) else headers_ok n' (off + 32) sz
  end.

Lemma pages_between_app a b c : 0 <= a <= b -> b <= c -> (pages_between a b + pages_between b c = pages_between a c)%nat.
Proof. intros H1 H2. unfold pages_between. Z.to_euclidean_division_equations. lia. Qed.

Lemma image_sz_ge n : forall off sz, headers_ok n off sz -> sz <= image_sz n off sz.
Proof.
  induction n as [|n IH]; intros off sz; cbn [headers_ok image_sz]; [lia|]. intros [_ H]. destruct (is_load (hdr off)); [|by apply IH].
  destruct H as [[_ _ Hg _ _] H]. apply IH in H. lia.
Qed.

Lemma le_dec_slice h i : bytes h -> 0 <= le_dec (slice h i 4) < 2 ^ 32.
Proof.
  intros Hb. assert (Hs : bytes (slice h i 4)) by (by apply Forall_take, Forall_drop). pose proof (le_dec_range _ Hs) as Hr.
  assert (length (slice h i 4) <= 4)%nat by (unfold slice; rewrite length_take; lia).
  assert (256 ^ Z.of_nat (length (slice h i 4)) <= 256 ^ 4) by (apply Z.pow_le_mono_r; lia). lia.
Qed.
Lemma ph_fields h : bytes h -> 0 <= ph_vaddr h < 2 ^ 32 /\ 0 <= ph_off h < 2 ^ 32 /\ 0 <= ph_filesz h < 2 ^ 32 /\ 0 <= ph_memsz h < 2 ^ 32.
Proof. intros Hb. repeat split; by apply le_dec_slice. Qed.

Lemma exec_load_run n : forall off sz img s l tabs, loading img sz s l tabs -> headers_ok n off sz ->
  (2 * pages_between sz (image_sz n off sz) <= length l)%nat -> Z.of_nat off < 2 ^ 30 ->
  exists s' l' tabs', exec_load end_ ip pgdir n (Z.of_nat off) sz s = Ret (Some (image_sz n off sz)) s' /\
    loading (image_of n off img) (image_sz n off sz) s' l' tabs' /\ (length l <= length l' + 2 * pages_between sz (image_sz n off sz))%nat.
Proof.
  induction n as [|n IH]; intros off sz img s l tabs HL Hok Hl Ho; cbn [exec_load headers_ok image_sz image_of] in *.
  { exists s, l, tabs. split; [done|]. split; [done|]. lia. }
  destruct Hok as [Hin Hok]. pose proof (im_sz _ _ _ _ _ HL) as Hsz. pose proof (rd_size _ _ (hf_read _ (im_file _ _ _ _ _ HL))) as Hs. rewrite maxfile_bytes in Hs.
  rewrite (u32_small (Z.of_nat off)) by lia. destruct (readi_file s off 32 (im_file _ _ _ _ _ HL) Hin) as (s1 & R1 & HR). change (Z.of_nat 32) with sizeof_proghdr in R1.
  kstep R1. cbn [fst snd]. rewrite Z.eqb_refl. cbn [negb]. fold (hdr off). set (h := hdr off) in *. pose proof (loading_read _ _ _ _ _ s1 HL HR) as HL1.
  change (ph_type h =? ELF_PROG_LOAD) with (is_load h). rewrite s32_small by (unfold sizeof_proghdr; lia). replace (Z.of_nat off + sizeof_proghdr) with (Z.of_nat (off + 32)) by (unfold sizeof_proghdr; lia).
  destruct (is_load h) eqn:Eld; cbn [negb].
  2:{ apply (IH (off + 32)%nat sz img s1 l tabs); [done|done|done|lia]. }
  destruct Hok as [[S1 S2 S3 S4 S5] Hok]. pose proof (image_sz_ge _ _ _ Hok) as Hge. destruct (ph_fields h (fpart_bytes off 32)) as (V1 & V2 & V3 & V4).
  rewrite (proj2 (Z.ltb_ge _ _)) by done. fold (ph_end h). rewrite (u32_small (ph_end h)) by pglia.
  pose proof (pages_between_app sz (ph_end h) (image_sz n (off + 32) (ph_end h)) ltac:(lia) ltac:(lia)) as Hpb.
  destruct (loading_alloc _ _ _ _ _ (ph_end h) HL1) as (s2 & l2 & tabs2 & R2 & HL2 & Hc2); [lia|lia|].
  kstep R2. rewrite (proj2 (Z.eqb_neq _ _)) by lia.
  destruct (loaduvm_run img (ph_end h) s2 l2 tabs2 (ph_vaddr h) (Z.to_nat (ph_off h)) (Z.to_nat (ph_filesz h)) HL2) as (s3 & R3 & HL3); [lia|done|unfold ph_end; lia|lia|].
  rewrite !Z2Nat.id in R3 by lia. kstep R3. cbn [Z.ltb Z.compare].
  destruct (IH (off + 32)%nat (ph_end h) _ s3 l2 tabs2 HL3 Hok) as (s' & l' & tabs' & R' & HL' & Hc'); [lia|lia|]. exists s', l', tabs'. split; [exact R'|]. split; [done|]. lia.
Qed.
End building.

(** ** exec_image *)

Lemma slice_in (a b : list Z) i n : (i + n <= length a)%nat -> slice (a ++ b) i n = slice a i n.
Proof. intros H. unfold slice. rewrite drop_app_le by lia. rewrite take_app_le; [done|]. rewrite length_drop. lia. Qed.

Lemma loading_start s l d s' l' td : fresh_dir end_ s l d s' l' td -> has_file s -> loading s l d (fun _ => 0) 0 s' l' td.
Proof.
  intros [F1 F2 [u F3] [F4 F5] F6 F7 F8] Hf. split; [by eapply has_file_mem|done|unfold KERNBASE; lia| | |done| |done|].
  - intros va Hva. change (PGROUNDUP 0) with 0 in Hva. lia.
  - intros va Hva. change (PGROUNDUP 0) with 0 in Hva. by apply F6.
  - intros w Hw. rewrite F3. apply elem_of_app. by right.
  - intros w x Hw Hl Hx. by apply (F7 w).
Qed.

Lemma exec_image_run data_ stk s l :
  let elf := fpart 0 52 in let n := Z.to_nat (elf_phnum elf) in let off := Z.to_nat (elf_phoff elf) in
  data_ok data_ -> has_file s -> kmem_ok end_ s l -> mem_ok (k_mem s) -> 52 <= i_size v -> elf_magic elf = ELF_MAGIC -> elf_phoff elf < 2 ^ 30 ->
  headers_ok n off 0 -> (1026 + 2 * pages_between 0 (image_sz n off 0) <= length l)%nat ->
  exists pgdir s' l' tabs, exec_image end_ data_ stk ip s = Ret (pgdir, Some (image_sz n off 0, elf_entry elf)) s' /\ pgdir <> 0 /\
    loading s l pgdir (image_of n off (fun _ => 0)) (image_sz n off 0) s' l' tabs /\ (length l <= length l' + 1025 + 2 * pages_between 0 (image_sz n off 0))%nat.
Proof.
  intros elf n off Hdata Hf Hk Hm Hsz Hmagic Hoff Hok Hl. unfold exec_image. destruct (readi_file s 0 52 Hf) as (s1 & R1 & HR); [lia|].
  change (Z.of_nat 52) with sizeof_elfhdr in R1. change (Z.of_nat 0) with 0 in R1. kstep R1. cbn [fst snd]. fold elf. assert (Hlen : length elf = 52%nat) by done.
  change (u32 sizeof_elfhdr <? sizeof_elfhdr) with false. cbv iota.
  assert (Ef : forall (f : list Z -> Z) i m, (forall e, f e = le_dec (slice e i m)) -> (i + m <= 52)%nat -> f (elf ++ drop (length elf) stk) = f elf).
  { intros f i m Hfe Him. rewrite !Hfe, slice_in by lia. done. }
  rewrite (Ef elf_magic 0 4)%nat, (Ef elf_phnum 44 2)%nat, (Ef elf_phoff 28 4)%nat, (Ef elf_entry 24 4)%nat by (done || lia). rewrite Hmagic, Z.eqb_refl. cbn [negb].
  destruct (cframe_mem _ _ (rg_frame _ _ _ HR)) as (Em & Efl & Eh).
  assert (Hk1 : kmem_ok end_ s1 l) by (destruct Hk as [K1 K2 K3]; split; [by rewrite Em, Efl|done|by rewrite Eh]).
  destruct (setupkvm_run end_ data_ s1 l Hdata Hk1) as [(d & s2 & l2 & td & R2 & Hd & HF)|(s2 & _ & HLo)]; [by rewrite Em| |].
  2:{ destruct HLo. lia. }
  kstep R2. rewrite (proj2 (Z.eqb_neq _ _)) by done. pose proof (size_tabs _ _ _ _ _ (as_space _ _ _ _ _ (fd_space _ _ _ _ _ _ _ HF))) as Ht. pose proof (fd_count _ _ _ _ _ _ _ HF) as Hc.
  pose proof (loading_start _ _ _ _ _ _ HF (has_file_read _ _ HR Hf)) as HL. assert (Hp : 0 <= elf_phoff elf) by (apply (le_dec_slice elf 28), fpart_bytes).
  rewrite s32_small by lia. replace (elf_phoff elf) with (Z.of_nat off) by (unfold off; lia).
  destruct (exec_load_run s1 l d n off 0 _ s2 l2 td HL Hok) as (s' & l' & tabs & R' & HL' & Hc'); [lia|lia|]. kstep R'. exists d, s', l', tabs. split; [done|]. split; [done|].
  split; [|lia]. destruct HL' as [L1 L2 L3 L4 L5 L6 L7 L8 L9]. split; try done. intros w x Hw Hwl Hx. rewrite <- Em. by apply (L9 w).
Qed.
End load.

(** C26: [exec_image] of a well-formed ELF file builds, from free pages only, an
    address space whose memory is the image of the file: every segment's bytes at
    its address, zero in the rest of its pages, nothing mapped above; it returns
    the size and the entry point, and no page that was in use has changed. *)
Theorem exec_image_loads end_ D ip v fc data_ stk s l :
  let elf := fpart fc 0 52 in let n := Z.to_nat (elf_phnum elf) in let off := Z.to_nat (elf_phoff elf) in let sz := image_sz fc n off 0 in
  (size D < NBUF)%nat -> i_type v <> T_DEV -> (forall o, 0 <= fc o < 256) ->
  data_ok data_ -> has_file D ip v fc s -> kmem_ok end_ s l -> mem_ok (k_mem s) -> 52 <= i_size v -> elf_magic elf = ELF_MAGIC -> elf_phoff elf < 2 ^ 30 ->
  headers_ok v fc n off 0 -> (1026 + 2 * pages_between 0 sz <= length l)%nat ->
  exists pgdir s' l' tabs, exec_image end_ data_ stk ip s = Ret (pgdir, Some (sz, elf_entry elf)) s' /\ pgdir <> 0 /\
    loading end_ D ip v fc s l pgdir (image_of fc n off (fun _ => 0)) sz s' l' tabs.
Proof.
  intros elf n off sz HD Hty Hfc H1 H2 H3 H4 H5 H6 H7 H8 H9.
  destruct (exec_image_run end_ D ip v fc HD Hty Hfc data_ stk s l H1 H2 H3 H4 H5 H6 H7 H8 H9) as (d & s' & l' & tabs & R & Hd & HL & _). by exists d, s', l', tabs.
Qed.

(** A program of two instructions: the header, one program header, the code. *)
Definition a_program : list Z :=
  le_enc 4 ELF_MAGIC ++ replicate 12 0 ++ le_enc 2 2 ++ le_enc 2 3 ++ le_enc 4 1 ++ le_enc 4 0 ++ le_enc 4 52 ++ le_enc 4 0 ++ le_enc 4 0 ++ le_enc 2 52 ++ le_enc 2 32 ++ le_enc 2 1 ++ replicate 6 0 ++
  le_enc 4 ELF_PROG_LOAD ++ le_enc 4 84 ++ le_enc 4 0 ++ le_enc 4 0 ++ le_enc 4 4 ++ le_enc 4 8 ++ le_enc 4 7 ++ le_enc 4 4096 ++ [235; 254; 144; 144].
Definition program_disk : disk := mkDisk 1000 {[70 := a_program ++ replicate 424 0]} [].
Definition program_inode : inode := mkInode 1 2 1 3 T_FILE 0 0 1 88 (70 :: replicate 12 0).
Definition program_byte (o : nat) : Z := if (o / BSIZE =? 0)%nat then nth (o mod BSIZE) (a_program ++ replicate 424 0) 0 else 0.

Lemma program_read n : dread program_disk n = if decide (n = 70) then a_program ++ replicate 424 0 else zblock.
Proof. unfold dread, program_disk. cbn [dk_blocks]. case_decide as E; [subst; by rewrite lookup_singleton_eq|by rewrite lookup_singleton_ne]. Qed.

Lemma program_blk s bn : blk_of s program_inode bn = if decide (bn = 0%nat) then 70 else 0.
Proof.
  destruct bn as [|bn]; [done|]. rewrite (decide_False (P := S bn = 0%nat)) by done. unfold blk_of. destruct (decide (S bn < NDIRECT)%nat) as [H|H]; [|done].
  cbn. do 12 (destruct bn as [|bn]; [done|]). by destruct bn.
Qed.
Lemma program_file s : k_disk s = program_disk -> (forall n, view s n = dread program_disk n) -> cabs s ∅ ∅ -> k_icache s = [program_inode] ->
  has_file ∅ 0 program_inode program_byte s.
Proof.
  intros Ed V C Ei. split; [done|by rewrite Ei|split; try done|].
  - intros bn Hb. rewrite program_blk, Ed. cbn [i_size program_inode] in Hb. destruct bn; [done|]. unfold BSIZE in Hb. lia.
  - intros o. unfold fdata, program_byte. rewrite program_blk. destruct (o / BSIZE)%nat eqn:E; cbn [Nat.eqb]; [|by rewrite decide_False].
    rewrite decide_True by done. by rewrite V, program_read.
Qed.
Lemma program_byte_range o : 0 <= program_byte o < 256.
Proof.
  unfold program_byte. destruct (o / BSIZE =? 0)%nat; [|lia]. rewrite nth_lookup. destruct (_ !! _) as [x|] eqn:E; [|cbn; lia].
  assert (H : Forall (fun b => 0 <= b < 256) (a_program ++ replicate 424 0)); [|by apply (Forall_lookup_1 _ _ _ _ H E)].
  apply Forall_app. split; [unfold a_program; repeat (apply Forall_app; split); try apply le_enc_bytes; try (by apply Forall_replicate); repeat constructor; lia|by apply Forall_replicate].
Qed.

Lemma exec_image_loads_witness : exists s s' d, exec_image kend 0x80103000 [] 0 s = Ret (d, Some (8, 0)) s' /\
  ubyte (k_mem s') d 0 = Some 235 /\ ubyte (k_mem s') d 5 = Some 0 /\ mapping (k_mem s') d 4096 = None.
Proof.
  destruct (boots_up program_disk) as [sb Hb]. { intros n. rewrite program_read. by case_decide. }
  pose proof (booted_cabs _ _ Hb) as [C1 C2 C3 C4 C5]. pose proof (bo_view _ _ Hb) as Hv. pose proof (bo_disk _ _ Hb) as Hd.
  destruct (vm_pages 1100) as (sm & l & Ha & _ & Hl & _); [lia|]. destruct (as_space _ _ _ _ _ Ha) as [[K1 K2 _] Hm _ _ _ _].
  set (s := set_k_held [] (set_k_icache [program_inode] (set_k_bcache (k_bcache sb) (set_k_disk (k_disk sb) sm)))).
  destruct (exec_image_loads kend ∅ 0 program_inode program_byte 0x80103000 [] s l) as (d & s' & l' & tabs & R & Hnz & [_ _ _ L4 L5 _ _ _ _]).
  - rewrite size_empty. unfold NBUF. lia.
  - done.
  - apply program_byte_range.
  - split; [unfold KERNLINK, EXTMEM, KERNBASE, PHYSTOP; lia|done].
  - apply program_file; [exact Hd|exact Hv|split; [exact C1|exact C2|exact C3|apply not_elem_of_nil..]|done].
  - split; [exact K1|exact K2|apply not_elem_of_nil].
  - exact Hm.
  - vm_compute. done.
  - vm_compute. done.
  - vm_compute. done.
  - split; [vm_compute; done|]. split; [split; vm_compute; done|done].
  - rewrite Hl. vm_compute. lia.
  - exists s, s', d. split; [exact R|]. split; [exact (proj1 (L4 0 ltac:(vm_compute; done)))|]. split; [exact (proj1 (L4 5 ltac:(vm_compute; done)))|]. apply L5. vm_compute. done.
Defined.
