(* ===== verification/Lifecycle.v ===== *)
(** * The life of a process: theorems on exit, wait and fork of src/xv6/proc.c

    [exit] leaves a zombie, gives its children to init and wakes the parent;
    [wait] frees the first zombie child and everything it owned. *)

From stdpp Require Import base list list_numbers numbers gmap strings.
From Stdlib Require Import ZArith Lia.
From S2P Require Import Prelude Mem CString KState Sched Kalloc Vm Paging Addrspace Process.

(** ** exit *)

(** The parent of an orphan is init. *)
Definition adopt (me : nat) (init : option nat) (p : proc) : proc :=
  if bool_decide (p_parent p = Some me) then set_p_parent init p else p.
Definition zombie_child (me : nat) (p : proc) : bool := bool_decide (p_parent p = Some me) && bool_decide (p_state p = ZOMBIE).
Definition wake_if (b : bool) (c : option chan) (p : proc) : proc := if b then wake_one c p else p.

Lemma wake_adopt b c me init p : adopt me init (wake_if b c p) = wake_if b c (adopt me init p).
Proof.
  unfold wake_if. destruct b; [|done]. unfold wake_one, adopt.
  repeat (case_bool_decide; cbn in *; try done); by destruct p.
Qed.

Lemma zombie_wake b c me p : zombie_child me (wake_if b c p) = zombie_child me p.
Proof.
  unfold wake_if. destruct b; [|done]. unfold wake_one, zombie_child.
  destruct (bool_decide (p_state p = SLEEPING)) eqn:E; [|done]. apply bool_decide_eq_true in E. cbn.
  destruct (bool_decide (p_chan p = c)); [|done]. cbn. rewrite E. by rewrite !andb_false_r.
Qed.

Lemma wake_twice b b' c p : wake_if b c (wake_if b' c p) = wake_if (b || b') c p.
Proof. unfold wake_if. destruct b, b'; cbn; try done. apply wake_one_idem. Qed.

Lemma existsb_drop (f : proc -> bool) tbl i p : tbl !! i = Some p ->
  existsb f (drop i tbl) = (f p || existsb f (drop (S i) tbl))%bool.
Proof. intros H. by rewrite (drop_S _ _ _ H). Qed.

Lemma exit_child_step me init i s p : k_initproc s = init -> k_ptable s !! i = Some p ->
  (if bool_decide (p_parent p = Some me) then
     upd_proc i (set_p_parent init) ;;
     if bool_decide (p_state p = ZOMBIE) then wakeup1 (C_proc <$> init) else mret tt
   else mret tt : K unit) s =
  Ret tt (set_k_ptable (map (wake_if (zombie_child me p) (C_proc <$> init)) (<[i := adopt me init p]> (k_ptable s))) s).
Proof.
  intros Hi Hp. unfold adopt, zombie_child. assert (Hid : forall t : list proc, map (wake_if false (C_proc <$> init)) t = t) by (intros; apply map_id).
  case_bool_decide as E; cbn [andb].
  - kstep (upd_proc_Ret i (set_p_parent init) s p Hp). case_bool_decide; [|by rewrite Hid]. unfold wakeup1. rewrite modify_run. ksimp. by destruct s.
  - rewrite Hid, list_insert_id by done. by destruct s.
Qed.

Lemma exit_children_run me init n : forall i s, k_initproc s = init -> length (k_ptable s) = (i + n)%nat ->
  exists T, exit_children me i n s = Ret tt (set_k_ptable T s) /\ length T = length (k_ptable s) /\
    forall j p, k_ptable s !! j = Some p -> T !! j = Some
      (wake_if (existsb (zombie_child me) (drop i (k_ptable s))) (C_proc <$> init) (if decide (i <= j)%nat then adopt me init p else p)).
Proof.
  induction n as [|n IH]; intros i s Hi Hl; cbn [exit_children].
  { exists (k_ptable s). split; [by destruct s|]. split; [done|]. intros j p Hj. pose proof (lookup_lt_Some _ _ _ Hj).
    rewrite drop_ge by lia. by rewrite decide_False by lia. }
  destruct (lookup_lt_is_Some_2 (k_ptable s) i) as [p Hp]; [lia|]. kstep (get_proc_Ret i s p Hp). kgets. rewrite Hi.
  kstep (exit_child_step me init i s p Hi Hp). set (z := zombie_child me p). set (tbl := map _ _).
  assert (Htl : forall j q, k_ptable s !! j = Some q -> tbl !! j = Some (wake_if z (C_proc <$> init) (if decide (j = i) then adopt me init q else q))).
  { intros j q Hq. unfold tbl. rewrite list_lookup_fmap. destruct (decide (j = i)) as [->|Hne].
    - rewrite list_lookup_insert_eq by lia. by simplify_eq.
    - by rewrite list_lookup_insert_ne, Hq by done. }
  assert (Hlen : length tbl = length (k_ptable s)) by (unfold tbl; by rewrite length_map, length_insert).
  destruct (IH (S i) (set_k_ptable tbl s)) as (T & R & HT & HTl); [done|ksimp; lia|]. ksimp in HTl. ksimp in HT. exists T.
  split; [rewrite R; by destruct s|]. split; [lia|]. intros j q Hq. rewrite (HTl j _ (Htl j q Hq)). f_equal.
  assert (Ee : existsb (zombie_child me) (drop (S i) tbl) = existsb (zombie_child me) (drop (S i) (k_ptable s))).
  { assert (Hd : drop (S i) tbl = map (wake_if z (C_proc <$> init)) (drop (S i) (k_ptable s))).
    { unfold tbl. rewrite skipn_map. f_equal. apply drop_insert_lt. lia. }
    rewrite Hd. generalize (drop (S i) (k_ptable s)). intros t. induction t as [|x t IHt]; [done|]. cbn. by rewrite zombie_wake, IHt. }
  rewrite Ee, (existsb_drop _ _ _ _ Hp). fold z. rewrite orb_comm, <- wake_twice. f_equal.
  repeat case_decide; subst; try lia; try done. by rewrite wake_adopt.
Qed.

(** What [exit] makes of the entry of another process. *)
Definition after_exit (tbl : list proc) (me : nat) (parent init : option nat) (r : proc) : proc :=
  wake_if (existsb (zombie_child me) tbl) (C_proc <$> init) (adopt me init (wake_one (C_proc <$> parent) r)).

Lemma exit_finish_run me init s p : k_held s = [] -> k_proc s = Some me -> k_initproc s = init -> length (k_ptable s) = NPROC ->
  k_ptable s !! me = Some p -> p_state p = RUNNING -> p_parent p <> Some me ->
  exists s', exit_finish me s = Stop Switch s' /\ k_held s' = [L_ptable] /\ k_mem s' = k_mem s /\ k_freelist s' = k_freelist s /\
    length (k_ptable s') = NPROC /\ k_ptable s' !! me = Some (set_p_state ZOMBIE p) /\
    forall j r, j <> me -> k_ptable s !! j = Some r -> k_ptable s' !! j = Some (after_exit (k_ptable s) me (p_parent p) init r).
Proof.
  intros Hh Hme Hi Hl Hp Hst Hpar. unfold exit_finish. rewrite (bind_Ret _ _ _ _ _ (acquire_free L_ptable s ltac:(rewrite Hh; apply not_elem_of_nil))).
  set (s1 := set_k_held _ s). kstep (get_proc_Ret me s1 p Hp). unfold wakeup1 at 1. kmod.
  set (w := wake_one (C_proc <$> p_parent p)). set (s2 := set_k_ptable _ s1).
  assert (Hl2 : length (k_ptable s2) = (0 + NPROC)%nat) by (unfold s2; ksimp; rewrite length_map; apply Hl).
  destruct (exit_children_run me init NPROC 0 s2 Hi Hl2) as (T & R & HT & HTl). kstep R. rewrite drop_0 in HTl.
  assert (Ew : w p = p) by (unfold w, wake_one; rewrite bool_decide_false by congruence; done).
  assert (Eb : existsb (zombie_child me) (k_ptable s2) = existsb (zombie_child me) (k_ptable s)).
  { unfold s2. ksimp. unfold s1. ksimp. generalize (k_ptable s). intros t. induction t as [|x t IH]; [done|]. cbn.
    unfold w at 1. change (wake_one ?c x) with (wake_if true c x). by rewrite zombie_wake, IH. }
  assert (HTl' : forall j r, k_ptable s !! j = Some r -> T !! j = Some (after_exit (k_ptable s) me (p_parent p) init r)).
  { intros j r Hr. rewrite (HTl j (w r)); [by rewrite Eb|]. unfold s2, s1. ksimp. by rewrite list_lookup_fmap, Hr. }
  assert (Ep : after_exit (k_ptable s) me (p_parent p) init p = p).
  { unfold after_exit. fold w. rewrite Ew. unfold adopt. rewrite bool_decide_false by done. unfold wake_if. case_match; [|done].
    unfold wake_one. rewrite bool_decide_false by congruence. done. }
  pose proof (HTl' me p Hp) as HTm. rewrite Ep in HTm. set (s3 := set_k_ptable T s2). kstep (upd_proc_Ret me (set_p_state ZOMBIE) s3 p HTm).
  set (s4 := set_k_ptable _ s3). assert (Hmlt : (me < length T)%nat) by (by eapply lookup_lt_Some).
  assert (Hsch : sched s4 = Stop Switch s4).
  { unfold sched. rewrite bind_run. unfold getst. cbv beta. unfold holding, s4, s3, s2, s1. ksimp. rewrite Hh.
    rewrite !bool_decide_true by (done || left). cbn [negb]. rewrite bind_run, (myproc_Ret _ me) by done.
    rewrite bind_run, (get_proc_Ret _ _ (set_p_state ZOMBIE p)) by (ksimp; by rewrite list_lookup_insert_eq). ksimp. by rewrite bool_decide_false. }
  rewrite (bind_Stop _ _ _ _ _ Hsch). exists s4. split; [done|]. unfold s4, s3, s2, s1. ksimp. rewrite Hh. do 3 (split; [done|]).
  split; [rewrite length_insert; rewrite HT; unfold s2; ksimp; by rewrite length_map|]. split; [by apply list_lookup_insert_eq|].
  intros j r Hj Hr. rewrite list_lookup_insert_ne by done. by apply HTl'.
Qed.

(** The end of [exit]: the process becomes a zombie that keeps its pid,
    memory and stack for [wait]; its parent, if it sleeps in [wait], becomes
    runnable; its children get init as their parent, and init becomes runnable
    if it sleeps in [wait] and one of them is a zombie; no other process
    changes.  The run ends in the scheduler with only [ptable.lock] held. *)
Theorem exit_wakes_parent me init parent s p :
  k_held s = [] -> k_proc s = Some me -> k_initproc s = Some init -> length (k_ptable s) = NPROC ->
  k_ptable s !! me = Some p -> p_state p = RUNNING -> p_parent p = Some parent -> parent <> me ->
  exists s', exit_finish me s = Stop Switch s' /\ k_held s' = [L_ptable] /\ k_ptable s' !! me = Some (set_p_state ZOMBIE p) /\
    forall j r, j <> me -> k_ptable s !! j = Some r -> exists r', k_ptable s' !! j = Some r' /\
      p_parent r' = (if decide (p_parent r = Some me) then Some init else p_parent r) /\
      (p_state r = SLEEPING -> p_chan r = Some (C_proc parent) -> p_state r' = RUNNABLE) /\
      (p_state r = SLEEPING -> p_chan r = Some (C_proc init) -> existsb (zombie_child me) (k_ptable s) = true -> p_state r' = RUNNABLE) /\
      (p_state r <> SLEEPING -> p_state r' = p_state r) /\ p_pid r' = p_pid r /\ p_pgdir r' = p_pgdir r.
Proof.
  intros Hh Hme Hi Hl Hp Hst Hpar Hne.
  destruct (exit_finish_run me (Some init) s p Hh Hme Hi Hl Hp Hst ltac:(congruence)) as (s' & R & Hh' & _ & _ & _ & Hz & Ho).
  exists s'. do 3 (split; [done|]). intros j r Hj Hr. eexists. split; [by apply Ho|]. rewrite Hpar. unfold after_exit.
  set (b := existsb _ _). unfold adopt, wake_if, wake_one. clearbody b. cbn [fmap option_fmap option_map].
  repeat (case_bool_decide || case_decide || destruct b; cbn [andb p_state p_parent p_chan p_pid p_pgdir set_p_state set_p_parent] in *; subst; try congruence);
    repeat split; intros; try done; try congruence.
Qed.

(** A parent that sleeps in [wait], and its running child. *)
Definition a_child : proc := set_p_parent (Some 1%nat) (set_p_state RUNNING (set_p_pid 5 proc0)).
Definition a_parent : proc := set_p_chan (Some (C_proc 1)) (set_p_state SLEEPING (set_p_pid 4 proc0)).
Definition family : kstate :=
  set_k_initproc (Some 1%nat) (set_k_proc (Some 0%nat) (set_k_ptable (a_child :: a_parent :: replicate 62 proc0) (kzero ∅ (mkDisk 0 ∅ [])))).

Lemma exit_wakes_parent_witness : exists s' r, exit_finish 0 family = Stop Switch s' /\ k_ptable s' !! 1%nat = Some r /\ p_state r = RUNNABLE.
Proof.
  destruct (exit_wakes_parent 0 1 1 family a_child) as (s' & R & _ & _ & H); try reflexivity; [done|].
  destruct (H 1%nat a_parent) as (r & Hr & _ & Hs & _); [done|reflexivity|]. exists s', r. split; [exact R|]. split; [exact Hr|]. by apply Hs.
Defined.

(** ** wait *)

Lemma wait_scan_none end_ me n : forall i hk s, length (k_ptable s) = (i + n)%nat -> existsb (zombie_child me) (drop i (k_ptable s)) = false ->
  wait_scan end_ me i n hk s =
  Ret (inr (hk || existsb (fun p => bool_decide (p_parent p = Some me)) (drop i (k_ptable s)))%bool) s.
Proof.
  induction n as [|n IH]; intros i hk s Hl Hz; cbn [wait_scan].
  { rewrite drop_ge by lia. cbn. by rewrite orb_false_r. }
  destruct (lookup_lt_is_Some_2 (k_ptable s) i) as [p Hp]; [lia|]. kstep (get_proc_Ret i s p Hp).
  rewrite (existsb_drop _ _ _ _ Hp) in Hz. apply orb_false_iff in Hz as [Hzp Hz]. rewrite (existsb_drop _ _ _ _ Hp).
  unfold zombie_child in Hzp. destruct (bool_decide (p_parent p = Some me)); cbn [negb andb orb] in *; rewrite ?Hzp, IH by (done || lia); [|done].
  by rewrite orb_true_r.
Qed.

(** The entry [wait] frees. *)
Definition reaped (z : proc) : proc :=
  set_p_killed 0 (set_p_name (<[0%nat := 0]> (p_name z)) (set_p_parent None (set_p_pid 0 (set_p_state UNUSED (set_p_kstack 0 z))))).

Section wait.
Context (end_ : Z) (me : nat) (s : kstate) (l : list Z) (i : nat) (z : proc) (tabs : gmap Z Z).
Context (Hend : KERNBASE < end_) (Hh : k_held s = [L_ptable]).
Context (Hz : k_ptable s !! i = Some z) (Hzc : zombie_child me z = true).
Context (Ha : aspace end_ s l (p_pgdir z) tabs).
Context (Hks : page_ok end_ (p_kstack z)) (Hksl : p_kstack z ∉ l) (Hksp : ~ part_of s (p_pgdir z) tabs (p_kstack z)).

(** Freeing the stack and the memory of the zombie. *)
Lemma wait_frees : exists s1 s2 l', kfree end_ (p_kstack z) s = Ret tt s1 /\
  freevm end_ (p_pgdir z) (set_k_ptable (<[i := set_p_kstack 0 z]> (k_ptable s)) s1) = Ret tt s2 /\
  vframe s s1 /\ vframe (set_k_ptable (<[i := set_p_kstack 0 z]> (k_ptable s)) s1) s2 /\ kmem_ok end_ s2 l' /\
  forall v, v ∈ l' <-> v ∈ l \/ v = p_kstack z \/ part_of s (p_pgdir z) tabs v.
Proof using Hend Ha Hks Hksl Hksp.
  pose proof (as_space _ _ _ _ _ Ha) as Hs.
  destruct (kfree_page end_ s l (p_kstack z) (sp_kmem _ _ _ _ _ Hs) (sp_mem _ _ _ _ _ Hs) Hks Hksl) as (s1 & R1 & K1 & O1).
  set (s1' := set_k_ptable (<[i := set_p_kstack 0 z]> (k_ptable s)) s1). assert (K1' : kmem_ok end_ s1' (p_kstack z :: l)) by (destruct K1; by split).
  destruct (aspace_ext end_ s l (p_pgdir z) tabs s1' (p_kstack z :: l) Ha K1') as (A1 & M1 & _); [by apply O1| | |].
  { intros v [->|?]%elem_of_cons; auto. }
  { intros v x Hv Hx. destruct (part_of_page end_ s l _ tabs v Ha Hv) as [Hpv _]. unfold s1'. ksimp.
    apply (page_only_keeps end_ (p_kstack z) v); try done. by intros <-. }
  destruct (freevm_run end_ Hend s1' _ _ tabs A1) as (s2 & l' & R2 & K2 & _ & F2 & L2 & _).
  exists s1, s2, l'. split; [done|]. split; [done|]. split; [by apply O1|]. split; [done|]. split; [done|].
  intros v. rewrite L2, elem_of_cons. unfold part_of. setoid_rewrite M1. naive_solver.
Qed.

Lemma wait_scan_reaps n : forall j hk, (j + n = i)%nat -> existsb (zombie_child me) (take n (drop j (k_ptable s))) = false ->
  forall m, wait_scan end_ me j (n + S m) hk s = wait_scan end_ me i (S m) (hk || existsb (fun p => bool_decide (p_parent p = Some me)) (take n (drop j (k_ptable s))))%bool s.
Proof using Hz.
  induction n as [|n IH]; intros j hk Hj Hn m.
  { rewrite take_0. cbn [existsb]. rewrite orb_false_r, Nat.add_0_l. by replace j with i by lia. }
  pose proof (lookup_lt_Some _ _ _ Hz). destruct (lookup_lt_is_Some_2 (k_ptable s) j) as [p Hp]; [lia|].
  cbn [Nat.add wait_scan]. kstep (get_proc_Ret j s p Hp). rewrite (drop_S _ _ _ Hp) in Hn |- *. cbn [take existsb] in *.
  apply orb_false_iff in Hn as [Hzp Hn]. unfold zombie_child in Hzp.
  destruct (bool_decide (p_parent p = Some me)); cbn [negb andb orb] in *; rewrite ?Hzp, IH by (done || lia); [|done].
  by rewrite orb_true_r.
Qed.

End wait.

Lemma vframe_ptable s s' : vframe s s' -> k_ptable s' = k_ptable s.
Proof. intros E. by rewrite E. Qed.

(** The last steps of [wait] on the entry of the child. *)
Lemma wait_clears i z s (pid : Z) : k_held s = [L_ptable] -> k_ptable s !! i = Some (set_p_kstack 0 z) ->
  (upd_proc i (set_p_state UNUSED) ;; upd_proc i (set_p_pid 0) ;; upd_proc i (set_p_parent None) ;;
   upd_proc i (fun p => set_p_name (<[0%nat := 0]> (p_name p)) p) ;; upd_proc i (set_p_killed 0) ;; release L_ptable ;;
   mret (inl pid) : K (Z + bool)) s =
  Ret (inl pid) (set_k_held [] (set_k_ptable (<[i := reaped z]> (k_ptable s)) s)).
Proof.
  intros Hh Hz. pose proof (lookup_lt_Some _ _ _ Hz) as Hlt.
  kstep (upd_proc_Ret i (set_p_state UNUSED) s _ Hz).
  do 4 (rewrite bind_run; erewrite upd_proc_Ret by (ksimp; apply list_lookup_insert_eq; rewrite ?length_insert; exact Hlt); cbn beta iota; ksimp; rewrite ?list_insert_insert_eq).
  rewrite bind_run, (release_held L_ptable _ []) by (ksimp; (done || apply not_elem_of_nil)). reflexivity.
Qed.

(** One zombie child, found first. *)
Lemma wait_one end_ me s l i z tabs m hk : KERNBASE < end_ -> k_held s = [L_ptable] -> k_ptable s !! i = Some z -> zombie_child me z = true ->
  aspace end_ s l (p_pgdir z) tabs ->
  page_ok end_ (p_kstack z) -> (p_kstack z ∉ l) -> ~ part_of s (p_pgdir z) tabs (p_kstack z) ->
  exists s' l', wait_scan end_ me i (S m) hk s = Ret (inl (p_pid z)) s' /\ k_held s' = [] /\
    k_ptable s' = <[i := reaped z]> (k_ptable s) /\ kmem_ok end_ s' l' /\
    forall v, v ∈ l' <-> v ∈ l \/ v = p_kstack z \/ part_of s (p_pgdir z) tabs v.
Proof.
  intros Hend Hh Hz Hzc Ha Hks Hksl Hksp. pose proof (lookup_lt_Some _ _ _ Hz) as Hlt.
  destruct (wait_frees end_ s l i z tabs Hend Ha Hks Hksl Hksp) as (s1 & s2 & l' & R1 & R2 & F1 & F2 & K & L).
  pose proof (vframe_ptable _ _ F1) as Ep1. pose proof (vframe_held _ _ F2) as Eh2. ksimp in Eh2. rewrite (vframe_held _ _ F1), Hh in Eh2.
  pose proof (vframe_ptable _ _ F2) as Ep2. ksimp in Ep2.
  assert (Hz1 : k_ptable s1 !! i = Some z) by (by rewrite Ep1).
  assert (Hz2 : k_ptable s2 !! i = Some (set_p_kstack 0 z)) by (rewrite Ep2; by apply list_lookup_insert_eq).
  cbn [wait_scan]. kstep (get_proc_Ret i s z Hz). apply andb_true_iff in Hzc as [Hc1 Hc2]. rewrite Hc1, Hc2. cbn [negb].
  kstep R1. kstep (upd_proc_Ret i (set_p_kstack 0) s1 z Hz1). rewrite Ep1. kstep R2. rewrite (wait_clears i z s2) by done.
  eexists _, l'. split; [done|]. ksimp. split; [done|]. split; [by rewrite Ep2, list_insert_insert_eq|]. split; [destruct K; split; [done|done|apply not_elem_of_nil]|]. exact L.
Qed.

(** C28: [wait] with a zombie child: it returns the pid of the first one, its
    entry of the table becomes free, and the kernel stack, the user pages, the
    page tables and the directory of the child are on the free list again, and
    nothing else; [ptable.lock] is released and no other entry changes. *)
Theorem wait_reaps_zombie end_ me s l i z tabs :
  KERNBASE < end_ -> k_held s = [] -> k_proc s = Some me -> length (k_ptable s) = NPROC ->
  k_ptable s !! i = Some z -> zombie_child me z = true -> existsb (zombie_child me) (take i (k_ptable s)) = false ->
  aspace end_ s l (p_pgdir z) tabs ->
  page_ok end_ (p_kstack z) -> (p_kstack z ∉ l) -> ~ part_of s (p_pgdir z) tabs (p_kstack z) ->
  exists s' l', wait end_ s = Ret (p_pid z) s' /\ k_held s' = [] /\
    k_ptable s' = <[i := reaped z]> (k_ptable s) /\ kmem_ok end_ s' l' /\
    forall v, v ∈ l' <-> v ∈ l \/ v = p_kstack z \/ part_of s (p_pgdir z) tabs v.
Proof.
  intros Hend Hh Hme Hl Hz Hzc Hf Ha Hks Hksl Hksp. pose proof (lookup_lt_Some _ _ _ Hz) as Hlt.
  unfold wait, wait_loop. rewrite bind_run, acquire_free by (rewrite Hh; apply not_elem_of_nil). rewrite Hh. set (s0 := set_k_held [L_ptable] s).
  pose proof (as_space _ _ _ _ _ Ha) as Hs. assert (K0 : kmem_ok end_ s0 l).
  { destruct (sp_kmem _ _ _ _ _ Hs) as [K1 K2 _]. split; [done|done|]. unfold s0. ksimp. by intros ?%list_elem_of_singleton. }
  destruct (aspace_ext end_ s l (p_pgdir z) tabs s0 l Ha K0 (sp_mem _ _ _ _ _ Hs)) as (Ha0 & _ & _); [auto|done|].
  kstep (myproc_Ret s0 me Hme). replace NPROC with (i + S (NPROC - S i))%nat by (rewrite Hl in Hlt; lia).
  rewrite bind_run, (wait_scan_reaps end_ me s0 i z Hz i 0 false) by done.
  set (hk := (false || _)%bool).
  destruct (wait_one end_ me s0 l i z tabs (NPROC - S i) hk Hend eq_refl Hz Hzc Ha0 Hks Hksl Hksp) as (s' & l' & R & H).
  rewrite R. exists s', l'. by split.
Qed.

(** A zombie child with an empty address space, in the second entry. *)
Definition a_zombie : proc :=
  set_p_kstack 0x80120000 (set_p_pgdir vdir (set_p_parent (Some 0%nat) (set_p_state ZOMBIE (set_p_pid 7 proc0)))).

Lemma wait_reaps_zombie_witness : exists s s' l', wait kend s = Ret 7 s' /\ kmem_ok kend s' l' /\ (0x80120000 ∈ l') /\ vdir ∈ l'.
Proof.
  destruct vm_state as (s0 & Ha0 & Hm). pose proof (as_space _ _ _ _ _ Ha0) as Hs. destruct (sp_kmem _ _ _ _ _ Hs) as [K1 K2 _].
  set (s := set_k_held [] (set_k_proc (Some 0%nat) (set_k_ptable (proc0 :: a_zombie :: replicate 62 proc0) s0))).
  assert (K : kmem_ok kend s vpages) by (split; [exact K1|exact K2|apply not_elem_of_nil]).
  destruct (aspace_ext kend s0 vpages vdir ∅ s vpages Ha0 K (sp_mem _ _ _ _ _ Hs)) as (Ha & _ & _); [auto|done|].
  assert (Hnp : ~ part_of s vdir ∅ 0x80120000).
  { intros [[=]|[(i & H)|(va & e & _ & H & _)]]; [by rewrite lookup_empty in H|]. change (k_mem s) with (k_mem s0) in H. by rewrite Hm in H. }
  destruct (wait_reaps_zombie kend 0 s vpages 1 a_zombie ∅) as (s' & l' & R & _ & _ & Hk & Hl); try reflexivity; try done.
  - change (p_kstack a_zombie) with 0x80120000. unfold vpages. rewrite !elem_of_cons, elem_of_nil. naive_solver.
  - exists s, s', l'. split; [exact R|]. split; [done|]. split; apply Hl; [right; by left|right; right; by left].
Defined.
