(* ===== verification/Fork.v ===== *)
(** * fork: src/xv6/proc.c

    [fork] from the system call on: the entry of the table, the kernel stack, the
    copy of the memory ([Addrspace]), the open files and the directory.  It makes
    a child that differs from its parent in [eax] only, or it fails and leaves
    the parent, its memory and its files as they were. *)

From stdpp Require Import base list list_numbers numbers gmap strings.
From Stdlib Require Import ZArith Lia.
From S2P Require Import Prelude Mem CString KState Sched Kalloc Inode Vm File Exec Process Paging Addrspace.

(** The parts of the state that [fork] changes. *)
Definition fstate (s : kstate) (tbl : list proc) (npid : Z) (m : mem) (fl : Z) (ft : list file) (ic : list inode) : kstate :=
  set_k_icache ic (set_k_ftable ft (set_k_nextpid npid (set_k_ptable tbl (set_k_mem m (set_k_freelist fl s))))).
Lemma fstate_id s : fstate s (k_ptable s) (k_nextpid s) (k_mem s) (k_freelist s) (k_ftable s) (k_icache s) = s.
Proof. by destruct s. Qed.
Lemma fstate_vframe s tbl npid m fl ft ic s' : vframe (fstate s tbl npid m fl ft ic) s' -> s' = fstate s tbl npid (k_mem s') (k_freelist s') ft ic.
Proof. intros E. unfold vframe in E. rewrite E at 1. done. Qed.

Lemma held_back x h : k_held x = [] -> set_k_held [] (set_k_held h x) = x.
Proof. destruct x. cbn. by intros ->. Qed.

(** ** The table *)

Definition unused (p : proc) : Prop := p_state p = UNUSED.
#[global] Instance unused_dec p : Decision (unused p) := decide (p_state p = UNUSED).

Lemma allocproc_loop_run n : forall i s, length (k_ptable s) = (i + n)%nat ->
  allocproc_loop i n s = Ret (match list_find unused (drop i (k_ptable s)) with Some (j, _) => Some (i + j)%nat | None => None end) s.
Proof.
  induction n as [|n IH]; intros i s Hl; cbn [allocproc_loop].
  - by rewrite drop_ge by lia.
  - destruct (lookup_lt_is_Some_2 (k_ptable s) i) as [p Hp]; [lia|]. kstep (get_proc_Ret i s p Hp). rewrite (drop_S _ _ _ Hp). cbn [list_find]. unfold unused at 1.
    case_bool_decide as Hu; [rewrite decide_True by done; by rewrite Nat.add_0_r|]. rewrite decide_False by done. rewrite IH by lia.
    destruct (list_find unused (drop (S i) (k_ptable s))) as [[j q]|]; cbn; [|done]. do 2 f_equal. lia.
Qed.

(** ** Files and directory *)

Lemma filedup_run i f x : k_held x = [] -> k_ftable x !! i = Some f -> 1 <= f_ref f ->
  filedup i x = Ret i (set_k_ftable (<[i := set_f_ref (s32 (f_ref f + 1)) f]> (k_ftable x)) x).
Proof.
  intros Hh Hf Hr. unfold filedup. rewrite bind_run, acquire_free by (rewrite Hh; apply not_elem_of_nil). rewrite Hh.
  kstep (get_file_Ret i (set_k_held [L_ftable] x) f Hf). rewrite (proj2 (Z.ltb_ge _ _)) by done.
  kstep (upd_file_Ret i (set_f_ref (s32 (f_ref f + 1))) (set_k_held [L_ftable] x) f Hf).
  rewrite bind_run, (release_held L_ftable _ []) by (done || apply not_elem_of_nil). cbn beta iota. unfold mret. f_equal. destruct x; cbn in *. by subst.
Qed.
Lemma idup_run i v x : k_held x = [] -> k_icache x !! i = Some v ->
  idup i x = Ret i (set_k_icache (<[i := set_i_ref (s32 (i_ref v + 1)) v]> (k_icache x)) x).
Proof.
  intros Hh Hv. unfold idup. rewrite bind_run, acquire_free by (rewrite Hh; apply not_elem_of_nil). rewrite Hh.
  kstep (upd_inode_Ret i (fun v => set_i_ref (s32 (i_ref v + 1)) v) (set_k_held [L_icache] x) v Hv).
  rewrite bind_run, (release_held L_icache _ []) by (done || apply not_elem_of_nil). cbn beta iota. unfold mret. f_equal. destruct x; cbn in *. by subst.
Qed.

(** How many descriptors refer to the file. *)
Definition uses (f : nat) (ofile : list (option nat)) : Z := Z.of_nat (length (filter (fun o => o = Some f) ofile)).
Lemma uses_cons f o ofile : uses f (o :: ofile) = (if decide (o = Some f) then 1 else 0) + uses f ofile.
Proof. unfold uses. rewrite filter_cons. destruct (decide _); cbn [length]; lia. Qed.

(** Every open file is in the table, with a count that can grow. *)
Definition files_ok (ofile : list (option nat)) (ft : list file) : Prop :=
  forall f, Some f ∈ ofile -> exists v, ft !! f = Some v /\ 1 <= f_ref v /\ f_ref v + Z.of_nat (length ofile) < 2 ^ 31.
Definition refs_added (ofile : list (option nat)) (ft ft' : list file) : Prop :=
  forall f v, ft !! f = Some v -> ft' !! f = Some (set_f_ref (f_ref v + uses f ofile) v).

Lemma set_f_ref_same v : set_f_ref (f_ref v + 0) v = v.
Proof. rewrite Z.add_0_r. by destruct v. Qed.

Lemma fork_files_run np rest : forall pre x c, k_held x = [] -> k_ptable x !! np = Some c -> p_ofile c = pre ++ replicate (length rest) None -> files_ok rest (k_ftable x) ->
  exists ft, fork_files np (length pre) rest x = Ret tt (set_k_ftable ft (set_k_ptable (<[np := set_p_ofile (pre ++ rest) c]> (k_ptable x)) x)) /\
    refs_added rest (k_ftable x) ft /\ length ft = length (k_ftable x).
Proof.
  induction rest as [|o rest IH]; intros pre x c Hh Hc Ho Hok; cbn [fork_files].
  - exists (k_ftable x). split; [|split; [|done]].
    + rewrite app_nil_r in Ho |- *. unfold mret. f_equal. rewrite list_insert_id; [by destruct x|]. rewrite Hc. f_equal. rewrite <- Ho. by destruct c.
    + intros f v Hv. by rewrite Hv, set_f_ref_same.
  - pose proof (lookup_lt_Some _ _ _ Hc) as Hlt. cbn [length replicate] in Ho. destruct o as [f|].
    + destruct (Hok f ltac:(left)) as (v & Hv & Hr1 & Hr2). rewrite bind_assoc. kstep (filedup_run f v x Hh Hv Hr1).
      set (ft1 := <[f := _]> (k_ftable x)). rewrite bind_run. erewrite upd_proc_Ret by (ksimp; exact Hc). cbn beta iota. ksimp.
      set (c1 := set_p_ofile (<[length pre := Some f]> (p_ofile c)) c). set (x1 := set_k_ptable _ _).
      assert (Hc1 : p_ofile c1 = (pre ++ [Some f]) ++ replicate (length rest) None).
      { unfold c1. cbn. rewrite Ho, insert_app_r_alt, Nat.sub_diag by lia. cbn. by rewrite <- app_assoc. }
      destruct (IH (pre ++ [Some f]) x1 c1) as (ft & R & Hadd & Hlen); [done|by apply list_lookup_insert_eq|done| |].
      { intros g Hg. destruct (Hok g ltac:(by right)) as (w & Hw & Hg1 & Hg2). cbn [length] in *. unfold x1. ksimp. unfold ft1.
        destruct (decide (g = f)) as [->|Hne].
        - rewrite Hw in Hv. injection Hv as ->. eexists. rewrite list_lookup_insert_eq by (by eapply lookup_lt_Some). split; [done|]. cbn. rewrite s32_small by lia. lia.
        - exists w. rewrite list_lookup_insert_ne by done. split; [done|]. lia. }
      exists ft. rewrite length_app in R. cbn [length] in R. rewrite Nat.add_1_r in R. split; [|split].
      * rewrite R. unfold x1. ksimp. rewrite <- app_assoc, list_insert_insert_eq. reflexivity.
      * intros g w Hw. rewrite uses_cons. unfold x1 in Hadd. ksimp in Hadd. unfold ft1 in Hadd. cbn [length] in Hr2.
        destruct (decide (Some f = Some g)) as [[= <-]|Hne].
        -- rewrite Hw in Hv. injection Hv as ->. erewrite Hadd by (apply list_lookup_insert_eq; by eapply lookup_lt_Some). rewrite Z.add_assoc, (s32_small (f_ref v + 1)) by lia. reflexivity.
        -- rewrite (Hadd g w); [done|]. rewrite list_lookup_insert_ne by congruence. done.
      * rewrite Hlen. unfold x1, ft1. ksimp. by rewrite length_insert.
    + rewrite ret_bind. destruct (IH (pre ++ [None]) x c) as (ft & R & Hadd & Hlen); [done|done|by rewrite <- app_assoc| |].
      { intros g Hg. destruct (Hok g ltac:(by right)) as (w & Hw & Hg1 & Hg2). cbn [length] in *. exists w. split; [done|]. lia. }
      exists ft. rewrite length_app in R. cbn [length] in R. rewrite Nat.add_1_r in R. rewrite <- app_assoc in R. split; [exact R|]. split; [|done].
      intros g w Hw. rewrite uses_cons, decide_False by done. by apply Hadd.
Qed.

(** The end of [fork], when the memory is copied. *)
Definition fork_finish (np me : nat) (p : proc) : K Z :=
  upd_proc np (set_p_sz (p_sz p)) ;;
  upd_proc np (set_p_parent (Some me)) ;;
  upd_proc np (set_p_tf (set_tf_eax 0 (p_tf p))) ;;
  fork_files np 0 (p_ofile p) ;;
  cwd ← deref (p_cwd p);
  cwd ← idup cwd;
  upd_proc np (set_p_cwd (Some cwd)) ;;
  upd_proc np (fun q => set_p_name (safestrcpy_ 16 (p_name q) (p_name p)) q) ;;
  q ← get_proc np;
  acquire L_ptable ;;
  upd_proc np (set_p_state RUNNABLE) ;;
  release L_ptable ;;
  mret (p_pid q).

(** The child, from its entry [c] with the stack and the memory. *)
Definition child (me : nat) (p c : proc) : proc :=
  mkProc (p_sz p) (p_pgdir c) (p_kstack c) RUNNABLE (p_pid c) (Some me) (set_tf_eax 0 (p_tf p)) (p_context c) (p_chan c) (p_killed c)
    (p_ofile p) (p_cwd p) (safestrcpy_ 16 (p_name c) (p_name p)).

Lemma fork_finish_run np me p x c cwd v :
  k_held x = [] -> k_ptable x !! np = Some c -> length (p_ofile p) = NOFILE -> p_ofile c = replicate NOFILE None -> files_ok (p_ofile p) (k_ftable x) ->
  p_cwd p = Some cwd -> k_icache x !! cwd = Some v ->
  exists ft, fork_finish np me p x = Ret (p_pid c) (set_k_icache (<[cwd := set_i_ref (s32 (i_ref v + 1)) v]> (k_icache x)) (set_k_ftable ft (set_k_ptable (<[np := child me p c]> (k_ptable x)) x))) /\
    refs_added (p_ofile p) (k_ftable x) ft.
Proof.
  intros Hh Hc Hl Ho Hok Hcwd Hv. pose proof (lookup_lt_Some _ _ _ Hc) as Hlt. unfold fork_finish.
  kstep (upd_proc_Ret np (set_p_sz (p_sz p)) x c Hc).
  do 2 (rewrite bind_run; erewrite upd_proc_Ret by (ksimp; apply list_lookup_insert_eq; rewrite ?length_insert; done); cbn beta iota; ksimp; rewrite ?list_insert_insert_eq).
  set (c3 := set_p_tf _ _). set (x3 := set_k_ptable _ _).
  destruct (fork_files_run np (p_ofile p) [] x3 c3) as (ft & R & Hadd & _); [done|by apply list_lookup_insert_eq|by rewrite Hl|done|].
  kstep R. rewrite Hcwd. unfold deref at 1. rewrite ret_bind. rewrite app_nil_l. unfold x3. ksimp. rewrite list_insert_insert_eq. set (x4 := set_k_ftable _ _).
  kstep (idup_run cwd v x4 Hh Hv). unfold x4. ksimp.
  do 2 (rewrite bind_run; erewrite upd_proc_Ret by (ksimp; apply list_lookup_insert_eq; rewrite ?length_insert; done); cbn beta iota; ksimp; rewrite ?list_insert_insert_eq).
  rewrite bind_run; erewrite get_proc_Ret by (ksimp; apply list_lookup_insert_eq; done). cbn beta iota.
  rewrite bind_run, acquire_free by (ksimp; rewrite Hh; apply not_elem_of_nil). ksimp. rewrite Hh.
  rewrite bind_run; erewrite upd_proc_Ret by (ksimp; apply list_lookup_insert_eq; rewrite ?length_insert; done); cbn beta iota; ksimp; rewrite ?list_insert_insert_eq.
  rewrite bind_run, (release_held L_ptable _ []) by (done || apply not_elem_of_nil). cbn beta iota. exists ft. split; [|exact Hadd].
  unfold mret. f_equal. unfold child. rewrite <- Hcwd. destruct x; cbn in *. by subst.
Qed.

Section fork.
Context (end_ data_ forkret_ trapret_ : Z).
Context (Hend : KERNBASE < end_).

(** The entry after [allocproc]. *)
Definition embryo (pid ks : Z) (q : proc) : proc :=
  set_p_context (set_cx_eip forkret_ ctx0) (set_p_kstack ks (set_p_pid pid (set_p_state EMBRYO q))).

Section allocproc.
Context (s : kstate) (Hh : k_held s = []) (Hl : length (k_ptable s) = NPROC).

Lemma allocproc_full : list_find unused (k_ptable s) = None -> allocproc forkret_ trapret_ s = Ret None s.
Proof using Hh Hl.
  intros Hf. unfold allocproc. rewrite bind_run, acquire_free by (rewrite Hh; apply not_elem_of_nil). rewrite Hh.
  rewrite bind_run, allocproc_loop_run by done. rewrite drop_0. change (k_ptable (set_k_held _ s)) with (k_ptable s). rewrite Hf.
  rewrite bind_run, (release_held L_ptable _ []) by (done || apply not_elem_of_nil). by rewrite held_back.
Qed.

Context (np : nat) (q : proc) (Hf : list_find unused (k_ptable s) = Some (np, q)).

(** The entry is taken; [kalloc] comes next. *)
Definition taken : kstate :=
  fstate s (<[np := set_p_pid (k_nextpid s) (set_p_state EMBRYO q)]> (k_ptable s)) (s32 (k_nextpid s + 1)) (k_mem s) (k_freelist s) (k_ftable s) (k_icache s).
Definition allocproc_rest : K (option nat) :=
  kstack ← kalloc;
  upd_proc np (set_p_kstack kstack) ;;
  if kstack =? 0 then upd_proc np (set_p_state UNUSED) ;; mret None
  else
    let sp := u32 (kstack + KSTACKSIZE - sizeof_trapframe) in
    wr32 (u32 (sp - 4)) trapret_ ;;
    upd_proc np (set_p_context (set_cx_eip forkret_ ctx0)) ;;
    mret (Some np).
Lemma allocproc_takes : allocproc forkret_ trapret_ s = allocproc_rest taken.
Proof using Hh Hl Hf.
  pose proof (list_find_Some unused (k_ptable s) np q) as [Hfs _]. destruct (Hfs Hf) as (Hq & _ & _). pose proof (lookup_lt_Some _ _ _ Hq) as Hlt.
  unfold allocproc. rewrite bind_run, acquire_free by (rewrite Hh; apply not_elem_of_nil). rewrite Hh.
  rewrite bind_run, allocproc_loop_run by done. rewrite drop_0. change (k_ptable (set_k_held _ s)) with (k_ptable s). rewrite Hf, Nat.add_0_l.
  kstep (upd_proc_Ret np (set_p_state EMBRYO) (set_k_held [L_ptable] s) q Hq). kgets.
  rewrite bind_run; erewrite upd_proc_Ret by (ksimp; by apply list_lookup_insert_eq). cbn beta iota. kmod. ksimp.
  rewrite bind_run, (release_held L_ptable _ []) by (ksimp; (done || apply not_elem_of_nil)). fold allocproc_rest.
  f_equal. rewrite list_insert_insert_eq. unfold taken, fstate. destruct s; cbn in *. by subst.
Qed.

Lemma taken_lookup : k_ptable taken !! np = Some (set_p_pid (k_nextpid s) (set_p_state EMBRYO q)).
Proof using Hf.
  destruct (proj1 (list_find_Some unused (k_ptable s) np q) Hf) as (Hq & _ & _). apply list_lookup_insert_eq. by eapply lookup_lt_Some.
Qed.

Lemma allocproc_nomem : kmem_ok end_ s [] ->
  allocproc forkret_ trapret_ s =
    Ret None (fstate s (<[np := set_p_state UNUSED (set_p_kstack 0 (set_p_pid (k_nextpid s) (set_p_state EMBRYO q)))]> (k_ptable s)) (s32 (k_nextpid s + 1))
      (k_mem s) (k_freelist s) (k_ftable s) (k_icache s)).
Proof using Hh Hl Hf.
  intros [K1 K2 K3]. rewrite allocproc_takes. unfold allocproc_rest. assert (Hk : kmem_ok end_ taken []) by (by split). kstep (kalloc_none end_ taken Hk).
  pose proof taken_lookup as Ht. pose proof (lookup_lt_Some _ _ _ Ht) as Hlt.
  kstep (upd_proc_Ret np (set_p_kstack 0) taken _ Ht). rewrite Z.eqb_refl.
  rewrite bind_run; erewrite upd_proc_Ret by (ksimp; by apply list_lookup_insert_eq). cbn beta iota. unfold mret. f_equal.
  unfold taken, fstate. cbn. by rewrite !list_insert_insert_eq.
Qed.

(** With a page for the kernel stack: only that page has changed. *)
Record stacked (ks : Z) (l : list Z) (m : mem) (fl : Z) : Prop := {
  st_page : page_ok end_ ks /\ ks <> 0 /\ ks ∉ l;
  st_kmem : kmem_ok end_ (fstate s (<[np := embryo (k_nextpid s) ks q]> (k_ptable s)) (s32 (k_nextpid s + 1)) m fl (k_ftable s) (k_icache s)) l;
  st_mem : mem_ok m;
  st_same : forall a, a < ks \/ ks + PGSIZE <= a -> ld8 m a = ld8 (k_mem s) a;
  st_ret : ld32 m (ks + 4016) = u32 trapret_
}.
Lemma allocproc_ok ks l : kmem_ok end_ s (ks :: l) -> mem_ok (k_mem s) ->
  exists m fl, allocproc forkret_ trapret_ s =
    Ret (Some np) (fstate s (<[np := embryo (k_nextpid s) ks q]> (k_ptable s)) (s32 (k_nextpid s + 1)) m fl (k_ftable s) (k_icache s)) /\ stacked ks l m fl.
Proof using Hh Hl Hf.
  intros Hk Hm. rewrite allocproc_takes. unfold allocproc_rest. assert (Hk' : kmem_ok end_ taken (ks :: l)) by (destruct Hk; by split).
  destruct (kalloc_page end_ taken ks l Hk' Hm) as (R & Hnz & Hp & Hnin & Hk1). kstep R. set (fl := ld32 (k_mem taken) ks) in *.
  pose proof taken_lookup as Ht. pose proof (lookup_lt_Some _ _ _ Ht) as Hlt.
  rewrite bind_run; erewrite upd_proc_Ret by (ksimp; exact Ht). cbn beta iota. rewrite (proj2 (Z.eqb_neq _ _)) by done.
  assert (Ha : u32 (u32 (ks + KSTACKSIZE - sizeof_trapframe) - 4) = ks + 4016).
  { destruct Hp as (_ & _ & Hp). unfold KSTACKSIZE, sizeof_trapframe. rewrite (u32_small (ks + _ - _)) by pglia. rewrite u32_small by pglia. lia. }
  rewrite Ha. unfold wr32. kmod. set (m := st32 (k_mem taken) (ks + 4016) trapret_).
  rewrite bind_run; erewrite upd_proc_Ret by (ksimp; by apply list_lookup_insert_eq). cbn beta iota.
  exists m, fl. split.
  - unfold mret. f_equal. ksimp. unfold taken, fstate. cbn. by rewrite !list_insert_insert_eq.
  - assert (Hsame : forall a, a < ks \/ ks + PGSIZE <= a -> ld8 m a = ld8 (k_mem s) a) by (intros a Ha'; unfold m; rewrite ld8_st32_ne by pglia; done).
    split; [done| |by apply mem_ok_st32|done|apply ld32_st32_eq].
    destruct Hk1 as [K1 K2 K3]. split; [|done|done]. apply (free_list_ext end_ (k_mem s)); [|done]. intros v a Hv Ha'. symmetry. apply Hsame.
    assert (Hpv : page_ok end_ v) by (by eapply free_list_ok; [apply K1|]). destruct (pages_apart end_ ks v Hp Hpv); [by intros ->|lia|lia].
Qed.
End allocproc.

(** ** fork *)

(** The process [me] that calls [fork]: it runs, its memory is mapped up to its
    size, its files are open, and free entries of the table have no files. *)
Record can_fork (s : kstate) (l : list Z) (me : nat) (p : proc) (tabs : gmap Z Z) (cwd : nat) (v : inode) : Prop := {
  cf_held : k_held s = [];
  cf_me : k_proc s = Some me;
  cf_p : k_ptable s !! me = Some p;
  cf_live : p_state p <> UNUSED;
  cf_len : length (k_ptable s) = NPROC;
  cf_space : aspace end_ s l (p_pgdir p) tabs;
  cf_sz : 0 <= p_sz p <= KERNBASE;
  cf_map : forall va, 0 <= va < p_sz p -> mapping (k_mem s) (p_pgdir p) va <> None;
  cf_ofile : length (p_ofile p) = NOFILE;
  cf_files : files_ok (p_ofile p) (k_ftable s);
  cf_cwd : p_cwd p = Some cwd /\ k_icache s !! cwd = Some v;
  cf_unused : forall i q, k_ptable s !! i = Some q -> unused q -> p_ofile q = replicate NOFILE None
}.

(** The parent's memory is what it was. *)
Definition same_memory (s : kstate) (p : proc) (tabs : gmap Z Z) (s' : kstate) (l' : list Z) : Prop :=
  aspace end_ s' l' (p_pgdir p) tabs /\ forall va, 0 <= va < KERNBASE -> ubyte (k_mem s') (p_pgdir p) va = ubyte (k_mem s) (p_pgdir p) va.

(** A child was made in the free entry [q], at [np]. *)
Record forked (s : kstate) (me : nat) (p : proc) (tabs : gmap Z Z) (cwd : nat) (v : inode) (np : nat) (q : proc) (s' : kstate) : Prop := {
  fk_child : exists ks d l' td,
    k_ptable s' = <[np := child me p (set_p_pgdir d (embryo (k_nextpid s) ks q))]> (k_ptable s) /\
    same_memory s p tabs s' l' /\ aspace end_ s' l' d td /\
    (forall va, 0 <= va < PGROUNDUP (p_sz p) -> ubyte (k_mem s') d va = ubyte (k_mem s) (p_pgdir p) va) /\
    (forall va, PGROUNDUP (p_sz p) <= va < KERNBASE -> mapping (k_mem s') d va = None) /\
    (forall w, part_of s' d td w -> ~ part_of s' (p_pgdir p) tabs w) /\
    page_ok end_ ks /\ ~ part_of s' d td ks /\ ld32 (k_mem s') (ks + 4016) = u32 trapret_;
  fk_files : refs_added (p_ofile p) (k_ftable s) (k_ftable s');
  fk_cwd : k_icache s' = <[cwd := set_i_ref (s32 (i_ref v + 1)) v]> (k_icache s);
  fk_rest : s' = fstate s (k_ptable s') (s32 (k_nextpid s + 1)) (k_mem s') (k_freelist s') (k_ftable s') (k_icache s')
}.

(** Nothing was made; a free entry is still free. *)
Record not_forked (s : kstate) (p : proc) (tabs : gmap Z Z) (s' : kstate) : Prop := {
  nf_table : k_ptable s' = k_ptable s \/
    exists np q q', list_find unused (k_ptable s) = Some (np, q) /\ k_ptable s' = <[np := q']> (k_ptable s) /\ unused q';
  nf_memory : exists l', same_memory s p tabs s' l';
  nf_rest : s' = fstate s (k_ptable s') (k_nextpid s') (k_mem s') (k_freelist s') (k_ftable s) (k_icache s)
}.

(** The memory with the child's stack, before [copyuvm]. *)
Definition with_stack (s : kstate) (np : nat) (q : proc) (ks : Z) (m : mem) (fl : Z) : kstate :=
  fstate s (<[np := embryo (k_nextpid s) ks q]> (k_ptable s)) (s32 (k_nextpid s + 1)) m fl (k_ftable s) (k_icache s).
Lemma stack_memory s l me p tabs cwd v np q ks m fl : can_fork s (ks :: l) me p tabs cwd v -> stacked s np q ks l m fl ->
  let s1 := with_stack s np q ks m fl in
  aspace end_ s1 l (p_pgdir p) tabs /\ (forall va, mapping m (p_pgdir p) va = mapping (k_mem s) (p_pgdir p) va) /\
  forall va, 0 <= va < KERNBASE -> ubyte m (p_pgdir p) va = ubyte (k_mem s) (p_pgdir p) va.
Proof using.
  intros HC [(S1 & S1' & S1'') S2 S3 S4 S5] s1. pose proof (cf_space _ _ _ _ _ _ _ HC) as C6.
  apply (aspace_ext end_ s (ks :: l) (p_pgdir p) tabs s1 l C6 S2 S3); [by left; right|].
  intros w x Hw Hx. apply S4. destruct (part_of_page end_ s _ _ tabs w C6 Hw) as [Hw1 Hw2].
  destruct (pages_apart end_ ks w S1 Hw1); [intros ->; apply Hw2; left|lia|lia].
Qed.

Lemma forked_intro s l me p tabs cwd v np q ks m fl d s2 l2 td ft : can_fork s (ks :: l) me p tabs cwd v -> stacked s np q ks l m fl ->
  copying end_ (with_stack s np q ks m fl) l (p_pgdir p) tabs d ((p_sz p + 4095) / 4096 * 4096) s2 l2 td -> refs_added (p_ofile p) (k_ftable s) ft ->
  forked s me p tabs cwd v np q (set_k_icache (<[cwd := set_i_ref (s32 (i_ref v + 1)) v]> (k_icache s))
    (set_k_ftable ft (set_k_ptable (<[np := child me p (set_p_pgdir d (embryo (k_nextpid s) ks q))]> (k_ptable s)) s2))).
Proof using Hend.
  intros HF HS HC Hadd. destruct (stack_memory _ _ _ _ _ _ _ _ _ _ _ _ HF HS) as (A1 & A2 & A3). pose proof HC as [K1 K2 K3 K4 K5 K6 K7 K8 K9 K10].
  pose proof (fstate_vframe _ _ _ _ _ _ _ _ K7) as E2. destruct HS as [(S1 & S1' & S1'') S2 S3 S4 S5]. set (s' := set_k_icache _ _).
  assert (Htop : (p_sz p + 4095) / 4096 * 4096 <= KERNBASE).
  { destruct (cf_sz _ _ _ _ _ _ _ HF). assert ((p_sz p + 4095) / 4096 < 524289); [|pglia]. apply Z.div_lt_upper_bound; pglia. }
  split; [|done|done|unfold s'; rewrite E2 at 1; done]. exists ks, d, l2, td. rewrite PGROUNDUP_div. split; [done|]. split.
  { split; [by apply (aspace_eq end_ s2)|]. intros va Hva. change (k_mem s') with (k_mem s2). rewrite K3 by done. by apply A3. }
  split; [by apply (aspace_eq end_ s2)|]. split.
  { intros va Hva. change (k_mem s') with (k_mem s2). rewrite (proj1 (K8 va Hva)). apply A3. lia. }
  split; [done|]. split; [|split; [done|split]].
  - intros w Hw Hw'. destruct (parts_apart end_ _ l (p_pgdir p) tabs d _ s2 l2 td w A1 HC Hw') as (_ & Hn & _). by apply Hn, K5.
  - intros Hk. by apply S1'', K5.
  - change (k_mem s') with (k_mem s2). rewrite <- S5. apply ld32_ext. intros a Ha. apply (K10 ks a); [done|done|pglia].
Qed.

(** The stack is given back when the memory cannot be copied. *)
Definition fork_abandon (np : nat) : K Z :=
  q ← get_proc np;
  kfree end_ (p_kstack q) ;;
  upd_proc np (set_p_kstack 0) ;;
  upd_proc np (set_p_state UNUSED) ;;
  mret (-1).
Lemma fork_abandon_run s l me p tabs cwd v np q ks m fl s2 l2 : can_fork s (ks :: l) me p tabs cwd v -> list_find unused (k_ptable s) = Some (np, q) ->
  stacked s np q ks l m fl -> not_copied end_ (with_stack s np q ks m fl) l (p_pgdir p) tabs s2 l2 ->
  exists s', fork_abandon np (set_k_ptable (<[np := set_p_pgdir 0 (embryo (k_nextpid s) ks q)]> (k_ptable s2)) s2) = Ret (-1) s' /\ not_forked s p tabs s'.
Proof using Hend.
  intros HF Hf HS [N1 N2 N3 N4 N5 N6]. destruct (stack_memory _ _ _ _ _ _ _ _ _ _ _ _ HF HS) as (A1 & A2 & A3).
  pose proof (fstate_vframe _ _ _ _ _ _ _ _ N5) as E2. destruct HS as [(S1 & S1' & S1'') S2 S3 S4 S5].
  destruct (proj1 (list_find_Some unused (k_ptable s) np q) Hf) as (Hq & Hqu & _). pose proof (lookup_lt_Some _ _ _ Hq) as Hlt.
  assert (Hlt2 : (np < length (k_ptable s2))%nat) by (rewrite E2; cbn; by rewrite length_insert).
  set (c := set_p_pgdir 0 _). set (y := set_k_ptable _ s2). assert (Hc : k_ptable y !! np = Some c) by (by apply list_lookup_insert_eq).
  pose proof (as_space _ _ _ _ _ N1) as Hs2. unfold fork_abandon. kstep (get_proc_Ret np y c Hc). change (p_kstack c) with ks.
  assert (Hky : kmem_ok end_ y l2) by (destruct (sp_kmem _ _ _ _ _ Hs2); by split).
  destruct (kfree_page end_ y l2 ks Hky (sp_mem _ _ _ _ _ Hs2) S1) as (s3 & R3 & Hk3 & Hpo); [by intros ?%N4|]. kstep R3.
  assert (E3 : s3 = fstate s (<[np := c]> (k_ptable s)) (s32 (k_nextpid s + 1)) (k_mem s3) (k_freelist s3) (k_ftable s) (k_icache s)).
  { destruct Hpo as [Hv _]. unfold vframe in Hv. assert (Ey : y = fstate s (<[np := c]> (k_ptable s)) (s32 (k_nextpid s + 1)) (k_mem s2) (k_freelist s2) (k_ftable s) (k_icache s)).
    { unfold y. replace (<[np := c]> (k_ptable s2)) with (<[np := c]> (k_ptable s)) by (rewrite E2; cbn; by rewrite list_insert_insert_eq). rewrite E2 at 1. done. }
    rewrite Hv at 1. by rewrite Ey. }
  assert (Hl3 : k_ptable s3 !! np = Some c) by (rewrite E3; by apply list_lookup_insert_eq). kstep (upd_proc_Ret np (set_p_kstack 0) s3 c Hl3).
  rewrite bind_run; erewrite upd_proc_Ret by (ksimp; apply list_lookup_insert_eq; by eapply lookup_lt_Some). cbn beta iota. eexists. split; [reflexivity|]. ksimp.
  rewrite list_insert_insert_eq. set (c' := set_p_state UNUSED _).
  assert (Hks : ~ part_of s2 (p_pgdir p) tabs ks).
  { intros Hp. pose proof (cf_space _ _ _ _ _ _ _ HF) as C6. destruct (part_of_page end_ s (ks :: l) (p_pgdir p) tabs ks C6) as [_ Hn]; [|apply Hn; left].
    destruct Hp as [?|[?|(va & e & Hva & E & ?)]]; [by left|by right; left|right; right]. exists va, e. rewrite N2 in E. change (k_mem (with_stack s np q ks m fl)) with m in E. by rewrite A2 in E. }
  split; [right; exists np, q, c'; split; [done|]; split; [|done]| |].
  - ksimp. rewrite E3. cbn. by rewrite list_insert_insert_eq.
  - exists (ks :: l2). set (s' := set_k_ptable _ _). assert (Hk' : kmem_ok end_ s' (ks :: l2)) by (destruct Hk3; by split).
    destruct (aspace_ext end_ s2 l2 (p_pgdir p) tabs s' (ks :: l2) N1 Hk') as (B1 & _ & B3); [by apply Hpo| | |].
    + intros w [->|?]%elem_of_cons; auto.
    + intros w x Hw Hx. destruct (part_of_page end_ s2 l2 _ tabs w N1 Hw) as [Hpw _]. change (k_mem s') with (k_mem s3). apply (page_only_keeps end_ ks w y s3); try done. by intros <-.
    + split; [done|]. intros va Hva. rewrite B3, N3 by done. by apply A3.
  - assert (En : k_nextpid s3 = s32 (k_nextpid s + 1)) by (by rewrite E3). etransitivity; [exact (f_equal (set_k_ptable (<[np := c']> (k_ptable s3))) E3)|]. rewrite <- En. reflexivity.
Qed.

Lemma fork_run s l me p tabs cwd v : data_ok data_ -> can_fork s l me p tabs cwd v ->
  (exists np q s', list_find unused (k_ptable s) = Some (np, q) /\ fork end_ data_ forkret_ trapret_ s = Ret (k_nextpid s) s' /\ forked s me p tabs cwd v np q s') \/
  (exists s', fork end_ data_ forkret_ trapret_ s = Ret (-1) s' /\ not_forked s p tabs s' /\
     (list_find unused (k_ptable s) = None \/ Z.of_nat (length l) <= 1026 + (p_sz p + 4095) / 4096)).
Proof using Hend.
  intros Hdata HF. pose proof HF as [C1 C2 C3 C4 C5 C6 C7 C8 C9 C10 [C11 C12] C13]. pose proof (as_space _ _ _ _ _ C6) as Hs. unfold fork.
  destruct (list_find unused (k_ptable s)) as [[np q]|] eqn:Hf.
  2:{ right. exists s. kstep (allocproc_full s C1 C5 Hf). split; [done|]. split; [|by left]. split; [by left|by exists l|]. by rewrite fstate_id. }
  destruct (proj1 (list_find_Some unused (k_ptable s) np q) Hf) as (Hq & Hqu & _). pose proof (lookup_lt_Some _ _ _ Hq) as Hlt.
  assert (Hne : me <> np) by (intros ->; rewrite Hq in C3; injection C3 as ->; by apply C4).
  pose proof (Z.div_pos (p_sz p + 4095) 4096 ltac:(lia) ltac:(lia)) as Hpg.
  destruct l as [|ks l].
  { right. eexists. kstep (allocproc_nomem s C1 C5 np q Hf (sp_kmem _ _ _ _ _ Hs)). split; [done|]. split; [|right; cbn; lia].
    split; [right; eexists np, q, _; split; [done|]; split; [reflexivity|done]| |done]. exists []. split; [|done].
    by apply (aspace_ext end_ s [] (p_pgdir p) tabs _ [] C6); [destruct (sp_kmem _ _ _ _ _ Hs)|apply Hs|auto|]. }
  destruct (allocproc_ok s C1 C5 np q Hf ks l (sp_kmem _ _ _ _ _ Hs) (sp_mem _ _ _ _ _ Hs)) as (m & fl & R & HS).
  kstep R. fold (with_stack s np q ks m fl). set (s1 := with_stack s np q ks m fl). destruct (stack_memory _ _ _ _ _ _ _ _ _ _ _ _ HF HS) as (A1 & A2 & A3).
  kstep (myproc_Ret s1 me C2). assert (Hp1 : k_ptable s1 !! me = Some p) by (cbn; by rewrite list_lookup_insert_ne). kstep (get_proc_Ret me s1 p Hp1).
  destruct (copyuvm_run end_ data_ Hend s1 l (p_pgdir p) tabs (p_sz p) Hdata A1 C7) as [(d & s2 & l2 & td & R2 & Hd & HC)|(s2 & l2 & R2 & HC & Hfew)];
    [by intros va Hva; unfold s1; cbn; rewrite A2; apply C8| |]; kstep R2.
  - left. pose proof (fstate_vframe _ _ _ _ _ _ _ _ (ci_frame _ _ _ _ _ _ _ _ _ _ HC)) as E2.
    assert (Hnp2 : k_ptable s2 !! np = Some (embryo (k_nextpid s) ks q)) by (rewrite E2; cbn; by apply list_lookup_insert_eq).
    kstep (upd_proc_Ret np (set_p_pgdir d) s2 _ Hnp2). rewrite (proj2 (Z.eqb_neq _ _)) by done. fold (fork_finish np me p). set (x := set_k_ptable _ s2).
    destruct (fork_finish_run np me p x (set_p_pgdir d (embryo (k_nextpid s) ks q)) cwd v) as (ft & Rf & Hadd); try done; try (unfold x; by rewrite E2).
    { cbn. apply list_lookup_insert_eq. by eapply lookup_lt_Some. }
    { cbn. by eapply C13. }
    eexists np, q, _. split; [done|]. split; [exact Rf|]. unfold x in *. ksimp in Hadd. ksimp. rewrite list_insert_insert_eq.
    replace (k_icache s2) with (k_icache s) by (by rewrite E2). replace (k_ftable s2) with (k_ftable s) in Hadd by (by rewrite E2).
    replace (<[np := _]> (k_ptable s2)) with (<[np := child me p (set_p_pgdir d (embryo (k_nextpid s) ks q))]> (k_ptable s)) by (rewrite E2; cbn; by rewrite list_insert_insert_eq).
    by apply (forked_intro s l me p tabs cwd v np q ks m fl d s2 l2 td ft HF HS HC).
  - right. pose proof (fstate_vframe _ _ _ _ _ _ _ _ (nc_frame _ _ _ _ _ _ _ HC)) as E2.
    assert (Hnp2 : k_ptable s2 !! np = Some (embryo (k_nextpid s) ks q)) by (rewrite E2; cbn; by apply list_lookup_insert_eq).
    kstep (upd_proc_Ret np (set_p_pgdir 0) s2 _ Hnp2). rewrite Z.eqb_refl. fold (fork_abandon np).
    destruct (fork_abandon_run s l me p tabs cwd v np q ks m fl s2 l2 HF Hf HS HC) as (s' & R' & HN). exists s'. split; [exact R'|]. split; [done|]. right. cbn [length]. lia.
Qed.
End fork.

(** C25: [fork] returns the next pid and the free entry of the table is a
    runnable child: a copy of the parent with its own directory, kernel stack and
    pages, the same bytes at every user address, the same registers except
    [eax] = 0, one more reference to every open file and to the directory; or it
    returns -1, only if the table is full or pages are short, and the parent,
    its memory and the reference counts are unchanged. *)
Theorem fork_duplicates end_ data_ forkret_ trapret_ s l me p tabs cwd v :
  KERNBASE < end_ -> data_ok data_ -> can_fork end_ s l me p tabs cwd v ->
  (exists np q s', list_find unused (k_ptable s) = Some (np, q) /\ fork end_ data_ forkret_ trapret_ s = Ret (k_nextpid s) s' /\
     forked end_ forkret_ trapret_ s me p tabs cwd v np q s') \/
  (exists s', fork end_ data_ forkret_ trapret_ s = Ret (-1) s' /\ not_forked end_ s p tabs s' /\
     (list_find unused (k_ptable s) = None \/ Z.of_nat (length l) <= 1026 + (p_sz p + 4095) / 4096)).
Proof. intros He. by apply fork_run. Qed.

(** A process with one page of memory and one open file, in the first entry. *)
Definition a_parent : proc :=
  set_p_cwd (Some 0%nat) (set_p_ofile (Some 0%nat :: replicate 15 None) (set_p_sz 4096 (set_p_pgdir vdir (set_p_pid 7 (set_p_state RUNNING proc0))))).

Lemma fork_duplicates_witness : exists s s' c, fork kend 0x80103000 0x80100100 0x80100200 s = Ret 8 s' /\ k_ptable s' !! 1%nat = Some c /\
  p_state c = RUNNABLE /\ tf_eax (p_tf c) = 0 /\ ubyte (k_mem s') (p_pgdir c) 17 = Some 0 /\ (f_ref <$> k_ftable s' !! 0%nat) = Some 2.
Proof.
  destruct (vm_pages 1100) as (s0 & l0 & Ha0 & Hm & Hl0 & _); [lia|]. assert (Hp : pages_between 0 4096 = 1%nat) by reflexivity.
  destruct (allocuvm_run kend s0 l0 vdir ∅ 0 4096 Ha0) as (s1 & l & tabs & _ & [Ha1 _ Hn _] & Hl);
    [lia|unfold KERNBASE; lia|intros va _; apply Hm|rewrite Hp, Hl0; lia|].
  change ((0 + 4095) / 4096 * 4096) with 0 in Hn. rewrite Hp in Hn, Hl. unfold in_pages in Hn.
  pose proof (as_space _ _ _ _ _ Ha1) as Hs1. destruct (sp_kmem _ _ _ _ _ Hs1) as [K1 K2 _].
  set (s := set_k_held [] (set_k_nextpid 8 (set_k_ftable [set_f_ref 1 file0] (set_k_icache [inode0] (set_k_proc (Some 0%nat) (set_k_ptable (a_parent :: replicate 63 proc0) s1)))))).
  assert (K : kmem_ok kend s l) by (split; [exact K1|exact K2|apply not_elem_of_nil]).
  destruct (aspace_ext kend s1 l vdir tabs s l Ha1 K (sp_mem _ _ _ _ _ Hs1)) as (Ha & _ & _); [auto|done|].
  assert (Hf : list_find unused (k_ptable s) = Some (1%nat, proc0)) by (vm_compute; reflexivity).
  destruct (fork_duplicates kend 0x80103000 0x80100100 0x80100200 s l 0 a_parent tabs 0 inode0)
    as [(np & q & s' & E & R & [(ks & d & l' & td & Et & _ & _ & Hb & _) F2 _ _])|(s' & _ & _ & [E|E])].
  - done.
  - split; [unfold KERNLINK, EXTMEM, KERNBASE, PHYSTOP; lia|done].
  - split; try reflexivity; try done.
    + intros va Hva. change (p_sz a_parent) with 4096 in Hva. destruct (Hn va ltac:(lia)) as (_ & e & E & _). change (mapping (k_mem s1) vdir va <> None). by rewrite E.
    + intros f Hf'. apply elem_of_cons in Hf' as [[= ->]|Hf']; [by exists (set_f_ref 1 file0)|]. by apply elem_of_replicate in Hf' as [? _].
    + intros i q Hi Hq. destruct i as [|i]; [injection Hi as <-; done|]. by apply lookup_replicate in Hi as [-> _].
  - rewrite Hf in E. injection E as <- <-. exists s, s'. eexists. split; [exact R|]. rewrite Et. split; [by apply list_lookup_insert_eq; cbn; lia|].
    split; [done|]. split; [done|]. split; [|by rewrite (F2 0%nat (set_f_ref 1 file0) eq_refl)].
    cbn [child p_pgdir set_p_pgdir]. rewrite (Hb 17) by (change (PGROUNDUP (p_sz a_parent)) with 4096; lia). apply Hn. lia.
  - by rewrite Hf in E.
  - change (p_sz a_parent) with 4096 in E. change ((4096 + 4095) / 4096) with 1 in E. lia.
Defined.
