(* ===== verification/Umalloc.v ===== *)
(** * The allocator of user programs: src/xv6/umalloc.c

    The memory of a process, the break and the variable [freep] are the state;
    [base] is a header in the data segment.  A header is eight bytes: the
    pointer to the next free block and the size in headers.  [sbrk] is what the
    system call does to the size of the process (sys_sbrk, growproc, allocuvm
    and deallocuvm of the kernel); whether the kernel has the pages is an
    argument.  Memory above the break is not specified, as in the code, which
    writes a header before it reads one.  The two loops take fuel: one round of
    the list is enough for [free] and two for [malloc]. *)

From stdpp Require Import base list list_numbers numbers gmap.
From Stdlib Require Import ZArith Lia.
From S2P Require Import Prelude Mem KState Kalloc.

(** ** Headers *)

Definition sizeof_Header : Z := 8.
Definition s_ptr (m : mem) (p : Z) : Z := ld32 m p.
Definition s_size (m : mem) (p : Z) : Z := ld32 m (p + 4).
Definition set_s_ptr (p v : Z) (m : mem) : mem := st32 m p v.
Definition set_s_size (p v : Z) (m : mem) : mem := st32 m (p + 4) v.
(** [p + n] for a pointer to headers. *)
Definition hadd (p n : Z) : Z := u32 (p + sizeof_Header * n).

Record uheap := mkUheap { h_mem : mem; h_freep : Z; h_brk : Z }.
Definition set_h_mem (m : mem) (h : uheap) : uheap := mkUheap m (h_freep h) (h_brk h).
Definition set_h_freep (p : Z) (h : uheap) : uheap := mkUheap (h_mem h) p (h_brk h).
Definition set_h_brk (b : Z) (h : uheap) : uheap := mkUheap (h_mem h) (h_freep h) b.

Section umalloc.
Context (base_ : Z) (pages : Z -> Z -> bool).

(** The size of the process after [growproc], or none if it fails. *)
Definition grown_size (sz n : Z) : option Z :=
  let newsz := u32 (sz + n) in
  if 0 <? n then
    if KERNBASE <=? newsz then None
    else if newsz <? sz then Some sz
    else if pages sz newsz then Some newsz else None
  else if n <? 0 then
    let r := if sz <=? newsz then sz else newsz in
    if r =? 0 then None else Some r
  else Some sz.

Definition sbrk (n : Z) (h : uheap) : Z * uheap :=
  match grown_size (h_brk h) (s32 n) with
  | None => (u32 (-1), h)
  | Some sz => (h_brk h, set_h_brk sz h)
  end.

(** The loop of [free]: the block after which the freed one goes. *)
Fixpoint free_find (fuel : nat) (m : mem) (bp p : Z) : option Z :=
  match fuel with
  | O => None
  | S fuel' =>
      if (p <? bp) && (bp <? s_ptr m p) then Some p
      else if (s_ptr m p <=? p) && ((p <? bp) || (bp <? s_ptr m p)) then Some p
      else free_find fuel' m bp (s_ptr m p)
  end%bool.

(** Joining the freed block to the next free one, or linking it. *)
Definition free_upper (bp p : Z) (m : mem) : mem :=
  if hadd bp (s_size m bp) =? s_ptr m p then
    let m := set_s_size bp (s_size m bp + s_size m (s_ptr m p)) m in
    set_s_ptr bp (s_ptr m (s_ptr m p)) m
  else set_s_ptr bp (s_ptr m p) m.

(** Joining it to the previous one, or linking it. *)
Definition free_lower (bp p : Z) (m : mem) : mem :=
  if hadd p (s_size m p) =? bp then
    let m := set_s_size p (s_size m p + s_size m bp) m in
    set_s_ptr p (s_ptr m bp) m
  else set_s_ptr p bp m.

Definition free (fuel : nat) (ap : Z) (h : uheap) : option uheap :=
  let bp := u32 (ap - sizeof_Header) in
  p ← free_find fuel (h_mem h) bp (h_freep h);
  Some (set_h_freep p (set_h_mem (free_lower bp p (free_upper bp p (h_mem h))) h)).

Definition morecore (fuel : nat) (nu : Z) (h : uheap) : option (Z * uheap) :=
  let nu := if nu <? 4096 then 4096 else nu in
  let '(p, h) := sbrk (u32 (nu * sizeof_Header)) h in
  if p =? u32 (-1) then Some (0, h)
  else
    h ← free fuel (hadd p 1) (set_h_mem (set_s_size p nu (h_mem h)) h);
    Some (h_freep h, h).

Fixpoint malloc_loop (fuel : nat) (nunits prevp p : Z) (h : uheap) : option (Z * uheap) :=
  match fuel with
  | O => None
  | S fuel' =>
      let m := h_mem h in
      if nunits <=? s_size m p then
        if s_size m p =? nunits then
          Some (hadd p 1, set_h_freep prevp (set_h_mem (set_s_ptr prevp (s_ptr m p) m) h))
        else
          let m := set_s_size p (s_size m p - nunits) m in
          let p := hadd p (s_size m p) in
          Some (hadd p 1, set_h_freep prevp (set_h_mem (set_s_size p nunits m) h))
      else if p =? h_freep h then
        '(p, h) ← morecore fuel nunits h;
        if p =? 0 then Some (0, h) else malloc_loop fuel' nunits p (s_ptr (h_mem h) p) h
      else malloc_loop fuel' nunits p (s_ptr m p) h
  end.

Definition units (nbytes : Z) : Z := u32 (u32 (nbytes + sizeof_Header - 1) / sizeof_Header + 1).

Definition malloc (fuel : nat) (nbytes : Z) (h : uheap) : option (Z * uheap) :=
  let nunits := units nbytes in
  let h :=
    if h_freep h =? 0 then set_h_freep base_ (set_h_mem (set_s_size base_ 0 (set_s_ptr base_ base_ (h_mem h))) h)
    else h in
  malloc_loop fuel nunits (h_freep h) (s_ptr (h_mem h) (h_freep h)) h.

End umalloc.

(** ** The free list *)

(** The free blocks (address, size in headers), in the order of the list. *)
Definition first (z : Z) (l : list (Z * Z)) : Z := match l with [] => z | (a, _) :: _ => a end.

Fixpoint chain (m : mem) (l : list (Z * Z)) (z : Z) : Prop :=
  match l with
  | [] => True
  | (a, n) :: l' => s_ptr m a = first z l' /\ s_size m a = n /\ chain m l' z
  end.

(** The headers follow each other in memory. *)
Fixpoint spaced (lo : Z) (l : list (Z * Z)) : Prop :=
  match l with [] => True | (a, _) :: l' => lo <= a /\ spaced (a + 8) l' end.

(** The blocks follow each other, never adjacent, below [hi]. *)
Fixpoint ordered (lo : Z) (l : list (Z * Z)) (hi : Z) : Prop :=
  match l with [] => True | (a, n) :: l' => lo < a /\ 0 < n /\ a + 8 * n <= hi /\ ordered (a + 8 * n) l' hi end.

Definition blocks_end (lo : Z) (l : list (Z * Z)) : Z := foldl (fun _ b => b.1 + 8 * b.2) lo l.

Lemma first_app z l1 l2 : first z (l1 ++ l2) = first (first z l2) l1.
Proof. by destruct l1 as [|[??]?]. Qed.

Lemma chain_app m l1 l2 z : chain m (l1 ++ l2) z <-> chain m l1 (first z l2) /\ chain m l2 z.
Proof. induction l1 as [|[a n] l1 IH]; cbn; [tauto|]. rewrite first_app, IH. tauto. Qed.

Lemma header_ext m m' a : (forall x, a <= x < a + 8 -> ld8 m' x = ld8 m x) -> s_ptr m' a = s_ptr m a /\ s_size m' a = s_size m a.
Proof. intros H. unfold s_ptr, s_size. split; apply ld32_ext; intros x Hx; apply H; lia. Qed.

Lemma chain_ext m m' l z : (forall b x, b ∈ l -> b.1 <= x < b.1 + 8 -> ld8 m' x = ld8 m x) -> chain m l z -> chain m' l z.
Proof.
  induction l as [|[a n] l IH]; intros H Hc; cbn [chain] in *; [done|]. destruct Hc as (H1 & H2 & H3).
  destruct (header_ext m m' a) as [-> ->]; [intros x Hx; apply (H (a, n) x); [left|done]|]. split; [done|]. split; [done|].
  apply IH; [|done]. intros b x Hb. apply H. by right.
Qed.

Lemma spaced_mono lo lo' l : lo' <= lo -> spaced lo l -> spaced lo' l.
Proof. destruct l as [|[a n] l]; cbn; [done|]. intros ? [??]. split; [lia|done]. Qed.

Lemma spaced_in lo l b : spaced lo l -> b ∈ l -> lo <= b.1.
Proof.
  revert lo. induction l as [|[a n] l IH]; intros lo Hs; [by intros ?%elem_of_nil|]. destruct Hs as [H1 H2].
  intros [->|Hb]%elem_of_cons; [done|]. specialize (IH _ H2 Hb). lia.
Qed.

Lemma spaced_app lo l1 l2 : spaced lo (l1 ++ l2) -> spaced lo l1 /\ spaced lo l2 /\ forall b c, b ∈ l1 -> c ∈ l2 -> b.1 + 8 <= c.1.
Proof.
  revert lo. induction l1 as [|[a n] l1 IH]; intros lo Hs; cbn in *; [split; [done|]; split; [done|]; by intros b c ?%elem_of_nil|].
  destruct Hs as [H1 H2]. destruct (IH _ H2) as (H3 & H4 & H5). split; [done|]. split; [by apply (spaced_mono (a + 8)); [lia|]|].
  intros b c [->|Hb]%elem_of_cons Hc; [|by apply H5]. apply (spaced_in _ _ _ H4 Hc).
Qed.

Lemma ordered_app lo l1 l2 hi : ordered lo (l1 ++ l2) hi <-> ordered lo l1 hi /\ ordered (blocks_end lo l1) l2 hi.
Proof. revert lo. induction l1 as [|[a n] l1 IH]; intros lo; cbn; [tauto|]. rewrite IH. tauto. Qed.

Lemma ordered_in lo l hi b : ordered lo l hi -> b ∈ l -> lo < b.1 /\ 0 < b.2 /\ b.1 + 8 * b.2 <= hi.
Proof.
  revert lo. induction l as [|[a n] l IH]; intros lo Hs; [by intros ?%elem_of_nil|]. destruct Hs as (H1 & H2 & H3 & H4).
  intros [->|Hb]%elem_of_cons; [done|]. specialize (IH _ H4 Hb). lia.
Qed.

Lemma ordered_spaced lo l hi : ordered lo l hi -> spaced (lo + 1) l.
Proof.
  revert lo. induction l as [|[a n] l IH]; intros lo; cbn; [done|]. intros (H1 & H2 & H3 & H4). split; [lia|].
  apply (spaced_mono (a + 8 * n + 1)); [lia|]. by apply IH.
Qed.

Lemma ordered_hi lo l hi hi' : hi <= hi' -> ordered lo l hi -> ordered lo l hi'.
Proof. revert lo. induction l as [|[a n] l IH]; intros lo Hh; cbn; [done|]. intros (H1 & H2 & H3 & H4). do 2 (split; [done|]). split; [lia|]. by apply IH. Qed.

Lemma ordered_before lo l1 b l2 hi : ordered lo (l1 ++ b :: l2) hi -> forall c, c ∈ l1 -> c.1 + 8 * c.2 < b.1.
Proof.
  revert lo. induction l1 as [|[a n] l1 IH]; intros lo Ho c Hc; [by apply elem_of_nil in Hc|]. destruct Ho as (_ & _ & _ & Ho).
  apply elem_of_cons in Hc as [->|Hc]; [|by apply (IH _ Ho)]. cbn. apply (ordered_in _ _ _ b Ho). apply elem_of_app. right. left.
Qed.

(** ** The search of [free] *)

Section search.
Context (base_ : Z).

(** From a block above [bp] the search goes on to the base. *)
Lemma find_above m bp : forall l lo k, chain m l base_ -> spaced lo l -> bp <= lo -> base_ <= bp ->
  l <> [] -> free_find (length l + k) m bp (first base_ l) = free_find k m bp base_.
Proof using.
  induction l as [|[a n] l IH]; intros lo k Hc Hs Hb Hba Hne; [done|]. destruct Hc as (H1 & _ & H3). destruct Hs as [Hs1 Hs2].
  cbn [length Nat.add first free_find]. rewrite H1, (proj2 (Z.ltb_ge a bp)) by lia. cbn [andb orb]. destruct l as [|[a' n'] l].
  - cbn. rewrite (proj2 (Z.ltb_ge bp base_)) by lia. by rewrite andb_false_r.
  - pose proof (proj1 Hs2). rewrite <- (IH (a + 8) k) by (done || lia). cbn [first]. by rewrite (proj2 (Z.leb_gt a' a)) by lia.
Qed.

(** From a block below, up to the last one below [bp]. *)
Lemma find_below m bp p pn l2 : forall l1 lo k, chain m (l1 ++ (p, pn) :: l2) base_ -> spaced lo (l1 ++ (p, pn) :: l2) -> base_ <= lo ->
  p < bp -> (forall b, b ∈ l2 -> bp < b.1) ->
  free_find (S (length l1) + k) m bp (first base_ (l1 ++ (p, pn) :: l2)) = Some p.
Proof using.
  induction l1 as [|[a n] l1 IH]; intros lo k Hc Hs Hlo Hp H2; cbn [app length Nat.add first free_find chain] in *; destruct Hc as (H1 & _ & H3); rewrite H1.
  - rewrite (proj2 (Z.ltb_lt p bp)) by lia. cbn [andb orb]. destruct l2 as [|[q qn] l2]; cbn [first].
    + cbn in Hs. rewrite (proj2 (Z.leb_le base_ p)) by lia. by destruct (bp <? base_).
    + pose proof (H2 (q, qn) ltac:(left)) as Hq. cbn in Hq. by rewrite (proj2 (Z.ltb_lt bp q)) by lia.
  - destruct Hs as [Hs1 Hs2]. pose proof (proj2 (proj2 (spaced_app _ _ _ Hs2))) as Ha.
    assert (Hf : a + 8 <= first base_ (l1 ++ (p, pn) :: l2) <= p).
    { destruct l1 as [|[a' n'] l1]; cbn [app first] in *; [destruct Hs2; lia|]. pose proof (Ha (a', n') (p, pn) ltac:(left) ltac:(left)). cbn in *. lia. }
    rewrite (proj2 (Z.ltb_ge bp _)) by lia. rewrite andb_false_r. rewrite (proj2 (Z.leb_gt _ a)) by lia. cbn [andb].
    apply (IH (a + 8)); done || lia.
Qed.

Lemma find_run m bp r p pn l2 q fuel : let ring := r ++ (p, pn) :: l2 in
  chain m ring base_ -> spaced base_ ring -> first base_ ring = base_ -> p < bp -> (forall b, b ∈ l2 -> bp < b.1) ->
  q ∈ ring.*1 -> (length ring <= fuel)%nat -> free_find fuel m bp q = Some p.
Proof using.
  intros ring Hc Hs Hf Hp H2 Hq Hfuel.
  assert (Hbelow : forall x y k, r = x ++ y -> (S (length y) <= k)%nat -> free_find k m bp (first base_ (y ++ (p, pn) :: l2)) = Some p).
  { intros x y k -> Hl. unfold ring in Hc, Hs. rewrite <- app_assoc in Hc, Hs. replace k with (S (length y) + (k - S (length y)))%nat by lia.
    apply (find_below m bp p pn l2 y base_); [apply (proj2 (proj1 (chain_app _ _ _ _) Hc))|apply (spaced_app _ _ _ Hs)|lia|done|done]. }
  assert (Hb : base_ <= p) by (apply (spaced_in base_ ring (p, pn) Hs); apply elem_of_app; right; left).
  assert (Hlen : length ring = (length r + S (length l2))%nat) by (unfold ring; by rewrite length_app).
  apply list_elem_of_fmap in Hq as ([q' qn] & -> & Hq). unfold ring in Hq. apply elem_of_app in Hq as [Hq|[Hq|Hq]%elem_of_cons].
  - apply list_elem_of_split in Hq as (x & y & E). rewrite <- (Hbelow x ((q', qn) :: y) fuel E); [done|]. rewrite E, length_app in Hlen. cbn in *. lia.
  - injection Hq as -> ->. by rewrite <- (Hbelow r [] fuel (eq_sym (app_nil_r r))) by (cbn; lia).
  - apply list_elem_of_split in Hq as (x & y & E). cbn [fst].
    assert (E' : ring = (r ++ (p, pn) :: x) ++ (q', qn) :: y) by (unfold ring; rewrite E, <- app_assoc; done).
    pose proof (Hbelow [] r (fuel - S (length y))%nat eq_refl) as Hr. fold ring in Hr. rewrite Hf in Hr.
    rewrite E' in Hc, Hs. apply chain_app in Hc as [_ Hc]. apply spaced_app in Hs as (_ & [Hsq Hs] & _).
    assert (Hl2 : length l2 = (length x + S (length y))%nat) by (rewrite E, length_app; done).
    assert (Hq' : bp < q') by (apply (H2 (q', qn)); rewrite E; apply elem_of_app; right; left).
    replace fuel with (length ((q', qn) :: y) + (fuel - S (length y)))%nat by (cbn; lia).
    etrans; [apply (find_above m bp ((q', qn) :: y) q'); [done|split; [lia|done]|lia|lia|done]|]. apply Hr. lia.
Qed.

(** ** Joining *)

Definition join_right (bp n : Z) (l : list (Z * Z)) : list (Z * Z) :=
  match l with
  | (q, qn) :: l' => if bp + 8 * n =? q then (bp, n + qn) :: l' else (bp, n) :: l
  | [] => [(bp, n)]
  end.

Lemma s_ptr_set p q v m : p + 4 <= q \/ q + 4 <= p -> s_ptr (set_s_ptr q v m) p = s_ptr m p.
Proof using. apply ld32_st32_ne. Qed.
Lemma s_ptr_size p q v m : p + 4 <= q + 4 \/ q + 8 <= p -> s_ptr (set_s_size q v m) p = s_ptr m p.
Proof using. intros H. apply ld32_st32_ne. lia. Qed.
Lemma s_size_set p q v m : p + 8 <= q \/ q + 4 <= p + 4 -> s_size (set_s_ptr q v m) p = s_size m p.
Proof using. intros H. apply ld32_st32_ne. lia. Qed.
Lemma s_size_size p q v m : p + 4 <= q \/ q + 4 <= p -> s_size (set_s_size q v m) p = s_size m p.
Proof using. intros H. apply ld32_st32_ne. lia. Qed.
Lemma s_ptr_eq p v m : 0 <= v < 2 ^ 32 -> s_ptr (set_s_ptr p v m) p = v.
Proof using. intros H. unfold s_ptr, set_s_ptr. rewrite ld32_st32_eq. by apply u32_small. Qed.
Lemma s_size_eq p v m : 0 <= v < 2 ^ 32 -> s_size (set_s_size p v m) p = v.
Proof using. intros H. unfold s_size, set_s_size. rewrite ld32_st32_eq. by apply u32_small. Qed.
Lemma ld8_set_ptr p v m x : x < p \/ p + 8 <= x -> ld8 (set_s_ptr p v m) x = ld8 m x.
Proof using. intros H. apply ld8_st32_ne. lia. Qed.
Lemma ld8_set_size p v m x : x < p \/ p + 8 <= x -> ld8 (set_s_size p v m) x = ld8 m x.
Proof using. intros H. apply ld8_st32_ne. lia. Qed.

Lemma hadd_small p n : 0 <= p + 8 * n < 2 ^ 32 -> hadd p n = p + 8 * n.
Proof using. apply u32_small. Qed.

Lemma upper_run m bp n p pn l hi : chain m ((p, pn) :: l) base_ -> s_size m bp = n -> 0 < n -> p + 8 <= bp -> 0 < base_ -> base_ + 8 <= bp ->
  ordered (bp + 8 * n - 1) l hi -> bp + 8 * n <= hi -> hi < 2 ^ 32 ->
  let m' := free_upper bp p m in
  chain m' (join_right bp n l) base_ /\ forall x, x < bp \/ bp + 8 <= x -> ld8 m' x = ld8 m x.
Proof using.
  intros (Hp & _ & Hc) Hn Hn0 Hpb Hb0 Hb Ho Hhi Hw. unfold free_upper. rewrite Hn, hadd_small, Hp by lia.
  assert (Hkeep : forall m', (forall x, x < bp \/ bp + 8 <= x -> ld8 m' x = ld8 m x) -> chain m' l base_).
  { intros m' Hm'. apply (chain_ext m); [|done]. intros b x Hbl Hx. apply Hm'. pose proof (ordered_in _ _ _ _ Ho Hbl). lia. }
  destruct l as [|[q qn] l]; cbn [first join_right] in *.
  - rewrite (proj2 (Z.eqb_neq _ _)) by lia. split; [|intros x Hx; by apply ld8_set_ptr].
    split; [apply s_ptr_eq; cbn; lia|]. split; [|done]. rewrite s_size_set by lia. done.
  - destruct Hc as (Hq & Hqn & Hc). destruct Ho as (Ho1 & Ho2 & Ho3 & Ho4).
    destruct (Z.eqb_spec (bp + 8 * n) q) as [E|E].
    + rewrite (s_ptr_size p bp), Hp, (s_ptr_size q bp), Hq, Hqn by lia. assert (Hfr : forall x, x < bp \/ bp + 8 <= x -> ld8 (set_s_ptr bp (first base_ l) (set_s_size bp (n + qn) m)) x = ld8 m x).
      { intros x Hx. rewrite ld8_set_ptr, ld8_set_size by lia. done. }
      split; [|done]. split; [apply s_ptr_eq; destruct l as [|[??]?]; cbn in *; lia|]. split; [rewrite s_size_set by lia; apply s_size_eq; lia|].
      apply (Hkeep _ Hfr).
    + split; [|intros x Hx; by apply ld8_set_ptr]. split; [apply s_ptr_eq; cbn; lia|]. split; [rewrite s_size_set by lia; done|].
      apply Hkeep. intros x Hx. by apply ld8_set_ptr.
Qed.

Lemma lower_run m bp bn p pn l hi : s_size m p = pn -> 0 <= pn -> chain m ((bp, bn) :: l) base_ -> p + 8 <= bp -> p + 8 * pn <= bp -> 0 < base_ -> base_ <= p ->
  ordered (p + 7) ((bp, bn) :: l) hi -> hi < 2 ^ 32 ->
  let m' := free_lower bp p m in
  chain m' (if p + 8 * pn =? bp then (p, pn + bn) :: l else (p, pn) :: (bp, bn) :: l) base_ /\ forall x, x < p \/ p + 8 <= x -> ld8 m' x = ld8 m x.
Proof using.
  intros Hpn Hpn0 (Hq & Hbn & Hc) Hpb Hpb' Hb0 Hb (Ho1 & Ho2 & Ho3 & Ho4) Hw. unfold free_lower. rewrite Hpn, hadd_small by lia.
  assert (Hkeep : forall m', (forall x, x < p \/ p + 8 <= x -> ld8 m' x = ld8 m x) -> chain m' l base_).
  { intros m' Hm'. apply (chain_ext m); [|done]. intros b x Hbl Hx. apply Hm'. pose proof (ordered_in _ _ _ _ Ho4 Hbl). lia. }
  destruct (Z.eqb_spec (p + 8 * pn) bp) as [E|E].
  - rewrite s_ptr_size, Hq, Hbn by lia. assert (Hfr : forall x, x < p \/ p + 8 <= x -> ld8 (set_s_ptr p (first base_ l) (set_s_size p (pn + bn) m)) x = ld8 m x).
    { intros x Hx. rewrite ld8_set_ptr, ld8_set_size by lia. done. }
    split; [|done]. split; [apply s_ptr_eq; destruct l as [|[??]?]; cbn in *; lia|]. split; [rewrite s_size_set by lia; apply s_size_eq; lia|].
    apply (Hkeep _ Hfr).
  - assert (Hfr : forall x, x < p \/ p + 8 <= x -> ld8 (set_s_ptr p bp m) x = ld8 m x) by (intros x Hx; by apply ld8_set_ptr).
    split; [|done]. destruct (header_ext m (set_s_ptr p bp m) bp) as [E1 E2]; [intros x Hx; apply Hfr; lia|].
    split; [apply s_ptr_eq; cbn; lia|]. split; [by rewrite s_size_set by lia|]. split; [by rewrite E1|]. split; [by rewrite E2|]. by apply Hkeep.
Qed.

(** ** The heap *)

Definition covered (l : list (Z * Z)) (x : Z) : Prop := exists b, b ∈ l /\ b.1 <= x < b.1 + 8 * b.2.

(** The free list [fs] and the allocated blocks [al] (header to size): the list
    is a ring through [base] in the order of addresses without adjacent blocks,
    and no two blocks, free or allocated, overlap. *)
Record heap_ok (h : uheap) (fs : list (Z * Z)) (al : gmap Z Z) : Prop := {
  ho_freep : h_freep h ∈ ((base_, 0) :: fs).*1;
  ho_chain : chain (h_mem h) ((base_, 0) :: fs) base_;
  ho_ord : ordered (base_ + 7) fs (h_brk h);
  ho_brk : 0 < base_ /\ base_ + 8 <= h_brk h <= KERNBASE;
  ho_size : forall a n, al !! a = Some n -> 0 < n /\ base_ + 8 <= a /\ a + 8 * n <= h_brk h /\ s_size (h_mem h) a = n;
  ho_apart : forall b a n, b ∈ fs -> al !! a = Some n -> b.1 + 8 * b.2 <= a \/ a + 8 * n <= b.1;
  ho_al : forall a n b k, al !! a = Some n -> al !! b = Some k -> a = b \/ a + 8 * n <= b \/ b + 8 * k <= a
}.

Lemma split_free l hi bp n : 0 < n -> forall lo, ordered lo l hi -> lo <= bp ->
  (forall b, b ∈ l -> b.1 + 8 * b.2 <= bp \/ bp + 8 * n <= b.1) ->
  exists l1 l2, l = l1 ++ l2 /\ blocks_end lo l1 <= bp /\ ordered (bp + 8 * n - 1) l2 hi.
Proof using.
  intros Hn. induction l as [|[a k] l IH]; intros lo Ho Hlo Hb; [by exists [], []|]. destruct Ho as (H1 & H2 & H3 & H4).
  destruct (Hb (a, k) ltac:(left)) as [H|H]; cbn in H.
  - destruct (IH _ H4 H) as (l1 & l2 & -> & E & Ho); [intros b ?; apply Hb; by right|]. by exists ((a, k) :: l1), l2.
  - exists [], ((a, k) :: l). split; [done|]. split; [done|]. split; [lia|done].
Qed.

Lemma covered_app l1 l2 x : covered (l1 ++ l2) x <-> covered l1 x \/ covered l2 x.
Proof using. unfold covered. setoid_rewrite elem_of_app. naive_solver. Qed.

Lemma covered_nil x : covered [] x <-> False.
Proof using. split; [by intros (b & ?%elem_of_nil & _)|done]. Qed.

Lemma covered_cons a n l x : covered ((a, n) :: l) x <-> a <= x < a + 8 * n \/ covered l x.
Proof using. unfold covered. setoid_rewrite elem_of_cons. split; [intros (b & [->|?] & ?); [by left|right; eauto]|intros [?|(b & ? & ?)]; [by exists (a, n); eauto|eauto]]. Qed.

(** The next free block may be joined. *)
Lemma join_right_spec bp n l hi lo : 0 < n -> bp + 8 * n <= hi -> ordered (bp + 8 * n - 1) l hi -> lo < bp ->
  exists bn rest, join_right bp n l = (bp, bn) :: rest /\ ordered lo ((bp, bn) :: rest) hi /\ (length rest <= length l)%nat /\
    forall x, covered ((bp, bn) :: rest) x <-> bp <= x < bp + 8 * n \/ covered l x.
Proof using.
  intros Hn Hhi Ho Hlo. destruct l as [|[q qn] l]; cbn [join_right].
  { exists n, []. split; [done|]. split; [done|]. split; [done|]. intros x. by rewrite covered_cons. }
  destruct Ho as (H1 & H2 & H3 & H4). destruct (Z.eqb_spec (bp + 8 * n) q) as [E|E].
  - exists (n + qn), l. split; [done|]. cbn [ordered]. replace (bp + 8 * (n + qn)) with (q + 8 * qn) by lia. split; [repeat split; done || lia|].
    split; [cbn; lia|]. intros x. rewrite !covered_cons. replace (bp + 8 * (n + qn)) with (q + 8 * qn) by lia. destruct (Z.lt_ge_cases x q); intuition lia.
  - exists n, ((q, qn) :: l). split; [done|]. split; [cbn; repeat split; done || lia|]. split; [done|]. intros x. by rewrite !covered_cons.
Qed.

(** So may the previous one. *)
Lemma join_left_spec lo l1 p pn bp bn rest hi : ordered lo l1 hi -> blocks_end lo l1 < p -> 0 < pn -> p + 8 * pn <= bp ->
  ordered (p + 8 * pn - 1) ((bp, bn) :: rest) hi ->
  let l := l1 ++ if p + 8 * pn =? bp then (p, pn + bn) :: rest else (p, pn) :: (bp, bn) :: rest in
  p ∈ l.*1 /\ ordered lo l hi /\ (length l <= length l1 + 2 + length rest)%nat /\
  forall x, covered l x <-> covered (l1 ++ [(p, pn)]) x \/ covered ((bp, bn) :: rest) x.
Proof using.
  intros Ho He Hpn Hpb (H1 & H2 & H3 & H4). cbn zeta. rewrite fmap_app, elem_of_app, ordered_app. setoid_rewrite covered_app. rewrite length_app.
  destruct (Z.eqb_spec (p + 8 * pn) bp) as [E|E]; (split; [right; left|]; split; [|split; [cbn; lia|]]).
  - split; [done|]. cbn [ordered]. replace (p + 8 * (pn + bn)) with (bp + 8 * bn) by lia. repeat split; done || lia.
  - intros x. rewrite !covered_cons, covered_nil. replace (p + 8 * (pn + bn)) with (bp + 8 * bn) by lia. destruct (Z.lt_ge_cases x bp); intuition lia.
  - split; [done|]. cbn [ordered]. repeat split; done || lia.
  - intros x. rewrite !covered_cons, covered_nil. tauto.
Qed.

(** Freeing [bp], whose place is after [p]. *)
Lemma free_at m bp n r p pn l2 hi lo : 0 < base_ -> chain m (r ++ (p, pn) :: l2) base_ -> spaced base_ (r ++ (p, pn) :: l2) ->
  s_size m bp = n -> 0 < n -> 0 <= pn -> p + 8 <= bp -> p + 8 * pn <= bp -> ordered (bp + 8 * n - 1) l2 hi -> bp + 8 * n <= hi -> hi < 2 ^ 32 -> lo < bp ->
  let m' := free_lower bp p (free_upper bp p m) in
  exists bn rest, ordered lo ((bp, bn) :: rest) hi /\ (length rest <= length l2)%nat /\
    (forall x, covered ((bp, bn) :: rest) x <-> bp <= x < bp + 8 * n \/ covered l2 x) /\
    chain m' (r ++ if p + 8 * pn =? bp then (p, pn + bn) :: rest else (p, pn) :: (bp, bn) :: rest) base_ /\
    forall x, x < p \/ p + 8 <= x -> x < bp \/ bp + 8 <= x -> ld8 m' x = ld8 m x.
Proof using.
  intros Hb0 Hc Hs Hn Hn0 Hpn Hp8 Hpb Ho Hhi Hw Hlo m'. apply chain_app in Hc as [Hc1 Hc2]. apply spaced_app in Hs as (_ & [Hs1 _] & Hs).
  destruct (join_right_spec bp n l2 hi lo Hn0 Hhi Ho Hlo) as (bn & rest & E & Ho' & Hlen & Hcov). exists bn, rest. do 3 (split; [done|]).
  destruct (upper_run m bp n p pn l2 hi) as [Hc3 F1]; try done; [lia|]. rewrite E in Hc3. set (m1 := free_upper bp p m) in *.
  destruct (header_ext m m1 p) as [_ Hsz]; [intros x Hx; apply F1; lia|].
  destruct (lower_run m1 bp bn p pn rest hi) as [Hc4 F2]; try done; [rewrite Hsz; apply Hc2| |].
  { destruct Ho' as (_ & O2 & O3 & O4). repeat split; done || lia. }
  assert (F : forall x, x < p \/ p + 8 <= x -> x < bp \/ bp + 8 <= x -> ld8 m' x = ld8 m x) by (intros x H1 H2; unfold m'; by rewrite F2, F1).
  split; [|done]. apply chain_app. split; [|done]. assert (Ef : forall A : list (Z * Z), first base_ (if p + 8 * pn =? bp then (p, pn + bn) :: rest else (p, pn) :: A) = p) by (intros; by destruct (_ =? _)).
  rewrite Ef. apply (chain_ext m); [|done]. intros b x Hb Hx. specialize (Hs b (p, pn) Hb ltac:(left)). cbn in Hs. apply F; lia.
Qed.

Lemma free_list m fs hi bp n : 0 < base_ -> chain m ((base_, 0) :: fs) base_ -> ordered (base_ + 7) fs hi ->
  s_size m bp = n -> 0 < n -> base_ + 8 <= bp -> bp + 8 * n <= hi -> hi < 2 ^ 32 ->
  (forall b, b ∈ fs -> b.1 + 8 * b.2 <= bp \/ bp + 8 * n <= b.1) ->
  exists p fs', p ∈ ((base_, 0) :: fs').*1 /\ (p = base_ \/ exists pn, (p, pn) ∈ fs) /\
    (forall fuel q, q ∈ ((base_, 0) :: fs).*1 -> (S (length fs) <= fuel)%nat -> free_find fuel m bp q = Some p) /\
    let m' := free_lower bp p (free_upper bp p m) in
    chain m' ((base_, 0) :: fs') base_ /\ ordered (base_ + 7) fs' hi /\ (length fs' <= S (length fs))%nat /\
    (forall x, covered fs' x <-> covered fs x \/ bp <= x < bp + 8 * n) /\
    forall x, x < p \/ p + 8 <= x -> x < bp \/ bp + 8 <= x -> ld8 m' x = ld8 m x.
Proof using.
  intros Hb0 Hc Ho Hn Hn0 Hb Hhi Hw Hap. destruct (split_free fs hi bp n Hn0 (base_ + 7) Ho ltac:(lia) Hap) as (l1 & l2 & -> & He & Ho2).
  assert (Hs : spaced base_ ((base_, 0) :: l1 ++ l2)).
  { split; [lia|]. apply (spaced_mono (base_ + 7 + 1)); [lia|]. by apply (ordered_spaced _ _ hi). }
  assert (H2 : forall b, b ∈ l2 -> bp < b.1) by (intros b Hbl; pose proof (ordered_in _ _ _ _ Ho2 Hbl); lia).
  destruct l1 as [|[p pn] l1 _] using rev_ind.
  - destruct (free_at m bp n [] base_ 0 l2 hi (base_ + 7)) as (bn & rest & Hor & Hlen & Hcov & Hch & F); try done; try lia.
    rewrite (proj2 (Z.eqb_neq _ _)) in Hch by lia. exists base_, ((bp, bn) :: rest). split; [left|]. split; [by left|].
    split; [intros fuel q Hq Hf; apply (find_run m bp [] base_ 0 l2 q fuel); cbn; done || lia|].
    split; [done|]. split; [done|]. split; [cbn; lia|]. split; [|done]. intros x. rewrite Hcov. cbn. tauto.
  - rewrite <- app_assoc in Hc, Hs. cbn [app] in Hc, Hs. unfold blocks_end in He. rewrite foldl_app in He. cbn in He.
    assert (Hp : base_ + 7 < p /\ 0 < pn /\ p + 8 * pn <= hi) by (apply (ordered_in _ _ _ (p, pn) Ho); apply elem_of_app; left; apply elem_of_app; right; left).
    rewrite <- app_assoc in Ho. cbn [app] in Ho. apply ordered_app in Ho as [Ho1 (Hlo & _ & _ & _)].
    destruct (free_at m bp n ((base_, 0) :: l1) p pn l2 hi (p + 8 * pn - 1)) as (bn & rest & Hor & Hlen & Hcov & Hch & F); try done; try lia.
    destruct (join_left_spec (base_ + 7) l1 p pn bp bn rest hi) as (J1 & J2 & J3 & J4); try done; try lia.
    eexists p, _. split; [right; exact J1|]. split; [right; exists pn; apply elem_of_app; left; apply elem_of_app; right; left|].
    rewrite <- app_assoc. split; [intros fuel q Hq Hf; apply (find_run m bp ((base_, 0) :: l1) p pn l2 q fuel); done || lia|].
    split; [exact Hch|]. split; [done|]. split; [rewrite !length_app in *; cbn in *; lia|]. split; [|done].
    intros x. rewrite J4, Hcov, !covered_app. cbn [app]. rewrite !covered_cons, covered_nil. tauto.
Qed.

(** Two blocks without a common address are apart. *)
Lemma apart_of a n b k : 0 < n -> 0 < k -> (forall x, a <= x < a + 8 * n -> b <= x < b + 8 * k -> False) -> a + 8 * n <= b \/ b + 8 * k <= a.
Proof using. intros Hn Hk H. destruct (Z.le_gt_cases (a + 8 * n) b); [by left|]. destruct (Z.le_gt_cases (b + 8 * k) a); [by right|]. destruct (H (Z.max a b)); lia. Qed.

Lemma free_run h fs al bp n fuel : heap_ok h fs al -> al !! bp = Some n -> (S (length fs) <= fuel)%nat ->
  exists h' fs', free fuel (bp + 8) h = Some h' /\ heap_ok h' fs' (delete bp al) /\ h_brk h' = h_brk h /\ (length fs' <= S (length fs))%nat /\
    (forall x, covered fs' x <-> covered fs x \/ bp <= x < bp + 8 * n) /\
    forall a k x, delete bp al !! a = Some k -> a <= x < a + 8 * k -> ld8 (h_mem h') x = ld8 (h_mem h) x.
Proof using.
  intros [Hfp Hc Ho [Hb0 Hbrk] Hsz Hap Hal] Hbp Hf. destruct (Hsz _ _ Hbp) as (Hn & Hb & Hhi & Hn').
  assert (Hw : h_brk h < 2 ^ 32) by (unfold KERNBASE in Hbrk; lia).
  destruct (free_list (h_mem h) fs (h_brk h) bp n) as (p & fs' & Hp & Hpin & Hfind & Hc' & Ho' & Hl' & Hcov & F); try done.
  { intros b Hb'. by apply Hap. }
  assert (Hd : forall a k, delete bp al !! a = Some k -> al !! a = Some k /\ a <> bp) by (intros a k [Hne Ha]%lookup_delete_Some; by split; [|intros ->]).
  assert (F' : forall a k x, delete bp al !! a = Some k -> a <= x < a + 8 * k ->
    ld8 (free_lower bp p (free_upper bp p (h_mem h))) x = ld8 (h_mem h) x).
  { intros a k x [Ha Hne]%Hd Hx. destruct (Hsz _ _ Ha) as (? & ? & _). apply F.
    - destruct Hpin as [->|(pn & Hpin)]; [lia|]. pose proof (ordered_in _ _ _ _ Ho Hpin). specialize (Hap _ _ _ Hpin Ha). cbn in *. lia.
    - specialize (Hal _ _ _ _ Ha Hbp). lia. }
  eexists _, fs'. unfold free. replace (u32 (bp + 8 - sizeof_Header)) with bp by (unfold sizeof_Header; rewrite u32_small; lia).
  rewrite (Hfind fuel _ Hfp Hf). split; [reflexivity|].
  split; [|split; [done|]; split; [done|]; split; [exact Hcov|exact F']].
  split; cbn [h_mem h_freep h_brk set_h_freep set_h_mem]; try done.
  - intros a k Ha. destruct (Hd _ _ Ha) as [Ha' _]. destruct (Hsz _ _ Ha') as (? & ? & ? & <-). do 3 (split; [done|]).
    apply (header_ext (h_mem h)). intros x Hx. apply (F' a _ x Ha). lia.
  - intros b a k Hb' Ha. destruct (Hd _ _ Ha) as [Ha' Hne]. destruct (Hsz _ _ Ha') as (? & _). pose proof (ordered_in _ _ _ _ Ho' Hb') as (_ & ? & _).
    apply apart_of; [done|done|]. intros x H1 H2. assert (Hx : covered fs' x) by (by exists b). apply Hcov in Hx as [(c & Hc1 & Hc2)|Hx].
    + specialize (Hap _ _ _ Hc1 Ha'). lia.
    + specialize (Hal _ _ _ _ Ha' Hbp). lia.
  - intros a k b j [Ha _]%Hd [Hb' _]%Hd. by apply Hal.
Qed.

(** ** Taking a block *)

Lemma ring_split fs x pv pvn p pn y : (base_, 0) :: fs = x ++ (pv, pvn) :: (p, pn) :: y ->
  exists l1, fs = l1 ++ (p, pn) :: y /\ (base_, 0) :: l1 = x ++ [(pv, pvn)].
Proof using.
  intros E. destruct x as [|b x]; cbn in E; injection E as E1 E2; [exists []; by subst|].
  exists (x ++ [(pv, pvn)]). subst. by rewrite <- app_assoc.
Qed.

Lemma spaced_ring fs hi : ordered (base_ + 7) fs hi -> spaced base_ ((base_, 0) :: fs).
Proof using. intros Ho. split; [lia|]. apply (spaced_mono (base_ + 7 + 1)); [lia|]. by apply (ordered_spaced _ _ hi). Qed.

(** The whole block is taken out of the list. *)
Lemma take_whole m fs hi x pv pvn p pn y : 0 < base_ -> hi < 2 ^ 32 -> chain m ((base_, 0) :: fs) base_ -> ordered (base_ + 7) fs hi ->
  (base_, 0) :: fs = x ++ (pv, pvn) :: (p, pn) :: y ->
  let m' := set_s_ptr pv (s_ptr m p) m in
  exists fs', chain m' ((base_, 0) :: fs') base_ /\ ordered (base_ + 7) fs' hi /\ pv ∈ ((base_, 0) :: fs').*1 /\ s_size m' p = pn /\
    (length fs' <= length fs)%nat /\ (forall b, b ∈ fs' -> b ∈ fs) /\
    (forall b, b ∈ fs' -> b.1 + 8 * b.2 <= p \/ p + 8 * pn <= b.1) /\
    (forall z, covered fs z <-> covered fs' z \/ p <= z < p + 8 * pn) /\ forall z, z < pv \/ pv + 8 <= z -> ld8 m' z = ld8 m z.
Proof using.
  intros Hb0 Hhi Hc Ho E m'. pose proof (spaced_ring _ _ Ho) as Hs. destruct (ring_split _ _ _ _ _ _ _ E) as (l1 & Efs & El1).
  rewrite E in Hc, Hs. apply chain_app in Hc as [Hx (Hpv & Hpvn & Hp & Hpn & Hy)]. apply spaced_app in Hs as (_ & (Hs1 & Hs2 & Hs3) & Hs4).
  pose proof Ho as Hoo. rewrite Efs in Hoo. apply ordered_app in Hoo as (Ho1 & Ho2 & Ho3 & Ho4 & Ho5). pose proof (fun z => ld8_set_ptr pv (s_ptr m p) m z) as F. fold m' in F.
  exists (l1 ++ y). assert (E' : (base_, 0) :: l1 ++ y = x ++ (pv, pvn) :: y) by (change ((base_, 0) :: l1 ++ y) with (((base_, 0) :: l1) ++ y); rewrite El1, <- app_assoc; done).
  assert (Hf : 0 <= first base_ y < 2 ^ 32) by (destruct y as [|[??]?]; cbn in *; lia).
  assert (Hl1 : forall b, b ∈ l1 -> b.1 + 8 * b.2 <= p) by (intros b Hb; rewrite Efs in Ho; pose proof (ordered_before _ _ _ _ _ Ho b Hb); cbn in *; lia).
  split; [|split; [|split; [|split; [|split; [|split; [|split; [|split]]]]]]].
  - rewrite E'. apply chain_app. cbn [first]. split; [|split; [unfold m'; rewrite Hp; by apply s_ptr_eq|split; [unfold m'; by rewrite s_size_set by lia|]]].
    + apply (chain_ext m); [|done]. intros b z Hb Hz. specialize (Hs4 b (pv, pvn) Hb ltac:(left)). cbn in Hs4. apply F. lia.
    + apply (chain_ext m); [|done]. intros b z Hb Hz. pose proof (spaced_in _ _ _ Hs3 Hb). apply F. lia.
  - apply ordered_app. split; [done|]. destruct y as [|[q qn] y]; [done|]. destruct Ho5 as (? & ? & ? & ?). cbn [ordered]. repeat split; try done. lia.
  - rewrite E', fmap_app. apply elem_of_app. right. left.
  - destruct (header_ext m m' p) as [_ ->]; [intros z Hz; apply F; lia|done].
  - rewrite Efs, !length_app. cbn. lia.
  - intros b. rewrite Efs, !elem_of_app, elem_of_cons. tauto.
  - intros b [Hb|Hb]%elem_of_app; [left; by apply Hl1|right]. pose proof (ordered_in _ _ _ _ Ho5 Hb). lia.
  - intros z. rewrite Efs, !covered_app, covered_cons. tauto.
  - done.
Qed.

(** The tail of a larger block is taken. *)
Lemma take_tail m fs hi l1 p pn y nu : 0 < base_ -> hi < 2 ^ 32 -> chain m ((base_, 0) :: fs) base_ -> ordered (base_ + 7) fs hi ->
  fs = l1 ++ (p, pn) :: y -> 0 < nu < pn ->
  let a := p + 8 * (pn - nu) in let m' := set_s_size a nu (set_s_size p (pn - nu) m) in let fs' := l1 ++ (p, pn - nu) :: y in
  chain m' ((base_, 0) :: fs') base_ /\ ordered (base_ + 7) fs' hi /\ s_size m' a = nu /\
    (forall b, b ∈ fs' -> b.1 + 8 * b.2 <= a \/ a + 8 * nu <= b.1) /\
    (forall z, covered fs z <-> covered fs' z \/ a <= z < a + 8 * nu) /\ forall z, z < p \/ p + 8 * pn <= z -> ld8 m' z = ld8 m z.
Proof using.
  intros Hb0 Hhi Hc Ho -> Hnu a m' fs'. pose proof (ordered_before _ _ _ _ _ Ho) as Hl1. pose proof (spaced_ring _ _ Ho) as Hs.
  pose proof (proj1 (ordered_app _ _ _ _) Ho) as (Ho1 & Ho2 & Ho3 & Ho4 & Ho5). cbn in Hl1.
  assert (F : forall z, z < p \/ p + 8 * pn <= z -> ld8 m' z = ld8 m z) by (intros z Hz; unfold m', a; rewrite !ld8_set_size by lia; done).
  change ((base_, 0) :: l1 ++ (p, pn) :: y) with (((base_, 0) :: l1) ++ (p, pn) :: y) in Hc, Hs. apply chain_app in Hc as [Hx (Hp & Hpn & Hy)].
  apply spaced_app in Hs as (_ & _ & Hs). pose proof (fun b H => Hs b (p, pn) H ltac:(left)) as Hs'. cbn in Hs'.
  assert (Hp0 : 0 < p) by (specialize (Hs' (base_, 0) ltac:(left)); cbn in Hs'; lia).
  split; [|split; [|split; [|split; [|split]]]].
  - change ((base_, 0) :: fs') with (((base_, 0) :: l1) ++ (p, pn - nu) :: y). apply chain_app. cbn [first].
    split; [|split; [unfold m', a; by rewrite !s_ptr_size by lia|split; [unfold m', a; rewrite s_size_size by lia; apply s_size_eq; lia|]]].
    + apply (chain_ext m); [|done]. intros b z Hb Hz. specialize (Hs' _ Hb). apply F. lia.
    + apply (chain_ext m); [|done]. intros b z Hb Hz. pose proof (ordered_in _ _ _ _ Ho5 Hb). apply F. lia.
  - apply ordered_app. split; [done|]. cbn [ordered]. do 2 (split; [lia|]). split; [lia|].
    destruct y as [|[q qn] y]; [done|]. destruct Ho5 as (? & ? & ? & ?). cbn [ordered]. repeat split; try done. lia.
  - unfold m'. apply s_size_eq. lia.
  - unfold a. intros b [Hb|[->|Hb]%elem_of_cons]%elem_of_app; cbn; [specialize (Hl1 _ Hb); lia|lia|]. pose proof (ordered_in _ _ _ _ Ho5 Hb). lia.
  - intros z. unfold fs'. rewrite !covered_app, !covered_cons.
    assert (p <= z < p + 8 * pn <-> p <= z < p + 8 * (pn - nu) \/ a <= z < a + 8 * nu) by (unfold a; lia). tauto.
  - done.
Qed.

Lemma covered_free h fs al a n x : heap_ok h fs al -> al !! a = Some n -> a <= x < a + 8 * n -> covered fs x -> False.
Proof using. intros Hh Ha Hx (b & Hb & Hx'). pose proof (ho_apart _ _ _ Hh _ _ _ Hb Ha). lia. Qed.

Lemma covered_bounds h fs al x : heap_ok h fs al -> covered fs x -> base_ + 8 <= x < h_brk h.
Proof using. intros Hh (b & Hb & Hx). pose proof (ordered_in _ _ _ _ (ho_ord _ _ _ Hh) Hb). lia. Qed.

(** Taking [nu] units at [a] out of the free list. *)
Lemma heap_take h fs al m' pv fs' a nu : heap_ok h fs al -> 0 < nu ->
  pv ∈ ((base_, 0) :: fs').*1 -> chain m' ((base_, 0) :: fs') base_ -> ordered (base_ + 7) fs' (h_brk h) -> s_size m' a = nu ->
  (forall b, b ∈ fs' -> b.1 + 8 * b.2 <= a \/ a + 8 * nu <= b.1) ->
  (forall z, covered fs z <-> covered fs' z \/ a <= z < a + 8 * nu) ->
  (forall z, ~ covered fs z -> ~ base_ <= z < base_ + 8 -> ld8 m' z = ld8 (h_mem h) z) ->
  al !! a = None /\ heap_ok (mkUheap m' pv (h_brk h)) fs' (<[a := nu]> al) /\
  forall b k x, al !! b = Some k -> b <= x < b + 8 * k -> ld8 m' x = ld8 (h_mem h) x.
Proof using.
  intros Hh Hnu Hpv Hc Ho Hsz Hap Hcov F. pose proof Hh as [_ _ _ [Hb0 Hbrk] Hsize _ Hal].
  assert (Hin : forall z, a <= z < a + 8 * nu -> covered fs z) by (intros z Hz; apply Hcov; by right).
  assert (Hno : forall b k x, al !! b = Some k -> b <= x < b + 8 * k -> ~ covered fs x) by (intros b k x Hb Hx Hx'; by apply (covered_free _ _ _ _ _ _ Hh Hb Hx Hx')).
  assert (F' : forall b k x, al !! b = Some k -> b <= x < b + 8 * k -> ld8 m' x = ld8 (h_mem h) x).
  { intros b k x Hb Hx. apply F; [by apply (Hno b k)|]. destruct (Hsize _ _ Hb). lia. }
  assert (Ha : al !! a = None) by (destruct (al !! a) as [k|] eqn:E; [|done]; destruct (Hsize _ _ E); destruct (Hno a k a E ltac:(lia)); apply Hin; lia).
  split; [done|]. split; [|done]. split; cbn [h_mem h_freep h_brk]; try done.
  - intros b k [[<- <-]|[Hne Hb]]%lookup_insert_Some.
    + pose proof (covered_bounds _ _ _ _ Hh (Hin a ltac:(lia))). pose proof (covered_bounds _ _ _ _ Hh (Hin (a + 8 * nu - 1) ltac:(lia))). repeat split; done || lia.
    + destruct (Hsize _ _ Hb) as (? & ? & ? & <-). do 3 (split; [done|]). apply (header_ext (h_mem h)). intros x Hx. apply (F' b _ x Hb). lia.
  - intros b c k Hb [[<- <-]|[Hne Hck]]%lookup_insert_Some; [by apply Hap|]. pose proof (ordered_in _ _ _ _ Ho Hb) as (_ & ? & _). destruct (Hsize _ _ Hck) as (? & _).
    apply apart_of; [done|done|]. intros x H1 H2. apply (Hno c k x Hck H2). apply Hcov. left. by exists b.
  - assert (Hx : forall b k, al !! b = Some k -> a + 8 * nu <= b \/ b + 8 * k <= a).
    { intros b k Hb. destruct (Hsize _ _ Hb). apply apart_of; [done|done|]. intros x H1 H2. by apply (Hno b k x Hb H2), Hin. }
    intros b k c j [[<- <-]|[_ Hb]]%lookup_insert_Some [[<- <-]|[_ Hc']]%lookup_insert_Some; [by left|right; by apply Hx| |by apply Hal].
    destruct (Hx _ _ Hb); auto.
Qed.

(** What a successful allocation of [nu] units at [a] does, when the heap grows by the addresses [new]. *)
Record allocated (h : uheap) (fs : list (Z * Z)) (al : gmap Z Z) (nu a : Z) (h' : uheap) (fs' : list (Z * Z)) : Prop := {
  at_fresh : al !! a = None;
  at_heap : heap_ok h' fs' (<[a := nu]> al);
  at_brk : h_brk h <= h_brk h';
  at_free : forall z, covered fs' z \/ a <= z < a + 8 * nu <-> covered fs z \/ h_brk h <= z < h_brk h';
  at_bytes : forall b k x, al !! b = Some k -> b <= x < b + 8 * k -> ld8 (h_mem h') x = ld8 (h_mem h) x
}.

Lemma ring_header h fs al q qn z : heap_ok h fs al -> (q, qn) ∈ (base_, 0) :: fs -> q <= z < q + 8 -> ~ covered fs z -> base_ <= z < base_ + 8.
Proof using.
  intros Hh [[= -> ->]|Hq]%elem_of_cons Hz Hc; [done|]. destruct Hc. exists (q, qn). split; [done|].
  pose proof (ordered_in _ _ _ _ (ho_ord _ _ _ Hh) Hq). cbn in *. lia.
Qed.

Lemma alloc_at pages h fs al x pv pvn p pn y nu f : heap_ok h fs al -> (base_, 0) :: fs = x ++ (pv, pvn) :: (p, pn) :: y -> 0 < nu <= pn ->
  exists a h' fs', malloc_loop pages (S f) nu pv p h = Some (a + 8, h') /\ allocated h fs al nu a h' fs'.
Proof using.
  intros Hh E Hnu. pose proof Hh as [_ Hc Ho [Hb0 Hbrk] _ _ _]. destruct (ring_split _ _ _ _ _ _ _ E) as (l1 & Efs & El1).
  assert (Hw : h_brk h < 2 ^ 32) by (unfold KERNBASE in Hbrk; lia).
  assert (Hp : (p, pn) ∈ fs) by (rewrite Efs; apply elem_of_app; right; left). pose proof (ordered_in _ _ _ _ Ho Hp) as Hpb. cbn in Hpb.
  assert (Hsz : s_size (h_mem h) p = pn) by (rewrite E in Hc; apply chain_app in Hc as (_ & _ & _ & _ & Hpn & _); done).
  cbn [malloc_loop]. rewrite Hsz, (proj2 (Z.leb_le nu pn)) by lia. destruct (Z.eqb_spec pn nu) as [->|Hne].
  - destruct (take_whole _ _ _ _ _ _ _ _ _ Hb0 Hw Hc Ho E) as (fs' & C1 & C2 & C3 & C4 & C5 & C6 & C7 & C8 & F).
    destruct (heap_take h fs al (set_s_ptr pv (s_ptr (h_mem h) p) (h_mem h)) pv fs' p nu Hh ltac:(lia) C3 C1 C2 C4 C7 C8) as (T1 & T2 & T3).
    { intros z Hz Hz'. apply F. destruct (Z.lt_ge_cases z pv); [by left|]. destruct (Z.le_gt_cases (pv + 8) z); [by right|]. destruct Hz'.
      apply (ring_header h fs al pv pvn z); [done| |lia|done]. rewrite E. apply elem_of_app. right. left. }
    eexists p, _, fs'. rewrite hadd_small by lia. split; [reflexivity|]. split; [done|done|cbn; lia| |done]. intros z. cbn. rewrite C8. intuition lia.
  - destruct (take_tail _ _ _ _ _ _ _ nu Hb0 Hw Hc Ho Efs ltac:(lia)) as (C1 & C2 & C3 & C4 & C5 & F).
    set (a := p + 8 * (pn - nu)) in *. set (fs' := l1 ++ (p, pn - nu) :: y) in *.
    destruct (heap_take h fs al (set_s_size a nu (set_s_size p (pn - nu) (h_mem h))) pv fs' a nu Hh ltac:(lia)) as (T1 & T2 & T3); try done.
    { unfold fs'. change ((base_, 0) :: l1 ++ (p, pn - nu) :: y) with (((base_, 0) :: l1) ++ (p, pn - nu) :: y). rewrite El1, !fmap_app. cbn. set_solver. }
    { intros z Hz _. apply F. destruct (Z.lt_ge_cases z p); [by left|]. destruct (Z.le_gt_cases (p + 8 * pn) z); [by right|]. destruct Hz. exists (p, pn). cbn. split; [done|lia]. }
    cbn zeta. rewrite s_size_eq, (hadd_small p) by lia. fold a. eexists a, _, fs'. rewrite hadd_small by lia. split; [reflexivity|]. split; [done|done|cbn; lia| |done].
    intros z. cbn. rewrite C5. intuition lia.
Qed.

(** ** The search of [malloc] *)

Definition last_addr (pv : Z) (l : list (Z * Z)) : Z := foldl (fun _ b => b.1) pv l.

Lemma malloc_walk pages h nu : forall l z pv k, chain (h_mem h) l z -> (forall b, b ∈ l -> b.2 < nu /\ b.1 <> h_freep h) ->
  malloc_loop pages (length l + k) nu pv (first z l) h = malloc_loop pages k nu (last_addr pv l) z h.
Proof using.
  induction l as [|[a n] l IH]; intros z pv k Hc Hb; [done|]. destruct Hc as (H1 & H2 & H3). destruct (Hb (a, n) ltac:(left)) as [Hn Ha]. cbn in Hn, Ha.
  cbn [length Nat.add first malloc_loop]. rewrite H2, (proj2 (Z.leb_gt nu n)), (proj2 (Z.eqb_neq _ _)), H1 by done.
  apply IH; [done|]. intros b ?. apply Hb. by right.
Qed.

Lemma first_big nu (l : list (Z * Z)) : (exists l1 p pn l2, l = l1 ++ (p, pn) :: l2 /\ nu <= pn /\ forall b, b ∈ l1 -> b.2 < nu) \/ forall b, b ∈ l -> b.2 < nu.
Proof using.
  induction l as [|[a n] l IH]; [right; by intros b ?%elem_of_nil|]. destruct (Z.le_gt_cases nu n) as [Hn|Hn].
  - left. exists [], a, n, l. split; [done|]. split; [done|]. by intros b ?%elem_of_nil.
  - destruct IH as [(l1 & p & pn & l2 & -> & H1 & H2)|H].
    + left. exists ((a, n) :: l1), p, pn, l2. split; [done|]. split; [done|]. intros b [->|?]%elem_of_cons; [done|auto].
    + right. intros b [->|?]%elem_of_cons; [done|auto].
Qed.

Lemma last_snoc q qn l : exists x n, (q, qn) :: l = x ++ [(last_addr q l, n)].
Proof using.
  destruct l as [|[a n] l _] using rev_ind; [by exists [], qn|]. exists ((q, qn) :: l), n. unfold last_addr. by rewrite foldl_app.
Qed.

Lemma last_nonempty q l : l <> [] -> exists x n, l = x ++ [(last_addr q l, n)].
Proof using. destruct l as [|[a n] l]; [done|]. intros _. apply (last_snoc a n l). Qed.

Lemma found_at pages h fs nu pre q qn l1 p pn l2 f : (base_, 0) :: fs = pre ++ (q, qn) :: l1 ++ (p, pn) :: l2 -> nu <= pn ->
  chain (h_mem h) l1 p -> (forall b, b ∈ l1 -> b.2 < nu /\ b.1 <> h_freep h) -> (length l1 < f)%nat ->
  exists x pv pvn p' pn' y f', (base_, 0) :: fs = x ++ (pv, pvn) :: (p', pn') :: y /\ nu <= pn' /\
    malloc_loop pages f nu q (first p l1) h = malloc_loop pages (S f') nu pv p' h.
Proof using.
  intros E Hpn Hc Hb Hf. destruct (last_snoc q qn l1) as (x & n & Ex). exists (pre ++ x), (last_addr q l1), n, p, pn, l2, (f - S (length l1))%nat.
  split; [|split; [done|]].
  - rewrite E, <- app_assoc. change ((q, qn) :: l1 ++ (p, pn) :: l2) with (((q, qn) :: l1) ++ (p, pn) :: l2). rewrite Ex, <- app_assoc. done.
  - replace f with (length l1 + S (f - S (length l1)))%nat at 1 by lia. by apply malloc_walk.
Qed.

(** One round of the list: the first block that is large enough, after [freep], or none. *)
Lemma malloc_round pages h fs al nu fuel : heap_ok h fs al -> 0 < nu -> (length fs < fuel)%nat ->
  let fp := h_freep h in
  (exists x pv pvn p pn y f', (base_, 0) :: fs = x ++ (pv, pvn) :: (p, pn) :: y /\ nu <= pn /\
     malloc_loop pages fuel nu fp (s_ptr (h_mem h) fp) h = malloc_loop pages (S f') nu pv p h) \/
  ((forall b, b ∈ (base_, 0) :: fs -> b.2 < nu) /\ exists pv, malloc_loop pages fuel nu fp (s_ptr (h_mem h) fp) h = malloc_loop pages (fuel - length fs) nu pv fp h).
Proof using.
  intros Hh Hnu Hf fp. pose proof Hh as [Hfp Hc Ho _ _ _ _]. pose proof (spaced_ring _ _ Ho) as Hs.
  apply list_elem_of_fmap in Hfp as ([fp' fn] & Efp & Hfp). fold fp in Efp. cbn in Efp. subst fp'. apply list_elem_of_split in Hfp as (u & v & E).
  assert (Hlen : length fs = (length u + length v)%nat) by (apply (f_equal length) in E; rewrite length_app in E; cbn in E; lia).
  rewrite E in Hc, Hs. apply chain_app in Hc as [Hcu (Hfpp & Hfn & Hcv)]. apply spaced_app in Hs as (Hsu & (_ & Hsv) & Hsuv). cbn [first] in Hcu.
  assert (Hu : forall b, b ∈ u -> b.1 <> fp) by (intros b Hb; specialize (Hsuv b (fp, fn) Hb ltac:(left)); cbn in Hsuv; lia).
  assert (Hv : forall b, b ∈ v -> b.1 <> fp) by (intros b Hb; pose proof (spaced_in _ _ _ Hsv Hb); lia).
  rewrite Hfpp. destruct (first_big nu v) as [(v1 & p & pn & v2 & Ev & Hpn & Hsm)|Hsm].
  { left. rewrite Ev in *. apply chain_app in Hcv as [Hcv _]. rewrite first_app. cbn [first] in *. rewrite length_app in Hlen.
    apply (found_at pages h fs nu u fp fn v1 p pn v2); try done; [|lia]. intros b Hb. split; [by apply Hsm|apply Hv, elem_of_app; by left]. }
  set (pv := last_addr fp v). assert (Ew : malloc_loop pages fuel nu fp (first base_ v) h = malloc_loop pages (fuel - length v) nu pv base_ h).
  { replace fuel with (length v + (fuel - length v))%nat at 1 by lia. apply malloc_walk; [done|]. intros b Hb. split; [by apply Hsm|by apply Hv]. }
  rewrite Ew. clear Ew. destruct u as [|[b0 n0] u].
  { injection E as E1 E2 E3. subst fn v. right. split; [intros b [->|?]%elem_of_cons; [done|by apply Hsm]|]. exists pv. by rewrite E1. }
  injection E as <- <- E. destruct Hcu as (Hb1 & Hb2 & Hcu). cbn [length] in Hlen.
  assert (Estep : forall k, malloc_loop pages (S k) nu pv base_ h = malloc_loop pages k nu base_ (first fp u) h).
  { intros k. cbn [malloc_loop]. rewrite Hb2, (proj2 (Z.leb_gt nu 0)), (proj2 (Z.eqb_neq base_ _)), Hb1 by (done || apply (Hu (base_, 0)); left). done. }
  replace (fuel - length v)%nat with (S (fuel - length v - 1)) by lia. rewrite Estep.
  destruct (first_big nu u) as [(u1 & p & pn & u2 & Eu & Hpn & Hsm')|Hsm'].
  { left. rewrite Eu in *. apply chain_app in Hcu as [Hcu _]. rewrite first_app. cbn [first] in *. rewrite length_app in Hlen.
    apply (found_at pages h fs nu [] base_ 0 u1 p pn (u2 ++ (fp, fn) :: v)); try done; [by rewrite E, <- app_assoc| |lia].
    intros b Hb. split; [by apply Hsm'|apply Hu; right; apply elem_of_app; by left]. }
  assert (Hu' : forall b, b ∈ u -> b.2 < nu /\ b.1 <> fp) by (intros b Hb; split; [by apply Hsm'|apply Hu; by right]).
  destruct (Z.le_gt_cases nu fn) as [Hfb|Hfb].
  - left. apply (found_at pages h fs nu [] base_ 0 u fp fn v); try done; [by rewrite E|lia].
  - right. split.
    + intros b. rewrite E, elem_of_cons, elem_of_app, elem_of_cons. intros [->|[?|[->|?]]]; cbn; auto with lia.
    + exists (last_addr base_ u). replace (fuel - length v - 1)%nat with (length u + (fuel - length fs))%nat by lia. by apply malloc_walk.
Qed.

(** ** More memory *)

Lemma covered_block l hi st n : 0 < n -> forall lo, ordered lo l hi -> (forall x, st <= x < st + 8 * n -> covered l x) -> exists b, b ∈ l /\ n <= b.2.
Proof using.
  intros Hn. induction l as [|[a k] l IH]; intros lo Ho Hc; [by destruct (proj1 (covered_nil st) (Hc st ltac:(lia)))|].
  destruct Ho as (H1 & H2 & H3 & H4). assert (Hl : forall x, covered l x -> a + 8 * k < x) by (intros x (b & Hb & Hx); pose proof (ordered_in _ _ _ _ H4 Hb); lia).
  destruct (proj1 (covered_cons _ _ _ _) (Hc st ltac:(lia))) as [Hs|Hs].
  - exists (a, k). split; [left|]. cbn. destruct (Z.le_gt_cases (st + 8 * n) (a + 8 * k)); [lia|].
    destruct (proj1 (covered_cons _ _ _ _) (Hc (a + 8 * k) ltac:(lia))) as [?|?%Hl]; lia.
  - destruct (IH _ H4) as (b & Hb & Hn'); [|exists b; split; [by right|done]]. intros x Hx. specialize (Hl st Hs).
    destruct (proj1 (covered_cons _ _ _ _) (Hc x Hx)); [lia|done].
Qed.

Lemma heap_grow h fs al nu : heap_ok h fs al -> 0 < nu -> h_brk h + 8 * nu <= KERNBASE ->
  heap_ok (mkUheap (set_s_size (h_brk h) nu (h_mem h)) (h_freep h) (h_brk h + 8 * nu)) fs (<[h_brk h := nu]> al).
Proof using.
  intros [Hfp Hc Ho [Hb0 Hbrk] Hsz Hap Hal] Hnu Hk. assert (F : forall x, x < h_brk h -> ld8 (set_s_size (h_brk h) nu (h_mem h)) x = ld8 (h_mem h) x) by (intros; apply ld8_set_size; lia).
  assert (Hw : h_brk h + 8 * nu < 2 ^ 32) by (unfold KERNBASE in Hk; lia).
  split; cbn [h_mem h_freep h_brk]; [done| | |lia| | |].
  - apply (chain_ext (h_mem h)); [|done]. intros b x [->|Hb]%elem_of_cons Hx; apply F; cbn in *; [lia|]. pose proof (ordered_in _ _ _ _ Ho Hb). lia.
  - apply (ordered_hi _ _ (h_brk h)); [lia|done].
  - intros a n [[<- <-]|[_ Ha]]%lookup_insert_Some; [repeat split; try lia; apply s_size_eq; lia|]. destruct (Hsz _ _ Ha) as (? & ? & ? & <-).
    do 2 (split; [done|]). split; [lia|]. apply (header_ext (h_mem h)). intros x Hx. apply F. lia.
  - intros b a n Hb [[<- <-]|[_ Ha]]%lookup_insert_Some; [|by apply Hap]. pose proof (ordered_in _ _ _ _ Ho Hb). lia.
  - intros a n b k [[<- <-]|[_ Ha]]%lookup_insert_Some [[<- <-]|[_ Hb]]%lookup_insert_Some; [by left| | |by apply Hal].
    + destruct (Hsz _ _ Hb). lia.
    + destruct (Hsz _ _ Ha). lia.
Qed.

Lemma sbrk_run pages h n : 0 < n < 2 ^ 31 -> 0 <= h_brk h <= KERNBASE ->
  sbrk pages (u32 n) h = (u32 (-1), h) /\ grown_size pages (h_brk h) n = None \/
  h_brk h + n < KERNBASE /\ sbrk pages (u32 n) h = (h_brk h, set_h_brk (h_brk h + n) h) /\ grown_size pages (h_brk h) n <> None.
Proof using.
  intros Hn Hb. unfold sbrk. replace (s32 (u32 n)) with n by (rewrite (u32_small n) by lia; rewrite s32_small; lia).
  unfold grown_size, KERNBASE in *. rewrite (proj2 (Z.ltb_lt 0 n)) by lia. rewrite (u32_small (h_brk h + n)) by lia.
  destruct (Z.leb_spec 0x80000000 (h_brk h + n)); [by left|]. rewrite (proj2 (Z.ltb_ge _ _)) by lia.
  destruct (pages _ _); [right; repeat split; done || lia|by left].
Qed.

Lemma morecore_run pages h fs al nu fuel : heap_ok h fs al -> 0 < nu -> 8 * nu < 2 ^ 31 -> (S (length fs) <= fuel)%nat ->
  (morecore pages fuel nu h = Some (0, h) /\ grown_size pages (h_brk h) (8 * Z.max nu 4096) = None) \/
  exists h' fs', morecore pages fuel nu h = Some (h_freep h', h') /\ h_freep h' <> 0 /\ heap_ok h' fs' al /\ h_brk h <= h_brk h' /\ (length fs' <= S (length fs))%nat /\
    (exists b, b ∈ fs' /\ nu <= b.2) /\ (forall x, covered fs' x <-> covered fs x \/ h_brk h <= x < h_brk h') /\
    forall a k x, al !! a = Some k -> a <= x < a + 8 * k -> ld8 (h_mem h') x = ld8 (h_mem h) x.
Proof using.
  intros Hh Hnu Hs Hf. unfold morecore. replace (if nu <? 4096 then 4096 else nu) with (Z.max nu 4096) by (destruct (Z.ltb_spec nu 4096); lia).
  set (n := Z.max nu 4096) in *. rewrite (Z.mul_comm n). unfold sizeof_Header. pose proof (ho_brk _ _ _ Hh) as [Hb0 Hbrk].
  destruct (sbrk_run pages h (8 * n) ltac:(lia) ltac:(lia)) as [[-> E]|(Hb & -> & _)]; [by left|]. right.
  assert (Hne : (h_brk h =? u32 (-1)) = false) by (apply Z.eqb_neq; unfold KERNBASE in Hbrk; change (u32 (-1)) with (2 ^ 32 - 1); lia). rewrite Hne.
  assert (Hg := heap_grow h fs al n Hh ltac:(lia) ltac:(lia)).
  rewrite hadd_small by (unfold KERNBASE in Hbrk; lia).
  destruct (free_run _ fs _ (h_brk h) n fuel Hg ltac:(apply lookup_insert_eq) Hf) as (h' & fs' & R & Hh' & Hbrk' & Hl & Hcov & F).
  assert (Hnone : al !! h_brk h = None) by (destruct (al !! h_brk h) as [k|] eqn:E; [|done]; destruct (ho_size _ _ _ Hh _ _ E); lia).
  rewrite delete_insert_id in Hh', F by done. change (8 * 1) with 8.
  exists h', fs'. unfold set_h_mem, set_h_brk. cbn [h_mem h_freep h_brk mbind option_bind]. rewrite R. cbn in Hbrk'. split; [done|].
  split; [|split; [done|split; [rewrite Hbrk'; lia|split; [done|split; [|split]]]]].
  - pose proof (ho_freep _ _ _ Hh') as Hp. apply list_elem_of_fmap in Hp as (b & -> & [->|Hb']%elem_of_cons); [cbn; lia|].
    pose proof (ordered_in _ _ _ _ (ho_ord _ _ _ Hh') Hb'). lia.
  - destruct (covered_block fs' (h_brk h') (h_brk h) n ltac:(lia) _ (ho_ord _ _ _ Hh')) as (b & Hb' & Hn); [intros x Hx; apply Hcov; by right|]. exists b. split; [done|lia].
  - intros x. rewrite Hcov, Hbrk'. done.
  - intros a k x Ha Hx. rewrite (F a k x Ha Hx). cbn. apply ld8_set_size. destruct (ho_size _ _ _ Hh _ _ Ha). lia.
Qed.

(** ** malloc *)

Lemma chain_size m l z b : chain m l z -> b ∈ l -> s_size m b.1 = b.2.
Proof using. induction l as [|[a n] l IH]; [by intros _ ?%elem_of_nil|]. intros (_ & H1 & H2) [->|Hb]%elem_of_cons; [done|by apply IH]. Qed.

Definition mallocated pages (h : uheap) fs al nu fuel : Prop :=
  exists r h' fs', malloc_loop pages fuel nu (h_freep h) (s_ptr (h_mem h) (h_freep h)) h = Some (r, h') /\
    ((r = 0 /\ h' = h /\ fs' = fs /\ (forall b, b ∈ fs -> b.2 < nu) /\ grown_size pages (h_brk h) (8 * Z.max nu 4096) = None) \/
     exists a, 0 < a /\ r = a + 8 /\ allocated h fs al nu a h' fs').

Lemma allocated_pos h fs al nu a h' fs' : allocated h fs al nu a h' fs' -> 0 < a.
Proof using.
  intros [_ Hh _ _]. pose proof (ho_brk _ _ _ Hh). destruct (ho_size _ _ _ Hh a nu ltac:(apply lookup_insert_eq)). lia.
Qed.

Lemma malloc_loop_run pages h fs al nu fuel : heap_ok h fs al -> 0 < nu -> 8 * nu < 2 ^ 31 -> (2 * length fs + 4 <= fuel)%nat ->
  mallocated pages h fs al nu fuel.
Proof using.
  intros Hh Hnu Hs Hf. unfold mallocated.
  destruct (malloc_round pages h fs al nu fuel Hh Hnu ltac:(lia)) as [(x & pv & pvn & p & pn & y & f' & E & Hpn & ->)|[Hsm (pv & ->)]].
  { destruct (alloc_at pages h fs al x pv pvn p pn y nu f' Hh E ltac:(lia)) as (a & h' & fs' & R & A).
    exists (a + 8), h', fs'. split; [done|]. right. exists a. split; [by apply (allocated_pos _ _ _ _ _ _ _ A)|done]. }
  destruct (fuel - length fs)%nat as [|f] eqn:Ef; [lia|]. cbn [malloc_loop].
  pose proof (ho_freep _ _ _ Hh) as Hp. apply list_elem_of_fmap in Hp as ([fp fn] & Efp & Hp). cbn in Efp.
  pose proof (chain_size _ _ _ _ (ho_chain _ _ _ Hh) Hp) as Hsz. specialize (Hsm _ Hp) as Hfn. cbn [fst snd] in Hsz, Hfn.
  rewrite Efp, Hsz, (proj2 (Z.leb_gt nu fn)), Z.eqb_refl by done.
  destruct (morecore_run pages h fs al nu (S f) Hh Hnu Hs ltac:(lia)) as [[-> Hg]|(h1 & fs1 & -> & Hnz & Hh1 & Hb1 & Hl1 & (b & Hb & Hbn) & Hcov & F)]; cbn [mbind option_bind].
  { exists 0, h, fs. split; [done|]. left. do 3 (split; [done|]). split; [|done]. intros b Hb. apply Hsm. by right. }
  rewrite (proj2 (Z.eqb_neq _ _)) by done.
  destruct (malloc_round pages h1 fs1 al nu f Hh1 Hnu ltac:(lia)) as [(x & pv1 & pvn & p & pn & y & f' & E & Hpn & ->)|[Hsm1 _]].
  2:{ specialize (Hsm1 b ltac:(by right)). lia. }
  destruct (alloc_at pages h1 fs1 al x pv1 pvn p pn y nu f' Hh1 E ltac:(lia)) as (a & h' & fs' & R & A).
  exists (a + 8), h', fs'. split; [done|]. right. exists a. split; [by apply (allocated_pos _ _ _ _ _ _ _ A)|]. split; [done|].
  destruct A as [A1 A2 A3 A4 A5]. split; [done|done|lia| |intros c k z Hc Hz; rewrite (A5 c k z Hc Hz); by apply F with (a := c) (k := k)].
  intros z. rewrite A4, Hcov. assert (h_brk h <= z < h_brk h' <-> h_brk h <= z < h_brk h1 \/ h_brk h1 <= z < h_brk h') by lia. tauto.
Qed.

(** The heap before the first call, and after. *)
Definition heap_inv (h : uheap) (fs : list (Z * Z)) (al : gmap Z Z) : Prop :=
  (h_freep h = 0 /\ fs = [] /\ al = ∅ /\ 0 < base_ /\ base_ + 8 <= h_brk h <= KERNBASE) \/ heap_ok h fs al.

Lemma units_enough n : 0 <= n <= 2 ^ 31 - 32 -> 0 < units n /\ n <= 8 * (units n - 1) < n + 8.
Proof using.
  intros Hn. unfold units, sizeof_Header. rewrite (u32_small (n + 8 - 1)) by lia. pose proof (Z.div_mod (n + 8 - 1) 8 ltac:(lia)).
  pose proof (Z.mod_pos_bound (n + 8 - 1) 8 ltac:(lia)). rewrite u32_small; lia.
Qed.

Lemma malloc_init h : h_freep h = 0 -> 0 < base_ -> base_ + 8 <= h_brk h <= KERNBASE ->
  heap_ok (mkUheap (set_s_size base_ 0 (set_s_ptr base_ base_ (h_mem h))) base_ (h_brk h)) [] ∅.
Proof using.
  intros Hf Hb Hbrk. assert (base_ < 2 ^ 32) by (unfold KERNBASE in Hbrk; lia). split; cbn [h_mem h_freep h_brk chain ordered]; try done; [left| ].
  split; [rewrite s_ptr_size by lia; apply s_ptr_eq; cbn; lia|]. split; [apply s_size_eq; lia|done].
Qed.

End search.

(** C21: [malloc] of [n] bytes, for [n] up to 2 GB less 32 bytes, on any heap
    that calls of [malloc] and [free] can leave: it terminates; either it
    returns 0, no free block is large enough and the kernel refuses more
    memory, or it returns a block with room for [n] bytes that overlaps no
    allocated and no free block.  The free memory is what it was, with what the
    kernel added, less the block; the contents of allocated blocks do not
    change. *)
Theorem malloc_allocates base_ pages h fs al n fuel : heap_inv base_ h fs al -> 0 <= n <= 2 ^ 31 - 32 -> (2 * length fs + 4 <= fuel)%nat ->
  exists r h' fs', malloc base_ pages fuel n h = Some (r, h') /\
    ((r = 0 /\ heap_ok base_ h' fs' al /\ fs' = fs /\ (forall b, b ∈ fs -> b.2 < units n) /\ grown_size pages (h_brk h) (8 * Z.max (units n) 4096) = None) \/
     exists a, 0 < a /\ r = a + 8 /\ n <= 8 * (units n - 1) /\ allocated base_ h fs al (units n) a h' fs').
Proof.
  intros Hi Hn Hf. destruct (units_enough n Hn) as [Hu Hu']. unfold malloc. destruct Hi as [(E & -> & -> & Hb & Hbrk)|Hh].
  - rewrite E. cbn [Z.eqb]. pose proof (malloc_init base_ h E Hb Hbrk) as Hh.
    destruct (malloc_loop_run base_ pages _ [] ∅ (units n) fuel Hh Hu ltac:(lia) Hf) as (r & h' & fs' & R & H). exists r, h', fs'. split; [exact R|].
    destruct H as [(-> & -> & -> & H1 & H2)|(a & H1 & H2 & [A1 A2 A3 A4 A5])]; [by left|right]. exists a. do 3 (split; [done || lia|]). split; try done.
  - assert (Hnz : h_freep h <> 0).
    { pose proof (ho_brk _ _ _ _ Hh) as [Hb _]. pose proof (ho_freep _ _ _ _ Hh) as Hp. apply list_elem_of_fmap in Hp as (b & -> & [->|Hb']%elem_of_cons); [cbn; lia|].
      pose proof (ordered_in _ _ _ _ (ho_ord _ _ _ _ Hh) Hb'). lia. }
    rewrite (proj2 (Z.eqb_neq _ _)) by done.
    destruct (malloc_loop_run base_ pages h fs al (units n) fuel Hh Hu ltac:(lia) Hf) as (r & h' & fs' & R & H). exists r, h', fs'. split; [exact R|].
    destruct H as [(-> & -> & -> & H1 & H2)|(a & H1 & H2 & A)]; [by left|right]. exists a. do 3 (split; [done || lia|]). done.
Qed.

(** C22: [free] of a pointer [malloc] returned and that is still allocated: the
    list, which may be entered anywhere, is searched for the place of the block
    in one round; the block joins the free memory, merged with the free blocks
    it touches on either side, so that no two free blocks are adjacent; the
    other allocated blocks and their contents do not change. *)
Theorem free_releases base_ h fs al a n fuel : heap_inv base_ h fs al -> al !! a = Some n -> (S (length fs) <= fuel)%nat ->
  exists h' fs', free fuel (a + 8) h = Some h' /\ heap_ok base_ h' fs' (delete a al) /\ h_brk h' = h_brk h /\
    (forall x, covered fs' x <-> covered fs x \/ a <= x < a + 8 * n) /\
    forall b k x, b <> a -> al !! b = Some k -> b <= x < b + 8 * k -> ld8 (h_mem h') x = ld8 (h_mem h) x.
Proof.
  intros [(_ & _ & -> & _)|Hh] Ha Hf; [by rewrite lookup_empty in Ha|].
  destruct (free_run base_ h fs al a n fuel Hh Ha Hf) as (h' & fs' & R & Hh' & Hb & _ & Hc & F). exists h', fs'. do 4 (split; [done|]).
  intros b k x Hne Hb'. apply F. by rewrite lookup_delete_ne.
Qed.

(** A new process with its break at 0x3000 and [base] in its data. *)
Definition new_heap : uheap := mkUheap ∅ 0 0x3000.

Lemma new_heap_inv : heap_inv 0x2000 new_heap [] ∅.
Proof. left. unfold new_heap, KERNBASE. cbn. repeat split; lia. Qed.

Lemma malloc_allocates_witness : exists a h', malloc 0x2000 (fun _ _ => true) 4 100 new_heap = Some (a + 8, h') /\ s_size (h_mem h') a = 14.
Proof.
  destruct (malloc_allocates 0x2000 (fun _ _ => true) new_heap [] ∅ 100 4 new_heap_inv) as (r & h' & fs' & R & [(-> & _ & _ & _ & H)|(a & _ & -> & _ & A)]); [lia|cbn; lia|discriminate H|].
  exists a, h'. split; [exact R|]. destruct A as [_ Hh _ _ _]. apply (ho_size _ _ _ _ Hh a 14), lookup_insert_eq.
Defined.

Lemma free_releases_witness : exists a h h' fuel, malloc 0x2000 (fun _ _ => true) 4 100 new_heap = Some (a + 8, h) /\ free fuel (a + 8) h = Some h' /\
  exists fs', heap_ok 0x2000 h' fs' ∅ /\ covered fs' a.
Proof.
  destruct (malloc_loop_run 0x2000 (fun _ _ => true) (mkUheap (set_s_size 0x2000 0 (set_s_ptr 0x2000 0x2000 ∅)) 0x2000 0x3000) [] ∅ 14 4)
    as (r & h & fs & R & [(-> & _ & _ & _ & H)|(a & Ha & -> & [_ Hh _ _ _])]); [by apply (malloc_init 0x2000 new_heap)|lia|lia|cbn; lia|discriminate H|].
  destruct (free_releases 0x2000 h fs _ a 14 (S (length fs)) (or_intror Hh)) as (h' & fs' & R' & Hh' & _ & Hc & _); [apply lookup_insert_eq|lia|].
  exists a, h, h', (S (length fs)). split; [exact R|]. split; [done|]. exists fs'. rewrite delete_insert_id in Hh' by done. split; [done|]. apply Hc. right. lia.
Defined.

(** The size computation wraps around: a request just below 4 GB gets a block
    of one header, that has no room at all. *)
Theorem malloc_size_wraps base_ pages fuel n h : 2 ^ 32 - 7 <= n < 2 ^ 32 -> malloc base_ pages fuel n h = malloc base_ pages fuel 0 h /\ units 0 = 1.
Proof.
  intros Hn. split; [|reflexivity]. assert (E : units n = units 0); [|unfold malloc; by rewrite E].
  unfold units, sizeof_Header. replace (u32 (n + 8 - 1)) with (n + 7 - 2 ^ 32) by (unfold u32; apply Z.mod_unique with 1; lia).
  rewrite Z.div_small by lia. reflexivity.
Qed.
