(* ===== verification/Shell.v ===== *)
(** * The shell: src/xv6/sh.c

    The line read is a list of characters [text] without NUL; a pointer into it
    is an offset, and the character at the end, which the code may read, is the
    terminating NUL.  The parser builds the tree of commands with pointers to
    the first character and behind the last character of each word;
    [nulterminate] writes a NUL behind every word of the tree.  A call of
    [panic] ends the process, so the parser returns it as a value.  The loops
    take the number of characters left as fuel, the mutually recursive
    functions an explicit fuel (ShellSpec.v shows how much is enough).
    [runcmd], which never returns, is the tree of the system calls it makes. *)

From stdpp Require Import base list list_numbers numbers strings.
From Stdlib Require Import ZArith Lia.
From S2P Require Import Prelude Printf Sysfile.

(** ** Commands *)

Inductive cmd :=
  | EXEC (argv : list (nat * nat))
  | REDIR (c : cmd) (file efile : nat) (mode fd : Z)
  | PIPE (left right : cmd)
  | LIST (left right : cmd)
  | BACK (c : cmd).

Definition MAXARGS : nat := 10.

Inductive pres (A : Type) := POk (a : A) | PPanic (msg : list Z) | PFuel.
Arguments POk {A} _.
Arguments PPanic {A} _.
Arguments PFuel {A}.

#[export] Instance pres_ret : MRet pres := fun A => POk.
#[export] Instance pres_bind : MBind pres := fun A B f x => match x with POk a => f a | PPanic m => PPanic m | PFuel => PFuel end.

(** ** Tokens *)

Definition whitespace : list Z := [32; 9; 13; 10; 11].
Definition symbols : list Z := chars "<|>&;()".
Definition strchr_in (s : list Z) (c : Z) : bool := existsb (Z.eqb c) s.

Section parse.
Context (text : list Z).

Definition es : nat := length text.
Definition char_at (s : nat) : Z := nth s text 0.

(** [while(s < es && strchr(whitespace, *s)) s++], with [n] the distance to [es]. *)
Fixpoint skip_ws (n s : nat) : nat :=
  match n with
  | O => s
  | S n' => if strchr_in whitespace (char_at s) then skip_ws n' (S s) else s
  end.

Fixpoint skip_word (n s : nat) : nat :=
  match n with
  | O => s
  | S n' =>
      if (negb (strchr_in whitespace (char_at s)) && negb (strchr_in symbols (char_at s)))%bool
      then skip_word n' (S s) else s
  end.

Record token := mkToken { t_ret : Z; t_q : nat; t_eq : nat }.

Definition gettoken (ps : nat) : token * nat :=
  let q := skip_ws (es - ps) ps in
  let c := char_at q in
  let '(ret, s) :=
    if c =? 0 then (c, q)
    else if strchr_in (chars "|();&<") c then (c, S q)
    else if c =? 62 then (if char_at (S q) =? 62 then (43, S (S q)) else (c, S q))
    else (97, skip_word (es - q) q) in
  (mkToken ret q s, skip_ws (es - s) s).

Definition peek (toks : list Z) (ps : nat) : bool * nat :=
  let s := skip_ws (es - ps) ps in
  ((negb (char_at s =? 0) && strchr_in toks (char_at s))%bool, s).

(** ** The parser *)

Fixpoint parseredirs_loop (n : nat) (c : cmd) (ps : nat) : pres (cmd * nat) :=
  match n with
  | O => PFuel
  | S n' =>
      let '(b, ps) := peek (chars "<>") ps in
      if b then
        let '(tok, ps) := gettoken ps in
        let '(file, ps) := gettoken ps in
        if negb (t_ret file =? 97) then PPanic (chars "missing file for redirection")
        else if t_ret tok =? 60 then parseredirs_loop n' (REDIR c (t_q file) (t_eq file) O_RDONLY 0) ps
        else parseredirs_loop n' (REDIR c (t_q file) (t_eq file) (Z.lor O_WRONLY O_CREATE) 1) ps
      else mret (c, ps)
  end.
Definition parseredirs (c : cmd) (ps : nat) : pres (cmd * nat) := parseredirs_loop (S (es - ps)) c ps.

(** The [execcmd] that [parseexec] fills is the innermost command of [ret]. *)
Fixpoint add_arg (a : nat * nat) (ret : cmd) : cmd :=
  match ret with
  | EXEC argv => EXEC (argv ++ [a])
  | REDIR c file efile mode fd => REDIR (add_arg a c) file efile mode fd
  | _ => ret
  end.

Fixpoint parseargs (n argc : nat) (ret : cmd) (ps : nat) : pres (cmd * nat) :=
  match n with
  | O => PFuel
  | S n' =>
      let '(b, ps) := peek (chars "|)&;") ps in
      if b then mret (ret, ps)
      else
        let '(tok, ps) := gettoken ps in
        if t_ret tok =? 0 then mret (ret, ps)
        else if negb (t_ret tok =? 97) then PPanic (chars "syntax")
        else
          let ret := add_arg (t_q tok, t_eq tok) ret in
          if (MAXARGS <=? S argc)%nat then PPanic (chars "too many args")
          else '(ret, ps) ← parseredirs ret ps; parseargs n' (S argc) ret ps
  end.

Fixpoint parseback (n : nat) (c : cmd) (ps : nat) : pres (cmd * nat) :=
  match n with
  | O => PFuel
  | S n' =>
      let '(b, ps) := peek (chars "&") ps in
      if b then let '(_, ps) := gettoken ps in parseback n' (BACK c) ps else mret (c, ps)
  end.

Fixpoint parseline (fuel ps : nat) : pres (cmd * nat) :=
  match fuel with
  | O => PFuel
  | S fuel' =>
      '(c, ps) ← parsepipe fuel' ps;
      '(c, ps) ← parseback (S (es - ps)) c ps;
      let '(b, ps) := peek (chars ";") ps in
      if b then
        let '(_, ps) := gettoken ps in
        '(r, ps) ← parseline fuel' ps;
        mret (LIST c r, ps)
      else mret (c, ps)
  end
with parsepipe (fuel ps : nat) : pres (cmd * nat) :=
  match fuel with
  | O => PFuel
  | S fuel' =>
      '(c, ps) ← parseexec fuel' ps;
      let '(b, ps) := peek (chars "|") ps in
      if b then
        let '(_, ps) := gettoken ps in
        '(r, ps) ← parsepipe fuel' ps;
        mret (PIPE c r, ps)
      else mret (c, ps)
  end
with parseexec (fuel ps : nat) : pres (cmd * nat) :=
  match fuel with
  | O => PFuel
  | S fuel' =>
      let '(b, ps) := peek (chars "(") ps in
      if b then parseblock fuel' ps
      else
        '(ret, ps) ← parseredirs (EXEC []) ps;
        parseargs (S (es - ps)) 0 ret ps
  end
with parseblock (fuel ps : nat) : pres (cmd * nat) :=
  match fuel with
  | O => PFuel
  | S fuel' =>
      let '(b, ps) := peek (chars "(") ps in
      if negb b then PPanic (chars "parseblock")
      else
        let '(_, ps) := gettoken ps in
        '(c, ps) ← parseline fuel' ps;
        let '(b, ps) := peek (chars ")") ps in
        if negb b then PPanic (chars "syntax - missing )")
        else let '(_, ps) := gettoken ps in parseredirs c ps
  end.

End parse.

(** ** nulterminate: the buffer is the text and the NUL behind it *)

Fixpoint nul_argv (argv : list (nat * nat)) (buf : list Z) : list Z :=
  match argv with
  | [] => buf
  | (_, eq) :: argv' => nul_argv argv' (<[eq := 0]> buf)
  end.

Fixpoint nulterminate (c : cmd) (buf : list Z) : list Z :=
  match c with
  | EXEC argv => nul_argv argv buf
  | REDIR c _ efile _ _ => <[efile := 0]> (nulterminate c buf)
  | PIPE l r => nulterminate r (nulterminate l buf)
  | LIST l r => nulterminate r (nulterminate l buf)
  | BACK c => nulterminate c buf
  end.

Definition parsecmd (fuel : nat) (text : list Z) : pres (cmd * list Z) :=
  '(c, ps) ← parseline text fuel 0;
  let '(_, ps) := peek text [] ps in
  if negb (ps =? es text)%nat then PPanic (chars "leftovers: " ++ drop ps text ++ [10] ++ chars "syntax")
  else mret (c, nulterminate c (text ++ [0])).

(** The C string at an offset of the buffer. *)
Fixpoint c_str (buf : list Z) : list Z :=
  match buf with
  | [] => []
  | c :: buf' => if c =? 0 then [] else c :: c_str buf'
  end.
Definition str_at (buf : list Z) (q : nat) : list Z := c_str (drop q buf).

(** ** runcmd: the system calls of the process that runs a command *)

Inductive sys :=
  | Sexit
  | Sexec (path : list Z) (argv : list (list Z)) (failed : sys)
  | Sprintf (fd : Z) (s : list Z) (k : sys)
  | Sclose (fd : Z) (k : sys)
  | Sdup (fd : Z) (k : sys)
  | Sopen (file : list Z) (mode : Z) (failed k : sys)
  | Spipe (failed : sys) (k : Z -> Z -> sys)
  | Sfork (failed child parent : sys)
  | Swait (k : sys).

Definition sh_panic (msg : list Z) : sys := Sprintf 2 (msg ++ [10]) Sexit.
(** [if(fork1() == 0) child; parent], where the child does not come back. *)
Definition fork1 (child parent : sys) : sys := Sfork (sh_panic (chars "fork")) child parent.

Fixpoint runcmd (buf : list Z) (c : cmd) : sys :=
  match c with
  | EXEC [] => Sexit
  | EXEC (((q, _) :: _) as argv) =>
      Sexec (str_at buf q) (map (fun a => str_at buf a.1) argv)
        (Sprintf 2 (chars "exec " ++ str_at buf q ++ chars " failed" ++ [10]) Sexit)
  | REDIR c file _ mode fd =>
      Sclose fd
        (Sopen (str_at buf file) mode
           (Sprintf 2 (chars "open " ++ str_at buf file ++ chars " failed" ++ [10]) Sexit)
           (runcmd buf c))
  | LIST l r => fork1 (runcmd buf l) (Swait (runcmd buf r))
  | PIPE l r =>
      Spipe (sh_panic (chars "pipe")) (fun p0 p1 =>
        fork1 (Sclose 1 (Sdup p1 (Sclose p0 (Sclose p1 (runcmd buf l)))))
          (fork1 (Sclose 0 (Sdup p0 (Sclose p0 (Sclose p1 (runcmd buf r)))))
             (Sclose p0 (Sclose p1 (Swait (Swait Sexit))))))
  | BACK c => fork1 (runcmd buf c) Sexit
  end.

(** ** The main loop *)

(** [gets] of ulib.c on the characters still to be read; [n] is [max - 1]. *)
Fixpoint gets (n : nat) (input : list Z) : list Z * list Z :=
  match n, input with
  | S n', c :: input' =>
      if (c =? 10) || (c =? 13) then ([c], input')
      else let '(b, rest) := gets n' input' in (c :: b, rest)
  | _, _ => ([], input)
  end%bool.

(** What the shell does with a line: change the directory, or run it in a child. *)
Inductive shact := SChdir (path : list Z) | SRun (c : pres (cmd * list Z)).

Definition do_line (fuel : nat) (buf : list Z) : shact :=
  match buf with
  | 99 :: 100 :: 32 :: path => SChdir (take (length path - 1) path)
  | _ => SRun (parsecmd fuel buf)
  end.

Fixpoint main_loop (fuel : nat) (input : list Z) : list shact :=
  match fuel with
  | O => []
  | S fuel' =>
      let '(b, rest) := gets 99 input in
      match c_str b with
      | [] => []
      | buf => do_line (4 * length buf + 4) buf :: main_loop fuel' rest
      end
  end.
