(* ===== verification/ShellSpec.v ===== *)
(** * The grammar of the shell, and the parser of src/xv6/sh.c

    A line is a list of tokens ([lex]); the grammar gives the lines of tokens
    and the command each denotes, with words as strings.  The parser of Shell.v
    accepts exactly the lines of the grammar and its tree, read through the
    buffer after [nulterminate], is the command of the line. *)

From stdpp Require Import base list list_numbers numbers strings.
From Stdlib Require Import ZArith Lia.
From S2P Require Import Prelude Printf Sysfile Shell.

(** ** Tokens *)

Inductive tok := TSym (c : Z) | TApp | TWord (w : list Z).

Definition is_ws (c : Z) : bool := strchr_in whitespace c.
Definition is_sym (c : Z) : bool := strchr_in symbols c.
Definition wordc (c : Z) : bool := (negb (is_ws c) && negb (is_sym c))%bool.

Fixpoint lex (s : list Z) : list tok :=
  match s with
  | [] => []
  | c :: s' =>
      if is_ws c then lex s'
      else if c =? 62 then
        match s' with
        | c2 :: s'' => if c2 =? 62 then TApp :: lex s'' else TSym c :: lex s'
        | [] => [TSym c]
        end
      else if is_sym c then TSym c :: lex s'
      else
        match s' with
        | c2 :: _ =>
            if wordc c2 then match lex s' with TWord w :: ts => TWord (c :: w) :: ts | ts => TWord [c] :: ts end
            else TWord [c] :: lex s'
        | [] => [TWord [c]]
        end
  end.

(** A list that is empty or starts with a character that ends a word. *)
Definition ends_word (s : list Z) : Prop := match s with [] => True | c :: _ => wordc c = false end.

Lemma sym_not_ws c : is_sym c = true -> is_ws c = false.
Proof.
  unfold is_sym, is_ws, strchr_in, symbols, whitespace. cbn. intros H.
  repeat (apply orb_true_iff in H as [H|H]); try discriminate; apply Z.eqb_eq in H as ->; reflexivity.
Qed.

Lemma lex_ws c s : is_ws c = true -> lex (c :: s) = lex s.
Proof. intros H. cbn [lex]. by rewrite H. Qed.

Lemma wordc_split c : wordc c = true -> is_ws c = false /\ is_sym c = false /\ (c =? 62) = false.
Proof.
  unfold wordc. intros [H1%negb_true_iff H2%negb_true_iff]%andb_true_iff. split; [done|]. split; [done|].
  destruct (Z.eqb_spec c 62) as [->|]; done.
Qed.

Lemma lex_word w s : w <> [] -> Forall (fun c => wordc c = true) w -> ends_word s -> lex (w ++ s) = TWord w :: lex s.
Proof.
  intros Hne Hw Hs. induction w as [|c w IH]; [done|]. apply Forall_cons in Hw as [Hc Hw]. destruct (wordc_split c Hc) as (H1 & H2 & H3).
  cbn [app lex]. rewrite H1, H2, H3. destruct w as [|c2 w]; cbn [app].
  - destruct s as [|c2 s]; [done|]. cbn in Hs. by rewrite Hs.
  - rewrite (proj1 (proj1 (Forall_cons _ _ _) Hw)). change (c2 :: w ++ s) with ((c2 :: w) ++ s). by rewrite IH.
Qed.

Lemma lex_sym c s : is_sym c = true -> c <> 62 -> lex (c :: s) = TSym c :: lex s.
Proof. intros H1 H2. cbn [lex]. by rewrite sym_not_ws, (proj2 (Z.eqb_neq c 62)), H1. Qed.

Lemma lex_head_word c r : wordc c = true -> exists w ts, lex (c :: r) = TWord w :: ts.
Proof.
  intros H. destruct (wordc_split c H) as (H1 & H2 & H3). cbn [lex]. rewrite H1, H2, H3.
  destruct r as [|c2 r]; [eauto|]. destruct (wordc c2); [|eauto]. destruct (lex (c2 :: r)) as [|[]]; eauto.
Qed.

Lemma lex_nonempty c r : is_ws c = false -> lex (c :: r) <> [].
Proof.
  intros H. cbn [lex]. rewrite H. destruct (c =? 62); [destruct r as [|c2 r]; [done|by destruct (c2 =? 62)]|]. destruct (is_sym c); [done|].
  destruct r as [|c2 r]; [done|]. destruct (wordc c2); [|done]. by destruct (lex (c2 :: r)) as [|[]].
Qed.

Section lexer.
Context (text : list Z) (Hnz : Forall (fun c => c <> 0) text).

Abbreviation rest s := (drop s text).

Lemma char_rest s : char_at text s = match rest s with [] => 0 | c :: _ => c end.
Proof using.
  unfold char_at. destruct (rest s) as [|c r] eqn:E.
  - apply nth_overflow. apply (f_equal length) in E. rewrite length_drop in E. cbn in E. lia.
  - apply nth_lookup_Some. by rewrite <- (Nat.add_0_r s), <- lookup_drop, E.
Qed.

Lemma rest_tail s c r : rest s = c :: r -> (s < es text)%nat /\ c <> 0 /\ rest (S s) = r.
Proof using Hnz.
  intros E. assert (Hl : text !! s = Some c) by (by rewrite <- (Nat.add_0_r s), <- lookup_drop, E). split; [by apply lookup_lt_Some in Hl|].
  split; [by apply (Forall_lookup_1 _ _ _ _ Hnz Hl)|]. rewrite <- Nat.add_1_r, <- drop_drop, E. done.
Qed.

Lemma rest_nil s : rest s = [] <-> (es text <= s)%nat.
Proof using. split; [|apply drop_ge]. intros E. apply (f_equal length) in E. rewrite length_drop in E. unfold es. cbn in E. lia. Qed.

Lemma skip_ws_spec n : forall s, n = (es text - s)%nat -> let s' := skip_ws text n s in
  (s <= s')%nat /\ (s <= es text -> s' <= es text)%nat /\ lex (rest s') = lex (rest s) /\ match rest s' with [] => True | c :: _ => is_ws c = false end.
Proof using Hnz.
  induction n as [|n IH]; intros s Hn; cbn [skip_ws].
  { rewrite (proj2 (rest_nil s)) by lia. repeat split; lia. }
  destruct (rest s) as [|c r] eqn:E; [apply rest_nil in E; lia|]. destruct (rest_tail _ _ _ E) as (H1 & H2 & H3). rewrite char_rest, E.
  change (strchr_in whitespace c) with (is_ws c). destruct (is_ws c) eqn:Hc.
  - destruct (IH (S s) ltac:(lia)) as (K1 & K2 & K3 & K4). rewrite K3, H3, lex_ws by done. repeat split; try done; lia.
  - rewrite E. repeat split; try done; lia.
Qed.

Lemma skip_word_spec n : forall s, n = (es text - s)%nat -> let s' := skip_word text n s in
  (s <= s')%nat /\ (s <= es text -> s' <= es text)%nat /\ ends_word (rest s') /\
  rest s = take (s' - s) (rest s) ++ rest s' /\ Forall (fun c => wordc c = true) (take (s' - s) (rest s)).
Proof using Hnz.
  induction n as [|n IH]; intros s Hn; cbn [skip_word].
  { rewrite Nat.sub_diag, take_0. rewrite (proj2 (rest_nil s)) by lia. repeat split; try done; lia. }
  destruct (rest s) as [|c r] eqn:E; [apply rest_nil in E; lia|]. destruct (rest_tail _ _ _ E) as (H1 & H2 & H3). rewrite char_rest, E.
  change (negb (strchr_in whitespace c) && negb (strchr_in symbols c))%bool with (wordc c). destruct (wordc c) eqn:Hc.
  - destruct (IH (S s) ltac:(lia)) as (K1 & K2 & K3 & K4 & K5). set (s' := skip_word text n (S s)) in *.
    replace (s' - s)%nat with (S (s' - S s)) by lia. cbn [take app]. rewrite H3 in K4, K5.
    split; [lia|]. split; [lia|]. split; [done|]. split; [by rewrite <- K4|]. by constructor.
  - rewrite Nat.sub_diag, take_0, E. repeat split; try done; lia.
Qed.

(** The word [w] from [q] to [eq]. *)
Definition word_at (q eq : nat) (w : list Z) : Prop :=
  w <> [] /\ Forall (fun c => wordc c = true) w /\ eq = (q + length w)%nat /\ (eq <= es text)%nat /\ rest q = w ++ rest eq /\ ends_word (rest eq).

Definition tok_ret (t : tok) : Z := match t with TSym c => c | TApp => 43 | TWord _ => 97 end.
Definition tok_word (q eq : nat) (t : tok) : Prop := match t with TWord w => word_at q eq w | _ => True end.

(** What [gettoken] does to the tokens that are left. *)
Definition took (ps : nat) (t : token) (ps' : nat) : Prop :=
  match lex (rest ps) with
  | [] => t_ret t = 0 /\ lex (rest ps') = [] /\ (ps <= ps' <= es text)%nat
  | k :: ts => t_ret t = tok_ret k /\ tok_word (t_q t) (t_eq t) k /\ lex (rest ps') = ts /\ (ps < ps' <= es text)%nat
  end.

Lemma took_ws ps q t ps' : (ps <= q)%nat -> lex (rest q) = lex (rest ps) -> took q t ps' -> took ps t ps'.
Proof using.
  intros Hq E. unfold took. rewrite E. destruct (lex (rest ps)); [intros (? & ? & ?)|intros (? & ? & ? & ?)]; repeat split; done || lia.
Qed.

Lemma took_skip q ret e k ts : (q < e <= es text)%nat -> lex (rest q) = k :: ts -> lex (rest e) = ts -> ret = tok_ret k -> tok_word q e k ->
  took q (mkToken ret q e) (skip_ws text (es text - e) e).
Proof using Hnz.
  intros Hq E1 E2 -> Hw. unfold took. rewrite E1. destruct (skip_ws_spec (es text - e) e eq_refl) as (H1 & H2 & H3 & _).
  cbn [t_ret t_q t_eq]. split; [done|]. split; [done|]. split; [by rewrite H3|]. lia.
Qed.

Lemma sym_cases c : is_sym c = true -> strchr_in (chars "|();&<") c = true \/ c = 62.
Proof using.
  unfold is_sym, strchr_in at 1, symbols. cbn. intros H.
  repeat (apply orb_true_iff in H as [H|H]); try discriminate; apply Z.eqb_eq in H as ->; (by right) || (by left).
Qed.

Lemma gettoken_spec ps : (ps <= es text)%nat -> took ps (gettoken text ps).1 (gettoken text ps).2.
Proof using Hnz.
  intros Hps. unfold gettoken. destruct (skip_ws_spec (es text - ps) ps eq_refl) as (H1 & H2 & H3 & H4).
  set (q := skip_ws text (es text - ps) ps) in *. specialize (H2 Hps). apply (took_ws ps q); [done|done|]. rewrite char_rest.
  destruct (rest q) as [|c r] eqn:E.
  { cbn [Z.eqb]. apply rest_nil in E as Hq. replace q with (es text) in * by lia. rewrite Nat.sub_diag. cbn [fst snd skip_ws]. unfold took. rewrite E. cbn. repeat split; lia. }
  destruct (rest_tail _ _ _ E) as (K1 & K2 & K3). rewrite (proj2 (Z.eqb_neq c 0)) by done.
  destruct (is_sym c) eqn:Hc.
  - destruct (strchr_in (chars "|();&<") c) eqn:Hs.
    + assert (c <> 62) by (intros ->; discriminate Hs). cbn [fst snd].
      apply (took_skip q c (S q) (TSym c) (lex r)); [lia|by rewrite E, lex_sym|by rewrite K3|done|done].
    + destruct (sym_cases c Hc) as [?| ->]; [congruence|]. cbn [Z.eqb Pos.eqb]. rewrite char_rest, K3.
      destruct r as [|c2 r]; cbn [Z.eqb].
      * apply (took_skip q 62 (S q) (TSym 62) []); [lia|by rewrite E|by rewrite K3|done|done].
      * destruct (rest_tail _ _ _ K3) as (J1 & J2 & J3). destruct (Z.eqb_spec c2 62) as [->|Hc2]; cbn [fst snd].
        -- apply (took_skip q 43 (S (S q)) TApp (lex r)); [lia|by rewrite E|by rewrite J3|done|done].
        -- apply (took_skip q 62 (S q) (TSym 62) (lex (c2 :: r))); [lia|rewrite E; cbn [lex]; by rewrite (proj2 (Z.eqb_neq c2 62))|by rewrite K3|done|done].
  - assert (Hw : wordc c = true) by (unfold wordc; by rewrite H4, Hc). destruct (strchr_in (chars "|();&<") c) eqn:Hs.
    { exfalso. revert Hs Hc. unfold is_sym, strchr_in. cbn. rewrite !orb_true_iff, !orb_false_iff. intuition congruence. }
    rewrite (proj2 (proj2 (wordc_split c Hw))). destruct (skip_word_spec (es text - q) q eq_refl) as (W1 & W2 & W3 & W4 & W5).
    set (e := skip_word text (es text - q) q) in *. cbn [fst snd]. set (w := take (e - q) (rest q)) in *.
    assert (Hne : w <> []). { intros Ew. rewrite Ew in W4. cbn in W4. rewrite <- W4, E in W3. cbn in W3. congruence. }
    assert (Hlen : length w = (e - q)%nat) by (unfold w; rewrite length_take, length_drop; unfold es in *; lia).
    assert (0 < length w)%nat by (destruct w; [done|cbn; lia]).
    apply (took_skip q 97 e (TWord w) (lex (rest e))); [lia|rewrite W4; by apply lex_word|done|done|].
    cbn [tok_word]. repeat split; try done; lia.
Qed.

Definition peeks (toks : list Z) (ts : list tok) : bool :=
  match ts with TSym c :: _ => strchr_in toks c | TApp :: _ => strchr_in toks 62 | _ => false end.

Lemma peek_spec toks ps : (ps <= es text)%nat -> forallb is_sym toks = true ->
  (peek text toks ps).1 = peeks toks (lex (rest ps)) /\ lex (rest (peek text toks ps).2) = lex (rest ps) /\ (ps <= (peek text toks ps).2 <= es text)%nat.
Proof using Hnz.
  intros Hps Ht. unfold peek. destruct (skip_ws_spec (es text - ps) ps eq_refl) as (H1 & H2 & H3 & H4).
  set (q := skip_ws text (es text - ps) ps) in *. specialize (H2 Hps). cbn [fst snd]. split; [|split; [done|lia]]. rewrite <- H3, char_rest.
  destruct (rest q) as [|c r] eqn:E; [done|]. destruct (rest_tail _ _ _ E) as (K1 & K2 & K3). rewrite (proj2 (Z.eqb_neq c 0)) by done. cbn [negb andb].
  destruct (is_sym c) eqn:Hc.
  - destruct (Z.eqb_spec c 62) as [->|Hne]; [|by rewrite lex_sym]. cbn [lex]. destruct r as [|c2 r]; [done|]. by destruct (c2 =? 62).
  - assert (Hw : wordc c = true) by (unfold wordc; by rewrite H4, Hc). destruct (lex_head_word c r Hw) as (w & ts & ->). cbn [peeks].
    destruct (strchr_in toks c) eqn:Hs; [|done]. apply existsb_exists in Hs as (c' & Hin & ->%Z.eqb_eq). rewrite forallb_forall in Ht.
    by rewrite (Ht c' Hin) in Hc.
Qed.

End lexer.

(** ** The grammar *)

Inductive redir := RIn (w : list Z) | ROut (w : list Z) | RApp (w : list Z).
Inductive item := IArg (w : list Z) | IRedir (r : redir).

(** A line is a pipeline, sent to the background any number of times, and
    possibly [;] and another line; a pipeline is commands joined by [|]; a
    command is arguments and redirections in any order, or a line in
    parentheses followed by redirections. *)
Inductive line :=
  | Line1 (p : pipeline) (n : nat)
  | LineS (p : pipeline) (n : nat) (l : line)
with pipeline :=
  | Pipe1 (e : simple)
  | PipeS (e : simple) (p : pipeline)
with simple :=
  | Simple (items : list item)
  | Block (l : line) (rs : list redir).

Scheme line_mut := Induction for line Sort Prop
  with pipeline_mut := Induction for pipeline Sort Prop
  with simple_mut := Induction for simple Sort Prop.
Combined Scheme grammar_ind from line_mut, pipeline_mut, simple_mut.

(** The tokens of a line. *)
Definition redir_toks (r : redir) : list tok :=
  match r with RIn w => [TSym 60; TWord w] | ROut w => [TSym 62; TWord w] | RApp w => [TApp; TWord w] end.
Definition item_toks (i : item) : list tok := match i with IArg w => [TWord w] | IRedir r => redir_toks r end.

Fixpoint line_toks (l : line) : list tok :=
  match l with
  | Line1 p n => pipe_toks p ++ replicate n (TSym 38)
  | LineS p n l => pipe_toks p ++ replicate n (TSym 38) ++ TSym 59 :: line_toks l
  end
with pipe_toks (p : pipeline) : list tok :=
  match p with
  | Pipe1 e => simple_toks e
  | PipeS e p => simple_toks e ++ TSym 124 :: pipe_toks p
  end
with simple_toks (e : simple) : list tok :=
  match e with
  | Simple items => flat_map item_toks items
  | Block l rs => TSym 40 :: line_toks l ++ TSym 41 :: flat_map redir_toks rs
  end.

(** Commands with their words, and the command a line denotes. *)
Inductive scmd :=
  | XExec (argv : list (list Z))
  | XRedir (c : scmd) (file : list Z) (mode fd : Z)
  | XPipe (left right : scmd)
  | XList (left right : scmd)
  | XBack (c : scmd).

Definition add_redir (c : scmd) (r : redir) : scmd :=
  match r with
  | RIn w => XRedir c w O_RDONLY 0
  | ROut w | RApp w => XRedir c w (Z.lor O_WRONLY O_CREATE) 1
  end.

Definition item_args (items : list item) : list (list Z) := flat_map (fun i => match i with IArg w => [w] | _ => [] end) items.
Definition item_redirs (items : list item) : list redir := flat_map (fun i => match i with IRedir r => [r] | _ => [] end) items.

Fixpoint line_cmd (l : line) : scmd :=
  match l with
  | Line1 p n => Nat.iter n XBack (pipe_cmd p)
  | LineS p n l => XList (Nat.iter n XBack (pipe_cmd p)) (line_cmd l)
  end
with pipe_cmd (p : pipeline) : scmd :=
  match p with
  | Pipe1 e => simple_cmd e
  | PipeS e p => XPipe (simple_cmd e) (pipe_cmd p)
  end
with simple_cmd (e : simple) : scmd :=
  match e with
  | Simple items => foldl add_redir (XExec (item_args items)) (item_redirs items)
  | Block l rs => foldl add_redir (line_cmd l) rs
  end.

(** At most nine arguments. *)
Fixpoint line_ok (l : line) : Prop :=
  match l with
  | Line1 p n => pipe_ok p
  | LineS p n l => pipe_ok p /\ line_ok l
  end
with pipe_ok (p : pipeline) : Prop :=
  match p with
  | Pipe1 e => simple_ok e
  | PipeS e p => simple_ok e /\ pipe_ok p
  end
with simple_ok (e : simple) : Prop :=
  match e with
  | Simple items => (length (item_args items) < MAXARGS)%nat
  | Block l rs => line_ok l
  end.

(** ** Parsing tokens *)

Fixpoint x_add_arg (w : list Z) (x : scmd) : scmd :=
  match x with
  | XExec argv => XExec (argv ++ [w])
  | XRedir c file mode fd => XRedir (x_add_arg w c) file mode fd
  | _ => x
  end.

Definition is_redir (k : tok) : bool := peeks (chars "<>") [k].
Definition is_stop (k : tok) : bool := peeks (chars "|)&;") [k].
Definition tok_redir (k : tok) (w : list Z) : redir := match k with TApp => RApp w | TSym c => if c =? 60 then RIn w else ROut w | TWord _ => ROut w end.

Fixpoint t_redirs (x : scmd) (ts : list tok) : pres (scmd * list tok) :=
  match ts with
  | [] => POk (x, [])
  | k :: ts1 =>
      if is_redir k then
        match ts1 with
        | TWord w :: ts' => t_redirs (add_redir x (tok_redir k w)) ts'
        | _ => PPanic []
        end
      else POk (x, ts)
  end.

Fixpoint t_items (argc : nat) (x : scmd) (ts : list tok) : pres (scmd * list tok) :=
  match ts with
  | [] => POk (x, [])
  | k :: ts1 =>
      if is_stop k then POk (x, ts)
      else if is_redir k then
        match ts1 with
        | TWord w :: ts' => t_items argc (add_redir x (tok_redir k w)) ts'
        | _ => PPanic []
        end
      else
        match k with
        | TWord w => if (MAXARGS <=? S argc)%nat then PPanic [] else t_items (S argc) (x_add_arg w x) ts1
        | _ => PPanic []
        end
  end.

Fixpoint t_back (x : scmd) (ts : list tok) : scmd * list tok :=
  match ts with
  | k :: ts' => if peeks (chars "&") ts then t_back (XBack x) ts' else (x, ts)
  | [] => (x, ts)
  end.

Fixpoint t_line (fuel : nat) (ts : list tok) : pres (scmd * list tok) :=
  match fuel with
  | O => PFuel
  | S fuel' =>
      '(x, ts) ← t_pipe fuel' ts;
      let '(x, ts) := t_back x ts in
      if peeks (chars ";") ts then
        '(r, ts) ← t_line fuel' (tail ts);
        mret (XList x r, ts)
      else mret (x, ts)
  end
with t_pipe (fuel : nat) (ts : list tok) : pres (scmd * list tok) :=
  match fuel with
  | O => PFuel
  | S fuel' =>
      '(x, ts) ← t_exec fuel' ts;
      if peeks (chars "|") ts then
        '(r, ts) ← t_pipe fuel' (tail ts);
        mret (XPipe x r, ts)
      else mret (x, ts)
  end
with t_exec (fuel : nat) (ts : list tok) : pres (scmd * list tok) :=
  match fuel with
  | O => PFuel
  | S fuel' => if peeks (chars "(") ts then t_block fuel' ts else t_items 0 (XExec []) ts
  end
with t_block (fuel : nat) (ts : list tok) : pres (scmd * list tok) :=
  match fuel with
  | O => PFuel
  | S fuel' =>
      if negb (peeks (chars "(") ts) then PPanic []
      else
        '(x, ts) ← t_line fuel' (tail ts);
        if negb (peeks (chars ")") ts) then PPanic [] else t_redirs x (tail ts)
  end.

Lemma peeks_one c ts : c <> 62 -> peeks [c] ts = true -> ts = TSym c :: tail ts.
Proof.
  intros Hc H. destruct ts as [|[k| |w] ts]; try done; unfold peeks, strchr_in in H; cbn [existsb] in H; rewrite orb_false_r in H; apply Z.eqb_eq in H; (by subst) || congruence.
Qed.

Lemma is_redir_cases k : is_redir k = true -> forall w, redir_toks (tok_redir k w) = [k; TWord w].
Proof.
  intros H w. destruct k as [c| |]; [|done|done]. unfold is_redir, peeks, strchr_in in H. change (chars "<>") with [60; 62] in H. cbn [existsb] in H. rewrite orb_false_r in H.
  apply orb_true_iff in H as [H|H]; apply Z.eqb_eq in H as ->; reflexivity.
Qed.

Lemma redir_first r : exists k w, redir_toks r = [k; TWord w] /\ is_redir k = true /\ tok_redir k w = r /\ is_stop k = false.
Proof. destruct r as [w|w|w]; [exists (TSym 60), w|exists (TSym 62), w|exists TApp, w]; done. Qed.

Definition no_redir (ts : list tok) : Prop := match ts with [] => True | k :: _ => is_redir k = false end.
Definition at_stop (ts : list tok) : Prop := match ts with [] => True | k :: _ => is_stop k = true end.

Lemma t_redirs_complete rs : forall x ts, no_redir ts -> t_redirs x (flat_map redir_toks rs ++ ts) = POk (foldl add_redir x rs, ts).
Proof.
  induction rs as [|r rs IH]; intros x ts Hts; cbn [flat_map app foldl].
  - destruct ts as [|k ts]; [done|]. cbn [t_redirs]. cbn [no_redir] in Hts. by rewrite Hts.
  - destruct (redir_first r) as (k & w & E & H1 & H2 & _). rewrite E. cbn [app t_redirs]. rewrite H1, H2. by apply IH.
Qed.

Lemma t_redirs_sound n : forall x ts x' ts', (length ts < n)%nat -> t_redirs x ts = POk (x', ts') ->
  exists rs, ts = flat_map redir_toks rs ++ ts' /\ x' = foldl add_redir x rs.
Proof.
  induction n as [|n IH]; intros x ts x' ts' Hn H; [lia|]. destruct ts as [|k ts1]; cbn [t_redirs] in H; [injection H as <- <-; by exists []|].
  destruct (is_redir k) eqn:Hk; [|injection H as <- <-; by exists []].
  destruct ts1 as [|[| |w] ts1]; try discriminate. cbn [length] in Hn. destruct (IH _ ts1 _ _ ltac:(lia) H) as (rs & -> & ->).
  exists (tok_redir k w :: rs). split; [|done]. cbn [flat_map]. by rewrite is_redir_cases.
Qed.

Lemma x_add_redirs w a rs : x_add_arg w (foldl add_redir (XExec a) rs) = foldl add_redir (XExec (a ++ [w])) rs.
Proof. induction rs as [|r rs IH] using rev_ind; [done|]. rewrite !foldl_app. cbn [foldl]. rewrite <- IH. by destruct r. Qed.

Lemma item_snoc_redirs a rs r : add_redir (foldl add_redir (XExec a) rs) r = foldl add_redir (XExec a) (rs ++ [r]).
Proof. by rewrite foldl_app. Qed.

Lemma t_items_complete items : forall a rs ts, at_stop ts -> (length a + length (item_args items) < MAXARGS)%nat ->
  t_items (length a) (foldl add_redir (XExec a) rs) (flat_map item_toks items ++ ts) =
  POk (foldl add_redir (XExec (a ++ item_args items)) (rs ++ item_redirs items), ts).
Proof.
  induction items as [|[w|r] items IH]; intros a rs ts Hts Ha.
  - unfold item_args, item_redirs. cbn [flat_map app]. rewrite !app_nil_r. destruct ts as [|k ts]; [done|]. cbn [t_items]. cbn [at_stop] in Hts. by rewrite Hts.
  - cbn [flat_map item_toks app item_args item_redirs length] in *. cbn [t_items is_stop is_redir peeks].
    rewrite (proj2 (Nat.leb_gt _ _)) by (unfold item_args in *; cbn in *; lia). rewrite x_add_redirs.
    replace (S (length a)) with (length (a ++ [w])) by (rewrite length_app; cbn; lia).
    rewrite IH by (done || (rewrite length_app; unfold item_args in *; cbn in *; lia)). by rewrite <- app_assoc.
  - cbn [flat_map item_toks app]. destruct (redir_first r) as (k & w & E & H1 & H2 & H3). rewrite E. cbn [app t_items]. rewrite H3, H1, H2, item_snoc_redirs.
    rewrite IH by done. unfold item_redirs. cbn [flat_map app]. by rewrite <- app_assoc.
Qed.

Lemma t_items_sound n : forall a rs ts x' ts', (length ts < n)%nat -> (length a < MAXARGS)%nat ->
  t_items (length a) (foldl add_redir (XExec a) rs) ts = POk (x', ts') ->
  exists items, ts = flat_map item_toks items ++ ts' /\ x' = foldl add_redir (XExec (a ++ item_args items)) (rs ++ item_redirs items) /\
    (length a + length (item_args items) < MAXARGS)%nat.
Proof.
  induction n as [|n IH]; intros a rs ts x' ts' Hn Ha H; [lia|].
  assert (Hnil : exists items, ts = flat_map item_toks items ++ ts /\ foldl add_redir (XExec a) rs = foldl add_redir (XExec (a ++ item_args items)) (rs ++ item_redirs items) /\
    (length a + length (item_args items) < MAXARGS)%nat) by (exists []; cbn; rewrite !app_nil_r; split; [done|split; [done|lia]]).
  destruct ts as [|k ts1]; cbn [t_items] in H; [by injection H as <- <-|]. destruct (is_stop k); [by injection H as <- <-|]. clear Hnil.
  destruct (is_redir k) eqn:Hk.
  - destruct ts1 as [|[| |w] ts1]; try discriminate. cbn [length] in Hn. rewrite item_snoc_redirs in H.
    destruct (IH _ _ ts1 _ _ ltac:(lia) Ha H) as (items & -> & -> & Hl). exists (IRedir (tok_redir k w) :: items).
    cbn [flat_map item_toks]. rewrite is_redir_cases by done. unfold item_redirs. cbn [flat_map app]. by rewrite <- app_assoc.
  - destruct k as [| |w]; try discriminate. destruct (Nat.leb_spec MAXARGS (S (length a))); [discriminate|]. cbn [length] in Hn. rewrite x_add_redirs in H.
    replace (S (length a)) with (length (a ++ [w])) in H by (rewrite length_app; cbn; lia).
    destruct (IH (a ++ [w]) _ ts1 _ _ ltac:(lia) ltac:(rewrite length_app; cbn; lia) H) as (items & -> & -> & Hl). exists (IArg w :: items).
    unfold item_args, item_redirs in *. cbn [flat_map item_toks app length] in *. rewrite <- app_assoc. rewrite length_app in Hl. cbn in Hl.
    split; [done|]. split; [done|]. lia.
Qed.

Lemma t_back_complete n : forall x ts, peeks (chars "&") ts = false -> t_back x (replicate n (TSym 38) ++ ts) = (Nat.iter n XBack x, ts).
Proof.
  induction n as [|n IH]; intros x ts Hts; cbn [replicate app].
  - destruct ts as [|k ts]; [done|]. cbn [t_back]. by rewrite Hts.
  - cbn [t_back]. change (peeks (chars "&") _) with true. cbn match. rewrite IH by done. by rewrite Nat.iter_succ_r.
Qed.

Lemma t_back_sound ts : forall x x' ts', t_back x ts = (x', ts') -> exists n, ts = replicate n (TSym 38) ++ ts' /\ x' = Nat.iter n XBack x.
Proof.
  induction ts as [|k ts IH]; intros x x' ts' H; cbn [t_back] in H; [injection H as <- <-; by exists 0%nat|].
  destruct (peeks (chars "&") (k :: ts)) eqn:Hk; [|injection H as <- <-; by exists 0%nat].
  apply peeks_one in Hk; [|done]. injection Hk as ->. destruct (IH _ _ _ H) as (n & -> & ->). exists (S n). by rewrite Nat.iter_succ_r.
Qed.

Definition after_pipe (ts : list tok) : Prop := at_stop ts /\ peeks (chars "|") ts = false.
Definition after_line (ts : list tok) : Prop := after_pipe ts /\ peeks (chars "&") ts = false /\ peeks (chars ";") ts = false.

Lemma stop_cases k : is_stop k = true -> k = TSym 124 \/ k = TSym 41 \/ k = TSym 38 \/ k = TSym 59.
Proof.
  unfold is_stop, peeks, strchr_in. change (chars "|)&;") with [124; 41; 38; 59]. cbn [existsb].
  destruct k as [c| |w]; [|discriminate|discriminate]. intros H. repeat (apply orb_true_iff in H as [H|H]); try discriminate; apply Z.eqb_eq in H as ->; auto.
Qed.

Lemma stop_no_redir ts : at_stop ts -> no_redir ts.
Proof. destruct ts as [|k ts]; [done|]. cbn [at_stop no_redir]. intros [->|[->|[->| ->]]]%stop_cases; reflexivity. Qed.

Lemma items_no_paren items ts : at_stop ts -> peeks (chars "(") (flat_map item_toks items ++ ts) = false.
Proof.
  destruct items as [|[w|[w|w|w]] items]; try reflexivity. destruct ts as [|k ts]; [done|]. cbn [at_stop flat_map app].
  intros [->|[->|[->| ->]]]%stop_cases; reflexivity.
Qed.

Lemma back_pipe n ts : at_stop ts -> peeks (chars "|") ts = false -> after_pipe (replicate n (TSym 38) ++ ts).
Proof. intros H1 H2. by destruct n. Qed.

Lemma grammar_complete :
  (forall l, line_ok l -> forall fuel ts, after_line ts -> (4 * length (line_toks l) + 4 <= fuel)%nat -> t_line fuel (line_toks l ++ ts) = POk (line_cmd l, ts)) /\
  (forall p, pipe_ok p -> forall fuel ts, after_pipe ts -> (4 * length (pipe_toks p) + 3 <= fuel)%nat -> t_pipe fuel (pipe_toks p ++ ts) = POk (pipe_cmd p, ts)) /\
  (forall e, simple_ok e -> forall fuel ts, at_stop ts -> (4 * length (simple_toks e) + 2 <= fuel)%nat -> t_exec fuel (simple_toks e ++ ts) = POk (simple_cmd e, ts)).
Proof.
  apply grammar_ind.
  - intros p IHp n Hok fuel ts [[A1 A2] [A3 A4]] Hf. destruct fuel as [|fuel]; [lia|]. cbn [line_toks line_cmd t_line] in *. rewrite length_app in Hf.
    rewrite <- app_assoc, IHp by (try done; try lia; by apply back_pipe). cbn [mbind pres_bind]. by rewrite t_back_complete, A4.
  - intros p IHp n l IHl [Hok1 Hok2] fuel ts Hts Hf. destruct fuel as [|fuel]; [lia|]. cbn [line_toks line_cmd t_line] in *. rewrite !length_app in Hf. cbn [length] in Hf.
    rewrite <- !app_assoc, IHp by (try done; try lia; by apply back_pipe). cbn [mbind pres_bind app]. rewrite t_back_complete by done.
    change (peeks (chars ";") (TSym 59 :: line_toks l ++ ts)) with true. cbn [tail]. by rewrite IHl by (done || lia).
  - intros e IHe Hok fuel ts [A1 A2] Hf. destruct fuel as [|fuel]; [lia|]. cbn [pipe_toks pipe_cmd t_pipe] in *. rewrite IHe by (done || lia).
    cbn [mbind pres_bind]. by rewrite A2.
  - intros e IHe p IHp [Hok1 Hok2] fuel ts Hts Hf. destruct fuel as [|fuel]; [lia|]. cbn [pipe_toks pipe_cmd t_pipe] in *. rewrite length_app in Hf. cbn [length] in Hf.
    rewrite <- app_assoc, IHe by (done || lia). cbn [mbind pres_bind app]. change (peeks (chars "|") (TSym 124 :: pipe_toks p ++ ts)) with true. cbn [tail].
    by rewrite IHp by (done || lia).
  - intros items Hok fuel ts Hts Hf. destruct fuel as [|fuel]; [lia|]. cbn [simple_toks simple_cmd t_exec] in *. rewrite items_no_paren by done.
    by apply (t_items_complete items [] [] ts).
  - intros l IHl rs Hok fuel ts Hts Hf. cbn [simple_toks simple_cmd] in *. cbn [length] in Hf. rewrite length_app in Hf. cbn [length] in Hf.
    destruct fuel as [|[|fuel]]; [lia|lia|]. cbn [app t_exec t_block]. change (peeks (chars "(") (TSym 40 :: _)) with true. cbn [negb tail].
    rewrite <- app_assoc. cbn [app]. rewrite IHl by (done || lia). cbn [mbind pres_bind]. change (peeks (chars ")") (TSym 41 :: _)) with true. cbn [negb tail].
    by apply t_redirs_complete, stop_no_redir.
Qed.

Lemma grammar_sound fuel :
  (forall ts x ts', t_line fuel ts = POk (x, ts') -> exists l, line_ok l /\ ts = line_toks l ++ ts' /\ x = line_cmd l) /\
  (forall ts x ts', t_pipe fuel ts = POk (x, ts') -> exists p, pipe_ok p /\ ts = pipe_toks p ++ ts' /\ x = pipe_cmd p) /\
  (forall ts x ts', t_exec fuel ts = POk (x, ts') -> exists e, simple_ok e /\ ts = simple_toks e ++ ts' /\ x = simple_cmd e) /\
  (forall ts x ts', t_block fuel ts = POk (x, ts') -> exists e, simple_ok e /\ ts = simple_toks e ++ ts' /\ x = simple_cmd e).
Proof.
  induction fuel as [|fuel (IHl & IHp & IHe & IHb)]; [by split; [|split; [|split]]|]. split; [|split; [|split]]; intros ts x ts' H.
  - cbn [t_line] in H. destruct (t_pipe fuel ts) as [[x1 ts1]| |] eqn:E1; try discriminate. cbn [mbind pres_bind] in H.
    destruct (IHp _ _ _ E1) as (p & Hp & -> & ->). destruct (t_back (pipe_cmd p) ts1) as [x2 ts2] eqn:E2. destruct (t_back_sound _ _ _ _ E2) as (n & -> & ->).
    destruct (peeks (chars ";") ts2) eqn:E3; [|injection H as <- <-; exists (Line1 p n); cbn; by rewrite <- app_assoc].
    apply peeks_one in E3; [|done]. destruct (t_line fuel (tail ts2)) as [[x3 ts3]| |] eqn:E4; try discriminate. injection H as <- <-.
    destruct (IHl _ _ _ E4) as (l & Hl & E5 & ->). exists (LineS p n l). split; [done|]. split; [|done]. rewrite E3, E5. cbn [line_toks]. by rewrite <- !app_assoc.
  - cbn [t_pipe] in H. destruct (t_exec fuel ts) as [[x1 ts1]| |] eqn:E1; try discriminate. cbn [mbind pres_bind] in H.
    destruct (IHe _ _ _ E1) as (e & He & -> & ->). destruct (peeks (chars "|") ts1) eqn:E3; [|injection H as <- <-; by exists (Pipe1 e)].
    apply peeks_one in E3; [|done]. destruct (t_pipe fuel (tail ts1)) as [[x3 ts3]| |] eqn:E4; try discriminate. injection H as <- <-.
    destruct (IHp _ _ _ E4) as (p & Hp & E5 & ->). exists (PipeS e p). split; [done|]. split; [|done]. rewrite E3, E5. cbn [pipe_toks]. by rewrite <- !app_assoc.
  - cbn [t_exec] in H. destruct (peeks (chars "(") ts); [by apply IHb|].
    destruct (t_items_sound (S (length ts)) [] [] ts x ts' ltac:(lia) ltac:(unfold MAXARGS; cbn; lia) H) as (items & -> & -> & Hl). by exists (Simple items).
  - cbn [t_block] in H. destruct (peeks (chars "(") ts) eqn:E1; try discriminate. cbn [negb] in H. apply peeks_one in E1; [|done].
    destruct (t_line fuel (tail ts)) as [[x1 ts1]| |] eqn:E2; try discriminate. cbn [mbind pres_bind] in H. destruct (IHl _ _ _ E2) as (l & Hl & E3 & ->).
    destruct (peeks (chars ")") ts1) eqn:E4; try discriminate. cbn [negb] in H. apply peeks_one in E4; [|done].
    destruct (t_redirs_sound (S (length (tail ts1))) _ (tail ts1) _ _ ltac:(lia) H) as (rs & E5 & ->). exists (Block l rs). split; [done|]. split; [|done].
    rewrite E1, E3, E4, E5. cbn [simple_toks app]. by rewrite <- !app_assoc.
Qed.

(** Four units of fuel per token are enough. *)
Lemma t_redirs_fuel n : forall x ts, (length ts < n)%nat -> t_redirs x ts <> PFuel.
Proof.
  induction n as [|n IH]; intros x ts Hn; [lia|]. destruct ts as [|k ts1]; [done|]. cbn [t_redirs]. destruct (is_redir k); [|done].
  destruct ts1 as [|[| |w] ts1]; try done. cbn [length] in Hn. apply IH. lia.
Qed.

Lemma t_items_fuel n : forall argc x ts, (length ts < n)%nat -> t_items argc x ts <> PFuel.
Proof.
  induction n as [|n IH]; intros argc x ts Hn; [lia|]. destruct ts as [|k ts1]; [done|]. cbn [t_items]. destruct (is_stop k); [done|]. destruct (is_redir k).
  - destruct ts1 as [|[| |w] ts1]; try done. cbn [length] in Hn. apply IH. lia.
  - destruct k as [| |w]; try done. destruct (MAXARGS <=? _)%nat; [done|]. cbn [length] in Hn. apply IH. lia.
Qed.

Lemma grammar_fuel fuel :
  (forall ts, (4 * length ts + 4 <= fuel)%nat -> t_line fuel ts <> PFuel) /\
  (forall ts, (4 * length ts + 3 <= fuel)%nat -> t_pipe fuel ts <> PFuel) /\
  (forall ts, (4 * length ts + 2 <= fuel)%nat -> t_exec fuel ts <> PFuel) /\
  (forall ts, (4 * length ts + 1 <= fuel)%nat -> t_block fuel ts <> PFuel).
Proof.
  induction fuel as [|fuel (IHl & IHp & IHe & IHb)]; [split; [|split; [|split]]; intros; lia|].
  destruct (grammar_sound fuel) as (Sl & Sp & Se & _). split; [|split; [|split]]; intros ts Hf.
  - cbn [t_line]. destruct (t_pipe fuel ts) as [[x1 ts1]| |] eqn:E1; [|done|by apply IHp in E1; [|lia]]. cbn [mbind pres_bind].
    destruct (Sp _ _ _ E1) as (p & _ & -> & _). destruct (t_back x1 ts1) as [x2 ts2] eqn:E2. destruct (t_back_sound _ _ _ _ E2) as (n & -> & _).
    destruct (peeks (chars ";") ts2) eqn:E3; [|done]. apply peeks_one in E3; [|done]. rewrite E3 in Hf |- *. rewrite !length_app in Hf. cbn [length tail] in *.
    specialize (IHl (tail ts2) ltac:(lia)). by destruct (t_line fuel (tail ts2)) as [[]| |].
  - cbn [t_pipe]. destruct (t_exec fuel ts) as [[x1 ts1]| |] eqn:E1; [|done|by apply IHe in E1; [|lia]]. cbn [mbind pres_bind].
    destruct (Se _ _ _ E1) as (e & _ & -> & _). destruct (peeks (chars "|") ts1) eqn:E3; [|done]. apply peeks_one in E3; [|done].
    rewrite E3 in Hf |- *. rewrite !length_app in Hf. cbn [length tail] in *.
    specialize (IHp (tail ts1) ltac:(lia)). by destruct (t_pipe fuel (tail ts1)) as [[]| |].
  - cbn [t_exec]. destruct (peeks (chars "(") ts); [apply IHb; lia|apply (t_items_fuel (S (length ts))); lia].
  - cbn [t_block]. destruct (peeks (chars "(") ts) eqn:E1; [|done]. cbn [negb]. apply peeks_one in E1; [|done]. rewrite E1 in Hf |- *. cbn [length tail] in *.
    destruct (t_line fuel (tail ts)) as [[x1 ts1]| |] eqn:E2; [|done|by apply IHl in E2; [|lia]]. cbn [mbind pres_bind].
    destruct (negb _); [done|]. apply (t_redirs_fuel (S (length (tail ts1)))). lia.
Qed.

(** ** The parser of characters follows the parser of tokens *)

Lemma lex_tokens s : Forall (fun k => match k with TSym c => is_sym c = true | _ => True end) (lex s).
Proof.
  induction s as [s IH] using (induction_ltof1 _ (@length Z)). unfold ltof in IH. destruct s as [|c s]; [constructor|]. cbn [lex].
  pose proof (IH s ltac:(cbn; lia)) as Hs. destruct (is_ws c); [done|]. destruct (Z.eqb_spec c 62) as [->|].
  - destruct s as [|c2 s]; [by repeat constructor|]. destruct (c2 =? 62); constructor; try done. apply IH. cbn. lia.
  - destruct (is_sym c) eqn:Hc; [by constructor|]. destruct s as [|c2 s]; [by repeat constructor|]. destruct (wordc c2); [|by constructor].
    destruct (lex (c2 :: s)) as [|[]]; [by constructor|by constructor|by constructor|]. apply Forall_cons in Hs as [_ Hs]. by constructor.
Qed.

Lemma length_lex s : (length (lex s) <= length s)%nat.
Proof.
  induction s as [s IH] using (induction_ltof1 _ (@length Z)). unfold ltof in IH. destruct s as [|c s]; [done|]. cbn [lex].
  pose proof (IH s ltac:(cbn; lia)) as Hs. destruct (is_ws c); [cbn; lia|]. destruct (c =? 62).
  - destruct s as [|c2 s]; [done|]. destruct (c2 =? 62); cbn [length] in *; [|lia]. pose proof (IH s ltac:(cbn; lia)). lia.
  - destruct (is_sym c); [cbn; lia|]. destruct s as [|c2 s]; [cbn; lia|]. destruct (wordc c2); [|cbn [length] in *; lia].
    destruct (lex (c2 :: s)) as [|[]]; cbn [length] in *; lia.
Qed.

Lemma peeks_head toks k ts : peeks toks (k :: ts) = peeks toks [k].
Proof. by destruct k. Qed.

Lemma t_items_redirs ts : forall argc x, t_items argc x ts = ('(x, ts) ← t_redirs x ts; t_items argc x ts).
Proof.
  induction ts as [ts IH] using (induction_ltof1 _ (@length tok)). unfold ltof in IH. intros argc x. destruct ts as [|k ts]; [done|]. cbn [t_redirs].
  destruct (is_redir k) eqn:Hk; [|done]. cbn [t_items]. rewrite Hk. replace (is_stop k) with false; [|destruct (is_stop k) eqn:Hs; [|done]].
  - destruct ts as [|[| |w] ts]; try done. apply IH. cbn. lia.
  - apply stop_cases in Hs as [->|[->|[->| ->]]]; discriminate Hk.
Qed.

Lemma t_redirs_no_redir n : forall x ts x' ts', (length ts < n)%nat -> t_redirs x ts = POk (x', ts') -> no_redir ts'.
Proof.
  induction n as [|n IH]; intros x ts x' ts' Hn H; [lia|]. destruct ts as [|k ts1]; cbn [t_redirs] in H; [by injection H as <- <-|].
  destruct (is_redir k) eqn:Hk; [|by injection H as <- <-]. destruct ts1 as [|[| |w] ts1]; try discriminate. cbn [length] in Hn. apply (IH _ ts1 _ _ ltac:(lia) H).
Qed.

Section simulation.
Context (text : list Z) (Hnz : Forall (fun c => c <> 0) text).
Abbreviation rest s := (drop s text).

(** The pointers of [c] are the words of [x]. *)
Fixpoint reads (c : cmd) (x : scmd) : Prop :=
  match c, x with
  | EXEC argv, XExec ws => Forall2 (fun a w => word_at text a.1 a.2 w) argv ws
  | REDIR c q eq mode fd, XRedir x w mode' fd' => reads c x /\ word_at text q eq w /\ mode = mode' /\ fd = fd'
  | PIPE l r, XPipe l' r' | LIST l r, XList l' r' => reads l l' /\ reads r r'
  | BACK c, XBack x => reads c x
  | _, _ => False
  end.

Definition sim (ps : nat) (r : pres (cmd * nat)) (t : pres (scmd * list tok)) : Prop :=
  match r, t with
  | POk (c, ps'), POk (x, ts) => reads c x /\ lex (rest ps') = ts /\ (ps <= ps' <= es text)%nat
  | PPanic _, PPanic _ | PFuel, PFuel => True
  | _, _ => False
  end.

Lemma sim_weaken ps ps' r t : (ps <= ps')%nat -> sim ps' r t -> sim ps r t.
Proof using. intros H. destruct r as [[]| |], t as [[]| |]; try done. intros (H1 & H2 & H3). repeat split; done || lia. Qed.

Lemma reads_add_arg q eq w c : word_at text q eq w -> forall x, reads c x -> reads (add_arg (q, eq) c) (x_add_arg w x).
Proof using.
  intros Hw. induction c as [argv|c IH| | |]; intros x Hx; destruct x; try done.
  - cbn in *. apply Forall2_app; [done|]. constructor; [done|constructor].
  - destruct Hx as (H1 & H2). split; [by apply IH|done].
Qed.

Lemma tok_ret_word ps k ts : lex (rest ps) = k :: ts -> (tok_ret k =? 97) = match k with TWord _ => true | _ => false end.
Proof using.
  intros E. pose proof (lex_tokens (rest ps)) as H. rewrite E in H. apply Forall_cons in H as [H _]. destruct k as [c| |w]; [|done|done].
  destruct (Z.eqb_spec c 97) as [->|]; [discriminate H|]. by apply Z.eqb_neq.
Qed.

Lemma redirs_sim n : forall c x ps, (es text - ps < n)%nat -> (ps <= es text)%nat -> reads c x ->
  sim ps (parseredirs_loop text n c ps) (t_redirs x (lex (rest ps))).
Proof using Hnz.
  induction n as [|n IH]; intros c x ps Hn Hps Hr; [lia|]. cbn [parseredirs_loop].
  destruct (peek_spec text Hnz (chars "<>") ps Hps eq_refl) as (P1 & P2 & P3). destruct (peek text (chars "<>") ps) as [b ps1]. cbn [fst snd] in P1, P2, P3.
  destruct (lex (rest ps)) as [|k ts1] eqn:E.
  { subst b. cbn. repeat split; done || lia. }
  rewrite peeks_head in P1. cbn [t_redirs]. unfold is_redir. rewrite <- P1. destruct b; [|cbn; repeat split; done || lia].
  pose proof (gettoken_spec text Hnz ps1 ltac:(lia)) as T1. destruct (gettoken text ps1) as [tok ps2]. cbn [fst snd] in T1. unfold took in T1. rewrite P2 in T1.
  destruct T1 as (T1 & _ & T2 & T3). pose proof (gettoken_spec text Hnz ps2 ltac:(lia)) as T4. destruct (gettoken text ps2) as [file ps3]. cbn [fst snd] in T4.
  unfold took in T4. rewrite T2 in T4. destruct ts1 as [|k2 ts1]; [destruct T4 as (-> & _); done|]. destruct T4 as (-> & T5 & T6 & T7).
  rewrite (tok_ret_word _ _ _ T2). destruct k2 as [| |w]; [done|done|]. cbn [negb]. rewrite T1. cbn [tok_word] in T5. rewrite <- T6.
  assert (Ek : k = TSym 60 \/ k = TSym 62 \/ k = TApp).
  { symmetry in P1. destruct k as [c0| |]; [|by right; right|discriminate P1]. unfold peeks, strchr_in in P1. change (chars "<>") with [60; 62] in P1. cbn [existsb] in P1.
    rewrite orb_false_r in P1. apply orb_true_iff in P1 as [P1|P1]; apply Z.eqb_eq in P1 as ->; auto. }
  apply (sim_weaken ps ps3); [lia|].
  destruct Ek as [->|[->| ->]]; cbn [tok_ret Z.eqb Pos.eqb tok_redir add_redir]; apply IH; try lia; (split; [done|]; split; [done|done]).
Qed.

Lemma parseredirs_sim c x ps : (ps <= es text)%nat -> reads c x -> sim ps (parseredirs text c ps) (t_redirs x (lex (rest ps))).
Proof using Hnz. intros Hps Hr. apply redirs_sim; [lia|done|done]. Qed.

Lemma args_sim n : forall argc c x ps, (es text - ps < n)%nat -> (ps <= es text)%nat -> reads c x -> no_redir (lex (rest ps)) ->
  sim ps (parseargs text n argc c ps) (t_items argc x (lex (rest ps))).
Proof using Hnz.
  induction n as [|n IH]; intros argc c x ps Hn Hps Hr Hno; [lia|]. cbn [parseargs].
  destruct (peek_spec text Hnz (chars "|)&;") ps Hps eq_refl) as (P1 & P2 & P3). destruct (peek text (chars "|)&;") ps) as [b ps1]. cbn [fst snd] in P1, P2, P3.
  pose proof (gettoken_spec text Hnz ps1 ltac:(lia)) as T1. destruct (gettoken text ps1) as [tok ps2]. cbn [fst snd] in T1. unfold took in T1. rewrite P2 in T1.
  destruct (lex (rest ps)) as [|k ts1] eqn:E.
  { subst b. cbn [peeks t_items]. destruct T1 as (-> & T2 & T3). cbn. repeat split; done || lia. }
  rewrite peeks_head in P1. cbn [t_items]. unfold is_stop. rewrite <- P1. destruct b; [cbn; repeat split; done || lia|].
  cbn [no_redir] in Hno. rewrite Hno. destruct T1 as (T1 & T2 & T3 & T4). rewrite T1.
  assert (Hk : (tok_ret k =? 0) = false).
  { pose proof (lex_tokens (rest ps)) as H. rewrite E in H. apply Forall_cons in H as [H _]. destruct k as [c0| |]; [|done|done].
    destruct (Z.eqb_spec c0 0) as [->|]; [discriminate H|]. by apply Z.eqb_neq. }
  rewrite Hk, (tok_ret_word _ _ _ E). destruct k as [| |w]; [done|done|]. cbn [negb].
  destruct (MAXARGS <=? S argc)%nat; [done|]. cbn [tok_word] in T2.
  pose proof (parseredirs_sim (add_arg (t_q tok, t_eq tok) c) (x_add_arg w x) ps2 ltac:(lia) (reads_add_arg _ _ _ _ T2 _ Hr)) as S1.
  rewrite T3 in S1. rewrite t_items_redirs.
  destruct (parseredirs text _ ps2) as [[c' ps3]| |], (t_redirs (x_add_arg w x) ts1) as [[x' ts']| |] eqn:Et; try done.
  destruct S1 as (S1 & S2 & S3). cbn [mbind pres_bind]. rewrite <- S2. apply (sim_weaken ps ps3); [lia|]. apply IH; [lia|lia|done|].
  rewrite S2. by apply (t_redirs_no_redir (S (length ts1)) (x_add_arg w x) ts1 x'); [lia|].
Qed.

Lemma back_sim n : forall c x ps, (es text - ps < n)%nat -> (ps <= es text)%nat -> reads c x ->
  sim ps (parseback text n c ps) (POk (t_back x (lex (rest ps)))).
Proof using Hnz.
  induction n as [|n IH]; intros c x ps Hn Hps Hr; [lia|]. cbn [parseback].
  destruct (peek_spec text Hnz (chars "&") ps Hps eq_refl) as (P1 & P2 & P3). destruct (peek text (chars "&") ps) as [b ps1]. cbn [fst snd] in P1, P2, P3.
  pose proof (gettoken_spec text Hnz ps1 ltac:(lia)) as T1. destruct (gettoken text ps1) as [tok ps2]. cbn [fst snd] in T1. unfold took in T1. rewrite P2 in T1.
  destruct (lex (rest ps)) as [|k ts1] eqn:E; [subst b; cbn; repeat split; done || lia|]. cbn [t_back]. rewrite <- P1.
  destruct b; [|cbn; repeat split; done || lia]. destruct T1 as (T1 & _ & T2 & T3). rewrite <- T2. apply (sim_weaken ps ps2); [lia|]. apply IH; [lia|lia|done].
Qed.

(** [peek] of a symbol, and the [gettoken] that takes it. *)
Lemma peek_take c0 ps : (ps <= es text)%nat -> is_sym c0 = true ->
  exists b ps1, peek text [c0] ps = (b, ps1) /\ b = peeks [c0] (lex (rest ps)) /\ lex (rest ps1) = lex (rest ps) /\ (ps <= ps1 <= es text)%nat /\
    (b = true -> exists k ps2, gettoken text ps1 = (k, ps2) /\ lex (rest ps2) = tail (lex (rest ps)) /\ (ps < ps2 <= es text)%nat).
Proof using Hnz.
  intros Hps Hc. destruct (peek_spec text Hnz [c0] ps Hps ltac:(cbn [forallb]; by rewrite Hc)) as (P1 & P2 & P3). destruct (peek text [c0] ps) as [b ps1].
  cbn [fst snd] in *. exists b, ps1. do 3 (split; [done|]). split; [lia|]. intros ->. pose proof (gettoken_spec text Hnz ps1 ltac:(lia)) as T1.
  destruct (gettoken text ps1) as [k ps2]. exists k, ps2. split; [done|]. unfold took in T1. cbn [fst snd] in T1. rewrite P2 in T1.
  destruct (lex (rest ps)) as [|k0 ts]; [done|]. destruct T1 as (_ & _ & T1 & T2). split; [done|lia].
Qed.

Lemma parse_sim fuel :
  (forall ps, (ps <= es text)%nat -> sim ps (parseline text fuel ps) (t_line fuel (lex (rest ps)))) /\
  (forall ps, (ps <= es text)%nat -> sim ps (parsepipe text fuel ps) (t_pipe fuel (lex (rest ps)))) /\
  (forall ps, (ps <= es text)%nat -> sim ps (parseexec text fuel ps) (t_exec fuel (lex (rest ps)))) /\
  (forall ps, (ps <= es text)%nat -> sim ps (parseblock text fuel ps) (t_block fuel (lex (rest ps)))).
Proof using Hnz.
  induction fuel as [|fuel (IHl & IHp & IHe & IHb)]; [done|]. split; [|split; [|split]]; intros ps Hps.
  - cbn [parseline t_line]. specialize (IHp ps Hps). destruct (parsepipe text fuel ps) as [[c1 ps1]| |], (t_pipe fuel (lex (rest ps))) as [[x1 ts1]| |]; try done.
    destruct IHp as (S1 & S2 & S3). cbn [mbind pres_bind]. pose proof (back_sim (S (es text - ps1)) c1 x1 ps1 ltac:(lia) ltac:(lia) S1) as B. rewrite S2 in B.
    destruct (parseback text _ c1 ps1) as [[c2 ps2]| |]; [|done|done]. destruct (t_back x1 ts1) as [x2 ts2]. destruct B as (B1 & B2 & B3). cbn [mbind pres_bind].
    destruct (peek_take 59 ps2 ltac:(lia) eq_refl) as (b & ps3 & E & -> & P1 & P2 & P3). change (chars ";") with [59]. rewrite E. rewrite B2 in P1, P3 |- *.
    destruct (peeks [59] ts2); [|cbn; repeat split; done || lia]. destruct (P3 eq_refl) as (k & ps4 & -> & P4 & P5). rewrite <- P4.
    specialize (IHl ps4 ltac:(lia)). destruct (parseline text fuel ps4) as [[c5 ps5]| |], (t_line fuel (lex (rest ps4))) as [[x5 ts5]| |]; try done.
    destruct IHl as (L1 & L2 & L3). cbn. repeat split; done || lia.
  - cbn [parsepipe t_pipe]. specialize (IHe ps Hps). destruct (parseexec text fuel ps) as [[c1 ps1]| |], (t_exec fuel (lex (rest ps))) as [[x1 ts1]| |]; try done.
    destruct IHe as (S1 & S2 & S3). cbn [mbind pres_bind].
    destruct (peek_take 124 ps1 ltac:(lia) eq_refl) as (b & ps3 & E & -> & P1 & P2 & P3). change (chars "|") with [124]. rewrite E. rewrite S2 in P1, P3 |- *.
    destruct (peeks [124] ts1); [|cbn; repeat split; done || lia]. destruct (P3 eq_refl) as (k & ps4 & -> & P4 & P5). rewrite <- P4.
    specialize (IHp ps4 ltac:(lia)). destruct (parsepipe text fuel ps4) as [[c5 ps5]| |], (t_pipe fuel (lex (rest ps4))) as [[x5 ts5]| |]; try done.
    destruct IHp as (L1 & L2 & L3). cbn. repeat split; done || lia.
  - cbn [parseexec t_exec]. destruct (peek_take 40 ps Hps eq_refl) as (b & ps1 & E & -> & P1 & P2 & _). change (chars "(") with [40]. rewrite E.
    destruct (peeks [40] (lex (rest ps))); [rewrite <- P1; apply (sim_weaken ps ps1); [lia|]; apply IHb; lia|].
    pose proof (parseredirs_sim (EXEC []) (XExec []) ps1 ltac:(lia) ltac:(constructor)) as S1. rewrite P1 in S1. rewrite t_items_redirs.
    destruct (parseredirs text (EXEC []) ps1) as [[c2 ps2]| |], (t_redirs (XExec []) (lex (rest ps))) as [[x2 ts2]| |] eqn:Et; try done.
    destruct S1 as (S1 & S2 & S3). cbn [mbind pres_bind]. rewrite <- S2. apply (sim_weaken ps ps2); [lia|]. apply args_sim; [lia|lia|done|].
    rewrite S2. by apply (t_redirs_no_redir (S (length (lex (rest ps)))) (XExec []) (lex (rest ps)) x2); [lia|].
  - cbn [parseblock t_block]. destruct (peek_take 40 ps Hps eq_refl) as (b & ps1 & E & -> & P1 & P2 & P3). change (chars "(") with [40]. rewrite E.
    destruct (peeks [40] (lex (rest ps))); [|done]. cbn [negb]. destruct (P3 eq_refl) as (k & ps2 & -> & P4 & P5). rewrite <- P4.
    specialize (IHl ps2 ltac:(lia)). destruct (parseline text fuel ps2) as [[c3 ps3]| |], (t_line fuel (lex (rest ps2))) as [[x3 ts3]| |]; try done.
    destruct IHl as (L1 & L2 & L3). cbn [mbind pres_bind]. destruct (peek_take 41 ps3 ltac:(lia) eq_refl) as (b & ps4 & E' & -> & Q1 & Q2 & Q3).
    change (chars ")") with [41]. rewrite E'. rewrite L2 in Q1, Q3 |- *. destruct (peeks [41] ts3); [|done]. cbn [negb]. destruct (Q3 eq_refl) as (k' & ps5 & -> & Q4 & Q5).
    rewrite <- Q4. apply (sim_weaken ps ps5); [lia|]. apply parseredirs_sim; [lia|done].
Qed.

End simulation.

(** ** The strings after [nulterminate] *)

Fixpoint resolve (buf : list Z) (c : cmd) : scmd :=
  match c with
  | EXEC argv => XExec (map (fun a => str_at buf a.1) argv)
  | REDIR c q _ mode fd => XRedir (resolve buf c) (str_at buf q) mode fd
  | PIPE l r => XPipe (resolve buf l) (resolve buf r)
  | LIST l r => XList (resolve buf l) (resolve buf r)
  | BACK c => XBack (resolve buf c)
  end.

(** Where [nulterminate] writes. *)
Fixpoint word_ends (c : cmd) : list nat :=
  match c with
  | EXEC argv => argv.*2
  | REDIR c _ eq _ _ => eq :: word_ends c
  | PIPE l r | LIST l r => word_ends l ++ word_ends r
  | BACK c => word_ends c
  end.

Definition nul_at (E : list nat) (buf buf' : list Z) : Prop :=
  length buf' = length buf /\ forall i, (i < length buf)%nat -> buf' !! i = if decide (i ∈ E) then Some 0 else buf !! i.

Lemma nul_at_insert E e buf buf' : nul_at E buf buf' -> nul_at (e :: E) buf (<[e := 0]> buf').
Proof.
  intros [Hl H]. split; [by rewrite length_insert|]. intros i Hi. destruct (decide (i = e)) as [->|Hne].
  - rewrite list_lookup_insert_eq by lia. rewrite decide_True by left. done.
  - rewrite list_lookup_insert_ne, H by done. destruct (decide (i ∈ E)); [rewrite decide_True by (by right); done|].
    rewrite decide_False; [done|]. by intros [?|?]%elem_of_cons.
Qed.

Lemma nul_at_trans E E' b b' b'' : nul_at E b b' -> nul_at E' b' b'' -> nul_at (E ++ E') b b''.
Proof.
  intros [Hl H] [Hl' H']. split; [congruence|]. intros i Hi. rewrite H' by lia. rewrite H by done.
  destruct (decide (i ∈ E')); [rewrite decide_True; [done|apply elem_of_app; by right]|].
  destruct (decide (i ∈ E)); [rewrite decide_True; [done|apply elem_of_app; by left]|]. rewrite decide_False; [done|]. by intros [?|?]%elem_of_app.
Qed.

Lemma nul_argv_at argv : forall buf, nul_at argv.*2 buf (nul_argv argv buf).
Proof.
  induction argv as [|[q e] argv IH]; intros buf; cbn [nul_argv]; [split; [done|]; intros i _; by rewrite decide_False by apply not_elem_of_nil|].
  change ((q, e) :: argv).*2 with ([e] ++ argv.*2). apply (nul_at_trans _ _ _ (<[e := 0]> buf)); [|apply IH].
  apply (nul_at_insert [] e buf buf). split; [done|]. intros i _. by rewrite decide_False by apply not_elem_of_nil.
Qed.

Lemma nulterminate_at c : forall buf, nul_at (word_ends c) buf (nulterminate c buf).
Proof.
  induction c as [argv|c IH| | |]; intros buf; cbn [word_ends nulterminate];
    [apply nul_argv_at|by apply nul_at_insert|by eapply nul_at_trans|by eapply nul_at_trans|done].
Qed.

Lemma c_str_of w : forall l, (forall i, (i < length w)%nat -> l !! i = w !! i) -> l !! length w = Some 0 -> Forall (fun c => c <> 0) w -> c_str l = w.
Proof.
  induction w as [|c w IH]; intros l H H0 Hw; cbn [length] in H0; destruct l as [|c' l]; try discriminate; cbn [c_str].
  - injection H0 as ->. done.
  - pose proof (H 0%nat ltac:(cbn; lia)) as E. injection E as ->. apply Forall_cons in Hw as [Hc Hw]. rewrite (proj2 (Z.eqb_neq c 0)) by done. f_equal.
    apply IH; [|done|done]. intros i Hi. apply (H (S i)). cbn. lia.
Qed.

Section strings.
Context (text : list Z) (Hnz : Forall (fun c => c <> 0) text).

Lemma word_end q e w : word_at text q e w -> (e <= es text)%nat /\ ends_word (drop e text).
Proof using. by intros (_ & _ & _ & ? & _ & ?). Qed.

Lemma word_char q e w i : word_at text q e w -> (i < length w)%nat -> text !! (q + i)%nat = w !! i /\ (q + i < es text)%nat /\ ~ ends_word (drop (q + i) text).
Proof using.
  intros (_ & Hw & He & Hes & Hq & _) Hi. assert (E : drop (q + i) text = drop i w ++ drop e text).
  { rewrite <- drop_drop, Hq, drop_app_le by lia. done. }
  destruct (lookup_lt_is_Some_2 w i Hi) as [c Hc]. rewrite (drop_S _ _ _ Hc) in E. split; [|split; [lia|]].
  - rewrite Hc. rewrite <- (Nat.add_0_r (q + i)), <- lookup_drop, E. done.
  - rewrite E. cbn. by rewrite (Forall_lookup_1 _ _ _ _ Hw Hc).
Qed.

Lemma str_at_word E buf q e w : nul_at E (text ++ [0]) buf -> (forall j, j ∈ E -> ends_word (drop j text)) -> e ∈ E -> word_at text q e w -> str_at buf q = w.
Proof using Hnz.
  intros [Hl H] HE He Hw. pose proof Hw as (_ & _ & Ee & Hes & Hq & _). unfold es in *. rewrite length_app in Hl, H. cbn in Hl, H. apply c_str_of.
  - intros i Hi. destruct (word_char _ _ _ _ Hw Hi) as (H1 & H2 & H3). unfold es in H2. rewrite lookup_drop, H by lia.
    rewrite decide_False by (intros ?%HE; done). rewrite lookup_app_l by lia. done.
  - rewrite lookup_drop, <- Ee, H by lia. by rewrite decide_True.
  - apply (Forall_drop _ q) in Hnz. rewrite Hq in Hnz. by apply Forall_app in Hnz as [? _].
Qed.

Lemma reads_ends c : forall x, reads text c x -> forall j, j ∈ word_ends c -> ends_word (drop j text).
Proof using.
  induction c as [argv|c IH|l IHl r IHr|l IHl r IHr|c IH]; intros x Hx j Hj; destruct x; try done; cbn [reads word_ends] in *.
  - apply list_elem_of_fmap in Hj as (a & -> & Ha). apply list_elem_of_lookup_1 in Ha as (i & Ha). destruct (Forall2_lookup_l _ _ _ _ _ Hx Ha) as (w & _ & Hw).
    by apply (word_end _ _ _ Hw).
  - destruct Hx as (H1 & H2 & _). apply elem_of_cons in Hj as [->|Hj]; [by apply (word_end _ _ _ H2)|by apply (IH _ H1)].
  - destruct Hx as [H1 H2]. apply elem_of_app in Hj as [Hj|Hj]; [by apply (IHl _ H1)|by apply (IHr _ H2)].
  - destruct Hx as [H1 H2]. apply elem_of_app in Hj as [Hj|Hj]; [by apply (IHl _ H1)|by apply (IHr _ H2)].
  - by apply (IH _ Hx).
Qed.

Lemma resolve_reads E buf c : nul_at E (text ++ [0]) buf -> (forall j, j ∈ E -> ends_word (drop j text)) ->
  forall x, reads text c x -> (forall j, j ∈ word_ends c -> j ∈ E) -> resolve buf c = x.
Proof using Hnz.
  intros Hb HE. induction c as [argv|c IH|l IHl r IHr|l IHl r IHr|c IH]; intros x Hx Hin; destruct x as [ws|x w mode' fd'|x1 x2|x1 x2|x]; try done; cbn [reads word_ends resolve] in *.
  - f_equal. induction Hx as [|[q e] w argv ws Ha _ IH]; [done|]. cbn [map fst]. f_equal; [|apply IH; intros j Hj; apply Hin; by right].
    apply (str_at_word E buf q e w Hb HE); [apply Hin; left|done].
  - destruct Hx as (H1 & H2 & -> & ->). f_equal; [apply IH; [done|]; intros j Hj; apply Hin; by right|].
    apply (str_at_word E _ _ _ _ Hb HE) with (2 := H2). apply Hin. left.
  - destruct Hx as [H1 H2]. f_equal; [apply IHl|apply IHr]; try done; intros j Hj; apply Hin, elem_of_app; auto.
  - destruct Hx as [H1 H2]. f_equal; [apply IHl|apply IHr]; try done; intros j Hj; apply Hin, elem_of_app; auto.
  - f_equal. by apply IH.
Qed.

End strings.

Lemma parsecmd_run text fuel : Forall (fun c => c <> 0) text -> (4 * length text + 4 <= fuel)%nat ->
  match parsecmd fuel text with
  | POk (c, buf) => exists l, line_ok l /\ lex text = line_toks l /\ resolve buf c = line_cmd l
  | PPanic _ => ~ exists l, line_ok l /\ lex text = line_toks l
  | PFuel => False
  end.
Proof.
  intros Hnz Hf. pose proof (length_lex text) as Hll. destruct (parse_sim text Hnz fuel) as (Hsim & _). specialize (Hsim 0%nat ltac:(lia)). rewrite drop_0 in Hsim.
  pose proof (proj1 (grammar_fuel fuel) (lex text) ltac:(lia)) as Hfuel. unfold parsecmd.
  destruct (parseline text fuel 0) as [[c ps]| |] eqn:Ep, (t_line fuel (lex text)) as [[x ts]| |] eqn:Et; try done; cbn [mbind pres_bind].
  - destruct Hsim as (S1 & S2 & S3). destruct (peek_spec text Hnz [] ps ltac:(lia) eq_refl) as (_ & P2 & P3). destruct (peek text [] ps) as [b ps1] eqn:E. cbn [fst snd] in *.
    destruct (proj1 (grammar_sound fuel) _ _ _ Et) as (l & Hl & El & ->). destruct (Nat.eqb_spec ps1 (es text)) as [->|Hne]; cbn [negb].
    + exists l. split; [done|]. split; [rewrite El, <- S2, <- P2, drop_ge by (unfold es; lia); by rewrite app_nil_r|].
      apply (resolve_reads text Hnz (word_ends c)); [apply nulterminate_at|by apply (reads_ends text c (line_cmd l))|done|done].
    + intros (l' & Hl' & El'). pose proof (proj1 grammar_complete l' Hl' fuel []) as Hc. rewrite app_nil_r, <- El', Et in Hc.
      specialize (Hc ltac:(done) ltac:(lia)). injection Hc as _ ->. apply Hne. destruct (skip_ws_spec text Hnz (es text - ps) ps eq_refl) as (_ & _ & _ & K).
      unfold peek in E. injection E as _ E. rewrite E in K. rewrite S2 in P2. destruct (drop ps1 text) as [|c0 r] eqn:Er.
      * apply rest_nil in Er. lia.
      * by destruct (lex_nonempty c0 r K P2).
  - intros (l' & Hl' & El'). pose proof (proj1 grammar_complete l' Hl' fuel []) as Hc. rewrite app_nil_r, <- El', Et in Hc. by specialize (Hc ltac:(done) ltac:(lia)).
Qed.

(** C19: [parsecmd] accepts exactly the lines of the grammar: it terminates with
    four steps of fuel per character; if it returns, the tokens of the line
    are those of a line of the grammar and the tree, read through the buffer
    in which [nulterminate] has ended every word, is the command the line
    denotes; if it panics, no line of the grammar has these tokens. *)
Theorem parsecmd_parses_grammar text fuel : Forall (fun c => c <> 0) text -> (4 * length text + 4 <= fuel)%nat ->
  match parsecmd fuel text with
  | POk (c, buf) => exists l, line_ok l /\ lex text = line_toks l /\ resolve buf c = line_cmd l
  | PPanic _ => ~ exists l, line_ok l /\ lex text = line_toks l
  | PFuel => False
  end.
Proof. apply parsecmd_run. Qed.

Definition a_line : list Z := Eval vm_compute in chars "(ls -l|wc >x) & ;cat<x".

Lemma parsecmd_parses_grammar_witness : exists c buf l, parsecmd 100 a_line = POk (c, buf) /\ line_ok l /\ lex a_line = line_toks l /\ resolve buf c = line_cmd l.
Proof.
  pose proof (parsecmd_parses_grammar a_line 100 ltac:(unfold a_line; repeat (constructor; [discriminate|]); constructor) ltac:(unfold a_line; cbn; lia)) as H.
  destruct (parsecmd 100 a_line) as [[c buf]|m|] eqn:E; [|vm_compute in E; discriminate E|destruct H].
  destruct H as (l & H1 & H2 & H3). exists c, buf, l. split; [reflexivity|]. split; [exact H1|]. split; [exact H2|exact H3].
Defined.
