(* ===== verification/ShellRun.v ===== *)
(** * Running commands: the descriptors of the programs [runcmd] of src/xv6/sh.c starts

    The system calls of [runcmd] are interpreted on descriptor tables: [open],
    [dup] and [pipe] take the lowest free descriptors, as [fdalloc] of the
    kernel does, and a child gets a copy of the table.  Every fallible call is
    numbered, and an oracle says which ones succeed. *)

From stdpp Require Import base list list_numbers numbers strings.
From Stdlib Require Import ZArith Lia.
From S2P Require Import Prelude KState Printf Sysfile Shell ShellSpec.

(** What a descriptor refers to: something the shell got from its parent, a
    file, or an end of the pipe number [id]. *)
Inductive obj := OInherited (n : nat) | OFile (name : list Z) (mode : Z) | OPipeR (id : nat) | OPipeW (id : nat).
Abbreviation fdtable := (list (option obj)).

Fixpoint first_free (t : fdtable) : nat :=
  match t with
  | [] => 0
  | None :: _ => 0
  | Some _ :: t' => S (first_free t')
  end.
Definition fd_open (o : obj) (t : fdtable) : fdtable := <[first_free t := Some o]> t.
Definition fd_close (fd : Z) (t : fdtable) : fdtable := <[Z.to_nat fd := None]> t.
Definition fd_dup (fd : Z) (t : fdtable) : fdtable :=
  match t !! Z.to_nat fd with Some (Some o) => fd_open o t | _ => t end.

Record prog_run := mkRun { r_argv : list (list Z); r_fds : fdtable }.

Section spawn.
Context (ok : nat -> bool).

(** The programs started, the next pipe and the next fallible call. *)
Fixpoint spawn (s : sys) (t : fdtable) (id k : nat) : list prog_run * (nat * nat) :=
  match s with
  | Sexit => ([], (id, k))
  | Sexec path argv failed => if ok k then ([mkRun argv t], (id, S k)) else spawn failed t id (S k)
  | Sprintf _ _ s => spawn s t id k
  | Sclose fd s => spawn s (fd_close fd t) id k
  | Sdup fd s => spawn s (fd_dup fd t) id k
  | Sopen file mode failed s => if ok k then spawn s (fd_open (OFile file mode) t) id (S k) else spawn failed t id (S k)
  | Spipe failed f =>
      if ok k then
        let t1 := fd_open (OPipeR id) t in
        spawn (f (Z.of_nat (first_free t)) (Z.of_nat (first_free t1))) (fd_open (OPipeW id) t1) (S id) (S k)
      else spawn failed t id (S k)
  | Sfork failed child parent =>
      if ok k then
        let '(ps, (id, k)) := spawn child t id (S k) in
        let '(ps', r) := spawn parent t id k in (ps ++ ps', r)
      else spawn failed t id (S k)
  | Swait s => spawn s t id k
  end.

End spawn.

(** ** The plumbing of a command *)

(** A table with the three standard descriptors only. *)
Definition std (i o e : obj) : fdtable := [Some i; Some o; Some e] ++ replicate 13 None.

(** The programs of a command, with their standard input and output, and the
    number of pipes made so far. *)
Fixpoint plumb (x : scmd) (i o e : obj) (id : nat) : list prog_run * nat :=
  match x with
  | XExec [] => ([], id)
  | XExec argv => ([mkRun argv (std i o e)], id)
  | XRedir x file mode fd => if fd =? 0 then plumb x (OFile file mode) o e id else plumb x i (OFile file mode) e id
  | XList l r =>
      let '(ps, id) := plumb l i o e id in
      let '(ps', id) := plumb r i o e id in (ps ++ ps', id)
  | XPipe l r =>
      let '(ps, id1) := plumb l i (OPipeW id) e (S id) in
      let '(ps', id2) := plumb r (OPipeR id) o e id1 in (ps ++ ps', id2)
  | XBack x => plumb x i o e id
  end.

(** The redirections of the grammar are of descriptors 0 and 1. *)
Fixpoint std_redirs (x : scmd) : Prop :=
  match x with
  | XExec _ => True
  | XRedir x _ _ fd => (fd = 0 \/ fd = 1) /\ std_redirs x
  | XPipe l r | XList l r => std_redirs l /\ std_redirs r
  | XBack x => std_redirs x
  end.

Lemma grammar_redirs :
  (forall l, std_redirs (line_cmd l)) /\ (forall p, std_redirs (pipe_cmd p)) /\ (forall e, std_redirs (simple_cmd e)).
Proof.
  assert (Hr : forall rs x, std_redirs x -> std_redirs (foldl add_redir x rs)).
  { induction rs as [|r rs IH]; intros x Hx; [done|]. cbn [foldl]. apply IH. destruct r; (split; [|done]); auto. }
  assert (Hb : forall n x, std_redirs x -> std_redirs (Nat.iter n XBack x)) by (induction n; intros x Hx; [done|by apply IHn]).
  apply grammar_ind; intros; cbn [line_cmd pipe_cmd simple_cmd std_redirs]; try split; auto.
  by apply Hr.
Qed.

(** The table with both ends of a pipe, and what the children make of it. *)
Definition piped (i o e : obj) (id : nat) : fdtable := [Some i; Some o; Some e; Some (OPipeR id); Some (OPipeW id)] ++ replicate 11 None.

Lemma pipe_table i o e id : fd_open (OPipeW id) (fd_open (OPipeR id) (std i o e)) = piped i o e id /\
  first_free (std i o e) = 3%nat /\ first_free (fd_open (OPipeR id) (std i o e)) = 4%nat.
Proof. done. Qed.
Lemma left_table i o e id : fd_close 4 (fd_close 3 (fd_dup 4 (fd_close 1 (piped i o e id)))) = std i (OPipeW id) e.
Proof. done. Qed.
Lemma right_table i o e id : fd_close 4 (fd_close 3 (fd_dup 3 (fd_close 0 (piped i o e id)))) = std (OPipeR id) o e.
Proof. done. Qed.
Lemma redir_table i o e f fd : fd = 0 \/ fd = 1 -> fd_open f (fd_close fd (std i o e)) = if fd =? 0 then std f o e else std i f e.
Proof. by intros [-> | ->]. Qed.

Definition only_std (e : obj) (p : prog_run) : Prop := exists i o, r_fds p = std i o e.

Lemma spawn_std ok buf c : forall i o e id k, std_redirs (resolve buf c) -> Forall (only_std e) (spawn ok (runcmd buf c) (std i o e) id k).1.
Proof.
  induction c as [argv|c IH q eq mode fd|l IHl r IHr|l IHl r IHr|c IH]; intros i o e id k Hs; cbn [resolve std_redirs] in Hs; cbn [runcmd].
  - destruct argv as [|[q eq] argv]; [constructor|]. cbn [spawn]. destruct (ok k); [|constructor]. repeat constructor. by exists i, o.
  - destruct Hs as [Hfd Hs]. cbn [spawn]. destruct (ok k); [|constructor]. rewrite redir_table by done. destruct (fd =? 0); by apply IH.
  - destruct Hs as [Hl Hr]. cbn [spawn fork1]. destruct (pipe_table i o e id) as (-> & -> & ->). change (Z.of_nat 3) with 3. change (Z.of_nat 4) with 4.
    rewrite left_table, right_table. destruct (ok k); [|constructor]. cbn [spawn]. destruct (ok (S k)); [|constructor].
    pose proof (IHl i (OPipeW id) e (S id) (S (S k)) Hl) as H1. destruct (spawn ok (runcmd buf l) _ _ _) as [ps [id1 k1]].
    destruct (ok k1); [|cbn; by rewrite app_nil_r].
    pose proof (IHr (OPipeR id) o e id1 (S k1) Hr) as H2. destruct (spawn ok (runcmd buf r) _ _ _) as [ps' [id2 k2]].
    cbn [spawn fst] in *. rewrite app_nil_r. by apply Forall_app.
  - destruct Hs as [Hl Hr]. cbn [spawn fork1]. destruct (ok k); [|constructor].
    pose proof (IHl i o e id (S k) Hl) as H1. destruct (spawn ok (runcmd buf l) _ _ _) as [ps [id1 k1]].
    pose proof (IHr i o e id1 k1 Hr) as H2. destruct (spawn ok (runcmd buf r) _ _ _) as [ps' [id2 k2]]. by apply Forall_app.
  - cbn [spawn fork1]. destruct (ok k); [|constructor]. pose proof (IH i o e id (S k) Hs) as H1. destruct (spawn ok (runcmd buf c) _ _ _) as [ps [id1 k1]].
    cbn [fst] in *. by rewrite app_nil_r.
Qed.

Lemma spawn_plumb ok buf c : (forall k, ok k = true) -> forall i o e id k, std_redirs (resolve buf c) ->
  (spawn ok (runcmd buf c) (std i o e) id k).1 = (plumb (resolve buf c) i o e id).1 /\
  (spawn ok (runcmd buf c) (std i o e) id k).2.1 = (plumb (resolve buf c) i o e id).2.
Proof.
  intros Hok. induction c as [argv|c IH q eq mode fd|l IHl r IHr|l IHl r IHr|c IH]; intros i o e id k Hs; cbn [resolve std_redirs] in Hs; cbn [runcmd resolve plumb].
  - destruct argv as [|[q eq] argv]; [done|]. cbn [spawn map]. by rewrite Hok.
  - destruct Hs as [Hfd Hs]. cbn [spawn]. rewrite Hok, redir_table by done. destruct (fd =? 0); by apply IH.
  - destruct Hs as [Hl Hr]. cbn [spawn fork1]. destruct (pipe_table i o e id) as (-> & -> & ->). change (Z.of_nat 3) with 3. change (Z.of_nat 4) with 4.
    rewrite left_table, right_table, !Hok. cbn [spawn].
    destruct (IHl i (OPipeW id) e (S id) (S (S k)) Hl) as [H1 H2]. destruct (spawn ok (runcmd buf l) _ _ _) as [ps [id1 k1]], (plumb (resolve buf l) _ _ _ _) as [ps0 id0].
    cbn [fst snd] in H1, H2. subst ps0 id0. rewrite Hok.
    destruct (IHr (OPipeR id) o e id1 (S k1) Hr) as [H1 H2]. destruct (spawn ok (runcmd buf r) _ _ _) as [ps' [id2 k2]], (plumb (resolve buf r) _ _ _ _) as [ps0 id0].
    cbn [fst snd] in H1, H2. subst ps0 id0. cbn [spawn fst snd]. by rewrite app_nil_r.
  - destruct Hs as [Hl Hr]. cbn [spawn fork1]. rewrite Hok.
    destruct (IHl i o e id (S k) Hl) as [H1 H2]. destruct (spawn ok (runcmd buf l) _ _ _) as [ps [id1 k1]], (plumb (resolve buf l) _ _ _ _) as [ps0 id0].
    cbn [fst snd] in H1, H2. subst ps0 id0. cbn [spawn].
    destruct (IHr i o e id1 k1 Hr) as [H1 H2]. destruct (spawn ok (runcmd buf r) _ _ _) as [ps' [id2 k2]], (plumb (resolve buf r) _ _ _ _) as [ps0 id0].
    cbn [fst snd] in H1, H2. by subst ps0 id0.
  - cbn [spawn fork1]. rewrite Hok. destruct (IH i o e id (S k) Hs) as [H1 H2]. destruct (spawn ok (runcmd buf c) _ _ _) as [ps [id1 k1]]. cbn [fst snd spawn] in *.
    by rewrite app_nil_r.
Qed.

(** C20: The programs the shell starts for a command line, from a process with the
    three standard descriptors: whatever system calls fail, every program that
    is started has exactly these three open, with the error output of the
    shell, so no end of a pipe is left open anywhere; when all calls succeed,
    the programs are those of the command in order, the left side of a pipe
    writes into the pipe its right side reads from, and a redirection that is
    nearer to the command takes precedence. *)
Theorem runcmd_plumbing text fuel c buf : Forall (fun c => c <> 0) text -> (4 * length text + 4 <= fuel)%nat -> parsecmd fuel text = POk (c, buf) ->
  exists l, line_ok l /\ lex text = line_toks l /\ forall ok i o e id k,
    Forall (only_std e) (spawn ok (runcmd buf c) (std i o e) id k).1 /\
    ((forall n, ok n = true) -> (spawn ok (runcmd buf c) (std i o e) id k).1 = (plumb (line_cmd l) i o e id).1).
Proof.
  intros Hnz Hf E. pose proof (parsecmd_run text fuel Hnz Hf) as H. rewrite E in H. destruct H as (l & H1 & H2 & H3). exists l. do 2 (split; [done|]).
  intros ok i o e id k. assert (Hs : std_redirs (resolve buf c)) by (rewrite H3; apply grammar_redirs). split; [by apply spawn_std|].
  intros Hok. rewrite <- H3. by apply (spawn_plumb ok buf c Hok).
Qed.

Lemma runcmd_plumbing_witness : exists c buf, parsecmd 100 a_line = POk (c, buf) /\
  Forall (only_std (OInherited 2)) (spawn (fun _ => true) (runcmd buf c) (std (OInherited 0) (OInherited 1) (OInherited 2)) 0 0).1 /\
  (spawn (fun _ => true) (runcmd buf c) (std (OInherited 0) (OInherited 1) (OInherited 2)) 0 0).1 =
  [mkRun [chars "ls"; chars "-l"] (std (OInherited 0) (OPipeW 0) (OInherited 2));
   mkRun [chars "wc"] (std (OPipeR 0) (OFile (chars "x") 0x201) (OInherited 2));
   mkRun [chars "cat"] (std (OFile (chars "x") 0) (OInherited 1) (OInherited 2))].
Proof.
  destruct (parsecmd 100 a_line) as [[c buf]|m|] eqn:E; [|vm_compute in E; discriminate E|vm_compute in E; discriminate E].
  exists c, buf. split; [reflexivity|].
  destruct (runcmd_plumbing a_line 100 c buf) as (l & _ & _ & H); [unfold a_line; repeat (constructor; [discriminate|]); constructor|unfold a_line; cbn; lia|exact E|].
  split; [apply H|]. vm_compute in E. injection E as <- <-. vm_compute. reflexivity.
Defined.
