(* ===== verification/Discipline.v ===== *)
(** * Lock discipline of the whole kernel

    [locks h m Q]: a run of [m] that starts with the locks [h] held and returns
    [a] ends with the locks [Q a] held; one that gives up the processor does so
    with exactly [ptable.lock] held; and it does not panic because of a lock:
    it acquires none that it holds, releases none that it does not hold, and
    does not reach [sched] with another lock.  [quiet R m] is the case of a
    function that returns with the locks it was called with, whatever they
    are, as long as those of [R] are not among them; [balanced m] that of a
    function that may sleep, and so has to be called without locks.  Every
    function of the kernel model is shown to keep to this; the tactic
    [locks_tac] follows the structure of the code and uses the lemmas of the
    functions it calls from the database [locks]. *)

From stdpp Require Import base list list_numbers numbers gmap strings.
From Stdlib Require Import ZArith Lia.
From S2P Require Import Prelude Mem CString KState Sched Bio Log Kalloc Pipe Printf Block Inode Console Fileio Vm File Sysarg Exec Process Sysfile Trap Lifecycle.

(** The panics of spinlock.c and of [sched] over the locks that are held. *)
Definition lock_panic (msg : string) : bool := existsb (String.eqb msg) ["acquire"; "release"; "sched ptable.lock"; "sched locks"].

Definition locks {A} (h : list lockid) (m : K A) (Q : A -> list lockid) : Prop :=
  forall s, k_held s = h ->
    match m s with
    | Ret a s' => k_held s' = Q a
    | Stop Switch s' => k_held s' = [L_ptable]
    | Stop (Panic msg) _ => lock_panic msg = false
    | Stop _ _ => True
    end.

Definition free_of (R h : list lockid) : Prop := Forall (fun l => l ∉ h) R.
Definition quiet {A} (R : list lockid) (m : K A) : Prop := forall h, free_of R h -> locks h m (fun _ => h).
Definition balanced {A} (m : K A) : Prop := locks [] m (fun _ => []).

(** A computation that never returns satisfies every postcondition. *)
Definition leaves {A} (h : list lockid) (m : K A) : Prop := forall Q, locks h m Q.

(** A computation that releases the only lock it is called with. *)
Definition unlocks {A} (l : lockid) (m : K A) : Prop := locks [l] m (fun _ => []).

(** ** Rules *)

Lemma free_nil R : free_of R [].
Proof. apply Forall_forall. intros l _. apply not_elem_of_nil. Qed.

Lemma free_cons l R h : l ∉ h -> free_of R h -> free_of (l :: R) h.
Proof. intros Hl HR. by apply Forall_cons_2. Qed.

Lemma free_inv l R h : free_of (l :: R) h -> (l ∉ h) /\ free_of R h.
Proof. intros H. by apply Forall_cons in H. Qed.

Lemma quiet_balanced {A} R (m : K A) : quiet R m -> balanced m.
Proof. intros Hm. apply Hm, free_nil. Qed.

Lemma locks_bind {A B} h (m : K A) (f : A -> K B) P Q :
  locks h m P -> (forall a, locks (P a) (f a) Q) -> locks h (m ≫= f) Q.
Proof.
  intros Hm Hf s Hs. specialize (Hm s Hs). rewrite bind_run. destruct (m s) as [a s1|e s1]; [|done]. by apply Hf.
Qed.

Lemma locks_same {A B} h (m : K A) (f : A -> K B) Q : locks h m (fun _ => h) -> (forall a, locks h (f a) Q) -> locks h (m ≫= f) Q.
Proof. apply locks_bind. Qed.

Lemma locks_seq {A B} (m : K A) (f : A -> K B) Q : balanced m -> (forall a, locks [] (f a) Q) -> locks [] (m ≫= f) Q.
Proof. apply locks_bind. Qed.

Lemma quiet_seq {A B} R h (m : K A) (f : A -> K B) Q : quiet R m -> free_of R h -> (forall a, locks h (f a) Q) -> locks h (m ≫= f) Q.
Proof. intros Hm HR. apply locks_bind, Hm, HR. Qed.

Lemma unlocks_seq {A B} l (m : K A) (f : A -> K B) Q : unlocks l m -> (forall a, locks [] (f a) Q) -> locks [l] (m ≫= f) Q.
Proof. apply locks_bind. Qed.

Lemma locks_post {A} h (m : K A) P Q : locks h m P -> (forall a, P a = Q a) -> locks h m Q.
Proof. intros Hm HQ s Hs. specialize (Hm s Hs). destruct (m s) as [a s'|e s']; [|done]. by rewrite <- HQ. Qed.

Lemma locks_tail {A} (m : K A) Q : balanced m -> (forall a, [] = Q a) -> locks [] m Q.
Proof. apply locks_post. Qed.

Lemma quiet_tail {A} R h (m : K A) Q : quiet R m -> free_of R h -> (forall a, h = Q a) -> locks h m Q.
Proof. intros Hm HR. apply locks_post, Hm, HR. Qed.

Lemma unlocks_tail {A} l (m : K A) Q : unlocks l m -> (forall a, [] = Q a) -> locks [l] m Q.
Proof. apply locks_post. Qed.

Lemma locks_ret {A} h (a : A) Q : h = Q a -> locks h (mret a) Q.
Proof. by intros -> s Hs. Qed.

Lemma locks_panic {A} h msg (Q : A -> _) : lock_panic msg = false -> locks h (panic msg) Q.
Proof. by intros Hm s Hs. Qed.

Lemma locks_stop {A} h e (Q : A -> _) : match e with Fault | NoFuel => True | _ => False end -> locks h (stop e) Q.
Proof. intros He s Hs. by destruct e. Qed.

Lemma locks_acquire {A} h l (f : unit -> K A) Q : l ∉ h -> locks (l :: h) (f tt) Q -> locks h (acquire l ≫= f) Q.
Proof.
  intros Hl Hf s Hs. rewrite bind_run, acquire_free by by rewrite Hs. apply Hf. ksimp. by rewrite Hs.
Qed.

Lemma locks_release {A} h l (f : unit -> K A) Q : l ∉ h -> locks h (f tt) Q -> locks (l :: h) (release l ≫= f) Q.
Proof.
  intros Hl Hf s Hs. rewrite bind_run, (release_held _ _ h) by done. apply Hf. by ksimp.
Qed.

Lemma locks_release_last h l Q : l ∉ h -> h = Q tt -> locks (l :: h) (release l) Q.
Proof. intros Hl HQ s Hs. rewrite (release_held _ _ h) by done. by rewrite <- HQ. Qed.

Lemma locks_acquire_last h l Q : l ∉ h -> l :: h = Q tt -> locks h (acquire l) Q.
Proof. intros Hl HQ s Hs. rewrite acquire_free by by rewrite Hs. rewrite <- HQ. ksimp. by rewrite Hs. Qed.

Lemma leaves_bind {A B} h (m : K A) (f : A -> K B) : leaves h m -> leaves h (m ≫= f).
Proof.
  intros Hm Q s Hs. rewrite bind_run. destruct (m s) as [a s1|e s1] eqn:E.
  - pose proof (Hm (fun _ => L_ptable :: k_held s1) s Hs) as H. rewrite E in H. exfalso. apply (f_equal length) in H. cbn in H. lia.
  - pose proof (Hm (fun _ => h) s Hs) as H. by rewrite E in H.
Qed.

Lemma leaves_use {A} h (m : K A) Q : leaves h m -> locks h m Q.
Proof. intros Hm. apply Hm. Qed.

Lemma qt_gets {A} (f : kstate -> A) : quiet [] (gets f).
Proof. by intros h _ s Hs. Qed.
Lemma qt_getst : quiet [] getst.
Proof. by intros h _ s Hs. Qed.
Lemma qt_modify f : (forall s, k_held (f s) = k_held s) -> quiet [] (modify f).
Proof. intros Hf h _ s Hs. cbn. by rewrite Hf. Qed.
Lemma qt_deref {A} (o : option A) : quiet [] (deref o).
Proof. intros h _ s Hs. by destruct o. Qed.
Lemma qt_for R n i body : (forall i, quiet R (body i)) -> quiet R (for_loop n i body).
Proof.
  intros Hb h Hh. revert i. induction n as [|n IH]; intros i; cbn [for_loop]; [by apply locks_ret|]. apply locks_same; [by apply Hb|]. intros _. apply IH.
Qed.
Lemma bal_for n i body : (forall i, balanced (body i)) -> balanced (for_loop n i body).
Proof.
  intros Hb. revert i. induction n as [|n IH]; intros i; unfold balanced; cbn [for_loop]; [by apply locks_ret|]. apply locks_seq; [by apply Hb|]. intros _. apply IH.
Qed.

(** The functions that return with the locks they were called with, and those
    that leave the processor. *)
Create HintDb locks.
Create HintDb leaves.
#[export] Hint Resolve qt_gets qt_getst qt_deref : locks.
#[export] Hint Extern 2 (quiet _ (modify _)) => (apply qt_modify; intros; reflexivity) : locks.
#[export] Hint Resolve quiet_balanced | 10 : locks.

(** None of the locks at hand is among those held. *)
Ltac free_tac :=
  lazymatch goal with
  | |- free_of [] _ => apply Forall_nil_2
  | |- free_of _ [] => apply free_nil
  | |- free_of (_ :: _) _ => apply free_cons; [free_tac|free_tac]
  | H : free_of ?R ?h |- free_of ?R ?h => exact H
  | |- _ ∉ [] => apply not_elem_of_nil
  | |- _ ∉ _ :: _ => apply not_elem_of_cons; split; [discriminate|free_tac]
  | |- _ ∉ _ => assumption
  end.
Ltac split_free H :=
  lazymatch type of H with
  | free_of (_ :: _) _ => let H1 := fresh "Hf" in let H2 := fresh "Hf" in apply free_inv in H as [H1 H2]; split_free H2
  | _ => idtac
  end.

(** Following the code. *)
Ltac locks_tac :=
  lazymatch goal with
  | |- balanced _ => unfold balanced; locks_tac
  | |- quiet _ _ => let h := fresh "h" in let H := fresh "Hf" in intros h H; split_free H; locks_tac
  | |- leaves _ _ => let Q := fresh "Q" in intros Q; locks_tac
  | |- unlocks _ _ => unfold unlocks; locks_tac
  | |- forall _, _ => intros ?; locks_tac
  | |- locks _ (acquire _ ≫= _) _ => apply locks_acquire; [free_tac|locks_tac]
  | |- locks _ (release _ ≫= _) _ => apply locks_release; [free_tac|locks_tac]
  | |- locks _ (release _) _ => apply locks_release_last; [free_tac|reflexivity]
  | |- locks _ (acquire _) _ => apply locks_acquire_last; [free_tac|reflexivity]
  | |- locks _ (panic _) _ => apply locks_panic; reflexivity
  | |- locks _ (stop _) _ => apply locks_stop; exact I
  | |- locks _ (mret _) _ => apply locks_ret; reflexivity
  | |- locks [] (for_loop _ _ _) _ => apply locks_tail; [apply bal_for; locks_tac|reflexivity]
  | |- locks _ (match ?x with _ => _ end) _ => destruct x; locks_tac
  | |- locks _ (_ ≫= _) _ =>
      first [ eapply quiet_seq; [solve [eauto 4 with locks nocore]|free_tac|locks_tac]
            | apply locks_seq; [solve [eauto 4 with locks nocore]|locks_tac]
            | apply unlocks_seq; [solve [eauto 4 with locks nocore]|locks_tac]
            | apply leaves_use; solve [auto 3 with leaves nocore]
            | apply locks_same; [solve [locks_tac]|locks_tac] ]
  | |- locks _ _ _ =>
      first [ eapply quiet_tail; [solve [eauto 4 with locks nocore]|free_tac|reflexivity]
            | apply locks_tail; [solve [eauto 4 with locks nocore]|reflexivity]
            | apply unlocks_tail; [solve [eauto 4 with locks nocore]|reflexivity]
            | apply leaves_use; solve [auto 3 with leaves nocore]
            | match goal with IH : forall _, locks _ _ _ |- _ => apply IH end ]
  | |- _ => idtac
  end.

(** ** The tables *)

Lemma qt_get_buf i : quiet [] (get_buf i).
Proof. unfold get_buf. locks_tac. Qed.
Lemma qt_get_inode i : quiet [] (get_inode i).
Proof. unfold get_inode. locks_tac. Qed.
Lemma qt_get_file i : quiet [] (get_file i).
Proof. unfold get_file. locks_tac. Qed.
Lemma qt_get_proc i : quiet [] (get_proc i).
Proof. unfold get_proc. locks_tac. Qed.
Lemma qt_get_pipe p : quiet [] (get_pipe p).
Proof. unfold get_pipe. locks_tac. Qed.
Lemma qt_myproc : quiet [] myproc.
Proof. unfold myproc. locks_tac. Qed.
#[export] Hint Resolve qt_for qt_get_buf qt_get_inode qt_get_file qt_get_proc qt_get_pipe qt_myproc : locks.

Lemma qt_upd_buf i f : quiet [] (upd_buf i f).
Proof. unfold upd_buf, put_buf. locks_tac. Qed.
Lemma qt_upd_inode i f : quiet [] (upd_inode i f).
Proof. unfold upd_inode, put_inode. locks_tac. Qed.
Lemma qt_upd_file i f : quiet [] (upd_file i f).
Proof. unfold upd_file, put_file. locks_tac. Qed.
Lemma qt_upd_proc i f : quiet [] (upd_proc i f).
Proof. unfold upd_proc, put_proc. locks_tac. Qed.
Lemma qt_upd_pipe p f : quiet [] (upd_pipe p f).
Proof. unfold upd_pipe, put_pipe. locks_tac. Qed.
Lemma qt_upd_log f : quiet [] (upd_log f).
Proof. unfold upd_log. locks_tac. Qed.
#[export] Hint Resolve qt_upd_buf qt_upd_inode qt_upd_file qt_upd_proc qt_upd_pipe qt_upd_log : locks.

(** ** proc.c: the scheduler *)

Lemma leaves_sched : leaves [L_ptable] sched.
Proof.
  intros Q. unfold sched. intros s Hs. rewrite bind_run. cbn [getst]. unfold holding. rewrite Hs, bool_decide_true by constructor.
  cbn [negb length bool_decide]. rewrite bool_decide_true by done. cbn [negb].
  assert (H : locks [L_ptable] (me ← myproc; p ← get_proc me; if bool_decide (p_state p = RUNNING) then panic "sched running" else stop Switch) Q).
  { do 2 (eapply quiet_seq; [eauto with locks|free_tac|intros ?]). case_bool_decide; [locks_tac|by intros ? ?]. }
  apply (H s Hs).
Qed.

(** [sleep] gives up the lock it is called with. *)
Lemma leaves_sleep c lk : leaves [lk] (sleep c (Some lk)).
Proof.
  intros Q. unfold sleep. eapply quiet_seq; [eauto with locks|free_tac|]. intros [me|]; [|locks_tac].
  apply (locks_bind _ _ _ (fun _ => [L_ptable])).
  - destruct (decide (lk = L_ptable)) as [->|Hlk]; [by apply locks_ret|]. apply locks_acquire; [apply not_elem_of_cons; split; [done|apply not_elem_of_nil]|].
    intros s Hs. unfold release, holding. rewrite Hs, bool_decide_true by (right; left). ksimp. unfold drop_lock.
    rewrite filter_cons_True, filter_cons_False by (done || tauto). done.
  - intros _. do 2 (eapply quiet_seq; [eauto with locks|free_tac|intros ?]). apply leaves_sched.
Qed.

Lemma leaves_block {A} c lk : leaves [lk] (block c lk : K A).
Proof. apply leaves_bind, leaves_sleep. Qed.

#[export] Hint Resolve leaves_sched leaves_sleep leaves_block leaves_bind : leaves.

Lemma qt_switchuvm i : quiet [] (switchuvm i).
Proof. unfold switchuvm. locks_tac. Qed.
Lemma qt_wakeup1 c : quiet [] (wakeup1 c).
Proof. unfold wakeup1. locks_tac. Qed.
#[export] Hint Resolve qt_switchuvm qt_wakeup1 : locks.
Lemma qt_wakeup c : quiet [L_ptable] (wakeup c).
Proof. unfold wakeup. locks_tac. Qed.
Lemma unl_kill_loop pid n : forall i, unlocks L_ptable (kill_loop pid i n).
Proof. induction n as [|n IH]; intros i; cbn [kill_loop]; locks_tac. Qed.
#[export] Hint Resolve qt_wakeup unl_kill_loop : locks.
Lemma bal_kill pid : balanced (kill pid).
Proof. unfold kill. locks_tac. Qed.
Lemma bal_yield : balanced yield.
Proof. unfold yield. locks_tac. Qed.
#[export] Hint Resolve bal_kill bal_yield : locks.

(** ** bio.c and memide.c *)

Lemma qt_iderw i : quiet [] (iderw i).
Proof. unfold iderw. locks_tac. Qed.
Lemma qt_bget_scan n : forall b dev blockno, quiet [] (bget_scan n b dev blockno).
Proof. induction n as [|n IH]; intros; cbn [bget_scan]; locks_tac. Qed.
Lemma qt_bget_recycle n : forall b, quiet [] (bget_recycle n b).
Proof. induction n as [|n IH]; intros; cbn [bget_recycle]; locks_tac. Qed.
#[export] Hint Resolve qt_iderw qt_bget_scan qt_bget_recycle : locks.
Lemma unl_bget_loop dev blockno : unlocks L_bcache (bget_loop dev blockno).
Proof. unfold bget_loop. locks_tac. Qed.
#[export] Hint Resolve unl_bget_loop : locks.
Lemma bal_bread dev blockno : balanced (bread dev blockno).
Proof. unfold bread, bget. locks_tac. Qed.
Lemma bal_bwrite b : balanced (bwrite b).
Proof. unfold bwrite. locks_tac. Qed.
Lemma bal_brelse b : balanced (brelse b).
Proof. unfold brelse. locks_tac. Qed.
#[export] Hint Resolve bal_bread bal_bwrite bal_brelse : locks.

(** ** log.c *)

Lemma bal_readsb dev : balanced (readsb dev).
Proof. unfold readsb. locks_tac. Qed.
Lemma bal_install_one t : balanced (install_one t).
Proof. unfold install_one. locks_tac. Qed.
#[export] Hint Resolve bal_readsb bal_install_one : locks.
Lemma bal_install_trans : balanced install_trans.
Proof. unfold install_trans. locks_tac. Qed.
Lemma bal_read_head_one lh i : balanced (read_head_one lh i).
Proof. unfold read_head_one. locks_tac. Qed.
#[export] Hint Resolve bal_install_trans bal_read_head_one : locks.
Lemma bal_read_head : balanced read_head.
Proof. unfold read_head. locks_tac. Qed.
Lemma bal_write_head : balanced write_head.
Proof. unfold write_head. locks_tac. Qed.
#[export] Hint Resolve bal_read_head bal_write_head : locks.
Lemma bal_recover : balanced recover_from_log.
Proof. unfold recover_from_log. locks_tac. Qed.
#[export] Hint Resolve bal_recover : locks.
Lemma bal_initlog dev : balanced (initlog dev).
Proof. unfold initlog. locks_tac. Qed.
Lemma unl_begin_op_loop : unlocks L_log begin_op_loop.
Proof. unfold begin_op_loop. locks_tac. Qed.
#[export] Hint Resolve bal_initlog unl_begin_op_loop : locks.
Lemma bal_begin_op : balanced begin_op.
Proof. unfold begin_op. locks_tac. Qed.
Lemma bal_write_log_one t : balanced (write_log_one t).
Proof. unfold write_log_one. locks_tac. Qed.
#[export] Hint Resolve bal_begin_op bal_write_log_one : locks.
Lemma bal_write_log : balanced write_log.
Proof. unfold write_log. locks_tac. Qed.
#[export] Hint Resolve bal_write_log : locks.
Lemma bal_commit : balanced commit.
Proof. unfold commit. locks_tac. Qed.
#[export] Hint Resolve bal_commit : locks.
Lemma bal_end_op : balanced end_op.
Proof. unfold end_op. locks_tac. Qed.
Lemma bal_log_write b : balanced (log_write b).
Proof. unfold log_write. locks_tac. Qed.
#[export] Hint Resolve bal_end_op bal_log_write : locks.

(** ** kalloc.c *)

(** Whether [kmem.lock] is used does not change in between. *)
Lemma qt_with_kmem_lock {A} (m : K A) : quiet [] m -> (forall s, match m s with Ret _ s' => k_uselock s' = k_uselock s | Stop _ _ => True end) ->
  quiet [L_kmem] (with_kmem_lock (acquire L_kmem) ;; a ← m; with_kmem_lock (release L_kmem) ;; mret a).
Proof.
  intros Hm Hu h Hf s Hs. apply free_inv in Hf as [Hf _]. rewrite bind_run. unfold with_kmem_lock at 1. rewrite bind_run. cbn [gets].
  destruct (Z.eqb_spec (k_uselock s) 0) as [E|E].
  - cbn beta iota delta [mret prog_ret]. rewrite bind_run. specialize (Hm h ltac:(free_tac) s Hs). specialize (Hu s). destruct (m s) as [a s'|e s']; [|done].
    unfold with_kmem_lock. rewrite bind_run, bind_run. cbn [gets]. by rewrite Hu, E.
  - rewrite acquire_free by by rewrite Hs. rewrite bind_run, Hs. specialize (Hm (L_kmem :: h) ltac:(free_tac) (set_k_held (L_kmem :: h) s) eq_refl).
    specialize (Hu (set_k_held (L_kmem :: h) s)). destruct (m _) as [a s'|e s']; [|done]. unfold with_kmem_lock. rewrite bind_run, bind_run. cbn [gets].
    rewrite Hu. ksimp. rewrite (proj2 (Z.eqb_neq _ _)) by done. rewrite (release_held L_kmem s' h) by done. by ksimp.
Qed.

Lemma locks_ext {A} h (m m' : K A) Q : (forall s, m s = m' s) -> locks h m' Q -> locks h m Q.
Proof. intros E H s Hs. rewrite E. by apply H. Qed.

Lemma qt_kalloc : quiet [L_kmem] kalloc.
Proof.
  intros h Hf. eapply locks_ext; [|refine (qt_with_kmem_lock (r ← gets k_freelist;
    (if negb (r =? 0) then modify (fun s => set_k_freelist (ld32 (k_mem s) r) s) else mret tt) ;; mret r) _ _ h Hf)].
  - intros s. unfold kalloc. rewrite !bind_run. destruct (with_kmem_lock (acquire L_kmem) s) as [[] s1|]; [|done]. rewrite !bind_run. cbn [gets]. rewrite bind_run.
    by destruct (negb _).
  - locks_tac.
  - intros s. rewrite bind_run. cbn [gets]. rewrite bind_run. by destruct (negb _).
Qed.

Lemma qt_kfree end_ v : quiet [L_kmem] (kfree end_ v).
Proof.
  intros h Hf. unfold kfree. destruct (_ || _)%bool; [locks_tac|]. eapply quiet_seq; [eauto with locks|free_tac|]. intros _.
  eapply locks_ext; [|refine (qt_with_kmem_lock (modify (fun s => set_k_mem (st32 (k_mem s) v (k_freelist s)) s) ;; modify (set_k_freelist v)) _ _ h Hf)].
  - intros s. rewrite !bind_run. destruct (with_kmem_lock (acquire L_kmem) s) as [[] s1|]; [|done]. rewrite !bind_run. unfold modify. cbn beta iota. rewrite bind_run.
    rewrite bind_run. by match goal with |- context [with_kmem_lock (release L_kmem) ?st] => destruct (with_kmem_lock (release L_kmem) st) as [[]|] end.
  - locks_tac.
  - done.
Qed.
#[export] Hint Resolve qt_kfree qt_kalloc : locks.

(** ** pipe.c *)

Lemma qt_killed : quiet [] killed.
Proof. unfold killed. locks_tac. Qed.
#[export] Hint Resolve qt_killed : locks.
Lemma unl_pipewrite_loop p n l : unlocks (L_pipe p) (pipewrite_loop p n l).
Proof. induction l as [|c l IH]; cbn [pipewrite_loop]; locks_tac. Qed.
Lemma qt_piperead_copy p n : quiet [] (piperead_copy p n).
Proof. induction n as [|n IH]; cbn [piperead_copy]; locks_tac. Qed.
#[export] Hint Resolve unl_pipewrite_loop qt_piperead_copy : locks.
Lemma unl_piperead_loop p n : unlocks (L_pipe p) (piperead_loop p n).
Proof. unfold piperead_loop. locks_tac. Qed.
#[export] Hint Resolve unl_piperead_loop : locks.
Lemma bal_pipewrite p addr n : balanced (pipewrite p addr n).
Proof. unfold pipewrite. locks_tac. Qed.
Lemma bal_piperead p n : balanced (piperead p n).
Proof. unfold piperead. locks_tac. Qed.
Lemma bal_pipeclose end_ p w : balanced (pipeclose end_ p w).
Proof. unfold pipeclose. locks_tac. Qed.
#[export] Hint Resolve bal_pipewrite bal_piperead bal_pipeclose : locks.

(** ** fs.c *)

Lemma bal_bzero dev bno : balanced (bzero dev bno).
Proof. unfold bzero. locks_tac. Qed.
#[export] Hint Resolve bal_bzero : locks.
Lemma bal_balloc_loop dev n : forall b, balanced (balloc_loop dev n b).
Proof. induction n as [|n IH]; intros b; cbn [balloc_loop]; locks_tac. Qed.
#[export] Hint Resolve bal_balloc_loop : locks.
Lemma bal_balloc dev : balanced (balloc dev).
Proof. unfold balloc. locks_tac. Qed.
Lemma bal_bfree dev b : balanced (bfree dev b).
Proof. unfold bfree. locks_tac. Qed.
Lemma qt_cprintf fmt argp : quiet [L_cons] (cprintf_ fmt argp).
Proof. unfold cprintf_. locks_tac. Qed.
#[export] Hint Resolve bal_balloc bal_bfree qt_cprintf : locks.
Lemma bal_iinit dev : balanced (iinit dev).
Proof. unfold iinit. locks_tac. Qed.
Lemma bal_iget dev inum : balanced (iget dev inum).
Proof. unfold iget. locks_tac. Qed.
#[export] Hint Resolve bal_iinit bal_iget : locks.
Lemma bal_ialloc_loop dev type n : forall inum, balanced (ialloc_loop dev type n inum).
Proof. induction n as [|n IH]; intros inum; cbn [ialloc_loop]; locks_tac. Qed.
#[export] Hint Resolve bal_ialloc_loop : locks.
Lemma bal_ialloc dev type : balanced (ialloc dev type).
Proof. unfold ialloc. locks_tac. Qed.
Lemma bal_iupdate ip : balanced (iupdate ip).
Proof. unfold iupdate. locks_tac. Qed.
Lemma bal_idup ip : balanced (idup ip).
Proof. unfold idup. locks_tac. Qed.
Lemma unl_ilock_loop ip : unlocks L_icache (ilock_loop ip).
Proof. unfold ilock_loop. locks_tac. Qed.
#[export] Hint Resolve bal_ialloc bal_iupdate bal_idup unl_ilock_loop : locks.
Lemma bal_ilock ip : balanced (ilock ip).
Proof. unfold ilock. locks_tac. Qed.
Lemma bal_iunlock ip : balanced (iunlock ip).
Proof. unfold iunlock. locks_tac. Qed.
Lemma bal_bmap ip bn : balanced (bmap ip bn).
Proof. unfold bmap. locks_tac. Qed.
Lemma bal_itrunc_direct ip i : balanced (itrunc_direct ip i).
Proof. unfold itrunc_direct. locks_tac. Qed.
Lemma bal_itrunc_indirect ip bp i : balanced (itrunc_indirect ip bp i).
Proof. unfold itrunc_indirect. locks_tac. Qed.
#[export] Hint Resolve bal_ilock bal_iunlock bal_bmap bal_itrunc_direct bal_itrunc_indirect : locks.
Lemma bal_itrunc ip : balanced (itrunc ip).
Proof. unfold itrunc. locks_tac. Qed.
#[export] Hint Resolve bal_itrunc : locks.
Lemma bal_iput ip : balanced (iput ip).
Proof.
  unfold balanced, iput. apply locks_acquire; [free_tac|]. eapply quiet_seq; [eauto with locks|free_tac|]. intros v.
  apply locks_same; [|locks_tac]. destruct (_ && _)%bool; [|locks_tac]. destruct (flag _ _); locks_tac.
Qed.
#[export] Hint Resolve bal_iput : locks.
Lemma bal_iunlockput ip : balanced (iunlockput ip).
Proof. unfold iunlockput. locks_tac. Qed.
Lemma bal_stati ip : balanced (stati ip).
Proof. unfold stati. locks_tac. Qed.
#[export] Hint Resolve bal_iunlockput bal_stati : locks.

(** ** console.c *)

Lemma qt_consputc c : quiet [] (consputc c).
Proof. unfold consputc. locks_tac. Qed.
Lemma qt_upd_input f : quiet [] (upd_input f).
Proof. unfold upd_input. locks_tac. Qed.
Lemma qt_dump_pcs pcs : quiet [L_cons] (dump_pcs pcs).
Proof. induction pcs as [|pc pcs IH]; cbn [dump_pcs]; locks_tac. Qed.
#[export] Hint Resolve qt_consputc qt_upd_input qt_dump_pcs : locks.
Lemma qt_procdump_one p : quiet [L_cons] (procdump_one p).
Proof. unfold procdump_one. locks_tac. Qed.
#[export] Hint Resolve qt_procdump_one : locks.
Lemma qt_procdump_loop ps : quiet [L_cons] (procdump_loop ps).
Proof. induction ps as [|p ps IH]; cbn [procdump_loop]; locks_tac. Qed.
#[export] Hint Resolve qt_procdump_loop : locks.
Lemma qt_procdump : quiet [L_cons] procdump.
Proof. unfold procdump. locks_tac. Qed.
Lemma qt_kill_line n : quiet [] (kill_line n).
Proof. induction n as [|n IH]; cbn [kill_line]; locks_tac. Qed.
#[export] Hint Resolve qt_procdump qt_kill_line : locks.
Lemma qt_consoleintr_char c : quiet [L_cons; L_ptable] (consoleintr_char c).
Proof. unfold consoleintr_char. locks_tac. Qed.
#[export] Hint Resolve qt_consoleintr_char : locks.
Lemma qt_consoleintr_loop cs : quiet [L_cons; L_ptable] (consoleintr_loop cs).
Proof. induction cs as [|c cs IH]; cbn [consoleintr_loop]; locks_tac. Qed.
#[export] Hint Resolve qt_consoleintr_loop : locks.
Lemma bal_consoleintr cs : balanced (consoleintr cs).
Proof. unfold consoleintr. locks_tac. Qed.
#[export] Hint Resolve bal_consoleintr : locks.
Lemma bal_kbdintr datas shift : balanced (kbdintr datas shift).
Proof. unfold kbdintr. locks_tac. Qed.
Lemma qt_consolewrite_loop buf : quiet [] (consolewrite_loop buf).
Proof. induction buf as [|c buf IH]; cbn [consolewrite_loop]; locks_tac. Qed.
#[export] Hint Resolve bal_kbdintr qt_consolewrite_loop : locks.
Lemma bal_consolewrite ip buf : balanced (consolewrite ip buf).
Proof. unfold consolewrite. locks_tac. Qed.
Lemma locks_consoleread_loop n target : forall dst, locks [L_input] (consoleread_loop n target dst) (fun _ => [L_input]).
Proof. induction n as [|n IH]; intros dst; cbn [consoleread_loop]; locks_tac. Qed.
Lemma bal_consoleread ip n : balanced (consoleread ip n).
Proof.
  unfold balanced, consoleread. apply locks_seq; [eauto with locks|]. intros _. apply locks_acquire; [free_tac|].
  apply locks_same; [|locks_tac]. destruct (0 <? n); [apply locks_consoleread_loop|locks_tac].
Qed.
#[export] Hint Resolve bal_consolewrite bal_consoleread : locks.

(** ** fs.c: files, directories and paths *)

Lemma bal_readi_loop ip n : forall tot off k, balanced (readi_loop ip n tot off k).
Proof. induction n as [|n IH]; intros; cbn [readi_loop]; locks_tac. Qed.
#[export] Hint Resolve bal_readi_loop : locks.
Lemma bal_readi ip off n : balanced (readi ip off n).
Proof. unfold readi. locks_tac. Qed.
Lemma bal_writei_loop ip n : forall off src, balanced (writei_loop ip n off src).
Proof. induction n as [|n IH]; intros; cbn [writei_loop]; locks_tac. Qed.
#[export] Hint Resolve bal_readi bal_writei_loop : locks.
Lemma bal_writei ip src off : balanced (writei ip src off).
Proof. unfold writei. locks_tac. Qed.
#[export] Hint Resolve bal_writei : locks.
Lemma bal_dirlookup_loop dp name n : forall off, balanced (dirlookup_loop dp name n off).
Proof. induction n as [|n IH]; intros; cbn [dirlookup_loop]; locks_tac. Qed.
#[export] Hint Resolve bal_dirlookup_loop : locks.
Lemma bal_dirlookup dp name : balanced (dirlookup dp name).
Proof. unfold dirlookup. locks_tac. Qed.
Lemma bal_dirlink_loop dp n : forall off, balanced (dirlink_loop dp n off).
Proof. induction n as [|n IH]; intros; cbn [dirlink_loop]; locks_tac. Qed.
#[export] Hint Resolve bal_dirlookup bal_dirlink_loop : locks.
Lemma bal_dirlink dp name inum : balanced (dirlink dp name inum).
Proof. unfold dirlink. locks_tac. Qed.
#[export] Hint Resolve bal_dirlink : locks.
Lemma bal_namex_loop par n : forall ip path name, balanced (namex_loop par n ip path name).
Proof. induction n as [|n IH]; intros; cbn [namex_loop]; locks_tac. Qed.
#[export] Hint Resolve bal_namex_loop : locks.
Lemma bal_namex path par : balanced (namex path par).
Proof. unfold namex. locks_tac. Qed.
#[export] Hint Resolve bal_namex : locks.
Lemma bal_namei path : balanced (namei path).
Proof. unfold namei. locks_tac. Qed.
Lemma bal_nameiparent path : balanced (nameiparent path).
Proof. unfold nameiparent. locks_tac. Qed.
#[export] Hint Resolve bal_namei bal_nameiparent : locks.

(** ** vm.c *)

Section kernel.
Context (end_ data_ forkret_ trapret_ : Z) (stk initcode : list Z).

Lemma qt_rd32 a : quiet [] (rd32 a).
Proof. unfold rd32. locks_tac. Qed.
Lemma qt_wr32 a v : quiet [] (wr32 a v).
Proof. unfold wr32. locks_tac. Qed.
Lemma qt_memset a v n : quiet [] (memset_ a v n).
Proof. unfold memset_. locks_tac. Qed.
Lemma qt_memmove d s n : quiet [] (memmove_ d s n).
Proof. unfold memmove_. locks_tac. Qed.
Lemma qt_copy_bytes a l : quiet [] (copy_bytes a l).
Proof. unfold copy_bytes. locks_tac. Qed.
#[local] Hint Resolve qt_rd32 qt_wr32 qt_memset qt_memmove qt_copy_bytes : locks.
Lemma qt_walkpgdir pgdir va alloc : quiet [L_kmem] (walkpgdir pgdir va alloc).
Proof. unfold walkpgdir. locks_tac. Qed.
#[local] Hint Resolve qt_walkpgdir : locks.
Lemma bal_mappages_loop pgdir perm last n : forall a pa, balanced (mappages_loop pgdir perm last n a pa).
Proof. induction n as [|n IH]; intros; cbn [mappages_loop]; locks_tac. Qed.
#[local] Hint Resolve bal_mappages_loop : locks.
Lemma bal_mappages pgdir va size pa perm : balanced (mappages pgdir va size pa perm).
Proof. unfold mappages. locks_tac. Qed.
#[local] Hint Resolve bal_mappages : locks.
Lemma bal_setupkvm_loop pgdir km : balanced (setupkvm_loop pgdir km).
Proof. induction km as [|[[[? ?] ?] ?] km IH]; cbn [setupkvm_loop]; locks_tac. Qed.
#[local] Hint Resolve bal_setupkvm_loop : locks.
Lemma bal_setupkvm : balanced (setupkvm data_).
Proof. unfold setupkvm. locks_tac. Qed.
Lemma bal_inituvm pgdir init : balanced (inituvm pgdir init).
Proof. unfold inituvm. locks_tac. Qed.
Lemma bal_loaduvm_loop pgdir addr ip off sz n : forall i, balanced (loaduvm_loop pgdir addr ip off sz n i).
Proof. induction n as [|n IH]; intros; cbn [loaduvm_loop]; locks_tac. Qed.
#[local] Hint Resolve bal_setupkvm bal_inituvm bal_loaduvm_loop : locks.
Lemma bal_loaduvm pgdir addr ip off sz : balanced (loaduvm pgdir addr ip off sz).
Proof. unfold loaduvm. locks_tac. Qed.
Lemma qt_deallocuvm_loop pgdir oldsz n : forall a, quiet [L_kmem] (deallocuvm_loop end_ pgdir oldsz n a).
Proof. induction n as [|n IH]; intros; cbn [deallocuvm_loop]; locks_tac. Qed.
#[local] Hint Resolve bal_loaduvm qt_deallocuvm_loop : locks.
Lemma qt_deallocuvm pgdir oldsz newsz : quiet [L_kmem] (deallocuvm end_ pgdir oldsz newsz).
Proof. unfold deallocuvm. locks_tac. Qed.
#[local] Hint Resolve qt_deallocuvm : locks.
Lemma bal_allocuvm_loop pgdir oldsz newsz n : forall a, balanced (allocuvm_loop end_ pgdir oldsz newsz n a).
Proof. induction n as [|n IH]; intros; cbn [allocuvm_loop]; locks_tac. Qed.
#[local] Hint Resolve bal_allocuvm_loop : locks.
Lemma bal_allocuvm pgdir oldsz newsz : balanced (allocuvm end_ pgdir oldsz newsz).
Proof. unfold allocuvm. locks_tac. Qed.
Lemma qt_freevm_one pgdir i : quiet [L_kmem] (freevm_one end_ pgdir i).
Proof. unfold freevm_one. locks_tac. Qed.
#[local] Hint Resolve bal_allocuvm qt_freevm_one : locks.
Lemma qt_freevm pgdir : quiet [L_kmem] (freevm end_ pgdir).
Proof. unfold freevm. locks_tac. Qed.
Lemma bal_clearpteu pgdir uva : balanced (clearpteu pgdir uva).
Proof. unfold clearpteu. locks_tac. Qed.
Lemma bal_copyuvm_loop d pgdir sz n : forall i, balanced (copyuvm_loop d pgdir sz n i).
Proof. induction n as [|n IH]; intros; cbn [copyuvm_loop]; locks_tac. Qed.
#[local] Hint Resolve qt_freevm bal_clearpteu bal_copyuvm_loop : locks.
Lemma bal_copyuvm pgdir sz : balanced (copyuvm end_ data_ pgdir sz).
Proof. unfold copyuvm. locks_tac. Qed.
Lemma bal_uva2ka pgdir uva : balanced (uva2ka pgdir uva).
Proof. unfold uva2ka. locks_tac. Qed.
#[local] Hint Resolve bal_copyuvm bal_uva2ka : locks.
Lemma bal_copyout_loop pgdir n : forall va buf, balanced (copyout_loop pgdir n va buf).
Proof. induction n as [|n IH]; intros; cbn [copyout_loop]; locks_tac. Qed.
#[local] Hint Resolve bal_copyout_loop : locks.
Lemma bal_copyout pgdir va p : balanced (copyout pgdir va p).
Proof. unfold copyout. locks_tac. Qed.
#[local] Hint Resolve bal_copyout : locks.

(** ** file.c and pipealloc of pipe.c *)

Lemma unl_filealloc_loop n : forall i, unlocks L_ftable (filealloc_loop i n).
Proof. induction n as [|n IH]; intros; cbn [filealloc_loop]; locks_tac. Qed.
#[local] Hint Resolve unl_filealloc_loop : locks.
Lemma bal_filealloc : balanced filealloc.
Proof. unfold filealloc. locks_tac. Qed.
Lemma bal_filedup i : balanced (filedup i).
Proof. unfold filedup. locks_tac. Qed.
Lemma bal_fileclose i : balanced (fileclose end_ i).
Proof. unfold fileclose. locks_tac. Qed.
Lemma bal_filestat i : balanced (filestat i).
Proof. unfold filestat. locks_tac. Qed.
Lemma bal_fileread i n : balanced (fileread i n).
Proof. unfold fileread. locks_tac. Qed.
Lemma bal_filewrite_loop f addr n k : forall i, balanced (filewrite_loop f addr n k i).
Proof. induction k as [|k IH]; intros; cbn [filewrite_loop]; locks_tac. Qed.
#[local] Hint Resolve bal_filealloc bal_filedup bal_fileclose bal_filestat bal_fileread bal_filewrite_loop : locks.
Lemma bal_filewrite i addr n : balanced (filewrite i addr n).
Proof. unfold filewrite. locks_tac. Qed.
Lemma bal_pipealloc : balanced (pipealloc end_).
Proof. unfold pipealloc. locks_tac. Qed.
#[local] Hint Resolve bal_filewrite bal_pipealloc : locks.

(** ** syscall.c: arguments *)

Lemma qt_cur : quiet [] cur.
Proof. unfold cur. locks_tac. Qed.
#[local] Hint Resolve qt_cur : locks.
Lemma bal_uaddr va : balanced (uaddr va).
Proof. unfold uaddr. locks_tac. Qed.
#[local] Hint Resolve bal_uaddr : locks.
Lemma bal_uld8 va : balanced (uld8 va).
Proof. unfold uld8. locks_tac. Qed.
Lemma bal_ust8 va b : balanced (ust8 va b).
Proof. unfold ust8. locks_tac. Qed.
#[local] Hint Resolve bal_uld8 bal_ust8 : locks.
Lemma bal_uld n : forall va, balanced (uld va n).
Proof. induction n as [|n IH]; intros; cbn [uld]; locks_tac. Qed.
Lemma bal_ust l : forall va, balanced (ust va l).
Proof. induction l as [|b l IH]; intros; cbn [ust]; locks_tac. Qed.
#[local] Hint Resolve bal_uld bal_ust : locks.
Lemma bal_fetchint a : balanced (fetchint a).
Proof. unfold fetchint. locks_tac. Qed.
Lemma bal_fetchstr_loop n : forall s ep, balanced (fetchstr_loop n s ep).
Proof. induction n as [|n IH]; intros; cbn [fetchstr_loop]; locks_tac. Qed.
#[local] Hint Resolve bal_fetchint bal_fetchstr_loop : locks.
Lemma bal_fetchstr a : balanced (fetchstr a).
Proof. unfold fetchstr. locks_tac. Qed.
Lemma bal_argint n : balanced (argint n).
Proof. unfold argint. locks_tac. Qed.
#[local] Hint Resolve bal_fetchstr bal_argint : locks.
Lemma bal_argptr n size : balanced (argptr n size).
Proof. unfold argptr. locks_tac. Qed.
Lemma bal_argstr n : balanced (argstr n).
Proof. unfold argstr. locks_tac. Qed.
#[local] Hint Resolve bal_argptr bal_argstr : locks.

(** ** exec.c *)

Lemma bal_exec_load ip pgdir n : forall off sz, balanced (exec_load end_ ip pgdir n off sz).
Proof. induction n as [|n IH]; intros; cbn [exec_load]; locks_tac. Qed.
#[local] Hint Resolve bal_exec_load : locks.
Lemma bal_exec_image ip : balanced (exec_image end_ data_ stk ip).
Proof. unfold exec_image. locks_tac. Qed.
Lemma bal_exec_args pgdir argv : forall argc sp, balanced (exec_args pgdir argv argc sp).
Proof. induction argv as [|a argv IH]; intros; cbn [exec_args]; locks_tac. Qed.
#[local] Hint Resolve bal_exec_image bal_exec_args : locks.
Lemma bal_exec_stack pgdir sz argv : balanced (exec_stack end_ pgdir sz argv).
Proof. unfold exec_stack. locks_tac. Qed.
#[local] Hint Resolve bal_exec_stack : locks.
Lemma bal_exec path argv : balanced (exec end_ data_ stk path argv).
Proof. unfold exec. locks_tac. Qed.
#[local] Hint Resolve bal_exec : locks.

(** ** proc.c: processes *)

Lemma qt_allocproc_loop n : forall i, quiet [] (allocproc_loop i n).
Proof. induction n as [|n IH]; intros; cbn [allocproc_loop]; locks_tac. Qed.
#[local] Hint Resolve qt_allocproc_loop : locks.
Lemma bal_allocproc : balanced (allocproc forkret_ trapret_).
Proof. unfold allocproc. locks_tac. Qed.
Lemma bal_growproc n : balanced (growproc end_ n).
Proof. unfold growproc. locks_tac. Qed.
Lemma bal_fork_files np fs : forall fd, balanced (fork_files np fd fs).
Proof. induction fs as [|f fs IH]; intros; cbn [fork_files]; locks_tac. Qed.
#[local] Hint Resolve bal_allocproc bal_growproc bal_fork_files : locks.
Lemma bal_fork : balanced (fork end_ data_ forkret_ trapret_).
Proof. unfold fork. locks_tac. Qed.
Lemma bal_exit_files me n : forall fd, balanced (exit_files end_ me fd n).
Proof. induction n as [|n IH]; intros; cbn [exit_files]; locks_tac. Qed.
Lemma qt_exit_children me n : forall i, quiet [] (exit_children me i n).
Proof. induction n as [|n IH]; intros; cbn [exit_children]; locks_tac. Qed.
#[local] Hint Resolve bal_fork bal_exit_files qt_exit_children : locks.
Lemma lv_exit_finish me : leaves [] (exit_finish me).
Proof. unfold exit_finish. locks_tac. Qed.
#[local] Hint Resolve lv_exit_finish : leaves.
Lemma lv_exit : leaves [] (exit end_).
Proof. unfold exit. locks_tac. Qed.
#[local] Hint Resolve lv_exit : leaves.
Lemma locks_wait_scan me n : forall i hk,
  locks [L_ptable] (wait_scan end_ me i n hk) (fun r => match r with inl _ => [] | inr _ => [L_ptable] end).
Proof.
  induction n as [|n IH]; intros i hk; cbn [wait_scan]; [locks_tac|]. eapply quiet_seq; [eauto with locks|free_tac|]. intros p.
  destruct (negb _); [by apply IH|]. destruct (bool_decide _); [|by apply IH]. locks_tac.
Qed.
Lemma unl_wait_loop : unlocks L_ptable (wait_loop end_).
Proof.
  unfold unlocks, wait_loop. eapply quiet_seq; [eauto with locks|free_tac|]. intros me.
  apply (locks_bind _ _ _ (fun r => match r with inl _ => [] | inr _ => [L_ptable] end)); [by apply locks_wait_scan|]. intros [pid|hk]; locks_tac.
Qed.
#[local] Hint Resolve unl_wait_loop : locks.
Lemma bal_wait : balanced (wait end_).
Proof. unfold wait. locks_tac. Qed.
#[local] Hint Resolve bal_wait : locks.

(** ** sysfile.c *)

Lemma bal_argfd n : balanced (argfd n).
Proof. unfold argfd. locks_tac. Qed.
Lemma bal_fdalloc_loop me f n : forall fd, balanced (fdalloc_loop me f fd n).
Proof. induction n as [|n IH]; intros; cbn [fdalloc_loop]; locks_tac. Qed.
#[local] Hint Resolve bal_argfd bal_fdalloc_loop : locks.
Lemma bal_fdalloc f : balanced (fdalloc f).
Proof. unfold fdalloc. locks_tac. Qed.
Lemma bal_rw_args : balanced rw_args.
Proof. unfold rw_args. locks_tac. Qed.
#[local] Hint Resolve bal_fdalloc bal_rw_args : locks.
Lemma bal_sys_dup : balanced sys_dup.
Proof. unfold sys_dup. locks_tac. Qed.
Lemma bal_sys_read : balanced sys_read.
Proof. unfold sys_read. locks_tac. Qed.
Lemma bal_sys_write : balanced sys_write.
Proof. unfold sys_write. locks_tac. Qed.
Lemma bal_sys_close : balanced (sys_close end_).
Proof. unfold sys_close. locks_tac. Qed.
Lemma bal_sys_fstat : balanced sys_fstat.
Proof. unfold sys_fstat. locks_tac. Qed.
Lemma bal_link_bad ip : balanced (link_bad ip).
Proof. unfold link_bad. locks_tac. Qed.
#[local] Hint Resolve bal_link_bad : locks.
Lemma bal_sys_link : balanced sys_link.
Proof. unfold sys_link. locks_tac. Qed.
Lemma bal_isdirempty_loop dp n : forall off, balanced (isdirempty_loop dp n off).
Proof. induction n as [|n IH]; intros; cbn [isdirempty_loop]; locks_tac. Qed.
#[local] Hint Resolve bal_isdirempty_loop : locks.
Lemma bal_isdirempty dp : balanced (isdirempty dp).
Proof. unfold isdirempty. locks_tac. Qed.
Lemma bal_unlink_bad dp : balanced (unlink_bad dp).
Proof. unfold unlink_bad. locks_tac. Qed.
#[local] Hint Resolve bal_isdirempty bal_unlink_bad : locks.
Lemma bal_sys_unlink : balanced sys_unlink.
Proof. unfold sys_unlink. locks_tac. Qed.
Lemma bal_create path type major minor : balanced (create path type major minor).
Proof. unfold create. locks_tac. Qed.
#[local] Hint Resolve bal_create : locks.
Lemma bal_open_inode path omode : balanced (open_inode path omode).
Proof. unfold open_inode. locks_tac. Qed.
Lemma bal_close_created o : balanced (close_created o).
Proof. unfold close_created. locks_tac. Qed.
#[local] Hint Resolve bal_open_inode bal_close_created : locks.
Lemma bal_sys_open : balanced (sys_open end_).
Proof. unfold sys_open. locks_tac. Qed.
Lemma bal_sys_mkdir : balanced sys_mkdir.
Proof. unfold sys_mkdir. locks_tac. Qed.
Lemma bal_sys_mknod : balanced sys_mknod.
Proof. unfold sys_mknod. locks_tac. Qed.
Lemma bal_sys_chdir : balanced sys_chdir.
Proof. unfold sys_chdir. locks_tac. Qed.
Lemma bal_exec_argv uargv n : forall i, balanced (exec_argv uargv i n).
Proof. induction n as [|n IH]; intros; cbn [exec_argv]; locks_tac. Qed.
#[local] Hint Resolve bal_exec_argv : locks.
Lemma bal_sys_exec : balanced (sys_exec end_ data_ stk).
Proof. unfold sys_exec. locks_tac. Qed.
Lemma bal_sys_pipe : balanced (sys_pipe end_).
Proof. unfold sys_pipe. locks_tac. Qed.
#[local] Hint Resolve bal_sys_dup bal_sys_read bal_sys_write bal_sys_close bal_sys_fstat bal_sys_link bal_sys_unlink bal_sys_open bal_sys_mkdir
  bal_sys_mknod bal_sys_chdir bal_sys_exec bal_sys_pipe : locks.

(** ** sysproc.c, the dispatch and traps *)

Lemma bal_sys_sleep_loop t n : unlocks L_tick (sys_sleep_loop t n).
Proof. unfold sys_sleep_loop. locks_tac. Qed.
#[local] Hint Resolve bal_sys_sleep_loop : locks.

Lemma bal_syscalls num f : syscalls end_ data_ forkret_ trapret_ stk num = Some f -> balanced f.
Proof.
  unfold syscalls. intros H. repeat case_match; try discriminate; injection H as <-; try solve [eauto with locks];
    unfold sys_fork, sys_exit, sys_wait, sys_kill, sys_getpid, sys_sbrk, sys_sleep, sys_uptime; locks_tac.
Qed.

Lemma bal_syscall : balanced (syscall end_ data_ forkret_ trapret_ stk).
Proof.
  unfold balanced, syscall, set_eax. do 2 (apply locks_seq; [eauto with locks|intros ?]). cbv zeta.
  destruct (syscalls _ _ _ _ _ _) as [f|] eqn:E; [|locks_tac]. apply locks_seq; [by apply (bal_syscalls _ _ E)|]. locks_tac.
Qed.
#[local] Hint Resolve bal_syscall : locks.

Lemma bal_trap dev tf : balanced (trap end_ data_ forkret_ trapret_ stk dev tf).
Proof.
  assert (Hx : forall tf, balanced (exit_if_killed end_ tf)) by (intros; unfold exit_if_killed; locks_tac).
  assert (Hy : forall tf, balanced (trap_yield tf)) by (intros; unfold trap_yield; locks_tac).
  assert (Hd : forall dev tf, balanced (trap_dispatch dev tf)).
  { intros. unfold trap_dispatch, trap_unexpected, trap_kernel. locks_tac. }
  unfold trap. locks_tac.
Qed.

(** ** Starting and resuming a process *)

Lemma bal_userinit : balanced (userinit data_ forkret_ trapret_ initcode).
Proof. unfold userinit. locks_tac. Qed.

(** A process is resumed with [ptable.lock] held, which the scheduler took;
    [sleep] trades it for the lock it was called with, and a new process
    starts in [forkret], which releases it. *)
Lemma locks_sleep_return lk : locks [L_ptable] (sleep_return lk) (fun _ => [lk]).
Proof.
  unfold sleep_return. do 2 (eapply quiet_seq; [eauto with locks|free_tac|intros ?]). destruct (decide (lk = L_ptable)) as [->|]; locks_tac.
Qed.

Lemma unl_forkret first : unlocks L_ptable (forkret first).
Proof. unfold forkret. locks_tac. Qed.

(** The scheduler keeps [ptable.lock] from the switch into a process to the
    switch back, which is what a process that gives up the processor owes. *)
Lemma bal_scheduler swtch : (forall i, locks [L_ptable] (swtch i) (fun _ => [L_ptable])) -> balanced (scheduler swtch).
Proof.
  intros Hsw. assert (Hs : forall n i, locks [L_ptable] (scheduler_scan swtch i n) (fun _ => [L_ptable])).
  { induction n as [|n IH]; intros i; cbn [scheduler_scan]; [locks_tac|]. eapply quiet_seq; [eauto with locks|free_tac|]. intros p.
    apply locks_same; [|intros _; apply IH]. destruct (bool_decide _); [|locks_tac].
    do 3 (eapply quiet_seq; [eauto with locks|free_tac|intros _]). apply locks_same; [apply Hsw|intros _]. unfold switchkvm. locks_tac. }
  unfold balanced, scheduler. apply locks_acquire; [free_tac|]. apply locks_same; [apply Hs|]. locks_tac.
Qed.


End kernel.

(** The timer interrupts a process, which gives up the processor. *)
Definition tf_timer : trapframe := mkTf 0 0 0 0 0 0 0 0 0 0 0 0 32 0 0 27 0 0 35.
Definition timer_tick : devices := mkDev 0 0 [] 0 [].

