(* ===== verification/ProdCons.v ===== *)
(** * The producer and the consumer: src/produtor-consumidor

    [mysem.c], the System V semaphores behind [sem_change], and the two threads
    of ProdutorConsumidor.c.  A thread is a program counter; every statement
    that touches shared memory or a semaphore is one step, so a run is any
    interleaving of the steps of the two threads.  A thread
    that waits for a semaphore does not move.  The invariant ties the semaphores
    and the flags to the program counters and the ring buffer to the numbers
    produced and consumed. *)

From stdpp Require Import base list list_numbers numbers relations.
From Stdlib Require Import ZArith Lia.
From S2P Require Import Prelude.

(** ** mysem.c *)

Module Mysem.

(** What [semop] allows a semaphore to hold. *)
Definition SEMVMX : Z := 32767.

(** An operation waits while it would make the value negative, and fails,
    which ends the program, if the value becomes too large. *)
Inductive semres := Waits | Fails | Done (sems : list Z).

Definition semop (sems : list Z) (sem_no : nat) (amount : Z) : semres :=
  match sems !! sem_no with
  | None => Fails
  | Some v =>
      if v + amount <? 0 then Waits
      else if SEMVMX <? v + amount then Fails
      else Done (<[sem_no := v + amount]> sems)
  end.

Definition sem_change := semop.

(** With [IPC_NOWAIT] the operation fails instead of waiting: the result and
    the semaphores after it. *)
Definition sem_try_change (sems : list Z) (sem_no : nat) (amount : Z) : Z * list Z :=
  match semop sems sem_no amount with
  | Done sems' => (0, sems')
  | _ => (-1, sems)
  end.

Definition sem_init (no_of_sems : nat) (common_intial_value : Z) : list Z := replicate no_of_sems common_intial_value.

(** The array of [int] is read as an array of [unsigned short]. *)
Definition shorts (array : list Z) : list Z := flat_map (fun v => [u16 v; u16 (u32 v / 2 ^ 16)]) array.
Definition sem_init_diff_val (no_of_sems : nat) (array : list Z) : list Z := take no_of_sems (shorts array).

End Mysem.
Import Mysem.

(** ** The threads *)

Definition MAX_BUF : Z := 10.

(** The statements of the loop of [producer] and of [consumer]. *)
Inductive ppc := P_lock | P_test | P_fflag | P_unlock1 | P_wait | P_lock1 | P_count | P_store | P_test2 | P_eflag | P_signal | P_print | P_head | P_unlock.
Inductive cpc := C_lock | C_test | C_eflag | C_unlock1 | C_wait | C_lock1 | C_count | C_print | C_tail | C_test2 | C_fflag | C_signal | C_unlock.

#[global] Instance ppc_eq_dec : EqDecision ppc.
Proof. solve_decision. Defined.
#[global] Instance cpc_eq_dec : EqDecision cpc.
Proof. solve_decision. Defined.

(** The lines printed. *)
Inductive event := ProducerWaiting | ConsumerWaiting | Produced (v : Z) | Consumed (v : Z).

Record pcstate := mkPC {
  pc_p : ppc;
  pc_c : cpc;
  sems : list Z;
  buffer : list Z;
  head : Z;
  tail : Z;
  item_id : Z;
  count : Z;
  fflag : Z;
  eflag : Z;
  out : list event
}.

(** The thread that moves, and the other fields unchanged. *)
Definition pgo (p : ppc) (s : pcstate) : pcstate :=
  mkPC p (pc_c s) (sems s) (buffer s) (head s) (tail s) (item_id s) (count s) (fflag s) (eflag s) (out s).
Definition cgo (c : cpc) (s : pcstate) : pcstate :=
  mkPC (pc_p s) c (sems s) (buffer s) (head s) (tail s) (item_id s) (count s) (fflag s) (eflag s) (out s).
Definition set_sems (v : list Z) (s : pcstate) : pcstate :=
  mkPC (pc_p s) (pc_c s) v (buffer s) (head s) (tail s) (item_id s) (count s) (fflag s) (eflag s) (out s).
Definition set_head (v : Z) (s : pcstate) : pcstate :=
  mkPC (pc_p s) (pc_c s) (sems s) (buffer s) v (tail s) (item_id s) (count s) (fflag s) (eflag s) (out s).
Definition set_tail (v : Z) (s : pcstate) : pcstate :=
  mkPC (pc_p s) (pc_c s) (sems s) (buffer s) (head s) v (item_id s) (count s) (fflag s) (eflag s) (out s).
Definition set_count (v : Z) (s : pcstate) : pcstate :=
  mkPC (pc_p s) (pc_c s) (sems s) (buffer s) (head s) (tail s) (item_id s) v (fflag s) (eflag s) (out s).
Definition set_fflag (v : Z) (s : pcstate) : pcstate :=
  mkPC (pc_p s) (pc_c s) (sems s) (buffer s) (head s) (tail s) (item_id s) (count s) v (eflag s) (out s).
Definition set_eflag (v : Z) (s : pcstate) : pcstate :=
  mkPC (pc_p s) (pc_c s) (sems s) (buffer s) (head s) (tail s) (item_id s) (count s) (fflag s) v (out s).
Definition print (e : event) (s : pcstate) : pcstate :=
  mkPC (pc_p s) (pc_c s) (sems s) (buffer s) (head s) (tail s) (item_id s) (count s) (fflag s) (eflag s) (out s ++ [e]).
(** [buffer[head] = item_id++]; outside of the buffer the store is undefined. *)
Definition store_item (s : pcstate) : option pcstate :=
  if ((0 <=? head s) && (head s <? MAX_BUF))%bool
  then Some (mkPC (pc_p s) (pc_c s) (sems s) (<[Z.to_nat (head s) := item_id s]> (buffer s)) (head s) (tail s) (s32 (item_id s + 1)) (count s) (fflag s) (eflag s) (out s))
  else None.

(** What a thread does next: it moves, it waits, or the program ends in an
    error (a failing [semop], an index outside the buffer). *)
Inductive outcome := Moves (s : pcstate) | Blocked | Error.

Definition sem (s : pcstate) (n : nat) (amount : Z) (k : pcstate -> pcstate) : outcome :=
  match sem_change (sems s) n amount with
  | Waits => Blocked
  | Fails => Error
  | Done v => Moves (k (set_sems v s))
  end.

Definition slot (s : pcstate) (i : Z) (k : Z -> outcome) : outcome :=
  if i <? 0 then Error else match buffer s !! Z.to_nat i with Some v => k v | None => Error end.

Definition producer (s : pcstate) : outcome :=
  match pc_p s with
  | P_lock => sem s 0 (-1) (pgo P_test)
  | P_test => Moves (if count s =? MAX_BUF then pgo P_fflag (print ProducerWaiting s) else pgo P_count s)
  | P_fflag => Moves (pgo P_unlock1 (set_fflag 1 s))
  | P_unlock1 => sem s 0 1 (pgo P_wait)
  | P_wait => sem s 2 (-1) (pgo P_lock1)
  | P_lock1 => sem s 0 (-1) (pgo P_count)
  | P_count => Moves (pgo P_store (set_count (count s + 1) s))
  | P_store => match store_item s with Some s' => Moves (pgo P_test2 s') | None => Error end
  | P_test2 => Moves (pgo (if ((count s =? 1) && (eflag s =? 1))%bool then P_eflag else P_print) s)
  | P_eflag => Moves (pgo P_signal (set_eflag 0 s))
  | P_signal => sem s 1 1 (pgo P_print)
  | P_print => slot s (head s) (fun v => Moves (pgo P_head (print (Produced v) s)))
  | P_head => Moves (pgo P_unlock (set_head (Z.rem (head s + 1) MAX_BUF) s))
  | P_unlock => sem s 0 1 (pgo P_lock)
  end.

Definition consumer (s : pcstate) : outcome :=
  match pc_c s with
  | C_lock => sem s 0 (-1) (cgo C_test)
  | C_test => Moves (if count s =? 0 then cgo C_eflag (print ConsumerWaiting s) else cgo C_count s)
  | C_eflag => Moves (cgo C_unlock1 (set_eflag 1 s))
  | C_unlock1 => sem s 0 1 (cgo C_wait)
  | C_wait => sem s 1 (-1) (cgo C_lock1)
  | C_lock1 => sem s 0 (-1) (cgo C_count)
  | C_count => Moves (cgo C_print (set_count (count s - 1) s))
  | C_print => slot s (tail s) (fun v => Moves (cgo C_tail (print (Consumed v) s)))
  | C_tail => Moves (cgo C_test2 (set_tail (Z.rem (tail s + 1) MAX_BUF) s))
  | C_test2 => Moves (cgo (if ((count s =? MAX_BUF - 1) && (fflag s =? 1))%bool then C_fflag else C_unlock) s)
  | C_fflag => Moves (cgo C_signal (set_fflag 0 s))
  | C_signal => sem s 2 1 (cgo C_unlock)
  | C_unlock => sem s 0 1 (cgo C_lock)
  end.

(** [main]: the semaphores are initialised before the threads start. *)
Definition start : pcstate := mkPC P_lock C_lock (sem_init_diff_val 3 [1; 0; 0]) (replicate 10 0) 0 0 1 0 0 0 [].

Inductive step : pcstate -> pcstate -> Prop :=
  | step_producer s s' : producer s = Moves s' -> step s s'
  | step_consumer s s' : consumer s = Moves s' -> step s s'.

Definition reachable (s : pcstate) : Prop := rtc step start s.

(** ** The invariant *)

(** A thread in its critical section. *)
Definition p_in (p : ppc) : Z := match p with P_lock | P_wait | P_lock1 => 0 | _ => 1 end.
Definition c_in (c : cpc) : Z := match c with C_lock | C_wait | C_lock1 => 0 | _ => 1 end.

(** The consumer is asleep, or going to sleep: either its flag is set and the
    buffer is empty or being filled, or the signal is on its way or there. *)
Definition e_ok (p : ppc) (c : cpc) (cnt ef b : Z) : Prop :=
  match c with
  | C_unlock1 => ef = 1 /\ b = 0 /\ cnt = 0
  | C_wait =>
      match p with
      | P_store | P_test2 => (ef = 1 /\ b = 0 /\ cnt = 1) \/ (ef = 0 /\ b = 1 /\ 1 < cnt)
      | P_eflag => ef = 1 /\ b = 0 /\ cnt = 1
      | P_signal => ef = 0 /\ b = 0 /\ cnt = 1
      | P_print | P_head | P_unlock => ef = 0 /\ b = 1 /\ 1 <= cnt
      | _ => (ef = 1 /\ b = 0 /\ cnt = 0) \/ (ef = 0 /\ b = 1 /\ 1 <= cnt)
      end
  | C_lock1 => ef = 0 /\ b = 0 /\ 1 <= cnt
  | _ => ef = 0 /\ b = 0
  end.

(** The same for the producer. *)
Definition f_ok (p : ppc) (c : cpc) (cnt ff d : Z) : Prop :=
  match p with
  | P_unlock1 => ff = 1 /\ d = 0 /\ cnt = 10
  | P_wait =>
      match c with
      | C_print | C_tail | C_test2 => (ff = 1 /\ d = 0 /\ cnt = 9) \/ (ff = 0 /\ d = 1 /\ cnt < 9)
      | C_fflag => ff = 1 /\ d = 0 /\ cnt = 9
      | C_signal => ff = 0 /\ d = 0 /\ cnt = 9
      | C_unlock => ff = 0 /\ d = 1 /\ cnt <= 9
      | _ => (ff = 1 /\ d = 0 /\ cnt = 10) \/ (ff = 0 /\ d = 1 /\ cnt <= 9)
      end
  | P_lock1 => ff = 0 /\ d = 0 /\ cnt <= 9
  | _ => ff = 0 /\ d = 0
  end.

(** What a thread knows in the middle of its critical section. *)
Definition p_knows (p : ppc) (c : cpc) (cnt : Z) : Prop :=
  match p with
  | P_fflag => cnt = 10
  | P_count => cnt <= 9
  | P_store => 1 <= cnt
  | P_test2 | P_print | P_head => 1 <= cnt
  | P_eflag | P_signal => c = C_wait /\ 1 <= cnt
  | _ => True
  end.
Definition c_knows (p : ppc) (c : cpc) (cnt : Z) : Prop :=
  match c with
  | C_eflag => cnt = 0
  | C_count => 1 <= cnt
  | C_print | C_tail | C_test2 => cnt <= 9
  | C_fflag | C_signal => p = P_wait /\ cnt <= 9
  | _ => True
  end.

(** [m] items have been stored and [n] consumed.  The counter runs ahead of
    the store and of the read; the indices lag behind. *)
Definition p_ahead (p : ppc) : Z := match p with P_store => 1 | _ => 0 end.
Definition c_ahead (c : cpc) : Z := match c with C_print => 1 | _ => 0 end.
Definition p_behind (p : ppc) : Z := match p with P_test2 | P_eflag | P_signal | P_print | P_head => 1 | _ => 0 end.
Definition p_unprinted (p : ppc) : Z := match p with P_test2 | P_eflag | P_signal | P_print => 1 | _ => 0 end.
Definition c_behind (c : cpc) : Z := match c with C_tail => 1 | _ => 0 end.

Definition item (k : Z) : Z := s32 (k + 1).
Definition items (n : Z) : list Z := map item (seqZ 0 n).
Definition produced (l : list event) : list Z := omap (fun e => match e with Produced v => Some v | _ => None end) l.
Definition consumed (l : list event) : list Z := omap (fun e => match e with Consumed v => Some v | _ => None end) l.

Record control (p : ppc) (c : cpc) (sm : list Z) (cnt ff ef : Z) : Prop := {
  ct_sems : exists b d, sm = [1 - p_in p - c_in c; b; d] /\ e_ok p c cnt ef b /\ f_ok p c cnt ff d;
  ct_mutex : p_in p + c_in c <= 1;
  ct_count : 0 <= cnt <= 10;
  ct_p : p_knows p c cnt;
  ct_c : c_knows p c cnt
}.

Record data (s : pcstate) (m n : Z) : Prop := {
  dt_len : length (buffer s) = 10%nat;
  dt_order : 0 <= n /\ m - n = count s - p_ahead (pc_p s) + c_ahead (pc_c s);
  dt_id : item_id s = item m;
  dt_head : head s = (m - p_behind (pc_p s)) mod 10 /\ p_behind (pc_p s) <= m;
  dt_tail : tail s = (n - c_behind (pc_c s)) mod 10 /\ c_behind (pc_c s) <= n;
  dt_buf : forall k, n <= k < m -> buffer s !! Z.to_nat (k mod 10) = Some (item k);
  dt_produced : produced (out s) = items (m - p_unprinted (pc_p s));
  dt_consumed : consumed (out s) = items n
}.

Definition inv (s : pcstate) (m n : Z) : Prop := control (pc_p s) (pc_c s) (sems s) (count s) (fflag s) (eflag s) /\ data s m n.

Lemma sem_inv sm n am k s s' : sems s = sm -> sem s n am k = Moves s' -> exists v, sm !! n = Some v /\ 0 <= v + am /\ s' = k (set_sems (<[n := v + am]> sm) s).
Proof.
  intros <-. unfold sem, sem_change, semop. destruct (sems s !! n) as [v|]; [|done]. destruct (Z.ltb_spec (v + am) 0); [done|].
  destruct (SEMVMX <? v + am); [done|]. intros [= <-]. by exists v.
Qed.

(** The control part after a step: the semaphores are computed, and the rest is
    a case analysis over the program counter of the other thread. *)
Ltac ctl :=
  cbn [pgo cgo set_sems set_count set_fflag set_eflag set_head set_tail print pc_p pc_c sems count fflag eflag p_in c_in p_knows c_knows insert list_insert] in *;
  split; [eexists _, _; split; [apply (f_equal (fun z => z :: _)); cbn [p_in c_in]; lia|]|cbn [p_in c_in]; lia|try lia| |];
  match goal with c : cpc |- _ => destruct c | p : ppc |- _ => destruct p end;
  cbn [e_ok f_ok p_in c_in p_knows c_knows] in *;
  repeat match goal with
  | H : _ /\ _ |- _ => destruct H
  end; subst; try (exfalso; lia); try discriminate; intuition (try lia; try discriminate).

(** The state after a step that is not a case analysis of its own. *)
Ltac moves H :=
  first [ eapply sem_inv in H as (v & Hv & Hge & ->); [|reflexivity]; cbn in Hv; injection Hv as <-
        | injection H as <-
        | unfold store_item in H; destruct (_ && _)%bool; [injection H as <-|discriminate H]
        | unfold slot in H; destruct (_ <? 0); [discriminate H|]; destruct (_ !! _); [injection H as <-|discriminate H] ].

Lemma producer_control s s' : control (pc_p s) (pc_c s) (sems s) (count s) (fflag s) (eflag s) -> producer s = Moves s' ->
  control (pc_p s') (pc_c s') (sems s') (count s') (fflag s') (eflag s').
Proof.
  destruct s as [p c sm bf hd tl id cnt ff ef o]. cbn [pc_p pc_c sems count fflag eflag]. intros [(b & d & -> & He & Hf) Hm Hc Hp Hk] H.
  destruct p; cbn [producer pc_p] in H; moves H; unfold MAX_BUF in *; cbn [sems count eflag] in *.
  2: destruct (Z.eqb_spec cnt 10).
  10: destruct ((cnt =? 1) && (ef =? 1))%bool eqn:E; [apply andb_prop in E as [E1%Z.eqb_eq E2%Z.eqb_eq]|apply andb_false_iff in E; rewrite !Z.eqb_neq in E].
  all: ctl.
Qed.

Lemma consumer_control s s' : control (pc_p s) (pc_c s) (sems s) (count s) (fflag s) (eflag s) -> consumer s = Moves s' ->
  control (pc_p s') (pc_c s') (sems s') (count s') (fflag s') (eflag s').
Proof.
  destruct s as [p c sm bf hd tl id cnt ff ef o]. cbn [pc_p pc_c sems count fflag eflag]. intros [(b & d & -> & He & Hf) Hm Hc Hp Hk] H.
  destruct c; cbn [consumer pc_c] in H; moves H; unfold MAX_BUF in *; cbn [sems count fflag] in *.
  2: destruct (Z.eqb_spec cnt 0).
  11: destruct ((cnt =? 10 - 1) && (ff =? 1))%bool eqn:E; [apply andb_prop in E as [E1%Z.eqb_eq E2%Z.eqb_eq]|apply andb_false_iff in E; rewrite !Z.eqb_neq in E].
  all: ctl.
Qed.

(** ** The data *)

Lemma items_S n : 0 <= n -> items (n + 1) = items n ++ [item n].
Proof.
  intros Hn. unfold items. rewrite seqZ_app by lia. rewrite map_app, Z.add_0_l. do 2 f_equal.
Qed.

Lemma item_next k : s32 (item k + 1) = item (k + 1).
Proof.
  unfold item, s32. replace ((k + 1 + 2 ^ 31) mod 2 ^ 32 - 2 ^ 31 + 1 + 2 ^ 31) with ((k + 1 + 2 ^ 31) mod 2 ^ 32 + 1) by lia.
  rewrite Zplus_mod_idemp_l. do 2 f_equal. lia.
Qed.

Lemma mod_next k : 0 <= k -> Z.rem (k mod 10 + 1) 10 = (k + 1) mod 10.
Proof.
  intros Hk. pose proof (Z.mod_pos_bound k 10 ltac:(lia)). rewrite Z.rem_mod_nonneg by lia. by rewrite Zplus_mod_idemp_l.
Qed.

Lemma mod_apart k m : m - 10 < k < m -> k mod 10 <> m mod 10.
Proof. intros H E. pose proof (Z.div_mod k 10 ltac:(lia)). pose proof (Z.div_mod m 10 ltac:(lia)). lia. Qed.

Lemma produced_app l e : produced (l ++ [e]) = produced l ++ match e with Produced v => [v] | _ => [] end.
Proof. unfold produced. rewrite omap_app. by destruct e. Qed.
Lemma consumed_app l e : consumed (l ++ [e]) = consumed l ++ match e with Consumed v => [v] | _ => [] end.
Proof. unfold consumed. rewrite omap_app. by destruct e. Qed.

Ltac dat := cbn [pgo cgo set_sems set_count set_fflag set_eflag set_head set_tail print pc_p pc_c sems buffer head tail item_id count fflag eflag out
  p_ahead c_ahead p_behind c_behind p_unprinted p_in c_in p_knows c_knows] in *.

Lemma producer_data s s' m n : control (pc_p s) (pc_c s) (sems s) (count s) (fflag s) (eflag s) -> data s m n -> producer s = Moves s' ->
  exists m', data s' m' n.
Proof.
  destruct s as [p c sm bf hd tl id cnt ff ef o]. dat. intros [(b & d & -> & _) Hm Hc Hp _] [D1 [D2 D2'] D3 [D4 D4'] D5 D6 D7 D8] H. dat.
  assert (Hc0 : p_in p = 1 -> c_ahead c = 0) by (destruct c; cbn [c_in c_ahead] in *; lia).
  assert (Ha : 0 <= c_ahead c) by (by destruct c).
  destruct p; cbn [producer pc_p] in H.
  (* the stores *)
  8: { unfold store_item in H. cbn [head] in H. destruct (_ && _)%bool; [|discriminate H]. injection H as <-. exists (m + 1). split; dat; try done.
       - by rewrite length_insert.
       - lia.
       - rewrite D3. apply item_next.
       - split; [|lia]. rewrite D4. f_equal. lia.
       - intros k Hk. rewrite D4, Z.sub_0_r. destruct (decide (k = m)) as [->|].
         + rewrite D3. apply list_lookup_insert_eq. rewrite D1. pose proof (Z.mod_pos_bound m 10 ltac:(lia)). lia.
         + rewrite list_lookup_insert_ne; [apply D6; lia|]. intros E'. apply (mod_apart k m); [lia|].
           pose proof (Z.mod_pos_bound m 10 ltac:(lia)). pose proof (Z.mod_pos_bound k 10 ltac:(lia)). lia.
       - rewrite D7. f_equal. lia. }
  11: { unfold slot in H. dat. destruct (_ <? 0); [discriminate H|]. destruct (bf !! Z.to_nat hd) as [v|] eqn:Ev; [|discriminate H]. injection H as <-.
        exists m. split; dat; rewrite ?consumed_app, ?app_nil_r; try done. rewrite produced_app, D7. rewrite D4, D6 in Ev by lia. injection Ev as <-.
        rewrite <- items_S by lia. f_equal. lia. }
  all: moves H; exists m; try (destruct (_ =? MAX_BUF)); try (destruct (_ && _)%bool); split; dat; try done; try lia.
  all: rewrite ?produced_app, ?consumed_app, ?app_nil_r; try done.
  - split; [|lia]. rewrite D4, mod_next by lia. f_equal. lia.
Qed.

Lemma consumer_data s s' m n : control (pc_p s) (pc_c s) (sems s) (count s) (fflag s) (eflag s) -> data s m n -> consumer s = Moves s' ->
  exists n', data s' m n'.
Proof.
  destruct s as [p c sm bf hd tl id cnt ff ef o]. dat. intros [(b & d & -> & _) Hm Hc _ Hk] [D1 [D2 D2'] D3 D4 [D5 D5'] D6 D7 D8] H. dat.
  assert (Hp0 : c_in c = 1 -> p_ahead p = 0) by (destruct p; cbn [p_in p_ahead] in *; lia).
  destruct c; cbn [consumer pc_c] in H.
  8: { unfold slot in H. dat. destruct (_ <? 0); [discriminate H|]. destruct (bf !! Z.to_nat tl) as [v|] eqn:Ev; [|discriminate H]. injection H as <-.
       rewrite D5, Z.sub_0_r, D6 in Ev by lia. injection Ev as <-.
       exists (n + 1). split; dat; rewrite ?produced_app, ?app_nil_r; try done; try lia.
       - split; [|lia]. rewrite D5. f_equal. lia.
       - intros k Hk'. apply D6. lia.
       - rewrite consumed_app, D8. symmetry. by apply items_S. }
  all: moves H; exists n; try (destruct (_ =? 0)); try (destruct (_ && _)%bool); split; dat; try done; try lia.
  all: rewrite ?produced_app, ?consumed_app, ?app_nil_r; try done.
  - split; [|lia]. rewrite D5, mod_next by lia. f_equal. lia.
Qed.

(** ** Every reachable state *)

Definition ok (s : pcstate) : Prop := exists m n, inv s m n.

Lemma ok_start : ok start.
Proof.
  exists 0, 0. split; split; cbn; try done; try lia. exists 0, 0. done.
Qed.

Lemma ok_producer s s' : ok s -> producer s = Moves s' -> ok s'.
Proof.
  intros (m & n & Hc & Hd) H. destruct (producer_data s s' m n Hc Hd H) as [m' Hd']. exists m', n. split; [by eapply producer_control|done].
Qed.
Lemma ok_consumer s s' : ok s -> consumer s = Moves s' -> ok s'.
Proof.
  intros (m & n & Hc & Hd) H. destruct (consumer_data s s' m n Hc Hd H) as [n' Hd']. exists m, n'. split; [by eapply consumer_control|done].
Qed.

Lemma ok_reachable s : reachable s -> ok s.
Proof.
  intros H. unfold reachable in H. remember start as s0 eqn:E. assert (Hok : ok s0) by (subst; apply ok_start). clear E.
  induction H as [s|s s1 s2 H _ IH]; [done|]. apply IH. destruct H; [by eapply ok_producer|by eapply ok_consumer].
Qed.

(** A semaphore of 0 or 1. *)
Lemma sem_down s n v k : sems s !! n = Some v -> 0 <= v <= 1 ->
  sem s n (-1) k = if v =? 0 then Blocked else Moves (k (set_sems (<[n := 0]> (sems s)) s)).
Proof.
  intros E Hv. unfold sem, sem_change, semop. rewrite E. assert (v = 0 \/ v = 1) as [-> | ->] by lia; done.
Qed.
Lemma sem_up s n v k : sems s !! n = Some v -> 0 <= v <= 1 -> sem s n 1 k = Moves (k (set_sems (<[n := v + 1]> (sems s)) s)).
Proof.
  intros E Hv. unfold sem, sem_change, semop. rewrite E. assert (v = 0 \/ v = 1) as [-> | ->] by lia; done.
Qed.

Lemma slot_ok s i k : length (buffer s) = 10%nat -> 0 <= i < 10 -> exists v, slot s i k = k v.
Proof.
  intros Hl Hi. unfold slot. destruct (Z.ltb_spec i 0); [lia|]. destruct (lookup_lt_is_Some_2 (buffer s) (Z.to_nat i)) as [v ->]; [lia|]. by exists v.
Qed.

(** When a thread moves and when it waits; it never ends in an error. *)
Lemma producer_outcome s m n : inv s m n ->
  (exists s', producer s = Moves s') \/
  (producer s = Blocked /\ (((pc_p s = P_lock \/ pc_p s = P_lock1) /\ c_in (pc_c s) = 1) \/ (pc_p s = P_wait /\ sems s !! 2%nat = Some 0))).
Proof.
  destruct s as [p c sm bf hd tl id cnt ff ef o]. unfold inv. dat. intros [[(b & d & -> & He & Hf) Hm Hc Hp Hk] [D1 _ _ [D4 _] _ _ _ _]].
  pose proof (Z.mod_pos_bound (m - p_behind p) 10 ltac:(lia)). dat.
  assert (Hci : 0 <= c_in c <= 1) by (destruct c; cbn [c_in]; lia). assert (Hb : 0 <= b <= 1) by (destruct c, p; cbn [e_ok] in He; lia).
  assert (Hd : 0 <= d <= 1) by (destruct p, c; cbn [f_ok] in Hf; lia).
  destruct p; cbn [producer pc_p]; dat;
    try (left; eexists; reflexivity);
    try (left; eexists; erewrite sem_up; [reflexivity|reflexivity|dat; lia]).
  - erewrite sem_down; [|reflexivity|dat; lia]. dat. destruct (Z.eqb_spec (1 - 0 - c_in c) 0); [right|left; by eexists].
    split; [done|]. left. split; [by left|lia].
  - erewrite sem_down; [|reflexivity|dat; lia]. dat. destruct (Z.eqb_spec d 0) as [->|]; [right|left; by eexists].
    split; [done|]. by right.
  - erewrite sem_down; [|reflexivity|dat; lia]. dat. destruct (Z.eqb_spec (1 - 0 - c_in c) 0); [right|left; by eexists].
    split; [done|]. left. split; [by right|lia].
  - left. unfold store_item. dat. rewrite (proj2 (Z.leb_le _ _)), (proj2 (Z.ltb_lt hd MAX_BUF)) by (unfold MAX_BUF; lia). by eexists.
  - left. destruct (slot_ok (mkPC P_print c [1 - 1 - c_in c; b; d] bf hd tl id cnt ff ef o) hd
      (fun v => Moves (pgo P_head (print (Produced v) (mkPC P_print c [1 - 1 - c_in c; b; d] bf hd tl id cnt ff ef o))))) as [v ->]; [done|dat; lia|by eexists].
Qed.

Lemma consumer_outcome s m n : inv s m n ->
  (exists s', consumer s = Moves s') \/
  (consumer s = Blocked /\ (((pc_c s = C_lock \/ pc_c s = C_lock1) /\ p_in (pc_p s) = 1) \/ (pc_c s = C_wait /\ sems s !! 1%nat = Some 0))).
Proof.
  destruct s as [p c sm bf hd tl id cnt ff ef o]. unfold inv. dat. intros [[(b & d & -> & He & Hf) Hm Hc Hp Hk] [D1 _ _ _ [D5 _] _ _ _]].
  pose proof (Z.mod_pos_bound (n - c_behind c) 10 ltac:(lia)). dat.
  assert (Hpi : 0 <= p_in p <= 1) by (destruct p; cbn [p_in]; lia). assert (Hb : 0 <= b <= 1) by (destruct c, p; cbn [e_ok] in He; lia).
  assert (Hd : 0 <= d <= 1) by (destruct p, c; cbn [f_ok] in Hf; lia).
  destruct c; cbn [consumer pc_c]; dat;
    try (left; eexists; reflexivity);
    try (left; eexists; erewrite sem_up; [reflexivity|reflexivity|dat; lia]).
  - erewrite sem_down; [|reflexivity|dat; lia]. dat. destruct (Z.eqb_spec (1 - p_in p - 0) 0); [right|left; by eexists].
    split; [done|]. left. split; [by left|lia].
  - erewrite sem_down; [|reflexivity|dat; lia]. dat. destruct (Z.eqb_spec b 0) as [->|]; [right|left; by eexists].
    split; [done|]. by right.
  - erewrite sem_down; [|reflexivity|dat; lia]. dat. destruct (Z.eqb_spec (1 - p_in p - 0) 0); [right|left; by eexists].
    split; [done|]. left. split; [by right|lia].
  - left. destruct (slot_ok (mkPC p C_print [1 - p_in p - 1; b; d] bf hd tl id cnt ff ef o) tl
      (fun v => Moves (cgo C_tail (print (Consumed v) (mkPC p C_print [1 - p_in p - 1; b; d] bf hd tl id cnt ff ef o))))) as [v ->]; [done|dat; lia|by eexists].
Qed.

(** ** Leaving the critical section *)

(** Steps of one thread alone. *)
Abbreviation by_consumer := (rtc (fun s s' => consumer s = Moves s')).
Abbreviation by_producer := (rtc (fun s s' => producer s = Moves s')).

Definition c_rank (c : cpc) : nat :=
  match c with
  | C_test => 9 | C_eflag => 2 | C_unlock1 => 1 | C_count => 8 | C_print => 7 | C_tail => 6 | C_test2 => 5 | C_fflag => 4 | C_signal => 3 | C_unlock => 2
  | _ => 0
  end.
Definition p_rank (p : ppc) : nat :=
  match p with
  | P_test => 9 | P_fflag => 2 | P_unlock1 => 1 | P_count => 8 | P_store => 7 | P_test2 => 6 | P_eflag => 5 | P_signal => 4 | P_print => 3 | P_head => 2 | P_unlock => 1
  | _ => 0
  end.

Lemma consumer_in s s' : consumer s = Moves s' -> c_in (pc_c s) = 1 ->
  pc_p s' = pc_p s /\ count s' <= count s /\ (c_in (pc_c s') = 0 \/ (c_in (pc_c s') = 1 /\ (c_rank (pc_c s') < c_rank (pc_c s))%nat)).
Proof.
  destruct s as [p c sm bf hd tl id cnt ff ef o]. intros H Hc. dat. destruct c; try discriminate Hc; cbn [consumer pc_c] in H;
    try (eapply sem_inv in H as (v & _ & _ & ->); [|reflexivity]);
    try (unfold slot in H; destruct (_ <? 0); [discriminate H|]; destruct (_ !! _); [|discriminate H]);
    try (injection H as <-); dat;
    try (destruct (_ =? 0)); try (destruct (_ && _)%bool); dat; cbn [c_rank]; (split; [done|]; split; [lia|]); (by left) || (right; split; [done|lia]).
Qed.

Lemma producer_in s s' : producer s = Moves s' -> p_in (pc_p s) = 1 ->
  pc_c s' = pc_c s /\ count s <= count s' /\ (p_in (pc_p s') = 0 \/ (p_in (pc_p s') = 1 /\ (p_rank (pc_p s') < p_rank (pc_p s))%nat)).
Proof.
  destruct s as [p c sm bf hd tl id cnt ff ef o]. intros H Hc. dat. destruct p; try discriminate Hc; cbn [producer pc_p] in H;
    try (eapply sem_inv in H as (v & _ & _ & ->); [|reflexivity]);
    try (unfold slot in H; destruct (_ <? 0); [discriminate H|]; destruct (_ !! _); [|discriminate H]);
    try (unfold store_item in H; destruct (_ && _)%bool; [|discriminate H]);
    try (injection H as <-); dat;
    try (destruct (_ =? _)); try (destruct (_ && _)%bool); dat; cbn [p_rank]; (split; [done|]; split; [lia|]); (by left) || (right; split; [done|lia]).
Qed.

Lemma c_leave r : forall s, ok s -> c_in (pc_c s) = 1 -> (c_rank (pc_c s) <= r)%nat ->
  exists s', by_consumer s s' /\ c_in (pc_c s') = 0 /\ pc_p s' = pc_p s /\ count s' <= count s /\ ok s'.
Proof.
  induction r as [|r IH]; intros s Hok Hc Hr; [destruct s as [? [] ? ? ? ? ? ? ? ? ?]; cbn in *; lia|].
  pose proof Hok as (m & n & Hi). destruct (consumer_outcome s m n Hi) as [[s1 H]|(_ & [[[E|E] _]|[E _]])]; try (rewrite E in Hc; discriminate Hc).
  pose proof (ok_consumer s s1 Hok H) as Hok1. destruct (consumer_in s s1 H Hc) as (Hp & Hcnt & [H0|[H1 Hlt]]).
  - exists s1. split; [by apply rtc_once|]. done.
  - destruct (IH s1 Hok1 H1 ltac:(lia)) as (s' & Hr' & ? & ? & ? & ?). exists s'. split; [by eapply rtc_l|]. split; [done|]. split; [congruence|]. split; [lia|done].
Qed.

Lemma p_leave r : forall s, ok s -> p_in (pc_p s) = 1 -> (p_rank (pc_p s) <= r)%nat ->
  exists s', by_producer s s' /\ p_in (pc_p s') = 0 /\ pc_c s' = pc_c s /\ count s <= count s' /\ ok s'.
Proof.
  induction r as [|r IH]; intros s Hok Hc Hr; [destruct s as [[] ? ? ? ? ? ? ? ? ? ?]; cbn in *; lia|].
  pose proof Hok as (m & n & Hi). destruct (producer_outcome s m n Hi) as [[s1 H]|(_ & [[[E|E] _]|[E _]])]; try (rewrite E in Hc; discriminate Hc).
  pose proof (ok_producer s s1 Hok H) as Hok1. destruct (producer_in s s1 H Hc) as (Hp & Hcnt & [H0|[H1 Hlt]]).
  - exists s1. split; [by apply rtc_once|]. done.
  - destruct (IH s1 Hok1 H1 ltac:(lia)) as (s' & Hr' & ? & ? & ? & ?). exists s'. split; [by eapply rtc_l|]. split; [done|]. split; [congruence|]. split; [lia|done].
Qed.

(** ** The other thread lets a waiting thread continue *)

Lemma p_unblocked s : ok s -> c_in (pc_c s) = 0 -> (pc_p s = P_wait -> count s <= 9) -> exists s', producer s = Moves s'.
Proof.
  intros (m & n & Hi) Hc Hw. destruct (producer_outcome s m n Hi) as [?|(_ & [[_ E]|[E H0]])]; [done|lia|]. exfalso. specialize (Hw E).
  destruct s as [p c sm bf hd tl id cnt ff ef o]. destruct Hi as [[(b & d & Es & _ & Hf) _ _ _ _] _]. dat. subst p. rewrite Es in H0. cbn in H0. injection H0 as ->.
  destruct c; try discriminate Hc; cbn [f_ok] in Hf; lia.
Qed.

Lemma c_unblocked s : ok s -> p_in (pc_p s) = 0 -> (pc_c s = C_wait -> 1 <= count s) -> exists s', consumer s = Moves s'.
Proof.
  intros (m & n & Hi) Hc Hw. destruct (consumer_outcome s m n Hi) as [?|(_ & [[_ E]|[E H0]])]; [done|lia|]. exfalso. specialize (Hw E).
  destruct s as [p c sm bf hd tl id cnt ff ef o]. destruct Hi as [[(b & d & Es & He & _) _ _ _ _] _]. dat. subst c. rewrite Es in H0. cbn in H0. injection H0 as ->.
  destruct p; try discriminate Hc; cbn [e_ok] in He; lia.
Qed.

(** With items in the buffer the consumer takes one. *)
Lemma consumer_enters s s' : consumer s = Moves s' -> c_in (pc_c s) = 0 -> 1 <= count s ->
  pc_p s' = pc_p s /\ count s' = count s /\ ((pc_c s = C_wait /\ pc_c s' = C_lock1) \/ pc_c s' = C_test \/ pc_c s' = C_count).
Proof.
  destruct s as [p c sm bf hd tl id cnt ff ef o]. intros H Hc Hn. dat. destruct c; try discriminate Hc; cbn [consumer pc_c] in H;
    (eapply sem_inv in H as (v & _ & _ & ->); [|reflexivity]); dat; tauto.
Qed.
Lemma producer_enters s s' : producer s = Moves s' -> p_in (pc_p s) = 0 -> count s <= 9 ->
  pc_c s' = pc_c s /\ count s' = count s /\ ((pc_p s = P_wait /\ pc_p s' = P_lock1) \/ pc_p s' = P_test \/ pc_p s' = P_count).
Proof.
  destruct s as [p c sm bf hd tl id cnt ff ef o]. intros H Hc Hn. dat. destruct p; try discriminate Hc; cbn [producer pc_p] in H;
    (eapply sem_inv in H as (v & _ & _ & ->); [|reflexivity]); dat; tauto.
Qed.

Lemma c_takes s : ok s -> (pc_c s = C_test \/ pc_c s = C_count) -> 1 <= count s ->
  exists s', by_consumer s s' /\ pc_p s' = pc_p s /\ count s' < count s /\ c_in (pc_c s') = 0 /\ ok s'.
Proof.
  intros Hok Hc Hn. assert (H : exists s1, by_consumer s s1 /\ pc_c s1 = C_count /\ pc_p s1 = pc_p s /\ count s1 = count s /\ ok s1).
  { destruct Hc as [Hc|Hc]; [|by exists s; split; [apply rtc_refl|]]. assert (H : consumer s = Moves (cgo C_count s)).
    { unfold consumer. rewrite Hc. by rewrite (proj2 (Z.eqb_neq _ _)) by lia. }
    exists (cgo C_count s). split; [by apply rtc_once|]. do 3 (split; [done|]). by eapply ok_consumer. }
  destruct H as (s1 & R1 & Hc1 & Hp1 & Hn1 & Hok1). set (s2 := cgo C_print (set_count (count s1 - 1) s1)).
  assert (H2 : consumer s1 = Moves s2) by (unfold consumer; by rewrite Hc1). pose proof (ok_consumer _ _ Hok1 H2) as Hok2.
  destruct (c_leave 7 s2 Hok2) as (s' & R & H0 & Hp & Hle & Hok'); [done|cbn; lia|]. exists s'. split; [by etrans; [|eapply rtc_l]|].
  unfold s2 in *. dat. split; [congruence|]. split; [lia|done].
Qed.

Lemma p_puts s : ok s -> (pc_p s = P_test \/ pc_p s = P_count) -> count s <= 9 ->
  exists s', by_producer s s' /\ pc_c s' = pc_c s /\ count s < count s' /\ p_in (pc_p s') = 0 /\ ok s'.
Proof.
  intros Hok Hc Hn. assert (H : exists s1, by_producer s s1 /\ pc_p s1 = P_count /\ pc_c s1 = pc_c s /\ count s1 = count s /\ ok s1).
  { destruct Hc as [Hc|Hc]; [|by exists s; split; [apply rtc_refl|]]. assert (H : producer s = Moves (pgo P_count s)).
    { unfold producer, MAX_BUF. rewrite Hc. by rewrite (proj2 (Z.eqb_neq _ _)) by lia. }
    exists (pgo P_count s). split; [by apply rtc_once|]. do 3 (split; [done|]). by eapply ok_producer. }
  destruct H as (s1 & R1 & Hc1 & Hp1 & Hn1 & Hok1). set (s2 := pgo P_store (set_count (count s1 + 1) s1)).
  assert (H2 : producer s1 = Moves s2) by (unfold producer; by rewrite Hc1). pose proof (ok_producer _ _ Hok1 H2) as Hok2.
  destruct (p_leave 7 s2 Hok2) as (s' & R & H0 & Hp & Hle & Hok'); [done|cbn; lia|]. exists s'. split; [by etrans; [|eapply rtc_l]|].
  unfold s2 in *. dat. split; [congruence|]. split; [lia|done].
Qed.

Lemma producer_continues s : ok s -> exists s' s'', by_consumer s s' /\ producer s' = Moves s''.
Proof.
  intros Hok. assert (H : exists s1, by_consumer s s1 /\ c_in (pc_c s1) = 0 /\ ok s1).
  { destruct (decide (c_in (pc_c s) = 0)); [by exists s; split; [apply rtc_refl|]|]. destruct (c_leave 9 s Hok) as (s' & ? & ? & _ & _ & ?); [by destruct (pc_c s)|destruct (pc_c s); cbn; lia|eauto]. }
  destruct H as (s1 & R1 & Hc1 & Hok1).
  assert (G : forall s2, by_consumer s1 s2 -> ok s2 -> pc_c s2 = C_test \/ pc_c s2 = C_count -> count s2 = 10 -> exists s' s'', by_consumer s s' /\ producer s' = Moves s'').
  { intros s2 R2 Hok2 Hc2 Hn2. destruct (c_takes s2 Hok2 Hc2 ltac:(lia)) as (s3 & R3 & Hp3 & Hn3 & Hc3 & Hok3).
    destruct (p_unblocked s3 Hok3 Hc3) as [s4 H4]; [intros _; lia|]. exists s3, s4. split; [by etrans; [|etrans]|done]. }
  destruct (decide (pc_p s1 = P_wait)) as [Hw|Hw]; [|destruct (p_unblocked s1 Hok1 Hc1) as [s2 H2]; [by intros ?|by exists s1, s2]].
  destruct (Z.le_gt_cases (count s1) 9); [destruct (p_unblocked s1 Hok1 Hc1) as [s2 H2]; [done|by exists s1, s2]|].
  assert (Hn : count s1 = 10) by (destruct Hok1 as (m & n & [? ? ? ? ?] & _); lia).
  destruct (c_unblocked s1 Hok1) as [s2 H2]; [by rewrite Hw|intros _; lia|]. pose proof (ok_consumer _ _ Hok1 H2) as Hok2.
  destruct (consumer_enters s1 s2 H2 Hc1 ltac:(lia)) as (Hp2 & Hn2 & [[_ Hc2]|Hc2]); [|apply (G s2); [by apply rtc_once|done|tauto|lia]].
  destruct (c_unblocked s2 Hok2) as [s3 H3]; [by rewrite Hp2, Hw|by rewrite Hc2|]. pose proof (ok_consumer _ _ Hok2 H3) as Hok3.
  destruct (consumer_enters s2 s3 H3) as (Hp3 & Hn3 & [[Hx _]|Hc3]); [by rewrite Hc2|lia|congruence|].
  apply (G s3); [eapply rtc_l; [exact H2|by apply rtc_once]|done|tauto|lia].
Qed.

Lemma consumer_continues s : ok s -> exists s' s'', by_producer s s' /\ consumer s' = Moves s''.
Proof.
  intros Hok. assert (H : exists s1, by_producer s s1 /\ p_in (pc_p s1) = 0 /\ ok s1).
  { destruct (decide (p_in (pc_p s) = 0)); [by exists s; split; [apply rtc_refl|]|]. destruct (p_leave 9 s Hok) as (s' & ? & ? & _ & _ & ?); [by destruct (pc_p s)|destruct (pc_p s); cbn; lia|eauto]. }
  destruct H as (s1 & R1 & Hc1 & Hok1).
  assert (G : forall s2, by_producer s1 s2 -> ok s2 -> pc_p s2 = P_test \/ pc_p s2 = P_count -> count s2 = 0 -> exists s' s'', by_producer s s' /\ consumer s' = Moves s'').
  { intros s2 R2 Hok2 Hc2 Hn2. destruct (p_puts s2 Hok2 Hc2 ltac:(lia)) as (s3 & R3 & Hp3 & Hn3 & Hc3 & Hok3).
    destruct (c_unblocked s3 Hok3 Hc3) as [s4 H4]; [intros _; lia|]. exists s3, s4. split; [by etrans; [|etrans]|done]. }
  destruct (decide (pc_c s1 = C_wait)) as [Hw|Hw]; [|destruct (c_unblocked s1 Hok1 Hc1) as [s2 H2]; [by intros ?|by exists s1, s2]].
  destruct (Z.le_gt_cases 1 (count s1)); [destruct (c_unblocked s1 Hok1 Hc1) as [s2 H2]; [done|by exists s1, s2]|].
  assert (Hn : count s1 = 0) by (destruct Hok1 as (m & n & [? ? ? ? ?] & _); lia).
  destruct (p_unblocked s1 Hok1) as [s2 H2]; [by rewrite Hw|intros _; lia|]. pose proof (ok_producer _ _ Hok1 H2) as Hok2.
  destruct (producer_enters s1 s2 H2 Hc1 ltac:(lia)) as (Hp2 & Hn2 & [[_ Hc2]|Hc2]); [|apply (G s2); [by apply rtc_once|done|tauto|lia]].
  destruct (p_unblocked s2 Hok2) as [s3 H3]; [by rewrite Hp2, Hw|by rewrite Hc2|]. pose proof (ok_producer _ _ Hok2 H3) as Hok3.
  destruct (producer_enters s2 s3 H3) as (Hp3 & Hn3 & [[Hx _]|Hc3]); [by rewrite Hc2|lia|congruence|].
  apply (G s3); [eapply rtc_l; [exact H2|by apply rtc_once]|done|tauto|lia].
Qed.

(** ** The theorems *)

(** C15: in every state the two threads can reach, in whatever order their steps
    are taken: the items are consumed in the order in which they were
    produced, none is lost or consumed twice, at most ten are outstanding, at
    most one thread is in its critical section, and neither thread indexes
    outside the buffer or makes a semaphore operation fail. *)
Theorem producer_consumer_fifo s : reachable s ->
  exists m n, 0 <= n <= m /\ m - n <= MAX_BUF /\ produced (out s) = items m /\ consumed (out s) = items n /\
    p_in (pc_p s) + c_in (pc_c s) <= 1 /\ producer s <> Error /\ consumer s <> Error.
Proof.
  intros H. destruct (ok_reachable s H) as (m & n & Hi). pose proof Hi as [[_ Hm Hc Hp Hk] [_ [D2 D2'] _ _ _ _ D7 D8]].
  exists (m - p_unprinted (pc_p s)), n. unfold MAX_BUF.
  assert (0 <= n <= m - p_unprinted (pc_p s) /\ m - p_unprinted (pc_p s) - n <= 10).
  { destruct (pc_p s); cbn [p_ahead p_unprinted p_knows p_in] in *; destruct (pc_c s); cbn [c_ahead c_knows c_in] in *; lia. }
  do 5 (split; [done || lia|]). split.
  - destruct (producer_outcome s m n Hi) as [[? E]|[E _]]; by rewrite E.
  - destruct (consumer_outcome s m n Hi) as [[? E]|[E _]]; by rewrite E.
Qed.


(** Runs given by the threads that take the steps, [true] for the producer. *)
Fixpoint schedule (l : list bool) (s : pcstate) : option pcstate :=
  match l with
  | [] => Some s
  | b :: l' => match (if b then producer s else consumer s) with Moves s' => schedule l' s' | _ => None end
  end.

Lemma schedule_reachable l : forall s s', schedule l s = Some s' -> rtc step s s'.
Proof.
  induction l as [|b l IH]; cbn [schedule]; intros s s' H; [injection H as <-; apply rtc_refl|].
  destruct b; [destruct (producer s) eqn:E|destruct (consumer s) eqn:E]; try discriminate H; (eapply rtc_l; [by constructor|by apply IH]).
Qed.

(** The consumer goes to sleep on the empty buffer; the producer stores an item. *)
Definition sleepy_consumer : list bool := replicate 4 false ++ replicate 10 true.

Lemma producer_consumer_fifo_witness : exists s m n, schedule sleepy_consumer start = Some s /\ pc_c s = C_wait /\ produced (out s) = items m /\ consumed (out s) = items n /\ m = 1 /\ n = 0.
Proof.
  destruct (schedule sleepy_consumer start) as [s|] eqn:E; [|vm_compute in E; discriminate E].
  destruct (producer_consumer_fifo s (schedule_reachable _ _ _ E)) as (m & n & H1 & H2 & H3 & H4 & _). exists s, m, n. split; [reflexivity|].
  vm_compute in E. injection E as <-. cbn [pc_c out] in *. split; [done|]. split; [exact H3|]. split; [exact H4|].
  apply (f_equal length) in H3, H4. unfold items in H3, H4. rewrite length_map, length_seqZ in H3, H4. cbn in H3, H4. lia.
Defined.


(** ** The semaphores of the barber *)

(** [sem_init_diff_val] takes an array of [int] for an array of [unsigned
    short], so that it sets the semaphores to the halves of the first numbers:
    the producer and the consumer get the values they ask for, but the barber
    (problemas-classicos/S11_AP_11.4) asks for 1, 0, 5, 0, 0 and gets five in
    its last semaphore, the one on which the barber waits for a customer. *)
Theorem sem_init_halves v0 v1 v2 v3 v4 : (forall v, v ∈ [v0; v1; v2; v3; v4] -> 0 <= v < 2 ^ 16) ->
  sem_init_diff_val 5 [v0; v1; v2; v3; v4] = [v0; 0; v1; 0; v2] /\ sem_init_diff_val 3 [1; 0; 0] = [1; 0; 0] /\
  sem_init_diff_val 5 [1; 0; 5; 0; 0] = [1; 0; 0; 0; 5].
Proof.
  intros H. split; [|done]. unfold sem_init_diff_val, shorts. cbn [flat_map app take]. unfold u16, u32.
  pose proof (H v0 ltac:(set_solver)). pose proof (H v1 ltac:(set_solver)). pose proof (H v2 ltac:(set_solver)).
  rewrite !(Z.mod_small _ (2 ^ 16)), !(Z.mod_small _ (2 ^ 32)), !Z.div_small by (try rewrite !(Z.mod_small _ (2 ^ 32)), ?Z.div_small by lia; lia). done.
Qed.
