(* ===== verification/ReadersWriters.v ===== *)
(** * Readers and writers: src/problemas-classicos/S11_AP_11.2

    Any number of reader and writer threads of LeitorRedator.c over three POSIX
    mutexes and a counter; every statement is one step.  A mutex records its
    owner.  Locking waits while the mutex is owned; unlocking a mutex that the
    thread does not own is undefined for the default kind of mutex, and the
    model stops there.

    Up to that point a writer is alone: this is the invariant below.  The
    program does not keep it, though: the last reader to leave unlocks the
    mutex that the first one locked, and, as the counter is tested outside of
    its mutex, a reader that enters while the last one leaves can bring all
    the threads to a halt. *)

From stdpp Require Import base list list_numbers numbers relations.
From Stdlib Require Import ZArith Lia.
From S2P Require Import Prelude.

(** The statements of [reader] with [check_and_wait] and [read], and of
    [writer] with [check_and_wait_if_busy] and [write]. *)
Inductive rpc := R_try | R_wait | R_lock | R_inc | R_unlock | R_test | R_acc | R_go | R_read | R_lock2 | R_dec | R_unlock2 | R_test2 | R_free.
Inductive wpc := W_try | W_wait | W_acc | W_go | W_write | W_free.

Inductive thread := Reader (i : nat) | Writer (i : nat).
#[global] Instance thread_eq_dec : EqDecision thread.
Proof. solve_decision. Defined.

Record rwstate := mkRW {
  readers : list rpc;
  writers : list wpc;
  no_wait : option thread;
  no_acc : option thread;
  counter : option thread;
  no_of_readers : Z
}.

Definition rgo (i : nat) (p : rpc) (s : rwstate) : rwstate := mkRW (<[i := p]> (readers s)) (writers s) (no_wait s) (no_acc s) (counter s) (no_of_readers s).
Definition wgo (i : nat) (p : wpc) (s : rwstate) : rwstate := mkRW (readers s) (<[i := p]> (writers s)) (no_wait s) (no_acc s) (counter s) (no_of_readers s).
Definition set_wait (v : option thread) (s : rwstate) : rwstate := mkRW (readers s) (writers s) v (no_acc s) (counter s) (no_of_readers s).
Definition set_acc (v : option thread) (s : rwstate) : rwstate := mkRW (readers s) (writers s) (no_wait s) v (counter s) (no_of_readers s).
Definition set_counter (v : option thread) (s : rwstate) : rwstate := mkRW (readers s) (writers s) (no_wait s) (no_acc s) v (no_of_readers s).
Definition set_readers (v : Z) (s : rwstate) : rwstate := mkRW (readers s) (writers s) (no_wait s) (no_acc s) (counter s) v.

Inductive rwout := RMoves (s : rwstate) | RBlocked | RUndefined.

(** [pthread_mutex_lock] and [pthread_mutex_unlock] of the mutex [get], [set]. *)
Definition mutex_lock (get : rwstate -> option thread) (set : option thread -> rwstate -> rwstate) (t : thread) (s : rwstate) (k : rwstate -> rwstate) : rwout :=
  match get s with Some _ => RBlocked | None => RMoves (k (set (Some t) s)) end.
Definition mutex_unlock (get : rwstate -> option thread) (set : option thread -> rwstate -> rwstate) (t : thread) (s : rwstate) (k : rwstate -> rwstate) : rwout :=
  if decide (get s = Some t) then RMoves (k (set None s)) else RUndefined.

Definition reader (i : nat) (p : rpc) (s : rwstate) : rwout :=
  let t := Reader i in
  match p with
  | R_try => match no_wait s with None => RMoves (rgo i R_lock (set_wait (Some t) s)) | Some _ => RMoves (rgo i R_wait s) end
  | R_wait => mutex_lock no_wait set_wait t s (rgo i R_lock)
  | R_lock => mutex_lock counter set_counter t s (rgo i R_inc)
  | R_inc => RMoves (rgo i R_unlock (set_readers (no_of_readers s + 1) s))
  | R_unlock => mutex_unlock counter set_counter t s (rgo i R_test)
  | R_test => RMoves (rgo i (if no_of_readers s =? 1 then R_acc else R_go) s)
  | R_acc => mutex_lock no_acc set_acc t s (rgo i R_go)
  | R_go => mutex_unlock no_wait set_wait t s (rgo i R_read)
  | R_read => RMoves (rgo i R_lock2 s)
  | R_lock2 => mutex_lock counter set_counter t s (rgo i R_dec)
  | R_dec => RMoves (rgo i R_unlock2 (set_readers (no_of_readers s - 1) s))
  | R_unlock2 => mutex_unlock counter set_counter t s (rgo i R_test2)
  | R_test2 => RMoves (rgo i (if no_of_readers s =? 0 then R_free else R_try) s)
  | R_free => mutex_unlock no_acc set_acc t s (rgo i R_try)
  end.

Definition writer (i : nat) (p : wpc) (s : rwstate) : rwout :=
  let t := Writer i in
  match p with
  | W_try => match no_wait s with None => RMoves (wgo i W_acc (set_wait (Some t) s)) | Some _ => RMoves (wgo i W_wait s) end
  | W_wait => mutex_lock no_wait set_wait t s (wgo i W_acc)
  | W_acc => mutex_lock no_acc set_acc t s (wgo i W_go)
  | W_go => mutex_unlock no_wait set_wait t s (wgo i W_write)
  | W_write => RMoves (wgo i W_free s)
  | W_free => mutex_unlock no_acc set_acc t s (wgo i W_try)
  end.

(** The next step of a thread; there is no thread beyond those created. *)
Definition next (t : thread) (s : rwstate) : rwout :=
  match t with
  | Reader i => match readers s !! i with Some p => reader i p s | None => RBlocked end
  | Writer i => match writers s !! i with Some p => writer i p s | None => RBlocked end
  end.

Inductive rwstep : rwstate -> rwstate -> Prop :=
  | rw_step t s s' : next t s = RMoves s' -> rwstep s s'.

(** [main] with [nr] readers and [nw] writers; it creates five of each. *)
Definition rwstart (nr nw : nat) : rwstate := mkRW (replicate nr R_try) (replicate nw W_try) None None None 0.

(** ** The invariant *)

(** Where a thread owns [no_wait], [counter] and [no_acc]; where a reader is
    counted; and where it reads, or is about to. *)
Definition r_waits (p : rpc) : bool := match p with R_lock | R_inc | R_unlock | R_test | R_acc | R_go => true | _ => false end.
Definition w_waits (p : wpc) : bool := match p with W_acc | W_go => true | _ => false end.
Definition r_counter (p : rpc) : bool := match p with R_inc | R_unlock | R_dec | R_unlock2 => true | _ => false end.
Definition counted (p : rpc) : bool := match p with R_unlock | R_test | R_acc | R_go | R_read | R_lock2 | R_dec => true | _ => false end.
Definition inside (p : rpc) : bool := match p with R_go | R_read | R_lock2 | R_dec => true | _ => false end.
Definition w_acc (p : wpc) : bool := match p with W_go | W_write | W_free => true | _ => false end.

Fixpoint number (f : rpc -> bool) (l : list rpc) : Z := match l with [] => 0 | p :: l' => (if f p then 1 else 0) + number f l' end.

(** The threads [T i] in the region [f] own the mutex. *)
Definition owns {A} (T : nat -> thread) (f : A -> bool) (l : list A) (m : option thread) : Prop :=
  forall i p, l !! i = Some p -> f p = true -> m = Some (T i).

Record rwinv (s : rwstate) : Prop := {
  rw_rwait : owns Reader r_waits (readers s) (no_wait s);
  rw_wwait : owns Writer w_waits (writers s) (no_wait s);
  rw_counter : owns Reader r_counter (readers s) (counter s);
  rw_number : no_of_readers s = number counted (readers s);
  rw_wacc : owns Writer w_acc (writers s) (no_acc s);
  rw_inside : forall i p, readers s !! i = Some p -> inside p = true -> exists j, no_acc s = Some (Reader j);
  rw_free : forall j, readers s !! j = Some R_free -> no_acc s = Some (Reader j) -> forall i p, readers s !! i = Some p -> inside p = false
}.

Lemma number_insert f l : forall i p q, l !! i = Some p -> number f (<[i := q]> l) = number f l - (if f p then 1 else 0) + (if f q then 1 else 0).
Proof.
  induction l as [|x l IH]; intros [|i] p q H; try discriminate H.
  - injection H as ->. change (<[0%nat := q]> (p :: l)) with (q :: l). cbn [number]. lia.
  - change (<[S i := q]> (x :: l)) with (x :: <[i := q]> l). cbn [number]. rewrite (IH i p q H). lia.
Qed.

Lemma number_nonneg f l : 0 <= number f l.
Proof. induction l as [|x l IH]; cbn [number]; [lia|]. destruct (f x); lia. Qed.

Lemma number_in f l i p : l !! i = Some p -> f p = true -> 1 <= number f l.
Proof.
  revert i. induction l as [|x l IH]; intros [|i] H Hf; try discriminate H; cbn [number].
  - injection H as ->. rewrite Hf. pose proof (number_nonneg f l). lia.
  - pose proof (IH i H Hf). destruct (f x); lia.
Qed.

Lemma number_other f l i p : l !! i = Some p -> f p = true -> number f l <> 1 -> exists k q, k <> i /\ l !! k = Some q /\ f q = true.
Proof.
  revert i. induction l as [|x l IH]; intros [|i] H Hf Hn; try discriminate H; cbn [number] in Hn.
  - injection H as ->. rewrite Hf in Hn. assert (Hp : 1 <= number f l) by (pose proof (number_nonneg f l); lia).
    clear - Hp. assert (exists k q, l !! k = Some q /\ f q = true) as (k & q & ? & ?); [|by exists (S k), q].
    induction l as [|y l IH]; cbn [number] in Hp; [lia|]. destruct (f y) eqn:E; [by exists 0%nat, y|]. destruct (IH ltac:(lia)) as (k & q & ? & ?). by exists (S k), q.
  - destruct (f x) eqn:Ex; [exists 0%nat, x; split; [lia|done]|]. destruct (IH i H Hf ltac:(lia)) as (k & q & ? & ? & ?). exists (S k), q. split; [lia|done].
Qed.

Lemma moved {A} (l : list A) i p k q : <[i := p]> l !! k = Some q -> (k = i /\ q = p) \/ (k <> i /\ l !! k = Some q).
Proof.
  intros H. destruct (decide (i = k)) as [->|Hne]; [|rewrite list_lookup_insert_ne in H by done; right; done].
  left. split; [done|]. apply list_lookup_insert_Some in H. naive_solver.
Qed.

(** A thread that moves without touching the mutex, that locks it, that unlocks
    it; and the threads of the other kind. *)
Lemma owns_same {A} T (f : A -> bool) l m i p q : l !! i = Some p -> (f q = true -> f p = true) -> owns T f l m -> owns T f (<[i := q]> l) m.
Proof. intros Hp Hq Ho k x [[-> ->]|[_ H]]%moved Hx; [by eapply Ho, Hq|by eapply Ho]. Qed.
Lemma owns_lock {A} T (f : A -> bool) l i q : owns T f l None -> owns T f (<[i := q]> l) (Some (T i)).
Proof. intros Ho k x [[-> ->]|[_ H]]%moved Hx; [done|]. by specialize (Ho k x H Hx). Qed.
Lemma owns_unlock {A} T (f : A -> bool) l i q : Inj (=) (=) T -> f q = false -> owns T f l (Some (T i)) -> owns T f (<[i := q]> l) None.
Proof. intros HT Hq Ho k x [[-> ->]|[Hne H]]%moved Hx; [congruence|]. specialize (Ho k x H Hx). injection Ho as E. by apply HT in E. Qed.
Lemma owns_none {A} T (f : A -> bool) l m : owns T f l None -> owns T f l m.
Proof. intros Ho k x H Hx. by specialize (Ho k x H Hx). Qed.
Lemma rw_owns_other {A} T (f : A -> bool) l t m : (forall k, t <> T k) -> owns T f l (Some t) -> owns T f l m.
Proof. intros Ht Ho k x H Hx. specialize (Ho k x H Hx). injection Ho as E. by apply Ht in E. Qed.
#[global] Instance Reader_inj : Inj (=) (=) Reader.
Proof. by intros ? ? [=]. Qed.
#[global] Instance Writer_inj : Inj (=) (=) Writer.
Proof. by intros ? ? [=]. Qed.

Ltac rw := cbn [rgo wgo set_wait set_acc set_counter set_readers readers writers no_wait no_acc counter no_of_readers] in *.

(** The three clauses on ownership. *)
Ltac own :=
  match goal with
  | H : owns ?T ?f ?l ?m |- owns ?T ?f ?l ?m => exact H
  | |- owns ?T ?f (<[?i := ?q]> ?l) (Some (?T ?i)) => apply owns_lock; assumption
  | |- owns ?T ?f (<[?i := ?q]> ?l) None => apply owns_unlock; [apply _|reflexivity|assumption]
  | |- owns _ _ (<[_ := _]> _) _ => eapply owns_same; [eassumption|done|assumption]
  | |- owns _ _ _ (Some _) => apply owns_none; assumption
  | |- owns _ _ _ None => eapply rw_owns_other; [|eassumption]; done
  end.

Lemma inside_move (l : list rpc) (i : nat) p q (m : option thread) : l !! i = Some p -> (inside q = true -> inside p = true) ->
  (forall k x, l !! k = Some x -> inside x = true -> exists j, m = Some (Reader j)) ->
  forall k x, <[i := q]> l !! k = Some x -> inside x = true -> exists j, m = Some (Reader j).
Proof. intros Hp Hq Ho k x [[-> ->]|[_ H]]%moved Hx; [by eapply Ho, Hq|by eapply Ho]. Qed.

Lemma free_move (l : list rpc) (i : nat) p q (m : option thread) : l !! i = Some p -> (inside q = true -> inside p = true) -> q <> R_free ->
  (forall j, l !! j = Some R_free -> m = Some (Reader j) -> forall k x, l !! k = Some x -> inside x = false) ->
  forall j, <[i := q]> l !! j = Some R_free -> m = Some (Reader j) -> forall k x, <[i := q]> l !! k = Some x -> inside x = false.
Proof.
  intros Hp Hq Hf Ho j [[-> <-]|[_ Hj]]%moved Hm k x [[-> ->]|[_ H]]%moved; [done|done| |by eapply Ho].
  destruct (inside q) eqn:E; [|done]. rewrite <- (Ho j Hj Hm i p Hp). symmetry. by apply Hq.
Qed.

Ltac rest := first [eapply inside_move; [eassumption|done|assumption] | eapply free_move; [eassumption|done|done|assumption] | assumption].

(** Another reader that is counted has passed [no_wait], so it is inside. *)
Lemma other_inside s i p : rwinv s -> readers s !! i = Some p -> r_waits p = true -> counted p = true -> no_of_readers s <> 1 ->
  exists k q, readers s !! k = Some q /\ inside q = true.
Proof.
  intros [I1 _ _ I4 _ _ _] Hp Hw Hc Hn. rewrite I4 in Hn. destruct (number_other counted _ i p Hp Hc Hn) as (k & q & Hne & Hq & Hcq).
  exists k, q. split; [done|]. pose proof (I1 i p Hp Hw) as E. pose proof (I1 k q Hq) as Ek. destruct q; try done; rewrite E in Ek; specialize (Ek eq_refl); congruence.
Qed.

Lemma reader_inv i p s s' : rwinv s -> readers s !! i = Some p -> reader i p s = RMoves s' -> rwinv s'.
Proof.
  intros HI Hp H. pose proof (other_inside s i p HI Hp) as Hoth. destruct s as [rs ws nw na cn n]. destruct HI as [I1 I2 I3 I4 I5 I6 I7].
  assert (Hn := fun q => number_insert counted rs i p q Hp). rw.
  destruct p; cbn [reader] in H; unfold mutex_lock, mutex_unlock in H; rw; cbn [counted] in Hn.
  1: destruct nw as [t|].
  3: destruct nw as [t|]; [discriminate H|].
  4: destruct cn as [t|]; [discriminate H|].
  6: destruct (decide (cn = Some (Reader i))) as [->|]; [|discriminate H].
  7: destruct (Z.eqb_spec n 1) as [E1|E1].
  9: destruct na as [t|]; [discriminate H|].
  10: destruct (decide (nw = Some (Reader i))) as [->|]; [|discriminate H].
  12: destruct cn as [t|]; [discriminate H|].
  14: destruct (decide (cn = Some (Reader i))) as [->|]; [|discriminate H].
  15: destruct (Z.eqb_spec n 0) as [E1|E1].
  17: destruct (decide (na = Some (Reader i))) as [->|]; [|discriminate H].
  all: injection H as <-; split; rw; try own; try rest; try (rewrite Hn; cbn [counted]; lia).
  (* the reader finds others reading *)
  - intros k q [[-> ->]|[_ Hk]]%moved Hq; [|by eapply I6]. destruct Hoth as (k' & q' & Hk' & Hq'); [done|done|done|by eapply I6].
  - intros j [[_ E]|[_ Hj]]%moved Hna; [done|]. destruct Hoth as (k' & q' & Hk' & Hq'); [done|done|done|]. rewrite (I7 j Hj Hna k' q' Hk') in Hq'. done.
  (* the first reader locks [no_acc] *)
  - intros k q _ _. by exists i.
  - intros j [[_ E]|[Hne _]]%moved [= ->]; done.
  (* the last reader is about to unlock it *)
  - assert (H0 : forall k q, rs !! k = Some q -> inside q = false).
    { intros k q Hk. destruct (inside q) eqn:E; [|done]. pose proof (number_in counted rs k q Hk ltac:(by destruct q)). lia. }
    intros j _ _ k q [[-> ->]|[_ Hk]]%moved; [done|by eapply H0].
  (* and unlocks it *)
  - intros k q [[-> ->]|[_ Hk]]%moved Hq; [done|]. rewrite (I7 i Hp eq_refl k q Hk) in Hq. done.
  - by intros j _ [=].
Qed.

Lemma writer_inv i p s s' : rwinv s -> writers s !! i = Some p -> writer i p s = RMoves s' -> rwinv s'.
Proof.
  destruct s as [rs ws nw na cn n]. intros [I1 I2 I3 I4 I5 I6 I7] Hp H. rw.
  destruct p; cbn [writer] in H; unfold mutex_lock, mutex_unlock in H; rw.
  1: destruct nw as [t|].
  3: destruct nw as [t|]; [discriminate H|].
  4: destruct na as [t|]; [discriminate H|].
  5: destruct (decide (nw = Some (Writer i))) as [->|]; [|discriminate H].
  7: destruct (decide (na = Some (Writer i))) as [->|]; [|discriminate H].
  all: injection H as <-; split; rw; try own; try rest.
  - intros k q Hk Hq. destruct (I6 k q Hk Hq) as [j ?]. done.
  - by intros j _ [=].
  - intros k q Hk Hq. destruct (I6 k q Hk Hq) as [j ?]. done.
  - by intros j _ [=].
Qed.

Lemma rwinv_start nr nw : rwinv (rwstart nr nw).
Proof.
  split; cbn [rwstart readers writers no_wait no_acc counter no_of_readers]; try (by intros i p [-> _]%lookup_replicate).
  - induction nr as [|nr IH]; [done|]. cbn [replicate number counted]. lia.
  - by intros j [? _]%lookup_replicate.
Qed.

Lemma rwinv_reachable nr nw s : rtc rwstep (rwstart nr nw) s -> rwinv s.
Proof.
  intros H. remember (rwstart nr nw) as s0 eqn:E. assert (Hi : rwinv s0) by (subst; apply rwinv_start). clear E.
  induction H as [s|s s1 s2 H _ IH]; [done|]. apply IH. clear IH. destruct H as [[i|i] s s1 H]; cbn [next] in H.
  - destruct (readers s !! i) as [p|] eqn:Hp; [|done]. by eapply reader_inv.
  - destruct (writers s !! i) as [p|] eqn:Hp; [|done]. by eapply writer_inv.
Qed.

(** ** The theorems *)

Definition reading (s : rwstate) (i : nat) : Prop := readers s !! i = Some R_read.
Definition writing (s : rwstate) (i : nat) : Prop := writers s !! i = Some W_write.

(** As long as no thread unlocks a mutex of another one, a writer is alone:
    while it writes, no other thread writes and none reads, for any number of
    threads and any interleaving. *)
Theorem writers_exclusive nr nw s i : rtc rwstep (rwstart nr nw) s -> writing s i ->
  (forall j, writing s j -> j = i) /\ (forall j, ~ reading s j).
Proof.
  intros [_ _ _ _ I5 I6 _]%rwinv_reachable Hi. pose proof (I5 i _ Hi eq_refl) as E. split.
  - intros j Hj. pose proof (I5 j _ Hj eq_refl). congruence.
  - intros j Hj. destruct (I6 j _ Hj eq_refl) as [k Hk]. congruence.
Qed.

(** Runs given by the threads that take the steps. *)
Fixpoint run (l : list thread) (s : rwstate) : rwout :=
  match l with
  | [] => RMoves s
  | t :: l' => match next t s with RMoves s' => run l' s' | r => r end
  end.

Lemma run_steps l : forall s s', run l s = RMoves s' -> rtc rwstep s s'.
Proof.
  induction l as [|t l IH]; cbn [run]; intros s s' H; [injection H as <-; apply rtc_refl|].
  destruct (next t s) as [s1| |] eqn:E; [|discriminate H..]. eapply rtc_l; [by econstructor|by apply IH].
Qed.

(** Reader 0 reads alone and leaves; between its decrement and its test reader
    1 enters, so that reader 0 does not unlock [no_acc] and reader 1 waits for
    it while it owns [no_wait]. *)
Definition late_reader : list thread :=
  replicate 11 (Reader 0) ++ replicate 5 (Reader 1) ++ replicate 2 (Reader 0) ++ [Reader 2; Reader 3; Reader 4; Writer 0; Writer 1; Writer 2; Writer 3; Writer 4].

(** C30: the five readers and five writers of [main] can come to a state in which
    all of them wait for ever, without any undefined operation. *)
Theorem readers_writers_deadlock : exists s, rtc rwstep (rwstart 5 5) s /\ forall t, next t s = RBlocked.
Proof.
  destruct (run late_reader (rwstart 5 5)) as [s| |] eqn:E; [|vm_compute in E; discriminate E..]. exists s. split; [by eapply run_steps|].
  vm_compute in E. injection E as <-. intros [i|i]; unfold next; cbn [readers writers]; do 5 (destruct i as [|i]; [reflexivity|]); reflexivity.
Qed.

(** With two readers, the one that leaves last unlocks [no_acc], which the
    other one locked: an undefined operation. *)
Theorem last_reader_undefined : exists s, rtc rwstep (rwstart 5 5) s /\ exists i, next (Reader i) s = RUndefined.
Proof.
  destruct (run (replicate 8 (Reader 0) ++ replicate 7 (Reader 1) ++ replicate 4 (Reader 0) ++ replicate 4 (Reader 1)) (rwstart 5 5)) as [s| |] eqn:E; [|vm_compute in E; discriminate E..].
  exists s. split; [by eapply run_steps|]. vm_compute in E. injection E as <-. exists 1%nat. reflexivity.
Qed.

Lemma writers_exclusive_witness : exists s, rtc rwstep (rwstart 5 5) s /\ writing s 0 /\ forall j, ~ reading s j.
Proof.
  destruct (run (replicate 3 (Writer 0) ++ replicate 5 (Reader 0)) (rwstart 5 5)) as [s| |] eqn:E; [|vm_compute in E; discriminate E..].
  pose proof (run_steps _ _ _ E) as Hr. exists s. split; [exact Hr|]. vm_compute in E. injection E as <-. split; [reflexivity|].
  apply (writers_exclusive 5 5 _ 0 Hr). reflexivity.
Defined.
