(* ===== verification/Philosophers.v ===== *)
(** * The dining philosophers: src/problemas-classicos/S11_AP_11.3

    The threads of Filosofos.c over the array of mutexes [spoon].  Every call
    on a mutex is one step of a thread.  A mutex records its owner; unlocking
    one of another thread is undefined, and an index outside of the array is a
    wild access.  The invariant says which spoons a philosopher owns at each
    point of its loop. *)

From stdpp Require Import base list list_numbers numbers relations.
From Stdlib Require Import ZArith Lia.
From S2P Require Import Prelude.

Definition PHILOSOPHERS : nat := 5.

(** The spoons [back] and [front] that [phil_init] gives philosopher [a]. *)
Definition phil_back (a : nat) : nat := if (0 <? a)%nat then (a - 1)%nat else PHILOSOPHERS.
Definition phil_front (a : nat) : nat := a.

(** The points of the loop of [philo]: before [check_If_Spoons_Are_Available],
    in it with the sum so far, in [wait_for_others_to_finish] with the sum
    returned and after its first lock, in [Eat], and in [Release_Spoons]. *)
Inductive phpc := Ph_check | Ph_check2 (sum : Z) | Ph_wait (tmp : Z) | Ph_wait2 | Ph_eat | Ph_release | Ph_release2.

Record phstate := mkPh { phils : list phpc; spoon : list (option nat) }.

Inductive phout := PhMoves (s : phstate) | PhBlocked | PhFault | PhUndefined.

Definition phgo (i : nat) (p : phpc) (s : phstate) : phstate := mkPh (<[i := p]> (phils s)) (spoon s).

(** [pthread_mutex_trylock], [pthread_mutex_lock] and [pthread_mutex_unlock] of [spoon[k]]. *)
Definition try_spoon (i k : nat) (s : phstate) (yes no : phpc) : phout :=
  match spoon s !! k with
  | None => PhFault
  | Some (Some _) => PhMoves (phgo i no s)
  | Some None => PhMoves (phgo i yes (mkPh (phils s) (<[k := Some i]> (spoon s))))
  end.
Definition lock_spoon (i k : nat) (s : phstate) (p : phpc) : phout :=
  match spoon s !! k with
  | None => PhFault
  | Some (Some _) => PhBlocked
  | Some None => PhMoves (phgo i p (mkPh (phils s) (<[k := Some i]> (spoon s))))
  end.
Definition unlock_spoon (i k : nat) (s : phstate) (p : phpc) : phout :=
  match spoon s !! k with
  | None => PhFault
  | Some o => if decide (o = Some i) then PhMoves (phgo i p (mkPh (phils s) (<[k := None]> (spoon s)))) else PhUndefined
  end.

(** After [check_If_Spoons_Are_Available]. *)
Definition checked (tmp : Z) : phpc := if tmp =? 0 then Ph_eat else Ph_wait tmp.

Definition philo (i : nat) (p : phpc) (s : phstate) : phout :=
  let b := phil_back i in let c := phil_front i in
  match p with
  | Ph_check => if Nat.odd i then try_spoon i c s (Ph_check2 0) (Ph_check2 10) else try_spoon i b s (Ph_check2 0) (Ph_check2 1)
  | Ph_check2 sum => if Nat.odd i then try_spoon i b s (checked sum) (checked (sum + 1)) else try_spoon i c s (checked sum) (checked (sum + 10))
  | Ph_wait tmp =>
      if tmp =? 1 then lock_spoon i b s Ph_eat
      else if tmp =? 10 then lock_spoon i c s Ph_eat
      else if tmp =? 11 then lock_spoon i c s Ph_wait2
      else PhMoves (phgo i Ph_eat s)
  | Ph_wait2 => lock_spoon i b s Ph_eat
  | Ph_eat => PhMoves (phgo i Ph_release s)
  | Ph_release => if Nat.odd i then unlock_spoon i b s Ph_release2 else unlock_spoon i c s Ph_release2
  | Ph_release2 => if Nat.odd i then unlock_spoon i c s Ph_check else unlock_spoon i b s Ph_check
  end.

Definition phnext (i : nat) (s : phstate) : phout :=
  match phils s !! i with Some p => philo i p s | None => PhBlocked end.

Inductive phstep : phstate -> phstate -> Prop :=
  | ph_step i s s' : phnext i s = PhMoves s' -> phstep s s'.

Definition phstart : phstate := mkPh (replicate PHILOSOPHERS Ph_check) (replicate PHILOSOPHERS None).

(** ** The invariant *)

(** The spoons philosopher [i] owns. *)
Definition has_back (i : nat) (p : phpc) : bool :=
  match p with
  | Ph_check => false
  | Ph_check2 sum => if Nat.odd i then false else sum =? 0
  | Ph_wait tmp => tmp =? 10
  | Ph_wait2 => false
  | Ph_eat | Ph_release => true
  | Ph_release2 => negb (Nat.odd i)
  end.
Definition has_front (i : nat) (p : phpc) : bool :=
  match p with
  | Ph_check => false
  | Ph_check2 sum => if Nat.odd i then sum =? 0 else false
  | Ph_wait tmp => tmp =? 1
  | Ph_wait2 => true
  | Ph_eat | Ph_release => true
  | Ph_release2 => Nat.odd i
  end.

(** The sums that occur. *)
Definition sum_ok (i : nat) (p : phpc) : Prop :=
  match p with
  | Ph_check2 sum => sum = 0 \/ sum = (if Nat.odd i then 10 else 1)
  | Ph_wait tmp => tmp = 1 \/ tmp = 10 \/ tmp = 11
  | _ => True
  end.

Record phinv (s : phstate) : Prop := {
  ph_back : forall i p, phils s !! i = Some p -> has_back i p = true -> spoon s !! phil_back i = Some (Some i);
  ph_front : forall i p, phils s !! i = Some p -> has_front i p = true -> spoon s !! phil_front i = Some (Some i);
  ph_sum : forall i p, phils s !! i = Some p -> sum_ok i p
}.

Lemma spoons_differ i : phil_back i <> phil_front i.
Proof. unfold phil_back, phil_front, PHILOSOPHERS. destruct (Nat.ltb_spec 0 i); lia. Qed.

Lemma ph_moved {A} (l : list A) i p k q : <[i := p]> l !! k = Some q -> (k = i /\ q = p) \/ (k <> i /\ l !! k = Some q).
Proof. intros H. apply list_lookup_insert_Some in H. naive_solver. Qed.

(** A philosopher moves on with the spoons it has, takes a free one, puts one back. *)
Lemma ph_skip i p q s : phinv s -> phils s !! i = Some p -> (has_back i q = true -> has_back i p = true) -> (has_front i q = true -> has_front i p = true) ->
  sum_ok i q -> phinv (phgo i q s).
Proof.
  intros [I1 I2 I3] Hp Hb Hf Hs. split; cbn [phgo phils spoon]; intros j x [[-> ->]|[_ Hj]]%ph_moved; eauto.
Qed.

Lemma ph_take i k p q s : phinv s -> phils s !! i = Some p -> spoon s !! k = Some None ->
  (has_back i q = true -> has_back i p = true \/ k = phil_back i) -> (has_front i q = true -> has_front i p = true \/ k = phil_front i) -> sum_ok i q ->
  phinv (phgo i q (mkPh (phils s) (<[k := Some i]> (spoon s)))).
Proof.
  intros [I1 I2 I3] Hp Hk Hb Hf Hs.
  assert (Hl : (k < length (spoon s))%nat) by (apply lookup_lt_Some in Hk; done).
  assert (Ho : forall j k', spoon s !! k' = Some (Some j) -> <[k := Some i]> (spoon s) !! k' = Some (Some j)).
  { intros j k' E. rewrite list_lookup_insert_ne; [done|]. intros ->. congruence. }
  split; cbn [phgo phils spoon]; intros j x [[-> ->]|[_ Hj]]%ph_moved; eauto.
  - intros [H| ->]%Hb; [eauto|by rewrite list_lookup_insert_eq].
  - intros [H| ->]%Hf; [eauto|by rewrite list_lookup_insert_eq].
Qed.

Lemma ph_put i k p q s : phinv s -> phils s !! i = Some p -> spoon s !! k = Some (Some i) ->
  (has_back i q = true -> has_back i p = true /\ k <> phil_back i) -> (has_front i q = true -> has_front i p = true /\ k <> phil_front i) -> sum_ok i q ->
  phinv (phgo i q (mkPh (phils s) (<[k := None]> (spoon s)))).
Proof.
  intros [I1 I2 I3] Hp Hk Hb Hf Hs.
  assert (Ho : forall j k', spoon s !! k' = Some (Some j) -> k' <> k -> <[k := None]> (spoon s) !! k' = Some (Some j)).
  { intros j k' E Hne. by rewrite list_lookup_insert_ne. }
  split; cbn [phgo phils spoon]; intros j x [[-> ->]|[Hne Hj]]%ph_moved; eauto.
  - intros [H1 H2]%Hb. eauto.
  - intros H. pose proof (I1 j x Hj H) as E. apply Ho; [done|]. intros E'. rewrite E' in E. congruence.
  - intros [H1 H2]%Hf. eauto.
  - intros H. pose proof (I2 j x Hj H) as E. apply Ho; [done|]. intros E'. rewrite E' in E. congruence.
Qed.

Lemma checked_ok i sum : (sum = 0 \/ sum = 1 \/ sum = 10 \/ sum = 11) ->
  sum_ok i (checked sum) /\ has_back i (checked sum) = ((sum =? 0) || (sum =? 10))%bool /\ has_front i (checked sum) = ((sum =? 0) || (sum =? 1))%bool.
Proof. intros [->|[->|[->| ->]]]; cbn; tauto. Qed.

Lemma philo_inv i p s : phinv s -> phils s !! i = Some p ->
  match philo i p s with PhMoves s' => phinv s' | PhUndefined => False | _ => True end.
Proof.
  intros HI Hp. pose proof (ph_sum _ HI i p Hp) as Hs. pose proof (ph_back _ HI i p Hp) as Hb. pose proof (ph_front _ HI i p Hp) as Hf. pose proof (spoons_differ i) as Hd.
  assert (Htry : forall k y n, (forall o, spoon s !! k = Some (Some o) -> phinv (phgo i n s)) -> (spoon s !! k = Some None -> phinv (phgo i y (mkPh (phils s) (<[k := Some i]> (spoon s))))) ->
    match try_spoon i k s y n with PhMoves s' => phinv s' | PhUndefined => False | _ => True end).
  { intros k y n H1 H2. unfold try_spoon. destruct (spoon s !! k) as [[o|]|]; [by eapply H1|by apply H2|done]. }
  assert (Hlock : forall k y, (spoon s !! k = Some None -> phinv (phgo i y (mkPh (phils s) (<[k := Some i]> (spoon s))))) ->
    match lock_spoon i k s y with PhMoves s' => phinv s' | PhUndefined => False | _ => True end).
  { intros k y H2. unfold lock_spoon. destruct (spoon s !! k) as [[o|]|]; [done|by apply H2|done]. }
  assert (Hunlock : forall k y, spoon s !! k = Some (Some i) -> phinv (phgo i y (mkPh (phils s) (<[k := None]> (spoon s)))) ->
    match unlock_spoon i k s y with PhMoves s' => phinv s' | PhUndefined => False | _ => True end).
  { intros k y H1 H2. unfold unlock_spoon. rewrite H1. by rewrite decide_True. }
  destruct p as [|sum|tmp| | | |]; cbn [philo has_back has_front sum_ok] in *.
  - destruct (Nat.odd i) eqn:Ho; apply Htry; intros; (eapply ph_take || eapply ph_skip); try done; cbn [has_back has_front sum_ok]; rewrite ?Ho; cbn; intuition congruence.
  - destruct (Nat.odd i) eqn:Ho; (assert (Hc : sum = 0 \/ sum = 1 \/ sum = 10 \/ sum = 11) by lia).
    + destruct (checked_ok i sum Hc) as (C1 & C2 & C3). destruct (checked_ok i (sum + 1) ltac:(lia)) as (C1' & C2' & C3').
      apply Htry; intros; (eapply ph_take || eapply ph_skip); try done; cbn [has_back has_front]; rewrite ?C2, ?C3, ?C2', ?C3', ?Ho; destruct Hs as [-> | ->]; cbn; intuition congruence.
    + destruct (checked_ok i sum Hc) as (C1 & C2 & C3). destruct (checked_ok i (sum + 10) ltac:(lia)) as (C1' & C2' & C3').
      apply Htry; intros; (eapply ph_take || eapply ph_skip); try done; cbn [has_back has_front]; rewrite ?C2, ?C3, ?C2', ?C3', ?Ho; destruct Hs as [-> | ->]; cbn; intuition congruence.
  - destruct Hs as [->|[->| ->]]; cbn [Z.eqb Pos.eqb]; apply Hlock; intros; eapply ph_take; try done; cbn; auto.
  - apply Hlock. intros. eapply ph_take; try done; cbn; auto.
  - eapply ph_skip; try done.
  - destruct (Nat.odd i) eqn:Ho; (apply Hunlock; [by auto|]); (eapply ph_put; [done|done|by auto|..]); cbn [has_back has_front sum_ok]; rewrite ?Ho; cbn; intuition congruence.
  - destruct (Nat.odd i) eqn:Ho; (apply Hunlock; [by auto|]); (eapply ph_put; [done|done|by auto|..]); cbn [has_back has_front sum_ok]; rewrite ?Ho; cbn; intuition congruence.
Qed.

Lemma phinv_reachable s : rtc phstep phstart s -> phinv s.
Proof.
  intros H. remember phstart as s0 eqn:E. assert (Hi : phinv s0).
  { subst s0. split; intros i p [-> _]%lookup_replicate; done. }
  clear E. induction H as [s|s s1 s2 H _ IH]; [done|]. apply IH. clear IH. destruct H as [i s s1 H]. unfold phnext in H.
  destruct (phils s !! i) as [p|] eqn:Hp; [|done]. pose proof (philo_inv i p s Hi Hp) as G. by rewrite H in G.
Qed.

(** ** The theorems *)

Definition eating (s : phstate) (i : nat) : Prop := phils s !! i = Some Ph_eat.

(** In every reachable state a philosopher that eats owns both of its spoons,
    so that two neighbours never eat at the same time, and no thread ever
    unlocks a spoon of another one. *)
Theorem eating_owns_spoons s i : rtc phstep phstart s ->
  (eating s i -> spoon s !! phil_back i = Some (Some i) /\ spoon s !! phil_front i = Some (Some i) /\ ~ eating s (S i)) /\ phnext i s <> PhUndefined.
Proof.
  intros HI%phinv_reachable. pose proof HI as [I1 I2 _]. split.
  - intros Hi. split; [by apply (I1 i _ Hi)|]. split; [by apply (I2 i _ Hi)|]. intros Hj.
    pose proof (I1 (S i) _ Hj eq_refl) as E. pose proof (I2 i _ Hi eq_refl) as E'. unfold phil_back, phil_front in *. cbn in E. rewrite Nat.sub_0_r in E.
    rewrite E in E'. injection E' as E'. lia.
  - unfold phnext. destruct (phils s !! i) as [p|] eqn:Hp; [|done]. pose proof (philo_inv i p s HI Hp) as G. by destruct (philo i p s).
Qed.

(** [phil_init] gives philosopher 0 the spoon behind the end of the array
    instead of the last one: its first attempt to take a spoon is a wild
    access, in whatever state of the others. *)
Theorem philosopher_0_faults s : rtc phstep phstart s -> length (spoon s) = PHILOSOPHERS /\ (phils s !! 0%nat = Some Ph_check -> phnext 0 s = PhFault).
Proof.
  intros H. assert (Hl : length (spoon s) = PHILOSOPHERS).
  { remember phstart as s0 eqn:E. assert (H0 : length (spoon s0) = PHILOSOPHERS) by by subst. clear E. induction H as [s|s s1 s2 H _ IH]; [done|]. apply IH. clear IH.
    destruct H as [i s s1 H]. unfold phnext in H. destruct (phils s !! i) as [p|]; [|done]. rewrite <- H0.
    destruct p; cbn [philo] in H; unfold try_spoon, lock_spoon, unlock_spoon in H; repeat (case_match; try discriminate H); injection H as <-; cbn [phgo spoon]; rewrite ?length_insert; done. }
  split; [done|]. intros H0. unfold phnext. rewrite H0. change (try_spoon 0 PHILOSOPHERS s (Ph_check2 0) (Ph_check2 1) = PhFault). unfold try_spoon.
  rewrite lookup_ge_None_2; [done|]. by rewrite Hl.
Qed.

Fixpoint phrun (l : list nat) (s : phstate) : phout :=
  match l with [] => PhMoves s | i :: l' => match phnext i s with PhMoves s' => phrun l' s' | r => r end end.

Lemma phrun_steps l : forall s s', phrun l s = PhMoves s' -> rtc phstep s s'.
Proof.
  induction l as [|i l IH]; cbn [phrun]; intros s s' H; [injection H as <-; apply rtc_refl|].
  destruct (phnext i s) as [s1| | |] eqn:E; [|discriminate H..]. eapply rtc_l; [by econstructor|by apply IH].
Qed.

Lemma eating_owns_spoons_witness : exists s, rtc phstep phstart s /\ eating s 1 /\ spoon s !! 0%nat = Some (Some 1%nat) /\ ~ eating s 2.
Proof.
  destruct (phrun [2; 2; 2; 2; 2; 1; 1]%nat phstart) as [s| | |] eqn:E; [|vm_compute in E; discriminate E..].
  pose proof (phrun_steps _ _ _ E) as Hr. vm_compute in E. injection E as <-. eexists. split; [exact Hr|].
  destruct (eating_owns_spoons _ 1 Hr) as [(H1 & _ & H2) _]; [reflexivity|]. split; [reflexivity|]. split; [exact H1|exact H2].
Defined.

Lemma philosopher_0_faults_witness : phnext 0 phstart = PhFault.
Proof. apply (philosopher_0_faults phstart); [apply rtc_refl|reflexivity]. Defined.
