(* ===== verification/Simulador.v ===== *)
(** * The scheduler simulator: src/programas-exemplo/simulador-escalonador

    A table of processes, a simulated processor, and [escalonador], the handler
    of the timer signal: it saves the registers, gives the next process its
    turn every third tick, restores the registers and runs one slice of the
    process.  A process is a function on the registers that also prints; the
    table holds its number.  The handler sets [reentrada] only while the signal
    is blocked, so a tick is one atomic step and the test for a second entry
    never succeeds.  [memoria] and [prontos] are never used.

    The theorem: for any processes, the scheduler is a round robin with turns
    of three slices, and every process computes as if it ran alone. *)

From stdpp Require Import base list list_numbers numbers strings.
From Stdlib Require Import ZArith Lia.
From S2P Require Import Prelude Printf.

Definition NUM_PROCESSOS : nat := 20.
Definition NUM_TICKS : Z := 2.

(** The registers of [_cpu]. *)
Record cpu := mkCpu { ci : Z; bd : Z; r0 : Z; r1 : Z; r2 : Z; r3 : Z; r4 : Z }.
Definition cpu0 : cpu := mkCpu 0 0 0 0 0 0 0.
Definition set_ci (v : Z) (c : cpu) : cpu := mkCpu v (bd c) (r0 c) (r1 c) (r2 c) (r3 c) (r4 c).

(** An entry of [tabela_Processos]: [processo] is the number of the function. *)
Record entrada := mkEntrada { e_id : Z; e_regs : cpu; e_processo : nat; e_proximo : Z }.
Definition set_regs (c : cpu) (e : entrada) : entrada := mkEntrada (e_id e) c (e_processo e) (e_proximo e).

Record sim := mkSim {
  _cpu : cpu;
  tabela_Processos : list entrada;
  processo_id : Z;
  pid : Z;
  contador : Z;
  saida : list Z
}.

Definition set__cpu (v : cpu) (s : sim) : sim := mkSim v (tabela_Processos s) (processo_id s) (pid s) (contador s) (saida s).
Definition set_tabela (v : list entrada) (s : sim) : sim := mkSim (_cpu s) v (processo_id s) (pid s) (contador s) (saida s).
Definition set_processo_id (v : Z) (s : sim) : sim := mkSim (_cpu s) (tabela_Processos s) v (pid s) (contador s) (saida s).
Definition set_pid (v : Z) (s : sim) : sim := mkSim (_cpu s) (tabela_Processos s) (processo_id s) v (contador s) (saida s).
Definition set_contador (v : Z) (s : sim) : sim := mkSim (_cpu s) (tabela_Processos s) (processo_id s) (pid s) v (saida s).
Definition put (o : list Z) (s : sim) : sim := mkSim (_cpu s) (tabela_Processos s) (processo_id s) (pid s) (contador s) (saida s ++ o).

(** ** The operations: [None] is [kernel_panic] or an index outside the table *)

Definition entrada_de (s : sim) (p : Z) : option entrada := if p <? 0 then None else tabela_Processos s !! Z.to_nat p.

Definition salva_contexto (s : sim) : option sim :=
  e ← entrada_de s (pid s); Some (set_tabela (<[Z.to_nat (pid s) := set_regs (_cpu s) e]> (tabela_Processos s)) s).
Definition restaura_contexto (s : sim) : option sim :=
  e ← entrada_de s (pid s); Some (set__cpu (e_regs e) s).

Definition escolhe_processo (s : sim) : option Z :=
  e ← entrada_de s (pid s); Some (if e_proximo e <? 0 then processo_id s else e_proximo e).

(** The process functions: the registers after a slice and what it prints. *)
Section processos.
Context (roda : nat -> cpu -> cpu * list Z).

Definition escalonador (s : sim) : option sim :=
  s ← salva_contexto s;
  s ← (if NUM_TICKS <? contador s + 1 then p ← escolhe_processo s; Some (set_contador 0 (set_pid p s)) else Some (set_contador (contador s + 1) s));
  s ← restaura_contexto s;
  e ← entrada_de s (pid s);
  let '(c, o) := roda (e_processo e) (_cpu s) in
  Some (put o (set__cpu c s)).

Fixpoint ticks (t : nat) (s : sim) : option sim :=
  match t with O => Some s | S t' => s' ← ticks t' s; escalonador s' end.
End processos.

Definition cria_processo (proc : nat) (s : sim) : option sim :=
  if processo_id s <? Z.of_nat NUM_PROCESSOS - 1 then
    let p := processo_id s + 1 in
    let e := mkEntrada p cpu0 proc (if 0 <? p then p - 1 else -1) in
    Some (set_tabela (<[Z.to_nat p := e]> (tabela_Processos s)) (set_processo_id p s))
  else None.

Fixpoint cria_processos (ps : list nat) (s : sim) : option sim :=
  match ps with [] => Some s | p :: ps' => s' ← cria_processo p s; cria_processos ps' s' end.

(** ** The processes of the program *)

Definition linha (s : string) : list Z := chars s ++ [10].
(** The third word of the line is the byte sequence EF BF BD. *)
Definition este (n : Z) : list Z := [48 + n] ++ chars ": Este " ++ [239; 191; 189] ++ chars " o processo " ++ [48 + n; 10].
Definition processo_1 (c : cpu) : cpu * list Z :=
  if ci c =? 0 then (set_ci (ci c + 1) c, este 1)
  else if ci c =? 1 then (set_ci 0 c, []) else (c, []).
Definition processo_2 (c : cpu) : cpu * list Z :=
  if ci c =? 0 then (set_ci (ci c + 1) c, este 2)
  else if ci c =? 1 then (set_ci (ci c + 1) c, linha "2: Fazendo alguma outra coisa")
  else if ci c =? 2 then (set_ci (ci c + 1) c, linha "2: Ainda fazendo algo...")
  else if ci c =? 3 then (set_ci 0 c, []) else (c, []).
Definition processo_3 (c : cpu) : cpu * list Z :=
  if ci c =? 0 then (set_ci (ci c + 1) c, este 3)
  else if ci c =? 1 then (set_ci 0 c, []) else (c, []).
Definition processo_4 (c : cpu) : cpu * list Z :=
  if ci c =? 0 then (set_ci (ci c + 1) c, este 4)
  else if ci c =? 1 then (set_ci 0 c, []) else (c, []).

Definition processos (p : nat) : cpu -> cpu * list Z :=
  match p with 1 => processo_1 | 2 => processo_2 | 3 => processo_3 | _ => processo_4 end%nat.

(** [main], up to the endless loop. *)
Definition vazia : entrada := mkEntrada 0 cpu0 0 0.
Definition inicio : sim := mkSim cpu0 (replicate NUM_PROCESSOS vazia) (-1) 0 0 [].
Definition main_sim : option sim := cria_processos [1; 2; 3; 4]%nat inicio.

(** ** Round robin and isolation *)

Lemma entrada_insert s i j e : 0 <= i -> 0 <= j -> (Z.to_nat i < length (tabela_Processos s))%nat ->
  entrada_de (set_tabela (<[Z.to_nat i := e]> (tabela_Processos s)) s) j = if decide (i = j) then Some e else entrada_de s j.
Proof.
  intros Hi Hj Hl. unfold entrada_de. cbn [set_tabela tabela_Processos]. rewrite (proj2 (Z.ltb_ge j 0)) by lia. destruct (decide (i = j)) as [->|Hne].
  - by rewrite list_lookup_insert_eq.
  - by rewrite list_lookup_insert_ne by lia.
Qed.

Section round_robin.
Context (roda : nat -> cpu -> cpu * list Z) (ps : list nat).
Let N : Z := Z.of_nat (length ps).

(** Who runs at tick [t], from 1 on; how often process [i] has run after [t]
    ticks; and its registers after [k] slices. *)
Definition turno (t : nat) : Z := (- (Z.of_nat t / 3)) mod N.
Fixpoint fatias (i : Z) (t : nat) : nat := match t with O => O | S t' => ((if (turno t =? i)%Z then 1 else 0) + fatias i t')%nat end.
Fixpoint sozinho (p : nat) (k : nat) : cpu := match k with O => cpu0 | S k' => (roda p (sozinho p k')).1 end.

(** What is printed: at each tick, what the process prints in its next slice. *)
Fixpoint impresso (t : nat) : list Z :=
  match t with
  | O => []
  | S t' => impresso t' ++ match ps !! Z.to_nat (turno t) with Some p => (roda p (sozinho p (fatias (turno t) t'))).2 | None => [] end
  end.

(** The registers of process [i]: in the processor if it is its turn. *)
Definition regs_de (s : sim) (i : Z) : option cpu := if pid s =? i then Some (_cpu s) else e_regs <$> entrada_de s i.

Record sim_ok (t : nat) (s : sim) : Prop := {
  so_len : length (tabela_Processos s) = NUM_PROCESSOS;
  so_id : processo_id s = N - 1;
  so_pid : pid s = turno t;
  so_cont : contador s = Z.of_nat t mod 3;
  so_tab : forall i p, 0 <= i -> ps !! Z.to_nat i = Some p -> exists e, entrada_de s i = Some e /\ e_processo e = p /\ e_proximo e = i - 1 /\ (pid s <> i -> e_regs e = sozinho p (fatias i t));
  so_cpu : forall p, ps !! Z.to_nat (pid s) = Some p -> _cpu s = sozinho p (fatias (pid s) t);
  so_out : saida s = impresso t
}.

Lemma turno_range t : 0 < N -> 0 <= turno t < N.
Proof. intros H. by apply Z.mod_pos_bound. Qed.

Lemma turno_S t : 0 < N -> turno (S t) = if 2 <? Z.of_nat t mod 3 + 1 then (if turno t - 1 <? 0 then N - 1 else turno t - 1) else turno t.
Proof.
  intros HN. unfold turno. pose proof (Z.div_mod (Z.of_nat t) 3 ltac:(lia)). pose proof (Z.mod_pos_bound (Z.of_nat t) 3 ltac:(lia)).
  destruct (Z.ltb_spec 2 (Z.of_nat t mod 3 + 1)).
  - assert (E : Z.of_nat (S t) / 3 = Z.of_nat t / 3 + 1) by (symmetry; apply (Z.div_unique_pos _ _ _ 0); lia). rewrite E.
    replace (- (Z.of_nat t / 3 + 1)) with (- (Z.of_nat t / 3) - 1) by lia. set (q := - (Z.of_nat t / 3)). rewrite <- (Zminus_mod_idemp_l q 1 N).
    pose proof (Z.mod_pos_bound q N HN). destruct (Z.ltb_spec (q mod N - 1) 0).
    + symmetry. apply (Z.mod_unique_pos _ _ (-1)); lia.
    + apply Z.mod_small. lia.
  - f_equal. f_equal. symmetry. apply (Z.div_unique_pos _ _ _ (Z.of_nat t mod 3 + 1)); lia.
Qed.

Lemma salva_ok t s : 0 < N -> sim_ok t s -> exists s1, salva_contexto s = Some s1 /\ length (tabela_Processos s1) = NUM_PROCESSOS /\
  (processo_id s1 = N - 1 /\ pid s1 = turno t /\ contador s1 = Z.of_nat t mod 3 /\ saida s1 = impresso t) /\
  forall i p, 0 <= i -> ps !! Z.to_nat i = Some p -> exists e, entrada_de s1 i = Some e /\ e_processo e = p /\ e_proximo e = i - 1 /\ e_regs e = sozinho p (fatias i t).
Proof.
  intros HN [H1 H2 H3 H4 H5 H6 H7]. pose proof (turno_range t HN) as Ht. rewrite <- H3 in Ht.
  destruct (lookup_lt_is_Some_2 ps (Z.to_nat (pid s))) as [p Hp]; [lia|]. destruct (H5 (pid s) p ltac:(lia) Hp) as (e & He & Ep & En & _).
  unfold salva_contexto. rewrite He. eexists. split; [reflexivity|]. cbn [set_tabela tabela_Processos processo_id pid contador saida]. split; [by rewrite length_insert|]. split; [done|].
  assert (Hl : (Z.to_nat (pid s) < length (tabela_Processos s))%nat).
  { unfold entrada_de in He. destruct (_ <? 0); [done|]. by apply lookup_lt_Some in He. }
  intros i q Hi Hq. rewrite entrada_insert by lia. destruct (decide (pid s = i)) as [<-|Hne].
  - exists (set_regs (_cpu s) e). assert (q = p) as -> by congruence. split; [done|]. split; [done|]. split; [done|]. by apply H6.
  - destruct (H5 i q Hi Hq) as (e' & ? & ? & ? & Hr). exists e'. split; [done|]. split; [done|]. split; [done|]. by apply Hr.
Qed.

Lemma tick_ok t s : 0 < N <= Z.of_nat NUM_PROCESSOS -> sim_ok t s -> exists s', escalonador roda s = Some s' /\ sim_ok (S t) s'.
Proof.
  intros [HN HN'] HO. destruct (salva_ok t s HN HO) as (s1 & R1 & L1 & (I1 & P1 & C1 & O1) & T1). unfold escalonador. rewrite R1. cbn [mbind option_bind].
  pose proof (turno_range t HN) as Ht. pose proof (turno_range (S t) HN) as Ht'. pose proof (turno_S t HN) as ES.
  destruct (lookup_lt_is_Some_2 ps (Z.to_nat (turno t))) as [p Hp]; [lia|]. destruct (T1 (turno t) p ltac:(lia) Hp) as (e & He & Ep & En & Er).
  destruct (lookup_lt_is_Some_2 ps (Z.to_nat (turno (S t)))) as [p' Hp']; [lia|]. destruct (T1 (turno (S t)) p' ltac:(lia) Hp') as (e' & He' & Ep' & En' & Er').
  set (step := (if NUM_TICKS <? contador s1 + 1 then p ← escolhe_processo s1; Some (set_contador 0 (set_pid p s1)) else Some (set_contador (contador s1 + 1) s1))).
  assert (Hs : step = Some (set_contador (Z.of_nat (S t) mod 3) (set_pid (turno (S t)) s1))).
  { unfold step, NUM_TICKS, escolhe_processo. rewrite C1, P1, He. cbn [mbind option_bind]. rewrite En, I1, ES. pose proof (Z.div_mod (Z.of_nat t) 3 ltac:(lia)).
    pose proof (Z.mod_pos_bound (Z.of_nat t) 3 ltac:(lia)). destruct (Z.ltb_spec 2 (Z.of_nat t mod 3 + 1)).
    - do 2 f_equal. apply (Z.mod_unique_pos _ _ (Z.of_nat t / 3 + 1)); lia.
    - rewrite <- P1. replace (Z.of_nat (S t) mod 3) with (Z.of_nat t mod 3 + 1) by (apply (Z.mod_unique_pos _ _ (Z.of_nat t / 3)); lia). by destruct s1. }
  rewrite Hs. cbn [mbind option_bind]. unfold restaura_contexto.
  change (entrada_de (set_contador (Z.of_nat (S t) mod 3) (set_pid (turno (S t)) s1)) (pid (set_contador (Z.of_nat (S t) mod 3) (set_pid (turno (S t)) s1))))
    with (entrada_de s1 (turno (S t))). rewrite He'. cbn [mbind option_bind].
  change (entrada_de (set__cpu (e_regs e') (set_contador (Z.of_nat (S t) mod 3) (set_pid (turno (S t)) s1)))
    (pid (set__cpu (e_regs e') (set_contador (Z.of_nat (S t) mod 3) (set_pid (turno (S t)) s1))))) with (entrada_de s1 (turno (S t))). rewrite He'. cbn [mbind option_bind].
  cbn [_cpu set__cpu]. rewrite Ep', Er'. destruct (roda p' (sozinho p' (fatias (turno (S t)) t))) as [c o] eqn:Er2. eexists. split; [reflexivity|].
  split; cbn [put set__cpu set_contador set_pid _cpu tabela_Processos processo_id pid contador saida]; [done|done|done|done| | |].
  - intros i q Hi Hq. destruct (T1 i q Hi Hq) as (x & Hx0 & ? & ? & Hx). exists x. split; [exact Hx0|]. do 2 (split; [done|]). intros Hne. rewrite Hx. cbn [fatias].
    by rewrite (proj2 (Z.eqb_neq _ _)) by done.
  - intros q Hq. assert (q = p') as -> by congruence. cbn [fatias]. rewrite Z.eqb_refl. cbn [Nat.add sozinho]. by rewrite Er2.
  - cbn [impresso]. by rewrite O1, Hp', Er2.
Qed.

Lemma ticks_ok t s : 0 < N <= Z.of_nat NUM_PROCESSOS -> sim_ok 0 s -> exists s', ticks roda t s = Some s' /\ sim_ok t s'.
Proof.
  intros HN H0. induction t as [|t (s1 & R & H1)]; cbn [ticks]; [by exists s|]. rewrite R. cbn [mbind option_bind]. by apply tick_ok.
Qed.

End round_robin.

(** The table that the calls of [cria_processo] make. *)
Lemma cria_ok ps : forall qs s, length (tabela_Processos s) = NUM_PROCESSOS -> processo_id s = Z.of_nat (length qs) - 1 ->
  (forall i p, 0 <= i -> qs !! Z.to_nat i = Some p -> entrada_de s i = Some (mkEntrada i cpu0 p (i - 1))) ->
  (length qs + length ps <= NUM_PROCESSOS)%nat ->
  exists s', cria_processos ps s = Some s' /\ length (tabela_Processos s') = NUM_PROCESSOS /\ processo_id s' = Z.of_nat (length (qs ++ ps)) - 1 /\
    (forall i p, 0 <= i -> (qs ++ ps) !! Z.to_nat i = Some p -> entrada_de s' i = Some (mkEntrada i cpu0 p (i - 1))) /\
    pid s' = pid s /\ contador s' = contador s /\ saida s' = saida s /\ _cpu s' = _cpu s.
Proof.
  induction ps as [|p ps IH]; intros qs s Hl Hid Ht Hn; cbn [cria_processos length] in *.
  { exists s. rewrite app_nil_r. done. }
  unfold cria_processo. rewrite Hid, (proj2 (Z.ltb_lt _ _)) by lia. cbn [mbind option_bind]. replace (Z.of_nat (length qs) - 1 + 1) with (Z.of_nat (length qs)) by lia.
  set (e := mkEntrada _ _ _ _). set (s1 := set_tabela _ _). destruct (IH (qs ++ [p]) s1) as (s' & R & H); unfold s1.
  - cbn [set_tabela set_processo_id tabela_Processos]. by rewrite length_insert.
  - cbn [set_tabela set_processo_id processo_id]. rewrite length_app. cbn [length]. lia.
  - intros i q Hi Hq. rewrite (entrada_insert (set_processo_id (Z.of_nat (length qs)) s) (Z.of_nat (length qs)) i) by (cbn [set_processo_id tabela_Processos]; lia).
    destruct (decide (Z.of_nat (length qs) = i)) as [<-|Hne].
    + rewrite lookup_app_r, Nat2Z.id, Nat.sub_diag in Hq by lia. injection Hq as ->. unfold e. do 2 f_equal. destruct (Z.ltb_spec 0 (Z.of_nat (length qs))); lia.
    + assert (Hlt : (Z.to_nat i < length qs)%nat). { apply lookup_lt_Some in Hq. rewrite length_app in Hq. cbn in Hq. lia. }
      rewrite lookup_app_l in Hq by done. by apply Ht.
  - rewrite length_app. cbn [length]. lia.
  - exists s'. rewrite <- app_assoc in H. done.
Qed.

(** C31: for any one to twenty processes, after any number [t] of ticks the program
    has not panicked; the process that runs is the one whose turn it is in a
    round robin from process 0 downwards with turns of three ticks; every
    process has the registers it would have if it had run its slices alone;
    and what was printed is what the slices print, in that order. *)
Theorem escalonador_round_robin (roda : nat -> cpu -> cpu * list Z) ps t : (1 <= length ps <= NUM_PROCESSOS)%nat ->
  exists s0 s, cria_processos ps inicio = Some s0 /\ ticks roda t s0 = Some s /\ pid s = turno ps t /\
    (forall i p, 0 <= i -> ps !! Z.to_nat i = Some p -> regs_de s i = Some (sozinho roda p (fatias ps i t))) /\
    saida s = impresso roda ps t.
Proof.
  intros Hn. destruct (cria_ok ps [] inicio) as (s0 & R0 & L0 & I0 & T0 & P0 & C0 & O0 & U0); [done|done|by intros i p _ H; rewrite lookup_nil in H|cbn; lia|].
  cbn [app] in *. exists s0. destruct (ticks_ok roda ps t s0) as (s & R & [_ _ H3 _ H5 H6 H7]); [lia| |].
  { split; try done.
    intros i p Hi Hp. eexists. split; [by apply T0|done]. }
  exists s. do 3 (split; [done|]). split; [|done]. intros i p Hi Hp. unfold regs_de. destruct (Z.eqb_spec (pid s) i) as [<-|Hne]; [by rewrite H6 with p|].
  destruct (H5 i p Hi Hp) as (e & He & _ & _ & Hr). rewrite He. cbn. by rewrite Hr.
Qed.

Lemma escalonador_round_robin_witness : exists s0 s, main_sim = Some s0 /\ ticks processos 7 s0 = Some s /\ pid s = 2 /\ regs_de s 3 = Some (set_ci 1 cpu0).
Proof.
  destruct (escalonador_round_robin processos [1; 2; 3; 4]%nat 7) as (s0 & s & H1 & H2 & H3 & H4 & _); [unfold NUM_PROCESSOS; cbn; lia|].
  exists s0, s. split; [exact H1|]. split; [exact H2|]. split; [exact H3|]. exact (H4 3 4%nat ltac:(lia) eq_refl).
Defined.

(** A twenty-first process makes the program panic. *)
Lemma muitos_processos ps s : length ps = NUM_PROCESSOS -> cria_processos ps inicio = Some s -> forall p, cria_processo p s = None.
Proof.
  intros Hl H p. destruct (cria_ok ps [] inicio) as (s0 & R0 & _ & I0 & _); [done|done|by intros i q _ Hq; rewrite lookup_nil in Hq|cbn; lia|].
  rewrite H in R0. injection R0 as <-. unfold cria_processo. cbn [app] in I0. rewrite I0, Hl. done.
Qed.
