(* ===== verification/Gmsimples.v ===== *)
(** * The first memory manager of the course: src/gerencia-de-memoria/gmsimples.c

    A first-fit allocator on an area that [malloc] returned.  The program casts
    addresses to int, so a pointer has four bytes and a header eight.  The area
    is a range of the memory, [base_] its address; an access outside of it, a
    null pointer included, stops with [Fault].  Pointers to headers are advanced
    by sizes in bytes, so a block takes eight times the bytes it should: the
    manager works on units of eight bytes, consistently but for the size of the
    area.  The text that the program prints is kept; of the formats of the host
    only %d is used. *)

From stdpp Require Import base list list_numbers numbers gmap strings.
From Stdlib Require Import ZArith Lia.
From S2P Require Import Prelude Mem KState Printf.

Definition tamMemoria : Z := 10240.
Definition sizeof_header : Z := 8.

Record gst := mkG { g_mem : mem; g_livres : Z; g_base : Z; g_out : list Z }.
Definition set_g_mem v s := mkG v (g_livres s) (g_base s) (g_out s).
Definition set_g_livres v s := mkG (g_mem s) v (g_base s) (g_out s).
Definition set_g_base v s := mkG (g_mem s) (g_livres s) v (g_out s).
Definition add_g_out v s := mkG (g_mem s) (g_livres s) (g_base s) (g_out s ++ v).
Abbreviation G := (prog kstop gst).

Definition say (fmt : list Z) (ap : list Z) : G unit := modify (add_g_out (cprintf fmt (map AInt ap))).

(** ** Headers *)

Definition in_area (s : gst) (p : Z) : bool := ((g_base s <=? p) && (p + sizeof_header <=? g_base s + tamMemoria))%bool.
Definition h_tam (m : mem) (p : Z) : Z := s32 (ld32 m p).
Definition h_prox (m : mem) (p : Z) : Z := ld32 m (p + 4).
Definition tam_of (p : Z) : G Z := fun s => if in_area s p then Ret (h_tam (g_mem s) p) s else Stop Fault s.
Definition prox_of (p : Z) : G Z := fun s => if in_area s p then Ret (h_prox (g_mem s) p) s else Stop Fault s.
Definition set_tam (p v : Z) : G unit := fun s => if in_area s p then Ret tt (set_g_mem (st32 (g_mem s) p v) s) else Stop Fault s.
Definition set_prox (p v : Z) : G unit := fun s => if in_area s p then Ret tt (set_g_mem (st32 (g_mem s) (p + 4) v) s) else Stop Fault s.
(** A pointer plus a number of headers, and the difference of two pointers. *)
Definition padd (p n : Z) : Z := u32 (p + sizeof_header * n).
Definition pdiff (p q : Z) : Z := s32 (p - q) / sizeof_header.

(** ** The program *)

Section gmsimples.
Context (base_ : Z).

Definition inicializa_mem : G unit :=
  modify (set_g_base base_) ;;
  modify (set_g_livres base_) ;;
  livres ← gets g_livres;
  set_tam livres (tamMemoria - sizeof_header) ;;
  set_prox livres 0 ;;
  t ← tam_of livres;
  p ← prox_of livres;
  say (chars "%d %d" ++ [10]) [t; s32 p].

(** The block [atual] that was found, with [anterior] before it in the list. *)
Definition aloca_found (anterior atual tam : Z) : G Z :=
  say (chars "alocado %d" ++ [10]) [tam] ;;
  t ← tam_of atual;
  (if u32 t =? u32 (sizeof_header + tam) then
     p ← prox_of atual;
     set_prox anterior p ;;
     set_prox atual 0
   else
     aux ← prox_of atual;
     let novoBloco := padd (padd atual tam) sizeof_header in
     set_prox anterior novoBloco ;;
     set_prox novoBloco aux ;;
     t ← tam_of atual;
     set_tam novoBloco (t - sizeof_header - tam) ;;
     set_tam atual tam) ;;
  livres ← gets g_livres;
  (if atual =? livres then p ← prox_of atual; modify (set_g_livres p) else mret tt) ;;
  set_prox atual 0 ;;
  mret (u32 (atual + sizeof_header)).

(** The loop of [meu_aloca]; without a block the function ends without a value. *)
Fixpoint aloca_loop (fuel : nat) (anterior atual tam : Z) : G (option Z) :=
  if atual =? 0 then
    say (chars "Impossivel alocar espaço" ++ [10]) [] ;;
    mret None
  else
    match fuel with
    | O => stop NoFuel
    | S fuel' =>
        t ← tam_of atual;
        if u32 t <? u32 (tam + sizeof_header) then
          p ← prox_of atual;
          aloca_loop fuel' atual p tam
        else
          r ← aloca_found anterior atual tam;
          mret (Some r)
    end.
(** Enough for every header that fits into the area. *)
Definition nheaders : nat := S (Z.to_nat (tamMemoria / sizeof_header)).
Definition meu_aloca (tam : Z) : G (option Z) :=
  livres ← gets g_livres;
  aloca_loop nheaders livres livres tam.

Definition merge (anterior posterior : Z) : G bool :=
  t ← tam_of anterior;
  if u32 (pdiff posterior anterior - t - sizeof_header) =? 0 then
    p ← prox_of posterior;
    set_prox anterior p ;;
    t ← tam_of anterior;
    t2 ← tam_of posterior;
    set_tam anterior (sizeof_header + t + t2) ;;
    mret true
  else mret false.

(** The loop of [meu_libera]. *)
Fixpoint libera_loop (fuel : nat) (endHeader anterior atual : Z) : G (Z * Z) :=
  match fuel with
  | O => stop NoFuel
  | S fuel' =>
      if atual <? endHeader then
        p ← prox_of atual;
        libera_loop fuel' endHeader atual p
      else mret (anterior, atual)
  end.
Definition meu_libera (ponteiro : Z) : G unit :=
  let endHeader := u32 (ponteiro - sizeof_header) in
  livres ← gets g_livres;
  if s32 endHeader <? s32 livres then
    set_prox endHeader livres ;;
    modify (set_g_livres endHeader) ;;
    t ← tam_of endHeader;
    say (chars "liberado %d" ++ [10]) [t] ;;
    p ← prox_of endHeader;
    _ ← merge endHeader p;
    mret tt
  else
    r ← libera_loop (S nheaders) endHeader livres livres;
    let '(anterior, atual) := r in
    p ← prox_of anterior;
    set_prox endHeader p ;;
    set_prox anterior endHeader ;;
    t ← tam_of endHeader;
    say (chars "liberado %d" ++ [10]) [t] ;;
    b ← merge anterior endHeader;
    (if b : bool then merge anterior atual else merge endHeader atual) ;;
    mret tt.

(** The loop of [mostra_mem]. *)
Fixpoint mostra_mem_loop (fuel : nat) (tam atual : Z) : G unit :=
  if tam <? tamMemoria then
    match fuel with
    | O => stop NoFuel
    | S fuel' =>
        t ← tam_of atual;
        say (chars "bloco de %d bytes + %d bytes de header = %d bytes" ++ [10]) [t; sizeof_header; s32 (t + sizeof_header)] ;;
        mostra_mem_loop fuel' (s32 (tam + t + sizeof_header)) (padd atual (t + sizeof_header))
    end
  else mret tt.
Definition mostra_mem : G unit :=
  b ← gets g_base;
  mostra_mem_loop nheaders 0 b.

(** The loop of [mostra_livres]. *)
Fixpoint mostra_livres_loop (fuel : nat) (atual : Z) : G unit :=
  if negb (atual =? 0) then
    match fuel with
    | O => stop NoFuel
    | S fuel' =>
        t ← tam_of atual;
        say (chars "Tamanho do bloco livre: %d" ++ [10]) [t] ;;
        p ← prox_of atual;
        mostra_livres_loop fuel' p
    end
  else mret tt.
Definition mostra_livres : G unit :=
  livres ← gets g_livres;
  mostra_livres_loop nheaders livres.

Definition linhas : G unit := say (replicate 6 10) [].
(** The result of [meu_aloca] as a value; without one the program is undefined. *)
Definition aloca (tam : Z) : G Z := r ← meu_aloca tam; match r with Some p => mret p | None => stop Fault end.

Definition main : G unit :=
  inicializa_mem ;;
  a1 ← aloca 10;
  a2 ← aloca 5;
  a3 ← aloca 20;
  mostra_mem ;; linhas ;; mostra_livres ;;
  meu_libera a2 ;;
  linhas ;; mostra_livres ;; linhas ;; mostra_mem ;;
  a10 ← aloca 3;
  linhas ;; mostra_livres ;; linhas ;; mostra_mem ;; linhas ;;
  meu_libera a3 ;;
  linhas ;; mostra_livres ;; linhas ;; mostra_mem ;; linhas ;;
  meu_libera a10 ;;
  linhas ;; linhas ;;
  teste ← aloca 100;
  mostra_livres ;; linhas ;; mostra_mem ;; linhas ;;
  meu_libera teste ;;
  mostra_livres ;; linhas ;; mostra_mem ;; linhas ;;
  teste ← aloca 12;
  mostra_livres ;; linhas ;; mostra_mem ;; linhas ;;
  meu_libera teste ;;
  mostra_livres ;; linhas ;; mostra_mem ;; linhas ;;
  meu_libera a1 ;;
  mostra_livres ;; linhas ;; mostra_mem ;; linhas.
End gmsimples.

(** ** Blocks *)

(** The area as the manager divides it: blocks one after the other, free or not,
    each with its size and the eight units for its header. *)
Record blk := mkBlk { b_livre : bool; b_tam : Z }.
Definition step (b : blk) : Z := sizeof_header * (b_tam b + sizeof_header).
Fixpoint end_of (a : Z) (bs : list blk) : Z := match bs with [] => a | b :: bs' => end_of (a + step b) bs' end.
(** The first free block from [a] on, or [k]; the last one, or [d]. *)
Fixpoint first_free (a : Z) (bs : list blk) (k : Z) : Z :=
  match bs with [] => k | b :: bs' => if b_livre b then a else first_free (a + step b) bs' k end.
Fixpoint last_free (a : Z) (bs : list blk) (d : Z) : Z :=
  match bs with [] => d | b :: bs' => last_free (a + step b) bs' (if b_livre b then a else d) end.
Definition no_free (bs : list blk) : bool := forallb (fun b => negb (b_livre b)) bs.

(** The headers of the blocks [bs] from [a] on, all below [lim]: each holds its
    size, and each free one the address of the next, the last one [k]. *)
Fixpoint seg (lim : Z) (m : mem) (a : Z) (bs : list blk) (k : Z) : Prop :=
  match bs with
  | [] => True
  | b :: bs' =>
      a + 8 <= lim /\ 0 <= b_tam b < 2 ^ 31 /\ h_tam m a = b_tam b /\ (b_livre b = true -> h_prox m a = first_free (a + step b) bs' k) /\
      seg lim m (a + step b) bs' k
  end.
Definition sized (bs : list blk) : Prop := Forall (fun b => 0 <= b_tam b) bs.

Lemma end_of_app a xs ys : end_of a (xs ++ ys) = end_of (end_of a xs) ys.
Proof. revert a. induction xs as [|x xs IH]; intros a; [done|]. cbn. apply IH. Qed.
Lemma first_free_app a xs ys k : first_free a (xs ++ ys) k = first_free a xs (first_free (end_of a xs) ys k).
Proof. revert a. induction xs as [|x xs IH]; intros a; [done|]. cbn. by rewrite IH. Qed.
Lemma last_free_app a xs ys d : last_free a (xs ++ ys) d = last_free (end_of a xs) ys (last_free a xs d).
Proof. revert a d. induction xs as [|x xs IH]; intros a d; [done|]. cbn. apply IH. Qed.
Lemma seg_app lim m a xs ys k : seg lim m a (xs ++ ys) k <-> seg lim m a xs (first_free (end_of a xs) ys k) /\ seg lim m (end_of a xs) ys k.
Proof.
  revert a. induction xs as [|x xs IH]; intros a; [cbn; tauto|]. cbn. rewrite IH, first_free_app. tauto.
Qed.
Lemma seg_sized lim m a bs k : seg lim m a bs k -> sized bs.
Proof. revert a. induction bs as [|b bs IH]; intros a H; [constructor|]. destruct H as (_ & Ht & _ & _ & H). constructor; [lia|]. by eapply IH. Qed.
Lemma end_of_ge a bs : sized bs -> a + 64 * Z.of_nat (length bs) <= end_of a bs.
Proof.
  intros H. revert a. induction H as [|b bs Hb _ IH]; intros a; [cbn; lia|]. cbn [end_of length]. specialize (IH (a + step b)). unfold step, sizeof_header in *. lia.
Qed.
Lemma first_free_no a bs k : no_free bs = true -> first_free a bs k = k.
Proof. revert a. induction bs as [|b bs IH]; intros a H; [done|]. cbn in *. destruct (b_livre b); [done|]. by apply IH. Qed.
Lemma last_free_no a bs d : no_free bs = true -> last_free a bs d = d.
Proof. revert a. induction bs as [|b bs IH]; intros a H; [done|]. cbn in *. destruct (b_livre b); [done|]. by apply IH. Qed.
(** With a free block the end of the list does not matter. *)
Lemma first_free_some a bs k k' : no_free bs = false -> first_free a bs k = first_free a bs k'.
Proof. revert a. induction bs as [|b bs IH]; intros a H; [done|]. cbn in *. destruct (b_livre b); [done|]. by apply IH. Qed.
Lemma last_free_some a bs d d' : no_free bs = false -> last_free a bs d = last_free a bs d'.
Proof.
  revert a d d'. induction bs as [|b bs IH]; intros a d d' H; [done|]. cbn in *. destruct (b_livre b); [done|]. by apply IH.
Qed.
Lemma first_free_in a bs k : sized bs -> no_free bs = false -> a <= first_free a bs k /\ first_free a bs k + 64 <= end_of a bs.
Proof.
  intros H. revert a. induction H as [|b bs Hb Hs IH]; intros a Hn; [done|]. cbn [first_free end_of no_free forallb] in *.
  pose proof (end_of_ge (a + step b) bs Hs). unfold step, sizeof_header in *. destruct (b_livre b); [lia|]. specialize (IH (a + 8 * (b_tam b + 8)) Hn). lia.
Qed.
Lemma last_free_in a bs d : sized bs -> no_free bs = false -> a <= last_free a bs d /\ last_free a bs d + 64 <= end_of a bs.
Proof.
  intros H. revert a d. induction H as [|b bs Hb Hs IH]; intros a d Hn; [done|]. cbn [last_free end_of no_free forallb] in *.
  pose proof (end_of_ge (a + step b) bs Hs). unfold step, sizeof_header in *. destruct (no_free bs) eqn:E.
  - rewrite last_free_no by done. destruct (b_livre b); [lia|]. unfold no_free in E. rewrite E in Hn. done.
  - specialize (IH (a + 8 * (b_tam b + 8)) (if b_livre b then a else d) eq_refl). lia.
Qed.

(** Two memories with the same headers in a range. *)
Definition same_headers (m m' : mem) (a e : Z) : Prop := forall x, a <= x -> x + 8 <= e -> h_tam m' x = h_tam m x /\ h_prox m' x = h_prox m x.
Lemma seg_frame lim m m' a bs k : same_headers m m' a (end_of a bs) -> seg lim m a bs k -> seg lim m' a bs k.
Proof.
  revert a. induction bs as [|b bs IH]; intros a Hs H; [done|]. pose proof (seg_sized _ _ _ _ _ H) as Hz. inversion_clear Hz as [|? ? Hb Hz'].
  cbn [seg end_of] in *. destruct H as (H0 & H1 & H2 & H3 & H4). pose proof (end_of_ge (a + step b) bs Hz'). assert (64 <= step b) by (unfold step, sizeof_header; lia).
  destruct (Hs a) as [E1 E2]; [lia|lia|]. split_and!; [done|lia|lia|by rewrite E1|by rewrite E2|]. apply IH; [|done]. intros x Hx1 Hx2. apply Hs; lia.
Qed.
Lemma same_headers_st m w v a e : w + 4 <= a \/ e <= w -> same_headers m (st32 m w v) a e.
Proof. intros H x H1 H2. unfold h_tam, h_prox. rewrite !ld32_st32_ne by lia. done. Qed.
Lemma same_headers_trans m1 m2 m3 a e : same_headers m1 m2 a e -> same_headers m2 m3 a e -> same_headers m1 m3 a e.
Proof. intros H1 H2 x Ha He. destruct (H1 x Ha He), (H2 x Ha He). split; congruence. Qed.

(** The end of the list can be moved by a write to the last free block. *)
Lemma seg_no_free lim m a bs k k' : no_free bs = true -> seg lim m a bs k -> seg lim m a bs k'.
Proof.
  revert a. induction bs as [|b bs IH]; intros a Hn H; [done|]. cbn in *. destruct (b_livre b); [done|]. destruct H as (? & ? & ? & _ & H). split_and!; [done|lia|lia|done|done|by apply IH].
Qed.
Lemma seg_relink lim m a bs k k' d : seg lim m a bs k -> no_free bs = false -> 0 <= k' < 2 ^ 32 -> seg lim (st32 m (last_free a bs d + 4) k') a bs k'.
Proof.
  revert a d. induction bs as [|b bs IH]; intros a d H Hn Hk; [done|]. pose proof (seg_sized _ _ _ _ _ H) as Hz. inversion_clear Hz as [|? ? Hb Hz'].
  cbn [seg last_free] in *. destruct H as (H0 & H1 & H2 & H3 & H4). assert (64 <= step b) by (unfold step, sizeof_header; lia). destruct (no_free bs) eqn:E.
  - rewrite last_free_no by done. cbn in Hn. unfold no_free in E. rewrite E, andb_true_r in Hn. destruct (b_livre b); [|done]. split_and!; [done|lia|lia| | |].
    + unfold h_tam. by rewrite ld32_st32_ne by lia.
    + intros _. unfold h_prox. rewrite ld32_st32_eq, first_free_no by done. by apply u32_small.
    + eapply seg_frame; [apply same_headers_st; lia|]. by eapply seg_no_free.
  - set (q := last_free _ _ _). destruct (last_free_in (a + step b) bs (if b_livre b then a else d) Hz' E) as [Q1 Q2]. fold q in Q1, Q2. split_and!; [done|lia|lia| | |by apply IH].
    + unfold h_tam. by rewrite ld32_st32_ne by lia.
    + intros Hl. unfold h_prox. rewrite ld32_st32_ne by lia. rewrite (first_free_some _ _ k' k) by done. by apply H3.
Qed.

(** ** The state *)

Record heap (s : gst) (bs : list blk) : Prop := {
  h_low : 0 < g_base s;
  h_high : g_base s + 8 * tamMemoria < 2 ^ 31;
  h_list : g_livres s = first_free (g_base s) bs 0;
  h_seg : seg (g_base s + tamMemoria) (g_mem s) (g_base s) bs 0;
  h_units : end_of (g_base s) bs = g_base s + 8 * tamMemoria
}.

(** Two states that differ in the text only. *)
Definition but_text (s s' : gst) : Prop := exists o, s' = add_g_out o s.
Lemma heap_text s s' bs : but_text s s' -> heap s bs -> heap s' bs.
Proof. intros [o ->] []. by constructor. Qed.

Lemma in_area_true s p : g_base s <= p -> p + 8 <= g_base s + tamMemoria -> in_area s p = true.
Proof. intros. unfold in_area, sizeof_header. by rewrite !(proj2 (Z.leb_le _ _)) by lia. Qed.
Lemma tam_of_run p s : in_area s p = true -> tam_of p s = Ret (h_tam (g_mem s) p) s.
Proof. intros H. unfold tam_of. by rewrite H. Qed.
Lemma prox_of_run p s : in_area s p = true -> prox_of p s = Ret (h_prox (g_mem s) p) s.
Proof. intros H. unfold prox_of. by rewrite H. Qed.
Lemma set_tam_run p v s : in_area s p = true -> set_tam p v s = Ret tt (set_g_mem (st32 (g_mem s) p v) s).
Proof. intros H. unfold set_tam. by rewrite H. Qed.
Lemma set_prox_run p v s : in_area s p = true -> set_prox p v s = Ret tt (set_g_mem (st32 (g_mem s) (p + 4) v) s).
Proof. intros H. unfold set_prox. by rewrite H. Qed.
Lemma set_mem_area s m p : in_area (set_g_mem m s) p = in_area s p.
Proof. done. Qed.
Lemma add_out_area s o p : in_area (add_g_out o s) p = in_area s p.
Proof. done. Qed.

(** One access of a header; [in_area] of its address is a hypothesis. *)
Ltac garea := rewrite ?set_mem_area, ?add_out_area; assumption.
Ltac gstep := first
  [ erewrite bind_Ret by (apply tam_of_run; garea) | erewrite bind_Ret by (apply prox_of_run; garea)
  | erewrite bind_Ret by (apply set_tam_run; garea) | erewrite bind_Ret by (apply set_prox_run; garea)
  | rewrite bind_run; unfold say at 1, modify at 1 | rewrite bind_run; unfold gets at 1 | rewrite bind_run; unfold modify at 1
  | rewrite tam_of_run by garea | rewrite prox_of_run by garea | rewrite set_tam_run by garea | rewrite set_prox_run by garea ];
  cbn [g_mem g_livres g_base g_out set_g_mem set_g_livres add_g_out].

Lemma heap_area s bs1 b bs2 : heap s (bs1 ++ b :: bs2) -> in_area s (end_of (g_base s) bs1) = true.
Proof.
  intros H. pose proof (h_seg _ _ H) as Hs. apply seg_app in Hs as [H1 H2]. cbn [seg] in H2. apply in_area_true; [|lia].
  pose proof (end_of_ge (g_base s) bs1 (seg_sized _ _ _ _ _ H1)). lia.
Qed.

(** ** Allocation *)

Definition fits (n : Z) (b : blk) : bool := (b_livre b && (n + sizeof_header <=? b_tam b))%bool.
Definition found (n ant at_ : Z) : G (option Z) := r ← aloca_found ant at_ n; mret (Some r).

(** The search goes past the blocks that do not fit. *)
Lemma aloca_search n pre : forall bs2 fuel ant a s, 0 <= n < 2 ^ 30 -> 0 < a -> g_base s <= a ->
  seg (g_base s + tamMemoria) (g_mem s) a (pre ++ bs2) 0 -> forallb (fun b => negb (fits n b)) pre = true -> (length pre <= fuel)%nat ->
  exists fuel', (fuel <= fuel' + length pre)%nat /\
    aloca_loop fuel ant (first_free a (pre ++ bs2) 0) n s = aloca_loop fuel' (last_free a pre ant) (first_free (end_of a pre) bs2 0) n s.
Proof.
  induction pre as [|b pre IH]; intros bs2 fuel ant a s Hn Ha Hb Hs Hf Hl; [exists fuel; split; [cbn; lia|done]|].
  cbn [app seg forallb first_free last_free end_of length] in *. destruct Hs as (S0 & S1 & S2 & S3 & S4). apply andb_prop in Hf as [Hf1 Hf2].
  assert (64 <= step b) by (unfold step, sizeof_header; lia). destruct (b_livre b) eqn:Eb.
  - destruct fuel as [|fuel]; [lia|]. cbn [aloca_loop]. rewrite (proj2 (Z.eqb_neq a 0)) by lia. assert (A : in_area s a = true) by (apply in_area_true; lia).
    gstep. rewrite S2. unfold fits in Hf1. rewrite Eb in Hf1. cbn [andb] in Hf1. apply negb_true_iff, Z.leb_gt in Hf1. unfold sizeof_header in Hf1.
    rewrite (u32_small (b_tam b)), (u32_small (n + sizeof_header)) by (unfold sizeof_header; lia). unfold sizeof_header at 1. rewrite (proj2 (Z.ltb_lt _ _)) by lia. gstep. rewrite S3 by done.
    destruct (IH bs2 fuel a (a + step b) s) as (f' & F1 & F2); [done|lia|lia|done|done|lia|]. exists f'. split; [lia|done].
  - destruct (IH bs2 fuel ant (a + step b) s) as (f' & F1 & F2); [done|lia|lia|done|done|lia|]. exists f'. split; [lia|done].
Qed.

Lemma heap_short s bs : heap s bs -> (length bs < nheaders)%nat.
Proof.
  intros H. pose proof (seg_sized _ _ _ _ _ (h_seg _ _ H)) as Hz. pose proof (end_of_ge (g_base s) bs Hz). rewrite (h_units _ _ H) in *.
  unfold nheaders, tamMemoria, sizeof_header in *. change (10240 / 8) with 1280. lia.
Qed.

(** The list after the link to [p] is replaced by one to [q]: the block before
    [p] in the list points to it, or the list starts with it. *)
Lemma relink lim m a pre k q d : seg lim m a pre k -> 0 <= q < 2 ^ 32 ->
  seg lim (if no_free pre then m else st32 m (last_free a pre d + 4) q) a pre q.
Proof. intros H Hq. destruct (no_free pre) eqn:E; [by eapply seg_no_free|by eapply seg_relink]. Qed.

Lemma st32_header m w v x : x + 8 <= w \/ w + 4 <= x -> h_tam (st32 m w v) x = h_tam m x /\ h_prox (st32 m w v) x = h_prox m x.
Proof. intros. unfold h_tam, h_prox. by rewrite !ld32_st32_ne by lia. Qed.
Lemma tam_set m p v : - 2 ^ 31 <= v < 2 ^ 31 -> h_tam (st32 m p v) p = v.
Proof. intros. unfold h_tam. rewrite ld32_st32_eq. unfold s32, u32. rewrite Zplus_mod_idemp_l. Z.to_euclidean_division_equations; lia. Qed.
Lemma prox_set m p v : 0 <= v < 2 ^ 32 -> h_prox (st32 m (p + 4) v) p = v.
Proof. intros. unfold h_prox. rewrite ld32_st32_eq. by apply u32_small. Qed.
Lemma tam_prox m p v : h_tam (st32 m (p + 4) v) p = h_tam m p.
Proof. unfold h_tam. by rewrite ld32_st32_ne by lia. Qed.
Lemma prox_tam m p v : h_prox (st32 m p v) p = h_prox m p.
Proof. unfold h_prox. by rewrite ld32_st32_ne by lia. Qed.

(** The memory after a block was split. *)
Definition split_mem (m : mem) (p ant n t aux : Z) : mem :=
  let novo := p + 8 * (n + 8) in
  st32 (st32 (st32 (st32 (st32 m (ant + 4) novo) (novo + 4) aux) novo (t - 8 - n)) p n) (p + 4) 0.

Lemma split_seg lim m a pre t post n : let p := end_of a pre in let novo := p + 8 * (n + 8) in let aux := first_free (p + 8 * (t + 8)) post 0 in
  seg lim m a (pre ++ mkBlk true t :: post) 0 -> 0 < a -> end_of p (mkBlk true t :: post) < 2 ^ 31 -> lim < 2 ^ 31 -> 0 <= n -> n + 8 < t -> novo + 8 <= lim -> 0 <= aux < 2 ^ 32 ->
  seg lim (split_mem m p (last_free a pre p) n t aux) a (pre ++ mkBlk false n :: mkBlk true (t - 8 - n) :: post) 0.
Proof.
  intros p novo aux Hs Ha He Hlim Hn Ht Hnv Hx. apply seg_app in Hs as [Hs1 Hs2]. cbn [first_free b_livre] in Hs1. fold p in Hs1, Hs2. cbn [seg b_tam b_livre] in Hs2.
  destruct Hs2 as (P0 & P1 & P2 & P3 & P4). unfold step, sizeof_header in P3, P4. cbn [b_tam] in P3, P4. fold aux in P3.
  pose proof (seg_sized _ _ _ _ _ Hs1) as Z1. pose proof (end_of_ge a pre Z1) as E1. fold p in E1.
  assert (Hq : no_free pre = true /\ last_free a pre p = p \/ no_free pre = false /\ a <= last_free a pre p /\ last_free a pre p + 64 <= p).
  { destruct (no_free pre) eqn:E; [left; split; [done|by apply last_free_no]|right; split; [done|by apply last_free_in]]. }
  set (q := last_free a pre p) in *. unfold split_mem. fold novo. apply seg_app. fold p. cbn [first_free b_livre b_tam step]. unfold step, sizeof_header. cbn [b_tam].
  change (p + 8 * (n + 8)) with novo. split.
  - eapply seg_frame with (m := if no_free pre then m else st32 m (q + 4) novo); [|apply relink with (k := p); [done|lia]]. fold p.
    eapply same_headers_trans; [|apply same_headers_st; right; lia]. eapply same_headers_trans; [|apply same_headers_st; right; lia].
    eapply same_headers_trans; [|apply same_headers_st; right; lia]. eapply same_headers_trans; [|apply same_headers_st; right; lia].
    destruct Hq as [[-> Eq]|[-> _]]; [rewrite Eq; apply same_headers_st; right; lia|by intros x _ _].
  - cbn [seg b_tam b_livre first_free]. unfold step, sizeof_header. cbn [b_tam].
    change (p + 8 * (n + 8)) with novo. replace (novo + 8 * (t - 8 - n + 8)) with (p + 8 * (t + 8)) by lia. fold aux. split_and!; try lia.
    + rewrite tam_prox, tam_set; [done|lia].
    + rewrite (proj1 (st32_header _ (p + 4) _ novo ltac:(lia))), (proj1 (st32_header _ p _ novo ltac:(lia))), tam_set; [done|lia].
    + intros _. rewrite (proj2 (st32_header _ (p + 4) _ novo ltac:(lia))), (proj2 (st32_header _ p _ novo ltac:(lia))), prox_tam, prox_set; [done|lia].
    + pose proof (seg_sized _ _ _ _ _ P4) as Z4. pose proof (end_of_ge (p + 8 * (t + 8)) post Z4). cbn [end_of] in He. unfold step, sizeof_header in He. cbn [b_tam] in He.
      eapply seg_frame; [|exact P4]. repeat (eapply same_headers_trans; [|apply same_headers_st; left; lia]). by intros x _ _.
Qed.

(** What the invariant says about a free block [t] behind [pre]. *)
Lemma heap_at s pre b post : heap s (pre ++ b :: post) -> let p := end_of (g_base s) pre in
  g_base s <= p /\ p + 8 <= g_base s + tamMemoria /\ 0 <= b_tam b < 2 ^ 31 /\ h_tam (g_mem s) p = b_tam b /\ sized pre /\ sized post /\
  p + 8 * (b_tam b + 8) + 64 * Z.of_nat (length post) <= g_base s + 8 * tamMemoria /\
  (b_livre b = true -> h_prox (g_mem s) p = first_free (p + 8 * (b_tam b + 8)) post 0).
Proof.
  intros H p. pose proof (h_seg _ _ H) as Hs. apply seg_app in Hs as [Hs1 Hs2]. fold p in Hs2. cbn [seg] in Hs2. unfold step, sizeof_header in Hs2. destruct Hs2 as (P0 & P1 & P2 & P3 & P4).
  pose proof (seg_sized _ _ _ _ _ Hs1) as Z1. pose proof (seg_sized _ _ _ _ _ P4) as Z4. pose proof (end_of_ge (g_base s) pre Z1). pose proof (end_of_ge (p + 8 * (b_tam b + 8)) post Z4).
  pose proof (h_units _ _ H) as U. rewrite end_of_app in U. fold p in U. cbn [end_of] in U. unfold step, sizeof_header in U. split_and!; try done; lia.
Qed.
Lemma first_free_range s pre b post a : heap s (pre ++ b :: post) -> g_base s <= a -> end_of a post <= g_base s + 8 * tamMemoria -> 0 <= first_free a post 0 < 2 ^ 31.
Proof.
  intros H Ha He. destruct (heap_at s pre b post H) as (_ & _ & _ & _ & _ & Z & _). pose proof (h_low _ _ H). pose proof (h_high _ _ H).
  destruct (no_free post) eqn:E; [rewrite first_free_no by done; lia|]. pose proof (first_free_in a post 0 Z E). lia.
Qed.

Lemma found_split s pre t post n : heap s (pre ++ mkBlk true t :: post) -> 0 <= n -> n + 8 < t ->
  let p := end_of (g_base s) pre in p + 8 * (n + 8) + 8 <= g_base s + tamMemoria ->
  exists s', aloca_found (last_free (g_base s) pre p) p n s = Ret (p + 8) s' /\ g_base s' = g_base s /\ heap s' (pre ++ mkBlk false n :: mkBlk true (t - 8 - n) :: post).
Proof.
  intros H Hn Ht p Hnv. destruct (heap_at _ _ _ _ H) as (B1 & B2 & B3 & B4 & Z1 & Z2 & B5 & B6). cbn [b_tam b_livre] in *. fold p in B1, B2, B4, B5, B6. specialize (B6 eq_refl).
  pose proof (h_low _ _ H) as L1. pose proof (h_high _ _ H) as L2. assert (A : in_area s p = true) by (by apply in_area_true). set (novo := p + 8 * (n + 8)) in *.
  assert (An : in_area s novo = true) by (apply in_area_true; lia). set (q := last_free (g_base s) pre p).
  assert (Hq : no_free pre = true /\ q = p \/ no_free pre = false /\ g_base s <= q /\ q + 64 <= p).
  { subst q. destruct (no_free pre) eqn:E; [left; split; [done|by apply last_free_no]|right; split; [done|by apply last_free_in]]. }
  assert (Aq : in_area s q = true) by (destruct Hq as [[_ ->]|[_ Hq]]; [done|apply in_area_true; lia]).
  assert (Pn : padd (padd p n) sizeof_header = novo) by (subst novo; unfold padd, sizeof_header, tamMemoria in *; rewrite (u32_small (p + 8 * n)) by lia; rewrite u32_small; lia).
  unfold aloca_found. gstep. gstep. rewrite B4. rewrite (proj2 (Z.eqb_neq _ _)) by (unfold sizeof_header; rewrite !u32_small by lia; lia). rewrite Pn.
  rewrite bind_assoc. gstep. rewrite bind_assoc. gstep. rewrite bind_assoc. gstep. rewrite bind_assoc. gstep. rewrite bind_assoc. gstep. gstep. rewrite B6.
  assert (Et : h_tam (st32 (st32 (g_mem s) (q + 4) novo) (novo + 4) (first_free (p + 8 * (t + 8)) post 0)) p = t).
  { rewrite (proj1 (st32_header _ (novo + 4) _ p ltac:(lia))). destruct Hq as [[_ ->]|[_ Hq]]; [by rewrite tam_prox|]. by rewrite (proj1 (st32_header _ (q + 4) _ p ltac:(lia))). }
  rewrite Et. unfold sizeof_header. gstep. rewrite (h_list _ _ H), first_free_app. fold p. cbn [first_free b_livre].
  assert (S' : seg (g_base s + tamMemoria) (split_mem (g_mem s) p q n t (first_free (p + 8 * (t + 8)) post 0)) (g_base s)
    (pre ++ mkBlk false n :: mkBlk true (t - 8 - n) :: post) 0).
  { apply split_seg; [apply H|lia|pose proof (h_units _ _ H) as U; rewrite end_of_app in U; rewrite U; unfold tamMemoria in *; lia|unfold tamMemoria in *; lia|done|done|done|].
    pose proof (h_units _ _ H) as U. rewrite end_of_app in U. fold p in U. cbn [end_of] in U. unfold step, sizeof_header in U. cbn [b_tam] in U.
    fold p. enough (0 <= first_free (p + 8 * (t + 8)) post 0 < 2 ^ 31) by lia. eapply first_free_range; [exact H|lia|lia]. }
  assert (U' : end_of (g_base s) (pre ++ mkBlk false n :: mkBlk true (t - 8 - n) :: post) = g_base s + 8 * tamMemoria).
  { rewrite <-(h_units _ _ H), !end_of_app. fold p. cbn [end_of]. f_equal. unfold step, sizeof_header. cbn [b_tam]. lia. }
  destruct Hq as [[En Eq]|(En & Q1 & Q2)].
  - rewrite (first_free_no (g_base s) pre), Z.eqb_refl by done. rewrite bind_assoc. gstep. gstep. gstep. rewrite u32_small by lia.
    eexists. split; [reflexivity|]. split; [done|]. constructor; cbn [g_base g_mem g_livres set_g_livres set_g_mem add_g_out]; [done|done| |exact S'|exact U'].
    rewrite first_free_app, (first_free_no (g_base s) pre) by done. fold p. cbn [first_free b_livre]. unfold step, sizeof_header. cbn [b_tam]. rewrite Eq.
    rewrite prox_tam, (proj2 (st32_header _ novo _ p ltac:(lia))), (proj2 (st32_header _ (novo + 4) _ p ltac:(lia))), prox_set by lia. done.
  - pose proof (first_free_in (g_base s) pre p Z1 En) as [F1 F2]. fold p in F2. rewrite (proj2 (Z.eqb_neq _ _)) by lia. rewrite ret_bind. gstep. rewrite u32_small by lia.
    eexists. split; [reflexivity|]. split; [done|]. constructor; cbn [g_base g_mem g_livres set_g_livres set_g_mem add_g_out]; [done|done| |exact S'|exact U'].
    rewrite (h_list _ _ H), !first_free_app. by apply first_free_some.
Qed.

Lemma found_exact s pre t post n : heap s (pre ++ mkBlk true t :: post) -> 0 <= n -> n + 8 = t ->
  let p := end_of (g_base s) pre in exists s', aloca_found (last_free (g_base s) pre p) p n s = Ret (p + 8) s' /\ g_base s' = g_base s /\
  (if (no_free pre && negb (no_free post))%bool then g_livres s' = 0 else heap s' (pre ++ mkBlk false t :: post)).
Proof.
  intros H Hn Ht p. destruct (heap_at _ _ _ _ H) as (B1 & B2 & B3 & B4 & Z1 & Z2 & B5 & B6). cbn [b_tam b_livre] in *. fold p in B1, B2, B4, B5, B6. specialize (B6 eq_refl).
  pose proof (h_low _ _ H) as L1. pose proof (h_high _ _ H) as L2. assert (A : in_area s p = true) by (by apply in_area_true). set (q := last_free (g_base s) pre p).
  assert (Hq : no_free pre = true /\ q = p \/ no_free pre = false /\ g_base s <= q /\ q + 64 <= p).
  { subst q. destruct (no_free pre) eqn:E; [left; split; [done|by apply last_free_no]|right; split; [done|by apply last_free_in]]. }
  assert (Aq : in_area s q = true) by (destruct Hq as [[_ ->]|[_ Hq]]; [done|apply in_area_true; lia]).
  pose proof (h_units _ _ H) as U. rewrite end_of_app in U. fold p in U. cbn [end_of] in U. unfold step, sizeof_header in U. cbn [b_tam] in U.
  assert (Hk : 0 <= first_free (p + 8 * (t + 8)) post 0 < 2 ^ 31) by (eapply first_free_range; [exact H|lia|lia]). set (k := first_free (p + 8 * (t + 8)) post 0) in *.
  pose proof (h_seg _ _ H) as Hs. apply seg_app in Hs as [Hs1 Hs2]. fold p in Hs1, Hs2. cbn [seg b_livre b_tam first_free] in Hs1, Hs2. unfold step, sizeof_header in Hs2. cbn [b_tam] in Hs2.
  destruct Hs2 as (_ & _ & _ & _ & Hs2).
  unfold aloca_found. gstep. gstep. rewrite B4. rewrite (proj2 (Z.eqb_eq _ _)) by (unfold sizeof_header; f_equal; lia).
  rewrite bind_assoc. gstep. rewrite B6. rewrite bind_assoc. gstep. gstep. gstep. rewrite (h_list _ _ H), first_free_app. fold p. cbn [first_free b_livre].
  destruct Hq as [[En Eq]|(En & Q1 & Q2)].
  - rewrite (first_free_no _ pre), Z.eqb_refl by done. rewrite bind_assoc. gstep. rewrite prox_set by lia. gstep. gstep. unfold sizeof_header. rewrite u32_small by lia.
    rewrite En. cbn [andb]. eexists. split; [reflexivity|]. split; [done|]. destruct (no_free post) eqn:Ep; cbn [negb]; [|done].
    constructor; cbn [g_base g_mem g_livres set_g_livres set_g_mem add_g_out]; [done|done| | |].
    + rewrite first_free_app, (first_free_no _ pre) by done. cbn [first_free b_livre]. by rewrite first_free_no.
    + apply seg_app. fold p. cbn [seg b_livre b_tam first_free]. unfold step, sizeof_header. cbn [b_tam]. rewrite Eq. split.
      * eapply seg_frame; [|eapply seg_no_free; [done|exact Hs1]]. fold p. repeat (eapply same_headers_trans; [|apply same_headers_st; right; lia]). by intros x _ _.
      * rewrite !tam_prox. split_and!; [done|lia|lia|done|done|].
        eapply seg_frame; [|exact Hs2]. repeat (eapply same_headers_trans; [|apply same_headers_st; left; lia]). by intros x _ _.
    + rewrite end_of_app. cbn [end_of]. unfold step, sizeof_header. done.
  - pose proof (first_free_in (g_base s) pre p Z1 En) as [F1 F2]. fold p in F2. rewrite (proj2 (Z.eqb_neq _ _)) by lia. rewrite ret_bind. gstep. unfold sizeof_header. rewrite u32_small by lia.
    rewrite En. cbn [andb]. eexists. split; [reflexivity|]. split; [done|].
    constructor; cbn [g_base g_mem g_livres set_g_livres set_g_mem add_g_out]; [done|done| | |].
    + rewrite (h_list _ _ H), !first_free_app. by apply first_free_some.
    + apply seg_app. fold p. cbn [seg b_livre b_tam first_free]. unfold step, sizeof_header. cbn [b_tam]. fold k. split.
      * eapply seg_frame with (m := st32 (g_mem s) (q + 4) k); [|eapply seg_relink; [exact Hs1|done|lia]]. fold p.
        repeat (eapply same_headers_trans; [|apply same_headers_st; right; lia]). by intros x _ _.
      * rewrite !tam_prox, (proj1 (st32_header _ (q + 4) _ p ltac:(lia))). split_and!; [done|lia|lia|done|done|].
        eapply seg_frame; [|exact Hs2]. repeat (eapply same_headers_trans; [|apply same_headers_st; left; lia]). by intros x _ _.
    + rewrite end_of_app. cbn [end_of]. unfold step, sizeof_header. done.
Qed.

(** The blocks that a free block of size [t] becomes. *)
Definition allocated (n t : Z) : list blk :=
  if t =? n + sizeof_header then [mkBlk false t] else [mkBlk false n; mkBlk true (t - sizeof_header - n)].

Lemma meu_aloca_finds s pre t post n : heap s (pre ++ mkBlk true t :: post) -> 0 <= n < 2 ^ 30 ->
  forallb (fun b => negb (fits n b)) pre = true -> n + 8 <= t ->
  meu_aloca n s = found n (last_free (g_base s) pre (end_of (g_base s) pre)) (end_of (g_base s) pre) s.
Proof.
  intros H Hn Hf Ht. pose proof (heap_short _ _ H) as Hl. rewrite length_app in Hl. cbn [length] in Hl. pose proof (h_low _ _ H). destruct (heap_at _ _ _ _ H) as (B1 & B2 & B3 & B4 & Z1 & _).
  cbn [b_tam] in *. unfold meu_aloca. rewrite bind_run. unfold gets at 1. rewrite (h_list _ _ H).
  edestruct (aloca_search n pre (mkBlk true t :: post) nheaders (first_free (g_base s) (pre ++ mkBlk true t :: post) 0) (g_base s) s) as (f & F1 & ->);
    [done|lia|lia|apply H|done|lia|]. destruct f as [|f]; [lia|]. cbn [first_free b_livre]. set (p := end_of (g_base s) pre) in *.
  cbn [aloca_loop]. rewrite (proj2 (Z.eqb_neq p 0)) by lia. assert (A : in_area s p = true) by (by apply in_area_true). gstep. rewrite B4.
  unfold sizeof_header. rewrite !u32_small by lia. rewrite (proj2 (Z.ltb_ge _ _)) by lia. unfold found. f_equal. f_equal.
  destruct (no_free pre) eqn:E; [|by apply last_free_some]. rewrite !last_free_no by done. rewrite first_free_app, first_free_no by done. done.
Qed.

(** C33: [meu_aloca] is first fit: on a well-formed area it takes the first free
    block that is large enough, whole if it fits exactly and otherwise its
    beginning, with the rest as a new free block, returns the address behind its
    header and leaves the area well formed and every other block as it was.
    The condition on exact fits excludes the first block of a longer list, which
    the code handles wrongly, and the other one blocks beyond the end of the
    area. *)
Theorem meu_aloca_first_fit s pre t post n : let p := end_of (g_base s) pre in
  heap s (pre ++ mkBlk true t :: post) -> 0 <= n < 2 ^ 30 -> forallb (fun b => negb (fits n b)) pre = true -> n + sizeof_header <= t ->
  (n + sizeof_header < t -> p + 8 * (n + 8) + 8 <= g_base s + tamMemoria) -> (t = n + sizeof_header -> no_free pre = true -> no_free post = true) ->
  exists s', meu_aloca n s = Ret (Some (p + sizeof_header)) s' /\ heap s' (pre ++ allocated n t ++ post).
Proof.
  intros p H Hn Hf Ht Ha Hx. unfold sizeof_header in *. rewrite (meu_aloca_finds _ _ _ _ _ H Hn Hf Ht). unfold found, allocated, sizeof_header. fold p. destruct (t =? n + 8) eqn:E.
  - apply Z.eqb_eq in E. destruct (found_exact s pre t post n H) as (s' & R & _ & S'); [lia|lia|]. fold p in R. rewrite (bind_Ret _ _ _ _ _ R). exists s'. split; [done|].
    destruct (no_free pre) eqn:E1; [|exact S']. rewrite (Hx E eq_refl) in S'. exact S'.
  - apply Z.eqb_neq in E. destruct (found_split s pre t post n H) as (s' & R & _ & S'); [lia|lia|apply Ha; lia|]. fold p in R. rewrite (bind_Ret _ _ _ _ _ R). exists s'. split; [done|exact S'].
Qed.

(** Without a block that is large enough there is no value, and nothing changes. *)
Lemma meu_aloca_none s bs n : heap s bs -> 0 <= n < 2 ^ 30 -> forallb (fun b => negb (fits n b)) bs = true -> exists s', meu_aloca n s = Ret None s' /\ heap s' bs.
Proof.
  intros H Hn Hf. pose proof (heap_short _ _ H) as Hl. pose proof (h_low _ _ H). unfold meu_aloca. rewrite bind_run. unfold gets at 1. rewrite (h_list _ _ H).
  edestruct (aloca_search n bs [] nheaders (first_free (g_base s) bs 0) (g_base s) s) as (f & F1 & F2); [done|lia|lia|rewrite app_nil_r; apply H|done|lia|].
  rewrite app_nil_r in F2. rewrite F2. cbn [first_free]. eexists. split; [by destruct f|]. eapply heap_text; [by eexists|done].
Qed.

(** An exact fit at the head of a longer list loses the rest of the list: the
    link of the block is cleared before the head is set to it. *)
Lemma meu_aloca_loses_list s pre t post n : heap s (pre ++ mkBlk true t :: post) -> 0 <= n < 2 ^ 30 -> no_free pre = true -> no_free post = false -> t = n + 8 ->
  exists r s', meu_aloca n s = Ret (Some r) s' /\ g_livres s' = 0.
Proof.
  intros H Hn Hp Hq Ht. rewrite (meu_aloca_finds _ _ _ _ _ H Hn); [| |lia].
  - unfold found. destruct (found_exact s pre t post n H) as (s' & R & _ & S'); [lia|lia|]. rewrite (bind_Ret _ _ _ _ _ R). rewrite Hp, Hq in S'. by eexists _, s'.
  - apply forallb_forall. intros b Hb. unfold no_free in Hp. rewrite forallb_forall in Hp. specialize (Hp b Hb). unfold fits. by destruct (b_livre b).
Qed.

(** ** Release *)

(** A free block in front of the others, joined with the next one if it is free. *)
Definition joined (b : blk) (bs : list blk) : list blk :=
  match bs with
  | c :: bs' => if b_livre c then mkBlk true (sizeof_header + b_tam b + b_tam c) :: bs' else b :: bs
  | [] => [b]
  end.
Definition head_free (bs : list blk) : bool := match bs with b :: _ => b_livre b | [] => false end.

Lemma joined_end a t bs : end_of a (joined (mkBlk true t) bs) = end_of a (mkBlk true t :: bs).
Proof. unfold joined. destruct bs as [|c bs]; [done|]. destruct (b_livre c); [|done]. cbn [end_of]. f_equal. unfold step, sizeof_header. cbn [b_tam]. lia. Qed.

Lemma first_free_adjacent a bs : sized bs -> no_free bs = false -> (first_free a bs 0 = a <-> head_free bs = true).
Proof.
  intros Hz Hn. destruct bs as [|b bs]; [done|]. cbn [first_free head_free]. destruct (b_livre b) eqn:E; [done|]. split; [|done]. intros H. exfalso.
  inversion_clear Hz as [|? ? Hb Hz']. cbn in Hn. rewrite E in Hn. pose proof (first_free_in (a + step b) bs 0 Hz' Hn). unfold step, sizeof_header in *. lia.
Qed.

Lemma first_free_units a bs k : no_free bs = false -> exists d, first_free a bs k = a + 8 * d.
Proof.
  revert a. induction bs as [|b bs IH]; intros a Hn; [done|]. cbn in Hn |- *. destruct (b_livre b); [exists 0; lia|]. destruct (IH (a + step b) Hn) as [d Hd].
  exists (b_tam b + 8 + d). rewrite Hd. unfold step, sizeof_header. lia.
Qed.

(** The headers after two neighbours were joined. *)
Lemma join_seg lim m a pre t t2 post k2 : let p := end_of a pre in
  seg lim m a (pre ++ mkBlk true t :: mkBlk true t2 :: post) 0 -> 0 < a -> 8 + t + t2 < 2 ^ 31 -> k2 = h_prox m (p + 8 * (t + 8)) -> 0 <= k2 < 2 ^ 32 ->
  seg lim (st32 (st32 m (p + 4) k2) p (8 + t + t2)) a (pre ++ mkBlk true (8 + t + t2) :: post) 0.
Proof.
  intros p Hs Ha Ht Hk Hr. apply seg_app in Hs as [Hs1 Hs2]. fold p in Hs1, Hs2. cbn [seg b_livre b_tam first_free] in Hs1, Hs2. unfold step, sizeof_header in Hs2. cbn [b_tam] in Hs2.
  destruct Hs2 as (P0 & P1 & P2 & P3 & Q0 & Q1 & Q2 & Q3 & Q4). pose proof (seg_sized _ _ _ _ _ Hs1) as Z1. pose proof (end_of_ge a pre Z1). fold p in H.
  apply seg_app. fold p. cbn [seg b_livre b_tam first_free]. unfold step, sizeof_header. cbn [b_tam].
  replace (p + 8 * (8 + t + t2 + 8)) with (p + 8 * (t + 8) + 8 * (t2 + 8)) by lia. split.
  - eapply seg_frame; [|exact Hs1]. fold p. repeat (eapply same_headers_trans; [|apply same_headers_st; right; lia]). by intros x _ _.
  - split_and!; [done|lia|lia|rewrite tam_set; lia| |].
    + intros _. rewrite prox_tam, prox_set by lia. rewrite Hk. by apply Q3.
    + eapply seg_frame; [|exact Q4]. repeat (eapply same_headers_trans; [|apply same_headers_st; left; lia]). by intros x _ _.
Qed.

(** [merge] joins a free block with the next free one exactly if they touch. *)
Lemma merge_run s pre t post : let p := end_of (g_base s) pre in heap s (pre ++ mkBlk true t :: post) -> no_free post = false ->
  exists s', merge p (first_free (p + 8 * (t + 8)) post 0) s = Ret (head_free post) s' /\ g_base s' = g_base s /\ heap s' (pre ++ joined (mkBlk true t) post).
Proof.
  intros p H Hn. destruct (heap_at _ _ _ _ H) as (B1 & B2 & B3 & B4 & Z1 & Z2 & B5 & B6). cbn [b_tam b_livre] in *. fold p in B1, B2, B4, B5, B6. specialize (B6 eq_refl).
  pose proof (h_low _ _ H) as L1. pose proof (h_high _ _ H) as L2. assert (A : in_area s p = true) by (by apply in_area_true).
  pose proof (h_units _ _ H) as U. rewrite end_of_app in U. fold p in U. cbn [end_of] in U. unfold step, sizeof_header in U. cbn [b_tam] in U.
  set (e := p + 8 * (t + 8)) in *. destruct (first_free_in e post 0 Z2 Hn) as [F1 F2]. set (k := first_free e post 0) in *.
  destruct (first_free_units e post 0 Hn) as [d' Hd']. fold k in Hd'. set (d := d' + t + 8). assert (Hd : k = p + 8 * d) by lia.
  unfold merge. gstep. rewrite B4. assert (Ed : pdiff k p = d) by (unfold pdiff, sizeof_header; rewrite s32_small by lia; Z.to_euclidean_division_equations; lia). rewrite Ed.
  destruct (first_free_adjacent e post Z2 Hn) as [J1 J2]. fold k in J1, J2. unfold sizeof_header at 1. destruct (head_free post) eqn:Eh.
  - specialize (J2 eq_refl). rewrite u32_small by lia. rewrite (proj2 (Z.eqb_eq _ _)) by lia. destruct post as [|[l t2] post]; [done|]. cbn in Eh. subst l.
    replace (pre ++ mkBlk true t :: mkBlk true t2 :: post) with ((pre ++ [mkBlk true t]) ++ mkBlk true t2 :: post) in H by (by rewrite <-app_assoc).
    destruct (heap_at _ _ _ _ H) as (C1 & C2 & C3 & C4 & _ & C5 & C6 & C7). rewrite end_of_app in *. fold p in C1, C2, C4, C6, C7. cbn [end_of] in *. unfold step, sizeof_header in C1, C2, C4, C6, C7.
    cbn [b_tam b_livre] in *. fold e in C1, C2, C4, C6, C7. specialize (C7 eq_refl). rewrite J2. assert (Ae : in_area s e = true) by (by apply in_area_true).
    gstep. gstep. gstep. rewrite tam_prox, B4. gstep. rewrite (proj1 (st32_header _ (p + 4) _ e ltac:(lia))), C4. gstep.
    rewrite <-app_assoc in H. cbn [app] in H.
    assert (Hk2 : 0 <= h_prox (g_mem s) e < 2 ^ 31).
    { rewrite C7. destruct (no_free post) eqn:E; [rewrite first_free_no by done; lia|]. pose proof (first_free_in (e + 8 * (t2 + 8)) post 0 C5 E). unfold step, sizeof_header in U. cbn [b_tam] in U. lia. }
    eexists. split; [reflexivity|]. split; [done|]. unfold joined. cbn [b_livre b_tam]. constructor; cbn [g_base g_mem g_livres set_g_livres set_g_mem add_g_out]; [done|done| | |].
    + rewrite (h_list _ _ H), !first_free_app. done.
    + unfold sizeof_header. apply join_seg; [apply H|lia|lia|done|lia].
    + rewrite <-(h_units _ _ H), !end_of_app. cbn [end_of]. f_equal. unfold step, sizeof_header. cbn [b_tam]. lia.
  - assert (k <> e) by (intros E; apply J1 in E; congruence). rewrite u32_small by lia. rewrite (proj2 (Z.eqb_neq _ _)) by lia.
    exists s. split_and!; [done|done|]. unfold joined. destruct post as [|[l t2] post]; [done|]. cbn in Eh. by subst l.
Qed.

(** The blocks after the one behind [pre] became free. *)
Fixpoint released (pre : list blk) (bs : list blk) : list blk :=
  match pre with
  | [] => bs
  | [x] => if b_livre x then joined x bs else x :: bs
  | x :: pre' => x :: released pre' bs
  end.
Lemma released_snoc pre x bs : released (pre ++ [x]) bs = pre ++ if b_livre x then joined x bs else x :: bs.
Proof. induction pre as [|y pre IH]; [done|]. cbn [app]. rewrite <-IH. cbn [released]. destruct (pre ++ [x]) eqn:E; [by apply app_nil in E as [_ ?]|done]. Qed.

(** The headers after a block was put into the list. *)
Lemma link_seg lim m a pre t post q : let p := end_of a pre in let k := first_free (p + 8 * (t + 8)) post 0 in
  seg lim m a (pre ++ mkBlk false t :: post) 0 -> 0 < a -> p < 2 ^ 31 -> 0 <= k < 2 ^ 31 -> (no_free pre = false -> q = last_free a pre q) ->
  seg lim (if no_free pre then st32 m (p + 4) k else st32 (st32 m (p + 4) k) (q + 4) p) a (pre ++ mkBlk true t :: post) 0.
Proof.
  intros p k Hs Ha Hp Hk Hq. apply seg_app in Hs as [Hs1 Hs2]. fold p in Hs1, Hs2. cbn [seg b_livre b_tam first_free] in Hs1, Hs2. unfold step, sizeof_header in Hs1, Hs2. cbn [b_tam] in Hs1, Hs2. fold k in Hs1.
  destruct Hs2 as (P0 & P1 & P2 & _ & P4). pose proof (seg_sized _ _ _ _ _ Hs1) as Z1. pose proof (end_of_ge a pre Z1) as E1. fold p in E1.
  apply seg_app. fold p. cbn [seg b_livre b_tam first_free]. unfold step, sizeof_header. cbn [b_tam]. fold k. destruct (no_free pre) eqn:En.
  - split; [eapply seg_frame; [apply same_headers_st; right; fold p; lia|]; by eapply seg_no_free|]. split_and!; [done|lia|lia|by rewrite tam_prox|intros _; apply prox_set; lia|].
    eapply seg_frame; [|exact P4]. apply same_headers_st. left. lia.
  - specialize (Hq eq_refl). destruct (last_free_in a pre q Z1 En) as [Q1 Q2]. rewrite <-Hq in Q1, Q2. fold p in Q2. split_and!; [|done|lia|lia| | |].
    + rewrite Hq. eapply seg_relink; [|done|lia]. eapply seg_frame; [|exact Hs1]. apply same_headers_st. right. fold p. lia.
    + by rewrite (proj1 (st32_header _ (q + 4) _ p ltac:(lia))), tam_prox.
    + intros _. rewrite (proj2 (st32_header _ (q + 4) _ p ltac:(lia))). apply prox_set. lia.
    + eapply seg_frame; [|exact P4]. repeat (eapply same_headers_trans; [|apply same_headers_st; left; lia]). by intros x _ _.
Qed.

(** The search for the place of a block that is put back: past the free blocks
    before it, to the first one behind it. *)
Lemma libera_search p k pre : forall fuel ant a s, 0 < a -> g_base s <= a -> end_of a pre <= p ->
  seg (g_base s + tamMemoria) (g_mem s) a pre k -> p < k -> (length pre < fuel)%nat ->
  libera_loop fuel p ant (first_free a pre k) s = Ret (last_free a pre ant, k) s.
Proof.
  induction pre as [|b pre IH]; intros fuel ant a s Ha Hb He Hs Hk Hl; (destruct fuel as [|fuel]; [cbn in Hl; lia|]).
  - cbn [first_free last_free libera_loop]. by rewrite (proj2 (Z.ltb_ge _ _)) by lia.
  - pose proof (seg_sized _ _ _ _ _ Hs) as Hz. inversion_clear Hz as [|? ? Hb' Hz']. cbn [seg first_free last_free length end_of] in *. destruct Hs as (S0 & S1 & S2 & S3 & S4).
    pose proof (end_of_ge (a + step b) pre Hz'). assert (64 <= step b) by (unfold step, sizeof_header; lia). destruct (b_livre b) eqn:Eb; [|apply IH; [lia|lia|done|done|done|lia]].
    cbn [libera_loop]. rewrite (proj2 (Z.ltb_lt _ _)) by lia. assert (A : in_area s a = true) by (apply in_area_true; lia). gstep. rewrite S3 by done. apply IH; [lia|lia|done|done|done|lia].
Qed.

Lemma seg_last lim m a pre k d : seg lim m a pre k -> no_free pre = false -> h_prox m (last_free a pre d) = k.
Proof.
  revert a d. induction pre as [|b pre IH]; intros a d H Hn; [done|]. cbn [seg last_free] in *. destruct H as (_ & _ & _ & H3 & H4). destruct (no_free pre) eqn:E; [|by apply IH].
  rewrite last_free_no by done. cbn in Hn. unfold no_free in E. rewrite E, andb_true_r in Hn. destruct (b_livre b); [|done]. rewrite H3 by done. by apply first_free_no.
Qed.

(** A list with a free block, cut at the last one. *)
Lemma last_free_split a pre d : no_free pre = false -> exists pre1 t0 rest, pre = pre1 ++ mkBlk true t0 :: rest /\ no_free rest = true /\ last_free a pre d = end_of a pre1.
Proof.
  revert a d. induction pre as [|b pre IH]; intros a d H; [done|]. destruct (no_free pre) eqn:E.
  - cbn in H. unfold no_free in E. rewrite E, andb_true_r in H. destruct b as [[] t0]; [|done]. exists [], t0, pre. split_and!; [done|done|]. cbn. by apply last_free_no.
  - destruct (IH (a + step b) (if b_livre b then a else d) eq_refl) as (pre1 & t0 & rest & -> & Hr & Hl). exists (b :: pre1), t0, rest. split_and!; [done|done|exact Hl].
Qed.

Lemma released_no pre bs : (forall pre' x, pre = pre' ++ [x] -> b_livre x = false) -> released pre bs = pre ++ bs.
Proof.
  intros H. destruct pre as [|y pre] using rev_ind; [done|]. rewrite released_snoc, (H _ _ eq_refl), <-app_assoc. done.
Qed.
Lemma no_free_last pre x : no_free (pre ++ [x]) = true -> b_livre x = false.
Proof. intros H. unfold no_free in H. rewrite forallb_app in H. apply andb_prop in H as [_ H]. cbn in H. by destruct (b_livre x). Qed.
Lemma joined_twice t0 t post : joined (mkBlk true (sizeof_header + t0 + t)) post = joined (mkBlk true t0) (joined (mkBlk true t) post).
Proof. unfold joined. destruct post as [|[[] t2] post]; cbn [b_livre b_tam]; [done| |done]. f_equal. f_equal. lia. Qed.

Lemma no_free_app xs ys : no_free (xs ++ ys) = (no_free xs && no_free ys)%bool.
Proof. unfold no_free. apply forallb_app. Qed.

(** After the block is in the list: the two attempts to merge. *)
Lemma merges_run s pre1 t0 rest t post : let p := end_of (g_base s) (pre1 ++ mkBlk true t0 :: rest) in let ant := end_of (g_base s) pre1 in
  let k := first_free (p + 8 * (t + 8)) post 0 in
  heap s ((pre1 ++ mkBlk true t0 :: rest) ++ mkBlk true t :: post) -> no_free rest = true -> no_free post = false ->
  exists s', (b ← merge ant p; (if b : bool then merge ant k else merge p k) ;; mret tt) s = Ret tt s' /\
    heap s' (released (pre1 ++ mkBlk true t0 :: rest) (joined (mkBlk true t) post)).
Proof.
  intros p ant k H Hr Hn. assert (Ep : p = first_free (ant + 8 * (t0 + 8)) (rest ++ mkBlk true t :: post) 0).
  { rewrite first_free_app, first_free_no by done. cbn [first_free b_livre]. unfold p. rewrite end_of_app. reflexivity. }
  assert (H' := H). rewrite <-app_assoc in H'. cbn [app] in H'.
  destruct (merge_run s pre1 t0 (rest ++ mkBlk true t :: post) H') as (s1 & R1 & B1 & H1); [rewrite no_free_app; cbn; by rewrite andb_false_r|]. fold ant in R1. rewrite <-Ep in R1.
  rewrite (bind_Ret _ _ _ _ _ R1). destruct rest as [|x rest].
  - cbn [app head_free b_livre joined b_tam] in *. destruct (merge_run s1 pre1 (sizeof_header + t0 + t) post H1 Hn) as (s2 & R2 & B2 & H2). rewrite B1 in R2. fold ant in R2.
    replace (first_free (ant + 8 * (sizeof_header + t0 + t + 8)) post 0) with k in R2.
    2: { unfold k, p. rewrite end_of_app. cbn [end_of]. fold ant. f_equal. unfold step, sizeof_header. cbn [b_tam]. lia. }
    rewrite (bind_Ret _ _ _ _ _ R2). exists s2. split; [done|]. rewrite released_snoc. cbn [b_livre]. by rewrite <-joined_twice.
  - cbn [app head_free joined] in *. assert (Ex : b_livre x = false) by (cbn in Hr; by destruct (b_livre x)). rewrite Ex in *.
    assert (H1' : heap s1 ((pre1 ++ mkBlk true t0 :: x :: rest) ++ mkBlk true t :: post)) by (rewrite <-app_assoc; exact H1).
    destruct (merge_run s1 _ t post H1' Hn) as (s2 & R2 & B2 & H2). rewrite B1 in R2. fold p k in R2. rewrite (bind_Ret _ _ _ _ _ R2). exists s2. split; [done|].
    destruct (List.exists_last (l := x :: rest)) as (r' & y & Ey); [done|]. assert (Ly : b_livre y = false) by (apply (no_free_last r'); by rewrite <-Ey).
    rewrite released_no; [done|]. intros pre' z E. rewrite Ey in E. change (mkBlk true t0 :: r' ++ [y]) with ((mkBlk true t0 :: r') ++ [y]) in E.
    rewrite app_assoc in E. by apply app_inj_tail in E as [_ <-].
Qed.

(** What the invariant says when there is a free block behind the block [b]. *)
Lemma heap_behind s pre b post : heap s (pre ++ b :: post) -> no_free post = false ->
  let k := first_free (end_of (g_base s) pre + 8 * (b_tam b + 8)) post 0 in end_of (g_base s) pre < k < 2 ^ 31.
Proof.
  intros H Hn k. destruct (heap_at _ _ _ _ H) as (B1 & B2 & B3 & _ & _ & Z2 & _ & _). pose proof (h_high _ _ H). pose proof (h_units _ _ H) as U. rewrite end_of_app in U. cbn [end_of] in U.
  unfold step, sizeof_header in U. destruct (first_free_in (end_of (g_base s) pre + 8 * (b_tam b + 8)) post 0 Z2 Hn) as [F1 F2]. fold k in F1, F2. lia.
Qed.

(** [meu_libera] takes the address of any block in use that has a free block
    somewhere behind it, puts it into the list at its place, joins it with the
    neighbours that are free, and leaves the area well formed and every other
    block as it was. *)
Theorem meu_libera_releases s pre t post : heap s (pre ++ mkBlk false t :: post) -> no_free post = false ->
  exists s', meu_libera (end_of (g_base s) pre + sizeof_header) s = Ret tt s' /\ heap s' (released pre (joined (mkBlk true t) post)).
Proof.
  intros H Hn. set (p := end_of (g_base s) pre). destruct (heap_at _ _ _ _ H) as (B1 & B2 & B3 & B4 & Z1 & Z2 & B5 & _). cbn [b_tam b_livre] in *. fold p in B1, B2, B4, B5.
  pose proof (h_low _ _ H) as L1. pose proof (h_high _ _ H) as L2. pose proof (heap_behind _ _ _ _ H Hn) as K. cbn [b_tam] in K. fold p in K. set (k := first_free (p + 8 * (t + 8)) post 0) in *.
  assert (A : in_area s p = true) by (by apply in_area_true). unfold meu_libera. replace (u32 (p + sizeof_header - sizeof_header)) with p by (rewrite u32_small; unfold sizeof_header; lia).
  rewrite bind_run. unfold gets at 1. rewrite (h_list _ _ H), first_free_app. fold p. cbn [first_free b_livre]. unfold step, sizeof_header. cbn [b_tam]. fold k.
  pose proof (link_seg _ _ _ pre t post (last_free (g_base s) pre 0) (h_seg _ _ H) ltac:(lia) ltac:(fold p; lia) ltac:(fold p k; lia) ltac:(intros; by apply last_free_some)) as S1.
  fold p k in S1. assert (U1 : end_of (g_base s) (pre ++ mkBlk true t :: post) = g_base s + 8 * tamMemoria) by (rewrite <-(h_units _ _ H), !end_of_app; done). destruct (no_free pre) eqn:En.
  - rewrite first_free_no, !s32_small by (done || lia). rewrite (proj2 (Z.ltb_lt _ _)) by lia. gstep. gstep. gstep. gstep. gstep. rewrite prox_set by lia.
    match goal with |- context [mbind _ (merge p k) ?s0] => set (s1 := s0) end.
    assert (H1 : heap s1 (pre ++ mkBlk true t :: post)).
    { constructor; [exact L1|exact L2| |exact S1|exact U1]. cbn. by rewrite first_free_app, first_free_no. }
    destruct (merge_run s1 pre t post H1 Hn) as (s' & R & _ & H'). change (g_base s1) with (g_base s) in R. fold p k in R. rewrite (bind_Ret _ _ _ _ _ R). exists s'. split; [done|].
    rewrite released_no; [done|]. intros pre' x E. apply (no_free_last pre'). by rewrite <-E.
  - destruct (first_free_in (g_base s) pre k Z1 En) as [F1 F2]. fold p in F2. rewrite !s32_small by lia. rewrite (proj2 (Z.ltb_ge _ _)) by lia.
    pose proof (h_seg _ _ H) as Hs. apply seg_app in Hs as [Hs1 _]. fold p in Hs1. cbn [first_free b_livre] in Hs1. unfold step, sizeof_header in Hs1. cbn [b_tam] in Hs1. fold k in Hs1.
    pose proof (heap_short _ _ H) as Hl. rewrite length_app in Hl. rewrite (bind_Ret _ _ _ _ _ (libera_search p k pre (S nheaders) _ (g_base s) s ltac:(lia) ltac:(lia) ltac:(fold p; lia) Hs1 ltac:(lia) ltac:(lia))).
    cbv iota beta. rewrite (last_free_some _ _ _ 0 En). set (q := last_free (g_base s) pre 0) in *. destruct (last_free_in (g_base s) pre 0 Z1 En) as [Q1 Q2]. fold p q in Q1, Q2.
    assert (Aq : in_area s q = true) by (apply in_area_true; lia). gstep. assert (Eq : h_prox (g_mem s) q = k) by (by eapply seg_last). rewrite Eq. gstep. gstep. gstep. gstep.
    match goal with |- context [mbind _ (merge q p) ?s0] => set (s1 := s0) end.
    assert (H1 : heap s1 (pre ++ mkBlk true t :: post)).
    { constructor; [exact L1|exact L2| |exact S1|exact U1]. cbn. rewrite (h_list _ _ H), !first_free_app. by apply first_free_some. }
    destruct (last_free_split (g_base s) pre 0 En) as (pre1 & t0 & rest & -> & Hr & Hq). fold q in Hq.
    destruct (merges_run s1 pre1 t0 rest t post H1 Hr Hn) as (s' & R & H'). change (g_base s1) with (g_base s) in R. fold p in R. fold k in R. rewrite <-Hq in R. by exists s'.
Qed.

(** Without a free block behind the block the search runs off the end of the
    list and follows the null pointer. *)
Lemma libera_search_end p pre : forall fuel ant a s, 0 < p -> 0 < g_base s -> 0 < a -> g_base s <= a -> end_of a pre <= p -> seg (g_base s + tamMemoria) (g_mem s) a pre 0 -> (length pre < fuel)%nat ->
  libera_loop fuel p ant (first_free a pre 0) s = Stop Fault s.
Proof.
  induction pre as [|b pre IH]; intros fuel ant a s Hp Hb0 Ha Hb He Hs Hl; (destruct fuel as [|fuel]; [cbn in Hl; lia|]).
  - cbn [first_free libera_loop]. rewrite (proj2 (Z.ltb_lt _ _)) by lia. rewrite bind_run. unfold prox_of. unfold in_area. by rewrite (proj2 (Z.leb_gt _ _)) by lia.
  - pose proof (seg_sized _ _ _ _ _ Hs) as Hz. inversion_clear Hz as [|? ? Hb' Hz']. cbn [seg first_free last_free length end_of] in *. destruct Hs as (S0 & S1 & S2 & S3 & S4).
    pose proof (end_of_ge (a + step b) pre Hz'). assert (64 <= step b) by (unfold step, sizeof_header; lia). destruct (b_livre b) eqn:Eb; [|apply IH; [done|done|lia|lia|done|done|lia]].
    cbn [libera_loop]. rewrite (proj2 (Z.ltb_lt _ _)) by lia. assert (A : in_area s a = true) by (apply in_area_true; lia). gstep. rewrite S3 by done. apply IH; [done|done|lia|lia|done|done|lia].
Qed.
Lemma meu_libera_faults s pre t post : heap s (pre ++ mkBlk false t :: post) -> no_free post = true -> meu_libera (end_of (g_base s) pre + sizeof_header) s = Stop Fault s.
Proof.
  intros H Hn. set (p := end_of (g_base s) pre). destruct (heap_at _ _ _ _ H) as (B1 & B2 & B3 & B4 & Z1 & Z2 & B5 & _). cbn [b_tam b_livre] in *. fold p in B1, B2, B4, B5.
  pose proof (h_low _ _ H) as L1. pose proof (h_high _ _ H) as L2. unfold meu_libera. replace (u32 (p + sizeof_header - sizeof_header)) with p by (rewrite u32_small; unfold sizeof_header, tamMemoria in *; lia).
  rewrite bind_run. unfold gets at 1. rewrite (h_list _ _ H), first_free_app. fold p. cbn [first_free b_livre]. rewrite (first_free_no _ post) by done.
  pose proof (h_seg _ _ H) as Hs. apply seg_app in Hs as [Hs1 _]. fold p in Hs1. cbn [first_free b_livre] in Hs1. rewrite (first_free_no _ post) in Hs1 by done.
  assert (F : 0 <= first_free (g_base s) pre 0 <= p).
  { destruct (no_free pre) eqn:En; [rewrite first_free_no by done; lia|]. destruct (first_free_in (g_base s) pre 0 Z1 En). fold p in H1. lia. }
  unfold tamMemoria in L2. rewrite !s32_small by (unfold tamMemoria in *; lia). rewrite (proj2 (Z.ltb_ge _ _)) by lia. rewrite bind_run.
  pose proof (heap_short _ _ H) as Hl. rewrite length_app in Hl. rewrite libera_search_end; [done|lia|lia|lia|lia|fold p; lia|done|lia].
Qed.

(** ** From the start *)

Lemma inicializa_mem_heap base_ s : 0 < base_ -> base_ + 8 * tamMemoria < 2 ^ 31 ->
  exists s', inicializa_mem base_ s = Ret tt s' /\ g_base s' = base_ /\ heap s' [mkBlk true (tamMemoria - sizeof_header)].
Proof.
  intros H1 H2. unfold inicializa_mem. rewrite bind_run. unfold modify at 1. rewrite bind_run. unfold modify at 1. rewrite bind_run. unfold gets at 1.
  cbn [g_livres set_g_livres]. set (s1 := set_g_livres _ _). assert (A : in_area s1 base_ = true) by (apply in_area_true; cbn; unfold tamMemoria; lia).
  gstep. gstep. gstep. gstep. eexists. split; [reflexivity|]. split; [done|]. subst s1. constructor; cbn [g_base g_mem g_livres set_g_livres set_g_base set_g_mem add_g_out]; [done|done|done| |reflexivity].
  cbn [seg b_tam b_livre first_free]. split_and!; [unfold tamMemoria; lia|done|done| | |done].
  - rewrite tam_prox, tam_set; [done|]. unfold tamMemoria, sizeof_header. lia.
  - intros _. by rewrite prox_set.
Qed.

(** The bytes of a block end before the next header. *)
Lemma blocks_apart s xs b ys c zs : heap s (xs ++ b :: ys ++ c :: zs) ->
  end_of (g_base s) xs + sizeof_header + b_tam b <= end_of (g_base s) (xs ++ b :: ys).
Proof.
  intros H. pose proof (seg_sized _ _ _ _ _ (h_seg _ _ H)) as Hz. apply Forall_app in Hz as [_ Hz]. inversion_clear Hz as [|? ? Hb Hz']. apply Forall_app in Hz' as [Hy _].
  rewrite end_of_app. cbn [end_of]. pose proof (end_of_ge (end_of (g_base s) xs + step b) ys Hy). unfold step, sizeof_header in *. lia.
Qed.

(** The program of the file runs to its end and leaves one free block. *)
Lemma main_runs : match main 0x804a000 (mkG ∅ 0 0 []) with
  | Ret _ s => g_livres s = 0x804a000 /\ h_tam (g_mem s) (g_livres s) = tamMemoria - sizeof_header /\ h_prox (g_mem s) (g_livres s) = 0
  | Stop _ _ => False
  end.
Proof. vm_compute. done. Qed.

(** Sizes are advanced over as numbers of headers: a request that the manager
    takes for an eighth of its memory is written behind the end of the area. *)
Lemma meu_aloca_overruns : match (inicializa_mem 0x804a000 ;; meu_aloca 1272) (mkG ∅ 0 0 []) with Stop Fault _ => True | _ => False end.
Proof. vm_compute. done. Qed.

Lemma meu_aloca_first_fit_witness : exists s s' r, inicializa_mem 0x804a000 (mkG ∅ 0 0 []) = Ret tt s /\ meu_aloca 10 s = Ret (Some r) s' /\ heap s' [mkBlk false 10; mkBlk true 10214].
Proof.
  destruct (inicializa_mem_heap 0x804a000 (mkG ∅ 0 0 [])) as (s & R & B & H); [lia|unfold tamMemoria; lia|].
  destruct (meu_aloca_first_fit s [] (tamMemoria - sizeof_header) [] 10 H) as (s' & R' & H').
  { lia. } { reflexivity. } { vm_compute. discriminate. } { intros _. cbn [end_of]. unfold tamMemoria. lia. } { intros E. vm_compute in E. discriminate E. }
  exists s, s', (end_of (g_base s) [] + sizeof_header). split; [exact R|]. split; [exact R'|exact H'].
Defined.
Lemma two_blocks : exists s, g_base s = 0x804a000 /\ heap s [mkBlk false 10; mkBlk true 10214].
Proof.
  destruct (inicializa_mem_heap 0x804a000 (mkG ∅ 0 0 [])) as (s & _ & B & H); [lia|unfold tamMemoria; lia|].
  destruct (found_split s [] (tamMemoria - sizeof_header) [] 10 H) as (s' & _ & B' & H'); [lia|reflexivity|cbn [end_of]; unfold tamMemoria; lia|]. exists s'. split; [congruence|exact H'].
Qed.
Lemma meu_libera_releases_witness : exists s s', heap s [mkBlk false 10; mkBlk true 10214] /\ meu_libera (g_base s + sizeof_header) s = Ret tt s' /\ heap s' [mkBlk true 10232].
Proof.
  destruct two_blocks as (s & _ & H). destruct (meu_libera_releases s [] 10 [mkBlk true 10214] H eq_refl) as (s' & R & H').
  exists s, s'. split; [exact H|]. split; [exact R|exact H'].
Defined.
