(* ===== verification/Gm.v ===== *)
(** * The memory manager with its placement strategies: src/gerencia-de-memoria/gm.c

    The area, the headers and the list of free blocks are those of [Gmsimples].
    The program is compiled with ehNext and calls [nextFit]; the other three
    strategies are there to be called instead.  A strategy gets the addresses
    of two pointers and leaves the block and the one before it there; here it
    returns the two. *)

From stdpp Require Import base list list_numbers numbers gmap strings.
From Stdlib Require Import ZArith Lia.
From S2P Require Import Prelude Mem KState Printf Gmsimples.

Record gns := mkN { n_g : gst; n_next : Z }.
Definition set_n_g v s := mkN v (n_next s).
Definition set_n_next v s := mkN (n_g s) v.
Abbreviation N := (prog kstop gns).

(** What [Gmsimples] has, on this state. *)
Definition lift {A} (f : prog kstop gst A) : N A := fun s =>
  match f (n_g s) with Ret v g => Ret v (set_n_g g s) | Stop e g => Stop e (set_n_g g s) end.
Definition livres : N Z := gets (fun s => g_livres (n_g s)).
Definition nsay (fmt : list Z) (ap : list Z) : N unit := lift (say fmt ap).

Definition inicializa_mem (base_ : Z) : N unit :=
  lift (Gmsimples.inicializa_mem base_) ;;
  l ← livres;
  modify (set_n_next l).

(** ** The strategies *)

(** The loop of [firstFit]; the test of the loop is about the address of the
    variable, which is never null. *)
Fixpoint firstFit (fuel : nat) (anterior atual tam : Z) : N (Z * Z) :=
  match fuel with
  | O => stop NoFuel
  | S fuel' =>
      t ← lift (tam_of atual);
      nsay (chars "atual->tam %d" ++ [10]) [t] ;;
      if u32 t <? u32 (tam + sizeof_header) then
        p ← lift (prox_of atual);
        firstFit fuel' atual p tam
      else mret (anterior, atual)
  end.

(** The loop of [worstFit], with the largest block so far and its size. *)
Fixpoint worst_loop (fuel : nat) (anterior atual tam : Z) (ant at_ maiorTam : Z) : N (Z * Z * Z) :=
  if negb (atual =? 0) then
    match fuel with
    | O => stop NoFuel
    | S fuel' =>
        t ← lift (tam_of atual);
        nsay (chars "atual->tam %d" ++ [10]) [t] ;;
        p ← lift (prox_of atual);
        if u32 t <? u32 (tam + sizeof_header) then worst_loop fuel' atual p tam ant at_ maiorTam
        else if maiorTam <? t then worst_loop fuel' atual p tam anterior atual t
        else worst_loop fuel' atual p tam ant at_ maiorTam
    end
  else mret (ant, at_, maiorTam).
Definition worstFit (fuel : nat) (ant at_ tam : Z) : N (Z * Z) :=
  r ← worst_loop fuel ant at_ tam ant at_ (-1);
  let '(ant, at_, maiorTam) := r in
  if negb (maiorTam =? -1) then mret (ant, at_) else mret (0, 0).

(** The loop of [bestFit], with the smallest block so far, if there is one. *)
Fixpoint best_loop (fuel : nat) (anterior atual tam : Z) (ant at_ : Z) (found_ : bool) : N (Z * Z * bool) :=
  if negb (atual =? 0) then
    match fuel with
    | O => stop NoFuel
    | S fuel' =>
        t ← lift (tam_of atual);
        nsay (chars "atual->tam %d" ++ [10]) [t] ;;
        if u32 t <? u32 (tam + sizeof_header) then
          p ← lift (prox_of atual);
          best_loop fuel' atual p tam ant at_ found_
        else
          better ← (if found_ then t0 ← lift (tam_of at_); mret (s32 (t - tam) <? s32 (t0 - tam)) else mret true);
          p ← lift (prox_of atual);
          if better : bool then best_loop fuel' atual p tam anterior atual true
          else best_loop fuel' atual p tam ant at_ found_
    end
  else mret (ant, at_, found_).
Definition bestFit (fuel : nat) (ant at_ tam : Z) : N (Z * Z) :=
  r ← best_loop fuel ant at_ tam ant at_ false;
  let '(ant, at_, found_) := r in
  if found_ : bool then mret (ant, at_) else mret (0, 0).

(** [nextFit] has the same text as [firstFit]. *)
Definition nextFit := firstFit.

(** ** Allocation and release *)

(** The search for the block before [atual] in the list. *)
Fixpoint before_loop (fuel : nat) (anterior atual : Z) : N Z :=
  if negb (anterior =? 0) then
    match fuel with
    | O => stop NoFuel
    | S fuel' =>
        p ← lift (prox_of anterior);
        if negb (p =? atual) then nsay (chars "pao" ++ [10]) [] ;; before_loop fuel' p atual
        else mret anterior
    end
  else mret anterior.

Definition meu_aloca (tam : Z) : N (option Z) :=
  inicio ← gets n_next;
  r ← nextFit nheaders inicio inicio tam;
  let '(anterior, atual) := r in
  (if atual =? 0 then
     nsay (chars "nao achou até o fim" ++ [10]) [] ;;
     l ← livres;
     _ ← nextFit nheaders l l tam;
     mret tt
   else mret tt) ;;
  if negb (atual =? 0) then
    t ← lift (tam_of atual);
    nsay (chars "bloco de %d" ++ [10] ++ chars "alocado %d" ++ [10]) [t; tam] ;;
    (if u32 t =? u32 (sizeof_header + tam) then
       p ← lift (prox_of atual);
       lift (set_prox anterior p) ;;
       lift (set_prox atual 0)
     else
       ta ← lift (tam_of anterior);
       nsay (chars "ant tam %d" ++ [10]) [ta] ;;
       nsay (chars "atual tam %d" ++ [10]) [t] ;;
       aux ← lift (prox_of atual);
       let novoBloco := padd (padd atual tam) sizeof_header in
       l ← livres;
       anterior ← (if (negb (anterior =? l) && (anterior =? atual))%bool then before_loop nheaders l atual else mret anterior);
       lift (set_prox anterior novoBloco) ;;
       lift (set_prox novoBloco aux) ;;
       t ← lift (tam_of atual);
       lift (set_tam novoBloco (t - sizeof_header - tam)) ;;
       lift (set_tam atual tam)) ;;
    l ← livres;
    (if atual =? l then p ← lift (prox_of atual); lift (modify (set_g_livres p)) else mret tt) ;;
    inicio ← gets n_next;
    p ← lift (prox_of inicio);
    modify (set_n_next p) ;;
    (if p =? 0 then l ← livres; modify (set_n_next l) else mret tt) ;;
    lift (set_prox atual 0) ;;
    mret (Some (u32 (atual + sizeof_header)))
  else
    nsay (chars "Impossivel alocar espaço" ++ [10]) [] ;;
    mret None.

Definition merge (anterior posterior : Z) : N bool :=
  t ← lift (tam_of anterior);
  if u32 (pdiff posterior anterior - t - sizeof_header) =? 0 then
    p ← lift (prox_of posterior);
    lift (set_prox anterior p) ;;
    t ← lift (tam_of anterior);
    t2 ← lift (tam_of posterior);
    lift (set_tam anterior (sizeof_header + t + t2)) ;;
    inicio ← gets n_next;
    (if inicio =? posterior then
       modify (set_n_next anterior) ;;
       p ← lift (prox_of posterior);
       lift (set_prox anterior p)
     else mret tt) ;;
    mret true
  else mret false.

Definition meu_libera (ponteiro : Z) : N unit :=
  let endHeader := u32 (ponteiro - sizeof_header) in
  l ← livres;
  if s32 endHeader <? s32 l then
    lift (set_prox endHeader l) ;;
    lift (modify (set_g_livres endHeader)) ;;
    t ← lift (tam_of endHeader);
    nsay (chars "liberado %d" ++ [10]) [t] ;;
    p ← lift (prox_of endHeader);
    _ ← merge endHeader p;
    mret tt
  else
    r ← lift (libera_loop (S nheaders) endHeader l l);
    let '(anterior, atual) := r in
    p ← lift (prox_of anterior);
    lift (set_prox endHeader p) ;;
    lift (set_prox anterior endHeader) ;;
    t ← lift (tam_of endHeader);
    nsay (chars "liberado %d" ++ [10]) [t] ;;
    b ← merge anterior endHeader;
    (if b : bool then merge anterior atual else merge endHeader atual) ;;
    mret tt.

(** ** The program *)

Definition aloca (tam : Z) : N Z := r ← meu_aloca tam; match r with Some p => mret p | None => stop Fault end.
Definition mostra : N unit := lift (linhas ;; mostra_livres ;; linhas ;; mostra_mem ;; linhas).

(** [main] up to the second call with the same block. *)
Definition main_start (base_ : Z) : N Z :=
  inicializa_mem base_ ;;
  a1 ← aloca 10;
  a2 ← aloca 5;
  a3 ← aloca 20;
  lift (mostra_mem ;; linhas ;; mostra_livres) ;;
  meu_libera a2 ;;
  lift (linhas ;; mostra_livres ;; linhas ;; mostra_mem) ;;
  a10 ← aloca 3;
  mostra ;;
  meu_libera a3 ;;
  mostra ;;
  meu_libera a10 ;;
  mostra ;;
  lift (linhas ;; linhas) ;;
  teste ← aloca 100;
  lift (mostra_livres ;; linhas ;; mostra_mem ;; linhas) ;;
  meu_libera teste ;;
  lift (mostra_livres ;; linhas ;; mostra_mem ;; linhas) ;;
  nsay (chars "aloca 12" ++ [10]) [] ;;
  lift (mostra_livres ;; linhas ;; mostra_mem ;; linhas) ;;
  mret teste.
Definition main (base_ : Z) : N unit :=
  teste ← main_start base_;
  meu_libera teste ;;
  lift (mostra_livres ;; linhas ;; mostra_mem ;; linhas) ;;
  lift (mostra_livres ;; linhas ;; mostra_mem ;; linhas).

(** ** The strategies choose as they say *)

Lemma lift_tam a s : in_area (n_g s) a = true -> lift (tam_of a) s = Ret (h_tam (g_mem (n_g s)) a) s.
Proof. intros H. unfold lift. rewrite tam_of_run by done. by destruct s. Qed.
Lemma lift_prox a s : in_area (n_g s) a = true -> lift (prox_of a) s = Ret (h_prox (g_mem (n_g s)) a) s.
Proof. intros H. unfold lift. rewrite prox_of_run by done. by destruct s. Qed.
Lemma nsay_run f l s : nsay f l s = Ret tt (set_n_g (add_g_out (cprintf f (map AInt l)) (n_g s)) s).
Proof. reflexivity. Qed.
(** Printing changes neither the area nor the lists. *)
Definition printed (s s' : gns) : Prop := but_text (n_g s) (n_g s') /\ n_next s' = n_next s.
Lemma printed_refl s : printed s s.
Proof. split; [|done]. exists []. unfold add_g_out. rewrite app_nil_r. by destruct (n_g s). Qed.
Lemma printed_nsay o s s' : printed (set_n_g (add_g_out o (n_g s)) s) s' -> printed s s'.
Proof. intros [[o' E] N1]. split; [|done]. exists (o ++ o'). rewrite E. unfold add_g_out. cbn. by rewrite app_assoc. Qed.

(** The choice over a list of blocks from [a] on: among those that fit the one
    that is [better] than the others, the first of equals; with its address, the
    free block before it and its size. *)
Fixpoint pick (better : Z -> Z -> bool) (n a ant : Z) (bs : list blk) (acc : option (Z * Z * Z)) : option (Z * Z * Z) :=
  match bs with
  | [] => acc
  | b :: bs' =>
      pick better n (a + step b) (if b_livre b then a else ant) bs'
        (if (fits n b && match acc with Some (_, _, t0) => better (b_tam b) t0 | None => true end)%bool then Some (ant, a, b_tam b) else acc)
  end.
Definition chosen (acc : option (Z * Z * Z)) : Z * Z := match acc with Some (ant, at_, _) => (ant, at_) | None => (0, 0) end.

Definition larger (t t0 : Z) : bool := t0 <? t.
Definition smaller (t t0 : Z) : bool := t <? t0.

(** The variables of [worstFit] for a choice so far. *)
Definition worst_vars (ant0 at0 : Z) (acc : option (Z * Z * Z)) : Z * Z * Z := match acc with Some r => r | None => (ant0, at0, -1) end.
Lemma worst_loop_run n bs ant0 at0 : 0 <= n < 2 ^ 30 -> forall fuel a ant acc s, 0 < a -> g_base (n_g s) <= a ->
  seg (g_base (n_g s) + tamMemoria) (g_mem (n_g s)) a bs 0 -> (length bs <= fuel)%nat -> match acc with Some (_, _, t0) => 0 <= t0 | None => True end ->
  exists s', (let '(x, y, z) := worst_vars ant0 at0 acc in worst_loop fuel ant (first_free a bs 0) n x y z) s = Ret (worst_vars ant0 at0 (pick larger n a ant bs acc)) s' /\ printed s s'.
Proof.
  intros Hn. induction bs as [|b bs IH]; intros fuel a ant acc s Ha Hb Hs Hl Hacc.
  - cbn [first_free pick]. exists s. split; [|apply printed_refl]. destruct acc as [[[x y] z]|]; by destruct fuel.
  - cbn [seg first_free length pick] in *. destruct Hs as (S0 & S1 & S2 & S3 & S4). assert (64 <= step b) by (unfold step, sizeof_header; lia). unfold fits at 1. destruct (b_livre b) eqn:Eb.
    2: { cbn [andb]. apply IH; [lia|lia|done|lia|done]. }
    cbn [andb]. destruct fuel as [|fuel]; [lia|]. assert (A : in_area (n_g s) a = true) by (apply in_area_true; lia).
    set (s1 := set_n_g (add_g_out (cprintf (chars "atual->tam %d" ++ [10]) (map AInt [b_tam b])) (n_g s)) s).
    assert (Hstep : forall x y z, worst_loop (S fuel) ant a n x y z s =
      (if b_tam b <? n + 8 then worst_loop fuel a (first_free (a + step b) bs 0) n x y z
       else if z <? b_tam b then worst_loop fuel a (first_free (a + step b) bs 0) n ant a (b_tam b) else worst_loop fuel a (first_free (a + step b) bs 0) n x y z) s1).
    { intros x y z. cbn [worst_loop]. rewrite (proj2 (Z.eqb_neq a 0)) by lia. cbn [negb]. rewrite (bind_Ret _ _ _ _ _ (lift_tam a s A)), S2. rewrite (bind_Ret _ _ _ _ _ (nsay_run _ _ s)). fold s1.
      rewrite (bind_Ret _ _ _ _ _ (lift_prox a s1 A)). change (h_prox (g_mem (n_g s1)) a) with (h_prox (g_mem (n_g s)) a). rewrite S3 by done. unfold sizeof_header. by rewrite !u32_small by lia. }
    unfold sizeof_header at 1. destruct (n + 8 <=? b_tam b) eqn:E; [apply Z.leb_le in E|apply Z.leb_gt in E]; cbn [andb].
    + assert (Hz : forall z x y, match acc with Some r => r | None => (ant0, at0, -1) end = (x, y, z) -> (z <? b_tam b) = match acc with Some (_, _, t0) => larger (b_tam b) t0 | None => true end).
      { intros z x y. destruct acc as [[[? ?] ?]|]; intros [= <- <- <-]; [done|]. apply Z.ltb_lt. lia. }
      destruct (worst_vars ant0 at0 acc) as [[x y] z] eqn:Ev. rewrite Hstep. rewrite (proj2 (Z.ltb_ge _ _)) by lia. rewrite (Hz _ _ _ Ev).
      destruct (match acc with Some (_, _, t0) => larger (b_tam b) t0 | None => true end).
      * destruct (IH fuel (a + step b) a (Some (ant, a, b_tam b)) s1) as (s' & R & P); [lia|cbn; lia|done|lia|lia|]. exists s'. split; [exact R|by eapply printed_nsay].
      * destruct (IH fuel (a + step b) a acc s1) as (s' & R & P); [lia|cbn; lia|done|lia|done|]. rewrite Ev in R. exists s'. split; [exact R|by eapply printed_nsay].
    + destruct (worst_vars ant0 at0 acc) as [[x y] z] eqn:Ev. rewrite Hstep. rewrite (proj2 (Z.ltb_lt _ _)) by lia.
      destruct (IH fuel (a + step b) a acc s1) as (s' & R & P); [lia|cbn; lia|done|lia|done|]. rewrite Ev in R. exists s'. split; [exact R|by eapply printed_nsay].
Qed.

(** [r] is the best of the blocks [bs] from [a] on. *)
Definition is_choice (better : Z -> Z -> bool) (n a ant : Z) (bs : list blk) (r : option (Z * Z * Z)) : Prop :=
  match r with
  | None => forall c, c ∈ bs -> fits n c = false
  | Some (ant', at_, t) => exists pre post, bs = pre ++ mkBlk true t :: post /\ at_ = end_of a pre /\ ant' = last_free a pre ant /\ n + 8 <= t /\
      (forall c, c ∈ bs -> fits n c = true -> better (b_tam c) t = false) /\ (forall c, c ∈ pre -> fits n c = true -> better t (b_tam c) = true)
  end.

Section choice.
Context (better : Z -> Z -> bool) (n : Z).
Hypothesis better_asym : forall x y, better x y = true -> better y x = false.
Hypothesis better_neg : forall x y z, better x y = false -> better y z = false -> better x z = false.
Hypothesis better_lt : forall x y z, better x y = true -> better z y = false -> better x z = true.

Lemma choice_step a ant bs acc b : is_choice better n a ant bs acc ->
  is_choice better n a ant (bs ++ [b])
    (if (fits n b && match acc with Some (_, _, t0) => better (b_tam b) t0 | None => true end)%bool then Some (last_free a bs ant, end_of a bs, b_tam b) else acc).
Proof.
  intros H. destruct (fits n b) eqn:Ef; cbn [andb].
  - assert (Hb : b = mkBlk true (b_tam b) /\ n + 8 <= b_tam b).
    { unfold fits, sizeof_header in Ef. apply andb_prop in Ef as [E1 E2]. apply Z.leb_le in E2. split; [destruct b; cbn in *; by subst|done]. } destruct Hb as [Hb Hn].
    destruct acc as [[[x y] t0]|].
    + destruct H as (pre & post & -> & -> & -> & Ht & H1 & H2). destruct (better (b_tam b) t0) eqn:E.
      * exists (pre ++ mkBlk true t0 :: post), []. split_and!; [by rewrite <-Hb|done|done|done| |].
        -- intros c Hc Hf. apply elem_of_app in Hc as [Hc|Hc]; [by eapply better_neg; [apply H1|apply better_asym]|]. apply list_elem_of_singleton in Hc as ->.
           destruct (better (b_tam b) (b_tam b)) eqn:E2; [|done]. by rewrite (better_asym _ _ E2) in E2.
        -- intros c Hc Hf. eapply better_lt; [exact E|]. by apply H1.
      * exists pre, (post ++ [b]). split_and!; [by rewrite <-app_assoc|done|done|done| |exact H2].
        intros c Hc Hf. apply elem_of_app in Hc as [Hc|Hc]; [by apply H1|]. apply list_elem_of_singleton in Hc as ->. exact E.
    + exists bs, []. split_and!; [by rewrite <-Hb|done|done|done| |].
      * intros c Hc Hf. apply elem_of_app in Hc as [Hc|Hc]; [by rewrite H in Hf|]. apply list_elem_of_singleton in Hc as ->.
        destruct (better (b_tam b) (b_tam b)) eqn:E2; [|done]. by rewrite (better_asym _ _ E2) in E2.
      * intros c Hc Hf. by rewrite H in Hf.
  - destruct acc as [[[x y] t0]|].
    + destruct H as (pre & post & -> & -> & -> & Ht & H1 & H2). exists pre, (post ++ [b]). split_and!; [by rewrite <-app_assoc|done|done|done| |exact H2].
      intros c Hc Hf. apply elem_of_app in Hc as [Hc|Hc]; [by apply H1|]. apply list_elem_of_singleton in Hc as ->. congruence.
    + intros c Hc. apply elem_of_app in Hc as [Hc|Hc]; [by apply H|]. by apply list_elem_of_singleton in Hc as ->.
Qed.

Lemma pick_choice a ant bs : forall bs0 acc, is_choice better n a ant bs0 acc ->
  is_choice better n a ant (bs0 ++ bs) (pick better n (end_of a bs0) (last_free a bs0 ant) bs acc).
Proof.
  induction bs as [|b bs IH]; intros bs0 acc H; [by rewrite app_nil_r|]. cbn [pick]. specialize (IH (bs0 ++ [b]) _ (choice_step _ _ _ _ b H)).
  rewrite end_of_app, last_free_app, <-app_assoc in IH. exact IH.
Qed.
End choice.

Lemma larger_choice n a ant bs : is_choice larger n a ant bs (pick larger n a ant bs None).
Proof. apply (pick_choice larger n) with (bs0 := []); [unfold larger; intros; rewrite ?Z.ltb_lt, ?Z.ltb_ge in *; lia..|]. intros c Hc. by apply elem_of_nil in Hc. Qed.
Lemma smaller_choice n a ant bs : is_choice smaller n a ant bs (pick smaller n a ant bs None).
Proof. apply (pick_choice smaller n) with (bs0 := []); [unfold smaller; intros; rewrite ?Z.ltb_lt, ?Z.ltb_ge in *; lia..|]. intros c Hc. by apply elem_of_nil in Hc. Qed.

(** On a well-formed area [worstFit], called with the head of the list,
    returns the largest of the free blocks that are large enough, the first of
    several, with the free block before it, and null pointers if there is none. *)
Theorem worstFit_largest s bs n : heap (n_g s) bs -> 0 <= n < 2 ^ 30 -> let first := g_livres (n_g s) in
  exists r s', worstFit nheaders first first n s = Ret (chosen r) s' /\ printed s s' /\ is_choice larger n (g_base (n_g s)) first bs r.
Proof.
  intros H Hn first. pose proof (heap_short _ _ H) as Hl. pose proof (h_low _ _ H).
  destruct (worst_loop_run n bs first first Hn nheaders (g_base (n_g s)) first None s) as (s' & R & P); [lia|lia|apply H|lia|done|].
  exists (pick larger n (g_base (n_g s)) first bs None), s'. split_and!; [|done|apply larger_choice]. unfold worstFit. cbn [worst_vars] in R. rewrite <-(h_list _ _ H) in R. fold first in R. rewrite (bind_Ret _ _ _ _ _ R).
  pose proof (larger_choice n (g_base (n_g s)) first bs) as C. destruct (pick larger _ _ _ _ _) as [[[x y] z]|]; [|done]. destruct C as (pre & post & _ & _ & _ & Ht & _).
  cbn [worst_vars chosen]. by rewrite (proj2 (Z.eqb_neq _ _)) by lia.
Qed.

(** The variables of [bestFit] for a choice so far, which is in the area. *)
Definition best_vars (ant0 at0 : Z) (acc : option (Z * Z * Z)) : Z * Z * bool := match acc with Some (x, y, _) => (x, y, true) | None => (ant0, at0, false) end.
Definition acc_ok (g : gst) (acc : option (Z * Z * Z)) : Prop :=
  match acc with Some (_, at_, t) => in_area g at_ = true /\ h_tam (g_mem g) at_ = t /\ 0 <= t < 2 ^ 31 | None => True end.
Lemma best_loop_run n bs ant0 at0 : 0 <= n < 2 ^ 30 -> forall fuel a ant acc s, 0 < a -> g_base (n_g s) <= a ->
  seg (g_base (n_g s) + tamMemoria) (g_mem (n_g s)) a bs 0 -> (length bs <= fuel)%nat -> acc_ok (n_g s) acc ->
  exists s', (let '(x, y, f) := best_vars ant0 at0 acc in best_loop fuel ant (first_free a bs 0) n x y f) s = Ret (best_vars ant0 at0 (pick smaller n a ant bs acc)) s' /\ printed s s'.
Proof.
  intros Hn. induction bs as [|b bs IH]; intros fuel a ant acc s Ha Hb Hs Hl Hacc.
  - cbn [first_free pick]. exists s. split; [|apply printed_refl]. destruct acc as [[[x y] z]|]; by destruct fuel.
  - cbn [seg first_free length pick] in *. destruct Hs as (S0 & S1 & S2 & S3 & S4). assert (64 <= step b) by (unfold step, sizeof_header; lia). unfold fits at 1. destruct (b_livre b) eqn:Eb.
    2: { cbn [andb]. apply IH; [lia|lia|done|lia|done]. }
    cbn [andb]. destruct fuel as [|fuel]; [lia|]. assert (A : in_area (n_g s) a = true) by (apply in_area_true; lia).
    set (s1 := set_n_g (add_g_out (cprintf (chars "atual->tam %d" ++ [10]) (map AInt [b_tam b])) (n_g s)) s).
    set (bt := match acc with Some (_, _, t0) => smaller (b_tam b) t0 | None => true end).
    assert (Hstep : (let '(x, y, f) := best_vars ant0 at0 acc in best_loop (S fuel) ant a n x y f) s =
      (let '(x, y, f) := best_vars ant0 at0 (if (n + 8 <=? b_tam b) && bt then Some (ant, a, b_tam b) else acc)%bool in best_loop fuel a (first_free (a + step b) bs 0) n x y f) s1).
    { destruct (best_vars ant0 at0 acc) as [[x y] f] eqn:Ev. cbn [best_loop]. rewrite (proj2 (Z.eqb_neq a 0)) by lia. cbn [negb]. rewrite (bind_Ret _ _ _ _ _ (lift_tam a s A)), S2. rewrite (bind_Ret _ _ _ _ _ (nsay_run _ _ s)).
      fold s1. assert (P1 : lift (prox_of a) s1 = Ret (first_free (a + step b) bs 0) s1) by (rewrite (lift_prox a s1 A); change (g_mem (n_g s1)) with (g_mem (n_g s)); by rewrite S3). unfold sizeof_header. rewrite !u32_small by lia.
      destruct (n + 8 <=? b_tam b) eqn:E; [apply Z.leb_le in E; rewrite (proj2 (Z.ltb_ge _ _)) by lia|apply Z.leb_gt in E; rewrite (proj2 (Z.ltb_lt _ _)) by lia]; cbn [andb].
      2: { rewrite (bind_Ret _ _ _ _ _ P1), Ev. done. }
      assert (Hbt : (if f then t0 ← lift (tam_of y); mret (s32 (b_tam b - n) <? s32 (t0 - n)) else mret true) s1 = Ret bt s1).
      { destruct acc as [[[x' y'] t0]|]; injection Ev as <- <- <-; [|done]. destruct Hacc as (A' & T' & R'). rewrite (bind_Ret _ _ _ _ _ (lift_tam y' s1 A')). change (g_mem (n_g s1)) with (g_mem (n_g s)).
        rewrite T', !s32_small by lia. subst bt. unfold smaller. unfold mret, prog_ret. f_equal. destruct (b_tam b <? t0) eqn:C; [apply Z.ltb_lt in C; apply Z.ltb_lt; lia|apply Z.ltb_ge in C; apply Z.ltb_ge; lia]. }
      rewrite (bind_Ret _ _ _ _ _ Hbt), (bind_Ret _ _ _ _ _ P1). destruct bt; [done|by rewrite Ev]. }
    rewrite Hstep. unfold sizeof_header. fold bt. destruct (IH fuel (a + step b) a (if (n + 8 <=? b_tam b) && bt then Some (ant, a, b_tam b) else acc)%bool s1) as (s' & R & P);
      [lia|cbn; lia|done|lia|destruct (_ && _)%bool; [split; [exact A|split; [exact S2|lia]]|done]|]. exists s'. split; [exact R|by eapply printed_nsay].
Qed.

(** C34: on a well-formed area [bestFit], called with the head of the list,
    returns the smallest of the free blocks that are large enough, the first of
    several, with the free block before it, and null pointers if there is none. *)
Theorem bestFit_smallest s bs n : heap (n_g s) bs -> 0 <= n < 2 ^ 30 -> let first := g_livres (n_g s) in
  exists r s', bestFit nheaders first first n s = Ret (chosen r) s' /\ printed s s' /\ is_choice smaller n (g_base (n_g s)) first bs r.
Proof.
  intros H Hn first. pose proof (heap_short _ _ H) as Hl. pose proof (h_low _ _ H).
  destruct (best_loop_run n bs first first Hn nheaders (g_base (n_g s)) first None s) as (s' & R & P); [lia|lia|apply H|lia|done|].
  exists (pick smaller n (g_base (n_g s)) first bs None), s'. split_and!; [|done|apply smaller_choice]. unfold bestFit. cbn [best_vars] in R. rewrite <-(h_list _ _ H) in R. fold first in R. rewrite (bind_Ret _ _ _ _ _ R).
  destruct (pick smaller _ _ _ _ _) as [[[x y] z]|]; done.
Qed.

(** The search of [firstFit] goes past the blocks that do not fit. *)
Lemma firstFit_search n pre : forall bs2 fuel ant a s, 0 <= n < 2 ^ 30 -> 0 < a -> g_base (n_g s) <= a ->
  seg (g_base (n_g s) + tamMemoria) (g_mem (n_g s)) a (pre ++ bs2) 0 -> forallb (fun b => negb (fits n b)) pre = true -> (length pre <= fuel)%nat ->
  exists fuel' s', (fuel <= fuel' + length pre)%nat /\ printed s s' /\
    firstFit fuel ant (first_free a (pre ++ bs2) 0) n s = firstFit fuel' (last_free a pre ant) (first_free (end_of a pre) bs2 0) n s'.
Proof.
  induction pre as [|b pre IH]; intros bs2 fuel ant a s Hn Ha Hb Hs Hf Hl; [exists fuel, s; split_and!; [cbn; lia|apply printed_refl|done]|].
  cbn [app seg forallb first_free last_free end_of length] in *. destruct Hs as (S0 & S1 & S2 & S3 & S4). apply andb_prop in Hf as [Hf1 Hf2].
  assert (64 <= step b) by (unfold step, sizeof_header; lia). destruct (b_livre b) eqn:Eb.
  - destruct fuel as [|fuel]; [lia|]. cbn [firstFit]. assert (A : in_area (n_g s) a = true) by (apply in_area_true; lia).
    rewrite (bind_Ret _ _ _ _ _ (lift_tam a s A)), S2, (bind_Ret _ _ _ _ _ (nsay_run _ _ s)). unfold fits in Hf1. rewrite Eb in Hf1. cbn [andb] in Hf1. apply negb_true_iff, Z.leb_gt in Hf1. unfold sizeof_header in *.
    rewrite !u32_small by lia. rewrite (proj2 (Z.ltb_lt _ _)) by lia. set (s1 := set_n_g _ s). rewrite (bind_Ret _ _ _ _ _ (lift_prox a s1 A)). change (g_mem (n_g s1)) with (g_mem (n_g s)). rewrite S3 by done.
    destruct (IH bs2 fuel a (a + step b) s1) as (f' & s' & F1 & P & F2); [done|lia|cbn; lia|done|done|lia|]. exists f', s'. split_and!; [lia|by eapply printed_nsay|done].
  - destruct (IH bs2 fuel ant (a + step b) s) as (f' & s' & F1 & P & F2); [done|lia|lia|done|done|lia|]. exists f', s'. split_and!; [lia|done|done].
Qed.

(** When no free block is large enough the program does not say so: [nextFit]
    follows the null pointer at the end of the list. *)
Lemma meu_aloca_full_faults s bs n : heap (n_g s) bs -> n_next s = g_livres (n_g s) -> 0 <= n < 2 ^ 30 -> forallb (fun b => negb (fits n b)) bs = true ->
  exists s', meu_aloca n s = Stop Fault s'.
Proof.
  intros H Hx Hn Hf. pose proof (heap_short _ _ H) as Hl. pose proof (h_low _ _ H) as L. unfold meu_aloca. rewrite bind_run. unfold gets at 1. rewrite Hx, (h_list _ _ H), bind_run. unfold nextFit.
  destruct (firstFit_search n bs [] nheaders (first_free (g_base (n_g s)) bs 0) (g_base (n_g s)) s) as (f & s' & F1 & [[o Ho] _] & F2); [done|lia|lia|rewrite app_nil_r; apply H|done|lia|].
  rewrite app_nil_r in F2. rewrite F2. cbn [first_free]. destruct f as [|f]; [lia|]. cbn [firstFit]. rewrite bind_run. unfold lift, tam_of, in_area. rewrite Ho. cbn [g_base add_g_out].
  rewrite (proj2 (Z.leb_gt (g_base (n_g s)) 0)) by lia. cbn [andb]. by eexists.
Qed.

(** ** A block that is freed twice *)

Lemma lift_set_prox a v s : in_area (n_g s) a = true -> lift (set_prox a v) s = Ret tt (set_n_g (set_g_mem (st32 (g_mem (n_g s)) (a + 4) v) (n_g s)) s).
Proof. intros H. unfold lift. by rewrite set_prox_run. Qed.
Lemma merge_self p t s : in_area (n_g s) p = true -> h_tam (g_mem (n_g s)) p = t -> 0 <= t < 2 ^ 31 -> merge p p s = Ret false s.
Proof.
  intros A Ht Hr. unfold merge. rewrite (bind_Ret _ _ _ _ _ (lift_tam p s A)), Ht. unfold pdiff. rewrite Z.sub_diag. change (s32 0 / sizeof_header) with 0.
  unfold sizeof_header. rewrite (proj2 (Z.eqb_neq _ _)); [done|]. unfold u32. Z.to_euclidean_division_equations; lia.
Qed.

(** Freeing the first free block again makes it its own successor. *)
Lemma libera_twice s pre t post : let p := end_of (g_base (n_g s)) pre in heap (n_g s) (pre ++ mkBlk true t :: post) -> no_free pre = true ->
  exists s', meu_libera (p + sizeof_header) s = Ret tt s' /\ g_base (n_g s') = g_base (n_g s) /\ g_livres (n_g s') = p /\ h_prox (g_mem (n_g s')) p = p.
Proof.
  intros p H Hn. destruct (heap_at _ _ _ _ H) as (B1 & B2 & B3 & B4 & _). cbn [b_tam] in *. fold p in B1, B2, B4. pose proof (h_low _ _ H) as L1. pose proof (h_high _ _ H) as L2.
  assert (A : in_area (n_g s) p = true) by (by apply in_area_true). assert (El : g_livres (n_g s) = p) by (rewrite (h_list _ _ H), first_free_app, first_free_no by done; done).
  unfold meu_libera. replace (u32 (p + sizeof_header - sizeof_header)) with p by (rewrite u32_small; unfold sizeof_header, tamMemoria in *; lia).
  rewrite bind_run. unfold livres, gets at 1. rewrite El, Z.ltb_irrefl.
  assert (Rl : lift (libera_loop (S nheaders) p p p) s = Ret (p, p) s) by (unfold lift; cbn [libera_loop]; rewrite Z.ltb_irrefl; by destruct s).
  rewrite (bind_Ret _ _ _ _ _ Rl). cbv iota beta. rewrite (bind_Ret _ _ _ _ _ (lift_prox p s A)). rewrite (bind_Ret _ _ _ _ _ (lift_set_prox p _ s A)).
  set (s1 := set_n_g _ s). rewrite (bind_Ret _ _ _ _ _ (lift_set_prox p p s1 A)). set (s2 := set_n_g _ s1). rewrite (bind_Ret _ _ _ _ _ (lift_tam p s2 A)), (bind_Ret _ _ _ _ _ (nsay_run _ _ s2)).
  set (s3 := set_n_g _ s2). assert (T3 : h_tam (g_mem (n_g s3)) p = t) by (cbn [s3 s2 s1 n_g g_mem set_n_g set_g_mem add_g_out]; by rewrite !tam_prox).
  rewrite (bind_Ret _ _ _ _ _ (merge_self p t s3 A T3 ltac:(lia))). cbv iota. rewrite (bind_Ret _ _ _ _ _ (merge_self p t s3 A T3 ltac:(lia))).
  exists s3. split_and!; [done|done|exact El|]. cbn [s3 s2 s1 n_g g_mem set_n_g set_g_mem add_g_out]. apply prox_set. unfold tamMemoria in *. lia.
Qed.

(** A list with such a block is printed for ever. *)
Lemma mostra_livres_spins fuel : forall p s, in_area s p = true -> p <> 0 -> h_prox (g_mem s) p = p -> exists s', mostra_livres_loop fuel p s = Stop NoFuel s'.
Proof.
  induction fuel as [|fuel IH]; intros p s A Hp Hx; cbn [mostra_livres_loop]; rewrite (proj2 (Z.eqb_neq p 0)) by done; cbn [negb]; [by eexists|].
  rewrite (bind_Ret _ _ _ _ _ (tam_of_run p s A)). rewrite bind_run. unfold say at 1, modify at 1. set (s1 := add_g_out _ s). rewrite (bind_Ret _ _ _ _ _ (prox_of_run p s1 A)).
  change (h_prox (g_mem s1) p) with (h_prox (g_mem s) p). rewrite Hx. by apply IH.
Qed.

(** Where [main] is after it has freed the block [teste] for the second time. *)
Lemma main_frees_twice : match (teste ← main_start 0x804a000; meu_libera teste) (mkN (mkG ∅ 0 0 []) 0) with
  | Ret _ s => in_area (n_g s) (g_livres (n_g s)) = true /\ g_livres (n_g s) <> 0 /\ h_prox (g_mem (n_g s)) (g_livres (n_g s)) = g_livres (n_g s)
  | Stop _ _ => False
  end.
Proof. vm_compute. done. Qed.

(** The program of gm.c does not end: it frees the block [teste] twice, the
    second time makes the first free block its own successor, and the next call
    of [mostra_livres] prints it without end, however many rounds it is given. *)
Theorem gm_main_never_ends fuel : match (teste ← main_start 0x804a000; meu_libera teste) (mkN (mkG ∅ 0 0 []) 0) with
  | Ret _ s => exists s', mostra_livres_loop fuel (g_livres (n_g s)) (n_g s) = Stop NoFuel s'
  | Stop _ _ => False
  end.
Proof.
  pose proof main_frees_twice as H. destruct ((teste ← main_start 0x804a000; meu_libera teste) (mkN (mkG ∅ 0 0 []) 0)) as [v s|e s]; [|done].
  destruct H as (A & Hp & Hx). by apply mostra_livres_spins.
Qed.

Lemma worstFit_largest_witness : exists s r s', worstFit nheaders (g_livres (n_g s)) (g_livres (n_g s)) 10 s = Ret (chosen r) s' /\
  is_choice larger 10 (g_base (n_g s)) (g_livres (n_g s)) [mkBlk false 10; mkBlk true 10214] r.
Proof.
  destruct two_blocks as (g & _ & H). destruct (worstFit_largest (mkN g 0) _ 10 H) as (r & s' & R & _ & C); [lia|]. exists (mkN g 0), r, s'. split; [exact R|exact C].
Defined.
Lemma bestFit_smallest_witness : exists s r s', bestFit nheaders (g_livres (n_g s)) (g_livres (n_g s)) 10 s = Ret (chosen r) s' /\
  is_choice smaller 10 (g_base (n_g s)) (g_livres (n_g s)) [mkBlk false 10; mkBlk true 10214] r.
Proof.
  destruct two_blocks as (g & _ & H). destruct (bestFit_smallest (mkN g 0) _ 10 H) as (r & s' & R & _ & C); [lia|]. exists (mkN g 0), r, s'. split; [exact R|exact C].
Defined.
