(* ===== verification/Mmu.v ===== *)
(** * The memory manager with a doubly linked list: src/gerencia-de-memoria/MMU.c

    Blocks in use and holes are in one list; the size of a block in use is
    negative.  A header has three words of four bytes.  The area is a range of
    the memory, [m_base] its address and [m_size] its length; an access outside
    of it stops with [Fault].  A new block is cut from the end of a hole, but
    twelve bytes too low, so the hole keeps the header of the new block as its
    last bytes. *)

From stdpp Require Import base list list_numbers numbers gmap strings.
From Stdlib Require Import ZArith Lia.
From S2P Require Import Prelude Mem KState Printf.

Definition hole_size : Z := 12.

Record mmu := mkMmu { m_mem : mem; m_list : Z; m_base : Z; m_size : Z; m_out : list Z }.
Definition set_m_mem v s := mkMmu v (m_list s) (m_base s) (m_size s) (m_out s).
Definition set_m_list v s := mkMmu (m_mem s) v (m_base s) (m_size s) (m_out s).
Definition set_m_area b n s := mkMmu (m_mem s) (m_list s) b n (m_out s).
Definition add_m_out v s := mkMmu (m_mem s) (m_list s) (m_base s) (m_size s) (m_out s ++ v).
Abbreviation M := (prog kstop mmu).

Definition msay (fmt : list Z) (ap : list Z) : M unit := modify (add_m_out (cprintf fmt (map AInt ap))).

(** The fields of a header. *)
Definition in_area (s : mmu) (p : Z) : bool := ((m_base s <=? p) && (p + hole_size <=? m_base s + m_size s))%bool.
Definition f_tam : Z := 0.
Definition f_next : Z := 4.
Definition f_prev : Z := 8.
Definition get (f p : Z) : M Z := fun s => if in_area s p then Ret (ld32 (m_mem s) (p + f)) s else Stop Fault s.
Definition set (f p v : Z) : M unit := fun s => if in_area s p then Ret tt (set_m_mem (st32 (m_mem s) (p + f) v) s) else Stop Fault s.
Definition get_tam (p : Z) : M Z := v ← get f_tam p; mret (s32 v).

Definition inicializa_memoria (base_ size : Z) : M unit :=
  let size := if size <? hole_size then s32 (hole_size + size) else size in
  modify (set_m_area base_ (u32 size)) ;;
  modify (set_m_list base_) ;;
  set f_tam base_ (size - hole_size) ;;
  set f_next base_ 0 ;;
  set f_prev base_ 0.

Definition meu_desaloca (p : Z) : M unit :=
  let current_hole := u32 (p - hole_size) in
  prev_hole ← get f_prev current_hole;
  next_hole ← get f_next current_hole;
  t ← get_tam current_hole;
  set f_tam current_hole (-1 * t) ;;
  (if negb (next_hole =? 0) then
     nt ← get_tam next_hole;
     if 0 <? nt then
       t ← get_tam current_hole;
       set f_tam current_hole (t + hole_size + nt) ;;
       nn ← get f_next next_hole;
       set f_next current_hole nn ;;
       if negb (nn =? 0) then set f_prev nn current_hole else mret tt
     else mret tt
   else mret tt) ;;
  if negb (prev_hole =? 0) then
    pt ← get_tam prev_hole;
    if 0 <? pt then
      t ← get_tam current_hole;
      set f_tam prev_hole (pt + t + hole_size) ;;
      nn ← get f_next current_hole;
      set f_next prev_hole nn ;;
      if negb (nn =? 0) then set f_prev nn prev_hole else mret tt
    else mret tt
  else mret tt.

(** The loop of [meu_aloca]. *)
Fixpoint aloca_loop (fuel : nat) (current_hole size : Z) : M Z :=
  if negb (current_hole =? 0) then
    match fuel with
    | O => stop NoFuel
    | S fuel' =>
        t ← get_tam current_hole;
        if t =? size then
          set f_tam current_hole (-1 * t) ;;
          mret (u32 (current_hole + hole_size))
        else if s32 (size + hole_size) <? t then
          let prev_hole := current_hole in
          next_hole ← get f_next current_hole;
          msay (10 :: chars "%d" ++ [10; 10]) [s32 current_hole] ;;
          let aux := u32 (prev_hole + t - size - hole_size) in
          msay (10 :: chars "%d" ++ [10; 10]) [s32 aux] ;;
          set f_tam aux (- size) ;;
          set f_next aux next_hole ;;
          set f_prev aux prev_hole ;;
          set f_next prev_hole aux ;;
          t ← get_tam prev_hole;
          set f_tam prev_hole (t - size - hole_size) ;;
          (if negb (next_hole =? 0) then set f_prev next_hole aux else mret tt) ;;
          msay (10 :: chars "%d" ++ [10]) [s32 (aux + hole_size * hole_size)] ;;
          mret (u32 (aux + hole_size))
        else
          n ← get f_next current_hole;
          aloca_loop fuel' n size
    end
  else mret 0.
(** Enough for all headers that fit into the area. *)
Definition fuel_of (s : mmu) : nat := S (Z.to_nat (m_size s)).
Definition meu_aloca (size : Z) : M Z :=
  s ← gets (fun s => s);
  aloca_loop (fuel_of s) (m_list s) size.

(** The loop of [imprime]. *)
Fixpoint imprime_loop (fuel : nat) (current_hole : Z) : M unit :=
  if negb (current_hole =? 0) then
    match fuel with
    | O => stop NoFuel
    | S fuel' =>
        t ← get_tam current_hole;
        n ← get f_next current_hole;
        p ← get f_prev current_hole;
        msay (10 :: chars "Endere" ++ [0xEF; 0xBF; 0xBD] ++ chars "o do buraco -> %d" ++ 10 :: chars "Tamanho do buraco -> %d" ++ 10 :: chars "Proximo buraco -> %d" ++ 10 :: chars "Buraco anterior -> %d" ++ [10; 10]) [s32 current_hole; t; s32 n; s32 p] ;;
        imprime_loop fuel' n
    end
  else mret tt.
Definition imprime : M unit :=
  s ← gets (fun s => s);
  imprime_loop (fuel_of s) (m_list s).

Definition main (base_ : Z) : M unit :=
  imprime ;;
  inicializa_memoria base_ 100 ;;
  p ← meu_aloca 12;
  q ← meu_aloca 12;
  imprime ;;
  meu_desaloca q ;;
  _ ← meu_aloca 5;
  meu_desaloca p ;;
  imprime.

(** ** Accesses *)

Lemma m_area_true s p : m_base s <= p -> p + 12 <= m_base s + m_size s -> in_area s p = true.
Proof. intros. unfold in_area, hole_size. by rewrite !(proj2 (Z.leb_le _ _)) by lia. Qed.
Lemma get_run f p s : in_area s p = true -> get f p s = Ret (ld32 (m_mem s) (p + f)) s.
Proof. intros H. unfold get. by rewrite H. Qed.
Lemma set_run f p v s : in_area s p = true -> set f p v s = Ret tt (set_m_mem (st32 (m_mem s) (p + f) v) s).
Proof. intros H. unfold set. by rewrite H. Qed.
Lemma get_tam_run p s : in_area s p = true -> get_tam p s = Ret (s32 (ld32 (m_mem s) (p + f_tam))) s.
Proof. intros H. unfold get_tam. by rewrite (bind_Ret _ _ _ _ _ (get_run _ _ _ H)). Qed.
Lemma area_set m s p : in_area (set_m_mem m s) p = in_area s p.
Proof. done. Qed.
Lemma area_out o s p : in_area (add_m_out o s) p = in_area s p.
Proof. done. Qed.

Ltac marea := rewrite ?area_set, ?area_out; assumption.
Ltac mstep := first
  [ erewrite bind_Ret by (apply get_tam_run; marea) | erewrite bind_Ret by (apply get_run; marea) | erewrite bind_Ret by (apply set_run; marea)
  | rewrite bind_run; unfold msay at 1, modify at 1 | rewrite set_run by marea ];
  cbn [m_mem m_list m_base m_size m_out set_m_mem add_m_out].

(** A word of a header after a write to another header or to another field. *)
Lemma word_other m a f p g v : 0 <= f <= 8 -> 0 <= g <= 8 -> p + 12 <= a \/ a + 12 <= p -> ld32 (st32 m (a + f) v) (p + g) = ld32 m (p + g).
Proof. intros. rewrite ld32_st32_ne; [done|lia]. Qed.
Lemma word_field m p f g v : f + 4 <= g \/ g + 4 <= f -> ld32 (st32 m (p + f) v) (p + g) = ld32 m (p + g).
Proof. intros. rewrite ld32_st32_ne; [done|lia]. Qed.
Lemma word_same m p f v : ld32 (st32 m (p + f) v) (p + f) = u32 v.
Proof. apply ld32_st32_eq. Qed.
Lemma s32_u32 x : - 2 ^ 31 <= x < 2 ^ 31 -> s32 (u32 x) = x.
Proof. intros. unfold s32, u32. rewrite Zplus_mod_idemp_l. Z.to_euclidean_division_equations; lia. Qed.
Ltac words := repeat first [rewrite word_same | rewrite word_field by (unfold f_tam, f_next, f_prev; lia) | rewrite word_other by (unfold f_tam, f_next, f_prev; lia)].

(** ** A hole at the head of the list *)

(** The first hole [h] has size [t]; the block [nx] behind it, if there is one,
    is in use and starts [t] bytes behind the start of the hole or later. *)
Record head_hole (s : mmu) (h t nx : Z) : Prop := {
  hh_low : 0 < m_base s;
  hh_high : m_base s + m_size s < 2 ^ 31;
  hh_list : m_list s = h;
  hh_area : m_base s <= h;
  hh_end : h + t <= m_base s + m_size s;
  hh_size : 0 < t;
  hh_room : h + 12 <= m_base s + m_size s;
  hh_tam : s32 (ld32 (m_mem s) (h + f_tam)) = t;
  hh_next : ld32 (m_mem s) (h + f_next) = nx;
  hh_prev : ld32 (m_mem s) (h + f_prev) = 0;
  hh_nx : nx = 0 \/ h + t <= nx /\ nx + 12 <= m_base s + m_size s /\ s32 (ld32 (m_mem s) (nx + f_tam)) <= 0 /\ ld32 (m_mem s) (nx + f_prev) = h
}.

(** Cutting [n] bytes from the end of the hole: the new block is in front of
    [nx], the hole keeps [t - n - 12] bytes. *)
Lemma aloca_cuts s h t nx n : head_hole s h t nx -> 0 <= n -> n + 24 <= t -> let aux := h + t - n - 12 in
  exists s', meu_aloca n s = Ret (aux + 12) s' /\ m_base s' = m_base s /\ m_size s' = m_size s /\ m_list s' = h /\
    s32 (ld32 (m_mem s') (h + f_tam)) = t - n - 12 /\ ld32 (m_mem s') (h + f_next) = aux /\ ld32 (m_mem s') (h + f_prev) = 0 /\
    s32 (ld32 (m_mem s') (aux + f_tam)) = - n /\ ld32 (m_mem s') (aux + f_next) = nx /\ ld32 (m_mem s') (aux + f_prev) = h /\
    (nx <> 0 -> ld32 (m_mem s') (nx + f_tam) = ld32 (m_mem s) (nx + f_tam) /\ ld32 (m_mem s') (nx + f_next) = ld32 (m_mem s) (nx + f_next) /\ ld32 (m_mem s') (nx + f_prev) = aux).
Proof.
  intros H Hn Ht aux. destruct H. unfold meu_aloca. rewrite bind_run. unfold gets at 1. rewrite hh_list0. unfold fuel_of. cbn [aloca_loop]. rewrite (proj2 (Z.eqb_neq h 0)) by lia. cbn [negb].
  assert (A : in_area s h = true) by (by apply m_area_true). assert (Aa : in_area s aux = true) by (apply m_area_true; lia).
  assert (Ea : u32 (h + t - n - hole_size) = aux) by (unfold hole_size; rewrite u32_small; lia). mstep. rewrite hh_tam0. rewrite (proj2 (Z.eqb_neq t n)) by lia.
  unfold hole_size at 1. rewrite s32_small by lia. rewrite (proj2 (Z.ltb_lt _ _)) by lia. mstep. rewrite hh_next0. cbv zeta. rewrite Ea. do 7 mstep.
  assert (Et : s32 (ld32 (st32 (st32 (st32 (st32 (m_mem s) (aux + f_tam) (- n)) (aux + f_next) nx) (aux + f_prev) h) (h + f_next) aux) (h + f_tam)) = t) by (words; done).
  rewrite Et. mstep. assert (Er : u32 (aux + hole_size) = aux + 12) by (unfold hole_size; rewrite u32_small; lia).
  assert (U : forall x, 0 <= x < 2 ^ 31 -> u32 x = x) by (intros; apply u32_small; lia).
  destruct hh_nx0 as [->|(N1 & N2 & N3 & N4)].
  - cbn [negb Z.eqb]. rewrite ret_bind. mstep. rewrite Er. eexists. split; [reflexivity|]. cbn [m_mem m_list m_base m_size set_m_mem add_m_out]. unfold hole_size.
    split_and!; try done; words; rewrite ?s32_u32, ?U by lia; try done; lia.
  - rewrite (proj2 (Z.eqb_neq nx 0)) by lia. cbn [negb]. assert (An : in_area s nx = true) by (apply m_area_true; lia). mstep. mstep. rewrite Er. eexists. split; [reflexivity|].
    cbn [m_mem m_list m_base m_size set_m_mem add_m_out]. unfold hole_size. split_and!; try done; words; rewrite ?s32_u32, ?U by lia; try done; lia.
Qed.

(** C35: a block that [meu_aloca] cuts from a hole and [meu_desaloca] gives back
    leaves the headers of the hole and of the block behind it as they were. *)
Theorem desaloca_undoes_aloca s h t nx n : head_hole s h t nx -> 0 <= n -> n + 24 <= t ->
  exists p s1 s', meu_aloca n s = Ret p s1 /\ meu_desaloca p s1 = Ret tt s' /\ head_hole s' h t nx /\
    (nx <> 0 -> forall f, f ∈ [f_tam; f_next; f_prev] -> ld32 (m_mem s') (nx + f) = ld32 (m_mem s) (nx + f)).
Proof.
  intros H Hn Ht. destruct (aloca_cuts s h t nx n H Hn Ht) as (s1 & R1 & B1 & Z1 & L1 & T1 & X1 & P1 & T2 & X2 & P2 & N2). set (aux := h + t - n - 12) in *. exists (aux + 12), s1.
  destruct H. assert (A : in_area s1 h = true) by (apply m_area_true; lia). assert (Aa : in_area s1 aux = true) by (apply m_area_true; lia).
  unfold meu_desaloca. replace (u32 (aux + 12 - hole_size)) with aux by (unfold hole_size; rewrite u32_small; lia). cbv zeta. mstep. rewrite P2. mstep. rewrite X2. mstep. rewrite T2. mstep.
  set (m2 := st32 (m_mem s1) (aux + f_tam) (-1 * - n)). set (s2 := set_m_mem m2 s1).
  assert (Hskip : (if negb (nx =? 0) then nt ← get_tam nx; if 0 <? nt then t0 ← get_tam aux; set f_tam aux (t0 + hole_size + nt) ;; nn ← get f_next nx; set f_next aux nn ;; if negb (nn =? 0) then set f_prev nn aux else mret tt else mret tt else mret tt) s2 = Ret tt s2).
  { destruct hh_nx0 as [->|(M1 & M2 & M3 & M4)]; [done|]. rewrite (proj2 (Z.eqb_neq nx 0)) by lia. cbn [negb]. assert (An : in_area s2 nx = true) by (apply m_area_true; cbn; lia).
    rewrite (bind_Ret _ _ _ _ _ (get_tam_run _ _ An)). change (m_mem s2) with m2. unfold m2. rewrite word_other by (unfold f_tam; lia). rewrite (proj1 (N2 ltac:(lia))). by rewrite (proj2 (Z.ltb_ge _ _)) by lia. }
  rewrite (bind_Ret _ _ _ _ _ Hskip). rewrite (proj2 (Z.eqb_neq h 0)) by lia. cbn [negb]. assert (A2 : in_area s2 h = true) by exact A. assert (Aa2 : in_area s2 aux = true) by exact Aa.
  mstep. change (m_mem s2) with m2. assert (Th : s32 (ld32 m2 (h + f_tam)) = t - n - 12) by (unfold m2; words; done). rewrite Th. rewrite (proj2 (Z.ltb_lt _ _)) by lia. mstep. change (m_mem s2) with m2.
  assert (Ta : s32 (ld32 m2 (aux + f_tam)) = n) by (unfold m2; words; rewrite s32_u32; lia). rewrite Ta. mstep. mstep. change (m_mem s2) with m2.
  assert (Xa : ld32 (st32 m2 (h + f_tam) (t - n - 12 + n + hole_size)) (aux + f_next) = nx) by (unfold m2; words; done). rewrite Xa. mstep. change (m_mem s2) with m2.
  destruct hh_nx0 as [->|(M1 & M2 & M3 & M4)].
  - cbn [negb Z.eqb]. eexists. split; [exact R1|]. split; [reflexivity|]. split; [|done].
    constructor; unfold s2; cbn [m_mem m_list m_base m_size set_m_mem]; try lia; try done; unfold m2, hole_size; words; rewrite ?s32_u32 by lia; try done; lia.
  - rewrite (proj2 (Z.eqb_neq nx 0)) by lia. cbn [negb]. assert (An : in_area s2 nx = true) by (apply m_area_true; cbn; lia). destruct (N2 ltac:(lia)) as (W1 & W2 & W3).
    mstep. change (m_mem s2) with m2. eexists. split; [exact R1|]. split; [reflexivity|]. cbn [m_mem m_list m_base m_size set_m_mem]. split.
    + constructor; unfold s2; cbn [m_mem m_list m_base m_size set_m_mem]; try lia; try done; unfold m2, hole_size; words; rewrite ?s32_u32 by lia; try done; try lia.
      * apply u32_small. lia.
      * right. rewrite W1, B1, Z1. split_and!; [lia|lia|lia|apply u32_small; lia].
    + intros _ f Hf. rewrite !elem_of_cons, elem_of_nil in Hf. unfold m2, hole_size. destruct Hf as [->|[->|[->|[]]]]; words; [done|done|]. rewrite M4. apply u32_small. lia.
Qed.

(** When the rest of a hole is allocated as well, the program gets memory in
    which the header of the block before it lies: the hole was cut twelve bytes
    too low. *)
Theorem aloca_overlaps_header s h t nx n : head_hole s h t nx -> 0 <= n -> n + 24 <= t ->
  exists p q s1 s2, meu_aloca n s = Ret p s1 /\ meu_aloca (t - n - 12) s1 = Ret q s2 /\ q <= p - hole_size /\ p <= q + (t - n - 12).
Proof.
  intros H Hn Ht. destruct (aloca_cuts s h t nx n H Hn Ht) as (s1 & R1 & B1 & Z1 & L1 & T1 & _). destruct H. exists (h + t - n - 12 + 12), (h + 12), s1.
  unfold meu_aloca at 2. rewrite bind_run. unfold gets at 1. rewrite L1. unfold fuel_of. cbn [aloca_loop]. rewrite (proj2 (Z.eqb_neq h 0)) by lia. cbn [negb].
  assert (A : in_area s1 h = true) by (apply m_area_true; lia). mstep. rewrite T1, Z.eqb_refl. mstep. unfold hole_size. rewrite u32_small by lia. eexists. split; [exact R1|]. split; [reflexivity|]. lia.
Qed.

(** With less than a header left over, the new header lies on that of the hole:
    a block of 70 bytes is recorded with another size. *)
Lemma aloca_spoils_header : match (inicializa_memoria 0x804a000 100 ;; meu_aloca 70) (mkMmu ∅ 0 0 0 []) with
  | Ret p s => s32 (ld32 (m_mem s) (p - hole_size)) = -63484
  | Stop _ _ => False
  end.
Proof. vm_compute. done. Qed.

(** The program of the file runs to its end. *)
Lemma main_ends : match main 0x804a000 (mkMmu ∅ 0 0 0 []) with Ret _ s => s32 (ld32 (m_mem s) (m_list s)) = 47 | Stop _ _ => False end.
Proof. vm_compute. done. Qed.

(** A new area is one hole. *)
Lemma inicializa_head base_ size s : 0 < base_ -> 24 < size -> base_ + size < 2 ^ 31 -> exists s', inicializa_memoria base_ size s = Ret tt s' /\ head_hole s' base_ (size - hole_size) 0.
Proof.
  intros H1 H2 H3. unfold inicializa_memoria, hole_size. rewrite (proj2 (Z.ltb_ge _ _)) by lia. rewrite bind_run. unfold modify at 1. rewrite bind_run. unfold modify at 1.
  set (s1 := set_m_list _ _). assert (A : in_area s1 base_ = true) by (apply m_area_true; cbn; rewrite ?u32_small by lia; lia). mstep. mstep. mstep. eexists. split; [reflexivity|].
  constructor; subst s1; cbn [m_mem m_list m_base m_size set_m_mem set_m_list set_m_area]; rewrite ?(u32_small size) by lia; try lia; try done; words; rewrite ?s32_u32 by lia; done.
Qed.

Lemma desaloca_undoes_aloca_witness : exists s p s1 s', meu_aloca 12 s = Ret p s1 /\ meu_desaloca p s1 = Ret tt s' /\ head_hole s' 0x804a000 88 0.
Proof.
  destruct (inicializa_head 0x804a000 100 (mkMmu ∅ 0 0 0 [])) as (s & _ & H); [lia|lia|lia|]. destruct (desaloca_undoes_aloca s 0x804a000 88 0 12 H) as (p & s1 & s' & R1 & R2 & H' & _); [lia|lia|].
  exists s, p, s1, s'. split; [exact R1|]. split; [exact R2|exact H'].
Defined.
Lemma aloca_overlaps_header_witness : exists s p q s1 s2, meu_aloca 12 s = Ret p s1 /\ meu_aloca 64 s1 = Ret q s2 /\ q <= p - hole_size < q + 64.
Proof.
  destruct (inicializa_head 0x804a000 100 (mkMmu ∅ 0 0 0 [])) as (s & _ & H); [lia|lia|lia|]. destruct (aloca_overlaps_header s 0x804a000 88 0 12 H) as (p & q & s1 & s2 & R1 & R2 & L1 & L2); [lia|lia|].
  exists s, p, q, s1, s2. split; [exact R1|]. split; [exact R2|]. unfold hole_size in *. lia.
Defined.
