(* ===== verification/Mkfs.v ===== *)
(** * The file system builder: src/xv6/mkfs.c

    The image is a file of blocks: [m_img] holds the blocks that were written,
    a block that was not is zero, and a read behind the last block fails.  The
    inode on disk is that of fs.h, read and written as the kernel does it
    ([Inode.load_dinode], [Inode.store_dinode]).  [index], [strncpy] and the
    like are the C library's; the files to be stored are given by name with
    the pieces in which [read] delivers their contents, [None] when they
    cannot be opened.  An assertion that fails and [exit(1)] end the run. *)

From stdpp Require Import base list list_numbers numbers gmap strings fin_sets.
From Stdlib Require Import ZArith Lia.
From S2P Require Import Prelude Mem KState Sched Bio Cache Log Printf Block Inode Bmap Fileio Dir.

Definition NINODES : Z := 200.

Inductive mkstop := Exit1 | Assertion | MkFuel.
Record mkst := mkMk { m_img : gmap Z (list Z); m_size : Z; m_freeinode : Z; m_freeblock : Z }.
Definition set_img (v : gmap Z (list Z)) (n : Z) (s : mkst) : mkst := mkMk v n (m_freeinode s) (m_freeblock s).
Definition set_freeinode (v : Z) (s : mkst) : mkst := mkMk (m_img s) (m_size s) v (m_freeblock s).
Definition set_freeblock (v : Z) (s : mkst) : mkst := mkMk (m_img s) (m_size s) (m_freeinode s) v.
Abbreviation M := (prog mkstop mkst).

(** The bytes of an integer in the order of the Intel processors, read as an
    integer of the (little-endian) host. *)
Definition xshort (x : Z) : Z := le_dec [u8 x; u8 (Z.shiftr x 8)].
Definition xint (x : Z) : Z := le_dec [u8 x; u8 (Z.shiftr x 8); u8 (Z.shiftr x 16); u8 (Z.shiftr x 24)].

Definition nbitmap : Z := FSSIZE / (Z.of_nat BSIZE * 8) + 1.
Definition ninodeblocks : Z := NINODES / IPB + 1.
Definition nlog : Z := LOGSIZE.
Definition nmeta : Z := 2 + nlog + ninodeblocks + nbitmap.
Definition nblocks : Z := FSSIZE - nmeta.

(** The superblock, and its bytes. *)
Definition mk_sb : superblock :=
  mkSb (xint FSSIZE) (xint nblocks) (xint NINODES) (xint nlog) (xint 2) (xint (2 + nlog)) (xint (2 + nlog + ninodeblocks)).
Definition sb_bytes (sb : superblock) : list Z :=
  mjoin (map (le_enc 4) [sb_size sb; sb_nblocks sb; sb_ninodes sb; sb_nlog sb; sb_logstart sb; sb_inodestart sb; sb_bmapstart sb]).

Definition wsect (sec : Z) (buf : list Z) : M unit :=
  modify (fun s => set_img (<[sec := buf]> (m_img s)) (Z.max (m_size s) (sec + 1)) s).
Definition rsect (sec : Z) : M (list Z) :=
  s ← getst;
  if sec <? m_size s then mret (default zblock (m_img s !! sec)) else stop Exit1.

Definition dinode0 : inode := mkInode 0 0 0 0 0 0 0 0 0 (replicate (NDIRECT + 1) 0).

Definition winode (inum : Z) (ip : inode) : M unit :=
  let bn := IBLOCK inum mk_sb in
  buf ← rsect bn;
  wsect bn (splice buf (di_off inum) (store_dinode ip)).
Definition rinode (inum : Z) : M inode :=
  let bn := IBLOCK inum mk_sb in
  buf ← rsect bn;
  mret (load_dinode (slice buf (di_off inum) sizeof_dinode) dinode0).

Definition ialloc (type : Z) : M Z :=
  inum ← gets m_freeinode;
  modify (set_freeinode (u32 (inum + 1))) ;;
  winode inum (mkInode 0 0 0 0 (s16 (xshort type)) 0 0 (s16 (xshort 1)) (xint 0) (replicate (NDIRECT + 1) 0)) ;;
  mret inum.

Fixpoint balloc_marks (n : nat) (i : Z) (buf : list Z) : list Z :=
  match n with
  | O => buf
  | S n' => balloc_marks n' (i + 1) (set_bit buf i)
  end.
Definition balloc (used : Z) : M unit :=
  if used <? Z.of_nat BSIZE * 8 then wsect (sb_bmapstart mk_sb) (balloc_marks (Z.to_nat used) 0 zblock) else stop Assertion.

(** [freeblock++]. *)
Definition take_block : M Z :=
  b ← gets m_freeblock;
  modify (set_freeblock (u32 (b + 1))) ;;
  mret b.

Definition addr (ip : inode) (i : nat) : Z := nth i (i_addrs ip) 0.
Definition set_addr (i : nat) (a : Z) (ip : inode) : inode := set_i_addrs (<[i := a]> (i_addrs ip)) ip.

(** The block that holds block [fbn] of the file, allocated if need be. *)
Definition block_for (din : inode) (fbn : nat) : M (inode * Z) :=
  if (fbn <? NDIRECT)%nat then
    din ← (if xint (addr din fbn) =? 0 then b ← take_block; mret (set_addr fbn (xint b) din) else mret din);
    mret (din, xint (addr din fbn))
  else
    din ← (if xint (addr din NDIRECT) =? 0 then b ← take_block; mret (set_addr NDIRECT (xint b) din) else mret din);
    indirect ← rsect (xint (addr din NDIRECT));
    if get_uint indirect (fbn - NDIRECT) =? 0 then
      b ← take_block;
      let indirect := set_uint indirect (fbn - NDIRECT) (xint b) in
      wsect (xint (addr din NDIRECT)) indirect ;;
      mret (din, xint (get_uint indirect (fbn - NDIRECT)))
    else mret (din, xint (get_uint indirect (fbn - NDIRECT))).

(** The loop of [iappend]; [p] are the bytes still to be appended at [off]. *)
Fixpoint iappend_loop (fuel : nat) (din : inode) (off : nat) (p : list Z) : M (inode * nat) :=
  match p, fuel with
  | [], _ => mret (din, off)
  | _, O => stop MkFuel
  | _, S fuel' =>
      let fbn := (off / BSIZE)%nat in
      if (fbn <? MAXFILE)%nat then
        '(din, x) ← block_for din fbn;
        let n1 := Nat.min (length p) ((fbn + 1) * BSIZE - off) in
        buf ← rsect x;
        wsect x (splice buf (off - fbn * BSIZE) (take n1 p)) ;;
        iappend_loop fuel' din (off + n1) (drop n1 p)
      else stop Assertion
  end.
Definition iappend (inum : Z) (xp : list Z) : M unit :=
  din ← rinode inum;
  '(din, off) ← iappend_loop (S (length xp)) din (Z.to_nat (xint (i_size din))) xp;
  winode inum (set_i_size (xint (Z.of_nat off)) din).

(** ** main *)

Definition dirent (inum : Z) (name : list Z) : list Z := le_enc 2 (xshort inum) ++ name.

Fixpoint append_pieces (inum : Z) (pieces : list (list Z)) : M unit :=
  match pieces with
  | [] => mret tt
  | p :: pieces' => iappend inum p ;; append_pieces inum pieces'
  end.

(** The name without a leading underscore. *)
Definition file_name (arg : list Z) : list Z := match arg with c :: arg' => if c =? 95 then arg' else arg | [] => arg end.

(** One file of the command line. *)
Definition add_file (rootino : Z) (arg : list Z) (contents : option (list (list Z))) : M unit :=
  if existsb (Z.eqb c_slash) arg then stop Assertion
  else match contents with
  | None => stop Exit1
  | Some pieces =>
      inum ← ialloc T_FILE;
      iappend rootino (dirent inum (strncpy_ DIRSIZ (file_name arg))) ;;
      append_pieces inum pieces
  end.

Fixpoint add_files (rootino : Z) (files : list (list Z * option (list (list Z)))) : M unit :=
  match files with
  | [] => mret tt
  | (arg, contents) :: files' => add_file rootino arg contents ;; add_files rootino files'
  end.

Definition fix_root (rootino : Z) : M unit :=
  din ← rinode rootino;
  let off := xint (i_size din) in
  let off := (off / Z.of_nat BSIZE + 1) * Z.of_nat BSIZE in
  winode rootino (set_i_size (xint off) din).

Definition mkfs (files : list (list Z * option (list (list Z)))) : M unit :=
  modify (set_freeblock nmeta) ;;
  for_loop (Z.to_nat FSSIZE) 0 (fun i => wsect i zblock) ;;
  wsect 1 (splice zblock 0 (sb_bytes mk_sb)) ;;
  rootino ← ialloc T_DIR;
  if negb (rootino =? ROOTINO) then stop Assertion
  else
    iappend rootino (dirent rootino (splice (replicate DIRSIZ 0) 0 (chars "."))) ;;
    iappend rootino (dirent rootino (splice (replicate DIRSIZ 0) 0 (chars ".."))) ;;
    add_files rootino files ;;
    fix_root rootino ;;
    used ← gets m_freeblock;
    balloc used.

Definition mk_start : mkst := mkMk ∅ 0 1 0.

(** ** The image *)

Lemma xint_id x : 0 <= x < 2 ^ 32 -> xint x = x.
Proof.
  intros Hx. unfold xint. rewrite !Z.shiftr_div_pow2 by lia.
  transitivity (le_dec (le_enc 4 x)); [|by apply le_dec_enc]. cbn [le_enc]. rewrite !Z.div_div by lia. done.
Qed.

Lemma xshort_id x : 0 <= x < 2 ^ 16 -> xshort x = x.
Proof.
  intros Hx. unfold xshort. rewrite !Z.shiftr_div_pow2 by lia.
  transitivity (le_dec (le_enc 2 x)); [|by apply le_dec_enc]. cbn [le_enc]. done.
Qed.

Definition mblock (m : gmap Z (list Z)) (b : Z) : list Z := default zblock (m !! b).
(** A kernel that is started on the image, to speak of what it sees there. *)
Definition boots (m : gmap Z (list Z)) : kstate := powered_on (mkDisk FSSIZE m []).

Lemma view_boots m b : view (boots m) b = mblock m b.
Proof. reflexivity. Qed.

Lemma mblock_insert m b v b' : mblock (<[b := v]> m) b' = if decide (b' = b) then v else mblock m b'.
Proof.
  unfold mblock. case_decide as E; [subst; by rewrite lookup_insert_eq|]. by rewrite lookup_insert_ne.
Qed.

Lemma nmeta_eq : nmeta = 59.
Proof. reflexivity. Qed.

Lemma bytes_splice l i v : bytes l -> bytes v -> bytes (splice l i v).
Proof. intros Hl Hv. unfold splice. apply Forall_app_2; [by apply Forall_take|]. apply Forall_app_2; [done|by apply Forall_drop]. Qed.

(** The blocks are blocks, and those from [fb] on are free and zero. *)
Record image_ok (m : gmap Z (list Z)) (fb : Z) : Prop := {
  im_fb : nmeta <= fb <= FSSIZE;
  im_len : forall b, length (mblock m b) = BSIZE;
  im_bytes : forall b, bytes (mblock m b);
  im_zero : forall b, fb <= b -> mblock m b = zblock
}.

Abbreviation mst m fi fb := (mkMk m FSSIZE fi fb).

Lemma rsect_run m fi fb b : b < FSSIZE -> rsect b (mst m fi fb) = Ret (mblock m b) (mst m fi fb).
Proof. intros H. unfold rsect. rewrite bind_run. cbn. by rewrite (proj2 (Z.ltb_lt _ _)). Qed.

Lemma wsect_run m fi fb b v : b < FSSIZE -> wsect b v (mst m fi fb) = Ret tt (mst (<[b := v]> m) fi fb).
Proof. intros H. unfold wsect, modify, set_img. cbn [m_img m_size m_freeinode m_freeblock]. by rewrite Z.max_l by lia. Qed.

Lemma take_block_run m fi fb : 0 <= fb < FSSIZE -> take_block (mst m fi fb) = Ret fb (mst m fi (fb + 1)).
Proof.
  intros H. unfold take_block. rewrite bind_run. cbn. unfold set_freeblock. cbn.
  rewrite u32_small by (unfold FSSIZE in *; lia). done.
Qed.

Lemma image_ok_insert m fb fb' b v :
  image_ok m fb -> fb <= fb' <= FSSIZE -> b < fb' -> length v = BSIZE -> bytes v -> image_ok (<[b := v]> m) fb'.
Proof.
  intros [H1 H2 H3 H4] Hfb Hb Hl Hv. split; intros.
  - lia.
  - rewrite mblock_insert. by case_decide.
  - rewrite mblock_insert. by case_decide.
  - rewrite mblock_insert, decide_False by lia. apply H4. lia.
Qed.

Lemma image_ok_mono m fb fb' : image_ok m fb -> fb <= fb' <= FSSIZE -> image_ok m fb'.
Proof. intros [H1 H2 H3 H4] Hfb. split; [lia|done|done|]. intros. apply H4. lia. Qed.

(** ** One file *)

Abbreviation blk m := (blk_of (boots m)).

(** The first [nb] blocks of the file, and no others, are in the image below
    [fb], and hold [c] and then zeros. *)
Record holds_file (m : gmap Z (list Z)) (fb : Z) (v : inode) (c : list Z) (nb : nat) : Prop := {
  hf_len : length (i_addrs v) = (NDIRECT + 1)%nat;
  hf_nb : (length c <= nb * BSIZE)%nat /\ (nb <= MAXFILE)%nat;
  hf_blk : forall bn, (bn < nb)%nat -> nmeta <= blk m v bn < fb;
  hf_none : forall bn, (nb <= bn < MAXFILE)%nat -> blk m v bn = 0;
  hf_ind : ind_of v <> 0 -> nmeta <= ind_of v < fb /\ (NDIRECT <= nb)%nat;
  hf_ind0 : ind_of v = 0 -> (nb <= NDIRECT)%nat;
  hf_inj : forall bn bn', (bn < nb)%nat -> (bn' < nb)%nat -> blk m v bn = blk m v bn' -> bn = bn';
  hf_sep : forall bn, (bn < nb)%nat -> blk m v bn <> ind_of v;
  hf_data : forall o, (o < nb * BSIZE)%nat -> nth (o mod BSIZE) (mblock m (blk m v (o / BSIZE))) 0 = nth o c 0
}.

(** The blocks of the file. *)
Definition fowns (m : gmap Z (list Z)) (v : inode) (b : Z) : Prop :=
  b <> 0 /\ (b = ind_of v \/ exists bn, (bn < MAXFILE)%nat /\ b = blk m v bn).

Lemma holds_file_frame m fb v c nb m' fb' :
  holds_file m fb v c nb -> fb <= fb' -> (forall b, fowns m v b -> mblock m' b = mblock m b) ->
  holds_file m' fb' v c nb /\ (forall b, fowns m' v b <-> fowns m v b).
Proof.
  intros H Hfb Hm. assert (E : forall bn, blk m' v bn = blk m v bn).
  { intros bn. apply blk_of_view. intros Hi. apply Hm. split; [done|by left]. }
  split; [|intros b; unfold fowns; by setoid_rewrite E]. destruct H as [H1 H2 H3 H4 H5 H6 H7 H8 H9].
  split; intros; rewrite ?E in *; eauto.
  - specialize (H3 bn). lia.
  - specialize (H5 H). lia.
  - rewrite Hm; [auto|]. assert (o / BSIZE < nb)%nat by (apply Nat.Div0.div_lt_upper_bound; lia).
    specialize (H3 (o / BSIZE)%nat). rewrite nmeta_eq in *. split; [lia|]. right. exists (o / BSIZE)%nat. split; [lia|done].
Qed.

(** What one step of writing a file changes: blocks of the file, and free ones. *)
Record grown (m : gmap Z (list Z)) (fb : Z) (v : inode) (m' : gmap Z (list Z)) (fb' : Z) (v' : inode) : Prop := {
  gr_fb : fb <= fb';
  gr_im : image_ok m' fb';
  gr_frame : forall b, b < fb -> ~ fowns m v b -> mblock m' b = mblock m b;
  gr_owns : forall b, fowns m' v' b -> fowns m v b \/ fb <= b;
  gr_v : v' = set_i_addrs (i_addrs v') v
}.

Lemma mk_grown_refl m fb v : image_ok m fb -> grown m fb v m fb v.
Proof. intros H. split; auto; [lia|by destruct v]. Qed.

Lemma mk_grown_trans m1 fb1 v1 m2 fb2 v2 m3 fb3 v3 :
  grown m1 fb1 v1 m2 fb2 v2 -> grown m2 fb2 v2 m3 fb3 v3 -> grown m1 fb1 v1 m3 fb3 v3.
Proof.
  intros [A1 A2 A3 A4 A5] [B1 B2 B3 B4 B5]. split; [lia|done| | |].
  - intros b Hb Ho. rewrite B3, A3; [done..|lia|]. intros [?|?]%A4; [done|lia].
  - intros b [?%A4|?]%B4; [done|right; lia].
  - rewrite B5, A5. by destruct v1.
Qed.

Lemma nth_insert_addr (l : list Z) i a j : (i < length l)%nat -> nth j (<[i := a]> l) 0 = if decide (j = i) then a else nth j l 0.
Proof.
  intros Hi. rewrite !nth_lookup. case_decide as E; [subst; by rewrite list_lookup_insert_eq|]. by rewrite list_lookup_insert_ne.
Qed.

Lemma ind_set_addr v i a : (i < length (i_addrs v))%nat -> ind_of (set_addr i a v) = if decide (i = NDIRECT) then a else ind_of v.
Proof.
  intros Hi. unfold ind_of, set_addr. cbn [i_addrs set_i_addrs]. rewrite nth_insert_addr by done. repeat case_decide; congruence.
Qed.

Lemma blk_set_direct m v i a bn : (i < NDIRECT)%nat -> length (i_addrs v) = (NDIRECT + 1)%nat ->
  blk m (set_addr i a v) bn = if decide (bn = i) then a else blk m v bn.
Proof.
  intros Hi Hl. unfold blk_of. rewrite ind_set_addr, (decide_False (P := i = NDIRECT)) by lia.
  cbn [i_addrs set_i_addrs set_addr]. rewrite nth_insert_addr by lia.
  destruct (decide (bn < NDIRECT)%nat); [done|]. by rewrite decide_False by lia.
Qed.

Lemma nth_zblock o : nth o zblock 0 = 0.
Proof. unfold zblock. generalize BSIZE. intros n. revert o. induction n as [|n IH]; intros [|o]; cbn; auto. Qed.

Lemma fresh_data m fb o : image_ok m fb -> nth o (mblock m fb) 0 = 0.
Proof. intros H. rewrite (im_zero _ _ H) by lia. apply nth_zblock. Qed.

Lemma in_block o nb : (o < S nb * BSIZE)%nat -> (o / BSIZE)%nat <> nb -> (o < nb * BSIZE)%nat.
Proof.
  intros H1 H2. pose proof (Nat.div_mod_eq o BSIZE). pose proof (Nat.mod_upper_bound o BSIZE). unfold BSIZE in *. lia.
Qed.

(** A direct block more. *)
Lemma grow_direct m fb v c nb :
  holds_file m fb v c nb -> image_ok m fb -> fb < FSSIZE -> (nb < NDIRECT)%nat ->
  holds_file m (fb + 1) (set_addr nb fb v) c (S nb) /\ grown m fb v m (fb + 1) (set_addr nb fb v).
Proof.
  intros H Him Hfb Hnb. pose proof (hf_len _ _ _ _ _ H) as Hl. pose proof (im_fb _ _ Him) as Hr.
  assert (E : forall bn, blk m (set_addr nb fb v) bn = if decide (bn = nb) then fb else blk m v bn) by (intros; by apply blk_set_direct).
  assert (I : ind_of (set_addr nb fb v) = ind_of v) by (rewrite ind_set_addr, decide_False; lia).
  destruct H as [_ H2 H3 H4 H5 H6 H7 H8 H9]. rewrite nmeta_eq in *. unfold MAXFILE in *. split.
  - split; rewrite ?I; intros; rewrite ?nmeta_eq.
    + cbn. by rewrite length_insert.
    + unfold MAXFILE. lia.
    + rewrite E. case_decide; [lia|]. specialize (H3 bn). lia.
    + rewrite E, decide_False by lia. apply H4. unfold MAXFILE in *. lia.
    + specialize (H5 H). lia.
    + lia.
    + pose proof (H3 bn). pose proof (H3 bn'). rewrite !E in *. repeat case_decide; try lia. apply H7; [lia..|done].
    + pose proof (H3 bn). rewrite E. case_decide; [|apply H8; lia]. intros E1. specialize (H5 ltac:(lia)). lia.
    + rewrite E. case_decide as Eb; [|by apply H9, in_block].
      rewrite fresh_data by done. symmetry. apply nth_overflow. pose proof (Nat.div_mod_eq o BSIZE). lia.
  - split; [lia|by apply (image_ok_mono m fb); [|lia]|done| |done].
    intros b [Hb Ho]. unfold fowns. rewrite I in Ho. destruct Ho as [Ho|(bn & Hbn & Ho)]; [left; split; auto|].
    rewrite E in Ho. case_decide; [right; lia|]. left. split; [done|]. right. by exists bn.
Qed.

(** The indirect block, still empty. *)
Lemma grow_ind m fb v c :
  holds_file m fb v c NDIRECT -> image_ok m fb -> fb < FSSIZE -> ind_of v = 0 ->
  holds_file m (fb + 1) (set_addr NDIRECT fb v) c NDIRECT /\ grown m fb v m (fb + 1) (set_addr NDIRECT fb v) /\
  ind_of (set_addr NDIRECT fb v) = fb.
Proof.
  intros H Him Hfb Hi. pose proof (hf_len _ _ _ _ _ H) as Hl. pose proof (im_fb _ _ Him) as Hr. rewrite nmeta_eq in *.
  assert (I : ind_of (set_addr NDIRECT fb v) = fb) by (rewrite ind_set_addr, decide_True; lia).
  assert (E : forall bn, blk m (set_addr NDIRECT fb v) bn = blk m v bn).
  { intros bn. unfold blk_of. rewrite I, Hi. cbn [i_addrs set_i_addrs set_addr]. rewrite nth_insert_addr by lia.
    case_decide; [by rewrite decide_False by lia|]. rewrite view_boots, (im_zero _ _ Him) by lia.
    unfold zblock. rewrite get_uint_zeros. by destruct (fb =? 0). }
  destruct H as [_ H2 H3 H4 H5 H6 H7 H8 H9]. rewrite nmeta_eq in *. split; [|split; [|done]].
  - split; rewrite ?I; intros; rewrite ?E in *; rewrite ?nmeta_eq; auto; try lia.
    + cbn. by rewrite length_insert.
    + specialize (H3 bn). lia.
    + specialize (H3 bn). lia.
  - split; [lia|by apply (image_ok_mono m fb); [|lia]|done| |done].
    intros b [Hb Ho]. unfold fowns. setoid_rewrite E in Ho. rewrite I in Ho. destruct Ho as [Ho|Ho]; [right; lia|left; auto].
Qed.

(** An indirect block more. *)
Lemma grow_indirect m fb v c nb :
  holds_file m fb v c nb -> image_ok m fb -> fb < FSSIZE -> (NDIRECT <= nb < MAXFILE)%nat -> ind_of v <> 0 ->
  let m' := <[ind_of v := set_uint (mblock m (ind_of v)) (nb - NDIRECT) fb]> m in
  holds_file m' (fb + 1) v c (S nb) /\ grown m fb v m' (fb + 1) v /\ blk m' v nb = fb.
Proof.
  intros H Him Hfb Hnb Hi m'. pose proof (im_fb _ _ Him) as Hr. rewrite nmeta_eq in Hr.
  assert (Hfit : (4 * (nb - NDIRECT) + 4 <= length (mblock m (ind_of v)))%nat).
  { rewrite (im_len _ _ Him). unfold MAXFILE, NINDIRECT, NDIRECT in *. change (BSIZE / 4)%nat with 128%nat in *. unfold BSIZE in *. lia. }
  assert (E : forall bn, blk m' v bn = if decide (bn = nb) then fb else blk m v bn).
  { intros bn. unfold blk_of. destruct (decide (bn < NDIRECT)%nat); [by rewrite decide_False by lia|].
    rewrite (proj2 (Z.eqb_neq _ _)) by done. rewrite !view_boots. subst m'. rewrite mblock_insert, decide_True by done.
    rewrite get_set_uint by (done || unfold FSSIZE in *; lia). repeat case_decide; try done; lia. }
  pose proof (hf_ind _ _ _ _ _ H Hi) as Hir. rewrite nmeta_eq in Hir.
  assert (Him' : image_ok m' (fb + 1)).
  { eapply image_ok_insert; [done|lia|lia|by rewrite length_set_uint, (im_len _ _ Him)|].
    apply bytes_splice; [apply Him|apply le_enc_bytes]. }
  destruct H as [H1 H2 H3 H4 H5 H6 H7 H8 H9]. rewrite nmeta_eq in *. split; [|split]; [| |by rewrite E, decide_True].
  - split; intros; rewrite ?nmeta_eq; auto; try lia.
    + rewrite E. case_decide; [lia|]. specialize (H3 bn). lia.
    + rewrite E, decide_False by lia. apply H4. lia.
    + pose proof (H3 bn). pose proof (H3 bn'). rewrite !E in *. repeat case_decide; try lia. apply H7; [lia..|done].
    + rewrite E. case_decide; [lia|apply H8; lia].
    + rewrite E. subst m'. rewrite mblock_insert. destruct (decide (o / BSIZE = nb)%nat) as [Eb|Eb].
      * rewrite decide_False by lia. rewrite fresh_data by done. symmetry. apply nth_overflow. pose proof (Nat.div_mod_eq o BSIZE). lia.
      * assert (o < nb * BSIZE)%nat by (by apply in_block). rewrite decide_False; [auto|].
        apply H8. apply Nat.Div0.div_lt_upper_bound. lia.
  - split; [lia|done| | |by destruct v].
    + intros b Hb Ho. subst m'. rewrite mblock_insert, decide_False; [done|]. intros ->. apply Ho. split; [done|by left].
    + intros b [Hb Ho]. unfold fowns. setoid_rewrite E in Ho. destruct Ho as [Ho|(bn & Hbn & Ho)]; [left; auto|].
      case_decide; [right; lia|]. left. split; [done|]. right. by exists bn.
Qed.

(** The blocks that [nb] blocks of data take. *)
Definition cost (nb : nat) : Z := Z.of_nat nb + (if (NDIRECT <? nb)%nat then 1 else 0).
Definition tight (v : inode) (nb : nat) : Prop := ind_of v <> 0 -> (NDIRECT < nb)%nat.

Lemma xint_block b fb : b = 0 \/ nmeta <= b < fb -> fb <= FSSIZE -> xint b = b.
Proof. rewrite nmeta_eq. unfold FSSIZE. intros. apply xint_id. lia. Qed.

Lemma hf_addr m fb v c nb bn : holds_file m fb v c nb -> (bn < MAXFILE)%nat -> blk m v bn = 0 \/ nmeta <= blk m v bn < fb.
Proof.
  intros H Hb. destruct (decide (bn < nb)%nat); [right; by apply (hf_blk _ _ _ _ _ H)|left; apply (hf_none _ _ _ _ _ H); lia].
Qed.

Lemma hf_addr_ind m fb v c nb : holds_file m fb v c nb -> ind_of v = 0 \/ nmeta <= ind_of v < fb.
Proof. intros H. destruct (decide (ind_of v = 0)); [by left|right; by apply (hf_ind _ _ _ _ _ H)]. Qed.

Lemma hf_xind m fb v c nb : holds_file m fb v c nb -> image_ok m fb -> xint (addr v NDIRECT) = ind_of v.
Proof. intros H Him. apply (xint_block _ fb); [by eapply hf_addr_ind|apply Him]. Qed.

(** [block_for], on a block that the file has. *)
Lemma block_for_old m fi fb v c nb bn :
  holds_file m fb v c nb -> image_ok m fb -> (bn < nb)%nat -> block_for v bn (mst m fi fb) = Ret (v, blk m v bn) (mst m fi fb).
Proof.
  intros H Him Hbn. pose proof (im_fb _ _ Him) as Hr. pose proof (hf_blk _ _ _ _ _ H bn Hbn) as Hb.
  pose proof (xint_block _ _ (or_intror Hb) ltac:(lia)) as Ex. rewrite nmeta_eq in *. unfold block_for.
  destruct (Nat.ltb_spec bn NDIRECT).
  - rewrite blk_of_direct in * by done. unfold addr. rewrite Ex, (proj2 (Z.eqb_neq _ _)) by lia. rewrite ret_bind. by rewrite Ex.
  - assert (Hi : ind_of v <> 0) by (intros E; apply (hf_ind0 _ _ _ _ _ H) in E; lia).
    pose proof (hf_xind _ _ _ _ _ H Him) as Ei. pose proof (hf_ind _ _ _ _ _ H Hi) as Hir.
    rewrite Ei, (proj2 (Z.eqb_neq _ _)) by done. rewrite ret_bind, Ei. rewrite (bind_Ret _ _ _ _ _ (rsect_run m fi fb (ind_of v) ltac:(lia))).
    assert (E : blk m v bn = get_uint (mblock m (ind_of v)) (bn - NDIRECT)).
    { unfold blk_of. rewrite decide_False by lia. by rewrite (proj2 (Z.eqb_neq _ _)). }
    rewrite <- E, (proj2 (Z.eqb_neq _ _)) by lia. by rewrite Ex.
Qed.

(** The end of [block_for] for an indirect block that the file does not have. *)
Lemma block_for_slot m fi fb v c nb :
  holds_file m fb v c nb -> image_ok m fb -> (NDIRECT <= nb < MAXFILE)%nat -> ind_of v <> 0 -> fb < FSSIZE ->
  exists m', (indirect ← rsect (xint (addr v NDIRECT));
    if get_uint indirect (nb - NDIRECT) =? 0 then
      b ← take_block;
      let indirect := set_uint indirect (nb - NDIRECT) (xint b) in
      wsect (xint (addr v NDIRECT)) indirect ;;
      mret (v, xint (get_uint indirect (nb - NDIRECT)))
    else mret (v, xint (get_uint indirect (nb - NDIRECT)))) (mst m fi fb) = Ret (v, blk m' v nb) (mst m' fi (fb + 1)) /\
    holds_file m' (fb + 1) v c (S nb) /\ grown m fb v m' (fb + 1) v.
Proof.
  intros H Him Hnb Hi Hfb. pose proof (im_fb _ _ Him) as Hr. destruct (grow_indirect _ _ _ _ _ H Him Hfb Hnb Hi) as (H' & G & Eb).
  set (m' := <[ind_of v := _]> m) in *. exists m'. split; [|done]. pose proof (hf_ind _ _ _ _ _ H Hi) as Hir.
  rewrite (hf_xind _ _ _ _ _ H Him). rewrite nmeta_eq in *.
  rewrite (bind_Ret _ _ _ _ _ (rsect_run m fi fb (ind_of v) ltac:(lia))).
  assert (E : forall m, blk m v nb = get_uint (mblock m (ind_of v)) (nb - NDIRECT)).
  { intros. unfold blk_of. rewrite decide_False by lia. by rewrite (proj2 (Z.eqb_neq _ _)). }
  rewrite <- E, (hf_none _ _ _ _ _ H) by lia. cbn [Z.eqb]. rewrite (bind_Ret _ _ _ _ _ (take_block_run m fi fb ltac:(lia))).
  rewrite (xint_id fb) by (unfold FSSIZE in *; lia). rewrite (bind_Ret _ _ _ _ _ (wsect_run m fi (fb + 1) (ind_of v) _ ltac:(lia))).
  fold m'. assert (E1 : get_uint (set_uint (mblock m (ind_of v)) (nb - NDIRECT) fb) (nb - NDIRECT) = fb).
  { transitivity (blk m' v nb); [|done]. rewrite E. subst m'. by rewrite mblock_insert, decide_True. }
  rewrite E1, xint_id by (unfold FSSIZE in *; lia). by rewrite Eb.
Qed.

(** [block_for] gives the block of the file at the end or before it, and
    takes the blocks it needs. *)
Lemma block_for_run m fi fb v c nb bn :
  holds_file m fb v c nb -> image_ok m fb -> tight v nb -> (bn <= nb)%nat -> (bn < MAXFILE)%nat ->
  let nb' := Nat.max nb (S bn) in let fb' := fb + (cost nb' - cost nb) in fb' <= FSSIZE ->
  exists m' v', block_for v bn (mst m fi fb) = Ret (v', blk m' v' bn) (mst m' fi fb') /\
    holds_file m' fb' v' c nb' /\ tight v' nb' /\ grown m fb v m' fb' v'.
Proof.
  intros H Him Ht Hbn Hmax nb' fb' Hfb. subst nb' fb'. destruct (decide (bn < nb)%nat) as [Hlt|Hge].
  { rewrite Nat.max_l by lia. replace (fb + _) with fb by lia. exists m, v. split; [by eapply block_for_old|].
    split; [done|]. split; [done|]. by apply mk_grown_refl. }
  assert (bn = nb) as -> by lia. rewrite Nat.max_r in * by lia. pose proof (im_fb _ _ Him) as Hr.
  unfold block_for, cost in *. destruct (Nat.ltb_spec nb NDIRECT) as [Hd|Hd].
  - rewrite (proj2 (Nat.ltb_ge _ _)) in * by lia. rewrite (proj2 (Nat.ltb_ge NDIRECT nb)) in * by lia.
    replace (fb + _) with (fb + 1) in * by lia.
    destruct (grow_direct _ _ _ _ _ H Him ltac:(lia) Hd) as [H' G]. exists m, (set_addr nb fb v).
    pose proof (hf_none _ _ _ _ _ H nb ltac:(unfold MAXFILE; lia)) as E. rewrite blk_of_direct in E by done.
    unfold addr. rewrite E. cbn [xint]. change (xint 0 =? 0) with true. cbn iota. rewrite bind_assoc. rewrite nmeta_eq in *.
    rewrite (bind_Ret _ _ _ _ _ (take_block_run m fi fb ltac:(lia))), ret_bind.
    rewrite (xint_id fb) by (unfold FSSIZE in *; lia). split; [|split; [done|split; [|done]]].
    + rewrite blk_of_direct by done. cbn [set_addr i_addrs set_i_addrs].
      rewrite nth_insert_addr, decide_True by (done || rewrite (hf_len _ _ _ _ _ H); lia). by rewrite xint_id by (unfold FSSIZE in *; lia).
    + unfold tight in *. rewrite ind_set_addr, decide_False by (lia || rewrite (hf_len _ _ _ _ _ H); lia). intros Hi%Ht. lia.
  - rewrite (proj2 (Nat.ltb_lt NDIRECT (S nb))) in * by lia. destruct (decide (ind_of v = 0)) as [Hi|Hi].
    + pose proof (hf_ind0 _ _ _ _ _ H Hi). assert (nb = NDIRECT) as -> by lia. rewrite Nat.ltb_irrefl in *.
      destruct (grow_ind _ _ _ _ H Him ltac:(lia) Hi) as (H1 & G1 & E1).
      destruct (block_for_slot m fi _ _ _ _ H1 (gr_im _ _ _ _ _ _ G1) ltac:(unfold MAXFILE; change NINDIRECT with 128%nat; lia)) as (m' & R & H2 & G2); [rewrite nmeta_eq in *; lia|lia|].
      exists m', (set_addr NDIRECT fb v). rewrite (hf_xind _ _ _ _ _ H Him), Hi. cbn [Z.eqb].
      rewrite bind_assoc. rewrite nmeta_eq in *. rewrite (bind_Ret _ _ _ _ _ (take_block_run m fi fb ltac:(lia))), ret_bind.
      rewrite (xint_id fb) by (unfold FSSIZE in *; lia). replace (fb + (_ - _)) with (fb + 1 + 1) by lia.
      split; [exact R|]. split; [done|]. split; [intros _; lia|]. by eapply mk_grown_trans.
    + specialize (Ht Hi). rewrite (proj2 (Nat.ltb_lt NDIRECT nb)) in * by lia. replace (fb + _) with (fb + 1) in * by lia.
      destruct (block_for_slot m fi _ _ _ _ H Him ltac:(lia) Hi ltac:(lia)) as (m' & R & H2 & G2).
      exists m', v. rewrite (hf_xind _ _ _ _ _ H Him) at 1. rewrite (proj2 (Z.eqb_neq _ _)) by done. rewrite ret_bind.
      split; [exact R|]. split; [done|]. split; [|done]. intros _. lia.
Qed.

Lemma nth_splice (l : list Z) i v k : (i + length v <= length l)%nat ->
  nth k (splice l i v) 0 = if decide (i <= k < i + length v)%nat then nth (k - i) v 0 else nth k l 0.
Proof.
  intros H. rewrite !nth_lookup. case_decide.
  - by rewrite lookup_splice_eq by lia.
  - by rewrite lookup_splice_ne by lia.
Qed.

(** Writing the bytes that follow in the last block. *)
Lemma write_step m fb v c nb ch :
  holds_file m fb v c nb -> image_ok m fb -> (length c / BSIZE < nb)%nat -> (length c mod BSIZE + length ch <= BSIZE)%nat -> bytes ch ->
  let x := blk m v (length c / BSIZE) in
  let m' := <[x := splice (mblock m x) (length c mod BSIZE) ch]> m in
  holds_file m' fb v (c ++ ch) nb /\ grown m fb v m' fb v.
Proof.
  intros H Him Hbn Hfit Hch x m'. set (bn := (length c / BSIZE)%nat) in *. pose proof (im_fb _ _ Him) as Hr.
  pose proof (hf_blk _ _ _ _ _ H bn Hbn) as Hx. fold x in Hx. pose proof (hf_sep _ _ _ _ _ H bn Hbn) as Hs. fold x in Hs.
  assert (E : forall k, blk m' v k = blk m v k).
  { intros k. apply blk_of_view. intros Hi. rewrite !view_boots. subst m'. rewrite mblock_insert, decide_False; done. }
  assert (Him' : image_ok m' fb).
  { eapply image_ok_insert; [done|lia|lia|rewrite length_splice; rewrite (im_len _ _ Him); lia|]. apply bytes_splice; [apply Him|done]. }
  destruct H as [H1 H2 H3 H4 H5 H6 H7 H8 H9]. rewrite nmeta_eq in *.
  pose proof (Nat.div_mod_eq (length c) BSIZE) as Hdc. fold bn in Hdc. split.
  - split; intros; rewrite ?E in *; rewrite ?nmeta_eq; auto.
    + rewrite length_app. split; [|lia]. unfold BSIZE in *. lia.
    + pose proof (Nat.div_mod_eq o BSIZE) as Hdo. pose proof (Nat.mod_upper_bound o BSIZE ltac:(done)) as Hmo.
      set (q := (o / BSIZE)%nat) in *. set (r := (o mod BSIZE)%nat) in *. assert (q < nb)%nat by (unfold BSIZE in *; lia).
      specialize (H9 o H). fold q r in H9. subst m'. rewrite mblock_insert, (nth_lookup (c ++ ch)), lookup_app.
      destruct (decide (q = bn)) as [Eq|Eq].
      * rewrite Eq in *. fold x in H9 |- *. rewrite decide_True by done. rewrite nth_splice by (rewrite (im_len _ _ Him); lia).
        case_decide.
        -- rewrite lookup_ge_None_2 by lia. rewrite nth_lookup. do 2 f_equal. lia.
        -- rewrite H9, nth_lookup. destruct (decide (o < length c)%nat) as [Hl|Hl].
           ++ by destruct (lookup_lt_is_Some_2 _ _ Hl) as [y ->].
           ++ rewrite !lookup_ge_None_2 by lia. done.
      * rewrite decide_False by (intros Ex; apply Eq, H7; [done..|exact Ex]). rewrite H9, nth_lookup.
        destruct (decide (o < length c)%nat) as [Hl|Hl]; [by destruct (lookup_lt_is_Some_2 _ _ Hl) as [y ->]|].
        rewrite !lookup_ge_None_2; [done| |lia]. unfold BSIZE in *. lia.
  - split; [lia|done| | |by destruct v].
    + intros b Hb Ho. subst m'. rewrite mblock_insert, decide_False; [done|]. intros ->. apply Ho. split; [lia|]. right. exists bn. split; [lia|done].
    + intros b [Hb Ho]. left. split; [done|]. by setoid_rewrite E in Ho.
Qed.

Definition nblk (n : nat) : nat := (n + (BSIZE - 1)) / BSIZE.

Lemma nblk_bounds n : (n <= nblk n * BSIZE < n + BSIZE)%nat.
Proof.
  unfold nblk. pose proof (Nat.div_mod_eq (n + (BSIZE - 1)) BSIZE). pose proof (Nat.mod_upper_bound (n + (BSIZE - 1)) BSIZE).
  unfold BSIZE in *. lia.
Qed.

Lemma nblk_uniq n k : (n <= k * BSIZE < n + BSIZE)%nat -> nblk n = k.
Proof. intros H. pose proof (nblk_bounds n). unfold BSIZE in *. lia. Qed.

Lemma cost_mono n n' : (n <= n')%nat -> cost n <= cost n'.
Proof. intros H. unfold cost. destruct (Nat.ltb_spec NDIRECT n), (Nat.ltb_spec NDIRECT n'); lia. Qed.

Lemma nblk_mono n n' : (n <= n')%nat -> (nblk n <= nblk n')%nat.
Proof. intros H. pose proof (nblk_bounds n). pose proof (nblk_bounds n'). unfold BSIZE in *. lia. Qed.

(** The loop of [iappend] appends. *)
Lemma iappend_loop_run fi fuel : forall p m fb v c,
  (length p < fuel)%nat -> bytes p -> holds_file m fb v c (nblk (length c)) -> image_ok m fb -> tight v (nblk (length c)) ->
  (length (c ++ p) <= MAXFILE * BSIZE)%nat ->
  let nb' := nblk (length (c ++ p)) in let fb' := fb + (cost nb' - cost (nblk (length c))) in fb' <= FSSIZE ->
  exists m' v', iappend_loop fuel v (length c) p (mst m fi fb) = Ret (v', length (c ++ p)) (mst m' fi fb') /\
    holds_file m' fb' v' (c ++ p) nb' /\ tight v' nb' /\ grown m fb v m' fb' v'.
Proof.
  induction fuel as [|fuel IH]; intros p m fb v c Hfuel Hp H Him Ht Hmax nb' fb' Hfb; [lia|].
  destruct p as [|a p0]; [|set (p := a :: p0) in *].
  { subst nb' fb'. rewrite app_nil_r in *. replace (fb + _) with fb by lia. exists m, v. repeat (split; [done|]). by apply mk_grown_refl. }
  assert (Hp1 : (1 <= length p)%nat) by (subst p; cbn; lia). rewrite length_app in Hmax.
  set (fbn := (length c / BSIZE)%nat). pose proof (Nat.div_mod_eq (length c) BSIZE) as Hd. fold fbn in Hd.
  pose proof (Nat.mod_upper_bound (length c) BSIZE ltac:(done)) as Hm. pose proof (nblk_bounds (length c)) as Hnb.
  set (n1 := Nat.min (length p) ((fbn + 1) * BSIZE - length c)).
  assert (Hn1 : (1 <= n1 <= length p)%nat /\ (length c mod BSIZE + n1 <= BSIZE)%nat) by (unfold BSIZE in *; lia).
  assert (Hb : (fbn < MAXFILE)%nat) by (apply Nat.Div0.div_lt_upper_bound; lia).
  assert (Hle : (fbn <= nblk (length c))%nat) by (unfold BSIZE in *; lia).
  assert (Emax : Nat.max (nblk (length c)) (S fbn) = nblk (length (c ++ take n1 p))).
  { symmetry. apply nblk_uniq. rewrite length_app, length_take. unfold BSIZE in *. lia. }
  assert (Hl1 : (length (c ++ take n1 p) = length c + n1)%nat) by (rewrite length_app, length_take; lia).
  assert (Hcost : cost (nblk (length (c ++ take n1 p))) <= cost nb').
  { apply cost_mono, nblk_mono. rewrite Hl1, length_app. lia. }
  destruct (block_for_run m fi fb v c _ fbn H Him Ht Hle Hb ltac:(rewrite Emax; lia)) as (m1 & v1 & R1 & H1 & T1 & G1).
  rewrite Emax in *. set (fb1 := fb + (cost (nblk (length (c ++ take n1 p))) - cost (nblk (length c)))) in *.
  destruct (write_step m1 fb1 v1 c _ (take n1 p) H1 (gr_im _ _ _ _ _ _ G1)) as [H2 G2];
    [fold fbn; lia|rewrite length_take; lia|by apply Forall_take|].
  fold fbn in H2, G2. set (m2 := <[_ := _]> m1) in *.
  destruct (IH (drop n1 p) m2 fb1 v1 (c ++ take n1 p)) as (m3 & v3 & R3 & H3 & T3 & G3);
    [rewrite length_drop; lia|by apply Forall_drop|done|apply G2|done|rewrite length_app, Hl1, length_drop; lia|
     rewrite <- app_assoc, take_drop; subst fb1 fb' nb'; lia|].
  rewrite <- app_assoc, take_drop in R3, H3, T3, G3.
  replace (fb1 + _) with fb' in R3, H3, G3 by (subst fb' fb1 nb'; lia). exists m3, v3.
  split; [|split; [done|split; [done|]]; eapply mk_grown_trans; [exact G1|]; by eapply mk_grown_trans].
  cbn [iappend_loop]. subst p. cbn iota. fold fbn. rewrite (proj2 (Nat.ltb_lt _ _)) by done.
  rewrite (bind_Ret _ _ _ _ _ R1). fold n1. pose proof (hf_blk _ _ _ _ _ H1 fbn ltac:(lia)) as Hx. pose proof (im_fb _ _ (gr_im _ _ _ _ _ _ G1)).
  rewrite (bind_Ret _ _ _ _ _ (rsect_run m1 fi fb1 (blk m1 v1 fbn) ltac:(lia))).
  replace (length c - fbn * BSIZE)%nat with (length c mod BSIZE)%nat by lia.
  rewrite (bind_Ret _ _ _ _ _ (wsect_run m1 fi fb1 (blk m1 v1 fbn) _ ltac:(lia))). fold m2. by rewrite <- Hl1.
Qed.

(** ** The inodes *)

Definition dino (m : gmap Z (list Z)) (inum : Z) : inode :=
  load_dinode (slice (mblock m (IBLOCK inum mk_sb)) (di_off inum) sizeof_dinode) dinode0.

(** The fields that are not on disk are zero. *)
Definition bare (v : inode) : Prop := i_dev v = 0 /\ i_inum v = 0 /\ i_ref v = 0 /\ i_flags v = 0.

Lemma bare_dino m inum : bare (dino m inum).
Proof. done. Qed.

Lemma bare_load v : bare v -> inode_ok v -> load_dinode (store_dinode v) dinode0 = v.
Proof. intros (H1 & H2 & H3 & H4) H. rewrite load_store by done. destruct v; cbn in *; congruence. Qed.

(** The number of inodes that fit the inode blocks. *)
Definition MAXINO : Z := ninodeblocks * IPB.

Lemma iblock_eq inum : 0 <= inum < MAXINO -> IBLOCK inum mk_sb = inum / 8 + 32 /\ 32 <= IBLOCK inum mk_sb < 58.
Proof.
  intros H. change MAXINO with 208 in H. unfold IBLOCK. change IPB with 8. change (sb_inodestart mk_sb) with 32.
  assert (0 <= inum / 8 < 26) by (split; [apply Z.div_pos; lia|apply Z.div_lt_upper_bound; lia]).
  rewrite u32_small by lia. lia.
Qed.

Lemma rinode_run m fi fb inum : 0 <= inum < MAXINO -> rinode inum (mst m fi fb) = Ret (dino m inum) (mst m fi fb).
Proof.
  intros H. destruct (iblock_eq inum H) as [_ Hb]. unfold rinode. by kstep (rsect_run m fi fb (IBLOCK inum mk_sb) ltac:(unfold FSSIZE; lia)).
Qed.

Lemma di_off_apart i j : 0 <= i -> 0 <= j -> i <> j -> i / 8 = j / 8 ->
  (di_off j + sizeof_dinode <= di_off i \/ di_off i + sizeof_dinode <= di_off j)%nat.
Proof.
  intros Hi Hj Hne E. unfold di_off, sizeof_dinode. change IPB with 8. pose proof (Z.div_mod i 8). pose proof (Z.div_mod j 8).
  pose proof (Z.mod_pos_bound i 8). pose proof (Z.mod_pos_bound j 8). lia.
Qed.

(** Writing an inode: it is there, and nothing else changes. *)
Lemma winode_run m fi fb inum v : 0 <= inum < MAXINO -> image_ok m fb -> inode_ok v -> bare v ->
  exists m', winode inum v (mst m fi fb) = Ret tt (mst m' fi fb) /\ image_ok m' fb /\ dino m' inum = v /\
    (forall i, 0 <= i < MAXINO -> i <> inum -> dino m' i = dino m i) /\
    (forall b, b < 32 \/ 58 <= b -> mblock m' b = mblock m b).
Proof.
  intros H Him Hv Hbare. destruct (iblock_eq inum H) as [Eb Hb]. set (B := IBLOCK inum mk_sb) in *.
  exists (<[B := splice (mblock m B) (di_off inum) (store_dinode v)]> m). pose proof (im_fb _ _ Him) as Hr. rewrite nmeta_eq in Hr.
  pose proof (length_store v Hv) as Hlen. pose proof (di_off_fits inum) as Hfit. pose proof (im_len _ _ Him B) as HlB.
  split; [|split; [|split; [|split]]].
  - unfold winode. fold B. kstep (rsect_run m fi fb B ltac:(unfold FSSIZE; lia)). apply wsect_run. unfold FSSIZE. lia.
  - eapply image_ok_insert; [done|lia|lia|rewrite length_splice; lia|]. apply bytes_splice; [apply Him|].
    unfold store_dinode, bytes. rewrite !Forall_app. repeat split; try apply le_enc_bytes. apply Forall_join, Forall_map, Forall_forall. intros; apply le_enc_bytes.
  - unfold dino. fold B. rewrite mblock_insert, decide_True by done. rewrite <- Hlen, slice_splice by lia. by apply bare_load.
  - intros i Hi Hne. unfold dino. rewrite mblock_insert. case_decide as E; [|done]. rewrite E. f_equal.
    destruct (iblock_eq i Hi) as [Ei _]. rewrite slice_splice_ne; [done|lia|]. rewrite Hlen. apply di_off_apart; lia.
  - intros b Hbb. rewrite mblock_insert, decide_False; [done|lia].
Qed.

Lemma holds_file_addrs m fb v v' c nb : i_addrs v' = i_addrs v -> holds_file m fb v c nb -> holds_file m fb v' c nb.
Proof.
  intros E H. assert (I : ind_of v' = ind_of v) by (unfold ind_of; by rewrite E).
  assert (B : forall bn, blk m v' bn = blk m v bn) by (intros; unfold blk_of; by rewrite I, E).
  destruct H. split; intros; rewrite ?I, ?B, ?E in *; auto.
Qed.

Lemma fowns_addrs m v v' b : i_addrs v' = i_addrs v -> fowns m v' b <-> fowns m v b.
Proof. intros E. unfold fowns, blk_of, ind_of. by rewrite E. Qed.

Lemma fowns_range m fb v c nb b : holds_file m fb v c nb -> fowns m v b -> nmeta <= b < fb.
Proof.
  intros H [Hb [->|(bn & Hbn & ->)]].
  - by apply (hf_ind _ _ _ _ _ H).
  - by destruct (hf_addr _ _ _ _ _ bn H Hbn).
Qed.

Lemma holds_file_ranges m fb v c nb : holds_file m fb v c nb -> fb <= FSSIZE -> Forall (fun a => 0 <= a < 2 ^ 32) (i_addrs v).
Proof.
  intros H Hfb. apply Forall_lookup. intros i a Hi. pose proof (lookup_lt_Some _ _ _ Hi) as Hl. rewrite (hf_len _ _ _ _ _ H) in Hl.
  pose proof (nth_lookup_Some _ _ 0 _ Hi) as E. assert (a = 0 \/ nmeta <= a < fb); [|rewrite nmeta_eq in *; unfold FSSIZE in *; lia].
  destruct (decide (i = NDIRECT)) as [->|]; [rewrite <- E; by eapply hf_addr_ind|].
  rewrite <- E, <- (blk_of_direct (boots m)) by lia. eapply hf_addr; [done|]. unfold MAXFILE. lia.
Qed.

(** ** The file system *)

(** Inode [inum] is a file of this type with these contents. *)
Record stored (m : gmap Z (list Z)) (fb : Z) (inum : Z) (type : Z) (c : list Z) : Prop := {
  sd_file : holds_file m fb (dino m inum) c (nblk (length c));
  sd_tight : tight (dino m inum) (nblk (length c));
  sd_ok : inode_ok (dino m inum);
  sd_size : i_size (dino m inum) = Z.of_nat (length c);
  sd_type : i_type (dino m inum) = type;
  sd_nlink : i_nlink (dino m inum) = 1
}.

(** The blocks that the files take. *)
Definition usage (fs : list (Z * list Z)) : Z := foldr (fun f n => cost (nblk (length f.2)) + n) 0 fs.

(** The image holds the files, inode 1 the first of them; no block belongs to
    two of them, and the blocks up to [fb] are the files' and the metadata. *)
Record fsinv (m : gmap Z (list Z)) (fb : Z) (fs : list (Z * list Z)) : Prop := {
  fi_im : image_ok m fb;
  fi_fb : fb = nmeta + usage fs;
  fi_n : Z.of_nat (length fs) < MAXINO;
  fi_stored : forall k t c, fs !! k = Some (t, c) -> stored m fb (Z.of_nat k + 1) t c;
  fi_apart : forall k k' b, (k < length fs)%nat -> (k' < length fs)%nat -> k <> k' ->
    fowns m (dino m (Z.of_nat k + 1)) b -> ~ fowns m (dino m (Z.of_nat k' + 1)) b;
  fi_free : forall i, Z.of_nat (length fs) < i < MAXINO -> i_type (dino m i) = 0;
  fi_sb : mblock m 1 = splice zblock 0 (sb_bytes mk_sb);
  fi_zero : forall b, b = 0 \/ 2 <= b < 32 \/ b = 58 -> mblock m b = zblock
}.

Lemma usage_insert fs k t c c' : fs !! k = Some (t, c) ->
  usage (<[k := (t, c')]> fs) = usage fs + (cost (nblk (length c')) - cost (nblk (length c))).
Proof.
  revert k. induction fs as [|f fs IH]; intros [|k] E; [done..| |].
  - injection E as ->. cbn. lia.
  - specialize (IH k E). unfold usage in *.
    change (<[S k := (t, c')]> (f :: fs)) with (f :: <[k := (t, c')]> fs). cbn [foldr]. lia.
Qed.

Lemma usage_snoc fs t : usage (fs ++ [(t, [])]) = usage fs.
Proof. induction fs as [|f fs IH]; [done|]. unfold usage in *. cbn [foldr app]. lia. Qed.

(** What concerns one file, when neither its inode nor its blocks change. *)
Lemma stored_frame m fb inum t c m' fb' :
  stored m fb inum t c -> fb <= fb' -> dino m' inum = dino m inum ->
  (forall b, fowns m (dino m inum) b -> mblock m' b = mblock m b) ->
  stored m' fb' inum t c /\ (forall b, fowns m' (dino m' inum) b <-> fowns m (dino m inum) b).
Proof.
  intros [] Hfb E Hm. destruct (holds_file_frame m fb _ _ _ m' fb' sd_file0 Hfb Hm) as [H1 H2].
  split; [split; by rewrite ?E|]. by rewrite E.
Qed.

(** An inode block is not a block of a file. *)
Lemma dino_grown m fb v c nb m' fb' v' i :
  holds_file m fb v c nb -> image_ok m fb -> grown m fb v m' fb' v' -> 0 <= i < MAXINO -> dino m' i = dino m i.
Proof.
  intros H Him G Hi. destruct (iblock_eq i Hi) as [_ Hb]. unfold dino. pose proof (im_fb _ _ Him).
  rewrite (gr_frame _ _ _ _ _ _ G); [done|rewrite nmeta_eq in *; lia|]. intros Ho.
  pose proof (fowns_range _ _ _ _ _ _ H Ho). rewrite nmeta_eq in *. lia.
Qed.

(** A file that is written, and then its inode. *)
Lemma fsinv_update m fb fs k t c c' m1 fb' v1 m2 :
  let inum := Z.of_nat k + 1 in let fs' := <[k := (t, c')]> fs in
  fsinv m fb fs -> fs !! k = Some (t, c) -> fb' = nmeta + usage fs' -> Z.of_nat (length c') < 2 ^ 32 ->
  grown m fb (dino m inum) m1 fb' v1 -> holds_file m1 fb' v1 c' (nblk (length c')) -> tight v1 (nblk (length c')) ->
  image_ok m2 fb' -> dino m2 inum = set_i_size (Z.of_nat (length c')) v1 ->
  (forall i, 0 <= i < MAXINO -> i <> inum -> dino m2 i = dino m1 i) ->
  (forall b, b < 32 \/ 58 <= b -> mblock m2 b = mblock m1 b) -> fsinv m2 fb' fs'.
Proof.
  intros inum fs' H Hk Hfb Hc G H1 T1 Him2 E2 E3 F2. pose proof (lookup_lt_Some _ _ _ Hk) as Hlk. pose proof (fi_n _ _ _ H) as Hn.
  pose proof (fi_stored _ _ _ H _ _ _ Hk) as Hs. fold inum in Hs. pose proof (im_fb _ _ (fi_im _ _ _ H)) as Hr. rewrite nmeta_eq in Hr.
  assert (Hd : forall i, 0 <= i < MAXINO -> i <> inum -> dino m2 i = dino m i).
  { intros i Hi Hne. rewrite E3 by done. by eapply dino_grown; [apply (sd_file _ _ _ _ _ Hs)|apply H|exact G|]. }
  assert (Hf : holds_file m2 fb' (dino m2 inum) c' (nblk (length c')) /\ forall b, fowns m2 (dino m2 inum) b <-> fowns m1 v1 b).
  { rewrite E2. destruct (holds_file_frame m1 fb' v1 c' _ m2 fb' H1 ltac:(lia)) as [A B].
    - intros b Ho%(fowns_range _ _ _ _ _ _ H1). apply F2. rewrite nmeta_eq in Ho. lia.
    - split; [by apply (holds_file_addrs _ _ v1)|]. intros b. by rewrite (fowns_addrs m2 v1). }
  destruct Hf as [Hf Ho]. assert (Hm : forall b, b < fb -> b < 32 \/ 58 <= b -> ~ fowns m (dino m inum) b -> mblock m2 b = mblock m b).
  { intros b Hb Hb' Hno. rewrite F2 by done. by apply (gr_frame _ _ _ _ _ _ G). }
  assert (Hlow : forall b, b < 59 -> ~ fowns m (dino m inum) b).
  { intros b Hb Hb'%(fowns_range _ _ _ _ _ _ (sd_file _ _ _ _ _ Hs)). rewrite nmeta_eq in Hb'. lia. }
  assert (Hoth : forall k' t' c0, k' <> k -> fs !! k' = Some (t', c0) -> stored m2 fb' (Z.of_nat k' + 1) t' c0 /\
    forall b, fowns m2 (dino m2 (Z.of_nat k' + 1)) b <-> fowns m (dino m (Z.of_nat k' + 1)) b).
  { intros k' t' c0 Hne Hk'. pose proof (lookup_lt_Some _ _ _ Hk') as Hlk'. pose proof (fi_stored _ _ _ H _ _ _ Hk') as Hs'.
    apply (stored_frame m fb); [done|apply G|apply Hd; lia|]. intros b Hb.
    pose proof (fowns_range _ _ _ _ _ _ (sd_file _ _ _ _ _ Hs') Hb) as Hrb. rewrite nmeta_eq in Hrb.
    apply Hm; [lia|lia|]. intros Hb'. by apply (fi_apart _ _ _ H k' k b). }
  subst fs'. split; rewrite ?length_insert; [done|done|done| | | | |].
  - intros k' t' c0 Hk'. destruct (decide (k' = k)) as [->|Hne]; [|rewrite list_lookup_insert_ne in Hk' by done; by eapply Hoth].
    rewrite list_lookup_insert_eq in Hk' by done. injection Hk' as <- <-. fold inum.
    destruct Hs as [S1 S2 S3 S4 S5 S6]. pose proof (gr_v _ _ _ _ _ _ G) as Ev.
    assert (inode_ok (dino m2 inum)).
    { rewrite E2, Ev. destruct S3. split; try done; cbn; [lia|by apply H1|].
      eapply holds_file_ranges; [done|]. apply Him2. }
    split; [done|rewrite E2; exact T1|done|by rewrite E2|rewrite E2, Ev; exact S5|rewrite E2, Ev; exact S6].
  - assert (Hk2 : forall k' b, (k' < length fs)%nat -> k' <> k -> fowns m2 (dino m2 inum) b -> fowns m2 (dino m2 (Z.of_nat k' + 1)) b -> False).
    { intros k' b Hl Hne Hb Hb'. destruct (lookup_lt_is_Some_2 fs k' Hl) as [[t' c0] Hk']. destruct (Hoth _ _ _ Hne Hk') as [_ Ho'].
      apply Ho' in Hb'. apply Ho in Hb. pose proof (fowns_range _ _ _ _ _ _ (sd_file _ _ _ _ _ (fi_stored _ _ _ H _ _ _ Hk')) Hb').
      destruct (gr_owns _ _ _ _ _ _ G b Hb); [|lia]. by apply (fi_apart _ _ _ H k' k b). }
    intros k1 k2 b Hl1 Hl2 Hne Hb1 Hb2.
    destruct (decide (k1 = k)) as [->|N1]; [by apply (Hk2 k2 b)|]. destruct (decide (k2 = k)) as [->|N2]; [by apply (Hk2 k1 b)|].
    destruct (lookup_lt_is_Some_2 fs k1 Hl1) as [[t1 c1] L1], (lookup_lt_is_Some_2 fs k2 Hl2) as [[t2 c2] L2].
    apply (Hoth _ _ _ N1 L1) in Hb1. apply (Hoth _ _ _ N2 L2) in Hb2. by apply (fi_apart _ _ _ H k1 k2 b).
  - intros i Hi. rewrite Hd by lia. by apply (fi_free _ _ _ H).
  - rewrite Hm; [apply (fi_sb _ _ _ H)|lia|lia|apply Hlow; lia].
  - intros b Hb. rewrite Hm; [by apply (fi_zero _ _ _ H)|lia|lia|apply Hlow; lia].
Qed.

Lemma iappend_fs m fi fb fs k t c p :
  fsinv m fb fs -> fs !! k = Some (t, c) -> bytes p -> (length (c ++ p) <= MAXFILE * BSIZE)%nat ->
  let fs' := <[k := (t, c ++ p)]> fs in nmeta + usage fs' <= FSSIZE ->
  exists m', iappend (Z.of_nat k + 1) p (mst m fi fb) = Ret tt (mst m' fi (nmeta + usage fs')) /\ fsinv m' (nmeta + usage fs') fs'.
Proof.
  intros H Hk Hp Hmax fs' Hroom. pose proof (lookup_lt_Some _ _ _ Hk) as Hlk. pose proof (fi_n _ _ _ H) as Hn.
  pose proof (fi_im _ _ _ H) as Him. pose proof (fi_stored _ _ _ H _ _ _ Hk) as Hs.
  set (inum := Z.of_nat k + 1) in *. assert (Hi : 0 <= inum < MAXINO) by lia. set (v := dino m inum) in *.
  assert (Ef : nmeta + usage fs' = fb + (cost (nblk (length (c ++ p))) - cost (nblk (length c)))).
  { subst fs'. rewrite (usage_insert _ _ _ _ (c ++ p) Hk), (fi_fb _ _ _ H). lia. }
  rewrite Ef in *. clear Ef. set (fb' := fb + _) in *.
  destruct (iappend_loop_run fi (S (length p)) p m fb v c ltac:(lia) Hp (sd_file _ _ _ _ _ Hs) Him (sd_tight _ _ _ _ _ Hs) Hmax Hroom)
    as (m1 & v1 & R1 & H1 & T1 & G1). fold fb' in R1, H1, G1. set (v2 := set_i_size (xint (Z.of_nat (length (c ++ p)))) v1).
  assert (Hsz : Z.of_nat (length (c ++ p)) < 2 ^ 32) by (pose proof maxfile_bytes; lia).
  assert (Hv2 : inode_ok v2 /\ bare v2).
  { subst v2. rewrite xint_id, (gr_v _ _ _ _ _ _ G1) by lia. destruct (sd_ok _ _ _ _ _ Hs). split; [|done].
    split; try done; cbn; [lia|by apply H1|]. eapply holds_file_ranges; [done|apply G1]. }
  destruct (winode_run m1 fi fb' inum v2 Hi (gr_im _ _ _ _ _ _ G1) (proj1 Hv2) (proj2 Hv2)) as (m2 & R2 & Im2 & E2 & E3 & F2).
  exists m2. split.
  - unfold iappend. kstep (rinode_run m fi fb inum Hi). fold v. rewrite (sd_size _ _ _ _ _ Hs : i_size v = _), xint_id.
    + rewrite Nat2Z.id. kstep R1. fold v2. exact R2.
    + rewrite length_app in Hsz. lia.
  - subst fb'. eapply fsinv_update; try done.
    + subst fs'. rewrite (usage_insert _ _ _ _ (c ++ p) Hk), (fi_fb _ _ _ H). lia.
    + fold inum. rewrite E2. subst v2. by rewrite xint_id by lia.
Qed.

(** A new inode: an empty file. *)
Lemma holds_file_empty m fb v : i_addrs v = replicate (NDIRECT + 1) 0 -> holds_file m fb v [] 0.
Proof.
  intros E. assert (I : ind_of v = 0) by (unfold ind_of; by rewrite E).
  assert (B : forall bn, blk m v bn = 0).
  { intros bn. unfold blk_of. rewrite I, E. case_decide; [|done]. rewrite nth_lookup, lookup_replicate_2; [done|lia]. }
  split; intros; rewrite ?I in *; try lia; [by rewrite E|cbn; lia|apply B].
Qed.

Lemma fowns_empty m v b : i_addrs v = replicate (NDIRECT + 1) 0 -> ~ fowns m v b.
Proof.
  intros E [Hb Ho]. pose proof (holds_file_empty m 0 v E) as H. destruct Ho as [->|(bn & Hbn & ->)].
  - pose proof (hf_ind _ _ _ _ _ H Hb) as Q. rewrite nmeta_eq in Q. lia.
  - by rewrite (hf_none _ _ _ _ _ H bn) in Hb by lia.
Qed.

Lemma ialloc_fs m fb fs t :
  fsinv m fb fs -> Z.of_nat (length fs) + 1 < MAXINO -> 0 <= t < 2 ^ 15 ->
  let n := Z.of_nat (length fs) + 1 in
  exists m', ialloc t (mst m n fb) = Ret n (mst m' (n + 1) fb) /\ fsinv m' fb (fs ++ [(t, [])]).
Proof.
  intros H Hn Ht n. set (v := mkInode 0 0 0 0 t 0 0 1 0 (replicate (NDIRECT + 1) 0)).
  assert (Hv : inode_ok v) by (split; cbn; [lia..|done|repeat constructor; lia]). pose proof (fi_im _ _ _ H) as Him.
  destruct (winode_run m (n + 1) fb n v ltac:(lia) Him Hv ltac:(done)) as (m' & R & Him' & E1 & E2 & F).
  exists m'. split.
  - unfold ialloc. rewrite bind_run. unfold gets at 1. cbn [m_freeinode]. unfold set_freeinode. rewrite bind_run. unfold modify at 1. cbn [m_img m_size m_freeblock].
    change MAXINO with 208 in Hn. rewrite u32_small, !xshort_id by lia. change (s16 1) with 1. unfold s16. rewrite Z.mod_small by lia.
    replace (t + 2 ^ 15 - 2 ^ 15) with t by lia. change (xint 0) with 0. fold v. by kstep R.
  - assert (Hoth : forall k t' c0, fs !! k = Some (t', c0) -> stored m' fb (Z.of_nat k + 1) t' c0 /\
      forall b, fowns m' (dino m' (Z.of_nat k + 1)) b <-> fowns m (dino m (Z.of_nat k + 1)) b).
    { intros k t' c0 Hk. pose proof (lookup_lt_Some _ _ _ Hk). pose proof (fi_stored _ _ _ H _ _ _ Hk) as Hs.
      apply (stored_frame m fb); [done|lia|apply E2; lia|]. intros b Hb%(fowns_range _ _ _ _ _ _ (sd_file _ _ _ _ _ Hs)).
      apply F. rewrite nmeta_eq in Hb. lia. }
    split; rewrite ?length_app; cbn [length]; [done|rewrite usage_snoc; apply H|lia| | | | |].
    + intros k t' c0 [Hk|[Hk E]]%lookup_app_Some; [by eapply Hoth|]. apply list_lookup_singleton_Some in E as [Ek E].
      injection E as <- <-. replace (Z.of_nat k + 1) with n by lia.
      split; rewrite ?E1; try done; [by apply holds_file_empty|intros Hi; by destruct Hi].
    + intros k1 k2 b L1 L2 Hne. assert (Hnew : forall k, k = length fs -> ~ fowns m' (dino m' (Z.of_nat k + 1)) b).
      { intros k ->. fold n. rewrite E1. by apply fowns_empty. }
      destruct (decide (k1 = length fs)) as [->|]; [intros Hb; by apply Hnew in Hb|]. destruct (decide (k2 = length fs)); [auto|].
      destruct (lookup_lt_is_Some_2 fs k1 ltac:(lia)) as [[t1 c1] Q1], (lookup_lt_is_Some_2 fs k2 ltac:(lia)) as [[t2 c2] Q2].
      rewrite (proj2 (Hoth _ _ _ Q1)), (proj2 (Hoth _ _ _ Q2)). apply (fi_apart _ _ _ H); [lia..|done].
    + intros i Hi. rewrite E2 by lia. apply (fi_free _ _ _ H). lia.
    + rewrite F by lia. apply (fi_sb _ _ _ H).
    + intros b Hb. rewrite F by lia. by apply (fi_zero _ _ _ H).
Qed.

(** ** The whole run *)

Lemma usage_nonneg fs : 0 <= usage fs.
Proof. induction fs as [|f fs IH]; [done|]. unfold usage in *. cbn [foldr]. pose proof (cost_mono 0 (nblk (length f.2)) ltac:(lia)) as Hc. change (cost 0) with 0 in Hc. lia. Qed.

Lemma usage_app fs fs' : usage (fs ++ fs') = usage fs + usage fs'.
Proof. induction fs as [|f fs IH]; [done|]. unfold usage in *. cbn [foldr app]. lia. Qed.

Lemma append_pieces_fs fi k t pieces : forall m fb fs c,
  fsinv m fb fs -> fs !! k = Some (t, c) -> Forall bytes pieces ->
  (length (c ++ concat pieces) <= MAXFILE * BSIZE)%nat ->
  let fs' := <[k := (t, c ++ concat pieces)]> fs in nmeta + usage fs' <= FSSIZE ->
  exists m', append_pieces (Z.of_nat k + 1) pieces (mst m fi fb) = Ret tt (mst m' fi (nmeta + usage fs')) /\ fsinv m' (nmeta + usage fs') fs'.
Proof.
  induction pieces as [|p pieces IH]; intros m fb fs c H Hk Hb Hmax fs' Hroom.
  - subst fs'. cbn [concat append_pieces] in *. rewrite app_nil_r, list_insert_id in * by done. rewrite <- (fi_fb _ _ _ H). by exists m.
  - inversion Hb as [|? ? Hp Hps]; subst. subst fs'. cbn [concat] in *. pose proof (lookup_lt_Some _ _ _ Hk) as Hlk. rewrite app_assoc in *.
    destruct (iappend_fs m fi fb fs k t c p H Hk Hp) as (m1 & R1 & H1).
    { rewrite length_app in Hmax. lia. }
    { pose proof (usage_insert _ _ _ _ (c ++ p) Hk). pose proof (usage_insert _ _ _ _ ((c ++ p) ++ concat pieces) Hk).
      pose proof (cost_mono _ _ (nblk_mono (length (c ++ p)) (length ((c ++ p) ++ concat pieces)) ltac:(rewrite (length_app (c ++ p)); lia))). lia. }
    destruct (IH m1 _ _ (c ++ p) H1) as (m2 & R2 & H2); [by rewrite list_lookup_insert_eq|done|done|by rewrite list_insert_insert_eq|].
    rewrite list_insert_insert_eq in R2, H2. exists m2. split; [|done]. cbn [append_pieces]. by kstep R1.
Qed.

Lemma length_strncpy n t : length (strncpy_ n t) = n.
Proof. revert t. induction n as [|n IH]; intros [|a t]; cbn; rewrite ?length_replicate; [done..|]. destruct (a =? 0); cbn; by rewrite ?length_replicate, ?IH. Qed.

Lemma bytes_replicate n : bytes (replicate n 0).
Proof. apply Forall_replicate. lia. Qed.

Lemma bytes_strncpy n t : bytes t -> bytes (strncpy_ n t).
Proof.
  revert t. induction n as [|n IH]; intros t Ht; [constructor|]. destruct Ht as [|a t Ha Ht]; [apply (bytes_replicate (S n))|].
  cbn [strncpy_]. destruct (a =? 0); [apply (bytes_replicate (S n))|]. constructor; [done|by apply IH].
Qed.

Lemma bytes_dirent inum name : bytes name -> bytes (dirent inum name).
Proof. intros. apply Forall_app_2; [apply le_enc_bytes|done]. Qed.

Lemma bytes_file_name arg : bytes arg -> bytes (file_name arg).
Proof. intros H. destruct H; cbn; [constructor|]. case_match; [done|by constructor]. Qed.

(** The entries of the root for the files, from inode [n] on. *)
Fixpoint entries_from (n : Z) (files : list (list Z * option (list (list Z)))) : list (list Z) :=
  match files with
  | [] => []
  | (arg, _) :: files' => dirent n (strncpy_ DIRSIZ (file_name arg)) :: entries_from (n + 1) files'
  end.
Definition contents_of (f : list Z * option (list (list Z))) : list Z := concat (default [] f.2).
Definition layout (rc : list Z) (fs : list (Z * list Z)) (files : list (list Z * option (list (list Z)))) : list (Z * list Z) :=
  (T_DIR, rc ++ concat (entries_from (Z.of_nat (length fs) + 2) files)) :: fs ++ map (fun f => (T_FILE, contents_of f)) files.

(** A file that mkfs can store. *)
Record storable (f : list Z * option (list (list Z))) : Prop := {
  so_arg : bytes f.1 /\ existsb (Z.eqb c_slash) f.1 = false;
  so_read : is_Some f.2;
  so_bytes : Forall bytes (default [] f.2);
  so_size : (length (contents_of f) <= MAXFILE * BSIZE)%nat
}.

Lemma length_dirent n name : length (dirent n (strncpy_ DIRSIZ name)) = sizeof_dirent.
Proof. unfold dirent. by rewrite length_app, length_le_enc, length_strncpy. Qed.

Lemma length_entries n files : length (concat (entries_from n files)) = (sizeof_dirent * length files)%nat.
Proof.
  revert n. induction files as [|[arg o] files IH]; intros n; [done|]. cbn [entries_from concat length].
  rewrite length_app, IH, length_dirent. lia.
Qed.

Lemma usage_cons t c fs : usage ((t, c) :: fs) = cost (nblk (length c)) + usage fs.
Proof. done. Qed.

(** One file: its entry in the root, and its contents. *)
Lemma add_file_fs m fb rc fs f :
  fsinv m fb ((T_DIR, rc) :: fs) -> storable f ->
  let fs' := layout rc fs [f] in Z.of_nat (length fs') < MAXINO -> (length rc + sizeof_dirent <= MAXFILE * BSIZE)%nat -> nmeta + usage fs' <= FSSIZE ->
  let n := Z.of_nat (length fs) + 2 in
  exists m', add_file ROOTINO f.1 f.2 (mst m n fb) = Ret tt (mst m' (n + 1) (nmeta + usage fs')) /\ fsinv m' (nmeta + usage fs') fs'.
Proof.
  destruct f as [arg o]. intros H [[Ha1 Ha2] [pieces E] Hp Hsz] fs' Hn Hrc Hroom n. cbn [fst snd] in *. subst o.
  unfold contents_of in Hsz. cbn [fst snd default] in *. set (de := dirent n (strncpy_ DIRSIZ (file_name arg))).
  assert (El : fs' = (T_DIR, rc ++ de) :: fs ++ [(T_FILE, concat pieces)]).
  { subst fs'. unfold layout, contents_of. cbn [entries_from concat map fst snd default]. fold n de. by rewrite app_nil_r. }
  clearbody fs'. subst fs'. pose proof (length_dirent n (file_name arg)) as Hde. fold de in Hde.
  cbn [length] in Hn. rewrite length_app in Hn. cbn [length] in Hn.
  rewrite usage_cons, usage_app, usage_cons in Hroom. pose proof (usage_nonneg fs) as Hu. cbn [usage foldr] in Hroom.
  pose proof (cost_mono 0 (nblk (length (concat pieces))) ltac:(lia)) as Hc0. change (cost 0) with 0 in Hc0.
  destruct (ialloc_fs m fb _ T_FILE H) as (m1 & R1 & H1); [cbn [length]; lia|unfold T_FILE; lia|].
  cbn [length] in R1. replace (Z.of_nat (S (length fs)) + 1) with n in R1 by lia.
  cbn [app] in H1. destruct (iappend_fs m1 (n + 1) fb _ 0 T_DIR rc de H1 eq_refl) as (m2 & R2 & H2).
  { apply bytes_dirent, bytes_strncpy, bytes_file_name, Ha1. } { rewrite length_app, Hde. lia. }
  { cbn [insert list_insert]. rewrite usage_cons, usage_snoc. lia. }
  cbn [insert list_insert] in R2, H2.
  destruct (append_pieces_fs (n + 1) (S (length fs)) T_FILE pieces m2 _ _ [] H2) as (m3 & R3 & H3); [|done|done| |].
  { rewrite lookup_cons. by rewrite lookup_app_r, Nat.sub_diag by lia. }
  { change (<[S (length fs) := (T_FILE, [] ++ concat pieces)]> ((T_DIR, rc ++ de) :: fs ++ [(T_FILE, [])])) with
      ((T_DIR, rc ++ de) :: <[length fs := (T_FILE, concat pieces)]> (fs ++ [(T_FILE, [])])).
    rewrite insert_app_r_alt, Nat.sub_diag by lia. cbn [insert list_insert]. rewrite usage_cons, usage_app, usage_cons. cbn [usage foldr]. lia. }
  change (<[S (length fs) := (T_FILE, [] ++ concat pieces)]> ((T_DIR, rc ++ de) :: fs ++ [(T_FILE, [])])) with
      ((T_DIR, rc ++ de) :: <[length fs := (T_FILE, concat pieces)]> (fs ++ [(T_FILE, [])])) in R3, H3.
  rewrite insert_app_r_alt, Nat.sub_diag in R3, H3 by lia. cbn [insert list_insert] in R3, H3.
  replace (Z.of_nat (S (length fs)) + 1) with n in R3 by lia.
  exists m3. split; [|done]. unfold add_file. rewrite Ha2. kstep R1. change (Z.of_nat 0 + 1) with ROOTINO in R2. fold de. kstep R2. exact R3.
Qed.

Lemma layout_cons rc fs f files :
  layout rc fs (f :: files) =
  layout (rc ++ dirent (Z.of_nat (length fs) + 2) (strncpy_ DIRSIZ (file_name f.1))) (fs ++ [(T_FILE, contents_of f)]) files.
Proof.
  destruct f as [arg o]. unfold layout. cbn [entries_from concat map fst]. rewrite length_app. cbn [length].
  replace (Z.of_nat (length fs + 1) + 2) with (Z.of_nat (length fs) + 2 + 1) by lia. by rewrite <- !app_assoc.
Qed.

Lemma layout_nil rc fs : layout rc fs [] = (T_DIR, rc) :: fs.
Proof. unfold layout. cbn [entries_from concat map]. by rewrite !app_nil_r. Qed.

Lemma usage_layout_le rc fs f files : usage (layout rc fs [f]) <= usage (layout rc fs (f :: files)).
Proof.
  rewrite !layout_cons. unfold layout. rewrite !usage_cons, !usage_app. cbn [entries_from concat map usage foldr].
  pose proof (usage_nonneg (map (fun f => (T_FILE, contents_of f)) files)) as Hu. rewrite app_nil_r.
  set (r := rc ++ _). pose proof (cost_mono _ _ (nblk_mono (length r) (length (r ++ concat (entries_from (Z.of_nat (length (fs ++ [(T_FILE, contents_of f)])) + 2) files))) ltac:(rewrite length_app; lia))).
  unfold usage in *. lia.
Qed.

Lemma length_layout rc fs files : length (layout rc fs files) = (1 + length fs + length files)%nat.
Proof. unfold layout. cbn [length]. rewrite length_app, length_map. lia. Qed.

Lemma add_files_fs files : forall m fb rc fs,
  fsinv m fb ((T_DIR, rc) :: fs) -> Forall storable files ->
  let fs' := layout rc fs files in
  Z.of_nat (length fs') < MAXINO -> (length rc + sizeof_dirent * length files <= MAXFILE * BSIZE)%nat -> nmeta + usage fs' <= FSSIZE ->
  let n := Z.of_nat (length fs) + 2 in
  exists m', add_files ROOTINO files (mst m n fb) = Ret tt (mst m' (n + Z.of_nat (length files)) (nmeta + usage fs')) /\ fsinv m' (nmeta + usage fs') fs'.
Proof.
  induction files as [|f files IH]; intros m fb rc fs H Hf fs' Hn Hrc Hroom n.
  - subst fs'. rewrite layout_nil in *. rewrite <- (fi_fb _ _ _ H). exists m. split; [|done]. cbn [add_files length]. by rewrite Z.add_0_r.
  - inversion Hf as [|? ? Hf1 Hf2]; subst. subst fs'. rewrite length_layout in Hn. cbn [length] in Hn, Hrc.
    pose proof (usage_layout_le rc fs f files) as Hle.
    destruct (add_file_fs m fb rc fs f H Hf1) as (m1 & R1 & H1); [rewrite length_layout; cbn [length]; lia|lia|lia|].
    rewrite (layout_cons rc fs f []), layout_nil in R1, H1. rewrite (layout_cons rc fs f files) in *. set (rc1 := rc ++ _) in *. set (fs1 := fs ++ _) in *.
    assert (Hl1 : length fs1 = S (length fs)) by (subst fs1; rewrite length_app; cbn; lia).
    destruct (IH m1 _ rc1 fs1 H1 Hf2) as (m2 & R2 & H2); [rewrite length_layout; lia| |done|].
    { subst rc1. rewrite length_app, length_dirent. lia. }
    exists m2. split; [|done]. cbn [add_files]. destruct f as [arg o]. kstep R1. rewrite Hl1 in R2. cbn [length].
    replace (Z.of_nat (S (length fs)) + 2) with (n + 1) in R2 by lia.
    replace (n + Z.of_nat (S (length files))) with (n + 1 + Z.of_nat (length files)) by lia.
    exact R2.
Qed.

Definition dot_entry : list Z := dirent ROOTINO (splice (replicate DIRSIZ 0) 0 (chars ".")).
Definition dotdot_entry : list Z := dirent ROOTINO (splice (replicate DIRSIZ 0) 0 (chars "..")).

(** The empty image. *)
Lemma zero_dino m i : 0 <= i < MAXINO -> (forall b, 32 <= b < 58 -> mblock m b = zblock) -> i_type (dino m i) = 0.
Proof.
  intros Hi Hm. destruct (iblock_eq i Hi) as [_ Hb]. unfold dino. rewrite Hm by done. pose proof (di_off_fits i) as Hfit.
  assert (E : slice zblock (di_off i) sizeof_dinode = replicate sizeof_dinode 0).
  { unfold slice, zblock. rewrite drop_replicate, take_replicate. f_equal. lia. }
  rewrite E. reflexivity.
Qed.

Lemma wipe_run : exists m, (for_loop (Z.to_nat FSSIZE) 0 (fun i => wsect i zblock) : M unit) (mkMk ∅ 0 1 nmeta) = Ret tt (mst m 1 nmeta) /\
  forall b, mblock m b = zblock.
Proof.
  destruct (for_loop_inv (fun i s => exists m, s = mkMk m i 1 nmeta /\ forall b, mblock m b = zblock)
    (fun i => wsect i zblock) (Z.to_nat FSSIZE) 0 (mkMk ∅ 0 1 nmeta)) as (s & R & m & -> & Hm).
  - exists ∅. split; [done|]. intros b. unfold mblock. by rewrite lookup_empty.
  - intros j s Hj (m & -> & Hm). eexists. split; [done|]. exists (<[j := zblock]> m). split.
    + unfold set_img. cbn [m_img m_size m_freeinode m_freeblock]. by rewrite Z.max_r by lia.
    + intros b. rewrite mblock_insert. by case_decide.
  - exists m. by split.
Qed.

Lemma fsinv_start m : (forall b, mblock m b = zblock) -> fsinv (<[1 := splice zblock 0 (sb_bytes mk_sb)]> m) nmeta [].
Proof.
  intros Hm. assert (Him : image_ok m nmeta).
  { split; intros; rewrite ?Hm; [by vm_compute|done|apply bytes_replicate|done]. }
  split; cbn [length usage foldr]; [|done|done|done|cbn; lia| | |].
  - eapply image_ok_insert; [done|by vm_compute|by vm_compute|by vm_compute|].
    apply bytes_splice; [apply bytes_replicate|]. vm_compute. repeat constructor; discriminate.
  - intros i Hi. apply zero_dino; [lia|]. intros b Hb. rewrite mblock_insert, decide_False; [apply Hm|lia].
  - by rewrite mblock_insert, decide_True.
  - intros b Hb. rewrite mblock_insert, decide_False; [apply Hm|lia].
Qed.

Lemma length_balloc_marks n i buf : length (balloc_marks n i buf) = length buf.
Proof. revert i buf. induction n as [|n IH]; intros i buf; [done|]. cbn. by rewrite IH, length_set_bit. Qed.

(** [balloc] marks the first blocks. *)
Lemma balloc_marks_used n : forall i buf j, 0 <= i -> i + Z.of_nat n <= 8 * Z.of_nat (length buf) -> 0 <= j ->
  bit_used (balloc_marks n i buf) j = ((i <=? j) && (j <? i + Z.of_nat n)) || bit_used buf j.
Proof.
  induction n as [|n IH]; intros i buf j Hi Hn Hj.
  - cbn [balloc_marks]. change (Z.of_nat 0) with 0. destruct (Z.leb_spec i j), (Z.ltb_spec j (i + 0)); (done || lia).
  - cbn [balloc_marks]. rewrite IH by (rewrite ?length_set_bit; lia). rewrite bit_used_set by lia. case_decide as E.
    + subst. rewrite orb_true_r, Z.leb_refl, (proj2 (Z.ltb_lt _ _)) by lia. done.
    + f_equal. destruct (Z.leb_spec (i + 1) j), (Z.leb_spec i j), (Z.ltb_spec j (i + 1 + Z.of_nat n)), (Z.ltb_spec j (i + Z.of_nat (S n))); cbn; (done || lia).
Qed.

Lemma bytes_set_bit buf i : bytes buf -> bytes (set_bit buf i).
Proof. intros H. apply Forall_alter; [done|]. intros x _ _. apply u8_range. Qed.

Lemma bytes_balloc_marks n i buf : bytes buf -> bytes (balloc_marks n i buf).
Proof. revert i buf. induction n as [|n IH]; intros i buf H; [done|]. apply IH. by apply bytes_set_bit. Qed.

Definition root_start : list Z := dot_entry ++ dotdot_entry.
(** The files of the image for these arguments, and the blocks in use. *)
Definition image_files (files : list (list Z * option (list (list Z)))) : list (Z * list Z) := layout root_start [] files.
Definition image_used (files : list (list Z * option (list (list Z)))) : Z := nmeta + usage (image_files files).
Definition root_size (files : list (list Z * option (list (list Z)))) : Z :=
  (Z.of_nat (sizeof_dirent * (2 + length files)) / Z.of_nat BSIZE + 1) * Z.of_nat BSIZE.

(** mkfs can store these files. *)
Record fits_image (files : list (list Z * option (list (list Z)))) : Prop := {
  ft_files : Forall storable files;
  ft_inodes : Z.of_nat (length files) + 1 < MAXINO;
  ft_blocks : image_used files <= FSSIZE
}.

(** The image that mkfs leaves: the one of the invariant, with the size of
    the root rounded up and the bitmap filled in. *)
Record finished (m0 m : gmap Z (list Z)) (files : list (list Z * option (list (list Z)))) : Prop := {
  fn_inv : fsinv m0 (image_used files) (image_files files);
  fn_im : image_ok m (image_used files);
  fn_root : dino m 1 = set_i_size (root_size files) (dino m0 1);
  fn_other : forall i, 0 <= i < MAXINO -> i <> 1 -> dino m i = dino m0 i;
  fn_blocks : forall b, b < 32 \/ nmeta <= b -> mblock m b = mblock m0 b;
  fn_bitmap : mblock m 58 = balloc_marks (Z.to_nat (image_used files)) 0 zblock
}.

(** The root directory with its first two entries. *)
Lemma start_files_run m : fsinv m nmeta [] ->
  let fb := nmeta + usage [(T_DIR, dot_entry)] in
  exists m1 m2 m3, ialloc T_DIR (mst m 1 nmeta) = Ret ROOTINO (mst m1 2 nmeta) /\
    iappend ROOTINO dot_entry (mst m1 2 nmeta) = Ret tt (mst m2 2 fb) /\
    iappend ROOTINO dotdot_entry (mst m2 2 fb) = Ret tt (mst m3 2 (nmeta + usage [(T_DIR, root_start)])) /\
    fsinv m3 (nmeta + usage [(T_DIR, root_start)]) [(T_DIR, root_start)].
Proof.
  intros H fb. destruct (ialloc_fs m nmeta [] T_DIR H) as (m1 & R1 & H1); [by vm_compute|by vm_compute|].
  cbn [length app] in *. change (Z.of_nat 0 + 1) with 1 in R1. change (1 + 1) with 2 in R1.
  assert (Hb : bytes dot_entry /\ bytes dotdot_entry) by (split; vm_compute; repeat constructor; discriminate).
  destruct (iappend_fs m1 2 nmeta _ 0 T_DIR [] dot_entry H1 eq_refl (proj1 Hb)) as (m2 & R2 & H2); [by apply Nat.leb_le; vm_compute|by vm_compute|].
  destruct (iappend_fs m2 2 _ _ 0 T_DIR dot_entry dotdot_entry H2 eq_refl (proj2 Hb)) as (m3 & R3 & H3); [by apply Nat.leb_le; vm_compute|by vm_compute|].
  by exists m1, m2, m3.
Qed.

Lemma root_lookup files : image_files files !! 0%nat = Some (T_DIR, root_start ++ concat (entries_from 2 files)).
Proof. done. Qed.

Lemma length_root files : length (root_start ++ concat (entries_from 2 files)) = (sizeof_dirent * (2 + length files))%nat.
Proof. rewrite length_app, length_entries. change (length root_start) with 32%nat. unfold sizeof_dirent. lia. Qed.

Lemma root_size_range files : Z.of_nat (length files) + 1 < MAXINO -> 0 <= root_size files <= 4096.
Proof.
  change MAXINO with 208. intros H. unfold root_size, sizeof_dirent. change (Z.of_nat BSIZE) with 512.
  pose proof (Z.div_mod (Z.of_nat (16 * (2 + length files))) 512). pose proof (Z.mod_pos_bound (Z.of_nat (16 * (2 + length files))) 512). lia.
Qed.

(** The end of main: the size of the root and the bitmap. *)
Lemma finish_run m fi files : fsinv m (image_used files) (image_files files) -> fits_image files ->
  exists m', (fix_root ROOTINO ;; used ← gets m_freeblock; balloc used) (mst m fi (image_used files)) = Ret tt (mst m' fi (image_used files)) /\
    finished m m' files.
Proof.
  intros H [Hf Hn Hu]. set (fb := image_used files) in *. pose proof (fi_stored _ _ _ H _ _ _ (root_lookup files)) as Hs.
  change (Z.of_nat 0 + 1) with 1 in Hs. pose proof (sd_size _ _ _ _ _ Hs) as Hsz. rewrite length_root in Hsz.
  pose proof (root_size_range files Hn) as Hr. set (v := set_i_size (root_size files) (dino m 1)).
  assert (Hv : inode_ok v) by (destruct (sd_ok _ _ _ _ _ Hs); split; try done; cbn; lia).
  destruct (winode_run m fi fb 1 v ltac:(by vm_compute) (fi_im _ _ _ H) Hv ltac:(done)) as (m1 & R1 & I1 & E1 & E2 & F1).
  pose proof (im_fb _ _ I1) as Hfb. rewrite nmeta_eq in Hfb. set (bm := balloc_marks (Z.to_nat fb) 0 zblock).
  exists (<[58 := bm]> m1). split.
  - unfold fix_root. rewrite bind_assoc. kstep (rinode_run m fi fb ROOTINO ltac:(by vm_compute)). change ROOTINO with 1. rewrite Hsz.
    change MAXINO with 208 in Hn. rewrite (xint_id (Z.of_nat _)) by (unfold sizeof_dirent; lia). fold (root_size files).
    rewrite xint_id by lia. fold v. kstep R1. rewrite bind_run. unfold gets at 1. cbn [m_freeblock]. unfold balloc.
    rewrite (proj2 (Z.ltb_lt _ _)) by (unfold FSSIZE, BSIZE in *; lia). apply wsect_run. by vm_compute.
  - assert (Hoff : forall i, 0 <= i < MAXINO -> dino (<[58 := bm]> m1) i = dino m1 i).
    { intros i Hi. destruct (iblock_eq i Hi) as [_ Hb]. unfold dino. by rewrite mblock_insert, decide_False by lia. }
    split; [done| | | | |by rewrite mblock_insert, decide_True].
    + eapply image_ok_insert; [done|lia|lia|by subst bm; rewrite length_balloc_marks|]. apply bytes_balloc_marks, bytes_replicate.
    + by rewrite Hoff, E1 by (by vm_compute).
    + intros i Hi Hne. by rewrite Hoff, E2.
    + intros b Hb. rewrite nmeta_eq in Hb. rewrite mblock_insert, decide_False by lia. apply F1. lia.
Qed.

(** mkfs, on files it can store, leaves the image. *)
Lemma mkfs_run files : fits_image files ->
  exists m0 m, mkfs files mk_start = Ret tt (mst m (Z.of_nat (length files) + 2) (image_used files)) /\ finished m0 m files.
Proof.
  intros Hfit. pose proof Hfit as [Hf Hn Hu]. destruct wipe_run as (m & R & Hm). pose proof (fsinv_start m Hm) as H0.
  destruct (start_files_run _ H0) as (m1 & m2 & m3 & R1 & R2 & R3 & H3). unfold image_used, image_files in *.
  destruct (add_files_fs files m3 _ root_start [] H3 Hf) as (m4 & R4 & H4); [rewrite length_layout; cbn [length]; lia| |done|].
  { change (length root_start) with 32%nat. change MAXINO with 208 in Hn. apply Nat2Z.inj_le. rewrite maxfile_bytes. unfold sizeof_dirent. lia. }
  destruct (finish_run m4 (Z.of_nat (length files) + 2) files H4 Hfit) as (m5 & R5 & H5). exists m4, m5. split; [|done].
  unfold mkfs. rewrite bind_run. unfold modify at 1. change (set_freeblock nmeta mk_start) with (mkMk ∅ 0 1 nmeta). kstep R.
  kstep (wsect_run m 1 nmeta 1 (splice zblock 0 (sb_bytes mk_sb)) ltac:(by vm_compute)). kstep R1. change (negb (ROOTINO =? ROOTINO)) with false. cbn iota.
  fold dot_entry dotdot_entry. kstep R2. kstep R3. change (Z.of_nat (length []) + 2) with 2 in R4.
  rewrite (Z.add_comm 2) in R4. kstep R4. exact R5.
Qed.

(** ** The kernel on the image *)

(** Inode [inum] as [ilock] loads it into the cache entry [w]. *)
Definition on_disk (s : kstate) (inum : Z) (w : inode) : inode :=
  load_dinode (slice (view s (IBLOCK inum (k_sb s))) (di_off inum) sizeof_dinode) w.

(** The kernel runs on the image, and has read its superblock. *)
Record sees (s : kstate) (m : gmap Z (list Z)) : Prop := {
  se_view : forall b, view s b = mblock m b;
  se_size : dk_size (k_disk s) = FSSIZE;
  se_sb : k_sb s = sb_of (view s 1)
}.

(** It finds this file in inode [inum]. *)
Record sees_file (s : kstate) (inum type : Z) (c : list Z) (w : inode) : Prop := {
  sf_type : i_type (on_disk s inum w) = type;
  sf_nlink : i_nlink (on_disk s inum w) = 1;
  sf_ok : inode_ok (on_disk s inum w);
  sf_size : i_size (on_disk s inum w) = Z.of_nat (length c);
  sf_read : readable s (on_disk s inum w);
  sf_file : file_ok s (on_disk s inum w);
  sf_bytes : fbytes s (on_disk s inum w) 0 (length c) = c
}.

(** The blocks of a file. *)
Definition file_block (s : kstate) (v : inode) (b : Z) : Prop :=
  b <> 0 /\ (b = ind_of v \/ exists bn, (bn < MAXFILE)%nat /\ b = blk_of s v bn).

Section on_image.
Context (files : list (list Z * option (list (list Z)))) (m0 m : gmap Z (list Z)) (s : kstate).
Context (Hfin : finished m0 m files) (Hs : sees s m).

Lemma img_sb : k_sb s = mk_sb.
Proof using All.
  rewrite (se_sb _ _ Hs), (se_view _ _ Hs), (fn_blocks _ _ _ Hfin), (fi_sb _ _ _ (fn_inv _ _ _ Hfin)) by lia. by vm_compute.
Qed.

Lemma img_used n : 0 <= n < FSSIZE -> used s n = (n <? image_used files).
Proof using All.
  intros Hn. unfold used. rewrite img_sb, (se_view _ _ Hs). assert (E : BBLOCK n mk_sb = 58 /\ n mod BPB = n).
  { change FSSIZE with 1000 in Hn. unfold BBLOCK. change (sb_bmapstart mk_sb) with 58. change BPB with 4096.
    rewrite Z.div_small, Z.mod_small by lia. done. }
  rewrite (proj1 E), (proj2 E), (fn_bitmap _ _ _ Hfin). pose proof (im_fb _ _ (fn_im _ _ _ Hfin)) as Hr. rewrite nmeta_eq in Hr. unfold FSSIZE in *.
  rewrite balloc_marks_used; [|lia|change (Z.of_nat (length zblock)) with 512; lia|lia].
  assert (E0 : bit_used zblock n = false) by (unfold bit_used, flag; by rewrite nth_zblock, Z.land_0_l).
  rewrite E0, orb_false_r, (proj2 (Z.leb_le _ _)) by lia. cbn [andb]. f_equal. lia.
Qed.

Lemma img_bblock n : 0 <= n < FSSIZE -> BBLOCK n (k_sb s) = 58.
Proof using All.
  intros Hn. rewrite img_sb. unfold BBLOCK, FSSIZE in *. change (sb_bmapstart mk_sb) with 58. change BPB with 4096. by rewrite Z.div_small by lia.
Qed.

Lemma img_bitmap : bitmap_ok s ∅.
Proof using All.
  pose proof (im_fb _ _ (fn_im _ _ _ Hfin)) as Hr. rewrite nmeta_eq in Hr.
  split; rewrite ?img_sb, ?(se_size _ _ Hs); change (sb_size mk_sb) with FSSIZE.
  - by vm_compute.
  - by vm_compute.
  - by vm_compute.
  - rewrite img_used by (unfold FSSIZE; lia). apply Z.ltb_lt. lia.
  - intros. apply not_elem_of_empty.
  - intros n k Hn Hk Hu. split; [apply not_elem_of_empty|]. rewrite <- img_sb, img_bblock by done. rewrite img_used in Hu by done.
    apply Z.ltb_ge in Hu. lia.
Qed.

(** A file of the image, to the kernel. *)
Context (v v0 : inode) (c : list Z) (nb : nat).
Context (Hv : holds_file m0 (image_used files) v0 c nb) (Ea : i_addrs v = i_addrs v0).

Lemma img_blk bn : blk_of s v bn = blk m0 v0 bn.
Proof using All.
  unfold blk_of, ind_of. rewrite Ea. fold (ind_of v0). case_decide; [done|]. destruct (Z.eqb_spec (ind_of v0) 0); [done|].
  pose proof (hf_ind _ _ _ _ _ Hv ltac:(done)). by rewrite (se_view _ _ Hs), (fn_blocks _ _ _ Hfin) by lia.
Qed.

Lemma img_data o : (o < MAXFILE * BSIZE)%nat -> fdata s v o = nth o c 0.
Proof using All.
  intros Ho. unfold fdata. rewrite img_blk. destruct (decide (o < nb * BSIZE)%nat) as [Hlt|Hge].
  - assert (Hb : (o / BSIZE < nb)%nat) by (apply Nat.Div0.div_lt_upper_bound; lia). pose proof (hf_blk _ _ _ _ _ Hv _ Hb) as Hr.
    rewrite (proj2 (Z.eqb_neq _ _)) by (rewrite nmeta_eq in Hr; lia).
    rewrite (se_view _ _ Hs), (fn_blocks _ _ _ Hfin) by lia. by apply (hf_data _ _ _ _ _ Hv).
  - rewrite (hf_none _ _ _ _ _ Hv).
    + symmetry. apply nth_overflow. pose proof (hf_nb _ _ _ _ _ Hv). lia.
    + pose proof (Nat.div_mod_eq o BSIZE). pose proof (Nat.mod_upper_bound o BSIZE ltac:(done)). unfold BSIZE in *. lia.
Qed.

Lemma img_data_block b : nmeta <= b < image_used files -> data_block s b.
Proof using Hfin Hs.
  intros Hb. pose proof (im_fb _ _ (fn_im _ _ _ Hfin)) as Hr. rewrite nmeta_eq in *.
  assert (0 <= b < FSSIZE) by lia. split; rewrite ?img_sb; change (sb_size mk_sb) with FSSIZE; [lia| |].
  - rewrite img_used by lia. apply Z.ltb_lt. lia.
  - intros k Hk. rewrite <- img_sb, img_bblock by done. lia.
Qed.

Lemma img_file_ok : file_ok s v.
Proof using All.
  assert (I : ind_of v = ind_of v0) by (unfold ind_of; by rewrite Ea). pose proof Hv as [H1 H2 H3 H4 H5 H6 H7 H8 H9].
  assert (Hlt : forall bn, (bn < MAXFILE)%nat -> blk m0 v0 bn <> 0 -> (bn < nb)%nat).
  { intros bn Hb Hne. destruct (decide (bn < nb)%nat); [done|]. exfalso. apply Hne, H4. lia. }
  split; rewrite ?I; intros; rewrite ?img_blk in *; eauto.
  - by rewrite Ea.
  - apply img_data_block. by apply H5.
  - apply img_data_block. auto.
  - apply H7; [by apply Hlt|apply Hlt; [done|congruence]|done].
Qed.

Lemma img_readable : i_dev v = 1 -> 0 <= i_size v <= Z.of_nat (nb * BSIZE) -> readable s v.
Proof using All.
  intros Hd Hz. assert (I : ind_of v = ind_of v0) by (unfold ind_of; by rewrite Ea). pose proof (im_fb _ _ (fn_im _ _ _ Hfin)) as Hr.
  pose proof Hv as [H1 H2 H3 H4 H5 H6 H7 H8 H9]. split; rewrite ?I, ?(se_size _ _ Hs); [done|by rewrite Ea| | |].
  - unfold BSIZE in *. lia.
  - intros Hi. specialize (H5 Hi). lia.
  - intros bn Hb. rewrite img_blk. rewrite nmeta_eq in *. specialize (H3 bn ltac:(unfold BSIZE in *; lia)). lia.
Qed.

Lemma img_file_block b : file_block s v b <-> fowns m0 v0 b.
Proof using All. unfold file_block, fowns. setoid_rewrite img_blk. unfold ind_of. by rewrite Ea. Qed.
End on_image.

Lemma on_disk_dino s m i w : view s (IBLOCK i (k_sb s)) = mblock m (IBLOCK i mk_sb) ->
  on_disk s i w = mkInode (i_dev w) (i_inum w) (i_ref w) (i_flags w) (i_type (dino m i)) (i_major (dino m i)) (i_minor (dino m i))
    (i_nlink (dino m i)) (i_size (dino m i)) (i_addrs (dino m i)).
Proof. intros E. unfold on_disk. by rewrite E. Qed.

Lemma img_on_disk files m0 m s i w : finished m0 m files -> sees s m ->
  on_disk s i w = mkInode (i_dev w) (i_inum w) (i_ref w) (i_flags w) (i_type (dino m i)) (i_major (dino m i)) (i_minor (dino m i))
    (i_nlink (dino m i)) (i_size (dino m i)) (i_addrs (dino m i)).
Proof. intros Hf Hs. apply on_disk_dino. by rewrite (img_sb _ _ _ _ Hf Hs), (se_view _ _ Hs). Qed.

Lemma fbytes_nth s v (c : list Z) off n : (forall o, (off <= o < off + n)%nat -> fdata s v o = nth o c 0) ->
  fbytes s v off n = map (fun o => nth o c 0) (seq off n).
Proof. intros H. apply map_ext_in. intros o Ho. apply H. apply in_seq in Ho. lia. Qed.

Lemma map_nth_seq (c : list Z) : map (fun o => nth o c 0) (seq 0 (length c)) = c.
Proof.
  apply list_eq. intros i. rewrite list_lookup_fmap. destruct (decide (i < length c)%nat) as [Hi|Hi].
  - rewrite lookup_seq_lt by done. cbn. rewrite nth_lookup. by destruct (lookup_lt_is_Some_2 _ _ Hi) as [x ->].
  - rewrite lookup_seq_ge by lia. symmetry. apply lookup_ge_None_2. lia.
Qed.

Lemma image_files_file files k f : files !! k = Some f -> image_files files !! S k = Some (T_FILE, contents_of f).
Proof. intros H. change (map (fun f => (T_FILE, contents_of f)) files !! k = Some (T_FILE, contents_of f)). by rewrite list_lookup_fmap, H. Qed.

Lemma img_sees_file files m0 m s k f w : finished m0 m files -> sees s m -> files !! k = Some f -> i_dev w = 1 ->
  sees_file s (Z.of_nat k + 2) T_FILE (contents_of f) w.
Proof.
  intros Hf Hs Hk Hw. pose proof (fn_inv _ _ _ Hf) as Hinv. pose proof (fi_stored _ _ _ Hinv _ _ _ (image_files_file _ _ _ Hk)) as Hst.
  replace (Z.of_nat (S k) + 1) with (Z.of_nat k + 2) in Hst by lia. set (i := Z.of_nat k + 2) in *. set (c := contents_of f) in *.
  pose proof (lookup_lt_Some _ _ _ Hk) as Hlk. pose proof (fi_n _ _ _ Hinv) as Hn. unfold image_files in Hn. rewrite length_layout in Hn. cbn [length] in Hn.
  pose proof (fn_other _ _ _ Hf i ltac:(lia) ltac:(lia)) as Ed. pose proof (img_on_disk _ _ _ _ i w Hf Hs) as Ev. rewrite Ed in Ev.
  destruct Hst as [S1 S2 [] S4 S5 S6]. pose proof (nblk_bounds (length c)) as Hnb.
  assert (Ea : i_addrs (on_disk s i w) = i_addrs (dino m0 i)) by (by rewrite Ev).
  split.
  - by rewrite Ev.
  - by rewrite Ev.
  - rewrite Ev. by split.
  - by rewrite Ev.
  - apply (img_readable _ _ _ _ Hf Hs _ _ _ _ S1 Ea); rewrite Ev; [done|]. cbn [i_size]. rewrite S4. lia.
  - by apply (img_file_ok _ _ _ _ Hf Hs _ _ _ _ S1 Ea).
  - rewrite (fbytes_nth _ _ c); [apply map_nth_seq|]. intros o Ho. apply (img_data _ _ _ _ Hf Hs _ _ _ _ S1 Ea).
    pose proof (hf_nb _ _ _ _ _ S1). unfold BSIZE in *. lia.
Qed.

(** ** The root directory *)

Definition root_entries (files : list (list Z * option (list (list Z)))) : list (list Z) :=
  dot_entry :: dotdot_entry :: entries_from 2 files.
Definition root_slots (files : list (list Z * option (list (list Z)))) : nat := ((2 + length files) / 32 + 1) * 32.

Lemma root_size_slots files : root_size files = Z.of_nat (sizeof_dirent * root_slots files).
Proof.
  unfold root_size, root_slots, sizeof_dirent. change (Z.of_nat BSIZE) with 512. set (k := (2 + length files)%nat).
  pose proof (Nat.div_mod_eq k 32). pose proof (Nat.mod_upper_bound k 32). pose proof (Z.div_mod (Z.of_nat (16 * k)) 512).
  pose proof (Z.mod_pos_bound (Z.of_nat (16 * k)) 512). lia.
Qed.

Lemma root_blocks files : ((2 + length files) mod 32 <> 0)%nat -> (sizeof_dirent * root_slots files = nblk (sizeof_dirent * (2 + length files)) * BSIZE)%nat.
Proof.
  intros H. unfold root_slots. set (k := (2 + length files)%nat) in *. pose proof (Nat.div_mod_eq k 32). pose proof (Nat.mod_upper_bound k 32).
  rewrite (nblk_uniq _ (k / 32 + 1)); unfold sizeof_dirent, BSIZE in *; lia.
Qed.

Lemma length_entry_from n files : Forall (fun e => length e = sizeof_dirent) (entries_from n files) /\ length (entries_from n files) = length files.
Proof.
  revert n. induction files as [|[arg o] files IH]; intros n; [done|]. cbn [entries_from length]. destruct (IH (n + 1)) as [H1 H2].
  split; [constructor; [apply length_dirent|done]|by rewrite H2].
Qed.

Lemma length_root_entries files : Forall (fun e => length e = sizeof_dirent) (root_entries files) /\ length (root_entries files) = (2 + length files)%nat.
Proof. destruct (length_entry_from 2 files) as [H1 H2]. split; [by do 2 constructor|]. unfold root_entries. cbn [length]. by rewrite H2. Qed.

Lemma nth_entries es : Forall (fun e => length e = sizeof_dirent) es -> forall i j, (j < sizeof_dirent)%nat ->
  nth (sizeof_dirent * i + j) (concat es) 0 = nth j (nth i es (replicate sizeof_dirent 0)) 0.
Proof.
  induction 1 as [|e es He Hes IH]; intros i j Hj.
  - cbn [concat]. rewrite nth_overflow by (cbn; lia). destruct i; cbn [nth]; rewrite nth_lookup, lookup_replicate_2; done.
  - cbn [concat]. destruct i as [|i].
    + rewrite Nat.mul_0_r, Nat.add_0_l, app_nth1 by lia. done.
    + rewrite app_nth2 by lia. cbn [nth]. rewrite <- IH by done. f_equal. lia.
Qed.

Lemma root_entry s v files i : (forall o, (o < MAXFILE * BSIZE)%nat -> fdata s v o = nth o (concat (root_entries files)) 0) ->
  (sizeof_dirent * S i <= MAXFILE * BSIZE)%nat -> entry s v i = nth i (root_entries files) (replicate sizeof_dirent 0).
Proof.
  intros H Hi. destruct (length_root_entries files) as [Hl Hn]. set (e := nth i (root_entries files) (replicate sizeof_dirent 0)).
  assert (He : length e = sizeof_dirent).
  { subst e. rewrite nth_lookup. destruct (root_entries files !! i) as [x|] eqn:E; [by apply (Forall_lookup_1 _ _ _ _ Hl E)|done]. }
  unfold entry. rewrite (fbytes_nth _ _ (concat (root_entries files))) by (intros o Ho; apply H; lia).
  rewrite <- (map_nth_seq e) at 1. rewrite He. rewrite <- (Nat.add_0_r (sizeof_dirent * i)), <- fmap_add_seq. rewrite <- list_fmap_compose.
  apply list_fmap_ext. intros k j Hj. apply lookup_seq in Hj as [-> Hj]. unfold compose. rewrite Nat.add_0_l. by apply nth_entries.
Qed.

Lemma root_content files : root_start ++ concat (entries_from 2 files) = concat (root_entries files).
Proof. unfold root_start, root_entries. cbn [concat]. by rewrite <- app_assoc. Qed.

Section root.
Context (files : list (list Z * option (list (list Z)))) (m0 m : gmap Z (list Z)) (s : kstate) (w : inode).
Context (Hfin : finished m0 m files) (Hs : sees s m) (Hw : i_dev w = 1).
Let v := on_disk s ROOTINO w.
Let nb := nblk (sizeof_dirent * (2 + length files)).

Lemma root_stored : holds_file m0 (image_used files) (dino m0 1) (concat (root_entries files)) nb /\ i_addrs v = i_addrs (dino m0 1) /\
  i_dev v = 1 /\ i_type v = T_DIR /\ i_size v = Z.of_nat (sizeof_dirent * root_slots files).
Proof using All.
  pose proof (fi_stored _ _ _ (fn_inv _ _ _ Hfin) _ _ _ (root_lookup files)) as [S1 _ _ _ S5 _]. change (Z.of_nat 0 + 1) with 1 in *.
  rewrite length_root, root_content in S1. rewrite <- root_size_slots. subst v.
  rewrite (img_on_disk _ _ _ _ _ _ Hfin Hs), (fn_root _ _ _ Hfin : dino m ROOTINO = _). done.
Qed.

Lemma root_data o : (o < MAXFILE * BSIZE)%nat -> fdata s v o = nth o (concat (root_entries files)) 0.
Proof using All. destruct root_stored as (H & Ea & _). by apply (img_data _ _ _ _ Hfin Hs _ _ _ _ H Ea). Qed.

Lemma root_file_ok : file_ok s v.
Proof using All. destruct root_stored as (H & Ea & _). by apply (img_file_ok _ _ _ _ Hfin Hs _ _ _ _ H Ea). Qed.

Lemma root_small : (sizeof_dirent * root_slots files <= MAXFILE * BSIZE)%nat.
Proof using Hfin.
  pose proof (fi_n _ _ _ (fn_inv _ _ _ Hfin)) as Hn. unfold image_files in Hn. rewrite length_layout in Hn. cbn [length] in Hn.
  pose proof (root_size_range files ltac:(lia)) as Hr. rewrite root_size_slots in Hr. apply Nat2Z.inj_le. rewrite maxfile_bytes. lia.
Qed.

Lemma root_dir_ok : ((2 + length files) mod 32 <> 0)%nat -> dir_ok s v (root_slots files).
Proof using All.
  intros Hm. destruct root_stored as (H & Ea & Hd & Ht & Hz). split; [|done|done|].
  - apply (img_readable _ _ _ _ Hfin Hs _ _ _ _ H Ea); [done|]. rewrite Hz. unfold nb. rewrite root_blocks by done. lia.
  - intros o Ho. unfold fdata. destruct (_ =? 0); [lia|]. rewrite (se_view _ _ Hs), nth_lookup.
    destruct (mblock m _ !! _) as [x|] eqn:E; [|cbn; lia]. by apply (Forall_lookup_1 _ _ _ _ (im_bytes _ _ (fn_im _ _ _ Hfin) _) E).
Qed.

Lemma root_entries_read : entries s v (root_slots files) =
  root_entries files ++ replicate (root_slots files - (2 + length files)) (replicate sizeof_dirent 0).
Proof using All.
  destruct (length_root_entries files) as [_ Hl]. unfold entries. pose proof root_small as Hsm.
  assert (Hle : (2 + length files <= root_slots files)%nat).
  { unfold root_slots. pose proof (Nat.div_mod_eq (2 + length files) 32). pose proof (Nat.mod_upper_bound (2 + length files) 32). lia. }
  apply list_eq. intros i. rewrite list_lookup_fmap, lookup_app. destruct (decide (i < root_slots files)%nat) as [Hi|Hi].
  - rewrite lookup_seq_lt by done. cbn [fmap option_fmap option_map]. rewrite Nat.add_0_l, (root_entry s v files i root_data) by nia. rewrite nth_lookup.
    destruct (root_entries files !! i) as [e|] eqn:E; [done|]. apply lookup_ge_None in E. symmetry. apply lookup_replicate_2. lia.
  - rewrite lookup_seq_ge by lia. rewrite lookup_ge_None_2 by lia. symmetry. apply lookup_ge_None_2. rewrite length_replicate. lia.
Qed.

(** When the entries fill their blocks, the block after them is counted in
    the size and does not exist. *)
Lemma root_hole : ((2 + length files) mod 32 = 0)%nat ->
  let bn := ((2 + length files) / 32)%nat in Z.of_nat (bn * BSIZE) < i_size v /\ blk_of s v bn = 0.
Proof using All.
  intros Hm bn. destruct root_stored as (H & Ea & _ & _ & Hz). pose proof (Nat.div_mod_eq (2 + length files) 32) as Hd. fold bn in Hd.
  split; [rewrite Hz; unfold root_slots; fold bn; unfold sizeof_dirent, BSIZE; lia|].
  rewrite (img_blk _ _ _ _ Hfin Hs _ _ _ _ H Ea). apply (hf_none _ _ _ _ _ H). unfold nb. rewrite (nblk_uniq _ bn) by (unfold sizeof_dirent, BSIZE; lia).
  pose proof (hf_nb _ _ _ _ _ H) as [Hlen _]. pose proof root_small as Hsm. unfold root_slots in Hsm. fold bn in Hsm. unfold sizeof_dirent, BSIZE in *. lia.
Qed.
End root.

(** ** Names *)

(** The name of a file in the image, and that the names are different. *)
Definition stored_name (f : list Z * option (list (list Z))) : list Z := upto DIRSIZ (file_name f.1).
Record names_ok (files : list (list Z * option (list (list Z)))) : Prop := {
  no_dup : NoDup (map stored_name files);
  no_dot : Forall (fun f => stored_name f <> chars "." /\ stored_name f <> chars "..") files
}.

Lemma entries_from_lookup n files k f : files !! k = Some f ->
  entries_from n files !! k = Some (dirent (n + Z.of_nat k) (strncpy_ DIRSIZ (file_name f.1))).
Proof.
  revert n k. induction files as [|[arg o] files IH]; intros n [|k] H; [done..| |].
  - injection H as <-. cbn [entries_from fst]. change (Z.of_nat 0) with 0. by rewrite Z.add_0_r.
  - cbn [entries_from]. rewrite lookup_cons, (IH (n + 1) k H). by replace (n + 1 + Z.of_nat k) with (n + Z.of_nat (S k)) by lia.
Qed.

Lemma dirent_new n name : 0 <= n < 2 ^ 16 -> dirent n (strncpy_ DIRSIZ name) = new_entry name n.
Proof. intros H. unfold dirent, new_entry. rewrite xshort_id by done. unfold u16. by rewrite Z.mod_small. Qed.

Lemma find_entry_at p es r k e : es !! k = Some e -> p e = true -> (forall j d, (j < k)%nat -> es !! j = Some d -> p d = false) ->
  find_entry p 0 (es ++ r) = Some (k, e).
Proof.
  intros Hk Hp Hlt. rewrite <- (take_drop_middle es k e Hk), <- app_assoc, find_entry_app. rewrite find_entry_none.
  - cbn. rewrite Hp, length_take. pose proof (lookup_lt_Some _ _ _ Hk). by rewrite Nat.min_l by lia.
  - intros j d Hj. destruct (decide (j < k)%nat) as [Hjk|Hjk]; [|by rewrite lookup_take_ge in Hj by lia].
    rewrite lookup_take_lt in Hj by done. by apply (Hlt j).
Qed.

Lemma is_entry_name name de : is_entry name de = true -> upto DIRSIZ name = upto DIRSIZ (de_name de).
Proof. unfold is_entry. intros [_ H]%andb_prop. by apply bool_decide_eq_true in H. Qed.

Lemma find_stored files k f r : Forall storable files -> Z.of_nat (length files) + 1 < MAXINO -> names_ok files -> files !! k = Some f ->
  find_entry (is_entry (file_name f.1)) 0 (root_entries files ++ r) = Some ((2 + k)%nat, new_entry (file_name f.1) (Z.of_nat k + 2)).
Proof.
  intros Hst Hn [Hnd Hdot] Hk. change MAXINO with 208 in Hn.
  assert (Hent : forall j g, files !! j = Some g -> root_entries files !! (2 + j)%nat = Some (new_entry (file_name g.1) (Z.of_nat j + 2)) /\
    de_inum (new_entry (file_name g.1) (Z.of_nat j + 2)) = Z.of_nat j + 2 /\
    upto DIRSIZ (de_name (new_entry (file_name g.1) (Z.of_nat j + 2))) = stored_name g).
  { intros j g Hj. pose proof (lookup_lt_Some _ _ _ Hj). destruct (Forall_lookup_1 _ _ _ _ Hst Hj) as [[Hb _] _ _ _].
    destruct (new_entry_spec (file_name g.1) (Z.of_nat j + 2)) as (_ & E1 & E2); [lia|by apply bytes_file_name|].
    split; [|done]. change (root_entries files !! (2 + j)%nat) with (entries_from 2 files !! j). rewrite (entries_from_lookup _ _ _ _ Hj), dirent_new by lia.
    by rewrite Z.add_comm. }
  destruct (Hent k f Hk) as (L & E1 & E2). destruct (Forall_lookup_1 _ _ _ _ Hdot Hk) as [D1 D2].
  apply find_entry_at; [done| |].
  - unfold is_entry. rewrite E1, E2, (proj2 (Z.eqb_neq _ _)) by lia. by apply bool_decide_eq_true.
  - intros j d Hj Hd. destruct (is_entry _ d) eqn:E; [|done]. exfalso. apply is_entry_name in E. fold (stored_name f) in E.
    destruct j as [|[|j]]; [injection Hd as <-; by apply D1|injection Hd as <-; by apply D2|].
    destruct (lookup_lt_is_Some_2 files j) as [g Hg]; [pose proof (lookup_lt_Some _ _ _ Hk); lia|].
    destruct (Hent j g Hg) as (L' & _ & E2'). change (S (S j)) with (2 + j)%nat in Hd. rewrite L' in Hd. injection Hd as <-. rewrite E2' in E.
    assert (j = k); [|lia]. apply (NoDup_lookup _ _ _ (stored_name f) Hnd); rewrite list_lookup_fmap; [by rewrite Hg, E|by rewrite Hk].
Qed.

Lemma mkfs_finished files st : fits_image files -> mkfs files mk_start = Ret tt st -> exists m0, finished m0 (m_img st) files.
Proof.
  intros Hfit R. destruct (mkfs_run files Hfit) as (m0 & m & R' & Hf). exists m0. rewrite R in R'. by injection R' as ->.
Qed.

(** ** The theorems *)

(** C14: on files that fit the image mkfs succeeds, and a kernel that runs on the
    image it leaves finds: the superblock of the layout; an empty log; a bitmap
    that marks the blocks in use and no others; each file, in the inode after
    that of the file before it, of type T_FILE with one link and exactly the
    bytes that were read from it, in blocks that no other file has. *)
Theorem mkfs_image_correct files : fits_image files ->
  exists st, mkfs files mk_start = Ret tt st /\ forall s, sees s (m_img st) ->
    k_sb s = mkSb 1000 941 200 30 2 32 58 /\ lh_n (view s 2) = 0 /\ bitmap_ok s ∅ /\
    (forall n, 0 <= n < FSSIZE -> used s n = (n <? image_used files)) /\
    (forall k f w, files !! k = Some f -> i_dev w = 1 -> sees_file s (Z.of_nat k + 2) T_FILE (contents_of f) w) /\
    (forall k k' w b, (k <= length files)%nat -> (k' <= length files)%nat -> k <> k' ->
      file_block s (on_disk s (Z.of_nat k + 1) w) b -> ~ file_block s (on_disk s (Z.of_nat k' + 1) w) b).
Proof.
  intros Hfit. destruct (mkfs_run files Hfit) as (m0 & m & R & Hf). eexists. split; [exact R|]. intros s Hs. cbn [m_img] in Hs.
  split; [by rewrite (img_sb _ _ _ _ Hf Hs)|]. split.
  { rewrite (se_view _ _ Hs), (fn_blocks _ _ _ Hf), (fi_zero _ _ _ (fn_inv _ _ _ Hf)) by lia. by vm_compute. }
  split; [by eapply img_bitmap|]. split; [intros; by eapply img_used|]. split; [intros; by eapply img_sees_file|].
  assert (Hown : forall k w b, (k <= length files)%nat -> file_block s (on_disk s (Z.of_nat k + 1) w) b <-> fowns m0 (dino m0 (Z.of_nat k + 1)) b).
  { intros k w b Hk. destruct (lookup_lt_is_Some_2 (image_files files) k) as [[t c] E]; [unfold image_files; rewrite length_layout; cbn; lia|].
    eapply img_file_block; [exact Hf|done|apply (fi_stored _ _ _ (fn_inv _ _ _ Hf) _ _ _ E)|]. rewrite (img_on_disk _ _ _ _ _ _ Hf Hs). cbn [i_addrs].
    destruct (decide (k = 0%nat)) as [->|Hne]; [by rewrite (fn_root _ _ _ Hf : dino m (Z.of_nat 0 + 1) = _)|]. destruct Hfit. by rewrite (fn_other _ _ _ Hf) by lia. }
  intros k k' w b Hk Hk' Hne. rewrite !Hown by done. apply (fi_apart _ _ _ (fn_inv _ _ _ Hf)); [| |done]; unfold image_files; rewrite length_layout; cbn; lia.
Qed.

(** The kernel finds the stored files by name: on the image of mkfs, when the
    names differ in their first [DIRSIZ] characters, [dirlookup] in the root
    directory gives for the name of a file the inode that holds it.  (Unless
    the entries fill their blocks exactly.) *)
Theorem mkfs_files_found files st s D dp w k f :
  fits_image files -> names_ok files -> ((2 + length files) mod 32 <> 0)%nat -> mkfs files mk_start = Ret tt st ->
  sees s (m_img st) -> cabs s D ∅ -> (size D < NBUF)%nat -> i_dev w = 1 -> k_icache s !! dp = Some (on_disk s ROOTINO w) ->
  files !! k = Some f ->
  exists s', k_icache s' = k_icache s /\ (forall b, view s' b = view s b) /\
    dirlookup dp (file_name f.1) s = (ip ← iget 1 (Z.of_nat k + 2); mret (Some (ip, Z.of_nat (sizeof_dirent * (2 + k))))) s'.
Proof.
  intros Hfit Hnm Hm R Hs Hc Hsz Hw Hip Hk. destruct (mkfs_finished files st Hfit R) as (m0 & Hf). generalize dependent (m_img st). intros m Hs Hf.
  pose proof Hfit as [Hst Hn _]. destruct (Forall_lookup_1 _ _ _ _ Hst Hk) as [[Hb _] _ _ _].
  pose proof (root_dir_ok files m0 m s w Hf Hs Hw Hm) as Hd.
  destruct (dirlookup_run D dp (on_disk s ROOTINO w) (root_slots files) (file_name f.1) Hsz (bytes_file_name _ Hb) s (conj Hc (conj Hip Hd))) as (s' & HR & E).
  exists s'. split; [by apply cframe_icache, HR|]. split; [apply HR|]. rewrite E. rewrite (root_entries_read files m0 m s w Hf Hs Hw).
  rewrite (find_stored _ _ _ _ Hst Hn Hnm Hk). destruct (root_stored files m0 m s w Hf Hs Hw) as (_ & _ & -> & _).
  pose proof (lookup_lt_Some _ _ _ Hk). change MAXINO with 208 in Hn.
  destruct (new_entry_spec (file_name f.1) (Z.of_nat k + 2)) as (_ & -> & _); [lia|by apply bytes_file_name|done].
Qed.

(** When the entries of the root fill their blocks exactly (30 files, for
    instance), the rounded size of the root counts one block more, which is not
    allocated: the root is not a directory that can be read to its end. *)
Theorem mkfs_root_hole files st s w :
  fits_image files -> ((2 + length files) mod 32 = 0)%nat -> mkfs files mk_start = Ret tt st -> sees s (m_img st) -> i_dev w = 1 ->
  let v := on_disk s ROOTINO w in let bn := ((2 + length files) / 32)%nat in
  Z.of_nat (bn * BSIZE) < i_size v /\ blk_of s v bn = 0 /\ ~ readable s v.
Proof.
  intros Hfit Hm R Hs Hw v bn. destruct (mkfs_finished files st Hfit R) as (m0 & Hf). generalize dependent (m_img st). intros m Hs Hf.
  destruct (root_hole files m0 m s w Hf Hs Hw Hm) as [H1 H2]. split; [exact H1|]. split; [exact H2|].
  intros Hr. destruct (rd_blk _ _ Hr bn H1) as [Hne _]. exact (Hne H2).
Qed.

(** ** Witnesses *)

(** One file, whose contents come in two pieces; thirty empty files. *)
Definition one_file : list (list Z * option (list (list Z))) := [(chars "_cat", Some [[72; 105]; [10]])].
Definition thirty_files : list (list Z * option (list (list Z))) := map (fun i => ([Z.of_nat i], Some [])) (seq 65 30).

Lemma one_file_fits : fits_image one_file.
Proof.
  split; [|by vm_compute|by vm_compute]. constructor; [|constructor]. split; [|by eexists| |].
  - split; [|done]. vm_compute. repeat constructor; discriminate.
  - repeat constructor; lia.
  - apply Nat.leb_le. by vm_compute.
Qed.

Lemma thirty_files_fit : fits_image thirty_files.
Proof.
  split; [|by vm_compute|by vm_compute]. apply Forall_map, Forall_forall. intros i Hi%elem_of_seq.
  split; cbn [fst snd]; [|by eexists|apply Forall_nil_2|apply Nat.le_0_l].
  split; [apply Forall_singleton; lia|]. unfold existsb, c_slash. rewrite (proj2 (Z.eqb_neq _ _)) by lia. done.
Qed.

(** A kernel on an image. *)
Lemma image_state m : (forall b, length (mblock m b) = BSIZE) -> exists s, cabs s ∅ ∅ /\ sees s m /\
  k_icache s !! 0%nat = Some (on_disk s ROOTINO (set_i_dev 1 dinode0)).
Proof.
  intros Hm. destruct (boots_up (mkDisk FSSIZE m []) Hm) as [s Hb]. pose proof (bo_view _ _ Hb) as V.
  pose proof (booted_cabs _ _ Hb) as Hc. pose proof (bo_disk _ _ Hb) as Hd. clear Hb.
  set (s1 := set_k_sb (sb_of (view s 1)) s).
  exists (set_k_icache [on_disk s1 ROOTINO (set_i_dev 1 dinode0)] s1). split; [by destruct Hc|]. split; [|done].
  split; [exact V| |done]. ksimp. subst s1. ksimp. by rewrite Hd.
Qed.

Lemma mkfs_image_correct_witness : exists st s, mkfs one_file mk_start = Ret tt st /\ sees s (m_img st) /\
  sees_file s 2 T_FILE [72; 105; 10] (set_i_dev 1 dinode0).
Proof.
  destruct (mkfs_image_correct one_file one_file_fits) as (st & R & H). set (s := set_k_sb (sb_of (mblock (m_img st) 1)) (boots (m_img st))).
  assert (Hs : sees s (m_img st)) by (by split). exists st, s. split; [done|]. split; [done|].
  destruct (H s Hs) as (_ & _ & _ & _ & Hf & _). by apply (Hf 0%nat (chars "_cat", Some [[72; 105]; [10]])).
Defined.

Lemma mkfs_files_found_witness : exists st s s', mkfs one_file mk_start = Ret tt st /\
  dirlookup 0 (chars "cat") s = (ip ← iget 1 2; mret (Some (ip, 32))) s'.
Proof.
  destruct (mkfs_run one_file one_file_fits) as (m0 & m & R & Hf). destruct (image_state m (im_len _ _ (fn_im _ _ _ Hf))) as (s & Hc & Hs & Hi).
  destruct (mkfs_files_found one_file (mst m 3 (image_used one_file)) s ∅ 0 (set_i_dev 1 dinode0) 0 (chars "_cat", Some [[72; 105]; [10]]) one_file_fits) as (s' & _ & _ & E).
  - split; [repeat constructor; apply not_elem_of_nil|]. constructor; [|constructor]. split; by vm_compute.
  - by vm_compute.
  - exact R.
  - exact Hs.
  - exact Hc.
  - rewrite size_empty. unfold NBUF. cbn. lia.
  - reflexivity.
  - exact Hi.
  - reflexivity.
  - exists (mst m 3 (image_used one_file)), s, s'. split; [exact R|exact E].
Defined.

Lemma mkfs_root_hole_witness : exists st s, mkfs thirty_files mk_start = Ret tt st /\ ~ readable s (on_disk s ROOTINO (set_i_dev 1 dinode0)).
Proof.
  destruct (mkfs_run thirty_files thirty_files_fit) as (m0 & m & R & Hf). destruct (image_state m (im_len _ _ (fn_im _ _ _ Hf))) as (s & _ & Hs & _).
  exists (mst m 32 (image_used thirty_files)), s. split; [exact R|].
  apply (mkfs_root_hole thirty_files (mst m 32 (image_used thirty_files)) s (set_i_dev 1 dinode0) thirty_files_fit eq_refl R Hs eq_refl).
Defined.
