(* ===== verification/Ide.v ===== *)
(** * The IDE disk driver: src/xv6/ide.c

    The driver keeps a queue of buffers, linked through [qnext]; the first is
    the one the disk is working on.  [iderw] appends a buffer and sleeps;
    [ideintr], called when the disk interrupts, completes the first request,
    wakes its process and starts the next.

    The controller is behind an interface, [ide_device]: the port accesses of
    x86.h, what can be observed of the device (its registers, the sectors, the
    command it executes, how many more times it reports to be busy, whether it
    reports an error), and laws that say what the accesses do, as the ATA
    standard has it.  Everything is proved for any device that satisfies the
    laws; [ram_ide] is one.

    The main theorem relates the driver to memide.c: once every request of the
    queue has been completed by an interrupt, buffers and disk are as if
    memide's [iderw] had been called for each of them in the order of the
    queue. *)

From stdpp Require Import base list list_numbers numbers gmap strings.
From Stdlib Require Import ZArith Lia.
From S2P Require Import Prelude Mem KState Sched Bio.

Definition SECTOR_SIZE : Z := 512.
Definition IDE_BSY : Z := 0x80.
Definition IDE_DRDY : Z := 0x40.
Definition IDE_DF : Z := 0x20.
Definition IDE_ERR : Z := 0x01.
Definition IDE_CMD_READ : Z := 0x20.
Definition IDE_CMD_WRITE : Z := 0x30.

(** ** The device *)

Inductive command := Rd (drive sector : Z) | Wr (drive sector : Z).

(** The sector and the drive that the registers select. *)
Definition lba (reg : Z -> Z) : Z := reg 0x1f3 + 2 ^ 8 * reg 0x1f4 + 2 ^ 16 * reg 0x1f5 + 2 ^ 24 * Z.land (reg 0x1f6) 0x0f.
Definition drive (reg : Z -> Z) : Z := Z.shiftr (Z.land (reg 0x1f6) 0x10) 4.

Class ide_device (D : Type) := {
  inb : Z -> D -> Z * D;
  outb : Z -> Z -> D -> D;
  insl : Z -> nat -> D -> list Z * D;
  outsl : Z -> list Z -> D -> D;
  dev_reg : D -> Z -> Z;
  dev_sector : D -> Z -> Z -> list Z;
  dev_command : D -> option command;
  dev_delay : D -> nat;
  dev_error : D -> bool;
  dev_patience : nat;
  (** The device becomes ready; the status says when. *)
  dev_delay_bound : forall d, (dev_delay d < dev_patience)%nat;
  dev_poll : forall d, let '(st, d') := inb 0x1f7 d in
    dev_reg d' = dev_reg d /\ dev_sector d' = dev_sector d /\ dev_command d' = dev_command d /\ dev_error d' = dev_error d /\
    match dev_delay d with
    | O => dev_delay d' = O /\ Z.land st (Z.lor IDE_BSY IDE_DRDY) = IDE_DRDY /\ (Z.land st (Z.lor IDE_DF IDE_ERR) =? 0) = negb (dev_error d)
    | S n => dev_delay d' = n /\ Z.land st (Z.lor IDE_BSY IDE_DRDY) <> IDE_DRDY
    end;
  (** The registers of the task file and the control register. *)
  dev_write_reg : forall p v d, p ∈ [0x1f2; 0x1f3; 0x1f4; 0x1f5; 0x1f6; 0x3f6] ->
    (forall q, dev_reg (outb p v d) q = if decide (q = p) then v else dev_reg d q) /\
    dev_sector (outb p v d) = dev_sector d /\ dev_command (outb p v d) = dev_command d;
  (** Commands for one sector. *)
  dev_cmd_read : forall d, dev_reg d 0x1f2 = 1 -> let d' := outb 0x1f7 IDE_CMD_READ d in
    dev_reg d' = dev_reg d /\ dev_sector d' = dev_sector d /\ dev_command d' = Some (Rd (drive (dev_reg d)) (lba (dev_reg d)));
  dev_cmd_write : forall d, dev_reg d 0x1f2 = 1 -> let d' := outb 0x1f7 IDE_CMD_WRITE d in
    dev_reg d' = dev_reg d /\ dev_sector d' = dev_sector d /\ dev_command d' = Some (Wr (drive (dev_reg d)) (lba (dev_reg d)));
  (** The data of the sector. *)
  dev_data_out : forall d dr n v, dev_command d = Some (Wr dr n) -> length v = BSIZE -> let d' := outsl 0x1f0 v d in
    dev_reg d' = dev_reg d /\ dev_command d' = dev_command d /\
    forall dr' n', dev_sector d' dr' n' = if decide (dr' = dr /\ n' = n) then v else dev_sector d dr' n';
  dev_data_in : forall d dr n, dev_command d = Some (Rd dr n) -> dev_delay d = O -> dev_error d = false ->
    let '(v, d') := insl 0x1f0 (BSIZE / 4) d in
    v = dev_sector d dr n /\ dev_reg d' = dev_reg d /\ dev_sector d' = dev_sector d
}.

Section driver.
Context {D : Type} `{!ide_device D}.

(** The kernel with the variables of ide.c and the device. *)
Record ist := mkIst { i_k : kstate; i_queue : option nat; i_have1 : Z; i_hw : D }.
Definition set_ik (v : kstate) (s : ist) : ist := mkIst v (i_queue s) (i_have1 s) (i_hw s).
Definition set_queue (v : option nat) (s : ist) : ist := mkIst (i_k s) v (i_have1 s) (i_hw s).
Definition set_have1 (v : Z) (s : ist) : ist := mkIst (i_k s) (i_queue s) v (i_hw s).
Definition set_hw (v : D) (s : ist) : ist := mkIst (i_k s) (i_queue s) (i_have1 s) v.
Abbreviation I := (prog kstop ist).

Definition kernel {A} (m : K A) : I A := fun s =>
  match m (i_k s) with Ret a k => Ret a (set_ik k s) | Stop e k => Stop e (set_ik k s) end.
Definition in_ (port : Z) : I Z := fun s => let '(v, d) := inb port (i_hw s) in Ret v (set_hw d s).
Definition out_ (port v : Z) : I unit := modify (fun s => set_hw (outb port v (i_hw s)) s).

(** The loop of [idewait]; the device is ready before it has been asked
    [dev_patience] times. *)
Fixpoint idewait_loop (fuel : nat) (checkerr : bool) : I Z :=
  match fuel with
  | O => stop NoFuel
  | S fuel' =>
      r ← in_ 0x1f7;
      if Z.land r (Z.lor IDE_BSY IDE_DRDY) =? IDE_DRDY then
        mret (if (checkerr && negb (Z.land r (Z.lor IDE_DF IDE_ERR) =? 0))%bool then -1 else 0)
      else idewait_loop fuel' checkerr
  end.
Definition idewait (checkerr : bool) : I Z := idewait_loop dev_patience checkerr.

(** The loop of [ideinit] that looks for disk 1. *)
Fixpoint find_disk1 (n : nat) : I unit :=
  match n with
  | O => mret tt
  | S n' => r ← in_ 0x1f7; if negb (r =? 0) then modify (set_have1 1) else find_disk1 n'
  end.
(** The interrupt controllers are not part of the model. *)
Definition ideinit : I unit :=
  idewait false ;;
  out_ 0x1f6 (Z.lor 0xe0 (Z.shiftl 1 4)) ;;
  find_disk1 1000 ;;
  out_ 0x1f6 (Z.lor 0xe0 (Z.shiftl 0 4)).

Definition sector_per_block : Z := Z.of_nat BSIZE / SECTOR_SIZE.

Definition idestart (b : option nat) : I unit :=
  match b with
  | None => kernel (panic "idestart")
  | Some i =>
      v ← kernel (get_buf i);
      if FSSIZE <=? b_blockno v then kernel (panic "incorrect blockno")
      else
        let sector := s32 (u32 (b_blockno v * sector_per_block)) in
        if 7 <? sector_per_block then kernel (panic "idestart")
        else
          idewait false ;;
          out_ 0x3f6 0 ;;
          out_ 0x1f2 sector_per_block ;;
          out_ 0x1f3 (Z.land sector 0xff) ;;
          out_ 0x1f4 (Z.land (Z.shiftr sector 8) 0xff) ;;
          out_ 0x1f5 (Z.land (Z.shiftr sector 16) 0xff) ;;
          out_ 0x1f6 (Z.lor (Z.lor 0xe0 (Z.shiftl (Z.land (b_dev v) 1) 4)) (Z.land (Z.shiftr sector 24) 0x0f)) ;;
          if flag (b_flags v) B_DIRTY then
            out_ 0x1f7 IDE_CMD_WRITE ;;
            modify (fun s => set_hw (outsl 0x1f0 (b_data v) (i_hw s)) s)
          else out_ 0x1f7 IDE_CMD_READ
  end.

Definition in_data : I (list Z) := fun s => let '(v, d) := insl 0x1f0 (BSIZE / 4) (i_hw s) in Ret v (set_hw d s).

Definition ideintr : I unit :=
  kernel (acquire L_ide) ;;
  q ← gets i_queue;
  match q with
  | None => kernel (release L_ide)
  | Some i =>
      v ← kernel (get_buf i);
      modify (set_queue (b_qnext v)) ;;
      (if negb (flag (b_flags v) B_DIRTY) then
         r ← idewait true;
         if 0 <=? r then d ← in_data; kernel (upd_buf i (set_b_data d)) else mret tt
       else mret tt) ;;
      kernel (upd_buf i (fun b => set_b_flags (fset (b_flags b) B_VALID) b)) ;;
      kernel (upd_buf i (fun b => set_b_flags (fclr (b_flags b) B_DIRTY) b)) ;;
      kernel (wakeup (C_buf i)) ;;
      q ← gets i_queue;
      (match q with Some _ => idestart q | None => mret tt end) ;;
      kernel (release L_ide)
  end.

(** The loop that follows the links from [idequeue] to the pointer that is
    null: the buffer whose [qnext] that is, none for [idequeue] itself. *)
Fixpoint queue_end (fuel : nat) (at_ : option nat) (p : option nat) : I (option nat) :=
  match p, fuel with
  | None, _ => mret at_
  | Some _, O => stop NoFuel
  | Some i, S fuel' => v ← kernel (get_buf i); queue_end fuel' (Some i) (b_qnext v)
  end.

(** The loop at the end of [iderw], with [idelock] held. *)
Definition iderw_wait (i : nat) : I unit :=
  v ← kernel (get_buf i);
  if negb (Z.land (b_flags v) (Z.lor B_VALID B_DIRTY) =? B_VALID) then kernel (block (C_buf i) L_ide)
  else kernel (release L_ide).

Definition iderw (i : nat) : I unit :=
  v ← kernel (get_buf i);
  have ← gets i_have1;
  if negb (flag (b_flags v) B_BUSY) then kernel (panic "iderw: buf not busy")
  else if Z.land (b_flags v) (Z.lor B_VALID B_DIRTY) =? B_VALID then kernel (panic "iderw: nothing to do")
  else if (negb (b_dev v =? 0) && (have =? 0))%bool then kernel (panic "iderw: ide disk 1 not present")
  else
    kernel (acquire L_ide) ;;
    kernel (upd_buf i (set_b_qnext None)) ;;
    q ← gets i_queue;
    e ← queue_end (S NBUF) None q;
    (match e with
     | None => modify (set_queue (Some i))
     | Some j => kernel (upd_buf j (set_b_qnext (Some i)))
     end) ;;
    q ← gets i_queue;
    (if decide (q = Some i) then idestart (Some i) else mret tt) ;;
    iderw_wait i.

(** ** Running the driver *)

Lemma kernel_Ret {A} (m : K A) s a k : m (i_k s) = Ret a k -> kernel m s = Ret a (set_ik k s).
Proof using. intros E. unfold kernel. by rewrite E. Qed.
Lemma kernel_Stop {A} (m : K A) s e k : m (i_k s) = Stop e k -> kernel m s = Stop e (set_ik k s).
Proof using. intros E. unfold kernel. by rewrite E. Qed.

(** What does not change while the driver waits. *)
Definition same_dev (d d' : D) : Prop :=
  dev_reg d' = dev_reg d /\ dev_sector d' = dev_sector d /\ dev_command d' = dev_command d /\ dev_error d' = dev_error d.

Lemma idewait_loop_run c fuel : forall s, (dev_delay (i_hw s) < fuel)%nat ->
  exists d, idewait_loop fuel c s = Ret (if c && dev_error (i_hw s) then -1 else 0) (set_hw d s) /\
    same_dev (i_hw s) d /\ dev_delay d = O.
Proof.
  induction fuel as [|fuel IH]; intros s Hf; [lia|]. cbn [idewait_loop]. rewrite bind_run. unfold in_.
  pose proof (dev_poll (i_hw s)) as Hp. destruct (inb 0x1f7 (i_hw s)) as [st d]. destruct Hp as (E1 & E2 & E3 & E4 & Hd).
  destruct (dev_delay (i_hw s)) as [|n].
  - destruct Hd as (Z0 & Es & Ee). rewrite Es, Z.eqb_refl, Ee, negb_involutive. exists d. split; [done|]. by split.
  - destruct Hd as (En & Hne). rewrite (proj2 (Z.eqb_neq _ _)) by done.
    destruct (IH (set_hw d s)) as (d' & R & (F1 & F2 & F3 & F4) & Z0); [cbn; lia|]. cbn [i_hw set_hw] in *.
    exists d'. rewrite R, E4. split; [by destruct s|]. split; [|done]. unfold same_dev. by rewrite F1, F2, F3, F4.
Qed.

Lemma idewait_run c s : exists d, idewait c s = Ret (if c && dev_error (i_hw s) then -1 else 0) (set_hw d s) /\
  same_dev (i_hw s) d /\ dev_delay d = O.
Proof. apply idewait_loop_run. apply dev_delay_bound. Qed.

(** The command for a buffer. *)
Definition op_of (b : buf) : command :=
  if flag (b_flags b) B_DIRTY then Wr (Z.land (b_dev b) 1) (b_blockno b) else Rd (Z.land (b_dev b) 1) (b_blockno b).
(** The sectors once it has been given to the disk. *)
Definition after_op (b : buf) (c : Z -> Z -> list Z) (dr n : Z) : list Z :=
  if flag (b_flags b) B_DIRTY then if decide (dr = Z.land (b_dev b) 1 /\ n = b_blockno b) then b_data b else c dr n else c dr n.

(** The registers that [idestart] writes select the sector. *)
Lemma select_sector (r : Z -> Z) (n dv : Z) : 0 <= n < FSSIZE ->
  r 0x1f3 = Z.land n 0xff -> r 0x1f4 = Z.land (Z.shiftr n 8) 0xff -> r 0x1f5 = Z.land (Z.shiftr n 16) 0xff ->
  r 0x1f6 = Z.lor (Z.lor 0xe0 (Z.shiftl (Z.land dv 1) 4)) (Z.land (Z.shiftr n 24) 0x0f) ->
  lba r = n /\ drive r = Z.land dv 1.
Proof using.
  intros Hn E3 E4 E5 E6. unfold FSSIZE in Hn.
  assert (S24 : Z.shiftr n 24 = 0) by (rewrite Z.shiftr_div_pow2 by lia; apply Z.div_small; lia).
  assert (S16 : Z.shiftr n 16 = 0) by (rewrite Z.shiftr_div_pow2 by lia; apply Z.div_small; lia).
  assert (S8 : Z.land (Z.shiftr n 8) 255 = n / 256).
  { rewrite Z.shiftr_div_pow2 by lia. change 255 with (Z.ones 8). rewrite Z.land_ones by lia. apply Z.mod_small.
    split; [apply Z.div_pos; lia|apply Z.div_lt_upper_bound; lia]. }
  assert (S0 : Z.land n 255 = n mod 256) by (change 255 with (Z.ones 8); by rewrite Z.land_ones by lia).
  assert (Hd : Z.land dv 1 = 0 \/ Z.land dv 1 = 1).
  { pose proof (Z.land_ones dv 1 ltac:(lia)) as E. change (Z.ones 1) with 1 in E. pose proof (Z.mod_pos_bound dv (2 ^ 1)). lia. }
  unfold lba, drive. rewrite E3, E4, E5, E6, S24, S16, S8, S0. pose proof (Z.div_mod n 256).
  destruct Hd as [-> | ->]; (split; [|reflexivity]); change (Z.land 0 255) with 0; change (Z.land (Z.lor _ _) 15) with 0; lia.
Qed.

Definition file_ports : list Z := [0x1f2; 0x1f3; 0x1f4; 0x1f5; 0x1f6; 0x3f6].

Lemma port_reg p v d q : p ∈ file_ports -> dev_reg (outb p v d) q = if decide (q = p) then v else dev_reg d q.
Proof. intros Hp. by apply dev_write_reg. Qed.
Lemma port_sector p v d : p ∈ file_ports -> dev_sector (outb p v d) = dev_sector d.
Proof. intros Hp. by apply dev_write_reg. Qed.

(** Programming the disk for a buffer. *)
Lemma idestart_run s i b :
  k_bcache (i_k s) !! i = Some b -> 0 <= b_blockno b < FSSIZE -> length (b_data b) = BSIZE ->
  exists d, idestart (Some i) s = Ret tt (set_hw d s) /\ dev_command d = Some (op_of b) /\ dev_reg d 0x3f6 = 0 /\
    forall dr n, dev_sector d dr n = after_op b (dev_sector (i_hw s)) dr n.
Proof.
  intros Hb Hn Hl. unfold idestart. rewrite (bind_Ret _ _ _ _ _ (kernel_Ret _ _ _ _ (get_buf_Ret _ _ _ Hb))).
  replace (set_ik (i_k s) s) with s by (by destruct s). rewrite (proj2 (Z.leb_gt _ _)) by lia.
  change (7 <? sector_per_block) with false. cbn iota. change sector_per_block with 1. rewrite Z.mul_1_r.
  assert (Es : s32 (u32 (b_blockno b)) = b_blockno b).
  { unfold FSSIZE in Hn. rewrite u32_small by lia. unfold s32. rewrite Z.mod_small; lia. }
  rewrite Es. destruct (idewait_run false s) as (d0 & R & (_ & F2 & _ & _) & _). rewrite (bind_Ret _ _ _ _ _ R). clear R Es.
  unfold out_. do 6 (rewrite bind_run; unfold modify at 1; cbn [i_hw set_hw i_k i_queue i_have1]).
  set (d6 := outb 0x1f6 _ _). assert (Hsec : dev_sector d6 = dev_sector (i_hw s)).
  { subst d6. rewrite !port_sector by (unfold file_ports; set_solver). done. }
  assert (R2 : dev_reg d6 0x1f2 = 1) by (subst d6; rewrite !port_reg by (unfold file_ports; set_solver); by repeat case_decide).
  assert (RC : dev_reg d6 0x3f6 = 0) by (subst d6; rewrite !port_reg by (unfold file_ports; set_solver); by repeat case_decide).
  destruct (select_sector (dev_reg d6) (b_blockno b) (b_dev b) Hn) as [El Ed];
    [subst d6; rewrite !port_reg by (unfold file_ports; set_solver); by repeat case_decide..|].
  unfold op_of, after_op. destruct (flag (b_flags b) B_DIRTY).
  - rewrite bind_run. unfold modify. cbn [i_hw set_hw i_k i_queue i_have1].
    destruct (dev_cmd_write d6 R2) as (C1 & C2 & C3). rewrite El, Ed in C3.
    destruct (dev_data_out _ _ _ (b_data b) C3 Hl) as (E1 & E2 & E3).
    eexists. split; [done|]. rewrite E2, C3, E1, C1. split; [done|]. split; [done|]. intros dr n. rewrite E3, C2, Hsec. done.
  - unfold modify. cbn [i_hw set_hw i_k i_queue i_have1]. destruct (dev_cmd_read d6 R2) as (C1 & C2 & C3). rewrite El, Ed in C3.
    exists (outb 0x1f7 IDE_CMD_READ d6). split; [done|]. rewrite C3, C1. split; [done|]. split; [done|]. intros dr n. by rewrite C2, Hsec.
Qed.

(** ** The queue *)

(** The links from [p] on are those of the list. *)
Fixpoint qpath (bc : list buf) (p : option nat) (q : list nat) : Prop :=
  match q with
  | [] => p = None
  | i :: q' => p = Some i /\ exists b, bc !! i = Some b /\ qpath bc (b_qnext b) q'
  end.

Lemma qpath_ext bc bc' p q : (forall i, i ∈ q -> b_qnext <$> bc' !! i = b_qnext <$> bc !! i) -> qpath bc p q -> qpath bc' p q.
Proof using.
  revert p. induction q as [|i q IH]; intros p H Hq; [done|]. destruct Hq as (-> & b & Hb & Hq). split; [done|].
  specialize (H i ltac:(left)) as Hi. rewrite Hb in Hi. cbn in Hi. destruct (bc' !! i) as [b'|]; [|done]. injection Hi as Hi.
  exists b'. split; [done|]. rewrite Hi. apply IH; [|done]. intros j Hj. apply H. by right.
Qed.

Lemma queue_end_run fuel q : forall at_ p s, qpath (k_bcache (i_k s)) p q -> (length q <= fuel)%nat ->
  queue_end fuel at_ p s = Ret (match last q with Some j => Some j | None => at_ end) s.
Proof using.
  revert q. induction fuel as [|fuel IH]; intros q at_ p s Hq Hl.
  - destruct q as [|i q]; [|cbn in Hl; lia]. cbn in Hq. by subst.
  - destruct q as [|i q]; [cbn in Hq; by subst|]. destruct Hq as (-> & b & Hb & Hq). cbn [queue_end].
    rewrite (bind_Ret _ _ _ _ _ (kernel_Ret _ _ _ _ (get_buf_Ret _ _ _ Hb))). replace (set_ik (i_k s) s) with s by (by destruct s).
    rewrite (IH q) by (done || cbn in Hl; lia). destruct q; [done|]. rewrite last_cons_cons. by destruct (last (_ :: _)) eqn:E; [|apply last_None in E].
Qed.

(** Appending a buffer at the end. *)
Definition link (bc : list buf) (q : list nat) (i : nat) (b : buf) : list buf :=
  let bc := <[i := set_b_qnext None b]> bc in
  match last q with
  | None => bc
  | Some j => alter (set_b_qnext (Some i)) j bc
  end.

Lemma qpath_last bc p q j : qpath bc p (q ++ [j]) -> forall bc' i, (forall k, k ∈ q -> b_qnext <$> bc' !! k = b_qnext <$> bc !! k) ->
  (exists b, bc' !! j = Some b /\ b_qnext b = Some i) -> (exists b, bc' !! i = Some b /\ b_qnext b = None) -> qpath bc' p (q ++ [j; i]).
Proof using.
  revert p. induction q as [|k q IH]; intros p Hq bc' i He (bj & Hj & Ej) (bi & Hi & Ei).
  - destruct Hq as (-> & _). split; [done|]. exists bj. split; [done|]. rewrite Ej. split; [done|]. exists bi. by rewrite Ei.
  - destruct Hq as (-> & b & Hb & Hq). split; [done|]. specialize (He k ltac:(left)) as Hk. rewrite Hb in Hk.
    destruct (bc' !! k) as [b'|] eqn:Eb; [|done]. injection Hk as Hk. exists b'. split; [done|]. rewrite Hk.
    apply (IH _ Hq bc' i); [|eauto..]. intros x Hx. apply He. by right.
Qed.

Lemma qpath_link bc p q i b : qpath bc p q -> NoDup (q ++ [i]) -> bc !! i = Some b -> (forall j, j ∈ q -> is_Some (bc !! j)) ->
  qpath (link bc q i b) (match last q with None => Some i | Some _ => p end) (q ++ [i]).
Proof using.
  intros Hq Hnd Hi Hin. pose proof (lookup_lt_Some _ _ _ Hi) as Hl. unfold link. destruct q as [|k q _] using rev_ind.
  - cbn. split; [done|]. exists (set_b_qnext None b). by rewrite list_lookup_insert_eq.
  - rewrite last_snoc. assert (Hne : k <> i) by (intros ->; apply NoDup_app in Hnd as (_ & H & _); apply (H i); set_solver).
    rewrite <- app_assoc. cbn [app]. destruct (Hin k ltac:(set_solver)) as [bk Hk].
    apply NoDup_app in Hnd as (Hnd & Hni & _). apply NoDup_app in Hnd as (_ & Hnk & _).
    apply (qpath_last bc _ _ _ Hq).
    + intros x Hx. assert (x <> k) by (intros ->; apply (Hnk k Hx); set_solver). assert (x <> i) by (intros ->; apply (Hni i); set_solver).
      by rewrite list_lookup_alter_ne, list_lookup_insert_ne by done.
    + exists (set_b_qnext (Some i) bk). split; [|done]. rewrite list_lookup_alter, decide_True by done. by rewrite list_lookup_insert_ne, Hk by done.
    + exists (set_b_qnext None b). split; [|done]. rewrite list_lookup_alter_ne by done. by apply list_lookup_insert_eq.
Qed.

(** The buffers without the link. *)
Definition noq (b : buf) : buf := set_b_qnext None b.

Lemma noq_link bc q i b : bc !! i = Some b -> map noq (link bc q i b) = map noq bc.
Proof using.
  intros Hi. assert (E : map noq (<[i := set_b_qnext None b]> bc) = map noq bc).
  { apply list_eq. intros j. rewrite !list_lookup_fmap. destruct (decide (j = i)) as [->|].
    - rewrite list_lookup_insert_eq by (by eapply lookup_lt_Some). by rewrite Hi.
    - by rewrite list_lookup_insert_ne. }
  unfold link. destruct (last q) as [j|]; [|done]. rewrite <- E. apply list_eq. intros k. rewrite !list_lookup_fmap, list_lookup_alter.
  case_decide; [subst|done].
  by destruct (<[i := set_b_qnext None b]> bc !! k).
Qed.

(** ** The invariant *)

(** A buffer that waits for the disk. *)
Record waits (b : buf) : Prop := {
  wt_busy : busy b = true;
  wt_todo : valid b = false \/ dirty b = true;
  wt_block : 0 <= b_blockno b < FSSIZE;
  wt_data : length (b_data b) = BSIZE
}.

(** The disk works on the request of the buffer, with interrupts enabled. *)
Record works_on (d : D) (b : buf) : Prop := {
  wo_command : dev_command d = Some (op_of b);
  wo_ints : dev_reg d 0x3f6 = 0;
  wo_sector : forall dr n, dev_sector d dr n = after_op b (dev_sector d) dr n
}.

Record ide_inv (s : ist) (q : list nat) : Prop := {
  iv_path : qpath (k_bcache (i_k s)) (i_queue s) q;
  iv_dup : NoDup q;
  iv_wait : forall i, i ∈ q -> exists b, k_bcache (i_k s) !! i = Some b /\ waits b;
  iv_work : forall i b, head q = Some i -> k_bcache (i_k s) !! i = Some b -> works_on (i_hw s) b
}.

Lemma waits_noq b b' : noq b' = noq b -> waits b -> waits b'.
Proof using.
  intros E [H1 H2 H3 H4]. destruct b, b'. unfold noq in E. cbn in E. injection E as -> -> -> -> -> ->. by split.
Qed.
Lemma op_noq b b' : noq b' = noq b -> op_of b' = op_of b /\ after_op b' = after_op b.
Proof using. intros E. destruct b, b'. unfold noq in E. cbn in E. by injection E as -> -> -> -> -> ->. Qed.
Lemma works_on_noq d b b' : noq b' = noq b -> works_on d b -> works_on d b'.
Proof. intros E [H1 H2 H3]. destruct (op_noq _ _ E) as [E1 E2]. split; rewrite ?E1, ?E2; done. Qed.

Lemma lookup_noq (bc bc' : list buf) j b' : map noq bc' = map noq bc -> bc' !! j = Some b' -> exists b, bc !! j = Some b /\ noq b' = noq b.
Proof using.
  intros E H. assert (H' : map noq bc' !! j = Some (noq b')) by (by rewrite list_lookup_fmap, H). rewrite E, list_lookup_fmap in H'.
  destruct (bc !! j) as [b|]; [|done]. exists b. split; [done|]. symmetry. by apply (inj Some) in H'.
Qed.

Lemma after_op_idem b c dr n : after_op b (after_op b c) dr n = after_op b c dr n.
Proof using. unfold after_op. destruct (flag _ _); [|done]. by destruct (decide (dr = Z.land (b_dev b) 1 /\ n = b_blockno b)). Qed.

Lemma after_op_ext b c c' dr n : (forall dr n, c dr n = c' dr n) -> after_op b c dr n = after_op b c' dr n.
Proof using. intros E. unfold after_op. by rewrite E. Qed.

Lemma queue_bound (bc : list buf) q : NoDup q -> (forall i, i ∈ q -> is_Some (bc !! i)) -> (length q <= length bc)%nat.
Proof using.
  intros Hnd Hin. rewrite <- (length_seq (length bc) 0). apply submseteq_length, NoDup_submseteq; [done|].
  intros i Hi. apply elem_of_seq. pose proof (Hin i Hi) as Hl%lookup_lt_is_Some. lia.
Qed.

(** The buffers after [iderw] has queued one more, whatever happens to the
    disk. *)
Lemma ide_inv_link s q i b s' :
  ide_inv s q -> i ∉ q -> k_bcache (i_k s) !! i = Some b -> waits b ->
  k_bcache (i_k s') = link (k_bcache (i_k s)) q i b -> i_queue s' = (match last q with None => Some i | Some _ => i_queue s end) ->
  (forall j b, head (q ++ [i]) = Some j -> k_bcache (i_k s) !! j = Some b -> works_on (i_hw s') b) -> ide_inv s' (q ++ [i]).
Proof.
  intros [H1 H2 H3 H4] Hni Hi Hw Ebc Eq Hwk. pose proof (noq_link _ q _ _ Hi) as En. rewrite <- Ebc in En. split.
  - rewrite Ebc, Eq. apply qpath_link; [done| |done|].
    + apply NoDup_app. split; [done|]. split; [|apply NoDup_singleton]. intros x Hx ->%list_elem_of_singleton. done.
    + intros j Hj. destruct (H3 j Hj) as (bj & -> & _). done.
  - apply NoDup_app. split; [done|]. split; [|apply NoDup_singleton]. intros x Hx ->%list_elem_of_singleton. done.
  - intros j [Hj| ->%list_elem_of_singleton]%elem_of_app.
    + destruct (H3 j Hj) as (bj & Ej & Wj). destruct (lookup_noq _ _ j bj (eq_sym En) Ej) as (b' & E' & En'). exists b'. split; [done|].
      eapply waits_noq; [|done]. by symmetry.
    + destruct (lookup_noq _ _ i b (eq_sym En) Hi) as (b' & E' & En'). exists b'. split; [done|]. eapply waits_noq; [|done]. by symmetry.
  - intros j b' Hj Hb'. destruct (lookup_noq _ _ j b' En Hb') as (b0 & E0 & En0). eapply works_on_noq; [done|]. by apply (Hwk j).
Qed.

Lemma waits_test b : waits b -> (Z.land (b_flags b) (Z.lor B_VALID B_DIRTY) =? B_VALID) = false.
Proof using. intros H. apply something_to_do. destruct (wt_todo _ H); auto. Qed.

(** ** iderw *)

Lemma alter_insert (bc : list buf) j f b : bc !! j = Some b -> <[j := f b]> bc = alter f j bc.
Proof using.
  intros Hj. apply list_eq. intros k. rewrite list_lookup_alter. case_decide as E.
  - subst. rewrite list_lookup_insert_eq by (by eapply lookup_lt_Some). by rewrite Hj.
  - by rewrite list_lookup_insert_ne.
Qed.

(** The kernel while [iderw] has the lock and buffers [bc]. *)
Definition locked_k (k : kstate) (bc : list buf) : kstate := set_k_bcache bc (set_k_held [L_ide] k).
(** The kernel after the process has gone to sleep on the buffer. *)
Definition asleep (k : kstate) (bc : list buf) (me i : nat) (p : proc) : kstate :=
  set_k_held [L_ptable] (set_k_ptable (<[me := set_p_state SLEEPING (set_p_chan (Some (C_buf i)) p)]> (k_ptable k)) (set_k_bcache bc k)).

Lemma link_lookup bc q i b : bc !! i = Some b -> i ∉ q -> link bc q i b !! i = Some (set_b_qnext None b).
Proof using.
  intros Hi Hni. pose proof (lookup_lt_Some _ _ _ Hi). unfold link. destruct (last q) as [j|] eqn:E; [|by apply list_lookup_insert_eq].
  apply last_Some in E as (q' & ->). rewrite list_lookup_alter_ne by set_solver. by apply list_lookup_insert_eq.
Qed.

(** The wait at the end. *)
Lemma iderw_wait_blocks s i b k bc me p :
  i_k s = locked_k k bc -> bc !! i = Some b -> waits b -> k_proc k = Some me -> k_ptable k !! me = Some p ->
  iderw_wait i s = Stop Switch (set_ik (asleep k bc me i p) s).
Proof using.
  intros Ek Hb Hw Hme Hp. unfold iderw_wait. assert (G : get_buf i (i_k s) = Ret b (i_k s)) by (rewrite Ek; by apply get_buf_Ret).
  rewrite (bind_Ret _ _ _ _ _ (kernel_Ret _ _ _ _ G)). replace (set_ik (i_k s) s) with s by (by destruct s).
  rewrite waits_test by done. cbn [negb]. apply kernel_Stop. rewrite Ek. by rewrite (block_run _ _ me p).
Qed.

Lemma iderw_run s q i b me p :
  ide_inv s q -> i ∉ q -> k_bcache (i_k s) !! i = Some b -> waits b -> b_dev b = 0 \/ i_have1 s <> 0 ->
  length (k_bcache (i_k s)) = S NBUF -> k_held (i_k s) = [] -> k_proc (i_k s) = Some me -> k_ptable (i_k s) !! me = Some p ->
  let bc := link (k_bcache (i_k s)) q i b in
  exists d, let s' := mkIst (asleep (i_k s) bc me i p) (match last q with None => Some i | Some _ => i_queue s end) (i_have1 s) d in
    iderw i s = Stop Switch s' /\ ide_inv s' (q ++ [i]) /\
    (forall dr n, dev_sector d dr n = if q is [] then after_op b (dev_sector (i_hw s)) dr n else dev_sector (i_hw s) dr n).
Proof.
  intros H Hni Hi Hw Hdev Hlen Hh Hme Hp bc. pose proof (noq_link _ q _ _ Hi) as En. fold bc in En.
  set (bc1 := <[i := set_b_qnext None b]> (k_bcache (i_k s))). pose proof (lookup_lt_Some _ _ _ Hi) as Hlt.
  assert (Hpath : qpath bc1 (i_queue s) q).
  { eapply qpath_ext; [|apply (iv_path _ _ H)]. intros j Hj. unfold bc1. rewrite list_lookup_insert_ne; [done|]. intros ->. done. }
  assert (Hq : (length q <= S NBUF)%nat).
  { rewrite <- Hlen. apply queue_bound; [apply H|]. intros j Hj. destruct (iv_wait _ _ H j Hj) as (bj & -> & _). done. }
  set (s2 := mkIst (locked_k (i_k s) bc) (match last q with None => Some i | Some _ => i_queue s end) (i_have1 s) (i_hw s)).
  assert (R : iderw i s = ((if decide (i_queue s2 = Some i) then idestart (Some i) else mret tt) ;; iderw_wait i) s2).
  { unfold iderw. rewrite (bind_Ret _ _ _ _ _ (kernel_Ret _ _ _ _ (get_buf_Ret _ _ _ Hi))). replace (set_ik (i_k s) s) with s by (by destruct s).
    rewrite bind_run. unfold gets at 1. rewrite (wt_busy _ Hw : flag (b_flags b) B_BUSY = true), (waits_test _ Hw). cbn [negb].
    assert (Ed : (negb (b_dev b =? 0) && (i_have1 s =? 0))%bool = false).
    { destruct (Z.eqb_spec (b_dev b) 0), (Z.eqb_spec (i_have1 s) 0); cbn; try done. destruct Hdev; done. }
    rewrite Ed. rewrite (bind_Ret _ _ _ _ _ (kernel_Ret _ _ _ _ (acquire_free L_ide (i_k s) ltac:(rewrite Hh; apply not_elem_of_nil)))), Hh.
    set (s1 := set_ik (set_k_held [L_ide] (i_k s)) s). assert (Hi1 : k_bcache (i_k s1) !! i = Some b) by exact Hi.
    rewrite (bind_Ret _ _ _ _ _ (kernel_Ret _ _ _ _ (upd_buf_Ret _ (set_b_qnext None) _ _ Hi1))).
    set (s1' := set_ik _ s1). rewrite bind_run. unfold gets at 1.
    rewrite (bind_Ret _ _ _ _ _ (queue_end_run (S NBUF) q None _ s1' Hpath Hq)). subst s2 bc. unfold link.
    destruct (last q) as [j|] eqn:El; [|rewrite bind_run; reflexivity].
    apply last_Some in El as (q' & Eq'). destruct (iv_wait _ _ H j ltac:(set_solver)) as (bj & Hj & _).
    assert (Hj1 : k_bcache (i_k s1') !! j = Some bj) by (cbn; rewrite list_lookup_insert_ne; [done|set_solver]).
    rewrite (bind_Ret _ _ _ _ _ (kernel_Ret _ _ _ _ (upd_buf_Ret _ (set_b_qnext (Some i)) _ _ Hj1))). rewrite bind_run. unfold gets at 1.
    subst s1' s1. unfold set_ik, locked_k. cbn [i_k i_queue i_have1 i_hw]. fold bc1. by rewrite (alter_insert _ _ _ _ Hj1). }
  assert (Hhd : forall j0 q', q = j0 :: q' -> i_queue s = Some j0) by (intros j0 q' ->; apply (iv_path _ _ H)).
  assert (Hi2 : bc !! i = Some (set_b_qnext None b)) by (by apply link_lookup).
  assert (Hw2 : waits (set_b_qnext None b)) by (by apply (waits_noq b)).
  destruct q as [|j0 q'].
  - destruct (idestart_run s2 i (set_b_qnext None b) Hi2 (wt_block _ Hw2) (wt_data _ Hw2)) as (d & Rs & Ec & Er & Es).
    exists d. intros s'. split; [|split].
    + rewrite R, decide_True by done. rewrite (bind_Ret _ _ _ _ _ Rs). by erewrite iderw_wait_blocks.
    + eapply (ide_inv_link s [] i b); [done..|]. intros j bj [= <-] Hj. rewrite Hi in Hj. injection Hj as <-.
      split; [exact Ec|exact Er|]. intros dr n. rewrite Es. symmetry. etrans; [apply (after_op_ext b); exact Es|]. exact (after_op_idem b _ dr n).
    + exact Es.
  - exists (i_hw s). intros s'. assert (El : exists x, last (j0 :: q') = Some x) by (destruct (last (j0 :: q')) eqn:E; [eauto|by apply last_None in E]).
    destruct El as [x El].
    split; [|split; [|done]].
    + rewrite R. rewrite decide_False.
      * rewrite bind_run. cbn [mret]. unfold mret, prog_ret. subst s'. by erewrite iderw_wait_blocks.
      * cbn [i_queue s2]. rewrite El, (Hhd _ _ eq_refl). intros [= ->]. apply Hni. by left.
    + eapply (ide_inv_link s (j0 :: q') i b); [done..|]. intros j bj [= <-] Hj. by apply (iv_work _ _ H j0).
Qed.

(** ** ideintr *)

(** A buffer when its request is complete, with what the disk has delivered. *)
Definition completed (b : buf) (v : list Z) : buf :=
  set_b_flags (fclr (fset (b_flags b) B_VALID) B_DIRTY) (if flag (b_flags b) B_DIRTY then b else set_b_data v b).
Definition awakened (k : kstate) (bc : list buf) (i : nat) : kstate :=
  set_k_ptable (map (wake_one (Some (C_buf i))) (k_ptable k)) (set_k_bcache bc k).

(** The part of [ideintr] that takes the data. *)
Lemma take_data_run s i b (v := (if dev_error (i_hw s) then b_data b else dev_sector (i_hw s) (Z.land (b_dev b) 1) (b_blockno b))) :
  k_bcache (i_k s) !! i = Some b -> works_on (i_hw s) b ->
  exists d, (if negb (flag (b_flags b) B_DIRTY) then
         r ← idewait true;
         if 0 <=? r then d ← in_data; kernel (upd_buf i (set_b_data d)) else mret tt
       else mret tt) s =
    Ret tt (mkIst (set_k_bcache (<[i := if flag (b_flags b) B_DIRTY then b else set_b_data v b]> (k_bcache (i_k s))) (i_k s))
      (i_queue s) (i_have1 s) d) /\ dev_sector d = dev_sector (i_hw s) /\ dev_reg d = dev_reg (i_hw s).
Proof.
  intros Hb [Wc Wi Ws]. unfold op_of in Wc. destruct (flag (b_flags b) B_DIRTY); cbn [negb].
  { exists (i_hw s). split; [|done]. rewrite list_insert_id by done. by destruct s as [[]]. }
  destruct (idewait_run true s) as (d0 & R & (F1 & F2 & F3 & F4) & Z0). rewrite (bind_Ret _ _ _ _ _ R). subst v.
  destruct (dev_error (i_hw s)) eqn:Ee; cbn [andb].
  - change (0 <=? -1) with false. cbn iota. exists d0. split; [|done]. replace (set_b_data (b_data b) b) with b by (by destruct b).
    rewrite list_insert_id by done. by destruct s as [[]].
  - change (0 <=? 0) with true. cbn iota. rewrite <- F3 in Wc. pose proof (dev_data_in d0 _ _ Wc Z0 F4) as Hin.
    rewrite bind_run. unfold in_data. cbn [i_hw set_hw]. destruct (insl 0x1f0 (BSIZE / 4) d0) as [w d]. destruct Hin as (-> & G1 & G2).
    exists d. rewrite G1, G2, F1, F2. split; [|done].
    assert (Hb' : k_bcache (i_k (set_hw d (set_hw d0 s))) !! i = Some b) by exact Hb.
    by rewrite (kernel_Ret _ _ _ _ (upd_buf_Ret _ (set_b_data (dev_sector (i_hw s) (Z.land (b_dev b) 1) (b_blockno b))) _ _ Hb')).
Qed.

Lemma qpath_head bc p q : qpath bc p q -> p = head q.
Proof using. destruct q; [done|]. by intros [-> _]. Qed.

Lemma ideintr_run s i q b (v := (if dev_error (i_hw s) then b_data b else dev_sector (i_hw s) (Z.land (b_dev b) 1) (b_blockno b))) :
  ide_inv s (i :: q) -> k_bcache (i_k s) !! i = Some b -> L_ide ∉ k_held (i_k s) -> L_ptable ∉ k_held (i_k s) ->
  let bc := <[i := completed b v]> (k_bcache (i_k s)) in
  exists d, let s' := mkIst (awakened (i_k s) bc i) (head q) (i_have1 s) d in
    ideintr s = Ret tt s' /\ ide_inv s' q /\
    (forall dr n, dev_sector d dr n = match q with
       | [] => dev_sector (i_hw s) dr n
       | j :: _ => match k_bcache (i_k s) !! j with Some bj => after_op bj (dev_sector (i_hw s)) dr n | None => dev_sector (i_hw s) dr n end
       end).
Proof.
  intros H Hb Hl1 Hl2 bc. pose proof (lookup_lt_Some _ _ _ Hb) as Hlt. destruct (iv_path _ _ H) as (Eq & b0 & Hb0 & Hq). rewrite Hb in Hb0. injection Hb0 as <-.
  pose proof (iv_dup _ _ H) as Hnd. apply NoDup_cons in Hnd as [Hni Hnd].
  assert (Hbc : forall j, j ∈ q -> bc !! j = k_bcache (i_k s) !! j) by (intros j Hj; subst bc; rewrite list_lookup_insert_ne; [done|]; by intros ->).
  set (s1 := mkIst (set_k_held (L_ide :: k_held (i_k s)) (i_k s)) (b_qnext b) (i_have1 s) (i_hw s)).
  destruct (take_data_run s1 i b Hb (iv_work _ _ H i b eq_refl Hb)) as (d1 & R1 & S1 & G1). cbn [i_hw s1] in R1, S1, G1. fold v in R1.
  set (s3 := mkIst (set_k_held (L_ide :: k_held (i_k s)) (awakened (i_k s) bc i)) (head q) (i_have1 s) d1).
  assert (R : ideintr s = ((match head q with Some _ => idestart (head q) | None => mret tt end) ;; kernel (release L_ide)) s3).
  { unfold ideintr. rewrite (bind_Ret _ _ _ _ _ (kernel_Ret _ _ _ _ (acquire_free L_ide (i_k s) Hl1))). rewrite bind_run. unfold gets at 1.
    cbn [i_queue set_ik]. rewrite Eq. set (s0 := set_ik _ s). assert (Hb0 : k_bcache (i_k s0) !! i = Some b) by exact Hb.
    rewrite (bind_Ret _ _ _ _ _ (kernel_Ret _ _ _ _ (get_buf_Ret _ _ _ Hb0))). rewrite bind_run. unfold modify at 1.
    replace (set_queue (b_qnext b) (set_ik (i_k s0) s0)) with s1 by (by destruct s). rewrite (bind_Ret _ _ _ _ _ R1).
    set (b1 := if flag (b_flags b) B_DIRTY then b else set_b_data v b).
    set (s2 := mkIst _ _ _ d1). assert (Hb2 : k_bcache (i_k s2) !! i = Some b1) by (cbn; by rewrite list_lookup_insert_eq).
    rewrite (bind_Ret _ _ _ _ _ (kernel_Ret _ _ _ _ (upd_buf_Ret _ (fun b => set_b_flags (fset (b_flags b) B_VALID) b) _ _ Hb2))). set (s2' := set_ik _ s2).
    assert (Hb2' : k_bcache (i_k s2') !! i = Some (set_b_flags (fset (b_flags b1) B_VALID) b1)) by (cbn; rewrite list_lookup_insert_eq by (by rewrite length_insert); done).
    rewrite (bind_Ret _ _ _ _ _ (kernel_Ret _ _ _ _ (upd_buf_Ret _ (fun b => set_b_flags (fclr (b_flags b) B_DIRTY) b) _ _ Hb2'))). set (s2'' := set_ik _ s2').
    rewrite (bind_Ret _ _ _ _ _ (kernel_Ret _ _ _ _ (wakeup_Ret (C_buf i) (i_k s2'') ltac:(cbn; set_solver)))). rewrite bind_run. unfold gets at 1.
    replace (set_ik _ s2'') with s3; [done|]. subst s2'' s2' s2 s3. unfold set_ik, awakened. cbn [i_k i_queue i_have1 i_hw s1]. ksimp.
    rewrite !list_insert_insert_eq, (qpath_head _ _ _ Hq). subst bc. unfold completed. fold b1.
    replace (b_flags b1) with (b_flags b) by (subst b1; by destruct (flag _ _)). by destruct (i_k s), b1. }
  assert (Hrel : forall d, kernel (release L_ide) (set_hw d s3) = Ret tt (mkIst (awakened (i_k s) bc i) (head q) (i_have1 s) d)).
  { intros d. rewrite (kernel_Ret _ _ _ _ (release_held L_ide (i_k s3) (k_held (i_k s)) eq_refl Hl1 : _ (i_k (set_hw d s3)) = _)). unfold set_ik, awakened. cbn. by destruct (i_k s). }
  assert (Hwait : forall j, j ∈ q -> exists bj, bc !! j = Some bj /\ waits bj).
  { intros j Hj. rewrite (Hbc j Hj). apply (iv_wait _ _ H). by right. }
  assert (Hpath : qpath bc (head q) q).
  { rewrite <- (qpath_head _ _ _ Hq). eapply qpath_ext; [|done]. intros j Hj. by rewrite (Hbc j Hj). }
  destruct q as [|j q'].
  - exists d1. intros s'. split; [rewrite R; apply (Hrel d1)|]. split; [|intros dr n; by rewrite S1]. split; [done|done|done|]. intros j bj Hj. done.
  - destruct (Hwait j ltac:(left)) as (bj & Ej & Wj). pose proof (Hbc j ltac:(left)) as Ebj. rewrite Ej in Ebj.
    assert (Ej3 : k_bcache (i_k s3) !! j = Some bj) by exact Ej.
    destruct (idestart_run s3 j bj Ej3 (wt_block _ Wj) (wt_data _ Wj)) as (d & Rs & Ec & Er & Es). cbn [i_hw s3] in Es. exists d. intros s'.
    assert (Es' : forall dr n, dev_sector d dr n = after_op bj (dev_sector (i_hw s)) dr n) by (intros; rewrite Es; apply after_op_ext; by rewrite S1).
    split; [rewrite R; cbn [head]; rewrite (bind_Ret _ _ _ _ _ Rs); apply (Hrel d)|]. split; [|intros dr n; by rewrite <- Ebj].
    split; [done|done|done|]. intros j0 bj0 [= <-] Hj0. change (bc !! j = Some bj0) in Hj0. rewrite Ej in Hj0. injection Hj0 as <-.
    split; [done|done|]. intros dr n. rewrite Es'. symmetry. etrans; [apply (after_op_ext bj); exact Es'|]. apply after_op_idem.
Qed.

(** ** The driver and memide.c *)

Lemma flags_commute f : fset (fclr f B_DIRTY) B_VALID = fclr (fset f B_VALID) B_DIRTY.
Proof using.
  unfold fset, fclr. rewrite Z.land_lor_distr_l. f_equal.
Qed.
Lemma flags_clean f : flag f B_DIRTY = false -> fset f B_VALID = fclr (fset f B_VALID) B_DIRTY.
Proof using.
  change B_DIRTY with (2 ^ 2). change B_VALID with (2 ^ 1). rewrite flag_bit by lia. intros H. unfold fset, fclr. apply Z.bits_inj'. intros n Hn.
  rewrite Z.land_spec, Z.lor_spec, Z.lnot_spec by lia. rewrite (Z.pow2_bits_eqb 2) by lia. destruct (Z.eqb_spec 2 n) as [<-|]; [|by rewrite andb_true_r].
  rewrite H. done.
Qed.

(** memide's [iderw] completes the request at once. *)
Lemma memide_run k i b :
  k_bcache k !! i = Some b -> waits b -> b_dev b = 1 -> b_blockno b < dk_size (k_disk k) ->
  Bio.iderw i k = Ret tt (set_k_disk (if flag (b_flags b) B_DIRTY then dwrite (k_disk k) (b_blockno b) (b_data b) else k_disk k)
    (set_k_bcache (<[i := completed b (dread (k_disk k) (b_blockno b))]> (k_bcache k)) k)).
Proof using.
  intros Hi Hw Hd Hn. pose proof (lookup_lt_Some _ _ _ Hi) as Hil. unfold completed. destruct (flag (b_flags b) B_DIRTY) eqn:Hy.
  - rewrite (iderw_write k i b Hi (wt_busy _ Hw) Hy Hd Hn). by rewrite flags_commute.
  - unfold Bio.iderw. kbuf. rewrite (wt_busy _ Hw : flag (b_flags b) B_BUSY = true), Hd, Hy, (waits_test _ Hw). cbn [negb Z.eqb Pos.eqb].
    rewrite bind_run. unfold gets at 1. ksimp. rewrite (proj2 (Z.leb_gt _ _)) by lia. kbuf.
    erewrite upd_buf_Ret by look. ksimp. rewrite list_insert_insert_eq. rewrite <- (flags_clean _ Hy). by destruct k.
Qed.

(** The driver with queue [q] stands for a kernel with a memory disk on which
    the requests of the queue are still to be made. *)
Record sim (s : ist) (q : list nat) (km : kstate) : Prop := {
  sm_inv : ide_inv s q;
  sm_bufs : map noq (k_bcache km) = map noq (k_bcache (i_k s));
  sm_len : length (k_bcache (i_k s)) = S NBUF;
  sm_disk1 : forall i b, i ∈ q -> k_bcache (i_k s) !! i = Some b -> b_dev b = 1;
  sm_size : dk_size (k_disk km) = FSSIZE;
  sm_sectors : forall n, 0 <= n < FSSIZE -> dev_sector (i_hw s) 1 n =
    match head q ≫= (k_bcache (i_k s) !!.) with
    | Some b => after_op b (fun _ => dread (k_disk km)) 1 n
    | None => dread (k_disk km) n
    end
}.

Lemma ide_dread_dwrite d n v m : dread (dwrite d n v) m = if decide (m = n) then v else dread d m.
Proof using. unfold dread, dwrite. cbn. case_decide as E; [subst; by rewrite lookup_insert_eq|]. by rewrite lookup_insert_ne. Qed.

Lemma after_op_at b c c' dr n : c dr n = c' dr n -> after_op b c dr n = after_op b c' dr n.
Proof using. intros E. unfold after_op. by rewrite E. Qed.

Lemma after_op_dwrite b d n : b_dev b = 1 ->
  after_op b (fun _ => dread d) 1 n = dread (if flag (b_flags b) B_DIRTY then dwrite d (b_blockno b) (b_data b) else d) n.
Proof using.
  intros Hd. unfold after_op. destruct (flag _ _); [|done]. rewrite ide_dread_dwrite, Hd. change (Z.land 1 1) with 1.
  repeat case_decide; try done; tauto.
Qed.

Lemma head_noq bc bc' q : map noq bc' = map noq bc ->
  match head q ≫= (bc' !!.) with Some b => after_op b | None => fun c => c end = match head q ≫= (bc !!.) with Some b => after_op b | None => fun c => c end.
Proof using.
  intros E. destruct q as [|j q]; [done|]. cbn. destruct (bc' !! j) as [b'|] eqn:Eb.
  - destruct (lookup_noq _ _ _ _ E Eb) as (b & -> & En). apply (op_noq b b' En).
  - destruct (bc !! j) as [b|] eqn:Eb'; [|done]. destruct (lookup_noq _ _ _ _ (eq_sym E) Eb') as (b0 & E0 & _). congruence.
Qed.

Lemma sim_iderw s q km i b me p :
  sim s q km -> i ∉ q -> k_bcache (i_k s) !! i = Some b -> waits b -> b_dev b = 1 -> i_have1 s <> 0 ->
  k_held (i_k s) = [] -> k_proc (i_k s) = Some me -> k_ptable (i_k s) !! me = Some p ->
  exists s', iderw i s = Stop Switch s' /\ sim s' (q ++ [i]) km /\ k_held (i_k s') = [L_ptable] /\
    k_ptable (i_k s') = <[me := set_p_state SLEEPING (set_p_chan (Some (C_buf i)) p)]> (k_ptable (i_k s)).
Proof.
  intros [H1 H2 H3 H4 H5 H6] Hni Hi Hw Hd Hh Hk Hme Hp.
  destruct (iderw_run s q i b me p H1 Hni Hi Hw ltac:(by right) H3 Hk Hme Hp) as (d & R & Hinv & Hsec).
  set (bc' := link (k_bcache (i_k s)) q i b) in *. set (s' := mkIst _ _ _ d) in *. pose proof (noq_link _ q _ _ Hi) as En. fold bc' in En.
  exists s'. split; [exact R|]. split; [|done]. split; [done|by rewrite H2| | |done|].
  - change (length bc' = S NBUF). rewrite <- H3, <- (length_map noq bc'), En. by rewrite length_map.
  - intros j bj Hj Hbj. change (bc' !! j = Some bj) in Hbj. destruct (lookup_noq _ _ _ _ En Hbj) as (b0 & E0 & En0).
    rewrite (f_equal b_dev En0 : b_dev bj = b_dev b0).
    apply elem_of_app in Hj as [Hj| ->%list_elem_of_singleton]; [by eapply H4|]. congruence.
  - intros n Hn. change (dev_sector d 1 n = match head (q ++ [i]) ≫= (bc' !!.) with
      | Some b => after_op b (fun _ => dread (k_disk km)) 1 n | None => dread (k_disk km) n end).
    pose proof (head_noq _ _ (q ++ [i]) En) as Eh. rewrite Hsec. specialize (H6 n Hn). destruct q as [|j q'].
    + cbn [app head mbind option_bind] in *. rewrite (link_lookup _ [] i b Hi Hni : bc' !! i = _). apply (after_op_at b). exact H6.
    + cbn [app head mbind option_bind] in *. rewrite H6. destruct (bc' !! j) eqn:Ej0, (k_bcache (i_k s) !! j) eqn:Ej; cbn in Eh; try done.
      * by rewrite Eh.
      * by destruct (iv_wait _ _ H1 j ltac:(left)) as (bj & Ej' & _); congruence.
      * destruct (iv_wait _ _ Hinv j ltac:(left)) as (bj & Ej' & _). change (bc' !! j = Some bj) in Ej'. congruence.
Qed.

Lemma completed_noq b b' v : noq b' = noq b -> noq (completed b' v) = noq (completed b v).
Proof using.
  intros E. destruct b, b'. unfold noq in E. cbn in E. injection E as -> -> -> -> -> ->. unfold completed, noq. cbn. by destruct (flag _ _).
Qed.

Lemma sim_ideintr s i q km :
  sim s (i :: q) km -> dev_error (i_hw s) = false -> L_ide ∉ k_held (i_k s) -> L_ptable ∉ k_held (i_k s) ->
  exists s' km', ideintr s = Ret tt s' /\ Bio.iderw i km = Ret tt km' /\ sim s' q km' /\ k_held (i_k s') = k_held (i_k s) /\
    k_ptable (i_k s') = map (wake_one (Some (C_buf i))) (k_ptable (i_k s)) /\
    exists b', k_bcache (i_k s') = <[i := b']> (k_bcache (i_k s)) /\ valid b' = true /\ dirty b' = false.
Proof.
  intros [H1 H2 H3 H4 H5 H6] Herr Hl1 Hl2. destruct (iv_wait _ _ H1 i ltac:(left)) as (b & Hb & Hw).
  pose proof (H4 i b ltac:(left) Hb) as Hd. destruct (lookup_noq _ _ _ _ (eq_sym H2) Hb) as (bk & Hk & Ek). symmetry in Ek.
  assert (Hwk : waits bk) by (by apply (waits_noq b)). pose proof (f_equal b_dev Ek : b_dev bk = b_dev b) as Edk.
  pose proof (f_equal b_blockno Ek : b_blockno bk = b_blockno b) as Ebk. pose proof (f_equal b_flags Ek : b_flags bk = b_flags b) as Efk.
  pose proof (f_equal b_data Ek : b_data bk = b_data b) as Eak.
  destruct (ideintr_run s i q b H1 Hb Hl1 Hl2) as (d & R & Hinv & Hsec). rewrite Herr in R, Hinv.
  pose proof (memide_run km i bk Hk Hwk ltac:(congruence) ltac:(rewrite H5; apply Hwk)) as Rm. rewrite Efk, Ebk, Eak in Rm.
  set (bc' := <[i := completed b _]> (k_bcache (i_k s))) in *. set (s' := mkIst _ _ _ d) in *. set (km' := set_k_disk _ _) in *.
  assert (Hsec0 : forall n, 0 <= n < FSSIZE -> dev_sector (i_hw s) 1 n = dread (k_disk km') n).
  { intros n Hn. rewrite (H6 n Hn). cbn [head mbind option_bind]. rewrite Hb. by apply after_op_dwrite. }
  assert (Hcont : flag (b_flags b) B_DIRTY = false -> dev_sector (i_hw s) (Z.land (b_dev b) 1) (b_blockno b) = dread (k_disk km) (b_blockno b)).
  { intros Ef. rewrite Hd. change (Z.land 1 1) with 1. rewrite Hsec0 by apply Hw. subst km'. ksimp. by rewrite Ef. }
  exists s', km'. split; [exact R|]. split; [exact Rm|].
  split; [|split; [done|split; [done|]]; eexists; split; [done|]; unfold valid, dirty, completed; cbn [b_flags set_b_flags]; split; by autorewrite with flags].
  split; [done| | | | |].
  - change (map noq (<[i := completed bk (dread (k_disk km) (b_blockno b))]> (k_bcache km)) = map noq bc').
    subst bc'. rewrite !list_fmap_insert. change (noq <$> k_bcache km) with (map noq (k_bcache km)).
    rewrite H2, (completed_noq b bk) by done. f_equal. unfold completed. destruct (flag _ _) eqn:Ef; [done|]. by rewrite Hcont.
  - change (length bc' = S NBUF). subst bc'. by rewrite length_insert.
  - intros j bj Hj Hbj. change (bc' !! j = Some bj) in Hbj. pose proof (iv_dup _ _ H1) as Hnd. apply NoDup_cons in Hnd as [Hni _].
    subst bc'. rewrite list_lookup_insert_ne in Hbj by (by intros ->). apply (H4 j); [by right|done].
  - change (dk_size (k_disk km') = FSSIZE). subst km'. ksimp. by destruct (flag _ _).
  - intros n Hn. change (dev_sector d 1 n = match head q ≫= (bc' !!.) with
      | Some b => after_op b (fun _ => dread (k_disk km')) 1 n | None => dread (k_disk km') n end).
    rewrite Hsec. destruct q as [|j q']; [by apply Hsec0|]. cbn [head mbind option_bind].
    pose proof (iv_dup _ _ H1) as Hnd. apply NoDup_cons in Hnd as [Hni _].
    assert (Ej : bc' !! j = k_bcache (i_k s) !! j) by (subst bc'; apply list_lookup_insert_ne; set_solver). rewrite Ej.
    destruct (k_bcache (i_k s) !! j); [|by apply Hsec0]. apply after_op_at. by apply Hsec0.
Qed.

(** As many interrupts as there are requests. *)
Fixpoint interrupts (n : nat) : I unit := match n with O => mret tt | S n' => ideintr ;; interrupts n' end.
Fixpoint memide_all (q : list nat) : K unit := match q with [] => mret tt | i :: q' => Bio.iderw i ;; memide_all q' end.

(** A process sleeps on the channel. *)
Definition sleeper (pt : list proc) (c : chan) : Prop := exists p, p ∈ pt /\ p_state p = SLEEPING /\ p_chan p = Some c.

Lemma woken_sleeper pt c c' : sleeper (map (wake_one (Some c')) pt) c -> sleeper pt c /\ c <> c'.
Proof using.
  intros (p & Hp & Hs & Hc). apply list_elem_of_fmap in Hp as (p0 & -> & Hp0). unfold wake_one in *.
  destruct (_ && _)%bool eqn:E; [done|]. split; [by exists p0|]. intros ->. rewrite Hs, Hc in E.
  by rewrite !bool_decide_true in E by done.
Qed.

(** What the interrupts leave of the requests: complete buffers, no sleepers. *)
Definition finished_all (s : ist) (q : list nat) : Prop := forall i, i ∈ q ->
  (exists b, k_bcache (i_k s) !! i = Some b /\ valid b = true /\ dirty b = false) /\ ~ sleeper (k_ptable (i_k s)) (C_buf i).

Lemma sim_drain q : forall s km, sim s q km -> (forall d : D, dev_error d = false) -> L_ide ∉ k_held (i_k s) -> L_ptable ∉ k_held (i_k s) ->
  exists s' km', interrupts (length q) s = Ret tt s' /\ memide_all q km = Ret tt km' /\ sim s' [] km' /\ finished_all s' q /\
    (forall j, j ∉ q -> k_bcache (i_k s') !! j = k_bcache (i_k s) !! j) /\
    (forall c, sleeper (k_ptable (i_k s')) c -> sleeper (k_ptable (i_k s)) c).
Proof.
  induction q as [|i q IH]; intros s km H Herr Hl1 Hl2; [exists s, km; do 3 (split; [done|]); split; [|done]; by intros i Hi%elem_of_nil|].
  destruct (sim_ideintr s i q km H (Herr _) Hl1 Hl2) as (s1 & k1 & R1 & M1 & S1 & Eh & Ep & b' & Eb & Hv & Hy). rewrite <- Eh in Hl1, Hl2.
  destruct (IH s1 k1 S1 Herr Hl1 Hl2) as (s2 & k2 & R2 & M2 & S2 & Hfin & Hoth & Hsl). exists s2, k2. cbn [length interrupts memide_all].
  rewrite (bind_Ret _ _ _ _ _ R1), (bind_Ret _ _ _ _ _ M1). pose proof (iv_dup _ _ (sm_inv _ _ _ H)) as Hnd. apply NoDup_cons in Hnd as [Hni _].
  destruct (iv_wait _ _ (sm_inv _ _ _ H) i ltac:(left)) as (b & Hb & _). pose proof (lookup_lt_Some _ _ _ Hb) as Hlt.
  assert (Hs1 : forall c, sleeper (k_ptable (i_k s2)) c -> sleeper (k_ptable (i_k s)) c /\ c <> C_buf i).
  { intros c Hc%Hsl. rewrite Ep in Hc. by apply woken_sleeper. }
  do 3 (split; [done|]). split; [|split].
  - intros j [->|Hj]%elem_of_cons; [|by apply Hfin]. split; [|intros Hc%Hs1; by apply (proj2 Hc)]. exists b'. rewrite (Hoth i Hni), Eb. split; [by apply list_lookup_insert_eq|done].
  - intros j [Hj1 Hj2]%not_elem_of_cons. rewrite (Hoth j Hj2), Eb. apply list_lookup_insert_ne. congruence.
  - intros c Hc%Hs1. apply Hc.
Qed.

(** After its request is complete, [iderw] returns. *)
Lemma iderw_wait_returns s i b : k_bcache (i_k s) !! i = Some b -> valid b = true -> dirty b = false -> k_held (i_k s) = [L_ide] ->
  iderw_wait i s = Ret tt (set_ik (set_k_held [] (i_k s)) s).
Proof using.
  intros Hb Hv Hy Hh. unfold iderw_wait. rewrite (bind_Ret _ _ _ _ _ (kernel_Ret _ _ _ _ (get_buf_Ret _ _ _ Hb))).
  replace (set_ik (i_k s) s) with s by (by destruct s).
  assert (E : Z.land (b_flags b) (Z.lor B_VALID B_DIRTY) = B_VALID).
  { unfold valid, dirty in *. change B_VALID with (2 ^ 1) in *. change B_DIRTY with (2 ^ 2) in *. rewrite flag_bit in Hv, Hy by lia.
    apply Z.bits_inj'. intros n Hn. rewrite Z.land_spec, Z.lor_spec, !Z.pow2_bits_eqb by lia.
    destruct (Z.eqb_spec 1 n) as [<-|]; [by rewrite Hv|]. destruct (Z.eqb_spec 2 n) as [<-|]; [by rewrite Hy|]. apply andb_false_r. }
  rewrite E, Z.eqb_refl. cbn [negb]. apply kernel_Ret. apply release_held; [done|apply not_elem_of_nil].
Qed.

(** ** The theorems *)

(** [iderw], called for a buffer that waits for disk 1 by a process that
    holds no lock, puts the buffer at the end of the queue, starts the disk if
    the queue was empty, and leaves the process asleep on the buffer with only
    the lock of the process table held; seen as a memory disk on which the
    queued requests are still to be made, nothing has happened. *)
Theorem iderw_enqueues s q km i b me p :
  sim s q km -> i ∉ q -> k_bcache (i_k s) !! i = Some b -> waits b -> b_dev b = 1 -> i_have1 s <> 0 ->
  k_held (i_k s) = [] -> k_proc (i_k s) = Some me -> k_ptable (i_k s) !! me = Some p ->
  exists s', iderw i s = Stop Switch s' /\ sim s' (q ++ [i]) km /\ k_held (i_k s') = [L_ptable] /\
    k_ptable (i_k s') = <[me := set_p_state SLEEPING (set_p_chan (Some (C_buf i)) p)]> (k_ptable (i_k s)) /\
    works_on (i_hw s') (default b (head (q ++ [i]) ≫= (k_bcache (i_k s') !!.))).
Proof.
  intros H Hni Hi Hw Hd Hh Hk Hme Hp. destruct (sim_iderw s q km i b me p H Hni Hi Hw Hd Hh Hk Hme Hp) as (s' & R & S & E1 & E2).
  exists s'. do 4 (split; [done|]). assert (Hhd : exists j, head (q ++ [i]) = Some j) by (destruct q; cbn; eauto). destruct Hhd as [j Hj].
  assert (Hin : j ∈ q ++ [i]) by (destruct q; cbn in *; injection Hj as ->; left).
  destruct (iv_wait _ _ (sm_inv _ _ _ S) j Hin) as (bj & Ej & _). rewrite Hj. cbn [mbind option_bind]. rewrite Ej. cbn [default].
  by apply (iv_work _ _ (sm_inv _ _ _ S) j bj).
Qed.


(** When the disk reports an error for a read, the buffer keeps its old
    contents and is marked valid all the same. *)
Lemma ide_error_marks_valid s i q b :
  ide_inv s (i :: q) -> k_bcache (i_k s) !! i = Some b -> flag (b_flags b) B_DIRTY = false -> dev_error (i_hw s) = true ->
  L_ide ∉ k_held (i_k s) -> L_ptable ∉ k_held (i_k s) ->
  exists s' b', ideintr s = Ret tt s' /\ k_bcache (i_k s') !! i = Some b' /\ valid b' = true /\ b_data b' = b_data b.
Proof.
  intros H Hb Hf He Hl1 Hl2. destruct (ideintr_run s i q b H Hb Hl1 Hl2) as (d & R & _). rewrite He in R. eexists _, (completed b (b_data b)).
  split; [exact R|]. cbn. split; [apply list_lookup_insert_eq; by eapply lookup_lt_Some|]. unfold completed. rewrite Hf.
  split; [unfold valid; cbn; by autorewrite with flags|done].
Qed.
End driver.

(** ** A device, and the witnesses *)

(** A disk in memory that is busy once after each command; [err] is the error
    it reports. *)
Record ramdev := mkRam { rm_reg : Z -> Z; rm_sec : Z -> Z -> list Z; rm_cmd : option command; rm_busy : bool }.

Definition ram_outb (p v : Z) (d : ramdev) : ramdev :=
  if decide (p = 0x1f7) then
    let n := lba (rm_reg d) in let dr := drive (rm_reg d) in
    mkRam (rm_reg d) (rm_sec d) (Some (if v =? IDE_CMD_WRITE then Wr dr n else Rd dr n)) true
  else mkRam (fun q => if decide (q = p) then v else rm_reg d q) (rm_sec d) (rm_cmd d) (rm_busy d).
Definition ram_outsl (p : Z) (v : list Z) (d : ramdev) : ramdev :=
  match rm_cmd d with
  | Some (Wr dr n) => mkRam (rm_reg d) (fun dr' n' => if decide (dr' = dr /\ n' = n) then v else rm_sec d dr' n') (rm_cmd d) (rm_busy d)
  | _ => d
  end.
Definition ram_insl (p : Z) (k : nat) (d : ramdev) : list Z * ramdev :=
  match rm_cmd d with Some (Rd dr n) => (rm_sec d dr n, d) | _ => ([], d) end.
Definition ram_inb (err : bool) (p : Z) (d : ramdev) : Z * ramdev :=
  if rm_busy d then (IDE_BSY, mkRam (rm_reg d) (rm_sec d) (rm_cmd d) false) else (if err then Z.lor IDE_DRDY IDE_ERR else IDE_DRDY, d).

Definition ram_ide (err : bool) : ide_device ramdev.
Proof.
  refine {| inb := ram_inb err; outb := ram_outb; insl := ram_insl; outsl := ram_outsl; dev_reg := rm_reg; dev_sector := rm_sec; dev_command := rm_cmd;
            dev_delay := fun d => if rm_busy d then 1%nat else 0%nat; dev_error := fun _ => err; dev_patience := 2 |}.
  - intros d. destruct (rm_busy d); lia.
  - intros d. unfold ram_inb. destruct (rm_busy d) eqn:E; cbn; [done|]. rewrite E. destruct err; done.
  - intros p v d Hp. unfold ram_outb. assert (p <> 0x1f7) by (intros ->; set_solver). by rewrite decide_False.
  - intros d Hd. by unfold ram_outb.
  - intros d Hd. by unfold ram_outb.
  - intros d dr n v Hc Hl. unfold ram_outsl. by rewrite Hc.
  - intros d dr n Hc _ _. unfold ram_insl. by rewrite Hc.
Defined.

Definition ide_bufs : list buf := mkBuf B_BUSY 1 5 0 0 None zblock :: replicate NBUF (mkBuf 0 1 0 0 0 None zblock).
Definition ide_kernel : kstate := set_k_held [] (set_k_bcache ide_bufs one_proc).
Definition ide_disk : disk := mkDisk FSSIZE ∅ [].
Definition ide_start : @ist ramdev := mkIst ide_kernel None 1 (mkRam (fun _ => 0) (fun _ => dread ide_disk) None false).

Lemma ide_start_sim : @sim ramdev (ram_ide false) ide_start [] (set_k_disk ide_disk ide_kernel).
Proof.
  split; try done; [|by intros i b Hi%elem_of_nil]. split; [done|constructor|by intros i Hi%elem_of_nil|done].
Qed.

Lemma ide_start_waits : waits (mkBuf B_BUSY 1 5 0 0 None zblock).
Proof. split; [done|by left|by vm_compute|done]. Qed.

Lemma iderw_enqueues_witness : exists s', @iderw ramdev (ram_ide false) 0 ide_start = Stop Switch s' /\ k_held (i_k s') = [L_ptable].
Proof.
  destruct (@iderw_enqueues ramdev (ram_ide false) ide_start [] _ 0 (mkBuf B_BUSY 1 5 0 0 None zblock) 0
    (set_p_state RUNNING (set_p_pid 7 (set_p_pgdir 4096 proc0))) ide_start_sim) as (s' & R & _ & E & _);
    [apply not_elem_of_nil|reflexivity|apply ide_start_waits|reflexivity|discriminate|reflexivity|reflexivity|reflexivity|].
  exists s'. split; [exact R|exact E].
Defined.

