(* ===== verification/Boot.v ===== *)
(** * The boot loader: src/xv6/bootmain.c

    The loader runs on the bare machine: physical memory and the IDE controller,
    behind the interface of [Ide].  It reads the first page of the kernel's ELF
    file, which starts at sector 1, and then each segment, sector by sector, to
    its physical address.  Whole sectors are read, so memory around a segment
    changes too; the theorem says when that does no harm. *)

From stdpp Require Import base list list_numbers numbers gmap strings.
From Stdlib Require Import ZArith Lia.
From S2P Require Import Prelude Mem CString KState Kalloc Bio Exec Ide.

Definition SECTSIZE : Z := 512.
(** The scratch space of [bootmain]. *)
Definition ELF_AT : Z := 0x10000.

Section boot.
Context {D : Type} `{!ide_device D}.

Record bst := mkBst { bt_mem : mem; bt_hw : D }.
Definition set_bt_mem (m : mem) (s : bst) : bst := mkBst m (bt_hw s).
Definition set_bt_hw (d : D) (s : bst) : bst := mkBst (bt_mem s) d.
Abbreviation B := (prog kstop bst).

Definition bin (port : Z) : B Z := fun s => let '(v, d) := inb port (bt_hw s) in Ret v (set_bt_hw d s).
Definition bout (port v : Z) : B unit := modify (fun s => set_bt_hw (outb port (u8 v) (bt_hw s)) s).
Definition binsl (port dst cnt : Z) : B unit := fun s =>
  let '(v, d) := insl port (Z.to_nat cnt) (bt_hw s) in Ret tt (mkBst (st (bt_mem s) dst v) d).
Definition brd32 (a : Z) : B Z := gets (fun s => ld32 (bt_mem s) a).

(** The loop of [waitdisk]; the fuel is the patience of the device. *)
Fixpoint waitdisk_loop (fuel : nat) : B unit :=
  match fuel with
  | O => stop NoFuel
  | S fuel' => r ← bin 0x1F7; if Z.land r 0xC0 =? 0x40 then mret tt else waitdisk_loop fuel'
  end.
Definition waitdisk : B unit := waitdisk_loop dev_patience.

Definition readsect (dst offset : Z) : B unit :=
  waitdisk ;;
  bout 0x1F2 1 ;;
  bout 0x1F3 offset ;;
  bout 0x1F4 (Z.shiftr offset 8) ;;
  bout 0x1F5 (Z.shiftr offset 16) ;;
  bout 0x1F6 (Z.lor (Z.shiftr offset 24) 0xE0) ;;
  bout 0x1F7 0x20 ;;
  waitdisk ;;
  binsl 0x1F0 dst (SECTSIZE / 4).

(** The loop of [readseg]. *)
Fixpoint readseg_loop (fuel : nat) (pa epa offset : Z) : B unit :=
  match fuel with
  | O => stop NoFuel
  | S fuel' =>
      if pa <? epa then readsect pa offset ;; readseg_loop fuel' (u32 (pa + SECTSIZE)) epa (u32 (offset + 1))
      else mret tt
  end.
Definition readseg (pa count offset : Z) : B unit :=
  let epa := u32 (pa + count) in
  let pa := u32 (pa - offset mod SECTSIZE) in
  readseg_loop (Z.to_nat (count / SECTSIZE + 3)) pa epa (offset / SECTSIZE + 1).

(** [stosb] of x86.h counts down from an [int]; the processor takes it as unsigned. *)
Definition bstosb (a c n : Z) : B unit := modify (fun s => set_bt_mem (stosb (bt_mem s) a c (Z.to_nat n)) s).

(** The loop over the program headers, from [ph] up to [eph]; there are at
    most [fuel] of them. *)
Fixpoint load_segments (fuel : nat) (ph eph : Z) : B unit :=
  if negb (ph <? eph) then mret tt
  else
    match fuel with
    | O => stop NoFuel
    | S fuel' =>
        pa ← brd32 (ph + 12);
        filesz ← brd32 (ph + 16);
        off ← brd32 (ph + 4);
        readseg pa filesz off ;;
        memsz ← brd32 (ph + 20);
        filesz ← brd32 (ph + 16);
        (if filesz <? memsz then bstosb (u32 (pa + filesz)) 0 (u32 (memsz - filesz)) else mret tt) ;;
        load_segments fuel' (u32 (ph + sizeof_proghdr)) eph
    end.

(** The entry point that is called; none when [bootmain] returns. *)
Definition bootmain : B (option Z) :=
  readseg ELF_AT 4096 0 ;;
  magic ← brd32 ELF_AT;
  if negb (magic =? ELF_MAGIC) then mret None
  else
    phoff ← brd32 (ELF_AT + 28);
    phnum ← gets (fun s => le_dec (ld (bt_mem s) (ELF_AT + 44) 2));
    let ph := u32 (ELF_AT + phoff) in
    load_segments (Z.to_nat phnum) ph (u32 (ph + phnum * sizeof_proghdr)) ;;
    entry ← brd32 (ELF_AT + 24);
    mret (Some entry).

(** ** Reading sectors *)

Lemma waitdisk_run s : exists d, waitdisk s = Ret tt (set_bt_hw d s) /\ same_dev (bt_hw s) d /\ dev_delay d = O.
Proof.
  unfold waitdisk. generalize (dev_delay_bound (bt_hw s)). generalize (dev_patience (D := D)). intros fuel. revert s.
  induction fuel as [|fuel IH]; intros s Hf; [lia|]. cbn [waitdisk_loop]. rewrite bind_run. unfold bin.
  pose proof (dev_poll (bt_hw s)) as Hp. destruct (inb 0x1f7 (bt_hw s)) as [st d]. destruct Hp as (E1 & E2 & E3 & E4 & Hd).
  change (Z.lor IDE_BSY IDE_DRDY) with 0xC0 in Hd. change IDE_DRDY with 0x40 in Hd. destruct (dev_delay (bt_hw s)) as [|n].
  - destruct Hd as (Z0 & -> & _). exists d. split; [done|]. by split.
  - destruct Hd as (En & Hne). rewrite (proj2 (Z.eqb_neq _ _)) by done.
    destruct (IH (set_bt_hw d s)) as (d' & R & (F1 & F2 & F3 & F4) & Z0); [cbn; lia|]. cbn [bt_hw set_bt_hw] in *.
    exists d'. rewrite R. split; [by destruct s|]. split; [|done]. unfold same_dev. by rewrite F1, F2, F3, F4.
Qed.

(** The registers that [readsect] writes select the sector of the first drive. *)
Lemma boot_sector (r : Z -> Z) n : 0 <= n < 2 ^ 28 -> r 0x1f3 = u8 n -> r 0x1f4 = u8 (Z.shiftr n 8) -> r 0x1f5 = u8 (Z.shiftr n 16) ->
  r 0x1f6 = u8 (Z.lor (Z.shiftr n 24) 0xE0) -> lba r = n /\ drive r = 0.
Proof.
  intros Hn E3 E4 E5 E6. set (x := Z.shiftr n 24) in *. assert (Hx : x = n / 2 ^ 24) by (unfold x; by rewrite Z.shiftr_div_pow2 by lia).
  assert (Hx16 : 0 <= x < 16) by (rewrite Hx; split; [apply Z.div_pos; lia|apply Z.div_lt_upper_bound; lia]).
  assert (El : Z.land x 15 = x) by (change 15 with (Z.ones 4); rewrite Z.land_ones, Z.mod_small; lia).
  assert (E8 : forall y, u8 y = Z.land y 255) by (intros y; unfold u8; change 255 with (Z.ones 8); by rewrite Z.land_ones by lia).
  unfold lba, drive. rewrite E3, E4, E5, E6, (E8 (Z.lor x 224)), <- !Z.land_assoc. change (Z.land 255 15) with 15. change (Z.land 255 16) with 16.
  rewrite !Z.land_lor_distr_l, El. change (Z.land 224 15) with 0. change (Z.land 224 16) with 0. rewrite !Z.lor_0_r. split.
  - rewrite !Z.shiftr_div_pow2, Hx by lia. unfold u8. change (2 ^ 8) with 256 in *. Z.to_euclidean_division_equations. lia.
  - rewrite <- El, <- Z.land_assoc. change (Z.land 15 16) with 0. by rewrite Z.land_0_r.
Qed.

(** The disk reports no errors. *)
Context (Hgood : forall d : D, dev_error d = false).

Lemma readsect_run s dst n : 0 <= n < 2 ^ 28 ->
  exists d, readsect dst n s = Ret tt (mkBst (st (bt_mem s) dst (dev_sector (bt_hw s) 0 n)) d) /\ dev_sector d = dev_sector (bt_hw s).
Proof using Hgood.
  intros Hn. unfold readsect. destruct (waitdisk_run s) as (d0 & R0 & (_ & F2 & _) & _). rewrite (bind_Ret _ _ _ _ _ R0). clear R0.
  unfold bout. do 6 (rewrite bind_run; unfold modify at 1; cbn [bt_hw set_bt_hw bt_mem]). set (d5 := outb 0x1f6 _ _).
  assert (Hsec : dev_sector d5 = dev_sector (bt_hw s)) by (subst d5; rewrite !port_sector by (unfold file_ports; set_solver); done).
  assert (R2 : dev_reg d5 0x1f2 = 1) by (subst d5; rewrite !port_reg by (unfold file_ports; set_solver); by repeat case_decide).
  destruct (boot_sector (dev_reg d5) n Hn) as [El Ed]; [subst d5; rewrite !port_reg by (unfold file_ports; set_solver); by repeat case_decide..|].
  change (u8 32) with IDE_CMD_READ. destruct (dev_cmd_read d5 R2) as (C1 & C2 & C3). rewrite El, Ed in C3. set (d6 := outb 0x1f7 IDE_CMD_READ d5) in *.
  match goal with |- context [(waitdisk ≫= _) ?x] => destruct (waitdisk_run x) as (d7 & R7 & (G1 & G2 & G3 & G4) & G5) end.
  rewrite (bind_Ret _ _ _ _ _ R7). cbn [bt_hw set_bt_hw bt_mem] in *. unfold binsl. cbn [bt_hw set_bt_hw bt_mem].
  pose proof (dev_data_in d7 0 n ltac:(by rewrite G3) G5 (Hgood d7)) as Hin. change (Z.to_nat (SECTSIZE / 4)) with (BSIZE / 4)%nat.
  destruct (insl 0x1f0 (BSIZE / 4) d7) as [v d8]. destruct Hin as (-> & _ & E8). exists d8. rewrite E8, G2, C2, Hsec. done.
Qed.

(** ** Reading segments *)

(** The kernel file has the bytes [fb] and starts at sector 1. *)
Context (fb : Z -> Z) (Hfb : forall o, 0 <= fb o < 256).
Definition sector_of (n : Z) : list Z := map (fun i => fb (512 * (n - 1) + Z.of_nat i)) (seq 0 512).
Definition kernel_disk (d : D) : Prop := forall n, 1 <= n < 2 ^ 28 -> dev_sector d 0 n = sector_of n.

Lemma ld8_sector m dst n a : ld8 (st m dst (sector_of n)) a = if decide (dst <= a < dst + 512) then fb (512 * (n - 1) + (a - dst)) else ld8 m a.
Proof using Hfb.
  case_decide as H.
  - replace a with (dst + Z.of_nat (Z.to_nat (a - dst))) at 1 by lia. rewrite (ld8_st_eq _ _ _ _ (fb (512 * (n - 1) + (a - dst)))).
    + by apply u8_small.
    + unfold sector_of. rewrite list_lookup_fmap, lookup_seq_lt by lia. cbn [fmap option_fmap option_map]. do 2 f_equal. lia.
  - apply ld8_st_ne. unfold sector_of. rewrite length_map, length_seq. lia.
Qed.

Lemma readseg_loop_run k : forall fuel s pa epa off, kernel_disk (bt_hw s) -> 0 <= pa -> pa + 512 * Z.of_nat k < 2 ^ 32 -> 1 <= off -> off + Z.of_nat k < 2 ^ 28 ->
  epa <= pa + 512 * Z.of_nat k -> pa + 512 * Z.of_nat k < epa + 512 -> (k < fuel)%nat ->
  exists s', readseg_loop fuel pa epa off s = Ret tt s' /\ kernel_disk (bt_hw s') /\
    forall a, ld8 (bt_mem s') a = if decide (pa <= a < pa + 512 * Z.of_nat k) then fb (512 * (off - 1) + (a - pa)) else ld8 (bt_mem s) a.
Proof using Hgood Hfb.
  induction k as [|k IH]; intros fuel s pa epa off Hd Hpa Hw Ho Hs He1 He2 Hf; (destruct fuel as [|fuel]; [lia|]); cbn [readseg_loop].
  { rewrite (proj2 (Z.ltb_ge _ _)) by lia. exists s. split; [done|]. split; [done|]. intros a. by rewrite decide_False by lia. }
  rewrite (proj2 (Z.ltb_lt _ _)) by lia. destruct (readsect_run s pa off) as (d & R & Es); [lia|]. rewrite (bind_Ret _ _ _ _ _ R). unfold SECTSIZE. rewrite !u32_small by lia.
  destruct (IH fuel (mkBst (st (bt_mem s) pa (dev_sector (bt_hw s) 0 off)) d) (pa + 512) epa (off + 1)) as (s' & R' & Hd' & Hm'); try lia.
  { intros n Hn. cbn [bt_hw]. rewrite Es. by apply Hd. }
  exists s'. split; [exact R'|]. split; [done|]. intros a. rewrite Hm'. cbn [bt_mem]. rewrite (Hd off) by lia. rewrite ld8_sector.
  repeat case_decide; try lia; try done; f_equal; lia.
Qed.

(** The memory that [readseg] writes. *)
Definition seg_lo (pa off : Z) : Z := pa - off mod 512.
Definition seg_hi (pa count off : Z) : Z := seg_lo pa off + 512 * ((count + off mod 512 + 511) / 512).

Lemma readseg_run s pa count off : kernel_disk (bt_hw s) -> 0 <= seg_lo pa off -> seg_hi pa count off < 2 ^ 32 -> 0 <= count -> 0 <= off -> off + count < 2 ^ 36 ->
  exists s', readseg pa count off s = Ret tt s' /\ kernel_disk (bt_hw s') /\
    forall a, ld8 (bt_mem s') a = if decide (seg_lo pa off <= a < seg_hi pa count off) then fb (off + (a - pa)) else ld8 (bt_mem s) a.
Proof using Hgood Hfb.
  intros Hd Hlo Hhi Hc Ho Hoc. unfold readseg, SECTSIZE. pose proof (Z.mod_pos_bound off 512 ltac:(lia)) as Hr. pose proof (Z.div_mod off 512 ltac:(lia)) as Hdm.
  set (k := (count + off mod 512 + 511) / 512) in *. pose proof (Z.div_mod (count + off mod 512 + 511) 512 ltac:(lia)) as Hk. fold k in Hk.
  pose proof (Z.mod_pos_bound (count + off mod 512 + 511) 512 ltac:(lia)) as Hk'. assert (Hk0 : 0 <= k) by (apply Z.div_pos; lia).
  pose proof (Z.div_mod count 512 ltac:(lia)). pose proof (Z.mod_pos_bound count 512 ltac:(lia)).
  unfold seg_hi in *. fold k in Hhi. unfold seg_lo in *. rewrite (u32_small (pa + count)), (u32_small (pa - off mod 512)) by lia.
  destruct (readseg_loop_run (Z.to_nat k) (Z.to_nat (count / 512 + 3)) s (pa - off mod 512) (pa + count) (off / 512 + 1)) as (s' & R & Hd' & Hm); try lia; [done|].
  exists s'. split; [done|]. split; [done|]. intros a. rewrite Hm. rewrite Z2Nat.id by lia. repeat case_decide; try lia; try done. f_equal. lia.
Qed.

(** ** The program headers *)

(** A little-endian word of the file, and the fields of the program header at
    offset [h] of the file. *)
Definition fword (o : Z) : Z := le_dec (map (fun i => fb (o + Z.of_nat i)) (seq 0 4)).
Definition h_off (h : Z) : Z := fword (h + 4).
Definition h_pa (h : Z) : Z := fword (h + 12).
Definition h_filesz (h : Z) : Z := fword (h + 16).
Definition h_memsz (h : Z) : Z := fword (h + 20).
(** The memory that the segment occupies, and the memory that loading it writes. *)
Definition seg_mem (h a : Z) : Prop := h_pa h <= a < h_pa h + Z.max (h_filesz h) (h_memsz h).
Definition seg_writes (h a : Z) : Prop :=
  seg_lo (h_pa h) (h_off h) <= a < seg_hi (h_pa h) (h_filesz h) (h_off h) \/ h_pa h + h_filesz h <= a < h_pa h + h_memsz h.

Record seg_fits (h : Z) : Prop := {
  sf_lo : 0 <= seg_lo (h_pa h) (h_off h);
  sf_hi : seg_hi (h_pa h) (h_filesz h) (h_off h) < 2 ^ 32 /\ h_pa h + h_memsz h < 2 ^ 32;
  sf_header : forall a, seg_writes h a -> ~ (ELF_AT <= a < ELF_AT + 4096)
}.
(** The segment is in memory. *)
Definition seg_loaded (m : mem) (h : Z) : Prop :=
  (forall a, h_pa h <= a < h_pa h + h_filesz h -> ld8 m a = fb (h_off h + (a - h_pa h))) /\
  forall a, h_pa h + h_filesz h <= a < h_pa h + h_memsz h -> ld8 m a = 0.
(** The first page of the file is in the scratch space. *)
Definition header_read (m : mem) : Prop := forall o, 0 <= o < 4096 -> ld8 m (ELF_AT + o) = fb o.

Lemma header_word m o : header_read m -> 0 <= o <= 4092 -> ld32 m (ELF_AT + o) = fword o.
Proof.
  intros Hh Ho. unfold ld32, fword. f_equal. apply list_eq. intros i. rewrite list_lookup_fmap. destruct (decide (i < 4)%nat) as [Hi|Hi].
  - rewrite lookup_ld, lookup_seq_lt by lia. cbn [fmap option_fmap option_map]. f_equal. rewrite <- Hh by lia. f_equal. lia.
  - rewrite !lookup_ge_None_2; [done|rewrite length_seq; lia|rewrite length_ld; lia].
Qed.
Lemma header_field m h i : header_read m -> 0 <= h + i <= 4092 -> ld32 m (ELF_AT + h + i) = fword (h + i).
Proof. intros Hh Hi. rewrite <- Z.add_assoc. by apply header_word. Qed.
Lemma fword_range o : 0 <= fword o < 2 ^ 32.
Proof using Hfb.
  unfold fword. pose proof (le_dec_range (map (fun i => fb (o + Z.of_nat i)) (seq 0 4))) as H. rewrite length_map, length_seq in H. apply H.
  apply Forall_map, Forall_forall. intros i _. apply Hfb.
Qed.

(** One pass of the loop. *)
Lemma load_segment fuel s h eph : kernel_disk (bt_hw s) -> header_read (bt_mem s) -> 0 <= h -> h + 32 <= 4096 -> seg_fits h -> ELF_AT + h < eph ->
  exists s', load_segments (S fuel) (ELF_AT + h) eph s = load_segments fuel (ELF_AT + (h + 32)) eph s' /\ kernel_disk (bt_hw s') /\ header_read (bt_mem s') /\
    seg_loaded (bt_mem s') h /\ forall a, ~ seg_writes h a -> ld8 (bt_mem s') a = ld8 (bt_mem s) a.
Proof using Hgood Hfb.
  intros Hd Hh H0 H1 [F1 [F2 F3] F4] He. cbn [load_segments]. rewrite (proj2 (Z.ltb_lt _ _)) by done. cbn [negb].
  pose proof (fword_range (h + 4)) as Rof. pose proof (fword_range (h + 12)) as Rpa. pose proof (fword_range (h + 16)) as Rfs. pose proof (fword_range (h + 20)) as Rms.
  fold (h_off h) in Rof. fold (h_pa h) in Rpa. fold (h_filesz h) in Rfs. fold (h_memsz h) in Rms. unfold brd32.
  do 3 (rewrite bind_run; unfold gets at 1; rewrite header_field by (done || lia)). fold (h_pa h) (h_filesz h) (h_off h).
  destruct (readseg_run s (h_pa h) (h_filesz h) (h_off h)) as (s1 & R1 & Hd1 & Hm1); [done|done|done|lia|lia|lia|]. rewrite (bind_Ret _ _ _ _ _ R1).
  assert (Hh1 : header_read (bt_mem s1)).
  { intros o Ho. rewrite Hm1, decide_False; [by apply Hh|]. intros Hin. apply (F4 (ELF_AT + o)); [by left|lia]. }
  do 2 (rewrite bind_run; unfold gets at 1; rewrite header_field by (done || lia)). fold (h_memsz h) (h_filesz h).
  assert (Hspan : h_pa h + h_filesz h <= seg_hi (h_pa h) (h_filesz h) (h_off h) /\ seg_lo (h_pa h) (h_off h) <= h_pa h).
  { unfold seg_hi, seg_lo. pose proof (Z.mod_pos_bound (h_off h) 512 ltac:(lia)). Z.to_euclidean_division_equations. lia. }
  unfold sizeof_proghdr. rewrite (u32_small (ELF_AT + h + 32)) by (unfold ELF_AT; lia). rewrite <- Z.add_assoc.
  destruct (Z.ltb_spec (h_filesz h) (h_memsz h)) as [Hlt|Hge].
  - rewrite bind_run. unfold bstosb, modify. rewrite (u32_small (h_pa h + h_filesz h)), (u32_small (h_memsz h - h_filesz h)) by lia.
    set (s2 := set_bt_mem _ s1). assert (Hm2 : forall a, ld8 (bt_mem s2) a = if decide (h_pa h + h_filesz h <= a < h_pa h + h_memsz h) then 0 else ld8 (bt_mem s1) a).
    { intros a. unfold s2. cbn [bt_mem set_bt_mem]. rewrite ld8_stosb, Z2Nat.id by lia.
      destruct (Z.leb_spec (h_pa h + h_filesz h) a), (Z.ltb_spec a (h_pa h + h_filesz h + (h_memsz h - h_filesz h))); cbn [andb]; case_decide; (lia || done). }
    exists s2. split; [done|]. split; [done|]. split; [|split; [split|]].
    + intros o Ho. rewrite Hm2, decide_False; [by apply Hh1|]. intros Hin. apply (F4 (ELF_AT + o)); [by right|lia].
    + intros a Ha. rewrite Hm2, decide_False by lia. rewrite Hm1, decide_True by lia. done.
    + intros a Ha. by rewrite Hm2, decide_True by lia.
    + intros a Ha. rewrite Hm2, Hm1, !decide_False; [done|..]; intros ?; apply Ha; [by left|by right].
  - rewrite bind_run. unfold mret. exists s1. split; [done|]. split; [done|]. split; [done|]. split; [split|].
    + intros a Ha. rewrite Hm1, decide_True by lia. done.
    + intros a Ha. lia.
    + intros a Ha. rewrite Hm1, decide_False; [done|]. intros ?. apply Ha. by left.
Qed.

(** [n] headers from [h] on, which load without harm to each other. *)
Record segments_fit (n : nat) (h : Z) : Prop := {
  sg_page : 0 <= h /\ h + 32 * Z.of_nat n <= 4096;
  sg_fits : forall i, (i < n)%nat -> seg_fits (h + 32 * Z.of_nat i);
  sg_apart : forall i j a, (i < j < n)%nat -> seg_writes (h + 32 * Z.of_nat j) a -> ~ seg_mem (h + 32 * Z.of_nat i) a
}.

Lemma segments_fit_S n h : segments_fit (S n) h -> segments_fit n (h + 32).
Proof.
  intros [[S1 S2] S3 S4]. split; [lia| |].
  - intros i Hi. replace (h + 32 + 32 * Z.of_nat i) with (h + 32 * Z.of_nat (S i)) by lia. apply S3. lia.
  - intros i j a Hij. replace (h + 32 + 32 * Z.of_nat j) with (h + 32 * Z.of_nat (S j)) by lia. replace (h + 32 + 32 * Z.of_nat i) with (h + 32 * Z.of_nat (S i)) by lia. apply S4. lia.
Qed.

Lemma seg_loaded_ext m m' h : (forall a, seg_mem h a -> ld8 m' a = ld8 m a) -> seg_loaded m h -> seg_loaded m' h.
Proof using Hfb.
  pose proof (fword_range (h + 16)) as Rfs. pose proof (fword_range (h + 20)) as Rms. fold (h_filesz h) in Rfs. fold (h_memsz h) in Rms.
  intros Hm [H1 H2]. split; intros a Ha; rewrite Hm by (unfold seg_mem; lia); auto.
Qed.

Lemma load_segments_run n : forall h s, kernel_disk (bt_hw s) -> header_read (bt_mem s) -> segments_fit n h ->
  exists s', load_segments n (ELF_AT + h) (ELF_AT + h + 32 * Z.of_nat n) s = Ret tt s' /\ header_read (bt_mem s') /\
    (forall i, (i < n)%nat -> seg_loaded (bt_mem s') (h + 32 * Z.of_nat i)) /\
    forall a, (forall i, (i < n)%nat -> ~ seg_writes (h + 32 * Z.of_nat i) a) -> ld8 (bt_mem s') a = ld8 (bt_mem s) a.
Proof using Hgood Hfb.
  induction n as [|n IH]; intros h s Hd Hh HS.
  { cbn [load_segments]. rewrite (proj2 (Z.ltb_ge _ _)) by lia. exists s. split; [done|]. split; [done|]. split; [intros; lia|done]. }
  pose proof HS as [[S1 S2] S3 S4]. pose proof (S3 0%nat ltac:(lia)) as F0. replace (h + 32 * Z.of_nat 0) with h in F0 by lia.
  destruct (load_segment n s h (ELF_AT + h + 32 * Z.of_nat (S n)) Hd Hh) as (s1 & R1 & Hd1 & Hh1 & L1 & U1); [lia|lia|done|lia|].
  destruct (IH (h + 32) s1 Hd1 Hh1 (segments_fit_S n h HS)) as (s' & R' & Hh' & L' & U').
  exists s'. split; [rewrite R1, <- R'; f_equal; lia|]. split; [done|].
  assert (Hsh : forall i, h + 32 + 32 * Z.of_nat i = h + 32 * Z.of_nat (S i)) by (intros; lia). split.
  - intros [|i] Hi; [|rewrite <- Hsh; apply L'; lia]. replace (h + 32 * Z.of_nat 0) with h by lia. apply (seg_loaded_ext (bt_mem s1)); [|done].
    intros a Ha. apply U'. intros i Hi' Hw. rewrite Hsh in Hw. apply (S4 0%nat (S i) a); [lia|done|]. by replace (h + 32 * Z.of_nat 0) with h by lia.
  - intros a Ha. rewrite U', U1; [done| |].
    + specialize (Ha 0%nat ltac:(lia)). by replace (h + 32 * Z.of_nat 0) with h in Ha by lia.
    + intros i Hi. rewrite Hsh. apply Ha. lia.
Qed.

Definition fphnum : Z := le_dec (map (fun i => fb (44 + Z.of_nat i)) (seq 0 2)).

Lemma bootmain_run s : kernel_disk (bt_hw s) -> fword 0 = ELF_MAGIC -> segments_fit (Z.to_nat fphnum) (fword 28) ->
  exists s', bootmain s = Ret (Some (fword 24)) s' /\ (forall i, (i < Z.to_nat fphnum)%nat -> seg_loaded (bt_mem s') (fword 28 + 32 * Z.of_nat i)) /\
    forall a, ~ (ELF_AT <= a < ELF_AT + 4096) -> (forall i, (i < Z.to_nat fphnum)%nat -> ~ seg_writes (fword 28 + 32 * Z.of_nat i) a) -> ld8 (bt_mem s') a = ld8 (bt_mem s) a.
Proof using Hgood Hfb.
  intros Hd Hmagic HS. unfold bootmain. destruct (readseg_run s ELF_AT 4096 0 Hd) as (s1 & R1 & Hd1 & Hm1); [done|done|lia|lia|lia|]. rewrite (bind_Ret _ _ _ _ _ R1).
  change (seg_lo ELF_AT 0) with ELF_AT in Hm1. change (seg_hi ELF_AT 4096 0) with (ELF_AT + 4096) in Hm1.
  assert (Hh1 : header_read (bt_mem s1)) by (intros o Ho; rewrite Hm1, decide_True by lia; f_equal; lia).
  assert (W : forall o m, header_read m -> 0 <= o <= 4092 -> ld32 m (ELF_AT + o) = fword o) by (intros; by apply header_word).
  unfold brd32. rewrite bind_run. unfold gets at 1. pose proof (W 0 (bt_mem s1) Hh1 ltac:(lia)) as W0. rewrite Z.add_0_r in W0. rewrite W0, Hmagic, Z.eqb_refl. cbn [negb].
  rewrite bind_run. unfold gets at 1. rewrite (W 28) by (done || lia). rewrite bind_run. unfold gets at 1.
  assert (Hn : le_dec (ld (bt_mem s1) (ELF_AT + 44) 2) = fphnum).
  { unfold fphnum. f_equal. cbn [ld map seq]. rewrite <- (Hh1 (44 + Z.of_nat 0)), <- (Hh1 (44 + Z.of_nat 1)) by lia. done. }
  rewrite Hn. assert (Hp : 0 <= fphnum < 65536).
  { unfold fphnum. pose proof (le_dec_range (map (fun i => fb (44 + Z.of_nat i)) (seq 0 2))) as H. rewrite length_map, length_seq in H. apply H. apply Forall_map, Forall_forall. intros; apply Hfb. }
  pose proof HS as [[S1 S2] _ _]. unfold sizeof_proghdr. assert (E1 : u32 (ELF_AT + fword 28) = ELF_AT + fword 28) by (apply u32_small; unfold ELF_AT; lia). rewrite E1.
  rewrite (u32_small (ELF_AT + fword 28 + fphnum * 32)) by (unfold ELF_AT; lia).
  destruct (load_segments_run (Z.to_nat fphnum) (fword 28) s1 Hd1 Hh1 HS) as (s' & R' & Hh' & L' & U'). rewrite Z2Nat.id in R' by lia.
  replace (ELF_AT + fword 28 + fphnum * 32) with (ELF_AT + fword 28 + 32 * fphnum) by lia. rewrite (bind_Ret _ _ _ _ _ R').
  rewrite bind_run. unfold gets at 1. rewrite (W 24) by (done || lia). exists s'. split; [done|]. split; [done|].
  intros a Ha Hw. rewrite U' by done. rewrite Hm1, decide_False by done. done.
Qed.
End boot.


(** A kernel of four bytes at 1 MB, with four bytes more of zeros. *)
Definition a_kernel : list Z :=
  le_enc 4 ELF_MAGIC ++ replicate 12 0 ++ le_enc 2 2 ++ le_enc 2 3 ++ le_enc 4 1 ++ le_enc 4 0x100000 ++ le_enc 4 52 ++ replicate 12 0 ++ le_enc 2 1 ++ replicate 6 0 ++
  le_enc 4 1 ++ le_enc 4 96 ++ le_enc 4 0x80100000 ++ le_enc 4 0x100000 ++ le_enc 4 4 ++ le_enc 4 8 ++ le_enc 4 7 ++ le_enc 4 4096 ++ replicate 12 0 ++ [250; 244; 235; 254].
Definition kernel_byte (o : Z) : Z := nth (Z.to_nat o) a_kernel 0.
Definition powered : @bst ramdev := mkBst ∅ (mkRam (fun _ => 0) (fun _ n => sector_of kernel_byte n) None true).

Lemma kernel_byte_range o : 0 <= kernel_byte o < 256.
Proof.
  unfold kernel_byte. rewrite nth_lookup. destruct (_ !! _) as [x|] eqn:E; [|cbn; lia].
  assert (H : Forall (fun b => 0 <= b < 256) a_kernel); [|by apply (Forall_lookup_1 _ _ _ _ H E)].
  unfold a_kernel; repeat (apply Forall_app; split); try apply le_enc_bytes; try (by apply Forall_replicate); repeat constructor; lia.
Qed.

