(* ===== verification/Devices.v ===== *)
(** * Interrupt controllers, timers, clock and serial port: src/xv6/picirq.c, ioapic.c, lapic.c, timer.c, uart.c

    The drivers run on a board behind an interface: [ports] has the accesses, and
    one class for each chip says what can be observed of it and what the accesses
    do to that, as the data sheets have it, for the accesses that the drivers
    make.  The theorems hold for every board that satisfies the laws of the chips
    they are about; [bench] is one with all of them. *)

From stdpp Require Import base list list_numbers numbers gmap strings.
From Stdlib Require Import ZArith Lia.
From S2P Require Import Prelude Mem KState Kalloc Printf Inode Process Trap Mp.

Definition IRQ_ERROR : Z := 19.
Definition IO_PIC1 : Z := 0x20.
Definition IO_PIC2 : Z := 0xA0.
Definition IRQ_SLAVE : Z := 2.
Definition IOAPIC : Z := 0xFEC00000.
Definition REG_ID : Z := 0x00.
Definition REG_VER : Z := 0x01.
Definition REG_TABLE : Z := 0x10.
Definition INT_DISABLED : Z := 0x00010000.
Definition COM1 : Z := 0x3f8.
Definition IO_TIMER1 : Z := 0x040.
Definition TIMER_FREQ : Z := 1193182.
Definition TIMER_DIV (x : Z) : Z := (TIMER_FREQ + x / 2) / x.
Definition TIMER_MODE : Z := IO_TIMER1 + 3.
Definition TIMER_SEL0 : Z := 0x00.
Definition TIMER_RATEGEN : Z := 0x04.
Definition TIMER_16BIT : Z := 0x30.
(** Local APIC registers, as indices of words. *)
Definition ID : Z := 0x0020 / 4.
Definition VER : Z := 0x0030 / 4.
Definition TPR : Z := 0x0080 / 4.
Definition EOI : Z := 0x00B0 / 4.
Definition SVR : Z := 0x00F0 / 4.
Definition ENABLE : Z := 0x00000100.
Definition ESR : Z := 0x0280 / 4.
Definition ICRLO : Z := 0x0300 / 4.
Definition INIT : Z := 0x00000500.
Definition STARTUP : Z := 0x00000600.
Definition DELIVS : Z := 0x00001000.
Definition ASSERT : Z := 0x00004000.
Definition LEVEL : Z := 0x00008000.
Definition BCAST : Z := 0x00080000.
Definition ICRHI : Z := 0x0310 / 4.
Definition TIMER : Z := 0x0320 / 4.
Definition X1 : Z := 0x0000000B.
Definition PERIODIC : Z := 0x00020000.
Definition PCINT : Z := 0x0340 / 4.
Definition LINT0 : Z := 0x0350 / 4.
Definition LINT1 : Z := 0x0360 / 4.
Definition ERROR : Z := 0x0370 / 4.
Definition MASKED : Z := 0x00010000.
Definition TICR : Z := 0x0380 / 4.
Definition TDCR : Z := 0x03E0 / 4.
Definition CMOS_PORT : Z := 0x70.
Definition CMOS_RETURN : Z := 0x71.
Definition CMOS_STATA : Z := 0x0a.
Definition CMOS_STATB : Z := 0x0b.
Definition CMOS_UIP : Z := Z.shiftl 1 7.
Definition SECS : Z := 0x00.
Definition MINS : Z := 0x02.
Definition HOURS : Z := 0x04.
Definition DAY : Z := 0x07.
Definition MONTH : Z := 0x08.
Definition YEAR : Z := 0x09.

(** ** The board *)

Class ports (D : Type) := {
  inb : Z -> D -> Z * D;
  outb : Z -> Z -> D -> D;
  rdl : Z -> D -> Z * D;
  wrl : Z -> Z -> D -> D
}.

(** An 8259A: its mask, its first vector, and how many of the initialisation
    words it still expects. *)
Record pic8259 := mkPic { pic_mask : Z; pic_base : Z; pic_icw : nat }.
(** A write to the command or to the data port. *)
Definition pic_command (v : Z) (c : pic8259) : pic8259 :=
  if Z.testbit v 4 then mkPic 0 (pic_base c) 3 else c.
Definition pic_data (v : Z) (c : pic8259) : pic8259 :=
  match pic_icw c with
  | O => mkPic v (pic_base c) 0
  | 3%nat => mkPic (pic_mask c) (Z.land v 0xF8) 2
  | S n => mkPic (pic_mask c) (pic_base c) n
  end.

Class pics (D : Type) `{!ports D} := {
  pic : D -> bool -> pic8259;
  pic_in : forall p d, pic (inb p d).2 = pic d;
  pic_wrl : forall a v d, pic (wrl a v d) = pic d;
  pic_rdl : forall a d, pic (rdl a d).2 = pic d;
  pic_out : forall p v d slave, pic (outb p v d) slave =
    if decide (p = if slave : bool then IO_PIC2 else IO_PIC1) then pic_command v (pic d slave)
    else if decide (p = (if slave : bool then IO_PIC2 else IO_PIC1) + 1) then pic_data v (pic d slave)
    else pic d slave
}.

(** Counter 0 of the 8253: the low byte of a new count, and the count. *)
Record pit8253 := mkPit { pit_low : option Z; pit_count : option Z }.
Definition pit_control (v : Z) (c : pit8253) : pit8253 :=
  if v =? 0x34 then mkPit None None else c.
Definition pit_byte (v : Z) (c : pit8253) : pit8253 :=
  match pit_low c with
  | None => mkPit (Some v) (pit_count c)
  | Some low => mkPit None (Some (low + 256 * v))
  end.
Class pits (D : Type) `{!ports D} := {
  pit : D -> pit8253;
  pit_out : forall p v d, pit (outb p v d) =
    if decide (p = 0x43) then pit_control v (pit d) else if decide (p = 0x40) then pit_byte v (pit d) else pit d
}.

(** The I/O APIC: the selected register, the registers, and the last line of
    the redirection table, which can be written. *)
Class ioapics (D : Type) `{!ports D} := {
  io_sel : D -> Z;
  io_reg : D -> Z -> Z;
  io_last : D -> Z := fun d => Z.land (Z.shiftr (io_reg d REG_VER) 16) 0xFF;
  io_in : forall p d, io_reg (inb p d).2 = io_reg d;
  io_out : forall p v d, io_reg (outb p v d) = io_reg d;
  io_read : forall d, (rdl (IOAPIC + 16) d).1 = io_reg d (io_sel d) /\ io_reg (rdl (IOAPIC + 16) d).2 = io_reg d;
  io_select : forall v d, io_sel (wrl IOAPIC v d) = v /\ io_reg (wrl IOAPIC v d) = io_reg d;
  io_write : forall v d, REG_TABLE <= io_sel d <= REG_TABLE + 2 * io_last d + 1 ->
    forall r, io_reg (wrl (IOAPIC + 16) v d) r = if decide (r = io_sel d) then v else io_reg d r
}.

(** The serial port: whether there is one, what was sent, whether the divisor is
    unlocked, how many more times the port reports to be busy, and what it will
    deliver before it next reports that there is nothing. *)
Class uarts (D : Type) `{!ports D} := {
  com_present : bool;
  sent : D -> list Z;
  unlocked : D -> bool;
  com_delay : D -> nat;
  incoming : D -> list Z;
  com_in : forall p d, sent (inb p d).2 = sent d /\ unlocked (inb p d).2 = unlocked d;
  com_wrl : forall a v d, sent (wrl a v d) = sent d /\ unlocked (wrl a v d) = unlocked d;
  com_out : forall p v d, p <> COM1 ->
    sent (outb p v d) = sent d /\ unlocked (outb p v d) = if decide (p = COM1 + 3) then Z.testbit v 7 else unlocked d;
  com_data : forall v d, unlocked (outb COM1 v d) = unlocked d /\
    (unlocked d = true -> sent (outb COM1 v d) = sent d) /\
    (unlocked d = false -> com_delay d = O -> sent (outb COM1 v d) = sent d ++ [v]);
  com_status : forall d, (inb (COM1 + 5) d).1 = 0xFF <-> com_present = false;
  com_poll : forall d, com_present = true ->
    flag (inb (COM1 + 5) d).1 0x20 = (com_delay d =? 0)%nat /\ com_delay (inb (COM1 + 5) d).2 = pred (com_delay d) /\
    flag (inb (COM1 + 5) d).1 0x01 = negb (bool_decide (incoming d = [])) /\
    (incoming d <> [] -> incoming (inb (COM1 + 5) d).2 = incoming d);
  com_recv : forall d c rest, incoming d = c :: rest -> unlocked d = false ->
    0 <= c < 256 /\ (inb COM1 d).1 = c /\ incoming (inb COM1 d).2 = rest
}.

(** The local APIC: its registers by index, the interprocessor interrupts it
    sent, and how many more times it reports that one is on its way. *)
Class lapics (D : Type) `{!ports D} := {
  lapic_base : Z;
  lapic_mapped : lapic_base <> 0;
  lapic_reg : D -> Z -> Z;
  ipis : D -> list (Z * Z);
  ipi_delay : D -> nat;
  ipi_patience : nat;
  ipi_bound : forall d, (ipi_delay d < ipi_patience)%nat;
  lapic_out : forall p v d, lapic_reg (outb p v d) = lapic_reg d /\ ipis (outb p v d) = ipis d;
  lapic_read : forall i d, 0 <= i < 256 -> lapic_reg (rdl (lapic_base + 4 * i) d).2 = lapic_reg d /\ ipis (rdl (lapic_base + 4 * i) d).2 = ipis d /\
    (i <> ICRLO -> (rdl (lapic_base + 4 * i) d).1 = lapic_reg d i);
  lapic_sending : forall d, flag (rdl (lapic_base + 4 * ICRLO) d).1 DELIVS = negb (ipi_delay d =? 0)%nat /\
    ipi_delay (rdl (lapic_base + 4 * ICRLO) d).2 = pred (ipi_delay d);
  lapic_write : forall i v d, i ∈ [SVR; TDCR; TIMER; TICR; LINT0; LINT1; PCINT; ERROR; ICRHI; TPR] ->
    (forall j, lapic_reg (wrl (lapic_base + 4 * i) v d) j = if decide (j = i) then v else lapic_reg d j) /\
    ipis (wrl (lapic_base + 4 * i) v d) = ipis d;
  lapic_ack : forall i v d, i ∈ [EOI; ESR] ->
    (forall j, j ∉ [EOI; ESR] -> lapic_reg (wrl (lapic_base + 4 * i) v d) j = lapic_reg d j) /\
    ipis (wrl (lapic_base + 4 * i) v d) = ipis d;
  lapic_send : forall v d,
    (forall j, j <> ICRLO -> lapic_reg (wrl (lapic_base + 4 * ICRLO) v d) j = lapic_reg d j) /\
    ipis (wrl (lapic_base + 4 * ICRLO) v d) = ipis d ++ [(lapic_reg d ICRHI, v)]
}.

(** The clock: how often its registers have changed, what they hold after each
    change, a number of accesses for which they will not change again, and a
    bound on the accesses during which an update can be in progress.  The
    registers of the time hold two digits, in BCD or in binary. *)
Definition bcd_digits (bcd : bool) (v : Z) : Z := if bcd then Z.lor (Z.shiftl (v / 10) 4) (v mod 10) else v.
Definition rtc_access {D} `{!ports D} (d d' : D) : Prop := (exists r, d' = outb CMOS_PORT r d) \/ d' = (inb CMOS_RETURN d).2.
Class clocks (D : Type) `{!ports D} := {
  rtc_sel : D -> Z;
  rtc_time : D -> nat;
  rtc_quiet : D -> nat;
  rtc_left : D -> nat;
  rtc_patience : nat;
  rtc_reg : nat -> Z -> Z;
  rtc_shows : nat -> Z -> Z;
  rtc_bcd : bool;
  rtc_uip : nat -> bool := fun t => flag (rtc_reg t CMOS_STATA) CMOS_UIP;
  rtc_mode : forall t, Z.testbit (rtc_reg t CMOS_STATB) 2 = negb rtc_bcd;
  rtc_digits : forall t r, r ∈ [SECS; MINS; HOURS; DAY; MONTH; YEAR] ->
    0 <= rtc_shows t r < 100 /\ rtc_reg t r = bcd_digits rtc_bcd (rtc_shows t r);
  rtc_select : forall r d, rtc_sel (outb CMOS_PORT r d) = r;
  rtc_read : forall d, (inb CMOS_RETURN d).1 = rtc_reg (rtc_time (inb CMOS_RETURN d).2) (rtc_sel d);
  rtc_step : forall d d', rtc_access d d' ->
    match rtc_quiet d with
    | S n => rtc_time d' = rtc_time d /\ rtc_quiet d' = n
    | O => (rtc_time d' = rtc_time d /\ rtc_quiet d' = O) \/ (rtc_time d' = S (rtc_time d) /\ (64 <= rtc_quiet d')%nat)
    end;
  rtc_update : forall t, rtc_uip t = true -> rtc_uip (S t) = false;
  rtc_short : forall d d', rtc_access d d' -> rtc_uip (rtc_time d) = true -> rtc_time d' = rtc_time d -> (rtc_left d' < rtc_left d)%nat;
  rtc_bound : forall d, (rtc_left d <= rtc_patience)%nat
}.

(** date.h: [struct rtcdate]. *)
Record rtcdate := mkDate { second : Z; minute : Z; hour : Z; day : Z; month : Z; year : Z }.
#[global] Instance rtcdate_eq_dec : EqDecision rtcdate.
Proof. solve_decision. Defined.

Section drivers.
Context {D : Type} `{!ports D}.

(** The variables of mp.c and lapic.c ([Mp]), the board, and the static
    variables of picirq.c, ioapic.c, uart.c and [cpunum]. *)
Record dstate := mkDs { d_mp : mpstate; d_hw : D; d_irqmask : Z; d_ioapic : Z; d_uart : bool; d_n : Z }.
Definition set_d_mp v (s : dstate) : dstate := mkDs v (d_hw s) (d_irqmask s) (d_ioapic s) (d_uart s) (d_n s).
Definition set_d_hw v (s : dstate) : dstate := mkDs (d_mp s) v (d_irqmask s) (d_ioapic s) (d_uart s) (d_n s).
Definition set_d_irqmask v (s : dstate) : dstate := mkDs (d_mp s) (d_hw s) v (d_ioapic s) (d_uart s) (d_n s).
Definition set_d_ioapic v (s : dstate) : dstate := mkDs (d_mp s) (d_hw s) (d_irqmask s) v (d_uart s) (d_n s).
Definition set_d_uart v (s : dstate) : dstate := mkDs (d_mp s) (d_hw s) (d_irqmask s) (d_ioapic s) v (d_n s).
Definition set_d_n v (s : dstate) : dstate := mkDs (d_mp s) (d_hw s) (d_irqmask s) (d_ioapic s) (d_uart s) v.
Abbreviation V := (prog kstop dstate).

Definition in8 (p : Z) : V Z := fun s => let '(v, d) := inb p (d_hw s) in Ret v (set_d_hw d s).
Definition out8 (p v : Z) : V unit := modify (fun s => set_d_hw (outb p (u8 v) (d_hw s)) s).
Definition rd (a : Z) : V Z := fun s => let '(v, d) := rdl a (d_hw s) in Ret v (set_d_hw d s).
Definition wr (a v : Z) : V unit := modify (fun s => set_d_hw (wrl a (u32 v) (d_hw s)) s).
Definition say (fmt : list Z) (ap : list arg) : V unit := modify (fun s => set_d_mp (add_m_out (cprintf fmt ap) (d_mp s)) s).

(** ** picirq.c *)

Definition picsetmask (mask : Z) : V unit :=
  modify (set_d_irqmask (u16 mask)) ;;
  out8 (IO_PIC1 + 1) (u16 mask) ;;
  out8 (IO_PIC2 + 1) (Z.shiftr (u16 mask) 8).

Definition picenable (irq : Z) : V unit :=
  irqmask ← gets d_irqmask;
  picsetmask (Z.land irqmask (Z.lnot (Z.shiftl 1 irq))).

Definition picinit : V unit :=
  out8 (IO_PIC1 + 1) 0xFF ;;
  out8 (IO_PIC2 + 1) 0xFF ;;
  out8 IO_PIC1 0x11 ;;
  out8 (IO_PIC1 + 1) T_IRQ0 ;;
  out8 (IO_PIC1 + 1) (Z.shiftl 1 IRQ_SLAVE) ;;
  out8 (IO_PIC1 + 1) 0x3 ;;
  out8 IO_PIC2 0x11 ;;
  out8 (IO_PIC2 + 1) (T_IRQ0 + 8) ;;
  out8 (IO_PIC2 + 1) IRQ_SLAVE ;;
  out8 (IO_PIC2 + 1) 0x3 ;;
  out8 IO_PIC1 0x68 ;;
  out8 IO_PIC1 0x0a ;;
  out8 IO_PIC2 0x68 ;;
  out8 IO_PIC2 0x0a ;;
  irqmask ← gets d_irqmask;
  if negb (irqmask =? 0xFFFF) then picsetmask irqmask else mret tt.

(** ** ioapic.c *)

Definition ioapicread (reg : Z) : V Z :=
  ioapic ← gets d_ioapic;
  wr ioapic reg ;;
  rd (ioapic + 16).
Definition ioapicwrite (reg data : Z) : V unit :=
  ioapic ← gets d_ioapic;
  wr ioapic reg ;;
  wr (ioapic + 16) data.

(** The loop of [ioapicinit] from interrupt [i] on, [n] of them. *)
Fixpoint ioapicinit_loop (n : nat) (i : Z) : V unit :=
  match n with
  | O => mret tt
  | S n' =>
      ioapicwrite (REG_TABLE + 2 * i) (Z.lor INT_DISABLED (T_IRQ0 + i)) ;;
      ioapicwrite (REG_TABLE + 2 * i + 1) 0 ;;
      ioapicinit_loop n' (i + 1)
  end.
Definition ioapicinit : V unit :=
  mp ← gets d_mp;
  if negb (m_ismp mp) then mret tt
  else
    modify (set_d_ioapic IOAPIC) ;;
    ver ← ioapicread REG_VER;
    let maxintr := Z.land (Z.shiftr ver 16) 0xFF in
    r ← ioapicread REG_ID;
    let id := Z.shiftr r 24 in
    (if negb (id =? m_ioapicid mp) then say (chars "ioapicinit: id isn't equal to ioapicid; not a MP" ++ [10]) [] else mret tt) ;;
    ioapicinit_loop (Z.to_nat (maxintr + 1)) 0.

Definition ioapicenable (irq cpunum : Z) : V unit :=
  mp ← gets d_mp;
  if negb (m_ismp mp) then mret tt
  else
    ioapicwrite (REG_TABLE + 2 * irq) (T_IRQ0 + irq) ;;
    ioapicwrite (REG_TABLE + 2 * irq + 1) (Z.shiftl cpunum 24).

(** ** timer.c *)

Definition timerinit : V unit :=
  out8 TIMER_MODE (Z.lor (Z.lor TIMER_SEL0 TIMER_RATEGEN) TIMER_16BIT) ;;
  out8 IO_TIMER1 (TIMER_DIV 100 mod 256) ;;
  out8 IO_TIMER1 (TIMER_DIV 100 / 256) ;;
  picenable IRQ_TIMER.

(** ** lapic.c *)

Definition lapicr (index : Z) : V Z :=
  mp ← gets d_mp;
  rd (m_lapic mp + 4 * index).
Definition lapicw (index value : Z) : V unit :=
  mp ← gets d_mp;
  wr (m_lapic mp + 4 * index) value ;;
  _ ← lapicr ID;
  mret tt.

(** The loop of [lapicinit] that waits for the delivery. *)
Fixpoint lapic_wait (fuel : nat) : V unit :=
  match fuel with
  | O => stop NoFuel
  | S fuel' => v ← lapicr ICRLO; if flag v DELIVS then lapic_wait fuel' else mret tt
  end.

Definition lapicinit (fuel : nat) : V unit :=
  mp ← gets d_mp;
  if m_lapic mp =? 0 then mret tt
  else
    lapicw SVR (Z.lor ENABLE (T_IRQ0 + IRQ_SPURIOUS)) ;;
    lapicw TDCR X1 ;;
    lapicw TIMER (Z.lor PERIODIC (T_IRQ0 + IRQ_TIMER)) ;;
    lapicw TICR 10000000 ;;
    lapicw LINT0 MASKED ;;
    lapicw LINT1 MASKED ;;
    ver ← lapicr VER;
    (if 4 <=? Z.land (Z.shiftr ver 16) 0xFF then lapicw PCINT MASKED else mret tt) ;;
    lapicw ERROR (T_IRQ0 + IRQ_ERROR) ;;
    lapicw ESR 0 ;;
    lapicw ESR 0 ;;
    lapicw EOI 0 ;;
    lapicw ICRHI 0 ;;
    lapicw ICRLO (Z.lor (Z.lor BCAST INIT) LEVEL) ;;
    lapic_wait fuel ;;
    lapicw TPR 0.

(** [cpunum]; [eflags] is what [readeflags] returns and [ra] the return address. *)
Definition cpunum (eflags ra : Z) : V Z :=
  (if flag eflags FL_IF then
     n ← gets d_n;
     modify (set_d_n (s32 (n + 1))) ;;
     if n =? 0 then say (chars "cpu called from %x with interrupts enabled" ++ [10]) [AInt ra] else mret tt
   else mret tt) ;;
  mp ← gets d_mp;
  if negb (m_lapic mp =? 0) then id ← lapicr ID; mret (Z.shiftr id 24) else mret 0.

Definition lapiceoi : V unit :=
  mp ← gets d_mp;
  if negb (m_lapic mp =? 0) then lapicw EOI 0 else mret tt.

Definition microdelay (us : Z) : V unit := mret tt.

(** The loop of [lapicstartap] that sends the startup interrupt [n] times. *)
Fixpoint startap_loop (n : nat) (apicid addr : Z) : V unit :=
  match n with
  | O => mret tt
  | S n' =>
      lapicw ICRHI (Z.shiftl apicid 24) ;;
      lapicw ICRLO (Z.lor STARTUP (Z.shiftr addr 12)) ;;
      microdelay 200 ;;
      startap_loop n' apicid addr
  end.
Definition lapicstartap (apicid addr : Z) : V unit :=
  out8 CMOS_PORT 0xF ;;
  out8 (CMOS_PORT + 1) 0x0A ;;
  let wrv := p2v (Z.lor (Z.shiftl 0x40 4) 0x67) in
  modify (fun s => set_d_mp (set_m_mem (st (m_mem (d_mp s)) wrv (le_enc 2 0)) (d_mp s)) s) ;;
  modify (fun s => set_d_mp (set_m_mem (st (m_mem (d_mp s)) (wrv + 2) (le_enc 2 (u16 (Z.shiftr addr 4)))) (d_mp s)) s) ;;
  lapicw ICRHI (Z.shiftl apicid 24) ;;
  lapicw ICRLO (Z.lor (Z.lor INIT LEVEL) ASSERT) ;;
  microdelay 200 ;;
  lapicw ICRLO (Z.lor INIT LEVEL) ;;
  microdelay 100 ;;
  startap_loop 2 apicid addr.

Definition cmos_read (reg : Z) : V Z :=
  out8 CMOS_PORT reg ;;
  microdelay 200 ;;
  in8 CMOS_RETURN.

Definition fill_rtcdate : V rtcdate :=
  second ← cmos_read SECS;
  minute ← cmos_read MINS;
  hour ← cmos_read HOURS;
  day ← cmos_read DAY;
  month ← cmos_read MONTH;
  year ← cmos_read YEAR;
  mret (mkDate second minute hour day month year).

(** The loop of [cmostime]. *)
Fixpoint cmostime_loop (fuel : nat) : V rtcdate :=
  match fuel with
  | O => stop NoFuel
  | S fuel' =>
      t1 ← fill_rtcdate;
      a ← cmos_read CMOS_STATA;
      if flag a CMOS_UIP then cmostime_loop fuel'
      else
        t2 ← fill_rtcdate;
        if decide (t1 = t2) then mret t1 else cmostime_loop fuel'
  end.

Definition CONV (x : Z) : Z := Z.shiftr x 4 * 10 + Z.land x 0xf.
Definition cmostime (fuel : nat) : V rtcdate :=
  sb ← cmos_read CMOS_STATB;
  let bcd := Z.land sb (Z.shiftl 1 2) =? 0 in
  t1 ← cmostime_loop fuel;
  let t1 := if bcd then mkDate (CONV (second t1)) (CONV (minute t1)) (CONV (hour t1)) (CONV (day t1)) (CONV (month t1)) (CONV (year t1)) else t1 in
  mret (mkDate (second t1) (minute t1) (hour t1) (day t1) (month t1) (u32 (year t1 + 2000))).

(** ** uart.c *)

(** The loop of [uartputc] that waits, for at most [n] more polls. *)
Fixpoint uart_wait (n : nat) : V unit :=
  match n with
  | O => mret tt
  | S n' =>
      st ← in8 (COM1 + 5);
      if flag st 0x20 then mret tt else microdelay 10 ;; uart_wait n'
  end.
Definition uartputc (c : Z) : V unit :=
  uart ← gets d_uart;
  if negb uart then mret tt
  else
    uart_wait 128 ;;
    out8 COM1 c.

(** The loop of [uartinit] that prints the characters. *)
Fixpoint uart_announce (p : list Z) : V unit :=
  match p with [] => mret tt | c :: p' => uartputc c ;; uart_announce p' end.

Definition uartinit : V unit :=
  out8 (COM1 + 2) 0 ;;
  out8 (COM1 + 3) 0x80 ;;
  out8 (COM1 + 0) (115200 / 9600) ;;
  out8 (COM1 + 1) 0 ;;
  out8 (COM1 + 3) 0x03 ;;
  out8 (COM1 + 4) 0 ;;
  out8 (COM1 + 1) 0x01 ;;
  st ← in8 (COM1 + 5);
  if st =? 0xFF then mret tt
  else
    modify (set_d_uart true) ;;
    _ ← in8 (COM1 + 2);
    _ ← in8 (COM1 + 0);
    picenable IRQ_COM1 ;;
    ioapicenable IRQ_COM1 0 ;;
    uart_announce (chars "xv6..." ++ [10]).

Definition uartgetc : V Z :=
  uart ← gets d_uart;
  if negb uart then mret (-1)
  else
    st ← in8 (COM1 + 5);
    if negb (flag st 0x01) then mret (-1)
    else in8 (COM1 + 0).

(** [uartintr] is [consoleintr(uartgetc)]: the characters that its loop reads,
    which [Console.consoleintr] then handles. *)
Fixpoint uartintr_chars (fuel : nat) : V (list Z) :=
  match fuel with
  | O => stop NoFuel
  | S fuel' =>
      c ← uartgetc;
      if 0 <=? c then cs ← uartintr_chars fuel'; mret (c :: cs) else mret []
  end.
End drivers.

(** ** Runs of the accesses *)

Section runs.
Context {D : Type} `{!ports D}.
Implicit Types s : dstate (D := D).

Lemma out8_run p v s : out8 p v s = Ret tt (set_d_hw (outb p (u8 v) (d_hw s)) s).
Proof. reflexivity. Qed.
Lemma wr_run a v s : wr a v s = Ret tt (set_d_hw (wrl a (u32 v) (d_hw s)) s).
Proof. reflexivity. Qed.
Lemma in8_run p s : in8 p s = Ret (inb p (d_hw s)).1 (set_d_hw (inb p (d_hw s)).2 s).
Proof. unfold in8. by destruct (inb p (d_hw s)). Qed.
Lemma rd_run a s : rd a s = Ret (rdl a (d_hw s)).1 (set_d_hw (rdl a (d_hw s)).2 s).
Proof. unfold rd. by destruct (rdl a (d_hw s)). Qed.
End runs.

(** One access of the drivers at the head of a program. *)
Ltac dstep := first
  [ rewrite (bind_Ret _ _ _ _ _ (out8_run _ _ _)) | rewrite (bind_Ret _ _ _ _ _ (wr_run _ _ _))
  | rewrite (bind_Ret _ _ _ _ _ (in8_run _ _)) | rewrite (bind_Ret _ _ _ _ _ (rd_run _ _))
  | rewrite out8_run | rewrite wr_run | rewrite in8_run | rewrite rd_run ];
  cbn [d_mp d_hw d_irqmask d_ioapic d_uart d_n set_d_mp set_d_hw set_d_irqmask set_d_ioapic set_d_uart set_d_n].

(** ** The 8259A *)

Section pics.
Context {D : Type} `{!ports D, !pics D}.
Implicit Types s : dstate (D := D).

(** The lines of the two controllers: whether an interrupt of line [irq] gets
    through, and with which vector. *)
Definition pic_of (irq : Z) : bool := 8 <=? irq.
Definition line_open (d : D) (irq : Z) : bool := negb (Z.testbit (pic_mask (pic d (pic_of irq))) (irq mod 8)).
Definition line_vector (d : D) (irq : Z) : Z := pic_base (pic d (pic_of irq)) + irq mod 8.

(** The controllers are initialised and hold the mask of the driver. *)
Definition pics_ready (s : dstate (D := D)) : Prop :=
  0 <= d_irqmask s < 2 ^ 16 /\ forall slave, pic (d_hw s) slave =
    mkPic (if slave : bool then Z.shiftr (d_irqmask s) 8 else u8 (d_irqmask s)) (if slave : bool then T_IRQ0 + 8 else T_IRQ0) 0.

Lemma ready_line s irq : pics_ready s -> 0 <= irq < 16 ->
  line_open (d_hw s) irq = negb (Z.testbit (d_irqmask s) irq) /\ line_vector (d_hw s) irq = T_IRQ0 + irq.
Proof.
  intros [_ Hp] Hi. unfold line_open, line_vector. rewrite Hp. unfold pic_of. cbn [pic_mask pic_base]. destruct (8 <=? irq) eqn:E.
  - apply Z.leb_le in E. assert (Hm : irq mod 8 = irq - 8) by (Z.to_euclidean_division_equations; lia). rewrite Hm.
    rewrite Z.shiftr_spec by lia. replace (irq - 8 + 8) with irq by lia. split; [done|]. unfold T_IRQ0. lia.
  - apply Z.leb_gt in E. rewrite Z.mod_small by lia. split; [|done]. unfold u8. f_equal.
    change 256 with (2 ^ 8). by rewrite Z.mod_pow2_bits_low by lia.
Qed.

(** What [picsetmask] does to the board. *)
Definition mask_written (d d' : D) : Prop := exists a b, d' = outb (IO_PIC2 + 1) b (outb (IO_PIC1 + 1) a d).

(** The controller after the writes of a run, for a given one of the two. *)
Ltac pic_outs := repeat (rewrite pic_out; cbv iota; repeat first [rewrite decide_True by reflexivity | rewrite decide_False by discriminate]).

Lemma picsetmask_run mask s : (forall slave, pic_icw (pic (d_hw s) slave) = O) ->
  (forall slave, pic_base (pic (d_hw s) slave) = if slave : bool then T_IRQ0 + 8 else T_IRQ0) ->
  exists s', picsetmask mask s = Ret tt s' /\ pics_ready s' /\ d_irqmask s' = u16 mask /\
    s' = set_d_irqmask (d_irqmask s') (set_d_hw (d_hw s') s) /\ mask_written (d_hw s) (d_hw s').
Proof.
  intros Hi Hb. eexists. split; [unfold picsetmask; rewrite bind_run; unfold modify at 1; do 2 dstep; reflexivity|].
  pose proof (u16_range mask) as Hm.
  split_and!; [|done..|by eexists _, _]. split; [exact Hm|]. cbn [d_irqmask d_hw set_d_hw set_d_irqmask]. intros slave.
  destruct slave; pic_outs; unfold pic_data; rewrite Hi, Hb; f_equal. unfold u8. apply Z.mod_small. rewrite Z.shiftr_div_pow2 by lia. Z.to_euclidean_division_equations; lia.
Qed.

Lemma picenable_run irq s : pics_ready s -> 0 <= irq < 16 ->
  exists s', picenable irq s = Ret tt s' /\ pics_ready s' /\ s' = set_d_irqmask (d_irqmask s') (set_d_hw (d_hw s') s) /\ mask_written (d_hw s) (d_hw s') /\
    forall i, 0 <= i < 16 -> Z.testbit (d_irqmask s') i = (Z.testbit (d_irqmask s) i && negb (i =? irq))%bool.
Proof.
  intros Hr Hq. assert (Hr' := Hr). destruct Hr as [Hm Hp].
  destruct (picsetmask_run (Z.land (d_irqmask s) (Z.lnot (Z.shiftl 1 irq))) s) as (s' & R & Hr2 & E & F & W).
  { intros slave. by rewrite Hp. } { intros slave. by rewrite Hp. }
  exists s'. split_and!; [unfold picenable; rewrite bind_run; exact R|done|done|done|]. intros i Hi. rewrite E. unfold u16.
  change 65536 with (2 ^ 16). rewrite Z.mod_pow2_bits_low by lia. rewrite Z.land_spec, Z.lnot_spec by lia. f_equal. f_equal.
  rewrite Z.shiftl_spec by lia. destruct (i =? irq) eqn:Ei; [apply Z.eqb_eq in Ei as ->; by rewrite Z.sub_diag|].
  apply Z.eqb_neq in Ei. destruct (decide (i < irq)); [by rewrite Z.testbit_neg_r by lia|]. apply Z.bits_above_log2; cbn; lia.
Qed.

(** The commands of [picinit], without the mask. *)
Lemma picinit_words s : exists d, picinit s = (if negb (d_irqmask s =? 0xFFFF) then picsetmask (d_irqmask s) else mret tt) (set_d_hw d s) /\
  forall slave, pic d slave = mkPic 0 (if slave : bool then T_IRQ0 + 8 else T_IRQ0) 0.
Proof.
  eexists. split; [unfold picinit; do 14 dstep; rewrite bind_run; unfold gets at 1; cbn [d_irqmask]; reflexivity|].
  intros slave. destruct slave; pic_outs; reflexivity.
Qed.

Lemma picinit_run s : 0 <= d_irqmask s < 0xFFFF ->
  exists s', picinit s = Ret tt s' /\ pics_ready s' /\ d_irqmask s' = d_irqmask s /\ (s' = set_d_irqmask (d_irqmask s') (set_d_hw (d_hw s') s)).
Proof.
  intros Hm. destruct (picinit_words s) as (d & -> & Hd). rewrite (proj2 (Z.eqb_neq _ _)) by lia. cbn [negb].
  destruct (picsetmask_run (d_irqmask s) (set_d_hw d s)) as (s' & -> & Hr & E & F & _); [intros; cbn; by rewrite Hd..|].
  exists s'. split_and!; [done|done| |exact F]. rewrite E. unfold u16. apply Z.mod_small. lia.
Qed.

(** [picenable] for each of a list of lines. *)
Fixpoint picenables (irqs : list Z) : prog kstop dstate unit :=
  match irqs with [] => mret tt | irq :: irqs' => picenable (D := D) irq ;; picenables irqs' end.

Lemma picenables_run irqs : forall s, pics_ready s -> Forall (fun q => 0 <= q < 16) irqs ->
  exists s', picenables irqs s = Ret tt s' /\ pics_ready s' /\
    forall i, 0 <= i < 16 -> Z.testbit (d_irqmask s') i = (Z.testbit (d_irqmask s) i && negb (bool_decide (i ∈ irqs)))%bool.
Proof.
  induction irqs as [|q irqs IH]; intros s Hr Hq.
  { exists s. split_and!; [done|done|]. intros. by rewrite andb_true_r. }
  inversion_clear Hq as [|? ? Hq1 Hq2]. destruct (picenable_run q s Hr Hq1) as (s1 & R1 & Hr1 & _ & _ & B1). destruct (IH s1 Hr1 Hq2) as (s' & R' & Hr' & B').
  exists s'. split_and!; [cbn [picenables]; by rewrite (bind_Ret _ _ _ _ _ R1)|done|]. intros i Hi. rewrite B', B1 by done. rewrite <-andb_assoc. f_equal.
  rewrite <-negb_orb. f_equal. destruct (i =? q) eqn:E; [apply Z.eqb_eq in E as ->; symmetry; apply bool_decide_eq_true; left|]. apply Z.eqb_neq in E. cbn [orb].
  apply bool_decide_ext. set_solver.
Qed.

(** Once [picinit] has run, however the two 8259A were left by the BIOS,
    and [picenable] has been called for some lines, the interrupts of those
    lines, and those that the mask of the driver let through before, get
    through, all others are blocked, and the interrupt of line [i] has the
    vector T_IRQ0 + i. *)
Theorem pic_lines_open s irqs : 0 <= d_irqmask s < 0xFFFF -> Forall (fun q => 0 <= q < 16) irqs ->
  exists s', (picinit ;; picenables irqs) s = Ret tt s' /\ forall i, 0 <= i < 16 ->
    line_open (d_hw s') i = (bool_decide (i ∈ irqs) || negb (Z.testbit (d_irqmask s) i))%bool /\ line_vector (d_hw s') i = T_IRQ0 + i.
Proof.
  intros Hm Hq. destruct (picinit_run s Hm) as (s1 & R1 & Hr1 & E1 & _). destruct (picenables_run irqs s1 Hr1 Hq) as (s' & R' & Hr' & B').
  exists s'. split; [by rewrite (bind_Ret _ _ _ _ _ R1)|]. intros i Hi. destruct (ready_line s' i Hr' Hi) as [-> ->]. split; [|done].
  rewrite B', E1 by done. destruct (bool_decide (i ∈ irqs)), (Z.testbit (d_irqmask s) i); reflexivity.
Qed.

(** With every line masked in the variable, [picinit] leaves them all open: the
    initialisation clears the masks and the last step is skipped. *)
Lemma picinit_all_masked s : d_irqmask s = 0xFFFF ->
  exists s', picinit s = Ret tt s' /\ forall i, 0 <= i < 16 -> line_open (d_hw s') i = true.
Proof.
  intros Hm. destruct (picinit_words s) as (d & -> & Hd). rewrite Hm. exists (set_d_hw d s). split; [done|]. intros i _.
  unfold line_open. cbn [d_hw set_d_hw]. rewrite Hd. cbn [pic_mask]. by rewrite Z.testbit_0_l.
Qed.
End pics.

(** ** The timer *)

Section timer.
Context {D : Type} `{!ports D, !pics D, !pits D}.
Implicit Types s : dstate (D := D).

(** [timerinit] programs the count that gives 100 interrupts a second, as close
    as a count can, and opens the line of the timer. *)
Lemma timerinit_run s : pics_ready s ->
  exists s' c, timerinit s = Ret tt s' /\ pics_ready s' /\ line_open (d_hw s') IRQ_TIMER = true /\
    pit_count (pit (d_hw s')) = Some c /\ 2 * Z.abs (100 * c - TIMER_FREQ) <= 100.
Proof.
  intros Hr. unfold timerinit. do 3 dstep.
  match goal with |- context [picenable _ ?s1] => set (s1' := s1) end.
  assert (Hr1 : pics_ready s1').
  { destruct Hr as [H1 H2]. split; [done|]. intros slave. cbn. rewrite <-(H2 slave). rewrite !pic_out.
    destruct slave; repeat (rewrite decide_False by discriminate); reflexivity. }
  destruct (picenable_run IRQ_TIMER s1' Hr1) as (s' & R & Hr' & F & (a & b & W) & B); [unfold IRQ_TIMER; lia|].
  exists s', 11932. split_and!; [exact R|done| | |unfold TIMER_FREQ; lia].
  - destruct (ready_line s' IRQ_TIMER Hr') as [-> _]; [unfold IRQ_TIMER; lia|]. rewrite B by (unfold IRQ_TIMER; lia). by rewrite andb_false_r.
  - rewrite W, !pit_out. cbn [d_hw s1' set_d_hw]. rewrite !pit_out.
    repeat (first [rewrite decide_True by reflexivity | rewrite decide_False by discriminate]).
    unfold pit_byte, pit_control. cbn. reflexivity.
Qed.
End timer.

(** ** The I/O APIC *)

Section ioapic.
Context {D : Type} `{!ports D, !ioapics D}.
Implicit Types s : dstate (D := D).

(** The variables are unchanged but for what was printed. *)
Definition same_but_hw (s s' : dstate (D := D)) : Prop := s' = set_d_hw (d_hw s') s.

Lemma ioapicread_run reg s : d_ioapic s = IOAPIC -> 0 <= reg < 2 ^ 32 ->
  exists s', ioapicread reg s = Ret (io_reg (d_hw s) reg) s' /\ same_but_hw s s' /\ io_reg (d_hw s') = io_reg (d_hw s).
Proof.
  intros Hb Hr. unfold ioapicread. rewrite bind_run. unfold gets at 1. rewrite Hb. do 2 dstep. rewrite u32_small by done.
  destruct (io_select reg (d_hw s)) as [E1 E2]. destruct (io_read (wrl IOAPIC reg (d_hw s))) as [E3 E4].
  eexists. split; [rewrite E3, E1, E2; reflexivity|]. split; [done|]. cbn [d_hw set_d_hw]. by rewrite E4.
Qed.

Lemma ioapicwrite_run reg data s : d_ioapic s = IOAPIC -> REG_TABLE <= reg <= REG_TABLE + 2 * io_last (d_hw s) + 1 ->
  exists s', ioapicwrite reg data s = Ret tt s' /\ same_but_hw s s' /\ forall r, io_reg (d_hw s') r = if decide (r = reg) then u32 data else io_reg (d_hw s) r.
Proof.
  intros Hb Hr. unfold ioapicwrite. rewrite bind_run. unfold gets at 1. rewrite Hb. do 2 dstep.
  assert (Hl : 0 <= io_last (d_hw s) < 256).
  { unfold io_last. change 0xFF with (Z.ones 8). rewrite Z.land_ones by lia. apply Z.mod_pos_bound. lia. }
  unfold REG_TABLE in *. assert (Hu : u32 reg = reg) by (apply u32_small; lia). destruct (io_select (u32 reg) (d_hw s)) as [E1 E2].
  eexists. split; [reflexivity|]. split; [done|]. cbn [d_hw set_d_hw]. intros r. rewrite io_write.
  - by rewrite E1, E2, Hu.
  - unfold io_last. rewrite E1, E2, Hu. exact Hr.
Qed.

(** The entry of line [i] in the redirection table. *)
Definition route (d : D) (i : Z) : Z * Z := (io_reg d (REG_TABLE + 2 * i), io_reg d (REG_TABLE + 2 * i + 1)).

Lemma route_run i lo hi s : d_ioapic s = IOAPIC -> 0 <= i <= io_last (d_hw s) ->
  exists s', (ioapicwrite (REG_TABLE + 2 * i) lo ;; ioapicwrite (REG_TABLE + 2 * i + 1) hi) s = Ret tt s' /\ same_but_hw s s' /\
    io_last (d_hw s') = io_last (d_hw s) /\ forall j, route (d_hw s') j = if decide (j = i) then (u32 lo, u32 hi) else route (d_hw s) j.
Proof.
  intros Hb Hi. destruct (ioapicwrite_run (REG_TABLE + 2 * i) lo s Hb) as (s1 & R1 & F1 & W1); [lia|].
  assert (L1 : io_last (d_hw s1) = io_last (d_hw s)) by (unfold io_last; rewrite W1, decide_False by (unfold REG_VER, REG_TABLE; lia); done).
  destruct (ioapicwrite_run (REG_TABLE + 2 * i + 1) hi s1) as (s2 & R2 & F2 & W2); [by rewrite F1|lia|].
  assert (L2 : io_last (d_hw s2) = io_last (d_hw s1)) by (unfold io_last; rewrite W2, decide_False by (unfold REG_VER, REG_TABLE; lia); done).
  exists s2. split_and!; [by rewrite (bind_Ret _ _ _ _ _ R1)| |congruence|].
  { unfold same_but_hw in *. rewrite F2, F1. done. }
  intros j. unfold route. rewrite !W2, !W1. destruct (decide (j = i)) as [->|Hj].
  - rewrite (decide_False (P := REG_TABLE + 2 * i = _)), decide_True, decide_True by lia. done.
  - by rewrite !decide_False by lia.
Qed.

Lemma ioapicinit_loop_run n : forall i s, d_ioapic s = IOAPIC -> 0 <= i -> i + Z.of_nat n <= io_last (d_hw s) + 1 ->
  exists s', ioapicinit_loop n i s = Ret tt s' /\ same_but_hw s s' /\ io_last (d_hw s') = io_last (d_hw s) /\
    forall j, route (d_hw s') j = if decide (i <= j < i + Z.of_nat n) then (u32 (Z.lor INT_DISABLED (T_IRQ0 + j)), 0) else route (d_hw s) j.
Proof.
  induction n as [|n IH]; intros i s Hb Hi Hn.
  { exists s. split_and!; [done|by destruct s|done|]. intros j. by rewrite decide_False by lia. }
  cbn [ioapicinit_loop]. destruct (route_run i (Z.lor INT_DISABLED (T_IRQ0 + i)) 0 s Hb) as (s1 & R1 & F1 & L1 & W1); [lia|].
  destruct (IH (i + 1) s1) as (s' & R' & F' & L' & W'); [by rewrite F1|lia|lia|].
  exists s'. split_and!; [rewrite <-bind_assoc, (bind_Ret _ _ _ _ _ R1); exact R'| |congruence|].
  { unfold same_but_hw in *. rewrite F', F1. done. }
  intros j. rewrite W', W1. repeat case_decide; try lia; subst; done.
Qed.

Lemma ioapicinit_run s : m_ismp (d_mp s) = true ->
  exists s', ioapicinit s = Ret tt s' /\ m_ismp (d_mp s') = true /\ d_ioapic s' = IOAPIC /\ io_last (d_hw s') = io_last (d_hw s) /\
    forall j, 0 <= j <= io_last (d_hw s) -> route (d_hw s') j = (u32 (Z.lor INT_DISABLED (T_IRQ0 + j)), 0).
Proof.
  intros Hm. unfold ioapicinit. rewrite bind_run. unfold gets at 1. rewrite Hm. cbn [negb]. rewrite bind_run. unfold modify at 1.
  destruct (ioapicread_run REG_VER (set_d_ioapic IOAPIC s)) as (s1 & R1 & F1 & E1); [done|unfold REG_VER; lia|]. rewrite (bind_Ret _ _ _ _ _ R1).
  destruct (ioapicread_run REG_ID s1) as (s2 & R2 & F2 & E2); [by rewrite F1|unfold REG_ID; lia|]. rewrite (bind_Ret _ _ _ _ _ R2).
  match goal with |- context [mbind _ ?m] => assert (H3 : exists out, m s2 = Ret tt (set_d_mp (add_m_out out (d_mp s2)) s2)) end.
  { destruct (negb _); [by eexists|]. exists []. unfold add_m_out. rewrite app_nil_r. by destruct s2 as [[] ? ? ? ? ?]. }
  destruct H3 as [out R3]. rewrite (bind_Ret _ _ _ _ _ R3). cbn [d_hw set_d_ioapic] in *. fold (io_last (d_hw s)).
  assert (L2 : io_last (d_hw s2) = io_last (d_hw s)) by (unfold io_last; by rewrite E2, E1).
  assert (Hl : 0 <= io_last (d_hw s)) by (unfold io_last; apply Z.land_nonneg; lia).
  edestruct (ioapicinit_loop_run (Z.to_nat (io_last (d_hw s) + 1)) 0 (set_d_mp (add_m_out out (d_mp s2)) s2)) as (s' & R' & F' & L' & W').
  { cbn. by rewrite F2, F1. } { lia. } { cbn [d_hw set_d_mp]. lia. }
  exists s'. split_and!; [exact R'|rewrite F'; cbn; by rewrite F2, F1|rewrite F'; cbn; by rewrite F2, F1|by rewrite L'|].
  intros j Hj. rewrite W', decide_True by lia. done.
Qed.

Lemma ioapicenable_run irq cpu s : m_ismp (d_mp s) = true -> d_ioapic s = IOAPIC -> 0 <= irq <= io_last (d_hw s) ->
  exists s', ioapicenable irq cpu s = Ret tt s' /\ same_but_hw s s' /\ io_last (d_hw s') = io_last (d_hw s) /\
    forall j, route (d_hw s') j = if decide (j = irq) then (u32 (T_IRQ0 + irq), u32 (Z.shiftl cpu 24)) else route (d_hw s) j.
Proof.
  intros Hm Hb Hi. destruct (route_run irq (T_IRQ0 + irq) (Z.shiftl cpu 24) s Hb Hi) as (s' & R & H).
  exists s'. split; [|exact H]. unfold ioapicenable. rewrite bind_run. unfold gets at 1. by rewrite Hm.
Qed.

(** [ioapicenable] for each of a list of lines with its processor. *)
Fixpoint ioapicenables (ens : list (Z * Z)) : prog kstop dstate unit :=
  match ens with [] => mret tt | e :: ens' => ioapicenable (D := D) e.1 e.2 ;; ioapicenables ens' end.

Lemma ioapicenables_run ens : forall s, m_ismp (d_mp s) = true -> d_ioapic s = IOAPIC -> Forall (fun e => 0 <= e.1 <= io_last (d_hw s)) ens -> NoDup ens.*1 ->
  exists s', ioapicenables ens s = Ret tt s' /\
    forall j, route (d_hw s') j = match (list_to_map ens : gmap Z Z) !! j with Some cpu => (u32 (T_IRQ0 + j), u32 (Z.shiftl cpu 24)) | None => route (d_hw s) j end.
Proof.
  induction ens as [|[q c] ens IH]; intros s Hm Hb Hq Hn; [by exists s|]. inversion_clear Hq as [|? ? Hq1 Hq2]. inversion_clear Hn as [|? ? Hn1 Hn2]. cbn [fst snd] in *.
  destruct (ioapicenable_run q c s Hm Hb Hq1) as (s1 & R1 & F1 & L1 & W1). destruct (IH s1) as (s' & R' & W'); [by rewrite F1|by rewrite F1|by rewrite L1|done|].
  exists s'. split; [cbn [ioapicenables fst snd]; by rewrite (bind_Ret _ _ _ _ _ R1)|]. intros j. rewrite W', W1. cbn [list_to_map foldr uncurry fst snd]. destruct (decide (j = q)) as [->|Hj].
  - by rewrite lookup_insert_eq, (not_elem_of_list_to_map_1 _ _ Hn1).
  - by rewrite lookup_insert_ne by done.
Qed.

(** What the I/O APIC does with an interrupt of line [j]: the vector and the
    processor, or nothing. *)
Definition delivers (d : D) (j : Z) : option (Z * Z) :=
  if Z.testbit (route d j).1 16 then None else Some (Z.land (route d j).1 0xFF, Z.shiftr (route d j).2 24).

(** After [ioapicinit] on a multiprocessor, and [ioapicenable] for some
    lines, the I/O APIC delivers the interrupts of those lines to the
    processors given, line [j] with the vector T_IRQ0 + j, and those of no
    other line. *)
Theorem ioapic_delivers s ens : m_ismp (d_mp s) = true -> NoDup ens.*1 ->
  Forall (fun e => 0 <= e.1 <= io_last (d_hw s) /\ T_IRQ0 + e.1 < 256 /\ 0 <= e.2 < 256) ens ->
  exists s', (ioapicinit ;; ioapicenables ens) s = Ret tt s' /\ forall j, 0 <= j <= io_last (d_hw s) ->
    delivers (d_hw s') j = (fun cpu => (T_IRQ0 + j, cpu)) <$> (list_to_map ens : gmap Z Z) !! j.
Proof.
  intros Hm Hn Hq. destruct (ioapicinit_run s Hm) as (s1 & R1 & Hm1 & Hb1 & L1 & W1).
  destruct (ioapicenables_run ens s1 Hm1 Hb1) as (s' & R' & W'); [eapply Forall_impl; [exact Hq|]; intros ? [? ?]; by rewrite L1|done|].
  exists s'. split; [by rewrite (bind_Ret _ _ _ _ _ R1)|]. intros j Hj. unfold delivers. rewrite W'. destruct (list_to_map ens !! j) as [cpu|] eqn:E.
  - apply elem_of_list_to_map_2 in E. rewrite Forall_forall in Hq. destruct (Hq _ E) as (_ & H2 & H3). cbn [fst snd] in *. unfold T_IRQ0 in *.
    rewrite !u32_small by (rewrite ?Z.shiftl_mul_pow2 by lia; lia). cbn [fst snd].
    rewrite (Z.bits_above_log2 (32 + j) 16); [|lia|apply Z.log2_lt_pow2; lia]. change 0xFF with (Z.ones 8). rewrite Z.land_ones, Z.mod_small by lia.
    rewrite Z.shiftr_shiftl_l, Z.shiftl_0_r by lia. done.
  - rewrite W1 by done. cbn [fst]. unfold u32. rewrite Z.mod_pow2_bits_low by lia.
    rewrite Z.lor_spec. change (Z.testbit INT_DISABLED 16) with true. done.
Qed.
End ioapic.

(** ** The serial port *)

Section uart.
Context {D : Type} `{!ports D, !pics D, !ioapics D, !uarts D}.
Implicit Types s : dstate (D := D).

(** What the driver of the serial port leaves alone. *)
Lemma uart_wait_frame {A} (f : D -> A) n : (forall p d, f (inb p d).2 = f d) -> forall s s', uart_wait n s = Ret tt s' -> f (d_hw s') = f (d_hw s).
Proof.
  intros Hf. induction n as [|n IH]; intros s s' R; cbn [uart_wait] in R; [by injection R as <-|]. rewrite (bind_Ret _ _ _ _ _ (in8_run _ _)) in R.
  destruct (flag _ _); [injection R as <-; apply Hf|]. change (uart_wait n (set_d_hw (inb (COM1 + 5) (d_hw s)).2 s) = Ret tt s') in R. rewrite (IH _ _ R). apply Hf.
Qed.
Lemma uart_announce_frame {A} (f : D -> A) p : (forall p d, f (inb p d).2 = f d) -> (forall v d, f (outb COM1 v d) = f d) ->
  forall s s', uart_announce p s = Ret tt s' -> f (d_hw s') = f (d_hw s).
Proof.
  intros Hi Ho. induction p as [|c p IH]; intros s s' R; cbn [uart_announce] in R; [by injection R as <-|].
  unfold uartputc in R. rewrite bind_assoc, bind_run in R. unfold gets at 1 in R. destruct (d_uart s); cbn [negb] in R; [|by apply IH in R].
  rewrite bind_assoc, bind_run in R. destruct (uart_wait 128 s) as [[] s1|] eqn:R1; [|done]. rewrite (bind_Ret _ _ _ _ _ (out8_run _ _ _)) in R.
  rewrite (IH _ _ R). cbn [d_hw set_d_hw]. rewrite Ho. by eapply uart_wait_frame.
Qed.
Lemma ioapicenable_frame {A} (f : D -> A) irq cpu s s' : (forall a v d, f (wrl a v d) = f d) -> ioapicenable irq cpu s = Ret tt s' -> f (d_hw s') = f (d_hw s).
Proof.
  intros Hf. unfold ioapicenable. rewrite bind_run. unfold gets at 1. destruct (negb _); [by intros [= <-]|]. unfold ioapicwrite.
  rewrite bind_assoc, bind_run. unfold gets at 1. rewrite bind_assoc. do 2 dstep. rewrite bind_run. unfold gets at 1. cbn [d_ioapic]. do 2 dstep.
  intros [= <-]. cbn [d_hw set_d_hw]. by rewrite !Hf.
Qed.

Lemma uart_wait_run n : com_present = true -> forall s, (com_delay (d_hw s) <= n)%nat ->
  exists s', uart_wait n s = Ret tt s' /\ same_but_hw s s' /\ com_delay (d_hw s') = O.
Proof.
  intros Hp. induction n as [|n IH]; intros s Hn; cbn [uart_wait]; [exists s; split_and!; [done|by destruct s|lia]|]. dstep.
  destruct (com_poll (d_hw s) Hp) as (-> & E & _). destruct (com_delay (d_hw s)) as [|k] eqn:Ek; cbn [Nat.eqb pred] in *.
  - eexists. split_and!; [reflexivity|done|done].
  - destruct (IH (set_d_hw (inb (COM1 + 5) (d_hw s)).2 s)) as (s' & R & F & Z'); [cbn [d_hw set_d_hw]; lia|].
    exists s'. split_and!; [exact R|rewrite F; done|done].
Qed.

(** A character goes out if the port gets ready within 128 polls. *)
Lemma uartputc_run c s : com_present = true -> d_uart s = true -> unlocked (d_hw s) = false -> (com_delay (d_hw s) <= 128)%nat ->
  exists s', uartputc c s = Ret tt s' /\ same_but_hw s s' /\ unlocked (d_hw s') = false /\ sent (d_hw s') = sent (d_hw s) ++ [u8 c].
Proof.
  intros Hp Hu Hl Hd. unfold uartputc. rewrite bind_run. unfold gets at 1. rewrite Hu. cbn [negb].
  destruct (uart_wait_run 128 Hp s Hd) as (s1 & R1 & F1 & Z1). rewrite (bind_Ret _ _ _ _ _ R1). dstep. eexists. split; [reflexivity|].
  assert (U1 : unlocked (d_hw s1) = unlocked (d_hw s)) by (eapply (uart_wait_frame unlocked); [intros; apply com_in|exact R1]).
  assert (S1 : sent (d_hw s1) = sent (d_hw s)) by (eapply (uart_wait_frame sent); [intros; apply com_in|exact R1]).
  destruct (com_data (u8 c) (d_hw s1)) as (E1 & _ & E2). rewrite U1 in *. split_and!; [rewrite F1; done|cbn [d_hw set_d_hw]; congruence|].
  cbn [d_hw set_d_hw]. rewrite E2 by done. by rewrite S1.
Qed.

Lemma uart_announce_run p : com_present = true -> (forall d, com_delay d <= 128)%nat -> forall s, d_uart s = true -> unlocked (d_hw s) = false ->
  exists s', uart_announce p s = Ret tt s' /\ same_but_hw s s' /\ unlocked (d_hw s') = false /\ sent (d_hw s') = sent (d_hw s) ++ map u8 p.
Proof.
  intros Hp Hd. induction p as [|c p IH]; intros s Hu Hl; [exists s; split_and!; [done|by destruct s|done|by rewrite app_nil_r]|]. cbn [uart_announce map].
  destruct (uartputc_run c s Hp Hu Hl (Hd _)) as (s1 & R1 & F1 & L1 & S1). destruct (IH s1) as (s' & R' & F' & L' & S'); [by rewrite F1|done|].
  exists s'. split_and!; [by rewrite (bind_Ret _ _ _ _ _ R1)|unfold same_but_hw in *; rewrite F', F1; done|done|]. by rewrite S', S1, <-app_assoc.
Qed.

(** The board after the configuration of the port. *)
Definition configured (d : D) : D :=
  outb (COM1 + 1) 1 (outb (COM1 + 4) 0 (outb (COM1 + 3) 3 (outb (COM1 + 1) 0 (outb (COM1 + 0) 12 (outb (COM1 + 3) 128 (outb (COM1 + 2) 0 d)))))).

Lemma configured_port d : unlocked (configured d) = false /\ sent (configured d) = sent d.
Proof.
  unfold configured. set (d2 := outb (COM1 + 3) 128 (outb (COM1 + 2) 0 d)). set (d3 := outb (COM1 + 0) 12 d2).
  assert (H2 : unlocked d2 = true /\ sent d2 = sent d).
  { subst d2. split; [by rewrite (proj2 (com_out (COM1 + 3) _ _ ltac:(discriminate)))|]. by rewrite !(fun p v d H => proj1 (com_out p v d H)) by discriminate. }
  destruct H2 as [U2 S2]. destruct (com_data 12 d2) as (_ & S3 & _). change (COM1 + 0) with COM1 in (value of d3). change (outb COM1 12 d2) with d3 in S3.
  split.
  - rewrite !(fun p v d H => proj2 (com_out p v d H)) by discriminate. repeat (first [rewrite decide_True by reflexivity | rewrite decide_False by discriminate]). done.
  - rewrite !(fun p v d H => proj1 (com_out p v d H)) by discriminate. rewrite S3 by done. done.
Qed.
Lemma configured_pic d slave : pic (configured d) slave = pic d slave.
Proof. unfold configured. rewrite !pic_out. destruct slave; repeat (rewrite decide_False by discriminate); reflexivity. Qed.

Lemma uartinit_present s : com_present = true -> uartinit s = (
    picenable IRQ_COM1 ;;
    ioapicenable IRQ_COM1 0 ;;
    uart_announce (chars "xv6..." ++ [10]))
  (set_d_uart true (set_d_hw (inb COM1 (inb (COM1 + 2) (inb (COM1 + 5) (configured (d_hw s))).2).2).2 s)).
Proof.
  intros Hp. unfold uartinit. do 8 dstep. fold (configured (d_hw s)). rewrite (proj2 (Z.eqb_neq _ _)).
  - rewrite bind_run. unfold modify at 1. do 2 dstep. reflexivity.
  - intros H. apply com_status in H. congruence.
Qed.

(** Without a port nothing happens that matters. *)
Lemma uartinit_absent s : com_present = false -> uartinit s = Ret tt (set_d_hw (inb (COM1 + 5) (configured (d_hw s))).2 s).
Proof.
  intros Hp. unfold uartinit. do 8 dstep. fold (configured (d_hw s)). by rewrite (proj2 (Z.eqb_eq _ _)) by (by apply com_status).
Qed.

(** [ioapicenable] for a line that exists, on either kind of machine. *)
Definition ioapic_ready (s : dstate (D := D)) (irq : Z) : Prop :=
  m_ismp (d_mp s) = true -> d_ioapic s = IOAPIC /\ 0 <= irq <= io_last (d_hw s) /\ T_IRQ0 + irq < 256.
Lemma ioapicenable_any irq s : ioapic_ready s irq -> exists s', ioapicenable irq 0 s = Ret tt s' /\ same_but_hw s s' /\
  (m_ismp (d_mp s) = true -> delivers (d_hw s') irq = Some (T_IRQ0 + irq, 0)).
Proof.
  intros Hi. destruct (m_ismp (d_mp s)) eqn:Hm.
  - destruct (Hi Hm) as (Hb & Hq & Hv). destruct (ioapicenable_run irq 0 s Hm Hb Hq) as (s' & R & F & L & W). exists s'. split_and!; [done|done|]. intros _.
    unfold delivers. rewrite W, decide_True by done. cbn [fst snd]. unfold T_IRQ0 in *. rewrite u32_small by lia.
    rewrite (Z.bits_above_log2 (32 + irq) 16); [|lia|apply Z.log2_lt_pow2; lia]. change 0xFF with (Z.ones 8). by rewrite Z.land_ones, Z.mod_small by lia.
  - exists s. unfold ioapicenable. rewrite bind_run. unfold gets at 1. rewrite Hm. split_and!; [done|by destruct s|done].
Qed.


(** The characters that an interrupt of the port hands to the console: all that
    the port delivers, in order. *)
Lemma uartintr_reads cs : com_present = true -> forall fuel s, d_uart s = true -> unlocked (d_hw s) = false -> incoming (d_hw s) = cs -> (length cs < fuel)%nat ->
  exists s', uartintr_chars fuel s = Ret cs s' /\ same_but_hw s s'.
Proof.
  intros Hp. induction cs as [|c cs IH]; intros fuel s Hu Hl Hc Hf; (destruct fuel as [|fuel]; [cbn in Hf; lia|]); cbn [uartintr_chars length] in *;
    unfold uartgetc; rewrite bind_assoc, bind_run; unfold gets at 1; rewrite Hu; cbn [negb]; rewrite bind_assoc; dstep;
    destruct (com_poll (d_hw s) Hp) as (_ & _ & -> & E); rewrite Hc in *; cbn [bool_decide negb].
  - eexists. split; [reflexivity|done].
  - destruct (com_recv (inb (COM1 + 5) (d_hw s)).2 c cs) as (Hr & E1 & E2); [by apply E|by rewrite (proj2 (com_in _ _))|].
    rewrite bool_decide_eq_false_2 by done. cbn [negb]. change (COM1 + 0) with COM1. dstep. rewrite E1. rewrite (proj2 (Z.leb_le 0 c)) by lia.
    edestruct (IH fuel (set_d_hw (inb COM1 (inb (COM1 + 5) (d_hw s)).2).2 (set_d_hw (inb (COM1 + 5) (d_hw s)).2 s))) as (s' & R' & F');
      [done|cbn [d_hw set_d_hw]; by rewrite !(proj2 (com_in _ _))|exact E2|lia|].
    exists s'. split; [by rewrite (bind_Ret _ _ _ _ _ R')|]. rewrite F'. done.
Qed.
End uart.

(** ** The local APIC *)

Section lapic.
Context {D : Type} `{!ports D, !lapics D}.
Implicit Types s : dstate (D := D).

(** Registers with their values; only those outside [EOI], [ESR] and [ICRLO] are
    listed, since these read differently from what was written. *)
Definition holds (R : list (Z * Z)) (d : D) : Prop := Forall (fun e => lapic_reg d e.1 = e.2) R.
Definition plain (R : list (Z * Z)) : bool := forallb (fun e => bool_decide (e.1 ∉ [EOI; ESR; ICRLO])) R.
Definition fresh_in (i : Z) (R : list (Z * Z)) : bool := bool_decide (i ∉ R.*1).

Lemma holds_ext R d d' : (forall e, e ∈ R -> lapic_reg d' e.1 = lapic_reg d e.1) -> holds R d -> holds R d'.
Proof. unfold holds. rewrite !Forall_forall. intros H H0 e He. rewrite H by done. by apply H0. Qed.
Lemma plain_in R e : plain R = true -> e ∈ R -> e.1 ∉ [EOI; ESR; ICRLO].
Proof. intros H He. unfold plain in H. rewrite forallb_forall in H. specialize (H e). rewrite bool_decide_eq_true in H. apply H, list_elem_of_In, He. Qed.

(** The driver has the address of the APIC. *)
Definition lapic_found (s : dstate (D := D)) : Prop := m_lapic (d_mp s) = lapic_base.

Lemma lapicr_run i s : lapic_found s -> exists s', lapicr i s = Ret (rdl (lapic_base + 4 * i) (d_hw s)).1 s' /\
  same_but_hw s s' /\ lapic_found s' /\ d_hw s' = (rdl (lapic_base + 4 * i) (d_hw s)).2.
Proof. intros Hf. unfold lapicr. rewrite bind_run. unfold gets at 1. rewrite Hf. dstep. eexists. split_and!; done. Qed.
Lemma lapicw_any i v s : lapic_found s -> exists s', lapicw i v s = Ret tt s' /\ same_but_hw s s' /\ lapic_found s' /\
  lapic_reg (d_hw s') = lapic_reg (wrl (lapic_base + 4 * i) (u32 v) (d_hw s)) /\ ipis (d_hw s') = ipis (wrl (lapic_base + 4 * i) (u32 v) (d_hw s)).
Proof.
  intros Hf. unfold lapicw. rewrite bind_run. unfold gets at 1. rewrite Hf. dstep.
  destruct (lapicr_run ID (set_d_hw (wrl (lapic_base + 4 * i) (u32 v) (d_hw s)) s)) as (s' & R & F & L & E); [done|].
  rewrite (bind_Ret _ _ _ _ _ R). destruct (lapic_read ID (wrl (lapic_base + 4 * i) (u32 v) (d_hw s)) ltac:(done)) as (E1 & E2 & _).
  exists s'. cbn [d_hw set_d_hw] in E. split_and!; [done|rewrite F; done|done|by rewrite E, E1|by rewrite E, E2].
Qed.

Lemma lapicw_reg i v s R : lapic_found s -> holds R (d_hw s) ->
  i ∈ [SVR; TDCR; TIMER; TICR; LINT0; LINT1; PCINT; ERROR; ICRHI; TPR] -> fresh_in i R = true ->
  exists s', lapicw i v s = Ret tt s' /\ same_but_hw s s' /\ lapic_found s' /\ holds ((i, u32 v) :: R) (d_hw s') /\ ipis (d_hw s') = ipis (d_hw s).
Proof.
  intros Hf Hh Hi Hn. destruct (lapicw_any i v s Hf) as (s' & R' & F & L & E1 & E2). destruct (lapic_write i (u32 v) (d_hw s) Hi) as [W1 W2].
  exists s'. split_and!; [done..| |by rewrite E2, W2]. unfold fresh_in in Hn. rewrite bool_decide_eq_true in Hn.
  constructor; [cbn; by rewrite E1, W1, decide_True|]. eapply holds_ext; [|exact Hh]. intros e He. rewrite E1, W1, decide_False; [done|].
  intros <-. apply Hn. by apply list_elem_of_fmap_2.
Qed.
Lemma lapicw_ack i v s R : lapic_found s -> holds R (d_hw s) -> i ∈ [EOI; ESR] -> plain R = true ->
  exists s', lapicw i v s = Ret tt s' /\ same_but_hw s s' /\ lapic_found s' /\ holds R (d_hw s') /\ ipis (d_hw s') = ipis (d_hw s).
Proof.
  intros Hf Hh Hi Hn. destruct (lapicw_any i v s Hf) as (s' & R' & F & L & E1 & E2). destruct (lapic_ack i (u32 v) (d_hw s) Hi) as [W1 W2].
  exists s'. split_and!; [done..| |by rewrite E2, W2]. eapply holds_ext; [|exact Hh]. intros e He. rewrite E1, W1; [done|]. pose proof (plain_in R e Hn He). set_solver.
Qed.
Lemma lapicw_send v hi s R : lapic_found s -> holds R (d_hw s) -> plain R = true -> (ICRHI, hi) ∈ R ->
  exists s', lapicw ICRLO v s = Ret tt s' /\ same_but_hw s s' /\ lapic_found s' /\ holds R (d_hw s') /\ ipis (d_hw s') = ipis (d_hw s) ++ [(hi, u32 v)].
Proof.
  intros Hf Hh Hn Hi. destruct (lapicw_any ICRLO v s Hf) as (s' & R' & F & L & E1 & E2). destruct (lapic_send (u32 v) (d_hw s)) as [W1 W2].
  exists s'. split_and!; [done..| |]. { eapply holds_ext; [|exact Hh]. intros e He. rewrite E1, W1; [done|]. pose proof (plain_in R e Hn He). set_solver. }
  rewrite E2, W2. unfold holds in Hh. rewrite Forall_forall in Hh. pose proof (Hh _ Hi) as E. cbn [fst snd] in E. by rewrite E.
Qed.

Lemma lapic_wait_run R fuel : forall s, lapic_found s -> holds R (d_hw s) -> (ipi_delay (d_hw s) < fuel)%nat ->
  exists s', lapic_wait fuel s = Ret tt s' /\ same_but_hw s s' /\ lapic_found s' /\ holds R (d_hw s') /\ ipis (d_hw s') = ipis (d_hw s).
Proof.
  induction fuel as [|fuel IH]; intros s Hf Hh Hd; [lia|]. cbn [lapic_wait]. destruct (lapicr_run ICRLO s Hf) as (s1 & R1 & F1 & L1 & E1). rewrite (bind_Ret _ _ _ _ _ R1).
  destruct (lapic_sending (d_hw s)) as [-> D1]. destruct (lapic_read ICRLO (d_hw s) ltac:(done)) as (A1 & A2 & _). rewrite <-E1 in A1, A2, D1.
  assert (Hh1 : holds R (d_hw s1)) by (eapply holds_ext; [|exact Hh]; intros; by rewrite A1).
  destruct (ipi_delay (d_hw s)) as [|k]; cbn [Nat.eqb negb pred] in *; [by exists s1|].
  destruct (IH s1 L1 Hh1) as (s' & R' & F' & L' & H' & I'); [lia|]. exists s'. split_and!; [done|unfold same_but_hw in *; rewrite F', F1; done|done|done|congruence].
Qed.

(** The next write of a run; [HF], [HH] and [HI] say where the run is. *)
Ltac lapic_step lem HF HH HI :=
  let s' := fresh "s" in let R := fresh "R" in let F' := fresh "F" in let L' := fresh "L" in let H' := fresh "H" in let I' := fresh "I" in
  edestruct lem as (s' & R & F' & L' & H' & I'); [exact HF|exact HH|..|
    first [rewrite (bind_Ret _ _ _ _ _ R) | rewrite R]; rewrite HI in I'; clear HF HH HI R F'; rename L' into HF; rename H' into HH; rename I' into HI];
  [first [reflexivity | set_solver]..|].

(** The registers that [lapicinit] sets before it looks at the version. *)
Definition lapic_table : list (Z * Z) :=
  [(LINT1, MASKED); (LINT0, MASKED); (TICR, 10000000); (TIMER, Z.lor PERIODIC (T_IRQ0 + IRQ_TIMER)); (TDCR, X1); (SVR, Z.lor ENABLE (T_IRQ0 + IRQ_SPURIOUS))].

(** The registers once it has, for a version of at least 4 or not. *)
Definition lapic_table2 (ver : Z) (b : bool) : list (Z * Z) := (if b then [(PCINT, MASKED)] else []) ++ lapic_table ++ [(VER, ver)].

Lemma lapicinit_tail ver b fuel s I0 : lapic_found s -> holds (lapic_table2 ver b) (d_hw s) -> ipis (d_hw s) = I0 -> (ipi_patience <= fuel)%nat ->
  exists s', (lapicw ERROR (T_IRQ0 + IRQ_ERROR) ;; lapicw ESR 0 ;; lapicw ESR 0 ;; lapicw EOI 0 ;; lapicw ICRHI 0 ;;
    lapicw ICRLO (Z.lor (Z.lor BCAST INIT) LEVEL) ;; lapic_wait fuel ;; lapicw TPR 0) s = Ret tt s' /\
    holds ((TPR, 0) :: (ICRHI, 0) :: (ERROR, T_IRQ0 + IRQ_ERROR) :: lapic_table2 ver b) (d_hw s') /\ ipis (d_hw s') = I0 ++ [(0, Z.lor (Z.lor BCAST INIT) LEVEL)].
Proof.
  intros HF HH HI Hfu. destruct b; cbn [lapic_table2 app lapic_table] in *.
  all: lapic_step (lapicw_reg ERROR (T_IRQ0 + IRQ_ERROR) s) HF HH HI.
  all: lapic_step (lapicw_ack ESR 0 s0) HF HH HI. all: lapic_step (lapicw_ack ESR 0 s1) HF HH HI.
  all: lapic_step (lapicw_ack EOI 0 s2) HF HH HI. all: lapic_step (lapicw_reg ICRHI 0 s3) HF HH HI.
  all: lapic_step (lapicw_send (Z.lor (Z.lor BCAST INIT) LEVEL) 0 s4) HF HH HI.
  all: edestruct (lapic_wait_run _ fuel s5 HF HH) as (s6 & R6 & _ & L6 & H6 & I6); [pose proof (ipi_bound (d_hw s5)); lia|]; rewrite (bind_Ret _ _ _ _ _ R6); rewrite HI in I6.
  all: clear HF HH HI; lapic_step (lapicw_reg TPR 0 s6) L6 H6 I6; eexists; split_and!; [reflexivity|exact H6|exact I6].
Qed.

(** [lapicinit] returns, since the APIC reports the delivery of the
    interrupt it sends, and leaves the local APIC enabled with the vector of
    spurious interrupts, a periodic timer on the vector of the timer, the two
    local lines masked, the performance counter masked where the version has
    it, the error vector, no priority threshold, and exactly one INIT
    deassertion sent to all processors; without a local APIC it does nothing. *)
Theorem lapicinit_programs fuel s : (m_lapic (d_mp s) = lapic_base \/ m_lapic (d_mp s) = 0) -> (ipi_patience <= fuel)%nat ->
  exists s', lapicinit fuel s = Ret tt s' /\
    if m_lapic (d_mp s) =? 0 then s' = s
    else
      holds ([(TPR, 0); (ERROR, T_IRQ0 + IRQ_ERROR)] ++ lapic_table) (d_hw s') /\
      (4 <= Z.land (Z.shiftr (lapic_reg (d_hw s) VER) 16) 0xFF -> lapic_reg (d_hw s') PCINT = MASKED) /\
      ipis (d_hw s') = ipis (d_hw s) ++ [(0, Z.lor (Z.lor BCAST INIT) LEVEL)].
Proof.
  intros Hb Hfu. unfold lapicinit. rewrite bind_run. unfold gets at 1. destruct (m_lapic (d_mp s) =? 0) eqn:E0; [by exists s|].
  assert (HF : lapic_found s) by (destruct Hb as [Hb|Hb]; [done|]; rewrite Hb in E0; done). set (ver := lapic_reg (d_hw s) VER).
  assert (HH : holds [(VER, ver)] (d_hw s)) by (repeat constructor). assert (HI : ipis (d_hw s) = ipis (d_hw s)) by done.
  remember (ipis (d_hw s)) as I0 eqn:EI in HI at 2. rewrite <-EI. clear EI Hb.
  lapic_step (lapicw_reg SVR (Z.lor ENABLE (T_IRQ0 + IRQ_SPURIOUS)) s) HF HH HI. lapic_step (lapicw_reg TDCR X1 s0) HF HH HI.
  lapic_step (lapicw_reg TIMER (Z.lor PERIODIC (T_IRQ0 + IRQ_TIMER)) s1) HF HH HI. lapic_step (lapicw_reg TICR 10000000 s2) HF HH HI.
  lapic_step (lapicw_reg LINT0 MASKED s3) HF HH HI. lapic_step (lapicw_reg LINT1 MASKED s4) HF HH HI.
  destruct (lapicr_run VER s5 HF) as (s6 & R6 & _ & L6 & E6). rewrite (bind_Ret _ _ _ _ _ R6). destruct (lapic_read VER (d_hw s5) ltac:(done)) as (A1 & A2 & A3).
  rewrite A3 by done. rewrite <-E6 in A1, A2. assert (H6 : holds (lapic_table2 ver false) (d_hw s6)) by (eapply holds_ext; [intros; by rewrite A1|exact HH]).
  rewrite HI in A2. assert (V5 : lapic_reg (d_hw s5) VER = ver) by (unfold holds in HH; rewrite Forall_forall in HH; apply (HH (VER, ver)); set_solver). rewrite V5.
  clear HF HH HI A1 A3 R6. destruct (4 <=? Z.land (Z.shiftr ver 16) 255) eqn:Ev.
  - lapic_step (lapicw_reg PCINT MASKED s6) L6 H6 A2. destruct (lapicinit_tail ver true fuel s7 I0 L6 H6 A2 Hfu) as (s' & R' & H' & I').
    exists s'. split_and!; [exact R'|..|exact I']; unfold holds in *; rewrite Forall_forall in *.
    + intros e He. apply H'. set_solver.
    + intros _. apply (H' (PCINT, MASKED)). set_solver.
  - destruct (lapicinit_tail ver false fuel s6 I0 L6 H6 A2 Hfu) as (s' & R' & H' & I'). apply Z.leb_gt in Ev.
    rewrite ret_bind. exists s'. split_and!; [exact R'| |lia|exact I']. unfold holds in *; rewrite Forall_forall in *. intros e He. apply H'. set_solver.
Qed.

(** The two words of the warm reset vector as an address of real mode. *)
Definition warm_reset (m : mem) : Z := 16 * le_dec (ld m (p2v 0x469) 2) + le_dec (ld m (p2v 0x467) 2).

Lemma warm_reset_written m addr : 0 <= addr < 2 ^ 20 -> addr mod 16 = 0 ->
  warm_reset (st (st m (p2v 0x467) (le_enc 2 0)) (p2v 0x467 + 2) (le_enc 2 (u16 (Z.shiftr addr 4)))) = addr.
Proof.
  intros Ha Hm. unfold warm_reset. replace (p2v 0x467 + 2) with (p2v 0x469) by reflexivity.
  pose proof (ld_st_eq (st m (p2v 0x467) (le_enc 2 0)) (p2v 0x469) (le_enc 2 (u16 (Z.shiftr addr 4))) (le_enc_bytes _ _)) as E1.
  rewrite length_le_enc in E1. rewrite E1. rewrite ld_st_ne by (left; change (p2v 0x469) with (p2v 0x467 + 2); lia).
  pose proof (ld_st_eq m (p2v 0x467) (le_enc 2 0) (le_enc_bytes _ _)) as E2. rewrite length_le_enc in E2. rewrite E2.
  rewrite !le_dec_enc by first [apply u16_range | lia]. unfold u16. rewrite Z.shiftr_div_pow2 by lia. Z.to_euclidean_division_equations; lia.
Qed.

Lemma startap_loop_run n apicid addr : forall s I0, lapic_found s -> ipis (d_hw s) = I0 ->
  exists s', startap_loop n apicid addr s = Ret tt s' /\ same_but_hw s s' /\
    ipis (d_hw s') = I0 ++ replicate n (u32 (Z.shiftl apicid 24), u32 (Z.lor STARTUP (Z.shiftr addr 12))).
Proof.
  induction n as [|n IH]; intros s I0 HF HI; [exists s; split_and!; [done|by destruct s|by rewrite app_nil_r]|]. cbn [startap_loop replicate].
  destruct (lapicw_reg ICRHI (Z.shiftl apicid 24) s [] HF) as (s1 & R1 & F1 & L1 & H1 & I1); [constructor|set_solver|reflexivity|]. rewrite (bind_Ret _ _ _ _ _ R1).
  destruct (lapicw_send (Z.lor STARTUP (Z.shiftr addr 12)) (u32 (Z.shiftl apicid 24)) s1 _ L1 H1) as (s2 & R2 & F2 & L2 & _ & I2); [reflexivity|left|]. rewrite (bind_Ret _ _ _ _ _ R2).
  change (microdelay 200) with (mret () : prog kstop (dstate (D := D)) unit). rewrite ret_bind.
  destruct (IH s2 _ L2 eq_refl) as (s' & R' & F' & I'). exists s'. split_and!; [done|unfold same_but_hw in *; rewrite F', F2, F1; done|].
  rewrite I', I2, I1, HI. by rewrite <-app_assoc.
Qed.

(** [lapicstartap] sends to the processor [apicid] an INIT, its
    deassertion and two STARTUP interrupts, in this order and nothing else;
    the vector of the STARTUP interrupts and the warm reset vector in memory
    both lead to the page [addr] where the entry code is. *)
Theorem lapicstartap_starts apicid addr s : lapic_found s -> 0 <= apicid < 256 -> 0 <= addr < 2 ^ 20 -> addr mod 4096 = 0 ->
  exists s' sipi, lapicstartap apicid addr s = Ret tt s' /\
    ipis (d_hw s') = ipis (d_hw s) ++ map (pair (apicid * 2 ^ 24)) [Z.lor (Z.lor INIT LEVEL) ASSERT; Z.lor INIT LEVEL; sipi; sipi] /\
    Z.shiftr sipi 8 = Z.shiftr STARTUP 8 /\ 4096 * Z.land sipi 0xFF = addr /\ warm_reset (m_mem (d_mp s')) = addr.
Proof.
  intros Hf Ha Hd Hp. unfold lapicstartap. do 2 dstep. rewrite bind_run. unfold modify at 1. rewrite bind_run. unfold modify at 1.
  cbn [d_mp d_hw set_d_mp m_mem set_m_mem]. match goal with |- context [mbind _ (lapicw ICRHI _) ?s0] => set (s1 := s0) end.
  assert (HF : lapic_found s1) by exact Hf.
  assert (HI : ipis (d_hw s1) = ipis (d_hw s)) by (subst s1; cbn [d_hw set_d_mp set_d_hw]; by rewrite !(fun p v d => proj2 (lapic_out p v d))).
  destruct (lapicw_reg ICRHI (Z.shiftl apicid 24) s1 [] HF) as (s2 & R2 & F2 & L2 & H2 & I2); [constructor|set_solver|reflexivity|]. rewrite (bind_Ret _ _ _ _ _ R2).
  destruct (lapicw_send (Z.lor (Z.lor INIT LEVEL) ASSERT) (u32 (Z.shiftl apicid 24)) s2 _ L2 H2) as (s3 & R3 & F3 & L3 & H3 & I3); [reflexivity|left|]. rewrite (bind_Ret _ _ _ _ _ R3).
  change (microdelay 200) with (mret () : prog kstop (dstate (D := D)) unit). rewrite ret_bind.
  destruct (lapicw_send (Z.lor INIT LEVEL) (u32 (Z.shiftl apicid 24)) s3 _ L3 H3) as (s4 & R4 & F4 & L4 & _ & I4); [reflexivity|left|]. rewrite (bind_Ret _ _ _ _ _ R4).
  change (microdelay 100) with (mret () : prog kstop (dstate (D := D)) unit). rewrite ret_bind.
  destruct (startap_loop_run 2 apicid addr s4 _ L4 eq_refl) as (s' & R' & F' & I'). rewrite I4, I3, I2, HI in I'.
  assert (Hm : m_mem (d_mp s') = m_mem (d_mp s1)) by (rewrite F', F4, F3, F2; done).
  assert (E24 : u32 (Z.shiftl apicid 24) = apicid * 2 ^ 24) by (rewrite Z.shiftl_mul_pow2 by lia; apply u32_small; lia).
  exists s', (u32 (Z.lor STARTUP (Z.shiftr addr 12))). split_and!; [exact R'| | | |rewrite Hm; apply warm_reset_written; [done|Z.to_euclidean_division_equations; lia]].
  { rewrite I', E24, <-!app_assoc. reflexivity. }
  all: assert (Hv : 0 <= Z.shiftr addr 12 < 256) by (rewrite Z.shiftr_div_pow2 by lia; Z.to_euclidean_division_equations; lia).
  all: assert (Hs : u32 (Z.lor STARTUP (Z.shiftr addr 12)) = STARTUP + Z.shiftr addr 12)
    by (change STARTUP with (6 * 2 ^ 8); rewrite (lor_add 6 (Z.shiftr addr 12) 8) by lia; apply u32_small; lia).
  all: rewrite Hs; unfold STARTUP; rewrite Z.shiftr_div_pow2 in * by lia.
  - rewrite Z.shiftr_div_pow2 by lia. change (Z.shiftr 0x600 8) with 6. Z.to_euclidean_division_equations; lia.
  - change 0xFF with (Z.ones 8). rewrite Z.land_ones by lia. Z.to_euclidean_division_equations; lia.
Qed.
End lapic.

(** ** The clock *)

Section clock.
Context {D : Type} `{!ports D, !clocks D}.
Implicit Types s : dstate (D := D).

(** [n] accesses, at least one and at most 64: the clock changes at most once. *)
Definition rtc_ticks (n : nat) (d d' : D) : Prop :=
  ((rtc_time d' = rtc_time d /\ rtc_quiet d' = rtc_quiet d - n) \/ (rtc_quiet d < n /\ rtc_time d' = S (rtc_time d) /\ 65 - n <= rtc_quiet d'))%nat /\
  (rtc_uip (rtc_time d) = true -> rtc_time d' = rtc_time d -> (rtc_left d' < rtc_left d)%nat).

Lemma rtc_ticks_access d d' : rtc_access d d' -> rtc_ticks 1 d d'.
Proof.
  intros Ha. split; [|by apply rtc_short]. pose proof (rtc_step d d' Ha) as H. destruct (rtc_quiet d); [destruct H as [[? ?]|[? ?]]; [left|right]|left]; lia.
Qed.
Lemma rtc_ticks_app n m d1 d2 d3 : rtc_ticks n d1 d2 -> rtc_ticks m d2 d3 -> (n + m <= 64)%nat -> rtc_ticks (n + m) d1 d3.
Proof.
  intros [H1 L1] [H2 L2] Hn. split; [lia|]. intros Hu E. assert (E2 : rtc_time d2 = rtc_time d1) by lia. rewrite E2 in L2. specialize (L1 Hu E2). specialize (L2 Hu). lia.
Qed.

Lemma rtc_ticks_le n d d' : rtc_ticks n d d' -> (rtc_time d <= rtc_time d')%nat.
Proof. intros [H _]. lia. Qed.

Lemma cmos_read_run reg s : 0 <= reg < 256 ->
  exists s', cmos_read reg s = Ret (rtc_reg (rtc_time (d_hw s')) reg) s' /\ same_but_hw s s' /\ rtc_ticks 2 (d_hw s) (d_hw s').
Proof.
  intros Hr. unfold cmos_read. dstep. change (microdelay 200) with (mret () : prog kstop (dstate (D := D)) unit). rewrite ret_bind. dstep.
  rewrite u8_small by done. rewrite rtc_read, rtc_select.
  exists (set_d_hw (inb CMOS_RETURN (outb CMOS_PORT reg (d_hw s))).2 s). split_and!; [reflexivity|done|]. cbn [d_hw set_d_hw].
  apply (rtc_ticks_app 1 1 _ (outb CMOS_PORT reg (d_hw s))); [apply rtc_ticks_access; left; by eexists|apply rtc_ticks_access; by right|lia].
Qed.

(** What the registers of the time hold after change [t]. *)
Definition snap (t : nat) : rtcdate :=
  mkDate (rtc_reg t SECS) (rtc_reg t MINS) (rtc_reg t HOURS) (rtc_reg t DAY) (rtc_reg t MONTH) (rtc_reg t YEAR).

Lemma fill_rtcdate_run s : exists r s', fill_rtcdate s = Ret r s' /\ same_but_hw s s' /\ rtc_ticks 12 (d_hw s) (d_hw s') /\
  (rtc_time (d_hw s') = rtc_time (d_hw s) -> r = snap (rtc_time (d_hw s))).
Proof.
  unfold fill_rtcdate. destruct (cmos_read_run SECS s) as (s1 & R1 & F1 & T1); [unfold SECS; lia|]. rewrite (bind_Ret _ _ _ _ _ R1).
  destruct (cmos_read_run MINS s1) as (s2 & R2 & F2 & T2); [unfold MINS; lia|]. rewrite (bind_Ret _ _ _ _ _ R2).
  destruct (cmos_read_run HOURS s2) as (s3 & R3 & F3 & T3); [unfold HOURS; lia|]. rewrite (bind_Ret _ _ _ _ _ R3).
  destruct (cmos_read_run DAY s3) as (s4 & R4 & F4 & T4); [unfold DAY; lia|]. rewrite (bind_Ret _ _ _ _ _ R4).
  destruct (cmos_read_run MONTH s4) as (s5 & R5 & F5 & T5); [unfold MONTH; lia|]. rewrite (bind_Ret _ _ _ _ _ R5).
  destruct (cmos_read_run YEAR s5) as (s6 & R6 & F6 & T6); [unfold YEAR; lia|]. rewrite (bind_Ret _ _ _ _ _ R6).
  eexists _, s6. split_and!; [reflexivity|unfold same_but_hw in *; rewrite F6, F5, F4, F3, F2, F1; done| |].
  - apply (rtc_ticks_app 10 2 _ (d_hw s5)); [|done|lia]. apply (rtc_ticks_app 8 2 _ (d_hw s4)); [|done|lia]. apply (rtc_ticks_app 6 2 _ (d_hw s3)); [|done|lia].
    apply (rtc_ticks_app 4 2 _ (d_hw s2)); [|done|lia]. by apply (rtc_ticks_app 2 2 _ (d_hw s1)); [..|lia].
  - intros E. apply rtc_ticks_le in T1, T2, T3, T4, T5, T6. unfold snap. f_equal; f_equal; lia.
Qed.

(** One round of the loop: it ends with what the clock showed at some time, or
    the clock changed and will be quiet for the next one, or an update is in
    progress. *)
Definition round_ends (d : D) (r : rtcdate) (d' : D) : Prop := exists t, r = snap t /\ (rtc_time d <= t <= rtc_time d')%nat.
Definition round_again (d d' : D) : Prop :=
  (rtc_time d' = S (rtc_time d) /\ rtc_quiet d < 26 /\ 39 <= rtc_quiet d')%nat \/
  (rtc_uip (rtc_time d) = true /\ rtc_time d' = rtc_time d /\ (rtc_left d' < rtc_left d)%nat).
Lemma round_run fuel s : exists s', same_but_hw s s' /\
  ((exists r, cmostime_loop (S fuel) s = Ret r s' /\ round_ends (d_hw s) r (d_hw s')) \/
   (cmostime_loop (S fuel) s = cmostime_loop fuel s' /\ round_again (d_hw s) (d_hw s'))).
Proof.
  cbn [cmostime_loop]. destruct (fill_rtcdate_run s) as (t1 & s1 & R1 & F1 & T1 & S1). rewrite (bind_Ret _ _ _ _ _ R1).
  destruct (cmos_read_run CMOS_STATA s1) as (s2 & R2 & F2 & T2); [unfold CMOS_STATA; lia|]. rewrite (bind_Ret _ _ _ _ _ R2).
  fold (rtc_uip (rtc_time (d_hw s2))). assert (T12 : rtc_ticks 14 (d_hw s) (d_hw s2)) by (by apply (rtc_ticks_app 12 2 _ (d_hw s1)); [..|lia]).
  assert (F12 : same_but_hw s s2) by (unfold same_but_hw in *; rewrite F2, F1; done). destruct (rtc_uip (rtc_time (d_hw s2))) eqn:U.
  { exists s2. split; [done|]. right. split; [done|]. destruct T12 as [[[E _]|(Q & E & Q')] L]; [right|left; lia]. rewrite E in U. auto. }
  destruct (fill_rtcdate_run s2) as (t2 & s3 & R3 & F3 & T3 & S3). rewrite (bind_Ret _ _ _ _ _ R3).
  assert (T13 : rtc_ticks 26 (d_hw s) (d_hw s3)) by (by apply (rtc_ticks_app 14 12 _ (d_hw s2)); [..|lia]).
  exists s3. split; [unfold same_but_hw in *; rewrite F3, F12; done|]. destruct (decide (t1 = t2)) as [Ht|Ht].
  - left. exists t1. split; [done|]. unfold round_ends. destruct T1 as [[[E1 Q1]|(Q1 & E1 & Q1')] _].
    + exists (rtc_time (d_hw s)). split; [by apply S1|]. destruct T13 as [T13 _]. lia.
    + exists (rtc_time (d_hw s2)). destruct T2 as [T2 _], T3 as [T3 _]. split; [rewrite Ht; apply S3; lia|lia].
  - right. split; [done|]. left. destruct T13 as [[[E _]|(Q & E & Q')] _]; [|lia]. exfalso. apply Ht.
    destruct T1 as [T1 _], T2 as [T2 _], T3 as [T3 _]. rewrite S1, S3 by lia. f_equal. lia.
Qed.

Lemma ends_mono d0 d1 r d2 : (rtc_time d0 <= rtc_time d1)%nat -> round_ends d1 r d2 -> round_ends d0 r d2.
Proof. intros H (t & Hr & Ht). exists t. split; [done|lia]. Qed.

(** Rounds enough, when the clock is quiet, during an update, and in general. *)
Lemma loop_quiet fuel s : (26 <= rtc_quiet (d_hw s))%nat -> rtc_uip (rtc_time (d_hw s)) = false ->
  exists r s', cmostime_loop (S fuel) s = Ret r s' /\ same_but_hw s s' /\ round_ends (d_hw s) r (d_hw s').
Proof.
  intros Hq Hu. destruct (round_run fuel s) as (s' & F & [(r & R & E)|(_ & [Q|(U & _)])]); [by exists r, s'|lia|congruence].
Qed.
Lemma loop_update k : forall fuel s, rtc_uip (rtc_time (d_hw s)) = true -> (rtc_left (d_hw s) <= k)%nat -> (k + 2 <= fuel)%nat ->
  exists r s', cmostime_loop fuel s = Ret r s' /\ same_but_hw s s' /\ round_ends (d_hw s) r (d_hw s').
Proof.
  induction k as [|k IH]; intros fuel s Hu Hl Hf; (destruct fuel as [|fuel]; [lia|]);
    (destruct (round_run fuel s) as (s1 & F1 & [(r & R & E)|(R & [(T & Q & Q')|(U & T & L)])]); [by exists r, s1| |try lia]); rewrite R.
  1, 2: destruct fuel as [|fuel]; [lia|]; destruct (loop_quiet fuel s1) as (r & s' & R' & F' & E'); [lia|rewrite T; by apply rtc_update|];
    exists r, s'; split_and!; [done|unfold same_but_hw in *; rewrite F', F1; done|eapply ends_mono; [|done]; lia].
  destruct (IH fuel s1) as (r & s' & R' & F' & E'); [by rewrite T|lia|lia|].
  exists r, s'; split_and!; [done|unfold same_but_hw in *; rewrite F', F1; done|eapply ends_mono; [|done]; lia].
Qed.
Lemma loop_run fuel s : (rtc_patience + 3 <= fuel)%nat ->
  exists r s', cmostime_loop fuel s = Ret r s' /\ same_but_hw s s' /\ round_ends (d_hw s) r (d_hw s').
Proof.
  intros Hf. destruct (rtc_uip (rtc_time (d_hw s))) eqn:U; [apply (loop_update rtc_patience); [done|apply rtc_bound|lia]|].
  destruct fuel as [|fuel]; [lia|]. destruct (round_run fuel s) as (s1 & F1 & [(r & R & E)|(R & [(T & Q & Q')|(U' & _)])]); [by exists r, s1| |congruence]. rewrite R.
  assert (H : exists r s', cmostime_loop fuel s1 = Ret r s' /\ same_but_hw s1 s' /\ round_ends (d_hw s1) r (d_hw s')).
  { destruct (rtc_uip (rtc_time (d_hw s1))) eqn:U1; [apply (loop_update rtc_patience); [done|apply rtc_bound|lia]|].
    destruct fuel as [|fuel]; [lia|]. apply loop_quiet; [lia|done]. }
  destruct H as (r & s' & R' & F' & E'). exists r, s'; split_and!; [done|unfold same_but_hw in *; rewrite F', F1; done|eapply ends_mono; [|done]; lia].
Qed.

Lemma CONV_digits v : 0 <= v < 100 -> CONV (bcd_digits true v) = v.
Proof.
  intros Hv. assert (0 <= v / 10 < 10 /\ 0 <= v mod 10 < 10) as [H1 H2] by (Z.to_euclidean_division_equations; lia). unfold CONV, bcd_digits.
  rewrite Z.shiftl_mul_pow2, (lor_add (v / 10) (v mod 10) 4) by lia. change 0xf with (Z.ones 4). rewrite Z.land_ones, Z.shiftr_div_pow2 by lia.
  Z.to_euclidean_division_equations; lia.
Qed.

End clock.

(** ** A board *)

(** Chips that behave as the laws say: the serial port is busy for one poll after
    each character, the local APIC for one after each interrupt, and the clock
    changes every 100 accesses, with an update in progress every other time. *)
Record bench := mkBench {
  b_pic1 : pic8259;
  b_pic2 : pic8259;
  b_pit : pit8253;
  b_sel : Z;
  b_io : Z -> Z;
  b_sent : list Z;
  b_dlab : bool;
  b_busy : bool;
  b_in : list Z;
  b_lapic : Z -> Z;
  b_ipis : list (Z * Z);
  b_sending : bool;
  b_cmos : Z;
  b_acc : nat
}.
Definition set_b_pic1 v b := mkBench v (b_pic2 b) (b_pit b) (b_sel b) (b_io b) (b_sent b) (b_dlab b) (b_busy b) (b_in b) (b_lapic b) (b_ipis b) (b_sending b) (b_cmos b) (b_acc b).
Definition set_b_pic2 v b := mkBench (b_pic1 b) v (b_pit b) (b_sel b) (b_io b) (b_sent b) (b_dlab b) (b_busy b) (b_in b) (b_lapic b) (b_ipis b) (b_sending b) (b_cmos b) (b_acc b).
Definition set_b_pit v b := mkBench (b_pic1 b) (b_pic2 b) v (b_sel b) (b_io b) (b_sent b) (b_dlab b) (b_busy b) (b_in b) (b_lapic b) (b_ipis b) (b_sending b) (b_cmos b) (b_acc b).
Definition set_b_sel v b := mkBench (b_pic1 b) (b_pic2 b) (b_pit b) v (b_io b) (b_sent b) (b_dlab b) (b_busy b) (b_in b) (b_lapic b) (b_ipis b) (b_sending b) (b_cmos b) (b_acc b).
Definition set_b_io v b := mkBench (b_pic1 b) (b_pic2 b) (b_pit b) (b_sel b) v (b_sent b) (b_dlab b) (b_busy b) (b_in b) (b_lapic b) (b_ipis b) (b_sending b) (b_cmos b) (b_acc b).
Definition set_b_sent v b := mkBench (b_pic1 b) (b_pic2 b) (b_pit b) (b_sel b) (b_io b) v (b_dlab b) (b_busy b) (b_in b) (b_lapic b) (b_ipis b) (b_sending b) (b_cmos b) (b_acc b).
Definition set_b_dlab v b := mkBench (b_pic1 b) (b_pic2 b) (b_pit b) (b_sel b) (b_io b) (b_sent b) v (b_busy b) (b_in b) (b_lapic b) (b_ipis b) (b_sending b) (b_cmos b) (b_acc b).
Definition set_b_busy v b := mkBench (b_pic1 b) (b_pic2 b) (b_pit b) (b_sel b) (b_io b) (b_sent b) (b_dlab b) v (b_in b) (b_lapic b) (b_ipis b) (b_sending b) (b_cmos b) (b_acc b).
Definition set_b_in v b := mkBench (b_pic1 b) (b_pic2 b) (b_pit b) (b_sel b) (b_io b) (b_sent b) (b_dlab b) (b_busy b) v (b_lapic b) (b_ipis b) (b_sending b) (b_cmos b) (b_acc b).
Definition set_b_lapic v b := mkBench (b_pic1 b) (b_pic2 b) (b_pit b) (b_sel b) (b_io b) (b_sent b) (b_dlab b) (b_busy b) (b_in b) v (b_ipis b) (b_sending b) (b_cmos b) (b_acc b).
Definition set_b_ipis v b := mkBench (b_pic1 b) (b_pic2 b) (b_pit b) (b_sel b) (b_io b) (b_sent b) (b_dlab b) (b_busy b) (b_in b) (b_lapic b) v (b_sending b) (b_cmos b) (b_acc b).
Definition set_b_sending v b := mkBench (b_pic1 b) (b_pic2 b) (b_pit b) (b_sel b) (b_io b) (b_sent b) (b_dlab b) (b_busy b) (b_in b) (b_lapic b) (b_ipis b) v (b_cmos b) (b_acc b).
Definition set_b_cmos v b := mkBench (b_pic1 b) (b_pic2 b) (b_pit b) (b_sel b) (b_io b) (b_sent b) (b_dlab b) (b_busy b) (b_in b) (b_lapic b) (b_ipis b) (b_sending b) v (b_acc b).
Definition set_b_acc v b := mkBench (b_pic1 b) (b_pic2 b) (b_pit b) (b_sel b) (b_io b) (b_sent b) (b_dlab b) (b_busy b) (b_in b) (b_lapic b) (b_ipis b) (b_sending b) (b_cmos b) v.

Definition bench_shows (t : nat) (r : Z) : Z := (Z.of_nat (t / 2) + r) mod 50.
Definition bench_rtc (t : nat) (r : Z) : Z :=
  if r =? CMOS_STATA then (if Nat.odd t then 128 else 0) else if r =? CMOS_STATB then 0 else bcd_digits true (bench_shows t r).

Definition bench_inb (p : Z) (b : bench) : Z * bench :=
  if p =? COM1 + 5 then ((if b_busy b then 0 else 0x20) + (if bool_decide (b_in b = []) then 0 else 1), set_b_busy false b)
  else if p =? COM1 then match map u8 (b_in b) with c :: _ => (c, set_b_in (tail (b_in b)) b) | [] => (0, b) end
  else if p =? CMOS_RETURN then (bench_rtc (S (b_acc b) / 100) (b_cmos b), set_b_acc (S (b_acc b)) b)
  else (0, b).
Definition bench_outb (p v : Z) (b : bench) : bench :=
  if p =? IO_PIC1 then set_b_pic1 (pic_command v (b_pic1 b)) b
  else if p =? IO_PIC1 + 1 then set_b_pic1 (pic_data v (b_pic1 b)) b
  else if p =? IO_PIC2 then set_b_pic2 (pic_command v (b_pic2 b)) b
  else if p =? IO_PIC2 + 1 then set_b_pic2 (pic_data v (b_pic2 b)) b
  else if p =? 0x43 then set_b_pit (pit_control v (b_pit b)) b
  else if p =? 0x40 then set_b_pit (pit_byte v (b_pit b)) b
  else if p =? COM1 then (if b_dlab b then b else if b_busy b then b else set_b_sent (b_sent b ++ [v]) (set_b_busy true b))
  else if p =? COM1 + 3 then set_b_dlab (Z.testbit v 7) b
  else if p =? CMOS_PORT then set_b_cmos v (set_b_acc (S (b_acc b)) b)
  else b.
Definition bench_lapic : Z := 0xFEE00000.
Definition bench_index (a : Z) : Z := (a - bench_lapic) / 4.
Definition bench_rdl (a : Z) (b : bench) : Z * bench :=
  if a =? IOAPIC + 16 then (b_io b (b_sel b), b)
  else if bench_index a =? ICRLO then ((if b_sending b then DELIVS else 0), set_b_sending false b)
  else (b_lapic b (bench_index a), b).
Definition bench_wrl (a v : Z) (b : bench) : bench :=
  if a =? IOAPIC then set_b_sel v b
  else if a =? IOAPIC + 16 then set_b_io (fun r => if decide (r = b_sel b) then v else b_io b r) b
  else if bench_index a =? ICRLO then set_b_ipis (b_ipis b ++ [(b_lapic b ICRHI, v)]) (set_b_sending true b)
  else if bool_decide (bench_index a ∈ [EOI; ESR]) then b
  else set_b_lapic (fun j => if decide (j = bench_index a) then v else b_lapic b j) b.

#[global] Instance bench_ports : ports bench := { inb := bench_inb; outb := bench_outb; rdl := bench_rdl; wrl := bench_wrl }.

(** Cases of an access to the board, with the address that is being compared. *)
Ltac bench_cases := unfold inb, outb, rdl, wrl, bench_ports, bench_inb, bench_outb, bench_rdl, bench_wrl;
  repeat (match goal with |- context [if ?c then _ else _] => destruct c eqn:? | |- context [match map u8 ?l with _ => _ end] => destruct (map u8 l) eqn:? end; cbn [fst snd]; try reflexivity).

#[global] Program Instance bench_pics : pics bench := { pic := fun b slave => if slave : bool then b_pic2 b else b_pic1 b }.
Next Obligation. intros. bench_cases. Qed.
Next Obligation. intros. bench_cases. Qed.
Next Obligation. intros. bench_cases. Qed.
Next Obligation.
  intros p v b slave. destruct slave; cbv iota; (case_decide; [subst; reflexivity|]); (case_decide; [subst; reflexivity|]);
    bench_cases; rewrite Z.eqb_eq in *; done.
Qed.
#[global] Program Instance bench_pits : pits bench := { pit := b_pit }.
Next Obligation.
  intros p v b. case_decide; [subst; reflexivity|]. case_decide; [subst; reflexivity|]. bench_cases; rewrite Z.eqb_eq in *; done.
Qed.
#[global] Program Instance bench_ioapics : ioapics bench := { io_sel := b_sel; io_reg := b_io }.
Next Obligation. intros. bench_cases. Qed.
Next Obligation. intros. bench_cases. Qed.
Next Obligation. done. Qed.
Next Obligation. done. Qed.
Next Obligation. done. Qed.
#[global] Program Instance bench_uarts : uarts bench :=
  { com_present := true; sent := b_sent; unlocked := b_dlab; com_delay := fun b => if b_busy b then 1%nat else 0%nat; incoming := fun b => map u8 (b_in b) }.
Next Obligation. intros. split; bench_cases. Qed.
Next Obligation. intros. split; bench_cases. Qed.
Next Obligation.
  intros p v b Hp. split; [bench_cases; rewrite Z.eqb_eq in *; done|]. case_decide; [subst; reflexivity|]. bench_cases; rewrite Z.eqb_eq in *; done.
Qed.
Next Obligation.
  intros v b. change (outb COM1 v b) with (if b_dlab b then b else if b_busy b then b else set_b_sent (b_sent b ++ [v]) (set_b_busy true b)).
  destruct (b_dlab b) eqn:?, (b_busy b) eqn:?; cbn; split_and!; congruence.
Qed.
Next Obligation. intros b. split; [|done]. unfold inb, bench_ports, bench_inb. rewrite Z.eqb_refl. cbn [fst]. destruct (b_busy b), (bool_decide _); done. Qed.
Next Obligation.
  intros b _. unfold inb, bench_ports, bench_inb. rewrite Z.eqb_refl. cbn [fst snd]. destruct (b_busy b), (b_in b) eqn:E; rewrite ?bool_decide_eq_true_2, ?bool_decide_eq_false_2 by done; cbn; rewrite E; done.
Qed.
Next Obligation.
  intros b c rest E Hl. unfold inb, bench_ports, bench_inb. change (COM1 =? COM1 + 5) with false. rewrite Z.eqb_refl, E. cbn. cbn in E.
  destruct (b_in b); [done|]. injection E as <- <-. split; [apply u8_range|done].
Qed.
#[global] Program Instance bench_lapics : lapics bench :=
  { lapic_base := bench_lapic; lapic_reg := b_lapic; ipis := b_ipis; ipi_delay := fun b => if b_sending b then 1%nat else 0%nat; ipi_patience := 2 }.
Next Obligation. done. Qed.
Next Obligation. intros. cbn. destruct (b_sending d); lia. Qed.
Next Obligation. intros. split; bench_cases. Qed.
Next Obligation.
  intros i b Hi. unfold rdl, bench_ports, bench_rdl. rewrite (proj2 (Z.eqb_neq _ _)) by (unfold IOAPIC, bench_lapic; lia).
  assert (E : bench_index (bench_lapic + 4 * i) = i) by (unfold bench_index; Z.to_euclidean_division_equations; lia). rewrite E.
  destruct (i =? ICRLO) eqn:Ei; cbn; split_and!; try done. intros H. by apply Z.eqb_eq in Ei.
Qed.
Next Obligation. intros b. change (rdl (bench_lapic + 4 * ICRLO) b) with ((if b_sending b then DELIVS else 0), set_b_sending false b). cbn. by destruct (b_sending b). Qed.
Next Obligation.
  intros i v b Hi. rewrite !elem_of_cons, elem_of_nil in Hi. destruct_or?; subst; by split.
Qed.
Next Obligation. intros i v b Hi. rewrite !elem_of_cons, elem_of_nil in Hi. destruct_or?; subst; by split. Qed.
Next Obligation. intros v b. split; [|done]. intros j Hj. done. Qed.

Lemma bench_access b b' : rtc_access b b' -> b_acc b' = S (b_acc b).
Proof. by intros [[r ->]| ->]. Qed.
#[global] Program Instance bench_clocks : clocks bench :=
  { rtc_sel := b_cmos; rtc_time := fun b => (b_acc b / 100)%nat; rtc_quiet := fun b => (99 - b_acc b mod 100)%nat;
    rtc_left := fun b => (100 - b_acc b mod 100)%nat; rtc_patience := 100; rtc_reg := bench_rtc; rtc_shows := bench_shows; rtc_bcd := true }.
Next Obligation. done. Qed.
Next Obligation.
  intros t r Hr. split; [unfold bench_shows; Z.to_euclidean_division_equations; lia|]. rewrite !elem_of_cons, elem_of_nil in Hr. destruct_or?; subst; done.
Qed.
Next Obligation. done. Qed.
Next Obligation. done. Qed.
Next Obligation.
  intros b b' Ha. cbv beta. rewrite (bench_access _ _ Ha). generalize (b_acc b). intros a.
  assert (H : (a mod 100 = 99 /\ S a mod 100 = 0 /\ S a / 100 = S (a / 100) \/ a mod 100 < 99 /\ S a mod 100 = S (a mod 100) /\ S a / 100 = a / 100)%nat)
    by (pose proof (Nat.div_mod_eq a 100); pose proof (Nat.div_mod_eq (S a) 100); pose proof (Nat.mod_upper_bound a 100); pose proof (Nat.mod_upper_bound (S a) 100); lia).
  destruct (99 - a mod 100)%nat eqn:E; lia.
Qed.
Next Obligation.
  intros t. cbv beta. unfold bench_rtc. rewrite Z.eqb_refl, Nat.odd_succ, <-Nat.negb_odd. by destruct (Nat.odd t).
Qed.
Next Obligation.
  intros b b' Ha _. cbv beta. rewrite (bench_access _ _ Ha). generalize (b_acc b). intros a Ht. pose proof (Nat.div_mod_eq a 100); pose proof (Nat.div_mod_eq (S a) 100); pose proof (Nat.mod_upper_bound a 100); pose proof (Nat.mod_upper_bound (S a) 100); lia.
Qed.
Next Obligation. intros b. cbv beta. lia. Qed.

(** A machine with this board: a multiprocessor whose 24 lines the BIOS routed
    somewhere, or one without a local APIC and I/O APIC. *)
Definition bench0 : bench :=
  mkBench (mkPic 0xB8 0x08 0) (mkPic 0x8F 0x70 0) (mkPit None (Some 65536)) 0
    (fun r => if r =? REG_VER then Z.shiftl 23 16 else 0x700) [] false true [120; 121] (fun j => if j =? VER then Z.shiftl 4 16 else 0) [] false 0 90%nat.
Definition bench_machine (mp : bool) : dstate (D := bench) :=
  mkDs (mkMp ∅ [] 0 mp (if mp then 2%nat else 1%nat) 0 (if mp then bench_lapic else 0) [] []) bench0 0xFFFB 0 false 0.

Lemma pic_lines_open_witness : exists s', (picinit ;; picenables [IRQ_KBD; IRQ_IDE]) (bench_machine false) = Ret tt s' /\
  line_open (d_hw s') IRQ_IDE = true /\ line_open (d_hw s') IRQ_TIMER = false /\ line_vector (d_hw s') IRQ_IDE = 46.
Proof.
  destruct (pic_lines_open (bench_machine false) [IRQ_KBD; IRQ_IDE]) as (s' & R & H); [cbn; lia|repeat constructor; done|].
  exists s'. split; [exact R|]. destruct (H IRQ_IDE) as [-> ->]; [unfold IRQ_IDE; lia|]. destruct (H IRQ_TIMER) as [-> _]; [unfold IRQ_TIMER; lia|]. done.
Defined.
Lemma ioapic_delivers_witness : exists s', (ioapicinit ;; ioapicenables [(IRQ_KBD, 0); (IRQ_IDE, 1)]) (bench_machine true) = Ret tt s' /\
  delivers (d_hw s') IRQ_IDE = Some (46, 1) /\ delivers (d_hw s') 3 = None.
Proof.
  destruct (ioapic_delivers (bench_machine true) [(IRQ_KBD, 0); (IRQ_IDE, 1)]) as (s' & R & H).
  { reflexivity. } { apply NoDup_cons. split; [|apply NoDup_singleton]. cbn [map fst fmap list_fmap]. rewrite list_elem_of_singleton. discriminate. }
  { repeat (apply Forall_cons; split; [vm_compute; intuition discriminate|]). apply Forall_nil. exact I. }
  exists s'. split; [exact R|]. clear R. split; (rewrite H; [reflexivity|vm_compute; intuition discriminate]).
Defined.
(** The machine after [picinit]. *)
Definition bench_ready : dstate (D := bench) :=
  set_d_hw (set_b_pic1 (mkPic 0xFB T_IRQ0 0) (set_b_pic2 (mkPic 0xFF (T_IRQ0 + 8) 0) bench0)) (bench_machine false).
Lemma lapicinit_programs_witness : exists s', lapicinit 2 (bench_machine true) = Ret tt s' /\ lapic_reg (d_hw s') PCINT = MASKED /\ lapic_reg (d_hw s') TIMER = 0x20020.
Proof.
  destruct (lapicinit_programs 2 (bench_machine true)) as (s' & R & H); [left; reflexivity|apply le_n|]. exists s'. split; [exact R|]. clear R.
  change (m_lapic (d_mp (bench_machine true)) =? 0) with false in H. cbv iota in H. destruct H as (H1 & H2 & _).
  split; [apply H2; vm_compute; discriminate|]. unfold holds in H1. rewrite Forall_forall in H1. apply (H1 (TIMER, 0x20020)).
  apply (list_elem_of_lookup_2 _ 5). reflexivity.
Defined.
Lemma lapicstartap_starts_witness : exists s', lapicstartap 1 0x7000 (bench_machine true) = Ret tt s' /\ length (ipis (d_hw s')) = 4%nat /\ warm_reset (m_mem (d_mp s')) = 0x7000.
Proof.
  destruct (lapicstartap_starts 1 0x7000 (bench_machine true)) as (s' & sipi & R & I & _ & _ & W); [reflexivity|lia|lia|reflexivity|]. exists s'. split; [exact R|]. rewrite I. split; [reflexivity|exact W].
Defined.
