(* ===== verification/Asm.v ===== *)
(** * The assembly of the kernel: trapasm.S, vectors.S, swtch.S, usys.S, initcode.S

    The instructions that these files use, on a machine with the general and
    the segment registers, [eip], [eflags] and byte memory.  [deliver] is what
    the processor does on a trap: it changes to the kernel stack when it comes
    from user mode and pushes the state that [iret] restores, with an error
    code for some exceptions; only the gate of system calls leaves interrupts on.

    The theorems: whatever the vector, the code builds the [trapframe] that
    [trap] reads, and [trapret] resumes with the registers in it; a system call
    through a stub of usys.S is a function call that changes [eax]; [swtch]
    saves a [context], and switching back restores the caller. *)

From stdpp Require Import base list list_numbers numbers gmap strings.
From Stdlib Require Import ZArith Lia.
From S2P Require Import Prelude Mem KState Sched Process Trap.

Inductive reg := EAX | ECX | EDX | EBX | ESP | EBP | ESI | EDI.
Inductive sreg := CS | DS | ES | FS | GS | SS.
Definition reg_eqb (a b : reg) : bool :=
  match a, b with
  | EAX, EAX | ECX, ECX | EDX, EDX | EBX, EBX | ESP, ESP | EBP, EBP | ESI, ESI | EDI, EDI => true
  | _, _ => false
  end.
Definition sreg_eqb (a b : sreg) : bool :=
  match a, b with CS, CS | DS, DS | ES, ES | FS, FS | GS, GS | SS, SS => true | _, _ => false end.

Record mach := mkMach { gpr : reg -> Z; seg : sreg -> Z; eip : Z; eflags : Z; memory : mem }.
Definition upd (r : reg) (v : Z) (g : reg -> Z) : reg -> Z := fun x => if reg_eqb x r then v else g x.
Definition upds (r : sreg) (v : Z) (g : sreg -> Z) : sreg -> Z := fun x => if sreg_eqb x r then v else g x.
Definition set_gpr (r : reg) (v : Z) (c : mach) : mach := mkMach (upd r v (gpr c)) (seg c) (eip c) (eflags c) (memory c).
Definition set_seg (r : sreg) (v : Z) (c : mach) : mach := mkMach (gpr c) (upds r v (seg c)) (eip c) (eflags c) (memory c).
Definition set_eip (v : Z) (c : mach) : mach := mkMach (gpr c) (seg c) v (eflags c) (memory c).
Definition set_eflags (v : Z) (c : mach) : mach := mkMach (gpr c) (seg c) (eip c) v (memory c).
Definition set_memory (v : mem) (c : mach) : mach := mkMach (gpr c) (seg c) (eip c) (eflags c) v.

Definition ld16 (m : mem) (a : Z) : Z := le_dec (ld m a 2).
Definition st16 (m : mem) (a v : Z) : mem := st m a (le_enc 2 (u16 v)).

(** A push moves [esp] by four bytes; of a segment register only the two bytes
    of the selector are written. *)
Definition push (v : Z) (c : mach) : mach :=
  let a := u32 (gpr c ESP - 4) in set_memory (st32 (memory c) a v) (set_gpr ESP a c).
Definition push_seg (v : Z) (c : mach) : mach :=
  let a := u32 (gpr c ESP - 4) in set_memory (st16 (memory c) a v) (set_gpr ESP a c).
Definition pop (f : Z -> mach -> mach) (c : mach) : mach :=
  f (ld32 (memory c) (gpr c ESP)) (set_gpr ESP (u32 (gpr c ESP + 4)) c).
Definition pop_seg (f : Z -> mach -> mach) (c : mach) : mach :=
  f (ld16 (memory c) (gpr c ESP)) (set_gpr ESP (u32 (gpr c ESP + 4)) c).

Inductive instr :=
| Pushl_i (v : Z) | Pushl (r : reg) | Pushl_s (r : sreg) | Popl (r : reg) | Popl_s (r : sreg)
| Pushal | Popal
| Movl_i (v : Z) (r : reg) | Movl (r r' : reg) | Load (off : Z) (b r : reg) | Store (r b : reg)
| Movw_ax (v : Z) | Movw_s (r : sreg) (* movw $v, %ax; movw %ax, %r *)
| Addl_esp (v : Z) | Ret_ | Iret.

Definition pushal (c : mach) : mach :=
  let e := gpr c ESP in
  push (gpr c EDI) (push (gpr c ESI) (push (gpr c EBP) (push e (push (gpr c EBX) (push (gpr c EDX) (push (gpr c ECX) (push (gpr c EAX) c))))))).
Definition popal (c : mach) : mach :=
  pop (set_gpr EAX) (pop (set_gpr ECX) (pop (set_gpr EDX) (pop (set_gpr EBX) (pop (fun _ c => c) (pop (set_gpr EBP) (pop (set_gpr ESI) (pop (set_gpr EDI) c))))))).
(** [iret] pops the stack pointer as well when it returns to user mode. *)
Definition iret (c : mach) : mach :=
  let c1 := pop set_eip c in
  let c2 := pop_seg (set_seg CS) c1 in
  let c3 := pop set_eflags c2 in
  if Z.land (seg c2 CS) 3 =? Z.land (seg c CS) 3 then c3
  else
    let e := ld32 (memory c3) (gpr c3 ESP) in
    let s := ld16 (memory c3) (u32 (gpr c3 ESP + 4)) in
    set_seg SS s (set_gpr ESP e c3).

Definition addl_esp (v : Z) (c : mach) : mach := set_gpr ESP (u32 (gpr c ESP + v)) c.

Definition exec_instr (i : instr) (c : mach) : mach :=
  match i with
  | Pushl_i v => push v c
  | Pushl r => push (gpr c r) c
  | Pushl_s r => push_seg (seg c r) c
  | Popl r => pop (set_gpr r) c
  | Popl_s r => pop_seg (set_seg r) c
  | Pushal => pushal c
  | Popal => popal c
  | Movl_i v r => set_gpr r v c
  | Movl r r' => set_gpr r' (gpr c r) c
  | Load off b r => set_gpr r (ld32 (memory c) (u32 (gpr c b + off))) c
  | Store r b => set_memory (st32 (memory c) (gpr c b) (gpr c r)) c
  | Movw_ax v => set_gpr EAX (Z.lor (Z.land (gpr c EAX) 0xffff0000) (u16 v)) c
  | Movw_s r => set_seg r (u16 (gpr c EAX)) c
  | Addl_esp v => addl_esp v c
  | Ret_ => pop set_eip c
  | Iret => iret c
  end.
Fixpoint run (l : list instr) (c : mach) : mach := match l with [] => c | i :: l' => run l' (exec_instr i c) end.

(** ** The code *)

Definition SEG_KDATA : Z := 2.
Definition SEG_KCPU : Z := 3.

(** The exceptions for which the processor pushes an error code. *)
Definition pushes_error (n : Z) : bool := (n =? 8) || ((10 <=? n) && (n <=? 14)) || (n =? 17).

(** The processor: the kernel stack of the process is at [esp0]. *)
Definition deliver (esp0 ss0 : Z) (n err next : Z) (c : mach) : mach :=
  let c1 := if Z.land (seg c CS) 3 =? 3
    then push (gpr c ESP) (push_seg (seg c SS) (set_seg SS ss0 (set_gpr ESP esp0 c)))
    else c in
  let c2 := push next (push_seg (seg c CS) (push (eflags c) c1)) in
  set_eflags (if n =? T_SYSCALL then eflags c else fclr (eflags c) FL_IF)
    (set_seg CS (Z.shiftl SEG_KCODE 3) (if pushes_error n then push err c2 else c2)).

(** vectors.S, as vectors.pl prints it for vector [i]. *)
Definition vector (i : Z) : list instr :=
  (if negb ((i =? 8) || ((10 <=? i) && (i <=? 14)) || (i =? 17)) then [Pushl_i 0] else []) ++ [Pushl_i i].

(** trapasm.S, before and after the call of [trap]. *)
Definition alltraps_entry : list instr :=
  [Pushl_s DS; Pushl_s ES; Pushl_s FS; Pushl_s GS; Pushal;
   Movw_ax (Z.shiftl SEG_KDATA 3); Movw_s DS; Movw_s ES;
   Movw_ax (Z.shiftl SEG_KCPU 3); Movw_s FS; Movw_s GS; Pushl ESP].
Definition trapret : list instr := [Popal; Popl_s GS; Popl_s FS; Popl_s ES; Popl_s DS; Addl_esp 8; Iret].
Definition alltraps_exit : list instr := Addl_esp 4 :: trapret.

(** swtch.S *)
Definition swtch_code : list instr :=
  [Load 4 ESP EAX; Load 8 ESP EDX; Pushl EBP; Pushl EBX; Pushl ESI; Pushl EDI;
   Store ESP EAX; Movl EDX ESP; Popl EDI; Popl ESI; Popl EBX; Popl EBP; Ret_].

(** usys.S: a stub for each name, [int $T_SYSCALL] between its two parts. *)
Definition SYSCALL_before (num : Z) : list instr := [Movl_i num EAX].
Definition SYSCALL_after : list instr := [Ret_].
Definition usys : list (string * Z) :=
  [("fork", 1); ("exit", 2); ("wait", 3); ("pipe", 4); ("read", 5); ("write", 16); ("close", 21); ("kill", 6); ("exec", 7); ("open", 15);
   ("mknod", 17); ("unlink", 18); ("fstat", 8); ("link", 19); ("mkdir", 20); ("chdir", 9); ("dup", 10); ("getpid", 11); ("sbrk", 12);
   ("sleep", 13); ("uptime", 14)]%string.

(** initcode.S up to the first [int], the addresses of the labels given. *)
Definition initcode_start (argv init : Z) : list instr := [Pushl_i argv; Pushl_i init; Pushl_i 0; Movl_i 7 EAX].

(** The structs of x86.h and proc.h in memory. *)
Definition tf_at (m : mem) (a : Z) : trapframe :=
  mkTf (ld32 m a) (ld32 m (a + 4)) (ld32 m (a + 8)) (ld32 m (a + 12)) (ld32 m (a + 16)) (ld32 m (a + 20)) (ld32 m (a + 24)) (ld32 m (a + 28))
    (ld16 m (a + 32)) (ld16 m (a + 36)) (ld16 m (a + 40)) (ld16 m (a + 44)) (ld32 m (a + 48)) (ld32 m (a + 52)) (ld32 m (a + 56))
    (ld16 m (a + 60)) (ld32 m (a + 64)) (ld32 m (a + 68)) (ld16 m (a + 72)).
Definition sizeof_tf : Z := 76.
Definition ctx_at (m : mem) (a : Z) : context :=
  mkCtx (ld32 m a) (ld32 m (a + 4)) (ld32 m (a + 8)) (ld32 m (a + 12)) (ld32 m (a + 16)).

(** ** Memory *)

Lemma ld16_st16_eq m a v : ld16 (st16 m a v) a = u16 v.
Proof.
  unfold ld16, st16. pose proof (ld_st_eq m a (le_enc 2 (u16 v)) (le_enc_bytes _ _)) as H. rewrite length_le_enc in H. rewrite H.
  apply le_dec_enc. apply Z.mod_pos_bound. lia.
Qed.
Lemma ld16_st16_ne m a b v : (b + 2 <= a \/ a + 2 <= b) -> ld16 (st16 m a v) b = ld16 m b.
Proof. intros. unfold ld16, st16. rewrite ld_st_ne; [done|]. rewrite length_le_enc. lia. Qed.
Lemma ld16_st32_ne m a b v : (b + 2 <= a \/ a + 4 <= b) -> ld16 (st32 m a v) b = ld16 m b.
Proof. intros. unfold ld16, st32. rewrite ld_st_ne; [done|]. rewrite length_le_enc. lia. Qed.
Lemma ld32_st16_ne m a b v : (b + 4 <= a \/ a + 2 <= b) -> ld32 (st16 m a v) b = ld32 m b.
Proof. intros. unfold st16. apply ld32_st_ne. rewrite length_le_enc. lia. Qed.

Lemma u16_small x : 0 <= x < 2 ^ 16 -> u16 x = x.
Proof. apply Z.mod_small. Qed.

(** Reading through a series of stores. *)
Ltac readback := repeat first [rewrite ld32_st32_eq | rewrite ld16_st16_eq | rewrite ld32_st32_ne by lia | rewrite ld16_st16_ne by lia
  | rewrite ld16_st32_ne by lia | rewrite ld32_st16_ne by lia]; rewrite ?u32_small, ?u16_small by auto with lia.

(** ** Traps *)

(** The registers have the width of the machine. *)
Record mach_ok (c : mach) : Prop := {
  mo_gpr : forall r, 0 <= gpr c r < 2 ^ 32;
  mo_seg : forall r, 0 <= seg c r < 2 ^ 16;
  mo_flags : 0 <= eflags c < 2 ^ 32
}.

(** Where the frame goes: on the kernel stack of the process for a trap in
    user mode, on the current stack in the kernel, where the processor does not
    push [ss] and [esp]. *)
Definition user (c : mach) : bool := Z.land (seg c CS) 3 =? 3.
Definition frame_top (esp0 : Z) (c : mach) : Z := if user c then esp0 - sizeof_tf else gpr c ESP - (sizeof_tf - 8).

Definition frame_of (c : mach) (a n err next : Z) : trapframe :=
  mkTf (gpr c EDI) (gpr c ESI) (gpr c EBP) (a + 32) (gpr c EBX) (gpr c EDX) (gpr c ECX) (gpr c EAX)
    (seg c GS) (seg c FS) (seg c ES) (seg c DS) n (if pushes_error n then err else 0) next (seg c CS) (eflags c)
    (if user c then gpr c ESP else ld32 (memory c) (a + 68)) (if user c then seg c SS else ld16 (memory c) (a + 72)).

(** Memory that differs only between two addresses. *)
Definition same_outside (lo hi : Z) (m m' : mem) : Prop := forall b k, b + Z.of_nat k <= lo \/ hi <= b -> ld m' b k = ld m b k.
Lemma same_st16 lo hi m a v : lo <= a -> a + 2 <= hi -> same_outside lo hi m (st16 m a v).
Proof. intros ?? b k ?. unfold st16. apply ld_st_ne. rewrite length_le_enc. lia. Qed.
Lemma same_st32 lo hi m a v : lo <= a -> a + 4 <= hi -> same_outside lo hi m (st32 m a v).
Proof. intros ?? b k ?. unfold st32. apply ld_st_ne. rewrite length_le_enc. lia. Qed.
Lemma same_trans lo hi m1 m2 m3 : same_outside lo hi m1 m2 -> same_outside lo hi m2 m3 -> same_outside lo hi m1 m3.
Proof. intros H1 H2 b k ?. rewrite H2, H1 by done. done. Qed.
Lemma same_weaken lo hi lo' hi' m m' : same_outside lo hi m m' -> lo' <= lo -> hi <= hi' -> same_outside lo' hi' m m'.
Proof. intros H ?? b k ?. apply H. lia. Qed.
Lemma same_refl lo hi m : same_outside lo hi m m.
Proof. done. Qed.
Lemma same_ld32 lo hi m m' b : same_outside lo hi m m' -> b + 4 <= lo \/ hi <= b -> ld32 m' b = ld32 m b.
Proof. intros H ?. unfold ld32. rewrite H by lia. done. Qed.
Lemma same_ld16 lo hi m m' b : same_outside lo hi m m' -> b + 2 <= lo \/ hi <= b -> ld16 m' b = ld16 m b.
Proof. intros H ?. unfold ld16. rewrite H by lia. done. Qed.
Ltac stores := repeat match goal with
  | |- same_outside _ _ _ (st32 _ _ _) => eapply same_trans; [|apply same_st32; lia]
  | |- same_outside _ _ _ (st16 _ _ _) => eapply same_trans; [|apply same_st16; lia]
  | |- same_outside _ _ ?m ?m => apply same_refl
  end.

(** The operations on a machine given by its parts. *)
Section mk.
Context (g : reg -> Z) (s : sreg -> Z) (ip fl : Z) (m : mem).
Local Abbreviation c := (mkMach g s ip fl m).
Lemma set_gpr_mk r v : set_gpr r v c = mkMach (upd r v g) s ip fl m.
Proof. done. Qed.
Lemma set_seg_mk r v : set_seg r v c = mkMach g (upds r v s) ip fl m.
Proof. done. Qed.
Lemma set_eip_mk v : set_eip v c = mkMach g s v fl m.
Proof. done. Qed.
Lemma set_eflags_mk v : set_eflags v c = mkMach g s ip v m.
Proof. done. Qed.
Lemma set_memory_mk v : set_memory v c = mkMach g s ip fl v.
Proof. done. Qed.
Lemma run_mk i l : run (i :: l) c = run l (exec_instr i c).
Proof. done. Qed.
Lemma pushal_mk : pushal c =
    push (g EDI) (push (g ESI) (push (g EBP) (push (g ESP) (push (g EBX) (push (g EDX) (push (g ECX) (push (g EAX) c))))))).
Proof. done. Qed.
Lemma popal_mk : popal c =
    pop (set_gpr EAX) (pop (set_gpr ECX) (pop (set_gpr EDX) (pop (set_gpr EBX) (pop (fun _ c => c) (pop (set_gpr EBP) (pop (set_gpr ESI) (pop (set_gpr EDI) c))))))).
Proof. done. Qed.
End mk.

(** Running straight-line code on a machine whose stack pointer is known. *)
Lemma push_mk v g s ip fl m e a : g ESP = e -> e - 4 = a -> 4 <= e < 2 ^ 32 -> push v (mkMach g s ip fl m) = mkMach (upd ESP a g) s ip fl (st32 m a v).
Proof. intros <- <- H. unfold push. cbn. by rewrite u32_small by lia. Qed.
Lemma push_seg_mk v g s ip fl m e a : g ESP = e -> e - 4 = a -> 4 <= e < 2 ^ 32 -> push_seg v (mkMach g s ip fl m) = mkMach (upd ESP a g) s ip fl (st16 m a v).
Proof. intros <- <- H. unfold push_seg. cbn. by rewrite u32_small by lia. Qed.
Lemma pop_mk f g s ip fl m e a : g ESP = e -> e + 4 = a -> 0 <= e < 2 ^ 32 - 4 -> pop f (mkMach g s ip fl m) = f (ld32 m e) (mkMach (upd ESP a g) s ip fl m).
Proof. intros <- <- H. unfold pop. cbn. by rewrite u32_small by lia. Qed.
Lemma pop_seg_mk f g s ip fl m e a : g ESP = e -> e + 4 = a -> 0 <= e < 2 ^ 32 - 4 -> pop_seg f (mkMach g s ip fl m) = f (ld16 m e) (mkMach (upd ESP a g) s ip fl m).
Proof. intros <- <- H. unfold pop_seg. cbn. by rewrite u32_small by lia. Qed.
Lemma addl_mk k g s ip fl m a : g ESP + k = a -> 0 <= a < 2 ^ 32 -> addl_esp k (mkMach g s ip fl m) = mkMach (upd ESP a g) s ip fl m.
Proof. intros <- H. unfold addl_esp. cbn. by rewrite u32_small by lia. Qed.
Lemma iret_mk g s ip fl m e : g ESP = e -> 0 <= e -> e + 16 < 2 ^ 32 -> iret (mkMach g s ip fl m) =
  if Z.land (ld16 m (e + 4)) 3 =? Z.land (s CS) 3
  then mkMach (upd ESP (e + 12) (upd ESP (e + 8) (upd ESP (e + 4) g))) (upds CS (ld16 m (e + 4)) s) (ld32 m e) (ld32 m (e + 8)) m
  else mkMach (upd ESP (ld32 m (e + 12)) (upd ESP (e + 12) (upd ESP (e + 8) (upd ESP (e + 4) g)))) (upds SS (ld16 m (e + 16)) (upds CS (ld16 m (e + 4)) s))
    (ld32 m e) (ld32 m (e + 8)) m.
Proof.
  intros He H0 H1. unfold iret. rewrite (pop_mk _ _ _ _ _ _ e (e + 4)) by (done || lia). rewrite set_eip_mk.
  rewrite (pop_seg_mk _ _ _ _ _ _ (e + 4) (e + 8)) by (done || lia). rewrite set_seg_mk. rewrite (pop_mk _ _ _ _ _ _ (e + 8) (e + 12)) by (done || lia).
  rewrite set_eflags_mk. cbn [gpr seg eip eflags memory upd upds reg_eqb sreg_eqb]. rewrite (u32_small (e + 12 + 4)), <- Z.add_assoc by lia. done.
Qed.
Ltac moved := match goal with
  | |- ?x + 4 - 4 = _ => instantiate (1 := x); lia
  | |- ?x - 4 + 4 = _ => instantiate (1 := x); lia
  | |- ?x + ?k + 8 = _ => let k' := eval compute in (k + 8) in instantiate (1 := x + k'); lia
  | |- ?x + ?k - 4 = _ => let k' := eval compute in (k - 4) in instantiate (1 := x + k'); lia
  | |- ?x + ?k + 4 = _ => let k' := eval compute in (k + 4) in instantiate (1 := x + k'); lia
  | |- _ => reflexivity
  end.
Ltac mred := cbn [gpr seg eip eflags memory upd upds reg_eqb sreg_eqb].
Ltac mstep := mred; first
  [ rewrite set_gpr_mk | rewrite set_seg_mk | rewrite set_eip_mk | rewrite set_eflags_mk | rewrite set_memory_mk
  | erewrite push_mk; [|cbn [upd reg_eqb]; first [eassumption|reflexivity]|moved|lia] | erewrite push_seg_mk; [|cbn [upd reg_eqb]; first [eassumption|reflexivity]|moved|lia]
  | erewrite pop_mk; [|cbn [upd reg_eqb]; first [eassumption|reflexivity]|moved|lia] | erewrite pop_seg_mk; [|cbn [upd reg_eqb]; first [eassumption|reflexivity]|moved|lia]
  | erewrite addl_mk; [|cbn [upd reg_eqb]; moved|lia] | rewrite pushal_mk | rewrite popal_mk | rewrite run_mk; cbn [exec_instr] ].

(** The code of the vector after the processor: the five top words. *)
Lemma vector_pushes c esp0 ss0 n err next l : let a := frame_top esp0 c in
  mach_ok c -> 4 <= a < 2 ^ 32 - sizeof_tf -> 0 <= n < 256 -> 0 <= err < 2 ^ 32 -> 0 <= next < 2 ^ 32 ->
  exists c1, run (vector n ++ l) (deliver esp0 ss0 n err next c) = run l c1 /\
    gpr c1 ESP = a + 48 /\ (forall r, reg_eqb r ESP = false -> gpr c1 r = gpr c r) /\ (forall r, sreg_eqb r CS = false -> sreg_eqb r SS = false -> seg c1 r = seg c r) /\
    seg c1 CS = Z.shiftl SEG_KCODE 3 /\ (user c = false -> seg c1 SS = seg c SS) /\ same_outside (a + 48) (if user c then a + sizeof_tf else a + 68) (memory c) (memory c1) /\
    let f := tf_at (memory c1) a in let f' := frame_of c a n err next in
    tf_trapno f = tf_trapno f' /\ tf_err f = tf_err f' /\ tf_eip f = tf_eip f' /\ tf_cs f = tf_cs f' /\ tf_eflags f = tf_eflags f' /\
    tf_esp f = tf_esp f' /\ tf_ss f = tf_ss f'.
Proof.
  destruct c as [g s ip fl m]. intros a [Hg Hs Hf] He Hn Herr Hnext. unfold deliver, sizeof_tf, frame_of, user in *. cbn [gpr seg eip eflags memory] in *.
  assert (Ha : (if Z.land (s CS) 3 =? 3 then esp0 = a + 76 else g ESP = a + 68)).
  { subst a. unfold frame_top, user, sizeof_tf. cbn [seg gpr]. destruct (_ =? _); lia. }
  clearbody a. unfold vector. fold (pushes_error n).
  destruct (Z.land (s CS) 3 =? 3); [subst esp0|]; (destruct (pushes_error n) eqn:Hp; cbn [negb app]).
  all: eexists; split; [repeat mstep; reflexivity|]; cbn [gpr seg memory eflags].
  all: split; [reflexivity|]; split; [by intros []|]; split; [by intros []|]; split; [reflexivity|].
  all: split; [intros; reflexivity || discriminate|]; split; [stores|].
  all: unfold tf_at; cbn [tf_trapno tf_err tf_eip tf_cs tf_eflags tf_esp tf_ss]; readback; repeat split; reflexivity.
Qed.

(** The segment registers take what [movw] put in [%ax]. *)
Lemma low_word v w : 0 <= w < 2 ^ 16 -> u16 (Z.lor (Z.land v 0xffff0000) w) = w.
Proof.
  intros H. unfold u16. apply Z.bits_inj'. intros n Hn. destruct (Z.ltb_spec n 16).
  - rewrite Z.mod_pow2_bits_low, Z.lor_spec, Z.land_spec by lia. change 0xffff0000 with (Z.shiftl (Z.ones 16) 16).
    rewrite (Z.shiftl_spec_low (Z.ones 16)) by lia. by rewrite andb_false_r.
  - rewrite Z.mod_pow2_bits_high by lia. symmetry. apply (Z.bits_above_log2 w n); [lia|].
    destruct (decide (w = 0)) as [->|]; [cbn; lia|]. apply Z.lt_le_trans with 16; [apply Z.log2_lt_pow2; lia|lia].
Qed.

(** [alltraps] below them: the twelve other words, and the pointer to the frame
    as the argument of [trap]. *)
Lemma alltraps_pushes c a : gpr c ESP = a + 48 -> (forall r, 0 <= gpr c r < 2 ^ 32) ->
  (forall r, sreg_eqb r CS = false -> sreg_eqb r SS = false -> 0 <= seg c r < 2 ^ 16) -> 4 <= a < 2 ^ 32 - sizeof_tf ->
  let c' := run alltraps_entry c in let f := tf_at (memory c') a in
  gpr c' ESP = a - 4 /\ ld32 (memory c') (a - 4) = a /\ same_outside (a - 4) (a + 48) (memory c) (memory c') /\
  seg c' CS = seg c CS /\ seg c' SS = seg c SS /\ seg c' DS = Z.shiftl SEG_KDATA 3 /\ seg c' ES = Z.shiftl SEG_KDATA 3 /\
  seg c' FS = Z.shiftl SEG_KCPU 3 /\ seg c' GS = Z.shiftl SEG_KCPU 3 /\
  (tf_edi f = gpr c EDI /\ tf_esi f = gpr c ESI /\ tf_ebp f = gpr c EBP /\ tf_oesp f = a + 32 /\ tf_ebx f = gpr c EBX /\
   tf_edx f = gpr c EDX /\ tf_ecx f = gpr c ECX /\ tf_eax f = gpr c EAX /\ tf_gs f = seg c GS /\ tf_fs f = seg c FS /\ tf_es f = seg c ES /\ tf_ds f = seg c DS).
Proof.
  destruct c as [g s ip fl m]. cbn [gpr seg memory]. intros He Hg Hs Ha. unfold sizeof_tf in *. unfold alltraps_entry. repeat mstep. cbn [run memory gpr seg upd upds reg_eqb sreg_eqb].
  rewrite !low_word by (vm_compute; split; congruence).
  split; [reflexivity|]. split; [readback; reflexivity|]. split; [stores|]. do 6 (split; [reflexivity|]).
  unfold tf_at; cbn [tf_edi tf_esi tf_ebp tf_oesp tf_ebx tf_edx tf_ecx tf_eax tf_gs tf_fs tf_es tf_ds]. readback. repeat split; reflexivity.
Qed.

(** What [trap] finds: the frame, the argument and the kernel's segments. *)
Record entered (c : mach) (a n err next : Z) (c' : mach) : Prop := {
  en_frame : tf_at (memory c') a = frame_of c a n err next;
  en_esp : gpr c' ESP = a - 4;
  en_arg : ld32 (memory c') (a - 4) = a;
  en_cs : seg c' CS = Z.shiftl SEG_KCODE 3;
  en_ss : user c = false -> seg c' SS = seg c SS;
  en_data : seg c' DS = Z.shiftl SEG_KDATA 3 /\ seg c' ES = Z.shiftl SEG_KDATA 3;
  en_cpu : seg c' FS = Z.shiftl SEG_KCPU 3 /\ seg c' GS = Z.shiftl SEG_KCPU 3;
  en_mem : same_outside (a - 4) (if user c then a + sizeof_tf else a + 68) (memory c) (memory c')
}.

Lemma trap_enters c esp0 ss0 n err next : let a := frame_top esp0 c in
  mach_ok c -> 4 <= a < 2 ^ 32 - sizeof_tf -> 0 <= n < 256 -> 0 <= err < 2 ^ 32 -> 0 <= next < 2 ^ 32 ->
  entered c a n err next (run (vector n ++ alltraps_entry) (deliver esp0 ss0 n err next c)).
Proof.
  intros a Hok Ha Hn Herr Hnext.
  destruct (vector_pushes c esp0 ss0 n err next alltraps_entry Hok Ha Hn Herr Hnext) as (c1 & -> & He & Hg & Hs & Hcs & Hss & Hm & Hf). fold a in He, Hm, Hf.
  destruct Hok as [Hg0 Hs0 Hf0].
  assert (Hgr : forall r, 0 <= gpr c1 r < 2 ^ 32).
  { intros r. destruct (reg_eqb r ESP) eqn:E; [|rewrite Hg by done; apply Hg0]. destruct r; try done. rewrite He. unfold sizeof_tf in Ha. lia. }
  destruct (alltraps_pushes c1 a He) as (H1 & H2 & H3 & H4 & H5 & H6 & H7 & H8 & H9 & H10); [done| |done|].
  { intros r ??. by rewrite Hs. }
  set (c' := run alltraps_entry c1) in *. clearbody c'.
  split; try done; [|congruence|by intros Hu; rewrite H5; apply Hss|].
  - cbn [tf_at frame_of tf_edi tf_esi tf_ebp tf_oesp tf_ebx tf_edx tf_ecx tf_eax tf_gs tf_fs tf_es tf_ds tf_trapno tf_err tf_eip tf_cs tf_eflags tf_esp tf_ss] in Hf, H10.
    destruct Hf as (T1 & T2 & T3 & T4 & T5 & T6 & T7), H10 as (F1 & F2 & F3 & F4 & F5 & F6 & F7 & F8 & F9 & F10 & F11 & F12).
    unfold tf_at. rewrite F1, F2, F3, F4, F5, F6, F7, F8, F9, F10, F11, F12.
    rewrite !Hg, !Hs by done. rewrite !(same_ld32 _ _ _ _ _ H3) by lia. rewrite !(same_ld16 _ _ _ _ _ H3) by lia. by rewrite T1, T2, T3, T4, T5, T6, T7.
  - unfold sizeof_tf in *. eapply same_trans; [eapply same_weaken; [exact Hm|lia|lia]|]. eapply same_weaken; [exact H3|lia|destruct (user c); lia].
Qed.

(** What [trapret] does with a frame at [a]. *)
Record resumed (tf : trapframe) (a : Z) (c c' : mach) : Prop := {
  re_regs : gpr c' EDI = tf_edi tf /\ gpr c' ESI = tf_esi tf /\ gpr c' EBP = tf_ebp tf /\ gpr c' EBX = tf_ebx tf /\
    gpr c' EDX = tf_edx tf /\ gpr c' ECX = tf_ecx tf /\ gpr c' EAX = tf_eax tf;
  re_segs : seg c' GS = tf_gs tf /\ seg c' FS = tf_fs tf /\ seg c' ES = tf_es tf /\ seg c' DS = tf_ds tf /\ seg c' CS = tf_cs tf;
  re_eip : eip c' = tf_eip tf;
  re_eflags : eflags c' = tf_eflags tf;
  re_stack : if Z.land (tf_cs tf) 3 =? 0 then gpr c' ESP = a + 68 /\ seg c' SS = seg c SS else gpr c' ESP = tf_esp tf /\ seg c' SS = tf_ss tf;
  re_mem : memory c' = memory c
}.

Lemma trap_exits c a : gpr c ESP = a - 4 -> 4 <= a < 2 ^ 32 - sizeof_tf -> seg c CS = Z.shiftl SEG_KCODE 3 ->
  resumed (tf_at (memory c) a) a c (run alltraps_exit c).
Proof.
  destruct c as [g s ip fl m]. cbn [gpr seg memory]. intros He Ha Hcs. unfold sizeof_tf in *. unfold alltraps_exit, trapret.
  rewrite run_mk. cbn [exec_instr]. rewrite (addl_mk _ _ _ _ _ _ a) by lia.
  repeat mstep. rewrite (iret_mk _ _ _ _ _ (a + 56)) by (reflexivity || lia). mred. rewrite Hcs. change (Z.land (Z.shiftl SEG_KCODE 3) 3) with 0.
  rewrite <- !Z.add_assoc. change (56 + 4) with 60. change (56 + 12) with 68. cbn [run]. unfold tf_at. destruct (Z.land _ 3 =? 0) eqn:E.
  all: split; cbn [gpr seg eip eflags memory upd upds reg_eqb sreg_eqb tf_edi tf_esi tf_ebp tf_oesp tf_ebx tf_edx tf_ecx tf_eax tf_gs tf_fs tf_es tf_ds tf_trapno
    tf_err tf_eip tf_cs tf_eflags tf_esp tf_ss]; rewrite ?E; repeat split; reflexivity.
Qed.

(** What the compiler promises of the call of a function that returns: the stack
    pointer, the code and the stack segment are those before it. *)
Record returned (c c' : mach) : Prop := {
  rt_esp : gpr c' ESP = gpr c ESP;
  rt_cs : seg c' CS = seg c CS;
  rt_ss : seg c' SS = seg c SS
}.

(** The registers, flags and segments of two machines. *)
Record same_regs (c c' : mach) : Prop := {
  sr_gpr : forall r, gpr c' r = gpr c r;
  sr_seg : forall r, seg c' r = seg c r;
  sr_flags : eflags c' = eflags c
}.

(** C6: an interrupt is invisible to the code it interrupts.  In user or in
    kernel mode, for each of the 256 vectors, the code of vectors.S and
    trapasm.S gives [trap] a frame with the interrupted registers, and when
    [trap] returns with the frame as it was, [trapret] resumes at the
    interrupted instruction with every register, segment and flag the same, and
    with the memory that [trap] left. *)
Theorem trap_transparent c esp0 ss0 n err next c2 :
  let a := frame_top esp0 c in
  let c1 := run (vector n ++ alltraps_entry) (deliver esp0 ss0 n err next c) in
  let c3 := run alltraps_exit c2 in
  mach_ok c -> Z.land (seg c CS) 3 = 0 \/ Z.land (seg c CS) 3 = 3 ->
  4 <= a < 2 ^ 32 - sizeof_tf -> 0 <= n < 256 -> 0 <= err < 2 ^ 32 -> 0 <= next < 2 ^ 32 ->
  returned c1 c2 -> tf_at (memory c2) a = tf_at (memory c1) a ->
  ld32 (memory c1) (gpr c1 ESP) = a /\ tf_at (memory c1) a = frame_of c a n err next /\
  same_regs c c3 /\ eip c3 = next /\ memory c3 = memory c2.
Proof.
  intros a c1 c3 Hok Hcs Ha Hn Herr Hnext [R1 R2 R3] Htf.
  pose proof (trap_enters c esp0 ss0 n err next Hok Ha Hn Herr Hnext) as E. fold a c1 in E.
  destruct (trap_exits c2 a) as [(G1 & G2 & G3 & G4 & G5 & G6 & G7) (S1 & S2 & S3 & S4 & S5) He Hf Hs Hm];
    [rewrite R1; apply E|done|rewrite R2; apply E|]. fold c3 in G1, G2, G3, G4, G5, G6, G7, S1, S2, S3, S4, S5, He, Hf, Hs, Hm. clearbody c1 c3.
  rewrite Htf, (en_frame _ _ _ _ _ _ E) in *. unfold frame_of in G1, G2, G3, G4, G5, G6, G7, S1, S2, S3, S4, S5, He, Hf, Hs. cbn [tf_edi tf_esi tf_ebp tf_oesp tf_ebx tf_edx tf_ecx tf_eax
    tf_gs tf_fs tf_es tf_ds tf_trapno tf_err tf_eip tf_cs tf_eflags tf_esp tf_ss] in *.
  split; [rewrite (en_esp _ _ _ _ _ _ E); apply E|]. split; [done|]. split; [|done].
  assert (gpr c3 ESP = gpr c ESP /\ seg c3 SS = seg c SS) as [HE HS].
  { pose proof (en_ss _ _ _ _ _ _ E) as Es. unfold a, frame_top, user, sizeof_tf in *. destruct Hcs as [Hc|Hc]; rewrite Hc in *; cbn in Hs, Es; [|done].
    destruct Hs as [-> ->]. rewrite R3, Es by done. split; [|done]. cbn. lia. }
  split; [intros []| intros []|]; done.
Qed.

(** ** System calls *)

Section syscalls.
Context (end_ data_ forkret_ trapret_ : Z) (stk : list Z).
Local Abbreviation calls := (syscalls end_ data_ forkret_ trapret_ stk).
Local Abbreviation trap_ := (trap end_ data_ forkret_ trapret_ stk).

(** A handler that returns [r] with the frame of the process as it was. *)
Record handles (f : K Z) (tf : trapframe) (me : nat) (s : kstate) (r : Z) (s2 : kstate) : Prop := {
  ha_proc : exists p, k_proc s = Some me /\ k_ptable s !! me = Some p /\ p_killed p = 0 /\
    f (set_k_ptable (<[me := set_p_tf tf p]> (k_ptable s)) s) = Ret r s2;
  ha_after : exists p2, k_ptable s2 !! me = Some p2 /\ p_tf p2 = tf /\ p_killed p2 = 0
}.

Lemma trap_syscall dev tf f me s r s2 :
  tf_trapno tf = T_SYSCALL -> calls (s32 (tf_eax tf)) = Some f -> handles f tf me s r s2 ->
  exists s3 p3, trap_ dev tf s = Ret (d_shift dev) s3 /\ k_ptable s3 !! me = Some p3 /\ p_tf p3 = set_tf_eax (u32 r) tf.
Proof.
  intros Hn Hf [(p & Hme & Hp & Hk & Hr) (p2 & Hp2 & Htf & Hk2)]. unfold trap. rewrite Hn, Z.eqb_refl.
  kstep (myproc_Ret _ _ Hme). kstep (get_proc_Ret _ _ _ Hp). rewrite Hk. change (negb (0 =? 0)) with false. cbn iota. rewrite ret_bind.
  rewrite (bind_Ret _ _ _ _ _ (upd_proc_Ret _ (set_p_tf tf) _ _ Hp)). set (s1 := set_k_ptable _ s) in *.
  assert (Hp1 : k_ptable s1 !! me = Some (set_p_tf tf p)) by (cbn; apply list_lookup_insert_eq; by eapply lookup_lt_Some).
  assert (Hsys : syscall end_ data_ forkret_ trapret_ stk s1 = Ret tt (set_k_ptable (<[me := set_p_tf (set_tf_eax (u32 r) tf) p2]> (k_ptable s2)) s2)).
  { unfold syscall. kstep (myproc_Ret s1 me Hme). kstep (get_proc_Ret _ _ _ Hp1). cbn [p_tf set_p_tf]. rewrite Hf. kstep Hr. unfold set_eax.
    rewrite (upd_proc_Ret _ _ _ _ Hp2), Htf. done. }
  kstep Hsys. set (p3 := set_p_tf _ p2). eexists _, p3.
  assert (Hp3 : k_ptable (set_k_ptable (<[me := p3]> (k_ptable s2)) s2) !! me = Some p3) by (cbn; apply list_lookup_insert_eq; by eapply lookup_lt_Some).
  kstep (get_proc_Ret _ _ _ Hp3). change (p_killed p3) with (p_killed p2). rewrite Hk2. change (negb (0 =? 0)) with false. cbn iota. rewrite ret_bind.
  split; [reflexivity|]. split; [exact Hp3|done].
Qed.

(** The registers after a call: [eax] is [v], the return address is popped. *)
Record called (v ra : Z) (c c' : mach) : Prop := {
  ca_eip : eip c' = ra;
  ca_eax : gpr c' EAX = v;
  ca_esp : gpr c' ESP = u32 (gpr c ESP + 4);
  ca_regs : forall r, reg_eqb r EAX = false -> reg_eqb r ESP = false -> gpr c' r = gpr c r;
  ca_seg : forall r, seg c' r = seg c r;
  ca_flags : eflags c' = eflags c
}.

(** C7: a stub of usys.S is a call of the kernel's function of that number.
    From user mode, the stub puts the number in [eax] and traps; [trap] in
    trap.c, on the frame the assembly built, runs the handler of the number and
    returns; and when the memory of the frame is then what [trap] stored,
    the process is at the [ret] of the stub, which returns to the caller with
    the handler's result in [eax] and every other register, segment and flag
    the same. *)
Theorem syscall_stub_returns dev f me s r s2 c esp0 ss0 num next :
  let c0 := run (SYSCALL_before num) c in
  let c1 := run (vector T_SYSCALL ++ alltraps_entry) (deliver esp0 ss0 T_SYSCALL 0 next c0) in
  let a := esp0 - sizeof_tf in
  mach_ok c -> user c = true -> 4 <= a < 2 ^ 32 - sizeof_tf -> 0 <= next < 2 ^ 32 -> num ∈ usys.*2 ->
  calls num = Some f -> handles f (tf_at (memory c1) a) me s r s2 ->
  exists s3 p3, trap_ dev (tf_at (memory c1) a) s = Ret (d_shift dev) s3 /\ k_ptable s3 !! me = Some p3 /\
  p_tf p3 = set_tf_eax (u32 r) (tf_at (memory c1) a) /\
  forall c2, returned c1 c2 -> tf_at (memory c2) a = p_tf p3 ->
    let c3 := run alltraps_exit c2 in
    eip c3 = next /\ called (u32 r) (ld32 (memory c2) (gpr c ESP)) c (run SYSCALL_after c3).
Proof.
  intros c0 c1 a Hok Hu Ha Hnext Hnum Hf Hh.
  assert (Hn : 0 < num < 22).
  { assert (HF : Forall (fun n => 0 < n < 22) usys.*2) by (cbn; repeat constructor; lia). by apply (proj1 (Forall_forall _ _) HF). }
  assert (Hok0 : mach_ok c0).
  { destruct Hok as [Hg Hs Hfl]. split; [|done..]. intros q. cbn. unfold upd. destruct (reg_eqb q EAX); [lia|apply Hg]. }
  assert (Ha0 : frame_top esp0 c0 = a) by (unfold frame_top; change (user c0) with (user c); by rewrite Hu).
  pose proof (trap_enters c0 esp0 ss0 T_SYSCALL 0 next Hok0) as E. rewrite Ha0 in E. specialize (E Ha ltac:(done) ltac:(done) Hnext). fold c1 in E.
  assert (Htf : tf_at (memory c1) a = frame_of c0 a T_SYSCALL 0 next) by apply E.
  destruct (trap_syscall dev (tf_at (memory c1) a) f me s r s2) as (s3 & p3 & Ht & Hp3 & Hp3f); [by rewrite Htf| |done|].
  { rewrite Htf. cbn [frame_of tf_eax]. change (gpr c0 EAX) with num. by rewrite s32_small by lia. }
  exists s3, p3. split; [done|]. split; [done|]. split; [done|]. intros c2 [R1 R2 R3] Hc2 c3. rewrite Hp3f, Htf in Hc2.
  destruct (trap_exits c2 a) as [(G1 & G2 & G3 & G4 & G5 & G6 & G7) (S1 & S2 & S3 & S4 & S5) He Hfl Hs Hm];
    [rewrite R1; apply E|done|rewrite R2; apply E|]. fold c3 in G1, G2, G3, G4, G5, G6, G7, S1, S2, S3, S4, S5, He, Hfl, Hs, Hm. clearbody c3.
  rewrite Hc2 in *. unfold set_tf_eax, frame_of in G1, G2, G3, G4, G5, G6, G7, S1, S2, S3, S4, S5, He, Hfl, Hs. change (user c0) with (user c) in *. rewrite Hu in *.
  cbn [tf_edi tf_esi tf_ebp tf_oesp tf_ebx tf_edx tf_ecx tf_eax tf_gs tf_fs tf_es tf_ds tf_trapno tf_err tf_eip tf_cs tf_eflags tf_esp tf_ss] in *.
  unfold user in Hu. apply Z.eqb_eq in Hu. change (seg c0 CS) with (seg c CS) in Hs. rewrite Hu in Hs. change (3 =? 0) with false in Hs. destruct Hs as [HE HS].
  split; [done|]. cbn [run SYSCALL_after exec_instr]. unfold pop. rewrite Hm, HE. split; try done; by intros [].
Qed.

(** The first process calls [exec(init, argv)]: its stack is that of a caller of
    the stub. *)
Lemma initcode_calls_exec c argv init : 12 <= gpr c ESP < 2 ^ 32 -> 0 <= argv < 2 ^ 32 -> 0 <= init < 2 ^ 32 ->
  let c' := run (initcode_start argv init) c in
  gpr c' EAX = 7 /\ ("exec"%string, 7) ∈ usys /\ gpr c' ESP = gpr c ESP - 12 /\
  ld32 (memory c') (gpr c' ESP + 4) = init /\ ld32 (memory c') (gpr c' ESP + 8) = argv.
Proof.
  destruct c as [g s ip fl m]. cbn [gpr]. intros He Ha Hi. assert (exists b, g ESP = b + 12) as [b Hb] by (exists (g ESP - 12); lia). rewrite Hb in *.
  unfold initcode_start. repeat mstep. cbn [run gpr memory upd reg_eqb]. split; [done|]. split; [by apply (bool_decide_unpack _); vm_compute|].
  split; [lia|]. split; readback; reflexivity.
Qed.

(** The stubs are one for each entry of the table of syscall.c. *)
Lemma usys_numbers : NoDup usys.*2 /\ forall num, num ∈ usys.*2 <-> is_Some (calls num).
Proof.
  split; [by apply (bool_decide_unpack (NoDup usys.*2)); vm_compute|]. intros num. split.
  - assert (HF : Forall (fun n => is_Some (calls n)) usys.*2) by (cbn; repeat constructor; by eexists). apply (proj1 (Forall_forall _ _) HF).
  - intros [f Hf]. assert (Hn : 0 < num < 22).
    { destruct num as [|q|q]; cbn in Hf; try done. do 5 (destruct q as [q|q|]; try done). }
    assert (HF : Forall (fun n => n ∈ usys.*2) (seqZ 1 21)) by (apply (bool_decide_unpack _); by vm_compute).
    apply (proj1 (Forall_forall _ _) HF), elem_of_seqZ. lia.
Qed.
End syscalls.

(** ** Context switches *)

(** The call [swtch(&old, new)] with its arguments on the stack. *)
Record swtch_call (c : mach) (old new : Z) : Prop := {
  sw_old : ld32 (memory c) (gpr c ESP + 4) = old;
  sw_new : ld32 (memory c) (gpr c ESP + 8) = new;
  sw_esp : 16 <= gpr c ESP < 2 ^ 32 - 12;
  sw_new_range : 0 <= new < 2 ^ 32 - 20;
  sw_old_apart : old + 4 <= gpr c ESP - 16 \/ gpr c ESP + 4 <= old;
  sw_new_apart : new + 20 <= gpr c ESP - 16 \/ gpr c ESP <= new;
  sw_old_new : old + 4 <= new \/ new + 20 <= old
}.

Lemma swtch_switches c old new : mach_ok c -> swtch_call c old new ->
  let c' := run swtch_code c in let e := gpr c ESP in let x := ctx_at (memory c) new in
  ld32 (memory c') old = e - 16 /\
  ctx_at (memory c') (e - 16) = mkCtx (gpr c EDI) (gpr c ESI) (gpr c EBX) (gpr c EBP) (ld32 (memory c) e) /\
  gpr c' EDI = cx_edi x /\ gpr c' ESI = cx_esi x /\ gpr c' EBX = cx_ebx x /\ gpr c' EBP = cx_ebp x /\ eip c' = cx_eip x /\ gpr c' ESP = new + 20 /\
  forall b, (b + 4 <= e - 16 \/ e <= b) -> (b + 4 <= old \/ old + 4 <= b) -> ld32 (memory c') b = ld32 (memory c) b.
Proof.
  destruct c as [g s ip fl m]. intros [Hg Hs Hf] [H1 H2 H3 H4 H5 H6 H7]. cbn [gpr memory] in *. unfold swtch_code.
  set (e := g ESP) in *. assert (He : g ESP = e) by done. clearbody e.
  rewrite run_mk. cbn [exec_instr]. mred. rewrite He, u32_small, H1 by lia. rewrite set_gpr_mk, run_mk. cbn [exec_instr]. mred. rewrite He, u32_small, H2 by lia. rewrite set_gpr_mk.
  assert (exists b, e = b + 16) as [b ->] by (exists (e - 16); lia).
  repeat mstep. cbn [run memory gpr eip upd reg_eqb]. replace (b + 16 - 16) with b in * by lia. unfold ctx_at. cbn [cx_edi cx_esi cx_ebx cx_ebp cx_eip].
  split; [readback; reflexivity|]. split; [readback; reflexivity|]. do 5 (split; [readback; reflexivity|]). split; [reflexivity|].
  intros q ??. readback. reflexivity.
Qed.

(** C8: [swtch] returns to its caller when the process is chosen again.  The
    call saves a [context] on the stack of the caller and a pointer to it in
    [*old], and continues on the other stack; after anything that leaves the
    saved context as it is, a [swtch] to the pointer comes back: the return
    address, the stack pointer and the registers that a callee saves are those
    of the first call, which has returned. *)
Theorem swtch_roundtrip c old new c2 old2 :
  mach_ok c -> swtch_call c old new -> mach_ok c2 ->
  let saved := ld32 (memory (run swtch_code c)) old in
  swtch_call c2 old2 saved -> ctx_at (memory c2) saved = ctx_at (memory (run swtch_code c)) saved ->
  let c3 := run swtch_code c2 in
  eip c3 = ld32 (memory c) (gpr c ESP) /\ gpr c3 ESP = gpr c ESP + 4 /\
  gpr c3 EDI = gpr c EDI /\ gpr c3 ESI = gpr c ESI /\ gpr c3 EBX = gpr c EBX /\ gpr c3 EBP = gpr c EBP.
Proof.
  intros Hc Hs Hc2 saved Hs2 Hx c3. destruct (swtch_switches c old new Hc Hs) as (H1 & H2 & _). fold saved in H1. clearbody saved. subst saved.
  destruct (swtch_switches c2 old2 _ Hc2 Hs2) as (_ & _ & G1 & G2 & G3 & G4 & G5 & G6 & _). fold c3 in G1, G2, G3, G4, G5, G6.
  rewrite Hx, H2 in *. cbn [cx_edi cx_esi cx_ebx cx_ebp cx_eip] in *. repeat split; try done. rewrite G6. lia.
Qed.

(** ** Concrete machines *)

Definition user_mach (m : mem) : mach :=
  mkMach (fun r => match r with EAX => 10 | ECX => 11 | EDX => 12 | EBX => 13 | ESP => 0x2f00 | EBP => 0x2f20 | ESI => 16 | EDI => 17 end)
    (fun r => match r with CS => 0x23 | _ => 0x2b end) 0x100 0x202 m.
Lemma user_mach_ok m : mach_ok (user_mach m).
Proof. split; [intros []|intros []|]; cbn; lia. Qed.

Lemma trap_transparent_witness :
  let c := user_mach (st32 ∅ 0x2f00 0x1234) in
  let c1 := run (vector 14 ++ alltraps_entry) (deliver 0x9000 0x10 14 6 0x100 c) in
  eip (run alltraps_exit c1) = 0x100 /\ ld32 (memory (run alltraps_exit c1)) 0x2f00 = 0x1234.
Proof.
  intros c c1. destruct (trap_transparent c 0x9000 0x10 14 6 0x100 c1) as (_ & _ & _ & He & Hm);
    [apply user_mach_ok|right; reflexivity|split; [by vm_compute|by vm_compute]|lia|lia|lia|split; reflexivity|reflexivity|].
  split; [exact He|rewrite Hm; by vm_compute].
Defined.

Lemma returned_set_memory m c : returned c (set_memory m c).
Proof. done. Qed.
Lemma getpid_handles tf : exists s2, handles sys_getpid tf 0 one_proc 7 s2.
Proof.
  eexists. split; eexists; [split; [reflexivity|]; split; [reflexivity|]; split; reflexivity|]. split; [reflexivity|]. split; reflexivity.
Qed.

Lemma syscall_stub_returns_witness :
  let c := user_mach (st32 ∅ 0x2f00 0x1234) in
  let c1 := run (vector T_SYSCALL ++ alltraps_entry) (deliver 0x9000 0x10 T_SYSCALL 0 0x107 (run (SYSCALL_before 11) c)) in
  let c2 := set_memory (st32 (memory c1) (0x9000 - sizeof_tf + 28) 7) c1 in
  called 7 0x1234 c (run SYSCALL_after (run alltraps_exit c2)).
Proof.
  intros c c1 c2.
  destruct (getpid_handles (tf_at (memory c1) (0x9000 - sizeof_tf))) as [s2 Hh].
  destruct (syscall_stub_returns 0x200000 0x101000 0 0 [] (mkDev 0 0 [] 0 []) sys_getpid 0 one_proc 7 s2
    c 0x9000 0x10 11 0x107) as (s3 & p3 & _ & _ & Hp & H);
    [apply user_mach_ok|reflexivity|by vm_compute|lia|by apply (bool_decide_unpack _); vm_compute|reflexivity|exact Hh|].
  destruct (H c2) as [_ H']; [apply returned_set_memory|rewrite Hp; by vm_compute|].
  replace (ld32 (memory c2) (gpr c ESP)) with 0x1234 in H' by (by vm_compute). exact H'.
Defined.

Lemma swtch_roundtrip_witness :
  let c := user_mach (st32 (st32 (st32 ∅ 0x2f00 0x1234) 0x2f04 0x500) 0x2f08 0x600) in
  let c1 := run swtch_code c in
  let c2 := set_memory (st32 (st32 (memory c1) 0x704 0x504) 0x708 0x2ef0) (set_gpr ESP 0x700 (user_mach ∅)) in
  eip (run swtch_code c2) = 0x1234 /\ gpr (run swtch_code c2) EBX = 13.
Proof.
  intros c c1 c2. destruct (swtch_roundtrip c 0x500 0x600 c2 0x504) as (He & _ & _ & _ & Hb & _).
  - apply user_mach_ok.
  - split; vm_compute; intuition congruence.
  - split; [intros []|intros []|]; by vm_compute.
  - split; vm_compute; intuition congruence.
  - by vm_compute.
  - split; [rewrite He; by vm_compute|rewrite Hb; by vm_compute].
Defined.
