(* ===== verification/UserProgs.v ===== *)
(** * The small user programs: cat.c, echo.c, wc.c, ls.c, ls2.c, rm.c, mkdir.c, ln.c, kill.c, init.c, forktest.c, zombie.c

    A user program is an interaction tree whose events are the system calls of
    user.h; it ends only by [exit].  The calls get a meaning from a handler over
    a [world]: what the reads of each file will return, in pieces of any length
    and with errors, which calls fail, and what has been written.

    The theorems give, for every such world, what a program has written when
    it exits, and that it exits. *)

From stdpp Require Import base list list_numbers numbers gmap strings.
From Stdlib Require Import ZArith Lia.
From ITree Require Import ITree ITreeFacts Events.State Events.StateFacts.
From S2P Require Import Prelude CString KState Printf Inode Fileio Sysfile.

(** ** System calls *)

(** [struct stat], the fields that the programs read. *)
Record ustat := mkUstat { us_type : Z; us_ino : Z; us_size : Z }.

(** [read] answers the bytes or, for a negative result, nothing. *)
Variant sysE : Type -> Type :=
| Open (path : list Z) (mode : Z) : sysE Z
| Read (fd n : Z) : sysE (option (list Z))
| Write (fd : Z) (bytes : list Z) : sysE Z
| Close (fd : Z) : sysE Z
| Fstat (fd : Z) : sysE (option ustat)
| Dup (fd : Z) : sysE Z
| Mknod (path : list Z) (major minor : Z) : sysE Z
| Mkdir (path : list Z) : sysE Z
| Unlink (path : list Z) : sysE Z
| Link (old new : list Z) : sysE Z
| Kill (pid : Z) : sysE Z
| Sleep (n : Z) : sysE Z
| Fork : sysE Z
| Wait : sysE Z
| Exec (path : list Z) (argv : list (list Z)) : sysE Z
| Exit : sysE void.

#[global] Instance itree_mret E : MRet (itree E) := fun _ x => go (RetF x).
#[global] Instance itree_mbind E : MBind (itree E) := fun _ _ k t => ITree.bind t k.

Definition sys {A} (e : sysE A) : itree sysE A := ITree.trigger e.
Definition exit_ {A} : itree sysE A := v ← sys Exit; match v : void with end.

Fixpoint each {A} (f : A -> itree sysE unit) (l : list A) : itree sysE unit :=
  match l with [] => mret tt | x :: l' => f x ;; each f l' end.

(** printf.c writes its characters one by one. *)
Definition putc (fd c : Z) : itree sysE unit := sys (Write fd [c]) ;; mret tt.
Definition printf_ (fd : Z) (fmt : list Z) (ap : list arg) : itree sysE unit := each (putc fd) (printf fmt ap).

Definition nl : list Z := [10].

(** ** cat.c *)

(** The body of the loop: again, or at the end whether there was an error. *)
Definition cat_body (fd : Z) (_ : unit) : itree sysE (unit + bool) :=
  n ← sys (Read fd 512);
  match n with
  | Some (c :: buf) => sys (Write 1 (c :: buf)) ;; mret (inl tt)
  | Some [] => mret (inr false)
  | None => mret (inr true)
  end.
Definition cat (fd : Z) : itree sysE unit :=
  n ← ITree.iter (cat_body fd) tt;
  if (n : bool) then printf_ 1 (chars "cat: read error" ++ nl) [] ;; exit_ else mret tt.

Definition cat_file (name : list Z) : itree sysE unit :=
  fd ← sys (Open name 0);
  if fd <? 0 then printf_ 1 (chars "cat: cannot open %s" ++ nl) [AStr name] ;; exit_
  else cat fd ;; sys (Close fd) ;; mret tt.
Definition cat_main (args : list (list Z)) : itree sysE unit :=
  match args with
  | [] => cat 0 ;; exit_
  | _ => each cat_file args ;; exit_
  end.

(** ** wc.c *)

Record counts := mkCounts { wc_l : Z; wc_w : Z; wc_c : Z; wc_inword : bool }.
(** [strchr(" \r\t\n\v", c)]; the terminating NUL is not found. *)
Definition wc_space (c : Z) : bool := bool_decide (c ∈ [32; 13; 9; 10; 11]).
Definition wc_char (k : counts) (c : Z) : counts :=
  let l := if c =? 10 then s32 (wc_l k + 1) else wc_l k in
  if wc_space c then mkCounts l (wc_w k) (s32 (wc_c k + 1)) false
  else if negb (wc_inword k) then mkCounts l (s32 (wc_w k + 1)) (s32 (wc_c k + 1)) true
  else mkCounts l (wc_w k) (s32 (wc_c k + 1)) true.
Definition wc_buf (k : counts) (buf : list Z) : counts := foldl wc_char k buf.
Definition wc_body (fd : Z) (k : counts) : itree sysE (counts + option counts) :=
  n ← sys (Read fd 512);
  match n with
  | Some (c :: buf) => mret (inl (wc_buf k (c :: buf)))
  | Some [] => mret (inr (Some k))
  | None => mret (inr None)
  end.
Definition wc (fd : Z) (name : list Z) : itree sysE unit :=
  r ← ITree.iter (wc_body fd) (mkCounts 0 0 0 false);
  match r with
  | None => printf_ 1 (chars "wc: read error" ++ nl) [] ;; exit_
  | Some k => printf_ 1 (chars "%d %d %d %s" ++ nl) [AInt (wc_l k); AInt (wc_w k); AInt (wc_c k); AStr name]
  end.

Definition wc_file (name : list Z) : itree sysE unit :=
  fd ← sys (Open name 0);
  if fd <? 0 then printf_ 1 (chars "wc: cannot open %s" ++ nl) [AStr name] ;; exit_
  else wc fd name ;; sys (Close fd) ;; mret tt.
Definition wc_main (args : list (list Z)) : itree sysE unit :=
  match args with
  | [] => wc 0 [] ;; exit_
  | _ => each wc_file args ;; exit_
  end.

(** ** echo.c, kill.c, ln.c, mkdir.c, rm.c, zombie.c *)

Fixpoint echo_loop (args : list (list Z)) : itree sysE unit :=
  match args with
  | [] => mret tt
  | a :: rest => printf_ 1 (chars "%s%s") [AStr a; AStr (match rest with [] => nl | _ => [32] end)] ;; echo_loop rest
  end.
Definition echo_main (args : list (list Z)) : itree sysE unit := echo_loop args ;; exit_.

Definition kill_main (args : list (list Z)) : itree sysE unit :=
  match args with
  | [] => printf_ 2 (chars "usage: kill pid..." ++ nl) [] ;; exit_
  | _ => each (fun a => sys (Kill (atoi a)) ;; mret tt) args ;; exit_
  end.

Definition ln_main (args : list (list Z)) : itree sysE unit :=
  match args with
  | [old; new] =>
      r ← sys (Link old new);
      (if r <? 0 then printf_ 2 (chars "link %s %s: failed" ++ nl) [AStr old; AStr new] else mret tt) ;;
      exit_
  | _ => printf_ 2 (chars "Usage: ln old new" ++ nl) [] ;; exit_
  end.

(** The loop of mkdir.c and rm.c, which stops at the first failure. *)
Fixpoint until_failed (f : list Z -> sysE Z) (fmt : list Z) (args : list (list Z)) : itree sysE unit :=
  match args with
  | [] => mret tt
  | a :: rest => r ← sys (f a); if r <? 0 then printf_ 2 fmt [AStr a] else until_failed f fmt rest
  end.
Definition mkdir_main (args : list (list Z)) : itree sysE unit :=
  match args with
  | [] => printf_ 2 (chars "Usage: mkdir files..." ++ nl) [] ;; exit_
  | _ => until_failed Mkdir (chars "mkdir: %s failed to create" ++ nl) args ;; exit_
  end.
Definition rm_main (args : list (list Z)) : itree sysE unit :=
  match args with
  | [] => printf_ 2 (chars "Usage: rm files..." ++ nl) [] ;; exit_
  | _ => until_failed Unlink (chars "rm: %s failed to delete" ++ nl) args ;; exit_
  end.

Definition zombie_main : itree sysE unit :=
  pid ← sys Fork;
  (if 0 <? pid then sys (Sleep 5) ;; mret tt else mret tt) ;; exit_.

(** ** ls.c and ls2.c *)

(** The search for the last slash, from [path + n] down. *)
Fixpoint after_slash (path : list Z) (n : nat) : nat :=
  if bool_decide (path !! n = Some 47) then S n
  else match n with O => O | S n' => after_slash path n' end.
Definition fmtname (path : list Z) : list Z :=
  let p := drop (after_slash path (length path)) path in
  if (DIRSIZ <=? length p)%nat then p else p ++ replicate (DIRSIZ - length p) 32.

(** [stat] of ulib.c. *)
Definition stat_ (path : list Z) : itree sysE (option ustat) :=
  fd ← sys (Open path 0);
  if fd <? 0 then mret None else st ← sys (Fstat fd); sys (Close fd) ;; mret st.

Definition ls_line (name : list Z) (st : ustat) : itree sysE unit :=
  printf_ 1 (chars "%s %d %d %d" ++ nl) [AStr (fmtname name); AInt (us_type st); AInt (s32 (us_ino st)); AInt (s32 (us_size st))].

(** One [struct dirent] of a directory; [buf] is the path, a slash and the name. *)
Definition ls_entry (path de : list Z) : itree sysE unit :=
  if le_dec (take 2 de) =? 0 then mret tt
  else
    let buf := path ++ [47] ++ upto_nul (take DIRSIZ (drop 2 de)) in
    st ← stat_ buf;
    match st with
    | None => printf_ 1 (chars "ls: cannot stat %s" ++ nl) [AStr buf]
    | Some st => ls_line buf st
    end.

(** The body of the loop over the entries. *)
Definition ls_body (path : list Z) (fd : Z) (_ : unit) : itree sysE (unit + unit) :=
  n ← sys (Read fd 16);
  match n with
  | Some de => if (length de =? 16)%nat then ls_entry path de ;; mret (inl tt) else mret (inr tt)
  | None => mret (inr tt)
  end.

Definition ls (path : list Z) : itree sysE unit :=
  fd ← sys (Open path 0);
  if fd <? 0 then printf_ 2 (chars "ls: cannot open %s" ++ nl) [AStr path]
  else
    st ← sys (Fstat fd);
    match st with
    | None => printf_ 2 (chars "ls: cannot stat %s" ++ nl) [AStr path] ;; sys (Close fd) ;; mret tt
    | Some st =>
        (if us_type st =? T_FILE then ls_line path st
         else if us_type st =? T_DIR then
           if 512 <? Z.of_nat (length path + 1 + DIRSIZ + 1) then printf_ 1 (chars "ls: path too long" ++ nl) []
           else
             ITree.iter (ls_body path fd) tt
         else mret tt) ;;
        sys (Close fd) ;; mret tt
    end.

Definition ls_main (args : list (list Z)) : itree sysE unit :=
  match args with [] => ls [46] ;; exit_ | _ => each ls args ;; exit_ end.
Definition ls2_main (args : list (list Z)) : itree sysE unit :=
  printf_ 1 (chars "Esse programa foi modificado") [] ;; ls_main args.

(** ** init.c and forktest.c *)

(** The loop that waits for the shell, and the loop around it. *)
Definition init_wait (pid : Z) (_ : unit) : itree sysE (unit + unit) :=
  wpid ← sys Wait;
  if (0 <=? wpid) && negb (wpid =? pid) then printf_ 1 (chars "zombie!" ++ nl) [] ;; mret (inl tt)
  else mret (inr tt).
Definition init_body (_ : unit) : itree sysE (unit + unit) :=
  printf_ 1 (chars "init: starting sh" ++ nl) [] ;;
  pid ← sys Fork;
  if pid <? 0 then printf_ 1 (chars "init: fork failed" ++ nl) [] ;; exit_
  else if pid =? 0 then sys (Exec (chars "sh") [chars "sh"]) ;; printf_ 1 (chars "init: exec sh failed" ++ nl) [] ;; exit_
  else ITree.iter (init_wait pid) tt ;; mret (inl tt).
Definition init_main : itree sysE unit :=
  fd ← sys (Open (chars "console") O_RDWR);
  (if fd <? 0 then sys (Mknod (chars "console") 1 1) ;; sys (Open (chars "console") O_RDWR) ;; mret tt else mret tt) ;;
  sys (Dup 0) ;; sys (Dup 0) ;;
  ITree.iter init_body tt.

(** [printf] of forktest.c writes the format as it is. *)
Definition ft_printf (fd : Z) (s : list Z) : itree sysE unit := sys (Write fd s) ;; mret tt.
Definition ft_N : nat := 1000.
(** The loop that forks: the number of children. *)
Fixpoint ft_forks (left : nat) (n : nat) : itree sysE nat :=
  match left with
  | O => mret n
  | S left' =>
      pid ← sys Fork;
      if pid <? 0 then mret n
      else if pid =? 0 then exit_
      else ft_forks left' (S n)
  end.
Fixpoint ft_waits (n : nat) : itree sysE unit :=
  match n with
  | O => mret tt
  | S n' => r ← sys Wait; if r <? 0 then ft_printf 1 (chars "wait stopped early" ++ nl) ;; exit_ else ft_waits n'
  end.
Definition forktest : itree sysE unit :=
  ft_printf 1 (chars "fork test" ++ nl) ;;
  n ← ft_forks ft_N 0;
  if (n =? ft_N)%nat then ft_printf 1 (chars "fork claimed to work N times!" ++ nl) ;; exit_
  else
    ft_waits n ;;
    r ← sys Wait;
    if negb (r =? -1) then ft_printf 1 (chars "wait got too many" ++ nl) ;; exit_
    else ft_printf 1 (chars "fork test OK" ++ nl).
Definition forktest_main : itree sysE unit := forktest ;; exit_.

(** ** The world of a program *)

(** A read that is to come: its bytes, or an error. *)
Abbreviation rd := (option (list Z)).

(** The calls that are logged. *)
Inductive call := CMkdir (path : list Z) | CUnlink (path : list Z) | CLink (old new : list Z) | CKill (pid : Z) | CSleep (n : Z).

Record world := mkWorld {
  w_files : list Z -> option (list rd * option ustat);  (* the files that can be opened *)
  w_fd : gmap Z (list rd * option ustat);  (* the open descriptors: their reads, their [struct stat] *)
  w_out : list (Z * list Z);               (* the writes *)
  w_log : list call;                       (* the other calls *)
  w_fork : list Z;                         (* the answers of [fork] to come *)
  w_wait : list Z                          (* the answers of [wait] to come *)
}.
Definition set_files v (w : world) : world := mkWorld v (w_fd w) (w_out w) (w_log w) (w_fork w) (w_wait w).
Definition set_fd v (w : world) : world := mkWorld (w_files w) v (w_out w) (w_log w) (w_fork w) (w_wait w).
Definition add_out v (w : world) : world := mkWorld (w_files w) (w_fd w) (w_out w ++ v) (w_log w) (w_fork w) (w_wait w).
Definition add_log (e : call) (w : world) : world := mkWorld (w_files w) (w_fd w) (w_out w) (w_log w ++ [e]) (w_fork w) (w_wait w).
Definition set_fork v (w : world) : world := mkWorld (w_files w) (w_fd w) (w_out w) (w_log w) v (w_wait w).
Definition set_wait v (w : world) : world := mkWorld (w_files w) (w_fd w) (w_out w) (w_log w) (w_fork w) v.

(** How a program ends. *)
Variant doneE : Type -> Type :=
| Exited (w : world) : doneE void
| Became (path : list Z) (argv : list (list Z)) (w : world) : doneE void.

Section world.
(** The calls on a name that fail. *)
Context (fails : list Z -> bool).

(** The lowest descriptor that is free, of the [NOFILE] ones. *)
Definition free_fd (m : gmap Z (list rd * option ustat)) : option Z :=
  head (filter (fun i => m !! i = None) (seqZ 0 (Z.of_nat NOFILE))).

Definition do_open (f : list rd * option ustat) (w : world) : world * Z :=
  match free_fd (w_fd w) with Some fd => (set_fd (<[fd := f]> (w_fd w)) w, fd) | None => (w, -1) end.
Definition do_read (fd n : Z) (w : world) : world * option (list Z) :=
  match w_fd w !! fd with
  | Some (Some l :: rs, st) =>
      let rest := drop (Z.to_nat n) l in
      (set_fd (<[fd := ((match rest with [] => rs | _ => Some rest :: rs end), st)]> (w_fd w)) w, Some (take (Z.to_nat n) l))
  | Some (None :: rs, st) => (set_fd (<[fd := (rs, st)]> (w_fd w)) w, None)
  | Some ([], _) => (w, Some [])
  | None => (w, None)
  end.
Definition named (name : list Z) (e : call) (w : world) : world * Z := (add_log e w, if fails name then -1 else 0).

Definition handler : forall A, sysE A -> world -> itree doneE (world * A) := fun A e w =>
  match e in sysE A return itree doneE (world * A) with
  | Open path _ => go (RetF (match w_files w path with Some f => do_open f w | None => (w, -1) end))
  | Read fd n => go (RetF (do_read fd n w))
  | Write fd bytes => go (RetF (add_out [(fd, bytes)] w, Z.of_nat (length bytes)))
  | Close fd => go (RetF (set_fd (delete fd (w_fd w)) w, 0))
  | Fstat fd => go (RetF (w, w_fd w !! fd ≫= snd))
  | Dup fd => go (RetF (match w_fd w !! fd with Some f => do_open f w | None => (w, -1) end))
  | Mknod path a b =>
      go (RetF (if fails path then (w, -1) else (set_files (fun p => if decide (p = path) then Some ([], None) else w_files w p) w, 0)))
  | Mkdir path => go (RetF (named path (CMkdir path) w))
  | Unlink path => go (RetF (named path (CUnlink path) w))
  | Link old new => go (RetF (named new (CLink old new) w))
  | Kill pid => go (RetF (add_log (CKill pid) w, 0))
  | Sleep n => go (RetF (add_log (CSleep n) w, 0))
  | Fork => go (RetF (match w_fork w with [] => (w, -1) | p :: l => (set_fork l w, p) end))
  | Wait => go (RetF (match w_wait w with [] => (w, -1) | p :: l => (set_wait l w, p) end))
  | Exec path argv =>
      if fails path then go (RetF (w, -1)) else ITree.bind (ITree.trigger (Became path argv w)) (fun v : void => match v with end)
  | Exit => ITree.bind (ITree.trigger (Exited w)) (fun v : void => match v with end)
  end.

Definition run {A} (t : itree sysE A) (w : world) : itree doneE (world * A) := interp_state handler t w.
Definition exited {A} (w : world) : itree doneE A := ITree.bind (ITree.trigger (Exited w)) (fun v : void => match v with end).

(** A program returns to its caller, or ends. *)
Definition returns {A} (t : itree sysE A) (w : world) (x : A) (w' : world) : Prop := eutt eq (run t w) (go (RetF (w', x))).
Definition exits {A} (t : itree sysE A) (w w' : world) : Prop := eutt eq (run t w) (exited w').

Lemma returns_ret {A} (x : A) w : returns (mret x) w x w.
Proof. unfold returns, run, mret, itree_mret. rewrite interp_state_ret. reflexivity. Qed.
Lemma returns_sys {A} (e : sysE A) w x w' : handler A e w = go (RetF (w', x)) -> returns (sys e) w x w'.
Proof. intros H. unfold returns, run, sys. rewrite interp_state_trigger, H. reflexivity. Qed.
Lemma run_bind {A B} (t : itree sysE A) (k : A -> itree sysE B) w x w' : returns t w x w' -> eutt eq (run (t ≫= k) w) (run (k x) w').
Proof.
  intros H. unfold run, mbind, itree_mbind. rewrite interp_state_bind. unfold returns, run in H. rewrite H, bind_ret_l. reflexivity.
Qed.
Lemma returns_bind {A B} (t : itree sysE A) (k : A -> itree sysE B) w x w' y w'' :
  returns t w x w' -> returns (k x) w' y w'' -> returns (t ≫= k) w y w''.
Proof. intros H1 H2. unfold returns. rewrite (run_bind _ _ _ _ _ H1). exact H2. Qed.
Lemma exits_bind {A B} (t : itree sysE A) (k : A -> itree sysE B) w x w' w'' :
  returns t w x w' -> exits (k x) w' w'' -> exits (t ≫= k) w w''.
Proof. intros H1 H2. unfold exits. rewrite (run_bind _ _ _ _ _ H1). exact H2. Qed.
Lemma exited_bind {A B} (k : A -> itree doneE B) w : eutt eq (ITree.bind (exited w) k) (exited w).
Proof. unfold exited. rewrite bind_bind. apply eutt_clo_bind with eq; [reflexivity|]. intros []. Qed.
Lemma exits_early {A B} (t : itree sysE A) (k : A -> itree sysE B) w w' : exits t w w' -> exits (t ≫= k) w w'.
Proof.
  intros H. unfold exits, run, mbind, itree_mbind. rewrite interp_state_bind. unfold exits, run in H. rewrite H. apply exited_bind.
Qed.
Lemma exits_exit {A} w : exits (@exit_ A) w w.
Proof.
  unfold exits, exit_, run, mbind, itree_mbind, sys. rewrite interp_state_bind, interp_state_trigger. cbn. apply exited_bind.
Qed.

(** Loops. *)
Lemma iter_again {I R} (body : I -> itree sysE (I + R)) i w j w' :
  returns (body i) w (inl j) w' -> eutt eq (run (ITree.iter body i) w) (run (ITree.iter body j) w').
Proof.
  intros H. unfold run. rewrite unfold_iter, interp_state_bind. unfold returns, run in H. rewrite H, bind_ret_l. cbn. rewrite interp_state_tau, tau_eutt. reflexivity.
Qed.
Lemma iter_done {I R} (body : I -> itree sysE (I + R)) i w x w' : returns (body i) w (inr x) w' -> returns (ITree.iter body i) w x w'.
Proof.
  intros H. unfold returns, run. rewrite unfold_iter, interp_state_bind. unfold returns, run in H. rewrite H, bind_ret_l. cbn. rewrite interp_state_ret. reflexivity.
Qed.
Lemma iter_exits {I R} (body : I -> itree sysE (I + R)) i w w' : exits (body i) w w' -> exits (ITree.iter body i) w w'.
Proof.
  intros H. unfold exits, run. rewrite unfold_iter, interp_state_bind. unfold exits, run in H. rewrite H. apply exited_bind.
Qed.

(** ** What is written and read *)

(** The bytes written to a descriptor. *)
Definition text (fd : Z) (outs : list (Z * list Z)) : list Z := concat (snd <$> filter (fun o => fst o = fd) outs).
Lemma text_app fd a b : text fd (a ++ b) = text fd a ++ text fd b.
Proof. unfold text. by rewrite filter_app, fmap_app, concat_app. Qed.
Lemma text_cons fd fd' l b : text fd ((fd', l) :: b) = (if decide (fd' = fd) then l else []) ++ text fd b.
Proof. unfold text. rewrite filter_cons. cbn. by destruct (decide (fd' = fd)). Qed.

Lemma add_out_nil w : add_out [] w = w.
Proof. unfold add_out. rewrite app_nil_r. by destruct w. Qed.
Lemma add_out_app a b w : add_out b (add_out a w) = add_out (a ++ b) w.
Proof. unfold add_out. cbn. by rewrite app_assoc. Qed.
Lemma set_fd_same w : set_fd (w_fd w) w = w.
Proof. by destruct w. Qed.

Definition printed (fd : Z) (l : list Z) : list (Z * list Z) := (fun c => (fd, [c])) <$> l.
Lemma text_printed fd fd' l : text fd (printed fd' l) = if decide (fd' = fd) then l else [].
Proof.
  induction l as [|c l IH]; [by destruct (decide _)|]. unfold printed. rewrite fmap_cons, text_cons. fold (printed fd' l). rewrite IH. by destruct (decide _).
Qed.
Lemma printf_returns fd fmt ap w : returns (printf_ fd fmt ap) w tt (add_out (printed fd (printf fmt ap)) w).
Proof.
  unfold printf_. generalize (printf fmt ap). intros l. revert w. induction l as [|c l IH]; intros w.
  - cbn. rewrite add_out_nil. apply returns_ret.
  - change (printed fd (c :: l)) with ([(fd, [c])] ++ printed fd l). rewrite <- add_out_app. cbn [each]. apply (returns_bind _ _ _ tt (add_out [(fd, [c])] w)).
    + unfold putc. eapply returns_bind; [by apply returns_sys|]. apply returns_ret.
    + apply IH.
Qed.

(** The bytes that come before the end of the file or an error, and which of
    them it is. *)
Fixpoint stream (rs : list rd) : list Z * bool :=
  match rs with
  | [] | Some [] :: _ => ([], true)
  | None :: _ => ([], false)
  | Some l :: rs' => let '(t, ok) := stream rs' in (l ++ t, ok)
  end.

Lemma do_read_stream fd n w rs st t ok : 0 < n -> w_fd w !! fd = Some (rs, st) -> stream rs = (t, ok) ->
  exists rs', let w' := set_fd (<[fd := (rs', st)]> (w_fd w)) w in
    (t = [] /\ do_read fd n w = (w', if ok then Some [] else None)) \/
    exists c l t', t = c :: l ++ t' /\ do_read fd n w = (w', Some (c :: l)) /\ stream rs' = (t', ok).
Proof.
  intros Hn Hfd Hs. unfold do_read. rewrite Hfd. destruct rs as [|[l|] rs]; cbn in Hs.
  - injection Hs as <- <-. exists []. left. split; [done|]. by rewrite insert_id, set_fd_same.
  - destruct l as [|c l].
    + injection Hs as <- <-. exists rs. left. split; [done|]. by rewrite drop_nil, take_nil.
    + destruct (stream rs) as [t1 ok1] eqn:E. injection Hs as <- <-. assert (exists k, Z.to_nat n = S k) as [k Hk] by (exists (Z.to_nat n - 1)%nat; lia).
      rewrite Hk. cbn [drop take]. eexists. right. exists c, (take k l), (drop k l ++ t1). split; [|split; [done|]].
      * cbn. by rewrite app_assoc, take_drop.
      * destruct (drop k l) as [|d r] eqn:Ed; [done|]. cbn [stream]. by rewrite E.
  - injection Hs as <- <-. exists rs. by left.
Qed.

Lemma iter_returns {I R} (body : I -> itree sysE (I + R)) i w j w' x w'' :
  returns (body i) w (inl j) w' -> returns (ITree.iter body j) w' x w'' -> returns (ITree.iter body i) w x w''.
Proof. intros H1 H2. unfold returns. rewrite (iter_again _ _ _ _ _ H1). exact H2. Qed.

(** A program has read from [fd] and written [outs], all to descriptor 1. *)
Definition after (fd : Z) (rs : list rd) (st : option ustat) (outs : list (Z * list Z)) (w : world) : world :=
  add_out outs (set_fd (<[fd := (rs, st)]> (w_fd w)) w).
Definition writes (outs : list (Z * list Z)) (t : list Z) : Prop := forall fd, text fd outs = if decide (1 = fd) then t else [].
Lemma writes_app a b t u : writes a t -> writes b u -> writes (a ++ b) (t ++ u).
Proof. intros Ha Hb fd. rewrite text_app, Ha, Hb. by destruct (decide _). Qed.
Lemma writes_printed l : writes (printed 1 l) l.
Proof. intros fd. apply text_printed. Qed.
Lemma writes_nil : writes [] [].
Proof. intros fd. by destruct (decide _). Qed.
Lemma writes_one l : writes [(1, l)] l.
Proof. intros fd. rewrite text_cons. by destruct (decide _); [apply app_nil_r|]. Qed.

Lemma after_after fd rs st outs rs' outs' w : after fd rs' st outs' (after fd rs st outs w) = after fd rs' st (outs ++ outs') w.
Proof. unfold after, add_out, set_fd. cbn. by rewrite insert_insert_eq, app_assoc. Qed.
Lemma after_lookup fd rs st outs w : w_fd (after fd rs st outs w) !! fd = Some (rs, st).
Proof. unfold after. cbn. by rewrite lookup_insert_eq. Qed.
Lemma after_out fd rs st outs outs' w : add_out outs' (after fd rs st outs w) = after fd rs st (outs ++ outs') w.
Proof. unfold after. by rewrite add_out_app. Qed.

Lemma cat_loop fd st ok k : forall t w rs, (length t <= k)%nat -> w_fd w !! fd = Some (rs, st) -> stream rs = (t, ok) ->
  exists rs' outs, returns (ITree.iter (cat_body fd) tt) w (negb ok) (after fd rs' st outs w) /\ writes outs t.
Proof.
  induction k as [|k IH]; intros t w rs Hk Hfd Hs; destruct (do_read_stream fd 512 w rs st t ok ltac:(lia) Hfd Hs) as (rs' & [(Ht & Hr)|(c & l & t' & Ht & Hr & Hs')]);
    subst t; try (cbn in Hk; lia).
  1,2: exists rs', []; split; [|apply writes_nil]; unfold after; rewrite add_out_nil; apply iter_done; unfold cat_body;
    (eapply returns_bind; [apply returns_sys; cbn; by rewrite Hr|]); destruct ok; apply returns_ret.
  destruct (IH t' (after fd rs' st [(1, c :: l)] w) rs') as (rs2 & outs & Hret & Hw); [cbn in Hk; rewrite length_app in Hk; lia|apply after_lookup|done|].
  exists rs2, ([(1, c :: l)] ++ outs). split; [|change (c :: l ++ t') with ((c :: l) ++ t'); apply writes_app; [apply writes_one|done]].
  rewrite after_after in Hret. eapply iter_returns; [|exact Hret]. unfold cat_body.
  eapply returns_bind; [apply returns_sys; cbn; by rewrite Hr|]. eapply returns_bind; [by apply returns_sys|]. apply returns_ret.
Qed.

(** A program on one open file: it returns or, after an error, exits, and has
    written what [spec] says. *)
Definition finishes (spec : list Z * bool) (t : itree sysE unit) (w w' : world) : Prop :=
  if snd spec then returns t w tt w' else exits t w w'.
Definition file_prog (prog : Z -> list Z -> itree sysE unit) (spec : list Z -> list rd -> list Z * bool) : Prop :=
  forall fd name w rs st, w_fd w !! fd = Some (rs, st) ->
  exists rs' outs, finishes (spec name rs) (prog fd name) w (after fd rs' st outs w) /\ writes outs (fst (spec name rs)).

Definition cat_spec (name : list Z) (rs : list rd) : list Z * bool :=
  let '(t, ok) := stream rs in (if ok then t else t ++ printf (chars "cat: read error" ++ nl) [], ok).
Lemma cat_prog : file_prog (fun fd _ => cat fd) cat_spec.
Proof.
  intros fd name w rs st Hfd. unfold cat_spec. destruct (stream rs) as [t ok] eqn:Hs.
  destruct (cat_loop fd st ok (length t) t w rs ltac:(lia) Hfd Hs) as (rs' & outs & Hr & Hw). destruct ok.
  - exists rs', outs. split; [|done]. unfold finishes, cat. cbn [snd]. eapply returns_bind; [exact Hr|]. apply returns_ret.
  - exists rs', (outs ++ printed 1 (printf (chars "cat: read error" ++ nl) [])). split; [|apply writes_app; [done|apply writes_printed]].
    unfold finishes, cat. cbn [snd]. eapply exits_bind; [exact Hr|]. rewrite <- after_out. eapply exits_bind; [apply printf_returns|]. apply exits_exit.
Qed.

Lemma free_fd_spec m fd : free_fd m = Some fd -> m !! fd = None /\ 0 <= fd.
Proof.
  unfold free_fd. intros H. apply head_Some in H as [l H]. assert (Hin : fd ∈ filter (fun i => m !! i = None) (seqZ 0 (Z.of_nat NOFILE))) by (rewrite H; left).
  apply list_elem_of_filter in Hin as [? Hin]. apply elem_of_seqZ in Hin. split; [done|lia].
Qed.

Section on_files.
Context (prog : Z -> list Z -> itree sysE unit) (spec : list Z -> list rd -> list Z * bool) (cannot : list Z).
Context (files : list Z -> option (list rd * option ustat)) (Hprog : file_prog prog spec).

Definition on_file (name : list Z) : itree sysE unit :=
  fd ← sys (Open name 0);
  if fd <? 0 then printf_ 1 cannot [AStr name] ;; exit_
  else prog fd name ;; sys (Close fd) ;; mret tt.
Fixpoint files_spec (args : list (list Z)) : list Z * bool :=
  match args with
  | [] => ([], true)
  | a :: rest =>
      match files a with
      | None => (printf cannot [AStr a], false)
      | Some (rs, _) =>
          let '(t, ok) := spec a rs in
          if ok then let '(u, ok') := files_spec rest in (t ++ u, ok') else (t, false)
      end
  end.

Lemma on_files fd args w : w_files w = files -> free_fd (w_fd w) = Some fd ->
  exists outs w', finishes (files_spec args) (each on_file args) w w' /\ w_out w' = w_out w ++ outs /\ writes outs (fst (files_spec args)) /\
    (snd (files_spec args) = true -> w_fd w' = w_fd w).
Proof.
  intros Hfiles Hfree. destruct (free_fd_spec _ _ Hfree) as [Hnone Hpos]. revert w Hfiles Hfree Hnone. induction args as [|a rest IH]; intros w Hfiles Hfree Hnone.
  { exists [], w. rewrite app_nil_r. split; [apply returns_ret|]. split; [done|]. split; [apply writes_nil|done]. }
  cbn [files_spec each]. destruct (files a) as [[rs st]|] eqn:Ha.
  - set (w1 := set_fd (<[fd := (rs, st)]> (w_fd w)) w).
    assert (Hopen : returns (sys (Open a 0)) w fd w1) by (apply returns_sys; cbn; rewrite Hfiles, Ha; unfold do_open; by rewrite Hfree).
    destruct (Hprog fd a w1 rs st) as (rs' & outs & Hf & Hw); [cbn; by rewrite lookup_insert_eq|]. destruct (spec a rs) as [t ok]. cbn [fst snd] in *.
    assert (Hif : (fd <? 0) = false) by lia. unfold finishes in Hf. cbn [snd] in Hf. destruct ok.
    + set (w2 := after fd rs' st outs w1) in *. set (w3 := set_fd (delete fd (w_fd w2)) w2).
      assert (Hw3 : w_fd w3 = w_fd w) by (cbn; rewrite insert_insert_eq; by apply delete_insert_id).
      assert (Hfile : returns (on_file a) w tt w3).
      { unfold on_file. eapply returns_bind; [exact Hopen|]. rewrite Hif. eapply returns_bind; [exact Hf|]. eapply returns_bind; [by apply returns_sys|]. apply returns_ret. }
      destruct (IH w3) as (outs2 & w' & H1 & H2 & H3 & H4); [done|by rewrite Hw3..|]. destruct (files_spec rest) as [u ok']. cbn [fst snd] in *.
      exists (outs ++ outs2), w'. split; [|split; [|split; [by apply writes_app|intros; rewrite <- Hw3; auto]]].
      * unfold finishes in *. cbn [snd] in *. destruct ok'; [eapply returns_bind; eassumption|eapply exits_bind; eassumption].
      * rewrite H2. cbn. by rewrite app_assoc.
    + exists outs, (after fd rs' st outs w1). split; [|by repeat split]. unfold finishes. cbn [snd]. apply exits_early. unfold on_file.
      eapply exits_bind; [exact Hopen|]. rewrite Hif. by apply exits_early.
  - exists (printed 1 (printf cannot [AStr a])), (add_out (printed 1 (printf cannot [AStr a])) w). split; [|split; [done|split; [apply writes_printed|done]]].
    unfold finishes. cbn [snd]. apply exits_early. unfold on_file. eapply exits_bind; [apply returns_sys; cbn; by rewrite Hfiles, Ha|].
    change (-1 <? 0) with true. cbn iota. eapply exits_bind; [apply printf_returns|]. apply exits_exit.
Qed.
End on_files.

(** ** Counting *)

(** The pieces between white space. *)
Fixpoint pieces (t : list Z) : list (list Z) :=
  match t with
  | [] => [[]]
  | c :: t' => if wc_space c then [] :: pieces t' else match pieces t' with p :: ps => (c :: p) :: ps | [] => [[c]] end
  end.
Definition words (t : list Z) : nat := length (filter (fun p => p <> []) (pieces t)).
Definition newlines (t : list Z) : nat := length (filter (fun c => c = 10) t).

Lemma pieces_nonempty t : exists p ps, pieces t = p :: ps.
Proof. induction t as [|c t (p & ps & IH)]; cbn; [by eexists _, _|]. destruct (wc_space c); [by eexists _, _|]. rewrite IH. by eexists _, _. Qed.
Lemma s32_s32_add x y : s32 (s32 x + y) = s32 (x + y).
Proof.
  unfold s32. replace ((x + 2 ^ 31) mod 2 ^ 32 - 2 ^ 31 + y + 2 ^ 31) with ((x + 2 ^ 31) mod 2 ^ 32 + y) by lia.
  rewrite Z.add_mod_idemp_l by lia. do 2 f_equal. lia.
Qed.

(** The words that begin in [t], when [b] says that one is open. *)
Definition begun (b : bool) (t : list Z) : Z :=
  Z.of_nat (words t) - match pieces t with (_ :: _) :: _ => if b then 1 else 0 | _ => 0 end.
Lemma begun_cons b c t : begun b (c :: t) = if wc_space c then begun false t else (if b then 0 else 1) + begun true t.
Proof.
  unfold begun, words. cbn [pieces]. destruct (pieces_nonempty t) as (p & ps & Hp). rewrite Hp. destruct (wc_space c).
  - rewrite filter_cons_False by (intros H; by apply H). destruct p; cbn; lia.
  - rewrite filter_cons_True by done. rewrite filter_cons. destruct p as [|d p].
    + rewrite decide_False by (intros H; by apply H). cbn. destruct b; lia.
    + rewrite decide_True by done. cbn. destruct b; lia.
Qed.
Lemma wc_buf_counts t : forall l w c b, exists b',
  wc_buf (mkCounts (s32 l) (s32 w) (s32 c) b) t = mkCounts (s32 (l + Z.of_nat (newlines t))) (s32 (w + begun b t)) (s32 (c + Z.of_nat (length t))) b'.
Proof.
  induction t as [|x t IH]; intros l w c b.
  { exists b. unfold begun, words, newlines. cbn. by rewrite !Z.add_0_r. }
  assert (Hl : (if x =? 10 then s32 (s32 l + 1) else s32 l) = s32 (l + (if x =? 10 then 1 else 0))) by (destruct (x =? 10); [apply s32_s32_add|by rewrite Z.add_0_r]).
  assert (Hn : Z.of_nat (newlines (x :: t)) = (if x =? 10 then 1 else 0) + Z.of_nat (newlines t)).
  { unfold newlines. rewrite filter_cons. destruct (decide (x = 10)) as [->|Hx]; [rewrite Z.eqb_refl; cbn [length]; lia|]. apply Z.eqb_neq in Hx. rewrite Hx. lia. }
  rewrite begun_cons, Hn. cbn [wc_buf foldl]. fold (wc_buf (wc_char (mkCounts (s32 l) (s32 w) (s32 c) b) x) t). unfold wc_char. cbn [wc_l wc_w wc_c wc_inword]. rewrite Hl, s32_s32_add.
  change (length (x :: t)) with (S (length t)).
  destruct (wc_space x); [|destruct b; cbn [negb]; rewrite ?s32_s32_add];
    match goal with |- context [mkCounts (s32 ?a) (s32 ?b) (s32 ?c) ?d] => destruct (IH a b c d) as [b' ->] end; exists b'; f_equal; f_equal; lia.
Qed.

Definition wc_spec (name : list Z) (rs : list rd) : list Z * bool :=
  let '(t, ok) := stream rs in
  if ok then
    (printf (chars "%d %d %d %s" ++ nl)
       [AInt (s32 (Z.of_nat (newlines t))); AInt (s32 (Z.of_nat (words t))); AInt (s32 (Z.of_nat (length t))); AStr name], true)
  else (printf (chars "wc: read error" ++ nl) [], false).

Lemma wc_loop fd st ok n : forall t w rs k, (length t <= n)%nat -> w_fd w !! fd = Some (rs, st) -> stream rs = (t, ok) ->
  exists rs', returns (ITree.iter (wc_body fd) k) w (if ok then Some (wc_buf k t) else None) (after fd rs' st [] w).
Proof.
  induction n as [|n IH]; intros t w rs k Hn Hfd Hs; destruct (do_read_stream fd 512 w rs st t ok ltac:(lia) Hfd Hs) as (rs' & [(Ht & Hr)|(c & l & t' & Ht & Hr & Hs')]);
    subst t; try (cbn in Hn; lia).
  1,2: exists rs'; unfold after; rewrite add_out_nil; apply iter_done; unfold wc_body;
    (eapply returns_bind; [apply returns_sys; cbn; by rewrite Hr|]); destruct ok; apply returns_ret.
  destruct (IH t' (after fd rs' st [] w) rs' (wc_buf k (c :: l))) as (rs2 & Hret); [cbn in Hn; rewrite length_app in Hn; lia|apply after_lookup|done|].
  exists rs2. rewrite after_after in Hret. change (c :: l ++ t') with ((c :: l) ++ t'). unfold wc_buf at 1. rewrite foldl_app. eapply iter_returns; [|exact Hret]. unfold wc_body.
  eapply returns_bind; [apply returns_sys; cbn; by rewrite Hr|]. unfold after. rewrite add_out_nil. apply returns_ret.
Qed.
Lemma wc_prog : file_prog wc wc_spec.
Proof.
  intros fd name w rs st Hfd. unfold wc_spec. destruct (stream rs) as [t ok] eqn:Hs.
  destruct (wc_loop fd st ok (length t) t w rs (mkCounts 0 0 0 false) ltac:(lia) Hfd Hs) as (rs' & Hr).
  destruct ok; eexists rs', ([] ++ printed 1 _); (split; [|apply writes_printed]); unfold finishes, wc; cbn [fst snd]; rewrite <- after_out.
  - destruct (wc_buf_counts t 0 0 0 false) as [b Hb]. change (s32 0) with 0 in Hb. rewrite Hb, !Z.add_0_l in Hr. eapply returns_bind; [exact Hr|].
    assert (Hw : begun false t = Z.of_nat (words t)) by (unfold begun; destruct (pieces t) as [|[]]; lia). cbn [wc_l wc_w wc_c]. rewrite Hw. apply printf_returns.
  - eapply exits_bind; [exact Hr|]. eapply exits_bind; [apply printf_returns|]. apply exits_exit.
Qed.

(** ** cat and wc *)

Definition no_open (prog : list Z) : list Z := prog ++ chars ": cannot open %s" ++ nl.

(** What the program has to read from: the standard input without arguments, a
    free descriptor for the files otherwise. *)
Definition ready (args : list (list Z)) (w : world) : Prop :=
  match args with [] => is_Some (w_fd w !! 0) | _ => is_Some (free_fd (w_fd w)) end.
Definition output (spec : list Z -> list rd -> list Z * bool) (cannot : list Z) (args : list (list Z)) (w : world) : list Z :=
  match args with
  | [] => fst (spec [] (match w_fd w !! 0 with Some (rs, _) => rs | None => [] end))
  | _ => fst (files_spec spec cannot (w_files w) args)
  end.

Lemma main_on_files prog spec cannot args w (main : itree sysE unit) : file_prog prog spec -> ready args w ->
  main = (match args with [] => prog 0 [] | _ => each (on_file prog cannot) args end ;; exit_) ->
  exists outs w', exits main w w' /\ w_out w' = w_out w ++ outs /\ writes outs (output spec cannot args w).
Proof.
  intros Hp Hr ->. destruct args as [|a args].
  - destruct Hr as [[rs st] H0]. unfold output. rewrite H0. destruct (Hp 0 [] w rs st H0) as (rs' & outs & Hf & Hw). exists outs, (after 0 rs' st outs w).
    split; [|done]. unfold finishes in Hf. destruct (snd (spec [] rs)); [eapply exits_bind; [exact Hf|apply exits_exit]|by apply exits_early].
  - destruct Hr as [fd Hfd]. destruct (on_files prog spec cannot _ Hp fd (a :: args) w eq_refl Hfd) as (outs & w' & Hf & Ho & Hw & _). exists outs, w'.
    split; [|done]. unfold finishes in Hf. destruct (snd (files_spec spec cannot (w_files w) (a :: args))); [eapply exits_bind; [exact Hf|apply exits_exit]|by apply exits_early].
Qed.

(** cat copies the files, or its standard input, to its standard output, in
    order and whatever the pieces in which the reads deliver them; it stops at
    the first file that cannot be opened or read, with a message, and writes
    nothing else. *)
Theorem cat_concatenates args w : ready args w ->
  exists outs w', exits (cat_main args) w w' /\ w_out w' = w_out w ++ outs /\ writes outs (output cat_spec (no_open (chars "cat")) args w).
Proof. intros H. apply (main_on_files (fun fd _ => cat fd)); [apply cat_prog|done|]. by destruct args. Qed.

(** C36: wc prints, for each file or for its standard input, the numbers of
    newlines, of words and of characters of the whole text (as [int]s), whatever
    the pieces in which the reads deliver it: a word that is cut by the end of
    a buffer is counted once.  It stops with a message at the first file that cannot
    be opened or read, and always exits. *)
Theorem wc_counts args w : ready args w ->
  exists outs w', exits (wc_main args) w w' /\ w_out w' = w_out w ++ outs /\ writes outs (output wc_spec (no_open (chars "wc")) args w).
Proof. intros H. apply (main_on_files wc); [apply wc_prog|done|]. by destruct args. Qed.

(** ** ls *)

(** The name in a line: the last component, blanks up to [DIRSIZ]. *)
Definition padded (name : list Z) : list Z := name ++ replicate (DIRSIZ - length name) 32.
Lemma after_slash_last (pre name : list Z) (n : nat) : (47 : Z) ∉ name -> (length pre <= n <= length (pre ++ (47 : Z) :: name))%nat -> after_slash (pre ++ (47 : Z) :: name) n = S (length pre).
Proof.
  intros Hname. induction n as [|n IH]; intros Hn.
  - destruct pre; [|cbn in Hn; lia]. done.
  - cbn [after_slash]. case_bool_decide as H.
    + destruct (decide (S n = length pre)) as [->|Hne]; [done|]. rewrite lookup_app_r in H by lia.
      assert (exists k, (S n - length pre)%nat = S k) as [k Hk] by (exists (n - length pre)%nat; lia). rewrite Hk in H. cbn in H.
      contradict Hname. by eapply list_elem_of_lookup_2.
    + destruct (decide (S n = length pre)) as [He|Hne]; [|apply IH; lia]. contradict H. by rewrite He, list_lookup_middle.
Qed.
Lemma fmtname_last (pre name : list Z) : (47 : Z) ∉ name -> fmtname (pre ++ (47 : Z) :: name) = padded name.
Proof.
  intros H. unfold fmtname, padded. rewrite after_slash_last by (done || (rewrite !length_app; lia)). rewrite drop_app_ge by lia.
  replace (S (length pre) - length pre)%nat with 1%nat by lia. cbn [app drop]. rewrite drop_0. destruct (DIRSIZ <=? length name)%nat eqn:E; [|done].
  apply Nat.leb_le in E. replace (DIRSIZ - length name)%nat with 0%nat by lia. by rewrite app_nil_r.
Qed.

(** The line for an entry of the directory [path]. *)
Definition de_text (de : list Z) : list Z := upto_nul (take DIRSIZ (drop 2 de)).
Definition entry_text (files : list Z -> option (list rd * option ustat)) (path de : list Z) : list Z :=
  if le_dec (take 2 de) =? 0 then []
  else match files (path ++ 47 :: de_text de) ≫= snd with
  | Some st => printf (chars "%s %d %d %d" ++ nl) [AStr (padded (de_text de)); AInt (us_type st); AInt (s32 (us_ino st)); AInt (s32 (us_size st))]
  | None => printf (chars "ls: cannot stat %s" ++ nl) [AStr (path ++ 47 :: de_text de)]
  end.

Lemma stat_returns path fd w : free_fd (w_fd w) = Some fd -> returns (stat_ path) w (w_files w path ≫= snd) w.
Proof.
  intros Hf. destruct (free_fd_spec _ _ Hf) as [Hn Hp]. unfold stat_. destruct (w_files w path) as [f|] eqn:E.
  - eapply returns_bind; [apply returns_sys; cbn; rewrite E; unfold do_open; by rewrite Hf|]. assert (H : (fd <? 0) = false) by lia. rewrite H.
    eapply returns_bind; [apply returns_sys; cbn; by rewrite lookup_insert_eq|]. eapply returns_bind; [by apply returns_sys|].
    cbn. rewrite delete_insert_id by done. destruct w. apply returns_ret.
  - eapply returns_bind; [apply returns_sys; cbn; by rewrite E|]. apply returns_ret.
Qed.

Lemma ls_entry_returns path de fd w : free_fd (w_fd w) = Some fd -> 47 ∉ de_text de ->
  returns (ls_entry path de) w tt (add_out (printed 1 (entry_text (w_files w) path de)) w).
Proof.
  intros Hf Hs. unfold ls_entry, entry_text. destruct (_ =? 0); [cbn; rewrite add_out_nil; apply returns_ret|]. fold (de_text de). cbn [app].
  eapply returns_bind; [by eapply stat_returns|]. destruct (w_files w _ ≫= snd) as [st|]; [|apply printf_returns].
  unfold ls_line. rewrite fmtname_last by done. apply printf_returns.
Qed.

Lemma ls_loop path fd fd2 st entries : Forall (fun de => length de = 16%nat /\ 47 ∉ de_text de) entries -> forall w,
  w_fd w !! fd = Some (Some <$> entries, st) -> (forall f, free_fd (<[fd := f]> (w_fd w)) = Some fd2) ->
  exists outs, returns (ITree.iter (ls_body path fd) tt) w tt (after fd [] st outs w) /\ writes outs (concat (entry_text (w_files w) path <$> entries)).
Proof.
  induction 1 as [|de entries [Hlen Hs] Hes IH]; intros w Hfd Hfree.
  - exists []. split; [|apply writes_nil]. unfold after. rewrite add_out_nil, insert_id, set_fd_same by done. apply iter_done. unfold ls_body.
    eapply returns_bind; [apply returns_sys; cbn; unfold do_read; by rewrite Hfd|]. apply returns_ret.
  - set (w1 := after fd (Some <$> entries) st (printed 1 (entry_text (w_files w) path de)) w).
    destruct (IH w1) as (outs & Hr & Hw); [apply after_lookup|intros f; unfold w1, after; cbn; rewrite insert_insert_eq; apply Hfree|].
    exists (printed 1 (entry_text (w_files w) path de) ++ outs). split; [|cbn; apply writes_app; [apply writes_printed|done]].
    unfold w1 in Hr. rewrite after_after in Hr. eapply iter_returns; [|exact Hr]. unfold ls_body.
    eapply returns_bind; [apply returns_sys; cbn; unfold do_read; rewrite Hfd; cbn; rewrite drop_ge, take_ge by (change (Pos.to_nat 16) with 16%nat; lia); reflexivity|].
    cbn iota. rewrite Hlen. cbn [Nat.eqb]. eapply returns_bind; [apply (ls_entry_returns path de fd2); [apply Hfree|done]|]. apply returns_ret.
Qed.

(** ls on a directory writes a line for each of its entries that is in use, in
    the order of the directory: the name, padded with blanks, and what [stat] says
    of it, or that it cannot be examined; every descriptor it opens is closed. *)
Theorem ls_lists_directory path entries st fd fd2 w :
  free_fd (w_fd w) = Some fd -> (forall f, free_fd (<[fd := f]> (w_fd w)) = Some fd2) ->
  w_files w path = Some (Some <$> entries, Some st) -> us_type st = T_DIR -> (length path <= 496)%nat ->
  Forall (fun de => length de = 16%nat /\ 47 ∉ de_text de) entries ->
  exists outs w', returns (ls path) w tt w' /\ w_fd w' = w_fd w /\ w_out w' = w_out w ++ outs /\ writes outs (concat (entry_text (w_files w) path <$> entries)).
Proof.
  intros Hf Hf2 Hp Ht Hlen Hes. destruct (free_fd_spec _ _ Hf) as [Hn Hpos]. set (w1 := set_fd (<[fd := (Some <$> entries, Some st)]> (w_fd w)) w).
  destruct (ls_loop path fd fd2 (Some st) entries Hes w1) as (outs & Hr & Hw); [cbn; by rewrite lookup_insert_eq|intros f; cbn; rewrite insert_insert_eq; apply Hf2|].
  set (w2 := after fd [] (Some st) outs w1) in *. exists outs, (set_fd (delete fd (w_fd w2)) w2). split; [|split; [cbn; rewrite insert_insert_eq; by apply delete_insert_id|done]].
  unfold ls. eapply returns_bind; [apply returns_sys; cbn; rewrite Hp; unfold do_open; by rewrite Hf|]. fold w1. assert (H : (fd <? 0) = false) by lia. rewrite H.
  eapply returns_bind; [apply returns_sys; cbn; by rewrite lookup_insert_eq|]. change (Some (Some <$> entries, Some st) ≫= snd) with (Some st). cbn iota. rewrite Ht. change (T_DIR =? T_FILE) with false. rewrite Z.eqb_refl. cbn iota.
  assert (H5 : (512 <? Z.of_nat (length path + 1 + DIRSIZ + 1)) = false) by (apply Z.ltb_ge; change DIRSIZ with 14%nat; lia). rewrite H5. cbn iota.
  eapply returns_bind; [exact Hr|]. eapply returns_bind; [by apply returns_sys|]. apply returns_ret.
Qed.

(** ** echo, rm, mkdir *)

(** The arguments with a blank between them and a newline after the last. *)
Fixpoint joined (args : list (list Z)) : list Z :=
  match args with [] => [] | [a] => a ++ nl | a :: rest => a ++ [32] ++ joined rest end.
Lemma echo_writes args w : exists outs, exits (echo_main args) w (add_out outs w) /\ writes outs (joined args).
Proof.
  assert (H : forall w, exists outs, returns (echo_loop args) w tt (add_out outs w) /\ writes outs (joined args)).
  { induction args as [|a rest IH]; intros w0.
    - exists []. rewrite add_out_nil. split; [apply returns_ret|apply writes_nil].
    - set (sep := match rest with [] => nl | _ => [32] end). destruct (IH (add_out (printed 1 (a ++ sep)) w0)) as (outs & Hr & Hw).
      exists (printed 1 (a ++ sep) ++ outs). rewrite <- add_out_app. split.
      + cbn [echo_loop]. eapply returns_bind; [|exact Hr]. fold sep. replace (a ++ sep) with (printf (chars "%s%s") [AStr a; AStr sep]); [apply printf_returns|].
        transitivity (a ++ sep ++ []); [reflexivity|by rewrite app_nil_r].
      + replace (joined (a :: rest)) with ((a ++ sep) ++ joined rest); [apply writes_app; [apply writes_printed|done]|].
        unfold sep. destruct rest; [by rewrite app_nil_r|]. cbn [joined]. by rewrite <- app_assoc. }
  destruct (H w) as (outs & Hr & Hw). exists outs. split; [|done]. eapply exits_bind; [exact Hr|apply exits_exit].
Qed.

(** The names up to the first for which the call fails. *)
Fixpoint tried (args : list (list Z)) : list (list Z) :=
  match args with [] => [] | a :: rest => a :: if fails a then [] else tried rest end.
Lemma until_failed_calls (f : list Z -> sysE Z) (c : list Z -> call) fmt args :
  (forall a w, handler Z (f a) w = go (RetF (add_log (c a) w, if fails a then -1 else 0))) -> forall w,
  exists outs w', returns (until_failed f fmt args) w tt w' /\ w_log w' = w_log w ++ (c <$> tried args) /\ w_out w' = w_out w ++ outs /\
    text 2 outs = match find (fun a => fails a) args with Some a => printf fmt [AStr a] | None => [] end.
Proof.
  intros Hf. induction args as [|a rest IH]; intros w; cbn [until_failed tried find].
  - exists [], w. rewrite !app_nil_r. split; [apply returns_ret|done].
  - assert (Hc : returns (sys (f a)) w (if fails a then -1 else 0) (add_log (c a) w)) by (by apply returns_sys).
    destruct (fails a).
    + exists (printed 2 (printf fmt [AStr a])), (add_out (printed 2 (printf fmt [AStr a])) (add_log (c a) w)).
      split; [eapply returns_bind; [exact Hc|apply printf_returns]|]. split; [done|]. split; [done|]. rewrite text_printed. by rewrite decide_True.
    + destruct (IH (add_log (c a) w)) as (outs & w' & Hr & Hl & Ho & Ht). exists outs, w'. split; [eapply returns_bind; [exact Hc|exact Hr]|].
      split; [|done]. rewrite Hl. cbn. by rewrite <- app_assoc.
Qed.

(** ** init *)

(** A text without a conversion is printed as it is. *)
Lemma printf_plain fmt ap : forallb (fun c => negb (c =? c_pct)) fmt = true -> printf fmt ap = fmt.
Proof.
  unfold printf. induction fmt as [|c fmt IH]; [done|]. cbn. intros [H1 H2]%andb_true_iff. apply negb_true_iff in H1. rewrite H1. f_equal. auto.
Qed.
Lemma says_returns fd fmt w : forallb (fun c => negb (c =? c_pct)) fmt = true -> returns (printf_ fd fmt []) w tt (add_out (printed fd fmt) w).
Proof. intros H. rewrite <- (printf_plain fmt [] H) at 2. apply printf_returns. Qed.

(** A shell that runs: its pid, and the orphans that end before it. *)
Abbreviation shell := (Z * list Z)%type.
Definition shell_ok (x : shell) : Prop := 0 < fst x /\ Forall (fun q => 0 <= q /\ q <> fst x) (snd x).
Definition shell_waits (x : shell) : list Z := snd x ++ [fst x].
Definition starting : list Z := chars "init: starting sh" ++ nl.
Definition shell_text (x : shell) : list Z := starting ++ concat (replicate (length (snd x)) (chars "zombie!" ++ nl)).

Lemma init_waits pid orphans rest : forall w, Forall (fun q => 0 <= q /\ q <> pid) orphans -> w_wait w = orphans ++ pid :: rest ->
  exists outs, returns (ITree.iter (init_wait pid) tt) w tt (set_wait rest (add_out outs w)) /\ writes outs (concat (replicate (length orphans) (chars "zombie!" ++ nl))).
Proof.
  induction orphans as [|q orphans IH]; intros w Ho Hw.
  - exists []. rewrite add_out_nil. split; [|apply writes_nil]. apply iter_done. unfold init_wait. eapply returns_bind; [apply returns_sys; cbn; by rewrite Hw|].
    rewrite Z.eqb_refl. rewrite andb_false_r. apply returns_ret.
  - inversion Ho as [|?? [Hq1 Hq2] Ho']; subst. set (z := chars "zombie!" ++ nl).
    destruct (IH (add_out (printed 1 z) (set_wait (orphans ++ pid :: rest) w)) Ho' eq_refl) as (outs & Hr & Hwr).
    exists (printed 1 z ++ outs). split; [|cbn [length replicate concat]; apply writes_app; [apply (writes_printed z)|done]].
    replace (set_wait rest (add_out (printed 1 z ++ outs) w)) with (set_wait rest (add_out outs (add_out (printed 1 z) (set_wait (orphans ++ pid :: rest) w)))).
    2:{ rewrite <- !add_out_app. reflexivity. }
    eapply iter_returns; [|exact Hr]. unfold init_wait. eapply returns_bind; [apply returns_sys; cbn; by rewrite Hw|].
    assert (H : (0 <=? q) && negb (q =? pid) = true) by (apply andb_true_iff; split; [lia|]; apply negb_true_iff; lia). rewrite H.
    eapply returns_bind; [by apply says_returns|]. apply returns_ret.
Qed.

Lemma init_loop shells : forall w, Forall shell_ok shells -> w_fork w = fst <$> shells -> w_wait w = concat (shell_waits <$> shells) ->
  exists outs w', exits (ITree.iter init_body tt) w w' /\ w_fd w' = w_fd w /\ w_out w' = w_out w ++ outs /\
    writes outs (concat (shell_text <$> shells) ++ starting ++ chars "init: fork failed" ++ nl).
Proof.
  induction shells as [|[pid orphans] shells IH]; intros w Hok Hf Hw.
  - exists (printed 1 starting ++ printed 1 (chars "init: fork failed" ++ nl)).
    exists (add_out (printed 1 (chars "init: fork failed" ++ nl)) (add_out (printed 1 starting) w)). split; [|split; [done|split; [cbn; by rewrite <- app_assoc|]]].
    2:{ cbn [fmap list_fmap concat]. rewrite app_nil_l. apply writes_app; apply writes_printed. }
    apply iter_exits. unfold init_body. eapply exits_bind; [by apply says_returns|]. eapply exits_bind; [apply returns_sys; cbn; by rewrite Hf|].
    eapply exits_bind; [by apply says_returns|]. apply exits_exit.
  - inversion Hok as [|?? [Hp Ho] Hok']; subst. rewrite fmap_cons in Hf. cbn [fst snd] in *. set (w1 := set_fork (fst <$> shells) (add_out (printed 1 starting) w)).
    destruct (init_waits pid orphans (concat (shell_waits <$> shells)) w1 Ho) as (outs & Hr & Hwr).
    { cbn. rewrite Hw. cbn. unfold shell_waits at 1. cbn. by rewrite <- app_assoc. }
    set (w2 := set_wait _ (add_out outs w1)) in *. destruct (IH w2 Hok' eq_refl eq_refl) as (outs2 & w' & He & Hfd & Hout & Hwr2).
    exists (printed 1 starting ++ outs ++ outs2), w'. split; [|split; [done|split; [rewrite Hout; cbn; by rewrite <- !app_assoc|]]].
    + unfold exits. rewrite (iter_again init_body tt w tt w2); [exact He|]. unfold init_body. eapply returns_bind; [by apply says_returns|].
      eapply returns_bind; [apply returns_sys; cbn; by rewrite Hf|]. assert (H1 : (pid <? 0) = false) by lia. assert (H2 : (pid =? 0) = false) by lia. rewrite H1, H2.
      eapply returns_bind; [exact Hr|]. apply returns_ret.
    + cbn [fmap list_fmap concat]. unfold shell_text at 1. cbn [snd]. rewrite <- !app_assoc. apply writes_app; [apply writes_printed|]. by apply writes_app.
Qed.

(** The three descriptors of the console, which is made on the first boot. *)
Definition console_opens (w : world) : Prop := is_Some (w_files w (chars "console")) \/ fails (chars "console") = false.
Lemma free_fds (f g : list rd * option ustat) : free_fd ∅ = Some 0 /\ free_fd (<[0 := f]> ∅) = Some 1 /\ free_fd (<[1 := g]> (<[0 := f]> ∅)) = Some 2.
Proof. done. Qed.

Lemma init_opens w : w_fd w = ∅ -> console_opens w ->
  exists f w', w_fd w' = <[2 := f]> (<[1 := f]> (<[0 := f]> ∅)) /\ w_out w' = w_out w /\ w_fork w' = w_fork w /\ w_wait w' = w_wait w /\
    eutt eq (run init_main w) (run (ITree.iter init_body tt) w').
Proof.
  intros Hfd Hc.
  assert (exists f w0, w_fd w0 = <[0 := f]> ∅ /\ w_out w0 = w_out w /\ w_fork w0 = w_fork w /\ w_wait w0 = w_wait w /\
    eutt eq (run init_main w) (run (sys (Dup 0) ;; sys (Dup 0) ;; ITree.iter init_body tt) w0)) as (f & w0 & H1 & H2 & H3 & H4 & H5).
  { unfold init_main. destruct (w_files w (chars "console")) as [f|] eqn:E.
    - exists f, (set_fd (<[0 := f]> (w_fd w)) w). rewrite Hfd. repeat (split; [done|]).
      rewrite (run_bind _ _ _ 0 (set_fd (<[0 := f]> ∅) w)); [|apply returns_sys; cbn -[chars]; rewrite E; unfold do_open; by rewrite Hfd].
      change (0 <? 0) with false. cbn iota. rewrite (run_bind _ _ _ _ _ (returns_ret tt _)). reflexivity.
    - destruct Hc as [[? Hc]|Hc]; [congruence|]. set (w1 := set_files (fun p => if decide (p = chars "console") then Some ([], None) else w_files w p) w).
      exists ([], None), (set_fd (<[0 := ([], None)]> (w_fd w1)) w1). cbn [w_fd set_fd w1 set_files]. rewrite Hfd. repeat (split; [done|]).
      rewrite (run_bind _ _ _ (-1) w); [|apply returns_sys; cbn -[chars]; by rewrite E].
      change (-1 <? 0) with true. cbn iota. rewrite (run_bind _ _ _ tt (set_fd (<[0 := ([], None)]> ∅) w1)); [reflexivity|].
      eapply returns_bind; [apply returns_sys; cbn -[chars]; rewrite Hc; reflexivity|]. eapply returns_bind; [|apply returns_ret].
      apply returns_sys. cbn -[chars]. rewrite decide_True by done. unfold do_open. cbn -[chars]. by rewrite Hfd. }
  destruct (free_fds f f) as (_ & F1 & F2). exists f, (set_fd (<[2 := f]> (<[1 := f]> (<[0 := f]> ∅))) w0). repeat (split; [done|]). rewrite H5.
  rewrite (run_bind _ _ _ 1 (set_fd (<[1 := f]> (<[0 := f]> ∅)) w0)); [|apply returns_sys; cbn; rewrite H1; unfold do_open; by rewrite H1, F1].
  rewrite (run_bind _ _ _ 2 (set_fd (<[2 := f]> (<[1 := f]> (<[0 := f]> ∅))) w0)); [reflexivity|].
  apply returns_sys. cbn. unfold do_open. cbn. by rewrite F2.
Qed.

(** C37: init opens the console, making its node on the first boot, on the
    descriptors 0, 1 and 2, and then starts a shell again each time the shell has
    ended; it reaps the orphans that end in between, and only gives up when
    [fork] fails. *)
Theorem init_restarts_shell shells w :
  w_fd w = ∅ -> console_opens w -> Forall shell_ok shells -> w_fork w = fst <$> shells -> w_wait w = concat (shell_waits <$> shells) ->
  exists f outs w', exits init_main w w' /\ w_fd w' = <[2 := f]> (<[1 := f]> (<[0 := f]> ∅)) /\ w_out w' = w_out w ++ outs /\
    writes outs (concat (shell_text <$> shells) ++ starting ++ chars "init: fork failed" ++ nl).
Proof.
  intros Hfd Hc Hs Hf Hw. destruct (init_opens w Hfd Hc) as (f & w0 & H1 & H2 & H3 & H4 & H5).
  destruct (init_loop shells w0 Hs) as (outs & w' & He & Hd & Ho & Hwr); [by rewrite H3|by rewrite H4|].
  exists f, outs, w'. split; [unfold exits; rewrite H5; exact He|]. rewrite <- H1, <- H2. done.
Qed.

Definition became {A} (path : list Z) (argv : list (list Z)) (w : world) : itree doneE A :=
  ITree.bind (ITree.trigger (Became path argv w)) (fun v : void => match v with end).
Lemma became_bind {A B} (k : A -> itree doneE B) path argv w : eutt eq (ITree.bind (became path argv w) k) (became path argv w).
Proof. unfold became. rewrite bind_bind. apply eutt_clo_bind with eq; [reflexivity|]. intros []. Qed.
(** The child of init becomes the shell, with the console on its three
    descriptors. *)
Theorem init_child_is_shell l w : w_fd w = ∅ -> console_opens w -> w_fork w = 0 :: l -> fails (chars "sh") = false ->
  exists f w', eutt eq (run init_main w) (became (chars "sh") [chars "sh"] w') /\ w_fd w' = <[2 := f]> (<[1 := f]> (<[0 := f]> ∅)).
Proof.
  intros Hfd Hc Hf Hs. destruct (init_opens w Hfd Hc) as (f & w0 & H1 & H2 & H3 & H4 & H5).
  exists f, (set_fork l (add_out (printed 1 starting) w0)). split; [|done]. rewrite H5.
  unfold run. rewrite unfold_iter, interp_state_bind. fold (run (init_body tt) w0). unfold init_body.
  rewrite (run_bind _ _ _ _ _ (says_returns 1 starting w0 eq_refl)). rewrite (run_bind _ _ _ 0 (set_fork l (add_out (printed 1 starting) w0))).
  2:{ apply returns_sys. cbn. by rewrite H3, Hf. }
  change (0 <? 0) with false. change (0 =? 0) with true. cbn iota. unfold run, mbind, itree_mbind, sys. rewrite interp_state_bind, interp_state_trigger. cbn -[chars].
  rewrite Hs. fold (@became (world * Z) (chars "sh") [chars "sh"] (set_fork l (add_out (printed 1 starting) w0))). rewrite !became_bind. reflexivity.
Qed.

(** ** kill and forktest *)

Lemma kill_calls a args w : exists w', exits (kill_main (a :: args)) w w' /\ w_log w' = w_log w ++ (CKill ∘ atoi <$> a :: args) /\ w_out w' = w_out w.
Proof.
  assert (H : forall l w, exists w', returns (each (fun a => sys (Kill (atoi a)) ;; mret tt) l) w tt w' /\ w_log w' = w_log w ++ (CKill ∘ atoi <$> l) /\ w_out w' = w_out w).
  { intros l. induction l as [|b l IH]; intros w0; [exists w0; rewrite app_nil_r; split; [apply returns_ret|done]|].
    destruct (IH (add_log (CKill (atoi b)) w0)) as (w' & Hr & Hl & Ho). exists w'. split; [|split; [rewrite Hl; cbn; by rewrite <- app_assoc|done]].
    eapply returns_bind; [|exact Hr]. eapply returns_bind; [by apply returns_sys|]. apply returns_ret. }
  destruct (H (a :: args) w) as (w' & Hr & Hl & Ho). exists w'. split; [|done]. eapply exits_bind; [exact Hr|apply exits_exit].
Qed.

Lemma ft_forks_returns pids : forall left n w, (length pids < left)%nat -> Forall (fun p => 0 < p) pids -> w_fork w = pids ->
  returns (ft_forks left n) w (n + length pids)%nat (set_fork [] w).
Proof.
  induction pids as [|p pids IH]; intros left n w Hl Hp Hw; (destruct left as [|left]; [cbn in Hl; lia|]); cbn [ft_forks].
  - eapply returns_bind; [apply returns_sys; cbn; by rewrite Hw|]. change (-1 <? 0) with true. cbn iota. rewrite Nat.add_0_r.
    replace (set_fork [] w) with w by (destruct w; cbn in Hw; by subst). apply returns_ret.
  - inversion Hp as [|?? Hp1 Hp2]; subst. eapply returns_bind; [apply returns_sys; cbn; by rewrite Hw|].
    assert (H1 : (p <? 0) = false) by lia. assert (H2 : (p =? 0) = false) by lia. rewrite H1, H2. cbn [length] in *. rewrite Nat.add_succ_r.
    apply (IH left (S n) (set_fork pids w)); [lia|done|done].
Qed.
Lemma ft_waits_returns waits : forall w, Forall (fun p => 0 <= p) waits -> w_wait w = waits -> returns (ft_waits (length waits)) w tt (set_wait [] w).
Proof.
  induction waits as [|p waits IH]; intros w Hp Hw; cbn [ft_waits length].
  - replace (set_wait [] w) with w by (destruct w; cbn in Hw; by subst). apply returns_ret.
  - inversion Hp as [|?? Hp1 Hp2]; subst. eapply returns_bind; [apply returns_sys; cbn; by rewrite Hw|]. assert (H1 : (p <? 0) = false) by lia. rewrite H1.
    by apply (IH (set_wait waits w)).
Qed.
(** forktest succeeds exactly when the process table, or memory, is exhausted
    before [N] children, and each of them is then waited for once. *)
Theorem forktest_succeeds pids waits w : (length pids < ft_N)%nat -> Forall (fun p => 0 < p) pids -> Forall (fun p => 0 <= p) waits ->
  length waits = length pids -> w_fork w = pids -> w_wait w = waits ->
  exists w', exits forktest_main w w' /\ w_out w' = w_out w ++ [(1, chars "fork test" ++ nl); (1, chars "fork test OK" ++ nl)].
Proof.
  intros Hl Hp Hq Hlen Hf Hw. set (w1 := add_out [(1, chars "fork test" ++ nl)] w). set (w2 := set_wait [] (set_fork [] w1)).
  exists (add_out [(1, chars "fork test OK" ++ nl)] w2). split; [|cbn; by rewrite <- app_assoc].
  unfold forktest_main. eapply exits_bind; [|apply exits_exit]. unfold forktest.
  apply (returns_bind _ _ _ tt w1); [unfold ft_printf; eapply returns_bind; [by apply returns_sys|apply returns_ret]|].
  eapply returns_bind; [by apply (ft_forks_returns pids ft_N 0 w1)|]. rewrite Nat.add_0_l.
  assert (H : (length pids =? ft_N)%nat = false) by (apply Nat.eqb_neq; lia). rewrite H. rewrite <- Hlen.
  eapply returns_bind; [by apply ft_waits_returns|]. eapply returns_bind; [by apply returns_sys|]. change (negb (-1 =? -1)) with false. cbn iota.
  unfold ft_printf. eapply returns_bind; [by apply returns_sys|apply returns_ret].
Qed.
End world.

(** ** Concrete worlds *)

Definition typed : world :=
  mkWorld (fun _ => None) (<[0 := ([Some (chars "hel"); Some (chars "lo wor"); Some (chars "ld" ++ nl)], None)]> ∅) [] [] [] [].
Lemma wc_counts_witness : exists outs w', exits (fun _ => false) (wc_main []) typed w' /\ w_out w' = outs /\ writes outs (chars "1 2 12 " ++ nl).
Proof.
  destruct (wc_counts (fun _ => false) [] typed) as (outs & w' & He & Ho & Hw); [by eexists|]. exists outs, w'. split; [exact He|]. split; [exact Ho|].
  replace (chars "1 2 12 " ++ nl) with (output wc_spec (no_open (chars "wc")) [] typed) by (by vm_compute). exact Hw.
Defined.

Definition booting : world := mkWorld (fun _ => None) ∅ [] [] [5] [9; 5].
Lemma init_restarts_shell_witness : exists outs w', exits (fun _ => false) init_main booting w' /\ w_out w' = outs /\
  writes outs ((starting ++ chars "zombie!" ++ nl) ++ starting ++ chars "init: fork failed" ++ nl).
Proof.
  destruct (init_restarts_shell (fun _ => false) [(5, [9])] booting) as (f & outs & w' & He & _ & Ho & Hw);
    [reflexivity|by right|repeat constructor; cbn; lia|reflexivity|reflexivity|].
  exists outs, w'. split; [exact He|]. split; [exact Ho|].
  replace ((starting ++ chars "zombie!" ++ nl) ++ _) with (concat (shell_text <$> [(5, [9])]) ++ starting ++ chars "init: fork failed" ++ nl) by (by vm_compute). exact Hw.
Defined.
