(* ===== verification/Strtok.v ===== *)
(** * The simple shell of the course: src/xv6/strtok.c, shellsimples.c, shellcustom.c

    [strtok] works in the memory of the process and remembers in a static
    variable where the next word starts.  The shell is an interaction tree over
    the system calls of [UserProgs]; between two of them it computes on its
    memory, in which [lc_] is the address of the buffer for the line.  Address 0
    is part of the memory of an xv6 process.  Loops over the buffer take fuel
    for its 81 bytes. *)

From stdpp Require Import base list list_numbers numbers gmap strings.
From Stdlib Require Import ZArith Lia.
From ITree Require Import ITree.
From S2P Require Import Prelude Mem CString KState Printf UserProgs.

(** ** strtok.c *)

(** Past the delimiters: the first other character, and the address behind it. *)
Fixpoint skip_delims (fuel : nat) (delim : list Z) (m : mem) (s : Z) : option (Z * Z) :=
  match fuel with
  | O => None
  | S fuel' =>
      let c := ld8 m s in
      if bool_decide (c ∈ delim) then skip_delims fuel' delim m (s + 1) else Some (c, s + 1)
  end.
(** To the end of the word: the delimiter or NUL, and the address behind it. *)
Fixpoint scan_token (fuel : nat) (delim : list Z) (m : mem) (s : Z) : option (Z * Z) :=
  match fuel with
  | O => None
  | S fuel' =>
      let c := ld8 m s in
      if bool_decide (c ∈ delim ++ [0]) then Some (c, s + 1) else scan_token fuel' delim m (s + 1)
  end.

(** [strtok] with its static variable; the result 0 is the null pointer. *)
Definition strtok (fuel : nat) (delim : list Z) (s : Z) (st : mem * Z) : option (Z * (mem * Z)) :=
  let '(m, last) := st in
  let s := if s =? 0 then last else s in
  if s =? 0 then Some (0, (m, last))
  else
    match skip_delims fuel delim m s with
    | None => None
    | Some (c, s) =>
        if c =? 0 then Some (0, (m, 0))
        else
          let tok := s - 1 in
          match scan_token fuel delim m s with
          | None => None
          | Some (c, s) => if c =? 0 then Some (tok, (m, 0)) else Some (tok, (st8 m (s - 1) 0, s))
          end
    end.

(** ** The words of a line *)

Section words.
Context (delim : list Z).
Fixpoint words_from (cur : list Z) (l : list Z) : list (list Z) :=
  match l with
  | [] => match cur with [] => [] | _ => [cur] end
  | c :: l' =>
      if bool_decide (c ∈ delim) then match cur with [] => words_from [] l' | _ => cur :: words_from [] l' end
      else words_from (cur ++ [c]) l'
  end.
Definition words (l : list Z) : list (list Z) := words_from [] l.

Lemma words_skip d l : Forall (fun c => c ∈ delim) d -> words (d ++ l) = words l.
Proof. unfold words. induction 1 as [|c d Hc _ IH]; [done|]. cbn. by rewrite bool_decide_eq_true_2. Qed.
Lemma words_token cur t r : Forall (fun c => c ∉ delim) t -> cur ++ t <> [] -> (r = [] \/ exists c r', r = c :: r' /\ c ∈ delim) ->
  words_from cur (t ++ r) = (cur ++ t) :: words (tail r).
Proof.
  intros Ht. revert cur. induction Ht as [|c t Hc _ IH]; intros cur Hn Hr.
  - rewrite app_nil_r in *. cbn [app]. destruct Hr as [->|(c & r' & -> & Hc)]; cbn; [by destruct cur|]. rewrite bool_decide_eq_true_2 by done. by destruct cur.
  - cbn. rewrite bool_decide_eq_false_2 by done. rewrite IH; [by rewrite <-app_assoc| |done]. by destruct cur.
Qed.
Lemma split_where (P : Z -> Prop) `{!forall c, Decision (P c)} l : exists d r, l = d ++ r /\ Forall P d /\ (r = [] \/ exists c r', r = c :: r' /\ ~ P c).
Proof.
  induction l as [|c l (d & r & -> & Hd & Hr)]; [exists [], []; auto|]. destruct (decide (P c)) as [Hc|Hc]; [exists (c :: d), r; auto|].
  exists [], (c :: d ++ r). split_and!; [done|done|]. right. by exists c, (d ++ r).
Qed.
End words.

(** ** What strtok does *)

Lemma cstr_nil m s : cstr m s [] <-> ld8 m s = 0.
Proof. unfold cstr. cbn. rewrite Z.add_0_r. split; [tauto|]. intros. split_and!; [done|constructor|done]. Qed.
Lemma cstr_cons m s c l : cstr m s (c :: l) <-> ld8 m s = c /\ c <> 0 /\ cstr m (s + 1) l.
Proof.
  unfold cstr. cbn [length ld]. replace (s + Z.of_nat (S (length l))) with (s + 1 + Z.of_nat (length l)) by lia. split.
  - intros ([= H1 H2] & H3 & H4). inversion_clear H3. rewrite !H1, !H2. split_and!; done.
  - intros (H1 & H2 & H3 & H4 & H5). rewrite H1, H3. split_and!; [done|by constructor|done].
Qed.
Lemma cstr_app m s d r : cstr m s (d ++ r) -> cstr m (s + Z.of_nat (length d)) r.
Proof.
  revert s. induction d as [|c d IH]; intros s H; [by rewrite Z.add_0_r|]. cbn [app] in H. apply cstr_cons in H as (_ & _ & H). apply IH in H. cbn [length]. by replace (s + Z.of_nat (S (length d))) with (s + 1 + Z.of_nat (length d)) by lia.
Qed.
Lemma cstr_ext m m' s l : (forall x, s <= x <= s + Z.of_nat (length l) -> ld8 m' x = ld8 m x) -> cstr m s l -> cstr m' s l.
Proof.
  revert s. induction l as [|c l IH]; intros s Hx H; [apply cstr_nil; rewrite Hx by (cbn; lia); by apply cstr_nil|]. cbn [length] in Hx. apply cstr_cons in H as (H1 & H2 & H3). apply cstr_cons.
  split_and!; [by rewrite Hx by lia|done|]. apply IH; [|done]. intros x Hr. apply Hx. lia.
Qed.
(** A string cut by a NUL. *)
Lemma cstr_cut m s t c r : cstr m s (t ++ c :: r) -> cstr (st8 m (s + Z.of_nat (length t)) 0) s t.
Proof.
  revert s. induction t as [|b t IH]; intros s H; cbn [length app] in *; [apply cstr_nil; rewrite Z.add_0_r; by rewrite ld8_st8_eq|]. apply cstr_cons in H as (H1 & H2 & H3). apply cstr_cons.
  split_and!; [rewrite ld8_st8_ne by lia; done|done|]. replace (s + Z.of_nat (S (length t))) with (s + 1 + Z.of_nat (length t)) by lia. by apply IH.
Qed.

Lemma skip_delims_run delim m d : forall r s fuel, cstr m s (d ++ r) -> 0 ∉ delim -> Forall (fun c => c ∈ delim) d -> (r = [] \/ exists c r', r = c :: r' /\ c ∉ delim) -> (length d < fuel)%nat ->
  skip_delims fuel delim m s = Some (match r with [] => 0 | c :: _ => c end, s + Z.of_nat (length d) + 1).
Proof.
  induction d as [|c d IH]; intros r s fuel H Hz Hd Hr Hf; (destruct fuel as [|fuel]; [cbn in Hf; lia|]); cbn [skip_delims app length] in *.
  - rewrite Z.add_0_r. destruct Hr as [->|(c & r' & -> & Hc)].
    + apply cstr_nil in H. rewrite H. by rewrite bool_decide_eq_false_2.
    + apply cstr_cons in H as (H1 & _ & _). rewrite H1. by rewrite bool_decide_eq_false_2.
  - apply cstr_cons in H as (H1 & _ & H3). inversion_clear Hd as [|? ? Hc Hd']. rewrite H1, bool_decide_eq_true_2 by done. rewrite (IH r) by (done || lia). f_equal. f_equal. lia.
Qed.
Lemma scan_token_run delim m t : forall r s fuel, cstr m s (t ++ r) -> Forall (fun c => c ∉ delim) t -> (r = [] \/ exists c r', r = c :: r' /\ c ∈ delim) -> (length t < fuel)%nat ->
  scan_token fuel delim m s = Some (match r with [] => 0 | c :: _ => c end, s + Z.of_nat (length t) + 1).
Proof.
  induction t as [|c t IH]; intros r s fuel H Ht Hr Hf; (destruct fuel as [|fuel]; [cbn in Hf; lia|]); cbn [scan_token app length] in *.
  - rewrite Z.add_0_r. destruct Hr as [->|(c & r' & -> & Hc)].
    + apply cstr_nil in H. rewrite H. rewrite bool_decide_eq_true_2 by (apply elem_of_app; right; by left). done.
    + apply cstr_cons in H as (H1 & _ & _). rewrite H1. rewrite bool_decide_eq_true_2 by (apply elem_of_app; by left). done.
  - apply cstr_cons in H as (H1 & Hc0 & H3). inversion_clear Ht as [|? ? Hc Ht']. rewrite H1. rewrite bool_decide_eq_false_2 by (rewrite elem_of_app, list_elem_of_singleton; tauto).
    rewrite (IH r) by (done || lia). f_equal. f_equal. lia.
Qed.

(** The state before a call: the rest [l] of the line is at [s], or there is no
    rest and [s] is null. *)
Definition rest_at (m : mem) (s : Z) (l : list Z) : Prop := (s = 0 /\ l = []) \/ (0 < s /\ cstr m s l).

(** A call of [strtok] returns the next word of the rest of the line as a
    string of its own and leaves the rest behind it for the next call, or the
    null pointer when no word is left; it changes nothing before the rest and
    nothing outside of it. *)
Lemma strtok_next_word fuel delim arg m last l : let s := if arg =? 0 then last else arg in
  rest_at m s l -> 0 ∉ delim -> (S (length l) < fuel)%nat ->
  match words delim l with
  | [] => exists last', strtok fuel delim arg (m, last) = Some (0, (m, last')) /\ rest_at m last' []
  | w :: ws => exists p m' last' l', strtok fuel delim arg (m, last) = Some (p, (m', last')) /\ s <= p /\ 0 < p /\ cstr m' p w /\
      rest_at m' last' l' /\ words delim l' = ws /\ (length l' < length l)%nat /\ (last' <> 0 -> p + Z.of_nat (length w) < last' /\ last' + Z.of_nat (length l') = s + Z.of_nat (length l)) /\
      p + Z.of_nat (length w) <= s + Z.of_nat (length l) /\ (forall x, x < p \/ s + Z.of_nat (length l) <= x -> ld8 m' x = ld8 m x)
  end.
Proof.
  intros s Hr Hz Hf. unfold strtok. fold s. destruct Hr as [[Es ->]|[Hs Hc]].
  { rewrite Es. cbn. exists last. split; [done|]. left. split; [|done]. subst s. destruct (arg =? 0) eqn:Ea; [done|]. apply Z.eqb_neq in Ea. lia. }
  rewrite (proj2 (Z.eqb_neq s 0)) by lia.
  destruct (split_where (fun c => c ∈ delim) l) as (d & r & -> & Hd & Hr). rewrite words_skip by done. rewrite length_app in *. pose proof (cstr_app _ _ _ _ Hc) as Hcr.
  rewrite (skip_delims_run delim m d r s fuel Hc Hz Hd Hr) by lia. destruct Hr as [->|(c & r' & -> & Hcd)].
  { cbn. exists 0. split; [done|]. by left. }
  assert (Hc0 : c <> 0) by (apply cstr_cons in Hcr as (_ & H & _); exact H). rewrite (proj2 (Z.eqb_neq c 0)) by done. destruct (split_where (fun c => c ∉ delim) r') as (t & r & -> & Ht & Hr).
  assert (Hr' : r = [] \/ exists c r', r = c :: r' /\ c ∈ delim) by (destruct Hr as [->|(c' & r' & -> & H)]; [by left|right; exists c', r'; split; [done|by apply dec_stable]]). clear Hr.
  pose proof (words_token delim [] (c :: t) r ltac:(constructor; [exact Hcd|exact Ht]) ltac:(done) Hr') as Hw. cbn [app] in Hw. unfold words at 1. rewrite Hw.
  set (p := s + Z.of_nat (length d)) in *. apply cstr_cons in Hcr as (H1 & _ & H3). cbn [length] in *. rewrite length_app in *.
  rewrite (scan_token_run delim m t r (p + 1) fuel H3 Ht Hr') by lia. replace (p + 1 - 1) with p by lia. destruct Hr' as [->|(c' & r' & -> & Hc')].
  - cbn. exists p, m, 0, []. split_and!; try done; try lia; [apply cstr_cons; split_and!; [done|done|by rewrite app_nil_r in H3]|by left|cbn; lia].
  - assert (Hc'0 : c' <> 0) by (intros ->; done). rewrite (proj2 (Z.eqb_neq c' 0)) by done. set (e := p + 1 + Z.of_nat (length t)). replace (e + 1 - 1) with e by lia.
    assert (Hcut : cstr m p ((c :: t) ++ c' :: r')) by (apply cstr_cons; split_and!; done). exists p, (st8 m e 0), (e + 1), r'. cbn [length tail] in *. split_and!; try done; try lia.
    + pose proof (cstr_cut _ _ _ _ _ Hcut) as H. cbn [length] in H. by replace (p + Z.of_nat (S (length t))) with e in H by lia.
    + right. split; [lia|]. apply cstr_ext with m; [intros x Hx; apply ld8_st8_ne; lia|]. pose proof (cstr_app m p (c :: t ++ [c']) r') as H. cbn [app] in H. rewrite <-app_assoc in H. specialize (H Hcut).
      cbn [length] in H. rewrite length_app in H. cbn [length] in H. by replace (p + Z.of_nat (S (length t + 1))) with (e + 1) in H by lia.
    + intros x Hx. apply ld8_st8_ne. lia.
Qed.

(** ** The shell *)

(** [strcmp(p, q) == 0] of ulib.c for a literal [q], given with its NUL. *)
Fixpoint strcmp_lit (m : mem) (p : Z) (q : list Z) : bool :=
  match q with
  | [] => true
  | c :: q' => if (negb (ld8 m p =? 0) && (ld8 m p =? c))%bool then strcmp_lit m (p + 1) q' else ld8 m p =? c
  end.
(** The string that the kernel takes from a pointer, of at most [n] characters. *)
Fixpoint str_of_ptr (n : nat) (m : mem) (p : Z) : list Z :=
  match n with O => [] | S n' => if ld8 m p =? 0 then [] else ld8 m p :: str_of_ptr n' m (p + 1) end.

(** [gets(buf, max)] of ulib.c, with [n] the value of max - 1. *)
Fixpoint gets_ (n : nat) : itree sysE (list Z) :=
  match n with
  | O => mret []
  | S n' =>
      r ← sys (Read 0 1);
      match r with
      | Some (c :: _) => if ((c =? 10) || (c =? 13))%bool then mret [c] else l ← gets_ n'; mret (c :: l)
      | _ => mret []
      end
  end.

(** The longest string the kernel takes. *)
Definition str_max : nat := 4096.

Section shell.
(** The address of [lc], what is on the stack behind [argv], up to a null word,
    and the text for a failed exec, in which the two files differ. *)
Context (lc_ : Z) (stk : list Z) (erro : list Z).
Definition LC : Z := 81.
Definition lc_fuel : nat := S (Z.to_nat LC).

(** The loop that fills [argv] from index 20 - [n] on: the pointers, and whether
    the last one stored is null. *)
Fixpoint argv_loop (n : nat) (st : mem * Z) : option (list Z * bool * (mem * Z)) :=
  match n with
  | O => Some ([], false, st)
  | S n' =>
      match strtok lc_fuel [32] 0 st with
      | None => None
      | Some (p, st) =>
          if p =? 0 then Some ([], true, st)
          else match argv_loop n' st with None => None | Some (ps, z, st) => Some (p :: ps, z, st) end
      end
  end.

(** What the shell does after it has its arguments. *)
Definition run_child (path : list Z) (argv : list (list Z)) (st : mem * Z) : itree sysE ((mem * Z) + unit) :=
  pid ← sys Fork;
  if pid =? -1 then printf_ 2 (chars "Erro no fork" ++ nl) [] ;; exit_
  else
    (if pid =? 0 then
       r ← sys (Exec path argv);
       if negb (r =? 0) then printf_ 2 (erro ++ nl) [] ;; exit_ else mret tt
     else mret tt) ;;
    sys Wait ;;
    mret (inl st).

(** The rest of the body of the loop, for the line that [gets] stored. *)
Definition shell_line (st : mem * Z) (line : list Z) : itree sysE ((mem * Z) + unit) :=
  let '(m, last) := st in
  let m := Mem.st m lc_ (line ++ [0]) in
  if strcmp_lit m lc_ [0] then mret (inl (m, last))
  else
    match Ulib.strlen lc_fuel m lc_ with
    | None => ITree.spin
    | Some n =>
        let m := st8 m (lc_ + (n - 1)) 0 in
        match strtok lc_fuel [32] lc_ (m, last) with
        | None => ITree.spin
        | Some (a0, (m, last)) =>
            if strcmp_lit m a0 (chars "exit" ++ [0]) then exit_
            else
              match argv_loop 19 (m, last) with
              | None => ITree.spin
              | Some (ps, ended, (m, last)) =>
                  let argv := if a0 =? 0 then [] else a0 :: ps ++ (if ended : bool then [] else stk) in
                  run_child (str_of_ptr str_max m a0) (map (str_of_ptr str_max m) argv) (m, last)
              end
        end
    end.
Definition shell_body (st : mem * Z) : itree sysE ((mem * Z) + unit) :=
  printf_ 1 (chars "Prompt > ") [] ;;
  line ← gets_ 80;
  shell_line st line.
Definition shell_main (m : mem) : itree sysE unit := ITree.iter shell_body (m, 0).
End shell.

(** ** What the shell runs *)

Lemma strcmp_lit_cstr m q : forall p w, cstr m p w -> Forall (fun c => c <> 0) q -> strcmp_lit m p (q ++ [0]) = bool_decide (w = q).
Proof.
  induction q as [|c q IH]; intros p w H Hq; cbn [app strcmp_lit].
  - destruct w as [|b w]; [apply cstr_nil in H; by rewrite H|]. apply cstr_cons in H as (H1 & H2 & _). rewrite H1. rewrite !(proj2 (Z.eqb_neq b 0)) by done. done.
  - inversion_clear Hq as [|? ? Hc Hq']. destruct w as [|b w].
    + apply cstr_nil in H. rewrite H. cbn [negb andb Z.eqb]. rewrite bool_decide_eq_false_2 by done. by destruct c.
    + apply cstr_cons in H as (H1 & H2 & H3). rewrite H1, (proj2 (Z.eqb_neq b 0)) by done. cbn [negb andb]. destruct (b =? c) eqn:E.
      * apply Z.eqb_eq in E as ->. rewrite (IH _ _ H3 Hq'). apply bool_decide_ext. split; [by intros ->|by intros [= ->]].
      * apply Z.eqb_neq in E. rewrite bool_decide_eq_false_2; [done|]. by intros [= ? _].
Qed.
Lemma str_of_ptr_cstr m n : forall p w, cstr m p w -> (length w < n)%nat -> str_of_ptr n m p = w.
Proof.
  induction n as [|n IH]; intros p w H Hn; [lia|]. cbn [str_of_ptr]. destruct w as [|b w]; [apply cstr_nil in H; by rewrite H|]. apply cstr_cons in H as (H1 & H2 & H3).
  rewrite H1, (proj2 (Z.eqb_neq b 0)) by done. f_equal. apply IH; [done|cbn in Hn; lia].
Qed.
Lemma ulib_strlen m l : forall p k fuel, cstr m (p + k) l -> (length l < fuel)%nat -> Ulib.strlen_loop fuel m p k = Some (k + Z.of_nat (length l)).
Proof.
  induction l as [|c l IH]; intros p k fuel H Hf; (destruct fuel as [|fuel]; [cbn in Hf; lia|]); cbn [Ulib.strlen_loop length] in *.
  - apply cstr_nil in H. rewrite H. cbn. f_equal. lia.
  - apply cstr_cons in H as (H1 & H2 & H3). rewrite H1, (proj2 (Z.eqb_neq c 0)) by done. cbn [negb]. rewrite IH; [f_equal; lia| |lia]. by replace (p + (k + 1)) with (p + k + 1) by lia.
Qed.

Lemma words_length delim v l : v ∈ words delim l -> (length v <= length l)%nat.
Proof.
  unfold words. enough (H : forall cur, v ∈ words_from delim cur l -> (length v <= length cur + length l)%nat) by (intros; by apply (H [])).
  induction l as [|c l IH]; intros cur Hv; cbn [words_from length] in *.
  - destruct cur; [by apply elem_of_nil in Hv|]. apply list_elem_of_singleton in Hv as ->. lia.
  - destruct (bool_decide (c ∈ delim)).
    + destruct cur as [|b cur]; [apply IH in Hv; cbn in *; lia|]. apply elem_of_cons in Hv as [->|Hv]; [lia|]. apply IH in Hv. cbn in Hv. lia.
    + apply IH in Hv. rewrite length_app in Hv. cbn in Hv. lia.
Qed.
Lemma cstr_st m a l : Forall (fun c => 0 < c < 256) l -> cstr (Mem.st m a (l ++ [0])) a l.
Proof.
  intros Hl. assert (Hb : bytes (l ++ [0])) by (apply Forall_app; split; [eapply Forall_impl; [exact Hl|]; cbn; lia|repeat constructor; lia]).
  pose proof (ld_st_eq m a (l ++ [0]) Hb) as H. rewrite length_app in H. cbn [length] in H. rewrite ld_app in H. apply app_inj_1 in H as [H1 H2]; [|apply length_ld].
  split_and!; [done|eapply Forall_impl; [exact Hl|]; cbn; lia|]. cbn in H2. by injection H2.
Qed.

Lemma map_of_ptrs n m ps ws : Forall2 (cstr m) ps ws -> (forall p v, v ∈ ws -> cstr m p v -> str_of_ptr n m p = v) -> map (str_of_ptr n m) ps = ws.
Proof. induction 1 as [|p v ps ws C _ IH]; intros H; [done|]. cbn [map]. rewrite (H p v), IH; [done| |left|done]. intros q u Hu. apply H. by right. Qed.

(** The arguments behind the first one: the first [n] words, with a null pointer
    behind them when there are fewer. *)
Lemma argv_loop_run n : forall m last l, rest_at m last l -> (length l <= 80)%nat -> let ws := words [32] l in
  exists ps m' last', argv_loop n (m, last) = Some (ps, bool_decide (length ws < n)%nat, (m', last')) /\ Forall2 (cstr m') ps (take n ws) /\ (forall x, last = 0 \/ x < last -> ld8 m' x = ld8 m x).
Proof.
  induction n as [|n IH]; intros m last l Hr Hl ws; cbn [argv_loop].
  { exists [], m, last. split_and!; [by rewrite bool_decide_eq_false_2 by lia|constructor|done]. }
  pose proof (strtok_next_word lc_fuel [32] 0 m last l) as H. cbn [Z.eqb] in H. subst ws. destruct (words [32] l) as [|w ws] eqn:Hw.
  - destruct H as (last' & -> & _); [done|by intros ?%list_elem_of_singleton|unfold lc_fuel, LC; lia|]. cbn [Z.eqb]. exists [], m, last'. split_and!; [by rewrite bool_decide_eq_true_2 by (cbn; lia)|constructor|done].
  - destruct H as (p & m1 & last1 & l1 & -> & P1 & P2 & C1 & R1 & W1 & L1 & N1 & _ & X1); [done|by intros ?%list_elem_of_singleton|unfold lc_fuel, LC; lia|].
    rewrite (proj2 (Z.eqb_neq p 0)) by lia. destruct (IH m1 last1 l1 R1) as (ps & m' & last' & -> & F & X); [lia|]. rewrite W1 in *.
    exists (p :: ps), m', last'. split_and!; [do 2 f_equal; f_equal; apply bool_decide_ext; cbn; lia| |].
    + cbn [take]. constructor; [|done]. eapply cstr_ext; [|exact C1]. intros x Hx. apply X. destruct R1 as [[-> _]|[R0 _]]; [by left|right]. specialize (N1 ltac:(lia)). lia.
    + intros x Hx. destruct Hr as [[-> ->]|[Hs _]]; [done|]. rewrite X, X1; [done|left; lia|]. destruct R1 as [[-> _]|[R0 _]]; [by left|right]. specialize (N1 ltac:(lia)). lia.
Qed.

(** The memory after a line was stored and its newline removed. *)
Lemma line_stored lc_ m l : Forall (fun c => 0 < c < 256) l -> (length l <= 79)%nat ->
  let m1 := Mem.st m lc_ ((l ++ [10]) ++ [0]) in
  strcmp_lit m1 lc_ [0] = false /\ Ulib.strlen lc_fuel m1 lc_ = Some (Z.of_nat (length l) + 1) /\ cstr (st8 m1 (lc_ + Z.of_nat (length l)) 0) lc_ l.
Proof.
  intros Hl Hn m1. assert (C1 : cstr m1 lc_ (l ++ [10])) by (apply cstr_st; apply Forall_app; split; [done|]; repeat constructor; lia). split_and!.
  - change [0] with ([] ++ [0]). rewrite (strcmp_lit_cstr _ _ _ _ C1) by constructor. apply bool_decide_eq_false_2. by destruct l.
  - unfold Ulib.strlen. rewrite (ulib_strlen m1 (l ++ [10]) lc_ 0 lc_fuel); [f_equal; rewrite length_app; cbn [length]; lia|by rewrite Z.add_0_r|rewrite length_app; cbn [length]; unfold lc_fuel, LC; lia].
  - eapply cstr_cut; exact C1.
Qed.

(** C32: for a line with a word, the shell of the course ends if the first word is
    exit, and otherwise forks once and lets the child execute the first word with
    the words of the line as its arguments, whatever the buffer and the variable
    of [strtok] held before.  The array has 20 entries: with 20 words or more
    it has no null pointer, and what follows it on the stack is passed too. *)
Theorem shell_runs_words lc_ stk erro m last l w ws : 0 < lc_ -> Forall (fun c => 0 < c < 256) l -> (length l <= 79)%nat -> words [32] l = w :: ws ->
  exists st', shell_line lc_ stk erro (m, last) (l ++ [10]) = if decide (w = chars "exit") then exit_
    else run_child erro w (w :: take 19 ws ++ if decide (length ws < 19)%nat then [] else map (str_of_ptr str_max (fst st')) stk) st'.
Proof.
  intros Hlc Hl Hn Hw. unfold shell_line. assert (HN : (80 < str_max)%nat) by (apply Nat.ltb_lt; reflexivity). generalize dependent str_max. intros N HN. destruct (line_stored lc_ m l Hl Hn) as (E0 & El & C2). rewrite E0, El.
  replace (lc_ + (Z.of_nat (length l) + 1 - 1)) with (lc_ + Z.of_nat (length l)) by lia. set (m2 := st8 _ _ 0) in *.
  pose proof (strtok_next_word lc_fuel [32] lc_ m2 last l) as H. rewrite (proj2 (Z.eqb_neq lc_ 0)) in H by lia. rewrite Hw in H.
  destruct H as (p & m3 & last3 & l3 & -> & P1 & P2 & C3 & R3 & W3 & L3 & N3 & M3 & X3); [by right|by intros ?%list_elem_of_singleton|unfold lc_fuel, LC; lia|].
  rewrite (strcmp_lit_cstr _ _ _ _ C3) by (repeat constructor; discriminate). destruct (decide (w = chars "exit")) as [E|E]; [rewrite bool_decide_eq_true_2 by done; by exists (m, last)|].
  rewrite bool_decide_eq_false_2 by done. destruct (argv_loop_run 19 m3 last3 l3 R3) as (ps & m' & last' & -> & F & X); [lia|]. rewrite W3 in *. rewrite (proj2 (Z.eqb_neq p 0)) by lia. exists (m', last').
  assert (C' : cstr m' p w).
  { eapply cstr_ext; [|exact C3]. intros x Hx. apply X. destruct R3 as [[-> _]|[R0 _]]; [by left|right]. specialize (N3 ltac:(lia)). lia. }
  assert (Hlen : forall q v, v ∈ w :: ws -> cstr m' q v -> str_of_ptr N m' q = v).
  { intros q v Hv C. apply str_of_ptr_cstr; [done|]. rewrite <-Hw in Hv. apply words_length in Hv. lia. }
  assert (Emap : map (str_of_ptr N m') ps = take 19 ws) by (apply (map_of_ptrs N m' ps (take 19 ws) F); intros q v Hv; apply Hlen; right; revert Hv; apply (subseteq_take 19 ws)).
  cbn [map fst]. rewrite map_app, (Hlen p w), Emap by (done || left). case_decide; [rewrite bool_decide_eq_true_2 by done|rewrite bool_decide_eq_false_2 by done]; reflexivity.
Qed.

(** At the end of the input [gets] stores the empty string, and the shell asks
    again, without end. *)
Lemma shell_at_end lc_ stk erro m last : shell_line lc_ stk erro (m, last) [] = mret (inl (Mem.st m lc_ [0], last)).
Proof.
  unfold shell_line. cbn [app]. assert (C : cstr (Mem.st m lc_ ([] ++ [0])) lc_ []) by (apply cstr_st; constructor). cbn [app] in C.
  pose proof (strcmp_lit_cstr _ [] _ _ C) as E. cbn [app] in E. rewrite E by constructor. done.
Qed.

(** A line without a word is executed as well: the null pointer stands for the
    first word, so the string at address 0 is compared and given to [exec]. *)
Lemma shell_blank_line lc_ stk erro m last l : 0 < lc_ -> Forall (fun c => 0 < c < 256) l -> (length l <= 79)%nat -> words [32] l = [] ->
  exists m1 st', shell_line lc_ stk erro (m, last) (l ++ [10]) =
    if strcmp_lit m1 0 (chars "exit" ++ [0]) then exit_ else run_child erro (str_of_ptr str_max (fst st') 0) [] st'.
Proof.
  intros Hlc Hl Hn Hw. unfold shell_line. generalize dependent str_max. intros N. destruct (line_stored lc_ m l Hl Hn) as (E0 & El & C2). rewrite E0, El.
  replace (lc_ + (Z.of_nat (length l) + 1 - 1)) with (lc_ + Z.of_nat (length l)) by lia. set (m2 := st8 _ _ 0) in *.
  pose proof (strtok_next_word lc_fuel [32] lc_ m2 last l) as H. rewrite (proj2 (Z.eqb_neq lc_ 0)) in H by lia. rewrite Hw in H.
  destruct H as (last' & -> & R); [by right|by intros ?%list_elem_of_singleton|unfold lc_fuel, LC; lia|]. exists m2.
  destruct (argv_loop_run 19 m2 last' [] R) as (ps & m' & last2 & -> & _ & _); [cbn; lia|]. by exists (m', last2).
Qed.

(** The shell runs echo with the two words of the line "echo hi". *)
Lemma shell_runs_words_witness : exists st', shell_line 0x2f00 [] [] (∅, 0) (chars "echo hi" ++ [10]) = run_child [] (chars "echo") [chars "echo"; chars "hi"] st'.
Proof.
  destruct (shell_runs_words 0x2f00 [] [] ∅ 0 (chars "echo hi") (chars "echo") [chars "hi"]) as [st' E]; [lia|repeat constructor; lia|cbn; lia|reflexivity|].
  exists st'. rewrite E. rewrite decide_False by discriminate. reflexivity.
Defined.
